(* ===== verification/_CoqProject ===== *)
-Q . S2P
Prelude.v
Validation.v
Model.v
Bytes.v
Utf8.v
Json.v
JsonParsing.v
JsonCanonical.v
Documents.v
QueueCommon.v
QueueSpec.v
RingSpsc.v
RingConcurrent.v
LinkedSpsc.v
LifecycleStateMachine.v
LifecycleRuntime.v
Executor.v
Timing.v
Deterministic.v
Records.v
Packages.v
WorkingSet.v
Capture.v
Semantic.v
RawObservations.v
Reconciliation.v
Load.v
SemanticRecords.v
Configuration.v
BlockPlanning.v
BlockPlans.v
Precision.v
Access.v
AccessControl.v
StudyPool.v
CrossRecord.v
RunGraph.v
Rationals.v
Calibration.v
RingCalibration.v
Qualification.v
PlatformControl.v
PlatformRecords.v
Schedule.v
Artifacts.v
ArtifactStore.v
Finalization.v
CaptureBackend.v
Budget.v
Binary64.v
Analysis.v
Inference.v
AnalysisPipeline.v
Runner.v
LinuxInventory.v
