(* ===== verification/Prelude.v ===== *)
(** * Verification of the CPU-prefetch measurement program

    The program measures the latency of events that a producer thread passes to
    a consumer thread through a bounded single-producer single-consumer queue,
    with and without software prefetching. A study consists of platform and
    clock qualification, calibration, planning, runs and their evaluation, and
    the development follows these parts.

    - Documents. Every record of a study is a JSON document with a canonical
      text ([src/protocol/json.cpp]), loaded and validated by
      [src/protocol/configuration.cpp] and [semantic.cpp].
    - Platform and clock. Requested machine states are applied, verified and
      recorded ([src/platform/platform.cpp]); the clock is qualified from
      captured readings ([src/timing/qualification.cpp]).
    - Calibration. Service rates and lookahead distances from tolerance limits
      over independent runs ([src/calibration/calibration.cpp]).
    - Planning. Randomized blocks of 180 cells, the precision of a plan, access
      to outcomes and replacements ([src/orchestration]), schedules of arrivals
      ([src/schedule/schedule.cpp]) and storage budgets
      ([src/storage/budget.cpp]).
    - Preparation of a run. Seeds and streams of random numbers
      ([src/workload/deterministic.cpp]), the arena of event records
      ([records.cpp]), the working sets ([working_set.cpp]), the queue packages
      R0, R1, R2, L0 and L1 ([packages.cpp]) around a ring or a linked queue
      ([src/queue]).
    - Execution. [execute_measurement] ([lifecycle/executor.hpp]) starts two
      workers behind a barrier ([lifecycle/runtime.cpp]); each call of a worker
      goes to the capturing backend ([storage/capture_backend.hpp]), which reads
      the clock at every boundary ([timing/capture.hpp]) and appends a row to a
      preallocated stream ([storage/raw_observations.cpp]). A run advances
      through a phase graph and journals the artifacts of every transition
      ([lifecycle/state_machine.cpp]).
    - Storage. Streams, envelopes and reports are published to an append-only
      store with two domains ([src/storage/artifact_store.cpp],
      [finalization.cpp]).
    - Evaluation. The streams are decoded, validated and joined
      ([reconciliation/reconciliation.cpp], [timing/intervals.cpp]), the run's
      independent gates are evaluated, and the records of a whole study are
      checked against each other.
    - Analysis. Run summaries, contrasts, the complete-block bootstrap with its
      max-T intervals, prospective block counts and the registered families,
      opened in the order of the access gates ([src/analysis/analysis.cpp]).
    - Admission and inventory. The runner admits an execution from a document,
      a trust anchor and evidence files ([src/runner/runner.cpp],
      [tools/runner_main.cpp]); the platform inventory of a Linux host is parsed
      from its system files ([src/platform/linux_inventory.cpp],
      [tools/stand_preflight_main.cpp]).

    ** Files

    Each file models the sources its opening comment names; a definition keeps
    the name of the function, method or type it translates, prefixed where two
    components use the same name.

    - [Prelude]: machine integers with their wrap-around, exceptions, loops with
      a binary bound, the tactics and hints the other files use.
    - [Validation], [Model]: errors and results; enumerations with their parsers,
      identifiers, digests, observation rows.
    - [Bytes], [Utf8]: big- and little-endian words and length-prefixed fields;
      UTF-8.
    - [Json], [JsonParsing], [JsonCanonical]: the JSON parser and canonical
      printer; totality and well-formedness; the round trip.
    - [Documents], [Load], [Semantic], [SemanticRecords], [Configuration]: the
      records of the protocol, their loaders, the record-local rules and the
      composition of the three.
    - [QueueCommon], [QueueSpec]: set-up arithmetic of the queues; the interface
      [SpscQueue] of a package and its contract [SpscQueueLaws] against an
      abstract bounded first-in first-out queue.
    - [RingSpsc], [LinkedSpsc]: the two queues, one call at a time, with their
      boundary observers, constructors and audits; both are instances of the
      contract.
    - [RingConcurrent]: the ring operations one atomic access at a time, producer
      and consumer interleaved, with stale loads.
    - [LifecycleStateMachine], [LifecycleRuntime]: the phase graph and journal;
      the termination word, the start barrier (also access by access) and the
      validators of the run-time evidence.
    - [Executor]: the three threads of [execute_measurement] as step functions
      that an execution interleaves.
    - [Timing], [Qualification]: clock conversion and the nine intervals of a
      joined row; the qualification of clocks.
    - [Deterministic], [Records], [Packages], [WorkingSet]: the preparation.
    - [Capture]: one attempt and one poll with their timestamps, against the
      interface [TimedPackage] of a package and any clock.
    - [RawObservations]: row layout, streams, decoder, joined codec, on bytes.
    - [Reconciliation]: the join of the two streams and the status of a run.
    - [CaptureBackend]: the backend, and sessions of calls from the first
      attempt to the joined rows.
    - [BlockPlanning], [BlockPlans], [Precision], [Access], [AccessControl],
      [StudyPool]: block plans and their correctness, precision plans, the
      access ledger and its refinement of an abstract custody machine,
      replacements, and the records of a study as a whole.
    - [CrossRecord], [RunGraph]: the validators across records, and what an
      accepted graph of records proves about its runs.
    - [Rationals], [Calibration], [RingCalibration]: exact 64-bit rationals and
      quantiles; service rates; demand traces and lookahead distances.
    - [PlatformControl], [PlatformRecords]: requested states, application with
      restoration, verification; manifests and platform records.
    - [Schedule]: derivation records, schedule artifacts and schedule uses.
    - [Artifacts], [ArtifactStore], [Finalization]: storage documents; the store
      against the interfaces [FileSystem] and [IncrementalDigest] and their laws
      [FileSystemLaws] and [DigestLaws]; the finalization of a run.
    - [Budget]: storage budgets.
    - [Binary64]: the operations on [double] with their rounding, and the order
      of values that are not NaN.
    - [Analysis], [Inference], [AnalysisPipeline]: grants, quantiles and run
      summaries; contrasts, resampling, families and selections; the pipeline
      and its reports.
    - [Runner]: the admission, the ticket and its dispatch, against the
      interface [EvidenceFiles] and the digest interface of the run store.
    - [LinuxInventory]: the parsers of system files, the inventory and its
      collection, against the interface [LinuxHost].

    ** Conventions

    Unsigned 64-bit values are integers of [Z]; an operation of the source that
    can leave the range is written with its wrap-around ([u64_add], [u64_sub],
    [u64_mul]), and theorems that need it assume [is_u64], the range of the type.
    A thrown exception is [Threw] of its message, a [Result<T>] is a value or a
    list of errors, a checked operation is an option. A [double] is a binary64
    value and every operation on it rounds. Pointers are addresses. A [std::map] is the list of its entries in the order of its keys. Shared state
    of threads is one record that every step updates. Code that is not in the
    repository is a parameter: SHA-256 and HMAC-SHA-256, the kernel's clock and
    file system, the allocator's addresses and the contents of fresh memory, the
    actuator and the verifier of a platform, [std::log] (its precision is the
    library's), the metadata that the build generates, the macros of the compiler
    and the files, [uname] and [sysconf] of a host. What is assumed of them is a
    hypothesis of the theorem: [clock_monotone] (a clock does not go back and its
    samples are 64-bit values), the length of fresh memory, of a digest or of an
    HMAC, [ActuatorLaws] (an actuator touches its own control), [FileSystemLaws]
    (what the manuals say of the calls, and nothing about what a write stores).
    Every such theorem has a witness that instantiates the parameters.

    ** What the theorems show

    - End to end: an execution that reports no failure attempted every arrival
      exactly once, in order and not early, and consumed what it accepted, under
      every interleaving ([Executor.execution_success_exact]); executions are
      bounded and failures attributed. Whatever a session of the backend
      recorded decodes unchanged and reconciles into one joined row per accepted
      event ([CaptureBackend.session_reconciles]). A sealed finalization left
      both streams and the envelopes that describe them in both domains
      ([Finalization.finalization_sealed_sound]).
    - Documents: the parser is total, parsed documents are well formed, and the
      canonical text is a round trip; a loaded configuration satisfies every
      local rule of its kind.
    - Queues: each operation of the ring and of the linked queue is the
      abstract operation; both answer every sequence alike; interleaved ring
      accesses deliver a prefix of the accepted events in order and overwrite
      nothing; no prefetch policy changes a result.
    - Barrier and lifecycle: a released worker reads the published origin in
      spite of relaxed accesses; journals are legal, failures fabricate no
      artifacts, success phases have their full history.
    - Observations: captured rows have ordered timestamps and the right
      outcome; streams round trip and their format is canonical; [reconcile]
      passes exactly for exact joins; the intervals are exact and additive;
      gates, blockers and validity of a run follow from its evidence.
    - Storage: no use of a store changes a file that exists; a sealed object
      keeps its verified copies; ledgers and envelopes say what is stored.
    - Planning: generated block plans are complete, randomized, and load back;
      precision plans and study pools count exactly; an access ledger refines
      the custody machine and outcome access is gated by it; schedules are
      prepared exactly when bytes, digests and window agree.
    - Record graphs: in an accepted graph every run has verified artifacts and
      joined rows that are regenerated from its raw streams.
    - Calibration and clocks: rational comparison is exact without overflow,
      quantiles are order statistics, rates are least throughputs, distances are
      conservative tails; qualified offsets are exactly the consistent ones.
    - Platform: application is transactional, verification exact, and only a
      completely applied and verified state is eligible.
    - Preparation: permutations, distinct Philox blocks, unbiased rejection,
      injective derivation messages and checksum pre-images, exact record
      access, optimal common capacity, truthful node orders.
    - Budgets: exact figures, and no overflow that goes unnoticed.
    - Analysis: the pipeline returns a report or errors and never throws
      ([AnalysisPipeline.analysis_never_throws]), and a report is based on
      validated inputs and open gates ([AnalysisPipeline.analysis_gates]); grants
      are backed by the ledger; quantiles of run-length encoded samples are
      order statistics of the expanded samples; summaries agree with the joined
      rows; the decisions of a family follow from one critical value over the
      resampled blocks; selections and block counts are least; the Stage A
      design has full rank.
    - Runner: a ticket exists exactly when every field, digest and binding of an
      admission agrees ([Runner.admission_exact]), a loaded admission is exactly
      its document, and a ticket is dispatched to the package it names.
    - Inventory: a list of processors denotes exactly its ranges, and an
      inventory says what the files of the snapshot say.

    Some theorems show behaviour that disagrees with the documentation:
    [RunGraph.foreign_producer_accepted], [Configuration.not_applicable_rejected],
    [PlatformControl.unobserved_prestate_mutated],
    [PlatformRecords.partial_apply_has_no_manifest],
    [Schedule.unbound_derivation_accepted], [Inference.foreign_cells_throw],
    [Inference.max_t_accepts_nan] and [Runner.runner_refuses_itself].

    ** Bounds and fuel

    Recursion is structural on the data except in these places. [loop_pos] runs
    a body at most a given binary number of times: the rejection loop of
    [make_permutation] throws when its 64-bit ordinal is exhausted, so [2^64]
    iterations always leave it ([Deterministic.draw_loop_ends]), the bounded draw
    of the bootstrap likewise, and the bounded waits pass their own poll limit.
    The loop that inserts a range of processors has one step more than the range
    has members and never runs out ([LinuxInventory.parse_cpu_list_exact]). [std_to_string] uses 20 digits, enough below
    [2^64]; [decimal_digits] has the binary length of its number. The decoders of
    UTF-8 have the length of their text as fuel and consume at least one byte per
    step. The JSON parser has the length of the text plus one, and
    [JsonParsing.parse_total] shows that this is never exhausted; the shortest
    binary64 text has at most 17 digits. The comparison of rationals has 129
    rounds, one more than two 64-bit Euclidean divisions can take
    ([Rationals.compare_rationals_exact]). The write and read loops of the store
    have the number of bytes plus the number of signals
    ([ArtifactStore.write_loop_spec], [ArtifactStore.read_loop_spec]). The chain
    walk of the linked audit has [capacity + 2] steps and marks a new node in
    each. Execution and barrier are step relations;
    [Executor.execution_terminates] bounds the length of an execution by an
    explicit measure and shows that it is never stuck.

    ** Not modelled

    The adapters that forward the calls of a queue, which have neither state nor
    decisions of their own, and the probes of the generated code. The PAUSE
    instruction of a waiting loop has no effect on the state. Whether an atomic
    is lock-free is a parameter of the inventory; the queues' own queries for it
    and for the layout of their objects are left out. A digest that fails throws out of the code that calls
    [workload::sha256]; the digest there is a total parameter. In
    [CaptureBackend] a session interleaves whole calls of the workers; the
    interleaving of single accesses is the subject of [RingConcurrent]. The order
    [std::sort] gives to NUMA nodes with equal numbers is unspecified, and the
    model keeps the order of insertion there. *)

From stdpp Require Import prelude list strings.
From Stdlib Require Import ZArith Lia.

#[local] Open Scope Z_scope.

(** ** Machine integers

    [std::uint64_t], [std::size_t] and [std::uintptr_t] values are integers of
    [Z] in [0, 2^64); every arithmetic operation of the source that may leave
    that range is written with its wrap-around. *)

Definition u64_modulus : Z := 18446744073709551616.

Definition u64_max : Z := 18446744073709551615.

Definition u32_modulus : Z := 4294967296.

Definition u32_max : Z := 4294967295.

Definition i64_max : Z := 9223372036854775807.

Definition i64_min : Z := -9223372036854775808.

Definition is_u64 (z : Z) : Prop := 0 <= z <= u64_max.

Definition is_u32 (z : Z) : Prop := 0 <= z <= u32_max.

Definition is_i64 (z : Z) : Prop := i64_min <= z <= i64_max.

Definition u64_wrap (z : Z) : Z := z mod u64_modulus.

Definition u32_wrap (z : Z) : Z := z mod u32_modulus.

Definition u64_add (a b : Z) : Z := u64_wrap (a + b).

Definition u64_sub (a b : Z) : Z := u64_wrap (a - b).

Definition u64_mul (a b : Z) : Z := u64_wrap (a * b).

Definition u32_add (a b : Z) : Z := u32_wrap (a + b).

(** [static_cast<std::uint64_t>] of a signed 64-bit value. *)
Definition u64_of_i64 (z : Z) : Z := u64_wrap z.

(** Byte values of [std::byte] and [unsigned char]. *)
Definition is_byte (z : Z) : Prop := 0 <= z < 256.

(** ** Notations for the option monad of checked arithmetic *)

Declare Scope checked_scope.
Delimit Scope checked_scope with checked.

Notation "'let?' x ':=' e 'in' k" :=
  (match e with Some x => k | None => None end)
  (at level 10, x name, e at level 200, k at level 200,
   format "'let?'  x  ':='  e  'in' '//' k") : checked_scope.

(** ** Exceptions

    Set-up code of the program reports errors by throwing a subclass of
    [std::invalid_argument]; [Threw] carries its [what()] string. *)

Inductive Throws (A : Type) : Type :=
| Returned (a : A)
| Threw (what : string).
Arguments Returned {A} _.
Arguments Threw {A} _.

Notation "'let!' x ':=' e 'in' k" :=
  (match e with Returned x => k | Threw w => Threw w end)
  (at level 10, x name, e at level 200, k at level 200,
   format "'let!'  x  ':='  e  'in' '//' k") : checked_scope.

Notation "'throw_if' b w ';;' k" :=
  (if b then Threw w%string else k)
  (at level 10, b at level 9, w at level 9, k at level 200,
   format "'throw_if'  b  w  ';;' '//' k") : checked_scope.

(** ** Decimal rendering: [std::to_string] of an unsigned 64-bit value *)

Definition decimal_digit (d : Z) : Ascii.ascii :=
  Ascii.ascii_of_N (Z.to_N (48 + d)).

Fixpoint decimal_go (fuel : nat) (z : Z) (acc : string) : string :=
  match fuel with
  | O => acc
  | S fuel =>
      let acc := String (decimal_digit (z mod 10)) acc in
      if z <? 10 then acc else decimal_go fuel (z / 10) acc
  end.

(** Twenty decimal digits are enough for every value below [2^64]. *)
Definition std_to_string (z : Z) : string := decimal_go 20 z EmptyString.

(** [std::string::empty]. *)
Definition str_empty (s : string) : bool :=
  match s with EmptyString => true | String _ _ => false end.

Lemma str_empty_false s : str_empty s = false <-> s <> EmptyString.
Proof. by destruct s. Qed.

(** ** Loops with a binary iteration bound

    [loop_pos p body s] runs [body] at most [p] times: [inl] continues with a
    new state, [inr] leaves the loop. The bound is a binary number, so a loop
    bounded by a 64-bit counter evaluates without building a unary one. *)

Fixpoint loop_pos {S R : Type} (p : positive) (body : S -> S + R) (s : S) : S + R :=
  match p with
  | xH => body s
  | xO p =>
      match loop_pos p body s with
      | inl s => loop_pos p body s
      | inr r => inr r
      end
  | xI p =>
      match body s with
      | inl s =>
          match loop_pos p body s with
          | inl s => loop_pos p body s
          | inr r => inr r
          end
      | inr r => inr r
      end
  end.

(** ** Tactics *)

(** Unfold the machine-integer vocabulary for [lia]. *)
Ltac unfold_ints :=
  unfold is_u64, is_u32, is_i64, is_byte, u64_max, u64_modulus, u32_max, u32_modulus,
    i64_max, i64_min in *.

Ltac int_lia := unfold_ints; lia.

(** Split conjunctions in the hypotheses. *)
Ltac split_hyps :=
  repeat match goal with
    | H : _ /\ _ |- _ => destruct H
    | H : (_ && _)%bool = true |- _ => apply andb_true_iff in H; destruct H
    | H : (_ || _)%bool = false |- _ => apply orb_false_iff in H; destruct H
    end.

(** Destruct the scrutinee of the next [if] or [match] of a hypothesis. *)
Ltac destr_in H :=
  match type of H with
  | context [match ?x with _ => _ end] => destruct x eqn:?
  end.

(** ** Lemmas on machine integers *)

Section Integers.

Lemma u64_wrap_id z : is_u64 z -> u64_wrap z = z.
Proof. intros H. apply Z.mod_small. int_lia. Qed.

Lemma u64_wrap_range z : is_u64 (u64_wrap z).
Proof. pose proof (Z.mod_pos_bound z u64_modulus eq_refl). unfold u64_wrap. int_lia. Qed.

Lemma u32_wrap_id z : is_u32 z -> u32_wrap z = z.
Proof. intros H. apply Z.mod_small. int_lia. Qed.

Lemma u32_wrap_range z : is_u32 (u32_wrap z).
Proof. pose proof (Z.mod_pos_bound z u32_modulus eq_refl). unfold u32_wrap. int_lia. Qed.

Lemma u64_add_small a b : 0 <= a + b <= u64_max -> u64_add a b = a + b.
Proof. intros. apply u64_wrap_id. int_lia. Qed.

Lemma u64_sub_small a b : 0 <= b <= a -> a <= u64_max -> u64_sub a b = a - b.
Proof. intros. apply u64_wrap_id. int_lia. Qed.

Lemma u64_mul_small a b : 0 <= a * b <= u64_max -> u64_mul a b = a * b.
Proof. intros. apply u64_wrap_id. int_lia. Qed.

(** One wrap of a cursor: sums below twice the modulus. *)
Lemma mod_wrap_once a b c :
  0 <= a < c -> 0 <= b <= c ->
  (a + b) mod c = if a + b <? c then a + b else a + b - c.
Proof.
  intros Ha Hb. destruct (Z.ltb_spec (a + b) c).
  - apply Z.mod_small. lia.
  - symmetry. apply Z.mod_unique with 1; lia.
Qed.

Lemma mod_offset_inj a i j c :
  0 <= a < c -> 0 <= i < c -> 0 <= j < c -> (a + i) mod c = (a + j) mod c -> i = j.
Proof.
  intros Ha Hi Hj. rewrite !mod_wrap_once by lia.
  destruct (Z.ltb_spec (a + i) c), (Z.ltb_spec (a + j) c); lia.
Qed.

(** Multiplication by an invertible constant is injective modulo [m]. *)
Lemma invertible_mul_inj c inv m a b :
  (c * inv) mod m = 1 -> 0 <= a < m -> 0 <= b < m -> (c * a) mod m = (c * b) mod m -> a = b.
Proof.
  intros Hinv Ha Hb E.
  assert (R : forall x, 0 <= x < m -> (inv * ((c * x) mod m)) mod m = x).
  { intros x Hx. rewrite Zmult_mod_idemp_r. replace (inv * (c * x)) with (c * inv * x) by ring.
    rewrite <- Zmult_mod_idemp_l, Hinv. rewrite Z.mul_1_l. by apply Z.mod_small. }
  rewrite <- (R a Ha), <- (R b Hb). by rewrite E.
Qed.

Lemma lxor_inj_r a b c : Z.lxor a c = Z.lxor b c -> a = b.
Proof.
  intros E. apply (f_equal (fun x => Z.lxor x c)) in E.
  by rewrite !Z.lxor_assoc, Z.lxor_nilpotent, !Z.lxor_0_r in E.
Qed.

Lemma lxor_inj_l a b c : Z.lxor c a = Z.lxor c b -> a = b.
Proof. rewrite !(Z.lxor_comm c). apply lxor_inj_r. Qed.

Lemma lxor_range n a b : 0 <= n -> 0 <= a < 2 ^ n -> 0 <= b < 2 ^ n -> 0 <= Z.lxor a b < 2 ^ n.
Proof.
  intros Hn Ha Hb.
  assert (E : Z.lxor a b = Z.lxor a b mod 2 ^ n).
  { apply Z.bits_inj'. intros k Hk. rewrite Z.testbit_mod_pow2 by lia.
    destruct (Z.ltb_spec k n); [done|]. rewrite Z.lxor_spec.
    rewrite <- (Z.mod_small a (2 ^ n)), <- (Z.mod_small b (2 ^ n)) by done.
    by rewrite !Z.mod_pow2_bits_high by lia. }
  rewrite E. apply Z.mod_pos_bound. apply Z.pow_pos_nonneg; lia.
Qed.

(** Xor with a right shift of itself loses nothing. *)
Lemma xorshift_inj k a b :
  0 < k -> 0 <= a -> 0 <= b ->
  Z.lxor a (Z.shiftr a k) = Z.lxor b (Z.shiftr b k) -> a = b.
Proof.
  intros Hk Ha Hb E. set (z := Z.lxor a b).
  assert (Hz : z = Z.shiftr z k).
  { unfold z. rewrite Z.shiftr_lxor. apply Z.lxor_eq.
    rewrite Z.lxor_assoc, <- (Z.lxor_assoc b), (Z.lxor_comm b (Z.shiftr a k)).
    rewrite Z.lxor_assoc, <- Z.lxor_assoc, E. apply Z.lxor_nilpotent. }
  assert (Hz0 : 0 <= z) by (apply Z.lxor_nonneg; lia).
  rewrite Z.shiftr_div_pow2 in Hz by lia.
  assert (1 < 2 ^ k) by (apply Z.pow_gt_1; lia).
  assert (z = 0).
  { destruct (Z.eq_dec z 0) as [|]; [done|]. pose proof (Z.div_lt z (2 ^ k)). lia. }
  by apply Z.lxor_eq.
Qed.

(** Words put side by side. *)
Lemma lor_shiftl_add h l n : 0 <= n -> 0 <= l < 2 ^ n -> Z.lor (Z.shiftl h n) l = h * 2 ^ n + l.
Proof.
  intros Hn Hl. rewrite <- Z.shiftl_mul_pow2 by done.
  assert (Z.land (Z.shiftl h n) l = 0) as Hland.
  { apply Z.bits_inj'. intros k Hk. rewrite Z.land_spec, Z.bits_0.
    destruct (Z.lt_ge_cases k n).
    - by rewrite Z.shiftl_spec_low.
    - rewrite andb_comm. rewrite <- (Z.mod_small l (2 ^ n)) by done.
      by rewrite Z.mod_pow2_bits_high by lia. }
  by rewrite Z.add_nocarry_lxor, Z.lxor_lor.
Qed.

(** A decidable statement about a small range, checked by evaluation. *)
Lemma forall_below (n : nat) (P : Z -> bool) :
  forallb (fun i => P (Z.of_nat i)) (seq 0 n) = true ->
  forall z, 0 <= z < Z.of_nat n -> P z = true.
Proof.
  intros H z Hz. rewrite forallb_forall in H. rewrite <- (Z2Nat.id z) by lia.
  apply H, in_seq. lia.
Qed.

End Integers.

(** ** Lemmas on bounded loops *)

Section Loops.

Context {S R : Type} (body : S -> S + R).

(** Reference semantics of a bounded loop: a unary iteration count. *)
Fixpoint loop_nat (n : nat) (s : S) : S + R :=
  match n with
  | O => inl s
  | Datatypes.S n =>
      match body s with
      | inl s => loop_nat n s
      | inr r => inr r
      end
  end.

Lemma loop_nat_add n m s :
  loop_nat (n + m) s =
    match loop_nat n s with inl s => loop_nat m s | inr r => inr r end.
Proof.
  revert s. induction n as [|n IH]; intros s; simpl; [done|].
  destruct (body s); [apply IH | done].
Qed.

Lemma loop_pos_nat p s : loop_pos p body s = loop_nat (Pos.to_nat p) s.
Proof.
  revert s. induction p as [p IH|p IH|]; intros s; cbn [loop_pos].
  - rewrite Pos2Nat.inj_xI. cbn [loop_nat]. destruct (body s) as [s'|r]; [|done].
    replace (2 * Pos.to_nat p)%nat with (Pos.to_nat p + Pos.to_nat p)%nat by lia.
    rewrite loop_nat_add, IH. destruct (loop_nat _ s'); auto.
  - rewrite Pos2Nat.inj_xO.
    replace (2 * Pos.to_nat p)%nat with (Pos.to_nat p + Pos.to_nat p)%nat by lia.
    rewrite loop_nat_add, IH. destruct (loop_nat _ s); auto.
  - simpl. destruct (body s); done.
Qed.

(** Invariant and exit rule for bounded loops. *)
Lemma loop_pos_inv (I : S -> Prop) (Q : R -> Prop) p s :
  I s ->
  (forall s s', I s -> body s = inl s' -> I s') ->
  (forall s r, I s -> body s = inr r -> Q r) ->
  match loop_pos p body s with inl s' => I s' | inr r => Q r end.
Proof.
  intros Hs Hstep Hexit. rewrite loop_pos_nat.
  revert s Hs. induction (Pos.to_nat p) as [|n IH]; intros s Hs; cbn [loop_nat]; [done|].
  destruct (body s) as [s'|r] eqn:E; [apply IH; eauto | eauto].
Qed.

End Loops.

Create HintDb ints.
#[export] Hint Resolve u64_wrap_range u32_wrap_range : ints.
