(* ===== verification/Validation.v ===== *)
(** * Validation errors and results

    Models [include/cpu_prefetch/protocol/validation.hpp] and
    [src/protocol/validation.cpp]: the error categories, the
    [ValidationError] record every validator of the program appends to its
    [errors] vector, and the [Result<T>] sum of a value and a list of errors. *)

From stdpp Require Import prelude list strings.
From Stdlib Require Import ZArith Lia.
From S2P Require Import Prelude.

Inductive ErrorCategory : Set :=
| ErrorCategory_parse_error
| ErrorCategory_missing_field
| ErrorCategory_unknown_field
| ErrorCategory_invalid_type
| ErrorCategory_unknown_enum
| ErrorCategory_unsupported_version
| ErrorCategory_invalid_id
| ErrorCategory_invalid_hash
| ErrorCategory_invalid_unit
| ErrorCategory_out_of_range
| ErrorCategory_duplicate_value
| ErrorCategory_cross_field
| ErrorCategory_missing_evidence
| ErrorCategory_reference_mismatch
| ErrorCategory_immutable_configuration
| ErrorCategory_unsupported_number.

Definition to_string_ErrorCategory (category : ErrorCategory) : string :=
  match category with
  | ErrorCategory_parse_error => "PARSE_ERROR"
  | ErrorCategory_missing_field => "MISSING_FIELD"
  | ErrorCategory_unknown_field => "UNKNOWN_FIELD"
  | ErrorCategory_invalid_type => "INVALID_TYPE"
  | ErrorCategory_unknown_enum => "UNKNOWN_ENUM"
  | ErrorCategory_unsupported_version => "UNSUPPORTED_VERSION"
  | ErrorCategory_invalid_id => "INVALID_ID"
  | ErrorCategory_invalid_hash => "INVALID_HASH"
  | ErrorCategory_invalid_unit => "INVALID_UNIT"
  | ErrorCategory_out_of_range => "OUT_OF_RANGE"
  | ErrorCategory_duplicate_value => "DUPLICATE_VALUE"
  | ErrorCategory_cross_field => "CROSS_FIELD"
  | ErrorCategory_missing_evidence => "MISSING_EVIDENCE"
  | ErrorCategory_reference_mismatch => "REFERENCE_MISMATCH"
  | ErrorCategory_immutable_configuration => "IMMUTABLE_CONFIGURATION"
  | ErrorCategory_unsupported_number => "UNSUPPORTED_NUMBER"
  end.

Record ValidationError : Set := mkError {
  category : ErrorCategory;
  path : string;
  rule_id : string;
  message : string
}.

Inductive Result (T : Type) : Type :=
| success (value : T)
| failure (errors : list ValidationError).
Arguments success {T} _.
Arguments failure {T} _.

Definition has_value {T : Type} (r : Result T) : bool :=
  match r with success _ => true | failure _ => false end.

(** [Result::errors]: empty for a success. *)
Definition errors_of {T : Type} (r : Result T) : list ValidationError :=
  match r with success _ => [] | failure errors => errors end.

(** [failure] of one error. *)
Definition fail_with {T : Type} (c : ErrorCategory) (p rule msg : string) : Result T :=
  failure [mkError c p rule msg].

(** Failures end a computation, as the exceptions of the loaders do. *)
Definition rbind {A B : Type} (r : Result A) (k : A -> Result B) : Result B :=
  match r with success a => k a | failure errors => failure errors end.

Declare Scope result_scope.
Delimit Scope result_scope with result.

Notation "'let*' x ':=' e 'in' k" := (rbind e (fun x => k))
  (at level 10, x name, e at level 200, k at level 200,
   format "'let*'  x  ':='  e  'in' '//' k") : result_scope.

Notation "'fail_if' b e ';;' k" := (if b then failure [e] else k)
  (at level 10, b at level 9, e at level 9, k at level 200,
   format "'fail_if'  b  e  ';;' '//' k") : result_scope.

(** The validators' idiom: [if (condition) add_error(errors, ...)]. *)
Definition error_when (condition : bool) (e : ValidationError) : list ValidationError :=
  if condition then [e] else [].

#[export] Instance ErrorCategory_eq_dec : EqDecision ErrorCategory.
Proof. solve_decision. Defined.

#[export] Instance ValidationError_eq_dec : EqDecision ValidationError.
Proof. solve_decision. Defined.

(** ** Lemmas *)

Lemma error_when_nil b e : error_when b e = [] <-> b = false.
Proof. destruct b; simpl; split; congruence. Qed.

Lemma elem_of_error_when b e x : x ∈ error_when b e <-> b = true /\ x = e.
Proof.
  destruct b; simpl; [rewrite list_elem_of_singleton; naive_solver|].
  split; [intros H; inversion H | naive_solver].
Qed.

Lemma to_string_ErrorCategory_inj c d :
  to_string_ErrorCategory c = to_string_ErrorCategory d -> c = d.
Proof. destruct c, d; simpl; congruence. Qed.

(** An [errors] vector built by [++] is empty when every part is. *)
Ltac errors_nil :=
  repeat match goal with
    | H : _ ++ _ = [] |- _ =>
        let H1 := fresh H in let H2 := fresh H in
        apply app_eq_nil in H as [H1 H2]
    | H : error_when _ _ = [] |- _ => apply error_when_nil in H
    | |- _ ++ _ = [] => apply app_eq_nil; split
    | |- error_when _ _ = [] => apply error_when_nil
    end.
