(* ===== verification/Model.v ===== *)
(** * The protocol's vocabulary

    Models [include/cpu_prefetch/protocol/model.hpp] and
    [src/protocol/model.cpp]: the enumerations of the protocol records with the
    tables that parse their tokens, identifiers, SHA-256 digests and their hex
    form, and the logical observation rows. An [Identifier<Tag>] is its string;
    a digest is its 32 bytes. *)

From stdpp Require Import prelude list strings.
From Stdlib Require Import ZArith Lia Ascii.
From S2P Require Import Prelude Validation.

#[local] Open Scope Z_scope.

(** ** Enumerations *)

Inductive ProtocolVersion : Set :=
| ProtocolVersion_v2_0_0_pre_1
| ProtocolVersion_v2_0_0_pre_2.

Inductive Stage : Set :=
| Stage_calibration
| Stage_pilot
| Stage_stage_a
| Stage_stage_b
| Stage_stage_c
| Stage_diagnostic.

Inductive RunMode : Set :=
| RunMode_latency
| RunMode_service_rate_calibration
| RunMode_d2_calibration
| RunMode_counter_diagnostic
| RunMode_exploratory.

Inductive LifecycleState : Set :=
| LifecycleState_planned
| LifecycleState_pre_run_failure
| LifecycleState_warmup_failure
| LifecycleState_reset_failure
| LifecycleState_measurement_started
| LifecycleState_measurement_failure
| LifecycleState_drain_failure
| LifecycleState_completed.

Inductive JoinStatus : Set :=
| JoinStatus_not_attempted
| JoinStatus_failed
| JoinStatus_passed.

Inductive BlockRole : Set :=
| BlockRole_h3_train
| BlockRole_h3_validation
| BlockRole_h1h2_supplemental
| BlockRole_not_applicable.

Inductive QueuePackage : Set :=
| QueuePackage_r0
| QueuePackage_r1
| QueuePackage_r2
| QueuePackage_l0
| QueuePackage_l1
| QueuePackage_nblfq_mpsc
| QueuePackage_not_applicable.

Inductive RequestedHardwareState : Set :=
| RequestedHardwareState_h0
| RequestedHardwareState_h1
| RequestedHardwareState_not_applicable.

Inductive VerifiedHardwareState : Set :=
| VerifiedHardwareState_verified_default
| VerifiedHardwareState_verified_changed
| VerifiedHardwareState_verification_failed
| VerifiedHardwareState_unknown
| VerifiedHardwareState_not_applicable.

Inductive Placement : Set :=
| Placement_near
| Placement_far
| Placement_stage_c_other
| Placement_not_applicable.

Inductive WorkingSetClass : Set :=
| WorkingSetClass_l2_resident
| WorkingSetClass_llc_resident
| WorkingSetClass_beyond_llc
| WorkingSetClass_not_applicable.

Inductive LoadLevel : Set :=
| LoadLevel_l025
| LoadLevel_l050
| LoadLevel_l075
| LoadLevel_calibration_ready
| LoadLevel_stage_c_other
| LoadLevel_not_applicable.

Inductive RunValidity : Set :=
| RunValidity_not_evaluated
| RunValidity_valid
| RunValidity_invalid.

Inductive GateStatus : Set :=
| GateStatus_not_evaluated
| GateStatus_pass
| GateStatus_fail
| GateStatus_not_applicable.

Inductive ConfirmatoryEstimability : Set :=
| ConfirmatoryEstimability_not_evaluated
| ConfirmatoryEstimability_estimable
| ConfirmatoryEstimability_blocked_zero_loss
| ConfirmatoryEstimability_blocked_effective_tail
| ConfirmatoryEstimability_blocked_invalid_run
| ConfirmatoryEstimability_blocked_incomplete_block
| ConfirmatoryEstimability_blocked_access_leakage
| ConfirmatoryEstimability_blocked_multiple
| ConfirmatoryEstimability_not_applicable.

Inductive ConfirmatoryBlocker : Set :=
| ConfirmatoryBlocker_blocked_access_leakage
| ConfirmatoryBlocker_blocked_effective_tail
| ConfirmatoryBlocker_blocked_incomplete_block
| ConfirmatoryBlocker_blocked_invalid_run
| ConfirmatoryBlocker_blocked_zero_loss.

Inductive BlockCompleteness : Set :=
| BlockCompleteness_not_evaluated
| BlockCompleteness_complete
| BlockCompleteness_incomplete
| BlockCompleteness_not_applicable.

Inductive AccessState : Set :=
| AccessState_planned
| AccessState_collected_sealed
| AccessState_training_open
| AccessState_selection_frozen
| AccessState_validation_unsealed
| AccessState_h3_evaluated
| AccessState_h1h2_released
| AccessState_archived.

Inductive ProducerOutcome : Set :=
| ProducerOutcome_accepted
| ProducerOutcome_full.

Inductive StreamKind : Set :=
| StreamKind_producer
| StreamKind_consumer
| StreamKind_joined_derived.

Inductive Endianness : Set :=
| Endianness_little_endian
| Endianness_big_endian
| Endianness_not_applicable.

Inductive StorageMode : Set :=
| StorageMode_external_immutable_artifact
| StorageMode_inline_test_only.

Inductive ScheduleKind : Set :=
| ScheduleKind_warmup
| ScheduleKind_calibration
| ScheduleKind_pilot
| ScheduleKind_confirmatory
| ScheduleKind_diagnostic
| ScheduleKind_stage_b
| ScheduleKind_stage_c.

Inductive ArrivalFamily : Set :=
| ArrivalFamily_poisson_exponential
| ArrivalFamily_continuous_ready
| ArrivalFamily_predeclared_burst
| ArrivalFamily_predeclared_other.

Inductive DeadlineEncoding : Set :=
| DeadlineEncoding_absolute_integer_ticks
| DeadlineEncoding_delta_integer_ticks.

Inductive FailureScope : Set :=
| FailureScope_run
| FailureScope_block
| FailureScope_platform
| FailureScope_build
| FailureScope_protocol
| FailureScope_access.

Inductive FailureCategory : Set :=
| FailureCategory_correctness
| FailureCategory_count_reconciliation
| FailureCategory_clock
| FailureCategory_affinity
| FailureCategory_numa
| FailureCategory_hardware_state
| FailureCategory_process_interruption
| FailureCategory_sample_loss
| FailureCategory_buffer_overflow
| FailureCategory_corrupt_output
| FailureCategory_manifest
| FailureCategory_address_pattern
| FailureCategory_phase_reset
| FailureCategory_environment
| FailureCategory_access_leakage
| FailureCategory_other_measurement.

Inductive DetectedPhase : Set :=
| DetectedPhase_pre_run
| DetectedPhase_warmup
| DetectedPhase_reset
| DetectedPhase_measurement
| DetectedPhase_drain
| DetectedPhase_post_run
| DetectedPhase_analysis
| DetectedPhase_access_audit.

Inductive BlockConsequence : Set :=
| BlockConsequence_none
| BlockConsequence_original_block_incomplete
| BlockConsequence_study_unresolved
| BlockConsequence_not_applicable.

Inductive ResolutionStatus : Set :=
| ResolutionStatus_open
| ResolutionStatus_retained_diagnostic_only
| ResolutionStatus_replacement_authorized
| ResolutionStatus_replacement_denied
| ResolutionStatus_resolved_before_measurement
| ResolutionStatus_study_stopped.

Inductive ArtifactRelationship : Set :=
| ArtifactRelationship_producer_raw
| ArtifactRelationship_consumer_raw
| ArtifactRelationship_join_audit
| ArtifactRelationship_joined_derived
| ArtifactRelationship_phase_integrity_report
| ArtifactRelationship_schedule
| ArtifactRelationship_counter
| ArtifactRelationship_derived
| ArtifactRelationship_provenance
| ArtifactRelationship_failure_evidence.

Inductive RecordKind : Set :=
| RecordKind_protocol_freeze
| RecordKind_selection_freeze
| RecordKind_validation_unseal
| RecordKind_h3_evaluated
| RecordKind_h1h2_released
| RecordKind_replacement_authorization
| RecordKind_amendment.

Inductive ReadinessBoundary : Set :=
| ReadinessBoundary_ready_for_implementation
| ReadinessBoundary_blocked_before_implementation
| ReadinessBoundary_blocked_before_pilot
| ReadinessBoundary_blocked_before_confirmatory_execution
| ReadinessBoundary_submission_only.

Inductive FreezeStatus : Set :=
| FreezeStatus_open
| FreezeStatus_frozen
| FreezeStatus_authorized
| FreezeStatus_rejected
| FreezeStatus_superseded.

Inductive AuthorizationStatus : Set :=
| AuthorizationStatus_not_applicable
| AuthorizationStatus_pending
| AuthorizationStatus_authorized
| AuthorizationStatus_rejected.

Inductive AuthorityRole : Set :=
| AuthorityRole_protocol_owner
| AuthorityRole_freeze_authority
| AuthorityRole_validation_custodian
| AuthorityRole_confirmatory_analyst
| AuthorityRole_replacement_authority
| AuthorityRole_platform_operator
| AuthorityRole_author.

Inductive AccessClass : Set :=
| AccessClass_treatment_blind
| AccessClass_training_only
| AccessClass_validation_sealed
| AccessClass_validation_unsealed
| AccessClass_public_protocol
| AccessClass_platform_evidence.

Inductive H3Context : Set :=
| H3Context_near_l2_l050
| H3Context_near_llc_l050
| H3Context_near_beyond_llc_l050
| H3Context_far_l2_l050
| H3Context_far_llc_l050
| H3Context_far_beyond_llc_l050.

Inductive DocumentKind : Set :=
| DocumentKind_platform
| DocumentKind_schedule
| DocumentKind_raw_observation
| DocumentKind_run_manifest
| DocumentKind_block_plan
| DocumentKind_failure_record
| DocumentKind_freeze_record.

#[export] Instance ProtocolVersion_eq_dec : EqDecision ProtocolVersion.
Proof. solve_decision. Defined.

#[export] Instance Stage_eq_dec : EqDecision Stage.
Proof. solve_decision. Defined.

#[export] Instance RunMode_eq_dec : EqDecision RunMode.
Proof. solve_decision. Defined.

#[export] Instance LifecycleState_eq_dec : EqDecision LifecycleState.
Proof. solve_decision. Defined.

#[export] Instance JoinStatus_eq_dec : EqDecision JoinStatus.
Proof. solve_decision. Defined.

#[export] Instance BlockRole_eq_dec : EqDecision BlockRole.
Proof. solve_decision. Defined.

#[export] Instance QueuePackage_eq_dec : EqDecision QueuePackage.
Proof. solve_decision. Defined.

#[export] Instance RequestedHardwareState_eq_dec : EqDecision RequestedHardwareState.
Proof. solve_decision. Defined.

#[export] Instance VerifiedHardwareState_eq_dec : EqDecision VerifiedHardwareState.
Proof. solve_decision. Defined.

#[export] Instance Placement_eq_dec : EqDecision Placement.
Proof. solve_decision. Defined.

#[export] Instance WorkingSetClass_eq_dec : EqDecision WorkingSetClass.
Proof. solve_decision. Defined.

#[export] Instance LoadLevel_eq_dec : EqDecision LoadLevel.
Proof. solve_decision. Defined.

#[export] Instance RunValidity_eq_dec : EqDecision RunValidity.
Proof. solve_decision. Defined.

#[export] Instance GateStatus_eq_dec : EqDecision GateStatus.
Proof. solve_decision. Defined.

#[export] Instance ConfirmatoryEstimability_eq_dec : EqDecision ConfirmatoryEstimability.
Proof. solve_decision. Defined.

#[export] Instance ConfirmatoryBlocker_eq_dec : EqDecision ConfirmatoryBlocker.
Proof. solve_decision. Defined.

#[export] Instance BlockCompleteness_eq_dec : EqDecision BlockCompleteness.
Proof. solve_decision. Defined.

#[export] Instance AccessState_eq_dec : EqDecision AccessState.
Proof. solve_decision. Defined.

#[export] Instance ProducerOutcome_eq_dec : EqDecision ProducerOutcome.
Proof. solve_decision. Defined.

#[export] Instance StreamKind_eq_dec : EqDecision StreamKind.
Proof. solve_decision. Defined.

#[export] Instance Endianness_eq_dec : EqDecision Endianness.
Proof. solve_decision. Defined.

#[export] Instance StorageMode_eq_dec : EqDecision StorageMode.
Proof. solve_decision. Defined.

#[export] Instance ScheduleKind_eq_dec : EqDecision ScheduleKind.
Proof. solve_decision. Defined.

#[export] Instance ArrivalFamily_eq_dec : EqDecision ArrivalFamily.
Proof. solve_decision. Defined.

#[export] Instance DeadlineEncoding_eq_dec : EqDecision DeadlineEncoding.
Proof. solve_decision. Defined.

#[export] Instance FailureScope_eq_dec : EqDecision FailureScope.
Proof. solve_decision. Defined.

#[export] Instance FailureCategory_eq_dec : EqDecision FailureCategory.
Proof. solve_decision. Defined.

#[export] Instance DetectedPhase_eq_dec : EqDecision DetectedPhase.
Proof. solve_decision. Defined.

#[export] Instance BlockConsequence_eq_dec : EqDecision BlockConsequence.
Proof. solve_decision. Defined.

#[export] Instance ResolutionStatus_eq_dec : EqDecision ResolutionStatus.
Proof. solve_decision. Defined.

#[export] Instance ArtifactRelationship_eq_dec : EqDecision ArtifactRelationship.
Proof. solve_decision. Defined.

#[export] Instance RecordKind_eq_dec : EqDecision RecordKind.
Proof. solve_decision. Defined.

#[export] Instance ReadinessBoundary_eq_dec : EqDecision ReadinessBoundary.
Proof. solve_decision. Defined.

#[export] Instance FreezeStatus_eq_dec : EqDecision FreezeStatus.
Proof. solve_decision. Defined.

#[export] Instance AuthorizationStatus_eq_dec : EqDecision AuthorizationStatus.
Proof. solve_decision. Defined.

#[export] Instance AuthorityRole_eq_dec : EqDecision AuthorityRole.
Proof. solve_decision. Defined.

#[export] Instance AccessClass_eq_dec : EqDecision AccessClass.
Proof. solve_decision. Defined.

#[export] Instance H3Context_eq_dec : EqDecision H3Context.
Proof. solve_decision. Defined.

#[export] Instance DocumentKind_eq_dec : EqDecision DocumentKind.
Proof. solve_decision. Defined.

(** ** Enumeration parsers

    [parse_enum_value]: the first table entry whose token is the text. *)

Fixpoint parse_enum_value {E : Type} (text path rule_id : string)
    (values : list (string * E)) : Result E :=
  match values with
  | [] => failure [mkError ErrorCategory_unknown_enum path rule_id
                     ("unknown enum value: " ++ text)%string]
  | (name, value) :: values =>
      if bool_decide (name = text) then success value
      else parse_enum_value text path rule_id values
  end.

Definition stage_values : list (string * Stage) :=
  [("CALIBRATION"%string, Stage_calibration);
   ("PILOT"%string, Stage_pilot);
   ("STAGE_A"%string, Stage_stage_a);
   ("STAGE_B"%string, Stage_stage_b);
   ("STAGE_C"%string, Stage_stage_c);
   ("DIAGNOSTIC"%string, Stage_diagnostic)].

Definition parse_stage (text path : string) : Result Stage :=
  parse_enum_value text path "DAT-STAGE" stage_values.

Definition run_mode_values : list (string * RunMode) :=
  [("LATENCY"%string, RunMode_latency);
   ("SERVICE_RATE_CALIBRATION"%string, RunMode_service_rate_calibration);
   ("D2_CALIBRATION"%string, RunMode_d2_calibration);
   ("COUNTER_DIAGNOSTIC"%string, RunMode_counter_diagnostic);
   ("EXPLORATORY"%string, RunMode_exploratory)].

Definition parse_run_mode (text path : string) : Result RunMode :=
  parse_enum_value text path "DAT-RUN-MODE" run_mode_values.

Definition lifecycle_state_values : list (string * LifecycleState) :=
  [("PLANNED"%string, LifecycleState_planned);
   ("PRE_RUN_FAILURE"%string, LifecycleState_pre_run_failure);
   ("WARMUP_FAILURE"%string, LifecycleState_warmup_failure);
   ("RESET_FAILURE"%string, LifecycleState_reset_failure);
   ("MEASUREMENT_STARTED"%string, LifecycleState_measurement_started);
   ("MEASUREMENT_FAILURE"%string, LifecycleState_measurement_failure);
   ("DRAIN_FAILURE"%string, LifecycleState_drain_failure);
   ("COMPLETED"%string, LifecycleState_completed)].

Definition parse_lifecycle_state (text path : string) : Result LifecycleState :=
  parse_enum_value text path "LIF-001" lifecycle_state_values.

Definition join_status_values : list (string * JoinStatus) :=
  [("NOT_ATTEMPTED"%string, JoinStatus_not_attempted);
   ("FAILED"%string, JoinStatus_failed);
   ("PASSED"%string, JoinStatus_passed)].

Definition parse_join_status (text path : string) : Result JoinStatus :=
  parse_enum_value text path "DAT-JOIN" join_status_values.

Definition block_role_values : list (string * BlockRole) :=
  [("H3_TRAIN"%string, BlockRole_h3_train);
   ("H3_VALIDATION"%string, BlockRole_h3_validation);
   ("H1H2_SUPPLEMENTAL"%string, BlockRole_h1h2_supplemental);
   ("NOT_APPLICABLE"%string, BlockRole_not_applicable)].

Definition parse_block_role (text path : string) : Result BlockRole :=
  parse_enum_value text path "BLK-ROLE" block_role_values.

Definition queue_package_values : list (string * QueuePackage) :=
  [("R0"%string, QueuePackage_r0);
   ("R1"%string, QueuePackage_r1);
   ("R2"%string, QueuePackage_r2);
   ("L0"%string, QueuePackage_l0);
   ("L1"%string, QueuePackage_l1);
   ("NBLFQ_MPSC"%string, QueuePackage_nblfq_mpsc);
   ("NOT_APPLICABLE"%string, QueuePackage_not_applicable)].

Definition parse_queue_package (text path : string) : Result QueuePackage :=
  parse_enum_value text path "DAT-PACKAGE" queue_package_values.

Definition requested_hardware_state_values : list (string * RequestedHardwareState) :=
  [("H0"%string, RequestedHardwareState_h0);
   ("H1"%string, RequestedHardwareState_h1);
   ("NOT_APPLICABLE"%string, RequestedHardwareState_not_applicable)].

Definition parse_requested_hardware_state (text path : string) : Result RequestedHardwareState :=
  parse_enum_value text path "HWP-REQUESTED" requested_hardware_state_values.

Definition verified_hardware_state_values : list (string * VerifiedHardwareState) :=
  [("VERIFIED_DEFAULT"%string, VerifiedHardwareState_verified_default);
   ("VERIFIED_CHANGED"%string, VerifiedHardwareState_verified_changed);
   ("VERIFICATION_FAILED"%string, VerifiedHardwareState_verification_failed);
   ("UNKNOWN"%string, VerifiedHardwareState_unknown);
   ("NOT_APPLICABLE"%string, VerifiedHardwareState_not_applicable)].

Definition parse_verified_hardware_state (text path : string) : Result VerifiedHardwareState :=
  parse_enum_value text path "HWP-VERIFIED" verified_hardware_state_values.

Definition placement_values : list (string * Placement) :=
  [("NEAR"%string, Placement_near);
   ("FAR"%string, Placement_far);
   ("STAGE_C_OTHER"%string, Placement_stage_c_other);
   ("NOT_APPLICABLE"%string, Placement_not_applicable)].

Definition parse_placement (text path : string) : Result Placement :=
  parse_enum_value text path "DAT-PLACEMENT" placement_values.

Definition working_set_class_values : list (string * WorkingSetClass) :=
  [("L2_RESIDENT"%string, WorkingSetClass_l2_resident);
   ("LLC_RESIDENT"%string, WorkingSetClass_llc_resident);
   ("BEYOND_LLC"%string, WorkingSetClass_beyond_llc);
   ("NOT_APPLICABLE"%string, WorkingSetClass_not_applicable)].

Definition parse_working_set_class (text path : string) : Result WorkingSetClass :=
  parse_enum_value text path "DAT-WORKING-SET" working_set_class_values.

Definition load_level_values : list (string * LoadLevel) :=
  [("L025"%string, LoadLevel_l025);
   ("L050"%string, LoadLevel_l050);
   ("L075"%string, LoadLevel_l075);
   ("CALIBRATION_READY"%string, LoadLevel_calibration_ready);
   ("STAGE_C_OTHER"%string, LoadLevel_stage_c_other);
   ("NOT_APPLICABLE"%string, LoadLevel_not_applicable)].

Definition parse_load_level (text path : string) : Result LoadLevel :=
  parse_enum_value text path "DAT-LOAD" load_level_values.

Definition run_validity_values : list (string * RunValidity) :=
  [("NOT_EVALUATED"%string, RunValidity_not_evaluated);
   ("VALID"%string, RunValidity_valid);
   ("INVALID"%string, RunValidity_invalid)].

Definition parse_run_validity (text path : string) : Result RunValidity :=
  parse_enum_value text path "LIF-VALIDITY" run_validity_values.

Definition gate_status_values : list (string * GateStatus) :=
  [("NOT_EVALUATED"%string, GateStatus_not_evaluated);
   ("PASS"%string, GateStatus_pass);
   ("FAIL"%string, GateStatus_fail);
   ("NOT_APPLICABLE"%string, GateStatus_not_applicable)].

Definition parse_gate_status (text path : string) : Result GateStatus :=
  parse_enum_value text path "LIF-GATE" gate_status_values.

Definition confirmatory_estimability_values : list (string * ConfirmatoryEstimability) :=
  [("NOT_EVALUATED"%string, ConfirmatoryEstimability_not_evaluated);
   ("ESTIMABLE"%string, ConfirmatoryEstimability_estimable);
   ("BLOCKED_ZERO_LOSS"%string, ConfirmatoryEstimability_blocked_zero_loss);
   ("BLOCKED_EFFECTIVE_TAIL"%string, ConfirmatoryEstimability_blocked_effective_tail);
   ("BLOCKED_INVALID_RUN"%string, ConfirmatoryEstimability_blocked_invalid_run);
   ("BLOCKED_INCOMPLETE_BLOCK"%string, ConfirmatoryEstimability_blocked_incomplete_block);
   ("BLOCKED_ACCESS_LEAKAGE"%string, ConfirmatoryEstimability_blocked_access_leakage);
   ("BLOCKED_MULTIPLE"%string, ConfirmatoryEstimability_blocked_multiple);
   ("NOT_APPLICABLE"%string, ConfirmatoryEstimability_not_applicable)].

Definition parse_confirmatory_estimability (text path : string) : Result ConfirmatoryEstimability :=
  parse_enum_value text path "LIF-ESTIMABILITY" confirmatory_estimability_values.

Definition confirmatory_blocker_values : list (string * ConfirmatoryBlocker) :=
  [("BLOCKED_ACCESS_LEAKAGE"%string, ConfirmatoryBlocker_blocked_access_leakage);
   ("BLOCKED_EFFECTIVE_TAIL"%string, ConfirmatoryBlocker_blocked_effective_tail);
   ("BLOCKED_INCOMPLETE_BLOCK"%string, ConfirmatoryBlocker_blocked_incomplete_block);
   ("BLOCKED_INVALID_RUN"%string, ConfirmatoryBlocker_blocked_invalid_run);
   ("BLOCKED_ZERO_LOSS"%string, ConfirmatoryBlocker_blocked_zero_loss)].

Definition parse_confirmatory_blocker (text path : string) : Result ConfirmatoryBlocker :=
  parse_enum_value text path "LIF-CONFIRMATORY-BLOCKER" confirmatory_blocker_values.

Definition block_completeness_values : list (string * BlockCompleteness) :=
  [("NOT_EVALUATED"%string, BlockCompleteness_not_evaluated);
   ("COMPLETE"%string, BlockCompleteness_complete);
   ("INCOMPLETE"%string, BlockCompleteness_incomplete);
   ("NOT_APPLICABLE"%string, BlockCompleteness_not_applicable)].

Definition parse_block_completeness (text path : string) : Result BlockCompleteness :=
  parse_enum_value text path "BLK-COMPLETENESS" block_completeness_values.

Definition access_state_values : list (string * AccessState) :=
  [("PLANNED"%string, AccessState_planned);
   ("COLLECTED_SEALED"%string, AccessState_collected_sealed);
   ("TRAINING_OPEN"%string, AccessState_training_open);
   ("SELECTION_FROZEN"%string, AccessState_selection_frozen);
   ("VALIDATION_UNSEALED"%string, AccessState_validation_unsealed);
   ("H3_EVALUATED"%string, AccessState_h3_evaluated);
   ("H1H2_RELEASED"%string, AccessState_h1h2_released);
   ("ARCHIVED"%string, AccessState_archived)].

Definition parse_access_state (text path : string) : Result AccessState :=
  parse_enum_value text path "ACC-STATE" access_state_values.

Definition kProtocolVersion : string := "2.0.0-pre.2".

Definition kPreviousProtocolVersion : string := "2.0.0-pre.1".

Definition parse_protocol_version (text path : string) : Result ProtocolVersion :=
  if bool_decide (text = kPreviousProtocolVersion) then success ProtocolVersion_v2_0_0_pre_1
  else if bool_decide (text = kProtocolVersion) then success ProtocolVersion_v2_0_0_pre_2
  else failure [mkError ErrorCategory_unsupported_version path "GOV-004"
    "only protocol/schema versions 2.0.0-pre.1 and 2.0.0-pre.2 are readable; no implicit migration exists"].

(** ** Identifiers *)

Definition Identifier : Set := string.

Definition Identifier_parse (value path : string) : Result Identifier :=
  if str_empty value then
    failure [mkError ErrorCategory_invalid_id path "DAT-ID-NONEMPTY" "identifier must not be empty"]
  else success value.

(** ** SHA-256 digests *)

Record Sha256 : Set := mkSha256 { sha_bytes : list Z }.

(** Character comparisons are on the character codes. *)
Definition char_code (c : ascii) : Z := Z.of_N (N_of_ascii c).

Definition hex_value (character : ascii) : Z :=
  let code := char_code character in
  if (48 <=? code) && (code <=? 57) then code - 48
  else if (97 <=? code) && (code <=? 102) then 10 + code - 97
  else -1.

(** The byte loop: two digits per byte, stop at the first bad digit. *)
Fixpoint sha_digits (text : list ascii) : option (list Z) :=
  match text with
  | high :: low :: text =>
      let high := hex_value high in
      let low := hex_value low in
      if (high <? 0) || (low <? 0) then None
      else
        match sha_digits text with
        | Some bytes => Some (Z.lor (Z.shiftl high 4) low :: bytes)
        | None => None
        end
  | _ => Some []
  end.

Definition Sha256_parse (text path : string) : Result Sha256 :=
  if negb (String.length text =? 64)%nat then
    failure [mkError ErrorCategory_invalid_hash path "DAT-SHA256"
               "SHA-256 must contain 64 lowercase hex digits"]
  else
    match sha_digits (String.list_ascii_of_string text) with
    | Some bytes => success (mkSha256 bytes)
    | None => failure [mkError ErrorCategory_invalid_hash path "DAT-SHA256"
                         "SHA-256 must contain only lowercase hexadecimal digits"]
    end.

Definition hex_digits : list ascii := String.list_ascii_of_string "0123456789abcdef".

Definition hex_digit (d : Z) : ascii := default "0"%char (hex_digits !! Z.to_nat d).

Definition Sha256_hex (sha : Sha256) : string :=
  String.string_of_list_ascii
    (flat_map (fun value => [hex_digit (Z.land (Z.shiftr value 4) 15); hex_digit (Z.land value 15)])
       (sha_bytes sha)).

(** The array type holds exactly 32 byte values. *)
Definition sha_wf (sha : Sha256) : Prop :=
  length (sha_bytes sha) = 32%nat /\ Forall is_byte (sha_bytes sha).

#[export] Instance Sha256_eq_dec : EqDecision Sha256.
Proof. solve_decision. Defined.

(** ** Logical rows *)

Record ProducerRecord : Set := mkProducerRecord {
  pr_run_id : Identifier;
  pr_logical_sequence : Z;
  pr_record_index : Z;
  pr_scheduled_arrival : Z;
  pr_producer_handle_begin : Z;
  pr_record_lookup_completion : Z;
  pr_enqueue_invocation : Z;
  pr_enqueue_linearization : option Z;
  pr_enqueue_attempt_completion : Z;
  pr_outcome : ProducerOutcome;
  pr_accepted_ordinal : option Z
}.

Record ConsumerRecord : Set := mkConsumerRecord {
  cr_run_id : Identifier;
  cr_consumed_ordinal : Z;
  cr_observed_record_index : Z;
  cr_dequeue_invocation : Z;
  cr_dequeue_linearization : Z;
  cr_dequeue_completion : Z;
  cr_consumer_action_completion : Z
}.

Record JoinedRecord : Set := mkJoinedRecord {
  jr_run_id : Identifier;
  jr_accepted_ordinal : Z;
  jr_logical_sequence : Z;
  jr_record_index : Z;
  jr_producer_row_ordinal : Z;
  jr_consumer_row_ordinal : Z;
  jr_scheduled_arrival : Z;
  jr_producer_handle_begin : Z;
  jr_record_lookup_completion : Z;
  jr_enqueue_invocation : Z;
  jr_enqueue_linearization : Z;
  jr_enqueue_attempt_completion : Z;
  jr_dequeue_invocation : Z;
  jr_dequeue_linearization : Z;
  jr_dequeue_completion : Z;
  jr_consumer_action_completion : Z;
  jr_producer_lateness : Z;
  jr_pointer_lookup_interval : Z;
  jr_enqueue_service_time : Z;
  jr_admission_delay : Z;
  jr_queue_residence : Z;
  jr_dequeue_service_time : Z;
  jr_post_dequeue_delivery_interval : Z;
  jr_consumer_action_interval : Z;
  jr_end_to_end_latency : Z
}.

#[export] Instance ProducerRecord_eq_dec : EqDecision ProducerRecord.
Proof. solve_decision. Defined.

#[export] Instance ConsumerRecord_eq_dec : EqDecision ConsumerRecord.
Proof. solve_decision. Defined.

(** ** Enumeration tables as a class

    What a parser table promises: no token twice, and every value listed once. *)

Class EnumTable (E : Type) := { enum_values : list (string * E) }.

Class EnumTableLaws (E : Type) `{!EnumTable E} := {
  enum_tokens_NoDup : NoDup (fst <$> enum_values);
  enum_values_NoDup : NoDup (snd <$> enum_values);
  enum_values_complete (v : E) : v ∈ snd <$> enum_values
}.

Ltac enum_table_laws :=
  constructor; unfold enum_values; simpl;
  [ apply (bool_decide_unpack _); vm_compute; exact I
  | apply (bool_decide_unpack _); vm_compute; exact I
  | intros v; destruct v; apply (bool_decide_unpack _); vm_compute; exact I ].

#[export] Instance stage_table : EnumTable Stage := { enum_values := stage_values }.
#[export] Instance stage_table_laws : EnumTableLaws Stage.
Proof. enum_table_laws. Qed.

#[export] Instance run_mode_table : EnumTable RunMode := { enum_values := run_mode_values }.
#[export] Instance run_mode_table_laws : EnumTableLaws RunMode.
Proof. enum_table_laws. Qed.

#[export] Instance lifecycle_state_table : EnumTable LifecycleState := { enum_values := lifecycle_state_values }.
#[export] Instance lifecycle_state_table_laws : EnumTableLaws LifecycleState.
Proof. enum_table_laws. Qed.

#[export] Instance join_status_table : EnumTable JoinStatus := { enum_values := join_status_values }.
#[export] Instance join_status_table_laws : EnumTableLaws JoinStatus.
Proof. enum_table_laws. Qed.

#[export] Instance block_role_table : EnumTable BlockRole := { enum_values := block_role_values }.
#[export] Instance block_role_table_laws : EnumTableLaws BlockRole.
Proof. enum_table_laws. Qed.

#[export] Instance queue_package_table : EnumTable QueuePackage := { enum_values := queue_package_values }.
#[export] Instance queue_package_table_laws : EnumTableLaws QueuePackage.
Proof. enum_table_laws. Qed.

#[export] Instance requested_hardware_state_table : EnumTable RequestedHardwareState := { enum_values := requested_hardware_state_values }.
#[export] Instance requested_hardware_state_table_laws : EnumTableLaws RequestedHardwareState.
Proof. enum_table_laws. Qed.

#[export] Instance verified_hardware_state_table : EnumTable VerifiedHardwareState := { enum_values := verified_hardware_state_values }.
#[export] Instance verified_hardware_state_table_laws : EnumTableLaws VerifiedHardwareState.
Proof. enum_table_laws. Qed.

#[export] Instance placement_table : EnumTable Placement := { enum_values := placement_values }.
#[export] Instance placement_table_laws : EnumTableLaws Placement.
Proof. enum_table_laws. Qed.

#[export] Instance working_set_class_table : EnumTable WorkingSetClass := { enum_values := working_set_class_values }.
#[export] Instance working_set_class_table_laws : EnumTableLaws WorkingSetClass.
Proof. enum_table_laws. Qed.

#[export] Instance load_level_table : EnumTable LoadLevel := { enum_values := load_level_values }.
#[export] Instance load_level_table_laws : EnumTableLaws LoadLevel.
Proof. enum_table_laws. Qed.

#[export] Instance run_validity_table : EnumTable RunValidity := { enum_values := run_validity_values }.
#[export] Instance run_validity_table_laws : EnumTableLaws RunValidity.
Proof. enum_table_laws. Qed.

#[export] Instance gate_status_table : EnumTable GateStatus := { enum_values := gate_status_values }.
#[export] Instance gate_status_table_laws : EnumTableLaws GateStatus.
Proof. enum_table_laws. Qed.

#[export] Instance confirmatory_estimability_table : EnumTable ConfirmatoryEstimability := { enum_values := confirmatory_estimability_values }.
#[export] Instance confirmatory_estimability_table_laws : EnumTableLaws ConfirmatoryEstimability.
Proof. enum_table_laws. Qed.

#[export] Instance confirmatory_blocker_table : EnumTable ConfirmatoryBlocker := { enum_values := confirmatory_blocker_values }.
#[export] Instance confirmatory_blocker_table_laws : EnumTableLaws ConfirmatoryBlocker.
Proof. enum_table_laws. Qed.

#[export] Instance block_completeness_table : EnumTable BlockCompleteness := { enum_values := block_completeness_values }.
#[export] Instance block_completeness_table_laws : EnumTableLaws BlockCompleteness.
Proof. enum_table_laws. Qed.

#[export] Instance access_state_table : EnumTable AccessState := { enum_values := access_state_values }.
#[export] Instance access_state_table_laws : EnumTableLaws AccessState.
Proof. enum_table_laws. Qed.

(** ** Lemmas *)

Section Tables.

Context {E : Type} (values : list (string * E)).

Lemma parse_enum_value_success text path rule v :
  parse_enum_value text path rule values = success v -> (text, v) ∈ values.
Proof.
  induction values as [|[name value] l IH]; simpl; [done|].
  destruct (bool_decide_reflect (name = text)) as [->|].
  - intros [= ->]. left.
  - intros H. right. by apply IH.
Qed.

Lemma parse_enum_value_found text path rule v :
  NoDup (fst <$> values) -> (text, v) ∈ values ->
  parse_enum_value text path rule values = success v.
Proof.
  induction values as [|[name value] l IH]; simpl; [by intros _ ?%not_elem_of_nil|].
  intros [Hn Hnd]%NoDup_cons [[= <- <-]|Hin]%elem_of_cons.
  - by rewrite bool_decide_true.
  - rewrite bool_decide_false; [by apply IH|]. intros ->. apply Hn.
    apply list_elem_of_fmap. by exists (text, v).
Qed.

Lemma parse_enum_value_missing text path rule :
  text ∉ fst <$> values ->
  parse_enum_value text path rule values =
  failure [mkError ErrorCategory_unknown_enum path rule ("unknown enum value: " ++ text)%string].
Proof.
  induction values as [|[name value] l IH]; simpl; [done|].
  intros [Hn Hin]%not_elem_of_cons. rewrite bool_decide_false by done. by apply IH.
Qed.

End Tables.

(** A value is listed with one token only. *)
Lemma pair_snd_unique {E : Type} (values : list (string * E)) t1 t2 v :
  NoDup (snd <$> values) -> (t1, v) ∈ values -> (t2, v) ∈ values -> t1 = t2.
Proof.
  intros Hnd H1 H2. apply list_elem_of_lookup in H1 as [i Hi]. apply list_elem_of_lookup in H2 as [j Hj].
  assert (i = j) as ->; [|congruence].
  eapply NoDup_lookup; [exact Hnd|..]; rewrite list_lookup_fmap; [by rewrite Hi|by rewrite Hj].
Qed.

Lemma hex_value_digit d : 0 <= d < 16 -> hex_value (hex_digit d) = d.
Proof.
  intros Hd. apply Z.eqb_eq.
  by apply (forall_below 16 (fun d => hex_value (hex_digit d) =? d)).
Qed.

Lemma hex_digit_value c : 0 <= hex_value c -> hex_digit (hex_value c) = c /\ hex_value c < 16.
Proof.
  destruct c as [[] [] [] [] [] [] [] []]; vm_compute; intros H; try (by destruct H); done.
Qed.

Lemma nibbles_byte high low :
  0 <= high < 16 -> 0 <= low < 16 ->
  let b := Z.lor (Z.shiftl high 4) low in
  Z.land (Z.shiftr b 4) 15 = high /\ Z.land b 15 = low /\ is_byte b.
Proof.
  intros Hh Hl b.
  assert (H : (Z.land (Z.shiftr b 4) 15 =? high) && (Z.land b 15 =? low) &&
              ((0 <=? b) && (b <? 256)) = true).
  { subst b. revert low Hl. apply (forall_below 16).
    revert high Hh. by apply (forall_below 16 (fun high => forallb _ (seq 0 16))). }
  split_hyps. unfold is_byte. lia.
Qed.

Lemma byte_nibbles b :
  is_byte b ->
  0 <= Z.land (Z.shiftr b 4) 15 < 16 /\ 0 <= Z.land b 15 < 16 /\
  Z.lor (Z.shiftl (Z.land (Z.shiftr b 4) 15) 4) (Z.land b 15) = b.
Proof.
  intros Hb.
  assert (H : (0 <=? Z.land (Z.shiftr b 4) 15) && (Z.land (Z.shiftr b 4) 15 <? 16) &&
              ((0 <=? Z.land b 15) && (Z.land b 15 <? 16)) &&
              (Z.lor (Z.shiftl (Z.land (Z.shiftr b 4) 15) 4) (Z.land b 15) =? b) = true).
  { revert b Hb. by apply (forall_below 256). }
  split_hyps. lia.
Qed.

Lemma sha_digits_hex bytes :
  Forall is_byte bytes ->
  sha_digits (flat_map (fun value =>
    [hex_digit (Z.land (Z.shiftr value 4) 15); hex_digit (Z.land value 15)]) bytes) = Some bytes.
Proof.
  induction 1 as [|b bytes Hb _ IH]; [done|]. cbn [flat_map app sha_digits].
  destruct (byte_nibbles b Hb) as (H1 & H2 & H3). rewrite !hex_value_digit, IH by done.
  destruct (Z.ltb_spec (Z.land (Z.shiftr b 4) 15) 0); [lia|].
  destruct (Z.ltb_spec (Z.land b 15) 0); [lia|]. cbn [orb]. by rewrite H3.
Qed.

(** Parsing an even number of digits gives bytes whose hex form is the text. *)
Lemma sha_digits_inv n text bytes :
  length text = (2 * n)%nat -> sha_digits text = Some bytes ->
  length bytes = n /\ Forall is_byte bytes /\
  flat_map (fun value => [hex_digit (Z.land (Z.shiftr value 4) 15); hex_digit (Z.land value 15)])
    bytes = text.
Proof.
  revert text bytes. induction n as [|n IH]; intros text bytes Hlen.
  { destruct text; [|done]. by intros [= <-]. }
  destruct text as [|high [|low text]]; [done|simpl in Hlen; lia|]. cbn [sha_digits].
  destruct (Z.ltb_spec (hex_value high) 0); [done|].
  destruct (Z.ltb_spec (hex_value low) 0); [done|]. cbn [orb].
  destruct (sha_digits text) as [bs|] eqn:E; [|done]. intros [= <-].
  destruct (IH text bs ltac:(simpl in Hlen; lia) E) as (Hl & Hb & Ht).
  destruct (hex_digit_value high) as [E1 ?]; [lia|]. destruct (hex_digit_value low) as [E2 ?]; [lia|].
  destruct (nibbles_byte (hex_value high) (hex_value low)) as (N1 & N2 & N3); [lia..|].
  cbn [length flat_map]. rewrite N1, N2, E1, E2, Ht, Hl. split_and!; [done|by constructor|done].
Qed.

Lemma length_list_ascii s : length (String.list_ascii_of_string s) = String.length s.
Proof. induction s; simpl; congruence. Qed.

(** ** Properties *)

(** Every enumeration of the protocol has a faithful token table: each
    value is parsed from exactly one token, and any other text is refused with
    one UNKNOWN_ENUM error that names the path, the rule and the text. *)
Theorem enum_parsers_exact {E : Type} `{!EnumTable E} `{!EnumTableLaws E} path rule :
  (forall v : E, exists token,
     forall text, parse_enum_value text path rule enum_values = success v <-> text = token) /\
  (forall text, text ∉ fst <$> @enum_values E _ ->
     parse_enum_value (E := E) text path rule enum_values =
     failure [mkError ErrorCategory_unknown_enum path rule
                ("unknown enum value: " ++ text)%string]).
Proof.
  split; [|intros text; apply parse_enum_value_missing].
  intros v. pose proof (enum_values_complete v) as Hv.
  apply list_elem_of_fmap in Hv as ([token v'] & -> & Hin). exists token. intros text. split.
  - intros H%parse_enum_value_success. by eapply pair_snd_unique; [apply enum_values_NoDup|..].
  - intros ->. apply parse_enum_value_found; [apply enum_tokens_NoDup|done].
Qed.

Lemma enum_parsers_exact_witness :
  parse_stage "STAGE_D" "$/stage" =
  failure [mkError ErrorCategory_unknown_enum "$/stage" "DAT-STAGE"
             "unknown enum value: STAGE_D"].
Proof.
  refine (proj2 (enum_parsers_exact (E := Stage) "$/stage" "DAT-STAGE") "STAGE_D"%string _).
  apply (bool_decide_unpack _). vm_compute. exact I.
Defined.

(** SHA-256 texts and digests correspond one to one: parsing the hex form
    of a digest returns the digest, and a text that parses is the hex form of
    its digest, which has 32 bytes. *)
Theorem sha256_roundtrip path :
  (forall sha, sha_wf sha -> Sha256_parse (Sha256_hex sha) path = success sha) /\
  (forall text sha, Sha256_parse text path = success sha -> sha_wf sha /\ Sha256_hex sha = text).
Proof.
  assert (Hlen : forall bytes, length (flat_map (fun value =>
    [hex_digit (Z.land (Z.shiftr value 4) 15); hex_digit (Z.land value 15)]) bytes)
    = (2 * length bytes)%nat).
  { induction bytes; simpl; lia. }
  unfold Sha256_parse. split.
  - intros [bytes] [H32 Hb]. unfold Sha256_hex; cbn [sha_bytes] in *.
    rewrite <- length_list_ascii, String.list_ascii_of_string_of_list_ascii, Hlen, H32.
    by rewrite sha_digits_hex.
  - intros text sha. destruct (Nat.eqb_spec (String.length text) 64) as [E|]; [|done]. cbn [negb].
    destruct (sha_digits (String.list_ascii_of_string text)) as [bytes|] eqn:Hd; [|done].
    intros [= <-]. apply (sha_digits_inv 32) in Hd as (H1 & H2 & H3);
      [|by rewrite length_list_ascii].
    split; [by split|]. unfold Sha256_hex; cbn [sha_bytes].
    by rewrite H3, String.string_of_list_ascii_of_string.
Qed.
