(* ===== verification/Bytes.v ===== *)
(** * Byte encodings of integers and length-prefixed fields

    The big-endian words of [src/workload/deterministic.cpp] and
    [src/workload/records.cpp], the little-endian words of
    [src/storage/raw_observations.cpp], and sequences of length-prefixed
    fields: definitions by shift and mask as the sources write them, with
    their decoders and the round trips the other files share. *)

From stdpp Require Import prelude list strings.
From Stdlib Require Import ZArith Lia Ascii.
From S2P Require Import Prelude.

#[local] Open Scope Z_scope.

(** The [n] low bytes of [v], most significant first. *)
Fixpoint be_bytes (n : nat) (v : Z) : list Z :=
  match n with
  | O => []
  | S n => Z.land (Z.shiftr v (8 * Z.of_nat n)) 255 :: be_bytes n v
  end.

(** The [n] low bytes of [v], least significant first. *)
Definition le_bytes (n : nat) (v : Z) : list Z :=
  (fun index => Z.land (Z.shiftr v (8 * Z.of_nat index)) 255) <$> seq 0 n.

Definition be_value (bytes : list Z) : Z := fold_left (fun acc b => acc * 256 + b) bytes 0.

Fixpoint le_value (bytes : list Z) : Z :=
  match bytes with
  | [] => 0
  | b :: bytes => b + 256 * le_value bytes
  end.

(** The bytes of a string. *)
Definition string_bytes (s : string) : list Z :=
  (fun c => Z.of_N (N_of_ascii c)) <$> String.list_ascii_of_string s.

(** One field: its length as eight big-endian bytes, then its bytes. *)
Definition field_bytes (value : list Z) : list Z :=
  be_bytes 8 (Z.of_nat (length value)) ++ value.

Definition fields_bytes (fields : list (list Z)) : list Z := flat_map field_bytes fields.

(** ** Lemmas *)

Lemma byte_of_shift v k : 0 <= k -> Z.land (Z.shiftr v k) 255 = (v / 2 ^ k) mod 256.
Proof.
  intros Hk. change 255 with (Z.ones 8). rewrite Z.land_ones, Z.shiftr_div_pow2 by lia. done.
Qed.

Lemma byte_of_shift_range v k : is_byte (Z.land (Z.shiftr v k) 255).
Proof.
  change 255 with (Z.ones 8). rewrite Z.land_ones by lia.
  unfold is_byte. apply Z.mod_pos_bound. lia.
Qed.

Lemma pow_256_succ n : 2 ^ (8 * Z.of_nat (S n)) = 256 * 2 ^ (8 * Z.of_nat n).
Proof.
  replace (8 * Z.of_nat (S n)) with (8 + 8 * Z.of_nat n) by lia.
  rewrite Z.pow_add_r by lia. done.
Qed.

Lemma length_be_bytes n v : length (be_bytes n v) = n.
Proof. induction n; simpl; congruence. Qed.

Lemma be_bytes_range n v : Forall is_byte (be_bytes n v).
Proof. induction n; simpl; constructor; [apply byte_of_shift_range | done]. Qed.

Lemma be_value_acc bytes acc :
  fold_left (fun acc b => acc * 256 + b) bytes acc =
  acc * 2 ^ (8 * Z.of_nat (length bytes)) + be_value bytes.
Proof.
  revert acc. unfold be_value. induction bytes as [|b bytes IH]; intros acc; cbn [fold_left length].
  - change (2 ^ (8 * Z.of_nat 0)) with 1. lia.
  - rewrite (IH (acc * 256 + b)), (IH (0 * 256 + b)), pow_256_succ. ring.
Qed.

Lemma be_value_bytes n v : 0 <= v -> be_value (be_bytes n v) = v mod 2 ^ (8 * Z.of_nat n).
Proof.
  intros Hv. induction n as [|n IH].
  - cbn. by rewrite Z.mod_1_r.
  - cbn [be_bytes]. unfold be_value. cbn [fold_left].
    rewrite be_value_acc, length_be_bytes, IH, byte_of_shift by lia.
    rewrite pow_256_succ, (Z.mul_comm 256).
    rewrite (Z.rem_mul_r v (2 ^ (8 * Z.of_nat n)) 256) by lia. ring.
Qed.

Lemma be_bytes_inj v w : is_u64 v -> is_u64 w -> be_bytes 8 v = be_bytes 8 w -> v = w.
Proof.
  intros Hv Hw E. apply (f_equal be_value) in E.
  rewrite !be_value_bytes in E by int_lia.
  change (2 ^ (8 * Z.of_nat 8)) with u64_modulus in E. rewrite !Z.mod_small in E by int_lia. done.
Qed.

Lemma length_le_bytes n v : length (le_bytes n v) = n.
Proof. unfold le_bytes. by rewrite length_fmap, length_seq. Qed.

Lemma le_bytes_range n v : Forall is_byte (le_bytes n v).
Proof. unfold le_bytes. apply Forall_fmap, Forall_true. intros i. apply byte_of_shift_range. Qed.

Lemma le_bytes_succ n v : le_bytes (S n) v = Z.land v 255 :: le_bytes n (Z.shiftr v 8).
Proof.
  unfold le_bytes. cbn [seq]. rewrite fmap_cons. f_equal.
  rewrite <- fmap_S_seq, <- list_fmap_compose. apply list_fmap_ext. intros i x _. simpl.
  rewrite Z.shiftr_shiftr by lia. do 2 f_equal. lia.
Qed.

Lemma le_value_bytes n v : 0 <= v -> le_value (le_bytes n v) = v mod 2 ^ (8 * Z.of_nat n).
Proof.
  revert v. induction n as [|n IH]; intros v Hv.
  - cbn. by rewrite Z.mod_1_r.
  - rewrite le_bytes_succ. cbn [le_value].
    rewrite IH by (apply Z.shiftr_nonneg; done).
    rewrite Z.shiftr_div_pow2 by lia. change 255 with (Z.ones 8). rewrite Z.land_ones by lia.
    rewrite pow_256_succ. change (2 ^ 8) with 256.
    rewrite (Z.rem_mul_r v 256) by (try apply Z.pow_pos_nonneg; lia). ring.
Qed.

Lemma le_bytes_value bytes :
  Forall is_byte bytes -> le_bytes (length bytes) (le_value bytes) = bytes.
Proof.
  induction 1 as [|b bytes Hb _ IH]; [done|]. cbn [length le_value]. rewrite le_bytes_succ.
  unfold is_byte in Hb. change 255 with (Z.ones 8). rewrite Z.land_ones by lia.
  rewrite Z.shiftr_div_pow2 by lia. change (2 ^ 8) with 256.
  rewrite (Z.mul_comm 256), Z_mod_plus_full, Z.mod_small by lia.
  rewrite Z.div_add, Z.div_small by lia. by rewrite Z.add_0_l, IH.
Qed.

Lemma le_value_range bytes :
  Forall is_byte bytes -> 0 <= le_value bytes < 2 ^ (8 * Z.of_nat (length bytes)).
Proof.
  induction 1 as [|b bytes Hb _ IH]; cbn [le_value length]; [done|].
  rewrite pow_256_succ. unfold is_byte in Hb. lia.
Qed.

(** ** Prefix-freeness *)

(** A field is recovered from the front of any byte sequence. *)
Lemma field_bytes_inj a b ra rb :
  Z.of_nat (length a) <= u64_max -> Z.of_nat (length b) <= u64_max ->
  field_bytes a ++ ra = field_bytes b ++ rb -> a = b /\ ra = rb.
Proof.
  intros Ha Hb E. unfold field_bytes in E. rewrite <- !app_assoc in E.
  apply app_inj_1 in E as [E1 E2]; [|by rewrite !length_be_bytes].
  apply be_bytes_inj in E1; [|unfold is_u64; lia..].
  apply app_inj_1 in E2; [done|lia].
Qed.

(** Sequences of equally many fields have different encodings. *)
Lemma fields_bytes_inj fs gs :
  Forall (fun f => Z.of_nat (length f) <= u64_max) fs ->
  Forall (fun f => Z.of_nat (length f) <= u64_max) gs ->
  fields_bytes fs = fields_bytes gs -> fs = gs.
Proof.
  revert gs. induction fs as [|f fs IH]; intros gs Hf Hg E.
  - destruct gs as [|g gs]; [done|]. cbn [fields_bytes flat_map field_bytes be_bytes app] in E. done.
  - destruct gs as [|g gs]; [done|]. cbn [fields_bytes flat_map] in E.
    apply Forall_cons in Hf as [Hf1 Hf], Hg as [Hg1 Hg].
    apply field_bytes_inj in E as [-> E]; [|done..]. f_equal. by apply IH.
Qed.

Lemma ascii_code_inj a b : Z.of_N (N_of_ascii a) = Z.of_N (N_of_ascii b) -> a = b.
Proof.
  intros E. apply N2Z.inj in E. rewrite <- (ascii_N_embedding a), E. apply ascii_N_embedding.
Qed.

Lemma string_bytes_inj s t : string_bytes s = string_bytes t -> s = t.
Proof.
  intros E. rewrite <- (String.string_of_list_ascii_of_string s),
    <- (String.string_of_list_ascii_of_string t).
  f_equal. revert E. unfold string_bytes. apply list_fmap_eq_inj. intros a b. apply ascii_code_inj.
Qed.
