(* ===== verification/Utf8.v ===== *)
(** * UTF-8

    The decoding loop that [valid_utf8] of [src/storage/raw_observations.cpp]
    and [decode_utf8] of [src/protocol/json.cpp] share (lead byte, continuation
    bytes, scalar value), [append_utf8] of the latter, and the facts about valid
    texts the other files use. A text is the list of its bytes. *)

From stdpp Require Import prelude list strings.
From Stdlib Require Import ZArith Lia.
From S2P Require Import Prelude Bytes.

#[local] Open Scope Z_scope.

(** The lead byte: the bits it contributes and the length of its sequence. *)
Definition utf8_lead (first : Z) : option (Z * nat) :=
  if first <=? 127 then Some (first, 1%nat)
  else if Z.land first 224 =? 192 then Some (Z.land first 31, 2%nat)
  else if Z.land first 240 =? 224 then Some (Z.land first 15, 3%nat)
  else if Z.land first 248 =? 240 then Some (Z.land first 7, 4%nat)
  else None.

(** The continuation bytes. *)
Fixpoint utf8_continue (code_point : Z) (continuation : list Z) : option Z :=
  match continuation with
  | [] => Some code_point
  | next :: rest =>
      if negb (Z.land next 192 =? 128) then None
      else utf8_continue (Z.lor (u32_wrap (Z.shiftl code_point 6)) (Z.land next 63)) rest
  end.

Definition utf8_code_point_ok (length : nat) (code_point : Z) : bool :=
  let overlong := ((length =? 2)%nat && (code_point <? 128)) ||
                  ((length =? 3)%nat && (code_point <? 2048)) ||
                  ((length =? 4)%nat && (code_point <? 65536)) in
  negb (overlong || (code_point >? 1114111) ||
        ((code_point >=? 55296) && (code_point <=? 57343))).

(** Each iteration consumes at least one byte, so the length of the text is
    fuel enough. *)
Fixpoint valid_utf8_from (fuel : nat) (text : list Z) : bool :=
  match text with
  | [] => true
  | first :: rest =>
      match fuel with
      | O => false
      | S fuel =>
          match utf8_lead first with
          | None => false
          | Some (code_point, sequence) =>
              if (length text <? sequence)%nat then false
              else
                match utf8_continue code_point (take (sequence - 1) rest) with
                | None => false
                | Some code_point =>
                    utf8_code_point_ok sequence code_point &&
                    valid_utf8_from fuel (drop (sequence - 1) rest)
                end
          end
      end
  end.

Definition valid_utf8 (text : string) : bool :=
  valid_utf8_from (String.length text) (string_bytes text).

(** [append_utf8]: the bytes of a code point, [None] for what is no scalar
    value. *)
Definition utf8_bytes (code_point : Z) : option (list Z) :=
  if code_point <=? 127 then Some [code_point]
  else if code_point <=? 2047 then
    Some [Z.lor 192 (Z.shiftr code_point 6); Z.lor 128 (Z.land code_point 63)]
  else if code_point <=? 65535 then
    if (code_point >=? 55296) && (code_point <=? 57343) then None
    else Some [Z.lor 224 (Z.shiftr code_point 12);
               Z.lor 128 (Z.land (Z.shiftr code_point 6) 63);
               Z.lor 128 (Z.land code_point 63)]
  else if code_point <=? 1114111 then
    Some [Z.lor 240 (Z.shiftr code_point 18);
          Z.lor 128 (Z.land (Z.shiftr code_point 12) 63);
          Z.lor 128 (Z.land (Z.shiftr code_point 6) 63);
          Z.lor 128 (Z.land code_point 63)]
  else None.
