(* ===== verification/Json.v ===== *)
(** * JSON documents and their canonical form

    Models [include/cpu_prefetch/protocol/json.hpp] and
    [src/protocol/json.cpp]: the values, the strict parser and the canonical
    printer (sorted members, shortest escapes, exact 64-bit integers, shortest
    binary64 numbers). A text is a list of characters; the parser's position is
    the text that is left. A [std::map] is the association list of its members
    in the order of its keys. *)

From stdpp Require Import prelude list strings sorting.
From Stdlib Require Import ZArith Lia Ascii SpecFloat.
From S2P Require Import Prelude Validation Model Bytes Utf8.

#[local] Open Scope Z_scope.

(** ** Values *)

Inductive NumberKind : Set :=
| NumberKind_signed_integer
| NumberKind_unsigned_integer
| NumberKind_binary64.

(** The alternatives of the variant; a [double] is an IEEE 754 value. *)
Inductive NumberValue : Set :=
| Number_int64 (value : Z)
| Number_uint64 (value : Z)
| Number_double (value : spec_float).

Record Number : Set := mkNumber {
  num_kind : NumberKind;
  num_lexical : string;
  num_value : NumberValue
}.

#[local] Unset Elimination Schemes.

Inductive Value : Set :=
| Value_null
| Value_bool (value : bool)
| Value_number (value : Number)
| Value_string (value : string)
| Value_array (values : list Value)
| Value_object (members : list (string * Value)).

#[local] Set Elimination Schemes.

Definition is_null (v : Value) : bool := match v with Value_null => true | _ => false end.

Definition as_bool (v : Value) : option bool :=
  match v with Value_bool b => Some b | _ => None end.

Definition as_number (v : Value) : option Number :=
  match v with Value_number n => Some n | _ => None end.

Definition as_string (v : Value) : option string :=
  match v with Value_string s => Some s | _ => None end.

Definition as_array (v : Value) : option (list Value) :=
  match v with Value_array l => Some l | _ => None end.

Definition as_object (v : Value) : option (list (string * Value)) :=
  match v with Value_object l => Some l | _ => None end.

(** ** [std::map] with string keys *)

(** [std::string] compares bytes. *)
Definition str_ltb (a b : string) : bool :=
  match String.compare a b with Lt => true | _ => false end.

(** [find]. *)
Fixpoint map_find {V : Type} (key : string) (members : list (string * V)) : option V :=
  match members with
  | [] => None
  | (k, v) :: rest => if String.eqb key k then Some v else map_find key rest
  end.

(** [emplace]: [None] when the key is present. *)
Fixpoint map_emplace {V : Type} (key : string) (value : V) (members : list (string * V)) :
    option (list (string * V)) :=
  match members with
  | [] => Some [(key, value)]
  | (k, v) :: rest =>
      match String.compare key k with
      | Lt => Some ((key, value) :: members)
      | Eq => None
      | Gt => (fun rest => (k, v) :: rest) <$> map_emplace key value rest
      end
  end.

(** [operator[]] followed by an assignment. *)
Fixpoint map_assign {V : Type} (key : string) (value : V) (members : list (string * V)) :
    list (string * V) :=
  match members with
  | [] => [(key, value)]
  | (k, v) :: rest =>
      match String.compare key k with
      | Lt => (key, value) :: members
      | Eq => (k, value) :: rest
      | Gt => (k, v) :: map_assign key value rest
      end
  end.

(** Calls of [emplace] in a row that ignore whether the key was there. *)
Definition map_of {V : Type} (members : list (string * V)) : list (string * V) :=
  fold_left (fun m kv => default m (map_emplace (fst kv) (snd kv) m)) members [].

(** ** The text *)

Definition quote : ascii := Ascii.ascii_of_N 34.
Definition backslash : ascii := Ascii.ascii_of_N 92.

Definition text (s : string) : list ascii := String.list_ascii_of_string s.
Definition untext (t : list ascii) : string := String.string_of_list_ascii t.

Definition json_is_digit (c : ascii) : bool := (48 <=? char_code c) && (char_code c <=? 57).

Definition utf8_error (message : string) : list ValidationError :=
  [mkError ErrorCategory_parse_error "$" "JCS-UTF8" message].

(** The code points of a text; the length of the text is fuel enough. *)
Fixpoint decode_utf8_from (fuel : nat) (input : list Z) : Result (list Z) :=
  match input with
  | [] => success []
  | first :: rest =>
      match fuel with
      | O => failure []
      | S fuel =>
          match utf8_lead first with
          | None => failure (utf8_error "invalid UTF-8 lead byte")
          | Some (code_point, sequence) =>
              if (length input <? sequence)%nat then
                failure (utf8_error "truncated UTF-8 sequence")
              else
                match utf8_continue code_point (take (sequence - 1) rest) with
                | None => failure (utf8_error "invalid UTF-8 continuation byte")
                | Some code_point =>
                    if negb (utf8_code_point_ok sequence code_point) then
                      failure (utf8_error "invalid UTF-8 scalar value")
                    else
                      match decode_utf8_from fuel (drop (sequence - 1) rest) with
                      | failure errors => failure errors
                      | success code_points => success (code_point :: code_points)
                      end
                end
          end
      end
  end.

Definition decode_utf8 (input : string) : Result (list Z) :=
  decode_utf8_from (String.length input) (string_bytes input).

(** ** Parsing

    A parser returns a value and the text after it, or errors. [None] marks a
    recursion that was cut off; [parse_total] shows that it does not happen. *)

Definition Parsed (A : Type) : Type := option (Result (A * list ascii)).

Definition parsed {A : Type} (a : A) (rest : list ascii) : Parsed A := Some (success (a, rest)).

Definition parse_fail {A : Type} (category : ErrorCategory) (path rule message : string) : Parsed A :=
  Some (fail_with category path rule message).

Definition parser_fail {A : Type} (path message : string) : Parsed A :=
  parse_fail ErrorCategory_parse_error path "JSON-PARSE" message.

Definition pbind {A B : Type} (p : Parsed A) (k : A -> list ascii -> Parsed B) : Parsed B :=
  match p with
  | None => None
  | Some (failure errors) => Some (failure errors)
  | Some (success (a, rest)) => k a rest
  end.

Definition is_space (c : ascii) : bool :=
  (char_code c =? 32) || (char_code c =? 9) || (char_code c =? 10) || (char_code c =? 13).

Fixpoint skip_space (input : list ascii) : list ascii :=
  match input with
  | c :: rest => if is_space c then skip_space rest else input
  | [] => []
  end.

Definition parse_literal (literal : string) (value : Value) (path : string) (input : list ascii) :
    Parsed Value :=
  let n := String.length literal in
  if bool_decide (take n input = text literal) then parsed value (drop n input)
  else parser_fail path "invalid JSON literal".

Definition json_hex_digit (c : ascii) : option Z :=
  let code := char_code c in
  if (48 <=? code) && (code <=? 57) then Some (code - 48)
  else if (97 <=? code) && (code <=? 102) then Some (10 + (code - 97))
  else if (65 <=? code) && (code <=? 70) then Some (10 + (code - 65))
  else None.

Fixpoint hex_loop (value : Z) (digits : list ascii) : option Z :=
  match digits with
  | [] => Some value
  | c :: rest =>
      match json_hex_digit c with
      | Some digit => hex_loop (Z.lor (Z.shiftl value 4) digit) rest
      | None => None
      end
  end.

Definition parse_hex4 (path : string) (input : list ascii) : Parsed Z :=
  if (length input <? 4)%nat then
    parse_fail ErrorCategory_parse_error path "JSON-UNICODE" "truncated Unicode escape"
  else
    match hex_loop 0 (take 4 input) with
    | None =>
        parse_fail ErrorCategory_parse_error path "JSON-UNICODE" "non-hexadecimal Unicode escape"
    | Some value => parsed value (drop 4 input)
    end.

(** The code point of a [\u] escape, a surrogate pair when the first unit is a
    high surrogate. *)
Definition parse_unicode (path : string) (input : list ascii) : Parsed Z :=
  pbind (parse_hex4 path input) (fun code_point input =>
    if (55296 <=? code_point) && (code_point <=? 56319) then
      match input with
      | b :: u :: input =>
          if negb (Ascii.eqb b backslash) || negb (Ascii.eqb u "u") then
            parse_fail ErrorCategory_parse_error path "JSON-UNICODE"
              "high surrogate is not followed by a low surrogate"
          else
            pbind (parse_hex4 path input) (fun second input =>
              if (second <? 56320) || (second >? 57343) then
                parse_fail ErrorCategory_parse_error path "JSON-UNICODE" "invalid low surrogate"
              else
                parsed (65536 + Z.shiftl (code_point - 55296) 10 + (second - 56320)) input)
      | _ =>
          parse_fail ErrorCategory_parse_error path "JSON-UNICODE"
            "high surrogate is not followed by a low surrogate"
      end
    else if (56320 <=? code_point) && (code_point <=? 57343) then
      parse_fail ErrorCategory_parse_error path "JSON-UNICODE" "unpaired low surrogate"
    else parsed code_point input).

(** The character a one-letter escape stands for. *)
Definition simple_escape (c : ascii) : option ascii :=
  if Ascii.eqb c quote || Ascii.eqb c backslash || Ascii.eqb c "/" then Some c
  else if Ascii.eqb c "b" then Some (Ascii.ascii_of_N 8)
  else if Ascii.eqb c "f" then Some (Ascii.ascii_of_N 12)
  else if Ascii.eqb c "n" then Some (Ascii.ascii_of_N 10)
  else if Ascii.eqb c "r" then Some (Ascii.ascii_of_N 13)
  else if Ascii.eqb c "t" then Some (Ascii.ascii_of_N 9)
  else None.

Definition set_front_path (path : string) (errors : list ValidationError) : list ValidationError :=
  match errors with
  | e :: rest => mkError (category e) path (rule_id e) (message e) :: rest
  | [] => []
  end.

(** The loop of [parse_string], after the opening quote; [output] holds the
    characters read so far, last first. *)
Fixpoint string_loop (fuel : nat) (path : string) (output input : list ascii) : Parsed string :=
  match fuel with
  | O => None
  | S fuel =>
      match input with
      | [] => parse_fail ErrorCategory_parse_error path "JSON-STRING" "unterminated string"
      | byte :: input =>
          if Ascii.eqb byte quote then
            let result := untext (rev output) in
            match decode_utf8 result with
            | failure errors => Some (failure (set_front_path path errors))
            | success _ => parsed result input
            end
          else if char_code byte <? 32 then
            parse_fail ErrorCategory_parse_error path "JSON-STRING"
              "unescaped control byte in string"
          else if negb (Ascii.eqb byte backslash) then
            string_loop fuel path (byte :: output) input
          else
            match input with
            | [] =>
                parse_fail ErrorCategory_parse_error path "JSON-STRING" "truncated string escape"
            | escaped :: input =>
                if Ascii.eqb escaped "u" then
                  pbind (parse_unicode path input) (fun code_point input =>
                    match utf8_bytes code_point with
                    | None =>
                        parse_fail ErrorCategory_parse_error path "JSON-UNICODE"
                          "invalid Unicode scalar value"
                    | Some bytes =>
                        string_loop fuel path
                          (rev ((fun b => Ascii.ascii_of_N (Z.to_N b)) <$> bytes) ++ output) input
                    end)
                else
                  match simple_escape escaped with
                  | Some c => string_loop fuel path (c :: output) input
                  | None =>
                      parse_fail ErrorCategory_parse_error path "JSON-STRING"
                        "unknown string escape"
                  end
            end
      end
  end.

Definition parse_string (path : string) (input : list ascii) : Parsed string :=
  string_loop (S (length input)) path [] input.

(** *** Numbers *)

(** The digits at the front of a text. *)
Fixpoint span_digits (input : list ascii) : list ascii * list ascii :=
  match input with
  | c :: rest =>
      if json_is_digit c then let '(digits, rest) := span_digits rest in (c :: digits, rest)
      else ([], input)
  | [] => ([], [])
  end.

Definition starts_with_digit (input : list ascii) : bool :=
  match input with c :: _ => json_is_digit c | [] => false end.

Definition starts_with (c : ascii) (input : list ascii) : bool :=
  match input with d :: _ => Ascii.eqb c d | [] => false end.

(** The value of a run of decimal digits. *)
Definition decimal_value (digits : list ascii) : Z :=
  fold_left (fun acc c => acc * 10 + (char_code c - 48)) digits 0.

(** The integer part: a single zero or digits that start with none. *)
Definition integer_part (path : string) (input : list ascii) : Parsed (list ascii) :=
  match input with
  | c :: rest =>
      if Ascii.eqb c "0" then
        if starts_with_digit rest then parser_fail path "leading zero in number"
        else parsed [c] rest
      else if json_is_digit c then
        let '(digits, rest) := span_digits input in parsed digits rest
      else parser_fail path "invalid number integer part"
  | [] => parser_fail path "invalid number integer part"
  end.

(** The fraction with its point; nothing when there is none. *)
Definition fraction_part (path : string) (input : list ascii) : Parsed (list ascii) :=
  match input with
  | c :: rest =>
      if Ascii.eqb c "." then
        if negb (starts_with_digit rest) then
          parser_fail path "fraction requires at least one digit"
        else let '(digits, rest) := span_digits rest in parsed (c :: digits) rest
      else parsed [] input
  | [] => parsed [] input
  end.

Definition exponent_part (path : string) (input : list ascii) : Parsed (list ascii) :=
  match input with
  | c :: rest =>
      if Ascii.eqb c "e" || Ascii.eqb c "E" then
        let '(sign, rest) :=
          match rest with
          | s :: rest' => if Ascii.eqb s "+" || Ascii.eqb s "-" then ([s], rest') else ([], rest)
          | [] => ([], rest)
          end in
        if negb (starts_with_digit rest) then
          parser_fail path "exponent requires at least one digit"
        else let '(digits, rest) := span_digits rest in parsed (c :: sign ++ digits) rest
      else parsed [] input
  | [] => parsed [] input
  end.

(** *** Binary64 numbers

    [std::from_chars] rounds the exact decimal to nearest, ties to even, and
    reports a value outside the normal and subnormal range; [std::to_chars]
    prints the shortest digits that read back as the same value. *)

Definition precision : Z := 53.
Definition emax : Z := 1024.

(** The binary64 value nearest to [(-1)^negative * mantissa * 10^exponent]. *)
Definition round_decimal (negative : bool) (mantissa exponent : Z) : spec_float :=
  match mantissa with
  | Z.pos m =>
      if 0 <=? exponent then
        binary_round precision emax negative (Z.to_pos (mantissa * 10 ^ exponent)) 0
      else
        let '(q, e, location) :=
          SFdiv_core_binary precision emax mantissa 0 (10 ^ (- exponent)) 0 in
        binary_round_aux precision emax negative q e location
  | _ => S754_zero negative
  end.

Definition is_finite (x : spec_float) : bool :=
  match x with S754_zero _ | S754_finite _ _ _ => true | _ => false end.

(** [std::from_chars] of an [int]: an optional minus sign and digits. *)
Definition from_chars_int (t : list ascii) : Z :=
  match t with
  | c :: digits => if Ascii.eqb c "-" then - decimal_value digits else decimal_value t
  | [] => 0
  end.

(** [std::from_chars] of a [double], of a text with the grammar of a number. *)
Definition from_chars_binary64 (lexical : list ascii) : option spec_float :=
  let '(negative, t) :=
    match lexical with
    | c :: rest => if Ascii.eqb c "-" then (true, rest) else (false, lexical)
    | [] => (false, lexical)
    end in
  let '(whole, t) := span_digits t in
  let '(fraction, t) :=
    match t with
    | c :: rest => if Ascii.eqb c "." then span_digits rest else ([], t)
    | [] => ([], t)
    end in
  let exponent :=
    match t with
    | _ :: c :: rest => if Ascii.eqb c "+" then from_chars_int rest else from_chars_int (c :: rest)
    | _ => 0
    end in
  let mantissa := decimal_value (whole ++ fraction) in
  let value := round_decimal negative mantissa (exponent - Z.of_nat (length fraction)) in
  match value with
  | S754_zero _ => if mantissa =? 0 then Some value else None
  | S754_finite _ _ _ => Some value
  | _ => None
  end.

(** The decimal digits of a number, most significant first. *)
Definition digit_char (d : Z) : ascii := Ascii.ascii_of_N (Z.to_N (48 + d)).

Fixpoint digits_go (fuel : nat) (z : Z) (acc : list ascii) : list ascii :=
  match fuel with
  | O => acc
  | S fuel =>
      let acc := digit_char (z mod 10) :: acc in
      if z <? 10 then acc else digits_go fuel (z / 10) acc
  end.

(** A number below [2^n] has at most [n] decimal digits. *)
Definition decimal_digits (z : Z) : list ascii := digits_go (S (Z.to_nat (Z.log2 z))) z [].

Definition sf_same (x y : spec_float) : bool :=
  match SFcompare x y with Some Eq => true | _ => false end.

(** [floor (num / den * 10^-exponent)]. *)
Definition scaled_floor (num den exponent : Z) : Z :=
  if 0 <=? exponent then num / (den * 10 ^ exponent) else num * 10 ^ (- exponent) / den.

(** The decimals with one unit in the last place around [num / den], the nearer
    one first. *)
Definition neighbours (num den exponent : Z) : list Z :=
  let low := scaled_floor num den exponent in
  let twice := scaled_floor (2 * num) den exponent in
  if twice =? 2 * low then [low; low + 1] else [low + 1; low].

(** The first decimal with at most [17 - remaining] more digits that reads back as
    [x]; seventeen digits always do. *)
Fixpoint shortest_loop (remaining : nat) (negative : bool) (num den top : Z) (x : spec_float)
    (n : Z) : Z * Z :=
  let exponent := top - n + 1 in
  let fits c := (0 <? c) && sf_same (round_decimal negative c exponent) x in
  match filter (fun c => fits c = true) (neighbours num den exponent), remaining with
  | c :: _, _ => (c, exponent)
  | [], S remaining => shortest_loop remaining negative num den top x (n + 1)
  | [], O => (scaled_floor num den exponent, exponent)
  end.

Definition shortest_decimal (x : spec_float) : bool * Z * Z :=
  match x with
  | S754_finite negative m e =>
      let '(num, den) := if 0 <=? e then (Z.pos m * 2 ^ e, 1) else (Z.pos m, 2 ^ (- e)) in
      let top := Z.of_nat (length (decimal_digits (num * 10 ^ 400 / den))) - 401 in
      let '(c, exponent) := shortest_loop 16 negative num den top x 1 in
      if c mod 10 =? 0 then (negative, c / 10, exponent + 1) else (negative, c, exponent)
  | _ => (false, 0, 0)
  end.

(** [std::to_chars] with [chars_format::general]: fixed notation for exponents
    from -4 to 5, else scientific with at least two exponent digits. *)
Definition to_chars_binary64 (x : spec_float) : list ascii :=
  let '(negative, c, exponent) := shortest_decimal x in
  let digits := decimal_digits c in
  let count := Z.of_nat (length digits) in
  let scientific := exponent + count - 1 in
  let zeros n := replicate (Z.to_nat n) ("0"%char) in
  (if negative then ["-"%char] else []) ++
  if (-4 <=? scientific) && (scientific <? 6) then
    if 0 <=? exponent then digits ++ zeros exponent
    else if 0 <? count + exponent then
      take (Z.to_nat (count + exponent)) digits ++ ["."%char] ++
      drop (Z.to_nat (count + exponent)) digits
    else ["0"%char; "."%char] ++ zeros (- (count + exponent)) ++ digits
  else
    take 1 digits ++ (if 1 <? count then ["."%char] else []) ++ drop 1 digits ++
    ["e"%char; if 0 <=? scientific then "+"%char else "-"%char] ++
    (if Z.abs scientific <? 10 then ["0"%char] else []) ++ decimal_digits (Z.abs scientific).

(** *** The number parser *)

(** Conversion of the lexical form. *)
Definition convert_number (path : string) (binary64 : bool) (lexical rest : list ascii) :
    Parsed Value :=
  let number kind value := parsed (Value_number (mkNumber kind (untext lexical) value)) rest in
  if binary64 then
    match from_chars_binary64 lexical with
    | Some value =>
        if is_finite value then number NumberKind_binary64 (Number_double value)
        else parse_fail ErrorCategory_out_of_range path "JSON-NUMBER-RANGE"
               "number is outside finite binary64 range"
    | None =>
        parse_fail ErrorCategory_out_of_range path "JSON-NUMBER-RANGE"
          "number is outside finite binary64 range"
    end
  else if starts_with "-" lexical then
    let value := from_chars_int lexical in
    if (i64_min <=? value) && (value <=? i64_max)
    then number NumberKind_signed_integer (Number_int64 value)
    else parse_fail ErrorCategory_out_of_range path "JCS-I64-RANGE"
           "negative integer is outside signed 64-bit range"
  else
    let value := from_chars_int lexical in
    if value <=? u64_max
    then number NumberKind_unsigned_integer (Number_uint64 value)
    else parse_fail ErrorCategory_out_of_range path "JCS-I64-RANGE"
           "nonnegative integer is outside unsigned 64-bit range".

Definition parse_number (path : string) (input : list ascii) : Parsed Value :=
  let '(sign, after) :=
    if starts_with "-" input then (["-"%char], tail input) else ([], input) in
  if bool_decide (after = []) then parser_fail path "truncated number"
  else
    pbind (integer_part path after) (fun whole after =>
    pbind (fraction_part path after) (fun fraction after =>
    pbind (exponent_part path after) (fun exponent rest =>
      convert_number path (negb (bool_decide (fraction = [])) || negb (bool_decide (exponent = [])))
        (sign ++ whole ++ fraction ++ exponent) rest))).

(** *** Arrays, objects, values *)

(** The loop of [parse_array]; [values] holds the elements, last first. *)
Fixpoint array_loop (parse_value : string -> list ascii -> Parsed Value) (fuel : nat)
    (path : string) (index : Z) (values : list Value) (input : list ascii) : Parsed Value :=
  match fuel with
  | O => None
  | S fuel =>
      pbind (parse_value (path +:+ "/" +:+ std_to_string index) input) (fun value input =>
        match skip_space input with
        | [] => parser_fail path "unterminated array"
        | c :: rest =>
            if Ascii.eqb c "]" then parsed (Value_array (rev (value :: values))) rest
            else if negb (Ascii.eqb c ",") then parser_fail path "expected comma in array"
            else array_loop parse_value fuel path (index + 1) (value :: values) (skip_space rest)
        end)
  end.

Definition parse_array (parse_value : string -> list ascii -> Parsed Value) (fuel : nat)
    (path : string) (input : list ascii) : Parsed Value :=
  let input := skip_space input in
  if starts_with "]" input then parsed (Value_array []) (tail input)
  else array_loop parse_value fuel path 0 [] input.

Fixpoint object_loop (parse_value : string -> list ascii -> Parsed Value) (fuel : nat)
    (path : string) (values : list (string * Value)) (input : list ascii) : Parsed Value :=
  match fuel with
  | O => None
  | S fuel =>
      if negb (starts_with quote input) then parser_fail path "object key must be a string"
      else
        pbind (parse_string path (tail input)) (fun key input =>
          let input := skip_space input in
          if negb (starts_with ":" input) then parser_fail path "expected colon after object key"
          else
            let child_path := path +:+ "/" +:+ key in
            pbind (parse_value child_path (skip_space (tail input))) (fun value input =>
              match map_emplace key value values with
              | None =>
                  parse_fail ErrorCategory_duplicate_value child_path "JSON-DUPLICATE-KEY"
                    "duplicate object member"
              | Some values =>
                  match skip_space input with
                  | [] => parser_fail path "unterminated object"
                  | c :: rest =>
                      if Ascii.eqb c "}" then parsed (Value_object values) rest
                      else if negb (Ascii.eqb c ",") then parser_fail path "expected comma in object"
                      else object_loop parse_value fuel path values (skip_space rest)
                  end
              end))
  end.

Definition parse_object (parse_value : string -> list ascii -> Parsed Value) (fuel : nat)
    (path : string) (input : list ascii) : Parsed Value :=
  let input := skip_space input in
  if starts_with "}" input then parsed (Value_object []) (tail input)
  else object_loop parse_value fuel path [] input.

Fixpoint parse_value (fuel : nat) (path : string) (input : list ascii) : Parsed Value :=
  match fuel with
  | O => None
  | S fuel =>
      match input with
      | [] => parser_fail path "expected a JSON value"
      | c :: rest =>
          if Ascii.eqb c "n" then parse_literal "null" Value_null path input
          else if Ascii.eqb c "t" then parse_literal "true" (Value_bool true) path input
          else if Ascii.eqb c "f" then parse_literal "false" (Value_bool false) path input
          else if Ascii.eqb c quote then
            pbind (parse_string path rest) (fun s rest => parsed (Value_string s) rest)
          else if Ascii.eqb c "[" then parse_array (parse_value fuel) fuel path rest
          else if Ascii.eqb c "{" then parse_object (parse_value fuel) fuel path rest
          else if Ascii.eqb c "-" || json_is_digit c then parse_number path input
          else parser_fail path "unexpected byte while parsing JSON value"
      end
  end.

Definition parse_document (fuel : nat) (input : list ascii) : option (Result Value) :=
  match parse_value fuel "$" (skip_space input) with
  | None => None
  | Some (failure errors) => Some (failure errors)
  | Some (success (value, rest)) =>
      match skip_space rest with
      | [] => Some (success value)
      | _ => Some (fail_with ErrorCategory_parse_error "$" "JSON-PARSE"
                     "trailing content after the JSON value")
      end
  end.

(** The recursion consumes the text, so its length bounds the depth. *)
Definition parse_text (input : list ascii) : option (Result Value) :=
  parse_document (S (length input)) input.

(** [parse]; the default is not reached. *)
Definition parse (input : string) : Result Value :=
  default (failure []) (parse_text (text input)).

(** ** The canonical form *)

(** Code points above [U+FFFF] become surrogate pairs. *)
Definition utf16_units (code_point : Z) : list Z :=
  if code_point <=? 65535 then [code_point]
  else
    let code_point := code_point - 65536 in
    [55296 + Z.shiftr code_point 10; 56320 + Z.land code_point 1023].

Definition utf16_key (t : string) : Result (list Z) :=
  match decode_utf8 t with
  | failure errors => failure errors
  | success decoded => success (mjoin (utf16_units <$> decoded))
  end.

Definition hex_char (digit : Z) : ascii :=
  Ascii.ascii_of_N (Z.to_N (if digit <? 10 then 48 + digit else 87 + digit)).

(** The escape of a quote, a backslash or a control character. *)
Definition escape_char (byte : ascii) : list ascii :=
  let code := char_code byte in
  if code =? 34 then [backslash; quote]
  else if code =? 92 then [backslash; backslash]
  else if code =? 8 then [backslash; "b"%char]
  else if code =? 9 then [backslash; "t"%char]
  else if code =? 10 then [backslash; "n"%char]
  else if code =? 12 then [backslash; "f"%char]
  else if code =? 13 then [backslash; "r"%char]
  else [backslash; "u"%char; "0"%char; "0"%char;
        hex_char (Z.land (Z.shiftr code 4) 15); hex_char (Z.land code 15)].

Definition is_plain (byte : ascii) : bool :=
  (32 <=? char_code byte) && negb (char_code byte =? 34) && negb (char_code byte =? 92).

(** The bytes of a sequence that starts with [byte], which is not ASCII. *)
Definition sequence_length (byte : ascii) : nat :=
  if Z.land (char_code byte) 240 =? 224 then 3
  else if Z.land (char_code byte) 248 =? 240 then 4
  else 2.

(** The loop of [append_string]; [skip] bytes of a sequence are left to copy. *)
Fixpoint escape_loop (skip : nat) (t : list ascii) : list ascii :=
  match t with
  | [] => []
  | byte :: rest =>
      match skip with
      | S skip => byte :: escape_loop skip rest
      | O =>
          if is_plain byte then
            if char_code byte <? 128 then byte :: escape_loop 0 rest
            else byte :: escape_loop (sequence_length byte - 1) rest
          else escape_char byte ++ escape_loop 0 rest
      end
  end.

(** [append_string], as the characters it appends. *)
Definition append_string (s : string) : Result (list ascii) :=
  match decode_utf8 s with
  | failure errors => failure errors
  | success _ => success (quote :: escape_loop 0 (text s) ++ [quote])
  end.

(** The position of the first of some characters; the length if there is none. *)
Fixpoint find_first_of (these : list ascii) (t : list ascii) : nat :=
  match t with
  | [] => O
  | c :: rest => if bool_decide (c ∈ these) then O else S (find_first_of these rest)
  end.

(** [1e-6] and [1e21], as the compiler reads them. *)
Definition binary64_1em6 : spec_float := round_decimal false 1 (-6).
Definition binary64_1e21 : spec_float := round_decimal false 1 21.

(** [std::to_chars] of an integer. *)
Definition to_chars_int (z : Z) : list ascii :=
  if z <? 0 then "-"%char :: decimal_digits (- z) else decimal_digits z.

Definition canonical_binary64 (value : spec_float) : Result (list ascii) :=
  if negb (is_finite value) then
    fail_with ErrorCategory_unsupported_number "$" "JCS-NONFINITE"
      "JCS does not encode non-finite numbers"
  else if sf_same value (S754_zero false) then success ["0"%char]
  else
    let shortest := to_chars_binary64 value in
    let negative := starts_with "-" shortest in
    let body := if negative then tail shortest else shortest in
    let coefficient_end := find_first_of ["e"%char; "E"%char] body in
    let coefficient := take coefficient_end body in
    let integer_digits := find_first_of ["."%char] coefficient in
    let digits := filter (fun c => c <> "."%char) coefficient in
    let exponent_text := drop (S coefficient_end) body in
    let exponent :=
      from_chars_int (if starts_with "+" exponent_text then tail exponent_text else exponent_text) in
    let decimal_position := Z.of_nat integer_digits + exponent in
    let magnitude := SFabs value in
    let size := Z.of_nat (length digits) in
    let zeros n := replicate (Z.to_nat n) ("0"%char) in
    success ((if negative then ["-"%char] else []) ++
      if SFleb binary64_1em6 magnitude && SFltb magnitude binary64_1e21 then
        if decimal_position <=? 0 then
          ["0"%char; "."%char] ++ zeros (- decimal_position) ++ digits
        else if size <=? decimal_position then digits ++ zeros (decimal_position - size)
        else take (Z.to_nat decimal_position) digits ++ ["."%char] ++
             drop (Z.to_nat decimal_position) digits
      else
        take 1 digits ++ (if 1 <? size then "."%char :: drop 1 digits else []) ++
        ["e"%char; if 0 <=? decimal_position - 1 then "+"%char else "-"%char] ++
        to_chars_int (Z.abs (decimal_position - 1))).

(** The order of [std::vector<std::uint16_t>]. *)
Fixpoint utf16_leb (a b : list Z) : bool :=
  match a, b with
  | [], _ => true
  | _ :: _, [] => false
  | x :: a, y :: b => if x <? y then true else if y <? x then false else utf16_leb a b
  end.

(** A member with the UTF-16 units of its key. *)
Definition OrderedMember (A : Type) : Type := list Z * (string * A).

Definition member_le {A : Type} (left right : OrderedMember A) : Prop :=
  Is_true (utf16_leb (fst left) (fst right)).

(** The first loop over the members: encode the keys. *)
Fixpoint ordered_members {A : Type} (object : list (string * A)) : Result (list (OrderedMember A)) :=
  match object with
  | [] => success []
  | (key, child) :: rest =>
      match utf16_key key with
      | failure errors => failure errors
      | success encoded_key =>
          match ordered_members rest with
          | failure errors => failure errors
          | success members => success ((encoded_key, (key, child)) :: members)
          end
      end
  end.

(** [std::get] of the alternative the kind of a number names; a number of the
    program holds that alternative. *)
Definition number_integer (n : Number) : Z :=
  match num_value n with Number_int64 z | Number_uint64 z => z | Number_double _ => 0 end.

Definition number_double (n : Number) : spec_float :=
  match num_value n with Number_double x => x | _ => S754_nan end.

Definition append_number (n : Number) : Result (list ascii) :=
  match num_kind n with
  | NumberKind_signed_integer | NumberKind_unsigned_integer =>
      success (to_chars_int (number_integer n))
  | NumberKind_binary64 => canonical_binary64 (number_double n)
  end.

(** The loop over the elements of an array, from the text of each. *)
Fixpoint append_elements (first : bool) (elements : list (Result (list ascii))) :
    Result (list ascii) :=
  match elements with
  | [] => success ["]"%char]
  | appended :: rest =>
      match appended with
      | failure errors => failure errors
      | success t =>
          match append_elements false rest with
          | failure errors => failure errors
          | success u => success ((if first then [] else [","%char]) ++ t ++ u)
          end
      end
  end.

(** The second loop over the members, in their order. *)
Fixpoint append_members (first : bool) (members : list (string * Result (list ascii))) :
    Result (list ascii) :=
  match members with
  | [] => success ["}"%char]
  | (key, appended) :: rest =>
      match append_string key with
      | failure errors => failure errors
      | success k =>
          match appended with
          | failure errors => failure errors
          | success t =>
              match append_members false rest with
              | failure errors => failure errors
              | success u =>
                  success ((if first then [] else [","%char]) ++ k ++ [":"%char] ++ t ++ u)
              end
          end
      end
  end.

(** [append_canonical], as the characters it appends. *)
Fixpoint append_canonical (value : Value) : Result (list ascii) :=
  match value with
  | Value_null => success (text "null")
  | Value_bool b => success (text (if b then "true" else "false"))
  | Value_number n => append_number n
  | Value_string s => append_string s
  | Value_array l =>
      match append_elements true (List.map append_canonical l) with
      | failure errors => failure errors
      | success t => success ("["%char :: t)
      end
  | Value_object object =>
      match ordered_members
              (List.map (fun kv => (fst kv, append_canonical (snd kv))) object) with
      | failure errors => failure errors
      | success members =>
          match append_members true (snd <$> merge_sort member_le members) with
          | failure errors => failure errors
          | success t => success ("{"%char :: t)
          end
      end
  end.

Definition canonicalize (value : Value) : Result string :=
  match append_canonical value with
  | failure errors => failure errors
  | success output => success (untext output)
  end.
