(* ===== verification/JsonParsing.v ===== *)
(** * What the JSON parser returns

    The recursion of the parser ends on every text, and what it accepts is well
    formed: object keys are unique and in order, strings are valid UTF-8 and
    numbers hold a finite value in the range of their kind. *)

From stdpp Require Import prelude list strings sorting.
From Stdlib Require Import ZArith Lia Ascii SpecFloat.
From S2P Require Import Prelude Validation Model Bytes Utf8 Json.

#[local] Open Scope Z_scope.

(** ** Induction on values *)

Section ValueInduction.
Context (P : Value -> Prop).
Hypothesis Pnull : P Value_null.
Hypothesis Pbool : forall b, P (Value_bool b).
Hypothesis Pnumber : forall n, P (Value_number n).
Hypothesis Pstring : forall s, P (Value_string s).
Hypothesis Parray : forall l, Forall P l -> P (Value_array l).
Hypothesis Pobject : forall l, Forall (fun kv => P (snd kv)) l -> P (Value_object l).

Fixpoint Value_nested_ind (v : Value) : P v :=
  match v with
  | Value_null => Pnull
  | Value_bool b => Pbool b
  | Value_number n => Pnumber n
  | Value_string s => Pstring s
  | Value_array l =>
      Parray l ((fix go (l : list Value) : Forall P l :=
                   match l with
                   | [] => Forall_nil_2 P
                   | v :: l => Forall_cons_2 P v l (Value_nested_ind v) (go l)
                   end) l)
  | Value_object l =>
      Pobject l ((fix go (l : list (string * Value)) : Forall (fun kv => P (snd kv)) l :=
                    match l with
                    | [] => Forall_nil_2 _
                    | kv :: l => Forall_cons_2 _ kv l (Value_nested_ind (snd kv)) (go l)
                    end) l)
  end.
End ValueInduction.

(** ** Well-formed documents *)

Definition number_well_formed (n : Number) : bool :=
  match num_kind n, num_value n with
  | NumberKind_signed_integer, Number_int64 z => (i64_min <=? z) && (z <=? i64_max)
  | NumberKind_unsigned_integer, Number_uint64 z => (0 <=? z) && (z <=? u64_max)
  | NumberKind_binary64, Number_double x => is_finite x
  | _, _ => false
  end.

Fixpoint keys_sorted {V : Type} (members : list (string * V)) : bool :=
  match members with
  | [] => true
  | (k, _) :: rest =>
      match rest with [] => true | (k', _) :: _ => str_ltb k k' end && keys_sorted rest
  end.

Fixpoint well_formed (v : Value) : bool :=
  match v with
  | Value_null | Value_bool _ => true
  | Value_number n => number_well_formed n
  | Value_string s => has_value (decode_utf8 s)
  | Value_array l => forallb well_formed l
  | Value_object l =>
      keys_sorted l &&
      forallb (fun kv => has_value (decode_utf8 (fst kv)) && well_formed (snd kv)) l
  end.

(** ** Parsers that satisfy a contract

    [Parses n P p]: [p] is not cut off, a success leaves at most [n] characters
    and its value satisfies [P]. *)

Definition Parses {A : Type} (n : nat) (P : A -> Prop) (p : Parsed A) : Prop :=
  match p with
  | None => False
  | Some (failure _) => True
  | Some (success (a, rest)) => (length rest <= n)%nat /\ P a
  end.

Lemma Parses_fail {A} n (P : A -> Prop) c path rule msg : Parses n P (parse_fail c path rule msg).
Proof. exact I. Qed.

Lemma Parses_parser_fail {A} n (P : A -> Prop) path msg : Parses n P (parser_fail path msg).
Proof. exact I. Qed.

Lemma Parses_parsed {A} n (P : A -> Prop) a rest :
  (length rest <= n)%nat -> P a -> Parses n P (parsed a rest).
Proof. by split. Qed.

Lemma Parses_bind {A B} n m (P : A -> Prop) (Q : B -> Prop) p k :
  Parses m P p ->
  (forall a rest, (length rest <= m)%nat -> P a -> Parses n Q (k a rest)) ->
  Parses n Q (pbind p k).
Proof. destruct p as [[[a rest]|]|]; simpl; naive_solver. Qed.

Lemma Parses_weaken {A} n m (P Q : A -> Prop) p :
  Parses n P p -> (n <= m)%nat -> (forall a, P a -> Q a) -> Parses m Q p.
Proof. destruct p as [[[a rest]|]|]; simpl; naive_solver lia. Qed.

Create HintDb json.
#[export] Hint Resolve Parses_fail Parses_parser_fail : json.

Lemma length_skip_space t : (length (skip_space t) <= length t)%nat.
Proof. induction t as [|c t IH]; simpl; [lia|]. destruct (is_space c); simpl; lia. Qed.

Lemma length_tail {A} (l : list A) : length (tail l) = (length l - 1)%nat.
Proof. destruct l; simpl; lia. Qed.

Lemma starts_with_length c t : starts_with c t = true -> (1 <= length t)%nat.
Proof. destruct t; simpl; [done | lia]. Qed.

Lemma starts_with_digit_length t : starts_with_digit t = true -> (1 <= length t)%nat.
Proof. destruct t; simpl; [done | lia]. Qed.

(** ** Strings *)

Lemma parse_hex4_Parses path t : Parses (length t - 4) (fun _ => True) (parse_hex4 path t).
Proof.
  unfold parse_hex4. destruct (Nat.ltb_spec (length t) 4); auto with json.
  destruct (hex_loop 0 (take 4 t)); auto with json.
  apply Parses_parsed; [rewrite length_drop; lia | done].
Qed.

Lemma parse_unicode_Parses path t : Parses (length t) (fun _ => True) (parse_unicode path t).
Proof.
  unfold parse_unicode. eapply Parses_bind; [apply parse_hex4_Parses|]. intros u rest Hrest _.
  destruct (_ && _).
  - destruct rest as [|b [|u' rest]]; auto with json.
    destruct (_ || _); auto with json.
    eapply Parses_bind; [apply parse_hex4_Parses|]. intros w rest' Hrest' _.
    destruct (_ || _); auto with json. apply Parses_parsed; [simpl in *; lia | done].
  - destruct (_ && _); auto with json. apply Parses_parsed; [lia | done].
Qed.

Lemma string_loop_Parses fuel path : forall output t,
  (length t < fuel)%nat ->
  Parses (length t - 1) (fun s => has_value (decode_utf8 s) = true) (string_loop fuel path output t).
Proof.
  induction fuel as [|fuel IH]; intros output t Hfuel; [lia|]. simpl.
  destruct t as [|c t]; auto with json. simpl in Hfuel |- *. rewrite Nat.sub_0_r.
  assert (Next : forall output t', (length t' <= length t)%nat ->
      Parses (length t) (fun s => has_value (decode_utf8 s) = true) (string_loop fuel path output t')).
  { intros output' t' Ht'. eapply Parses_weaken; [apply IH; lia | lia | done]. }
  destruct (Ascii.eqb c quote).
  - destruct (decode_utf8 _) eqn:D; [|exact I]. apply Parses_parsed; [lia | by rewrite D].
  - destruct (_ <? 32); auto with json. destruct (Ascii.eqb c backslash); simpl; [|by apply Next].
    destruct t as [|e t]; auto with json. destruct (Ascii.eqb e "u").
    + eapply Parses_bind; [apply parse_unicode_Parses|]. intros u rest Hrest _.
      destruct (utf8_bytes u); auto with json. apply Next. simpl. lia.
    + destruct (simple_escape e); auto with json. apply Next. simpl. lia.
Qed.

Lemma parse_string_Parses path t :
  Parses (length t - 1) (fun s => has_value (decode_utf8 s) = true) (parse_string path t).
Proof. apply string_loop_Parses. lia. Qed.

(** ** Numbers *)

Lemma span_digits_spec t :
  let '(digits, rest) := span_digits t in
  t = digits ++ rest /\ Forall (fun c => json_is_digit c = true) digits /\
  starts_with_digit rest = false.
Proof.
  induction t as [|c t IH]; simpl; [done|]. destruct (json_is_digit c) eqn:D; [|by split].
  destruct (span_digits t) as [digits rest]. destruct IH as (-> & F & S).
  split; [done|]. split; [by constructor | done].
Qed.

Lemma span_digits_length t digits rest :
  span_digits t = (digits, rest) -> (length rest <= length t)%nat.
Proof.
  intros E. pose proof (span_digits_spec t) as H. rewrite E in H. destruct H as (-> & _).
  rewrite length_app. lia.
Qed.

Lemma decimal_value_nonneg digits :
  Forall (fun c => json_is_digit c = true) digits -> 0 <= decimal_value digits.
Proof.
  unfold decimal_value. intros F. enough (H : forall acc, 0 <= acc ->
    0 <= fold_left (fun acc c => acc * 10 + (char_code c - 48)) digits acc) by (apply H; lia).
  induction F as [|c l D F IH]; intros acc Hacc; [done|]. simpl. apply IH.
  unfold json_is_digit in D. split_hyps. lia.
Qed.

Lemma integer_part_Parses path t :
  Parses (length t - 1) (Forall (fun c => json_is_digit c = true)) (integer_part path t).
Proof.
  unfold integer_part. destruct t as [|c t]; auto with json. simpl length. rewrite Nat.sub_succ, Nat.sub_0_r.
  destruct (Ascii.eqb_spec c "0") as [->|]; [destruct (starts_with_digit t); auto with json|].
  { by apply Parses_parsed; [|repeat constructor]. }
  destruct (json_is_digit c) eqn:D; auto with json.
  pose proof (span_digits_spec (c :: t)) as H. destruct (span_digits (c :: t)) as [digits rest] eqn:E.
  destruct H as (Ht & F & _). apply Parses_parsed; [|done].
  destruct digits as [|d digits].
  { simpl in E. rewrite D in E. by destruct (span_digits t). }
  injection Ht as -> ->. rewrite length_app. lia.
Qed.

Lemma fraction_part_Parses path t :
  Parses (length t) (fun _ => True) (fraction_part path t).
Proof.
  unfold fraction_part. destruct t as [|c t]; [by apply Parses_parsed|].
  destruct (Ascii.eqb c "."); [|by apply Parses_parsed].
  destruct (negb _); auto with json. destruct (span_digits t) as [digits rest] eqn:E.
  apply span_digits_length in E. apply Parses_parsed; [simpl; lia | done].
Qed.

Lemma exponent_part_Parses path t :
  Parses (length t) (fun _ => True) (exponent_part path t).
Proof.
  unfold exponent_part. destruct t as [|c t]; [by apply Parses_parsed|].
  destruct (_ || _); [|by apply Parses_parsed].
  assert (H : exists sign u, (match t with
    | s :: rest' => if Ascii.eqb s "+" || Ascii.eqb s "-" then ([s], rest') else ([], t)
    | [] => ([], t) end) = (sign, u) /\ (length u <= length t)%nat).
  { destruct t as [|s t]; [by eexists _, _|]. destruct (_ || _); eexists _, _; (split; [done|]); simpl; lia. }
  destruct H as (sign & u & -> & Hu). destruct (negb _); auto with json.
  destruct (span_digits u) as [digits rest] eqn:E. apply span_digits_length in E.
  apply Parses_parsed; [simpl; lia | done].
Qed.

Lemma parse_number_Parses path t :
  Parses (length t - 1) (fun v => well_formed v = true) (parse_number path t).
Proof.
  unfold parse_number.
  assert (H : exists sign after, (if starts_with "-" t then (["-"%char], tail t) else ([], t)) =
     (sign, after) /\ (length after <= length t)%nat /\
     (sign = ["-"%char] \/ sign = [])).
  { destruct (starts_with "-" t); eexists _, _; (split; [done|]); rewrite ?length_tail; split; auto; lia. }
  destruct H as (sign & after & -> & Hafter & Hsign).
  destruct (bool_decide _); auto with json.
  eapply Parses_bind; [apply integer_part_Parses|]. intros whole after' Hafter' Fwhole.
  eapply Parses_bind; [apply fraction_part_Parses|]. intros fraction after'' Hafter'' _.
  eapply Parses_bind; [apply exponent_part_Parses|]. intros exponent rest Hrest _.
  unfold convert_number.
  destruct (bool_decide_reflect (fraction = [])) as [->|]; simpl.
  1: destruct (bool_decide_reflect (exponent = [])) as [->|]; simpl.
  2, 3: destruct (from_chars_binary64 _); auto with json;
    destruct (is_finite _) eqn:Fin; auto with json; apply Parses_parsed; [lia|]; exact Fin.
  rewrite app_nil_r. destruct Hsign as [->| ->]; simpl.
  - destruct (_ && _) eqn:R; auto with json. apply Parses_parsed; [lia|]. exact R.
  - destruct (starts_with "-" whole) eqn:M.
    { destruct (_ && _) eqn:R; auto with json. apply Parses_parsed; [lia|]. exact R. }
    destruct (_ <=? u64_max) eqn:R; auto with json. apply Parses_parsed; [lia|].
    unfold well_formed, number_well_formed. simpl. rewrite R, andb_true_r.
    apply Z.leb_le. unfold from_chars_int. destruct whole as [|c whole]; [done|].
    destruct (Ascii.eqb_spec c "-") as [->|]; [|by apply decimal_value_nonneg].
    simpl in M. done.
Qed.

(** ** Arrays and objects *)

Lemma map_emplace_elem {V} (P : string * V -> Prop) key value members members' :
  map_emplace key value members = Some members' ->
  P (key, value) -> Forall P members -> Forall P members'.
Proof.
  revert members'. induction members as [|[k v] rest IH]; simpl; intros members' E Hkv F.
  - injection E as <-. by constructor.
  - apply Forall_cons in F as [Fk F].
    destruct (String.compare key k); [done| |].
    + injection E as <-. by repeat constructor.
    + destruct (map_emplace key value rest) as [rest'|] eqn:R; [|done].
      injection E as <-. constructor; [done|]. by apply IH.
Qed.

Lemma string_compare_gt a b : String.compare a b = Gt -> str_ltb b a = true.
Proof.
  intros E. unfold str_ltb. rewrite String.compare_antisym, E. done.
Qed.

Lemma map_emplace_sorted {V} key (value : V) members members' :
  map_emplace key value members = Some members' ->
  keys_sorted members = true -> keys_sorted members' = true.
Proof.
  revert members'. induction members as [|[k v] rest IH]; simpl; intros members' E S.
  - by injection E as <-.
  - destruct (String.compare key k) eqn:C; [done| |].
    + injection E as <-. simpl. unfold str_ltb at 1. rewrite C. exact S.
    + destruct (map_emplace key value rest) as [rest'|] eqn:R; [|done].
      injection E as <-. apply andb_true_iff in S as [S1 S2]. simpl.
      rewrite (IH _ eq_refl S2), andb_true_r.
      destruct rest as [|[k' v'] rest]; simpl in R.
      * injection R as <-. by apply string_compare_gt.
      * destruct (String.compare key k'); [done| |].
        -- injection R as <-. by apply string_compare_gt.
        -- destruct (map_emplace key value rest); [|done]. by injection R as <-.
Qed.

Section Nested.
Context (parse_value : string -> list ascii -> Parsed Value) (bound : nat).
Hypothesis parse_value_ok : forall path t, (length t < bound)%nat ->
  Parses (length t - 1) (fun v => well_formed v = true) (parse_value path t).

Lemma array_loop_Parses fuel path : forall index values t,
  (length t < fuel)%nat -> (length t < bound)%nat ->
  forallb well_formed values = true ->
  Parses (length t) (fun v => well_formed v = true)
    (array_loop parse_value fuel path index values t).
Proof.
  induction fuel as [|fuel IH]; intros index values t Hfuel Hbound W; [lia|]. simpl.
  eapply Parses_bind; [by apply parse_value_ok|]. intros v rest Hrest Wv.
  pose proof (length_skip_space rest). destruct (skip_space rest) as [|c t'] eqn:S; auto with json.
  simpl in *. destruct (Ascii.eqb c "]").
  - apply Parses_parsed; [lia|]. simpl. rewrite forallb_app. simpl.
    rewrite Wv, andb_true_r. rewrite forallb_forall in W |- *. intros x Hx. apply W.
    by apply in_rev.
  - destruct (Ascii.eqb c ","); simpl; auto with json.
    pose proof (length_skip_space t'). eapply Parses_weaken; [apply IH; simpl; [lia|lia|] | lia | done].
    by rewrite Wv, W.
Qed.

Lemma object_loop_Parses fuel path : forall values t,
  (length t < fuel)%nat -> (length t < bound)%nat ->
  well_formed (Value_object values) = true ->
  Parses (length t) (fun v => well_formed v = true) (object_loop parse_value fuel path values t).
Proof.
  induction fuel as [|fuel IH]; intros values t Hfuel Hbound W; [lia|]. simpl object_loop.
  destruct (starts_with quote t) eqn:Q; simpl; auto with json. apply starts_with_length in Q.
  eapply Parses_bind; [apply parse_string_Parses|]. intros key rest Hrest Wkey.
  rewrite length_tail in Hrest. pose proof (length_skip_space rest).
  destruct (starts_with ":" (skip_space rest)) eqn:C; simpl; auto with json.
  pose proof (length_skip_space (tail (skip_space rest))) as L. rewrite length_tail in L.
  eapply Parses_bind; [apply parse_value_ok; lia|]. intros v rest' Hrest' Wv.
  destruct (map_emplace key v values) as [values'|] eqn:M; auto with json.
  assert (W' : well_formed (Value_object values') = true).
  { simpl in W |- *. apply andb_true_iff in W as [S F].
    rewrite (map_emplace_sorted _ _ _ _ M S). simpl.
    rewrite forallb_forall, <- List.Forall_forall in F |- *.
    eapply map_emplace_elem in M; [exact M | simpl; by rewrite Wkey, Wv | done]. }
  pose proof (length_skip_space rest').
  destruct (skip_space rest') as [|c t'] eqn:S; auto with json. simpl in *.
  destruct (Ascii.eqb c "}"); [apply Parses_parsed; [lia | done]|].
  destruct (Ascii.eqb c ","); simpl; auto with json.
  pose proof (length_skip_space t'). eapply Parses_weaken; [apply IH; [lia|lia|done] | lia | done].
Qed.
End Nested.

Lemma parse_literal_Parses literal v path t :
  (1 <= String.length literal)%nat -> well_formed v = true ->
  Parses (length t - 1) (fun v => well_formed v = true) (parse_literal literal v path t).
Proof.
  intros L W. unfold parse_literal. destruct (bool_decide _); auto with json.
  apply Parses_parsed; [rewrite length_drop; lia | done].
Qed.

Lemma parse_value_Parses fuel : forall path t,
  (length t < fuel)%nat ->
  Parses (length t - 1) (fun v => well_formed v = true) (parse_value fuel path t).
Proof.
  induction fuel as [|fuel IH]; intros path t Hfuel; [lia|]. simpl parse_value.
  destruct t as [|c t]; auto with json.
  repeat (destruct (Ascii.eqb c _); [apply parse_literal_Parses; [simpl; lia | done]|]).
  simpl in Hfuel. assert (E : (length (c :: t) - 1)%nat = length t) by (simpl; lia). rewrite E.
  pose proof (length_skip_space t).
  destruct (Ascii.eqb c quote).
  { eapply Parses_bind; [apply parse_string_Parses|]. intros s rest Hrest Ws.
    apply Parses_parsed; [lia | exact Ws]. }
  destruct (Ascii.eqb c "[").
  { unfold parse_array. destruct (starts_with "]" (skip_space t)).
    - apply Parses_parsed; [rewrite length_tail; lia | done].
    - eapply Parses_weaken; [eapply array_loop_Parses; [exact IH|lia|lia|done] | lia | done]. }
  destruct (Ascii.eqb c "{").
  { unfold parse_object. destruct (starts_with "}" (skip_space t)).
    - apply Parses_parsed; [rewrite length_tail; lia | done].
    - eapply Parses_weaken; [eapply object_loop_Parses; [exact IH|lia|lia|done] | lia | done]. }
  destruct (_ || _); auto with json. rewrite <- E. apply parse_number_Parses.
Qed.

(** ** The parser *)

Lemma parse_text_total t : exists r, parse_text t = Some r /\
  forall v, r = success v -> well_formed v = true.
Proof.
  unfold parse_text, parse_document. pose proof (length_skip_space t).
  pose proof (parse_value_Parses (S (length t)) "$" (skip_space t) ltac:(lia)) as H1.
  destruct (parse_value _ _ _) as [[[v rest]|errors]|]; simpl in H1.
  - destruct H1 as [_ W]. destruct (skip_space rest); eexists; (split; [done|]); naive_solver.
  - eexists. split; [done|]. naive_solver.
  - done.
Qed.

Lemma parsed_well_formed input v : parse input = success v -> well_formed v = true.
Proof.
  destruct (parse_text_total (text input)) as (r & E & W). unfold parse. rewrite E. apply W.
Qed.

(** C24. Parsing ends on every text with a value or with errors: the recursion of
    the parser is never cut off. *)
Theorem parse_total (input : string) :
  exists r, parse_text (text input) = Some r /\ parse input = r.
Proof.
  destruct (parse_text_total (text input)) as (r & E & _). exists r. split; [done|].
  unfold parse. by rewrite E.
Qed.


