(* ===== verification/JsonCanonical.v ===== *)
(** * Canonical documents

    Every document the parser accepts has a canonical text, and parsing the
    canonical text of a document whose numbers are integers returns the document
    with its numbers in canonical spelling. *)

From stdpp Require Import prelude list strings sorting.
From Stdlib Require Import ZArith Lia Ascii SpecFloat OrdersEx.
From S2P Require Import Prelude Validation Model Bytes Utf8 Json JsonParsing.

#[local] Open Scope Z_scope.

(** ** Documents with integers *)

Definition is_integer (n : Number) : bool :=
  match num_kind n with NumberKind_binary64 => false | _ => true end.

Fixpoint integers_only (v : Value) : bool :=
  match v with
  | Value_number n => is_integer n
  | Value_array l => forallb integers_only l
  | Value_object l => forallb (fun kv => integers_only (snd kv)) l
  | _ => true
  end.

(** The number a parser returns for the canonical text of an integer. *)
Definition canonical_number (z : Z) : Number :=
  if z <? 0 then mkNumber NumberKind_signed_integer (untext (to_chars_int z)) (Number_int64 z)
  else mkNumber NumberKind_unsigned_integer (untext (to_chars_int z)) (Number_uint64 z).

Fixpoint normalize (v : Value) : Value :=
  match v with
  | Value_number n => Value_number (canonical_number (number_integer n))
  | Value_array l => Value_array (List.map normalize l)
  | Value_object l => Value_object (List.map (fun kv => (fst kv, normalize (snd kv))) l)
  | _ => v
  end.

(** ** Decimal digits *)

Lemma char_code_digit d : 0 <= d < 10 -> char_code (digit_char d) = 48 + d.
Proof.
  intros H. unfold char_code, digit_char. rewrite N_ascii_embedding by lia. lia.
Qed.

Lemma digit_char_is_digit d : 0 <= d < 10 -> json_is_digit (digit_char d) = true.
Proof. intros H. unfold json_is_digit. rewrite char_code_digit by done. lia. Qed.

Lemma digits_go_value fuel : forall z acc,
  0 <= z < 2 ^ Z.of_nat (S fuel) ->
  decimal_value (digits_go (S fuel) z acc) =
  fold_left (fun acc c => acc * 10 + (char_code c - 48)) acc z.
Proof.
  induction fuel as [|fuel IH]; intros z acc H; cbn [digits_go].
  - change (2 ^ Z.of_nat 1) with 2 in H. destruct (Z.ltb_spec z 10); [|lia].
    unfold decimal_value. simpl. rewrite Z.mod_small, char_code_digit by lia. f_equal. lia.
  - pose proof (Z.mod_pos_bound z 10 ltac:(lia)). destruct (Z.ltb_spec z 10).
    + unfold decimal_value. simpl. rewrite Z.mod_small, char_code_digit by lia. f_equal. lia.
    + change (decimal_value (digits_go (S fuel) (z / 10) (digit_char (z mod 10) :: acc)) = 
        fold_left (fun acc c => acc * 10 + (char_code c - 48)) acc z).
      rewrite IH.
      * simpl. rewrite char_code_digit by done. f_equal.
        pose proof (Z.div_mod z 10 ltac:(lia)). lia.
      * replace (Z.of_nat (S (S fuel))) with (Z.of_nat (S fuel) + 1) in H by lia.
        rewrite Z.pow_add_r in H by lia. split; [apply Z.div_pos; lia|].
        apply Z.div_lt_upper_bound; lia.
Qed.

Lemma decimal_digits_fuel z : 0 <= z -> 0 <= z < 2 ^ Z.of_nat (S (Z.to_nat (Z.log2 z))).
Proof.
  intros H. destruct (Z.eq_dec z 0) as [->|]; [done|].
  pose proof (Z.log2_spec z ltac:(lia)). pose proof (Z.log2_nonneg z).
  rewrite Nat2Z.inj_succ, Z2Nat.id by done. lia.
Qed.

Lemma decimal_value_digits z : 0 <= z -> decimal_value (decimal_digits z) = z.
Proof. intros H. unfold decimal_digits. rewrite digits_go_value; [done | by apply decimal_digits_fuel]. Qed.

Lemma digits_go_digits fuel : forall z acc, 0 <= z ->
  Forall (fun c => json_is_digit c = true) acc ->
  Forall (fun c => json_is_digit c = true) (digits_go fuel z acc).
Proof.
  induction fuel as [|fuel IH]; intros z acc Hz F; simpl; [done|].
  assert (F' : Forall (fun c => json_is_digit c = true) (digit_char (z mod 10) :: acc)).
  { constructor; [|done]. apply digit_char_is_digit. by apply Z.mod_pos_bound. }
  destruct (z <? 10); [done|]. apply IH; [|done]. apply Z.div_pos; lia.
Qed.

Lemma digits_go_head fuel : forall z acc, 0 < z < 2 ^ Z.of_nat (S fuel) ->
  exists d rest, digits_go (S fuel) z acc = digit_char d :: rest /\ 1 <= d <= 9.
Proof.
  induction fuel as [|fuel IH]; intros z acc H; cbn [digits_go].
  - change (2 ^ Z.of_nat 1) with 2 in H. destruct (Z.ltb_spec z 10); [|lia].
    eexists _, _. split; [done|]. rewrite Z.mod_small; lia.
  - destruct (Z.ltb_spec z 10).
    { eexists _, _. split; [done|]. rewrite Z.mod_small; lia. }
    apply IH. replace (Z.of_nat (S (S fuel))) with (Z.of_nat (S fuel) + 1) in H by lia.
    rewrite Z.pow_add_r in H by lia. split.
    + apply Z.lt_le_trans with 1; [lia|]. apply Z.div_le_lower_bound; lia.
    + apply Z.div_lt_upper_bound; lia.
Qed.

Lemma decimal_digits_head z : 0 < z ->
  exists d rest, decimal_digits z = digit_char d :: rest /\ 1 <= d <= 9.
Proof. intros H. apply digits_go_head. pose proof (decimal_digits_fuel z). lia. Qed.

Lemma decimal_digits_all z : 0 <= z ->
  Forall (fun c => json_is_digit c = true) (decimal_digits z).
Proof. intros H. by apply digits_go_digits. Qed.

(** ** Numbers read back *)

(** What may follow a number in a document. *)
Definition number_end (rest : list ascii) : bool :=
  match rest with
  | [] => true
  | c :: _ =>
      negb (json_is_digit c || Ascii.eqb c "." || Ascii.eqb c "e" || Ascii.eqb c "E")
  end.

Lemma span_digits_app digits rest :
  Forall (fun c => json_is_digit c = true) digits -> starts_with_digit rest = false ->
  span_digits (digits ++ rest) = (digits, rest).
Proof.
  intros F S. induction F as [|c l D F IH]; simpl.
  - destruct rest as [|c rest]; simpl in *; [done|]. by rewrite S.
  - by rewrite D, IH.
Qed.

Lemma number_end_digit rest : number_end rest = true -> starts_with_digit rest = false.
Proof. destruct rest as [|c rest]; simpl; [done|]. by destruct (json_is_digit c). Qed.

Lemma integer_part_digits path z rest :
  0 <= z -> number_end rest = true ->
  integer_part path (decimal_digits z ++ rest) = parsed (decimal_digits z) rest.
Proof.
  intros Hz E. apply number_end_digit in E. unfold integer_part.
  destruct (Z.eq_dec z 0) as [->|]; [simpl; by rewrite E|].
  pose proof (span_digits_app _ rest (decimal_digits_all z Hz) E) as S.
  destruct (decimal_digits_head z ltac:(lia)) as (d & t & D & Hd). rewrite D in S |- *.
  cbn [app] in S |- *. rewrite digit_char_is_digit, S by lia.
  destruct (Ascii.eqb_spec (digit_char d) "0") as [Q|]; [|done].
  apply (f_equal char_code) in Q. rewrite char_code_digit in Q by lia.
  change (char_code "0") with 48 in Q. lia.
Qed.

Lemma no_fraction path rest : number_end rest = true -> fraction_part path rest = parsed [] rest.
Proof.
  unfold fraction_part. destruct rest as [|c rest]; [done|]. simpl.
  destruct (Ascii.eqb c "."); [|done]. by rewrite !orb_true_r.
Qed.

Lemma no_exponent path rest : number_end rest = true -> exponent_part path rest = parsed [] rest.
Proof.
  unfold exponent_part. destruct rest as [|c rest]; [done|]. simpl.
  destruct (Ascii.eqb c "e" || Ascii.eqb c "E") eqn:E; [|done].
  intros H. apply negb_true_iff in H. rewrite <- orb_assoc, E, orb_true_r in H. discriminate.
Qed.

Lemma starts_with_minus_digits z rest :
  0 <= z -> starts_with "-" (decimal_digits z ++ rest) = false /\ decimal_digits z <> [].
Proof.
  intros Hz. destruct (Z.eq_dec z 0) as [->|]; [done|].
  destruct (decimal_digits_head z ltac:(lia)) as (d & t & -> & Hd). split; [|done].
  cbn [app starts_with]. destruct (Ascii.eqb_spec "-" (digit_char d)) as [Q|]; [|done].
  apply (f_equal char_code) in Q. rewrite char_code_digit in Q by lia.
  change (char_code "-") with 45 in Q. lia.
Qed.

Lemma from_chars_to_chars z : from_chars_int (to_chars_int z) = z.
Proof.
  unfold to_chars_int. destruct (Z.ltb_spec z 0); simpl.
  - rewrite decimal_value_digits; lia.
  - destruct (starts_with_minus_digits z [] ltac:(lia)) as [M N]. rewrite app_nil_r in M.
    unfold from_chars_int. pose proof (decimal_value_digits z ltac:(lia)) as V.
    destruct (decimal_digits z) as [|c t]; [done|].
    destruct (Ascii.eqb_spec c "-") as [->|]; [done | exact V].
Qed.

Lemma parse_number_to_chars path z rest :
  i64_min <= z <= u64_max -> number_end rest = true ->
  parse_number path (to_chars_int z ++ rest) =
  parsed (Value_number (canonical_number z)) rest.
Proof.
  intros Hz E. unfold parse_number.
  set (m := Z.abs z). set (sign := if z <? 0 then ["-"%char] else []).
  assert (T : to_chars_int z = sign ++ decimal_digits m).
  { unfold to_chars_int, sign, m. destruct (Z.ltb_spec z 0); simpl; f_equal; f_equal; lia. }
  assert (Hm : 0 <= m) by lia. destruct (starts_with_minus_digits m rest Hm) as [M N].
  assert (SA : (if starts_with "-" (to_chars_int z ++ rest)
      then (["-"%char], tail (to_chars_int z ++ rest)) else ([], to_chars_int z ++ rest)) =
      (sign, decimal_digits m ++ rest)).
  { rewrite T. unfold sign. destruct (z <? 0); simpl; [done|]. by rewrite M. }
  rewrite SA. rewrite bool_decide_eq_false_2 by (intros H; apply app_eq_nil in H; naive_solver).
  rewrite integer_part_digits by done. simpl. rewrite no_fraction by done. simpl.
  rewrite no_exponent by done. simpl. rewrite app_nil_r, <- T.
  unfold convert_number. rewrite from_chars_to_chars. unfold canonical_number.
  assert (SW : starts_with "-" (to_chars_int z) = (z <? 0)).
  { rewrite T. unfold sign. destruct (z <? 0); [done|]. simpl.
    destruct (starts_with_minus_digits m [] Hm) as [M' _]. by rewrite app_nil_r in M'. }
  simpl. rewrite SW. destruct (Z.ltb_spec z 0).
  - replace (_ && _) with true; [done|]. symmetry. int_lia.
  - replace (_ <=? _) with true; [done|]. symmetry. int_lia.
Qed.

(** ** Strings read back *)

(** The escape of one byte, wherever it stands. *)
Definition escape_byte (c : ascii) : list ascii := if is_plain c then [c] else escape_char c.

Lemma escape_loop_skip n : forall t, escape_loop n t = take n t ++ escape_loop 0 (drop n t).
Proof.
  induction n as [|n IH]; intros t; [done|]. destruct t as [|c t]; [done|].
  cbn [escape_loop take drop app]. by rewrite IH.
Qed.

Lemma continuation_plain c : Z.land (char_code c) 192 = 128 -> is_plain c = true.
Proof. destruct c as [[] [] [] [] [] [] [] []]; vm_compute; congruence. Qed.

Lemma utf8_continue_plain t : forall code_point r,
  utf8_continue code_point (char_code <$> t) = Some r -> Forall (fun c => is_plain c = true) t.
Proof.
  induction t as [|c t IH]; intros code_point r; [constructor|].
  cbn [fmap list_fmap utf8_continue].
  destruct (Z.eqb_spec (Z.land (char_code c) 192) 128) as [E|]; [|done]. intros H.
  constructor; [by apply continuation_plain | eapply IH; exact H].
Qed.

Lemma utf8_lead_sequence c code_point sequence :
  utf8_lead (char_code c) = Some (code_point, sequence) ->
  if char_code c <? 128 then sequence = 1%nat
  else is_plain c = true /\ sequence = sequence_length c /\ (1 <= sequence)%nat.
Proof.
  destruct c as [[] [] [] [] [] [] [] []]; vm_compute; intros E; try discriminate E;
    injection E as <- <-; repeat split; auto with arith.
Qed.

Lemma escape_plain t :
  Forall (fun c => is_plain c = true) t -> t ≫= escape_byte = t.
Proof.
  induction 1 as [|c t P _ IH]; [done|]. rewrite bind_cons, IH. unfold escape_byte.
  by rewrite P.
Qed.

Lemma escape_loop_bytewise fuel : forall t code_points,
  decode_utf8_from fuel (char_code <$> t) = success code_points ->
  escape_loop 0 t = t ≫= escape_byte.
Proof.
  induction fuel as [|fuel IH]; intros t code_points; [by destruct t|].
  destruct t as [|c t]; [done|]. cbn [fmap list_fmap decode_utf8_from].
  destruct (utf8_lead (char_code c)) as [[code_point sequence]|] eqn:L; [|done].
  destruct (_ <? _)%nat; [done|].
  rewrite <- fmap_take, <- fmap_drop.
  destruct (utf8_continue code_point _) as [u|] eqn:U; [|done].
  destruct (negb _); [done|]. destruct (decode_utf8_from fuel _) as [rest|] eqn:D; [|done].
  intros _. apply IH in D. apply utf8_continue_plain in U. apply utf8_lead_sequence in L.
  cbn [escape_loop]. rewrite bind_cons. unfold escape_byte at 1. destruct (Z.ltb_spec (char_code c) 128).
  - subst sequence. rewrite drop_0 in D. destruct (is_plain c); simpl; by rewrite D.
  - destruct L as (P & -> & L). rewrite P. cbn [app]. f_equal. rewrite escape_loop_skip, D.
    rewrite <- (take_drop (sequence_length c - 1) t) at 3. rewrite bind_app.
    f_equal. symmetry. by apply escape_plain.
Qed.

Lemma string_loop_byte fuel path output c rest :
  string_loop (S fuel) path output (escape_byte c ++ rest) = string_loop fuel path (c :: output) rest.
Proof. destruct c as [[] [] [] [] [] [] [] []]; reflexivity. Qed.

Lemma string_loop_escaped path : forall t fuel output rest,
  (length t < fuel)%nat -> has_value (decode_utf8 (untext (rev output ++ t))) = true ->
  string_loop fuel path output ((t ≫= escape_byte) ++ quote :: rest) =
  parsed (untext (rev output ++ t)) rest.
Proof.
  induction t as [|c t IH]; intros fuel output rest Hfuel V.
  - destruct fuel; [simpl in *; lia|]. rewrite app_nil_r in V |- *. simpl.
    by destruct (decode_utf8 _).
  - destruct fuel; [simpl in *; lia|].
    rewrite bind_cons, <- app_assoc, string_loop_byte, IH; simpl in *.
    + by rewrite <- app_assoc.
    + lia.
    + by rewrite <- app_assoc.
Qed.

Lemma escape_length t : (length t <= length (t ≫= escape_byte))%nat.
Proof.
  induction t as [|c t IH]; [done|]. rewrite bind_cons, length_app. simpl.
  assert (1 <= length (escape_byte c))%nat by (destruct c as [[] [] [] [] [] [] [] []]; vm_compute; lia).
  lia.
Qed.

Lemma append_string_success s :
  has_value (decode_utf8 s) = true ->
  append_string s = success (quote :: (text s ≫= escape_byte) ++ [quote]).
Proof.
  unfold append_string. destruct (decode_utf8 s) eqn:D; [|done]. intros _.
  unfold decode_utf8, string_bytes in D. apply escape_loop_bytewise in D. unfold text. by rewrite D.
Qed.

Lemma untext_text s : untext (text s) = s.
Proof. apply String.string_of_list_ascii_of_string. Qed.

Lemma text_untext t : text (untext t) = t.
Proof. apply String.list_ascii_of_string_of_list_ascii. Qed.

Lemma parse_string_escaped path s rest :
  has_value (decode_utf8 s) = true ->
  parse_string path ((text s ≫= escape_byte) ++ quote :: rest) = parsed s rest.
Proof.
  intros V. unfold parse_string. rewrite string_loop_escaped; simpl.
  - by rewrite untext_text.
  - rewrite length_app. pose proof (escape_length (text s)). simpl. lia.
  - by rewrite untext_text.
Qed.

(** ** Members in the order of their keys *)

Definition key_lt {V : Type} (a b : string * V) : Prop := str_ltb (fst a) (fst b) = true.

Lemma string_compare_OT a : forall b, String.compare a b = String_as_OT.compare a b.
Proof.
  induction a as [|x a IH]; intros [|y b]; [done..|]. simpl.
  change (Ascii.compare x y) with (Ascii_as_OT.compare x y). by rewrite IH.
Qed.

Lemma str_ltb_lt a b : str_ltb a b = true <-> String_as_OT.lt a b.
Proof.
  unfold str_ltb, String_as_OT.lt. rewrite string_compare_OT.
  destruct (String_as_OT.compare a b); split; congruence.
Qed.

#[export] Instance key_lt_trans {V : Type} : Transitive (@key_lt V).
Proof. intros a b c. unfold key_lt. rewrite !str_ltb_lt. apply transitivity. Qed.

#[export] Instance key_lt_irrefl {V : Type} : Irreflexive (@key_lt V).
Proof. intros a H. apply str_ltb_lt in H. by apply (irreflexivity String_as_OT.lt (fst a)). Qed.

#[export] Instance key_lt_antisymm {V : Type} : AntiSymm (=) (@key_lt V).
Proof. intros a b H1 H2. destruct (irreflexivity key_lt a). by trans b. Qed.

Lemma keys_sorted_StronglySorted {V} (l : list (string * V)) :
  keys_sorted l = true -> StronglySorted key_lt l.
Proof.
  intros S. apply Sorted_StronglySorted; [apply _|].
  induction l as [|[k v] l IH]; [constructor|]. simpl in S. apply andb_true_iff in S as [S1 S2].
  constructor; [by apply IH|]. destruct l as [|[k' v'] l]; by constructor.
Qed.

Lemma StronglySorted_NoDup_keys {V} (l : list (string * V)) :
  StronglySorted key_lt l -> NoDup (fst <$> l).
Proof.
  induction 1 as [|[k v] l S IH F]; [constructor|]. simpl. constructor; [|done].
  rewrite list_elem_of_fmap. intros ([k' v'] & E & Hin). rewrite Forall_forall in F.
  apply F in Hin. simpl in E. subst k'. by apply (irreflexivity key_lt (k, v)).
Qed.

Fixpoint emplace_all {V : Type} (members acc : list (string * V)) : option (list (string * V)) :=
  match members with
  | [] => Some acc
  | (k, v) :: rest =>
      match map_emplace k v acc with
      | Some acc => emplace_all rest acc
      | None => None
      end
  end.

Lemma map_emplace_fresh {V} key (v : V) acc :
  key ∉ (fst <$> acc) -> exists acc', map_emplace key v acc = Some acc' /\ acc' ≡ₚ (key, v) :: acc.
Proof.
  induction acc as [|[k w] acc IH]; simpl; intros N; [by eexists|].
  apply not_elem_of_cons in N as [Nk N].
  destruct (String.compare key k) eqn:C.
  - apply String.compare_eq_iff in C. done.
  - by eexists.
  - destruct (IH N) as (acc' & -> & P). simpl. eexists. split; [done|]. rewrite P. constructor.
Qed.

Lemma emplace_all_fresh {V} (members : list (string * V)) : forall acc,
  NoDup (fst <$> members ++ acc) -> keys_sorted acc = true ->
  exists acc', emplace_all members acc = Some acc' /\ acc' ≡ₚ members ++ acc /\
    keys_sorted acc' = true.
Proof.
  induction members as [|[k v] members IH]; intros acc N S; [by eexists|].
  destruct (map_emplace_fresh k v acc) as (acc1 & E & P).
  { cbn in N. apply NoDup_cons in N as [Nk _]. rewrite fmap_app in Nk. set_solver. }
  assert (P1 : members ++ acc1 ≡ₚ ((k, v) :: members) ++ acc).
  { rewrite P. symmetry. apply Permutation_middle. }
  simpl. rewrite E. destruct (IH acc1) as (acc' & -> & P' & S').
  - by rewrite P1.
  - by eapply map_emplace_sorted.
  - eexists. split; [done|]. split; [|done]. by rewrite P', P1.
Qed.

(** Members inserted in any order end up in the order of the keys. *)
Lemma emplace_all_sorted {V} (members sorted : list (string * V)) :
  keys_sorted sorted = true -> members ≡ₚ sorted -> emplace_all members [] = Some sorted.
Proof.
  intros S P. pose proof (keys_sorted_StronglySorted _ S) as SS.
  destruct (emplace_all_fresh members []) as (acc & -> & P' & S').
  - rewrite app_nil_r, P. by apply StronglySorted_NoDup_keys.
  - done.
  - f_equal. apply (StronglySorted_unique key_lt); [by apply keys_sorted_StronglySorted | done |].
    by rewrite P', app_nil_r.
Qed.

Lemma keys_sorted_map {V W} (f : V -> W) (l : list (string * V)) :
  keys_sorted (List.map (fun kv => (fst kv, f (snd kv))) l) = keys_sorted l.
Proof.
  induction l as [|[k v] l IH]; [done|]. simpl. rewrite IH. by destruct l as [|[k' v'] l].
Qed.

(** ** Documents read back *)

(** A text that starts a value, not a space or the end of an array. *)
Definition starts_value (t : list ascii) : Prop :=
  match t with c :: _ => is_space c = false /\ c <> "]"%char | [] => False end.

Lemma skip_space_id c t : is_space c = false -> skip_space (c :: t) = c :: t.
Proof. simpl. by intros ->. Qed.

Lemma skip_space_starts t rest : starts_value t -> skip_space (t ++ rest) = t ++ rest.
Proof. destruct t as [|c t]; [done|]. intros [S _]. by apply skip_space_id. Qed.

(** The canonical text of a value, which reads back as its normal form. *)
Definition reads (v : Value) : Prop :=
  exists t, append_canonical v = success t /\ starts_value t /\
    forall fuel path rest, (length t < fuel)%nat -> number_end rest = true ->
      parse_value fuel path (t ++ rest) = parsed (normalize v) rest.

Lemma to_chars_int_head z : exists c t, to_chars_int z = c :: t /\
  (c = "-"%char \/ json_is_digit c = true).
Proof.
  unfold to_chars_int. destruct (Z.ltb_spec z 0).
  - eexists _, _. split; [done|]. by left.
  - destruct (starts_with_minus_digits z [] ltac:(lia)) as [_ N].
    pose proof (decimal_digits_all z ltac:(lia)) as D.
    destruct (decimal_digits z) as [|c t]; [done|]. apply Forall_cons in D as [D _]. eauto.
Qed.

Lemma parse_value_number fuel path c t :
  c = "-"%char \/ json_is_digit c = true ->
  parse_value (S fuel) path (c :: t) = parse_number path (c :: t).
Proof.
  intros [->|D]; [reflexivity|].
  destruct c as [[] [] [] [] [] [] [] []]; vm_compute in D; try discriminate D; reflexivity.
Qed.

Lemma number_starts c t : c = "-"%char \/ json_is_digit c = true -> starts_value (c :: t).
Proof.
  intros [->|D]; [by split|].
  destruct c as [[] [] [] [] [] [] [] []]; vm_compute in D; try discriminate D; by split.
Qed.

Lemma number_reads n :
  number_well_formed n = true -> is_integer n = true -> reads (Value_number n).
Proof.
  intros W I. set (z := number_integer n).
  assert (A : append_canonical (Value_number n) = success (to_chars_int z) /\
              i64_min <= z <= u64_max).
  { unfold z, number_integer, number_well_formed, is_integer in *. simpl. unfold append_number, number_integer.
    destruct (num_kind n), (num_value n); try discriminate; split; try done; split_hyps; int_lia. }
  destruct A as [A Z]. exists (to_chars_int z). split; [done|].
  destruct (to_chars_int_head z) as (c & t & E & H). split.
  - rewrite E. by apply number_starts.
  - intros [|fuel] path rest F R; [lia|]. pose proof (parse_number_to_chars path z rest Z R) as P.
    rewrite E in P |- *. cbn [app] in P |- *. rewrite parse_value_number by done. exact P.
Qed.

Lemma string_reads s : has_value (decode_utf8 s) = true -> reads (Value_string s).
Proof.
  intros V. exists (quote :: (text s ≫= escape_byte) ++ [quote]).
  split; [by apply append_string_success|]. split; [by split|].
  intros [|fuel] path rest F R; [simpl in F; lia|].
  cbn [app]. rewrite <- app_assoc. cbn [app].
  change (parse_value (S fuel) path (quote :: ((text s ≫= escape_byte) ++ quote :: rest)))
    with (pbind (parse_string path ((text s ≫= escape_byte) ++ quote :: rest))
            (fun s rest => parsed (Value_string s) rest)).
  by rewrite parse_string_escaped.
Qed.

Lemma append_elements_false x l t :
  append_elements true (x :: l) = success t ->
  append_elements false (x :: l) = success (","%char :: t).
Proof.
  simpl. destruct x as [u|]; [|done]. destruct (append_elements false l); [|done].
  by intros [= <-].
Qed.

Lemma array_loop_reads l : forall v, reads v -> Forall reads l ->
  exists t, append_elements true (List.map append_canonical (v :: l)) = success t /\
    starts_value t /\
    forall fuel n path index values rest, (length t <= fuel)%nat -> (length t <= n)%nat ->
      array_loop (parse_value fuel) n path index values (t ++ rest) =
      parsed (Value_array (rev values ++ List.map normalize (v :: l))) rest.
Proof.
  induction l as [|w l IH]; intros v (t & A & S & R) F.
  - exists (t ++ ["]"%char]). split; [simpl; by rewrite A|].
    split; [by destruct t|]. intros fuel [|n] path index values rest Hfuel Hn;
      rewrite length_app in *; simpl in Hfuel, Hn; [lia|].
    rewrite <- app_assoc. cbn [array_loop app]. rewrite R by (done || lia). cbn [pbind parsed].
    rewrite skip_space_id by done. simpl. done.
  - apply Forall_cons in F as [Fw F]. destruct (IH w Fw F) as (u & U & Su & Ru).
    exists (t ++ ","%char :: u). split; [|split; [by destruct t|]].
    + cbn [List.map] in U |- *. apply append_elements_false in U.
      cbn [append_elements] in U |- *. rewrite A, U. done.
    + intros fuel [|n] path index values rest Hfuel Hn;
        rewrite length_app in *; simpl in Hfuel, Hn; [lia|].
      rewrite <- app_assoc. cbn [array_loop app]. rewrite R by (done || lia).
      cbn [pbind parsed]. rewrite skip_space_id by done.
      change (Ascii.eqb "," "]") with false. change (Ascii.eqb "," ",") with true. cbn [negb].
      rewrite skip_space_starts, Ru by (done || lia).
      cbn [rev List.map]. by rewrite <- app_assoc.
Qed.

Lemma array_reads l : Forall reads l -> reads (Value_array l).
Proof.
  destruct l as [|v l]; intros F.
  - exists ["["%char; "]"%char]. split; [done|]. split; [by split|].
    by intros [|fuel] path rest Hfuel R; [simpl in Hfuel; lia|].
  - apply Forall_cons in F as [Fv F]. destruct (array_loop_reads l v Fv F) as (t & A & S & R).
    exists ("["%char :: t). split; [cbn [append_canonical]; by rewrite A|]. split; [by split|].
    intros [|fuel] path rest Hfuel Hrest; simpl in Hfuel; [lia|].
    change (parse_value (Datatypes.S fuel) path (("["%char :: t) ++ rest))
      with (parse_array (parse_value fuel) fuel path (t ++ rest)).
    unfold parse_array. rewrite skip_space_starts by done.
    destruct t as [|c t]; [done|]. destruct S as [_ Hc]. cbn [app starts_with].
    destruct (Ascii.eqb_spec "]" c) as [<-|]; [done|].
    change (c :: t ++ rest) with ((c :: t) ++ rest). rewrite R; [done|simpl in *; lia..].
Qed.

Lemma append_members_false x l t :
  append_members true (x :: l) = success t ->
  append_members false (x :: l) = success (","%char :: t).
Proof.
  destruct x as [k x]. simpl. destruct (append_string k); [|done]. destruct x; [|done].
  destruct (append_members false l); [|done]. by intros [= <-].
Qed.

(** A member that reads back. *)
Definition member_reads (kv : string * Value) : Prop :=
  has_value (decode_utf8 (fst kv)) = true /\ reads (snd kv).

Definition canonical_member (kv : string * Value) : string * Result (list ascii) :=
  (fst kv, append_canonical (snd kv)).

Definition normal_member (kv : string * Value) : string * Value := (fst kv, normalize (snd kv)).

Definition escaped (s : string) : list ascii := quote :: (text s ≫= escape_byte) ++ [quote].

(** One step of the loop over the members: the key, the colon and the value. *)
Lemma object_loop_member fuel n path values key v t rest :
  member_reads (key, v) -> append_canonical v = success t -> (length t < fuel)%nat ->
  number_end rest = true ->
  object_loop (parse_value fuel) (S n) path values (escaped key ++ ":"%char :: t ++ rest) =
  match map_emplace key (normalize v) values with
  | None =>
      parse_fail ErrorCategory_duplicate_value (path +:+ "/" +:+ key) "JSON-DUPLICATE-KEY"
        "duplicate object member"
  | Some values =>
      match skip_space rest with
      | [] => parser_fail path "unterminated object"
      | c :: rest =>
          if Ascii.eqb c "}" then parsed (Value_object values) rest
          else if negb (Ascii.eqb c ",") then parser_fail path "expected comma in object"
          else object_loop (parse_value fuel) n path values (skip_space rest)
      end
  end.
Proof.
  intros [V (t' & A & S & R)] A' Hfuel Hrest. simpl in A, V, R. rewrite A in A'. injection A' as ->.
  cbn [object_loop]. unfold escaped. cbn [app starts_with tail]. rewrite Ascii.eqb_refl. cbn [negb].
  rewrite <- app_assoc. cbn [app]. rewrite parse_string_escaped by done. cbn [pbind parsed].
  rewrite skip_space_id by done. cbn [starts_with]. rewrite Ascii.eqb_refl. cbn [negb tail].
  rewrite skip_space_starts by done. by rewrite R.
Qed.

Lemma object_loop_reads l : forall kv, member_reads kv -> Forall member_reads l ->
  exists t, append_members true (List.map canonical_member (kv :: l)) = success t /\
    starts_with quote t = true /\
    forall fuel n path values result rest, (length t <= fuel)%nat -> (length t <= n)%nat ->
      emplace_all (List.map normal_member (kv :: l)) values = Some result ->
      object_loop (parse_value fuel) n path values (t ++ rest) = parsed (Value_object result) rest.
Proof.
  induction l as [|kw l IH]; intros [key v] M F; pose proof M as [V (t & A & _)]; simpl in V, A.
  - exists (escaped key ++ ":"%char :: t ++ ["}"%char]). split; [|split; [done|]].
    { simpl. by rewrite append_string_success, A. }
    intros fuel [|n] path values result rest Hfuel Hn E; [simpl in Hn; lia|].
    unfold escaped in Hfuel. repeat (rewrite length_app in Hfuel; simpl in Hfuel).
    rewrite <- app_assoc. cbn [app]. rewrite <- app_assoc.
    rewrite (object_loop_member _ _ _ _ key v t) by (done || lia). simpl in E.
    destruct (map_emplace key (normalize v) values); [|done]. injection E as ->. done.
  - apply Forall_cons in F as [Fw F]. destruct (IH kw Fw F) as (u & U & Su & Ru).
    exists (escaped key ++ ":"%char :: t ++ ","%char :: u). split; [|split; [done|]].
    { cbn [List.map] in U |- *. apply append_members_false in U.
      cbn [append_members canonical_member fst snd] in U |- *.
      by rewrite (append_string_success key V), A, U. }
    intros fuel [|n] path values result rest Hfuel Hn E; [simpl in Hn; lia|].
    unfold escaped in Hfuel, Hn.
    repeat (rewrite length_app in Hfuel; simpl in Hfuel). repeat (rewrite length_app in Hn; simpl in Hn).
    rewrite <- app_assoc. cbn [app]. rewrite <- app_assoc.
    rewrite (object_loop_member _ _ _ _ key v t) by (done || lia). cbn [List.map emplace_all normal_member fst snd] in E.
    destruct (map_emplace key (normalize v) values) as [values'|]; [|done]. cbn [app].
    rewrite skip_space_id by done. change (Ascii.eqb "," "}") with false.
    change (Ascii.eqb "," ",") with true. cbn [negb].
    destruct u as [|c u]; [done|]. cbn [starts_with] in Su. apply Ascii.eqb_eq in Su as <-.
    cbn [app]. rewrite skip_space_id by done. apply (Ru fuel n); [lia..|done].
Qed.

(** ** Objects in the order of UTF-16 *)

Definition valid_key {V : Type} (kv : string * V) : Prop := has_value (decode_utf8 (fst kv)) = true.

(** The units of a valid key. *)
Definition key_units (key : string) : list Z :=
  match utf16_key key with success units => units | failure _ => [] end.

Lemma ordered_members_success {V} (l : list (string * V)) :
  Forall valid_key l -> ordered_members l = success ((fun kv => (key_units (fst kv), kv)) <$> l).
Proof.
  induction 1 as [|[k v] l H _ IH]; [done|]. simpl. unfold valid_key, utf16_key in H.
  unfold key_units, utf16_key. simpl in *. destruct (decode_utf8 k); [|done]. by rewrite IH.
Qed.

#[export] Instance member_le_total {A : Type} : Total (@member_le A).
Proof.
  intros [a x] [b y]. unfold member_le. simpl.
  revert b. induction a as [|p a IH]; intros [|q b]; simpl; [by left..|by right|].
  destruct (Z.ltb_spec p q); [by left|]. destruct (Z.ltb_spec q p); [by right|]. apply IH.
Qed.

(** Two keys in the order of their UTF-16 units. *)
Definition utf16_le {V : Type} (a b : string * V) : Prop :=
  utf16_leb (key_units (fst a)) (key_units (fst b)) = true.

Lemma Sorted_snd {V} (l : list (OrderedMember V)) :
  Forall (fun m => fst m = key_units (fst (snd m))) l -> Sorted member_le l ->
  Sorted utf16_le (snd <$> l).
Proof.
  intros F S. induction S as [|m l S IH H]; [constructor|].
  apply Forall_cons in F as [Fm F]. simpl. constructor; [by apply IH|].
  destruct H as [|m' l H]; constructor. apply Forall_cons in F as [Fm' _].
  unfold utf16_le. rewrite <- Fm, <- Fm'. by apply Is_true_eq_true.
Qed.

(** The members the second loop visits: a permutation in the order of UTF-16. *)
Lemma sorted_members {V W} (f : V -> W) (l : list (string * V)) :
  Forall valid_key l ->
  exists l' members, l' ≡ₚ l /\ Sorted utf16_le l' /\
    ordered_members (List.map (fun kv => (fst kv, f (snd kv))) l) = success members /\
    snd <$> merge_sort member_le members = List.map (fun kv => (fst kv, f (snd kv))) l'.
Proof.
  intros F. set (g := fun kv : string * V => (fst kv, f (snd kv))).
  assert (Fg : Forall valid_key (List.map g l)).
  { apply List.Forall_map. by eapply Forall_impl; [exact F|]. }
  rewrite (ordered_members_success _ Fg).
  set (members := _ <$> List.map g l).
  assert (P : merge_sort member_le members ≡ₚ members) by apply merge_sort_Permutation.
  assert (Ps : snd <$> merge_sort member_le members ≡ₚ List.map g l).
  { rewrite P. unfold members. rewrite <- list_fmap_compose. by rewrite list_fmap_id. }
  destruct (Permutation_map_inv g _ Ps) as (l' & E & Pl).
  exists l', members. split; [by symmetry|]. split; [|by split].
  assert (S : Sorted utf16_le (snd <$> merge_sort member_le members)).
  { apply Sorted_snd; [|apply Sorted_merge_sort, _]. rewrite P. unfold members.
    apply Forall_fmap, Forall_true. done. }
  rewrite E in S. clear E Pl. induction l' as [|a l' IH]; [constructor|].
  simpl in S. apply Sorted_inv in S as [S H]. constructor; [by apply IH|].
  destruct l' as [|b l']; constructor. by inversion H.
Qed.

Lemma object_reads l :
  keys_sorted l = true -> Forall member_reads l -> reads (Value_object l).
Proof.
  intros K F. assert (Fk : Forall valid_key l) by (eapply Forall_impl; [exact F|]; by intros kv []).
  destruct (sorted_members append_canonical l Fk) as (l' & members & P & _ & O & S).
  assert (A : append_canonical (Value_object l) =
    match append_members true (List.map canonical_member l') with
    | failure errors => failure errors
    | success t => success ("{"%char :: t)
    end) by (cbn [append_canonical]; by rewrite O, S).
  rewrite <- P in F. destruct l' as [|kv l'].
  - apply Permutation_nil in P as ->. exists ["{"%char; "}"%char].
    split; [by rewrite A|]. split; [by split|].
    by intros [|fuel] path rest Hfuel R; [simpl in Hfuel; lia|].
  - apply Forall_cons in F as [Fkv F]. destruct (object_loop_reads l' kv Fkv F) as (t & T & Q & R).
    exists ("{"%char :: t). split; [by rewrite A, T|]. split; [by split|].
    intros [|fuel] path rest Hfuel Hrest; simpl in Hfuel; [lia|].
    change (parse_value (Datatypes.S fuel) path (("{"%char :: t) ++ rest))
      with (parse_object (parse_value fuel) fuel path (t ++ rest)).
    destruct t as [|c t]; [done|]. cbn [starts_with] in Q. apply Ascii.eqb_eq in Q as <-.
    unfold parse_object. cbn [app]. rewrite skip_space_id by done.
    change (starts_with "}" (quote :: t ++ rest)) with false. cbv iota.
    change (quote :: t ++ rest) with ((quote :: t) ++ rest).
    rewrite (R fuel fuel path [] (List.map normal_member l) rest); [done| simpl in *; lia..|].
    apply emplace_all_sorted; [unfold normal_member; by rewrite keys_sorted_map|].
    by apply Permutation_map.
Qed.

Lemma well_formed_reads v : well_formed v = true -> integers_only v = true -> reads v.
Proof.
  induction v as [|b|n|s|l IH|l IH] using Value_nested_ind; cbn [well_formed integers_only]; intros W I.
  - exists (text "null"). split; [done|]. split; [by split|].
    by intros [|fuel] path rest H R; [simpl in H; lia|].
  - exists (text (if b then "true" else "false")). split; [done|]. split; [by destruct b|].
    by intros [|fuel] path rest H R; [simpl in H; lia|]; destruct b.
  - by apply number_reads.
  - by apply string_reads.
  - apply array_reads. rewrite forallb_forall, <- List.Forall_forall in W, I.
    rewrite Forall_forall in *. eauto.
  - apply andb_true_iff in W as [K W]. apply object_reads; [done|].
    rewrite forallb_forall, <- List.Forall_forall in W, I. rewrite Forall_forall in *.
    intros kv Hkv. specialize (W kv Hkv). apply andb_true_iff in W as [V W]. split; auto.
Qed.

(** ** Every accepted document has a canonical text *)

Lemma canonical_binary64_success x : is_finite x = true -> exists t, canonical_binary64 x = success t.
Proof. intros F. unfold canonical_binary64. rewrite F. cbn [negb]. destruct (sf_same _ _); eauto. Qed.

Lemma append_elements_success first l :
  Forall (fun r => has_value r = true) l -> has_value (append_elements first l) = true.
Proof.
  intros F. revert first. induction F as [|r l H F IH]; intros first; [done|]. simpl.
  destruct r; [|done]. specialize (IH false). by destruct (append_elements false l).
Qed.

Lemma append_members_success first l :
  Forall (fun m => valid_key m /\ has_value (snd m) = true) l ->
  has_value (append_members first l) = true.
Proof.
  intros F. revert first. induction F as [|[k r] l [V H] F IH]; intros first; [done|]. simpl.
  rewrite append_string_success by exact V. simpl in H. destruct r; [|done].
  specialize (IH false). by destruct (append_members false l).
Qed.

Lemma append_canonical_success v :
  well_formed v = true -> has_value (append_canonical v) = true.
Proof.
  induction v as [|b|n|s|l IH|l IH] using Value_nested_ind; intros W; try done.
  - cbn in W |- *. unfold append_number, number_well_formed, number_double in *.
    destruct (num_kind n), (num_value n); try done.
    by destruct (canonical_binary64_success _ W) as [t ->].
  - cbn in W |- *. by rewrite append_string_success.
  - cbn [well_formed append_canonical] in W |- *.
    assert (H : has_value (append_elements true (List.map append_canonical l)) = true).
    { apply append_elements_success, List.Forall_map.
      rewrite forallb_forall, <- List.Forall_forall in W. rewrite Forall_forall in *. eauto. }
    by destruct (append_elements _ _).
  - cbn [well_formed append_canonical] in W |- *. apply andb_true_iff in W as [K W].
    rewrite forallb_forall, <- List.Forall_forall in W.
    assert (Fk : Forall valid_key l).
    { eapply Forall_impl; [exact W|]. intros kv H. by apply andb_true_iff in H as [H _]. }
    destruct (sorted_members append_canonical l Fk) as (l' & members & P & _ & -> & ->).
    assert (H : has_value (append_members true (List.map canonical_member l')) = true).
    { apply append_members_success, List.Forall_map. rewrite P. rewrite Forall_forall in *.
      intros kv Hkv. specialize (W kv Hkv). apply andb_true_iff in W as [V W]. split; [done|].
      by apply IH. }
    unfold canonical_member in H. by destruct (append_members _ _).
Qed.

Lemma append_canonical_normalize v :
  integers_only v = true -> append_canonical (normalize v) = append_canonical v.
Proof.
  induction v as [|b|n|s|l IH|l IH] using Value_nested_ind; intros I; try done.
  - cbn in I |- *. unfold append_number, is_integer, canonical_number in *.
    destruct (number_integer n <? 0); simpl; by destruct (num_kind n).
  - cbn [normalize append_canonical integers_only] in *. rewrite List.map_map.
    rewrite forallb_forall, <- List.Forall_forall in I.
    assert (E : List.map (fun x => append_canonical (normalize x)) l = List.map append_canonical l).
    { apply map_ext_Forall. rewrite Forall_forall in *. eauto. }
    by rewrite E.
  - cbn [normalize append_canonical integers_only] in *. rewrite List.map_map.
    rewrite forallb_forall, <- List.Forall_forall in I. cbn [fst snd].
    assert (E : List.map (fun x => (fst x, append_canonical (normalize (snd x)))) l =
                List.map (fun x => (fst x, append_canonical (snd x))) l).
    { apply map_ext_Forall. rewrite Forall_forall in *. intros kv Hkv. f_equal. eauto. }
    by rewrite E.
Qed.

Lemma canonical_reads v t :
  well_formed v = true -> integers_only v = true -> canonicalize v = success t ->
  parse t = success (normalize v).
Proof.
  intros W I C. destruct (well_formed_reads v W I) as (u & A & S & R).
  unfold canonicalize in C. rewrite A in C. injection C as <-.
  unfold parse, parse_text, parse_document. rewrite text_untext.
  pose proof (skip_space_starts u [] S) as E. rewrite app_nil_r in E. rewrite E.
  specialize (R (Datatypes.S (length u)) "$" [] ltac:(lia) eq_refl). rewrite app_nil_r in R.
  by rewrite R.
Qed.

(** Every document the parser accepts has a canonical text: printing it
    does not fail. *)
Theorem accepted_documents_print (input : string) (v : Value) :
  parse input = success v -> exists t, canonicalize v = success t.
Proof.
  intros P. apply parsed_well_formed, append_canonical_success in P. unfold canonicalize.
  destruct (append_canonical v); [by eexists | done].
Qed.

Lemma accepted_documents_print_witness :
  exists t, canonicalize (Value_array [Value_null; Value_string "a"]) = success t.
Proof.
  apply (accepted_documents_print
           (untext (text "[null, " ++ [quote; "a"%char; quote] ++ text " ]"))).
  vm_compute. reflexivity.
Defined.

(** C23. Round trip of canonical texts: parsing the canonical text of a
    well-formed document with integer numbers returns the document with its
    numbers in canonical spelling: same members and elements, same strings and
    the same integers. *)
Theorem canonical_round_trip (v : Value) (t : string) :
  well_formed v = true -> integers_only v = true -> canonicalize v = success t ->
  parse t = success (normalize v).
Proof. apply canonical_reads. Qed.

(** A document with an escape, a two-byte character and members that UTF-16 and
    bytes order alike. *)
Definition sample_document : Value :=
  Value_object
    [("a", Value_array [Value_number (mkNumber NumberKind_signed_integer "-0" (Number_int64 0));
                        Value_number (mkNumber NumberKind_signed_integer "-7" (Number_int64 (-7)))]);
     ("b", Value_string (untext [quote; Ascii.ascii_of_N 10; Ascii.ascii_of_N 195; Ascii.ascii_of_N 169]));
     ("c", Value_null)].

Definition sample_text : string :=
  match canonicalize sample_document with success t => t | failure _ => EmptyString end.

Lemma canonical_round_trip_witness : parse sample_text = success (normalize sample_document).
Proof. apply canonical_round_trip; vm_compute; reflexivity. Defined.

(** Canonical texts are fixed: a canonical text parses, and the canonical
    text of what it parses to is the text itself. *)
Theorem canonical_fixed_point (v : Value) (t : string) :
  well_formed v = true -> integers_only v = true -> canonicalize v = success t ->
  exists w, parse t = success w /\ canonicalize w = success t.
Proof.
  intros W I C. exists (normalize v). split; [by apply canonical_reads|].
  unfold canonicalize in C |- *. by rewrite append_canonical_normalize.
Qed.

Lemma canonical_fixed_point_witness :
  exists w, parse sample_text = success w /\ canonicalize w = success sample_text.
Proof. apply (canonical_fixed_point sample_document); vm_compute; reflexivity. Defined.

(** The members of an object are printed in the order of the UTF-16 units of
    their keys, each exactly once. *)
Theorem canonical_member_order (l : list (string * Value)) :
  well_formed (Value_object l) = true ->
  exists l' t, l' ≡ₚ l /\ Sorted utf16_le l' /\
    append_members true (List.map canonical_member l') = success t /\
    append_canonical (Value_object l) = success ("{"%char :: t).
Proof.
  intros W. pose proof (append_canonical_success _ W) as A. cbn [well_formed] in W.
  apply andb_true_iff in W as [_ W]. rewrite forallb_forall, <- List.Forall_forall in W.
  assert (Fk : Forall valid_key l).
  { eapply Forall_impl; [exact W|]. intros kv H. by apply andb_true_iff in H as [H _]. }
  destruct (sorted_members append_canonical l Fk) as (l' & members & P & S & O & E).
  cbn [append_canonical] in A |- *. rewrite O, E in A |- *. unfold canonical_member.
  destruct (append_members true _) as [t|] eqn:Q; [|done]. exists l', t. by repeat split.
Qed.

(** [U+10000] sorts before [U+FF5E] in UTF-16 and after it in bytes. *)
Definition sample_members : list (string * Value) :=
  [(untext [Ascii.ascii_of_N 239; Ascii.ascii_of_N 189; Ascii.ascii_of_N 158], Value_null);
   (untext [Ascii.ascii_of_N 240; Ascii.ascii_of_N 144; Ascii.ascii_of_N 128; Ascii.ascii_of_N 128],
    Value_null)].

Lemma canonical_member_order_witness : exists l' t,
  l' ≡ₚ sample_members /\ Sorted utf16_le l' /\
  append_members true (List.map canonical_member l') = success t /\
  append_canonical (Value_object sample_members) = success ("{"%char :: t).
Proof. apply canonical_member_order. vm_compute. reflexivity. Defined.

(** ** Numbers of RFC 8785 *)

Example canonical_numbers :
  match parse "[333333333.33333329, 1E30, 4.50, 2e-3, 0.000000000000000000000000001, 1e-7, 1e21]" with
  | success v => canonicalize v
  | failure errors => failure errors
  end = success "[333333333.3333333,1e+30,4.5,0.002,1e-27,1e-7,1e+21]".
Proof. vm_compute. reflexivity. Qed.
