(* ===== verification/Documents.v ===== *)
(** * Protocol documents

    The structs of [include/cpu_prefetch/protocol/model.hpp] that documents are
    loaded into, with their fields in the order of the source. A [std::map] of
    H3 contexts is the list of its entries in the order of the keys. *)

From stdpp Require Import prelude list strings.
From Stdlib Require Import ZArith.
From S2P Require Import Prelude Validation Model Json.

Record ArtifactReference : Set := mkArtifactReference {
  ar_artifact_id : Identifier;
  ar_sha256 : Sha256
}.

Record TypedArtifactReference : Set := mkTypedArtifactReference {
  ta_artifact : ArtifactReference;
  ta_relationship : ArtifactRelationship
}.

Record ExactRate : Set := mkExactRate {
  er_numerator_events : Z;
  er_denominator_ticks : Z
}.

Record RequestedAndVerifiedHardwareState : Set := mkRequestedAndVerifiedHardwareState {
  rv_requested : RequestedHardwareState;
  rv_verified : VerifiedHardwareState;
  rv_readback_artifact_id : Identifier;
  rv_behavioral_probe_artifact_id : Identifier;
  rv_privileged_authority_id : Identifier
}.

Record RngMetadata : Set := mkRngMetadata {
  rg_algorithm : string;
  rg_version : string;
  rg_seed_id : Identifier;
  rg_derivation_record_id : Identifier;
  rg_parent_namespace_id : Identifier
}.

Inductive DeadlineStorage : Set :=
| InlineDeadlineStorage (deadline_ticks : list Z)
| ExternalScheduleStorage (artifact_id : Identifier) (artifact_uri : string)
    (row_count byte_count : Z) (artifact_sha256 : Sha256).

Record ScheduleRecord : Set := mkScheduleRecord {
  sr_schema_version : ProtocolVersion;
  sr_protocol_version : ProtocolVersion;
  sr_schedule_id : Identifier;
  sr_schedule_kind : ScheduleKind;
  sr_arrival_family : ArrivalFamily;
  sr_namespace_id : Identifier;
  sr_rng : RngMetadata;
  sr_time_unit : string;
  sr_deadline_encoding : DeadlineEncoding;
  sr_origin_ticks : Z;
  sr_horizon_ticks : Z;
  sr_offered_count : Z;
  sr_nominal_offered_rate : ExactRate;
  sr_overflow_rule_record_id : Identifier;
  sr_deadline_storage : DeadlineStorage;
  sr_decoded_deadlines_sha256 : Sha256;
  sr_schedule_sha256 : Sha256;
  sr_source_document : Value
}.

Inductive InlineObservationRows : Set :=
| Rows_producer (rows : list ProducerRecord)
| Rows_consumer (rows : list ConsumerRecord)
| Rows_joined (rows : list JoinedRecord).

Inductive ObservationStorage : Set :=
| ExternalStorage (artifact_uri : string)
| InlineStorage (rows : InlineObservationRows).

Record RawObservationEnvelope : Set := mkRawObservationEnvelope {
  ro_schema_version : ProtocolVersion;
  ro_protocol_version : ProtocolVersion;
  ro_artifact_id : Identifier;
  ro_run_id : Identifier;
  ro_stream_kind : StreamKind;
  ro_logical_row_schema_version : ProtocolVersion;
  ro_physical_format_record_id : Identifier;
  ro_encoding : string;
  ro_time_unit : string;
  ro_endianness : Endianness;
  ro_compression : string;
  ro_row_count : Z;
  ro_byte_count : Z;
  ro_storage : ObservationStorage;
  ro_source_artifacts : list ArtifactReference;
  ro_integrity_artifact_ref : ArtifactReference;
  ro_artifact_sha256 : Sha256;
  ro_source_document : Value
}.

Record ChecksumEvidence : Set := mkChecksumEvidence {
  ce_algorithm_record_id : Identifier;
  ce_algorithm_version : string;
  ce_value_hex : string
}.

Record PhaseIntegrityRecord : Set := mkPhaseIntegrityRecord {
  pi_report_artifact : ArtifactReference;
  pi_final_consumer_rolling_checksum : ChecksumEvidence;
  pi_event_records_pre_checksum : ChecksumEvidence;
  pi_event_records_post_checksum : ChecksumEvidence;
  pi_ordered_index_checksum : ChecksumEvidence;
  pi_address_delta_checksum : ChecksumEvidence
}.

Record RunCounts : Set := mkRunCounts {
  rc_offered : option Z;
  rc_attempted : option Z;
  rc_accepted : option Z;
  rc_full : option Z;
  rc_consumed : option Z;
  rc_final_occupancy : option Z;
  rc_raw_sample_count : option Z;
  rc_n_eff_p999 : option Number
}.

Record RunProvenance : Set := mkRunProvenance {
  rp_paper_repository_revision : string;
  rp_implementation_repository_revision : string;
  rp_build_artifact_sha256 : Sha256;
  rp_compiler_identity : string;
  rp_compiler_flags : list string;
  rp_standard_library : string;
  rp_dependency_record_id : Identifier
}.

Record RunScheduleReferences : Set := mkRunScheduleReferences {
  rsr_measurement : ArtifactReference;
  rsr_warmup : ArtifactReference
}.

Record RunSeedReferences : Set := mkRunSeedReferences {
  rse_arrival : Identifier;
  rse_node_order : option Identifier;
  rse_event_order : Identifier;
  rse_warmup : Identifier;
  rse_derivation_record_id : Identifier
}.

Record RunManifest : Set := mkRunManifest {
  rm_schema_version : ProtocolVersion;
  rm_protocol_version : ProtocolVersion;
  rm_run_id : Identifier;
  rm_platform_id : Identifier;
  rm_build_id : Identifier;
  rm_within_cell_ordinal : Z;
  rm_queue_provenance_id : Identifier;
  rm_provenance : RunProvenance;
  rm_stage : Stage;
  rm_run_mode : RunMode;
  rm_lifecycle_state : LifecycleState;
  rm_block_id : Identifier;
  rm_block_role : BlockRole;
  rm_package : QueuePackage;
  rm_requested_hardware_state : RequestedHardwareState;
  rm_verified_hardware_state : VerifiedHardwareState;
  rm_placement : Placement;
  rm_working_set_class : WorkingSetClass;
  rm_load_level : LoadLevel;
  rm_capacity_events : Z;
  rm_time_unit : string;
  rm_schedule_refs : RunScheduleReferences;
  rm_seed_refs : RunSeedReferences;
  rm_validity : RunValidity;
  rm_count_reconciliation : GateStatus;
  rm_zero_loss_status : GateStatus;
  rm_effective_tail_status : GateStatus;
  rm_confirmatory_estimability : ConfirmatoryEstimability;
  rm_confirmatory_blockers : list ConfirmatoryBlocker;
  rm_block_completeness : BlockCompleteness;
  rm_join_status : JoinStatus;
  rm_counts : option RunCounts;
  rm_integrity_evidence : option PhaseIntegrityRecord;
  rm_failure_record_ids : list Identifier;
  rm_artifact_refs : list TypedArtifactReference;
  rm_manifest_sha256 : Sha256;
  rm_source_document : Value
}.

Record StageACell : Set := mkStageACell {
  sc_cell_ordinal : Z;
  sc_package : QueuePackage;
  sc_requested_hardware_state : RequestedHardwareState;
  sc_placement : Placement;
  sc_working_set_class : WorkingSetClass;
  sc_load_level : LoadLevel;
  sc_arrival_seed_ref : Identifier;
  sc_node_seed_ref : option Identifier;
  sc_event_seed_ref : Identifier
}.

Record ReplacementLineage : Set := mkReplacementLineage {
  rl_replaced_block_ordinal : Z;
  rl_replaced_block_role : BlockRole;
  rl_replaced_seed_subspace_id : Identifier
}.

Record BlockPlan : Set := mkBlockPlan {
  bp_schema_version : ProtocolVersion;
  bp_protocol_version : ProtocolVersion;
  bp_block_id : Identifier;
  bp_platform_id : Identifier;
  bp_build_id : Identifier;
  bp_stage : Stage;
  bp_block_role : BlockRole;
  bp_block_ordinal : Z;
  bp_seed_subspace_id : Identifier;
  bp_replaces_block_id : option Identifier;
  bp_replacement_authorization_id : option Identifier;
  bp_replacement_lineage : option ReplacementLineage;
  bp_whole_plot_order : RequestedHardwareState * RequestedHardwareState;
  bp_cells : list StageACell;
  bp_access_state : AccessState;
  bp_plan_sha256 : Sha256;
  bp_source_document : Value
}.

Record FailureRecord : Set := mkFailureRecord {
  fl_schema_version : ProtocolVersion;
  fl_protocol_version : ProtocolVersion;
  fl_failure_record_id : Identifier;
  fl_platform_id : Identifier;
  fl_stage : Stage;
  fl_scope : FailureScope;
  fl_run_id : option Identifier;
  fl_block_id : option Identifier;
  fl_build_id : option Identifier;
  fl_category : FailureCategory;
  fl_detected_phase : DetectedPhase;
  fl_observed_at_utc : string;
  fl_description : string;
  fl_invalidates_run : bool;
  fl_block_consequence : BlockConsequence;
  fl_resolution_status : ResolutionStatus;
  fl_replacement_authorization_id : option Identifier;
  fl_replacement_block_id : option Identifier;
  fl_supersedes_id : option Identifier;
  fl_evidence_refs : list ArtifactReference;
  fl_record_sha256 : Sha256;
  fl_source_document : Value
}.

Record H3Candidate : Set := mkH3Candidate {
  h3_package : QueuePackage;
  h3_requested_hardware_state : RequestedHardwareState
}.

Record Authority : Set := mkAuthority {
  au_authority_id : Identifier;
  au_role : AuthorityRole;
  au_attestation : string;
  au_signature_artifact_id : option Identifier
}.

Record AccessInputArtifact : Set := mkAccessInputArtifact {
  ai_artifact : ArtifactReference;
  ai_access_class : AccessClass
}.

Record ReplacementAuthorization : Set := mkReplacementAuthorization {
  ra_original_block_id : Identifier;
  ra_replacement_block_id : Identifier;
  ra_replacement_block_ordinal : Z;
  ra_block_role : BlockRole;
  ra_replacement_seed_subspace_id : Identifier;
  ra_failure_record_id : Identifier;
  ra_replacement_budget_record_id : Identifier
}.

Record FreezeRecord : Set := mkFreezeRecord {
  fz_schema_version : ProtocolVersion;
  fz_protocol_version : ProtocolVersion;
  fz_record_id : Identifier;
  fz_record_kind : RecordKind;
  fz_decision_id : string;
  fz_readiness_boundary : ReadinessBoundary;
  fz_status : FreezeStatus;
  fz_authorization_status : AuthorizationStatus;
  fz_created_at_utc : string;
  fz_authority : Authority;
  fz_decision_value : option Value;
  fz_rationale : option string;
  fz_access_state_before : AccessState;
  fz_access_state_after : AccessState;
  fz_outcome_access_prohibited : bool;
  fz_affected_block_ids : list Identifier;
  fz_h3_selections : list (H3Context * H3Candidate);
  fz_training_input_artifacts : list ArtifactReference;
  fz_selection_rule_version : option string;
  fz_selection_record_checksum_sha256 : option Sha256;
  fz_selection_record_ref : option ArtifactReference;
  fz_validation_namespace_id : option Identifier;
  fz_validation_artifact_ref : option ArtifactReference;
  fz_validation_unseal_record_ref : option ArtifactReference;
  fz_h3_evaluation_artifact_ref : option ArtifactReference;
  fz_h3_access_record_ref : option ArtifactReference;
  fz_replacement : option ReplacementAuthorization;
  fz_supersedes_id : option Identifier;
  fz_prior_protocol_version : option string;
  fz_new_protocol_version : option string;
  fz_affected_documents : list string;
  fz_affected_schema_ids : list string;
  fz_affected_estimands : list string;
  fz_affected_contrast_ids : list string;
  fz_pilot_record_disposition : option string;
  fz_prior_authoritative_hashes : list ArtifactReference;
  fz_input_artifacts : list AccessInputArtifact;
  fz_record_sha256 : Sha256;
  fz_source_document : Value
}.

Record AmendmentRecord : Set := mkAmendmentRecord {
  am_record_id : Identifier;
  am_supersedes_id : Identifier;
  am_prior_protocol_version : string;
  am_new_protocol_version : string;
  am_affected_documents : list string;
  am_affected_schema_ids : list string;
  am_affected_estimands : list string;
  am_affected_contrast_ids : list string;
  am_prior_authoritative_hashes : list ArtifactReference;
  am_record_sha256 : Sha256
}.

Record PlatformCpu : Set := mkPlatformCpu {
  cpu_vendor : string;
  cpu_model : string;
  cpu_stepping : string;
  cpu_microcode : string;
  cpu_cache_line_bytes : Z;
  cpu_atomic_width_bits : Z;
  cpu_atomic_alignment_bytes : Z
}.

Record PlatformTopology : Set := mkPlatformTopology {
  top_sockets : Z;
  top_numa_nodes : Z;
  top_physical_cores : Z;
  top_smt_enabled : bool;
  top_cache_domains : list string;
  top_near_core_pair : Z * Z;
  top_far_core_pair : Z * Z
}.

Record PlatformMemory : Set := mkPlatformMemory {
  mem_population : string;
  mem_base_page_bytes : Z;
  mem_residency_verification_method : string
}.

Record PlatformSoftware : Set := mkPlatformSoftware {
  sw_operating_system : string;
  sw_kernel : string;
  sw_compiler : string;
  sw_standard_library : string;
  sw_language_standard : string;
  sw_flags : list string;
  sw_link_mode : string
}.

Record PlatformClock : Set := mkPlatformClock {
  clk_source : string;
  clk_time_unit : string;
  clk_conversion_record_id : Identifier;
  clk_serialization_record_id : Identifier;
  clk_acceptance_record_id : Identifier
}.

Record PlatformRecord : Set := mkPlatformRecord {
  pl_schema_version : ProtocolVersion;
  pl_protocol_version : ProtocolVersion;
  pl_platform_id : Identifier;
  pl_cpu : PlatformCpu;
  pl_topology : PlatformTopology;
  pl_memory : PlatformMemory;
  pl_software : PlatformSoftware;
  pl_clock : PlatformClock;
  pl_hardware_prefetch_states : list RequestedAndVerifiedHardwareState;
  pl_record_sha256 : Sha256;
  pl_source_document : Value
}.

Inductive ProtocolRecord : Set :=
| Record_platform (record : PlatformRecord)
| Record_schedule (record : ScheduleRecord)
| Record_raw (record : RawObservationEnvelope)
| Record_manifest (record : RunManifest)
| Record_block (record : BlockPlan)
| Record_failure (record : FailureRecord)
| Record_freeze (record : FreezeRecord).

#[export] Instance ArtifactReference_eq_dec : EqDecision ArtifactReference.
Proof. solve_decision. Defined.

#[export] Instance H3Candidate_eq_dec : EqDecision H3Candidate.
Proof. solve_decision. Defined.
