(* ===== verification/QueueCommon.v ===== *)
(** * Queue set-up helpers and result types

    Models [include/cpu_prefetch/queue/common.hpp] and
    [src/queue/common.cpp]: the operation results of both queue families, the
    non-null event pointer, and the checked size arithmetic of the queue
    constructors. A pointer is its address; [nullptr] is address 0. *)

From stdpp Require Import prelude list strings.
From Stdlib Require Import ZArith Lia.
From S2P Require Import Prelude.

#[local] Open Scope Z_scope.
#[local] Open Scope checked_scope.

Definition nullptr : Z := 0.

(** [EventPointer::from]: only a non-null address becomes an event pointer. *)
Definition EventPointer_from (value : Z) : option Z :=
  if value =? nullptr then None else Some value.

Inductive EnqueueResult : Set :=
| EnqueueResult_accepted
| EnqueueResult_full.

Inductive DequeueStatus : Set :=
| DequeueStatus_item
| DequeueStatus_empty
| DequeueStatus_recycler_invariant_failure.

Record DequeueResult : Set := mkDequeueResult {
  dr_status : DequeueStatus;
  dr_event : Z
}.

Inductive BoundaryCaptureStatus : Set :=
| BoundaryCaptureStatus_complete
| BoundaryCaptureStatus_capture_failed.

Record BoundaryEnqueueResult : Set := mkBoundaryEnqueueResult {
  ber_status : BoundaryCaptureStatus;
  ber_result : EnqueueResult
}.

Record BoundaryDequeueResult : Set := mkBoundaryDequeueResult {
  bdr_status : BoundaryCaptureStatus;
  bdr_result : DequeueResult
}.

(** [alignof(std::max_align_t)] of the x86-64 ABI the program targets. *)
Definition alignof_max_align_t : Z := 16.

Definition is_power_of_two (value : Z) : bool :=
  negb (value =? 0) && (Z.land value (u64_sub value 1) =? 0).

Definition validate_cache_line_bytes (cache_line_bytes : Z) : Throws unit :=
  throw_if (negb (is_power_of_two cache_line_bytes) ||
            (cache_line_bytes <? alignof_max_align_t))
    "cache-line bytes must be a power of two and satisfy max alignment" ;;
  Returned tt.

Definition queue_checked_add (left right : Z) : Throws Z :=
  throw_if (right >? u64_sub u64_max left) "queue storage size overflows size_t" ;;
  Returned (u64_add left right).

Definition queue_checked_multiply (left right : Z) : Throws Z :=
  throw_if (negb (left =? 0) && (right >? u64_max / left))
    "queue storage size overflows size_t" ;;
  Returned (u64_mul left right).

Definition queue_round_up (value alignment : Z) : Throws Z :=
  let remainder := value mod alignment in
  if remainder =? 0 then Returned value
  else queue_checked_add value (u64_sub alignment remainder).

Definition is_aligned (pointer alignment : Z) : bool := pointer mod alignment =? 0.

#[export] Instance EnqueueResult_eq_dec : EqDecision EnqueueResult.
Proof. solve_decision. Defined.
#[export] Instance DequeueStatus_eq_dec : EqDecision DequeueStatus.
Proof. solve_decision. Defined.
#[export] Instance DequeueResult_eq_dec : EqDecision DequeueResult.
Proof. solve_decision. Defined.

(** ** Lemmas *)

Lemma land_pred_pow2 k : 0 <= k -> Z.land (2 ^ k) (2 ^ k - 1) = 0.
Proof.
  intros Hk. replace (2 ^ k - 1) with (Z.ones k) by (rewrite Z.ones_equiv; lia).
  rewrite Z.land_ones by done. apply Z_mod_same_full.
Qed.

(** The bit trick recognises exactly the powers of two. *)
Lemma land_pred_zero v : 0 < v -> Z.land v (v - 1) = 0 -> v = 2 ^ Z.log2 v.
Proof.
  intros Hv Hland. pose proof (Z.log2_spec v Hv) as [Hlo Hhi].
  destruct (Z.eq_dec v (2 ^ Z.log2 v)) as [|Hne]; [done|exfalso].
  assert (Hlog : Z.log2 (v - 1) = Z.log2 v).
  { apply Z.log2_unique; [apply Z.log2_nonneg | lia]. }
  assert (Hpos : 0 < v - 1).
  { pose proof (Z.pow_pos_nonneg 2 (Z.log2 v) ltac:(lia) (Z.log2_nonneg v)). lia. }
  assert (Hbit : Z.testbit (Z.land v (v - 1)) (Z.log2 v) = true).
  { rewrite Z.land_spec, Z.bit_log2 by done. rewrite <- Hlog at 1.
    rewrite Z.bit_log2; done. }
  rewrite Hland, Z.bits_0 in Hbit. done.
Qed.

Lemma is_power_of_two_spec v :
  is_u64 v -> is_power_of_two v = true <-> exists k, 0 <= k < 64 /\ v = 2 ^ k.
Proof.
  intros Hv. unfold is_power_of_two.
  destruct (Z.eqb_spec v 0) as [->|Hnz]; simpl.
  - split; [done|]. intros (k & Hk & E).
    pose proof (Z.pow_pos_nonneg 2 k). lia.
  - rewrite u64_sub_small by int_lia. rewrite Z.eqb_eq. split.
    + intros Hland. exists (Z.log2 v).
      assert (0 < v) by int_lia.
      split; [|by apply land_pred_zero].
      split; [apply Z.log2_nonneg|]. apply Z.log2_lt_pow2; [done|]. int_lia.
    + intros (k & Hk & ->). apply land_pred_pow2. lia.
Qed.

Lemma is_power_of_two_pos v : is_u64 v -> is_power_of_two v = true -> 0 < v.
Proof.
  intros Hv Hp. apply is_power_of_two_spec in Hp as (k & Hk & ->); [|done].
  apply Z.pow_pos_nonneg; lia.
Qed.

Lemma queue_checked_multiply_spec a b r :
  is_u64 a -> is_u64 b ->
  queue_checked_multiply a b = Returned r <-> r = a * b /\ a * b <= u64_max.
Proof.
  intros Ha Hb. unfold queue_checked_multiply.
  destruct (Z.eqb_spec a 0) as [->|Hnz]; simpl.
  - rewrite u64_mul_small by int_lia. split; [intros [= <-]; int_lia | intros [-> _]; f_equal].
  - destruct (Z.gtb_spec b (u64_max / a)) as [Hgt|Hle].
    + assert (u64_max < a * b).
      { pose proof (Z.mul_succ_div_gt u64_max a ltac:(int_lia)).
        assert (a * Z.succ (u64_max / a) <= a * b) by (apply Z.mul_le_mono_nonneg_l; int_lia).
        lia. }
      split; [done | lia].
    + assert (a * b <= u64_max).
      { pose proof (Z.mul_div_le u64_max a ltac:(int_lia)).
        assert (a * b <= a * (u64_max / a)) by (apply Z.mul_le_mono_nonneg_l; int_lia).
        lia. }
      assert (0 <= a * b) by (apply Z.mul_nonneg_nonneg; int_lia).
      rewrite u64_mul_small by lia.
      split; [intros [= <-]; done | intros [-> _]; f_equal; done].
Qed.

Lemma queue_checked_add_spec a b r :
  is_u64 a -> is_u64 b ->
  queue_checked_add a b = Returned r <-> r = a + b /\ a + b <= u64_max.
Proof.
  intros Ha Hb. unfold queue_checked_add. rewrite u64_sub_small by int_lia.
  destruct (Z.gtb_spec b (u64_max - a)).
  - split; [done | lia].
  - rewrite u64_add_small by int_lia.
    split; [intros [= <-]; split; lia | intros [-> _]; done].
Qed.

Lemma queue_checked_multiply_total a b :
  is_u64 a -> is_u64 b ->
  (exists r, queue_checked_multiply a b = Returned r) <-> a * b <= u64_max.
Proof.
  intros Ha Hb. split.
  - intros [r Hr]. by apply queue_checked_multiply_spec in Hr as [_ ?].
  - intros Hle. exists (a * b). by apply queue_checked_multiply_spec.
Qed.

(** A valid cache line is a power of two of at least 16 bytes. *)
Lemma validate_cache_line_bytes_spec line :
  is_u64 line ->
  validate_cache_line_bytes line = Returned tt <-> exists k, 4 <= k < 64 /\ line = 2 ^ k.
Proof.
  intros Hl. unfold validate_cache_line_bytes, alignof_max_align_t.
  pose proof (is_power_of_two_spec line Hl) as Hpow.
  destruct (is_power_of_two line); simpl.
  - destruct (proj1 Hpow eq_refl) as (k & Hk & ->).
    assert (16 <= 2 ^ k <-> 4 <= k) by (rewrite <- (Z.pow_le_mono_r_iff 2 4 k); lia).
    destruct (Z.ltb_spec (2 ^ k) 16).
    + split; [done|]. intros (j & Hj & E). apply Z.pow_inj_r in E; lia.
    + split; [|done]. intros _. exists k. lia.
  - split; [done|]. intros (k & Hk & E). enough (false = true) by done.
    apply Hpow. exists k. split; [lia|done].
Qed.

Lemma twice_cache_line_fits k : 0 <= k < 64 -> 2 * 2 ^ k <= u64_max <-> k < 63.
Proof.
  intros Hk. rewrite <- Z.pow_succ_r by lia. change u64_max with (2 ^ 64 - 1).
  destruct (Z.eq_dec k 63) as [->|]; [lia|].
  pose proof (Z.pow_le_mono_r 2 (Z.succ k) 63 ltac:(lia) ltac:(lia)). lia.
Qed.
