(* ===== verification/QueueSpec.v ===== *)
(** * What a package promises: a bounded first-in first-out queue

    [include/cpu_prefetch/queue/adapters.hpp] gives the ring and the linked
    queue the same two operations without a common base class; the classes
    here are that seam. [SpscQueue] is the interface (capacity, one enqueue
    attempt, one dequeue attempt), [SpscQueueLaws] its contract against the
    abstract FIFO of [fifo_enqueue]/[fifo_dequeue]. Clients are proved against
    the contract; [RingSpsc] and [LinkedSpsc] discharge it. *)

From stdpp Require Import prelude list.
From Stdlib Require Import ZArith Lia.
From S2P Require Import Prelude QueueCommon.

#[local] Open Scope Z_scope.

(** ** The abstract queue *)

Definition fifo_enqueue (capacity : Z) (e : Z) (l : list Z) : list Z * EnqueueResult :=
  if Z.of_nat (length l) <? capacity then (l ++ [e], EnqueueResult_accepted)
  else (l, EnqueueResult_full).

Definition fifo_dequeue (l : list Z) : list Z * DequeueResult :=
  match l with
  | [] => ([], mkDequeueResult DequeueStatus_empty nullptr)
  | e :: l => (l, mkDequeueResult DequeueStatus_item e)
  end.

(** ** The interface and its contract *)

Class SpscQueue (Q : Type) := {
  spsc_capacity : Q -> Z;
  spsc_try_enqueue : Z -> Q -> Q * EnqueueResult;
  spsc_try_dequeue : Q -> Q * DequeueResult
}.

Class SpscQueueLaws (Q : Type) `{!SpscQueue Q} := {
  spsc_repr : Q -> list Z -> Prop;
  spsc_repr_bound s l : spsc_repr s l -> Z.of_nat (length l) <= spsc_capacity s;
  spsc_enqueue_law s l e :
    spsc_repr s l -> e <> nullptr ->
    exists s', spsc_try_enqueue e s = (s', snd (fifo_enqueue (spsc_capacity s) e l)) /\
               spsc_repr s' (fst (fifo_enqueue (spsc_capacity s) e l)) /\
               spsc_capacity s' = spsc_capacity s;
  spsc_dequeue_law s l :
    spsc_repr s l ->
    exists s', spsc_try_dequeue s = (s', snd (fifo_dequeue l)) /\
               spsc_repr s' (fst (fifo_dequeue l)) /\
               spsc_capacity s' = spsc_capacity s
}.

(** ** Operation sequences *)

Inductive QueueOp : Set :=
| Op_enqueue (e : Z)
| Op_dequeue.

Inductive QueueResponse : Set :=
| Resp_enqueue (r : EnqueueResult)
| Resp_dequeue (r : DequeueResult).

Fixpoint run_queue {Q : Type} `{!SpscQueue Q} (ops : list QueueOp) (s : Q)
  : Q * list QueueResponse :=
  match ops with
  | [] => (s, [])
  | Op_enqueue e :: ops =>
      let '(s, r) := spsc_try_enqueue e s in
      let '(s, rs) := run_queue ops s in (s, Resp_enqueue r :: rs)
  | Op_dequeue :: ops =>
      let '(s, r) := spsc_try_dequeue s in
      let '(s, rs) := run_queue ops s in (s, Resp_dequeue r :: rs)
  end.

Fixpoint run_fifo (capacity : Z) (ops : list QueueOp) (l : list Z)
  : list Z * list QueueResponse :=
  match ops with
  | [] => (l, [])
  | Op_enqueue e :: ops =>
      let '(l, r) := fifo_enqueue capacity e l in
      let '(l, rs) := run_fifo capacity ops l in (l, Resp_enqueue r :: rs)
  | Op_dequeue :: ops =>
      let '(l, r) := fifo_dequeue l in
      let '(l, rs) := run_fifo capacity ops l in (l, Resp_dequeue r :: rs)
  end.

(** Every enqueue of the sequence passes an [EventPointer], which is non-null. *)
Definition ops_nonnull (ops : list QueueOp) : Prop :=
  Forall (fun op => match op with Op_enqueue e => e <> nullptr | Op_dequeue => True end) ops.

(** The events a sequence of operations accepted, in acceptance order. *)
Fixpoint accepted_events (ops : list QueueOp) (rs : list QueueResponse) : list Z :=
  match ops, rs with
  | Op_enqueue e :: ops, Resp_enqueue EnqueueResult_accepted :: rs =>
      e :: accepted_events ops rs
  | _ :: ops, _ :: rs => accepted_events ops rs
  | _, _ => []
  end.

(** The events delivered to the consumer, in delivery order. *)
Fixpoint delivered_events (rs : list QueueResponse) : list Z :=
  match rs with
  | [] => []
  | Resp_dequeue r :: rs =>
      match dr_status r with
      | DequeueStatus_item => dr_event r :: delivered_events rs
      | _ => delivered_events rs
      end
  | Resp_enqueue _ :: rs => delivered_events rs
  end.

(** ** Client theorems against the contract *)

Section Contract.

Context {Q : Type} `{!SpscQueue Q} `{!SpscQueueLaws Q}.

Lemma run_queue_refines ops (s : Q) l :
  spsc_repr s l -> ops_nonnull ops ->
  snd (run_queue ops s) = snd (run_fifo (spsc_capacity s) ops l) /\
  spsc_repr (fst (run_queue ops s)) (fst (run_fifo (spsc_capacity s) ops l)).
Proof.
  revert s l. induction ops as [|[e|] ops IH]; intros s l Hr Hops; simpl; [done|..].
  all: apply Forall_cons in Hops as [He Hops].
  - destruct (spsc_enqueue_law s l e Hr He) as (s' & -> & Hr' & Hc).
    destruct (fifo_enqueue _ e l) as [l' r]; simpl in *.
    destruct (IH s' l' Hr' Hops) as [E1 E2]. rewrite Hc in E1, E2.
    destruct (run_queue ops s'), (run_fifo _ ops l'); simpl in *. by subst.
  - destruct (spsc_dequeue_law s l Hr) as (s' & -> & Hr' & Hc).
    destruct (fifo_dequeue l) as [l' r]; simpl in *.
    destruct (IH s' l' Hr' Hops) as [E1 E2]. rewrite Hc in E1, E2.
    destruct (run_queue ops s'), (run_fifo _ ops l'); simpl in *. by subst.
Qed.

End Contract.

(** Nothing is lost, duplicated or reordered by the abstract queue. *)
Lemma run_fifo_conservation capacity ops l :
  let '(l', rs) := run_fifo capacity ops l in
  l ++ accepted_events ops rs = delivered_events rs ++ l'.
Proof.
  revert l. induction ops as [|[e|] ops IH]; intros l; simpl.
  - by rewrite app_nil_r.
  - unfold fifo_enqueue. destruct (_ <? _); simpl.
    + specialize (IH (l ++ [e])). destruct (run_fifo _ ops _) as [l' rs]. simpl.
      by rewrite <- IH, <- app_assoc.
    + specialize (IH l). by destruct (run_fifo _ ops l) as [l' rs].
  - destruct l as [|x l]; simpl.
    + specialize (IH []). by destruct (run_fifo _ ops []) as [l' rs].
    + specialize (IH l). destruct (run_fifo _ ops l) as [l' rs]. simpl. by rewrite IH.
Qed.

Lemma run_fifo_bound capacity ops l :
  Z.of_nat (length l) <= capacity ->
  Z.of_nat (length (fst (run_fifo capacity ops l))) <= capacity.
Proof.
  revert l. induction ops as [|[e|] ops IH]; intros l Hl; simpl; [done|..].
  - unfold fifo_enqueue. destruct (Z.ltb_spec (Z.of_nat (length l)) capacity).
    + specialize (IH (l ++ [e])). destruct (run_fifo _ ops _). simpl in *. apply IH.
      rewrite length_app. simpl. lia.
    + specialize (IH l Hl). by destruct (run_fifo _ ops _).
  - destruct l as [|x l]; simpl in *.
    + specialize (IH [] Hl). by destruct (run_fifo _ ops _).
    + specialize (IH l ltac:(lia)). by destruct (run_fifo _ ops _).
Qed.
