(* ===== verification/RingSpsc.v ===== *)
(** * The bounded ring queue

    Models [include/cpu_prefetch/queue/ring_spsc.hpp] and
    [src/queue/ring_spsc.cpp]: the slot array whose null entries are free, the
    two thread-private cursors, and the one-attempt operations with the
    observers the timing and calibration code passes in. The operations here
    are one call executed alone; [RingConcurrent] splits them into their
    atomic accesses. *)

From stdpp Require Import prelude list strings.
From Stdlib Require Import ZArith Lia.
From S2P Require Import Prelude QueueCommon QueueSpec.

#[local] Open Scope Z_scope.
#[local] Open Scope checked_scope.

(** [sizeof(Slot)], an atomic pointer. *)
Definition sizeof_Slot : Z := 8.

Record RingSpscQueue : Type := mkRing {
  ring_capacity : Z;
  ring_cache_line_bytes : Z;
  ring_slot_storage_bytes : Z;
  ring_cursor_storage_bytes : Z;
  slots : list Z;
  producer_position : Z;
  consumer_position : Z
}.

Record RingQuiescentAudit : Set := mkRingQuiescentAudit {
  occupied_slots : Z;
  audit_producer_position : Z;
  audit_consumer_position : Z;
  positions_in_range : bool
}.

Definition set_slot (i v : Z) (q : RingSpscQueue) : RingSpscQueue :=
  mkRing (ring_capacity q) (ring_cache_line_bytes q) (ring_slot_storage_bytes q)
    (ring_cursor_storage_bytes q) (<[Z.to_nat i := v]> (slots q))
    (producer_position q) (consumer_position q).

Definition set_producer_position (p : Z) (q : RingSpscQueue) : RingSpscQueue :=
  mkRing (ring_capacity q) (ring_cache_line_bytes q) (ring_slot_storage_bytes q)
    (ring_cursor_storage_bytes q) (slots q) p (consumer_position q).

Definition set_consumer_position (p : Z) (q : RingSpscQueue) : RingSpscQueue :=
  mkRing (ring_capacity q) (ring_cache_line_bytes q) (ring_slot_storage_bytes q)
    (ring_cursor_storage_bytes q) (slots q) (producer_position q) p.

(** [slots_[i].value.load()]; the invariant [ring_repr] keeps [i] in range. *)
Definition slot_load (i : Z) (q : RingSpscQueue) : Z :=
  default nullptr (slots q !! Z.to_nat i).

(** The constructor: every slot null, both cursors at position 0. *)
Definition RingSpscQueue_make (capacity cache_line_bytes : Z) : Throws RingSpscQueue :=
  let! _ := validate_cache_line_bytes cache_line_bytes in
  throw_if (capacity =? 0) "ring capacity must be nonzero" ;;
  let! slot_bytes := queue_checked_multiply capacity sizeof_Slot in
  let! cursor_bytes := queue_checked_multiply 2 cache_line_bytes in
  Returned (mkRing capacity cache_line_bytes slot_bytes cursor_bytes
              (replicate (Z.to_nat capacity) nullptr) 0 0).

Definition ring_next_position (capacity_ position : Z) : Z :=
  let next := u64_add position 1 in
  if next =? capacity_ then 0 else next.

Definition position_at_distance (q : RingSpscQueue) (position distance : Z) : Z :=
  let reduced := distance mod ring_capacity q in
  if reduced =? 0 then position
  else
    let until_wrap := u64_sub (ring_capacity q) position in
    if reduced <? until_wrap then u64_add position reduced
    else u64_sub reduced until_wrap.

(** The slot whose address the prefetch policies compute. *)
Definition producer_slot_target (q : RingSpscQueue) (distance_slots : Z) : Z :=
  position_at_distance q (producer_position q) distance_slots.

Definition consumer_slot_target (q : RingSpscQueue) (distance_slots : Z) : Z :=
  position_at_distance q (consumer_position q) distance_slots.

(** ** Operations with observers

    The template parameters of [try_enqueue_observed] and
    [try_dequeue_observed] are callbacks over the caller's state [O]. *)

Record EnqueueObserver (O : Type) : Type := mkEnqueueObserver {
  eo_before_slot_acquire : O -> O;
  eo_after_slot_acquire : O -> O;
  eo_before_slot_publication : O -> O;
  eo_before_enqueue_publication : O -> bool * O
}.
Arguments eo_before_slot_acquire {O} _ _.
Arguments eo_after_slot_acquire {O} _ _.
Arguments eo_before_slot_publication {O} _ _.
Arguments eo_before_enqueue_publication {O} _ _.

Record DequeueObserver (O : Type) : Type := mkDequeueObserver {
  do_before_slot_acquire : O -> O;
  do_after_slot_acquire : O -> O;
  do_after_dequeue_observation : O -> bool * O;
  do_before_slot_reuse_release : O -> O
}.
Arguments do_before_slot_acquire {O} _ _.
Arguments do_after_slot_acquire {O} _ _.
Arguments do_after_dequeue_observation {O} _ _.
Arguments do_before_slot_reuse_release {O} _ _.

Definition ring_try_enqueue_observed {O : Type} (obs : EnqueueObserver O) (event : Z)
    (q : RingSpscQueue) (o : O) : RingSpscQueue * O * BoundaryEnqueueResult :=
  let position := producer_position q in
  let o := eo_before_slot_acquire obs o in
  let observed := slot_load position q in
  let o := eo_after_slot_acquire obs o in
  if negb (observed =? nullptr) then
    (q, o, mkBoundaryEnqueueResult BoundaryCaptureStatus_complete EnqueueResult_full)
  else
    let o := eo_before_slot_publication obs o in
    let '(captured, o) := eo_before_enqueue_publication obs o in
    if negb captured then
      (q, o, mkBoundaryEnqueueResult BoundaryCaptureStatus_capture_failed EnqueueResult_full)
    else
      let q := set_slot position event q in
      let q := set_producer_position (ring_next_position (ring_capacity q) position) q in
      (q, o, mkBoundaryEnqueueResult BoundaryCaptureStatus_complete EnqueueResult_accepted).

Definition ring_try_dequeue_observed {O : Type} (obs : DequeueObserver O)
    (q : RingSpscQueue) (o : O) : RingSpscQueue * O * BoundaryDequeueResult :=
  let position := consumer_position q in
  let o := do_before_slot_acquire obs o in
  let event := slot_load position q in
  let o := do_after_slot_acquire obs o in
  if event =? nullptr then
    (q, o, mkBoundaryDequeueResult BoundaryCaptureStatus_complete
             (mkDequeueResult DequeueStatus_empty nullptr))
  else
    let '(captured, o) := do_after_dequeue_observation obs o in
    if negb captured then
      (q, o, mkBoundaryDequeueResult BoundaryCaptureStatus_capture_failed
               (mkDequeueResult DequeueStatus_empty nullptr))
    else
      let o := do_before_slot_reuse_release obs o in
      let q := set_slot position nullptr q in
      let q := set_consumer_position (ring_next_position (ring_capacity q) position) q in
      (q, o, mkBoundaryDequeueResult BoundaryCaptureStatus_complete
               (mkDequeueResult DequeueStatus_item event)).

(** The no-op observers of the plain entry points. *)
Definition ring_noop_enqueue : EnqueueObserver unit :=
  mkEnqueueObserver unit id id id (fun o => (true, o)).

Definition ring_noop_dequeue : DequeueObserver unit :=
  mkDequeueObserver unit id id (fun o => (true, o)) id.

Definition ring_try_enqueue (event : Z) (q : RingSpscQueue) : RingSpscQueue * EnqueueResult :=
  let '(q, _, r) := ring_try_enqueue_observed ring_noop_enqueue event q tt in
  (q, ber_result r).

Definition ring_try_dequeue (q : RingSpscQueue) : RingSpscQueue * DequeueResult :=
  let '(q, _, r) := ring_try_dequeue_observed ring_noop_dequeue q tt in
  (q, bdr_result r).

(** The timing entry points: only the boundary callback is the caller's. *)
Definition ring_try_enqueue_with_boundary_observer {O : Type}
    (before_enqueue_publication : O -> bool * O) (event : Z) (q : RingSpscQueue) (o : O)
    : RingSpscQueue * O * BoundaryEnqueueResult :=
  ring_try_enqueue_observed
    (mkEnqueueObserver O id id id before_enqueue_publication) event q o.

Definition ring_try_dequeue_with_boundary_observer {O : Type}
    (after_dequeue_observation : O -> bool * O) (q : RingSpscQueue) (o : O)
    : RingSpscQueue * O * BoundaryDequeueResult :=
  ring_try_dequeue_observed
    (mkDequeueObserver O id id after_dequeue_observation id) q o.

(** The calibration entry points: only the demand callbacks are the caller's. *)
Definition ring_try_enqueue_with_slot_demand_observer {O : Type}
    (before_slot_acquire after_slot_acquire : O -> O) (event : Z) (q : RingSpscQueue) (o : O)
    : RingSpscQueue * O * EnqueueResult :=
  let '(q, o, r) := ring_try_enqueue_observed
    (mkEnqueueObserver O before_slot_acquire after_slot_acquire id (fun o => (true, o)))
    event q o in
  (q, o, ber_result r).

Definition ring_try_dequeue_with_slot_demand_observer {O : Type}
    (before_slot_acquire after_slot_acquire : O -> O) (q : RingSpscQueue) (o : O)
    : RingSpscQueue * O * DequeueResult :=
  let '(q, o, r) := ring_try_dequeue_observed
    (mkDequeueObserver O before_slot_acquire after_slot_acquire (fun o => (true, o)) id) q o in
  (q, o, bdr_result r).

(** The quiescent audit: one pass over the slots. *)
Definition ring_audit_quiescent (q : RingSpscQueue) : RingQuiescentAudit :=
  let occupied :=
    fold_left (fun occupied v => if negb (v =? nullptr) then occupied + 1 else occupied)
      (slots q) 0 in
  mkRingQuiescentAudit occupied (producer_position q) (consumer_position q)
    ((producer_position q <? ring_capacity q) && (consumer_position q <? ring_capacity q)).

#[export] Instance ring_spsc : SpscQueue RingSpscQueue := {
  spsc_capacity := ring_capacity;
  spsc_try_enqueue := ring_try_enqueue;
  spsc_try_dequeue := ring_try_dequeue
}.

(** ** The representation invariant

    [ring_repr q l]: the [length l] slots from the consumer cursor hold [l] in
    order, the other slots are null, and the producer cursor is just behind
    the last element, modulo the capacity. *)

Record ring_repr (q : RingSpscQueue) (l : list Z) : Prop := mk_ring_repr {
  rr_capacity : 0 < ring_capacity q <= u64_max / 8;
  rr_length : Z.of_nat (length (slots q)) = ring_capacity q;
  rr_bound : Z.of_nat (length l) <= ring_capacity q;
  rr_consumer : 0 <= consumer_position q < ring_capacity q;
  rr_producer :
    producer_position q = (consumer_position q + Z.of_nat (length l)) mod ring_capacity q;
  rr_nonnull : Forall (fun e => e <> nullptr) l;
  rr_slots i : 0 <= i < ring_capacity q ->
    slots q !! Z.to_nat ((consumer_position q + i) mod ring_capacity q) =
    Some (default nullptr (l !! Z.to_nat i))
}.

(** ** Lemmas *)

Lemma ring_next_position_mod C p :
  0 < C <= u64_max / 8 -> 0 <= p < C -> ring_next_position C p = (p + 1) mod C.
Proof.
  intros HC Hp. unfold ring_next_position.
  assert (u64_max / 8 < u64_max) by done.
  rewrite u64_add_small, mod_wrap_once by int_lia.
  destruct (Z.eqb_spec (p + 1) C), (Z.ltb_spec (p + 1) C); lia.
Qed.

Section Repr.

Context (q : RingSpscQueue).

Lemma ring_producer_range l :
  ring_repr q l -> 0 <= producer_position q < ring_capacity q.
Proof. intros []. rewrite rr_producer0. apply Z.mod_pos_bound. lia. Qed.

Lemma ring_load_producer l :
  ring_repr q l ->
  slot_load (producer_position q) q =
    if Z.of_nat (length l) <? ring_capacity q then nullptr
    else default nullptr (l !! 0%nat).
Proof.
  intros Hr. destruct Hr. unfold slot_load. rewrite rr_producer0.
  destruct (Z.ltb_spec (Z.of_nat (length l)) (ring_capacity q)).
  - rewrite rr_slots0 by lia. rewrite Nat2Z.id.
    by rewrite (proj2 (lookup_ge_None l (length l))) by lia.
  - replace (consumer_position q + Z.of_nat (length l))
      with (consumer_position q + 0 + 1 * ring_capacity q) by lia.
    rewrite Z_mod_plus_full, rr_slots0 by lia. done.
Qed.

Lemma ring_load_consumer l :
  ring_repr q l -> slot_load (consumer_position q) q = default nullptr (l !! 0%nat).
Proof.
  intros Hr. destruct Hr. unfold slot_load.
  rewrite <- (Z.mod_small (consumer_position q) (ring_capacity q)) at 1 by lia.
  rewrite <- (Z.add_0_r (consumer_position q)) at 1.
  by rewrite rr_slots0 by lia.
Qed.

(** Publishing into the producer's slot appends to the abstract queue. *)
Lemma ring_repr_push l e :
  ring_repr q l -> e <> nullptr -> Z.of_nat (length l) < ring_capacity q ->
  ring_repr
    (set_producer_position
       (ring_next_position (ring_capacity q) (producer_position q))
       (set_slot (producer_position q) e q)) (l ++ [e]).
Proof.
  intros Hr He Hroom. pose proof (ring_producer_range l Hr) as Hp. destruct Hr.
  constructor; simpl; try done.
  - by rewrite length_insert.
  - rewrite length_app. simpl. lia.
  - rewrite ring_next_position_mod by done. rewrite rr_producer0, length_app. simpl.
    rewrite Zplus_mod_idemp_l. f_equal. lia.
  - apply Forall_app; auto.
  - intros i Hi. rewrite rr_producer0.
    pose proof (Z.mod_pos_bound (consumer_position q + Z.of_nat (length l))
                  (ring_capacity q) ltac:(lia)).
    pose proof (Z.mod_pos_bound (consumer_position q + i) (ring_capacity q) ltac:(lia)).
    destruct (Z.eq_dec i (Z.of_nat (length l))) as [->|Hne].
    + rewrite list_lookup_insert_eq by lia. rewrite Nat2Z.id, lookup_app_r by lia.
      by rewrite Nat.sub_diag.
    + rewrite list_lookup_insert_ne.
      * rewrite rr_slots0 by done. do 2 f_equal.
        destruct (Z.lt_total i (Z.of_nat (length l))) as [?|[?|?]]; [|done|].
        -- by rewrite lookup_app_l by lia.
        -- rewrite lookup_app_r by lia. rewrite !(proj2 (lookup_ge_None _ _)); [done|simpl; lia|lia].
      * intros E. apply Z2Nat.inj in E; [|lia|lia]. apply Hne. symmetry.
        apply (mod_offset_inj (consumer_position q) _ _ (ring_capacity q)); auto; lia.
Qed.

(** Clearing the consumer's slot removes the first element. *)
Lemma ring_repr_pop l e :
  ring_repr q (e :: l) ->
  ring_repr
    (set_consumer_position
       (ring_next_position (ring_capacity q) (consumer_position q))
       (set_slot (consumer_position q) nullptr q)) l.
Proof.
  intros Hr. destruct Hr. simpl in rr_bound0.
  rewrite ring_next_position_mod by done.
  pose proof (Z.mod_pos_bound (consumer_position q + 1) (ring_capacity q) ltac:(lia)).
  constructor; simpl; try done.
  - by rewrite length_insert.
  - lia.
  - rewrite rr_producer0, Zplus_mod_idemp_l. f_equal. simpl. lia.
  - by apply Forall_cons in rr_nonnull0 as [_ ?].
  - intros i Hi. rewrite Zplus_mod_idemp_l.
    replace (consumer_position q + 1 + i) with (consumer_position q + (i + 1)) by lia.
    destruct (Z.eq_dec (i + 1) (ring_capacity q)) as [E|Hne].
    + rewrite E. replace (consumer_position q + ring_capacity q)
        with (consumer_position q + 1 * ring_capacity q) by lia.
      rewrite Z_mod_plus_full, Z.mod_small by lia.
      rewrite list_lookup_insert_eq by lia.
      by rewrite (proj2 (lookup_ge_None l _)) by lia.
    + rewrite list_lookup_insert_ne.
      * rewrite rr_slots0 by lia. replace (Z.to_nat (i + 1)) with (S (Z.to_nat i)) by lia. done.
      * pose proof (Z.mod_pos_bound (consumer_position q + (i + 1)) (ring_capacity q) ltac:(lia)).
        rewrite mod_wrap_once in * by lia. destruct (Z.ltb_spec (consumer_position q + (i+1)) (ring_capacity q)); lia.
Qed.

End Repr.

Create HintDb ring.
#[export] Hint Resolve ring_repr_push ring_repr_pop : ring.

Lemma ring_make_repr capacity line q :
  is_u64 capacity -> is_u64 line ->
  RingSpscQueue_make capacity line = Returned q ->
  ring_repr q [] /\ ring_capacity q = capacity.
Proof.
  intros Hc Hl. unfold RingSpscQueue_make.
  destruct (validate_cache_line_bytes line); [|done].
  destruct (Z.eqb_spec capacity 0); [done|].
  destruct (queue_checked_multiply capacity sizeof_Slot) eqn:E1; [|done].
  destruct (queue_checked_multiply 2 line); [|done]. intros [= <-].
  apply queue_checked_multiply_spec in E1 as [-> E1]; [|done|unfold sizeof_Slot; int_lia].
  unfold sizeof_Slot in E1. split; [|done].
  constructor; simpl; try done; [split; [int_lia|apply Z.div_le_lower_bound; lia] |..].
  - rewrite length_replicate. int_lia.
  - int_lia.
  - int_lia.
  - intros i Hi. apply lookup_replicate_2.
    pose proof (Z.mod_pos_bound i capacity ltac:(lia)).
    rewrite Z.add_0_l. lia.
Qed.

#[export] Program Instance ring_spsc_laws : SpscQueueLaws RingSpscQueue := {
  spsc_repr := ring_repr
}.
Next Obligation. intros s l []. done. Qed.
Next Obligation.
  intros s l e Hr He. unfold spsc_try_enqueue, spsc_capacity; simpl.
  unfold ring_try_enqueue, ring_try_enqueue_observed, fifo_enqueue; simpl.
  rewrite (ring_load_producer s l Hr).
  destruct (Z.ltb_spec (Z.of_nat (length l)) (ring_capacity s)); simpl.
  - eexists; split; [done|]; split; [eauto with ring | done].
  - destruct l as [|x l]; [destruct Hr; simpl in *; lia|]. simpl.
    assert (x <> nullptr) by (destruct Hr; by inversion rr_nonnull0).
    destruct (Z.eqb_spec x nullptr); [done|]. eauto.
Qed.
Next Obligation.
  intros s l Hr. unfold spsc_try_dequeue, spsc_capacity; simpl.
  unfold ring_try_dequeue, ring_try_dequeue_observed; simpl.
  rewrite (ring_load_consumer s l Hr).
  destruct l as [|x l]; simpl; [eauto|].
  destruct (Z.eqb_spec x nullptr) as [->|]; simpl.
  - destruct Hr. by inversion rr_nonnull0.
  - eexists; split; [done|]; split; [eauto with ring | done].
Qed.

(** Counting loop of the audit. *)
Lemma count_nonnull_fold vs n :
  fold_left (fun occupied v => if negb (v =? nullptr) then occupied + 1 else occupied) vs n
  = n + Z.of_nat (length (filter (fun v => v <> nullptr) vs)).
Proof.
  revert n. induction vs as [|v vs IH]; intros n; simpl; [lia|]. rewrite IH, filter_cons.
  destruct (Z.eqb_spec v nullptr), (decide (v <> nullptr)); simpl; try lia; done.
Qed.

(** The slots, read from the consumer cursor, are the queue then nulls. *)
Lemma ring_repr_rotation q l :
  ring_repr q l ->
  drop (Z.to_nat (consumer_position q)) (slots q) ++
    take (Z.to_nat (consumer_position q)) (slots q) =
  l ++ replicate (Z.to_nat (ring_capacity q) - length l) nullptr.
Proof.
  intros []. set (c := Z.to_nat (consumer_position q)).
  apply list_eq_same_length with (n := Z.to_nat (ring_capacity q)).
  - rewrite length_app, length_replicate. lia.
  - rewrite length_app, length_drop, length_take. lia.
  - intros i x y Hi.
    specialize (rr_slots0 (Z.of_nat i) ltac:(lia)). rewrite Nat2Z.id in rr_slots0.
    rewrite mod_wrap_once in rr_slots0 by lia.
    assert (Hl : (l ++ replicate (Z.to_nat (ring_capacity q) - length l) nullptr) !! i
                 = Some (default nullptr (l !! i))).
    { destruct (decide (i < length l)%nat).
      - rewrite lookup_app_l by done. destruct (lookup_lt_is_Some_2 l i) as [z ->]; done.
      - rewrite lookup_app_r by lia. rewrite (proj2 (lookup_ge_None l i)) by lia.
        apply lookup_replicate_2. lia. }
    rewrite Hl. intros Hx [= <-]. revert Hx.
    destruct (Z.ltb_spec (consumer_position q + Z.of_nat i) (ring_capacity q)).
    + rewrite lookup_app_l by (rewrite length_drop; lia). rewrite lookup_drop.
      replace (c + i)%nat with (Z.to_nat (consumer_position q + Z.of_nat i)) by lia.
      rewrite rr_slots0. by intros [= <-].
    + rewrite lookup_app_r by (rewrite length_drop; lia).
      rewrite length_drop, lookup_take_lt by lia.
      replace (i - (length (slots q) - c))%nat
        with (Z.to_nat (consumer_position q + Z.of_nat i - ring_capacity q)) by lia.
      rewrite rr_slots0. by intros [= <-].
Qed.

Lemma filter_nonnull_all l :
  Forall (fun e => e <> nullptr) l -> filter (fun v => v <> nullptr) l = l.
Proof.
  induction 1; [done|]. rewrite filter_cons_True by done. by f_equal.
Qed.

Lemma filter_nonnull_replicate n :
  filter (fun v => v <> nullptr) (replicate n nullptr) = [].
Proof. induction n; [done|]. simpl. rewrite filter_cons_False; naive_solver. Qed.

(** One enqueue attempt, by cases. *)
Lemma ring_enqueue_cases {O : Type} (obs : EnqueueObserver O) q l e (o : O) :
  ring_repr q l -> e <> nullptr ->
  let o1 := eo_after_slot_acquire obs (eo_before_slot_acquire obs o) in
  let boundary := eo_before_enqueue_publication obs (eo_before_slot_publication obs o1) in
  if Z.of_nat (length l) <? ring_capacity q then
    if fst boundary then
      exists q', ring_try_enqueue_observed obs e q o =
                 (q', snd boundary,
                  mkBoundaryEnqueueResult BoundaryCaptureStatus_complete
                    EnqueueResult_accepted) /\
                 ring_repr q' (l ++ [e]) /\ ring_capacity q' = ring_capacity q
    else
      ring_try_enqueue_observed obs e q o =
        (q, snd boundary,
         mkBoundaryEnqueueResult BoundaryCaptureStatus_capture_failed EnqueueResult_full)
  else
    ring_try_enqueue_observed obs e q o =
      (q, o1, mkBoundaryEnqueueResult BoundaryCaptureStatus_complete EnqueueResult_full).
Proof.
  intros Hr He. simpl. unfold ring_try_enqueue_observed.
  rewrite (ring_load_producer q l Hr).
  destruct (Z.ltb_spec (Z.of_nat (length l)) (ring_capacity q)); simpl.
  - destruct (eo_before_enqueue_publication obs _) as [[] o']; simpl; [|done].
    eexists; split; [done|]; split; [by apply ring_repr_push | done].
  - destruct l as [|x l]; [destruct Hr; simpl in *; lia|]. simpl.
    assert (x <> nullptr) by (destruct Hr; by inversion rr_nonnull0).
    by destruct (Z.eqb_spec x nullptr).
Qed.

(** One dequeue attempt, by cases. *)
Lemma ring_dequeue_cases {O : Type} (obs : DequeueObserver O) q l (o : O) :
  ring_repr q l ->
  let o1 := do_after_slot_acquire obs (do_before_slot_acquire obs o) in
  let boundary := do_after_dequeue_observation obs o1 in
  match l with
  | [] => ring_try_dequeue_observed obs q o =
            (q, o1, mkBoundaryDequeueResult BoundaryCaptureStatus_complete
                      (mkDequeueResult DequeueStatus_empty nullptr))
  | e :: l' =>
      if fst boundary then
        exists q', ring_try_dequeue_observed obs q o =
                   (q', do_before_slot_reuse_release obs (snd boundary),
                    mkBoundaryDequeueResult BoundaryCaptureStatus_complete
                      (mkDequeueResult DequeueStatus_item e)) /\
                   ring_repr q' l' /\ ring_capacity q' = ring_capacity q
      else
        ring_try_dequeue_observed obs q o =
          (q, snd boundary,
           mkBoundaryDequeueResult BoundaryCaptureStatus_capture_failed
             (mkDequeueResult DequeueStatus_empty nullptr))
  end.
Proof.
  intros Hr. simpl. unfold ring_try_dequeue_observed.
  rewrite (ring_load_consumer q l Hr).
  destruct l as [|x l]; simpl; [done|].
  assert (x <> nullptr) by (destruct Hr; by inversion rr_nonnull0).
  destruct (Z.eqb_spec x nullptr); [done|].
  destruct (do_after_dequeue_observation obs _) as [[] o']; simpl; [|done].
  eexists; split; [done|]; split; [by apply ring_repr_pop with x | done].
Qed.

(** ** Properties *)

(** The set-up either throws or yields the empty ring of the requested
    capacity; it succeeds exactly when the cache line is a power of two of at
    least 16 bytes and the slot and cursor storage sizes fit in [size_t]. *)
Theorem ring_constructor_spec capacity line :
  is_u64 capacity -> is_u64 line ->
  ((exists q, RingSpscQueue_make capacity line = Returned q) <->
   (exists k, 4 <= k < 63 /\ line = 2 ^ k) /\ 0 < capacity /\ capacity * 8 <= u64_max) /\
  (forall q, RingSpscQueue_make capacity line = Returned q ->
             ring_repr q [] /\ ring_capacity q = capacity).
Proof.
  intros Hc Hl. split; [|by intros; eapply ring_make_repr].
  unfold RingSpscQueue_make, sizeof_Slot.
  pose proof (validate_cache_line_bytes_spec line Hl) as Hline.
  pose proof (queue_checked_multiply_total capacity 8 Hc ltac:(int_lia)) as Hslot.
  pose proof (queue_checked_multiply_total 2 line ltac:(int_lia) Hl) as Hcursor.
  destruct (validate_cache_line_bytes line) as [[]|].
  2: { split; [by intros []|]. intros [(k & ? & ?) _].
       enough (Threw what = Returned tt) by done. apply Hline. exists k. split; [lia|done]. }
  destruct (proj1 Hline eq_refl) as (k & Hk & ->).
  pose proof (twice_cache_line_fits k ltac:(lia)) as Hfit.
  assert (Hk63 : (exists j, 4 <= j < 63 /\ 2 ^ k = 2 ^ j) <-> k < 63).
  { split; [|exists k; lia]. intros (j & ? & E). apply Z.pow_inj_r in E; lia. }
  rewrite Hk63, <- Hfit, <- Hcursor, <- Hslot.
  destruct (Z.eqb_spec capacity 0); [split; [by intros []|lia]|].
  destruct (queue_checked_multiply capacity 8), (queue_checked_multiply 2 (2 ^ k));
    (split; [intros [? E]; try discriminate E | intros ([? E1] & _ & [? E2]);
                                                try discriminate; eauto]).
  split; [eauto|]. split; [int_lia | eauto].
Qed.

Lemma ring_constructor_spec_witness :
  ring_repr (mkRing 4 64 32 128 [0; 0; 0; 0] 0 0) [] /\
  ring_capacity (mkRing 4 64 32 128 [0; 0; 0; 0] 0 0) = 4.
Proof.
  apply (ring_constructor_spec 4 64); [unfold is_u64, u64_max; lia..|]. reflexivity.
Defined.

(** One enqueue attempt with observers, on every branch: a full ring
    returns FULL and changes nothing; otherwise the boundary callback decides:
    if it fails the attempt ends as a capture failure and the ring is
    unchanged, if it succeeds the event is appended and the attempt is
    ACCEPTED. The callbacks run in the order acquire, publication, boundary,
    and only those the branch reaches. *)
Theorem ring_enqueue_observed_spec {O : Type} (obs : EnqueueObserver O) q l e (o : O) :
  ring_repr q l -> e <> nullptr ->
  let o1 := eo_after_slot_acquire obs (eo_before_slot_acquire obs o) in
  let boundary := eo_before_enqueue_publication obs (eo_before_slot_publication obs o1) in
  if Z.of_nat (length l) <? ring_capacity q then
    if fst boundary then
      exists q', ring_try_enqueue_observed obs e q o =
                 (q', snd boundary,
                  mkBoundaryEnqueueResult BoundaryCaptureStatus_complete
                    EnqueueResult_accepted) /\
                 ring_repr q' (l ++ [e]) /\ ring_capacity q' = ring_capacity q
    else
      ring_try_enqueue_observed obs e q o =
        (q, snd boundary,
         mkBoundaryEnqueueResult BoundaryCaptureStatus_capture_failed EnqueueResult_full)
  else
    ring_try_enqueue_observed obs e q o =
      (q, o1, mkBoundaryEnqueueResult BoundaryCaptureStatus_complete EnqueueResult_full).
Proof. apply ring_enqueue_cases. Qed.

Lemma ring_enqueue_observed_spec_witness :
  exists q q',
    ring_try_enqueue_observed (mkEnqueueObserver nat S S S (fun o => (true, S o))) 7 q 0%nat =
      (q', 4%nat,
       mkBoundaryEnqueueResult BoundaryCaptureStatus_complete EnqueueResult_accepted) /\
    ring_repr q' ([] ++ [7]).
Proof.
  exists (mkRing 4 64 32 128 [0; 0; 0; 0] 0 0).
  assert (H : ring_repr (mkRing 4 64 32 128 [0; 0; 0; 0] 0 0) []).
  { eapply (ring_make_repr 4 64); [unfold is_u64, u64_max; lia..|]. reflexivity. }
  destruct (ring_enqueue_observed_spec (mkEnqueueObserver nat S S S (fun o => (true, S o)))
              (mkRing 4 64 32 128 [0; 0; 0; 0] 0 0) [] 7 0%nat H ltac:(done))
    as (q' & E & Hr & _).
  exists q'. split; [exact E | exact Hr].
Defined.

(** One dequeue attempt with observers, on every branch: an empty ring
    returns EMPTY; otherwise a failed boundary capture leaves the event in the
    ring, and a successful one delivers the oldest event and frees its slot. *)
Theorem ring_dequeue_observed_spec {O : Type} (obs : DequeueObserver O) q l (o : O) :
  ring_repr q l ->
  let o1 := do_after_slot_acquire obs (do_before_slot_acquire obs o) in
  let boundary := do_after_dequeue_observation obs o1 in
  match l with
  | [] => ring_try_dequeue_observed obs q o =
            (q, o1, mkBoundaryDequeueResult BoundaryCaptureStatus_complete
                      (mkDequeueResult DequeueStatus_empty nullptr))
  | e :: l' =>
      if fst boundary then
        exists q', ring_try_dequeue_observed obs q o =
                   (q', do_before_slot_reuse_release obs (snd boundary),
                    mkBoundaryDequeueResult BoundaryCaptureStatus_complete
                      (mkDequeueResult DequeueStatus_item e)) /\
                   ring_repr q' l' /\ ring_capacity q' = ring_capacity q
      else
        ring_try_dequeue_observed obs q o =
          (q, snd boundary,
           mkBoundaryDequeueResult BoundaryCaptureStatus_capture_failed
             (mkDequeueResult DequeueStatus_empty nullptr))
  end.
Proof. apply ring_dequeue_cases. Qed.

Lemma ring_dequeue_observed_spec_witness :
  ring_try_dequeue_observed (mkDequeueObserver nat S S (fun o => (false, S o)) S)
    (mkRing 4 64 32 128 [0; 0; 0; 0] 0 0) 0%nat =
  (mkRing 4 64 32 128 [0; 0; 0; 0] 0 0, 2%nat,
   mkBoundaryDequeueResult BoundaryCaptureStatus_complete
     (mkDequeueResult DequeueStatus_empty nullptr)).
Proof.
  apply (ring_dequeue_observed_spec (mkDequeueObserver nat S S (fun o => (false, S o)) S)
           (mkRing 4 64 32 128 [0; 0; 0; 0] 0 0) [] 0%nat).
  eapply (ring_make_repr 4 64); [unfold is_u64, u64_max; lia..|]. reflexivity.
Defined.

(** The quiescent audit is exact: it counts as many occupied slots as the
    queue holds events, and both cursors are in range. *)
Theorem ring_audit_exact q l :
  ring_repr q l ->
  occupied_slots (ring_audit_quiescent q) = Z.of_nat (length l) /\
  positions_in_range (ring_audit_quiescent q) = true.
Proof.
  intros Hr. unfold ring_audit_quiescent; simpl. split.
  - rewrite count_nonnull_fold. simpl. f_equal.
    rewrite <- (take_drop (Z.to_nat (consumer_position q)) (slots q)) at 1.
    rewrite filter_app, length_app, Nat.add_comm, <- length_app, <- filter_app.
    rewrite (ring_repr_rotation q l Hr), filter_app, filter_nonnull_replicate, app_nil_r.
    rewrite filter_nonnull_all; [done | by destruct Hr].
  - pose proof (ring_producer_range q l Hr). destruct Hr.
    apply andb_true_iff; split; apply Z.ltb_lt; lia.
Qed.

Lemma ring_audit_exact_witness :
  occupied_slots (ring_audit_quiescent (mkRing 4 64 32 128 [0; 0; 0; 0] 0 0)) = 0.
Proof.
  apply (ring_audit_exact (mkRing 4 64 32 128 [0; 0; 0; 0] 0 0) []).
  eapply (ring_make_repr 4 64); [unfold is_u64, u64_max; lia..|]. reflexivity.
Defined.

(** The look-ahead slot of the prefetch policies is the cursor advanced by
    the distance modulo the capacity, with no intermediate overflow. *)
Theorem position_at_distance_mod q l d :
  ring_repr q l -> is_u64 d ->
  producer_slot_target q d = (producer_position q + d) mod ring_capacity q /\
  consumer_slot_target q d = (consumer_position q + d) mod ring_capacity q.
Proof.
  intros Hr Hd. pose proof (ring_producer_range q l Hr) as Hp. destruct Hr.
  enough (H : forall p, 0 <= p < ring_capacity q ->
    position_at_distance q p d = (p + d) mod ring_capacity q) by (split; by apply H).
  intros p Hpr. unfold position_at_distance.
  assert (u64_max / 8 < u64_max) by done.
  pose proof (Z.mod_pos_bound d (ring_capacity q) ltac:(lia)).
  rewrite <- Zplus_mod_idemp_r. rewrite mod_wrap_once, u64_sub_small by lia.
  destruct (Z.eqb_spec (d mod ring_capacity q) 0) as [->|].
  { destruct (Z.ltb_spec (p + 0) (ring_capacity q)); lia. }
  destruct (Z.ltb_spec (d mod ring_capacity q) (ring_capacity q - p)),
    (Z.ltb_spec (p + d mod ring_capacity q) (ring_capacity q)); try lia.
  - apply u64_add_small. lia.
  - rewrite u64_sub_small by lia. lia.
Qed.

Lemma position_at_distance_mod_witness :
  producer_slot_target (mkRing 4 64 32 128 [0; 0; 0; 0] 0 0) 6 = 2.
Proof.
  destruct (position_at_distance_mod (mkRing 4 64 32 128 [0; 0; 0; 0] 0 0) [] 6) as [E _].
  - eapply (ring_make_repr 4 64); [unfold is_u64, u64_max; lia..|]. reflexivity.
  - unfold is_u64, u64_max; lia.
  - exact E.
Defined.
