(* ===== verification/RingConcurrent.v ===== *)
(** * The ring queue under concurrent execution

    One producer and one consumer run [try_enqueue] and [try_dequeue] of
    [include/cpu_prefetch/queue/ring_spsc.hpp] at the same time. Each call is
    split at its atomic accesses: the acquire load of the slot, the release
    store, and the update of the thread's own cursor. A slot is an atomic
    location with its modification order; a load may return any value of that
    order not older than what the thread has already seen (per-location
    coherence), and a store may be placed anywhere in the order after what the
    thread has seen. Nothing more is assumed of the memory model, so the
    results hold for every execution of the C++ memory model. *)

From stdpp Require Import prelude list.
From Stdlib Require Import ZArith Lia.
From S2P Require Import Prelude QueueCommon RingSpsc.

#[local] Open Scope Z_scope.

(** ** Atomic slots *)

Record SlotMemory : Type := mkSlotMemory {
  history : list Z;          (* modification order, oldest first *)
  producer_view : nat;       (* last entry the producer has seen *)
  consumer_view : nat        (* last entry the consumer has seen *)
}.

(** Place a store at position [p] of the modification order; the other
    thread's view keeps denoting the same entry. *)
Definition place_store (p : nat) (v : Z) (h : list Z) : list Z :=
  take p h ++ v :: drop p h.

Definition shift_view (p view : nat) : nat := if (p <=? view)%nat then S view else view.

Definition store_by_producer (p : nat) (v : Z) (m : SlotMemory) : SlotMemory :=
  mkSlotMemory (place_store p v (history m)) p (shift_view p (consumer_view m)).

Definition store_by_consumer (p : nat) (v : Z) (m : SlotMemory) : SlotMemory :=
  mkSlotMemory (place_store p v (history m)) (shift_view p (producer_view m)) p.

(** ** Thread states and steps *)

Inductive ProducerPc : Type :=
| Producer_idle
| Producer_acquire (e : Z)       (* before [slot.load] *)
| Producer_publish (e : Z)       (* null observed, before [slot.store] *)
| Producer_advance.              (* stored, before the cursor update *)

Inductive ConsumerPc : Type :=
| Consumer_idle
| Consumer_acquire
| Consumer_release (e : Z)       (* [e] observed, before [slot.store(nullptr)] *)
| Consumer_advance (e : Z).       (* cleared, before the cursor update *)

Record RingState : Type := mkRingState {
  rs_capacity : Z;
  rs_memory : list SlotMemory;
  rs_producer_position : Z;
  rs_consumer_position : Z;
  rs_producer_pc : ProducerPc;
  rs_consumer_pc : ConsumerPc;
  rs_published : list Z;            (* events stored so far, in store order *)
  rs_taken : list Z;                (* events delivered so far, in delivery order *)
  rs_enqueue_results : list EnqueueResult;
  rs_dequeue_results : list DequeueResult
}.

Inductive RingLabel : Type :=
| Label_enqueue (e : Z)             (* the producer calls [try_enqueue] *)
| Label_producer_load (k : nat)     (* returns entry [k] of the slot's order *)
| Label_producer_store (p : nat)    (* placed at position [p] *)
| Label_producer_advance
| Label_dequeue
| Label_consumer_load (k : nat)
| Label_consumer_store (p : nat)
| Label_consumer_advance.

Definition set_producer (pc : ProducerPc) (s : RingState) : RingState :=
  mkRingState (rs_capacity s) (rs_memory s) (rs_producer_position s) (rs_consumer_position s)
    pc (rs_consumer_pc s) (rs_published s) (rs_taken s)
    (rs_enqueue_results s) (rs_dequeue_results s).

Definition set_consumer (pc : ConsumerPc) (s : RingState) : RingState :=
  mkRingState (rs_capacity s) (rs_memory s) (rs_producer_position s) (rs_consumer_position s)
    (rs_producer_pc s) pc (rs_published s) (rs_taken s)
    (rs_enqueue_results s) (rs_dequeue_results s).

Definition set_memory (i : Z) (m : SlotMemory) (s : RingState) : RingState :=
  mkRingState (rs_capacity s) (<[Z.to_nat i := m]> (rs_memory s))
    (rs_producer_position s) (rs_consumer_position s)
    (rs_producer_pc s) (rs_consumer_pc s) (rs_published s) (rs_taken s)
    (rs_enqueue_results s) (rs_dequeue_results s).

Definition respond_enqueue (r : EnqueueResult) (s : RingState) : RingState :=
  mkRingState (rs_capacity s) (rs_memory s) (rs_producer_position s) (rs_consumer_position s)
    Producer_idle (rs_consumer_pc s) (rs_published s) (rs_taken s)
    (rs_enqueue_results s ++ [r]) (rs_dequeue_results s).

Definition respond_dequeue (r : DequeueResult) (s : RingState) : RingState :=
  mkRingState (rs_capacity s) (rs_memory s) (rs_producer_position s) (rs_consumer_position s)
    (rs_producer_pc s) Consumer_idle (rs_published s) (rs_taken s)
    (rs_enqueue_results s) (rs_dequeue_results s ++ [r]).

Definition log_published (e : Z) (s : RingState) : RingState :=
  mkRingState (rs_capacity s) (rs_memory s) (rs_producer_position s) (rs_consumer_position s)
    (rs_producer_pc s) (rs_consumer_pc s) (rs_published s ++ [e]) (rs_taken s)
    (rs_enqueue_results s) (rs_dequeue_results s).

Definition log_taken (e : Z) (s : RingState) : RingState :=
  mkRingState (rs_capacity s) (rs_memory s) (rs_producer_position s) (rs_consumer_position s)
    (rs_producer_pc s) (rs_consumer_pc s) (rs_published s) (rs_taken s ++ [e])
    (rs_enqueue_results s) (rs_dequeue_results s).

Definition move_producer (s : RingState) : RingState :=
  mkRingState (rs_capacity s) (rs_memory s)
    (ring_next_position (rs_capacity s) (rs_producer_position s)) (rs_consumer_position s)
    (rs_producer_pc s) (rs_consumer_pc s) (rs_published s) (rs_taken s)
    (rs_enqueue_results s) (rs_dequeue_results s).

Definition move_consumer (s : RingState) : RingState :=
  mkRingState (rs_capacity s) (rs_memory s) (rs_producer_position s)
    (ring_next_position (rs_capacity s) (rs_consumer_position s))
    (rs_producer_pc s) (rs_consumer_pc s) (rs_published s) (rs_taken s)
    (rs_enqueue_results s) (rs_dequeue_results s).

Definition producer_slot (s : RingState) : option SlotMemory :=
  rs_memory s !! Z.to_nat (rs_producer_position s).

Definition consumer_slot (s : RingState) : option SlotMemory :=
  rs_memory s !! Z.to_nat (rs_consumer_position s).

(** The producer's steps: [try_enqueue_observed], one access at a time. *)
Definition producer_step (label : RingLabel) (s : RingState) : option RingState :=
  match label, rs_producer_pc s with
  | Label_enqueue e, Producer_idle =>
      if e =? nullptr then None else Some (set_producer (Producer_acquire e) s)
  | Label_producer_load k, Producer_acquire e =>
      m ← producer_slot s;
      observed ← (if (producer_view m <=? k)%nat then history m !! k else None);
      let s := set_memory (rs_producer_position s)
                 (mkSlotMemory (history m) k (consumer_view m)) s in
      if negb (observed =? nullptr) then Some (respond_enqueue EnqueueResult_full s)
      else Some (set_producer (Producer_publish e) s)
  | Label_producer_store p, Producer_publish e =>
      m ← producer_slot s;
      if (producer_view m <? p)%nat && (p <=? length (history m))%nat then
        Some (set_producer Producer_advance (log_published e
               (set_memory (rs_producer_position s) (store_by_producer p e m) s)))
      else None
  | Label_producer_advance, Producer_advance =>
      Some (respond_enqueue EnqueueResult_accepted (move_producer s))
  | _, _ => None
  end.

(** The consumer's steps: [try_dequeue_observed], one access at a time. *)
Definition consumer_step (label : RingLabel) (s : RingState) : option RingState :=
  match label, rs_consumer_pc s with
  | Label_dequeue, Consumer_idle => Some (set_consumer Consumer_acquire s)
  | Label_consumer_load k, Consumer_acquire =>
      m ← consumer_slot s;
      event ← (if (consumer_view m <=? k)%nat then history m !! k else None);
      let s := set_memory (rs_consumer_position s)
                 (mkSlotMemory (history m) (producer_view m) k) s in
      if event =? nullptr then
        Some (respond_dequeue (mkDequeueResult DequeueStatus_empty nullptr) s)
      else Some (set_consumer (Consumer_release event) s)
  | Label_consumer_store p, Consumer_release e =>
      m ← consumer_slot s;
      if (consumer_view m <? p)%nat && (p <=? length (history m))%nat then
        Some (set_consumer (Consumer_advance e) (log_taken e
               (set_memory (rs_consumer_position s) (store_by_consumer p nullptr m) s)))
      else None
  | Label_consumer_advance, Consumer_advance e =>
      Some (respond_dequeue (mkDequeueResult DequeueStatus_item e) (move_consumer s))
  | _, _ => None
  end.

Definition ring_step (label : RingLabel) (s : RingState) : option RingState :=
  match label with
  | Label_enqueue _ | Label_producer_load _ | Label_producer_store _
  | Label_producer_advance => producer_step label s
  | _ => consumer_step label s
  end.

(** A freshly constructed ring: one null entry per slot. *)
Definition ring_initial (capacity : Z) : RingState :=
  mkRingState capacity (replicate (Z.to_nat capacity) (mkSlotMemory [nullptr] 0 0)) 0 0
    Producer_idle Consumer_idle [] [] [] [].

Inductive ring_reachable (capacity : Z) : RingState -> Prop :=
| ring_reach_init : ring_reachable capacity (ring_initial capacity)
| ring_reach_step s s' label :
    ring_reachable capacity s -> ring_step label s = Some s' -> ring_reachable capacity s'.

(** Execute a schedule of labels. *)
Fixpoint run_labels (labels : list RingLabel) (s : RingState) : option RingState :=
  match labels with
  | [] => Some s
  | label :: labels => s' ← ring_step label s; run_labels labels s'
  end.

(** ** The invariant *)

(** [slot_holds m v]: the newest entry is [v]; every older entry the producer
    may still read is an event, every older entry the consumer may still read
    is null. *)
Record slot_holds (m : SlotMemory) (v : Z) : Prop := mk_slot_holds {
  sh_last : history m !! pred (length (history m)) = Some v;
  sh_producer_view : (producer_view m < length (history m))%nat;
  sh_consumer_view : (consumer_view m < length (history m))%nat;
  sh_producer_stale k x : (producer_view m <= k)%nat -> (S k < length (history m))%nat ->
    history m !! k = Some x -> x <> nullptr;
  sh_consumer_stale k x : (consumer_view m <= k)%nat -> (S k < length (history m))%nat ->
    history m !! k = Some x -> x = nullptr
}.

(** The thread has seen the newest entry of the slot. *)
Definition producer_current (m : SlotMemory) : Prop :=
  S (producer_view m) = length (history m).

Definition consumer_current (m : SlotMemory) : Prop :=
  S (consumer_view m) = length (history m).

(** The consumer cursor once a release whose advance is pending is counted. *)
Definition logical_head (s : RingState) : Z :=
  match rs_consumer_pc s with
  | Consumer_advance _ => ring_next_position (rs_capacity s) (rs_consumer_position s)
  | _ => rs_consumer_position s
  end.

Definition logical_tail (s : RingState) : Z :=
  match rs_producer_pc s with
  | Producer_advance => ring_next_position (rs_capacity s) (rs_producer_position s)
  | _ => rs_producer_position s
  end.

(** Reading the slots from [head], slot number [i] holds [f i]. *)
Definition slots_hold (C head : Z) (mem : list SlotMemory) (f : Z -> Z) : Prop :=
  forall i, 0 <= i < C ->
  exists m, mem !! Z.to_nat ((head + i) mod C) = Some m /\ slot_holds m (f i).

Definition entry (pending : list Z) (i : Z) : Z := default nullptr (pending !! Z.to_nat i).

(** The events of the successful dequeue results, in order. *)
Definition delivered (rs : list DequeueResult) : list Z :=
  omap (fun r => match dr_status r with
                 | DequeueStatus_item => Some (dr_event r)
                 | _ => None
                 end) rs.

Definition accepts (rs : list EnqueueResult) : list EnqueueResult :=
  filter (fun r => r = EnqueueResult_accepted) rs.

Record ring_invariant (s : RingState) (pending : list Z) : Prop := mk_ring_invariant {
  ri_capacity : 0 < rs_capacity s <= u64_max / 8;
  ri_length : Z.of_nat (length (rs_memory s)) = rs_capacity s;
  ri_bound : Z.of_nat (length pending) <= rs_capacity s;
  ri_producer : 0 <= rs_producer_position s < rs_capacity s;
  ri_consumer : 0 <= rs_consumer_position s < rs_capacity s;
  ri_tail : logical_tail s =
    (logical_head s + Z.of_nat (length pending)) mod rs_capacity s;
  ri_nonnull : Forall (fun e => e <> nullptr) pending;
  ri_slots : slots_hold (rs_capacity s) (logical_head s) (rs_memory s) (entry pending);
  ri_log : rs_published s = rs_taken s ++ pending;
  ri_producer_pc :
    match rs_producer_pc s with
    | Producer_acquire e => e <> nullptr
    | Producer_publish e => e <> nullptr /\ Z.of_nat (length pending) < rs_capacity s /\
        exists m, producer_slot s = Some m /\ producer_current m
    | _ => True
    end;
  ri_consumer_pc :
    match rs_consumer_pc s with
    | Consumer_release e => pending !! 0%nat = Some e /\
        exists m, consumer_slot s = Some m /\ consumer_current m
    | _ => True
    end;
  ri_accepts :
    (length (accepts (rs_enqueue_results s)) +
     (if rs_producer_pc s is Producer_advance then 1 else 0))%nat = length (rs_published s);
  ri_delivered :
    delivered (rs_dequeue_results s) ++
      (if rs_consumer_pc s is Consumer_advance e then [e] else []) = rs_taken s
}.

(** ** Lemmas on one slot *)

Section Slot.

Context (m : SlotMemory) (v : Z) (Hm : slot_holds m v).

(** A null read by the producer is the newest entry. *)
Lemma producer_reads_null k :
  (producer_view m <= k)%nat -> history m !! k = Some nullptr ->
  S k = length (history m) /\ v = nullptr.
Proof.
  intros Hk Hread. destruct Hm. pose proof (lookup_lt_Some _ _ _ Hread).
  destruct (decide (S k < length (history m))%nat) as [Hlt|].
  - by destruct (sh_producer_stale0 k nullptr).
  - assert (S k = length (history m)) as Hlen by lia. split; [done|].
    rewrite <- Hlen in sh_last0. simpl in sh_last0. congruence.
Qed.

(** An event read by the consumer is the newest entry. *)
Lemma consumer_reads_event k e :
  (consumer_view m <= k)%nat -> history m !! k = Some e -> e <> nullptr ->
  S k = length (history m) /\ v = e.
Proof.
  intros Hk Hread He. destruct Hm. pose proof (lookup_lt_Some _ _ _ Hread).
  destruct (decide (S k < length (history m))%nat) as [Hlt|].
  - by destruct He; eapply sh_consumer_stale0.
  - assert (S k = length (history m)) as Hlen by lia. split; [done|].
    rewrite <- Hlen in sh_last0. simpl in sh_last0. congruence.
Qed.

Lemma slot_holds_producer_load k :
  (producer_view m <= k < length (history m))%nat ->
  slot_holds (mkSlotMemory (history m) k (consumer_view m)) v.
Proof.
  intros Hk. destruct Hm. constructor; simpl; try done; try lia.
  all: intros j x Hj Hlt Hx;
    first [apply (sh_producer_stale0 j x) | apply (sh_consumer_stale0 j x)]; solve [done | lia].
Qed.

Lemma slot_holds_consumer_load k :
  (consumer_view m <= k < length (history m))%nat ->
  slot_holds (mkSlotMemory (history m) (producer_view m) k) v.
Proof.
  intros Hk. destruct Hm. constructor; simpl; try done; try lia.
  all: intros j x Hj Hlt Hx;
    first [apply (sh_producer_stale0 j x) | apply (sh_consumer_stale0 j x)]; solve [done | lia].
Qed.

Lemma place_store_end x p : p = length (history m) -> place_store p x (history m) = history m ++ [x].
Proof. intros ->. unfold place_store. by rewrite take_ge, drop_ge by lia. Qed.

Lemma slot_holds_producer_store p e :
  p = length (history m) -> v = nullptr -> e <> nullptr -> slot_holds (store_by_producer p e m) e.
Proof.
  intros Hp Hv He. destruct Hm. unfold store_by_producer, shift_view.
  rewrite place_store_end by done. rewrite (proj2 (Nat.leb_gt p (consumer_view m))) by lia.
  constructor; simpl; rewrite ?length_app; simpl; try lia.
  - rewrite lookup_app_r by lia. by replace (_ - _)%nat with 0%nat by lia.
  - intros k x Hk1 Hk2. rewrite lookup_app_l by lia. intros Hx.
    destruct (decide (S k < length (history m))%nat); [eauto|].
    replace (pred (length (history m))) with k in * by lia. congruence.
Qed.

Lemma slot_holds_consumer_store p :
  p = length (history m) -> v <> nullptr -> slot_holds (store_by_consumer p nullptr m) nullptr.
Proof.
  intros Hp Hv. destruct Hm. unfold store_by_consumer, shift_view.
  rewrite place_store_end by done. rewrite (proj2 (Nat.leb_gt p (producer_view m))) by lia.
  constructor; simpl; rewrite ?length_app; simpl; try lia.
  - rewrite lookup_app_r by lia. by replace (_ - _)%nat with 0%nat by lia.
  - intros k x Hk1 Hk2. rewrite lookup_app_l by lia. intros Hx.
    destruct (decide (S k < length (history m))%nat); [eauto|].
    replace (pred (length (history m))) with k in * by lia. congruence.
Qed.

End Slot.

(** ** Lemmas on the slot array *)

Section Slots.

Context (C head : Z) (mem : list SlotMemory) (f : Z -> Z).
Context (HC : 0 < C) (Hhead : 0 <= head < C) (Hlen : Z.of_nat (length mem) = C).

Lemma slots_hold_ext g :
  slots_hold C head mem f -> (forall i, 0 <= i < C -> f i = g i) -> slots_hold C head mem g.
Proof. intros H E i Hi. rewrite <- E by done. by apply H. Qed.

Lemma slots_hold_insert i0 m v :
  slots_hold C head mem f -> 0 <= i0 < C -> slot_holds m v ->
  slots_hold C head (<[Z.to_nat ((head + i0) mod C) := m]> mem)
    (fun i => if i =? i0 then v else f i).
Proof.
  intros H Hi0 Hm i Hi.
  pose proof (Z.mod_pos_bound (head + i) C HC). pose proof (Z.mod_pos_bound (head + i0) C HC).
  destruct (Z.eqb_spec i i0) as [->|Hne].
  - exists m. by rewrite list_lookup_insert_eq by lia.
  - destruct (H i Hi) as (m' & Hl & Hm'). exists m'. split; [|done].
    rewrite list_lookup_insert_ne; [done|]. intros E. apply Hne.
    apply Z2Nat.inj in E; [|lia|lia]. symmetry. by apply (mod_offset_inj head i0 i C).
Qed.

Lemma slots_hold_shift :
  slots_hold C head mem f ->
  slots_hold C ((head + 1) mod C) mem (fun i => if i =? C - 1 then f 0 else f (i + 1)).
Proof.
  intros H i Hi. rewrite Zplus_mod_idemp_l.
  destruct (Z.eqb_spec i (C - 1)) as [->|Hne].
  - replace (head + 1 + (C - 1)) with (head + 0 + 1 * C) by lia.
    rewrite Z_mod_plus_full. apply H. lia.
  - replace (head + 1 + i) with (head + (i + 1)) by lia. apply H. lia.
Qed.

End Slots.

(** Updating a slot keeps a property of a slot if the new content has it. *)
Lemma slot_update_keeps (P : SlotMemory -> Prop) (mem : list SlotMemory) i j m m' :
  mem !! j = Some m -> (P m -> P m') ->
  (exists x, mem !! i = Some x /\ P x) ->
  exists x, <[j := m']> mem !! i = Some x /\ P x.
Proof.
  intros Hj HP (x & Hx & Px). destruct (decide (i = j)) as [->|].
  - exists m'. rewrite list_lookup_insert_eq by (by eapply lookup_lt_Some).
    split; [done|]. apply HP. congruence.
  - exists x. by rewrite list_lookup_insert_ne by done.
Qed.

Lemma entry_app_end pending e i :
  0 <= i -> entry (pending ++ [e]) i =
            if i =? Z.of_nat (length pending) then e else entry pending i.
Proof.
  intros Hi. unfold entry. destruct (Z.eqb_spec i (Z.of_nat (length pending))) as [->|].
  - by rewrite Nat2Z.id, lookup_app_r, Nat.sub_diag by lia.
  - destruct (decide (Z.to_nat i < length pending)%nat).
    + by rewrite lookup_app_l by lia.
    + rewrite lookup_app_r by lia. rewrite !(proj2 (lookup_ge_None _ _)); simpl; [done|lia..].
Qed.

Lemma entry_beyond pending i : Z.of_nat (length pending) <= i -> entry pending i = nullptr.
Proof. intros. unfold entry. by rewrite (proj2 (lookup_ge_None _ _)) by lia. Qed.

(** ** The invariant gives each thread its slot *)

Section Invariant.

Context (s : RingState) (pending : list Z) (Hs : ring_invariant s pending).

Lemma logical_head_range : 0 <= logical_head s < rs_capacity s.
Proof.
  destruct Hs. unfold logical_head. destruct (rs_consumer_pc s); try done.
  rewrite ring_next_position_mod by done. apply Z.mod_pos_bound. lia.
Qed.

(** The offset of the producer's slot from the head: the number of pending
    events, or 0 when the ring is full. *)
Definition tail_offset : Z := Z.of_nat (length pending) mod rs_capacity s.

Lemma tail_offset_range : 0 <= tail_offset < rs_capacity s.
Proof. apply Z.mod_pos_bound. destruct Hs; lia. Qed.

Lemma producer_position_offset :
  rs_producer_pc s <> Producer_advance ->
  rs_producer_position s = (logical_head s + tail_offset) mod rs_capacity s.
Proof.
  intros Hpc. destruct Hs. unfold tail_offset. rewrite Zplus_mod_idemp_r, <- ri_tail0.
  unfold logical_tail. by destruct (rs_producer_pc s).
Qed.

Lemma producer_slot_holds :
  rs_producer_pc s <> Producer_advance ->
  exists m, producer_slot s = Some m /\ slot_holds m (entry pending tail_offset).
Proof.
  intros Hpc. unfold producer_slot. rewrite producer_position_offset by done.
  apply (ri_slots _ _ Hs). apply tail_offset_range.
Qed.

Lemma consumer_position_offset :
  (forall e, rs_consumer_pc s <> Consumer_advance e) ->
  rs_consumer_position s = (logical_head s + 0) mod rs_capacity s.
Proof.
  intros Hpc. pose proof logical_head_range. rewrite Z.add_0_r, Z.mod_small by lia.
  unfold logical_head. destruct (rs_consumer_pc s) as [| | |e]; try done.
  by destruct (Hpc e).
Qed.

Lemma consumer_slot_holds :
  (forall e, rs_consumer_pc s <> Consumer_advance e) ->
  exists m, consumer_slot s = Some m /\ slot_holds m (entry pending 0).
Proof.
  intros Hpc. unfold consumer_slot. rewrite consumer_position_offset by done.
  apply (ri_slots _ _ Hs). destruct Hs; lia.
Qed.

(** A null in the producer's slot means the ring has room. *)
Lemma null_means_room :
  entry pending tail_offset = nullptr -> Z.of_nat (length pending) < rs_capacity s.
Proof.
  intros E. destruct Hs. destruct (Z.eq_dec (Z.of_nat (length pending)) (rs_capacity s)) as [Hfull|];
    [|lia].
  unfold tail_offset in E. rewrite Hfull, Z_mod_same_full in E.
  destruct pending as [|e l]; simpl in *; [lia|].
  apply Forall_cons in ri_nonnull0 as [He _]. by destruct He.
Qed.

Lemma tail_offset_room :
  Z.of_nat (length pending) < rs_capacity s -> tail_offset = Z.of_nat (length pending).
Proof. intros. apply Z.mod_small. lia. Qed.

End Invariant.

(** ** The invariant is preserved *)

Lemma ring_invariant_initial C :
  0 < C <= u64_max / 8 -> ring_invariant (ring_initial C) [].
Proof.
  intros HC. constructor; simpl; try done; try lia.
  - rewrite length_replicate. lia.
  - intros i Hi. eexists. split.
    + apply lookup_replicate_2. pose proof (Z.mod_pos_bound (0 + i) C ltac:(lia)). 
      unfold logical_head; simpl. lia.
    + rewrite entry_beyond by (simpl; lia). constructor; simpl; try done; lia.
Qed.

Section Preservation.

Context (s : RingState) (pending : list Z) (Hs : ring_invariant s pending).

(** A load replaces the slot's content by one that holds the same value. *)
Lemma slots_hold_load i m :
  0 <= i < rs_capacity s -> slot_holds m (entry pending i) ->
  slots_hold (rs_capacity s) (logical_head s)
    (<[Z.to_nat ((logical_head s + i) mod rs_capacity s) := m]> (rs_memory s)) (entry pending).
Proof.
  intros Hi Hm. pose proof (logical_head_range s pending Hs). destruct Hs.
  eapply slots_hold_ext.
  - apply slots_hold_insert; [lia|done..].
  - intros j Hj. simpl. by destruct (Z.eqb_spec j i) as [->|].
Qed.

Lemma invariant_enqueue_call e :
  rs_producer_pc s = Producer_idle -> e <> nullptr ->
  ring_invariant (set_producer (Producer_acquire e) s) pending.
Proof.
  intros Hpc He. destruct Hs. unfold logical_tail, logical_head in *. rewrite Hpc in *.
  constructor; simpl; done.
Qed.

Lemma invariant_dequeue_call :
  rs_consumer_pc s = Consumer_idle -> ring_invariant (set_consumer Consumer_acquire s) pending.
Proof.
  intros Hpc. destruct Hs. unfold logical_tail, logical_head in *. rewrite Hpc in *.
  constructor; simpl; done.
Qed.

Lemma invariant_producer_load k m observed :
  forall e, rs_producer_pc s = Producer_acquire e ->
  producer_slot s = Some m -> (producer_view m <= k)%nat -> history m !! k = Some observed ->
  let s1 := set_memory (rs_producer_position s)
              (mkSlotMemory (history m) k (consumer_view m)) s in
  ring_invariant
    (if negb (observed =? nullptr) then respond_enqueue EnqueueResult_full s1
     else set_producer (Producer_publish e) s1) pending.
Proof.
  intros e Hpc Hslot Hk Hread s1.
  assert (Hnadv : rs_producer_pc s <> Producer_advance) by by rewrite Hpc.
  destruct (producer_slot_holds s pending Hs Hnadv) as (m' & Hslot' & Hm).
  assert (m' = m) as -> by congruence. clear Hslot'.
  pose proof (lookup_lt_Some _ _ _ Hread).
  pose proof (slots_hold_load _ _ (tail_offset_range s pending Hs)
                (slot_holds_producer_load m _ Hm k ltac:(lia))) as Hslots.
  rewrite <- (producer_position_offset s pending Hs Hnadv) in Hslots.
  assert (Hroom : observed = nullptr ->
    Z.of_nat (length pending) < rs_capacity s /\ S k = length (history m)).
  { intros ->. destruct (producer_reads_null m _ Hm k Hk Hread) as [? E].
    split; [by apply (null_means_room s)|done]. }
  assert (Hcons : match rs_consumer_pc s with
    | Consumer_release e => pending !! 0%nat = Some e /\
        exists x, consumer_slot s1 = Some x /\ consumer_current x
    | _ => True end).
  { pose proof (ri_consumer_pc _ _ Hs) as Hc. destruct (rs_consumer_pc s); try done.
    destruct Hc as [Hp Hc]. split; [done|].
    by apply (slot_update_keeps consumer_current _ _ _ m). }
  destruct Hs. unfold logical_tail, logical_head in *. rewrite Hpc in *.
  destruct (Z.eqb_spec observed nullptr) as [->|]; simpl.
  - destruct (Hroom eq_refl) as [Hr Hk'].
    constructor; simpl; try done; [by rewrite length_insert|].
    split_and!; [done|done|]. unfold producer_slot; simpl.
    unfold producer_slot in Hslot. rewrite list_lookup_insert_eq by (by eapply lookup_lt_Some).
    by eexists.
  - constructor; simpl; try done; [by rewrite length_insert|].
    unfold accepts in *. rewrite filter_app. by rewrite app_nil_r.
Qed.

Lemma invariant_consumer_load k m event :
  rs_consumer_pc s = Consumer_acquire ->
  consumer_slot s = Some m -> (consumer_view m <= k)%nat -> history m !! k = Some event ->
  let s1 := set_memory (rs_consumer_position s)
              (mkSlotMemory (history m) (producer_view m) k) s in
  ring_invariant
    (if event =? nullptr
     then respond_dequeue (mkDequeueResult DequeueStatus_empty nullptr) s1
     else set_consumer (Consumer_release event) s1) pending.
Proof.
  intros Hpc Hslot Hk Hread s1.
  assert (Hnadv : forall e, rs_consumer_pc s <> Consumer_advance e) by by rewrite Hpc.
  destruct (consumer_slot_holds s pending Hs Hnadv) as (m' & Hslot' & Hm).
  assert (m' = m) as -> by congruence. clear Hslot'.
  pose proof (lookup_lt_Some _ _ _ Hread).
  assert (HC : 0 <= 0 < rs_capacity s) by (destruct Hs; lia).
  pose proof (slots_hold_load _ _ HC
                (slot_holds_consumer_load m _ Hm k ltac:(lia))) as Hslots.
  rewrite <- (consumer_position_offset s pending Hs Hnadv) in Hslots.
  assert (Hitem : event <> nullptr ->
    pending !! 0%nat = Some event /\ S k = length (history m)).
  { intros He. destruct (consumer_reads_event m _ Hm k event Hk Hread He) as [? E].
    split; [|done]. unfold entry in E. simpl in E. destruct pending as [|x l]; simpl in *; congruence. }
  assert (Hprod : match rs_producer_pc s with
    | Producer_acquire e => e <> nullptr
    | Producer_publish e => e <> nullptr /\ Z.of_nat (length pending) < rs_capacity s /\
        exists x, producer_slot s1 = Some x /\ producer_current x
    | _ => True end).
  { pose proof (ri_producer_pc _ _ Hs) as Hc. destruct (rs_producer_pc s); try done.
    destruct Hc as (He & Hp & Hc). split_and!; [done..|].
    by apply (slot_update_keeps producer_current _ _ _ m). }
  destruct Hs. unfold logical_tail, logical_head in *. rewrite Hpc in *.
  destruct (Z.eqb_spec event nullptr) as [->|]; simpl.
  - constructor; simpl; try done; [by rewrite length_insert|].
    unfold delivered in *. rewrite omap_app. simpl. by rewrite !app_nil_r in *.
  - destruct (Hitem ltac:(done)) as [Hi Hk'].
    constructor; simpl; try done; [by rewrite length_insert|].
    split; [done|]. unfold consumer_slot; simpl.
    unfold consumer_slot in Hslot. rewrite list_lookup_insert_eq by (by eapply lookup_lt_Some).
    by eexists.
Qed.

(** A thread that has seen the newest entry can only store behind it. *)
Lemma producer_store_at_end m p :
  producer_current m -> (producer_view m < p)%nat -> (p <= length (history m))%nat ->
  p = length (history m).
Proof. unfold producer_current. lia. Qed.

Lemma consumer_store_at_end m p :
  consumer_current m -> (consumer_view m < p)%nat -> (p <= length (history m))%nat ->
  p = length (history m).
Proof. unfold consumer_current. lia. Qed.

Lemma invariant_producer_store e m :
  rs_producer_pc s = Producer_publish e -> producer_slot s = Some m -> 
  ring_invariant
    (set_producer Producer_advance (log_published e
       (set_memory (rs_producer_position s)
          (store_by_producer (length (history m)) e m) s))) (pending ++ [e]).
Proof.
  intros Hpc Hslot.
  assert (Hnadv : rs_producer_pc s <> Producer_advance) by by rewrite Hpc.
  destruct (producer_slot_holds s pending Hs Hnadv) as (m' & Hslot' & Hm).
  assert (m' = m) as -> by congruence. clear Hslot'.
  pose proof (ri_producer_pc _ _ Hs) as Hp. rewrite Hpc in Hp. destruct Hp as (He & Hroom & _).
  pose proof (logical_head_range s pending Hs) as Hhead.
  pose proof (producer_position_offset s pending Hs Hnadv) as Hpos.
  rewrite (tail_offset_room s pending Hroom) in Hpos, Hm.
  rewrite (entry_beyond pending) in Hm by lia.
  pose proof (slots_hold_insert (rs_capacity s) _ _ _ ltac:(lia) Hhead (ri_length _ _ Hs) _ _ _
                (ri_slots _ _ Hs) (conj (Nat2Z.is_nonneg _) Hroom)
                (slot_holds_producer_store m _ Hm _ e eq_refl eq_refl He)) as Hslots.
  rewrite <- Hpos in Hslots.
  assert (Hcons : forall s1, rs_consumer_position s1 = rs_consumer_position s ->
    rs_memory s1 = <[Z.to_nat (rs_producer_position s) :=
                       store_by_producer (length (history m)) e m]> (rs_memory s) ->
    match rs_consumer_pc s with
    | Consumer_release e0 => (pending ++ [e]) !! 0%nat = Some e0 /\
        exists x, consumer_slot s1 = Some x /\ consumer_current x
    | _ => True end).
  { intros s1 E1 E2. pose proof (ri_consumer_pc _ _ Hs) as Hc.
    pose proof (consumer_position_offset s pending Hs) as Hcpos.
    destruct (rs_consumer_pc s) eqn:Ecpc; try done. destruct Hc as [Hp (x & Hx & Hcur)].
    split; [by rewrite lookup_app_l by (by eapply lookup_lt_Some)|].
    exists x. split; [|done]. unfold consumer_slot in *. rewrite E1, E2, list_lookup_insert_ne; [done|].
    rewrite Hpos, Hcpos by done. intros E.
    assert (0 < Z.of_nat (length pending)) by (apply lookup_lt_Some in Hp; lia).
    apply Z2Nat.inj in E; [|apply Z.mod_pos_bound; lia..].
    apply mod_offset_inj in E; lia. }
  assert (Hext : forall i, 0 <= i < rs_capacity s ->
    (if i =? Z.of_nat (length pending) then e else entry pending i) = entry (pending ++ [e]) i).
  { intros i Hi. by rewrite entry_app_end by lia. }
  pose proof (slots_hold_ext _ _ _ _ _ Hslots Hext) as Hslots'.
  destruct Hs. unfold logical_tail, logical_head in *. rewrite Hpc in *.
  constructor; simpl; try done.
  - by rewrite length_insert.
  - rewrite length_app; simpl; lia.
  - unfold logical_tail, logical_head; simpl.
    rewrite ring_next_position_mod, ri_tail0, Zplus_mod_idemp_l, length_app by done.
    simpl. f_equal. lia.
  - apply Forall_app; auto.
  - by rewrite ri_log0, app_assoc.
  - by apply Hcons.
  - rewrite length_app; simpl. lia.
Qed.

Lemma invariant_consumer_store e m :
  rs_consumer_pc s = Consumer_release e -> consumer_slot s = Some m ->
  exists pending', pending = e :: pending' /\
  ring_invariant
    (set_consumer (Consumer_advance e) (log_taken e
       (set_memory (rs_consumer_position s)
          (store_by_consumer (length (history m)) nullptr m) s))) pending'.
Proof.
  intros Hpc Hslot.
  assert (Hnadv : forall x, rs_consumer_pc s <> Consumer_advance x) by by rewrite Hpc.
  destruct (consumer_slot_holds s pending Hs Hnadv) as (m' & Hslot' & Hm).
  assert (m' = m) as -> by congruence. clear Hslot'.
  pose proof (ri_consumer_pc _ _ Hs) as Hc. rewrite Hpc in Hc. destruct Hc as [Hhd _].
  destruct pending as [|e' l] eqn:Ep; [done|]. injection Hhd as ->.
  exists l. split; [done|]. change (entry (e :: l) 0) with e in Hm.
  pose proof (logical_head_range s (e :: l) Hs) as Hhead.
  pose proof (consumer_position_offset s (e :: l) Hs Hnadv) as Hpos.
  assert (He : e <> nullptr) by (destruct Hs; by inversion ri_nonnull0).
  assert (HC : 0 <= 0 < rs_capacity s) by lia.
  pose proof (slots_hold_insert (rs_capacity s) _ _ _ ltac:(lia) Hhead (ri_length _ _ Hs) _ _ _
                (ri_slots _ _ Hs) HC
                (slot_holds_consumer_store m _ Hm _ eq_refl He)) as Hslots.
  rewrite <- Hpos in Hslots. apply slots_hold_shift in Hslots; [|lia].
  assert (Hext : forall i, 0 <= i < rs_capacity s ->
    (if i =? rs_capacity s - 1 then if 0 =? 0 then nullptr else entry (e :: l) 0
     else if i + 1 =? 0 then nullptr else entry (e :: l) (i + 1)) = entry l i).
  { intros i Hi. pose proof (ri_bound _ _ Hs). simpl in *.
    destruct (Z.eqb_spec i (rs_capacity s - 1)); [by rewrite entry_beyond by lia|].
    rewrite (proj2 (Z.eqb_neq (i + 1) 0)) by lia. unfold entry.
    by replace (Z.to_nat (i + 1)) with (S (Z.to_nat i)) by lia. }
  pose proof (slots_hold_ext _ _ _ _ _ Hslots Hext) as Hslots'.
  assert (Hprod : forall s1, rs_producer_position s1 = rs_producer_position s ->
    rs_memory s1 = <[Z.to_nat (rs_consumer_position s) :=
                       store_by_consumer (length (history m)) nullptr m]> (rs_memory s) ->
    match rs_producer_pc s with
    | Producer_acquire e => e <> nullptr
    | Producer_publish e => e <> nullptr /\ Z.of_nat (length l) < rs_capacity s /\
        exists x, producer_slot s1 = Some x /\ producer_current x
    | _ => True end).
  { intros s1 E1 E2. pose proof (ri_producer_pc _ _ Hs) as Hp.
    pose proof (producer_position_offset s (e :: l) Hs) as Hppos.
    destruct (rs_producer_pc s) eqn:Eppc; try done.
    destruct Hp as (He0 & Hroom & x & Hx & Hcur). simpl in Hroom.
    split_and!; [done|lia|]. exists x. split; [|done].
    unfold producer_slot in *. rewrite E1, E2, list_lookup_insert_ne; [done|].
    rewrite Hpos, Hppos, tail_offset_room by (simpl; first [done|lia]). intros E. simpl in E.
    apply Z2Nat.inj in E; [|apply Z.mod_pos_bound; lia..].
    apply mod_offset_inj in E; lia. }
  destruct Hs. unfold logical_tail, logical_head in *. rewrite Hpc in *.
  simpl in ri_bound0. apply Forall_cons in ri_nonnull0 as [_ Hnn].
  constructor; simpl; try done.
  - by rewrite length_insert.
  - lia.
  - unfold logical_tail, logical_head; simpl.
    rewrite (ring_next_position_mod _ (rs_consumer_position s)), Zplus_mod_idemp_l by done.
    rewrite ri_tail0. f_equal. simpl. lia.
  - unfold logical_head; simpl. by rewrite ring_next_position_mod by done.
  - by rewrite ri_log0, <- app_assoc.
  - by apply Hprod.
  - rewrite app_nil_r in ri_delivered0. by rewrite ri_delivered0.
Qed.

Lemma invariant_producer_advance :
  rs_producer_pc s = Producer_advance ->
  ring_invariant (respond_enqueue EnqueueResult_accepted (move_producer s)) pending.
Proof.
  intros Hpc. destruct Hs. unfold logical_tail, logical_head in *. rewrite Hpc in *.
  constructor; simpl; try done.
  - rewrite ring_next_position_mod by done. apply Z.mod_pos_bound. lia.
  - unfold accepts in *. rewrite filter_app, length_app. simpl. lia.
Qed.

Lemma invariant_consumer_advance e :
  rs_consumer_pc s = Consumer_advance e ->
  ring_invariant (respond_dequeue (mkDequeueResult DequeueStatus_item e) (move_consumer s)) pending.
Proof.
  intros Hpc. destruct Hs. unfold logical_tail, logical_head in *. rewrite Hpc in *.
  constructor; simpl; try done.
  - rewrite ring_next_position_mod by done. apply Z.mod_pos_bound. lia.
  - unfold delivered in *. rewrite omap_app. simpl. by rewrite app_nil_r.
Qed.

End Preservation.

(** Every step preserves the invariant, and a store is always placed at the
    end of its slot's modification order. *)
Lemma ring_step_invariant s s' pending label :
  ring_invariant s pending -> ring_step label s = Some s' ->
  exists pending', ring_invariant s' pending'.
Proof.
  intros Hs Hstep.
  pose proof (ri_producer_pc _ _ Hs) as Hp. pose proof (ri_consumer_pc _ _ Hs) as Hc.
  destruct label; simpl in Hstep;
    first [destruct (rs_producer_pc s) eqn:Hpc; try done; []
          |destruct (rs_consumer_pc s) eqn:Hpc; try done; []].
  - destruct (Z.eqb_spec e nullptr); [done|]. injection Hstep as <-.
    exists pending. by apply invariant_enqueue_call.
  - destruct (producer_slot s) as [m|] eqn:Hslot; [simpl in Hstep|done].
    destruct (Nat.leb_spec (producer_view m) k); [|done].
    destruct (history m !! k) as [observed|] eqn:Hread; [simpl in Hstep|done].
    exists pending. pose proof (invariant_producer_load s pending Hs k m observed e Hpc Hslot H Hread) as Hi.
    destruct (negb (observed =? nullptr)); injection Hstep as <-; exact Hi.
  - destruct (producer_slot s) as [m|] eqn:Hslot; [simpl in Hstep|done].
    destruct Hp as (_ & _ & x & [= <-] & Hcur).
    destruct (Nat.ltb_spec (producer_view m) p); [|done].
    destruct (Nat.leb_spec p (length (history m))); [|done]. injection Hstep as <-.
    rewrite (producer_store_at_end m p) by done.
    exists (pending ++ [e]). by apply invariant_producer_store.
  - injection Hstep as <-. exists pending. by apply invariant_producer_advance.
  - injection Hstep as <-. exists pending. by apply invariant_dequeue_call.
  - destruct (consumer_slot s) as [m|] eqn:Hslot; [simpl in Hstep|done].
    destruct (Nat.leb_spec (consumer_view m) k); [|done].
    destruct (history m !! k) as [event|] eqn:Hread; [simpl in Hstep|done].
    exists pending. pose proof (invariant_consumer_load s pending Hs k m event Hpc Hslot H Hread) as Hi.
    destruct (event =? nullptr); injection Hstep as <-; exact Hi.
  - destruct (consumer_slot s) as [m|] eqn:Hslot; [simpl in Hstep|done].
    destruct Hc as (_ & x & [= <-] & Hcur).
    destruct (Nat.ltb_spec (consumer_view m) p); [|done].
    destruct (Nat.leb_spec p (length (history m))); [|done]. injection Hstep as <-.
    rewrite (consumer_store_at_end m p) by done.
    destruct (invariant_consumer_store s pending Hs e m Hpc Hslot) as (l & -> & Hi).
    exists l. exact Hi.
  - injection Hstep as <-. exists pending. by apply invariant_consumer_advance.
Qed.

Lemma ring_reachable_invariant C s :
  0 < C <= u64_max / 8 -> ring_reachable C s -> exists pending, ring_invariant s pending.
Proof.
  intros HC. induction 1 as [|s s' label _ [pending IH] Hstep].
  - exists []. by apply ring_invariant_initial.
  - by eapply ring_step_invariant.
Qed.

Lemma ring_reachable_capacity C s : ring_reachable C s -> rs_capacity s = C.
Proof.
  induction 1 as [|s s' label _ IH Hstep]; [done|]. rewrite <- IH. clear IH.
  destruct label; cbn in Hstep; repeat case_match; simplify_option_eq; try done;
    repeat case_match; by simplify_eq.
Qed.

Lemma run_labels_reachable C labels s s' :
  ring_reachable C s -> run_labels labels s = Some s' -> ring_reachable C s'.
Proof.
  revert s. induction labels as [|label labels IH]; intros s Hs Hrun; simpl in Hrun.
  - by injection Hrun as <-.
  - destruct (ring_step label s) as [s1|] eqn:E; [simpl in Hrun|done].
    eapply IH; [|done]. by eapply ring_reach_step.
Qed.

(** ** Properties *)

(** C8. In every interleaving, and for every choice of the stale values the
    memory model lets a load return, the ring is a FIFO: the events delivered
    so far, followed by those still inside, are the events published, in
    order; at most [capacity] are inside; the number of accepted attempts and
    the delivered events are exactly what the two threads' logs record. *)
Theorem ring_concurrent_fifo C s :
  0 < C <= u64_max / 8 -> ring_reachable C s ->
  exists pending,
    rs_published s = rs_taken s ++ pending /\
    Z.of_nat (length pending) <= C /\
    (rs_producer_pc s <> Producer_advance ->
     length (accepts (rs_enqueue_results s)) = length (rs_published s)) /\
    ((forall e, rs_consumer_pc s <> Consumer_advance e) ->
     delivered (rs_dequeue_results s) = rs_taken s).
Proof.
  intros HC Hreach. destruct (ring_reachable_invariant C s HC Hreach) as [pending Hs].
  pose proof (ring_reachable_capacity C s Hreach) as Hcap. destruct Hs.
  exists pending. split_and!; [done|lia|..].
  - intros Hpc. destruct (rs_producer_pc s); try done; lia.
  - intros Hpc. destruct (rs_consumer_pc s) as [| | |e]; try by rewrite app_nil_r in *.
    by destruct (Hpc e).
Qed.

(** A schedule in which the consumer reads a stale null after the producer
    has published, and later takes the event. *)
Definition stale_read_schedule : list RingLabel :=
  [Label_enqueue 7; Label_producer_load 0; Label_producer_store 1; Label_producer_advance;
   Label_dequeue; Label_consumer_load 0;
   Label_dequeue; Label_consumer_load 1; Label_consumer_store 2; Label_consumer_advance].

Lemma ring_concurrent_fifo_witness :
  exists s, run_labels stale_read_schedule (ring_initial 2) = Some s /\
    (exists pending, rs_published s = rs_taken s ++ pending) /\
    delivered (rs_dequeue_results s) = [7] /\ length (rs_dequeue_results s) = 2%nat.
Proof.
  eexists. split; [vm_compute; reflexivity|]. split; [|split; reflexivity].
  edestruct (ring_concurrent_fifo 2) as (pending & E & _).
  - vm_compute. split; [reflexivity | discriminate].
  - apply (run_labels_reachable 2 stale_read_schedule (ring_initial 2));
      [apply ring_reach_init | vm_compute; reflexivity].
  - exists pending. exact E.
Defined.

(** Responses are justified under every interleaving: when the producer
    is about to publish, the slot's newest entry is null and fewer than
    [capacity] events are inside, so the store overwrites no event; when the
    consumer is about to release, the event it read is the oldest one inside,
    so the release erases nothing else. Both stores can only go to the end
    of the slot's modification order. *)
Theorem ring_concurrent_no_overwrite C s :
  0 < C <= u64_max / 8 -> ring_reachable C s ->
  exists pending, rs_published s = rs_taken s ++ pending /\
    (forall e, rs_producer_pc s = Producer_publish e ->
       Z.of_nat (length pending) < C /\
       exists m, producer_slot s = Some m /\ last (history m) = Some nullptr /\
         forall p s', ring_step (Label_producer_store p) s = Some s' -> p = length (history m)) /\
    (forall e, rs_consumer_pc s = Consumer_release e ->
       head pending = Some e /\
       exists m, consumer_slot s = Some m /\ last (history m) = Some e /\
         forall p s', ring_step (Label_consumer_store p) s = Some s' -> p = length (history m)).
Proof.
  intros HC Hreach. destruct (ring_reachable_invariant C s HC Hreach) as [pending Hs].
  pose proof (ring_reachable_capacity C s Hreach) as Hcap.
  exists pending. split; [by destruct Hs|]. split; intros e Hpc.
  - pose proof (ri_producer_pc _ _ Hs) as Hp. rewrite Hpc in Hp.
    destruct Hp as (_ & Hroom & m & Hslot & Hcur). split; [lia|]. exists m. split; [done|].
    destruct (producer_slot_holds s pending Hs) as (m' & Hslot' & Hm); [by rewrite Hpc|].
    assert (m' = m) as -> by congruence. split.
    + rewrite last_lookup, (sh_last _ _ Hm), tail_offset_room by done. by rewrite entry_beyond by lia.
    + intros p s' Hstep. simpl in Hstep. rewrite Hpc, Hslot in Hstep. simpl in Hstep.
      destruct (Nat.ltb_spec (producer_view m) p); [|done].
      destruct (Nat.leb_spec p (length (history m))); [|done]. by apply producer_store_at_end.
  - pose proof (ri_consumer_pc _ _ Hs) as Hp. rewrite Hpc in Hp.
    destruct Hp as (Hhd & m & Hslot & Hcur).
    split; [by destruct pending|]. exists m. split; [done|].
    destruct (consumer_slot_holds s pending Hs) as (m' & Hslot' & Hm); [by rewrite Hpc|].
    assert (m' = m) as -> by congruence. split.
    + rewrite last_lookup, (sh_last _ _ Hm). f_equal. destruct pending as [|x l]; [done|]. by injection Hhd.
    + intros p s' Hstep. simpl in Hstep. rewrite Hpc, Hslot in Hstep. simpl in Hstep.
      destruct (Nat.ltb_spec (consumer_view m) p); [|done].
      destruct (Nat.leb_spec p (length (history m))); [|done]. by apply consumer_store_at_end.
Qed.

Lemma ring_concurrent_no_overwrite_witness :
  exists s, run_labels [Label_enqueue 7; Label_producer_load 0] (ring_initial 2) = Some s /\
    rs_producer_pc s = Producer_publish 7 /\
    exists m, producer_slot s = Some m /\ last (history m) = Some nullptr.
Proof.
  eexists. split; [vm_compute; reflexivity|]. split; [reflexivity|].
  edestruct (ring_concurrent_no_overwrite 2) as (pending & _ & H & _).
  - vm_compute. split; [reflexivity | discriminate].
  - apply (run_labels_reachable 2 [Label_enqueue 7; Label_producer_load 0] (ring_initial 2));
      [apply ring_reach_init | vm_compute; reflexivity].
  - destruct (H 7 eq_refl) as (_ & m & E1 & E2 & _). exists m. split; assumption.
Defined.
