(* ===== verification/LinkedSpsc.v ===== *)
(** * The linked queue with its node recycler

    Models [include/cpu_prefetch/queue/linked_spsc.hpp] and
    [src/queue/linked_spsc.cpp]: the arena of [capacity + 1] nodes, the chain
    from the consumer's sentinel to the producer's tail, and the bounded
    recycler through which detached nodes return to the producer. A node
    pointer is its address, the arena a finite map from addresses to nodes. *)

From stdpp Require Import prelude list strings gmap.
From Stdlib Require Import ZArith Lia.
From S2P Require Import Prelude QueueCommon QueueSpec RingSpsc.

#[local] Open Scope Z_scope.
#[local] Open Scope checked_scope.

Record Node : Type := mkNode {
  node_next : Z;
  node_event : Z;
  node_arena_index : Z
}.

(** [sizeof(Node)] and [sizeof(RecyclerSlot)] of the x86-64 ABI. *)
Definition sizeof_Node : Z := 24.

Definition sizeof_RecyclerSlot : Z := 8.

Record LinkedSpscQueue : Type := mkLinked {
  linked_capacity : Z;
  linked_cache_line_bytes : Z;
  node_stride_bytes : Z;
  node_arena_alignment_bytes : Z;
  node_storage_data : Z;
  node_storage_size : Z;
  recycler_storage_size : Z;
  ownership_storage_size : Z;
  node_arena : gmap Z Node;
  recycler_slots : list Z;
  producer_tail : Z;
  consumer_head : Z;
  recycler_producer_position : Z;
  recycler_consumer_position : Z
}.

Definition set_arena (a : gmap Z Node) (q : LinkedSpscQueue) : LinkedSpscQueue :=
  mkLinked (linked_capacity q) (linked_cache_line_bytes q) (node_stride_bytes q)
    (node_arena_alignment_bytes q) (node_storage_data q) (node_storage_size q)
    (recycler_storage_size q) (ownership_storage_size q) a (recycler_slots q)
    (producer_tail q) (consumer_head q) (recycler_producer_position q)
    (recycler_consumer_position q).

Definition set_recycler (slots : list Z) (producer consumer : Z) (q : LinkedSpscQueue)
  : LinkedSpscQueue :=
  mkLinked (linked_capacity q) (linked_cache_line_bytes q) (node_stride_bytes q)
    (node_arena_alignment_bytes q) (node_storage_data q) (node_storage_size q)
    (recycler_storage_size q) (ownership_storage_size q) (node_arena q) slots
    (producer_tail q) (consumer_head q) producer consumer.

Definition set_tail (tail : Z) (q : LinkedSpscQueue) : LinkedSpscQueue :=
  mkLinked (linked_capacity q) (linked_cache_line_bytes q) (node_stride_bytes q)
    (node_arena_alignment_bytes q) (node_storage_data q) (node_storage_size q)
    (recycler_storage_size q) (ownership_storage_size q) (node_arena q) (recycler_slots q)
    tail (consumer_head q) (recycler_producer_position q) (recycler_consumer_position q).

Definition set_head (head : Z) (q : LinkedSpscQueue) : LinkedSpscQueue :=
  mkLinked (linked_capacity q) (linked_cache_line_bytes q) (node_stride_bytes q)
    (node_arena_alignment_bytes q) (node_storage_data q) (node_storage_size q)
    (recycler_storage_size q) (ownership_storage_size q) (node_arena q) (recycler_slots q)
    (producer_tail q) head (recycler_producer_position q) (recycler_consumer_position q).

(** [node_at]: address arithmetic of the arena. *)
Definition node_at (base stride index : Z) : Z := base + index * stride.

(** Field accesses through a node pointer. *)
Definition load_next (q : LinkedSpscQueue) (p : Z) : Z :=
  default nullptr (node_next <$> node_arena q !! p).

Definition load_event (q : LinkedSpscQueue) (p : Z) : Z :=
  default nullptr (node_event <$> node_arena q !! p).

Definition store_next (p v : Z) (q : LinkedSpscQueue) : LinkedSpscQueue :=
  set_arena (alter (fun n => mkNode v (node_event n) (node_arena_index n)) p (node_arena q)) q.

Definition store_event (p v : Z) (q : LinkedSpscQueue) : LinkedSpscQueue :=
  set_arena (alter (fun n => mkNode (node_next n) v (node_arena_index n)) p (node_arena q)) q.

Definition recycler_load (i : Z) (q : LinkedSpscQueue) : Z :=
  default nullptr (recycler_slots q !! Z.to_nat i).

(** ** Construction *)

(** The [seen] loop of the constructor: every index in range, none twice. *)
Fixpoint permutation_scan (node_count : Z) (seen : gset Z) (order : list Z) : bool :=
  match order with
  | [] => true
  | index :: order =>
      if (index >=? node_count) || bool_decide (index ∈ seen) then false
      else permutation_scan node_count ({[index]} ∪ seen) order
  end.

Definition construct_nodes (base stride : Z) (node_count : Z) : gmap Z Node :=
  list_to_map ((fun i => (node_at base stride (Z.of_nat i), mkNode nullptr nullptr (Z.of_nat i)))
                 <$> seq 0 (Z.to_nat node_count)).

(** [data] is the address the allocator returns for the node storage. *)
Definition LinkedSpscQueue_make (data : Z) (capacity cache_line_bytes arena_alignment_bytes : Z)
    (node_order : list Z) : Throws LinkedSpscQueue :=
  let! _ := validate_cache_line_bytes cache_line_bytes in
  let! _ := validate_cache_line_bytes arena_alignment_bytes in
  throw_if (arena_alignment_bytes <? cache_line_bytes)
    "linked node-arena alignment must be at least the cache-line size" ;;
  throw_if (capacity =? 0) "linked capacity must be nonzero" ;;
  let! node_count := queue_checked_add capacity 1 in
  throw_if (negb (Z.of_nat (length node_order) =? node_count))
    "linked node order must contain capacity plus one nodes" ;;
  throw_if (negb (permutation_scan node_count ∅ node_order))
    "linked node order must be a permutation" ;;
  let! stride := queue_round_up sizeof_Node cache_line_bytes in
  let! node_bytes := queue_checked_multiply node_count stride in
  let! recycler_bytes := queue_checked_multiply capacity sizeof_RecyclerSlot in
  let! ownership_bytes := queue_checked_multiply 4 cache_line_bytes in
  let sentinel := node_at data stride (default 0 (head node_order)) in
  Returned (mkLinked capacity cache_line_bytes stride arena_alignment_bytes data
              node_bytes recycler_bytes ownership_bytes
              (construct_nodes data stride node_count)
              (node_at data stride <$> tail node_order)
              sentinel sentinel 0 0).

(** ** Operations with observers *)

Record LinkedEnqueueObserver (O : Type) : Type := mkLinkedEnqueueObserver {
  leo_after_recycler_obtain : O -> O;
  leo_before_enqueue_publication : O -> bool * O
}.
Arguments leo_after_recycler_obtain {O} _ _.
Arguments leo_before_enqueue_publication {O} _ _.

Record LinkedDequeueObserver (O : Type) : Type := mkLinkedDequeueObserver {
  ldo_after_dequeue_observation : O -> bool * O;
  ldo_successor_header : Z -> O -> O;
  ldo_before_recycler_return : O -> O
}.
Arguments ldo_after_dequeue_observation {O} _ _.
Arguments ldo_successor_header {O} _ _ _.
Arguments ldo_before_recycler_return {O} _ _.

Definition linked_next_position (q : LinkedSpscQueue) (position : Z) : Z :=
  ring_next_position (linked_capacity q) position.

Definition linked_try_enqueue_observed {O : Type} (obs : LinkedEnqueueObserver O) (event : Z)
    (q : LinkedSpscQueue) (o : O) : LinkedSpscQueue * O * BoundaryEnqueueResult :=
  let recycler_position := recycler_consumer_position q in
  let node := recycler_load recycler_position q in
  if node =? nullptr then
    (q, o, mkBoundaryEnqueueResult BoundaryCaptureStatus_complete EnqueueResult_full)
  else
    let q := set_recycler (<[Z.to_nat recycler_position := nullptr]> (recycler_slots q))
               (recycler_producer_position q)
               (linked_next_position q recycler_position) q in
    let o := leo_after_recycler_obtain obs o in
    let q := store_event node event q in
    let q := store_next node nullptr q in
    let '(captured, o) := leo_before_enqueue_publication obs o in
    if negb captured then
      (q, o, mkBoundaryEnqueueResult BoundaryCaptureStatus_capture_failed EnqueueResult_full)
    else
      let q := store_next (producer_tail q) node q in
      let q := set_tail node q in
      (q, o, mkBoundaryEnqueueResult BoundaryCaptureStatus_complete EnqueueResult_accepted).

Definition linked_try_dequeue_observed {O : Type} (obs : LinkedDequeueObserver O)
    (q : LinkedSpscQueue) (o : O) : LinkedSpscQueue * O * BoundaryDequeueResult :=
  let old_sentinel := consumer_head q in
  let successor := load_next q old_sentinel in
  if successor =? nullptr then
    (q, o, mkBoundaryDequeueResult BoundaryCaptureStatus_complete
             (mkDequeueResult DequeueStatus_empty nullptr))
  else
    let '(captured, o) := ldo_after_dequeue_observation obs o in
    if negb captured then
      (q, o, mkBoundaryDequeueResult BoundaryCaptureStatus_capture_failed
               (mkDequeueResult DequeueStatus_empty nullptr))
    else
      let o := ldo_successor_header obs successor o in
      let recycler_position := recycler_producer_position q in
      if negb (recycler_load recycler_position q =? nullptr) then
        (q, o, mkBoundaryDequeueResult BoundaryCaptureStatus_complete
                 (mkDequeueResult DequeueStatus_recycler_invariant_failure nullptr))
      else
        let event := load_event q successor in
        let o := ldo_before_recycler_return obs o in
        let q := set_head successor q in
        let q := set_recycler
                   (<[Z.to_nat recycler_position := old_sentinel]> (recycler_slots q))
                   (linked_next_position q recycler_position)
                   (recycler_consumer_position q) q in
        (q, o, mkBoundaryDequeueResult BoundaryCaptureStatus_complete
                 (mkDequeueResult DequeueStatus_item event)).

Definition linked_noop_enqueue : LinkedEnqueueObserver unit :=
  mkLinkedEnqueueObserver unit id (fun o => (true, o)).

Definition linked_noop_dequeue : LinkedDequeueObserver unit :=
  mkLinkedDequeueObserver unit (fun o => (true, o)) (fun _ => id) id.

Definition linked_try_enqueue (event : Z) (q : LinkedSpscQueue)
  : LinkedSpscQueue * EnqueueResult :=
  let '(q, _, r) := linked_try_enqueue_observed linked_noop_enqueue event q tt in
  (q, ber_result r).

Definition linked_try_dequeue (q : LinkedSpscQueue) : LinkedSpscQueue * DequeueResult :=
  let '(q, _, r) := linked_try_dequeue_observed linked_noop_dequeue q tt in
  (q, bdr_result r).

Definition linked_try_dequeue_with_successor_prefetch {O : Type}
    (successor_header : Z -> O -> O) (q : LinkedSpscQueue) (o : O)
    : LinkedSpscQueue * O * DequeueResult :=
  let '(q, o, r) := linked_try_dequeue_observed
    (mkLinkedDequeueObserver O (fun o => (true, o)) successor_header id) q o in
  (q, o, bdr_result r).

Definition linked_try_enqueue_with_boundary_observer {O : Type}
    (before_enqueue_publication : O -> bool * O) (event : Z) (q : LinkedSpscQueue) (o : O)
    : LinkedSpscQueue * O * BoundaryEnqueueResult :=
  linked_try_enqueue_observed
    (mkLinkedEnqueueObserver O id before_enqueue_publication) event q o.

Definition linked_try_dequeue_with_boundary_observer {O : Type}
    (after_dequeue_observation : O -> bool * O) (successor_header : Z -> O -> O)
    (q : LinkedSpscQueue) (o : O) : LinkedSpscQueue * O * BoundaryDequeueResult :=
  linked_try_dequeue_observed
    (mkLinkedDequeueObserver O after_dequeue_observation successor_header id) q o.

#[export] Instance linked_spsc : SpscQueue LinkedSpscQueue := {
  spsc_capacity := linked_capacity;
  spsc_try_enqueue := linked_try_enqueue;
  spsc_try_dequeue := linked_try_dequeue
}.

(** ** The quiescent audit *)

Record LinkedQuiescentAudit : Type := mkLinkedQuiescentAudit {
  reachable_nodes : Z;
  queued_events : Z;
  recycler_nodes : Z;
  reachable_order : list Z;
  recycler_order : list Z;
  chain_acyclic : bool;
  tail_reachable : bool;
  every_node_owned_once : bool;
  recycler_fifo_shape : bool;
  linked_positions_in_range : bool
}.

Definition index_of (q : LinkedSpscQueue) (node : Z) : option Z :=
  if node <? node_storage_data q then None
  else
    let offset := node - node_storage_data q in
    if negb (offset mod node_stride_bytes q =? 0) then None
    else
      let index := offset / node_stride_bytes q in
      if index >? linked_capacity q then None else Some index.

(** State of the chain walk: owned indices, visited order, flags. *)
Record ChainWalk : Type := mkChainWalk {
  cw_owned : gset Z;
  cw_order : list Z;
  cw_acyclic : bool;
  cw_tail_reachable : bool
}.

(** The [while] loop over the chain. Each iteration that continues marks a new
    index of at most [capacity + 1], so [capacity + 2] iterations suffice. *)
Fixpoint audit_chain (fuel : nat) (q : LinkedSpscQueue) (current : Z) (w : ChainWalk)
  : ChainWalk :=
  match fuel with
  | O => w
  | S fuel =>
      if current =? nullptr then w
      else
        match index_of q current with
        | Some index =>
            if bool_decide (index ∈ cw_owned w) then
              mkChainWalk (cw_owned w) (cw_order w) false (cw_tail_reachable w)
            else
              audit_chain fuel q (load_next q current)
                (mkChainWalk ({[index]} ∪ cw_owned w) (cw_order w ++ [index]) (cw_acyclic w)
                   (cw_tail_reachable w || (current =? producer_tail q)))
        | None => mkChainWalk (cw_owned w) (cw_order w) false (cw_tail_reachable w)
        end
  end.

Record RecyclerScan : Type := mkRecyclerScan {
  sc_owned : gset Z;
  sc_order : list Z;
  sc_encountered_empty : bool;
  sc_fifo_shape : bool;
  sc_owned_once : bool
}.

(** One iteration of the recycler loop, at [offset] from the consumer. *)
Definition audit_recycler_step (q : LinkedSpscQueue) (w : RecyclerScan) (offset : Z)
  : RecyclerScan :=
  let position := u64_add (recycler_consumer_position q) offset mod linked_capacity q in
  let node := recycler_load position q in
  if node =? nullptr then
    mkRecyclerScan (sc_owned w) (sc_order w) true (sc_fifo_shape w) (sc_owned_once w)
  else
    let fifo := if sc_encountered_empty w then false else sc_fifo_shape w in
    match index_of q node with
    | Some index =>
        if bool_decide (index ∈ sc_owned w) then
          mkRecyclerScan (sc_owned w) (sc_order w) (sc_encountered_empty w) fifo false
        else
          mkRecyclerScan ({[index]} ∪ sc_owned w) (sc_order w ++ [index])
            (sc_encountered_empty w) fifo (sc_owned_once w)
    | None => mkRecyclerScan (sc_owned w) (sc_order w) (sc_encountered_empty w) fifo false
    end.

Definition linked_audit_quiescent (q : LinkedSpscQueue) : LinkedQuiescentAudit :=
  let node_count := linked_capacity q + 1 in
  let walk := audit_chain (S (S (Z.to_nat (linked_capacity q)))) q (consumer_head q)
                (mkChainWalk ∅ [] true false) in
  let scan := fold_left (audit_recycler_step q)
                (Z.of_nat <$> seq 0 (Z.to_nat (linked_capacity q)))
                (mkRecyclerScan (cw_owned walk) [] false true (cw_acyclic walk)) in
  let all_owned := forallb (fun i => bool_decide (Z.of_nat i ∈ sc_owned scan))
                     (seq 0 (Z.to_nat node_count)) in
  let reachable := Z.of_nat (length (cw_order walk)) in
  mkLinkedQuiescentAudit reachable
    (if reachable =? 0 then 0 else reachable - 1)
    (Z.of_nat (length (sc_order scan)))
    (cw_order walk) (sc_order scan)
    (cw_acyclic walk) (cw_tail_reachable walk)
    (sc_owned_once scan && all_owned)
    (sc_fifo_shape scan)
    ((recycler_producer_position q <? linked_capacity q) &&
     (recycler_consumer_position q <? linked_capacity q)).

(** ** The representation invariant *)

Definition arena_next (a : gmap Z Node) (p : Z) : Z := default nullptr (node_next <$> a !! p).

Definition arena_event (a : gmap Z Node) (p : Z) : Z := default nullptr (node_event <$> a !! p).

(** The recycler is a ring whose events are free nodes. *)
Definition recycler_view (q : LinkedSpscQueue) : RingSpscQueue :=
  mkRing (linked_capacity q) (linked_cache_line_bytes q) 0 0 (recycler_slots q)
    (recycler_producer_position q) (recycler_consumer_position q).

(** [rest] is the chain of successors of node [p]. *)
Fixpoint chain_links (a : gmap Z Node) (p : Z) (rest : list Z) : Prop :=
  match rest with
  | [] => arena_next a p = nullptr
  | n :: rest => arena_next a p = n /\ chain_links a n rest
  end.

Definition all_nodes (q : LinkedSpscQueue) : list Z :=
  (fun i => node_at (node_storage_data q) (node_stride_bytes q) (Z.of_nat i))
    <$> seq 0 (S (Z.to_nat (linked_capacity q))).

(** The sentinel, the queued nodes [rest], the free nodes of the recycler and
    the nodes [lost] to failed publications are together all the nodes. *)
Record linked_shape (q : LinkedSpscQueue) (rest free lost : list Z) : Prop := mk_linked_shape {
  ls_recycler : ring_repr (recycler_view q) free;
  ls_base : 0 < node_storage_data q;
  ls_stride : 0 < node_stride_bytes q;
  ls_nodes : consumer_head q :: rest ++ free ++ lost ≡ₚ all_nodes q;
  ls_arena p : p ∈ all_nodes q -> is_Some (node_arena q !! p);
  ls_links : chain_links (node_arena q) (consumer_head q) rest;
  ls_tail : last (consumer_head q :: rest) = Some (producer_tail q)
}.

Definition linked_repr (lost : nat) (q : LinkedSpscQueue) (l : list Z) : Prop :=
  exists rest free lost_nodes, length lost_nodes = lost /\
    linked_shape q rest free lost_nodes /\ load_event q <$> rest = l.

(** ** Lemmas on the arena *)

Section Arena.

Context (a : gmap Z Node).

Lemma arena_next_alter_event p p' v :
  arena_next (alter (fun n => mkNode (node_next n) v (node_arena_index n)) p a) p' =
  arena_next a p'.
Proof.
  unfold arena_next. destruct (decide (p' = p)) as [->|].
  - rewrite lookup_alter_eq. by destruct (a !! p).
  - by rewrite lookup_alter_ne by done.
Qed.

Lemma arena_event_alter_next p p' v :
  arena_event (alter (fun n => mkNode v (node_event n) (node_arena_index n)) p a) p' =
  arena_event a p'.
Proof.
  unfold arena_event. destruct (decide (p' = p)) as [->|].
  - rewrite lookup_alter_eq. by destruct (a !! p).
  - by rewrite lookup_alter_ne by done.
Qed.

Lemma arena_next_alter_next p p' v :
  is_Some (a !! p) ->
  arena_next (alter (fun n => mkNode v (node_event n) (node_arena_index n)) p a) p' =
  if decide (p' = p) then v else arena_next a p'.
Proof.
  intros [n Hn]. unfold arena_next. destruct (decide (p' = p)) as [->|].
  - by rewrite lookup_alter_eq, Hn.
  - by rewrite lookup_alter_ne by done.
Qed.

Lemma arena_event_alter_event p p' v :
  is_Some (a !! p) ->
  arena_event (alter (fun n => mkNode (node_next n) v (node_arena_index n)) p a) p' =
  if decide (p' = p) then v else arena_event a p'.
Proof.
  intros [n Hn]. unfold arena_event. destruct (decide (p' = p)) as [->|].
  - by rewrite lookup_alter_eq, Hn.
  - by rewrite lookup_alter_ne by done.
Qed.

Lemma is_Some_alter (f : Node -> Node) p p' : is_Some (a !! p') -> is_Some (alter f p a !! p').
Proof.
  intros [n Hn]. destruct (decide (p' = p)) as [->|].
  - rewrite lookup_alter_eq, Hn. by eexists.
  - rewrite lookup_alter_ne by done. by eexists.
Qed.

End Arena.

Lemma chain_links_ext a a' p rest :
  (forall x, x ∈ p :: rest -> arena_next a' x = arena_next a x) ->
  chain_links a p rest -> chain_links a' p rest.
Proof.
  revert p. induction rest as [|n rest IH]; intros p Hext; simpl.
  - intros <-. apply Hext. left.
  - intros [E Hl]. split.
    + rewrite Hext; [done|left].
    + apply IH; [|done]. intros x Hx. apply Hext. by right.
Qed.

Lemma chain_links_snoc a p rest t n :
  chain_links a p rest -> last (p :: rest) = Some t -> NoDup (p :: rest) ->
  n ∉ p :: rest -> is_Some (a !! t) -> arena_next a n = nullptr ->
  chain_links (alter (fun x => mkNode n (node_event x) (node_arena_index x)) t a) p (rest ++ [n]).
Proof.
  intros Hl Hlast Hnd Hn Ht Hnull.
  assert (Htin : forall p, last (p :: rest) = Some t -> t ∈ p :: rest).
  { intros p' H. rewrite last_lookup in H. by eapply list_elem_of_lookup_2. }
  assert (n <> t) by (intros ->; by apply Hn, Htin).
  revert p Hl Hlast Hnd Hn Htin. induction rest as [|m rest IH]; intros p Hl Hlast Hnd Hn Htin; simpl.
  - simpl in Hlast. injection Hlast as ->. rewrite !arena_next_alter_next by done.
    rewrite decide_True by done. by rewrite decide_False by done.
  - destruct Hl as [E Hl]. apply NoDup_cons in Hnd as [Hp Hnd].
    assert (Htm : last (m :: rest) = Some t) by done.
    rewrite arena_next_alter_next by done. split.
    + rewrite decide_False; [done|]. intros ->. apply Hp.
      rewrite last_lookup in Htm. by eapply list_elem_of_lookup_2.
    + apply IH; try done.
      * intros Hin. apply Hn. by right.
      * intros p' Hp'. rewrite last_lookup in Hp'. by eapply list_elem_of_lookup_2.
Qed.

Lemma node_at_inj base stride i j :
  0 < stride -> node_at base stride i = node_at base stride j -> i = j.
Proof. unfold node_at. intros Hs E. nia. Qed.

Lemma all_nodes_NoDup q : 0 < node_stride_bytes q -> NoDup (all_nodes q).
Proof.
  intros Hs. apply NoDup_fmap_2; [|apply NoDup_seq].
  intros i j E. apply node_at_inj in E; lia.
Qed.

Lemma all_nodes_nonnull q p :
  0 < node_storage_data q -> 0 < node_stride_bytes q -> p ∈ all_nodes q -> p <> nullptr.
Proof.
  intros Hb Hs Hp. apply list_elem_of_fmap in Hp as (i & -> & _). unfold node_at, nullptr.
  assert (0 <= Z.of_nat i * node_stride_bytes q) by nia. lia.
Qed.

Section Shape.

Context (q : LinkedSpscQueue) (rest free lost : list Z) (Hq : linked_shape q rest free lost).

Lemma shape_NoDup : NoDup (consumer_head q :: rest ++ free ++ lost).
Proof. rewrite (ls_nodes _ _ _ _ Hq). apply all_nodes_NoDup, Hq. Qed.

Lemma shape_count :
  (length rest + length free + length lost)%nat = Z.to_nat (linked_capacity q).
Proof.
  pose proof (Permutation_length (ls_nodes _ _ _ _ Hq)) as H.
  unfold all_nodes in H. rewrite length_fmap, length_seq in H.
  simpl in H. rewrite !length_app in H. lia.
Qed.

Lemma shape_elem p : p ∈ consumer_head q :: rest ++ free ++ lost -> p ∈ all_nodes q.
Proof. by rewrite (ls_nodes _ _ _ _ Hq). Qed.

Lemma shape_capacity : 0 < linked_capacity q.
Proof. destruct Hq, ls_recycler0. simpl in *. lia. Qed.

(** The recycler slot the producer reads: the oldest free node. *)
Lemma recycler_obtain :
  recycler_load (recycler_consumer_position q) q = default nullptr (free !! 0%nat).
Proof. apply (ring_load_consumer (recycler_view q) free), Hq. Qed.

(** The recycler slot the consumer fills is free while the chain is not empty. *)
Lemma recycler_return_slot :
  rest <> [] -> recycler_load (recycler_producer_position q) q = nullptr.
Proof.
  intros Hr. pose proof (ring_load_producer (recycler_view q) free (ls_recycler _ _ _ _ Hq)) as H.
  pose proof shape_count. pose proof shape_capacity. destruct rest as [|n r]; [done|]. simpl in *.
  unfold slot_load in H. simpl in H. unfold recycler_load. rewrite H.
  destruct (Z.ltb_spec (Z.of_nat (length free)) (linked_capacity q)); [done|]. lia.
Qed.

Lemma shape_successor :
  load_next q (consumer_head q) = default nullptr (rest !! 0%nat).
Proof.
  pose proof (ls_links _ _ _ _ Hq) as H. unfold load_next. fold (arena_next (node_arena q) (consumer_head q)).
  destruct rest as [|n r]; simpl in *; [done|]. by destruct H.
Qed.

Lemma shape_nonnull p : p ∈ consumer_head q :: rest ++ free ++ lost -> p <> nullptr.
Proof. intros Hp. eapply (all_nodes_nonnull q); [apply Hq..|]. by apply shape_elem. Qed.

End Shape.

(** ** The steps of the operations *)

(** Obtaining a node and preparing it: out of the recycler, in no list. *)
Definition prepare_node (node event : Z) (q : LinkedSpscQueue) : LinkedSpscQueue :=
  store_next node nullptr (store_event node event
    (set_recycler (<[Z.to_nat (recycler_consumer_position q) := nullptr]> (recycler_slots q))
       (recycler_producer_position q)
       (linked_next_position q (recycler_consumer_position q)) q)).

Definition link_node (node : Z) (q : LinkedSpscQueue) : LinkedSpscQueue :=
  set_tail node (store_next (producer_tail q) node q).

Definition detach_sentinel (successor : Z) (q : LinkedSpscQueue) : LinkedSpscQueue :=
  set_recycler
    (<[Z.to_nat (recycler_producer_position q) := consumer_head q]> (recycler_slots q))
    (linked_next_position q (recycler_producer_position q))
    (recycler_consumer_position q) (set_head successor q).

Section Steps.

Context (q : LinkedSpscQueue).

Lemma prepare_arena_next n e p :
  is_Some (node_arena q !! n) ->
  arena_next (node_arena (prepare_node n e q)) p =
  if decide (p = n) then nullptr else arena_next (node_arena q) p.
Proof.
  intros Hn. simpl. rewrite arena_next_alter_next by by apply is_Some_alter.
  by rewrite arena_next_alter_event.
Qed.

Lemma prepare_arena_event n e p :
  is_Some (node_arena q !! n) ->
  arena_event (node_arena (prepare_node n e q)) p =
  if decide (p = n) then e else arena_event (node_arena q) p.
Proof.
  intros Hn. simpl. rewrite arena_event_alter_next. by rewrite arena_event_alter_event.
Qed.

Lemma prepare_shape rest n free lost e :
  linked_shape q rest (n :: free) lost ->
  linked_shape (prepare_node n e q) rest free (n :: lost) /\
  load_event (prepare_node n e q) <$> rest = load_event q <$> rest /\
  load_event (prepare_node n e q) n = e /\
  arena_next (node_arena (prepare_node n e q)) n = nullptr.
Proof.
  intros Hq. pose proof (shape_NoDup _ _ _ _ Hq) as Hnd.
  assert (Hn : is_Some (node_arena q !! n)).
  { apply (ls_arena _ _ _ _ Hq), (shape_elem _ _ _ _ Hq). set_solver. }
  assert (Hfresh : n ∉ consumer_head q :: rest).
  { rewrite app_comm_cons in Hnd. apply NoDup_app in Hnd as (_ & Hd & _).
    intros Hin. apply (Hd n Hin). set_solver. }
  split; [|split_and!].
  - constructor; try apply Hq.
    + apply (ring_repr_pop (recycler_view q) free n), Hq.
    + simpl. rewrite <- (ls_nodes _ _ _ _ Hq). simpl. by rewrite <- Permutation_middle.
    + intros p Hp. simpl. by apply is_Some_alter, is_Some_alter, (ls_arena _ _ _ _ Hq).
    + eapply chain_links_ext; [|apply Hq]. intros x Hx.
      rewrite prepare_arena_next by done. rewrite decide_False; [done|]. intros ->. by apply Hfresh.
  - apply list_fmap_ext. intros i x Hx. apply list_elem_of_lookup_2 in Hx.
    fold (arena_event (node_arena q) x).
    change (load_event (prepare_node n e q) x) with (arena_event (node_arena (prepare_node n e q)) x).
    rewrite prepare_arena_event by done. rewrite decide_False; [done|].
    intros ->. apply Hfresh. by right.
  - change (load_event (prepare_node n e q) n) with (arena_event (node_arena (prepare_node n e q)) n).
    rewrite prepare_arena_event by done. by rewrite decide_True.
  - rewrite prepare_arena_next by done. by rewrite decide_True.
Qed.

Lemma link_shape rest n free lost :
  linked_shape q rest free (n :: lost) -> arena_next (node_arena q) n = nullptr ->
  linked_shape (link_node n q) (rest ++ [n]) free lost /\
  load_event (link_node n q) <$> (rest ++ [n]) = (load_event q <$> rest) ++ [load_event q n].
Proof.
  intros Hq Hnull. pose proof (shape_NoDup _ _ _ _ Hq) as Hnd.
  assert (Ht : is_Some (node_arena q !! producer_tail q)).
  { apply (ls_arena _ _ _ _ Hq), (shape_elem _ _ _ _ Hq).
    pose proof (ls_tail _ _ _ _ Hq) as Hlast. rewrite last_lookup in Hlast.
    apply list_elem_of_lookup_2 in Hlast. set_solver. }
  rewrite app_comm_cons in Hnd. apply NoDup_app in Hnd as (Hnd & Hd & _).
  split.
  - constructor; try apply Hq.
    + simpl. rewrite <- (ls_nodes _ _ _ _ Hq). rewrite <- app_assoc. simpl.
      apply perm_skip, Permutation_app_head. by rewrite <- Permutation_middle.
    + intros p Hp. simpl. by apply is_Some_alter, (ls_arena _ _ _ _ Hq).
    + simpl. apply chain_links_snoc; try done; try apply Hq.
      intros Hin. apply (Hd n Hin). set_solver.
    + simpl. rewrite app_comm_cons. apply last_snoc.
  - rewrite fmap_app. f_equal.
    + apply list_fmap_ext. intros i x _. apply arena_event_alter_next.
    + simpl. f_equal. apply arena_event_alter_next.
Qed.

Lemma detach_shape n rest free lost :
  linked_shape q (n :: rest) free lost ->
  linked_shape (detach_sentinel n q) rest (free ++ [consumer_head q]) lost.
Proof.
  intros Hq. constructor; try apply Hq.
  - apply (ring_repr_push (recycler_view q) free (consumer_head q)).
    + apply Hq.
    + apply (shape_nonnull _ _ _ _ Hq). left.
    + pose proof (shape_count _ _ _ _ Hq). pose proof (shape_capacity _ _ _ _ Hq). simpl in *. lia.
  - simpl. rewrite <- (ls_nodes _ _ _ _ Hq). simpl. rewrite <- !app_assoc. simpl.
    rewrite (app_assoc rest free), <- Permutation_middle, <- app_assoc. apply perm_swap.
Qed.

End Steps.

(** ** One attempt, on every branch *)

Section Attempts.

Context {O : Type} (q : LinkedSpscQueue) (lost : nat) (l : list Z).

(** An enqueue attempt is decided by the number of nodes in use or lost. *)
Lemma linked_enqueue_cases (obs : LinkedEnqueueObserver O) e (o : O) :
  linked_repr lost q l ->
  let boundary := leo_before_enqueue_publication obs (leo_after_recycler_obtain obs o) in
  if Z.of_nat (length l + lost) <? linked_capacity q then
    exists q', linked_capacity q' = linked_capacity q /\
      if fst boundary then
        linked_try_enqueue_observed obs e q o =
          (q', snd boundary,
           mkBoundaryEnqueueResult BoundaryCaptureStatus_complete EnqueueResult_accepted) /\
        linked_repr lost q' (l ++ [e])
      else
        linked_try_enqueue_observed obs e q o =
          (q', snd boundary,
           mkBoundaryEnqueueResult BoundaryCaptureStatus_capture_failed EnqueueResult_full) /\
        linked_repr (S lost) q' l
  else
    linked_try_enqueue_observed obs e q o =
      (q, o, mkBoundaryEnqueueResult BoundaryCaptureStatus_complete EnqueueResult_full).
Proof.
  intros (rest & free & lost_nodes & Hlost & Hq & Hl) boundary.
  pose proof (shape_count _ _ _ _ Hq) as Hcount.
  pose proof (shape_capacity _ _ _ _ Hq) as Hcap.
  assert (length l = length rest) as Hlen by (subst l; by rewrite length_fmap).
  unfold linked_try_enqueue_observed. rewrite (recycler_obtain _ _ _ _ Hq).
  destruct free as [|n free]; simpl in Hcount.
  - destruct (Z.ltb_spec (Z.of_nat (length l + lost)) (linked_capacity q)); [lia|done].
  - destruct (Z.ltb_spec (Z.of_nat (length l + lost)) (linked_capacity q)); [|lia].
    assert (n <> nullptr) as Hn by (apply (shape_nonnull _ _ _ _ Hq); set_solver).
    simpl. destruct (Z.eqb_spec n nullptr); [done|].
    destruct (prepare_shape q rest n free lost_nodes e Hq) as (Hp & Hev & Hen & Hnx).
    fold (prepare_node n e q). unfold boundary.
    destruct (leo_before_enqueue_publication obs (leo_after_recycler_obtain obs o))
      as [[] o']; simpl.
    + exists (link_node n (prepare_node n e q)). split; [done|]. split; [done|].
      destruct (link_shape _ _ _ _ _ Hp Hnx) as [Hs He].
      exists (rest ++ [n]), free, lost_nodes. split_and!; [done..|].
      by rewrite He, Hev, Hen, Hl.
    + exists (prepare_node n e q). split; [done|]. split; [done|].
      exists rest, free, (n :: lost_nodes). split_and!; [simpl; lia|done|by rewrite Hev].
Qed.

(** A dequeue attempt never finds its recycler slot occupied. *)
Lemma linked_dequeue_cases (obs : LinkedDequeueObserver O) (o : O) :
  linked_repr lost q l ->
  let boundary := ldo_after_dequeue_observation obs o in
  match l with
  | [] => linked_try_dequeue_observed obs q o =
            (q, o, mkBoundaryDequeueResult BoundaryCaptureStatus_complete
                     (mkDequeueResult DequeueStatus_empty nullptr))
  | e :: l' =>
      if fst boundary then
        exists q', linked_try_dequeue_observed obs q o =
                   (q', ldo_before_recycler_return obs
                          (ldo_successor_header obs (consumer_head q') (snd boundary)),
                    mkBoundaryDequeueResult BoundaryCaptureStatus_complete
                      (mkDequeueResult DequeueStatus_item e)) /\
                   linked_repr lost q' l' /\ linked_capacity q' = linked_capacity q
      else
        linked_try_dequeue_observed obs q o =
          (q, snd boundary,
           mkBoundaryDequeueResult BoundaryCaptureStatus_capture_failed
             (mkDequeueResult DequeueStatus_empty nullptr))
  end.
Proof.
  intros (rest & free & lost_nodes & Hlost & Hq & Hl) boundary.
  unfold linked_try_dequeue_observed. rewrite (shape_successor _ _ _ _ Hq).
  destruct rest as [|n rest]; simpl in Hl; subst l; [done|]. simpl.
  assert (n <> nullptr) as Hn by (apply (shape_nonnull _ _ _ _ Hq); set_solver).
  destruct (Z.eqb_spec n nullptr); [done|]. unfold boundary.
  destruct (ldo_after_dequeue_observation obs o) as [[] o']; simpl; [|done].
  rewrite (recycler_return_slot _ _ _ _ Hq) by done. simpl.
  exists (detach_sentinel n q). split; [done|]. split; [|done].
  exists rest, (free ++ [consumer_head q]), lost_nodes. split_and!; [done| |done].
  by apply detach_shape.
Qed.

End Attempts.

#[export] Program Instance linked_spsc_laws : SpscQueueLaws LinkedSpscQueue := {
  spsc_repr := linked_repr 0
}.
Next Obligation.
  intros q l (rest & free & lost & _ & Hq & <-). rewrite length_fmap.
  pose proof (shape_count _ _ _ _ Hq). pose proof (shape_capacity _ _ _ _ Hq). simpl. lia.
Qed.
Next Obligation.
  intros q l e Hq _. pose proof (linked_enqueue_cases q 0 l linked_noop_enqueue e tt Hq) as H.
  unfold spsc_try_enqueue, fifo_enqueue, linked_try_enqueue; simpl in *.
  unfold linked_try_enqueue. rewrite Nat.add_0_r in H.
  destruct (Z.of_nat (length l) <? linked_capacity q); simpl.
  - destruct H as (q' & Hc & E & Hr). rewrite E. by exists q'.
  - rewrite H. by exists q.
Qed.
Next Obligation.
  intros q l Hq. pose proof (linked_dequeue_cases q 0 l linked_noop_dequeue tt Hq) as H.
  unfold spsc_try_dequeue; simpl. unfold linked_try_dequeue.
  destruct l as [|e l]; simpl in *.
  - rewrite H. by exists q.
  - destruct H as (q' & E & Hr & Hc). rewrite E. by exists q'.
Qed.

(** ** The constructor *)

(** The scan accepts exactly the duplicate-free orders with indices in range
    (and disjoint from the indices already seen). *)
Lemma permutation_scan_spec n seen order :
  permutation_scan n seen order = true <->
  NoDup order /\ (forall i, i ∈ order -> i < n /\ i ∉ seen).
Proof.
  revert seen. induction order as [|i order IH]; intros seen; simpl.
  - split; [|done]. intros _. split; [constructor|]. by intros i ?%not_elem_of_nil.
  - rewrite NoDup_cons. destruct (Z.geb_spec i n); simpl.
    { split; [done|]. intros [_ H2]. destruct (H2 i); [left|lia]. }
    destruct (bool_decide_reflect (i ∈ seen)); simpl.
    { split; [done|]. intros [_ H2]. destruct (H2 i); [left|done]. }
    rewrite IH. split.
    + intros [Hnd H2]. split; [split; [|done]|].
      * intros Hin. destruct (H2 i Hin). set_solver.
      * intros j [->|Hj]%elem_of_cons; [by split; [lia|]|]. destruct (H2 j Hj). set_solver.
    + intros [[Hi Hnd] H2]. split; [done|]. intros j Hj.
      destruct (H2 j); [by right|]. split; [done|]. set_solver.
Qed.

(** An order of [n] indices that passes the scan is a permutation of [0..n). *)
Lemma permutation_scan_Permutation n order :
  Forall (fun i => 0 <= i) order -> Z.of_nat (length order) = n ->
  permutation_scan n ∅ order = true -> order ≡ₚ Z.of_nat <$> seq 0 (Z.to_nat n).
Proof.
  intros Hpos Hlen Hscan. apply permutation_scan_spec in Hscan as [Hnd Hr].
  apply submseteq_length_Permutation.
  - apply NoDup_submseteq; [done|]. intros i Hi. destruct (Hr i Hi) as [Hlt _].
    rewrite Forall_forall in Hpos. specialize (Hpos i Hi).
    apply list_elem_of_fmap. exists (Z.to_nat i). split; [lia|]. apply elem_of_seq. lia.
  - rewrite length_fmap, length_seq. lia.
Qed.

Lemma construct_nodes_lookup base stride n i :
  0 < stride -> (i < Z.to_nat n)%nat ->
  construct_nodes base stride n !! node_at base stride (Z.of_nat i) =
  Some (mkNode nullptr nullptr (Z.of_nat i)).
Proof.
  intros Hs Hi. unfold construct_nodes. apply elem_of_list_to_map.
  - rewrite <- list_fmap_compose. apply NoDup_fmap_2; [|apply NoDup_seq].
    intros j k E. apply node_at_inj in E; lia.
  - apply list_elem_of_fmap. exists i. split; [done|]. apply elem_of_seq. lia.
Qed.

Lemma round_up_pos line stride :
  is_u64 line -> is_power_of_two line = true ->
  queue_round_up sizeof_Node line = Returned stride -> 0 < stride <= u64_max /\ stride mod line = 0.
Proof.
  intros Hl Hp. pose proof (is_power_of_two_pos line Hl Hp) as Hpos.
  unfold queue_round_up, sizeof_Node.
  destruct (Z.eqb_spec (24 mod line) 0) as [E|].
  - intros [= <-]. split; [int_lia|done].
  - pose proof (Z.mod_pos_bound 24 line Hpos).
    rewrite u64_sub_small by int_lia. intros H1.
    apply queue_checked_add_spec in H1 as [-> H1]; [|int_lia..].
    split; [lia|]. rewrite (Z.div_mod 24 line) at 1 by lia.
    replace (line * (24 / line) + 24 mod line + (line - 24 mod line))
      with (0 + (24 / line + 1) * line) by lia.
    by rewrite Z_mod_plus_full, Z.mod_0_l by lia.
Qed.

Lemma linked_make_shape data capacity line alignment order q :
  0 < data -> is_u64 capacity -> is_u64 line -> is_u64 alignment ->
  Forall (fun i => 0 <= i) order ->
  LinkedSpscQueue_make data capacity line alignment order = Returned q ->
  linked_shape q [] (recycler_slots q) [] /\ linked_capacity q = capacity /\
  capacity * 8 <= u64_max.
Proof.
  intros Hd Hc Hl Ha Hpos. unfold LinkedSpscQueue_make.
  destruct (validate_cache_line_bytes line) eqn:Hline; [|done].
  destruct (validate_cache_line_bytes alignment); [|done].
  destruct (alignment <? line); [done|].
  destruct (Z.eqb_spec capacity 0) as [|Hnz]; [done|].
  destruct (queue_checked_add capacity 1) as [n|] eqn:Hadd; [|done].
  destruct (Z.eqb_spec (Z.of_nat (length order)) n) as [Hlen|]; simpl; [|done].
  destruct (permutation_scan n ∅ order) eqn:Hscan; simpl; [|done].
  destruct (queue_round_up sizeof_Node line) as [stride|] eqn:Hstride; [|done].
  destruct (queue_checked_multiply n stride) as [nb|] eqn:Hnb; [|done].
  destruct (queue_checked_multiply capacity sizeof_RecyclerSlot) as [rb|] eqn:Hrb; [|done].
  destruct (queue_checked_multiply 4 line); [|done]. intros [= <-].
  apply queue_checked_add_spec in Hadd as [-> Hadd]; [|done|int_lia].
  apply queue_checked_multiply_spec in Hrb as [-> Hrb]; [|done|unfold sizeof_RecyclerSlot; int_lia].
  unfold sizeof_RecyclerSlot in Hrb.
  assert (Hp2 : is_power_of_two line = true).
  { unfold validate_cache_line_bytes in Hline. by destruct (is_power_of_two line). }
  destruct (round_up_pos line stride Hl Hp2 Hstride) as [Hs _].
  pose proof (permutation_scan_Permutation _ _ Hpos Hlen Hscan) as Hperm.
  destruct order as [|i0 order]; simpl in *; [int_lia|].
  split; [|done].
  assert (Hall : node_at data stride i0 :: (node_at data stride <$> order) ≡ₚ
    (fun i => node_at data stride (Z.of_nat i)) <$> seq 0 (S (Z.to_nat capacity))).
  { rewrite <- fmap_cons, Hperm, <- list_fmap_compose.
    by replace (Z.to_nat (capacity + 1)) with (S (Z.to_nat capacity)) by int_lia. }
  constructor; simpl; try done; try lia.
  - constructor; simpl; rewrite ?length_fmap; try done; try int_lia.
    + split; [int_lia|]. apply Z.div_le_lower_bound; lia.
    + replace (Z.of_nat (length order)) with capacity by lia. by rewrite Z_mod_same_full.
    + apply Forall_forall. intros p Hp. apply (all_nodes_nonnull
        (mkLinked capacity line stride alignment data 0 0 0 ∅ [] 0 0 0 0)); simpl; [done|lia|].
      unfold all_nodes; simpl. rewrite <- Hall. by right.
    + intros i Hi. rewrite Z.mod_small by lia.
      destruct (lookup_lt_is_Some_2 (node_at data stride <$> order) (Z.to_nat i)) as [p Hp];
        [rewrite length_fmap; lia|]. by rewrite Hp.
  - unfold all_nodes; simpl. rewrite app_nil_r. exact Hall.
  - intros p Hp. unfold all_nodes in Hp; cbn [linked_capacity node_storage_data node_stride_bytes] in Hp. apply list_elem_of_fmap in Hp as (i & -> & Hi).
    apply elem_of_seq in Hi. rewrite construct_nodes_lookup by lia. by eexists.
  - unfold arena_next. 
    assert (Hi0 : i0 ∈ Z.of_nat <$> seq 0 (Z.to_nat (capacity + 1))) by (rewrite <- Hperm; left).
    apply list_elem_of_fmap in Hi0 as (i & -> & Hi). apply elem_of_seq in Hi.
    by rewrite construct_nodes_lookup by lia.
Qed.

(** ** The audit *)

Section Audit.

Context (q : LinkedSpscQueue) (rest free lost : list Z) (Hq : linked_shape q rest free lost).

(** The arena index of a node address. *)
Definition arena_index_of (p : Z) : Z := (p - node_storage_data q) / node_stride_bytes q.

Lemma index_of_node p :
  p ∈ all_nodes q ->
  index_of q p = Some (arena_index_of p) /\ 0 <= arena_index_of p <= linked_capacity q /\
  p = node_at (node_storage_data q) (node_stride_bytes q) (arena_index_of p).
Proof.
  intros Hp. apply list_elem_of_fmap in Hp as (i & -> & Hi). apply elem_of_seq in Hi.
  pose proof (ls_stride _ _ _ _ Hq) as Hs. pose proof (shape_capacity _ _ _ _ Hq).
  unfold index_of, arena_index_of, node_at.
  replace (node_storage_data q + Z.of_nat i * node_stride_bytes q - node_storage_data q)
    with (Z.of_nat i * node_stride_bytes q) by lia.
  rewrite Z.div_mul, Z_mod_mult by lia. simpl.
  destruct (Z.ltb_spec (node_storage_data q + Z.of_nat i * node_stride_bytes q)
              (node_storage_data q)); [nia|].
  destruct (Z.gtb_spec (Z.of_nat i) (linked_capacity q)); [lia|]. split_and!; [done|lia..].
Qed.

Lemma arena_index_inj p p' :
  p ∈ all_nodes q -> p' ∈ all_nodes q -> arena_index_of p = arena_index_of p' -> p = p'.
Proof.
  intros Hp Hp' E. destruct (index_of_node p Hp) as (_ & _ & ->).
  destruct (index_of_node p' Hp') as (_ & _ & ->). by rewrite E.
Qed.

(** The walk visits the chain once and stops at its end. *)
Lemma audit_chain_run fuel p tail_nodes w :
  (length tail_nodes < fuel)%nat ->
  chain_links (node_arena q) p tail_nodes ->
  NoDup (p :: tail_nodes) ->
  (forall x, x ∈ p :: tail_nodes -> x ∈ all_nodes q /\ arena_index_of x ∉ cw_owned w) ->
  audit_chain fuel q p w =
    mkChainWalk (list_to_set (arena_index_of <$> p :: tail_nodes) ∪ cw_owned w)
      (cw_order w ++ (arena_index_of <$> p :: tail_nodes)) (cw_acyclic w)
      (cw_tail_reachable w || bool_decide (producer_tail q ∈ p :: tail_nodes)).
Proof.
  revert p fuel w. induction tail_nodes as [|n ns IH]; intros p fuel w Hfuel Hl Hnd Hx;
    (destruct fuel as [|fuel]; [simpl in Hfuel; lia|]);
    destruct (Hx p) as [Hp Hpo]; [left| |left|]; simpl;
    (rewrite (proj2 (Z.eqb_neq p nullptr)) by (eapply (all_nodes_nonnull q); [apply Hq..|done]));
    destruct (index_of_node p Hp) as (-> & _ & _); rewrite bool_decide_false by done.
  - assert (load_next q p = nullptr) as -> by exact Hl.
    assert (Hend : forall w, audit_chain fuel q nullptr w = w) by by destruct fuel.
    rewrite Hend. f_equal; [set_solver|]. f_equal.
    apply eq_true_iff_eq. rewrite Z.eqb_eq, bool_decide_eq_true. set_solver.
  - destruct Hl as [E Hl]. assert (load_next q p = n) as -> by exact E.
    apply NoDup_cons in Hnd as [Hpn Hnd]. simpl in Hfuel.
    rewrite IH; simpl; [|lia|done|done|].
    + f_equal; [set_solver|by rewrite <- app_assoc|].
      rewrite <- orb_assoc. f_equal. apply eq_true_iff_eq.
      rewrite orb_true_iff, Z.eqb_eq, !bool_decide_eq_true. set_solver.
    + intros x Hxn. destruct (Hx x) as [Hxa Hxo]; [by right|]. split; [done|].
      intros [Hxe%elem_of_singleton|?]%elem_of_union; [|done].
      apply arena_index_inj in Hxe; [|done..]. by subst.
Qed.

Lemma audit_recycler_load k :
  (k < Z.to_nat (linked_capacity q))%nat ->
  recycler_load (u64_add (recycler_consumer_position q) (Z.of_nat k) mod linked_capacity q) q =
  default nullptr (free !! k).
Proof.
  intros Hk. destruct (ls_recycler _ _ _ _ Hq). simpl in *.
  assert (u64_max / 8 * 2 < u64_max) by done.
  rewrite u64_add_small by lia. unfold recycler_load.
  rewrite rr_slots by lia. by rewrite Nat2Z.id.
Qed.

(** The occupied part of the recycler: every node new, in FIFO order. *)
Lemma audit_recycler_occupied pre fs w :
  free = pre ++ fs -> sc_encountered_empty w = false -> NoDup fs ->
  (forall x, x ∈ fs -> x ∈ all_nodes q /\ arena_index_of x ∉ sc_owned w) ->
  fold_left (audit_recycler_step q) (Z.of_nat <$> seq (length pre) (length fs)) w =
    mkRecyclerScan (list_to_set (arena_index_of <$> fs) ∪ sc_owned w)
      (sc_order w ++ (arena_index_of <$> fs)) false (sc_fifo_shape w) (sc_owned_once w).
Proof.
  pose proof (shape_count _ _ _ _ Hq) as Hcount.
  revert pre w. induction fs as [|f fs IH]; intros pre w Hfree Hne Hnd Hx; simpl.
  - destruct w; simpl in *. subst. f_equal; [set_solver|by rewrite app_nil_r].
  - destruct (Hx f) as [Hf Hfo]; [left|]. apply NoDup_cons in Hnd as [Hff Hnd].
    unfold audit_recycler_step at 2. rewrite audit_recycler_load by
      (rewrite Hfree, length_app in Hcount; simpl in Hcount; lia).
    rewrite Hfree, lookup_app_r, Nat.sub_diag by lia. simpl.
    rewrite (proj2 (Z.eqb_neq f nullptr)) by (eapply (all_nodes_nonnull q); [apply Hq..|done]).
    destruct (index_of_node f Hf) as (-> & _ & _). rewrite bool_decide_false by done. rewrite Hne.
    replace (S (length pre)) with (length (pre ++ [f])) by (rewrite length_app; simpl; lia).
    rewrite (IH (pre ++ [f])); simpl; [| |done|done|].
    + f_equal; [set_solver|by rewrite <- app_assoc].
    + by rewrite <- app_assoc.
    + intros x Hxf. destruct (Hx x) as [Hxa Hxo]; [by right|]. split; [done|].
      intros [Hxe%elem_of_singleton|?]%elem_of_union; [|done].
      apply arena_index_inj in Hxe; [|done..]. by subst.
Qed.

(** The empty part changes nothing but the empty flag. *)
Lemma audit_recycler_empty k m w :
  (length free <= k)%nat -> (k + m <= Z.to_nat (linked_capacity q))%nat ->
  exists flag,
    fold_left (audit_recycler_step q) (Z.of_nat <$> seq k m) w =
    mkRecyclerScan (sc_owned w) (sc_order w) flag (sc_fifo_shape w) (sc_owned_once w).
Proof.
  revert k w. induction m as [|m IH]; intros k w Hk Hm; cbn [seq].
  - exists (sc_encountered_empty w). by destruct w.
  - rewrite fmap_cons. cbn [fold_left]. destruct (IH (S k) (audit_recycler_step q w (Z.of_nat k))) as [flag E]; [lia..|].
    exists flag. rewrite E. unfold audit_recycler_step. rewrite audit_recycler_load by lia.
    rewrite (proj2 (lookup_ge_None free k)) by lia. done.
Qed.

Lemma audit_fuel : (length rest < S (S (Z.to_nat (linked_capacity q))))%nat.
Proof. pose proof (shape_count _ _ _ _ Hq). lia. Qed.

Lemma audit_walk :
  audit_chain (S (S (Z.to_nat (linked_capacity q)))) q (consumer_head q)
    (mkChainWalk ∅ [] true false) =
  mkChainWalk (list_to_set (arena_index_of <$> consumer_head q :: rest))
    (arena_index_of <$> consumer_head q :: rest) true true.
Proof.
  pose proof (shape_NoDup _ _ _ _ Hq) as Hnd. rewrite app_comm_cons in Hnd.
  apply NoDup_app in Hnd as (Hnd & _ & _).
  rewrite (audit_chain_run _ _ rest); [|apply audit_fuel|apply Hq|done|].
  - cbn [cw_owned cw_order cw_acyclic cw_tail_reachable]. f_equal; [set_solver|].
    rewrite bool_decide_true; [done|]. pose proof (ls_tail _ _ _ _ Hq) as H.
    rewrite last_lookup in H. by eapply list_elem_of_lookup_2.
  - intros x Hx. split; [|set_solver]. apply (shape_elem _ _ _ _ Hq). set_solver.
Qed.

Lemma audit_scan :
  exists flag,
    fold_left (audit_recycler_step q) (Z.of_nat <$> seq 0 (Z.to_nat (linked_capacity q)))
      (mkRecyclerScan (list_to_set (arena_index_of <$> consumer_head q :: rest))
         [] false true true) =
    mkRecyclerScan (list_to_set (arena_index_of <$> consumer_head q :: rest ++ free))
      (arena_index_of <$> free) flag true true.
Proof.
  pose proof (shape_NoDup _ _ _ _ Hq) as Hnd. pose proof (shape_count _ _ _ _ Hq) as Hcount.
  rewrite app_comm_cons, app_assoc in Hnd. apply NoDup_app in Hnd as (Hnd & _ & _).
  apply NoDup_app in Hnd as (_ & Hdisj & Hnd).
  replace (Z.to_nat (linked_capacity q))
    with (length free + (Z.to_nat (linked_capacity q) - length free))%nat by lia.
  rewrite seq_app, fmap_app, fold_left_app. simpl (0 + _)%nat.
  rewrite (audit_recycler_occupied [] free); [|done|done|done|].
  - cbn [sc_owned sc_order sc_encountered_empty sc_fifo_shape sc_owned_once].
    match goal with
    | |- context [fold_left _ (_ <$> seq (length free) ?m) ?w] =>
        destruct (audit_recycler_empty (length free) m w) as [flag E]; [lia..|]
    end.
    exists flag. rewrite E. cbn [sc_owned sc_order sc_fifo_shape sc_owned_once].
    f_equal. rewrite app_comm_cons, fmap_app, list_to_set_app_L. set_solver.
  - intros x Hx. split; [apply (shape_elem _ _ _ _ Hq); set_solver|].
    change (arena_index_of x ∉ (list_to_set (arena_index_of <$> consumer_head q :: rest) : gset Z)).
    rewrite elem_of_list_to_set, list_elem_of_fmap. intros (y & Ey & Hy).
    apply arena_index_inj in Ey; [|apply (shape_elem _ _ _ _ Hq); set_solver..].
    subst y. by apply (Hdisj x).
Qed.

Lemma audit_all_owned :
  forallb (fun i => bool_decide
      (Z.of_nat i ∈ (list_to_set (arena_index_of <$> consumer_head q :: rest ++ free) : gset Z)))
    (seq 0 (Z.to_nat (linked_capacity q + 1))) = bool_decide (lost = []).
Proof.
  pose proof (shape_capacity _ _ _ _ Hq) as Hcap. pose proof (ls_stride _ _ _ _ Hq) as Hs.
  apply eq_true_iff_eq. rewrite forallb_forall, bool_decide_eq_true. split.
  - intros Hall. apply elem_of_nil_inv. intros n Hlost.
    assert (Hn : n ∈ all_nodes q) by (apply (shape_elem _ _ _ _ Hq); set_solver).
    destruct (index_of_node n Hn) as (_ & Hr & _).
    specialize (Hall (Z.to_nat (arena_index_of n))). rewrite Z2Nat.id in Hall by lia.
    assert (Hin : In (Z.to_nat (arena_index_of n)) (seq 0 (Z.to_nat (linked_capacity q + 1))))
      by (apply in_seq; lia).
    apply Hall, bool_decide_eq_true in Hin.
    rewrite elem_of_list_to_set, list_elem_of_fmap in Hin. destruct Hin as (y & Ey & Hy).
    apply arena_index_inj in Ey; [|done|apply (shape_elem _ _ _ _ Hq); set_solver]. subst y.
    pose proof (shape_NoDup _ _ _ _ Hq) as Hnd. rewrite app_comm_cons, app_assoc in Hnd.
    apply NoDup_app in Hnd as (_ & Hd & _). by apply (Hd n).
  - intros El i Hi. apply in_seq in Hi. apply bool_decide_eq_true.
    rewrite elem_of_list_to_set, list_elem_of_fmap.
    exists (node_at (node_storage_data q) (node_stride_bytes q) (Z.of_nat i)). split.
    + unfold arena_index_of, node_at.
      replace (_ + _ - _) with (Z.of_nat i * node_stride_bytes q) by lia.
      by rewrite Z.div_mul by lia.
    + pose proof (ls_nodes _ _ _ _ Hq) as Hp. rewrite El, app_nil_r in Hp. rewrite Hp.
      apply list_elem_of_fmap. exists i. split; [done|]. apply elem_of_seq. lia.
Qed.

End Audit.

(** ** Properties *)

Lemma round_up_node line k :
  4 <= k < 64 -> line = 2 ^ k -> queue_round_up sizeof_Node line = Returned (Z.max 32 line).
Proof.
  intros Hk ->. unfold queue_round_up, sizeof_Node.
  destruct (Z.eq_dec k 4) as [->|]; [done|]. destruct (Z.eq_dec k 5) as [->|]; [done|].
  pose proof (Z.pow_le_mono_r 2 6 k ltac:(lia) ltac:(lia)).
  pose proof (Z.pow_le_mono_r 2 k 63 ltac:(lia) ltac:(lia)).
  rewrite Z.mod_small by lia. simpl. rewrite u64_sub_small by int_lia.
  unfold queue_checked_add. rewrite u64_sub_small by int_lia.
  destruct (Z.gtb_spec (2 ^ k - 24) (u64_max - 24)); [int_lia|].
  rewrite u64_add_small by int_lia. f_equal. lia.
Qed.

Lemma Permutation_scan n order :
  0 <= n -> order ≡ₚ Z.of_nat <$> seq 0 (Z.to_nat n) ->
  permutation_scan n ∅ order = true /\ Z.of_nat (length order) = n.
Proof.
  intros Hn Hp. split.
  - apply permutation_scan_spec. rewrite Hp. split.
    + apply NoDup_fmap_2; [|apply NoDup_seq]. intros i j. lia.
    + intros i Hi. rewrite Hp in Hi. apply list_elem_of_fmap in Hi as (j & -> & Hj).
      apply elem_of_seq in Hj. split; [lia|set_solver].
  - rewrite Hp, length_fmap, length_seq. lia.
Qed.

(** The linked queue's set-up accepts exactly: cache line and arena
    alignment powers of two of at least 16 bytes with the alignment at least
    the line, a nonzero capacity, a node order that is a permutation of
    [0..capacity], and storage sizes that fit in [size_t]; the result is an
    empty queue in which every node is owned exactly once. *)
Theorem linked_constructor_spec data capacity line alignment order :
  0 < data -> is_u64 capacity -> is_u64 line -> is_u64 alignment ->
  Forall (fun i => 0 <= i) order ->
  ((exists q, LinkedSpscQueue_make data capacity line alignment order = Returned q) <->
   (exists k j, 4 <= k <= j /\ k < 62 /\ j < 64 /\ line = 2 ^ k /\ alignment = 2 ^ j) /\
   0 < capacity /\ (capacity + 1) * Z.max 32 line <= u64_max /\
   order ≡ₚ Z.of_nat <$> seq 0 (Z.to_nat (capacity + 1))) /\
  (forall q, LinkedSpscQueue_make data capacity line alignment order = Returned q ->
     linked_repr 0 q [] /\ linked_capacity q = capacity).
Proof.
  intros Hd Hc Hl Ha Hpos. split.
  2: { intros q Hq. destruct (linked_make_shape _ _ _ _ _ _ Hd Hc Hl Ha Hpos Hq) as (Hs & E & _).
       split; [|done]. by exists [], (recycler_slots q), []. }
  pose proof (validate_cache_line_bytes_spec line Hl) as Hline.
  pose proof (validate_cache_line_bytes_spec alignment Ha) as Halign.
  unfold LinkedSpscQueue_make. split.
  - destruct (validate_cache_line_bytes line) as [[]|]; [|by intros []].
    destruct (validate_cache_line_bytes alignment) as [[]|]; [|by intros []].
    destruct (proj1 Hline eq_refl) as (k & Hk & Ek).
    destruct (proj1 Halign eq_refl) as (j & Hj & Ej).
    destruct (Z.ltb_spec alignment line) as [|Hge]; [by intros []|].
    destruct (Z.eqb_spec capacity 0); [by intros []|].
    destruct (queue_checked_add capacity 1) as [n'|] eqn:Hadd; [|by intros []].
    apply queue_checked_add_spec in Hadd as [-> Hadd]; [|done|int_lia].
    destruct (Z.eqb_spec (Z.of_nat (length order)) (capacity + 1)) as [Hlen|]; simpl; [|by intros []].
    destruct (permutation_scan (capacity + 1) ∅ order) eqn:Hscan; simpl; [|by intros []].
    rewrite (round_up_node line k Hk Ek).
    destruct (queue_checked_multiply (capacity + 1) (Z.max 32 line)) eqn:Hnb; [|by intros []].
    apply queue_checked_multiply_spec in Hnb as [_ Hnb]; [|int_lia..].
    destruct (queue_checked_multiply capacity sizeof_RecyclerSlot); [|by intros []].
    destruct (queue_checked_multiply 4 line) eqn:Hob; [|by intros []]. intros _.
    apply queue_checked_multiply_spec in Hob as [_ Hob]; [|int_lia..].
    split_and!; [|int_lia|done|by apply permutation_scan_Permutation].
    exists k, j. subst line alignment. split_and!; try done; try lia.
    + apply (Z.pow_le_mono_r_iff 2); lia.
    + apply (Z.pow_lt_mono_r_iff 2); [lia..|]. int_lia.
  - intros ((k & j & Hkj & Hk & Hj & Ek & Ej) & Hc0 & Hfit & Hperm).
    destruct (Permutation_scan (capacity + 1) order ltac:(lia) Hperm) as [Hscan Hlen].
    rewrite (proj2 Hline), (proj2 Halign) by (eexists; split; [|done]; lia).
    assert (line <= alignment) by (subst; apply Z.pow_le_mono_r; lia).
    assert (line <= 2 ^ 61) by (subst; apply Z.pow_le_mono_r; lia).
    rewrite (proj2 (Z.ltb_ge alignment line)) by done.
    rewrite (proj2 (Z.eqb_neq capacity 0)) by lia.
    assert (capacity * 32 <= u64_max - 32) by nia.
    rewrite (proj2 (queue_checked_add_spec capacity 1 (capacity + 1) Hc ltac:(int_lia)))
      by (split; [done|int_lia]).
    rewrite Hlen, Z.eqb_refl, Hscan. cbn [negb].
    rewrite (round_up_node line k) by (done || lia).
    rewrite (proj2 (queue_checked_multiply_spec (capacity + 1) (Z.max 32 line) _
               ltac:(int_lia) ltac:(int_lia))) by (split; done).
    rewrite (proj2 (queue_checked_multiply_spec capacity sizeof_RecyclerSlot _
               ltac:(int_lia) ltac:(unfold sizeof_RecyclerSlot; int_lia)))
      by (split; [done|unfold sizeof_RecyclerSlot; int_lia]).
    rewrite (proj2 (queue_checked_multiply_spec 4 line _ ltac:(int_lia) Hl))
      by (split; [done|int_lia]).
    by eexists.
Qed.

(** A two-element queue over the node order [2; 0; 1] at address 4096. *)
Definition linked_example : Throws LinkedSpscQueue :=
  LinkedSpscQueue_make 4096 2 64 64 [2; 0; 1].

Definition linked_example_queue : LinkedSpscQueue :=
  match linked_example with
  | Returned q => q
  | Threw _ => mkLinked 0 0 0 0 0 0 0 0 ∅ [] 0 0 0 0
  end.

Lemma linked_example_shape :
  linked_shape linked_example_queue [] (recycler_slots linked_example_queue) [].
Proof.
  apply (linked_make_shape 4096 2 64 64 [2; 0; 1]);
    [lia | vm_compute; split; discriminate.. | repeat constructor; lia | vm_compute; reflexivity].
Qed.

Lemma linked_example_repr : linked_repr 0 linked_example_queue [].
Proof. eexists [], _, []. split_and!; [done|apply linked_example_shape|done]. Qed.

Lemma linked_constructor_spec_witness :
  exists q, linked_example = Returned q /\ linked_repr 0 q [] /\ consumer_head q = 4224.
Proof.
  eexists. split; [vm_compute; reflexivity|]. split; [|reflexivity].
  apply (linked_constructor_spec 4096 2 64 64 [2; 0; 1]);
    [lia | vm_compute; split; discriminate.. | repeat constructor; lia | vm_compute; reflexivity].
Defined.

(** One enqueue attempt of the linked queue, on every branch. It is FULL,
    with nothing changed, exactly when the queued events and the nodes lost so
    far use up the capacity. Otherwise the boundary callback decides: success
    appends the event; a failed capture leaves the events as they were but
    loses the node that was taken from the recycler, so one place less
    remains (the run must rebuild the queue, as docs/TIMING.md requires). *)
Theorem linked_enqueue_observed_spec {O : Type} (obs : LinkedEnqueueObserver O) q lost l e (o : O) :
  linked_repr lost q l ->
  let boundary := leo_before_enqueue_publication obs (leo_after_recycler_obtain obs o) in
  if Z.of_nat (length l + lost) <? linked_capacity q then
    exists q', linked_capacity q' = linked_capacity q /\
      if fst boundary then
        linked_try_enqueue_observed obs e q o =
          (q', snd boundary,
           mkBoundaryEnqueueResult BoundaryCaptureStatus_complete EnqueueResult_accepted) /\
        linked_repr lost q' (l ++ [e])
      else
        linked_try_enqueue_observed obs e q o =
          (q', snd boundary,
           mkBoundaryEnqueueResult BoundaryCaptureStatus_capture_failed EnqueueResult_full) /\
        linked_repr (S lost) q' l
  else
    linked_try_enqueue_observed obs e q o =
      (q, o, mkBoundaryEnqueueResult BoundaryCaptureStatus_complete EnqueueResult_full).
Proof. apply linked_enqueue_cases. Qed.

Lemma linked_enqueue_observed_spec_witness :
  exists q', linked_try_enqueue_observed
      (mkLinkedEnqueueObserver nat S (fun o => (false, S o))) 7 linked_example_queue 0%nat =
      (q', 2%nat,
       mkBoundaryEnqueueResult BoundaryCaptureStatus_capture_failed EnqueueResult_full) /\
    linked_repr 1 q' [].
Proof.
  pose proof (linked_enqueue_observed_spec
    (mkLinkedEnqueueObserver nat S (fun o => (false, S o)))
    linked_example_queue 0 [] 7 0%nat linked_example_repr) as H.
  destruct H as (q' & _ & H). exists q'. exact H.
Defined.

(** One dequeue attempt of the linked queue, on every branch: EMPTY
    exactly when no event is queued; a failed boundary capture leaves the
    queue unchanged; otherwise the oldest event is delivered, its node becomes
    the sentinel and the old sentinel goes back to the recycler. The
    recycler-invariant failure never happens. *)
Theorem linked_dequeue_observed_spec {O : Type} (obs : LinkedDequeueObserver O) q lost l (o : O) :
  linked_repr lost q l ->
  dr_status (bdr_result (snd (linked_try_dequeue_observed obs q o)))
    <> DequeueStatus_recycler_invariant_failure /\
  let boundary := ldo_after_dequeue_observation obs o in
  match l with
  | [] => linked_try_dequeue_observed obs q o =
            (q, o, mkBoundaryDequeueResult BoundaryCaptureStatus_complete
                     (mkDequeueResult DequeueStatus_empty nullptr))
  | e :: l' =>
      if fst boundary then
        exists q', linked_try_dequeue_observed obs q o =
                   (q', ldo_before_recycler_return obs
                          (ldo_successor_header obs (consumer_head q') (snd boundary)),
                    mkBoundaryDequeueResult BoundaryCaptureStatus_complete
                      (mkDequeueResult DequeueStatus_item e)) /\
                   linked_repr lost q' l' /\ linked_capacity q' = linked_capacity q
      else
        linked_try_dequeue_observed obs q o =
          (q, snd boundary,
           mkBoundaryDequeueResult BoundaryCaptureStatus_capture_failed
             (mkDequeueResult DequeueStatus_empty nullptr))
  end.
Proof.
  intros Hq. pose proof (linked_dequeue_cases q lost l obs o Hq) as H. split; [|exact H].
  destruct l as [|e l]; simpl in H; [by rewrite H|].
  destruct (ldo_after_dequeue_observation obs o) as [[] o']; simpl in H; [|by rewrite H].
  destruct H as (q' & -> & _). done.
Qed.

Lemma linked_dequeue_observed_spec_witness :
  linked_try_dequeue_observed linked_noop_dequeue linked_example_queue tt =
    (linked_example_queue, tt,
     mkBoundaryDequeueResult BoundaryCaptureStatus_complete
       (mkDequeueResult DequeueStatus_empty nullptr)).
Proof.
  apply (linked_dequeue_observed_spec linked_noop_dequeue linked_example_queue 0 [] tt).
  exact linked_example_repr.
Defined.

(** The quiescent audit of the linked queue is exact and terminates: it
    visits the sentinel and the queued nodes in order, counts the free nodes,
    and every flag is true; [every_node_owned_once] is false exactly when a
    failed capture has lost a node. *)
Theorem linked_audit_exact q rest free lost :
  linked_shape q rest free lost ->
  linked_audit_quiescent q =
    mkLinkedQuiescentAudit (1 + Z.of_nat (length rest)) (Z.of_nat (length rest))
      (Z.of_nat (length free))
      (arena_index_of q <$> consumer_head q :: rest) (arena_index_of q <$> free)
      true true (bool_decide (lost = [])) true true.
Proof.
  intros Hq. unfold linked_audit_quiescent. rewrite (audit_walk q rest free lost Hq).
  cbn [cw_owned cw_order cw_acyclic cw_tail_reachable].
  destruct (audit_scan q rest free lost Hq) as [flag E]. rewrite E.
  cbn [sc_owned sc_order sc_fifo_shape sc_owned_once].
  rewrite (audit_all_owned q rest free lost Hq), !length_fmap. cbn [length andb].
  pose proof (ring_producer_range _ _ (ls_recycler _ _ _ _ Hq)).
  pose proof (rr_consumer _ _ (ls_recycler _ _ _ _ Hq)).
  cbn [recycler_view producer_position consumer_position ring_capacity] in *.
  rewrite (proj2 (Z.ltb_lt (recycler_producer_position q) _)) by lia.
  rewrite (proj2 (Z.ltb_lt (recycler_consumer_position q) _)) by lia.
  rewrite (proj2 (Z.eqb_neq (Z.of_nat (S (length rest))) 0)) by lia.
  f_equal; lia.
Qed.

Lemma linked_audit_exact_witness :
  every_node_owned_once (linked_audit_quiescent linked_example_queue) = true.
Proof.
  rewrite (linked_audit_exact linked_example_queue [] (recycler_slots linked_example_queue) []
             linked_example_shape).
  reflexivity.
Defined.

(** C38. The two packages are observationally equal: a fresh ring and a fresh
    linked queue of the same capacity answer every sequence of operations
    alike, and what they deliver is what they accepted, in order, up to the
    events still inside. *)
Theorem queue_packages_equivalent data capacity line alignment order ring linked ops :
  0 < data -> is_u64 capacity -> is_u64 line -> is_u64 alignment ->
  Forall (fun i => 0 <= i) order -> ops_nonnull ops ->
  RingSpscQueue_make capacity line = Returned ring ->
  LinkedSpscQueue_make data capacity line alignment order = Returned linked ->
  let responses := snd (run_queue ops ring) in
  snd (run_queue ops linked) = responses /\
  exists inside, accepted_events ops responses = delivered_events responses ++ inside /\
                 Z.of_nat (length inside) <= capacity.
Proof.
  intros Hd Hc Hl Ha Hpos Hops Hring Hlinked.
  destruct (ring_make_repr _ _ _ Hc Hl Hring) as [Hr Ecap].
  destruct (linked_make_shape _ _ _ _ _ _ Hd Hc Hl Ha Hpos Hlinked) as (Hs & Ecap' & _).
  assert (Hr' : linked_repr 0 linked []) by (by exists [], (recycler_slots linked), []).
  change (spsc_repr ring []) in Hr. change (spsc_repr linked []) in Hr'.
  destruct (run_queue_refines ops ring [] Hr Hops) as [E1 R1].
  destruct (run_queue_refines ops linked [] Hr' Hops) as [E2 _].
  simpl in E1, E2, R1. rewrite Ecap in E1, R1. rewrite Ecap' in E2.
  simpl. split; [by rewrite E1, E2|].
  pose proof (run_fifo_conservation capacity ops []) as Hf.
  pose proof (run_fifo_bound capacity ops []) as Hb.
  destruct (run_fifo capacity ops []) as [inside rs]. simpl in *. exists inside.
  rewrite E1. split; [done|]. apply Hb. int_lia.
Qed.

Lemma queue_packages_equivalent_witness :
  exists ring linked, RingSpscQueue_make 2 64 = Returned ring /\
    linked_example = Returned linked /\
    snd (run_queue [Op_enqueue 7; Op_enqueue 8; Op_enqueue 9; Op_dequeue] linked) =
    snd (run_queue [Op_enqueue 7; Op_enqueue 8; Op_enqueue 9; Op_dequeue] ring).
Proof.
  eexists (mkRing 2 64 16 128 [0; 0] 0 0), linked_example_queue.
  split; [reflexivity|]. split; [vm_compute; reflexivity|].
  apply (queue_packages_equivalent 4096 2 64 64 [2; 0; 1]);
    [lia | vm_compute; split; discriminate.. | repeat constructor; lia
    | repeat constructor; discriminate | reflexivity | vm_compute; reflexivity].
Defined.
