(* ===== verification/LifecycleStateMachine.v ===== *)
(** * The run lifecycle

    Models [include/cpu_prefetch/lifecycle/state_machine.hpp] and
    [src/lifecycle/state_machine.cpp]: the phase graph of a run, the artifact
    consequences every transition must declare, and the [RunStateMachine] with
    its append-only journal, outcome annotations and recoveries. *)

From stdpp Require Import prelude list strings.
From Stdlib Require Import ZArith Lia.
From S2P Require Import Prelude Validation Model.

#[local] Open Scope Z_scope.

Inductive RunPhase : Set :=
| RunPhase_planned
| RunPhase_preflight
| RunPhase_pre_run_failure
| RunPhase_preparation
| RunPhase_warmup
| RunPhase_warmup_failure
| RunPhase_logical_reset
| RunPhase_reset_failure
| RunPhase_measurement_started
| RunPhase_measurement_failure
| RunPhase_producer_complete
| RunPhase_drain
| RunPhase_drain_failure
| RunPhase_completed
| RunPhase_finalized_invalid
| RunPhase_finalized_valid.

Inductive LifecycleArtifactKind : Set :=
| LifecycleArtifactKind_plan
| LifecycleArtifactKind_warmup_schedule
| LifecycleArtifactKind_measurement_schedule
| LifecycleArtifactKind_reset_evidence
| LifecycleArtifactKind_producer_observations
| LifecycleArtifactKind_consumer_observations
| LifecycleArtifactKind_counts
| LifecycleArtifactKind_phase_integrity
| LifecycleArtifactKind_failure_evidence
| LifecycleArtifactKind_transition_journal
| LifecycleArtifactKind_recovery_evidence.

Inductive ArtifactAction : Set :=
| ArtifactAction_retain
| ArtifactAction_append_partial
| ArtifactAction_append_complete
| ArtifactAction_declare_absent.

Inductive NonFailureOutcome : Set :=
| NonFailureOutcome_reconciled_full
| NonFailureOutcome_genuine_low_effective_tail.

#[export] Instance RunPhase_eq_dec : EqDecision RunPhase.
Proof. solve_decision. Defined.

#[export] Instance LifecycleArtifactKind_eq_dec : EqDecision LifecycleArtifactKind.
Proof. solve_decision. Defined.

#[export] Instance ArtifactAction_eq_dec : EqDecision ArtifactAction.
Proof. solve_decision. Defined.

#[export] Instance NonFailureOutcome_eq_dec : EqDecision NonFailureOutcome.
Proof. solve_decision. Defined.

Record ArtifactConsequence : Set := mkArtifactConsequence {
  ac_kind : LifecycleArtifactKind;
  ac_action : ArtifactAction;
  ac_artifact_id : string;
  ac_row_count : Z
}.

Record LifecycleContext : Set := mkLifecycleContext {
  lc_run_id : Identifier;
  lc_block_id : Identifier;
  lc_warmup_schedule_id : Identifier;
  lc_measurement_schedule_id : Identifier;
  lc_warmup_namespace_id : Identifier;
  lc_measurement_namespace_id : Identifier;
  lc_transition_clock_id : string;
  lc_transition_time_unit : string
}.

Record TransitionRequest : Set := mkTransitionRequest {
  tq_next : RunPhase;
  tq_timestamp : Z;
  tq_actor : string;
  tq_reason : string;
  tq_artifact_consequences : list ArtifactConsequence
}.

Record TransitionRecord : Set := mkTransitionRecord {
  tr_sequence : Z;
  tr_from : option RunPhase;
  tr_to : RunPhase;
  tr_protocol_lifecycle_state : LifecycleState;
  tr_timestamp : Z;
  tr_actor : string;
  tr_reason : string;
  tr_artifact_consequences : list ArtifactConsequence
}.

Record OutcomeAnnotation : Set := mkOutcomeAnnotation {
  oa_outcome : NonFailureOutcome;
  oa_timestamp : Z;
  oa_actor : string;
  oa_reason : string;
  oa_lifecycle_failure : bool;
  oa_replacement_trigger : bool
}.

(** [RecoveryRequest] and [RecoveryRecord] have the same fields. *)
Record RecoveryRequest : Set := mkRecoveryRequest {
  rq_policy_id : string;
  rq_duration_ticks : Z;
  rq_started_at : Z;
  rq_completed_at : Z;
  rq_actor : string;
  rq_reason : string;
  rq_evidence_artifact_id : string
}.

Record RunStateMachine : Set := mkRunStateMachine {
  rsm_context : LifecycleContext;
  rsm_phase : RunPhase;
  rsm_protocol_state : LifecycleState;
  rsm_last_timestamp : Z;
  rsm_transitions : list TransitionRecord;
  rsm_outcomes : list OutcomeAnnotation;
  rsm_recoveries : list RecoveryRequest
}.

(** ** Tokens *)

Definition to_string_RunPhase (phase : RunPhase) : string :=
  match phase with
  | RunPhase_planned => "PLANNED"
  | RunPhase_preflight => "PREFLIGHT"
  | RunPhase_pre_run_failure => "PRE_RUN_FAILURE"
  | RunPhase_preparation => "PREPARATION"
  | RunPhase_warmup => "WARMUP"
  | RunPhase_warmup_failure => "WARMUP_FAILURE"
  | RunPhase_logical_reset => "LOGICAL_RESET"
  | RunPhase_reset_failure => "RESET_FAILURE"
  | RunPhase_measurement_started => "MEASUREMENT_STARTED"
  | RunPhase_measurement_failure => "MEASUREMENT_FAILURE"
  | RunPhase_producer_complete => "PRODUCER_COMPLETE"
  | RunPhase_drain => "DRAIN"
  | RunPhase_drain_failure => "DRAIN_FAILURE"
  | RunPhase_completed => "COMPLETED"
  | RunPhase_finalized_invalid => "FINALIZED_INVALID"
  | RunPhase_finalized_valid => "FINALIZED_VALID"
  end.

Definition to_string_LifecycleArtifactKind (kind : LifecycleArtifactKind) : string :=
  match kind with
  | LifecycleArtifactKind_plan => "PLAN"
  | LifecycleArtifactKind_warmup_schedule => "WARMUP_SCHEDULE"
  | LifecycleArtifactKind_measurement_schedule => "MEASUREMENT_SCHEDULE"
  | LifecycleArtifactKind_reset_evidence => "RESET_EVIDENCE"
  | LifecycleArtifactKind_producer_observations => "PRODUCER_OBSERVATIONS"
  | LifecycleArtifactKind_consumer_observations => "CONSUMER_OBSERVATIONS"
  | LifecycleArtifactKind_counts => "COUNTS"
  | LifecycleArtifactKind_phase_integrity => "PHASE_INTEGRITY"
  | LifecycleArtifactKind_failure_evidence => "FAILURE_EVIDENCE"
  | LifecycleArtifactKind_transition_journal => "TRANSITION_JOURNAL"
  | LifecycleArtifactKind_recovery_evidence => "RECOVERY_EVIDENCE"
  end.

Definition to_string_ArtifactAction (action : ArtifactAction) : string :=
  match action with
  | ArtifactAction_retain => "RETAIN"
  | ArtifactAction_append_partial => "APPEND_PARTIAL"
  | ArtifactAction_append_complete => "APPEND_COMPLETE"
  | ArtifactAction_declare_absent => "DECLARE_ABSENT"
  end.

Definition to_string_NonFailureOutcome (outcome : NonFailureOutcome) : string :=
  match outcome with
  | NonFailureOutcome_reconciled_full => "RECONCILED_FULL"
  | NonFailureOutcome_genuine_low_effective_tail => "GENUINE_LOW_EFFECTIVE_TAIL"
  end.

(** ** The phase graph *)

Definition is_failure_phase (phase : RunPhase) : bool :=
  match phase with
  | RunPhase_pre_run_failure | RunPhase_warmup_failure | RunPhase_reset_failure
  | RunPhase_measurement_failure | RunPhase_drain_failure => true
  | _ => false
  end.

Definition is_early_failure (phase : RunPhase) : bool :=
  match phase with
  | RunPhase_pre_run_failure | RunPhase_warmup_failure | RunPhase_reset_failure => true
  | _ => false
  end.

Definition protocol_projection (phase : RunPhase) (retained : LifecycleState) : LifecycleState :=
  match phase with
  | RunPhase_planned | RunPhase_preflight | RunPhase_preparation | RunPhase_warmup
  | RunPhase_logical_reset => LifecycleState_planned
  | RunPhase_pre_run_failure => LifecycleState_pre_run_failure
  | RunPhase_warmup_failure => LifecycleState_warmup_failure
  | RunPhase_reset_failure => LifecycleState_reset_failure
  | RunPhase_measurement_started | RunPhase_producer_complete | RunPhase_drain =>
      LifecycleState_measurement_started
  | RunPhase_measurement_failure => LifecycleState_measurement_failure
  | RunPhase_drain_failure => LifecycleState_drain_failure
  | RunPhase_completed | RunPhase_finalized_valid => LifecycleState_completed
  | RunPhase_finalized_invalid => retained
  end.

Definition phase_is (p q : RunPhase) : bool := bool_decide (p = q).

Definition is_legal_transition (from to : RunPhase) : bool :=
  match from with
  | RunPhase_planned => phase_is to RunPhase_preflight
  | RunPhase_preflight =>
      phase_is to RunPhase_preparation || phase_is to RunPhase_pre_run_failure
  | RunPhase_preparation =>
      phase_is to RunPhase_warmup || phase_is to RunPhase_pre_run_failure
  | RunPhase_warmup =>
      phase_is to RunPhase_logical_reset || phase_is to RunPhase_warmup_failure
  | RunPhase_logical_reset =>
      phase_is to RunPhase_measurement_started || phase_is to RunPhase_reset_failure
  | RunPhase_measurement_started =>
      phase_is to RunPhase_producer_complete || phase_is to RunPhase_measurement_failure
  | RunPhase_producer_complete =>
      phase_is to RunPhase_drain || phase_is to RunPhase_measurement_failure
  | RunPhase_drain => phase_is to RunPhase_completed || phase_is to RunPhase_drain_failure
  | RunPhase_completed =>
      phase_is to RunPhase_finalized_valid || phase_is to RunPhase_finalized_invalid
  | RunPhase_pre_run_failure | RunPhase_warmup_failure | RunPhase_reset_failure
  | RunPhase_measurement_failure | RunPhase_drain_failure =>
      phase_is to RunPhase_finalized_invalid
  | RunPhase_finalized_invalid | RunPhase_finalized_valid => false
  end.

Definition terminal (phase : RunPhase) : bool :=
  phase_is phase RunPhase_finalized_invalid || phase_is phase RunPhase_finalized_valid.

(** ** Artifact consequences *)

Definition has_artifact_kind (consequences : list ArtifactConsequence)
    (kind : LifecycleArtifactKind) : bool :=
  existsb (fun c => bool_decide (ac_kind c = kind)) consequences.

Definition has_present_artifact_kind (consequences : list ArtifactConsequence)
    (kind : LifecycleArtifactKind) : bool :=
  existsb (fun c => bool_decide (ac_kind c = kind) &&
                    negb (bool_decide (ac_action c = ArtifactAction_declare_absent)))
    consequences.

(** The loop over the consequences, with the set of kinds already seen. *)
Fixpoint validate_each (index : Z) (seen : list LifecycleArtifactKind)
    (consequences : list ArtifactConsequence) : list ValidationError :=
  match consequences with
  | [] => []
  | c :: consequences =>
      let path := ("$transition/artifact_consequences/" ++ std_to_string index)%string in
      error_when (bool_decide (ac_kind c ∈ seen))
        (mkError ErrorCategory_duplicate_value path "LIF-TRANSITION-ARTIFACT-UNIQUE"
           "one transition cannot state two consequences for one artifact kind") ++
      (if bool_decide (ac_action c = ArtifactAction_declare_absent) then
         error_when (negb (str_empty (ac_artifact_id c)) || negb (ac_row_count c =? 0))
           (mkError ErrorCategory_cross_field path "LIF-ABSENT-ARTIFACT"
              "an explicitly absent artifact has no ID and zero rows")
       else
         error_when (str_empty (ac_artifact_id c))
           (mkError ErrorCategory_missing_field (path ++ "/artifact_id")%string
              "LIF-ARTIFACT-ID"
              "retained or appended artifact evidence requires an ID")) ++
      validate_each (index + 1) (ac_kind c :: seen) consequences
  end.

Definition measurement_kinds : list LifecycleArtifactKind :=
  [LifecycleArtifactKind_producer_observations; LifecycleArtifactKind_consumer_observations;
   LifecycleArtifactKind_counts; LifecycleArtifactKind_phase_integrity].

Definition consequences_path : string := "$transition/artifact_consequences".

Definition validate_consequences (target : RunPhase)
    (consequences : list ArtifactConsequence) : list ValidationError :=
  match consequences with
  | [] =>
      [mkError ErrorCategory_missing_evidence consequences_path "LIF-TRANSITION-CONSEQUENCE"
         "every lifecycle transition requires explicit artifact consequences"]
  | _ :: _ =>
      validate_each 0 [] consequences ++
      error_when (is_failure_phase target &&
                  negb (has_present_artifact_kind consequences
                          LifecycleArtifactKind_failure_evidence))
        (mkError ErrorCategory_missing_evidence consequences_path "LIF-FAILURE-EVIDENCE"
           "a failure transition must append or retain failure evidence") ++
      (if is_early_failure target then
         flat_map (fun kind =>
           error_when (has_present_artifact_kind consequences kind)
             (mkError ErrorCategory_cross_field consequences_path "LIF-NO-FABRICATION"
                "pre-measurement failure cannot claim measurement artifacts") ++
           error_when (negb (has_artifact_kind consequences kind))
             (mkError ErrorCategory_missing_evidence consequences_path "LIF-ABSENCE-EXPLICIT"
                "pre-measurement failure must explicitly declare measurement artifacts absent"))
           measurement_kinds
       else []) ++
      (if phase_is target RunPhase_completed then
         flat_map (fun kind =>
           error_when (negb (has_present_artifact_kind consequences kind))
             (mkError ErrorCategory_missing_evidence consequences_path "LIF-COMPLETED-CANDIDATES"
                "completed execution requires every Stage 10 artifact candidate"))
           measurement_kinds
       else []) ++
      error_when (phase_is target RunPhase_finalized_invalid &&
                  negb (has_present_artifact_kind consequences
                          LifecycleArtifactKind_failure_evidence))
        (mkError ErrorCategory_missing_evidence consequences_path "LIF-INVALID-EVIDENCE"
           "finalized invalid execution must retain failure evidence")
  end.

(** ** The state machine *)

Definition RunStateMachine_create (context : LifecycleContext) (genesis : TransitionRequest)
  : Result RunStateMachine :=
  let errors :=
    error_when (bool_decide (lc_warmup_namespace_id context = lc_measurement_namespace_id context))
      (mkError ErrorCategory_cross_field "$lifecycle/namespaces" "LIF-NAMESPACE-SEPARATION"
         "warm-up and measurement namespaces must be distinct") ++
    error_when (bool_decide (lc_warmup_schedule_id context = lc_measurement_schedule_id context))
      (mkError ErrorCategory_cross_field "$lifecycle/schedules" "LIF-SCHEDULE-SEPARATION"
         "warm-up and measurement schedules must have distinct identities") ++
    error_when (str_empty (lc_transition_clock_id context) ||
                str_empty (lc_transition_time_unit context))
      (mkError ErrorCategory_missing_field "$lifecycle/transition_clock" "LIF-TRANSITION-CLOCK"
         "transition clock identity and unit are explicit required values") ++
    error_when (negb (phase_is (tq_next genesis) RunPhase_planned))
      (mkError ErrorCategory_cross_field "$transition/next" "LIF-GENESIS-PLANNED"
         "the initial lifecycle record must create PLANNED") ++
    error_when (str_empty (tq_actor genesis) || str_empty (tq_reason genesis))
      (mkError ErrorCategory_missing_field "$transition" "LIF-TRANSITION-WHO-WHY"
         "every transition requires a nonempty actor and reason") ++
    validate_consequences (tq_next genesis) (tq_artifact_consequences genesis) in
  match errors with
  | _ :: _ => failure errors
  | [] =>
      success (mkRunStateMachine context RunPhase_planned LifecycleState_planned
        (tq_timestamp genesis)
        [mkTransitionRecord 0 None RunPhase_planned LifecycleState_planned
           (tq_timestamp genesis) (tq_actor genesis) (tq_reason genesis)
           (tq_artifact_consequences genesis)] [] [])
  end.

(** The errors [transition] computes before it changes anything. *)
Definition transition_errors (m : RunStateMachine) (request : TransitionRequest)
  : list ValidationError :=
  error_when (negb (is_legal_transition (rsm_phase m) (tq_next request)))
    (mkError ErrorCategory_cross_field "$transition/next" "LIF-ILLEGAL-TRANSITION"
       "transition is not in the accepted Stage 10 state graph") ++
  error_when (str_empty (tq_actor request) || str_empty (tq_reason request))
    (mkError ErrorCategory_missing_field "$transition" "LIF-TRANSITION-WHO-WHY"
       "every transition requires a nonempty actor and reason") ++
  error_when (tq_timestamp request <? rsm_last_timestamp m)
    (mkError ErrorCategory_cross_field "$transition/timestamp" "LIF-TRANSITION-TIME"
       "transition timestamps must be nondecreasing") ++
  validate_consequences (tq_next request) (tq_artifact_consequences request).

Definition transition (request : TransitionRequest) (m : RunStateMachine)
  : RunStateMachine * list ValidationError :=
  match transition_errors m request with
  | (_ :: _) as errors => (m, errors)
  | [] =>
      let protocol_state := protocol_projection (tq_next request) (rsm_protocol_state m) in
      (mkRunStateMachine (rsm_context m) (tq_next request) protocol_state (tq_timestamp request)
         (rsm_transitions m ++
            [mkTransitionRecord (Z.of_nat (length (rsm_transitions m))) (Some (rsm_phase m))
               (tq_next request) protocol_state (tq_timestamp request) (tq_actor request)
               (tq_reason request) (tq_artifact_consequences request)])
         (rsm_outcomes m) (rsm_recoveries m), [])
  end.

Definition outcome_errors (m : RunStateMachine) (annotation : OutcomeAnnotation)
  : list ValidationError :=
  error_when (negb (phase_is (rsm_phase m) RunPhase_completed) &&
              negb (phase_is (rsm_phase m) RunPhase_finalized_valid))
    (mkError ErrorCategory_cross_field "$outcome" "LIF-OUTCOME-PHASE"
       "FULL and effective-tail outcomes are recorded only after completion") ++
  error_when (str_empty (oa_actor annotation) || str_empty (oa_reason annotation))
    (mkError ErrorCategory_missing_field "$outcome" "LIF-OUTCOME-WHO-WHY"
       "outcome annotation requires actor and reason") ++
  error_when (oa_timestamp annotation <? rsm_last_timestamp m)
    (mkError ErrorCategory_cross_field "$outcome/timestamp" "LIF-OUTCOME-TIME"
       "outcome timestamp precedes lifecycle evidence") ++
  error_when (oa_lifecycle_failure annotation || oa_replacement_trigger annotation)
    (mkError ErrorCategory_cross_field "$outcome" "LIF-OUTCOME-NOT-FAILURE"
       "reconciled FULL and genuine low N_eff are not lifecycle or replacement triggers").

Definition record_non_failure_outcome (annotation : OutcomeAnnotation) (m : RunStateMachine)
  : RunStateMachine * list ValidationError :=
  match outcome_errors m annotation with
  | (_ :: _) as errors => (m, errors)
  | [] =>
      (mkRunStateMachine (rsm_context m) (rsm_phase m) (rsm_protocol_state m)
         (oa_timestamp annotation) (rsm_transitions m) (rsm_outcomes m ++ [annotation])
         (rsm_recoveries m), [])
  end.

Definition recovery_errors (m : RunStateMachine) (request : RecoveryRequest)
  : list ValidationError :=
  error_when (negb (terminal (rsm_phase m)))
    (mkError ErrorCategory_cross_field "$recovery" "LIF-RECOVERY-OUTSIDE-RUN"
       "recovery may begin only after lifecycle finalization") ++
  error_when (str_empty (rq_policy_id request) || str_empty (rq_actor request) ||
              str_empty (rq_reason request) || str_empty (rq_evidence_artifact_id request) ||
              (rq_duration_ticks request =? 0))
    (mkError ErrorCategory_missing_field "$recovery" "LIF-RECOVERY-EXPLICIT"
       "recovery policy, positive duration, actor, reason, and evidence are required") ++
  error_when ((rq_started_at request <? rsm_last_timestamp m) ||
              (rq_completed_at request <? rq_started_at request) ||
              (u64_sub (rq_completed_at request) (rq_started_at request)
                 <? rq_duration_ticks request))
    (mkError ErrorCategory_cross_field "$recovery/timestamps" "LIF-RECOVERY-DURATION"
       "recovery must occur after finalization and cover its explicit duration").

Definition record_recovery (request : RecoveryRequest) (m : RunStateMachine)
  : RunStateMachine * list ValidationError :=
  match recovery_errors m request with
  | (_ :: _) as errors => (m, errors)
  | [] =>
      (mkRunStateMachine (rsm_context m) (rsm_phase m) (rsm_protocol_state m)
         (rq_completed_at request) (rsm_transitions m) (rsm_outcomes m)
         (rsm_recoveries m ++ [request]), [])
  end.

(** ** Executions *)

(** A call of the controller on the machine. *)
Inductive MachineCall : Set :=
| Call_transition (request : TransitionRequest)
| Call_outcome (annotation : OutcomeAnnotation)
| Call_recovery (request : RecoveryRequest).

Definition machine_call (c : MachineCall) (m : RunStateMachine)
  : RunStateMachine * list ValidationError :=
  match c with
  | Call_transition request => transition request m
  | Call_outcome annotation => record_non_failure_outcome annotation m
  | Call_recovery request => record_recovery request m
  end.

Inductive machine_reachable : RunStateMachine -> Prop :=
| machine_created context genesis m :
    RunStateMachine_create context genesis = success m -> machine_reachable m
| machine_called m c :
    machine_reachable m -> machine_reachable (fst (machine_call c m)).

(** Position of a phase on the way to finalization: every legal transition
    moves to a higher rank. *)
Definition phase_rank (phase : RunPhase) : nat :=
  match phase with
  | RunPhase_planned => 0
  | RunPhase_preflight => 1
  | RunPhase_preparation => 2
  | RunPhase_warmup => 3
  | RunPhase_logical_reset => 4
  | RunPhase_measurement_started => 5
  | RunPhase_producer_complete => 6
  | RunPhase_drain => 7
  | RunPhase_completed | RunPhase_pre_run_failure | RunPhase_warmup_failure
  | RunPhase_reset_failure | RunPhase_measurement_failure | RunPhase_drain_failure => 8
  | RunPhase_finalized_invalid | RunPhase_finalized_valid => 9
  end.

(** Two consecutive journal records fit: the second starts where the first
    ended, by a legal transition, not earlier. *)
Definition records_linked (r r' : TransitionRecord) : Prop :=
  tr_from r' = Some (tr_to r) /\ is_legal_transition (tr_to r) (tr_to r') = true /\
  tr_timestamp r <= tr_timestamp r' /\
  tr_protocol_lifecycle_state r' =
    protocol_projection (tr_to r') (tr_protocol_lifecycle_state r).

Fixpoint journal_linked (r : TransitionRecord) (rest : list TransitionRecord) : Prop :=
  match rest with
  | [] => True
  | r' :: rest => records_linked r r' /\ journal_linked r' rest
  end.

(** The journal starts at PLANNED, is linked, numbered, ends in the machine's
    phase, and every record carries valid consequences. *)
Record journal_wf (m : RunStateMachine) : Prop := mk_journal_wf {
  jw_linked : exists genesis rest, rsm_transitions m = genesis :: rest /\
    tr_to genesis = RunPhase_planned /\ tr_from genesis = None /\
    tr_protocol_lifecycle_state genesis = LifecycleState_planned /\ journal_linked genesis rest;
  jw_last : exists last_record, last (rsm_transitions m) = Some last_record /\
    tr_to last_record = rsm_phase m /\
    tr_protocol_lifecycle_state last_record = rsm_protocol_state m /\
    tr_timestamp last_record <= rsm_last_timestamp m;
  jw_sequence i r : rsm_transitions m !! i = Some r -> tr_sequence r = Z.of_nat i;
  jw_evidence r : r ∈ rsm_transitions m ->
    validate_consequences (tr_to r) (tr_artifact_consequences r) = [] /\
    str_empty (tr_actor r) = false /\ str_empty (tr_reason r) = false;
  jw_length : (length (rsm_transitions m) <= S (phase_rank (rsm_phase m)))%nat
}.

(** ** Lemmas *)

Lemma to_string_RunPhase_inj p q : to_string_RunPhase p = to_string_RunPhase q -> p = q.
Proof. destruct p, q; simpl; congruence. Qed.

Lemma legal_transition_rank from to :
  is_legal_transition from to = true -> (phase_rank from < phase_rank to)%nat.
Proof. destruct from, to; simpl; intros H; try discriminate H; lia. Qed.

Lemma legal_transition_not_terminal from to :
  is_legal_transition from to = true -> terminal from = false.
Proof. destruct from; simpl; done. Qed.

Lemma journal_linked_snoc r rest last_record r' :
  journal_linked r rest -> last (r :: rest) = Some last_record ->
  records_linked last_record r' -> journal_linked r (rest ++ [r']).
Proof.
  revert r. induction rest as [|x rest IH]; intros r Hl Hlast Hr; simpl.
  - simpl in Hlast. injection Hlast as ->. by split.
  - destruct Hl as [H1 H2]. split; [done|]. by apply IH.
Qed.

Lemma transition_errors_nil m request :
  transition_errors m request = [] <->
  is_legal_transition (rsm_phase m) (tq_next request) = true /\
  str_empty (tq_actor request) = false /\ str_empty (tq_reason request) = false /\
  rsm_last_timestamp m <= tq_timestamp request /\
  validate_consequences (tq_next request) (tq_artifact_consequences request) = [].
Proof.
  unfold transition_errors. rewrite !app_nil, !error_when_nil.
  rewrite negb_false_iff, orb_false_iff, Z.ltb_ge. naive_solver.
Qed.

Lemma create_wf context genesis m :
  RunStateMachine_create context genesis = success m -> journal_wf m.
Proof.
  unfold RunStateMachine_create. destruct (_ ++ _) eqn:E; [|done]. intros [= <-].
  rewrite !app_nil, !error_when_nil in E. destruct E as (_ & _ & _ & Hnext & Hwho & Hcons).
  apply orb_false_iff in Hwho as [Ha Hr].
  apply negb_false_iff, bool_decide_eq_true in Hnext. rewrite Hnext in Hcons.
  constructor; simpl.
  - by eexists _, [].
  - eexists. split_and!; [done..|simpl; lia].
  - intros [|i] r; simpl; [by intros [= <-]|]. by destruct i.
  - intros r ->%list_elem_of_singleton. done.
  - lia.
Qed.

(** An accepted transition appends one linked record. *)
Lemma transition_wf m request :
  journal_wf m -> transition_errors m request = [] -> journal_wf (fst (transition request m)).
Proof.
  intros [(g & rest & E & Hto & Hfrom & Hps & Hl) (lr & Hlast & Hphase & Hproto & Htime) Hseq Hev Hlen] He.
  unfold transition. rewrite He. simpl.
  apply transition_errors_nil in He as (Hlegal & Ha & Hr & Ht & Hc).
  constructor; simpl.
  - rewrite E in *. simpl. eexists g, _. split_and!; [done..|].
    eapply journal_linked_snoc; [done|done|]. unfold records_linked; simpl.
    rewrite Hphase, Hproto. split_and!; [done|done|lia|done].
  - eexists. rewrite last_snoc. split_and!; [done..|simpl; lia].
  - intros i r. rewrite lookup_app. destruct (rsm_transitions m !! i) as [x|] eqn:Ei.
    + intros [= <-]. by apply Hseq.
    + apply lookup_ge_None in Ei. intros Hi. apply list_lookup_singleton_Some in Hi as [Hi <-].
      simpl. lia.
  - intros r [Hin|Hin%list_elem_of_singleton]%elem_of_app; [by apply Hev|]. by subst r.
  - rewrite length_app; simpl. apply legal_transition_rank in Hlegal. lia.
Qed.

Lemma machine_call_wf c m : journal_wf m -> journal_wf (fst (machine_call c m)).
Proof.
  intros Hm. destruct c as [request|annotation|request]; simpl.
  - destruct (transition_errors m request) eqn:E; [by apply transition_wf|].
    unfold transition. by rewrite E.
  - unfold record_non_failure_outcome. destruct (outcome_errors m annotation) eqn:E; [|done].
    unfold outcome_errors in E. rewrite !app_nil, !error_when_nil, Z.ltb_ge in E.
    destruct E as (_ & _ & Ht & _). destruct Hm as [H1 (lr & ? & ? & ? & ?) H3 H4 H5].
    constructor; simpl; try done. exists lr. split_and!; [done..|lia].
  - unfold record_recovery. destruct (recovery_errors m request) eqn:E; [|done].
    unfold recovery_errors in E. rewrite !app_nil, !error_when_nil, !orb_false_iff, !Z.ltb_ge in E.
    destruct E as (_ & _ & (Ht & Ht2) & _). destruct Hm as [H1 (lr & ? & ? & ? & ?) H3 H4 H5].
    constructor; simpl; try done. exists lr. split_and!; [done..|lia].
Qed.

Lemma machine_reachable_wf m : machine_reachable m -> journal_wf m.
Proof. induction 1; [by eapply create_wf|by apply machine_call_wf]. Qed.

(** The loop over the consequences accepts exactly the lists with distinct
    kinds in which absent artifacts are bare and the others have an ID. *)
Definition consequence_ok (c : ArtifactConsequence) : Prop :=
  if decide (ac_action c = ArtifactAction_declare_absent)
  then ac_artifact_id c = EmptyString /\ ac_row_count c = 0
  else ac_artifact_id c <> EmptyString.

Lemma str_empty_true s : str_empty s = true <-> s = EmptyString.
Proof. by destruct s. Qed.

Lemma validate_each_nil index seen cs :
  validate_each index seen cs = [] <->
  Forall consequence_ok cs /\ NoDup (ac_kind <$> cs) /\
  (forall k, k ∈ ac_kind <$> cs -> k ∉ seen).
Proof.
  revert index seen. induction cs as [|c cs IH]; intros index seen; simpl.
  { split; [|done]. intros _. split_and!; [constructor|constructor|by intros k ?%not_elem_of_nil]. }
  rewrite !app_nil, error_when_nil, bool_decide_eq_false, IH, Forall_cons, NoDup_cons.
  unfold consequence_ok at 2. case_bool_decide as Ha.
  - rewrite decide_True by done. rewrite error_when_nil, orb_false_iff, !negb_false_iff.
    rewrite str_empty_true, Z.eqb_eq. set_solver.
  - rewrite decide_False by done. rewrite error_when_nil, str_empty_false. set_solver.
Qed.

(** The phases of an undisturbed run up to [phase]; empty off that path. *)
Definition success_path (phase : RunPhase) : list RunPhase :=
  let path := [RunPhase_planned; RunPhase_preflight; RunPhase_preparation; RunPhase_warmup;
               RunPhase_logical_reset; RunPhase_measurement_started;
               RunPhase_producer_complete; RunPhase_drain; RunPhase_completed;
               RunPhase_finalized_valid] in
  if bool_decide (phase ∈ path) then take (S (phase_rank phase)) path else [].

Lemma success_path_step from to :
  is_legal_transition from to = true -> success_path to <> [] ->
  success_path from <> [] /\ success_path to = success_path from ++ [to].
Proof. destruct from, to; vm_compute; intros H1 H2; try discriminate H1; done. Qed.

Lemma journal_linked_app g rest r :
  journal_linked g (rest ++ [r]) ->
  journal_linked g rest /\ exists l, last (g :: rest) = Some l /\ records_linked l r.
Proof.
  revert g. induction rest as [|x rest IH]; intros g; simpl.
  - intros [H _]. split; [done|]. by exists g.
  - intros [H1 H2]. destruct (IH x H2) as (H3 & l & H4 & H5). split; [done|]. by exists l.
Qed.

Lemma journal_success_path g rest l :
  tr_to g = RunPhase_planned -> journal_linked g rest -> last (g :: rest) = Some l ->
  success_path (tr_to l) <> [] -> tr_to <$> g :: rest = success_path (tr_to l).
Proof.
  intros Hg. revert l. induction rest as [|r rest IH] using rev_ind; intros l Hl Hlast Hs.
  - simpl in Hlast. injection Hlast as <-. simpl. rewrite Hg. reflexivity.
  - apply journal_linked_app in Hl as (Hl & x & Hx & _ & Hlegal & _).
    rewrite app_comm_cons, last_snoc in Hlast. injection Hlast as <-.
    destruct (success_path_step _ _ Hlegal Hs) as [Hs' ->].
    rewrite app_comm_cons, fmap_app, (IH x) by done. done.
Qed.

Lemma has_present_implies_kind cs k :
  has_artifact_kind cs k = true -> has_present_artifact_kind cs k = false ->
  exists c, c ∈ cs /\ ac_kind c = k /\ ac_action c = ArtifactAction_declare_absent.
Proof.
  unfold has_artifact_kind, has_present_artifact_kind. intros H1 H2.
  apply existsb_exists in H1 as (c & Hc & Hk). apply bool_decide_eq_true in Hk.
  exists c. split; [by apply list_elem_of_In|]. split; [done|].
  destruct (decide (ac_action c = ArtifactAction_declare_absent)); [done|exfalso].
  apply not_true_iff_false in H2. apply H2, existsb_exists. exists c. split; [done|].
  apply andb_true_iff. split; [by apply bool_decide_eq_true|].
  by rewrite bool_decide_false.
Qed.

Lemma has_present_spec cs k :
  has_present_artifact_kind cs k = true <->
  exists c, c ∈ cs /\ ac_kind c = k /\ ac_action c <> ArtifactAction_declare_absent.
Proof.
  unfold has_present_artifact_kind. rewrite existsb_exists. split.
  - intros (c & Hc & [Hk Ha]%andb_true_iff). exists c.
    apply bool_decide_eq_true in Hk. apply negb_true_iff, bool_decide_eq_false in Ha.
    split_and!; [by apply list_elem_of_In|done..].
  - intros (c & Hc & Hk & Ha). exists c. split; [by apply list_elem_of_In|].
    by rewrite bool_decide_true, bool_decide_false.
Qed.

Lemma flat_map_nil {A B} (f : A -> list B) l : flat_map f l = [] <-> forall x, x ∈ l -> f x = [].
Proof.
  induction l as [|x l IH]; simpl; [set_solver|]. rewrite app_nil, IH. set_solver.
Qed.

(** What an accepted list of consequences means, per target phase. *)
Lemma validate_consequences_nil target cs :
  validate_consequences target cs = [] <->
  cs <> [] /\ Forall consequence_ok cs /\ NoDup (ac_kind <$> cs) /\
  (is_failure_phase target = true \/ target = RunPhase_finalized_invalid ->
     has_present_artifact_kind cs LifecycleArtifactKind_failure_evidence = true) /\
  (is_early_failure target = true -> forall k, k ∈ measurement_kinds ->
     has_present_artifact_kind cs k = false /\ has_artifact_kind cs k = true) /\
  (target = RunPhase_completed -> forall k, k ∈ measurement_kinds ->
     has_present_artifact_kind cs k = true).
Proof.
  unfold validate_consequences. destruct cs as [|c cs]; [naive_solver|].
  rewrite !app_nil, validate_each_nil, !error_when_nil, !andb_false_iff, !negb_false_iff.
  assert (Hne : c :: cs <> []) by done. revert Hne.
  generalize (c :: cs). clear c cs. intros cs Hne.
  assert (H1 : (if is_early_failure target then flat_map (fun kind =>
           error_when (has_present_artifact_kind cs kind)
             (mkError ErrorCategory_cross_field consequences_path "LIF-NO-FABRICATION"
                "pre-measurement failure cannot claim measurement artifacts") ++
           error_when (negb (has_artifact_kind cs kind))
             (mkError ErrorCategory_missing_evidence consequences_path "LIF-ABSENCE-EXPLICIT"
                "pre-measurement failure must explicitly declare measurement artifacts absent"))
           measurement_kinds else []) = [] <->
    (is_early_failure target = true -> forall k, k ∈ measurement_kinds ->
       has_present_artifact_kind cs k = false /\ has_artifact_kind cs k = true)).
  { destruct (is_early_failure target); [|naive_solver]. rewrite flat_map_nil.
    setoid_rewrite app_nil. setoid_rewrite error_when_nil. setoid_rewrite negb_false_iff.
    naive_solver. }
  rewrite H1. clear H1.
  assert (H2 : (if phase_is target RunPhase_completed then flat_map (fun kind =>
           error_when (negb (has_present_artifact_kind cs kind))
             (mkError ErrorCategory_missing_evidence consequences_path "LIF-COMPLETED-CANDIDATES"
                "completed execution requires every Stage 10 artifact candidate"))
           measurement_kinds else []) = [] <->
    (target = RunPhase_completed -> forall k, k ∈ measurement_kinds ->
       has_present_artifact_kind cs k = true)).
  { unfold phase_is. case_bool_decide; [|naive_solver]. rewrite flat_map_nil.
    setoid_rewrite error_when_nil. setoid_rewrite negb_false_iff. naive_solver. }
  rewrite H2. clear H2. unfold phase_is. rewrite bool_decide_eq_false.
  split.
  - intros ((Hok & Hnd & _) & Hf & He & Hc & Hi). split_and!; try done.
    intros [Ht|Ht]; [destruct Hf|destruct Hi]; congruence.
  - intros (_ & Hok & Hnd & Hf & He & Hc). split_and!; try done.
    + intros k _. apply not_elem_of_nil.
    + destruct (is_failure_phase target); auto.
    + destruct (decide (target = RunPhase_finalized_invalid)); auto.
Qed.

(** An example run: context, and the evidence an early failure declares. *)
Definition example_context : LifecycleContext :=
  mkLifecycleContext "run" "block" "warm-schedule" "schedule" "warm-ns" "ns" "clock" "ps".

Definition example_request (next : RunPhase) (timestamp : Z) : TransitionRequest :=
  mkTransitionRequest next timestamp "controller" "step"
    [mkArtifactConsequence LifecycleArtifactKind_plan ArtifactAction_retain "plan-1" 1].

Definition absent (kind : LifecycleArtifactKind) : ArtifactConsequence :=
  mkArtifactConsequence kind ArtifactAction_declare_absent "" 0.

Definition example_failure (timestamp : Z) : TransitionRequest :=
  mkTransitionRequest RunPhase_pre_run_failure timestamp "controller" "clock"
    (mkArtifactConsequence LifecycleArtifactKind_failure_evidence
       ArtifactAction_append_complete "failure-1" 1 :: (absent <$> measurement_kinds)).

Definition example_machine : RunStateMachine :=
  mkRunStateMachine example_context RunPhase_planned LifecycleState_planned 10
    [mkTransitionRecord 0 None RunPhase_planned LifecycleState_planned 10 "controller" "step"
       [mkArtifactConsequence LifecycleArtifactKind_plan ArtifactAction_retain "plan-1" 1]] [] [].

Definition example_failed : RunStateMachine :=
  fst (transition (example_failure 12) (fst (transition (example_request RunPhase_preflight 11)
    example_machine))).

Lemma example_machine_reachable : machine_reachable example_machine.
Proof.
  apply (machine_created example_context (example_request RunPhase_planned 10)).
  vm_compute. reflexivity.
Qed.

Lemma example_failed_reachable : machine_reachable example_failed.
Proof.
  apply (machine_called _ (Call_transition (example_failure 12))).
  apply (machine_called _ (Call_transition (example_request RunPhase_preflight 11))).
  apply example_machine_reachable.
Qed.

(** ** Properties *)

(** C21. Every journal the machine can produce is a legal history: it starts
    with the PLANNED record, each record continues from the phase the previous
    one reached by an edge of the phase graph, with nondecreasing timestamps
    and the protocol state projected from the phase; records are numbered
    from 0, the last one is the current phase, and there are at most ten. *)
Theorem lifecycle_journal_legal m :
  machine_reachable m ->
  (exists genesis rest, rsm_transitions m = genesis :: rest /\
     tr_to genesis = RunPhase_planned /\ tr_from genesis = None /\
     journal_linked genesis rest) /\
  (exists last_record, last (rsm_transitions m) = Some last_record /\
     tr_to last_record = rsm_phase m /\
     tr_protocol_lifecycle_state last_record = rsm_protocol_state m /\
     tr_timestamp last_record <= rsm_last_timestamp m) /\
  (forall i r, rsm_transitions m !! i = Some r -> tr_sequence r = Z.of_nat i) /\
  (length (rsm_transitions m) <= 10)%nat.
Proof.
  intros Hm. apply machine_reachable_wf in Hm as [(g & rest & ? & ? & ? & _ & ?) Hlast Hseq _ Hlen].
  split_and!; [eauto 10|done|done|]. destruct (rsm_phase m); simpl in Hlen; lia.
Qed.

Lemma lifecycle_journal_legal_witness :
  rsm_phase example_failed = RunPhase_pre_run_failure /\
  (length (rsm_transitions example_failed) <= 10)%nat.
Proof.
  split; [vm_compute; reflexivity|].
  apply (lifecycle_journal_legal example_failed). exact example_failed_reachable.
Defined.

(** [transition] on every branch. It is accepted exactly when the edge is
    in the graph, actor and reason are given, time does not go back and the
    consequences are valid; then one record is appended and phase, protocol
    state and time advance. Otherwise it reports at least one error and the
    machine is unchanged. *)
Theorem lifecycle_transition_spec m request :
  let accepted :=
    is_legal_transition (rsm_phase m) (tq_next request) = true /\
    str_empty (tq_actor request) = false /\ str_empty (tq_reason request) = false /\
    rsm_last_timestamp m <= tq_timestamp request /\
    validate_consequences (tq_next request) (tq_artifact_consequences request) = [] in
  let (m', errors) := transition request m in
  (errors = [] <-> accepted) /\
  (errors = [] ->
     rsm_phase m' = tq_next request /\
     rsm_protocol_state m' = protocol_projection (tq_next request) (rsm_protocol_state m) /\
     rsm_last_timestamp m' = tq_timestamp request /\
     rsm_outcomes m' = rsm_outcomes m /\ rsm_recoveries m' = rsm_recoveries m /\
     exists r, rsm_transitions m' = rsm_transitions m ++ [r] /\
       tr_from r = Some (rsm_phase m) /\ tr_to r = tq_next request /\
       tr_sequence r = Z.of_nat (length (rsm_transitions m)) /\
       tr_artifact_consequences r = tq_artifact_consequences request) /\
  (errors <> [] -> m' = m).
Proof.
  intros accepted. pose proof (transition_errors_nil m request) as H. fold accepted in H.
  unfold transition. destruct (transition_errors m request) as [|e es]; simpl.
  - split; [done|]. split; [|done]. intros _. split_and!; [done..|]. by eexists.
  - split; [done|]. split; [done|]. done.
Qed.

(** No fabricated evidence: in any reachable journal, a failure before
    measurement declares all four measurement artifacts absent and claims none
    of them, with failure evidence present; a COMPLETED record carries all
    four; and a finalized-invalid record retains failure evidence. *)
Theorem lifecycle_no_fabrication m r :
  machine_reachable m -> r ∈ rsm_transitions m ->
  (is_early_failure (tr_to r) = true -> forall k, k ∈ measurement_kinds ->
     has_present_artifact_kind (tr_artifact_consequences r) k = false /\
     exists c, c ∈ tr_artifact_consequences r /\ ac_kind c = k /\
               ac_action c = ArtifactAction_declare_absent) /\
  (tr_to r = RunPhase_completed -> forall k, k ∈ measurement_kinds ->
     exists c, c ∈ tr_artifact_consequences r /\ ac_kind c = k /\
               ac_action c <> ArtifactAction_declare_absent /\
               ac_artifact_id c <> EmptyString) /\
  (is_failure_phase (tr_to r) = true \/ tr_to r = RunPhase_finalized_invalid ->
     has_present_artifact_kind (tr_artifact_consequences r)
       LifecycleArtifactKind_failure_evidence = true).
Proof.
  intros Hm Hr. apply machine_reachable_wf in Hm. destruct (jw_evidence m Hm r Hr) as [Hv _].
  apply validate_consequences_nil in Hv as (_ & Hok & _ & Hf & He & Hc).
  split; [|split]; [| |done].
  - intros Ht k Hk. destruct (He Ht k Hk) as [Hp Hkind]. split; [done|].
    by apply has_present_implies_kind.
  - intros Ht k Hk. specialize (Hc Ht k Hk). apply has_present_spec in Hc as (c & Hin & ? & Ha).
    exists c. split_and!; try done.
    rewrite Forall_forall in Hok. specialize (Hok c Hin). unfold consequence_ok in Hok.
    by rewrite decide_False in Hok.
Qed.

Lemma lifecycle_no_fabrication_witness :
  exists r, r ∈ rsm_transitions example_failed /\ tr_to r = RunPhase_pre_run_failure /\
    has_present_artifact_kind (tr_artifact_consequences r)
      LifecycleArtifactKind_producer_observations = false.
Proof.
  exists (default (mkTransitionRecord 0 None RunPhase_planned LifecycleState_planned 0 "" "" [])
            (rsm_transitions example_failed !! 2%nat)).
  assert (H : default (mkTransitionRecord 0 None RunPhase_planned LifecycleState_planned 0 "" "" [])
            (rsm_transitions example_failed !! 2%nat) ∈ rsm_transitions example_failed).
  { apply (list_elem_of_lookup_2 _ 2). reflexivity. }
  split; [exact H|]. split; [reflexivity|].
  apply (lifecycle_no_fabrication example_failed _ example_failed_reachable H);
    [reflexivity | left].
Defined.

(** A finalized run is closed: whatever is called afterwards, phase,
    protocol state and journal stay as they are; only outcome annotations and
    recoveries are added, and a recorded recovery lies after the run and
    covers its declared duration. *)
Theorem lifecycle_terminal_absorbing m c :
  terminal (rsm_phase m) = true -> 0 <= rsm_last_timestamp m ->
  let m' := fst (machine_call c m) in
  rsm_phase m' = rsm_phase m /\ rsm_protocol_state m' = rsm_protocol_state m /\
  rsm_transitions m' = rsm_transitions m /\
  (forall request, c = Call_recovery request -> snd (machine_call c m) = [] ->
     rq_completed_at request <= u64_max ->
     rsm_recoveries m' = rsm_recoveries m ++ [request] /\
     rsm_last_timestamp m <= rq_started_at request /\
     rq_started_at request + rq_duration_ticks request <= rq_completed_at request).
Proof.
  intros Ht H0. destruct c as [request|annotation|request]; simpl.
  - unfold transition. destruct (transition_errors m request) eqn:E; [|by simpl].
    apply transition_errors_nil in E as (Hl & _). apply legal_transition_not_terminal in Hl.
    congruence.
  - unfold record_non_failure_outcome. by destruct (outcome_errors m annotation).
  - unfold record_recovery. destruct (recovery_errors m request) eqn:E; simpl; [|by split_and!].
    split_and!; [done..|]. intros r [= <-] _ Hmax.
    unfold recovery_errors in E. rewrite !app_nil, !error_when_nil, !orb_false_iff, !Z.ltb_ge in E.
    destruct E as (_ & _ & (Hs & Hc) & Hd). rewrite u64_sub_small in Hd by lia.
    split_and!; [done|lia|lia].
Qed.

Lemma lifecycle_terminal_absorbing_witness :
  rsm_phase (fst (machine_call (Call_transition (example_request RunPhase_planned 99))
     (mkRunStateMachine example_context RunPhase_finalized_valid LifecycleState_completed 20
        [] [] []))) = RunPhase_finalized_valid.
Proof.
  apply (lifecycle_terminal_absorbing
    (mkRunStateMachine example_context RunPhase_finalized_valid LifecycleState_completed 20
        [] [] []) (Call_transition (example_request RunPhase_planned 99)));
    [reflexivity | simpl; lia].
Defined.

(** A run is finalized valid only by the undisturbed path: the journal
    then consists of exactly the ten phases PLANNED, PREFLIGHT, PREPARATION,
    WARMUP, LOGICAL_RESET, MEASUREMENT_STARTED, PRODUCER_COMPLETE, DRAIN,
    COMPLETED, FINALIZED_VALID; more generally every phase off the failure
    branches has exactly its prefix of that path as its history. *)
Theorem lifecycle_success_history m :
  machine_reachable m -> success_path (rsm_phase m) <> [] ->
  tr_to <$> rsm_transitions m = success_path (rsm_phase m).
Proof.
  intros Hm Hs. apply machine_reachable_wf in Hm.
  destruct (jw_linked m Hm) as (g & rest & E & Hg & _ & _ & Hl).
  destruct (jw_last m Hm) as (l & Hlast & Hphase & _). rewrite <- Hphase in *.
  rewrite E in Hlast |- *. by apply journal_success_path.
Qed.

Lemma lifecycle_success_history_witness :
  tr_to <$> rsm_transitions (fst (transition (example_request RunPhase_preflight 11)
    example_machine)) = [RunPhase_planned; RunPhase_preflight].
Proof.
  apply (lifecycle_success_history (fst (transition (example_request RunPhase_preflight 11)
    example_machine))).
  - apply (machine_called _ (Call_transition (example_request RunPhase_preflight 11))).
    exact example_machine_reachable.
  - vm_compute. discriminate.
Defined.
