(* ===== verification/LifecycleRuntime.v ===== *)
(** * Run-time controls of the lifecycle

    Models [include/cpu_prefetch/lifecycle/runtime.hpp] and
    [src/lifecycle/runtime.cpp]: the termination word, the start barrier of the
    two workers, and the validators of a prepared schedule, of the preparation
    and warm-up evidence and of the logical reset between warm-up and
    measurement.

    The barrier is modelled twice: as an object with its operations executed one
    at a time, and as a step relation on its single atomic accesses, in which a
    load may return a stale value. In the latter, only the release store of
    [released_] and the acquire load that reads it order the accesses to the
    relaxed measurement origin. *)

From stdpp Require Import prelude list strings.
From Stdlib Require Import ZArith Lia.
From S2P Require Import Prelude Validation Model QueueCommon.

#[local] Open Scope Z_scope.
#[local] Open Scope checked_scope.

(** ** The termination word *)

Record TerminationControl : Set := mkTerminationControl {
  tc_value : Z;
  tc_cache_line_bytes : Z
}.

(** [sizeof(std::atomic<std::uint32_t>)]. *)
Definition sizeof_atomic_u32 : Z := 4.

(** The constructor. Its [AlignedBlock] of [cache_line_bytes] bytes is allocated
    before the line size is validated; allocation itself is not modelled. *)
Definition TerminationControl_make (cache_line_bytes : Z) : Throws TerminationControl :=
  let! _ := validate_cache_line_bytes cache_line_bytes in
  throw_if (cache_line_bytes <? sizeof_atomic_u32)
    "termination cache line is smaller than its atomic value";;
  Returned (mkTerminationControl 0 cache_line_bytes).

Definition reset_quiescent (c : TerminationControl) (workers_quiescent : bool) :
    TerminationControl * bool :=
  if negb workers_quiescent then (c, false)
  else (mkTerminationControl 0 (tc_cache_line_bytes c), true).

Definition publish_arrivals_finished (c : TerminationControl) : TerminationControl :=
  mkTerminationControl 1 (tc_cache_line_bytes c).

Definition arrivals_finished (c : TerminationControl) : bool := tc_value c =? 1.

(** ** The start barrier *)

Inductive StartBarrierStatus : Set :=
| StartBarrierStatus_ready
| StartBarrierStatus_released
| StartBarrierStatus_cancelled
| StartBarrierStatus_watchdog_expired
| StartBarrierStatus_duplicate_worker.

Inductive WorkerRole : Set :=
| WorkerRole_producer
| WorkerRole_consumer.

Definition role_code (role : WorkerRole) : Z :=
  match role with WorkerRole_producer => 0 | WorkerRole_consumer => 1 end.

Record WorkerStartBarrier : Set := mkWorkerStartBarrier {
  wb_arrived_mask : Z;
  wb_released : bool;
  wb_cancelled : bool;
  wb_measurement_origin_ticks : Z
}.

Definition barrier_initial : WorkerStartBarrier := mkWorkerStartBarrier 0 false false 0.

Definition barrier_cancel (b : WorkerStartBarrier) : WorkerStartBarrier :=
  mkWorkerStartBarrier (wb_arrived_mask b) (wb_released b) true
    (wb_measurement_origin_ticks b).

Definition role_bit (role : WorkerRole) : Z := Z.shiftl 1 (role_code role).

Definition arrive (b : WorkerStartBarrier) (role : WorkerRole) :
    WorkerStartBarrier * StartBarrierStatus :=
  let bit := role_bit role in
  let previous := wb_arrived_mask b in
  let b := mkWorkerStartBarrier (Z.lor previous bit) (wb_released b) (wb_cancelled b)
             (wb_measurement_origin_ticks b) in
  if negb (Z.land previous bit =? 0)
  then (barrier_cancel b, StartBarrierStatus_duplicate_worker)
  else (b, StartBarrierStatus_ready).

Definition all_workers_ready (b : WorkerStartBarrier) : bool := wb_arrived_mask b =? 3.

Definition release_with_measurement_origin (b : WorkerStartBarrier)
    (measurement_origin_ticks : Z) : WorkerStartBarrier * StartBarrierStatus :=
  if wb_cancelled b then (b, StartBarrierStatus_cancelled)
  else if negb (all_workers_ready b) then (b, StartBarrierStatus_watchdog_expired)
  else (mkWorkerStartBarrier (wb_arrived_mask b) true (wb_cancelled b)
          measurement_origin_ticks, StartBarrierStatus_released).

(** The two poll loops. [before_poll k] is the barrier the loop finds at its
    [k]-th poll: the other threads change it while the loop relaxes. *)
Definition wait_body (decided : WorkerStartBarrier -> bool) (outcome : StartBarrierStatus)
    (before_poll : Z -> WorkerStartBarrier) (poll : Z) : Z + StartBarrierStatus :=
  if wb_cancelled (before_poll poll) then inr StartBarrierStatus_cancelled
  else if decided (before_poll poll) then inr outcome
  else inl (poll + 1).

Definition barrier_wait (decided : WorkerStartBarrier -> bool) (outcome : StartBarrierStatus)
    (poll_limit : Z) (before_poll : Z -> WorkerStartBarrier) : StartBarrierStatus :=
  match poll_limit with
  | Zpos limit =>
      match loop_pos limit (wait_body decided outcome before_poll) 0 with
      | inr status => status
      | inl _ => StartBarrierStatus_watchdog_expired
      end
  | _ => StartBarrierStatus_watchdog_expired
  end.

Definition controller_wait : Z -> (Z -> WorkerStartBarrier) -> StartBarrierStatus :=
  barrier_wait all_workers_ready StartBarrierStatus_ready.

Definition worker_wait : Z -> (Z -> WorkerStartBarrier) -> StartBarrierStatus :=
  barrier_wait wb_released StartBarrierStatus_released.

(** ** The barrier, access by access

    The controller runs [release_with_measurement_origin] any number of times;
    each worker arrives, polls [released_] and, once it is released, reads the
    measurement origin. *)

Inductive ControllerPc : Set :=
| Controller_outside
| Controller_not_cancelled (origin : Z)
| Controller_workers_ready (origin : Z)
| Controller_origin_stored (origin : Z).

Inductive WorkerPc : Set :=
| Worker_preparing
| Worker_polling
| Worker_cancelled
| Worker_released (origin_view : nat)
| Worker_measuring (origin : Z).

Record BarrierState : Set := mkBarrierState {
  (* Every value the location has held, oldest first; a load returns one of
     them. The worker's view is the oldest index it may still read. *)
  bs_mask_history : list Z;
  bs_origin_history : list Z;
  (* The release stores of [released_]: the origin index each one carries. *)
  bs_released_views : list nat;
  bs_cancelled : bool;
  bs_controller : ControllerPc;
  bs_producer : WorkerPc;
  bs_consumer : WorkerPc
}.

Definition worker_pc (s : BarrierState) (role : WorkerRole) : WorkerPc :=
  match role with
  | WorkerRole_producer => bs_producer s
  | WorkerRole_consumer => bs_consumer s
  end.

Definition set_worker (s : BarrierState) (role : WorkerRole) (pc : WorkerPc) : BarrierState :=
  mkBarrierState (bs_mask_history s) (bs_origin_history s) (bs_released_views s)
    (bs_cancelled s) (bs_controller s)
    (match role with WorkerRole_producer => pc | _ => bs_producer s end)
    (match role with WorkerRole_consumer => pc | _ => bs_consumer s end).

Definition set_controller (s : BarrierState) (pc : ControllerPc) : BarrierState :=
  mkBarrierState (bs_mask_history s) (bs_origin_history s) (bs_released_views s)
    (bs_cancelled s) pc (bs_producer s) (bs_consumer s).

Definition push_mask (s : BarrierState) (mask : Z) : BarrierState :=
  mkBarrierState (bs_mask_history s ++ [mask]) (bs_origin_history s) (bs_released_views s)
    (bs_cancelled s) (bs_controller s) (bs_producer s) (bs_consumer s).

Definition push_origin (s : BarrierState) (origin : Z) : BarrierState :=
  mkBarrierState (bs_mask_history s) (bs_origin_history s ++ [origin]) (bs_released_views s)
    (bs_cancelled s) (bs_controller s) (bs_producer s) (bs_consumer s).

Definition push_released (s : BarrierState) : BarrierState :=
  mkBarrierState (bs_mask_history s) (bs_origin_history s)
    (bs_released_views s ++ [pred (length (bs_origin_history s))])
    (bs_cancelled s) (bs_controller s) (bs_producer s) (bs_consumer s).

Definition set_cancelled (s : BarrierState) : BarrierState :=
  mkBarrierState (bs_mask_history s) (bs_origin_history s) (bs_released_views s)
    true (bs_controller s) (bs_producer s) (bs_consumer s).

(** [fetch_or] is a read-modify-write: it reads the newest value. *)
Definition newest_mask (s : BarrierState) : Z := default 0 (last (bs_mask_history s)).

Inductive barrier_step : BarrierState -> BarrierState -> Prop :=
| step_arrive_first s role :
    worker_pc s role = Worker_preparing ->
    Z.land (newest_mask s) (role_bit role) = 0 ->
    barrier_step s
      (set_worker (push_mask s (Z.lor (newest_mask s) (role_bit role))) role Worker_polling)
| step_arrive_duplicate s role :
    (* The [cancel()] that follows is a [step_cancel]. *)
    Z.land (newest_mask s) (role_bit role) <> 0 ->
    barrier_step s (push_mask s (Z.lor (newest_mask s) (role_bit role)))
| step_cancel s : barrier_step s (set_cancelled s)
| step_release_checks_cancelled s origin :
    (* A stale load may still read [false]. *)
    bs_controller s = Controller_outside ->
    barrier_step s (set_controller s (Controller_not_cancelled origin))
| step_release_refused_cancelled s :
    bs_controller s = Controller_outside -> bs_cancelled s = true ->
    barrier_step s s
| step_release_checks_mask s origin mask :
    bs_controller s = Controller_not_cancelled origin ->
    mask ∈ bs_mask_history s -> mask = 3 ->
    barrier_step s (set_controller s (Controller_workers_ready origin))
| step_release_refused_mask s origin mask :
    bs_controller s = Controller_not_cancelled origin ->
    mask ∈ bs_mask_history s -> mask <> 3 ->
    barrier_step s (set_controller s Controller_outside)
| step_release_stores_origin s origin :
    bs_controller s = Controller_workers_ready origin ->
    barrier_step s (set_controller (push_origin s origin) (Controller_origin_stored origin))
| step_release_stores_released s origin :
    bs_controller s = Controller_origin_stored origin ->
    barrier_step s (set_controller (push_released s) Controller_outside)
| step_poll_cancelled s role :
    worker_pc s role = Worker_polling -> bs_cancelled s = true ->
    barrier_step s (set_worker s role Worker_cancelled)
| step_poll_released s role view :
    worker_pc s role = Worker_polling -> view ∈ bs_released_views s ->
    barrier_step s (set_worker s role (Worker_released view))
| step_read_origin s role view index origin :
    worker_pc s role = Worker_released view ->
    (view <= index)%nat -> bs_origin_history s !! index = Some origin ->
    barrier_step s (set_worker s role (Worker_measuring origin)).

Definition barrier_state_initial : BarrierState :=
  mkBarrierState [0] [0] [] false Controller_outside Worker_preparing Worker_preparing.

Inductive barrier_reachable : BarrierState -> Prop :=
| barrier_reachable_initial : barrier_reachable barrier_state_initial
| barrier_reachable_step s s' :
    barrier_reachable s -> barrier_step s s' -> barrier_reachable s'.

(** ** Validation of a prepared schedule *)

Record PreparedScheduleView : Set := mkPreparedScheduleView {
  sv_deadline_ticks : list Z;
  sv_origin_ticks : Z;
  sv_horizon_ticks : Z
}.

(** The loop body for one deadline; [previous] is the deadline before it. *)
Definition deadline_errors (origin horizon index : Z) (previous : option Z) (deadline : Z) :
    list ValidationError :=
  let path := ("$schedule/deadline_ticks/" +:+ std_to_string index)%string in
  error_when ((deadline <? origin) || (deadline >=? horizon))
    (mkError ErrorCategory_out_of_range path "LIF-SCHEDULE-HALF-OPEN"
       "each deadline must be in [origin_ticks, horizon_ticks)") ++
  error_when (match previous with Some p => deadline <? p | None => false end)
    (mkError ErrorCategory_cross_field path "LIF-SCHEDULE-NONDECREASING"
       "prepared deadlines must be nondecreasing").

Fixpoint deadlines_errors (origin horizon index : Z) (previous : option Z)
    (deadlines : list Z) : list ValidationError :=
  match deadlines with
  | [] => []
  | deadline :: rest =>
      deadline_errors origin horizon index previous deadline ++
      deadlines_errors origin horizon (index + 1) (Some deadline) rest
  end.

Definition validate_prepared_schedule (schedule : PreparedScheduleView) :
    list ValidationError :=
  error_when (sv_origin_ticks schedule >? sv_horizon_ticks schedule)
    (mkError ErrorCategory_cross_field "$schedule/horizon_ticks" "LIF-SCHEDULE-HORIZON"
       "schedule origin must not exceed its frozen horizon") ++
  deadlines_errors (sv_origin_ticks schedule) (sv_horizon_ticks schedule) 0 None
    (sv_deadline_ticks schedule).

(** ** Validation of the preparation *)

Record PreparationEvidence : Set := mkPreparationEvidence {
  pe_warmup_schedule_id : Identifier;
  pe_measurement_schedule_id : Identifier;
  pe_warmup_namespace_id : Identifier;
  pe_measurement_namespace_id : Identifier;
  pe_deterministic_initialization_id : string;
  pe_scientific_configuration_frozen : bool;
  pe_platform_state_independently_verified : bool;
  pe_queue_initialized : bool;
  pe_record_storage_initialized : bool;
  pe_schedules_fully_decoded : bool;
  pe_observation_storage_preallocated : bool;
  pe_termination_reset_while_quiescent : bool;
  pe_measurement_origin_unset : bool;
  pe_allocation_count_at_preparation_end : Z
}.

Definition id_eqb (a b : Identifier) : bool := bool_decide (a = b).

Definition validate_preparation (expected_warmup_schedule_id
    expected_measurement_schedule_id expected_warmup_namespace_id
    expected_measurement_namespace_id : Identifier) (evidence : PreparationEvidence) :
    list ValidationError :=
  error_when
    (id_eqb expected_warmup_schedule_id expected_measurement_schedule_id ||
     id_eqb expected_warmup_namespace_id expected_measurement_namespace_id ||
     negb (id_eqb (pe_warmup_schedule_id evidence) expected_warmup_schedule_id) ||
     negb (id_eqb (pe_measurement_schedule_id evidence) expected_measurement_schedule_id) ||
     negb (id_eqb (pe_warmup_namespace_id evidence) expected_warmup_namespace_id) ||
     negb (id_eqb (pe_measurement_namespace_id evidence) expected_measurement_namespace_id))
    (mkError ErrorCategory_reference_mismatch "$preparation/schedule_identity"
       "LIF-PREP-SCHEDULES"
       "preparation must retain distinct, explicitly planned warm-up and measurement schedule and namespace identities") ++
  error_when (str_empty (pe_deterministic_initialization_id evidence))
    (mkError ErrorCategory_missing_field "$preparation/deterministic_initialization_id"
       "LIF-PREP-ID" "deterministic initialization requires an evidence identity") ++
  error_when
    (negb (pe_scientific_configuration_frozen evidence) ||
     negb (pe_platform_state_independently_verified evidence) ||
     negb (pe_queue_initialized evidence) ||
     negb (pe_record_storage_initialized evidence) ||
     negb (pe_schedules_fully_decoded evidence) ||
     negb (pe_observation_storage_preallocated evidence) ||
     negb (pe_termination_reset_while_quiescent evidence) ||
     negb (pe_measurement_origin_unset evidence))
    (mkError ErrorCategory_missing_evidence "$preparation/readiness" "LIF-PREP-READY"
       "configuration, verified platform state, queue, records, schedules, observation storage, termination, and unset origin are all required").

(** ** Validation of the warm-up *)

Record WarmupCompletionEvidence : Set := mkWarmupCompletionEvidence {
  we_schedule_id : Identifier;
  we_namespace_id : Identifier;
  we_offered_count : Z;
  we_attempted_count : Z;
  we_producer_complete : bool;
  we_warm_arrivals_stopped : bool;
  we_queue_drained : bool;
  we_both_workers_at_reset_barrier : bool;
  we_measurement_observations_emitted : bool;
  we_resumed_prior_measurement : bool;
  we_regenerated_schedule : bool;
  we_allocation_count_delta : Z
}.

Definition validate_warmup_completion (expected_schedule_id expected_namespace_id : Identifier)
    (evidence : WarmupCompletionEvidence) : list ValidationError :=
  error_when
    (negb (id_eqb (we_schedule_id evidence) expected_schedule_id) ||
     negb (id_eqb (we_namespace_id evidence) expected_namespace_id))
    (mkError ErrorCategory_reference_mismatch "$warmup/schedule_identity"
       "LIF-WARMUP-SCHEDULE"
       "warm-up must consume only its planned schedule and namespace") ++
  error_when
    (negb (we_attempted_count evidence =? we_offered_count evidence) ||
     negb (we_producer_complete evidence) || negb (we_warm_arrivals_stopped evidence) ||
     negb (we_queue_drained evidence) || negb (we_both_workers_at_reset_barrier evidence))
    (mkError ErrorCategory_cross_field "$warmup/completion" "LIF-WARMUP-COMPLETE"
       "all warm-up arrivals must be attempted, then stopped and drained before both workers enter the reset barrier") ++
  error_when
    (we_measurement_observations_emitted evidence || we_resumed_prior_measurement evidence ||
     we_regenerated_schedule evidence || negb (we_allocation_count_delta evidence =? 0))
    (mkError ErrorCategory_cross_field "$warmup/isolation" "LIF-WARMUP-ISOLATED"
       "warm-up cannot emit measurement rows, continue a prior measurement, regenerate a schedule, or allocate after preparation").

(** ** The logical reset *)

Inductive QueueResetKind : Set :=
| QueueResetKind_ring
| QueueResetKind_linked.

Record WarmStartIdentity : Set := mkWarmStartIdentity {
  wi_allocation_id : string;
  wi_virtual_mapping_id : string;
  wi_data_home_id : string;
  wi_record_permutation_id : string;
  wi_payload_content_id : string
}.

Record LogicalResetRequest : Set := mkLogicalResetRequest {
  rq_queue_kind : QueueResetKind;
  rq_capacity_events : Z;
  rq_initial_consumer_checksum : Z;
  rq_warm_identity : WarmStartIdentity
}.

Record LogicalResetEvidence : Set := mkLogicalResetEvidence {
  re_queue_kind : QueueResetKind;
  re_capacity_events : Z;
  re_warm_arrivals_stopped : bool;
  re_queue_drained : bool;
  re_workers_at_reset_barrier : bool;
  re_occupancy_after_reset : Z;
  re_ring_slots_empty : bool;
  re_ring_producer_position_zero : bool;
  re_ring_consumer_position_zero : bool;
  re_linked_sentinel_is_pi0 : bool;
  re_linked_recycler_order_is_pi1_to_pi_c : bool;
  re_linked_recycler_node_count : Z;
  re_logical_sequence : Z;
  re_accepted_ordinal : Z;
  re_producer_attempted : Z;
  re_producer_accepted : Z;
  re_producer_full : Z;
  re_consumer_consumed : Z;
  re_producer_sample_position : Z;
  re_consumer_sample_position : Z;
  re_consumer_checksum : Z;
  re_measurement_origin_cleared : bool;
  re_identity_after_reset : WarmStartIdentity;
  re_allocation_count_delta : Z;
  re_regenerated_schedule : bool;
  re_remapped_memory : bool;
  re_retouched_payload : bool
}.

#[export] Instance QueueResetKind_eq_dec : EqDecision QueueResetKind.
Proof. solve_decision. Defined.

#[export] Instance WarmStartIdentity_eq_dec : EqDecision WarmStartIdentity.
Proof. solve_decision. Defined.

Definition identity_complete (identity : WarmStartIdentity) : bool :=
  negb (str_empty (wi_allocation_id identity)) &&
  negb (str_empty (wi_virtual_mapping_id identity)) &&
  negb (str_empty (wi_data_home_id identity)) &&
  negb (str_empty (wi_record_permutation_id identity)) &&
  negb (str_empty (wi_payload_content_id identity)).

Definition validate_logical_reset (request : LogicalResetRequest)
    (evidence : LogicalResetEvidence) : list ValidationError :=
  error_when (rq_capacity_events request =? 0)
    (mkError ErrorCategory_out_of_range "$reset_request/capacity_events"
       "LIF-RESET-CAPACITY" "queue capacity must be positive") ++
  error_when (negb (identity_complete (rq_warm_identity request)) ||
              negb (identity_complete (re_identity_after_reset evidence)))
    (mkError ErrorCategory_missing_field "$reset/identity" "LIF-WARM-IDENTITY"
       "allocation, mapping, data-home, permutation, and payload identities must all be explicit") ++
  error_when (negb (bool_decide (re_queue_kind evidence = rq_queue_kind request)) ||
              negb (re_capacity_events evidence =? rq_capacity_events request))
    (mkError ErrorCategory_cross_field "$reset/queue" "LIF-RESET-QUEUE-MATCH"
       "reset evidence must identify the requested queue kind and capacity") ++
  error_when (negb (re_warm_arrivals_stopped evidence) || negb (re_queue_drained evidence) ||
              negb (re_workers_at_reset_barrier evidence))
    (mkError ErrorCategory_missing_evidence "$reset/warmup_boundary" "LIF-WARMUP-BOUNDARY"
       "warm arrivals must stop, the queue must drain, and both workers must reach the reset barrier") ++
  error_when (negb (re_occupancy_after_reset evidence =? 0))
    (mkError ErrorCategory_cross_field "$reset/occupancy_after_reset" "LIF-RESET-EMPTY"
       "logical reset must leave zero queue occupancy") ++
  error_when (bool_decide (rq_queue_kind request = QueueResetKind_ring) &&
              (negb (re_ring_slots_empty evidence) ||
               negb (re_ring_producer_position_zero evidence) ||
               negb (re_ring_consumer_position_zero evidence)))
    (mkError ErrorCategory_missing_evidence "$reset/ring" "LIF-RING-RESET"
       "ring reset requires empty slots and zero producer/consumer positions") ++
  error_when (bool_decide (rq_queue_kind request = QueueResetKind_linked) &&
              (negb (re_linked_sentinel_is_pi0 evidence) ||
               negb (re_linked_recycler_order_is_pi1_to_pi_c evidence) ||
               negb (re_linked_recycler_node_count evidence =? rq_capacity_events request)))
    (mkError ErrorCategory_missing_evidence "$reset/linked" "LIF-LINKED-RESET"
       "linked reset requires sentinel pi0 and recycler pi1..piC") ++
  error_when (negb (re_logical_sequence evidence =? 0) ||
              negb (re_accepted_ordinal evidence =? 0) ||
              negb (re_producer_attempted evidence =? 0) ||
              negb (re_producer_accepted evidence =? 0) ||
              negb (re_producer_full evidence =? 0) ||
              negb (re_consumer_consumed evidence =? 0) ||
              negb (re_producer_sample_position evidence =? 0) ||
              negb (re_consumer_sample_position evidence =? 0))
    (mkError ErrorCategory_cross_field "$reset/logical_state" "LIF-LOGICAL-ZERO"
       "sequence, ordinal, counts, and sample positions must reset to zero") ++
  error_when (negb (re_consumer_checksum evidence =? rq_initial_consumer_checksum request))
    (mkError ErrorCategory_cross_field "$reset/consumer_checksum" "LIF-CHECKSUM-RESET"
       "consumer checksum must equal the explicitly requested initial value") ++
  error_when (negb (re_measurement_origin_cleared evidence))
    (mkError ErrorCategory_cross_field "$reset/measurement_origin_cleared" "LIF-ORIGIN-RESET"
       "measurement origin must be unset until the post-reset start barrier") ++
  error_when (negb (bool_decide (re_identity_after_reset evidence = rq_warm_identity request)) ||
              negb (re_allocation_count_delta evidence =? 0) ||
              re_regenerated_schedule evidence || re_remapped_memory evidence ||
              re_retouched_payload evidence)
    (mkError ErrorCategory_cross_field "$reset/warm_start" "LIF-WARM-START-PRESERVE"
       "reset must preserve allocation, mappings, data homes, permutation, payload, and pre-generated schedules").

(** [backend] is [LogicalResetBackend::perform]. *)
Definition perform_and_verify_logical_reset
    (backend : LogicalResetRequest -> Result LogicalResetEvidence)
    (request : LogicalResetRequest) : Result LogicalResetEvidence :=
  match backend request with
  | failure errors => failure errors
  | success evidence =>
      match validate_logical_reset request evidence with
      | [] => success evidence
      | errors => failure errors
      end
  end.

(** ** Specifications *)

(** A schedule the producer may replay: a half-open window that holds every
    deadline, and deadlines in order. *)
Definition schedule_ok (schedule : PreparedScheduleView) : Prop :=
  sv_origin_ticks schedule <= sv_horizon_ticks schedule /\
  (forall i d, sv_deadline_ticks schedule !! i = Some d ->
     sv_origin_ticks schedule <= d < sv_horizon_ticks schedule) /\
  (forall i j d e, (i <= j)%nat -> sv_deadline_ticks schedule !! i = Some d ->
     sv_deadline_ticks schedule !! j = Some e -> d <= e).

(** The structure a fresh queue of this kind has. *)
Definition queue_state_reset (request : LogicalResetRequest) (e : LogicalResetEvidence) : Prop :=
  match rq_queue_kind request with
  | QueueResetKind_ring =>
      re_ring_slots_empty e = true /\ re_ring_producer_position_zero e = true /\
      re_ring_consumer_position_zero e = true
  | QueueResetKind_linked =>
      re_linked_sentinel_is_pi0 e = true /\ re_linked_recycler_order_is_pi1_to_pi_c e = true /\
      re_linked_recycler_node_count e = rq_capacity_events request
  end.

Definition counters_zero (e : LogicalResetEvidence) : Prop :=
  Forall (eq 0)
    [re_occupancy_after_reset e; re_logical_sequence e; re_accepted_ordinal e;
     re_producer_attempted e; re_producer_accepted e; re_producer_full e;
     re_consumer_consumed e; re_producer_sample_position e; re_consumer_sample_position e].

Definition warm_start_preserved (request : LogicalResetRequest) (e : LogicalResetEvidence) : Prop :=
  identity_complete (rq_warm_identity request) = true /\
  re_identity_after_reset e = rq_warm_identity request /\
  re_allocation_count_delta e = 0 /\ re_regenerated_schedule e = false /\
  re_remapped_memory e = false /\ re_retouched_payload e = false.

Definition reset_ok (request : LogicalResetRequest) (e : LogicalResetEvidence) : Prop :=
  rq_capacity_events request <> 0 /\
  re_queue_kind e = rq_queue_kind request /\
  re_capacity_events e = rq_capacity_events request /\
  re_warm_arrivals_stopped e = true /\ re_queue_drained e = true /\
  re_workers_at_reset_barrier e = true /\
  queue_state_reset request e /\ counters_zero e /\
  re_consumer_checksum e = rq_initial_consumer_checksum request /\
  re_measurement_origin_cleared e = true /\
  warm_start_preserved request e.

(** ** Lemmas *)

(** Turn "no error was appended" into the conjunction of the guards. *)
Ltac guards :=
  rewrite ?app_nil, ?error_when_nil, ?orb_false_iff, ?negb_false_iff, ?Z.eqb_eq, ?Z.eqb_neq,
    ?bool_decide_eq_true, ?bool_decide_eq_false.

Lemma validate_logical_reset_nil request e :
  validate_logical_reset request e = [] <-> reset_ok request e.
Proof.
  unfold validate_logical_reset, reset_ok, queue_state_reset, counters_zero,
    warm_start_preserved. guards. rewrite !Forall_cons, Forall_nil.
  destruct (rq_queue_kind request); simpl; guards; intuition (try done; congruence).
Qed.

Lemma deadlines_errors_nil origin horizon index previous deadlines :
  deadlines_errors origin horizon index previous deadlines = [] <->
  (forall i d, deadlines !! i = Some d -> origin <= d < horizon) /\
  (forall i j d e, (i <= j)%nat -> (option_list previous ++ deadlines) !! i = Some d ->
     (option_list previous ++ deadlines) !! j = Some e -> d <= e).
Proof.
  revert index previous. induction deadlines as [|d rest IH]; intros index previous; simpl.
  - split; [|done]. intros _. split; [done|]. intros i j d e Hij Hd He.
    destruct previous; simpl in *; destruct i, j; simpl in *; simplify_eq; try done; lia.
  - rewrite app_nil, IH. unfold deadline_errors. guards. rewrite Z.ltb_ge, Z.geb_leb, Z.leb_gt.
    split.
    + intros [[[Ho Hh] Hp] [Hrange Hsorted]]. split.
      * intros [|i] x; simpl; [intros [= <-]; lia | apply Hrange].
      * destruct previous as [p|]; simpl in *; [|apply Hsorted].
        rewrite Z.ltb_ge in Hp. intros i j x y Hij Hx Hy.
        destruct j as [|j]; [assert (i = 0)%nat by lia; simplify_eq/=; lia|].
        simpl in Hy. pose proof (Hsorted 0%nat j d y) as Hdy. simpl in Hdy.
        destruct i as [|i]; simpl in Hx.
        { simplify_eq. etrans; [exact Hp|]. apply Hdy; [lia|done|done]. }
        apply (Hsorted i j); [lia|done|done].
    + intros [Hrange Hsorted]. pose proof (Hrange 0%nat d eq_refl).
      split; [split; [lia|]|split].
      * destruct previous as [p|]; [|done]. apply Z.ltb_ge.
        apply (Hsorted 0%nat 1%nat); [lia|done|done].
      * intros i x Hi. apply (Hrange (S i) x Hi).
      * intros i j x y Hij Hx Hy. destruct previous as [p|]; simpl in Hsorted.
        { apply (Hsorted (S i) (S j)); [lia|done|done]. }
        apply (Hsorted i j); done.
Qed.

Lemma validate_prepared_schedule_nil schedule :
  validate_prepared_schedule schedule = [] <-> schedule_ok schedule.
Proof.
  unfold validate_prepared_schedule, schedule_ok. guards. rewrite deadlines_errors_nil.
  rewrite Z.gtb_ltb, Z.ltb_ge. done.
Qed.

Lemma validate_preparation_nil ws ms wn mn e :
  validate_preparation ws ms wn mn e = [] <->
  ws <> ms /\ wn <> mn /\
  pe_warmup_schedule_id e = ws /\ pe_measurement_schedule_id e = ms /\
  pe_warmup_namespace_id e = wn /\ pe_measurement_namespace_id e = mn /\
  pe_deterministic_initialization_id e <> EmptyString /\
  Forall (eq true)
    [pe_scientific_configuration_frozen e; pe_platform_state_independently_verified e;
     pe_queue_initialized e; pe_record_storage_initialized e; pe_schedules_fully_decoded e;
     pe_observation_storage_preallocated e; pe_termination_reset_while_quiescent e;
     pe_measurement_origin_unset e].
Proof.
  unfold validate_preparation, id_eqb. guards. rewrite !Forall_cons, Forall_nil.
  destruct (pe_deterministic_initialization_id e) eqn:E; simpl; intuition (try done; congruence).
Qed.

Lemma validate_warmup_completion_nil s n e :
  validate_warmup_completion s n e = [] <->
  we_schedule_id e = s /\ we_namespace_id e = n /\
  we_attempted_count e = we_offered_count e /\ we_producer_complete e = true /\
  we_warm_arrivals_stopped e = true /\ we_queue_drained e = true /\
  we_both_workers_at_reset_barrier e = true /\
  we_measurement_observations_emitted e = false /\ we_resumed_prior_measurement e = false /\
  we_regenerated_schedule e = false /\ we_allocation_count_delta e = 0.
Proof. unfold validate_warmup_completion, id_eqb. guards. tauto. Qed.

(** *** The poll loops *)

Lemma wait_loop decided outcome before_poll n poll :
  match loop_nat (wait_body decided outcome before_poll) n poll with
  | inl poll' =>
      poll' = poll + Z.of_nat n /\
      forall k, poll <= k < poll' ->
        wb_cancelled (before_poll k) = false /\ decided (before_poll k) = false
  | inr status => exists k, poll <= k < poll + Z.of_nat n /\
      (forall j, poll <= j < k ->
         wb_cancelled (before_poll j) = false /\ decided (before_poll j) = false) /\
      ((wb_cancelled (before_poll k) = true /\ status = StartBarrierStatus_cancelled) \/
       (wb_cancelled (before_poll k) = false /\ decided (before_poll k) = true /\
        status = outcome))
  end.
Proof.
  revert poll. induction n as [|n IH]; intros poll; cbn [loop_nat]; [split; [lia|lia]|].
  destruct (wait_body decided outcome before_poll poll) as [poll1|status] eqn:E;
    unfold wait_body in E;
    destruct (wb_cancelled (before_poll poll)) eqn:Ec;
    destruct (decided (before_poll poll)) eqn:Ed; simplify_eq.
  - specialize (IH (poll + 1)).
    destruct (loop_nat _ n (poll + 1)) as [poll'|status].
    + destruct IH as [-> IH]. split; [lia|]. intros k Hk.
      destruct (Z.eq_dec k poll) as [->|]; [done|]. apply IH. lia.
    + destruct IH as (k & Hk & Hbefore & Hdecided). exists k. split; [lia|]. split; [|done].
      intros j Hj. destruct (Z.eq_dec j poll) as [->|]; [done|]. apply Hbefore. lia.
  - exists poll. split; [lia|]. split; [lia|]. by left.
  - exists poll. split; [lia|]. split; [lia|]. by left.
  - exists poll. split; [lia|]. split; [lia|]. by right.
Qed.

Lemma barrier_wait_cases decided outcome limit before_poll :
  (barrier_wait decided outcome limit before_poll = StartBarrierStatus_watchdog_expired /\
   forall k, 0 <= k < limit ->
     wb_cancelled (before_poll k) = false /\ decided (before_poll k) = false) \/
  exists k, 0 <= k < limit /\
    (forall j, 0 <= j < k ->
       wb_cancelled (before_poll j) = false /\ decided (before_poll j) = false) /\
    ((wb_cancelled (before_poll k) = true /\
      barrier_wait decided outcome limit before_poll = StartBarrierStatus_cancelled) \/
     (wb_cancelled (before_poll k) = false /\ decided (before_poll k) = true /\
      barrier_wait decided outcome limit before_poll = outcome)).
Proof.
  destruct limit as [|limit|limit]; [left; split; [done|lia]| |left; split; [done|lia]].
  unfold barrier_wait. rewrite loop_pos_nat.
  pose proof (wait_loop decided outcome before_poll (Pos.to_nat limit) 0) as H.
  destruct (loop_nat _ _ 0) as [poll|status].
  - destruct H as [-> H]. left. split; [done|]. intros k Hk. apply H. lia.
  - destruct H as (k & Hk & Hb & Hd). right. exists k. split; [lia|]. split; [done|].
    destruct Hd as [[? ->]|(? & ? & ->)]; auto.
Qed.

(** *** The access-by-access barrier *)

Definition has_arrived (pc : WorkerPc) : Prop := pc <> Worker_preparing.

Definition release_guarded (s : BarrierState) : Prop := 3 ∈ bs_mask_history s.

(** What holds between any two accesses. *)
Record barrier_invariant (s : BarrierState) : Prop := {
  bi_mask : forall mask role, mask ∈ bs_mask_history s ->
    0 <= mask /\ (Z.testbit mask (role_code role) = true -> has_arrived (worker_pc s role));
  bi_origin_guarded : (1 < length (bs_origin_history s))%nat -> release_guarded s;
  bi_origin_nonempty : (0 < length (bs_origin_history s))%nat;
  bi_controller : match bs_controller s with
    | Controller_outside | Controller_not_cancelled _ => True
    | Controller_workers_ready _ => release_guarded s
    | Controller_origin_stored origin =>
        (1 < length (bs_origin_history s))%nat
    end;
  bi_views : forall view, view ∈ bs_released_views s ->
    (1 <= view < length (bs_origin_history s))%nat;
  bi_worker : forall role, match worker_pc s role with
    | Worker_released view => (1 <= view < length (bs_origin_history s))%nat
    | Worker_measuring origin =>
        exists k, (1 <= k)%nat /\ bs_origin_history s !! k = Some origin
    | _ => True
    end
}.

Lemma role_bit_test role r :
  Z.testbit (role_bit role) (role_code r) = bool_decide (role_code role = role_code r).
Proof. by destruct role, r. Qed.

Lemma role_bit_land mask role :
  Z.land mask (role_bit role) = 0 <-> Z.testbit mask (role_code role) = false.
Proof.
  split.
  - intros E. apply (f_equal (fun z => Z.testbit z (role_code role))) in E.
    rewrite Z.land_spec, role_bit_test, bool_decide_eq_true_2, andb_true_r, Z.bits_0 in E by done.
    done.
  - intros E. apply Z.bits_inj'. intros k Hk. rewrite Z.land_spec, Z.bits_0. unfold role_bit.
    rewrite Z.shiftl_1_l, Z.pow2_bits_eqb by (destruct role; simpl; lia).
    destruct (Z.eqb_spec (role_code role) k) as [<-|]; [by rewrite E | apply andb_false_r].
Qed.

Lemma worker_pc_set s role pc r :
  worker_pc (set_worker s role pc) r =
    if bool_decide (role_code role = role_code r) then pc else worker_pc s r.
Proof. by destruct role, r. Qed.

Lemma newest_mask_ok s role :
  barrier_invariant s ->
  0 <= newest_mask s /\
  (Z.testbit (newest_mask s) (role_code role) = true -> has_arrived (worker_pc s role)).
Proof.
  intros Hinv. unfold newest_mask. destruct (last (bs_mask_history s)) as [m|] eqn:E; simpl.
  - apply (bi_mask s Hinv), last_Some_elem_of, E.
  - split; [lia|]. by rewrite Z.bits_0.
Qed.

(** A [fetch_or] keeps the mask consistent with the workers that arrived. *)
Lemma push_mask_ok s role mask r (arrived : WorkerRole -> Prop) :
  barrier_invariant s ->
  (forall r, has_arrived (worker_pc s r) -> arrived r) -> arrived role ->
  mask ∈ bs_mask_history s ++ [Z.lor (newest_mask s) (role_bit role)] ->
  0 <= mask /\ (Z.testbit mask (role_code r) = true -> arrived r).
Proof.
  intros Hinv Hmono Hrole. rewrite elem_of_app, list_elem_of_singleton. intros [Hold | ->].
  - destruct (bi_mask s Hinv mask r Hold). eauto.
  - destruct (newest_mask_ok s r Hinv) as [Hpos Hbit]. split.
    + apply Z.lor_nonneg. split; [done|]. by destruct role.
    + rewrite Z.lor_spec, orb_true_iff, role_bit_test. intros [H|H]; [eauto|].
      apply bool_decide_eq_true in H. by destruct role, r.
Qed.

Lemma test_arrived s role :
  barrier_invariant s -> Z.land (newest_mask s) (role_bit role) <> 0 ->
  has_arrived (worker_pc s role).
Proof.
  intros Hinv Hland. destruct (newest_mask_ok s role Hinv) as [Hpos Hbit]. apply Hbit.
  rewrite role_bit_land in Hland. by destruct (Z.testbit _ _).
Qed.

(** A step of a worker that only moves its program counter. *)
Lemma set_worker_inv s role pc :
  barrier_invariant s -> has_arrived (worker_pc s role) -> has_arrived pc ->
  match pc with
  | Worker_released view => (1 <= view < length (bs_origin_history s))%nat
  | Worker_measuring origin => exists k, (1 <= k)%nat /\ bs_origin_history s !! k = Some origin
  | _ => True
  end ->
  barrier_invariant (set_worker s role pc).
Proof.
  intros Hinv Hbefore Hpc Hok. destruct Hinv as [Hmask Hguard Hne Hctl Hviews Hwork].
  constructor; try done.
  - intros mask r Hm. rewrite worker_pc_set. destruct (Hmask mask r Hm) as [H0 H1].
    split; [done|]. intros Hb. by case_bool_decide; [|apply H1].
  - intros r. rewrite worker_pc_set. case_bool_decide; [done|]. apply Hwork.
Qed.

Lemma set_controller_inv s pc :
  barrier_invariant s ->
  match pc with
  | Controller_outside | Controller_not_cancelled _ => True
  | Controller_workers_ready _ => release_guarded s
  | Controller_origin_stored origin => (1 < length (bs_origin_history s))%nat
  end ->
  barrier_invariant (set_controller s pc).
Proof. intros [Hmask Hguard Hne Hctl Hviews Hwork] Hpc. by constructor. Qed.

Lemma push_mask_inv s role pc :
  barrier_invariant s -> has_arrived pc ->
  match pc with Worker_released _ | Worker_measuring _ => False | _ => True end ->
  barrier_invariant
    (set_worker (push_mask s (Z.lor (newest_mask s) (role_bit role))) role pc).
Proof.
  intros Hinv Hpc Hok. pose proof Hinv as [Hmask Hguard Hne Hctl Hviews Hwork].
  constructor; simpl.
  - intros mask r Hm. eapply (push_mask_ok s role mask r
      (fun r => has_arrived (worker_pc (set_worker (push_mask s _) role pc) r))); try done.
    + intros r' Hr'. rewrite worker_pc_set. by case_bool_decide.
    + rewrite worker_pc_set. by rewrite bool_decide_eq_true_2.
  - intros Hl. apply elem_of_app. left. by apply Hguard.
  - done.
  - unfold release_guarded in *. simpl. destruct (bs_controller s); try done.
    apply elem_of_app. by left.
  - done.
  - intros r. rewrite worker_pc_set. case_bool_decide; [by destruct pc | apply Hwork].
Qed.

Lemma push_mask_duplicate_inv s role :
  barrier_invariant s -> has_arrived (worker_pc s role) ->
  barrier_invariant (push_mask s (Z.lor (newest_mask s) (role_bit role))).
Proof.
  intros Hinv Hrole. pose proof Hinv as [Hmask Hguard Hne Hctl Hviews Hwork].
  constructor; simpl; try done.
  - intros mask r Hm. by eapply (push_mask_ok s role mask r (fun r => has_arrived (worker_pc s r))).
  - intros Hl. apply elem_of_app. left. by apply Hguard.
  - unfold release_guarded in *. simpl. destruct (bs_controller s); try done.
    apply elem_of_app. by left.
Qed.

Lemma push_origin_inv s origin :
  barrier_invariant s -> release_guarded s -> barrier_invariant (push_origin s origin).
Proof.
  intros [Hmask Hguard Hne Hctl Hviews Hwork] Hg.
  constructor; simpl; rewrite ?length_app; simpl; try done; try lia.
  - destruct (bs_controller s); try done. lia.
  - intros view Hv. specialize (Hviews view Hv). lia.
  - intros r. specialize (Hwork r). destruct r; simpl in *.
    + destruct (bs_producer s); try done; [lia|]. destruct Hwork as (k & Hk & E).
      exists k. split; [done|]. by apply lookup_app_l_Some.
    + destruct (bs_consumer s); try done; [lia|]. destruct Hwork as (k & Hk & E).
      exists k. split; [done|]. by apply lookup_app_l_Some.
Qed.

Lemma push_released_inv s :
  barrier_invariant s -> (1 < length (bs_origin_history s))%nat ->
  barrier_invariant (push_released s).
Proof.
  intros [Hmask Hguard Hne Hctl Hviews Hwork] Hl. constructor; simpl; try done.
  intros view. rewrite elem_of_app, list_elem_of_singleton. intros [Hv | ->]; [by apply Hviews|].
  lia.
Qed.

Lemma barrier_step_inv s s' : barrier_invariant s -> barrier_step s s' -> barrier_invariant s'.
Proof.
  intros Hinv Hstep. pose proof (bi_controller s Hinv) as Hc.
  destruct Hstep as [s role Hpc Hland|s role Hland|s|s origin Hpc|s Hpc Hcan|s origin mask Hpc Hm ->
    |s origin mask Hpc Hm Hne|s origin Hpc|s origin Hpc|s role Hpc Hcan|s role view Hpc Hv
    |s role view index origin Hpc Hle Ho]; try (rewrite Hpc in Hc).
  - by apply push_mask_inv.
  - apply push_mask_duplicate_inv; [done | by apply test_arrived].
  - destruct Hinv. by constructor.
  - by apply set_controller_inv.
  - done.
  - by apply set_controller_inv.
  - by apply set_controller_inv.
  - apply set_controller_inv; [by apply push_origin_inv|]. simpl. rewrite length_app. simpl.
    pose proof (bi_origin_nonempty s Hinv). lia.
  - apply set_controller_inv; [by apply push_released_inv | done].
  - apply set_worker_inv; [done| by rewrite Hpc | done | done].
  - apply set_worker_inv; [done| by rewrite Hpc | done |]. by apply (bi_views s Hinv).
  - apply set_worker_inv; [done| by rewrite Hpc | done |]. exists index.
    pose proof (bi_worker s Hinv role) as Hw. rewrite Hpc in Hw. split; [lia | done].
Qed.

Lemma barrier_reachable_inv s : barrier_reachable s -> barrier_invariant s.
Proof.
  induction 1 as [|s s' _ IH Hstep]; [|by eapply barrier_step_inv].
  constructor; simpl; try done; try lia.
  - intros mask role. rewrite list_elem_of_singleton. intros ->. split; [lia|].
    by rewrite Z.bits_0.
  - intros view Hv. by apply not_elem_of_nil in Hv.
  - by intros [].
Qed.

Lemma mask_three s role :
  barrier_invariant s -> release_guarded s -> has_arrived (worker_pc s role).
Proof. intros Hinv Hg. apply (bi_mask s Hinv 3 role Hg). by destruct role. Qed.

(** *** Examples *)

Definition example_run : BarrierState :=
  mkBarrierState [0; 1; 3] [0; 42] [1%nat] false Controller_outside
    (Worker_measuring 42) Worker_polling.

Lemma example_run_reachable : barrier_reachable example_run.
Proof.
  eapply barrier_reachable_step;
    [|apply (step_read_origin (mkBarrierState [0; 1; 3] [0; 42] [1%nat] false Controller_outside
        (Worker_released 1) Worker_polling) WorkerRole_producer 1 1 42); done || lia].
  eapply barrier_reachable_step;
    [|apply (step_poll_released (mkBarrierState [0; 1; 3] [0; 42] [1%nat] false
        Controller_outside Worker_polling Worker_polling) WorkerRole_producer 1);
      [done | by apply list_elem_of_singleton]].
  eapply barrier_reachable_step;
    [|apply (step_release_stores_released (mkBarrierState [0; 1; 3] [0; 42] [] false
        (Controller_origin_stored 42) Worker_polling Worker_polling) 42); done].
  eapply barrier_reachable_step;
    [|apply (step_release_stores_origin (mkBarrierState [0; 1; 3] [0] [] false
        (Controller_workers_ready 42) Worker_polling Worker_polling) 42); done].
  eapply barrier_reachable_step;
    [|apply (step_release_checks_mask (mkBarrierState [0; 1; 3] [0] [] false
        (Controller_not_cancelled 42) Worker_polling Worker_polling) 42 3);
      [done | set_solver | done]].
  eapply barrier_reachable_step;
    [|apply (step_release_checks_cancelled (mkBarrierState [0; 1; 3] [0] [] false
        Controller_outside Worker_polling Worker_polling) 42); done].
  eapply barrier_reachable_step;
    [|apply (step_arrive_first (mkBarrierState [0; 1] [0] [] false
        Controller_outside Worker_polling Worker_preparing) WorkerRole_consumer); done].
  eapply barrier_reachable_step;
    [|apply (step_arrive_first barrier_state_initial WorkerRole_producer); done].
  constructor.
Qed.

(** ** Properties *)

(** Start barrier, access by access: in every reachable state, a worker that
    has read the measurement origin after polling [released_] as true holds an
    origin that some call of [release_with_measurement_origin] published after
    its guards passed (never the initial zero of the relaxed location), both
    workers had arrived by then, and if only one origin was ever published the
    worker holds that one. Loads may return stale values; only the release store
    and the acquire load of [released_] order the accesses. *)
Theorem barrier_release_publishes_origin s role origin :
  barrier_reachable s -> worker_pc s role = Worker_measuring origin ->
  has_arrived (worker_pc s WorkerRole_producer) /\
  has_arrived (worker_pc s WorkerRole_consumer) /\
  (exists k, (1 <= k)%nat /\ bs_origin_history s !! k = Some origin) /\
  (forall initial published, bs_origin_history s = [initial; published] -> origin = published).
Proof.
  intros Hreach Hpc. apply barrier_reachable_inv in Hreach as Hinv.
  pose proof (bi_worker s Hinv role) as Hw. rewrite Hpc in Hw. destruct Hw as (k & Hk & E).
  assert (release_guarded s) as Hg.
  { apply (bi_origin_guarded s Hinv). apply lookup_lt_Some in E. lia. }
  split; [by apply mask_three|]. split; [by apply mask_three|]. split; [by exists k|].
  intros initial published Hh. rewrite Hh in E.
  destruct k as [|[|k]]; simpl in E; [lia | by simplify_eq | done].
Qed.

Lemma barrier_release_publishes_origin_witness :
  has_arrived (worker_pc example_run WorkerRole_consumer) /\
  (forall initial published, bs_origin_history example_run = [initial; published] ->
     42 = published).
Proof.
  pose proof (barrier_release_publishes_origin example_run WorkerRole_producer 42
    example_run_reachable eq_refl) as (_ & H1 & _ & H2).
  split; assumption.
Defined.

(** Start barrier, call by call: [controller_wait] and [worker_wait] stop at the
    first poll that finds the barrier cancelled or decided, prefer cancellation,
    and report an expired watchdog only when all [poll_limit] polls found
    neither; [arrive] records each role once and turns a duplicate into a
    cancellation; a release succeeds exactly for an uncancelled barrier at which
    both workers arrived, and any refusal leaves the barrier as it was. *)
Theorem start_barrier_protocol b role origin limit before_poll :
  (forall decided outcome wait, (decided, outcome, wait) ∈
     [(all_workers_ready, StartBarrierStatus_ready, controller_wait);
      (wb_released, StartBarrierStatus_released, worker_wait)] ->
   (wait limit before_poll = StartBarrierStatus_watchdog_expired /\
    forall k, 0 <= k < limit ->
      wb_cancelled (before_poll k) = false /\ decided (before_poll k) = false) \/
   exists k, 0 <= k < limit /\
     (forall j, 0 <= j < k ->
        wb_cancelled (before_poll j) = false /\ decided (before_poll j) = false) /\
     ((wb_cancelled (before_poll k) = true /\
       wait limit before_poll = StartBarrierStatus_cancelled) \/
      (wb_cancelled (before_poll k) = false /\ decided (before_poll k) = true /\
       wait limit before_poll = outcome))) /\
  (let '(b', status) := arrive b role in
   Z.testbit (wb_arrived_mask b') (role_code role) = true /\
   (status = StartBarrierStatus_ready <->
      Z.testbit (wb_arrived_mask b) (role_code role) = false) /\
   (status = StartBarrierStatus_ready \/ wb_cancelled b' = true)) /\
  (let '(b', status) := release_with_measurement_origin b origin in
   (status = StartBarrierStatus_released <->
      wb_cancelled b = false /\ all_workers_ready b = true) /\
   (status = StartBarrierStatus_released ->
      wb_released b' = true /\ wb_measurement_origin_ticks b' = origin) /\
   (status <> StartBarrierStatus_released -> b' = b)).
Proof.
  split; [|split].
  - intros decided outcome wait. rewrite elem_of_cons, list_elem_of_singleton.
    intros [E|E]; injection E as -> -> ->; apply barrier_wait_cases.
  - assert (Hand : Z.land (wb_arrived_mask b) (role_bit role) = 0 <->
      Z.testbit (wb_arrived_mask b) (role_code role) = false) by apply role_bit_land.
    unfold arrive. destruct (Z.eqb_spec (Z.land (wb_arrived_mask b) (role_bit role)) 0) as [E|E];
      simpl; rewrite Z.lor_spec, role_bit_test, bool_decide_eq_true_2, orb_true_r by done;
      (split; [done|]); (split; [|auto]); naive_solver.
  - unfold release_with_measurement_origin.
    destruct (wb_cancelled b) eqn:Ec, (all_workers_ready b) eqn:Er; simpl; naive_solver.
Qed.

(** Prepared schedules: [validate_prepared_schedule] reports no error exactly
    when the origin does not exceed the horizon, every deadline lies in the
    half-open window and the deadlines never decrease. *)
Theorem prepared_schedule_valid_iff schedule :
  validate_prepared_schedule schedule = [] <-> schedule_ok schedule.
Proof. apply validate_prepared_schedule_nil. Qed.

(** Logical reset: [perform_and_verify_logical_reset] succeeds exactly with the
    evidence its backend returned, and only when that evidence shows a queue of
    the requested kind and capacity back in its initial structure, empty, with
    every counter zero, the consumer checksum at its requested initial value, the
    origin cleared and the warm memory untouched; otherwise it fails with the
    backend's errors or with at least one error of its own. *)
Theorem logical_reset_sound backend request :
  match perform_and_verify_logical_reset backend request with
  | success e => backend request = success e /\ reset_ok request e
  | failure errors =>
      backend request = failure errors \/
      exists e, backend request = success e /\ ~ reset_ok request e /\ errors <> []
  end.
Proof.
  unfold perform_and_verify_logical_reset. destruct (backend request) as [e|errors]; [|by left].
  pose proof (validate_logical_reset_nil request e) as Hnil.
  destruct (validate_logical_reset request e) as [|x l]; [split; [done | by apply Hnil]|].
  right. exists e. split; [done|]. split; [|done]. intros Hok. by apply Hnil in Hok.
Qed.
