(* ===== verification/Executor.v ===== *)
(** * Execution of one measurement

    Models [include/cpu_prefetch/lifecycle/executor.hpp]:
    [execute_measurement] runs the producer worker, the consumer worker and the
    controlling thread. Each thread is an executable step function on the shared
    state and its own locals; an execution interleaves them. What a thread gets
    from outside (clock readings, the backend's results, the outcome of a
    bounded wait, whether a load of a flag is stale) is an input of the step.

    The backend is a template parameter of the source. The guards of the steps
    state its contract: a completed attempt entered the queue exactly when it
    was accepted, a poll delivers an accepted event that was not delivered yet,
    and a poll may report an empty queue only when every event that
    happens-before it has been delivered. What happens-before a poll is the
    content of the queue when the termination word was published, once the
    consumer has read that word as set. *)

From stdpp Require Import prelude list strings.
From Stdlib Require Import ZArith Lia.
From S2P Require Import Prelude Validation QueueCommon LifecycleRuntime.

#[local] Open Scope Z_scope.

Record TickRead : Set := mkTickRead { tick_ok : bool; tick_ticks : Z }.

Inductive AttemptStatus : Set := AttemptStatus_complete | AttemptStatus_failure.

Record ProducerAttemptResult : Set := mkProducerAttemptResult {
  par_status : AttemptStatus;
  par_outcome : EnqueueResult
}.

Record ProducerAttempt : Set := mkProducerAttempt {
  pa_logical_sequence : Z;
  pa_scheduled_deadline : Z;
  pa_candidate_accepted_ordinal : Z
}.

Inductive ConsumerPollStatus : Set :=
| ConsumerPollStatus_item
| ConsumerPollStatus_empty
| ConsumerPollStatus_failure.

Record ExecutionLimits : Set := mkExecutionLimits {
  el_controller_start_poll_limit : Z;
  el_worker_start_poll_limit : Z;
  el_producer_due_poll_limit_per_arrival : Z;
  el_consumer_empty_poll_limit_before_finish : Z;
  el_drain_poll_limit : Z
}.

Inductive ExecutionFailurePhase : Set :=
| ExecutionFailurePhase_none
| ExecutionFailurePhase_pre_run
| ExecutionFailurePhase_start_barrier
| ExecutionFailurePhase_measurement
| ExecutionFailurePhase_drain.

Inductive ExecutionFailureReason : Set :=
| ExecutionFailureReason_none
| ExecutionFailureReason_invalid_schedule
| ExecutionFailureReason_invalid_limits
| ExecutionFailureReason_termination_reset
| ExecutionFailureReason_start_watchdog
| ExecutionFailureReason_clock_read
| ExecutionFailureReason_deadline_overflow
| ExecutionFailureReason_producer_wait_watchdog
| ExecutionFailureReason_producer_attempt
| ExecutionFailureReason_consumer_poll
| ExecutionFailureReason_consumer_wait_watchdog
| ExecutionFailureReason_drain_watchdog
| ExecutionFailureReason_cancelled.

#[export] Instance ExecutionFailurePhase_eq_dec : EqDecision ExecutionFailurePhase.
Proof. solve_decision. Defined.

#[export] Instance ExecutionFailureReason_eq_dec : EqDecision ExecutionFailureReason.
Proof. solve_decision. Defined.

#[export] Instance StartBarrierStatus_eq_dec : EqDecision StartBarrierStatus.
Proof. solve_decision. Defined.

Record MeasurementExecutionReport : Set := mkReport {
  rp_failure_phase : ExecutionFailurePhase;
  rp_failure_reason : ExecutionFailureReason;
  rp_measurement_origin_ticks : Z;
  rp_offered : Z;
  rp_attempted : Z;
  rp_accepted : Z;
  rp_full : Z;
  rp_consumed : Z;
  rp_producer_wait_polls : Z;
  rp_consumer_empty_polls : Z;
  rp_drain_polls : Z;
  rp_producer_completed : bool;
  rp_consumer_drained : bool;
  rp_arrivals_finished_published : bool;
  rp_cancellation_requested : bool
}.

Record ProducerWorkerState : Set := mkProducerWorkerState {
  pw_failure : ExecutionFailureReason;
  pw_attempted : Z;
  pw_accepted : Z;
  pw_full : Z;
  pw_wait_polls : Z;
  pw_completed : bool;
  pw_arrivals_finished_published : bool
}.

Record ConsumerWorkerState : Set := mkConsumerWorkerState {
  cw_failure : ExecutionFailureReason;
  cw_failure_phase : ExecutionFailurePhase;
  cw_consumed : Z;
  cw_empty_polls : Z;
  cw_drain_polls : Z;
  cw_drained : bool
}.

Definition failure_report (phase : ExecutionFailurePhase) (reason : ExecutionFailureReason)
    (offered : Z) : MeasurementExecutionReport :=
  mkReport phase reason 0 offered 0 0 0 0 0 0 0 false false false false.

Definition checked_measurement_deadline
    (measurement_origin schedule_origin schedule_deadline : Z) : option Z :=
  let offset := u64_sub schedule_deadline schedule_origin in
  if offset >? u64_sub u64_max measurement_origin then None
  else Some (u64_add measurement_origin offset).

(** ** Before the threads start *)

Definition offered (schedule : PreparedScheduleView) : Z :=
  Z.of_nat (length (sv_deadline_ticks schedule)).

Definition limits_invalid (limits : ExecutionLimits) : bool :=
  (el_controller_start_poll_limit limits =? 0) ||
  (el_worker_start_poll_limit limits =? 0) ||
  (el_producer_due_poll_limit_per_arrival limits =? 0) ||
  (el_consumer_empty_poll_limit_before_finish limits =? 0) ||
  (el_drain_poll_limit limits =? 0).

(** The early returns of [execute_measurement], and the reset termination word
    its threads start with. *)
Definition prepare_execution (schedule : PreparedScheduleView) (limits : ExecutionLimits)
    (termination : TerminationControl) : MeasurementExecutionReport + TerminationControl :=
  match validate_prepared_schedule schedule with
  | _ :: _ =>
      inl (failure_report ExecutionFailurePhase_pre_run
             ExecutionFailureReason_invalid_schedule (offered schedule))
  | [] =>
      if limits_invalid limits then
        inl (failure_report ExecutionFailurePhase_pre_run
               ExecutionFailureReason_invalid_limits (offered schedule))
      else
        let '(termination, reset) := reset_quiescent termination true in
        if negb reset then
          inl (failure_report ExecutionFailurePhase_start_barrier
                 ExecutionFailureReason_termination_reset (offered schedule))
        else inr termination
  end.

(** ** Shared state *)

Record Shared : Set := mkShared {
  sh_barrier : WorkerStartBarrier;
  sh_termination : TerminationControl;
  sh_cancellation : bool;
  sh_producer_failed : bool;
  (* Attempts made, each with the clock reading that found it due. *)
  sh_attempts : list (ProducerAttempt * Z);
  (* Logical sequences that entered the queue, oldest first, how many of them
     were delivered, and how many the publication of the termination word
     carries. *)
  sh_entered : list Z;
  sh_delivered : nat;
  sh_published : nat
}.

Definition set_barrier (sh : Shared) (b : WorkerStartBarrier) : Shared :=
  mkShared b (sh_termination sh) (sh_cancellation sh) (sh_producer_failed sh)
    (sh_attempts sh) (sh_entered sh) (sh_delivered sh) (sh_published sh).

Definition cancel_execution (sh : Shared) : Shared :=
  mkShared (sh_barrier sh) (sh_termination sh) true (sh_producer_failed sh)
    (sh_attempts sh) (sh_entered sh) (sh_delivered sh) (sh_published sh).

Definition mark_producer_failed (sh : Shared) : Shared :=
  mkShared (sh_barrier sh) (sh_termination sh) (sh_cancellation sh) true
    (sh_attempts sh) (sh_entered sh) (sh_delivered sh) (sh_published sh).

Definition publish_termination (sh : Shared) : Shared :=
  mkShared (sh_barrier sh) (publish_arrivals_finished (sh_termination sh))
    (sh_cancellation sh) (sh_producer_failed sh)
    (sh_attempts sh) (sh_entered sh) (sh_delivered sh) (length (sh_entered sh)).

Definition log_attempt (sh : Shared) (attempt : ProducerAttempt) (reading : Z)
    (entered : bool) : Shared :=
  mkShared (sh_barrier sh) (sh_termination sh) (sh_cancellation sh) (sh_producer_failed sh)
    (sh_attempts sh ++ [(attempt, reading)])
    (if entered then sh_entered sh ++ [pa_logical_sequence attempt] else sh_entered sh)
    (sh_delivered sh) (sh_published sh).

Definition deliver (sh : Shared) : Shared :=
  mkShared (sh_barrier sh) (sh_termination sh) (sh_cancellation sh) (sh_producer_failed sh)
    (sh_attempts sh) (sh_entered sh) (S (sh_delivered sh)) (sh_published sh).

(** ** The producer worker *)

Inductive ProducerPc : Set :=
| Producer_arriving
| Producer_waiting
| Producer_start_failed
| Producer_at (remaining : list Z)
| Producer_polling (deadline target polls : Z) (remaining : list Z)
| Producer_due (deadline reading : Z) (remaining : list Z)
| Producer_finishing
| Producer_cancelling
| Producer_publishing
| Producer_done.

Record ProducerThread : Set := mkProducerThread {
  pt_pc : ProducerPc;
  pt_local : ProducerWorkerState;
  pt_measurement_origin : Z;
  pt_accepted_ordinal : Z;
  pt_logical_sequence : Z
}.

Definition producer_at (t : ProducerThread) (pc : ProducerPc) : ProducerThread :=
  mkProducerThread pc (pt_local t) (pt_measurement_origin t) (pt_accepted_ordinal t)
    (pt_logical_sequence t).

(** [local.failure = reason], and where control goes. *)
Definition producer_fails (t : ProducerThread) (reason : ExecutionFailureReason)
    (pc : ProducerPc) : ProducerThread :=
  let l := pt_local t in
  mkProducerThread pc
    (mkProducerWorkerState reason (pw_attempted l) (pw_accepted l) (pw_full l)
       (pw_wait_polls l) (pw_completed l) (pw_arrivals_finished_published l))
    (pt_measurement_origin t) (pt_accepted_ordinal t) (pt_logical_sequence t).

Definition producer_counts_wait (t : ProducerThread) (pc : ProducerPc) : ProducerThread :=
  let l := pt_local t in
  mkProducerThread pc
    (mkProducerWorkerState (pw_failure l) (pw_attempted l) (pw_accepted l) (pw_full l)
       (u64_add (pw_wait_polls l) 1) (pw_completed l) (pw_arrivals_finished_published l))
    (pt_measurement_origin t) (pt_accepted_ordinal t) (pt_logical_sequence t).

(** The counters after one attempt. *)
Definition producer_counts_attempt (t : ProducerThread) (r : ProducerAttemptResult)
    (remaining : list Z) : ProducerThread :=
  let l := pt_local t in
  let attempted := u64_add (pw_attempted l) 1 in
  match par_status r, par_outcome r with
  | AttemptStatus_failure, _ =>
      mkProducerThread Producer_finishing
        (mkProducerWorkerState ExecutionFailureReason_producer_attempt attempted
           (pw_accepted l) (pw_full l) (pw_wait_polls l) (pw_completed l)
           (pw_arrivals_finished_published l))
        (pt_measurement_origin t) (pt_accepted_ordinal t) (pt_logical_sequence t)
  | AttemptStatus_complete, EnqueueResult_accepted =>
      mkProducerThread (Producer_at remaining)
        (mkProducerWorkerState (pw_failure l) attempted (u64_add (pw_accepted l) 1)
           (pw_full l) (pw_wait_polls l) (pw_completed l)
           (pw_arrivals_finished_published l))
        (pt_measurement_origin t) (u64_add (pt_accepted_ordinal t) 1)
        (u64_add (pt_logical_sequence t) 1)
  | AttemptStatus_complete, EnqueueResult_full =>
      mkProducerThread (Producer_at remaining)
        (mkProducerWorkerState (pw_failure l) attempted (pw_accepted l)
           (u64_add (pw_full l) 1) (pw_wait_polls l) (pw_completed l)
           (pw_arrivals_finished_published l))
        (pt_measurement_origin t) (pt_accepted_ordinal t)
        (u64_add (pt_logical_sequence t) 1)
  end.

Record ProducerInput : Set := mkProducerInput {
  pi_wait : StartBarrierStatus;      (* result of [worker_wait] *)
  pi_cancel_seen : bool;             (* the load of [cancellation] *)
  pi_reading : TickRead;             (* [clock.read_ticks()] *)
  pi_attempt : ProducerAttemptResult; (* [backend.try_producer_attempt] *)
  pi_entered : bool                  (* whether that attempt entered the queue *)
}.

(** What a bounded wait of a worker may return. *)
Definition worker_wait_possible (b : WorkerStartBarrier) (status : StartBarrierStatus) : bool :=
  match status with
  | StartBarrierStatus_released => wb_released b
  | StartBarrierStatus_cancelled => wb_cancelled b
  | StartBarrierStatus_watchdog_expired => true
  | _ => false
  end.

Definition attempt_possible (input : ProducerInput) : bool :=
  match par_status (pi_attempt input), par_outcome (pi_attempt input) with
  | AttemptStatus_complete, EnqueueResult_accepted => pi_entered input
  | AttemptStatus_complete, EnqueueResult_full => negb (pi_entered input)
  | AttemptStatus_failure, _ => true
  end.

(** A load of a flag that is only ever set may be stale. *)
Definition load_possible (flag seen : bool) : bool := implb seen flag.

Section Configuration.

Context (schedule : PreparedScheduleView) (limits : ExecutionLimits).

Definition producer_step (input : ProducerInput) (sh : Shared) (t : ProducerThread) :
    option (Shared * ProducerThread) :=
  match pt_pc t with
  | Producer_arriving =>
      let '(b, status) := arrive (sh_barrier sh) WorkerRole_producer in
      Some (set_barrier sh b,
            if bool_decide (status = StartBarrierStatus_ready)
            then producer_at t Producer_waiting
            else producer_fails t ExecutionFailureReason_cancelled Producer_start_failed)
  | Producer_waiting =>
      if negb (worker_wait_possible (sh_barrier sh) (pi_wait input)) then None
      else if bool_decide (pi_wait input = StartBarrierStatus_released)
      then Some (sh, mkProducerThread (Producer_at (sv_deadline_ticks schedule)) (pt_local t)
                       (wb_measurement_origin_ticks (sh_barrier sh)) 0 0)
      else Some (sh, producer_fails t ExecutionFailureReason_start_watchdog
                       Producer_start_failed)
  | Producer_start_failed => Some (mark_producer_failed sh, producer_at t Producer_done)
  | Producer_at [] => Some (sh, producer_at t Producer_finishing)
  | Producer_at (deadline :: remaining) =>
      if negb (load_possible (sh_cancellation sh) (pi_cancel_seen input)) then None
      else if pi_cancel_seen input
      then Some (sh, producer_fails t ExecutionFailureReason_cancelled Producer_finishing)
      else
        match checked_measurement_deadline (pt_measurement_origin t)
                (sv_origin_ticks schedule) deadline with
        | None =>
            Some (sh, producer_fails t ExecutionFailureReason_deadline_overflow
                        Producer_finishing)
        | Some target =>
            Some (sh, producer_at t (Producer_polling deadline target 0 remaining))
        end
  | Producer_polling deadline target polls remaining =>
      if negb (polls <? el_producer_due_poll_limit_per_arrival limits)
      then Some (sh, producer_fails t ExecutionFailureReason_producer_wait_watchdog
                       Producer_finishing)
      else if negb (load_possible (sh_cancellation sh) (pi_cancel_seen input)) then None
      else if pi_cancel_seen input
      then Some (sh, producer_fails t ExecutionFailureReason_cancelled Producer_finishing)
      else if negb (tick_ok (pi_reading input))
      then Some (sh, producer_fails t ExecutionFailureReason_clock_read Producer_finishing)
      else if tick_ticks (pi_reading input) >=? target
      then Some (sh, producer_at t (Producer_due deadline (tick_ticks (pi_reading input))
                                      remaining))
      else Some (sh, producer_counts_wait t
                       (Producer_polling deadline target (u64_add polls 1) remaining))
  | Producer_due deadline reading remaining =>
      if negb (attempt_possible input) then None
      else
        Some (log_attempt sh
                (mkProducerAttempt (pt_logical_sequence t) deadline (pt_accepted_ordinal t))
                reading (pi_entered input),
              producer_counts_attempt t (pi_attempt input) remaining)
  | Producer_finishing =>
      let l := pt_local t in
      if negb (bool_decide (pw_failure l = ExecutionFailureReason_none))
      then Some (mark_producer_failed sh, producer_at t Producer_cancelling)
      else Some (sh, mkProducerThread Producer_publishing
                       (mkProducerWorkerState (pw_failure l) (pw_attempted l) (pw_accepted l)
                          (pw_full l) (pw_wait_polls l) true
                          (pw_arrivals_finished_published l))
                       (pt_measurement_origin t) (pt_accepted_ordinal t)
                       (pt_logical_sequence t))
  | Producer_cancelling => Some (cancel_execution sh, producer_at t Producer_publishing)
  | Producer_publishing =>
      let l := pt_local t in
      Some (publish_termination sh,
            mkProducerThread Producer_done
              (mkProducerWorkerState (pw_failure l) (pw_attempted l) (pw_accepted l)
                 (pw_full l) (pw_wait_polls l) (pw_completed l) true)
              (pt_measurement_origin t) (pt_accepted_ordinal t) (pt_logical_sequence t))
  | Producer_done => None
  end.

(** ** The consumer worker *)

Inductive ConsumerPc : Set :=
| Consumer_arriving
| Consumer_waiting
| Consumer_top
| Consumer_finish_seen
| Consumer_polling (finished : bool)
| Consumer_classifying (finished : bool)
| Consumer_cancelling
| Consumer_done.

Record ConsumerThread : Set := mkConsumerThread {
  ct_pc : ConsumerPc;
  ct_local : ConsumerWorkerState;
  ct_candidate_consumed_ordinal : Z;
  ct_empty_before_finish : Z;
  (* How many entered events happen-before the consumer's next poll. *)
  ct_visible : nat
}.

Definition consumer_at (t : ConsumerThread) (pc : ConsumerPc) : ConsumerThread :=
  mkConsumerThread pc (ct_local t) (ct_candidate_consumed_ordinal t)
    (ct_empty_before_finish t) (ct_visible t).

(** [local.failure = reason; local.failure_phase = phase]. *)
Definition consumer_fails (t : ConsumerThread) (reason : ExecutionFailureReason)
    (phase : ExecutionFailurePhase) (pc : ConsumerPc) : ConsumerThread :=
  let l := ct_local t in
  mkConsumerThread pc
    (mkConsumerWorkerState reason phase (cw_consumed l) (cw_empty_polls l)
       (cw_drain_polls l) (cw_drained l))
    (ct_candidate_consumed_ordinal t) (ct_empty_before_finish t) (ct_visible t).

Definition consumer_sees (t : ConsumerThread) (published : nat) (pc : ConsumerPc) :
    ConsumerThread :=
  mkConsumerThread pc (ct_local t) (ct_candidate_consumed_ordinal t)
    (ct_empty_before_finish t) published.

Definition consumer_counts_drain (t : ConsumerThread) : ConsumerThread :=
  let l := ct_local t in
  mkConsumerThread (ct_pc t)
    (mkConsumerWorkerState (cw_failure l) (cw_failure_phase l) (cw_consumed l)
       (cw_empty_polls l) (u64_add (cw_drain_polls l) 1) (cw_drained l))
    (ct_candidate_consumed_ordinal t) (ct_empty_before_finish t) (ct_visible t).

Definition consumer_counts_item (t : ConsumerThread) : ConsumerThread :=
  let l := ct_local t in
  mkConsumerThread Consumer_top
    (mkConsumerWorkerState (cw_failure l) (cw_failure_phase l) (u64_add (cw_consumed l) 1)
       (cw_empty_polls l) (cw_drain_polls l) (cw_drained l))
    (u64_add (ct_candidate_consumed_ordinal t) 1) 0 (ct_visible t).

Definition consumer_counts_empty (t : ConsumerThread) : ConsumerThread :=
  let l := ct_local t in
  mkConsumerThread Consumer_top
    (mkConsumerWorkerState (cw_failure l) (cw_failure_phase l) (cw_consumed l)
       (u64_add (cw_empty_polls l) 1) (cw_drain_polls l) (cw_drained l))
    (ct_candidate_consumed_ordinal t) (u64_add (ct_empty_before_finish t) 1) (ct_visible t).

Definition consumer_drained (t : ConsumerThread) : ConsumerThread :=
  let l := ct_local t in
  mkConsumerThread Consumer_done
    (mkConsumerWorkerState (cw_failure l) (cw_failure_phase l) (cw_consumed l)
       (cw_empty_polls l) (cw_drain_polls l) true)
    (ct_candidate_consumed_ordinal t) (ct_empty_before_finish t) (ct_visible t).

(** What follows [backend.try_consumer_poll] in the loop body. *)
Definition consumer_after_poll (finished : bool) (poll : ConsumerPollStatus)
    (t : ConsumerThread) : ConsumerThread :=
  let t := if finished then consumer_counts_drain t else t in
  if finished && (cw_drain_polls (ct_local t) >? el_drain_poll_limit limits)
  then consumer_fails t ExecutionFailureReason_drain_watchdog ExecutionFailurePhase_drain
         Consumer_cancelling
  else
    match poll with
    | ConsumerPollStatus_item => consumer_counts_item t
    | ConsumerPollStatus_failure =>
        consumer_fails t ExecutionFailureReason_consumer_poll
          (cw_failure_phase (ct_local t)) (Consumer_classifying finished)
    | ConsumerPollStatus_empty =>
        if finished then consumer_drained t
        else
          let t := consumer_counts_empty t in
          if ct_empty_before_finish t >=? el_consumer_empty_poll_limit_before_finish limits
          then consumer_fails t ExecutionFailureReason_consumer_wait_watchdog
                 ExecutionFailurePhase_measurement Consumer_cancelling
          else t
    end.

Record ConsumerInput : Set := mkConsumerInput {
  ci_wait : StartBarrierStatus;      (* result of [worker_wait] *)
  ci_finished_seen : bool;           (* [termination.arrivals_finished()] *)
  ci_poll : ConsumerPollStatus;      (* [backend.try_consumer_poll] *)
  ci_removed : bool                  (* whether the poll removed an event *)
}.

Definition poll_possible (sh : Shared) (t : ConsumerThread) (input : ConsumerInput) : bool :=
  match ci_poll input with
  | ConsumerPollStatus_item =>
      ci_removed input && (sh_delivered sh <? length (sh_entered sh))%nat
  | ConsumerPollStatus_empty =>
      negb (ci_removed input) && (ct_visible t <=? sh_delivered sh)%nat
  | ConsumerPollStatus_failure =>
      implb (ci_removed input) (sh_delivered sh <? length (sh_entered sh))%nat
  end.

Definition consumer_step (input : ConsumerInput) (sh : Shared) (t : ConsumerThread) :
    option (Shared * ConsumerThread) :=
  match ct_pc t with
  | Consumer_arriving =>
      let '(b, status) := arrive (sh_barrier sh) WorkerRole_consumer in
      Some (set_barrier sh b,
            if bool_decide (status = StartBarrierStatus_ready)
            then consumer_at t Consumer_waiting
            else consumer_fails t ExecutionFailureReason_cancelled
                   ExecutionFailurePhase_start_barrier Consumer_cancelling)
  | Consumer_waiting =>
      if negb (worker_wait_possible (sh_barrier sh) (ci_wait input)) then None
      else if bool_decide (ci_wait input = StartBarrierStatus_released)
      then Some (sh, mkConsumerThread Consumer_top (ct_local t) 0 0 (ct_visible t))
      else Some (sh, consumer_fails t ExecutionFailureReason_start_watchdog
                       ExecutionFailurePhase_start_barrier Consumer_cancelling)
  | Consumer_top =>
      if negb (load_possible (arrivals_finished (sh_termination sh)) (ci_finished_seen input))
      then None
      else if ci_finished_seen input
      then Some (sh, consumer_sees t (sh_published sh) Consumer_finish_seen)
      else Some (sh, consumer_at t (Consumer_polling false))
  | Consumer_finish_seen =>
      (* The flag was stored before the word just read was published. *)
      if sh_producer_failed sh then Some (sh, consumer_at t Consumer_done)
      else Some (sh, consumer_at t (Consumer_polling true))
  | Consumer_polling finished =>
      if negb (poll_possible sh t input) then None
      else Some (if ci_removed input then deliver sh else sh,
                 consumer_after_poll finished (ci_poll input) t)
  | Consumer_classifying finished =>
      if negb (load_possible (arrivals_finished (sh_termination sh)) (ci_finished_seen input))
      then None
      else Some (sh, consumer_fails t ExecutionFailureReason_consumer_poll
                       (if finished || ci_finished_seen input
                        then ExecutionFailurePhase_drain
                        else ExecutionFailurePhase_measurement) Consumer_cancelling)
  | Consumer_cancelling => Some (cancel_execution sh, consumer_at t Consumer_done)
  | Consumer_done => None
  end.

(** ** The controlling thread *)

Inductive MainPc : Set :=
| Main_waiting
| Main_reading_origin
| Main_releasing (origin : Z)
| Main_aborting (reason : ExecutionFailureReason)
| Main_cancelling_barrier (reason : ExecutionFailureReason)
| Main_joining_aborted (reason : ExecutionFailureReason)
| Main_joining (origin : Z)
| Main_reported (report : MeasurementExecutionReport).

Record MainInput : Set := mkMainInput {
  mi_wait : StartBarrierStatus;      (* result of [controller_wait] *)
  mi_reading : TickRead              (* [clock.read_ticks()] *)
}.

Definition controller_wait_possible (b : WorkerStartBarrier) (status : StartBarrierStatus) :
    bool :=
  match status with
  | StartBarrierStatus_ready => all_workers_ready b
  | StartBarrierStatus_cancelled => wb_cancelled b
  | StartBarrierStatus_watchdog_expired => true
  | _ => false
  end.

(** The report of a run that did not pass its start barrier. *)
Definition aborted_report (reason : ExecutionFailureReason) : MeasurementExecutionReport :=
  mkReport ExecutionFailurePhase_start_barrier reason 0 (offered schedule)
    0 0 0 0 0 0 0 false false false true.

Definition failure_is_none (reason : ExecutionFailureReason) : bool :=
  bool_decide (reason = ExecutionFailureReason_none).

(** The report after both joins. *)
Definition assemble_report (origin : Z) (cancellation : bool) (p : ProducerWorkerState)
    (c : ConsumerWorkerState) : MeasurementExecutionReport :=
  let '(phase, reason) :=
    if negb (failure_is_none (pw_failure p)) &&
       negb (bool_decide (pw_failure p = ExecutionFailureReason_cancelled) &&
             negb (failure_is_none (cw_failure c)))
    then
      (if bool_decide (pw_failure p = ExecutionFailureReason_start_watchdog)
       then ExecutionFailurePhase_start_barrier else ExecutionFailurePhase_measurement,
       pw_failure p)
    else if negb (failure_is_none (cw_failure c))
    then (cw_failure_phase c, cw_failure c)
    else (ExecutionFailurePhase_none, ExecutionFailureReason_none) in
  mkReport phase reason origin (offered schedule) (pw_attempted p) (pw_accepted p) (pw_full p)
    (cw_consumed c) (pw_wait_polls p) (cw_empty_polls c) (cw_drain_polls c)
    (pw_completed p) (cw_drained c) (pw_arrivals_finished_published p) cancellation.

Definition producer_joined (t : ProducerThread) : bool :=
  match pt_pc t with Producer_done => true | _ => false end.

Definition consumer_joined (t : ConsumerThread) : bool :=
  match ct_pc t with Consumer_done => true | _ => false end.

Definition main_step (input : MainInput) (sh : Shared) (p : ProducerThread)
    (c : ConsumerThread) (pc : MainPc) : option (Shared * MainPc) :=
  match pc with
  | Main_waiting =>
      if negb (controller_wait_possible (sh_barrier sh) (mi_wait input)) then None
      else if bool_decide (mi_wait input = StartBarrierStatus_ready)
      then Some (sh, Main_reading_origin)
      else Some (sh, Main_aborting ExecutionFailureReason_start_watchdog)
  | Main_reading_origin =>
      if tick_ok (mi_reading input)
      then Some (sh, Main_releasing (tick_ticks (mi_reading input)))
      else Some (sh, Main_aborting ExecutionFailureReason_clock_read)
  | Main_releasing origin =>
      let '(b, status) := release_with_measurement_origin (sh_barrier sh) origin in
      Some (set_barrier sh b,
            if bool_decide (status = StartBarrierStatus_released) then Main_joining origin
            else Main_aborting ExecutionFailureReason_start_watchdog)
  | Main_aborting reason => Some (cancel_execution sh, Main_cancelling_barrier reason)
  | Main_cancelling_barrier reason =>
      Some (set_barrier sh (barrier_cancel (sh_barrier sh)), Main_joining_aborted reason)
  | Main_joining_aborted reason =>
      if producer_joined p && consumer_joined c
      then Some (sh, Main_reported (aborted_report reason)) else None
  | Main_joining origin =>
      if producer_joined p && consumer_joined c
      then Some (sh, Main_reported (assemble_report origin (sh_cancellation sh)
                                      (pt_local p) (ct_local c)))
      else None
  | Main_reported _ => None
  end.

(** ** Executions *)

Record Execution : Set := mkExecution {
  ex_shared : Shared;
  ex_producer : ProducerThread;
  ex_consumer : ConsumerThread;
  ex_main : MainPc
}.

Definition execution_initial (termination : TerminationControl) : Execution :=
  mkExecution
    (mkShared barrier_initial termination false false [] [] 0 0)
    (mkProducerThread Producer_arriving
       (mkProducerWorkerState ExecutionFailureReason_none 0 0 0 0 false false) 0 0 0)
    (mkConsumerThread Consumer_arriving
       (mkConsumerWorkerState ExecutionFailureReason_none ExecutionFailurePhase_none
          0 0 0 false) 0 0 0)
    Main_waiting.

Inductive execution_step : Execution -> Execution -> Prop :=
| execution_step_producer input s sh p :
    producer_step input (ex_shared s) (ex_producer s) = Some (sh, p) ->
    execution_step s (mkExecution sh p (ex_consumer s) (ex_main s))
| execution_step_consumer input s sh c :
    consumer_step input (ex_shared s) (ex_consumer s) = Some (sh, c) ->
    execution_step s (mkExecution sh (ex_producer s) c (ex_main s))
| execution_step_main input s sh pc :
    main_step input (ex_shared s) (ex_producer s) (ex_consumer s) (ex_main s) = Some (sh, pc) ->
    execution_step s (mkExecution sh (ex_producer s) (ex_consumer s) pc).

(** Executions that start after a successful [prepare_execution]. *)
Inductive execution_reachable : Execution -> Prop :=
| execution_reachable_initial t0 termination :
    prepare_execution schedule limits t0 = inr termination ->
    execution_reachable (execution_initial termination)
| execution_reachable_step s s' :
    execution_reachable s -> execution_step s s' -> execution_reachable s'.

End Configuration.

(** ** Invariants *)

Section Invariants.

Context (schedule : PreparedScheduleView) (limits : ExecutionLimits).

(** The [k]-th attempt is the [k]-th arrival of the schedule, made once the clock
    had reached its deadline mapped to the measurement origin. *)
Definition attempts_ok (origin : Z) (attempts : list (ProducerAttempt * Z)) : Prop :=
  forall k a reading, attempts !! k = Some (a, reading) ->
    pa_logical_sequence a = Z.of_nat k /\
    sv_deadline_ticks schedule !! k = Some (pa_scheduled_deadline a) /\
    exists target,
      checked_measurement_deadline origin (sv_origin_ticks schedule)
        (pa_scheduled_deadline a) = Some target /\ target <= reading.

(** The [i]-th event that entered the queue came from an attempt that proposed
    the accepted ordinal [i]. *)
Definition entered_ok (attempts : list (ProducerAttempt * Z)) (entered : list Z) : Prop :=
  forall i q, entered !! i = Some q ->
    exists k a reading, attempts !! k = Some (a, reading) /\ q = Z.of_nat k /\
      pa_candidate_accepted_ordinal a = Z.of_nat i.

Record log_ok (origin : Z) (sh : Shared) : Prop := {
  lo_attempts : attempts_ok origin (sh_attempts sh);
  lo_entered : entered_ok (sh_attempts sh) (sh_entered sh);
  lo_length : (length (sh_entered sh) <= length (sh_attempts sh))%nat
}.

Definition counts_ok (sh : Shared) (l : ProducerWorkerState) : Prop :=
  pw_attempted l = Z.of_nat (length (sh_attempts sh)) /\
  pw_accepted l = Z.of_nat (length (sh_entered sh)) /\
  0 <= pw_full l /\ pw_accepted l + pw_full l = pw_attempted l.

(** The termination word and the failure flag are still clear. *)
Definition unpublished (sh : Shared) (l : ProducerWorkerState) : Prop :=
  arrivals_finished (sh_termination sh) = false /\ sh_producer_failed sh = false /\
  pw_completed l = false /\ pw_arrivals_finished_published l = false.

Definition producer_fresh (sh : Shared) (t : ProducerThread) : Prop :=
  sh_attempts sh = [] /\ sh_entered sh = [] /\ counts_ok sh (pt_local t) /\
  unpublished sh (pt_local t).

Definition released_to (sh : Shared) (t : ProducerThread) : Prop :=
  wb_released (sh_barrier sh) = true /\
  pt_measurement_origin t = wb_measurement_origin_ticks (sh_barrier sh).

(** Inside the arrival loop, [remaining] still to be handled. *)
Record producer_running (sh : Shared) (t : ProducerThread) (remaining : list Z) : Prop := {
  pr_schedule : exists handled, sv_deadline_ticks schedule = handled ++ remaining /\
    length handled = length (sh_attempts sh);
  pr_counts : counts_ok sh (pt_local t);
  pr_ordinal : pt_accepted_ordinal t = pw_accepted (pt_local t);
  pr_sequence : pt_logical_sequence t = pw_attempted (pt_local t);
  pr_failure : pw_failure (pt_local t) = ExecutionFailureReason_none;
  pr_unpublished : unpublished sh (pt_local t);
  pr_released : released_to sh t
}.

(** After the arrival loop. *)
Definition producer_stopped (sh : Shared) (t : ProducerThread) : Prop :=
  released_to sh t /\
  (pw_failure (pt_local t) = ExecutionFailureReason_none ->
     length (sh_attempts sh) = length (sv_deadline_ticks schedule) /\
     counts_ok sh (pt_local t)).

Definition producer_outcome (sh : Shared) (t : ProducerThread) : Prop :=
  (pw_failure (pt_local t) = ExecutionFailureReason_none /\
   pw_completed (pt_local t) = true /\ sh_producer_failed sh = false) \/
  (pw_failure (pt_local t) <> ExecutionFailureReason_none /\ sh_producer_failed sh = true).

Definition producer_inv (sh : Shared) (t : ProducerThread) : Prop :=
  log_ok (pt_measurement_origin t) sh /\
  match pt_pc t with
  | Producer_arriving =>
      producer_fresh sh t /\ pw_failure (pt_local t) = ExecutionFailureReason_none /\
      Z.testbit (wb_arrived_mask (sh_barrier sh)) 0 = false
  | Producer_waiting =>
      producer_fresh sh t /\ pw_failure (pt_local t) = ExecutionFailureReason_none
  | Producer_start_failed =>
      producer_fresh sh t /\ pw_failure (pt_local t) = ExecutionFailureReason_start_watchdog
  | Producer_at remaining => producer_running sh t remaining
  | Producer_polling deadline target polls remaining =>
      producer_running sh t (deadline :: remaining) /\ 0 <= polls /\
      checked_measurement_deadline (pt_measurement_origin t) (sv_origin_ticks schedule)
        deadline = Some target
  | Producer_due deadline reading remaining =>
      producer_running sh t (deadline :: remaining) /\
      exists target, checked_measurement_deadline (pt_measurement_origin t)
        (sv_origin_ticks schedule) deadline = Some target /\ target <= reading
  | Producer_finishing => producer_stopped sh t /\ unpublished sh (pt_local t)
  | Producer_cancelling =>
      producer_stopped sh t /\ arrivals_finished (sh_termination sh) = false /\
      sh_producer_failed sh = true /\ pw_failure (pt_local t) <> ExecutionFailureReason_none
  | Producer_publishing =>
      producer_stopped sh t /\ arrivals_finished (sh_termination sh) = false /\
      producer_outcome sh t
  | Producer_done =>
      (producer_stopped sh t /\ arrivals_finished (sh_termination sh) = true /\
       sh_published sh = length (sh_entered sh) /\ producer_outcome sh t /\
       pw_arrivals_finished_published (pt_local t) = true) \/
      (sh_attempts sh = [] /\ sh_entered sh = [] /\
       pw_failure (pt_local t) = ExecutionFailureReason_start_watchdog /\
       arrivals_finished (sh_termination sh) = false)
  end.

(** The consumer inside its loop. *)
Definition consumer_running (sh : Shared) (t : ConsumerThread) : Prop :=
  cw_failure (ct_local t) = ExecutionFailureReason_none /\
  cw_consumed (ct_local t) = Z.of_nat (sh_delivered sh) /\
  ct_candidate_consumed_ordinal t = Z.of_nat (sh_delivered sh) /\
  cw_drained (ct_local t) = false /\
  0 <= ct_empty_before_finish t < el_consumer_empty_poll_limit_before_finish limits.

(** It has read the termination word as set. *)
Definition finish_known (sh : Shared) (t : ConsumerThread) : Prop :=
  arrivals_finished (sh_termination sh) = true /\ ct_visible t = length (sh_entered sh).

Definition consumer_inv (sh : Shared) (t : ConsumerThread) : Prop :=
  (sh_delivered sh <= length (sh_entered sh))%nat /\
  (ct_visible t <= length (sh_entered sh))%nat /\
  cw_failure (ct_local t) <> ExecutionFailureReason_cancelled /\
  match ct_pc t with
  | Consumer_arriving =>
      cw_failure (ct_local t) = ExecutionFailureReason_none /\ sh_delivered sh = 0%nat /\
      cw_consumed (ct_local t) = 0 /\ cw_drained (ct_local t) = false /\
      Z.testbit (wb_arrived_mask (sh_barrier sh)) 1 = false
  | Consumer_waiting =>
      cw_failure (ct_local t) = ExecutionFailureReason_none /\ sh_delivered sh = 0%nat /\
      cw_consumed (ct_local t) = 0 /\ cw_drained (ct_local t) = false
  | Consumer_top => consumer_running sh t
  | Consumer_finish_seen => consumer_running sh t /\ finish_known sh t
  | Consumer_polling finished =>
      consumer_running sh t /\
      (finished = true -> finish_known sh t /\ sh_producer_failed sh = false)
  | Consumer_classifying _ => cw_failure (ct_local t) <> ExecutionFailureReason_none
  | Consumer_cancelling =>
      cw_failure (ct_local t) <> ExecutionFailureReason_none /\
      cw_failure_phase (ct_local t) <> ExecutionFailurePhase_none
  | Consumer_done =>
      (cw_failure (ct_local t) <> ExecutionFailureReason_none /\
       cw_failure_phase (ct_local t) <> ExecutionFailurePhase_none) \/
      (cw_failure (ct_local t) = ExecutionFailureReason_none /\
       arrivals_finished (sh_termination sh) = true /\
       (sh_producer_failed sh = true \/
        (cw_drained (ct_local t) = true /\ sh_delivered sh = length (sh_entered sh) /\
         cw_consumed (ct_local t) = Z.of_nat (sh_delivered sh))))
  end.

Definition main_aborted (sh : Shared) (pc : MainPc) : Prop :=
  match pc with
  | Main_cancelling_barrier _ | Main_joining_aborted _ => True
  | Main_reported r => wb_released (sh_barrier sh) = false
  | _ => False
  end.

Definition main_inv (s : Execution) : Prop :=
  let b := sh_barrier (ex_shared s) in
  match ex_main s with
  | Main_joining origin => wb_released b = true /\ wb_measurement_origin_ticks b = origin
  | Main_reported r =>
      (exists reason, r = aborted_report schedule reason /\ wb_released b = false /\
         reason <> ExecutionFailureReason_none /\ reason <> ExecutionFailureReason_cancelled) \/
      (wb_released b = true /\ producer_joined (ex_producer s) = true /\
       consumer_joined (ex_consumer s) = true /\
       r = assemble_report schedule (wb_measurement_origin_ticks b)
             (sh_cancellation (ex_shared s)) (pt_local (ex_producer s))
             (ct_local (ex_consumer s)))
  | Main_aborting reason | Main_cancelling_barrier reason | Main_joining_aborted reason =>
      wb_released b = false /\
      reason <> ExecutionFailureReason_none /\ reason <> ExecutionFailureReason_cancelled
  | _ => wb_released b = false
  end.

Record execution_inv (s : Execution) : Prop := {
  ei_producer : producer_inv (ex_shared s) (ex_producer s);
  ei_consumer : consumer_inv (ex_shared s) (ex_consumer s);
  ei_main : main_inv s;
  (* Who may have requested the cancellation. *)
  ei_cancellation : sh_cancellation (ex_shared s) = true ->
    pw_failure (pt_local (ex_producer s)) <> ExecutionFailureReason_none \/
    cw_failure (ct_local (ex_consumer s)) <> ExecutionFailureReason_none \/
    main_aborted (ex_shared s) (ex_main s);
  ei_cancelled : pw_failure (pt_local (ex_producer s)) = ExecutionFailureReason_cancelled ->
    cw_failure (ct_local (ex_consumer s)) <> ExecutionFailureReason_none
}.

End Invariants.

(** ** Preservation *)

Section Preservation.

Context (schedule : PreparedScheduleView) (limits : ExecutionLimits).

(** The part of the shared state the producer's invariant reads. *)
Record same_for_producer (sh sh' : Shared) : Prop := {
  sp_attempts : sh_attempts sh' = sh_attempts sh;
  sp_entered : sh_entered sh' = sh_entered sh;
  sp_termination : sh_termination sh' = sh_termination sh;
  sp_failed : sh_producer_failed sh' = sh_producer_failed sh;
  sp_published : sh_published sh' = sh_published sh;
  sp_released : wb_released (sh_barrier sh) = true ->
    wb_released (sh_barrier sh') = true /\
    wb_measurement_origin_ticks (sh_barrier sh') = wb_measurement_origin_ticks (sh_barrier sh);
  sp_bit : Z.testbit (wb_arrived_mask (sh_barrier sh')) 0 =
           Z.testbit (wb_arrived_mask (sh_barrier sh)) 0
}.

Lemma log_ok_frame origin sh sh' :
  sh_attempts sh' = sh_attempts sh -> sh_entered sh' = sh_entered sh ->
  log_ok schedule origin sh -> log_ok schedule origin sh'.
Proof. intros Ea Ee [H1 H2 H3]. constructor; rewrite ?Ea, ?Ee; done. Qed.

Lemma counts_ok_frame sh sh' l :
  sh_attempts sh' = sh_attempts sh -> sh_entered sh' = sh_entered sh ->
  counts_ok sh l -> counts_ok sh' l.
Proof. unfold counts_ok. by intros -> ->. Qed.

Lemma released_to_frame sh sh' t :
  same_for_producer sh sh' -> released_to sh t -> released_to sh' t.
Proof.
  intros Hs [H1 H2]. destruct (sp_released _ _ Hs H1) as [H3 H4]. split; [done|].
  by rewrite H4.
Qed.

Lemma producer_running_frame sh sh' t remaining :
  same_for_producer sh sh' ->
  producer_running schedule sh t remaining -> producer_running schedule sh' t remaining.
Proof.
  intros [Ea Ee Et Ef Ep Er Eb] [[h [H1 H2]] H3 H4 H5 H6 H7 H8]. constructor; try done.
  - exists h. by rewrite Ea.
  - by eapply counts_ok_frame.
  - destruct H7 as (? & ? & ?). unfold unpublished. by rewrite Et, Ef.
  - by eapply released_to_frame.
Qed.

Lemma producer_stopped_frame sh sh' t :
  same_for_producer sh sh' -> producer_stopped schedule sh t -> producer_stopped schedule sh' t.
Proof.
  intros [Ea Ee Et Ef Ep Er Eb] [H1 H3]. split; [by eapply released_to_frame|].
  intros H. destruct (H3 H). rewrite Ea. split; [done | by eapply counts_ok_frame].
Qed.

Lemma producer_fresh_frame sh sh' t :
  same_for_producer sh sh' -> producer_fresh sh t -> producer_fresh sh' t.
Proof.
  intros [Ea Ee Et Ef Ep Er Eb] (H1 & H2 & H3 & H4). unfold producer_fresh, unpublished.
  rewrite Ea, Ee, Et, Ef. split_and!; try done; [by eapply counts_ok_frame | apply H4..].
Qed.

Lemma producer_inv_frame sh sh' t :
  same_for_producer sh sh' -> producer_inv schedule sh t -> producer_inv schedule sh' t.
Proof.
  intros Hs [Hlog Hpc]. pose proof Hs as [Ea Ee Et Ef Ep Er Eb].
  split; [by eapply log_ok_frame|].
  destruct (pt_pc t); unfold unpublished, producer_outcome in *;
    rewrite ?Ea, ?Ee, ?Et, ?Ef, ?Ep, ?Eb;
    intuition eauto using producer_fresh_frame, producer_running_frame, producer_stopped_frame.
Qed.

(** What a step of the producer leaves alone. *)
Record same_for_consumer (sh sh' : Shared) : Prop := {
  sc_unfinished : arrivals_finished (sh_termination sh) = false;
  sc_delivered : sh_delivered sh' = sh_delivered sh;
  sc_entered : (length (sh_entered sh) <= length (sh_entered sh'))%nat;
  sc_bit : Z.testbit (wb_arrived_mask (sh_barrier sh')) 1 =
           Z.testbit (wb_arrived_mask (sh_barrier sh)) 1
}.

Lemma consumer_inv_frame sh sh' t :
  same_for_consumer sh sh' -> consumer_inv limits sh t -> consumer_inv limits sh' t.
Proof.
  intros [Eu Ed El Eb] (H1 & H2 & H3 & H4). unfold consumer_inv.
  rewrite Ed. split; [lia|]. split; [lia|]. split; [done|].
  destruct (ct_pc t); unfold consumer_running, finish_known in *; rewrite ?Ed, ?Eb; try done.
  - destruct H4 as [_ [H4 _]]. congruence.
  - destruct H4 as [H4 H5]. split; [done|]. intros ->. destruct (H5 eq_refl) as [[? ?] _]. congruence.
  - destruct H4 as [H4|(_ & H4 & _)]; [by left | congruence].
Qed.

Lemma arrive_bits b role r :
  Z.testbit (wb_arrived_mask (fst (arrive b role))) (role_code r) =
    Z.testbit (wb_arrived_mask b) (role_code r) || bool_decide (role_code role = role_code r).
Proof.
  unfold arrive. destruct (negb _); simpl; by rewrite Z.lor_spec, role_bit_test.
Qed.

Lemma arrive_keeps b role :
  wb_released (fst (arrive b role)) = wb_released b /\
  wb_measurement_origin_ticks (fst (arrive b role)) = wb_measurement_origin_ticks b.
Proof. unfold arrive. by destruct (negb _). Qed.

Lemma arrive_ready b role :
  Z.testbit (wb_arrived_mask b) (role_code role) = false ->
  snd (arrive b role) = StartBarrierStatus_ready.
Proof.
  intros H. apply role_bit_land in H. unfold arrive. by rewrite H.
Qed.

(** *** The producer's steps *)

Lemma log_attempt_ok sh t deadline remaining reading target entered :
  log_ok schedule (pt_measurement_origin t) sh ->
  producer_running schedule sh t (deadline :: remaining) ->
  checked_measurement_deadline (pt_measurement_origin t) (sv_origin_ticks schedule) deadline
    = Some target -> target <= reading ->
  log_ok schedule (pt_measurement_origin t)
    (log_attempt sh
       (mkProducerAttempt (pt_logical_sequence t) deadline (pt_accepted_ordinal t))
       reading entered).
Proof.
  intros [H1 H2 H3] [[h [Hs Hh]] (Hc1 & Hc2 & Hc3) Ho Hq _ _ _] Ht Hr.
  constructor; simpl.
  - intros k a r Hk. apply lookup_snoc_Some in Hk as [[Hlt Hk]|[-> Hk]]; [by apply H1|].
    injection Hk as <- <-. simpl. split; [lia|]. split; [|by exists target].
    by rewrite Hs, list_lookup_middle.
  - intros i q Hi.
    assert (Hold : sh_entered sh !! i = Some q -> exists k a r,
      (sh_attempts sh ++ [(mkProducerAttempt (pt_logical_sequence t) deadline
         (pt_accepted_ordinal t), reading)]) !! k = Some (a, r) /\ q = Z.of_nat k /\
      pa_candidate_accepted_ordinal a = Z.of_nat i).
    { intros Hi'. destruct (H2 i q Hi') as (k & a & r & Hk & Hq' & Hi'').
      exists k, a, r. split; [by apply lookup_app_l_Some | done]. }
    destruct entered; [|by apply Hold].
    apply lookup_snoc_Some in Hi as [[Hlt Hi]|[-> Hi]]; [by apply Hold|]. simpl in Hi. subst q.
    eexists (length (sh_attempts sh)), _, reading. rewrite lookup_app_r by lia.
    rewrite Nat.sub_diag. split; [reflexivity|]. simpl. split; lia.
  - rewrite length_app. simpl. destruct entered; rewrite ?length_app; simpl; lia.
Qed.

Lemma attempts_bounded sh origin :
  log_ok schedule origin sh ->
  (length (sh_attempts sh) <= length (sv_deadline_ticks schedule))%nat.
Proof.
  intros [H _ _]. destruct (sh_attempts sh) as [|a l] eqn:E using rev_ind; simpl; [lia|].
  destruct a as [a r]. destruct (H (length l) a r) as (_ & Hd & _).
  { by rewrite lookup_app_r, Nat.sub_diag by lia. }
  apply lookup_lt_Some in Hd. rewrite length_app. simpl. lia.
Qed.

Hypothesis Hsize : offered schedule <= u64_max.

Lemma count_attempt_inv sh t deadline reading target remaining input :
  log_ok schedule (pt_measurement_origin t) sh ->
  producer_running schedule sh t (deadline :: remaining) ->
  checked_measurement_deadline (pt_measurement_origin t) (sv_origin_ticks schedule) deadline
    = Some target -> target <= reading -> attempt_possible input = true ->
  producer_inv schedule
    (log_attempt sh
       (mkProducerAttempt (pt_logical_sequence t) deadline (pt_accepted_ordinal t))
       reading (pi_entered input))
    (producer_counts_attempt t (pi_attempt input) remaining).
Proof.
  intros Hlog Hrun Ht Hr Hpos.
  pose proof (log_attempt_ok sh t deadline remaining reading target (pi_entered input)
    Hlog Hrun Ht Hr) as Hlog'.
  pose proof (attempts_bounded _ _ Hlog') as Hb. simpl in Hb. rewrite length_app in Hb.
  destruct Hrun as [[h [Hs Hh]] (Hc1 & Hc2 & Hc3 & Hc4) Ho Hq Hf (Hu1 & Hu2 & Hu3 & Hu4) Hrel].
  pose proof (lo_length _ _ _ Hlog) as Hll. unfold offered in Hsize. simpl in Hb.
  assert (E1 : u64_add (pw_attempted (pt_local t)) 1 = pw_attempted (pt_local t) + 1)
    by (apply u64_add_small; int_lia).
  assert (E2 : u64_add (pw_accepted (pt_local t)) 1 = pw_accepted (pt_local t) + 1)
    by (apply u64_add_small; int_lia).
  assert (E3 : u64_add (pw_full (pt_local t)) 1 = pw_full (pt_local t) + 1)
    by (apply u64_add_small; int_lia).
  unfold attempt_possible in Hpos. unfold producer_counts_attempt.
  rewrite E1, E2, E3, Ho, Hq, E1, E2.
  assert (Hsplit : sv_deadline_ticks schedule = (h ++ [deadline]) ++ remaining)
    by (rewrite Hs; by rewrite <- app_assoc).
  destruct (par_status (pi_attempt input)), (par_outcome (pi_attempt input));
    (split; [rewrite <- ?Ho, <- ?Hq; exact Hlog'|]); cbn [pt_pc]; cycle 2;
    [split; [split; [exact Hrel | done] | done]..| |];
    try (destruct (pi_entered input); try done);
    (constructor; simpl; try done; unfold counts_ok; simpl; rewrite ?length_app; simpl; try lia;
     exists (h ++ [deadline]); split; [done | rewrite !length_app; simpl; lia]).
Qed.

Lemma running_fails sh t remaining reason :
  log_ok schedule (pt_measurement_origin t) sh ->
  producer_running schedule sh t remaining -> reason <> ExecutionFailureReason_none ->
  producer_inv schedule sh (producer_fails t reason Producer_finishing).
Proof.
  intros Hlog [_ _ _ _ _ Hu Hrel] Hreason. split; [done|]. simpl.
  split; [|exact Hu]. split; [exact Hrel | done].
Qed.

Lemma producer_step_inv input sh t sh' t' :
  producer_inv schedule sh t -> producer_step schedule limits input sh t = Some (sh', t') ->
  producer_inv schedule sh' t'.
Proof.
  intros [Hlog Hpc] Hstep. unfold producer_step in Hstep.
  destruct (pt_pc t) as [| | |[|d rem]|d target polls rem|d reading rem| | | |] eqn:Epc.
  - destruct Hpc as (Hfresh & Hf & Hbit).
    pose proof (arrive_ready (sh_barrier sh) WorkerRole_producer Hbit) as Hready.
    destruct (arrive _ _) as [b status]. simpl in Hready. subst status. simplify_eq.
    split; [by apply (log_ok_frame _ sh)|]. done.
  - destruct Hpc as [Hfresh Hf]. pose proof Hfresh as (Ha & He & Hc & Hu).
    destruct (worker_wait_possible _ _) eqn:Ew; [|done]. simpl in Hstep.
    case_bool_decide as Hr; simplify_eq.
    + rewrite Hr in Ew. simpl in Ew.
      split; [constructor; unfold attempts_ok, entered_ok; rewrite ?Ha, ?He; done|].
      constructor; simpl; try done; [exists []; by rewrite Ha | |];
        destruct Hc as (Hc1 & Hc2 & Hc3 & Hc4); rewrite ?Ha, ?He in *; simpl in *; lia.
    + split; [done|]. by split.
  - destruct Hpc as [(Ha & He & Hc & Hu & _) Hf]. simplify_eq.
    split; [by apply (log_ok_frame _ sh)|]. right. done.
  - simplify_eq. split; [done|]. destruct Hpc as [[h [Hs Hh]] Hc _ _ Hf Hu Hrel].
    split; [|exact Hu]. split; [exact Hrel|]. intros _. rewrite app_nil_r in Hs.
    rewrite Hs. split; [by rewrite Hh | done].
  - destruct (load_possible _ _); [|done]. simpl in Hstep.
    destruct (pi_cancel_seen input); [simplify_eq; by eapply running_fails|].
    destruct (checked_measurement_deadline _ _ _) eqn:Ec; simplify_eq;
      [|by eapply running_fails].
    split; [done|]. simpl. split; [|by split]. destruct Hpc. by constructor.
  - destruct Hpc as (Hrun & Hpolls & Hc).
    destruct (polls <? _) eqn:El; simpl in Hstep; [|simplify_eq; by eapply running_fails].
    destruct (load_possible _ _); [|done]. simpl in Hstep.
    destruct (pi_cancel_seen input); [simplify_eq; by eapply running_fails|].
    destruct (tick_ok (pi_reading input)); simpl in Hstep;
      [|simplify_eq; by eapply running_fails].
    destruct (Z.geb_spec (tick_ticks (pi_reading input)) target); simplify_eq;
      (split; [done|]); simpl.
    + split; [destruct Hrun; by constructor | by exists target].
    + split; [destruct Hrun; by constructor|]. split; [apply u64_wrap_range | done].
  - destruct Hpc as (Hrun & target & Hc & Hle).
    destruct (attempt_possible input) eqn:Ea; [|done]. cbn [negb] in Hstep. simplify_eq.
    by eapply count_attempt_inv.
  - destruct Hpc as [Hst (Hu1 & Hu2 & Hu3 & Hu4)]. case_bool_decide as Hf; cbn [negb] in Hstep;
      simplify_eq; simpl.
    + split; [exact Hlog|]. split; [exact Hst|]. split; [done|]. by left.
    + split; [by apply (log_ok_frame _ sh)|]. split; [exact Hst|]. done.
  - destruct Hpc as (Hst & Hfin & Hpf & Hf). simplify_eq. split; [by apply (log_ok_frame _ sh)|].
    split; [exact Hst|]. split; [done|]. by right.
  - destruct Hpc as (Hst & Hfin & Hout). simplify_eq. split; [by apply (log_ok_frame _ sh)|]. left.
    split; [exact Hst|]. done.
  - done.
Qed.

(** What the rest of the program sees of a step of the producer. *)
Lemma producer_step_frame input sh t sh' t' :
  producer_inv schedule sh t -> producer_step schedule limits input sh t = Some (sh', t') ->
  same_for_consumer sh sh' /\
  wb_released (sh_barrier sh') = wb_released (sh_barrier sh) /\
  wb_measurement_origin_ticks (sh_barrier sh') = wb_measurement_origin_ticks (sh_barrier sh) /\
  producer_joined t = false.
Proof.
  intros [_ Hpc] Hstep. unfold producer_step in Hstep. unfold producer_joined.
  destruct (pt_pc t) as [| | |[|d rem]|d target polls rem|d reading rem| | | |] eqn:Epc;
    try done.
  - destruct Hpc as ((_ & _ & _ & Hu & _) & _).
    pose proof (arrive_bits (sh_barrier sh) WorkerRole_producer WorkerRole_consumer) as Hb.
    pose proof (arrive_keeps (sh_barrier sh) WorkerRole_producer) as [Hk1 Hk2].
    destruct (arrive _ _) as [b status]. simplify_eq. simpl in *. rewrite orb_false_r in Hb.
    by split; [constructor|].
  - destruct Hpc as ((_ & _ & _ & Hu & _) & _). repeat destr_in Hstep; simplify_eq;
      by split; [constructor|].
  - destruct Hpc as ((_ & _ & _ & Hu & _) & _). simplify_eq. by split; [constructor|].
  - destruct Hpc as [_ _ _ _ _ [Hu _] _]. simplify_eq. by split; [constructor|].
  - destruct Hpc as [_ _ _ _ _ [Hu _] _]. repeat destr_in Hstep; simplify_eq;
      by split; [constructor|].
  - destruct Hpc as [[_ _ _ _ _ [Hu _] _] _]. repeat destr_in Hstep; simplify_eq;
      by split; [constructor|].
  - destruct Hpc as [[_ _ _ _ _ [Hu _] _] _]. destr_in Hstep; simplify_eq.
    split; [|done]. constructor; try done. simpl. destruct (pi_entered input); [|lia].
    rewrite length_app. lia.
  - destruct Hpc as [_ [Hu _]]. repeat destr_in Hstep; simplify_eq;
      by split; [constructor|].
  - destruct Hpc as (_ & Hu & _). simplify_eq. by split; [constructor|].
  - destruct Hpc as (_ & Hu & _). simplify_eq. by split; [constructor|].
Qed.

(** *** The consumer's steps *)

Hypothesis Hlimit : 0 < el_consumer_empty_poll_limit_before_finish limits <= u64_max.

Lemma consumer_after_poll_inv sh t finished input :
  consumer_inv limits sh t -> ct_pc t = Consumer_polling finished ->
  Z.of_nat (length (sh_entered sh)) <= u64_max ->
  poll_possible sh t input = true ->
  consumer_inv limits (if ci_removed input then deliver sh else sh)
    (consumer_after_poll limits finished (ci_poll input) t).
Proof.
  intros (Hd & Hv & Hnc & Hpc) Epc Hlen Hpoll. rewrite Epc in Hpc.
  destruct Hpc as [(Hf & Hc & Ho & Hdr & He) Hfin].
  assert (E1 : u64_add (ct_empty_before_finish t) 1 = ct_empty_before_finish t + 1)
    by (apply u64_add_small; int_lia).
  assert (E2 : (sh_delivered sh < length (sh_entered sh))%nat ->
    u64_add (Z.of_nat (sh_delivered sh)) 1 = Z.of_nat (S (sh_delivered sh)))
    by (intros; unfold u64_add; rewrite u64_wrap_id; int_lia).
  unfold poll_possible in Hpoll. unfold consumer_after_poll.
  set (t1 := if finished then consumer_counts_drain t else t).
  assert (Ht1 : cw_failure (ct_local t1) = ExecutionFailureReason_none /\
    cw_consumed (ct_local t1) = Z.of_nat (sh_delivered sh) /\
    ct_candidate_consumed_ordinal t1 = Z.of_nat (sh_delivered sh) /\
    cw_drained (ct_local t1) = false /\ ct_visible t1 = ct_visible t /\
    ct_empty_before_finish t1 = ct_empty_before_finish t)
    by (destruct finished; simpl; done).
  destruct Ht1 as (F1 & F2 & F3 & F4 & F5 & F6).
  assert (Hd' : (sh_delivered (if ci_removed input then deliver sh else sh) <=
                 length (sh_entered (if ci_removed input then deliver sh else sh)))%nat).
  { destruct (ci_poll input), (ci_removed input); simpl in *;
      try discriminate Hpoll; try apply Nat.ltb_lt in Hpoll; lia. }
  assert (Hv' : (ct_visible t <=
                 length (sh_entered (if ci_removed input then deliver sh else sh)))%nat)
    by (destruct (ci_removed input); simpl; lia).
  destruct (finished && _); [split; [done|]; split; [simpl; lia | done]|].
  destruct (ci_poll input).
  - destruct (ci_removed input); [|done]. simpl in Hpoll. apply Nat.ltb_lt in Hpoll.
    split; [done|]. split; [simpl in *; lia|]. simpl. rewrite F1. split; [done|].
    unfold consumer_running. simpl. rewrite F1, F2, F3, F4, E2 by done.
    split_and!; try done; lia.
  - destruct (ci_removed input); [done|]. simpl in Hpoll. apply Nat.leb_le in Hpoll.
    destruct finished.
    + split; [done|]. split; [done|]. simpl. split; [done|]. right.
      destruct (Hfin eq_refl) as [[Hf1 Hf2] Hf3]. split; [done|].
      split; [done|]. right. split; [done|]. split; [lia | done].
    + destruct (_ >=? _) eqn:Eg; [split; [done|]; split; [done | done]|].
      rewrite Z.geb_leb, Z.leb_gt in Eg. subst t1. simpl in Eg.
      split; [done|]. split; [done|]. simpl. rewrite Hf. split; [done|].
      unfold consumer_running. simpl. split_and!; try done; lia.
  - split; [done|]. split; [simpl; lia | done].
Qed.

Lemma finished_published sh p :
  producer_inv schedule sh p -> arrivals_finished (sh_termination sh) = true ->
  sh_published sh = length (sh_entered sh).
Proof.
  intros [_ Hpc] Hfin. destruct (pt_pc p); unfold producer_fresh, unpublished in Hpc;
    try (destruct Hpc as [_ _ _ _ _ [? _] _]; congruence);
    try (destruct Hpc as [[_ _ _ _ _ [? _] _] _]; congruence);
    naive_solver congruence.
Qed.

Lemma consumer_step_inv input sh p t sh' t' :
  producer_inv schedule sh p -> consumer_inv limits sh t ->
  consumer_step limits input sh t = Some (sh', t') -> consumer_inv limits sh' t'.
Proof.
  intros Hp Hinv Hstep. pose proof Hinv as (Hd & Hv & Hnc & Hpc).
  unfold consumer_step in Hstep.
  destruct (ct_pc t) as [| | | |finished|finished| |] eqn:Epc; try done.
  - destruct Hpc as (Hf & Hd0 & Hc & Hdr & Hbit).
    pose proof (arrive_ready (sh_barrier sh) WorkerRole_consumer Hbit) as Hready.
    destruct (arrive _ _) as [b status]. simpl in Hready. subst status. simplify_eq. done.
  - destruct Hpc as (Hf & Hd0 & Hc & Hdr).
    destruct (worker_wait_possible _ _); [|done]. cbn [negb] in Hstep.
    case_bool_decide; simplify_eq; [|by split_and!].
    split_and!; try done. simpl. unfold consumer_running. simpl.
    rewrite Hd0. split_and!; try done; lia.
  - destruct (load_possible _ _) eqn:El; [|done]. cbn [negb] in Hstep.
    destruct (ci_finished_seen input); simplify_eq.
    + unfold load_possible in El. simpl in El.
      assert (sh_published sh' = length (sh_entered sh')) as E
        by (eapply finished_published; eauto).
      split_and!; [done | simpl; lia | done |]. split; [exact Hpc | by split].
    + by split_and!.
  - destruct Hpc as [Hrun Hfin]. destruct (sh_producer_failed sh) eqn:Epf; simplify_eq.
    + split_and!; try done. right. split; [apply Hrun|]. split; [apply Hfin|]. by left.
    + split_and!; try done.
  - destruct (poll_possible _ _ _) eqn:Ep; [|done]. cbn [negb] in Hstep. simplify_eq.
    eapply consumer_after_poll_inv; try done.
    destruct Hp as [Hlog _]. pose proof (attempts_bounded _ _ Hlog).
    pose proof (lo_length _ _ _ Hlog). unfold offered in Hsize. lia.
  - destr_in Hstep; simplify_eq. split_and!; try done. simpl. split; [done|].
    by destruct (_ || _).
  - simplify_eq. split_and!; try done. by left.
Qed.

Lemma consumer_step_frame input sh t sh' t' :
  consumer_step limits input sh t = Some (sh', t') ->
  same_for_producer sh sh' /\
  wb_released (sh_barrier sh') = wb_released (sh_barrier sh) /\
  wb_measurement_origin_ticks (sh_barrier sh') = wb_measurement_origin_ticks (sh_barrier sh) /\
  consumer_joined t = false.
Proof.
  intros Hstep. unfold consumer_step in Hstep. unfold consumer_joined.
  destruct (ct_pc t) as [| | | |finished|finished| |] eqn:Epc; try done.
  - pose proof (arrive_bits (sh_barrier sh) WorkerRole_consumer WorkerRole_producer) as Hb.
    pose proof (arrive_keeps (sh_barrier sh) WorkerRole_consumer) as [Hk1 Hk2].
    destruct (arrive _ _) as [b status]. simplify_eq. simpl in *. rewrite orb_false_r in Hb.
    split; [constructor|]; try done. simpl. by rewrite Hk1, Hk2.
  - repeat destr_in Hstep; simplify_eq; by split; [constructor|].
  - repeat destr_in Hstep; simplify_eq; by split; [constructor|].
  - repeat destr_in Hstep; simplify_eq; by split; [constructor|].
  - destr_in Hstep; simplify_eq. destruct (ci_removed input); by split; [constructor|].
  - repeat destr_in Hstep; simplify_eq; by split; [constructor|].
  - simplify_eq; by split; [constructor|].
Qed.

(** A failure of a worker is never withdrawn. *)
Lemma consumer_failure_stays input sh t sh' t' :
  consumer_step limits input sh t = Some (sh', t') ->
  cw_failure (ct_local t) <> ExecutionFailureReason_none ->
  cw_failure (ct_local t') <> ExecutionFailureReason_none.
Proof.
  intros Hstep Hf. unfold consumer_step in Hstep.
  destruct (ct_pc t) as [| | | |finished|finished| |] eqn:Epc; try done;
    repeat destr_in Hstep; simplify_eq; try done.
  all: unfold consumer_after_poll; destruct finished, (ci_poll input); simpl;
    repeat case_match; simpl; done.
Qed.

Lemma consumer_cancels input sh t sh' t' :
  consumer_inv limits sh t -> consumer_step limits input sh t = Some (sh', t') ->
  sh_cancellation sh' = true ->
  sh_cancellation sh = true \/ cw_failure (ct_local t') <> ExecutionFailureReason_none.
Proof.
  intros (_ & _ & _ & Hpc) Hstep Hc. unfold consumer_step in Hstep.
  destruct (ct_pc t) as [| | | |finished|finished| |] eqn:Epc; try done;
    try (repeat destr_in Hstep; simplify_eq; by left).
  simplify_eq. right. apply Hpc.
Qed.

Lemma producer_failure_stays input sh t sh' t' :
  producer_inv schedule sh t ->
  producer_step schedule limits input sh t = Some (sh', t') ->
  pw_failure (pt_local t) <> ExecutionFailureReason_none ->
  pw_failure (pt_local t') = pw_failure (pt_local t).
Proof.
  intros [_ Hpc] Hstep Hf. unfold producer_step in Hstep.
  destruct (pt_pc t) as [| | |[|d rem]|d target polls rem|d reading rem| | | |] eqn:Epc;
    try done; try (repeat destr_in Hstep; simplify_eq; done).
  - by destruct Hpc as (_ & ? & _).
  - by destruct Hpc as [_ ?].
  - by destruct Hpc.
  - by destruct Hpc as [[] _].
  - by destruct Hpc as [[] _].
Qed.

Lemma producer_cancels input sh t sh' t' :
  producer_inv schedule sh t ->
  producer_step schedule limits input sh t = Some (sh', t') -> sh_cancellation sh' = true ->
  sh_cancellation sh = true \/ pw_failure (pt_local t') <> ExecutionFailureReason_none.
Proof.
  intros [_ Hpc] Hstep Hc. unfold producer_step in Hstep.
  destruct (pt_pc t) as [| | |[|d rem]|d target polls rem|d reading rem| | | |] eqn:Epc;
    try done; try (repeat destr_in Hstep; simplify_eq; by left).
  simplify_eq. right. apply Hpc.
Qed.

(** The producer records a cancellation only when it saw one while running. *)
Lemma producer_sees_cancellation input sh t sh' t' :
  producer_inv schedule sh t -> producer_step schedule limits input sh t = Some (sh', t') ->
  pw_failure (pt_local t') = ExecutionFailureReason_cancelled ->
  pw_failure (pt_local t) = ExecutionFailureReason_cancelled \/
  (sh_cancellation sh = true /\ wb_released (sh_barrier sh) = true /\
   pw_failure (pt_local t) = ExecutionFailureReason_none).
Proof.
  intros [_ Hpc] Hstep Hf. unfold producer_step in Hstep.
  destruct (pt_pc t) as [| | |[|d rem]|d target polls rem|d reading rem| | | |] eqn:Epc; try done.
  - destruct Hpc as (_ & _ & Hbit).
    pose proof (arrive_ready (sh_barrier sh) WorkerRole_producer Hbit) as Hready.
    destruct (arrive _ _) as [b status]. simpl in Hready. subst status. simplify_eq. by left.
  - repeat destr_in Hstep; simplify_eq; by left.
  - simplify_eq. by left.
  - simplify_eq. by left.
  - destruct Hpc as [_ _ _ _ Hnone _ [Hrel _]]. unfold load_possible in Hstep.
    destruct (pi_cancel_seen input), (sh_cancellation sh); simpl in Hstep; try done;
      repeat destr_in Hstep; simplify_eq; auto.
  - destruct Hpc as [[_ _ _ _ Hnone _ [Hrel _]] _]. unfold load_possible in Hstep.
    destruct (pi_cancel_seen input), (sh_cancellation sh); simpl in Hstep; try done;
      repeat destr_in Hstep; simplify_eq; auto.
  - destruct (attempt_possible input); [|done]. cbn [negb] in Hstep. simplify_eq.
    revert Hf. unfold producer_counts_attempt.
    destruct (pi_attempt input) as [[] []]; simpl; auto; discriminate.
  - repeat destr_in Hstep; simplify_eq; by left.
  - simplify_eq. by left.
  - simplify_eq. by left.
Qed.

(** *** The controlling thread's steps *)

Lemma main_step_frame input sh p c pc sh' pc' :
  main_inv schedule (mkExecution sh p c pc) ->
  main_step schedule input sh p c pc = Some (sh', pc') ->
  same_for_producer sh sh' /\ sh_delivered sh' = sh_delivered sh /\
  wb_arrived_mask (sh_barrier sh') = wb_arrived_mask (sh_barrier sh) /\
  (sh_cancellation sh' = true -> sh_cancellation sh = true \/ main_aborted sh' pc').
Proof.
  unfold main_inv. simpl. intros Hm Hstep.
  assert (Hsame : forall sh0, same_for_producer sh0 sh0) by (constructor; auto).
  destruct pc; simpl in Hstep; try done.
  - repeat destr_in Hstep; simplify_eq; auto.
  - repeat destr_in Hstep; simplify_eq; auto.
  - unfold release_with_measurement_origin in Hstep.
    destruct (wb_cancelled (sh_barrier sh)), (all_workers_ready (sh_barrier sh));
      simpl in Hstep; simplify_eq; (split; [constructor; simpl; intros; by try congruence|]);
      simpl; auto.
  - simplify_eq. split; [by constructor|]. simpl; auto.
  - simplify_eq. split; [by constructor|]. simpl; auto.
  - repeat destr_in Hstep; simplify_eq; auto.
  - repeat destr_in Hstep; simplify_eq; auto.
Qed.

Lemma main_step_inv input sh p c pc sh' pc' :
  main_inv schedule (mkExecution sh p c pc) ->
  main_step schedule input sh p c pc = Some (sh', pc') ->
  main_inv schedule (mkExecution sh' p c pc').
Proof.
  unfold main_inv. simpl. intros Hm Hstep.
  destruct pc; simpl in Hstep; try done.
  - repeat destr_in Hstep; simplify_eq; done.
  - destr_in Hstep; simplify_eq; done.
  - unfold release_with_measurement_origin in Hstep.
    destruct (wb_cancelled (sh_barrier sh)), (all_workers_ready (sh_barrier sh));
      simpl in Hstep; simplify_eq; done.
  - simplify_eq. done.
  - simplify_eq. done.
  - destr_in Hstep; simplify_eq. left. exists reason. done.
  - destruct (producer_joined p && consumer_joined c) eqn:E; [|done].
    apply andb_true_iff in E as [E1 E2]. simplify_eq. right. by destruct Hm as [? <-].
Qed.

(** The main thread reports only after both workers are done: a worker's step is
    not the last. *)
Lemma main_inv_frame sh sh' p p' c c' pc :
  main_inv schedule (mkExecution sh p c pc) ->
  (producer_joined p = false \/ consumer_joined c = false) ->
  wb_released (sh_barrier sh') = wb_released (sh_barrier sh) ->
  wb_measurement_origin_ticks (sh_barrier sh') = wb_measurement_origin_ticks (sh_barrier sh) ->
  main_inv schedule (mkExecution sh' p' c' pc).
Proof.
  unfold main_inv. simpl. intros Hm Hj Er Eo. rewrite Er, Eo. destruct pc; try done.
  destruct Hm as [Hm|(? & ? & ? & _)]; [by left|]. destruct Hj; congruence.
Qed.

(** An aborted start barrier was never released. *)
Lemma main_aborted_unreleased s :
  main_inv schedule s -> main_aborted (ex_shared s) (ex_main s) ->
  wb_released (sh_barrier (ex_shared s)) = false.
Proof. unfold main_inv, main_aborted. destruct (ex_main s); naive_solver. Qed.

Lemma main_aborted_step input sh p c pc sh' pc' :
  main_inv schedule (mkExecution sh p c pc) ->
  main_step schedule input sh p c pc = Some (sh', pc') ->
  main_aborted sh pc -> main_aborted sh' pc'.
Proof.
  unfold main_inv, main_aborted. simpl. intros Hm Hstep Ha.
  destruct pc; simpl in Hstep; try done.
  - by simplify_eq.
  - destr_in Hstep; simplify_eq. apply Hm.
Qed.

(** *** All threads together *)

Lemma execution_step_inv s s' :
  execution_inv schedule limits s -> execution_step schedule limits s s' ->
  execution_inv schedule limits s'.
Proof.
  intros [Hp Hc Hm Hcan Hcd] Hstep. destruct Hstep as [input s sh p E|input s sh c E|input s sh pc E].
  - destruct (producer_step_frame _ _ _ _ _ Hp E) as (Hs & Er & Eo & Hj).
    constructor; simpl.
    + by eapply producer_step_inv.
    + by eapply consumer_inv_frame.
    + destruct s. eapply main_inv_frame; eauto.
    + intros Hx. destruct (producer_cancels _ _ _ _ _ Hp E Hx) as [Hy|Hy]; [|by left].
      destruct (Hcan Hy) as [Hz|[Hz|Hz]]; [|by right; left|].
      * left. by rewrite (producer_failure_stays _ _ _ _ _ Hp E Hz).
      * right. right. unfold main_aborted in *. by rewrite Er.
    + intros Hf. destruct (producer_sees_cancellation _ _ _ _ _ Hp E Hf) as [Hg|(Hg & Hr & Hn)];
        [by apply Hcd|].
      destruct (Hcan Hg) as [Hz|[Hz|Hz]]; [done|done|].
      apply main_aborted_unreleased in Hz; [congruence | done].
  - destruct (consumer_step_frame _ _ _ _ _ E) as (Hs & Er & Eo & Hj).
    constructor; simpl.
    + by eapply producer_inv_frame.
    + by eapply consumer_step_inv.
    + destruct s. eapply main_inv_frame; eauto.
    + intros Hx. destruct (consumer_cancels _ _ _ _ _ Hc E Hx) as [Hy|Hy]; [|by right; left].
      destruct (Hcan Hy) as [Hz|[Hz|Hz]]; [by left| |].
      * right; left. by eapply consumer_failure_stays.
      * right. right. unfold main_aborted in *. by rewrite Er.
    + intros Hf. eapply consumer_failure_stays; eauto.
  - destruct s as [sh0 p c pc0]. simpl in *.
    destruct (main_step_frame _ _ _ _ _ _ _ Hm E) as (Hs & Ed & Eb & Hcn).
    constructor; simpl.
    + by eapply producer_inv_frame.
    + destruct Hs as [Ea Ee Et Ef Ep _ _]. destruct Hc as (H1 & H2 & H3 & H4).
      unfold consumer_inv, consumer_running, finish_known.
      by rewrite Ed, Ee, Et, Ef, Eb.
    + by eapply main_step_inv.
    + intros Hx. destruct (Hcn Hx) as [Hy|Hy]; [|by right; right].
      destruct (Hcan Hy) as [Hz|[Hz|Hz]]; [by left|by right; left|].
      right; right. by eapply main_aborted_step.
    + done.
Qed.

Lemma execution_initial_inv t0 termination :
  prepare_execution schedule limits t0 = inr termination ->
  execution_inv schedule limits (execution_initial termination).
Proof.
  intros Hprep. assert (arrivals_finished termination = false) as Hfin.
  { unfold prepare_execution in Hprep.
    destruct (validate_prepared_schedule schedule); [|done].
    destruct (limits_invalid limits); [done|]. simpl in Hprep. by simplify_eq. }
  constructor; simpl; try done.
Qed.

Lemma execution_reachable_inv s :
  execution_reachable schedule limits s -> execution_inv schedule limits s.
Proof.
  induction 1 as [t0 termination Hprep|s s' _ IH Hstep];
    [by eapply execution_initial_inv | by eapply execution_step_inv].
Qed.

End Preservation.

(** The mapped deadline is exact: it is refused exactly when it would not fit. *)
Lemma checked_measurement_deadline_exact origin schedule_origin deadline :
  is_u64 origin -> 0 <= schedule_origin <= deadline -> deadline <= u64_max ->
  checked_measurement_deadline origin schedule_origin deadline =
    if origin + (deadline - schedule_origin) <=? u64_max
    then Some (origin + (deadline - schedule_origin)) else None.
Proof.
  intros Ho Hs Hd. unfold checked_measurement_deadline.
  rewrite (u64_sub_small deadline), (u64_sub_small u64_max) by int_lia.
  rewrite Z.gtb_ltb.
  destruct (Z.ltb_spec (u64_max - origin) (deadline - schedule_origin)),
    (Z.leb_spec (origin + (deadline - schedule_origin)) u64_max); try lia; [done|].
  by rewrite u64_add_small by int_lia.
Qed.

(** ** Termination *)

Section Termination.

Context (schedule : PreparedScheduleView) (limits : ExecutionLimits).

#[local] Abbreviation N := (offered schedule).
#[local] Abbreviation P := (el_producer_due_poll_limit_per_arrival limits).
#[local] Abbreviation L := (el_consumer_empty_poll_limit_before_finish limits).

Definition producer_measure (t : ProducerThread) : Z :=
  match pt_pc t with
  | Producer_arriving => N * (P + 3) + 7
  | Producer_waiting => N * (P + 3) + 6
  | Producer_at remaining => Z.of_nat (length remaining) * (P + 3) + 5
  | Producer_polling _ _ polls remaining =>
      Z.of_nat (length remaining) * (P + 3) + 7 + (P - polls)
  | Producer_due _ _ remaining => Z.of_nat (length remaining) * (P + 3) + 6
  | Producer_finishing => 4
  | Producer_cancelling => 3
  | Producer_publishing => 2
  | Producer_start_failed => 1
  | Producer_done => 0
  end.

Definition consumer_measure (sh : Shared) (t : ConsumerThread) : Z :=
  let items := (N - Z.of_nat (sh_delivered sh)) * (4 * (L + 1)) in
  let empties := 4 * (L - ct_empty_before_finish t) in
  match ct_pc t with
  | Consumer_arriving => N * (4 * (L + 1)) + 4 * L + 8
  | Consumer_waiting => N * (4 * (L + 1)) + 4 * L + 7
  | Consumer_top => items + empties + 6
  | Consumer_finish_seen => items + empties + 5
  | Consumer_polling _ => items + empties + 4
  | Consumer_classifying _ => 3
  | Consumer_cancelling => 2
  | Consumer_done => 0
  end.

Definition main_measure (pc : MainPc) : Z :=
  match pc with
  | Main_waiting => 6
  | Main_reading_origin => 5
  | Main_releasing _ => 4
  | Main_aborting _ => 3
  | Main_cancelling_barrier _ => 2
  | Main_joining_aborted _ | Main_joining _ => 1
  | Main_reported _ => 0
  end.

Definition execution_measure (s : Execution) : Z :=
  producer_measure (ex_producer s) + consumer_measure (ex_shared s) (ex_consumer s) +
  main_measure (ex_main s).

(** The most steps an execution of this schedule takes. *)
Definition execution_bound : Z := N * (P + 3) + 7 + (N * (4 * (L + 1)) + 4 * L + 8) + 6.

Hypothesis Hsize : offered schedule <= u64_max.
Hypothesis Hpoll : 0 < P <= u64_max.
Hypothesis Hempty : 0 < L <= u64_max.

(** The poll counter of the due wait stays within its limit. *)
Definition polls_ok (t : ProducerThread) : Prop :=
  match pt_pc t with
  | Producer_polling _ _ polls _ => 0 <= polls <= P
  | _ => True
  end.

Lemma producer_step_decreases input sh t sh' t' :
  polls_ok t -> producer_step schedule limits input sh t = Some (sh', t') ->
  0 <= producer_measure t' < producer_measure t /\ polls_ok t'.
Proof.
  unfold polls_ok, producer_measure, producer_step.
  assert (HN : 0 <= N) by (unfold offered; lia).
  intros Hk Hstep.
  destruct (pt_pc t) as [| | |[|d rem]|d target polls rem|d reading rem| | | |] eqn:Epc;
    try done.
  - destruct (arrive _ _). case_bool_decide; simplify_eq; simpl; nia.
  - repeat destr_in Hstep; simplify_eq; simpl; unfold offered in *; nia.
  - simplify_eq; simpl; lia.
  - simplify_eq; simpl; lia.
  - repeat destr_in Hstep; simplify_eq; simpl; nia.
  - destruct (Z.ltb_spec polls (el_producer_due_poll_limit_per_arrival limits));
      simpl in Hstep; [|simplify_eq; simpl; nia].
    assert (u64_add polls 1 = polls + 1) as E by (apply u64_add_small; int_lia).
    rewrite E in Hstep. repeat destr_in Hstep; simplify_eq; simpl; nia.
  - destruct (attempt_possible input); [|done]. simpl in Hstep. simplify_eq.
    unfold producer_counts_attempt. destruct (pi_attempt input) as [[] []]; simpl; nia.
  - repeat destr_in Hstep; simplify_eq; simpl; lia.
  - simplify_eq; simpl; lia.
  - simplify_eq; simpl; lia.
Qed.

Lemma consumer_step_decreases input sh p t sh' t' :
  producer_inv schedule sh p -> consumer_inv limits sh t ->
  consumer_step limits input sh t = Some (sh', t') ->
  0 <= consumer_measure sh' t' < consumer_measure sh t.
Proof.
  intros Hp Hc Hstep.
  pose proof (consumer_step_inv schedule limits Hsize Hempty _ _ _ _ _ _ Hp Hc Hstep) as Hc'.
  destruct (consumer_step_frame _ _ _ _ _ _ Hstep) as (Hs & _).
  assert (Hle : Z.of_nat (sh_delivered sh') <= N).
  { destruct Hc' as (Hd & _). rewrite (sp_entered _ _ Hs) in Hd. destruct Hp as [Hlog _].
    pose proof (attempts_bounded _ _ _ Hlog). pose proof (lo_length _ _ _ Hlog).
    unfold offered. lia. }
  destruct Hc as (Hd & Hv & _ & Hpc). unfold consumer_step in Hstep. unfold consumer_measure.
  destruct (ct_pc t) as [| | | |finished|finished| |] eqn:Epc; try done.
  - destruct (arrive _ _). case_bool_decide; simplify_eq; simpl; nia.
  - destruct Hpc as (_ & Hd0 & _). repeat destr_in Hstep; simplify_eq; simpl; nia.
  - destruct Hpc as (_ & _ & _ & _ & He). repeat destr_in Hstep; simplify_eq; simpl; nia.
  - destruct Hpc as [(_ & _ & _ & _ & He) _]. repeat destr_in Hstep; simplify_eq; simpl; nia.
  - destruct Hpc as [(_ & _ & _ & _ & He) _].
    assert (u64_add (ct_empty_before_finish t) 1 = ct_empty_before_finish t + 1) as E
      by (apply u64_add_small; int_lia).
    destruct (poll_possible sh t input) eqn:Ep; [|done]. simpl in Hstep. simplify_eq.
    unfold poll_possible in Ep. unfold consumer_after_poll.
    destruct finished, (ci_poll input), (ci_removed input); simpl in *; try done;
      repeat match goal with |- context [if ?b then _ else _] => destruct b end;
      simpl; rewrite ?E; nia.
  - destr_in Hstep; simplify_eq; simpl; lia.
  - simplify_eq; simpl; lia.
Qed.

Lemma main_step_decreases input sh p c pc sh' pc' :
  main_step schedule input sh p c pc = Some (sh', pc') ->
  0 <= main_measure pc' < main_measure pc.
Proof.
  intros Hstep. destruct pc; simpl in Hstep; repeat destr_in Hstep; simplify_eq; simpl; try lia.
  all: destruct (bool_decide _); simpl; lia.
Qed.

Lemma main_step_delivered input sh p c pc sh' pc' :
  main_step schedule input sh p c pc = Some (sh', pc') -> sh_delivered sh' = sh_delivered sh.
Proof. intros Hstep. destruct pc; simpl in Hstep; repeat destr_in Hstep; by simplify_eq. Qed.

Lemma main_measure_nonneg pc : 0 <= main_measure pc.
Proof. by destruct pc. Qed.

Lemma producer_measure_nonneg t : polls_ok t -> 0 <= producer_measure t.
Proof.
  assert (0 <= N) by (unfold offered; lia).
  unfold polls_ok, producer_measure. destruct (pt_pc t); nia.
Qed.

Lemma consumer_measure_nonneg sh p t :
  producer_inv schedule sh p -> consumer_inv limits sh t -> 0 <= consumer_measure sh t.
Proof.
  intros [Hlog _] (Hd & _ & _ & Hpc). pose proof (attempts_bounded _ _ _ Hlog).
  pose proof (lo_length _ _ _ Hlog).
  assert (Z.of_nat (sh_delivered sh) <= N) by (unfold offered; lia).
  unfold consumer_measure, consumer_running in *. destruct (ct_pc t); nia.
Qed.

Lemma producer_enabled s :
  producer_joined (ex_producer s) = false -> exists s', execution_step schedule limits s s'.
Proof.
  intros Hj. unfold producer_joined in Hj.
  assert (exists sh p, producer_step schedule limits
    (mkProducerInput StartBarrierStatus_watchdog_expired false (mkTickRead true 0)
       (mkProducerAttemptResult AttemptStatus_complete EnqueueResult_full) false)
    (ex_shared s) (ex_producer s) = Some (sh, p)) as (sh & p & E).
  { unfold producer_step.
    destruct (pt_pc (ex_producer s)) as [| | |[|d rem]|d target polls rem|d reading rem| | | |];
      simpl; eauto; repeat case_match; eauto; done. }
  eexists. by eapply execution_step_producer.
Qed.

Lemma consumer_enabled s :
  consumer_inv limits (ex_shared s) (ex_consumer s) ->
  consumer_joined (ex_consumer s) = false -> exists s', execution_step schedule limits s s'.
Proof.
  intros (Hd & Hv & _) Hj. unfold consumer_joined in Hj.
  set (some := (sh_delivered (ex_shared s) <? length (sh_entered (ex_shared s)))%nat).
  assert (exists sh c, consumer_step limits
    (mkConsumerInput StartBarrierStatus_watchdog_expired false
       (if some then ConsumerPollStatus_item else ConsumerPollStatus_empty) some)
    (ex_shared s) (ex_consumer s) = Some (sh, c)) as (sh & c & E).
  { unfold consumer_step.
    destruct (ct_pc (ex_consumer s)); simpl; eauto; try (repeat case_match; eauto; done).
    assert (poll_possible (ex_shared s) (ex_consumer s)
      (mkConsumerInput StartBarrierStatus_watchdog_expired false
       (if some then ConsumerPollStatus_item else ConsumerPollStatus_empty) some) = true) as ->.
    { unfold poll_possible. subst some. simpl. destruct (_ <? _)%nat eqn:El; simpl; [done|].
      apply Nat.ltb_ge in El. apply Nat.leb_le. lia. }
    simpl. eauto. }
  eexists. by eapply execution_step_consumer.
Qed.

Lemma execution_step_decreases s s' :
  execution_inv schedule limits s -> polls_ok (ex_producer s) ->
  execution_step schedule limits s s' ->
  0 <= execution_measure s' < execution_measure s /\ polls_ok (ex_producer s').
Proof.
  intros [Hp Hc _ _ _] Hk Hstep. unfold execution_measure.
  pose proof (producer_measure_nonneg _ Hk).
  pose proof (consumer_measure_nonneg _ _ _ Hp Hc). pose proof (main_measure_nonneg (ex_main s)).
  destruct Hstep as [input s sh p E|input s sh c E|input s sh pc E]; simpl.
  - destruct (producer_step_decreases _ _ _ _ _ Hk E) as [Hd Hk'].
    destruct (producer_step_frame _ _ _ _ _ _ _ Hp E) as (Hs & _).
    unfold consumer_measure in *. rewrite (sc_delivered _ _ Hs). split; [lia | done].
  - pose proof (consumer_step_decreases _ _ _ _ _ _ Hp Hc E). split; [lia | done].
  - pose proof (main_step_decreases _ _ _ _ _ _ _ E). split; [|done].
    assert (sh_delivered sh = sh_delivered (ex_shared s)) as Ed
      by (eapply main_step_delivered; eauto).
    unfold consumer_measure in *. rewrite Ed. lia.
Qed.

(** No execution is longer than [execution_bound]. *)
Lemma execution_bounded n s s' :
  execution_inv schedule limits s -> polls_ok (ex_producer s) ->
  nsteps (execution_step schedule limits) n s s' ->
  Z.of_nat n <= execution_measure s - execution_measure s' /\ 0 <= execution_measure s' /\
  execution_inv schedule limits s'.
Proof.
  intros Hinv Hk Hn. revert Hinv Hk. induction Hn as [s|n s s1 s2 Hstep Hn IH]; intros Hinv Hk.
  - split; [lia|]. split; [|done]. destruct Hinv as [Hp Hc _ _ _]. unfold execution_measure.
    pose proof (producer_measure_nonneg _ Hk).
    pose proof (consumer_measure_nonneg _ _ _ Hp Hc). pose proof (main_measure_nonneg (ex_main s)).
    lia.
  - destruct (execution_step_decreases _ _ Hinv Hk Hstep) as [Hd Hk'].
    destruct (IH ltac:(by eapply execution_step_inv) Hk') as (H1 & H2 & H3).
    split; [lia | done].
Qed.

(** No thread is ever stuck: a worker that is not done, and a controller whose
    workers are done, has a step. *)
Lemma execution_progress s :
  execution_inv schedule limits s ->
  (exists report, ex_main s = Main_reported report) \/
  exists s', execution_step schedule limits s s'.
Proof.
  intros [_ Hc _ _ _].
  destruct (producer_joined (ex_producer s)) eqn:Ep; [|right; by apply producer_enabled].
  destruct (consumer_joined (ex_consumer s)) eqn:Ec; [|right; by eapply consumer_enabled].
  destruct (ex_main s) as [| | | | | | |r] eqn:Em; [right..|by left; exists r].
  all: assert (forall sh pc, main_step schedule
      (mkMainInput StartBarrierStatus_watchdog_expired (mkTickRead true 0)) (ex_shared s)
      (ex_producer s) (ex_consumer s) (ex_main s) = Some (sh, pc) ->
      exists s', execution_step schedule limits s s')
    by (intros; eexists; by eapply execution_step_main).
  all: rewrite Em in H; simpl in H; rewrite ?Ep, ?Ec in H; simpl in H; eauto.
  destruct (release_with_measurement_origin _ _). eauto.
Qed.

End Termination.

(** ** Final reports *)

Section Reports.

Context (schedule : PreparedScheduleView) (limits : ExecutionLimits).

Definition limits_u64 : Prop :=
  is_u64 (el_producer_due_poll_limit_per_arrival limits) /\
  is_u64 (el_consumer_empty_poll_limit_before_finish limits).

Lemma reachable_prepared s :
  execution_reachable schedule limits s ->
  schedule_ok schedule /\ limits_invalid limits = false.
Proof.
  induction 1 as [t0 termination Hprep|]; [|done]. unfold prepare_execution in Hprep.
  destruct (validate_prepared_schedule schedule) eqn:Ev; [|done].
  apply validate_prepared_schedule_nil in Ev.
  destruct (limits_invalid limits); [done|]. done.
Qed.

Lemma limits_positive :
  limits_u64 -> limits_invalid limits = false ->
  0 < el_producer_due_poll_limit_per_arrival limits <= u64_max /\
  0 < el_consumer_empty_poll_limit_before_finish limits <= u64_max.
Proof.
  intros [H1 H2]. unfold limits_invalid. rewrite !orb_false_iff, !Z.eqb_neq. int_lia.
Qed.

(** The two kinds of final reports. *)
Lemma reported_cases s report :
  offered schedule <= u64_max -> limits_u64 -> execution_reachable schedule limits s ->
  ex_main s = Main_reported report ->
  execution_inv schedule limits s /\
  ((exists reason, report = aborted_report schedule reason /\
      reason <> ExecutionFailureReason_none /\ reason <> ExecutionFailureReason_cancelled) \/
   (pt_pc (ex_producer s) = Producer_done /\ ct_pc (ex_consumer s) = Consumer_done /\
    wb_released (sh_barrier (ex_shared s)) = true /\
    report = assemble_report schedule
      (wb_measurement_origin_ticks (sh_barrier (ex_shared s)))
      (sh_cancellation (ex_shared s)) (pt_local (ex_producer s)) (ct_local (ex_consumer s)))).
Proof.
  intros Hsize Hu Hreach Hrep. destruct (reachable_prepared _ Hreach) as [_ Hinvalid].
  destruct (limits_positive Hu Hinvalid) as [_ HL].
  pose proof (execution_reachable_inv schedule limits Hsize HL s Hreach) as Hinv.
  split; [done|]. pose proof (ei_main _ _ _ Hinv) as Hm. unfold main_inv in Hm. rewrite Hrep in Hm.
  destruct Hm as [(reason & Hr & _ & H1 & H2)|(Hrel & Hp & Hc & Hr)]; [left; eauto|right].
  unfold producer_joined in Hp. unfold consumer_joined in Hc.
  destruct (pt_pc _); try done. destruct (ct_pc _); try done.
Qed.

(** The attempts of an execution whose start barrier was released. *)
Lemma attempts_due s origin :
  execution_reachable schedule limits s ->
  log_ok schedule origin (ex_shared s) -> is_u64 origin ->
  0 <= sv_origin_ticks schedule -> sv_horizon_ticks schedule <= u64_max ->
  forall k a reading, sh_attempts (ex_shared s) !! k = Some (a, reading) ->
    pa_logical_sequence a = Z.of_nat k /\
    sv_deadline_ticks schedule !! k = Some (pa_scheduled_deadline a) /\
    origin + (pa_scheduled_deadline a - sv_origin_ticks schedule) <= reading.
Proof.
  intros Hreach Hlog Ho Hso Hh k a reading Hk.
  destruct (reachable_prepared _ Hreach) as [(_ & Hin & _) _].
  destruct (lo_attempts _ _ _ Hlog k a reading Hk) as (H1 & H2 & target & H3 & H4).
  split; [done|]. split; [done|]. specialize (Hin _ _ H2).
  rewrite checked_measurement_deadline_exact in H3 by (int_lia || lia).
  destruct (_ <=? _); simplify_eq. lia.
Qed.

Lemma released_log s :
  execution_inv schedule limits s -> pt_pc (ex_producer s) = Producer_done ->
  pw_failure (pt_local (ex_producer s)) <> ExecutionFailureReason_start_watchdog ->
  log_ok schedule (wb_measurement_origin_ticks (sh_barrier (ex_shared s))) (ex_shared s) /\
  producer_stopped schedule (ex_shared s) (ex_producer s) /\
  producer_outcome (ex_shared s) (ex_producer s) /\
  pw_arrivals_finished_published (pt_local (ex_producer s)) = true.
Proof.
  intros [[Hlog Hpc] _ _ _ _] Hdone Hf. rewrite Hdone in Hpc.
  destruct Hpc as [(Hst & _ & _ & Hout & Hpub)|(_ & _ & ? & _)]; [|done].
  split; [|done]. destruct Hst as [[_ Ho] _]. by rewrite <- Ho.
Qed.

End Reports.

(** The fields of an assembled report. *)
Lemma assemble_fields schedule origin cancellation p c :
  let r := assemble_report schedule origin cancellation p c in
  rp_measurement_origin_ticks r = origin /\ rp_offered r = offered schedule /\
  rp_attempted r = pw_attempted p /\ rp_accepted r = pw_accepted p /\ rp_full r = pw_full p /\
  rp_consumed r = cw_consumed c /\ rp_producer_completed r = pw_completed p /\
  rp_consumer_drained r = cw_drained c /\
  rp_arrivals_finished_published r = pw_arrivals_finished_published p /\
  rp_cancellation_requested r = cancellation.
Proof. unfold assemble_report. simpl. by repeat case_match. Qed.

Lemma assemble_none schedule origin cancellation p c :
  rp_failure_reason (assemble_report schedule origin cancellation p c)
    = ExecutionFailureReason_none ->
  pw_failure p = ExecutionFailureReason_none /\ cw_failure c = ExecutionFailureReason_none /\
  rp_failure_phase (assemble_report schedule origin cancellation p c)
    = ExecutionFailurePhase_none.
Proof.
  unfold assemble_report, failure_is_none.
  destruct (pw_failure p), (cw_failure c); simpl; try done; by repeat case_bool_decide.
Qed.

(** An assembled report never blames a cancellation. *)
Lemma assemble_failure schedule origin cancellation p c :
  (pw_failure p = ExecutionFailureReason_cancelled ->
   cw_failure c <> ExecutionFailureReason_none) ->
  cw_failure c <> ExecutionFailureReason_cancelled ->
  (cw_failure c <> ExecutionFailureReason_none ->
   cw_failure_phase c <> ExecutionFailurePhase_none) ->
  let r := assemble_report schedule origin cancellation p c in
  rp_failure_reason r <> ExecutionFailureReason_cancelled /\
  (rp_failure_reason r = ExecutionFailureReason_none <->
   rp_failure_phase r = ExecutionFailurePhase_none).
Proof.
  unfold assemble_report, failure_is_none. intros H1 H2 H3.
  repeat case_bool_decide; simpl; naive_solver congruence.
Qed.

(** ** Example *)

Inductive ExecutionLabel : Set :=
| Label_producer (input : ProducerInput)
| Label_consumer (input : ConsumerInput)
| Label_main (input : MainInput).

(** Run a list of steps. *)
Fixpoint run_execution (schedule : PreparedScheduleView) (limits : ExecutionLimits)
    (labels : list ExecutionLabel) (s : Execution) : option Execution :=
  match labels with
  | [] => Some s
  | Label_producer input :: labels =>
      match producer_step schedule limits input (ex_shared s) (ex_producer s) with
      | Some (sh, p) =>
          run_execution schedule limits labels (mkExecution sh p (ex_consumer s) (ex_main s))
      | None => None
      end
  | Label_consumer input :: labels =>
      match consumer_step limits input (ex_shared s) (ex_consumer s) with
      | Some (sh, c) =>
          run_execution schedule limits labels (mkExecution sh (ex_producer s) c (ex_main s))
      | None => None
      end
  | Label_main input :: labels =>
      match main_step schedule input (ex_shared s) (ex_producer s) (ex_consumer s)
              (ex_main s) with
      | Some (sh, pc) =>
          run_execution schedule limits labels
            (mkExecution sh (ex_producer s) (ex_consumer s) pc)
      | None => None
      end
  end.

Lemma run_execution_reachable schedule limits labels s s' :
  execution_reachable schedule limits s ->
  run_execution schedule limits labels s = Some s' -> execution_reachable schedule limits s'.
Proof.
  revert s. induction labels as [|[input|input|input] labels IH]; intros s Hs Hrun;
    simpl in Hrun; [by simplify_eq|..]; destr_in Hrun; try done; destr_in Hrun;
    (eapply IH; [|exact Hrun]); (eapply execution_reachable_step; [exact Hs|]).
  - by eapply execution_step_producer.
  - by eapply execution_step_consumer.
  - by eapply execution_step_main.
Qed.

Definition example_schedule : PreparedScheduleView := mkPreparedScheduleView [10; 20] 0 100.
Definition example_limits : ExecutionLimits := mkExecutionLimits 8 8 8 8 8.

Definition producer_input (wait : StartBarrierStatus) (ticks : Z) (r : EnqueueResult)
    (entered : bool) : ExecutionLabel :=
  Label_producer (mkProducerInput wait false (mkTickRead true ticks)
    (mkProducerAttemptResult AttemptStatus_complete r) entered).

Definition producer_quiet : ExecutionLabel :=
  producer_input StartBarrierStatus_released 0 EnqueueResult_full false.

Definition consumer_input (finished : bool) (poll : ConsumerPollStatus) (removed : bool) :
    ExecutionLabel :=
  Label_consumer (mkConsumerInput StartBarrierStatus_released finished poll removed).

Definition consumer_quiet : ExecutionLabel :=
  consumer_input false ConsumerPollStatus_empty false.

Definition main_quiet : ExecutionLabel :=
  Label_main (mkMainInput StartBarrierStatus_ready (mkTickRead true 1000)).

(** Two arrivals: the first is accepted and consumed, the second finds the queue
    full after one poll that came too early. *)
Definition example_labels : list ExecutionLabel :=
  [producer_quiet; consumer_quiet; main_quiet; main_quiet; main_quiet;
   producer_quiet; consumer_quiet; producer_quiet;
   producer_input StartBarrierStatus_released 1010 EnqueueResult_full false;
   producer_input StartBarrierStatus_released 0 EnqueueResult_accepted true;
   consumer_quiet; consumer_input false ConsumerPollStatus_item true;
   producer_quiet;
   producer_input StartBarrierStatus_released 1019 EnqueueResult_full false;
   producer_input StartBarrierStatus_released 1020 EnqueueResult_full false;
   producer_quiet; consumer_quiet; consumer_quiet;
   producer_quiet; producer_quiet; producer_quiet;
   consumer_input true ConsumerPollStatus_empty false; consumer_quiet; consumer_quiet;
   main_quiet].

Definition example_start : Execution :=
  execution_initial (mkTerminationControl 0 64).

Definition example_end : Execution :=
  default example_start (run_execution example_schedule example_limits example_labels
    example_start).

Definition example_report : MeasurementExecutionReport :=
  mkReport ExecutionFailurePhase_none ExecutionFailureReason_none 1000 2 2 1 1 1 1 1 1
    true true true false.

Lemma example_end_reachable : execution_reachable example_schedule example_limits example_end.
Proof.
  eapply (run_execution_reachable _ _ example_labels example_start); [|by vm_compute].
  by apply (execution_reachable_initial _ _ (mkTerminationControl 1 64)).
Qed.

Lemma example_sizes : offered example_schedule <= u64_max /\ limits_u64 example_limits.
Proof. unfold limits_u64, offered, is_u64, u64_max. simpl. lia. Qed.

Lemma example_end_reported : ex_main example_end = Main_reported example_report.
Proof. by vm_compute. Qed.

(** ** Properties *)

(** C1. Successful measurements: when [execute_measurement] reports no failure,
    under every interleaving of its three threads, every stale read and every
    behaviour of the backend, each arrival of the schedule was attempted exactly
    once, in order and never before its deadline mapped to the measurement
    origin; every attempt is counted as accepted or full; every accepted event
    entered the queue with its ordinal, was delivered and is counted as
    consumed; the consumer stopped on an empty queue after the published
    termination word, and nobody asked for cancellation. *)
Theorem execution_success_exact schedule limits s report :
  offered schedule <= u64_max -> limits_u64 limits ->
  execution_reachable schedule limits s -> ex_main s = Main_reported report ->
  rp_failure_reason report = ExecutionFailureReason_none ->
  rp_failure_phase report = ExecutionFailurePhase_none /\
  rp_attempted report = offered schedule /\
  rp_accepted report + rp_full report = offered schedule /\
  rp_consumed report = rp_accepted report /\
  rp_producer_completed report = true /\ rp_consumer_drained report = true /\
  rp_arrivals_finished_published report = true /\
  rp_cancellation_requested report = false /\
  length (sh_attempts (ex_shared s)) = length (sv_deadline_ticks schedule) /\
  rp_accepted report = Z.of_nat (length (sh_entered (ex_shared s))) /\
  sh_delivered (ex_shared s) = length (sh_entered (ex_shared s)) /\
  entered_ok (sh_attempts (ex_shared s)) (sh_entered (ex_shared s)) /\
  (is_u64 (rp_measurement_origin_ticks report) -> 0 <= sv_origin_ticks schedule ->
   sv_horizon_ticks schedule <= u64_max ->
   forall k a reading, sh_attempts (ex_shared s) !! k = Some (a, reading) ->
     pa_logical_sequence a = Z.of_nat k /\
     sv_deadline_ticks schedule !! k = Some (pa_scheduled_deadline a) /\
     rp_measurement_origin_ticks report +
       (pa_scheduled_deadline a - sv_origin_ticks schedule) <= reading).
Proof.
  intros Hsize Hu Hreach Hrep Hnone.
  destruct (reported_cases _ _ _ _ Hsize Hu Hreach Hrep)
    as [Hinv [(reason & -> & Hr & _)|(Hp & Hc & Hrel & ->)]]; [done|].
  destruct (assemble_none _ _ _ _ _ Hnone) as (Hpf & Hcf & Hphase).
  destruct (released_log _ _ _ Hinv Hp ltac:(by rewrite Hpf)) as (Hlog & [_ Hst] & Hout & Hpub).
  destruct (Hst Hpf) as [Hlen (Ha & He & Hfull & Hsum)].
  destruct Hout as [(_ & Hcompl & Hpfail)|[? _]]; [|done].
  pose proof (ei_consumer _ _ _ Hinv) as (_ & _ & _ & Hcons). rewrite Hc in Hcons.
  destruct Hcons as [[? _]|(_ & _ & [?|(Hdr & Hdel & Hcon)])]; [done|congruence|].
  assert (sh_cancellation (ex_shared s) = false) as Hcan.
  { destruct (sh_cancellation (ex_shared s)) eqn:E; [|done].
    destruct (ei_cancellation _ _ _ Hinv E) as [?|[?|Hab]]; [done|done|].
    pose proof (main_aborted_unreleased _ _ (ei_main _ _ _ Hinv) Hab). congruence. }
  assert (Hoff : offered schedule = Z.of_nat (length (sh_attempts (ex_shared s))))
    by (unfold offered; lia).
  destruct (assemble_fields schedule (wb_measurement_origin_ticks (sh_barrier (ex_shared s)))
    (sh_cancellation (ex_shared s)) (pt_local (ex_producer s)) (ct_local (ex_consumer s)))
    as (Eo & _ & -> & -> & -> & -> & -> & -> & -> & ->). rewrite Eo.
  split; [done|]. rewrite Hoff. split_and!; try done; try lia; [apply Hlog|].
  intros Ho Hs Hh. by apply (attempts_due schedule limits s).
Qed.

Lemma execution_success_exact_witness :
  rp_consumed example_report = rp_accepted example_report /\
  sh_delivered (ex_shared example_end) = length (sh_entered (ex_shared example_end)).
Proof.
  pose proof (execution_success_exact example_schedule example_limits example_end example_report
    (proj1 example_sizes) (proj2 example_sizes)
    example_end_reachable example_end_reported eq_refl) as H.
  destruct H as (_ & _ & _ & H1 & _ & _ & _ & _ & _ & _ & H2 & _).
  split; assumption.
Defined.

(** Failure attribution: every final report names a failure phase exactly when
    it names a reason; the reason is the failure that started the cancellation
    and never the cancellation itself; a requested cancellation always comes
    with a failure; and even then the attempts that were made are a prefix of the
    schedule in order, one per arrival. *)
Theorem execution_failures_attributed schedule limits s report :
  offered schedule <= u64_max -> limits_u64 limits ->
  execution_reachable schedule limits s -> ex_main s = Main_reported report ->
  rp_failure_reason report <> ExecutionFailureReason_cancelled /\
  (rp_failure_reason report = ExecutionFailureReason_none <->
   rp_failure_phase report = ExecutionFailurePhase_none) /\
  (rp_cancellation_requested report = true ->
   rp_failure_reason report <> ExecutionFailureReason_none) /\
  (length (sh_attempts (ex_shared s)) <= length (sv_deadline_ticks schedule))%nat /\
  (forall k a reading, sh_attempts (ex_shared s) !! k = Some (a, reading) ->
     pa_logical_sequence a = Z.of_nat k /\
     sv_deadline_ticks schedule !! k = Some (pa_scheduled_deadline a)).
Proof.
  intros Hsize Hu Hreach Hrep.
  destruct (reported_cases _ _ _ _ Hsize Hu Hreach Hrep) as [Hinv Hcases].
  pose proof (ei_producer _ _ _ Hinv) as [Hlog _].
  assert (Hatt : forall k a reading, sh_attempts (ex_shared s) !! k = Some (a, reading) ->
     pa_logical_sequence a = Z.of_nat k /\
     sv_deadline_ticks schedule !! k = Some (pa_scheduled_deadline a)).
  { intros k a reading Hk. by destruct (lo_attempts _ _ _ Hlog k a reading Hk) as (? & ? & _). }
  pose proof (attempts_bounded _ _ _ Hlog) as Hlen.
  destruct Hcases as [(reason & -> & Hr & Hr')|(Hp & Hc & Hrel & ->)];
    [by split_and!|].
  pose proof (ei_consumer _ _ _ Hinv) as (_ & _ & Hnc & Hcons). rewrite Hc in Hcons.
  destruct (assemble_failure schedule (wb_measurement_origin_ticks (sh_barrier (ex_shared s)))
    (sh_cancellation (ex_shared s)) (pt_local (ex_producer s)) (ct_local (ex_consumer s)))
    as [H1 H2]; [apply (ei_cancelled _ _ _ Hinv) | done | naive_solver |].
  split; [done|]. split; [done|]. split; [|done].
  rewrite (proj2 (proj2 (proj2 (proj2 (proj2 (proj2 (proj2 (proj2 (proj2
    (assemble_fields schedule _ _ _ _)))))))))). intros Hcan Hnone.
  destruct (assemble_none _ _ _ _ _ Hnone) as (Hpf & Hcf & _).
  destruct (ei_cancellation _ _ _ Hinv Hcan) as [?|[?|Hab]]; [done|done|].
  pose proof (main_aborted_unreleased _ _ (ei_main _ _ _ Hinv) Hab). congruence.
Qed.

Lemma execution_failures_attributed_witness :
  rp_failure_reason example_report <> ExecutionFailureReason_cancelled /\
  (length (sh_attempts (ex_shared example_end)) <=
   length (sv_deadline_ticks example_schedule))%nat.
Proof.
  pose proof (execution_failures_attributed example_schedule example_limits example_end
    example_report (proj1 example_sizes) (proj2 example_sizes)
    example_end_reachable example_end_reported) as (H1 & _ & _ & H2 & _).
  split; assumption.
Defined.

(** C39. Termination of a measurement: after a successful preparation no execution
    takes more than [execution_bound] steps, whatever the clock, the backend and
    the scheduler do, and an execution that has not produced its report can
    always take another step: every maximal execution ends with a report. *)
Theorem execution_terminates schedule limits t0 termination n s :
  offered schedule <= u64_max -> limits_u64 limits ->
  prepare_execution schedule limits t0 = inr termination ->
  nsteps (execution_step schedule limits) n (execution_initial termination) s ->
  Z.of_nat n <= execution_bound schedule limits /\
  ((exists report, ex_main s = Main_reported report) \/
   exists s', execution_step schedule limits s s').
Proof.
  intros Hsize Hu Hprep Hn.
  destruct (reachable_prepared schedule limits (execution_initial termination)
    (execution_reachable_initial _ _ _ _ Hprep)) as [_ Hinvalid].
  destruct (limits_positive _ Hu Hinvalid) as [HP HL].
  pose proof (execution_initial_inv _ _ _ _ Hprep) as Hinit.
  destruct (execution_bounded schedule limits Hsize HP HL n _ s Hinit I Hn) as (Hb & Hnn & Hinv).
  split; [|by apply execution_progress].
  assert (execution_measure schedule limits (execution_initial termination) =
    execution_bound schedule limits) as E by done.
  lia.
Qed.

Lemma execution_terminates_witness :
  Z.of_nat 0 <= execution_bound example_schedule example_limits /\
  exists s', execution_step example_schedule example_limits example_start s'.
Proof.
  pose proof (execution_terminates example_schedule example_limits (mkTerminationControl 1 64)
    (mkTerminationControl 0 64) 0 example_start (proj1 example_sizes) (proj2 example_sizes)
    eq_refl (nsteps_O _ _)) as [H1 [[r H2]|H2]].
  - discriminate H2.
  - split; assumption.
Defined.
