(* ===== verification/Timing.v ===== *)
(** * Clock conversion and post-run intervals

    Models [include/cpu_prefetch/timing/clock.hpp], [src/timing/clock.cpp] and
    [src/timing/intervals.cpp]: the conversion of a [timespec] to absolute
    nanoseconds and to picoseconds relative to the run's origin, and the
    derivation of a joined row with its nine intervals. The kernel calls
    [clock_gettime] and [clock_getres] are arguments: a read returns the
    [timespec] fields or fails. *)

From stdpp Require Import prelude list strings.
From Stdlib Require Import ZArith Lia.
From S2P Require Import Prelude Validation Model.

#[local] Open Scope Z_scope.

(** ** The clock *)

Inductive ClockReadStatus : Set :=
| ClockReadStatus_ok
| ClockReadStatus_call_failed
| ClockReadStatus_invalid_timespec
| ClockReadStatus_before_origin
| ClockReadStatus_overflow.

#[export] Instance ClockReadStatus_eq_dec : EqDecision ClockReadStatus.
Proof. solve_decision. Defined.

Record AbsoluteClockReadResult : Set := mkAbsoluteRead {
  abs_status : ClockReadStatus;
  abs_nanoseconds : Z
}.

Record ClockSample : Set := mkClockSample {
  absolute_nanoseconds : Z;
  relative_picoseconds : Z
}.

Record ClockReadResult : Set := mkClockRead {
  crr_status : ClockReadStatus;
  crr_sample : ClockSample
}.

Record ClockResolutionResult : Set := mkClockResolution {
  res_status : ClockReadStatus;
  res_picoseconds : Z
}.

(** [timespec] with 64-bit fields. *)
Record timespec : Set := mkTimespec { tv_sec : Z; tv_nsec : Z }.

Definition nanoseconds_per_second : Z := 1000000000.

Definition picoseconds_per_nanosecond : Z := 1000.

Definition absolute_nanoseconds_from_timespec (seconds nanoseconds : Z)
  : AbsoluteClockReadResult :=
  if (seconds <? 0) || (nanoseconds <? 0) || (nanoseconds >=? nanoseconds_per_second) then
    mkAbsoluteRead ClockReadStatus_invalid_timespec 0
  else
    let unsigned_seconds := u64_of_i64 seconds in
    if unsigned_seconds >? u64_max / nanoseconds_per_second then
      mkAbsoluteRead ClockReadStatus_overflow 0
    else
      let whole_seconds := u64_mul unsigned_seconds nanoseconds_per_second in
      let subsecond := u64_of_i64 nanoseconds in
      if subsecond >? u64_sub u64_max whole_seconds then
        mkAbsoluteRead ClockReadStatus_overflow 0
      else mkAbsoluteRead ClockReadStatus_ok (u64_add whole_seconds subsecond).

Definition relative_clock_sample (origin absolute : Z) : ClockReadResult :=
  if absolute <? origin then mkClockRead ClockReadStatus_before_origin (mkClockSample 0 0)
  else
    let relative_nanoseconds := u64_sub absolute origin in
    if relative_nanoseconds >? u64_max / picoseconds_per_nanosecond then
      mkClockRead ClockReadStatus_overflow (mkClockSample 0 0)
    else
      mkClockRead ClockReadStatus_ok
        (mkClockSample absolute (u64_mul relative_nanoseconds picoseconds_per_nanosecond)).

(** [None]: the [clock_getres] call fails. *)
Definition monotonic_raw_resolution (clock_getres : option timespec) : ClockResolutionResult :=
  match clock_getres with
  | None => mkClockResolution ClockReadStatus_call_failed 0
  | Some value =>
      let absolute := absolute_nanoseconds_from_timespec (tv_sec value) (tv_nsec value) in
      if negb (bool_decide (abs_status absolute = ClockReadStatus_ok)) then
        mkClockResolution (abs_status absolute) 0
      else if abs_nanoseconds absolute >? u64_max / picoseconds_per_nanosecond then
        mkClockResolution ClockReadStatus_overflow 0
      else mkClockResolution ClockReadStatus_ok
             (u64_mul (abs_nanoseconds absolute) picoseconds_per_nanosecond)
  end.

Definition read_monotonic_raw_absolute (clock_gettime : option timespec)
  : AbsoluteClockReadResult :=
  match clock_gettime with
  | None => mkAbsoluteRead ClockReadStatus_call_failed 0
  | Some value => absolute_nanoseconds_from_timespec (tv_sec value) (tv_nsec value)
  end.

(** [MonotonicRawClock::read] with the result of its one kernel call. *)
Definition MonotonicRawClock_read (origin : Z) (clock_gettime : option timespec)
  : ClockReadResult :=
  let absolute := read_monotonic_raw_absolute clock_gettime in
  if negb (bool_decide (abs_status absolute = ClockReadStatus_ok)) then
    mkClockRead (abs_status absolute) (mkClockSample 0 0)
  else relative_clock_sample origin (abs_nanoseconds absolute).

(** ** Joined rows *)

Definition intervals_failure {T : Type} (rule_id message : string) : Result T :=
  failure [mkError ErrorCategory_cross_field "$joined" rule_id message].

Fixpoint nondecreasing_from (previous : Z) (values : list Z) : bool :=
  match values with
  | [] => true
  | current :: values => if current <? previous then false else nondecreasing_from current values
  end.

Definition nondecreasing (values : list Z) : bool :=
  match values with
  | [] => true
  | previous :: values => nondecreasing_from previous values
  end.

Definition derive_joined_record (producer : ProducerRecord) (producer_row_ordinal : Z)
    (consumer : ConsumerRecord) (consumer_row_ordinal : Z) : Result JoinedRecord :=
  match pr_outcome producer, pr_enqueue_linearization producer, pr_accepted_ordinal producer with
  | ProducerOutcome_accepted, Some enqueue_linearization, Some accepted_ordinal =>
      if negb (bool_decide (pr_run_id producer = cr_run_id consumer)) ||
         negb (accepted_ordinal =? cr_consumed_ordinal consumer) ||
         negb (pr_record_index producer =? cr_observed_record_index consumer) then
        intervals_failure "TIM-DERIVE-IDENTITY"
          "run identity, accepted ordinal, and record index must match"
      else if negb (nondecreasing
                 [pr_scheduled_arrival producer; pr_producer_handle_begin producer;
                  pr_record_lookup_completion producer; pr_enqueue_invocation producer;
                  enqueue_linearization; pr_enqueue_attempt_completion producer]) ||
              negb (nondecreasing
                 [cr_dequeue_invocation consumer; cr_dequeue_linearization consumer;
                  cr_dequeue_completion consumer; cr_consumer_action_completion consumer]) ||
              (cr_dequeue_linearization consumer <? enqueue_linearization) then
        intervals_failure "TIM-DERIVE-ORDER"
          "timestamp boundaries violate their required partial order"
      else
        let producer_lateness :=
          u64_sub (pr_producer_handle_begin producer) (pr_scheduled_arrival producer) in
        let pointer_lookup_interval :=
          u64_sub (pr_record_lookup_completion producer) (pr_producer_handle_begin producer) in
        let enqueue_service_time :=
          u64_sub (pr_enqueue_attempt_completion producer) (pr_enqueue_invocation producer) in
        let admission_delay := u64_sub enqueue_linearization (pr_scheduled_arrival producer) in
        let queue_residence :=
          u64_sub (cr_dequeue_linearization consumer) enqueue_linearization in
        let dequeue_service_time :=
          u64_sub (cr_dequeue_completion consumer) (cr_dequeue_invocation consumer) in
        let post_dequeue_delivery_interval :=
          u64_sub (cr_consumer_action_completion consumer) (cr_dequeue_linearization consumer) in
        let consumer_action_interval :=
          u64_sub (cr_consumer_action_completion consumer) (cr_dequeue_completion consumer) in
        let end_to_end_latency :=
          u64_sub (cr_consumer_action_completion consumer) (pr_scheduled_arrival producer) in
        if (admission_delay >? end_to_end_latency) ||
           (queue_residence >? u64_sub end_to_end_latency admission_delay) ||
           negb (post_dequeue_delivery_interval =?
                 u64_sub (u64_sub end_to_end_latency admission_delay) queue_residence) then
          intervals_failure "TIM-DERIVE-ADDITIVE"
            "additive end-to-end components do not reconcile exactly"
        else
          success (mkJoinedRecord (pr_run_id producer) accepted_ordinal
            (pr_logical_sequence producer) (pr_record_index producer)
            producer_row_ordinal consumer_row_ordinal
            (pr_scheduled_arrival producer) (pr_producer_handle_begin producer)
            (pr_record_lookup_completion producer) (pr_enqueue_invocation producer)
            enqueue_linearization (pr_enqueue_attempt_completion producer)
            (cr_dequeue_invocation consumer) (cr_dequeue_linearization consumer)
            (cr_dequeue_completion consumer) (cr_consumer_action_completion consumer)
            producer_lateness pointer_lookup_interval enqueue_service_time admission_delay
            queue_residence dequeue_service_time post_dequeue_delivery_interval
            consumer_action_interval end_to_end_latency)
  | _, _, _ =>
      intervals_failure "TIM-DERIVE-ACCEPTED-ONLY"
        "only a complete ACCEPTED producer row has latency fields"
  end.

(** ** Lemmas *)

Lemma nondecreasing_cons a b l :
  nondecreasing (a :: b :: l) = true <-> a <= b /\ nondecreasing (b :: l) = true.
Proof. simpl. destruct (Z.ltb_spec b a); [split; [done|lia]|]. naive_solver. Qed.

(** All timestamps of a row are unsigned 64-bit values. *)
Definition producer_record_u64 (r : ProducerRecord) : Prop :=
  Forall is_u64 [pr_scheduled_arrival r; pr_producer_handle_begin r;
                 pr_record_lookup_completion r; pr_enqueue_invocation r;
                 default 0 (pr_enqueue_linearization r); pr_enqueue_attempt_completion r].

Definition consumer_record_u64 (r : ConsumerRecord) : Prop :=
  Forall is_u64 [cr_dequeue_invocation r; cr_dequeue_linearization r; cr_dequeue_completion r;
                 cr_consumer_action_completion r].

(** The order the two rows must satisfy before they can be joined. *)
Definition joinable (p : ProducerRecord) (c : ConsumerRecord) : Prop :=
  pr_outcome p = ProducerOutcome_accepted /\
  exists lin, pr_enqueue_linearization p = Some lin /\
    pr_accepted_ordinal p = Some (cr_consumed_ordinal c) /\
    pr_run_id p = cr_run_id c /\ pr_record_index p = cr_observed_record_index c /\
    pr_scheduled_arrival p <= pr_producer_handle_begin p /\
    pr_producer_handle_begin p <= pr_record_lookup_completion p /\
    pr_record_lookup_completion p <= pr_enqueue_invocation p /\
    pr_enqueue_invocation p <= lin /\ lin <= pr_enqueue_attempt_completion p /\
    cr_dequeue_invocation c <= cr_dequeue_linearization c /\
    cr_dequeue_linearization c <= cr_dequeue_completion c /\
    cr_dequeue_completion c <= cr_consumer_action_completion c /\
    lin <= cr_dequeue_linearization c.

Lemma derive_joined_success p i c j :
  producer_record_u64 p -> consumer_record_u64 c -> joinable p c ->
  exists r, derive_joined_record p i c j = success r /\
    jr_producer_lateness r = pr_producer_handle_begin p - pr_scheduled_arrival p /\
    jr_pointer_lookup_interval r = pr_record_lookup_completion p - pr_producer_handle_begin p /\
    jr_enqueue_service_time r = pr_enqueue_attempt_completion p - pr_enqueue_invocation p /\
    jr_admission_delay r = jr_enqueue_linearization r - pr_scheduled_arrival p /\
    jr_queue_residence r = cr_dequeue_linearization c - jr_enqueue_linearization r /\
    jr_dequeue_service_time r = cr_dequeue_completion c - cr_dequeue_invocation c /\
    jr_post_dequeue_delivery_interval r =
      cr_consumer_action_completion c - cr_dequeue_linearization c /\
    jr_consumer_action_interval r =
      cr_consumer_action_completion c - cr_dequeue_completion c /\
    jr_end_to_end_latency r = cr_consumer_action_completion c - pr_scheduled_arrival p /\
    pr_enqueue_linearization p = Some (jr_enqueue_linearization r) /\
    jr_accepted_ordinal r = cr_consumed_ordinal c /\
    jr_producer_row_ordinal r = i /\ jr_consumer_row_ordinal r = j.
Proof.
  intros Hp Hc (Ho & lin & Hlin & Hord & Hrun & Hidx & H1 & H2 & H3 & H4 & H5 & H6 & H7 & H8 & H9).
  unfold producer_record_u64, consumer_record_u64 in *. rewrite Hlin in Hp.
  simpl in Hp. repeat match goal with
    | H : Forall _ (_ :: _) |- _ => apply Forall_cons in H as [? H]
    end.
  unfold derive_joined_record. rewrite Ho, Hlin, Hord, Hrun, Hidx, !Z.eqb_refl.
  rewrite bool_decide_true by done. simpl (negb true || negb true || negb true).
  replace (nondecreasing _) with true
    by (symmetry; rewrite !nondecreasing_cons; split_and!; [done..|reflexivity]).
  replace (nondecreasing _) with true
    by (symmetry; rewrite !nondecreasing_cons; split_and!; [done..|reflexivity]).
  rewrite (proj2 (Z.ltb_ge _ lin)) by done. simpl (negb true || negb true || false).
  unfold is_u64 in *. cbv zeta. rewrite !u64_sub_small by lia.
  rewrite (Z.gtb_ltb (lin - _)), (proj2 (Z.ltb_ge _ (lin - _))) by lia.
  rewrite (Z.gtb_ltb (cr_dequeue_linearization c - _)),
    (proj2 (Z.ltb_ge _ (cr_dequeue_linearization c - _))) by lia.
  rewrite (proj2 (Z.eqb_eq (cr_consumer_action_completion c - _) _)) by lia.
  simpl (false || false || negb true). cbv iota.
  eexists. split; [reflexivity|]. simpl. split_and!; reflexivity || done.
Qed.

(** Reaching the additive check already means the rows are joinable. *)
Lemma derive_joined_inv p i c j :
  match derive_joined_record p i c j with
  | success _ => joinable p c
  | failure es => forall e, e ∈ es -> rule_id e = "TIM-DERIVE-ADDITIVE"%string -> joinable p c
  end.
Proof.
  assert (Hf : forall (e : ValidationError) (P : Prop), rule_id e <> "TIM-DERIVE-ADDITIVE"%string ->
    forall x, x ∈ [e] -> rule_id x = "TIM-DERIVE-ADDITIVE"%string -> P).
  { intros e P He x ->%list_elem_of_singleton. done. }
  unfold derive_joined_record, intervals_failure.
  destruct (pr_outcome p) eqn:Ho; [|by apply Hf].
  destruct (pr_enqueue_linearization p) as [lin|] eqn:Hlin; [|by apply Hf].
  destruct (pr_accepted_ordinal p) as [ord|] eqn:Hord; [|by apply Hf].
  destruct (negb _ || negb _ || negb _) eqn:E1; [by apply Hf|].
  destruct (negb _ || negb _ || (_ <? _)) eqn:E2; [by apply Hf|].
  rewrite !orb_false_iff, !negb_false_iff in E1. rewrite !orb_false_iff, !negb_false_iff in E2.
  destruct E1 as [[Hrun Hordn] Hidx], E2 as [[N1 N2] Hlt].
  apply bool_decide_eq_true in Hrun. apply Z.eqb_eq in Hordn, Hidx. apply Z.ltb_ge in Hlt.
  rewrite !nondecreasing_cons in N1. rewrite !nondecreasing_cons in N2.
  destruct N1 as (? & ? & ? & ? & ? & _), N2 as (? & ? & ? & _).
  assert (joinable p c) by (split; [done|]; exists lin; subst ord; split_and!; done).
  destruct (_ || _ || negb _); [intros ? _ _; done|done].
Qed.

(** Close one branch of the conversion. *)
Ltac clock_case := repeat split; simpl in *; intros; try discriminate; try done; try int_lia.

(** ** Properties *)

(** The clock conversion is exact: for a kernel [timespec] of signed 64-bit
    fields the read succeeds exactly when the fields are normalized and the
    nanosecond count fits in 64 bits, and then the value is
    seconds * 10^9 + nanoseconds, with no wrap-around. *)
Theorem clock_absolute_exact seconds nanoseconds :
  is_i64 seconds -> is_i64 nanoseconds ->
  let r := absolute_nanoseconds_from_timespec seconds nanoseconds in
  let exact := seconds * nanoseconds_per_second + nanoseconds in
  (abs_status r = ClockReadStatus_ok <->
     0 <= seconds /\ 0 <= nanoseconds < nanoseconds_per_second /\ exact <= u64_max) /\
  (abs_status r = ClockReadStatus_ok -> abs_nanoseconds r = exact) /\
  (abs_status r = ClockReadStatus_invalid_timespec <->
     ~ (0 <= seconds /\ 0 <= nanoseconds < nanoseconds_per_second)).
Proof.
  intros Hs Hn. unfold absolute_nanoseconds_from_timespec, nanoseconds_per_second, u64_of_i64.
  destruct (Z.ltb_spec seconds 0); [by clock_case|].
  destruct (Z.ltb_spec nanoseconds 0); [by clock_case|].
  rewrite Z.geb_leb. destruct (Z.leb_spec 1000000000 nanoseconds);
    [by clock_case|].
  simpl orb. cbv iota zeta. rewrite !u64_wrap_id by int_lia.
  change (u64_max / 1000000000) with 18446744073.
  destruct (Z.gtb_spec seconds 18446744073); [by clock_case|].
  rewrite u64_mul_small by int_lia. rewrite u64_sub_small by int_lia.
  destruct (Z.gtb_spec nanoseconds (u64_max - seconds * 1000000000));
    [by clock_case|].
  rewrite u64_add_small by lia. by clock_case.
Qed.

Lemma clock_absolute_exact_witness :
  abs_nanoseconds (absolute_nanoseconds_from_timespec 12 345) = 12000000345.
Proof.
  apply (clock_absolute_exact 12 345); [unfold is_i64, i64_min, i64_max; lia.. | reflexivity].
Defined.

(** Relative time is monotone and exact: a successful read keeps the
    absolute value, its picoseconds are 1000 times the distance from the
    origin, and reads in nondecreasing absolute order give nondecreasing
    picoseconds; a reading before the origin is always refused. *)
Theorem clock_relative_monotone origin a b :
  is_u64 origin -> is_u64 a -> is_u64 b -> a <= b ->
  (a < origin -> crr_status (relative_clock_sample origin a) = ClockReadStatus_before_origin) /\
  (crr_status (relative_clock_sample origin b) = ClockReadStatus_ok -> origin <= a ->
     crr_status (relative_clock_sample origin a) = ClockReadStatus_ok /\
     absolute_nanoseconds (crr_sample (relative_clock_sample origin b)) = b /\
     relative_picoseconds (crr_sample (relative_clock_sample origin b)) = 1000 * (b - origin) /\
     relative_picoseconds (crr_sample (relative_clock_sample origin a)) <=
     relative_picoseconds (crr_sample (relative_clock_sample origin b))).
Proof.
  intros Ho Ha Hb Hab. unfold relative_clock_sample, picoseconds_per_nanosecond.
  change (u64_max / 1000) with 18446744073709551.
  destruct (Z.ltb_spec a origin); [split; [done|lia]|]. split; [lia|].
  rewrite (proj2 (Z.ltb_ge b origin)) by lia. rewrite !u64_sub_small by int_lia.
  destruct (Z.gtb_spec (b - origin) 18446744073709551); [done|].
  destruct (Z.gtb_spec (a - origin) 18446744073709551); [lia|]. intros _ _. simpl.
  rewrite !u64_mul_small by int_lia. split_and!; [done..|lia|lia].
Qed.

Lemma clock_relative_monotone_witness :
  relative_picoseconds (crr_sample (relative_clock_sample 100 105)) = 5000.
Proof.
  apply (clock_relative_monotone 100 103 105); [unfold is_u64, u64_max; lia..| |lia].
  reflexivity.
Defined.

(** Two rows are joined exactly when they belong together and their
    timestamps are in the required order, and the additive check of the code
    never fails on such rows: the intervals of the result are the exact
    differences, and admission delay, queue residence and delivery add up to
    the end-to-end latency. *)
Theorem joined_record_exact p i c j :
  producer_record_u64 p -> consumer_record_u64 c ->
  ((exists r, derive_joined_record p i c j = success r) <-> joinable p c) /\
  (forall r, derive_joined_record p i c j = success r ->
     jr_admission_delay r + jr_queue_residence r + jr_post_dequeue_delivery_interval r
       = jr_end_to_end_latency r /\
     jr_end_to_end_latency r = cr_consumer_action_completion c - pr_scheduled_arrival p /\
     jr_queue_residence r = cr_dequeue_linearization c - jr_enqueue_linearization r /\
     jr_producer_lateness r + jr_pointer_lookup_interval r
       = pr_record_lookup_completion p - pr_scheduled_arrival p /\
     Forall is_u64 [jr_producer_lateness r; jr_pointer_lookup_interval r;
       jr_enqueue_service_time r; jr_admission_delay r; jr_queue_residence r;
       jr_dequeue_service_time r; jr_post_dequeue_delivery_interval r;
       jr_consumer_action_interval r; jr_end_to_end_latency r]) /\
  (forall es e, derive_joined_record p i c j = failure es -> e ∈ es -> rule_id e <> "TIM-DERIVE-ADDITIVE"%string).
Proof.
  intros Hp Hc. pose proof (derive_joined_inv p i c j) as Hinv. split_and!.
  - split; [intros [r Hr]; by rewrite Hr in Hinv|].
    intros Hj. destruct (derive_joined_success p i c j Hp Hc Hj) as (r & Hr & _). by exists r.
  - intros r Hr. rewrite Hr in Hinv. pose proof Hinv as Hj.
    destruct (derive_joined_success p i c j Hp Hc Hj)
      as (r' & Hr' & E1 & E2 & E3 & E4 & E5 & E6 & E7 & E8 & E9 & E10 & _).
    assert (r' = r) as -> by congruence.
    destruct Hj as (_ & lin & Hlin & _ & _ & _ & Hj). assert (lin = jr_enqueue_linearization r) by congruence.
    unfold producer_record_u64, consumer_record_u64 in *. rewrite Hlin in Hp. simpl in Hp.
    repeat match goal with
      | H : Forall _ (_ :: _) |- _ => apply Forall_cons in H as [? H]
      end.
    split_and!; [lia..|]. repeat constructor; unfold is_u64 in *; lia.
  - intros es e He Hin Hrule. rewrite He in Hinv. specialize (Hinv e Hin Hrule).
    destruct (derive_joined_success p i c j Hp Hc Hinv) as (r & Hr & _). congruence.
Qed.

Definition example_producer_row : ProducerRecord :=
  mkProducerRecord "run" 0 5 100 110 120 130 (Some 140) 150 ProducerOutcome_accepted (Some 0).

Definition example_consumer_row : ConsumerRecord := mkConsumerRecord "run" 0 5 125 160 170 180.

Lemma joined_record_exact_witness :
  exists r, derive_joined_record example_producer_row 0 example_consumer_row 0 = success r /\
    jr_admission_delay r + jr_queue_residence r + jr_post_dequeue_delivery_interval r
      = jr_end_to_end_latency r.
Proof.
  eexists. split; [vm_compute; reflexivity|].
  apply (joined_record_exact example_producer_row 0 example_consumer_row 0);
    [repeat constructor; simpl; unfold u64_max; lia..|].
  vm_compute. reflexivity.
Defined.
