(* ===== verification/Deterministic.v ===== *)
(** * The deterministic stream

    Models [include/cpu_prefetch/workload/deterministic.hpp] and
    [src/workload/deterministic.cpp]: master seeds, the HMAC message that
    separates the streams, the Philox4x32-10 counter generator, draws, and the
    rejection-sampled permutation. HMAC-SHA-256 and SHA-256 come from OpenSSL
    and are arguments of the definitions that call them. *)

From stdpp Require Import prelude list strings.
From Stdlib Require Import ZArith Lia Ascii.
From S2P Require Import Prelude Bytes Model.

#[local] Open Scope Z_scope.
#[local] Open Scope checked_scope.

(** ** Master seeds *)

Definition hex_nibble (value : ascii) : Throws Z :=
  let code := char_code value in
  if (48 <=? code) && (code <=? 57) then Returned (code - 48)
  else if (97 <=? code) && (code <=? 102) then Returned (code - 97 + 10)
  else if (65 <=? code) && (code <=? 70) then Returned (code - 65 + 10)
  else Threw "master seed must contain exactly 64 hexadecimal digits".

Fixpoint seed_bytes (text : list ascii) : Throws (list Z) :=
  match text with
  | high :: low :: text =>
      let! high := hex_nibble high in
      let! low := hex_nibble low in
      let! bytes := seed_bytes text in
      Returned (Z.lor (Z.shiftl high 4) low :: bytes)
  | _ => Returned []
  end.

(** [MasterSeed::from_hex]: a seed is its 32 bytes. *)
Definition MasterSeed_from_hex (text : string) : Throws (list Z) :=
  throw_if (negb (String.length text =? 64)%nat)
    "master seed must contain exactly 64 hexadecimal digits" ;;
  seed_bytes (String.list_ascii_of_string text).

(** ** Stream keys *)

Inductive StreamPurpose : Set :=
| StreamPurpose_event_order
| StreamPurpose_node_order
| StreamPurpose_event_payload
| StreamPurpose_initial_consumer_state
| StreamPurpose_arrival_schedule.

Definition purpose_label (purpose : StreamPurpose) : string :=
  match purpose with
  | StreamPurpose_event_order => "event-order"
  | StreamPurpose_node_order => "node-order"
  | StreamPurpose_event_payload => "event-payload"
  | StreamPurpose_initial_consumer_state => "initial-consumer-state"
  | StreamPurpose_arrival_schedule => "arrival-schedule"
  end.

Definition kDeterministicSuite : string := "PHILOX4X32-10-HMAC-SHA256-v1".

Definition kDerivationDomainProtocolVersion : string := "2.0.0-pre.1".

Record PhiloxKey : Set := mkPhiloxKey { key0 : Z; key1 : Z }.

Record PhiloxBlock : Set := mkPhiloxBlock { word0 : Z; word1 : Z; word2 : Z; word3 : Z }.

(** The message authenticated by the HMAC: four length-prefixed fields. *)
Definition derivation_message (name_space : string) (purpose : StreamPurpose) : list Z :=
  fields_bytes [string_bytes kDerivationDomainProtocolVersion;
                string_bytes kDeterministicSuite;
                string_bytes name_space;
                string_bytes (purpose_label purpose)].

Definition read_u32_be (input : list Z) : Z :=
  match input with
  | b0 :: b1 :: b2 :: b3 :: _ =>
      Z.lor (Z.lor (Z.lor (Z.shiftl b0 24) (Z.shiftl b1 16)) (Z.shiftl b2 8)) b3
  | _ => 0
  end.

Definition derive_stream_key (hmac_sha256 : list Z -> list Z -> list Z)
    (master_seed : list Z) (name_space : string) (purpose : StreamPurpose) : Throws PhiloxKey :=
  throw_if (str_empty name_space) "deterministic stream namespace must not be empty" ;;
  throw_if (str_empty (purpose_label purpose)) "deterministic stream purpose is unknown" ;;
  let digest := hmac_sha256 master_seed (derivation_message name_space purpose) in
  Returned (mkPhiloxKey (read_u32_be digest) (read_u32_be (drop 4 digest))).

(** ** Philox4x32-10 *)

Definition kPhiloxMultiplier0 : Z := 3528531795.

Definition kPhiloxMultiplier1 : Z := 3449720151.

Definition kPhiloxWeyl0 : Z := 2654435769.

Definition kPhiloxWeyl1 : Z := 3144134277.

Definition philox_round (counter : PhiloxBlock) (key : PhiloxKey) : PhiloxBlock :=
  let product0 := u64_mul kPhiloxMultiplier0 (word0 counter) in
  let product1 := u64_mul kPhiloxMultiplier1 (word2 counter) in
  let high0 := u32_wrap (Z.shiftr product0 32) in
  let high1 := u32_wrap (Z.shiftr product1 32) in
  let low0 := u32_wrap product0 in
  let low1 := u32_wrap product1 in
  mkPhiloxBlock (Z.lxor (Z.lxor high1 (word1 counter)) (key0 key)) low1
    (Z.lxor (Z.lxor high0 (word3 counter)) (key1 key)) low0.

(** Rounds [round], ..., 9 of the loop. *)
Fixpoint philox_rounds (rounds : nat) (round : Z) (counter : PhiloxBlock) (key : PhiloxKey)
  : PhiloxBlock :=
  match rounds with
  | O => counter
  | S rounds =>
      let counter := philox_round counter key in
      let key := if negb (round =? 9) then
                   mkPhiloxKey (u32_add (key0 key) kPhiloxWeyl0) (u32_add (key1 key) kPhiloxWeyl1)
                 else key in
      philox_rounds rounds (round + 1) counter key
  end.

Definition philox4x32_10 (block_ordinal : Z) (key : PhiloxKey) : PhiloxBlock :=
  philox_rounds 10 0
    (mkPhiloxBlock (u32_wrap (Z.shiftr block_ordinal 32)) (u32_wrap block_ordinal) 0 0) key.

Definition combine_words (high low : Z) : Z := Z.lor (Z.shiftl high 32) low.

(** [DeterministicStream::draw]. *)
Definition draw (key : PhiloxKey) (draw_ordinal : Z) : Z :=
  let block := philox4x32_10 (draw_ordinal / 2) key in
  if Z.land draw_ordinal 1 =? 0 then combine_words (word0 block) (word1 block)
  else combine_words (word2 block) (word3 block).

(** ** Permutations *)

(** One iteration of the rejection loop: throw, accept, or draw again. *)
Definition draw_step (stream : Z -> Z) (threshold draw_ordinal : Z) : Z + Throws (Z * Z) :=
  if draw_ordinal =? u64_max then inr (Threw "permutation draw ordinal exhausted")
  else
    let d := stream draw_ordinal in
    if d <? threshold then inl (u64_add draw_ordinal 1)
    else inr (Returned (d, u64_add draw_ordinal 1)).

(** The do-while loop. The ordinal grows by one per iteration and the loop
    throws at [2^64 - 1], so [2^64] iterations always leave it. *)
Definition draw_accepted (stream : Z -> Z) (threshold draw_ordinal : Z) : Throws (Z * Z) :=
  match loop_pos 18446744073709551616 (draw_step stream threshold) draw_ordinal with
  | inr r => r
  | inl _ => Threw "permutation draw ordinal exhausted"
  end.

Definition swap_entries (i j : nat) (l : list Z) : list Z :=
  match l !! i, l !! j with
  | Some a, Some b => <[j := a]> (<[i := b]> l)
  | _, _ => l
  end.

(** The outer loop, [remaining] counting down to 2. *)
Fixpoint shuffle (stream : Z -> Z) (remaining : nat) (draw_ordinal : Z) (result : list Z)
  : Throws (list Z) :=
  match remaining with
  | O | S O => Returned result
  | S previous =>
      let bound := Z.of_nat remaining in
      let threshold := u64_sub 0 bound mod bound in
      let! accepted := draw_accepted stream threshold draw_ordinal in
      let selected := fst accepted mod bound in
      shuffle stream previous (snd accepted) (swap_entries previous (Z.to_nat selected) result)
  end.

Definition make_permutation (count : Z) (stream : Z -> Z) : Throws (list Z) :=
  throw_if (count =? 0) "permutation cardinality must be nonzero" ;;
  shuffle stream (Z.to_nat count) 0 (Z.of_nat <$> seq 0 (Z.to_nat count)).

(** ** Lemmas: the rejection loop *)

Section Rejection.

Context (stream : Z -> Z) (threshold : Z).

Lemma draw_step_accepts ordinal :
  0 <= ordinal < u64_max ->
  draw_step stream threshold ordinal = inr (Returned (stream ordinal, ordinal + 1)) <->
  threshold <= stream ordinal.
Proof.
  intros Ho. unfold draw_step. rewrite (proj2 (Z.eqb_neq ordinal u64_max)) by lia.
  rewrite u64_add_small by int_lia. destruct (Z.ltb_spec (stream ordinal) threshold);
    (split; [done || lia|]); done || lia.
Qed.

Lemma draw_step_continue s s' :
  0 <= s <= u64_max -> draw_step stream threshold s = inl s' -> s' = s + 1 /\ s < u64_max.
Proof.
  intros Hs. unfold draw_step. destruct (Z.eqb_spec s u64_max); [done|].
  destruct (stream s <? threshold); [|done]. intros [= <-]. rewrite u64_add_small by lia. lia.
Qed.

(** After [n] iterations that all continue the ordinal has grown by [n]. *)
Lemma draw_loop_continue n s s' :
  0 <= s <= u64_max -> loop_nat (draw_step stream threshold) n s = inl s' ->
  s' = s + Z.of_nat n /\ s' <= u64_max.
Proof.
  revert s. induction n as [|n IH]; intros s Hs; cbn [loop_nat].
  - intros [= <-]. lia.
  - destruct (draw_step stream threshold s) as [s1|] eqn:E; [|done].
    apply draw_step_continue in E as [-> Hlt]; [|done]. intros E2.
    apply IH in E2; [lia|lia].
Qed.

(** The loop always ends: it never uses up its [2^64] iterations. *)
Lemma draw_loop_ends s :
  0 <= s <= u64_max ->
  exists r, loop_pos 18446744073709551616 (draw_step stream threshold) s = inr r.
Proof.
  intros Hs. rewrite loop_pos_nat.
  destruct (loop_nat _ _ s) as [s'|r] eqn:E; [|by exists r].
  apply draw_loop_continue in E as [-> Hle]; [|done].
  rewrite positive_nat_Z in Hle. int_lia.
Qed.

(** An accepted draw is a later value of the stream, not below the threshold;
    every draw that was skipped is below it. *)
Lemma draw_accepted_spec s d s' :
  0 <= s <= u64_max -> draw_accepted stream threshold s = Returned (d, s') ->
  s < s' <= u64_max /\ d = stream (s' - 1) /\ threshold <= d /\
  forall i, s <= i < s' - 1 -> stream i < threshold.
Proof.
  intros Hs. unfold draw_accepted.
  pose proof (loop_pos_inv (draw_step stream threshold)
    (fun x => s <= x <= u64_max /\ forall i, s <= i < x -> stream i < threshold)
    (fun r => forall d s', r = Returned (d, s') ->
       s < s' <= u64_max /\ d = stream (s' - 1) /\ threshold <= d /\
       forall i, s <= i < s' - 1 -> stream i < threshold)
    18446744073709551616 s) as H.
  destruct (loop_pos _ _ s) as [x|r]; [done|]. intros ->. apply H; [| | |done].
  - split; [lia|]. intros i Hi. lia.
  - intros x x' [Hx Hi]. unfold draw_step. destruct (Z.eqb_spec x u64_max); [done|].
    destruct (Z.ltb_spec (stream x) threshold); [|done]. intros [= <-].
    rewrite u64_add_small by lia. split; [lia|]. intros i Hii.
    destruct (Z.eq_dec i x) as [->|]; [done|]. apply Hi. lia.
  - intros x r' [Hx Hi]. unfold draw_step. destruct (Z.eqb_spec x u64_max).
    { intros [= <-] d0 s0. done. }
    destruct (Z.ltb_spec (stream x) threshold); [done|]. intros [= <-] d0 s0 [= <- <-].
    rewrite u64_add_small by lia. replace (x + 1 - 1) with x by lia.
    split_and!; [lia|lia|done|done|done].
Qed.

Lemma draw_loop_throws p s w :
  loop_pos p (draw_step stream threshold) s = inr (Threw w) ->
  w = "permutation draw ordinal exhausted"%string.
Proof.
  intros E. pose proof (loop_pos_inv (draw_step stream threshold) (fun _ => True)
    (fun r => forall w, r = Threw w -> w = "permutation draw ordinal exhausted"%string) p s I) as H.
  rewrite E in H. apply H; [done| |done].
  intros x r _. unfold draw_step. destruct (x =? u64_max); [by intros [= <-] ? [= <-]|].
  destruct (_ <? _); [done|]. by intros [= <-].
Qed.

Lemma draw_accepted_throws s w :
  draw_accepted stream threshold s = Threw w -> w = "permutation draw ordinal exhausted"%string.
Proof.
  unfold draw_accepted. destruct (loop_pos _ _ s) as [x|r] eqn:E; [by intros [= <-]|].
  intros ->. by eapply draw_loop_throws.
Qed.

End Rejection.

(** ** Lemmas: the shuffle *)

Lemma swap_entries_Permutation i j l : swap_entries i j l ≡ₚ l.
Proof.
  unfold swap_entries. destruct (l !! i) as [a|] eqn:Ei; [|done].
  destruct (l !! j) as [b|] eqn:Ej; [|done].
  destruct (decide (i = j)) as [->|Hne].
  - assert (b = a) as -> by congruence.
    by rewrite list_insert_insert_eq, list_insert_id.
  - apply Permutation_inj. rewrite !length_insert. split; [done|].
    exists (fun k => if decide (k = i) then j else if decide (k = j) then i else k).
    split.
    + intros x y Hxy. repeat case_decide; congruence.
    + intros k. pose proof (lookup_lt_Some _ _ _ Ei). pose proof (lookup_lt_Some _ _ _ Ej).
      repeat case_decide; subst.
      * rewrite list_lookup_insert_ne, list_lookup_insert_eq by done. done.
      * rewrite list_lookup_insert_eq by (by rewrite length_insert). done.
      * by rewrite !list_lookup_insert_ne by done.
Qed.

Lemma length_swap_entries i j l : length (swap_entries i j l) = length l.
Proof. by rewrite swap_entries_Permutation. Qed.

Lemma shuffle_Permutation stream remaining s l r :
  0 <= s <= u64_max -> Z.of_nat remaining <= u64_max ->
  shuffle stream remaining s l = Returned r -> r ≡ₚ l.
Proof.
  revert s l. induction remaining as [|previous IH]; intros s l Hs Hr; [by intros [= <-]|].
  cbn [shuffle]. destruct previous as [|p]; [by intros [= <-]|].
  destruct (draw_accepted _ _ s) as [[d s']|] eqn:E; [|done]. cbn [fst snd].
  apply draw_accepted_spec in E as [Hs' _]; [|done]. intros H. apply IH in H; [|lia..].
  by rewrite H, swap_entries_Permutation.
Qed.

(** The only error of the shuffle is an exhausted draw ordinal. *)
Lemma shuffle_throws stream remaining s l what :
  shuffle stream remaining s l = Threw what -> 0 <= s <= u64_max ->
  what = "permutation draw ordinal exhausted"%string.
Proof.
  revert s l. induction remaining as [|previous IH]; intros s l; [done|].
  cbn [shuffle]. destruct previous as [|p]; [done|].
  destruct (draw_accepted _ _ s) as [[d s']|w] eqn:E; cbn [fst snd].
  - intros H Hs. apply draw_accepted_spec in E as [Hs' _]; [|done]. eapply IH; [done|lia].
  - intros [= <-] Hs. by eapply draw_accepted_throws.
Qed.

(** The outcomes of [make_permutation]. *)
Lemma make_permutation_cases count stream :
  is_u64 count ->
  match make_permutation count stream with
  | Returned order => 0 < count /\ order ≡ₚ Z.of_nat <$> seq 0 (Z.to_nat count)
  | Threw what =>
      (count = 0 /\ what = "permutation cardinality must be nonzero"%string) \/
      (0 < count /\ what = "permutation draw ordinal exhausted"%string)
  end.
Proof.
  intros Hc. unfold make_permutation. destruct (Z.eqb_spec count 0) as [->|]; [by left|].
  destruct (shuffle _ _ _ _) as [order|what] eqn:E.
  - apply shuffle_Permutation in E; [|int_lia..]. split; [int_lia|done].
  - apply shuffle_throws in E; [|int_lia]. right. split; [int_lia|done].
Qed.

(** ** Lemmas: Philox is a permutation of its counters *)

Definition block_wf (b : PhiloxBlock) : Prop :=
  is_u32 (word0 b) /\ is_u32 (word1 b) /\ is_u32 (word2 b) /\ is_u32 (word3 b).

Definition key_wf (k : PhiloxKey) : Prop := is_u32 (key0 k) /\ is_u32 (key1 k).

Lemma lxor_u32 a b : is_u32 a -> is_u32 b -> is_u32 (Z.lxor a b).
Proof.
  intros Ha Hb. pose proof (lxor_range 32 a b ltac:(lia)) as H. change (2 ^ 32) with u32_modulus in H.
  unfold_ints. lia.
Qed.

Lemma philox_product c w : is_u32 c -> is_u32 w -> u64_mul c w = c * w.
Proof. intros Hc Hw. apply u64_mul_small. unfold_ints. nia. Qed.

Lemma philox_round_wf b k : block_wf b -> key_wf k -> block_wf (philox_round b k).
Proof.
  intros (H0 & H1 & H2 & H3) [K0 K1]. unfold block_wf, philox_round; simpl.
  split_and!; try apply u32_wrap_range; apply lxor_u32; try done; apply lxor_u32; try done;
    apply u32_wrap_range.
Qed.

Lemma philox_round_inj b b' k :
  block_wf b -> block_wf b' -> philox_round b k = philox_round b' k -> b = b'.
Proof.
  intros (H0 & H1 & H2 & H3) (H0' & H1' & H2' & H3') E. unfold philox_round in E.
  rewrite !philox_product in E by (done || (unfold_ints; vm_compute; split; discriminate)).
  injection E as E0 E1 E2 E3.
  assert (W0 : word0 b = word0 b').
  { apply (invertible_mul_inj kPhiloxMultiplier0 2568649947 u32_modulus);
      [reflexivity | unfold_ints; lia.. | exact E3]. }
  assert (W2 : word2 b = word2 b').
  { apply (invertible_mul_inj kPhiloxMultiplier1 1836887655 u32_modulus);
      [reflexivity | unfold_ints; lia.. | exact E1]. }
  rewrite W2 in E0. rewrite W0 in E2.
  apply lxor_inj_r, lxor_inj_l in E0. apply lxor_inj_r, lxor_inj_l in E2.
  destruct b, b'; simpl in *. congruence.
Qed.

Lemma philox_rounds_inj n r b b' k :
  block_wf b -> block_wf b' -> key_wf k ->
  philox_rounds n r b k = philox_rounds n r b' k -> b = b'.
Proof.
  revert r b b' k. induction n as [|n IH]; intros r b b' k Hb Hb' Hk; [done|].
  cbn [philox_rounds]. intros E. apply IH in E.
  - by apply philox_round_inj in E.
  - by apply philox_round_wf.
  - by apply philox_round_wf.
  - destruct (negb _); [|done]. split; apply u32_wrap_range.
Qed.

Lemma philox_rounds_wf n r b k :
  block_wf b -> key_wf k -> block_wf (philox_rounds n r b k).
Proof.
  revert r b k. induction n as [|n IH]; intros r b k Hb Hk; [done|]. cbn [philox_rounds].
  apply IH; [by apply philox_round_wf|]. destruct (negb _); [|done].
  split; apply u32_wrap_range.
Qed.

(** The two halves of a 64-bit value. *)
Lemma u64_halves v w :
  is_u64 v -> is_u64 w -> u32_wrap (Z.shiftr v 32) = u32_wrap (Z.shiftr w 32) ->
  u32_wrap v = u32_wrap w -> v = w.
Proof.
  intros Hv Hw. rewrite !Z.shiftr_div_pow2 by lia. unfold u32_wrap.
  assert (forall x, is_u64 x -> 0 <= x / 2 ^ 32 < u32_modulus) as Hd.
  { intros x Hx. split; [apply Z.div_pos; int_lia|]. apply Z.div_lt_upper_bound; int_lia. }
  pose proof (Hd v Hv). pose proof (Hd w Hw).
  rewrite (Z.mod_small (v / 2 ^ 32)), (Z.mod_small (w / 2 ^ 32)) by done. intros E1 E2.
  rewrite (Z.div_mod v (2 ^ 32)), (Z.div_mod w (2 ^ 32)) by lia.
  change (2 ^ 32) with u32_modulus in *. congruence.
Qed.

Lemma counter_block_wf o :
  block_wf (mkPhiloxBlock (u32_wrap (Z.shiftr o 32)) (u32_wrap o) 0 0).
Proof. split_and!; simpl; try apply u32_wrap_range; unfold_ints; lia. Qed.

(** Published known answer: counter 0 under key 0. *)
Example philox_known_answer :
  philox4x32_10 0 (mkPhiloxKey 0 0) =
  mkPhiloxBlock 1713891541 3781805453 3159862348 2600524760.
Proof. vm_compute. reflexivity. Qed.

(** ** Properties *)

(** The generator never repeats a block: under a fixed key, Philox maps
    distinct 64-bit block ordinals to distinct blocks of four 32-bit words,
    and every draw is a 64-bit value. *)
Theorem philox_blocks_distinct key :
  key_wf key ->
  (forall a b, is_u64 a -> is_u64 b -> philox4x32_10 a key = philox4x32_10 b key -> a = b) /\
  (forall ordinal, is_u64 (draw key ordinal)).
Proof.
  intros Hk. split.
  - intros a b Ha Hb E. unfold philox4x32_10 in E.
    apply philox_rounds_inj in E; [|apply counter_block_wf..|done].
    injection E as E1 E2. by apply u64_halves.
  - intros o. unfold draw, philox4x32_10.
    destruct (philox_rounds_wf 10 0 _ key (counter_block_wf (o / 2)) Hk) as (H0 & H1 & H2 & H3).
    unfold_ints. unfold combine_words.
    destruct (_ =? 0); rewrite lor_shiftl_add by lia; change (2 ^ 32) with 4294967296; lia.
Qed.

Lemma philox_blocks_distinct_witness : is_u64 (draw (mkPhiloxKey 1 2) 7).
Proof. apply (philox_blocks_distinct (mkPhiloxKey 1 2)). vm_compute. repeat split; discriminate. Defined.

(** [make_permutation] always terminates, and returns a permutation of
    [0..count) whatever the stream draws; it throws only for an empty range or
    when the 64-bit draw ordinal is used up. *)
Theorem make_permutation_correct count stream :
  is_u64 count ->
  match make_permutation count stream with
  | Returned order => 0 < count /\ order ≡ₚ Z.of_nat <$> seq 0 (Z.to_nat count)
  | Threw what =>
      (count = 0 /\ what = "permutation cardinality must be nonzero"%string) \/
      (0 < count /\ what = "permutation draw ordinal exhausted"%string)
  end.
Proof. apply make_permutation_cases. Qed.

Lemma make_permutation_correct_witness :
  exists order, make_permutation 5 (draw (mkPhiloxKey 1 2)) = Returned order /\
    order ≡ₚ Z.of_nat <$> seq 0 5.
Proof.
  pose proof (make_permutation_correct 5 (draw (mkPhiloxKey 1 2))
    ltac:(vm_compute; split; discriminate)) as H.
  destruct (make_permutation 5 (draw (mkPhiloxKey 1 2))) as [order|what] eqn:E.
  - exists order. split; [reflexivity | exact (proj2 H)].
  - exfalso. vm_compute in E. discriminate E.
Defined.

(** The rejection step is unbiased: the threshold leaves a whole number [q]
    of complete residue cycles, so each index below the bound is selected by
    exactly the [q] draws of the loop's step that are accepted and differ by
    multiples of the bound. *)
Theorem rejection_unbiased bound ordinal :
  0 < bound <= u64_max -> 0 <= ordinal < u64_max ->
  let threshold := u64_sub 0 bound mod bound in
  exists q, 0 < q /\ u64_modulus = threshold + q * bound /\ 0 <= threshold < bound /\
    forall selected, 0 <= selected < bound -> forall stream, is_u64 (stream ordinal) ->
      (draw_step stream threshold ordinal = inr (Returned (stream ordinal, ordinal + 1)) /\
       stream ordinal mod bound = selected) <->
      exists k, 0 <= k < q /\
        stream ordinal = threshold + (selected - threshold) mod bound + k * bound.
Proof.
  intros Hb Hord threshold.
  assert (Ht : threshold = u64_modulus mod bound).
  { unfold threshold, u64_sub, u64_wrap.
    replace (0 - bound) with (u64_modulus - bound + (-1) * u64_modulus) by lia.
    rewrite Z_mod_plus_full, (Z.mod_small (u64_modulus - bound)) by int_lia.
    replace (u64_modulus - bound) with (u64_modulus + (-1) * bound) by lia.
    apply Z_mod_plus_full. }
  pose proof (Z.mod_pos_bound u64_modulus bound ltac:(lia)) as Htr. rewrite <- Ht in Htr.
  pose proof (Z.div_mod u64_modulus bound ltac:(lia)) as Hdm. rewrite <- Ht in Hdm.
  assert (Hq : 0 < u64_modulus / bound) by (apply Z.div_str_pos; int_lia).
  exists (u64_modulus / bound). split_and!; [done|lia|lia|lia|].
  intros v Hv stream Hd0. rewrite draw_step_accepts by lia. set (d := stream ordinal) in *.
  pose proof (Z.mod_pos_bound (v - threshold) bound ltac:(lia)) as Hr.
  set (r := (v - threshold) mod bound) in *.
  assert (Hvr : (threshold + r) mod bound = v).
  { unfold r. rewrite Zplus_mod_idemp_r. replace (threshold + (v - threshold)) with v by lia.
    apply Z.mod_small; lia. }
  split.
  - intros [Hd Hmod]. exists ((d - threshold) / bound). unfold is_u64, u64_max in Hd0.
    assert (d < u64_modulus) by (unfold u64_modulus; lia).
    assert (Hdr : (d - threshold) mod bound = r).
    { unfold r. rewrite <- Hmod. by rewrite Zminus_mod_idemp_l. }
    pose proof (Z.div_mod (d - threshold) bound ltac:(lia)) as Hdd. rewrite Hdr in Hdd.
    split; [|lia]. split; [apply Z.div_pos; lia|]. apply Z.div_lt_upper_bound; lia.
  - intros (k & Hk & E). rewrite E. split; [nia|]. by rewrite Z_mod_plus_full.
Qed.

Lemma rejection_unbiased_witness :
  exists q, 0 < q /\ u64_modulus = u64_sub 0 3 mod 3 + q * 3.
Proof.
  destruct (rejection_unbiased 3 0) as (q & Hq & E & _);
    [unfold u64_max; lia | unfold u64_max; lia |].
  exists q. split; [exact Hq | exact E].
Defined.

(** Streams are separated: the messages that derive two stream keys are
    equal only for the same namespace and the same purpose. *)
Theorem derivation_message_injective ns ns' purpose purpose' :
  Z.of_nat (length (string_bytes ns)) <= u64_max ->
  Z.of_nat (length (string_bytes ns')) <= u64_max ->
  derivation_message ns purpose = derivation_message ns' purpose' ->
  ns = ns' /\ purpose = purpose'.
Proof.
  intros Hn Hn' E. unfold derivation_message in E.
  assert (Hp : forall p, Z.of_nat (length (string_bytes (purpose_label p))) <= u64_max)
    by (intros []; vm_compute; discriminate).
  apply fields_bytes_inj in E.
  - injection E as E1 E2. split; [by apply string_bytes_inj|].
    apply string_bytes_inj in E2. by destruct purpose, purpose'.
  - repeat constructor; (done || apply Hp || vm_compute; discriminate).
  - repeat constructor; (done || apply Hp || vm_compute; discriminate).
Qed.

Lemma derivation_message_injective_witness :
  derivation_message "a" StreamPurpose_event_order <>
  derivation_message "a" StreamPurpose_node_order.
Proof.
  intros E. apply derivation_message_injective in E; [|vm_compute; discriminate..].
  destruct E as [_ E]. discriminate E.
Defined.
