(* ===== verification/Records.v ===== *)
(** * Event records

    Models [include/cpu_prefetch/workload/records.hpp] and
    [src/workload/records.cpp]: the arena of cache-line-strided event records,
    the deterministic selection of a record by its logical sequence, the
    consumer's access and checksum mix, the cyclic address deltas and the
    preimages of the canonical checksums. The allocator's address, the HMAC of
    the stream keys and SHA-256 are arguments. *)

From stdpp Require Import prelude list strings gmap.
From Stdlib Require Import ZArith Lia.
From S2P Require Import Prelude Bytes QueueCommon LinkedSpsc Deterministic.

#[local] Open Scope Z_scope.
#[local] Open Scope checked_scope.

Record EventRecord : Set := mkEventRecord { er_record_index : Z; er_payload : Z }.

(** [sizeof(EventRecord)]. *)
Definition sizeof_EventRecord : Z := 16.

(** ** The consumer's mix *)

Definition mix_consumer_state (state record_index payload : Z) : Z :=
  let value := u64_add state 11400714819323198485 in
  let value := Z.lxor value record_index in
  let value := u64_mul (Z.lxor value (Z.shiftr value 30)) 13787848793156543929 in
  let value := Z.lxor value payload in
  let value := u64_mul (Z.lxor value (Z.shiftr value 27)) 10723151780598845931 in
  Z.lxor value (Z.shiftr value 31).

(** ** The arena *)

Record EventArenaConfig : Set := mkEventArenaConfig {
  eac_capacity : Z;
  eac_cache_line_bytes : Z;
  eac_base_page_bytes : Z;
  eac_master_seed : list Z;
  eac_seed_namespace : string
}.

(** One cache line: the record and the bytes behind it. *)
Record EventLine : Set := mkEventLine { line_record : EventRecord; line_padding : list Z }.

Record EventArena : Set := mkEventArena {
  arena_capacity : Z;
  arena_cache_line_bytes : Z;
  arena_base_page_bytes : Z;
  arena_allocated_bytes : Z;
  arena_storage : Z;
  arena_lines : list EventLine;
  record_order : list Z;
  prepared_content_checksum : list Z
}.

Definition workload_checked_multiply (left right : Z) : Throws Z :=
  throw_if (negb (left =? 0) && (right >? u64_max / left)) "event arena size overflows size_t" ;;
  Returned (u64_mul left right).

Definition kContentDomain : string := "cpu-prefetch/event-record-content-sha256/v1".

(** [CanonicalSha256::field_u64]: a field of eight bytes. *)
Definition u64_field (value : Z) : list Z := be_bytes 8 value.

(** What [content_checksum] hashes: the fields in order. *)
Definition content_preimage (cache_line_bytes capacity : Z) (lines : list EventLine) : list Z :=
  fields_bytes
    ([string_bytes kContentDomain; u64_field cache_line_bytes; u64_field capacity] ++
     flat_map (fun l =>
       [u64_field (er_record_index (line_record l)); u64_field (er_payload (line_record l));
        u64_field (cache_line_bytes - sizeof_EventRecord); line_padding l]) lines).

(** [storage] is the address the allocator returns. *)
Definition EventArena_make (hmac_sha256 : list Z -> list Z -> list Z)
    (sha256 : list Z -> list Z) (storage : Z) (config : EventArenaConfig) : Throws EventArena :=
  let capacity := eac_capacity config in
  let line := eac_cache_line_bytes config in
  let page := eac_base_page_bytes config in
  throw_if (negb (is_power_of_two capacity))
    "event arena capacity must be a nonzero power of two" ;;
  throw_if (negb (is_power_of_two line) || (line <? sizeof_EventRecord))
    "event cache-line bytes must be a power of two that fits the record" ;;
  throw_if (negb (is_power_of_two page) || (page <? line))
    "event base-page bytes must be a power of two at least one cache line" ;;
  throw_if (str_empty (eac_seed_namespace config))
    "event arena seed namespace must not be empty" ;;
  let! order_key := derive_stream_key hmac_sha256 (eac_master_seed config)
                      (eac_seed_namespace config) StreamPurpose_event_order in
  let! payload_key := derive_stream_key hmac_sha256 (eac_master_seed config)
                        (eac_seed_namespace config) StreamPurpose_event_payload in
  let! order := make_permutation capacity (draw order_key) in
  let! allocated := workload_checked_multiply capacity line in
  let lines :=
    (fun index => mkEventLine (mkEventRecord (Z.of_nat index) (draw payload_key (Z.of_nat index)))
                    (replicate (Z.to_nat (line - sizeof_EventRecord)) 0))
      <$> seq 0 (Z.to_nat capacity) in
  Returned (mkEventArena capacity line page allocated storage lines order
              (sha256 (content_preimage line capacity lines))).

Definition line_at (a : EventArena) (index : Z) : Z :=
  arena_storage a + index * arena_cache_line_bytes a.

Definition physical_record (a : EventArena) (index : Z) : Throws EventRecord :=
  throw_if (index >=? arena_capacity a) "physical record index is outside the event arena" ;;
  match arena_lines a !! Z.to_nat index with
  | Some l => Returned (line_record l)
  | None => Threw "physical record index is outside the event arena"
  end.

(** The selected index and the address of its record. *)
Definition select (a : EventArena) (sequence : Z) : Z * Z :=
  let position := sequence mod arena_capacity a in
  let record_index := default 0 (record_order a !! Z.to_nat position) in
  (record_index, line_at a record_index).

Inductive RecordAccessStatus : Set :=
| RecordAccessStatus_valid
| RecordAccessStatus_outside_arena
| RecordAccessStatus_not_record_start
| RecordAccessStatus_record_index_corrupt.

#[export] Instance RecordAccessStatus_eq_dec : EqDecision RecordAccessStatus.
Proof. solve_decision. Defined.

Record RecordAccessResult : Set := mkRecordAccess {
  ra_status : RecordAccessStatus;
  ra_record_index : Z;
  ra_payload : Z
}.

Definition access_and_mix (a : EventArena) (pointer state : Z) : RecordAccessResult * Z :=
  let base := arena_storage a in
  if pointer <? base then (mkRecordAccess RecordAccessStatus_outside_arena 0 0, state)
  else
    let offset := pointer - base in
    if offset >=? arena_allocated_bytes a then
      (mkRecordAccess RecordAccessStatus_outside_arena 0 0, state)
    else if negb (offset mod arena_cache_line_bytes a =? 0) then
      (mkRecordAccess RecordAccessStatus_not_record_start 0 0, state)
    else
      let physical_index := offset / arena_cache_line_bytes a in
      let record := line_record (default (mkEventLine (mkEventRecord 0 0) [])
                                   (arena_lines a !! Z.to_nat physical_index)) in
      let observed_index := er_record_index record in
      let payload := er_payload record in
      if negb (observed_index =? physical_index) then
        (mkRecordAccess RecordAccessStatus_record_index_corrupt observed_index payload, state)
      else
        (mkRecordAccess RecordAccessStatus_valid observed_index payload,
         mix_consumer_state state observed_index payload).

Record EventArenaLayout : Set := mkEventArenaLayout {
  eal_capacity : Z;
  eal_cache_line_bytes : Z;
  eal_base_page_bytes : Z;
  eal_allocated_bytes : Z;
  eal_distinct_cache_lines : Z;
  eal_distinct_pages : Z;
  eal_base_page_aligned : bool;
  eal_every_record_line_aligned : bool;
  eal_padding_initialized : bool
}.

Definition layout (a : EventArena) : EventArenaLayout :=
  let indices := seq 0 (Z.to_nat (arena_capacity a)) in
  mkEventArenaLayout (arena_capacity a) (arena_cache_line_bytes a) (arena_base_page_bytes a)
    (arena_allocated_bytes a) (arena_capacity a)
    (arena_allocated_bytes a / arena_base_page_bytes a +
       (if arena_allocated_bytes a mod arena_base_page_bytes a =? 0 then 0 else 1))
    (arena_storage a mod arena_base_page_bytes a =? 0)
    (forallb (fun i => line_at a (Z.of_nat i) mod arena_cache_line_bytes a =? 0) indices)
    (forallb (fun l => forallb (fun b => b =? 0) (line_padding l)) (arena_lines a)).

(** ** Permutations, deltas and checksums *)

Definition validate_permutation (order : list Z) : Throws unit :=
  throw_if (match order with [] => true | _ => false end)
    "ordered-index input must not be empty" ;;
  throw_if (negb (permutation_scan (Z.of_nat (length order)) ∅ order))
    "ordered-index input must be a complete permutation" ;;
  Returned tt.

Definition signed_delta (from to stride : Z) : Throws Z :=
  let! from_offset := workload_checked_multiply from stride in
  let! to_offset := workload_checked_multiply to stride in
  if to_offset >=? from_offset then
    let difference := u64_sub to_offset from_offset in
    throw_if (difference >? i64_max) "positive address delta exceeds int64" ;;
    Returned difference
  else
    let magnitude := u64_sub from_offset to_offset in
    throw_if (magnitude >? i64_max) "negative address delta exceeds int64" ;;
    Returned (- magnitude).

(** The loop over [order], each index with its cyclic successor. *)
Fixpoint delta_loop (first stride : Z) (order : list Z) : Throws (list Z) :=
  match order with
  | [] => Returned []
  | index :: rest =>
      let next := match rest with [] => first | next :: _ => next end in
      let! delta := signed_delta index next stride in
      let! deltas := delta_loop first stride rest in
      Returned (delta :: deltas)
  end.

Definition make_cyclic_address_deltas (order : list Z) (stride_bytes : Z) : Throws (list Z) :=
  let! _ := validate_permutation order in
  throw_if (stride_bytes =? 0) "address-delta stride must be nonzero" ;;
  delta_loop (default 0 (head order)) stride_bytes order.

Definition address_deltas (a : EventArena) : Throws (list Z) :=
  make_cyclic_address_deltas (record_order a) (arena_cache_line_bytes a).

Definition kOrderedIndexDomain : string := "cpu-prefetch/ordered-index-sha256/v1".

Definition kAddressDeltaDomain : string := "cpu-prefetch/address-delta-sha256/v1".

Definition content_checksum (sha256 : list Z -> list Z) (a : EventArena) : list Z :=
  sha256 (content_preimage (arena_cache_line_bytes a) (arena_capacity a) (arena_lines a)).

Definition ordered_index_preimage (order : list Z) : list Z :=
  fields_bytes
    ([string_bytes kOrderedIndexDomain; u64_field (Z.of_nat (length order))] ++
     (u64_field <$> order)).

Definition ordered_index_sha256 (sha256 : list Z -> list Z) (order : list Z) : Throws (list Z) :=
  let! _ := validate_permutation order in
  Returned (sha256 (ordered_index_preimage order)).

Definition address_delta_preimage (deltas : list Z) : list Z :=
  fields_bytes
    ([string_bytes kAddressDeltaDomain; u64_field (Z.of_nat (length deltas))] ++
     ((fun d => u64_field (u64_of_i64 d)) <$> deltas)).

Definition address_delta_sha256 (sha256 : list Z -> list Z) (deltas : list Z)
  : Throws (list Z) :=
  throw_if (match deltas with [] => true | _ => false end)
    "address-delta input must not be empty" ;;
  Returned (sha256 (address_delta_preimage deltas)).

(** [initial_consumer_state]. *)
Definition initial_consumer_state (hmac_sha256 : list Z -> list Z -> list Z)
    (master_seed : list Z) (name_space : string) : Throws Z :=
  let! key := derive_stream_key hmac_sha256 master_seed name_space
                StreamPurpose_initial_consumer_state in
  Returned (draw key 0).

(** ** Lemmas *)

Lemma lxor_u64 a b : is_u64 a -> is_u64 b -> is_u64 (Z.lxor a b).
Proof.
  intros Ha Hb. pose proof (lxor_range 64 a b ltac:(lia)) as H.
  change (2 ^ 64) with u64_modulus in H. unfold_ints. lia.
Qed.

Lemma shiftr_u64 a k : 0 <= k -> is_u64 a -> is_u64 (Z.shiftr a k).
Proof.
  intros Hk Ha. rewrite Z.shiftr_div_pow2 by lia. unfold is_u64 in *.
  assert (0 < 2 ^ k) by (apply Z.pow_pos_nonneg; lia).
  split; [apply Z.div_pos; lia|]. transitivity a; [|lia]. apply Z.div_le_upper_bound; nia.
Qed.

(** One xor-shift-multiply stage of the mix is injective on 64-bit values. *)
Lemma mix_stage_inj k c inv a b :
  0 < k -> (c * inv) mod u64_modulus = 1 -> is_u64 a -> is_u64 b ->
  u64_mul (Z.lxor a (Z.shiftr a k)) c = u64_mul (Z.lxor b (Z.shiftr b k)) c -> a = b.
Proof.
  intros Hk Hc Ha Hb E. unfold u64_mul, u64_wrap in E. rewrite !(Z.mul_comm _ c) in E.
  pose proof (lxor_u64 a (Z.shiftr a k) Ha (shiftr_u64 a k ltac:(lia) Ha)).
  pose proof (lxor_u64 b (Z.shiftr b k) Hb (shiftr_u64 b k ltac:(lia) Hb)).
  apply (invertible_mul_inj c inv) in E; [|done|int_lia..].
  apply xorshift_inj in E; [done|lia|int_lia..].
Qed.

Lemma u64_add_inj a b c : is_u64 a -> is_u64 b -> u64_add a c = u64_add b c -> a = b.
Proof.
  intros Ha Hb E. unfold u64_add, u64_wrap in E.
  apply (f_equal (fun x => (x - c) mod u64_modulus)) in E.
  rewrite !Zminus_mod_idemp_l in E.
  replace (a + c - c) with a in E by lia. replace (b + c - c) with b in E by lia.
  rewrite !Z.mod_small in E by int_lia. done.
Qed.

Lemma workload_multiply_spec a b r :
  is_u64 a -> is_u64 b ->
  workload_checked_multiply a b = Returned r <-> r = a * b /\ a * b <= u64_max.
Proof.
  intros Ha Hb. rewrite <- (queue_checked_multiply_spec a b r Ha Hb).
  unfold workload_checked_multiply, queue_checked_multiply.
  destruct (negb _ && _); naive_solver.
Qed.

(** The signed delta is the exact difference of the two offsets. *)
Lemma signed_delta_spec from to stride d :
  is_u64 from -> is_u64 to -> is_u64 stride ->
  signed_delta from to stride = Returned d ->
  d = (to - from) * stride /\ is_i64 d.
Proof.
  intros Hf Ht Hs. unfold signed_delta.
  destruct (workload_checked_multiply from stride) as [fo|] eqn:E1; [|done].
  destruct (workload_checked_multiply to stride) as [tof|] eqn:E2; [|done].
  apply workload_multiply_spec in E1 as [-> E1]; [|done..].
  apply workload_multiply_spec in E2 as [-> E2]; [|done..].
  assert (0 <= from * stride) by (unfold is_u64 in *; nia).
  assert (0 <= to * stride) by (unfold is_u64 in *; nia).
  rewrite Z.geb_leb. destruct (Z.leb_spec (from * stride) (to * stride)).
  - rewrite u64_sub_small by lia. destruct (Z.gtb_spec (to * stride - from * stride) i64_max); [done|].
    intros [= <-]. split; [ring|int_lia].
  - rewrite u64_sub_small by lia. destruct (Z.gtb_spec (from * stride - to * stride) i64_max); [done|].
    intros [= <-]. split; [ring|int_lia].
Qed.

Lemma delta_loop_spec first stride order deltas :
  is_u64 first -> is_u64 stride -> Forall is_u64 order ->
  delta_loop first stride order = Returned deltas ->
  length deltas = length order /\
  (forall i d, deltas !! i = Some d ->
     is_i64 d /\
     d = (default first (order !! S i) - default 0 (order !! i)) * stride) /\
  foldr Z.add 0 deltas = (if order is [] then 0 else (first - default 0 (head order)) * stride).
Proof.
  intros Hf Hs. revert deltas. induction order as [|x order IH]; intros deltas Ho.
  { intros [= <-]. split_and!; done. }
  apply Forall_cons in Ho as [Hx Ho]. cbn [delta_loop].
  destruct (signed_delta x _ stride) as [d|] eqn:Ed; [|done].
  destruct (delta_loop first stride order) as [ds|] eqn:Els; [|done]. intros [= <-].
  destruct (IH ds Ho eq_refl) as (Hlen & Hds & Hsum).
  apply signed_delta_spec in Ed as [-> Hi]; [|done| |done];
    [|destruct order as [|y order]; [done|by apply Forall_cons in Ho as [? _]]].
  split_and!.
  - simpl. by rewrite Hlen.
  - intros [|i] d; simpl.
    + intros [= <-]. split; [done|]. by destruct order.
    + apply Hds.
  - simpl. rewrite Hsum. destruct order as [|y order]; simpl; ring.
Qed.

(** An arena as the constructor leaves it. *)
Record arena_wf (a : EventArena) : Prop := mk_arena_wf {
  aw_capacity : 0 < arena_capacity a <= u64_max;
  aw_line : sizeof_EventRecord <= arena_cache_line_bytes a;
  aw_allocated : arena_allocated_bytes a = arena_capacity a * arena_cache_line_bytes a;
  aw_order : record_order a ≡ₚ Z.of_nat <$> seq 0 (Z.to_nat (arena_capacity a));
  aw_length : Z.of_nat (length (arena_lines a)) = arena_capacity a;
  aw_index i l : arena_lines a !! i = Some l -> er_record_index (line_record l) = Z.of_nat i;
  aw_padding l : l ∈ arena_lines a ->
    line_padding l = replicate (Z.to_nat (arena_cache_line_bytes a - sizeof_EventRecord)) 0
}.

Lemma EventArena_make_wf hmac sha storage config a :
  is_u64 (eac_capacity config) -> is_u64 (eac_cache_line_bytes config) ->
  EventArena_make hmac sha storage config = Returned a ->
  arena_wf a /\ arena_storage a = storage /\
  prepared_content_checksum a = content_checksum sha a.
Proof.
  intros Hc Hl. unfold EventArena_make.
  destruct (is_power_of_two (eac_capacity config)) eqn:Hp; [|done]. cbn [negb].
  destruct (negb (is_power_of_two (eac_cache_line_bytes config)) ||
            (eac_cache_line_bytes config <? sizeof_EventRecord)) eqn:Hline; [done|].
  destruct (negb (is_power_of_two (eac_base_page_bytes config)) || _); [done|].
  destruct (str_empty _); [done|].
  destruct (derive_stream_key _ _ _ StreamPurpose_event_order) as [ok|]; [|done].
  destruct (derive_stream_key _ _ _ StreamPurpose_event_payload) as [pk|]; [|done].
  pose proof (make_permutation_cases (eac_capacity config) (draw ok) Hc) as Hperm.
  destruct (make_permutation _ _) as [order|]; [|done].
  destruct (workload_checked_multiply _ _) as [alloc|] eqn:Hm; [|done]. intros [= <-].
  apply workload_multiply_spec in Hm as [-> Hm]; [|done..].
  apply orb_false_iff in Hline as [_ Hline]. apply Z.ltb_ge in Hline.
  split; [|done]. destruct Hperm as [Hpos Hperm].
  constructor; simpl; try done; [int_lia|..].
  - rewrite length_fmap, length_seq. lia.
  - intros i l H. apply list_lookup_fmap_Some in H as (j & -> & Hj). simpl.
    apply lookup_seq in Hj. lia.
  - intros l H. apply list_elem_of_fmap in H as (j & -> & _). done.
Qed.

Section Access.

Context (a : EventArena) (Ha : arena_wf a).

Lemma arena_line_lookup i :
  0 <= i < arena_capacity a -> exists l, arena_lines a !! Z.to_nat i = Some l.
Proof. intros Hi. apply lookup_lt_is_Some_2. pose proof (aw_length a Ha). lia. Qed.

(** Reading at the address of record [i] is valid and mixes that record. *)
Lemma access_at_line i state :
  0 <= i < arena_capacity a ->
  exists l, arena_lines a !! Z.to_nat i = Some l /\
    access_and_mix a (line_at a i) state =
      (mkRecordAccess RecordAccessStatus_valid i (er_payload (line_record l)),
       mix_consumer_state state i (er_payload (line_record l))).
Proof.
  intros Hi. destruct (arena_line_lookup i Hi) as [l Hl]. exists l. split; [done|].
  pose proof (aw_line a Ha) as Hline. unfold sizeof_EventRecord in Hline.
  unfold access_and_mix, line_at.
  replace (arena_storage a + i * arena_cache_line_bytes a - arena_storage a)
    with (i * arena_cache_line_bytes a) by lia.
  rewrite (proj2 (Z.ltb_ge _ (arena_storage a))) by nia.
  rewrite (aw_allocated a Ha), Z.geb_leb.
  rewrite (proj2 (Z.leb_gt (arena_capacity a * arena_cache_line_bytes a) _)) by nia.
  rewrite Z_mod_mult, Z.eqb_refl, Z.div_mul by lia. cbn [negb].
  rewrite Hl. cbn [default from_option id]. unfold from_option, id.
  rewrite (aw_index a Ha _ _ Hl), Z2Nat.id by lia. by rewrite Z.eqb_refl.
Qed.

Lemma record_order_range i x :
  record_order a !! i = Some x -> 0 <= x < arena_capacity a.
Proof.
  intros Hx. apply list_elem_of_lookup_2 in Hx. rewrite (aw_order a Ha) in Hx.
  apply list_elem_of_fmap in Hx as (j & -> & Hj). apply elem_of_seq in Hj.
  pose proof (aw_capacity a Ha). lia.
Qed.

Lemma select_lookup n :
  0 <= n -> exists i, record_order a !! Z.to_nat (n mod arena_capacity a) = Some i /\
    0 <= i < arena_capacity a /\ select a n = (i, line_at a i).
Proof.
  intros Hn. pose proof (aw_capacity a Ha).
  pose proof (Z.mod_pos_bound n (arena_capacity a) ltac:(lia)).
  destruct (lookup_lt_is_Some_2 (record_order a) (Z.to_nat (n mod arena_capacity a))) as [i Hi].
  { rewrite (aw_order a Ha), length_fmap, length_seq. lia. }
  exists i. split; [done|]. split; [by eapply record_order_range|].
  unfold select. by rewrite Hi.
Qed.

End Access.

(** The deltas of an accepted order. *)
Lemma cyclic_deltas_cases order stride deltas :
  Forall is_u64 order -> is_u64 stride ->
  make_cyclic_address_deltas order stride = Returned deltas ->
  order ≡ₚ Z.of_nat <$> seq 0 (length order) /\
  length deltas = length order /\
  (forall i d, deltas !! i = Some d ->
     is_i64 d /\
     d = (default (default 0 (head order)) (order !! S i) - default 0 (order !! i)) * stride) /\
  foldr Z.add 0 deltas = 0.
Proof.
  intros Ho Hs. unfold make_cyclic_address_deltas, validate_permutation.
  destruct order as [|x order]; [done|]. cbn [head].
  destruct (permutation_scan _ ∅ _) eqn:Hscan; [|done]. cbn [negb].
  destruct (stride =? 0); [done|]. intros H.
  apply delta_loop_spec in H as (H1 & H2 & H3); [|by apply Forall_cons in Ho as [? _]|done|done].
  split_and!; try done.
  - apply permutation_scan_Permutation in Hscan; [by rewrite Nat2Z.id in Hscan| |done].
    eapply Forall_impl; [exact Ho|]. intros y Hy. unfold is_u64 in Hy. lia.
  - rewrite H3. simpl. ring.
Qed.

(** ** Properties *)

(** The consumer's mix loses no information: with the other two arguments
    fixed it is injective in the running state, in the record index and in the
    payload, so a consumer that read a different record or payload, or started
    from a different state, has a different checksum after that step. *)
Theorem mix_consumer_state_injective s s' i i' p p' :
  is_u64 s -> is_u64 s' -> is_u64 i -> is_u64 i' -> is_u64 p -> is_u64 p' ->
  mix_consumer_state s i p = mix_consumer_state s' i' p' ->
  (i = i' -> p = p' -> s = s') /\ (s = s' -> p = p' -> i = i') /\ (s = s' -> i = i' -> p = p').
Proof.
  intros Hs Hs' Hi Hi' Hp Hp' E. unfold mix_consumer_state in E.
  assert (W : forall s i, is_u64 i -> is_u64 (Z.lxor (u64_add s 11400714819323198485) i))
    by (intros; apply lxor_u64; [apply u64_wrap_range|done]).
  assert (M : forall x p, is_u64 p -> is_u64 (Z.lxor (u64_mul x 13787848793156543929) p))
    by (intros; apply lxor_u64; [apply u64_wrap_range|done]).
  apply xorshift_inj in E; [|lia|apply u64_wrap_range..].
  apply (mix_stage_inj 27 10723151780598845931 3573116690164977347) in E;
    [|lia|reflexivity|by apply M..].
  assert (F : p = p' ->
    Z.lxor (u64_add s 11400714819323198485) i = Z.lxor (u64_add s' 11400714819323198485) i').
  { intros ->. apply lxor_inj_r in E.
    by apply (mix_stage_inj 30 13787848793156543929 10871156337175269513) in E;
      [|lia|reflexivity|apply W..]. }
  split_and!.
  - intros -> ->. specialize (F eq_refl). apply lxor_inj_r in F. by apply u64_add_inj in F.
  - intros -> ->. specialize (F eq_refl). by apply lxor_inj_l in F.
  - intros -> ->. by apply lxor_inj_l in E.
Qed.

Lemma mix_consumer_state_injective_witness :
  mix_consumer_state 1 2 3 <> mix_consumer_state 1 2 4.
Proof.
  intros E. apply mix_consumer_state_injective in E; [|vm_compute; split; discriminate..].
  destruct E as (_ & _ & E). discriminate (E eq_refl eq_refl).
Defined.

(** Selection and access agree: the record selected for a logical sequence
    is found valid by the consumer under the same index and its payload is
    mixed; and [capacity] consecutive sequences visit every record once. *)
Theorem arena_select_access hmac sha storage config a n state :
  is_u64 (eac_capacity config) -> is_u64 (eac_cache_line_bytes config) ->
  EventArena_make hmac sha storage config = Returned a -> 0 <= n ->
  let '(index, pointer) := select a n in
  0 <= index < arena_capacity a /\
  (exists payload, access_and_mix a pointer state =
     (mkRecordAccess RecordAccessStatus_valid index payload,
      mix_consumer_state state index payload) /\
     physical_record a index = Returned (mkEventRecord index payload)) /\
  (fun k => fst (select a (n + Z.of_nat k))) <$> seq 0 (Z.to_nat (arena_capacity a))
    ≡ₚ Z.of_nat <$> seq 0 (Z.to_nat (arena_capacity a)).
Proof.
  intros Hc Hl Hmake Hn.
  destruct (EventArena_make_wf _ _ _ _ _ Hc Hl Hmake) as (Ha & _ & _).
  destruct (select_lookup a Ha n Hn) as (i & _ & Hi & ->). split; [done|]. split.
  - destruct (access_at_line a Ha i state Hi) as (l & Hlk & ->).
    exists (er_payload (line_record l)). split; [done|].
    unfold physical_record. rewrite Z.geb_leb, (proj2 (Z.leb_gt _ _)) by lia. rewrite Hlk.
    f_equal. pose proof (aw_index a Ha _ _ Hlk) as E. rewrite Z2Nat.id in E by lia.
    destruct (line_record l); simpl in *. by rewrite E.
  - pose proof (aw_capacity a Ha) as Hcap.
    transitivity (record_order a); [|apply Ha].
    transitivity ((fun j => default 0 (record_order a !! j)) <$>
      ((fun k => Z.to_nat ((n + Z.of_nat k) mod arena_capacity a)) <$>
         seq 0 (Z.to_nat (arena_capacity a)))).
    { rewrite <- list_fmap_compose. apply reflexive_eq, list_fmap_ext. intros j k _. done. }
    assert (Hlen : length (record_order a) = Z.to_nat (arena_capacity a))
      by (rewrite (aw_order a Ha), length_fmap, length_seq; done).
    transitivity ((fun j => default 0 (record_order a !! j)) <$> seq 0 (length (record_order a))).
    + apply fmap_Permutation. rewrite Hlen.
      apply submseteq_length_Permutation; [|by rewrite length_fmap].
      apply NoDup_submseteq.
      * apply NoDup_fmap_2_strong; [|apply NoDup_seq]. intros x y Hx Hy E.
        apply elem_of_seq in Hx, Hy. pose proof (Z.mod_pos_bound n (arena_capacity a) ltac:(lia)).
        apply Z2Nat.inj in E; [|apply Z.mod_pos_bound; lia..].
        rewrite <- !(Zplus_mod_idemp_l n) in E. apply mod_offset_inj in E; lia.
      * intros x Hx. apply list_elem_of_fmap in Hx as (k & -> & _). apply elem_of_seq.
        pose proof (Z.mod_pos_bound (n + Z.of_nat k) (arena_capacity a) ltac:(lia)). lia.
    + apply reflexive_eq, list_eq. intros j. rewrite list_lookup_fmap.
      destruct (decide (j < length (record_order a))%nat).
      * rewrite lookup_seq_lt by done. simpl.
        by destruct (lookup_lt_is_Some_2 (record_order a) j) as [x ->].
      * rewrite !(proj2 (lookup_ge_None _ _)); [done|lia|rewrite length_seq; lia].
Qed.

(** An arena of four records with a stand-in HMAC. *)
Definition example_hmac (key message : list Z) : list Z := be_bytes 8 (Z.of_nat (length message)).

Definition example_config : EventArenaConfig := mkEventArenaConfig 4 64 4096 [] "ns".

Definition example_arena : Throws EventArena :=
  EventArena_make example_hmac (fun bytes => bytes) 4096 example_config.

Lemma arena_select_access_witness :
  exists a, example_arena = Returned a /\ 0 <= fst (select a 6) < arena_capacity a.
Proof.
  eexists. split; [vm_compute; reflexivity|].
  refine (proj1 (arena_select_access example_hmac (fun bytes => bytes) 4096 example_config _ 6 0
    _ _ _ _)); [vm_compute; split; discriminate..|vm_compute; reflexivity|lia].
Defined.

(** A pointer is accepted by the consumer exactly when it is the address of
    one of the records; any other address leaves the running state unchanged
    and is reported as outside the arena or not at a record start. *)
Theorem access_and_mix_exact hmac sha storage config a pointer state :
  is_u64 (eac_capacity config) -> is_u64 (eac_cache_line_bytes config) ->
  EventArena_make hmac sha storage config = Returned a ->
  let '(r, state') := access_and_mix a pointer state in
  (ra_status r = RecordAccessStatus_valid <->
     exists i, 0 <= i < arena_capacity a /\ pointer = line_at a i) /\
  (ra_status r <> RecordAccessStatus_valid -> state' = state) /\
  (ra_status r = RecordAccessStatus_outside_arena <->
     ~ (storage <= pointer < storage + arena_allocated_bytes a)) /\
  ra_status r <> RecordAccessStatus_record_index_corrupt.
Proof.
  intros Hc Hl Hmake. destruct (EventArena_make_wf _ _ _ _ _ Hc Hl Hmake) as (Ha & Est & _).
  pose proof (aw_line a Ha) as Hline. unfold sizeof_EventRecord in Hline.
  assert (Hno : (pointer - arena_storage a) mod arena_cache_line_bytes a <> 0 \/
                ~ (arena_storage a <= pointer < arena_storage a + arena_allocated_bytes a) ->
                ~ exists i, 0 <= i < arena_capacity a /\ pointer = line_at a i).
  { intros H (i & Hi & ->). unfold line_at in H. rewrite (aw_allocated a Ha) in H.
    replace (arena_storage a + i * arena_cache_line_bytes a - arena_storage a)
      with (i * arena_cache_line_bytes a) in H by lia.
    rewrite Z_mod_mult in H. destruct H as [H|H]; [done|]. apply H. nia. }
  subst storage. destruct (Z.lt_ge_cases pointer (arena_storage a)) as [Hlt|Hge].
  { unfold access_and_mix. rewrite (proj2 (Z.ltb_lt _ _)) by done. simpl.
    assert (~ (arena_storage a <= pointer < arena_storage a + arena_allocated_bytes a)) by lia.
    split_and!; try done. split; [done|]. intros He. exfalso. by apply Hno; [right|]. }
  destruct (Z.lt_ge_cases (pointer - arena_storage a) (arena_allocated_bytes a)) as [Hlt2|Hge2].
  2: { unfold access_and_mix. rewrite (proj2 (Z.ltb_ge _ _)) by done.
    rewrite Z.geb_leb, (proj2 (Z.leb_le _ _)) by done. simpl.
    assert (~ (arena_storage a <= pointer < arena_storage a + arena_allocated_bytes a)) by lia.
    split_and!; try done. split; [done|]. intros He. exfalso. by apply Hno; [right|]. }
  destruct (Z.eq_dec ((pointer - arena_storage a) mod arena_cache_line_bytes a) 0) as [E0|Hne].
  - pose proof (Z.div_mod (pointer - arena_storage a) (arena_cache_line_bytes a) ltac:(lia)) as Hdm.
    set (i := (pointer - arena_storage a) / arena_cache_line_bytes a) in *.
    assert (0 <= i < arena_capacity a) as Hi.
    { rewrite (aw_allocated a Ha) in Hlt2. split; [apply Z.div_pos; lia|].
      apply Z.div_lt_upper_bound; lia. }
    clearbody i. assert (pointer = line_at a i) as -> by (unfold line_at; lia).
    destruct (access_at_line a Ha i state Hi) as (l & _ & ->). simpl.
    split_and!; try done; [by split; [exists i|]|]. split; [done|]. intros H. exfalso. lia.
  - unfold access_and_mix. rewrite (proj2 (Z.ltb_ge _ _)) by done.
    rewrite Z.geb_leb, (proj2 (Z.leb_gt _ _)) by done.
    rewrite (proj2 (Z.eqb_neq _ 0)) by done. simpl.
    split_and!; try done; [|split; [done|lia]].
    split; [done|]. intros He. exfalso. by apply Hno; [left|].
Qed.

Definition example_arena_value : EventArena :=
  match example_arena with
  | Returned a => a
  | Threw _ => mkEventArena 0 0 0 0 0 [] [] []
  end.

Lemma access_and_mix_exact_witness :
  ra_status (fst (access_and_mix example_arena_value 4100 0)) <>
  RecordAccessStatus_record_index_corrupt.
Proof.
  pose proof (access_and_mix_exact example_hmac (fun bytes => bytes) 4096 example_config
    example_arena_value 4100 0 ltac:(vm_compute; split; discriminate)
    ltac:(vm_compute; split; discriminate) ltac:(vm_compute; reflexivity)) as H.
  destruct (access_and_mix example_arena_value 4100 0) as [r s].
  exact (proj2 (proj2 (proj2 H))).
Defined.

(** The cyclic address deltas are the exact byte distances between
    consecutive records of the order, the last one back to the first; they fit
    in 64 signed bits and add up to zero around the cycle. *)
Theorem cyclic_deltas_exact order stride deltas :
  Forall is_u64 order -> is_u64 stride ->
  make_cyclic_address_deltas order stride = Returned deltas ->
  order ≡ₚ Z.of_nat <$> seq 0 (length order) /\
  length deltas = length order /\
  (forall i d, deltas !! i = Some d ->
     is_i64 d /\
     d = (default (default 0 (head order)) (order !! S i) - default 0 (order !! i)) * stride) /\
  foldr Z.add 0 deltas = 0.
Proof. apply cyclic_deltas_cases. Qed.

Lemma cyclic_deltas_exact_witness :
  exists deltas, make_cyclic_address_deltas [2; 0; 1] 64 = Returned deltas /\
    foldr Z.add 0 deltas = 0.
Proof.
  eexists. split; [vm_compute; reflexivity|].
  apply (cyclic_deltas_exact [2; 0; 1] 64);
    [repeat constructor; vm_compute; discriminate | vm_compute; split; discriminate
    | vm_compute; reflexivity].
Defined.

Lemma u64_field_length v : Z.of_nat (length (u64_field v)) <= u64_max.
Proof. unfold u64_field. rewrite length_be_bytes. vm_compute. discriminate. Qed.

Lemma cons_eq_inv {A} (x y : A) l k : x :: l = y :: k -> x = y /\ l = k.
Proof. by intros [= -> ->]. Qed.

Lemma u64_fields_bounded (f : Z -> Z) l :
  Forall (fun x => Z.of_nat (length x) <= u64_max) ((fun v => u64_field (f v)) <$> l).
Proof. apply Forall_fmap, Forall_true. intros v. apply u64_field_length. Qed.

(** The checksum preimages determine what they describe: two index orders,
    two delta lists or the contents of two arenas of the same geometry hash the
    same bytes only if they are equal. *)
Theorem checksum_preimages_injective :
  (forall o o', Forall is_u64 o -> Forall is_u64 o' ->
     ordered_index_preimage o = ordered_index_preimage o' -> o = o') /\
  (forall d d', Forall is_i64 d -> Forall is_i64 d' ->
     address_delta_preimage d = address_delta_preimage d' -> d = d') /\
  (forall line capacity ls ls',
     Forall (fun l => is_u64 (er_record_index (line_record l)) /\
       is_u64 (er_payload (line_record l)) /\
       Z.of_nat (length (line_padding l)) <= u64_max) (ls ++ ls') ->
     content_preimage line capacity ls = content_preimage line capacity ls' -> ls = ls').
Proof.
  split_and!.
  - intros o o' Ho Ho' E. apply fields_bytes_inj in E.
    2,3: repeat constructor; [vm_compute; discriminate|apply u64_field_length
      |apply (u64_fields_bounded id)].
    cbn [app] in E. do 2 apply cons_eq_inv in E as [_ E]. revert E. clear -Ho Ho'. revert o' Ho'.
    induction Ho as [|x o Hx Ho IH]; intros [|y o'] Ho' E; try done.
    apply Forall_cons in Ho' as [Hy Ho'].
    rewrite !fmap_cons in E. apply cons_eq_inv in E as [E1 E2].
    f_equal; [by apply be_bytes_inj|by apply IH].
  - intros d d' Hd Hd' E. apply fields_bytes_inj in E.
    2,3: repeat constructor; [vm_compute; discriminate|apply u64_field_length
      |apply u64_fields_bounded].
    cbn [app] in E. do 2 apply cons_eq_inv in E as [_ E]. revert E. clear -Hd Hd'. revert d' Hd'.
    induction Hd as [|x d Hx Hd IH]; intros [|y d'] Hd' E; try done.
    apply Forall_cons in Hd' as [Hy Hd'].
    rewrite !fmap_cons in E. apply cons_eq_inv in E as [E1 E2].
    f_equal; [|by apply IH].
    apply be_bytes_inj in E1; [|apply u64_wrap_range..].
    unfold u64_of_i64, u64_wrap in E1. unfold is_i64 in Hx, Hy.
    pose proof (Z.div_mod x u64_modulus ltac:(done)). pose proof (Z.div_mod y u64_modulus ltac:(done)).
    pose proof (Z.mod_pos_bound x u64_modulus eq_refl). unfold_ints. nia.
  - intros line capacity ls ls' Hall E. apply Forall_app in Hall as [H H'].
    assert (Hb : forall ls, Forall (fun l => is_u64 (er_record_index (line_record l)) /\
       is_u64 (er_payload (line_record l)) /\
       Z.of_nat (length (line_padding l)) <= u64_max) ls ->
       Forall (fun x => Z.of_nat (length x) <= u64_max) (flat_map (fun l =>
         [u64_field (er_record_index (line_record l)); u64_field (er_payload (line_record l));
          u64_field (line - sizeof_EventRecord); line_padding l]) ls)).
    { induction 1 as [|l ls0 (? & ? & ?) _ IH]; [constructor|]. cbn [flat_map app].
      repeat constructor; try apply u64_field_length; done. }
    apply fields_bytes_inj in E.
    2,3: repeat constructor; [vm_compute; discriminate|apply u64_field_length
      |apply u64_field_length|by apply Hb].
    cbn [app] in E. do 3 apply cons_eq_inv in E as [_ E]. revert E. clear -H H'. revert ls' H'.
    induction H as [|l ls (Hi & Hp & Hl) Hls IH]; intros [|l' ls'] H' E; try done.
    apply Forall_cons in H' as [(Hi' & Hp' & Hl') H']. cbn [flat_map app] in E.
    apply cons_eq_inv in E as [E1 E]. apply cons_eq_inv in E as [E2 E].
    apply cons_eq_inv in E as [_ E]. apply cons_eq_inv in E as [E3 E4]. apply be_bytes_inj in E1, E2; [|done..].
    f_equal; [|by apply IH]. destruct l as [[] ?], l' as [[] ?]; simpl in *. congruence.
Qed.
