(* ===== verification/Packages.v ===== *)
(** * The five queue packages

    Models [include/cpu_prefetch/workload/packages.hpp] and
    [src/workload/packages.cpp]: the look-ahead distances of the prefetching
    ring packages, and the packages R0, R1, R2, L0 and L1 around a ring or a
    linked queue. The prefetch emitter is a template parameter of the source;
    here it is the list of the hints it received, in order. *)

From stdpp Require Import prelude list strings.
From Stdlib Require Import ZArith Lia.
From S2P Require Import Prelude QueueCommon QueueSpec RingSpsc LinkedSpsc.

#[local] Open Scope Z_scope.
#[local] Open Scope checked_scope.

(** ** Look-ahead distances *)

Record RingDistance : Set := mkRingDistance { rd_slots : Z; rd_cache_lines : Z }.

Record CalibratedRingDistance : Set := mkCalibratedRingDistance {
  crd_distance : RingDistance;
  crd_calibration_evidence_id : string
}.

Record RingGeometry : Set := mkRingGeometry {
  rg_capacity : Z;
  rg_cache_line_bytes : Z;
  rg_slot_bytes : Z
}.

Definition distance_checked_multiply (left right : Z) : Throws Z :=
  throw_if (negb (left =? 0) && (right >? u64_max / left)) "ring distance overflows size_t" ;;
  Returned (u64_mul left right).

Definition ring_one_line_distance (geometry : RingGeometry) : Throws RingDistance :=
  throw_if (negb (is_power_of_two (rg_capacity geometry)) ||
            (rg_cache_line_bytes geometry =? 0) || (rg_slot_bytes geometry =? 0))
    "ring distance requires power-of-two capacity and explicit nonzero units" ;;
  let slots := rg_cache_line_bytes geometry / rg_slot_bytes geometry +
               (if rg_cache_line_bytes geometry mod rg_slot_bytes geometry =? 0 then 0 else 1) in
  throw_if ((slots =? 0) || (slots >=? rg_capacity geometry))
    "one-line ring lookahead must name a distinct future slot line" ;;
  Returned (mkRingDistance slots 1).

Definition resolve_calibrated_ring_distance (geometry : RingGeometry)
    (calibrated_cache_lines : Z) (calibration_evidence_id : string)
    : Throws CalibratedRingDistance :=
  let! one_line := ring_one_line_distance geometry in
  throw_if (str_empty calibration_evidence_id)
    "R2 distance requires calibration evidence identity" ;;
  throw_if (calibrated_cache_lines <? 2) "R2 distance must be at least two cache lines" ;;
  let! slots := distance_checked_multiply (rd_slots one_line) calibrated_cache_lines in
  throw_if (slots >? rg_capacity geometry / 4)
    "R2 distance exceeds the one-quarter capacity cap" ;;
  throw_if (slots =? rd_slots one_line) "R2 cap collapses to R1; the cell is ineligible" ;;
  Returned (mkCalibratedRingDistance (mkRingDistance slots calibrated_cache_lines)
              calibration_evidence_id).

(** ** Packages *)

Inductive PrefetchHint : Set :=
| Hint_ring_producer_write (slot : Z)
| Hint_ring_consumer_read (slot : Z)
| Hint_successor_header (node : Z).

Inductive PackageQueue : Type :=
| Package_r0 (q : RingSpscQueue)
| Package_r1 (q : RingSpscQueue) (distance : RingDistance)
| Package_r2 (q : RingSpscQueue) (distance : CalibratedRingDistance)
| Package_l0 (q : LinkedSpscQueue)
| Package_l1 (q : LinkedSpscQueue).

Record Package : Type := mkPackage {
  pk_queue : PackageQueue;
  pk_hints : list PrefetchHint
}.

(** The hint a package emits before it calls [try_enqueue]. *)
Definition enqueue_hints (p : PackageQueue) : list PrefetchHint :=
  match p with
  | Package_r1 q d => [Hint_ring_producer_write (producer_slot_target q (rd_slots d))]
  | Package_r2 q d => [Hint_ring_producer_write (producer_slot_target q (rd_slots (crd_distance d)))]
  | _ => []
  end.

Definition dequeue_hints (p : PackageQueue) : list PrefetchHint :=
  match p with
  | Package_r1 q d => [Hint_ring_consumer_read (consumer_slot_target q (rd_slots d))]
  | Package_r2 q d => [Hint_ring_consumer_read (consumer_slot_target q (rd_slots (crd_distance d)))]
  | _ => []
  end.

Definition package_try_enqueue_with_boundary_observer {O : Type}
    (observer : O -> bool * O) (event : Z) (p : Package) (o : O)
    : Package * O * BoundaryEnqueueResult :=
  let hints := pk_hints p ++ enqueue_hints (pk_queue p) in
  match pk_queue p with
  | Package_r0 q =>
      let '(q, o, r) := ring_try_enqueue_with_boundary_observer observer event q o in
      (mkPackage (Package_r0 q) hints, o, r)
  | Package_r1 q d =>
      let '(q, o, r) := ring_try_enqueue_with_boundary_observer observer event q o in
      (mkPackage (Package_r1 q d) hints, o, r)
  | Package_r2 q d =>
      let '(q, o, r) := ring_try_enqueue_with_boundary_observer observer event q o in
      (mkPackage (Package_r2 q d) hints, o, r)
  | Package_l0 q =>
      let '(q, o, r) := linked_try_enqueue_with_boundary_observer observer event q o in
      (mkPackage (Package_l0 q) hints, o, r)
  | Package_l1 q =>
      let '(q, o, r) := linked_try_enqueue_with_boundary_observer observer event q o in
      (mkPackage (Package_l1 q) hints, o, r)
  end.

Definition package_try_dequeue_with_boundary_observer {O : Type}
    (observer : O -> bool * O) (p : Package) (o : O)
    : Package * O * BoundaryDequeueResult :=
  let hints := pk_hints p ++ dequeue_hints (pk_queue p) in
  match pk_queue p with
  | Package_r0 q =>
      let '(q, o, r) := ring_try_dequeue_with_boundary_observer observer q o in
      (mkPackage (Package_r0 q) hints, o, r)
  | Package_r1 q d =>
      let '(q, o, r) := ring_try_dequeue_with_boundary_observer observer q o in
      (mkPackage (Package_r1 q d) hints, o, r)
  | Package_r2 q d =>
      let '(q, o, r) := ring_try_dequeue_with_boundary_observer observer q o in
      (mkPackage (Package_r2 q d) hints, o, r)
  | Package_l0 q =>
      let '(q, o, r) :=
        linked_try_dequeue_with_boundary_observer observer (fun _ o => o) q o in
      (mkPackage (Package_l0 q) hints, o, r)
  | Package_l1 q =>
      let '(q, s, r) :=
        linked_try_dequeue_with_boundary_observer
          (fun s => let '(captured, o) := observer (fst s) in (captured, (o, snd s)))
          (fun node s => (fst s, snd s ++ [Hint_successor_header node])) q (o, hints) in
      (mkPackage (Package_l1 q) (snd s), fst s, r)
  end.

(** The plain entry points: no boundary callback. *)
Definition package_try_enqueue (event : Z) (p : Package) : Package * EnqueueResult :=
  let '(p, _, r) := package_try_enqueue_with_boundary_observer (fun o => (true, o)) event p tt in
  (p, ber_result r).

Definition package_try_dequeue (p : Package) : Package * DequeueResult :=
  let '(p, _, r) := package_try_dequeue_with_boundary_observer (fun o => (true, o)) p tt in
  (p, bdr_result r).

Definition package_capacity (p : Package) : Z :=
  match pk_queue p with
  | Package_r0 q | Package_r1 q _ | Package_r2 q _ => ring_capacity q
  | Package_l0 q | Package_l1 q => linked_capacity q
  end.

#[export] Instance package_spsc : SpscQueue Package := {
  spsc_capacity := package_capacity;
  spsc_try_enqueue := package_try_enqueue;
  spsc_try_dequeue := package_try_dequeue
}.

(** ** What the timing code relies on

    An attempt with a boundary callback either completes as the bounded FIFO
    does, calling the callback exactly when the event passes, or is a capture
    failure because the callback said so. *)

Class TimedPackage (P : Type) := {
  tp_capacity : P -> Z;
  tp_enqueue : forall O : Type, (O -> bool * O) -> Z -> P -> O -> P * O * BoundaryEnqueueResult;
  tp_dequeue : forall O : Type, (O -> bool * O) -> P -> O -> P * O * BoundaryDequeueResult
}.
Arguments tp_enqueue {P _} O.
Arguments tp_dequeue {P _} O.

Class TimedPackageLaws (P : Type) `{!TimedPackage P} := {
  tp_repr : P -> list Z -> Prop;
  tp_bound p l : tp_repr p l -> Z.of_nat (length l) <= tp_capacity p;
  tp_enqueue_law (O : Type) (obs : O -> bool * O) e p l (o : O) :
    tp_repr p l -> e <> nullptr ->
    if Z.of_nat (length l) <? tp_capacity p then
      exists p', tp_capacity p' = tp_capacity p /\
        if fst (obs o) then
          tp_enqueue O obs e p o =
            (p', snd (obs o),
             mkBoundaryEnqueueResult BoundaryCaptureStatus_complete EnqueueResult_accepted) /\
          tp_repr p' (l ++ [e])
        else
          tp_enqueue O obs e p o =
            (p', snd (obs o),
             mkBoundaryEnqueueResult BoundaryCaptureStatus_capture_failed EnqueueResult_full)
    else
      exists p', tp_capacity p' = tp_capacity p /\ tp_repr p' l /\
        tp_enqueue O obs e p o =
          (p', o, mkBoundaryEnqueueResult BoundaryCaptureStatus_complete EnqueueResult_full);
  tp_dequeue_law (O : Type) (obs : O -> bool * O) p l (o : O) :
    tp_repr p l ->
    exists p', tp_capacity p' = tp_capacity p /\
    match l with
    | [] =>
        tp_repr p' [] /\
        tp_dequeue O obs p o =
          (p', o, mkBoundaryDequeueResult BoundaryCaptureStatus_complete
                    (mkDequeueResult DequeueStatus_empty nullptr))
    | e :: l' =>
        if fst (obs o) then
          tp_repr p' l' /\
          tp_dequeue O obs p o =
            (p', snd (obs o), mkBoundaryDequeueResult BoundaryCaptureStatus_complete
                                (mkDequeueResult DequeueStatus_item e))
        else
          tp_repr p' l /\
          tp_dequeue O obs p o =
            (p', snd (obs o), mkBoundaryDequeueResult BoundaryCaptureStatus_capture_failed
                                (mkDequeueResult DequeueStatus_empty nullptr))
    end
}.

#[export] Instance package_timed : TimedPackage Package := {
  tp_capacity := package_capacity;
  tp_enqueue O obs e p o := package_try_enqueue_with_boundary_observer obs e p o;
  tp_dequeue O obs p o := package_try_dequeue_with_boundary_observer obs p o
}.

Definition package_repr (p : Package) (l : list Z) : Prop :=
  Forall (fun e => e <> nullptr) l /\
  match pk_queue p with
  | Package_r0 q | Package_r1 q _ | Package_r2 q _ => ring_repr q l
  | Package_l0 q | Package_l1 q => linked_repr 0 q l
  end.

(** ** Lemmas *)

(** Both families, seen through the boundary entry points. *)
Lemma ring_boundary_enqueue {O : Type} (obs : O -> bool * O) e q l (o : O) :
  ring_repr q l -> e <> nullptr ->
  if Z.of_nat (length l) <? ring_capacity q then
    exists q', ring_capacity q' = ring_capacity q /\
      if fst (obs o) then
        ring_try_enqueue_with_boundary_observer obs e q o =
          (q', snd (obs o),
           mkBoundaryEnqueueResult BoundaryCaptureStatus_complete EnqueueResult_accepted) /\
        ring_repr q' (l ++ [e])
      else
        ring_try_enqueue_with_boundary_observer obs e q o =
          (q', snd (obs o),
           mkBoundaryEnqueueResult BoundaryCaptureStatus_capture_failed EnqueueResult_full)
  else
    ring_try_enqueue_with_boundary_observer obs e q o =
      (q, o, mkBoundaryEnqueueResult BoundaryCaptureStatus_complete EnqueueResult_full).
Proof.
  intros Hr He. pose proof (ring_enqueue_cases (mkEnqueueObserver O id id id obs) q l e o Hr He) as H.
  simpl in H. unfold id in H. unfold ring_try_enqueue_with_boundary_observer.
  destruct (_ <? _); [|done]. destruct (fst (obs o)).
  - destruct H as (q' & E & Hr' & Hc). by exists q'.
  - by exists q.
Qed.

Lemma ring_boundary_dequeue {O : Type} (obs : O -> bool * O) q l (o : O) :
  ring_repr q l ->
  exists q', ring_capacity q' = ring_capacity q /\
  match l with
  | [] => ring_repr q' [] /\ ring_try_dequeue_with_boundary_observer obs q o =
            (q', o, mkBoundaryDequeueResult BoundaryCaptureStatus_complete
                     (mkDequeueResult DequeueStatus_empty nullptr))
  | e :: l' =>
      if fst (obs o) then
        ring_repr q' l' /\ ring_try_dequeue_with_boundary_observer obs q o =
          (q', snd (obs o), mkBoundaryDequeueResult BoundaryCaptureStatus_complete
                              (mkDequeueResult DequeueStatus_item e))
      else
        ring_repr q' l /\ ring_try_dequeue_with_boundary_observer obs q o =
          (q', snd (obs o), mkBoundaryDequeueResult BoundaryCaptureStatus_capture_failed
                              (mkDequeueResult DequeueStatus_empty nullptr))
  end.
Proof.
  intros Hr. pose proof (ring_dequeue_cases (mkDequeueObserver O id id obs id) q l o Hr) as H.
  simpl in H. unfold id in H. unfold ring_try_dequeue_with_boundary_observer.
  destruct l as [|e l']; [by exists q|]. destruct (fst (obs o)).
  - destruct H as (q' & E & Hr' & Hc). by exists q'.
  - by exists q.
Qed.

Lemma linked_boundary_enqueue {O : Type} (obs : O -> bool * O) e q l (o : O) :
  linked_repr 0 q l ->
  if Z.of_nat (length l) <? linked_capacity q then
    exists q', linked_capacity q' = linked_capacity q /\
      if fst (obs o) then
        linked_try_enqueue_with_boundary_observer obs e q o =
          (q', snd (obs o),
           mkBoundaryEnqueueResult BoundaryCaptureStatus_complete EnqueueResult_accepted) /\
        linked_repr 0 q' (l ++ [e])
      else
        linked_try_enqueue_with_boundary_observer obs e q o =
          (q', snd (obs o),
           mkBoundaryEnqueueResult BoundaryCaptureStatus_capture_failed EnqueueResult_full)
  else
    linked_try_enqueue_with_boundary_observer obs e q o =
      (q, o, mkBoundaryEnqueueResult BoundaryCaptureStatus_complete EnqueueResult_full).
Proof.
  intros Hr. pose proof (linked_enqueue_cases q 0 l (mkLinkedEnqueueObserver O id obs) e o Hr) as H.
  rewrite Nat.add_0_r in H. simpl in H. unfold id in H.
  unfold linked_try_enqueue_with_boundary_observer.
  destruct (_ <? _); [|done]. destruct H as (q' & Hc & H). exists q'. split; [done|].
  by destruct (fst (obs o)); destruct H.
Qed.

Lemma linked_boundary_dequeue {O : Type} (obs : O -> bool * O) (header : Z -> O -> O) q l (o : O) :
  linked_repr 0 q l ->
  exists q', linked_capacity q' = linked_capacity q /\
  match l with
  | [] => linked_repr 0 q' [] /\ linked_try_dequeue_with_boundary_observer obs header q o =
            (q', o, mkBoundaryDequeueResult BoundaryCaptureStatus_complete
                     (mkDequeueResult DequeueStatus_empty nullptr))
  | e :: l' =>
      if fst (obs o) then
        linked_repr 0 q' l' /\ linked_try_dequeue_with_boundary_observer obs header q o =
          (q', header (consumer_head q') (snd (obs o)),
           mkBoundaryDequeueResult BoundaryCaptureStatus_complete
             (mkDequeueResult DequeueStatus_item e))
      else
        linked_repr 0 q' l /\ linked_try_dequeue_with_boundary_observer obs header q o =
          (q', snd (obs o), mkBoundaryDequeueResult BoundaryCaptureStatus_capture_failed
                              (mkDequeueResult DequeueStatus_empty nullptr))
  end.
Proof.
  intros Hr. pose proof (linked_dequeue_cases q 0 l (mkLinkedDequeueObserver O obs header id) o Hr) as H.
  simpl in H. unfold id in H. unfold linked_try_dequeue_with_boundary_observer.
  destruct l as [|e l']; [by exists q|]. destruct (fst (obs o)).
  - destruct H as (q' & E & Hr' & Hc). by exists q'.
  - by exists q.
Qed.

(** Lift the result of the wrapped queue to the package. *)
Ltac lift_enqueue lemma build :=
  pose proof lemma as H;
  destruct (_ <? _);
  [ destruct H as (q' & Hc & H); exists (build q'); split; [exact Hc|];
    destruct (fst _);
    [ destruct H as [-> H]; split; [done|]; split; [apply Forall_app; auto | exact H]
    | rewrite H; done ]
  | rewrite H; eexists (build _); split; [reflexivity|]; split; [|reflexivity]; by split ].

Ltac lift_dequeue lemma build :=
  destruct lemma as (q' & Hc & H); exists (build q'); split; [exact Hc|];
  match goal with l : list Z |- _ => destruct l as [|e l'] end;
  [ destruct H as [H1 H2]; rewrite H2; split; [by split|done]
  | destruct (fst _); destruct H as [H1 H2]; rewrite H2; (split; [split|done]);
    first [ exact H1 | done
          | match goal with Hl : Forall _ (_ :: _) |- _ => by apply Forall_cons in Hl as [_ ?] end ] ].

#[export] Program Instance package_timed_laws : TimedPackageLaws Package := {
  tp_repr := package_repr
}.
Next Obligation.
  intros [[q|q d|q d|q|q] h] l [_ H]; unfold tp_capacity, package_capacity; simpl in *.
  1-3: by destruct H.
  all: exact (spsc_repr_bound (Q := LinkedSpscQueue) q l H).
Qed.
Next Obligation.
  intros O obs e [[q|q d|q d|q|q] h] l o [Hn Hr] He; simpl in *;
    unfold package_try_enqueue_with_boundary_observer, package_capacity, package_repr; simpl in *.
  - lift_enqueue (ring_boundary_enqueue obs e q l o Hr He)
      (fun q => mkPackage (Package_r0 q) (h ++ [])).
  - lift_enqueue (ring_boundary_enqueue obs e q l o Hr He)
      (fun q0 => mkPackage (Package_r1 q0 d) (h ++ enqueue_hints (Package_r1 q d))).
  - lift_enqueue (ring_boundary_enqueue obs e q l o Hr He)
      (fun q0 => mkPackage (Package_r2 q0 d) (h ++ enqueue_hints (Package_r2 q d))).
  - lift_enqueue (linked_boundary_enqueue obs e q l o Hr)
      (fun q => mkPackage (Package_l0 q) (h ++ [])).
  - lift_enqueue (linked_boundary_enqueue obs e q l o Hr)
      (fun q => mkPackage (Package_l1 q) (h ++ [])).
Qed.
Next Obligation.
  intros O obs [[q|q d|q d|q|q] h] l o [Hn Hr]; simpl in *;
    unfold package_try_dequeue_with_boundary_observer, package_capacity, package_repr; simpl in *.
  - lift_dequeue (ring_boundary_dequeue obs q l o Hr)
      (fun q => mkPackage (Package_r0 q) (h ++ [])).
  - lift_dequeue (ring_boundary_dequeue obs q l o Hr)
      (fun q0 => mkPackage (Package_r1 q0 d) (h ++ dequeue_hints (Package_r1 q d))).
  - lift_dequeue (ring_boundary_dequeue obs q l o Hr)
      (fun q0 => mkPackage (Package_r2 q0 d) (h ++ dequeue_hints (Package_r2 q d))).
  - lift_dequeue (linked_boundary_dequeue obs (fun _ o => o) q l o Hr)
      (fun q => mkPackage (Package_l0 q) (h ++ [])).
  - destruct (linked_boundary_dequeue
      (fun s : O * list PrefetchHint => let '(captured, o) := obs (fst s) in (captured, (o, snd s)))
      (fun node s => (fst s, snd s ++ [Hint_successor_header node])) q l (o, h ++ []) Hr)
      as (q' & Hc & H). destruct l as [|e l']; simpl in H.
    + exists (mkPackage (Package_l1 q') (h ++ [])). split; [exact Hc|].
      destruct H as [H1 H2]. rewrite H2. by split.
    + destruct (obs o) as [[] o'] eqn:Eo; simpl in *.
      * exists (mkPackage (Package_l1 q')
                  ((h ++ []) ++ [Hint_successor_header (consumer_head q')])).
        split; [exact Hc|]. destruct H as [H1 H2]. rewrite H2. simpl. split; [|done].
        split; [by apply Forall_cons in Hn as [_ ?]|done].
      * exists (mkPackage (Package_l1 q') (h ++ [])). split; [exact Hc|].
        destruct H as [H1 H2]. rewrite H2. by split.
Qed.

(** The plain entry points are the boundary ones with a callback that always
    succeeds, so the timed contract gives the plain contract. *)
#[export] Program Instance package_spsc_laws : SpscQueueLaws Package := {
  spsc_repr := package_repr
}.
Next Obligation. intros p l H. exact (tp_bound p l H). Qed.
Next Obligation.
  intros p l e Hr He. change (tp_repr p l) in Hr.
  pose proof (tp_enqueue_law unit (fun o => (true, o)) e p l tt Hr He) as H.
  unfold tp_capacity, tp_enqueue, package_timed in H.
  unfold spsc_try_enqueue, spsc_capacity, package_spsc, package_try_enqueue, fifo_enqueue.
  destruct (_ <? _).
  - destruct H as (p' & Hc & H). cbn [fst] in H. destruct H as [-> H]. by exists p'.
  - destruct H as (p' & Hc & H1 & ->). by exists p'.
Qed.
Next Obligation.
  intros p l Hr. change (tp_repr p l) in Hr.
  destruct (tp_dequeue_law unit (fun o => (true, o)) p l tt Hr) as (p' & Hc & H).
  unfold tp_capacity, tp_dequeue, package_timed in *.
  unfold spsc_try_dequeue, spsc_capacity, package_spsc, package_try_dequeue.
  exists p'. destruct l as [|e l']; cbn [fst] in H; destruct H as [H ->]; done.
Qed.

Lemma ring_one_line_spec g d :
  is_u64 (rg_capacity g) -> is_u64 (rg_cache_line_bytes g) -> is_u64 (rg_slot_bytes g) ->
  ring_one_line_distance g = Returned d ->
  rd_cache_lines d = 1 /\ 0 < rd_slots d < rg_capacity g /\
  (rd_slots d - 1) * rg_slot_bytes g < rg_cache_line_bytes g <= rd_slots d * rg_slot_bytes g.
Proof.
  intros Hc Hl Hs. unfold ring_one_line_distance.
  destruct (_ || _ || _) eqn:E1; [done|]. rewrite !orb_false_iff, !Z.eqb_neq in E1.
  destruct E1 as [[_ Hl0] Hs0]. set (slots := _ / _ + _).
  destruct (_ || _) eqn:E2; [done|]. rewrite orb_false_iff, Z.eqb_neq, Z.geb_leb, Z.leb_gt in E2.
  intros [= <-]. simpl.
  pose proof (Z.div_mod (rg_cache_line_bytes g) (rg_slot_bytes g) ltac:(lia)) as Hdm.
  pose proof (Z.mod_pos_bound (rg_cache_line_bytes g) (rg_slot_bytes g) ltac:(int_lia)) as Hm.
  pose proof (Z.div_pos (rg_cache_line_bytes g) (rg_slot_bytes g) ltac:(int_lia) ltac:(int_lia)).
  subst slots. destruct (Z.eqb_spec (rg_cache_line_bytes g mod rg_slot_bytes g) 0);
    unfold_ints; (split; [done|]); split; try lia; nia.
Qed.

Lemma distance_multiply_spec a b r :
  is_u64 a -> is_u64 b ->
  distance_checked_multiply a b = Returned r <-> r = a * b /\ a * b <= u64_max.
Proof.
  intros Ha Hb. rewrite <- (queue_checked_multiply_spec a b r Ha Hb).
  unfold distance_checked_multiply, queue_checked_multiply.
  destruct (negb _ && _); naive_solver.
Qed.

(** A look-ahead smaller than the capacity names another slot. *)
Lemma lookahead_other_slot q l d :
  ring_repr q l -> 0 < d < ring_capacity q ->
  producer_slot_target q d <> producer_position q /\
  consumer_slot_target q d <> consumer_position q.
Proof.
  intros Hr Hd. pose proof (ring_producer_range q l Hr) as Hp. destruct Hr.
  assert (u64_max / 8 < u64_max) by done.
  enough (H0 : forall p, 0 <= p < ring_capacity q -> position_at_distance q p d <> p)
    by (split; by apply H0).
  intros p Hpr. unfold position_at_distance. rewrite Z.mod_small by lia.
  rewrite (proj2 (Z.eqb_neq d 0)) by lia. rewrite u64_sub_small by lia.
  destruct (Z.ltb_spec d (ring_capacity q - p)).
  - rewrite u64_add_small by lia. lia.
  - rewrite u64_sub_small by lia. lia.
Qed.

(** ** Properties *)

(** The prefetch policy is invisible: packages of any two kinds that hold
    the same events and have the same capacity answer every sequence of
    operations alike, whatever hints they emit and whatever the distances. *)
Theorem package_policy_transparent p p' l ops :
  package_repr p l -> package_repr p' l -> package_capacity p = package_capacity p' ->
  ops_nonnull ops ->
  snd (run_queue ops p) = snd (run_queue ops p') /\
  snd (run_queue ops p) = snd (run_fifo (package_capacity p) ops l).
Proof.
  intros H H' Hc Hops. change (spsc_repr p l) in H. change (spsc_repr p' l) in H'.
  destruct (run_queue_refines ops p l H Hops) as [E _].
  destruct (run_queue_refines ops p' l H' Hops) as [E' _].
  change (spsc_capacity p) with (package_capacity p) in E.
  change (spsc_capacity p') with (package_capacity p') in E'.
  rewrite E, E', Hc. done.
Qed.

Lemma package_policy_transparent_witness :
  snd (run_queue [Op_enqueue 7; Op_enqueue 8; Op_enqueue 9; Op_dequeue]
         (mkPackage (Package_r1 (mkRing 2 64 16 128 [0; 0] 0 0) (mkRingDistance 1 1)) [])) =
  snd (run_queue [Op_enqueue 7; Op_enqueue 8; Op_enqueue 9; Op_dequeue]
         (mkPackage (Package_l1 linked_example_queue) [])).
Proof.
  apply (package_policy_transparent
    (mkPackage (Package_r1 (mkRing 2 64 16 128 [0; 0] 0 0) (mkRingDistance 1 1)) [])
    (mkPackage (Package_l1 linked_example_queue) []) []).
  - split; [constructor|]. eapply (ring_make_repr 2 64); [vm_compute; split; discriminate..|].
    reflexivity.
  - split; [constructor|]. exact linked_example_repr.
  - vm_compute. reflexivity.
  - repeat constructor; discriminate.
Defined.

(** The look-ahead distances are what the protocol asks: R1 looks exactly
    one cache line of slots ahead, R2 a whole number (at least two) of such
    lines and at most a quarter of the ring; both are smaller than the ring,
    so the hinted slot is never the slot of the operation itself. *)
Theorem lookahead_distances g lines evidence d1 d2 q l :
  is_u64 (rg_capacity g) -> is_u64 (rg_cache_line_bytes g) -> is_u64 (rg_slot_bytes g) ->
  is_u64 lines -> ring_repr q l -> rg_capacity g = ring_capacity q ->
  ring_one_line_distance g = Returned d1 ->
  resolve_calibrated_ring_distance g lines evidence = Returned d2 ->
  (rd_slots d1 - 1) * rg_slot_bytes g < rg_cache_line_bytes g <= rd_slots d1 * rg_slot_bytes g /\
  rd_slots (crd_distance d2) = rd_slots d1 * lines /\ 2 <= lines /\
  4 * rd_slots (crd_distance d2) <= ring_capacity q /\
  Forall (fun d => producer_slot_target q d <> producer_position q /\
                   consumer_slot_target q d <> consumer_position q)
    [rd_slots d1; rd_slots (crd_distance d2)].
Proof.
  intros Hc Hl Hs Hn Hr Hcap H1 H2. unfold resolve_calibrated_ring_distance in H2. rewrite H1 in H2.
  apply ring_one_line_spec in H1 as (_ & Hslots & Hline); [|done..].
  destruct (str_empty evidence); [done|]. destruct (Z.ltb_spec lines 2); [done|].
  destruct (distance_checked_multiply _ _) as [slots|] eqn:Hm; [|done].
  apply distance_multiply_spec in Hm as [-> Hm]; [|int_lia|done].
  destruct (Z.gtb_spec (rd_slots d1 * lines) (rg_capacity g / 4)) as [|Hle]; [done|].
  destruct (_ =? rd_slots d1); [done|]. injection H2 as <-. simpl.
  pose proof (Z.mul_div_le (rg_capacity g) 4 ltac:(lia)).
  split_and!; [lia|lia|done|done|lia|].
  repeat constructor; apply (lookahead_other_slot q l); try done; try nia.
Qed.

Lemma lookahead_distances_witness :
  exists d1 d2, ring_one_line_distance (mkRingGeometry 64 64 8) = Returned d1 /\
    resolve_calibrated_ring_distance (mkRingGeometry 64 64 8) 2 "ev" = Returned d2 /\
    4 * rd_slots (crd_distance d2) <= 64.
Proof.
  eexists _, _. split; [vm_compute; reflexivity|]. split; [vm_compute; reflexivity|].
  refine (proj1 (proj2 (proj2 (proj2 (lookahead_distances (mkRingGeometry 64 64 8) 2 "ev"
    (mkRingDistance 8 1) (mkCalibratedRingDistance (mkRingDistance 16 2) "ev")
    (mkRing 64 64 512 128 (replicate 64 0) 0 0) [] _ _ _ _ _ _ _ _)))));
    try (vm_compute; split; discriminate); try (vm_compute; reflexivity).
  eapply (ring_make_repr 64 64); [vm_compute; split; discriminate..|vm_compute; reflexivity].
Defined.
