(* ===== verification/WorkingSet.v ===== *)
(** * Working sets and node orders

    Models [include/cpu_prefetch/workload/working_set.hpp] and
    [src/workload/working_set.cpp]: the footprint of a capacity in both queue
    families, the choice of one common capacity per working-set class, and the
    node order of the linked queue with the summary of its address pattern. *)

From stdpp Require Import prelude list strings gmap sorting.
From Stdlib Require Import ZArith Lia.
From S2P Require Import Prelude Model QueueCommon LinkedSpsc Deterministic Records.

#[local] Open Scope Z_scope.
#[local] Open Scope checked_scope.

Record SharedFootprintCandidate : Set := mkCandidate {
  sfc_capacity : Z;
  sfc_ring_bytes : Z;
  sfc_linked_bytes : Z
}.

Record CacheCapacityEvidence : Set := mkCacheEvidence {
  cce_cache_line_bytes : Z;
  cce_smaller_usable_l2_bytes : Z;
  cce_producer_home_usable_llc_bytes : Z
}.

Record CapacitySelection : Set := mkCapacitySelection {
  cs_working_set_class : WorkingSetClass;
  cs_selected : SharedFootprintCandidate
}.

Definition checked_product (left right : Z) (field : string) : Throws Z :=
  if negb (left =? 0) && (right >? u64_max / left)
  then Threw (field ++ " overflows uint64")%string
  else Returned (u64_mul left right).

Definition checked_sum (left right : Z) (field : string) : Throws Z :=
  if right >? u64_sub u64_max left
  then Threw (field ++ " overflows uint64")%string
  else Returned (u64_add left right).

(** The lambda [matches] of [both_match]. *)
Definition footprint_matches (lower_l2 twice_l2 twice_llc : Z) (cache : CacheCapacityEvidence)
    (working_set_class : WorkingSetClass) (footprint : Z) : bool :=
  match working_set_class with
  | WorkingSetClass_l2_resident =>
      (footprint >? lower_l2) && (footprint <=? cce_smaller_usable_l2_bytes cache / 2)
  | WorkingSetClass_llc_resident =>
      (footprint >? twice_l2) && (footprint <=? cce_producer_home_usable_llc_bytes cache / 2)
  | WorkingSetClass_beyond_llc => footprint >=? twice_llc
  | WorkingSetClass_not_applicable => false
  end.

Definition both_match (candidate : SharedFootprintCandidate) (cache : CacheCapacityEvidence)
    (working_set_class : WorkingSetClass) : Throws bool :=
  let! lower_l2 := checked_product 4 (cce_cache_line_bytes cache) "four-cache-line lower bound" in
  let! twice_l2 := checked_product 2 (cce_smaller_usable_l2_bytes cache) "two-L2 lower bound" in
  let! twice_llc :=
    checked_product 2 (cce_producer_home_usable_llc_bytes cache) "two-LLC lower bound" in
  let matches := footprint_matches lower_l2 twice_l2 twice_llc cache working_set_class in
  Returned (matches (sfc_ring_bytes candidate) && matches (sfc_linked_bytes candidate)).

Definition make_shared_footprint_candidate
    (capacity event_arena_bytes ring_queue_bytes linked_queue_bytes : Z)
    : Throws SharedFootprintCandidate :=
  throw_if (negb (is_power_of_two capacity) || (event_arena_bytes =? 0) ||
            (ring_queue_bytes =? 0) || (linked_queue_bytes =? 0))
    "footprint accounting requires a power-of-two capacity and actual nonzero byte counts" ;;
  let! ring := checked_sum event_arena_bytes ring_queue_bytes "ring shared footprint" in
  let! linked := checked_sum event_arena_bytes linked_queue_bytes "linked shared footprint" in
  Returned (mkCandidate capacity ring linked).

(** The candidate replaces the selection so far. *)
Definition better (working_set_class : WorkingSetClass) (candidate : SharedFootprintCandidate)
    (selected : option SharedFootprintCandidate) : bool :=
  match selected with
  | None => true
  | Some s =>
      if bool_decide (working_set_class = WorkingSetClass_beyond_llc)
      then sfc_capacity candidate <? sfc_capacity s
      else sfc_capacity candidate >? sfc_capacity s
  end.

Fixpoint select_loop (working_set_class : WorkingSetClass) (cache : CacheCapacityEvidence)
    (seen : gset Z) (selected : option SharedFootprintCandidate)
    (candidates : list SharedFootprintCandidate) : Throws (option SharedFootprintCandidate) :=
  match candidates with
  | [] => Returned selected
  | candidate :: candidates =>
      throw_if (negb (is_power_of_two (sfc_capacity candidate)) ||
                (sfc_ring_bytes candidate =? 0) || (sfc_linked_bytes candidate =? 0))
        "every footprint candidate needs a unique power-of-two capacity and nonzero bytes" ;;
      throw_if (bool_decide (sfc_capacity candidate ∈ seen))
        "footprint candidate capacities must be unique" ;;
      let seen := {[sfc_capacity candidate]} ∪ seen in
      let! matching := both_match candidate cache working_set_class in
      if negb matching then select_loop working_set_class cache seen selected candidates
      else if better working_set_class candidate selected then
        select_loop working_set_class cache seen (Some candidate) candidates
      else select_loop working_set_class cache seen selected candidates
  end.

Definition select_common_capacity (working_set_class : WorkingSetClass)
    (cache : CacheCapacityEvidence) (candidates : list SharedFootprintCandidate)
    : Throws CapacitySelection :=
  throw_if (bool_decide (working_set_class = WorkingSetClass_not_applicable))
    "Stage A working-set class must be applicable" ;;
  throw_if ((cce_cache_line_bytes cache =? 0) ||
            negb (is_power_of_two (cce_cache_line_bytes cache)) ||
            (cce_smaller_usable_l2_bytes cache =? 0) ||
            (cce_producer_home_usable_llc_bytes cache =? 0))
    "capacity selection requires explicit nonzero cache facts" ;;
  throw_if (match candidates with [] => true | _ => false end)
    "capacity selection requires footprint candidates" ;;
  let! selected := select_loop working_set_class cache ∅ None candidates in
  match selected with
  | None => Threw "no common logical capacity satisfies both queue footprint rules"
  | Some s => Returned (mkCapacitySelection working_set_class s)
  end.

(** ** Node orders *)

Record AddressPatternSummary : Set := mkAddressPatternSummary {
  aps_transition_count : Z;
  aps_distinct_line_count : Z;
  aps_distinct_page_count : Z;
  aps_shortest_period : Z;
  aps_adjacent_line_transition_count : Z;
  aps_modal_nonzero_delta_count : Z;
  aps_modal_nonzero_delta : option Z;
  aps_adjacent_fraction_at_most_one_percent : bool;
  aps_modal_fraction_at_most_one_percent : bool
}.

Definition one_percent_or_less (count total : Z) : bool := count <=? total / 100.

(** [delta < 0 ? uint64(-(delta + 1)) + 1 : uint64(delta)]. *)
Definition delta_magnitude (delta : Z) : Z :=
  if delta <? 0 then u64_add (u64_of_i64 (- (delta + 1))) 1 else u64_of_i64 delta.

(** [std::map<std::int64_t, std::size_t>]: an association list sorted by key. *)
Fixpoint count_delta (delta : Z) (counts : list (Z * Z)) : list (Z * Z) :=
  match counts with
  | [] => [(delta, 1)]
  | (k, n) :: rest =>
      if delta <? k then (delta, 1) :: (k, n) :: rest
      else if delta =? k then (k, n + 1) :: rest
      else (k, n) :: count_delta delta rest
  end.

Definition nonzero_counts (deltas : list Z) : list (Z * Z) :=
  fold_left (fun counts delta => if negb (delta =? 0) then count_delta delta counts else counts)
    deltas [].

Definition modal_step (best : Z * option Z) (entry : Z * Z) : Z * option Z :=
  if snd entry >? fst best then (snd entry, Some (fst entry)) else best.

Definition summarize (order deltas : list Z) (stride_bytes base_page_bytes : Z)
  : Throws AddressPatternSummary :=
  let adjacent_count :=
    fold_left (fun n delta => if delta_magnitude delta =? stride_bytes then n + 1 else n) deltas 0 in
  let '(modal_count, modal_delta) :=
    fold_left modal_step (nonzero_counts deltas) (0, None) in
  let order_size := Z.of_nat (length order) in
  let deltas_size := Z.of_nat (length deltas) in
  let! allocated_bytes := checked_product order_size stride_bytes "node arena byte count" in
  let page_count := allocated_bytes / base_page_bytes +
                    (if allocated_bytes mod base_page_bytes =? 0 then 0 else 1) in
  Returned (mkAddressPatternSummary deltas_size order_size page_count order_size
    adjacent_count modal_count modal_delta
    (one_percent_or_less adjacent_count deltas_size)
    (one_percent_or_less modal_count deltas_size)).

Record NodeOrderConfig : Set := mkNodeOrderConfig {
  noc_logical_capacity : Z;
  noc_node_stride_bytes : Z;
  noc_cache_line_bytes : Z;
  noc_base_page_bytes : Z
}.

Record NodeOrderPlan : Set := mkNodeOrderPlan {
  nop_node_stride_bytes : Z;
  nop_cache_line_bytes : Z;
  nop_base_page_bytes : Z;
  nop_order : list Z;
  nop_deltas : list Z;
  nop_ordered_index_checksum : list Z;
  nop_address_delta_checksum : list Z;
  nop_summary : AddressPatternSummary
}.

(** Size of a pointer. *)
Definition sizeof_pointer : Z := 8.

Definition NodeOrderPlan_make (hmac_sha256 : list Z -> list Z -> list Z)
    (sha256 : list Z -> list Z) (config : NodeOrderConfig) (master_seed : list Z)
    (seed_namespace : string) : Throws NodeOrderPlan :=
  let stride := noc_node_stride_bytes config in
  let line := noc_cache_line_bytes config in
  let page := noc_base_page_bytes config in
  throw_if (negb (is_power_of_two (noc_logical_capacity config)))
    "linked logical capacity must be a nonzero power of two" ;;
  throw_if (negb (is_power_of_two line) || (line <? sizeof_pointer) || (stride =? 0) ||
            negb (stride mod line =? 0) || (page =? 0) || negb (page mod line =? 0))
    "node stride must contain integral cache lines and page bytes must be cache-line compatible" ;;
  throw_if (str_empty seed_namespace) "node-order seed namespace must not be empty" ;;
  throw_if (noc_logical_capacity config =? u64_max) "linked node count overflows size_t" ;;
  let! key := derive_stream_key hmac_sha256 master_seed seed_namespace StreamPurpose_node_order in
  let! order := make_permutation (u64_add (noc_logical_capacity config) 1) (draw key) in
  let! deltas := make_cyclic_address_deltas order stride in
  let! index_checksum := ordered_index_sha256 sha256 order in
  let! delta_checksum := address_delta_sha256 sha256 deltas in
  let! summary := summarize order deltas stride page in
  Returned (mkNodeOrderPlan stride line page order deltas index_checksum delta_checksum summary).

(** ** Lemmas *)

Lemma checked_product_spec a b field r :
  is_u64 a -> is_u64 b ->
  checked_product a b field = Returned r -> r = a * b.
Proof.
  intros Ha Hb H. apply (queue_checked_multiply_spec a b r Ha Hb).
  unfold checked_product, queue_checked_multiply in *. by destruct (negb _ && _).
Qed.

Lemma checked_sum_spec a b field r :
  is_u64 a -> is_u64 b ->
  checked_sum a b field = Returned r <-> r = a + b /\ a + b <= u64_max.
Proof.
  intros Ha Hb. rewrite <- (queue_checked_add_spec a b r Ha Hb).
  unfold checked_sum, queue_checked_add. destruct (_ >? _); naive_solver.
Qed.

(** The footprint rule of a class, in plain arithmetic. *)
Definition footprint_rule (cache : CacheCapacityEvidence) (c : WorkingSetClass) (f : Z) : Prop :=
  match c with
  | WorkingSetClass_l2_resident =>
      4 * cce_cache_line_bytes cache < f /\ 2 * f <= cce_smaller_usable_l2_bytes cache
  | WorkingSetClass_llc_resident =>
      2 * cce_smaller_usable_l2_bytes cache < f /\
      2 * f <= cce_producer_home_usable_llc_bytes cache
  | WorkingSetClass_beyond_llc => 2 * cce_producer_home_usable_llc_bytes cache <= f
  | WorkingSetClass_not_applicable => False
  end.

Definition candidate_matches (cache : CacheCapacityEvidence) (c : WorkingSetClass)
    (x : SharedFootprintCandidate) : Prop :=
  footprint_rule cache c (sfc_ring_bytes x) /\ footprint_rule cache c (sfc_linked_bytes x).

(** [x] is at least as good as [y] for the class. *)
Definition preferred (c : WorkingSetClass) (x y : SharedFootprintCandidate) : Prop :=
  if bool_decide (c = WorkingSetClass_beyond_llc)
  then sfc_capacity x <= sfc_capacity y
  else sfc_capacity y <= sfc_capacity x.

Definition cache_evidence_u64 (cache : CacheCapacityEvidence) : Prop :=
  is_u64 (cce_cache_line_bytes cache) /\ is_u64 (cce_smaller_usable_l2_bytes cache) /\
  is_u64 (cce_producer_home_usable_llc_bytes cache).

Lemma both_match_spec x cache c b :
  cache_evidence_u64 cache ->
  both_match x cache c = Returned b -> b = true <-> candidate_matches cache c x.
Proof.
  intros (H1 & H2 & H3). unfold both_match.
  destruct (checked_product 4 _ _) eqn:E1; [|done].
  destruct (checked_product 2 (cce_smaller_usable_l2_bytes cache) _) eqn:E2; [|done].
  destruct (checked_product 2 (cce_producer_home_usable_llc_bytes cache) _) eqn:E3; [|done].
  apply checked_product_spec in E1 as ->; [|int_lia..].
  apply checked_product_spec in E2 as ->; [|int_lia..].
  apply checked_product_spec in E3 as ->; [|int_lia..]. intros [= <-].
  unfold candidate_matches. rewrite andb_true_iff.
  assert (R : forall f, footprint_matches (4 * cce_cache_line_bytes cache)
     (2 * cce_smaller_usable_l2_bytes cache) (2 * cce_producer_home_usable_llc_bytes cache)
     cache c f = true <-> footprint_rule cache c f).
  { intros f. unfold footprint_matches, footprint_rule. destruct c; simpl; [| | |done].
    all: rewrite ?andb_true_iff, ?Z.gtb_lt, ?Z.leb_le, ?Z.geb_le; try done.
    - pose proof (Z.div_mod (cce_smaller_usable_l2_bytes cache) 2 ltac:(lia)).
      pose proof (Z.mod_pos_bound (cce_smaller_usable_l2_bytes cache) 2 ltac:(lia)). lia.
    - pose proof (Z.div_mod (cce_producer_home_usable_llc_bytes cache) 2 ltac:(lia)).
      pose proof (Z.mod_pos_bound (cce_producer_home_usable_llc_bytes cache) 2 ltac:(lia)). lia. }
  by rewrite !R.
Qed.

Lemma better_spec c x s :
  better c x s = false -> exists y, s = Some y /\ preferred c y x.
Proof.
  unfold better, preferred. destruct s as [y|]; [|done]. case_bool_decide.
  - rewrite Z.ltb_ge. eauto.
  - rewrite Z.gtb_ltb, Z.ltb_ge. eauto.
Qed.

Lemma better_preferred c x y : better c x (Some y) = true -> preferred c x y.
Proof.
  unfold better, preferred. case_bool_decide.
  - rewrite Z.ltb_lt. lia.
  - rewrite Z.gtb_ltb, Z.ltb_lt. lia.
Qed.

Lemma preferred_trans c x y z : preferred c x y -> preferred c y z -> preferred c x z.
Proof. unfold preferred. case_bool_decide; lia. Qed.

Lemma preferred_refl c x : preferred c x x.
Proof. unfold preferred. case_bool_decide; lia. Qed.

(** Loop invariant: the selection is the preferred matching candidate of
    [done], and it remains so for the whole list. *)
Definition selection_of (cache : CacheCapacityEvidence) (c : WorkingSetClass)
    (xs : list SharedFootprintCandidate) (s : option SharedFootprintCandidate) : Prop :=
  match s with
  | None => forall x, x ∈ xs -> ~ candidate_matches cache c x
  | Some y => y ∈ xs /\ candidate_matches cache c y /\
              forall x, x ∈ xs -> candidate_matches cache c x -> preferred c y x
  end.

Lemma select_loop_spec cache c xs prefix seen s r :
  cache_evidence_u64 cache -> selection_of cache c prefix s ->
  (forall x, x ∈ prefix -> sfc_capacity x ∈ seen) ->
  select_loop c cache seen s xs = Returned r ->
  selection_of cache c (prefix ++ xs) r /\ NoDup (sfc_capacity <$> xs) /\
  (forall x, x ∈ xs -> sfc_capacity x ∉ seen).
Proof.
  intros Hcache. revert prefix seen s. induction xs as [|x xs IH]; intros prefix seen s Hs Hseen.
  { intros [= <-]. rewrite app_nil_r. split_and!; [done|constructor|set_solver]. }
  cbn [select_loop]. destruct (negb _ || _ || _); [done|].
  case_bool_decide as Hx; [done|].
  destruct (both_match x cache c) as [b|] eqn:Hb; [|done].
  apply both_match_spec in Hb; [|done]. intros Hrec.
  assert (Hstep : forall s', selection_of cache c (prefix ++ [x]) s' ->
    select_loop c cache ({[sfc_capacity x]} ∪ seen) s' xs = Returned r ->
    selection_of cache c (prefix ++ x :: xs) r /\ NoDup (sfc_capacity <$> x :: xs) /\
    (forall y, y ∈ x :: xs -> sfc_capacity y ∉ seen)).
  { intros s' Hs' Hl. apply (IH (prefix ++ [x])) in Hl as (H1 & H2 & H3); [|done|set_solver].
    rewrite <- app_assoc in H1. split; [done|]. split; [|set_solver].
    rewrite fmap_cons. apply NoDup_cons. split; [|done]. intros Hin.
    apply list_elem_of_fmap in Hin as (y & E & Hy). specialize (H3 y Hy). set_solver. }
  destruct b; cbn [negb] in Hrec.
  - assert (Hm : candidate_matches cache c x) by by apply Hb.
    destruct (better c x s) eqn:Hbet; apply (Hstep _) in Hrec; try done.
    + split_and!; [set_solver|done|]. intros y [Hy| ->%list_elem_of_singleton]%elem_of_app Hmy;
        [|apply preferred_refl].
      destruct s as [z|]; [|by destruct (Hs y Hy)].
      destruct Hs as (_ & _ & Hs). eapply preferred_trans; [by apply better_preferred|by apply Hs].
    + apply better_spec in Hbet as (z & -> & Hz). destruct Hs as (Hzin & Hzm & Hs).
      split_and!; [set_solver|done|].
      intros y [Hy| ->%list_elem_of_singleton]%elem_of_app Hmy; [by apply Hs|done].
  - apply (Hstep s) in Hrec; [done|].
    assert (Hm : ~ candidate_matches cache c x) by (intros ?%Hb; done).
    destruct s as [z|]; simpl in *; [|set_solver].
    destruct Hs as (Hzin & Hzm & Hs). split_and!; [set_solver|done|].
    intros y [Hy| ->%list_elem_of_singleton]%elem_of_app Hmy; [by apply Hs|done].
Qed.

Definition candidate_valid (x : SharedFootprintCandidate) : Prop :=
  is_power_of_two (sfc_capacity x) = true /\ sfc_ring_bytes x <> 0 /\ sfc_linked_bytes x <> 0.

(** The three products of [both_match] fit in 64 bits. *)
Definition cache_evidence_small (cache : CacheCapacityEvidence) : Prop :=
  4 * cce_cache_line_bytes cache <= u64_max /\
  2 * cce_smaller_usable_l2_bytes cache <= u64_max /\
  2 * cce_producer_home_usable_llc_bytes cache <= u64_max.

Lemma both_match_total x cache c :
  cache_evidence_u64 cache -> cache_evidence_small cache ->
  exists b, both_match x cache c = Returned b.
Proof.
  intros (H1 & H2 & H3) (S1 & S2 & S3). unfold both_match.
  assert (P : forall k v f, is_u64 k -> is_u64 v -> k * v <= u64_max ->
    exists r, checked_product k v f = Returned r).
  { intros k v f Hk Hv Hle.
    destruct (proj2 (queue_checked_multiply_total k v Hk Hv) Hle) as [r Hr].
    unfold checked_product, queue_checked_multiply in *. destruct (negb _ && _); [done|eauto]. }
  destruct (P 4 (cce_cache_line_bytes cache) "four-cache-line lower bound"%string) as [? ->];
    [int_lia..|].
  destruct (P 2 (cce_smaller_usable_l2_bytes cache) "two-L2 lower bound"%string) as [? ->];
    [int_lia..|].
  destruct (P 2 (cce_producer_home_usable_llc_bytes cache) "two-LLC lower bound"%string)
    as [? ->]; [int_lia..|]. eauto.
Qed.

Lemma select_loop_total cache c xs seen s :
  cache_evidence_u64 cache -> cache_evidence_small cache -> Forall candidate_valid xs ->
  NoDup (sfc_capacity <$> xs) -> (forall x, x ∈ xs -> sfc_capacity x ∉ seen) ->
  exists r, select_loop c cache seen s xs = Returned r.
Proof.
  intros Hcache Hsmall Hv. revert seen s. induction Hv as [|x xs (V1 & V2 & V3) _ IH];
    intros seen s Hnd Hseen; [eauto|]. cbn [select_loop].
  rewrite V1, (proj2 (Z.eqb_neq _ 0) V2), (proj2 (Z.eqb_neq _ 0) V3). cbn [negb orb].
  rewrite bool_decide_false by (apply Hseen; left).
  destruct (both_match_total x cache c Hcache Hsmall) as [b ->].
  rewrite fmap_cons in Hnd. apply NoDup_cons in Hnd as [Hx Hnd].
  assert (Hs' : forall y, y ∈ xs -> sfc_capacity y ∉ ({[sfc_capacity x]} ∪ seen : gset Z)).
  { intros y Hy. assert (sfc_capacity y <> sfc_capacity x).
    { intros E. apply Hx. rewrite <- E. by apply list_elem_of_fmap_2. } set_solver. }
  destruct (negb b); [by apply IH|]. destruct (better _ _ _); by apply IH.
Qed.

(** How often a value occurs. *)
Definition occurrences (d : Z) (l : list Z) : Z :=
  Z.of_nat (length (filter (fun x => x = d) l)).

Lemma occurrences_snoc d l x :
  occurrences d (l ++ [x]) = occurrences d l + (if decide (x = d) then 1 else 0).
Proof.
  unfold occurrences. rewrite filter_app, length_app. cbn [filter list_filter].
  destruct (decide (x = d)); simpl; lia.
Qed.

(** The map update: one key counts once more, the others are unchanged. *)
Lemma count_delta_spec d cs :
  NoDup (fst <$> cs) -> StronglySorted (fun a b => fst a < fst b) cs ->
  StronglySorted (fun a b => fst a < fst b) (count_delta d cs) /\
  forall k n, (k, n) ∈ count_delta d cs <->
    (k <> d /\ (k, n) ∈ cs) \/
    (k = d /\ ((exists m, (d, m) ∈ cs /\ n = m + 1) \/ (n = 1 /\ forall m, (d, m) ∉ cs))).
Proof.
  intros Hnd Hs. induction Hs as [|[k0 n0] rest Hs IH Hall]; cbn [count_delta].
  { split; [repeat constructor|]. intros k n. set_solver. }
  rewrite fmap_cons in Hnd. apply NoDup_cons in Hnd as [Hk0 Hnd].
  rewrite Forall_forall in Hall. simpl in Hall.
  assert (Hge : forall k n, (k, n) ∈ rest -> k0 < k) by (intros k n Hin; apply (Hall _ Hin)).
  destruct (Z.ltb_spec d k0) as [Hlt|Hge0].
  { split.
    - constructor; [constructor; [done|by apply Forall_forall]|].
      apply Forall_cons. split; [done|]. apply Forall_forall. intros [k n] Hin. simpl.
      specialize (Hge k n Hin). lia.
    - intros k n. rewrite !elem_of_cons. split.
      + intros [[= -> ->]|[[= -> ->]|Hin]].
        * right. split; [done|]. right. split; [done|]. intros m [[= ? ?]|Hin]%elem_of_cons; [lia|].
          specialize (Hge _ _ Hin). lia.
        * left. split; [lia|]. by left.
        * left. specialize (Hge _ _ Hin). split; [lia|by right].
      + intros [[Hne H]|[-> [(m & H & _)|[-> _]]]]; [tauto| |by left].
        apply elem_of_cons in H as [[= ? ?]|Hin]; [lia|]. specialize (Hge _ _ Hin). lia. }
  destruct (Z.eqb_spec d k0) as [->|Hne0].
  { split; [constructor; [done|by apply Forall_forall]|]. intros k n. rewrite !elem_of_cons. split.
    - intros [[= -> ->]|Hin].
      + right. split; [done|]. left. exists n0. split; [by left|done].
      + left. specialize (Hge _ _ Hin). split; [lia|by right].
    - intros [[Hne [[= -> ->]|H]]|[-> [(m & H & ->)|[-> H]]]]; [done|by right| |].
      + apply elem_of_cons in H as [[= ->]|Hin]; [by left|]. specialize (Hge _ _ Hin). lia.
      + destruct (H n0). by left. }
  destruct (IH Hnd) as [IH1 IH2]. split.
  - constructor; [done|]. apply Forall_forall. intros [k n] Hin. simpl.
    apply IH2 in Hin as [[_ Hin]|[-> _]]; [by eapply Hge|lia].
  - intros k n. rewrite elem_of_cons, IH2. split.
    + intros [[= -> ->]|[[H1 H2]|[-> [(m & H1 & ->)|[-> H]]]]].
      * left. split; [lia|]. by left.
      * left. split; [done|by right].
      * right. split; [done|]. left. exists m. split; [by right|done].
      * right. split; [done|]. right. split; [done|].
        intros m [[= ? ?]|Hin]%elem_of_cons; [lia|by apply (H m)].
    + intros [[H1 [[= -> ->]|H2]%elem_of_cons]|[-> [(m & H1 & ->)|[-> H]]]].
      * by left.
      * right. by left.
      * apply elem_of_cons in H1 as [[= ? ?]|H1]; [lia|]. right. right. split; [done|]. left. eauto.
      * right. right. split; [done|]. right. split; [done|]. intros m Hm. apply (H m). by right.
Qed.

Lemma StronglySorted_NoDup_fst (cs : list (Z * Z)) :
  StronglySorted (fun a b => fst a < fst b) cs -> NoDup (fst <$> cs).
Proof.
  induction 1 as [|[k n] cs _ IH Hall]; [constructor|]. rewrite fmap_cons. apply NoDup_cons.
  split; [|done]. intros Hin. apply list_elem_of_fmap in Hin as ([k' n'] & E & Hin).
  rewrite Forall_forall in Hall. specialize (Hall _ Hin). simpl in *. lia.
Qed.

Lemma occurrences_zero d l : occurrences d l = 0 <-> d ∉ l.
Proof.
  unfold occurrences. split.
  - intros H Hin. assert (d ∈ filter (fun x => x = d) l) as Hf by (apply list_elem_of_filter; done).
    destruct (filter _ l) as [|y f]; [by apply not_elem_of_nil in Hf|]. simpl in H. lia.
  - intros Hn. assert (filter (fun x => x = d) l = []) as ->; [|done].
    apply elem_of_nil_inv. intros x [-> Hx]%list_elem_of_filter. done.
Qed.

(** The counting loop computes the occurrences of every nonzero delta. *)
Lemma nonzero_counts_spec ds :
  StronglySorted (fun a b => fst a < fst b) (nonzero_counts ds) /\
  forall k n, (k, n) ∈ nonzero_counts ds <-> k <> 0 /\ k ∈ ds /\ n = occurrences k ds.
Proof.
  unfold nonzero_counts. induction ds as [|d ds [IHs IH]] using rev_ind.
  { split; [constructor|]. simpl. intros k n. set_solver. }
  rewrite fold_left_app. cbn [fold_left].
  set (cs := fold_left _ ds []) in *.
  destruct (Z.eqb_spec d 0) as [->|Hd]; cbn [negb].
  { split; [done|]. intros k n. rewrite IH, occurrences_snoc, elem_of_app, list_elem_of_singleton.
    destruct (decide (0 = k)) as [<-|]; [naive_solver|]. rewrite Z.add_0_r. naive_solver. }
  destruct (count_delta_spec d cs (StronglySorted_NoDup_fst _ IHs) IHs) as [H1 H2].
  split; [done|]. intros k n. rewrite H2, IH, occurrences_snoc, elem_of_app, list_elem_of_singleton.
  destruct (decide (d = k)) as [<-|Hne].
  - split.
    + intros [[? _]|[_ [(m & Hm & ->)|[-> Hm]]]]; [done| |].
      * apply IH in Hm as (_ & _ & ->). split_and!; [done|by right|done].
      * split_and!; [done|by right|]. assert (d ∉ ds) as Hn.
        { intros Hin. apply (Hm (occurrences d ds)), IH. done. }
        apply occurrences_zero in Hn. lia.
    + intros (_ & _ & ->). right. split; [done|].
      destruct (decide (d ∈ ds)) as [Hin|Hin].
      * left. exists (occurrences d ds). split; [by apply IH|done].
      * right. split; [apply occurrences_zero in Hin; lia|]. intros m Hm.
        by apply IH in Hm as (_ & ? & _).
  - rewrite Z.add_0_r. naive_solver.
Qed.

(** The scan for the mode keeps the first entry with the largest count. *)
Lemma modal_scan cs best :
  0 <= fst best ->
  let r := fold_left modal_step cs best in
  fst best <= fst r /\ (forall k n, (k, n) ∈ cs -> n <= fst r) /\
  (r = best \/ exists k, snd r = Some k /\ (k, fst r) ∈ cs).
Proof.
  revert best. induction cs as [|[k n] cs IH]; intros best Hb; cbn [fold_left].
  { split_and!; [done|set_solver|by left]. }
  assert (Es : modal_step best (k, n) = if n >? fst best then (n, Some k) else best) by done.
  rewrite Es.
  destruct (Z.gtb_spec n (fst best)) as [Hgt|Hle].
  - destruct (IH (n, Some k)) as (H1 & H2 & H3); [simpl; lia|]. cbn [fst] in H1.
    split_and!; [lia| |].
    + intros k' n' [[= -> ->]|Hin]%elem_of_cons; [done|by eapply H2].
    + destruct H3 as [E|(k' & E & Hin)].
      * right. rewrite E. exists k. split; [done|left].
      * right. exists k'. split; [done|by right].
  - destruct (IH best Hb) as (H1 & H2 & H3). split_and!; [done| |].
    + intros k' n' [[= -> ->]|Hin]%elem_of_cons; [lia|by eapply H2].
    + destruct H3 as [E|(k' & E & Hin)]; [by left|]. right. exists k'. split; [done|by right].
Qed.

Lemma adjacent_count_spec stride ds :
  fold_left (fun n delta => if delta_magnitude delta =? stride then n + 1 else n) ds 0 =
  Z.of_nat (length (filter (fun d => delta_magnitude d = stride) ds)).
Proof.
  enough (H : forall n, fold_left (fun n delta => if delta_magnitude delta =? stride then n + 1 else n)
    ds n = n + Z.of_nat (length (filter (fun d => delta_magnitude d = stride) ds))) by (rewrite H; lia).
  induction ds as [|d ds IH]; intros n; cbn [fold_left]; [simpl; lia|]. rewrite IH, filter_cons.
  destruct (Z.eqb_spec (delta_magnitude d) stride), (decide (delta_magnitude d = stride));
    simpl; try lia; done.
Qed.

Lemma filter_ext_Forall {A} (P Q : A -> Prop) `{!forall x, Decision (P x)}
    `{!forall x, Decision (Q x)} (l : list A) :
  Forall (fun x => P x <-> Q x) l -> filter P l = filter Q l.
Proof.
  induction 1 as [|x l Hx _ IH]; [done|]. rewrite !filter_cons, IH.
  destruct (decide (P x)), (decide (Q x)); tauto.
Qed.

Lemma delta_magnitude_abs d : is_i64 d -> delta_magnitude d = Z.abs d.
Proof.
  intros Hd. unfold delta_magnitude, u64_of_i64. destruct (Z.ltb_spec d 0).
  - rewrite u64_wrap_id by int_lia. rewrite u64_add_small by int_lia. lia.
  - rewrite u64_wrap_id by int_lia. lia.
Qed.

(** ** Properties *)

(** The capacity chosen for a working-set class is the best one: it is one
    of the candidates, its ring and linked footprints both satisfy the rule of
    the class, and no other matching candidate is larger (smaller for the
    beyond-LLC class). With distinct valid candidates the selection fails
    only when no candidate satisfies the rule in both families. *)
Theorem select_common_capacity_optimal c cache xs :
  cache_evidence_u64 cache ->
  (forall r, select_common_capacity c cache xs = Returned r ->
     cs_selected r ∈ xs /\ candidate_matches cache c (cs_selected r) /\
     (forall x, x ∈ xs -> candidate_matches cache c x -> preferred c (cs_selected r) x)) /\
  (c <> WorkingSetClass_not_applicable -> is_power_of_two (cce_cache_line_bytes cache) = true ->
   cce_smaller_usable_l2_bytes cache <> 0 -> cce_producer_home_usable_llc_bytes cache <> 0 ->
   cache_evidence_small cache -> Forall candidate_valid xs -> NoDup (sfc_capacity <$> xs) ->
   (exists x, x ∈ xs /\ candidate_matches cache c x) ->
   exists r, select_common_capacity c cache xs = Returned r).
Proof.
  intros Hcache. unfold select_common_capacity. split.
  - intros r. case_bool_decide; [done|]. destruct (_ || _ || _ || _); [done|].
    destruct xs as [|x0 xs0] eqn:Exs; [done|]. rewrite <- Exs in *. clear Exs x0 xs0.
    destruct (select_loop c cache ∅ None xs) as [s|] eqn:E; [|done].
    apply (select_loop_spec cache c xs []) in E as (Hsel & _); [|done|simpl; set_solver|set_solver].
    destruct s as [y|]; [|done]. intros [= <-]. exact Hsel.
  - intros Hc Hl H2 H3 Hsmall Hv Hnd (x & Hx & Hm). rewrite bool_decide_false by done.
    assert (Hl0 : cce_cache_line_bytes cache <> 0) by (intros E; by rewrite E in Hl).
    rewrite (proj2 (Z.eqb_neq _ 0) Hl0), Hl, (proj2 (Z.eqb_neq _ 0) H2), (proj2 (Z.eqb_neq _ 0) H3).
    cbn [negb orb]. destruct xs as [|x0 xs0] eqn:Exs; [by apply not_elem_of_nil in Hx|].
    rewrite <- Exs in *. clear Exs x0 xs0.
    destruct (select_loop_total cache c xs ∅ None) as [s E]; [first [done|set_solver]..|]. rewrite E.
    apply (select_loop_spec cache c xs []) in E as (Hsel & _); [|done|simpl; set_solver|set_solver].
    destruct s as [y|]; [by eexists|]. by destruct (Hsel x Hx).
Qed.

Lemma select_common_capacity_optimal_witness :
  candidate_matches (mkCacheEvidence 64 65536 1048576) WorkingSetClass_l2_resident
    (mkCandidate 256 20000 30000).
Proof.
  refine (proj1 (proj2 (proj1 (select_common_capacity_optimal WorkingSetClass_l2_resident
    (mkCacheEvidence 64 65536 1048576)
    [mkCandidate 128 10000 15000; mkCandidate 256 20000 30000; mkCandidate 512 40000 60000] _)
    (mkCapacitySelection WorkingSetClass_l2_resident (mkCandidate 256 20000 30000)) _))).
  - vm_compute. repeat split; discriminate.
  - vm_compute. reflexivity.
Defined.

(** A node-order plan describes its order truthfully: the order is a
    permutation of all [capacity + 1] nodes (what the linked queue's set-up
    requires), the deltas go once around the arena, the adjacent count is the
    number of steps of exactly one stride, and the modal count is the largest
    number of times any nonzero delta occurs. *)
Theorem node_order_plan_truthful hmac sha config seed ns plan :
  is_u64 (noc_logical_capacity config) -> is_u64 (noc_node_stride_bytes config) ->
  NodeOrderPlan_make hmac sha config seed ns = Returned plan ->
  let s := nop_summary plan in
  nop_order plan ≡ₚ Z.of_nat <$> seq 0 (Z.to_nat (noc_logical_capacity config + 1)) /\
  permutation_scan (noc_logical_capacity config + 1) ∅ (nop_order plan) = true /\
  foldr Z.add 0 (nop_deltas plan) = 0 /\
  aps_adjacent_line_transition_count s =
    Z.of_nat (length (filter (fun d => Z.abs d = noc_node_stride_bytes config) (nop_deltas plan))) /\
  (forall d, d ∈ nop_deltas plan -> d <> 0 ->
     occurrences d (nop_deltas plan) <= aps_modal_nonzero_delta_count s) /\
  (forall d, aps_modal_nonzero_delta s = Some d ->
     d <> 0 /\ aps_modal_nonzero_delta_count s = occurrences d (nop_deltas plan)) /\
  (aps_modal_fraction_at_most_one_percent s = true <->
     100 * aps_modal_nonzero_delta_count s <= Z.of_nat (length (nop_deltas plan))).
Proof.
  intros Hc Hs. unfold NodeOrderPlan_make.
  destruct (negb _); [done|]. destruct (_ || _ || _ || _ || _ || _); [done|].
  destruct (str_empty ns); [done|]. destruct (Z.eqb_spec (noc_logical_capacity config) u64_max); [done|].
  destruct (derive_stream_key _ _ _ _) as [key|]; [|done].
  rewrite u64_add_small by int_lia.
  pose proof (make_permutation_cases (noc_logical_capacity config + 1) (draw key)
    ltac:(int_lia)) as Hperm.
  destruct (make_permutation _ _) as [order|]; [|done]. destruct Hperm as [Hpos Hperm].
  destruct (make_cyclic_address_deltas order _) as [deltas|] eqn:Hdel; [|done].
  destruct (ordered_index_sha256 _ _); [|done]. destruct (address_delta_sha256 _ _); [|done].
  unfold summarize. destruct (fold_left modal_step _ _) as [mc md] eqn:Hmodal.
  destruct (checked_product _ _ _); [|done]. intros [= <-]. simpl.
  assert (Hord : Forall is_u64 order).
  { rewrite Hperm. apply Forall_fmap, Forall_forall. intros i Hi. apply elem_of_seq in Hi.
    simpl. int_lia. }
  destruct (cyclic_deltas_cases order _ deltas Hord Hs Hdel) as (_ & Hdlen & Hd & Hsum).
  destruct (Permutation_scan (noc_logical_capacity config + 1) order ltac:(lia) Hperm) as [Hscan _].
  destruct (nonzero_counts_spec deltas) as [_ Hcounts].
  pose proof (modal_scan (nonzero_counts deltas) (0, None) ltac:(simpl; lia)) as Hscan2.
  rewrite Hmodal in Hscan2. cbn [fst snd] in Hscan2. destruct Hscan2 as (Hm0 & Hmax & Hatt).
  split_and!; try done.
  - rewrite adjacent_count_spec. do 2 f_equal. apply filter_ext_Forall, Forall_forall.
    intros d Hin. apply list_elem_of_lookup in Hin as [i Hi].
    destruct (Hd i d Hi) as [Hd64 _]. by rewrite delta_magnitude_abs.
  - intros d Hin Hnz. apply (Hmax d), Hcounts. done.
  - intros d ->. destruct Hatt as [E|(k & [= <-] & Hin)]; [discriminate E|].
    apply Hcounts in Hin as (? & _ & ->). done.
  - unfold one_percent_or_less. rewrite Z.leb_le.
    pose proof (Z.div_mod (Z.of_nat (length deltas)) 100 ltac:(lia)).
    pose proof (Z.mod_pos_bound (Z.of_nat (length deltas)) 100 ltac:(lia)). lia.
Qed.

Lemma node_order_plan_truthful_witness :
  exists plan, NodeOrderPlan_make example_hmac (fun b => b) (mkNodeOrderConfig 4 64 64 4096) []
    "ns" = Returned plan /\ foldr Z.add 0 (nop_deltas plan) = 0.
Proof.
  eexists. split; [vm_compute; reflexivity|].
  refine (proj1 (proj2 (proj2 (node_order_plan_truthful example_hmac (fun b => b)
    (mkNodeOrderConfig 4 64 64 4096) [] "ns" _ _ _ _))));
    [vm_compute; split; discriminate..|vm_compute; reflexivity].
Defined.
