(* ===== verification/Capture.v ===== *)
(** * Timestamp capture around one attempt

    Models [include/cpu_prefetch/timing/capture.hpp] and
    [src/timing/capture.cpp]: the producer's due attempt and the consumer's
    poll, with a clock read at every boundary and the linearization read taken
    inside the queue's boundary callback. The clock is a template parameter of
    the source: a state [C] with a [read]. The package is any [TimedPackage];
    the theorems use only its contract [TimedPackageLaws]. *)

From stdpp Require Import prelude list strings.
From Stdlib Require Import ZArith Lia.
From S2P Require Import Prelude Model QueueCommon RingSpsc Timing Records Packages.

#[local] Open Scope Z_scope.

Inductive CaptureStatus : Set :=
| CaptureStatus_complete
| CaptureStatus_empty
| CaptureStatus_clock_failure
| CaptureStatus_queue_failure
| CaptureStatus_record_failure.

Inductive TimestampBoundary : Set :=
| TimestampBoundary_producer_handle_begin
| TimestampBoundary_record_lookup_completion
| TimestampBoundary_enqueue_invocation
| TimestampBoundary_enqueue_linearization
| TimestampBoundary_enqueue_attempt_completion
| TimestampBoundary_dequeue_invocation
| TimestampBoundary_dequeue_linearization
| TimestampBoundary_dequeue_completion
| TimestampBoundary_consumer_action_completion.

#[export] Instance CaptureStatus_eq_dec : EqDecision CaptureStatus.
Proof. solve_decision. Defined.

Record ProducerObservation : Set := mkProducerObservation {
  po_logical_sequence : Z;
  po_record_index : Z;
  po_scheduled_arrival : Z;
  po_producer_handle_begin : ClockSample;
  po_record_lookup_completion : ClockSample;
  po_enqueue_invocation : ClockSample;
  po_enqueue_linearization : option ClockSample;
  po_enqueue_attempt_completion : ClockSample;
  po_outcome : ProducerOutcome;
  po_accepted_ordinal : option Z
}.

Record ConsumerObservation : Set := mkConsumerObservation {
  co_consumed_ordinal : Z;
  co_observed_record_index : Z;
  co_dequeue_invocation : ClockSample;
  co_dequeue_linearization : ClockSample;
  co_dequeue_completion : ClockSample;
  co_consumer_action_completion : ClockSample
}.

Record ProducerCaptureResult : Set := mkProducerCapture {
  pc_status : CaptureStatus;
  pc_failed_boundary : option TimestampBoundary;
  pc_clock_status : ClockReadStatus;
  pc_observation : option ProducerObservation
}.

Record ConsumerCaptureResult : Set := mkConsumerCapture {
  cc_status : CaptureStatus;
  cc_failed_boundary : option TimestampBoundary;
  cc_clock_status : ClockReadStatus;
  cc_record_status : RecordAccessStatus;
  cc_observation : option ConsumerObservation
}.

Definition producer_clock_failure (boundary : TimestampBoundary) (status : ClockReadStatus)
  : ProducerCaptureResult :=
  mkProducerCapture CaptureStatus_clock_failure (Some boundary) status None.

Definition consumer_clock_failure (boundary : TimestampBoundary) (status : ClockReadStatus)
  : ConsumerCaptureResult :=
  mkConsumerCapture CaptureStatus_clock_failure (Some boundary) status
    RecordAccessStatus_valid None.

Definition clock_ok (r : ClockReadResult) : bool := bool_decide (crr_status r = ClockReadStatus_ok).

(** The reading of a [BoundaryObserver] before its callback has run. *)
Definition no_reading : ClockReadResult :=
  mkClockRead ClockReadStatus_call_failed (mkClockSample 0 0).

Section Capture.

Context {C P : Type} (clock_read : C -> ClockReadResult * C) `{!TimedPackage P}.

(** The callback: read the clock, keep the reading, report whether it is good. *)
Definition boundary_observer (s : C * ClockReadResult) : bool * (C * ClockReadResult) :=
  let '(reading, clock) := clock_read (fst s) in
  (clock_ok reading, (clock, reading)).

Definition capture_due_producer_attempt (arena : EventArena) (logical_sequence scheduled_arrival
    candidate_accepted_ordinal : Z) (clock : C) (package : P) : C * P * ProducerCaptureResult :=
  let '(handle_begin, clock) := clock_read clock in
  if negb (clock_ok handle_begin) then
    (clock, package, producer_clock_failure TimestampBoundary_producer_handle_begin
                       (crr_status handle_begin))
  else
    let '(record_index, record) := select arena logical_sequence in
    let '(lookup_completion, clock) := clock_read clock in
    if negb (clock_ok lookup_completion) then
      (clock, package, producer_clock_failure TimestampBoundary_record_lookup_completion
                         (crr_status lookup_completion))
    else
      match EventPointer_from record with
      | None =>
          (clock, package, mkProducerCapture CaptureStatus_record_failure None
                             ClockReadStatus_ok None)
      | Some pointer =>
          let '(enqueue_invocation, clock) := clock_read clock in
          if negb (clock_ok enqueue_invocation) then
            (clock, package, producer_clock_failure TimestampBoundary_enqueue_invocation
                               (crr_status enqueue_invocation))
          else
            let '(package, s, queue_result) :=
              tp_enqueue _ boundary_observer pointer package (clock, no_reading) in
            let '(clock, reading) := s in
            match ber_status queue_result with
            | BoundaryCaptureStatus_capture_failed =>
                (clock, package, producer_clock_failure TimestampBoundary_enqueue_linearization
                                   (crr_status reading))
            | BoundaryCaptureStatus_complete =>
                let '(attempt_completion, clock) := clock_read clock in
                if negb (clock_ok attempt_completion) then
                  (clock, package,
                   producer_clock_failure TimestampBoundary_enqueue_attempt_completion
                     (crr_status attempt_completion))
                else
                  let accepted := bool_decide (ber_result queue_result = EnqueueResult_accepted) in
                  (clock, package,
                   mkProducerCapture CaptureStatus_complete None ClockReadStatus_ok
                     (Some (mkProducerObservation logical_sequence record_index scheduled_arrival
                        (crr_sample handle_begin) (crr_sample lookup_completion)
                        (crr_sample enqueue_invocation)
                        (if accepted then Some (crr_sample reading) else None)
                        (crr_sample attempt_completion)
                        (if accepted then ProducerOutcome_accepted else ProducerOutcome_full)
                        (if accepted then Some candidate_accepted_ordinal else None))))
            end
      end.

(** The poll also threads the consumer's running state. *)
Definition capture_dequeue_poll (arena : EventArena) (consumed_ordinal : Z)
    (clock : C) (package : P) (consumer_state : Z) : C * P * Z * ConsumerCaptureResult :=
  let '(dequeue_invocation, clock) := clock_read clock in
  if negb (clock_ok dequeue_invocation) then
    (clock, package, consumer_state,
     consumer_clock_failure TimestampBoundary_dequeue_invocation (crr_status dequeue_invocation))
  else
    let '(package, s, queue_result) :=
      tp_dequeue _ boundary_observer package (clock, no_reading) in
    let '(clock, reading) := s in
    match bdr_status queue_result with
    | BoundaryCaptureStatus_capture_failed =>
        (clock, package, consumer_state,
         consumer_clock_failure TimestampBoundary_dequeue_linearization (crr_status reading))
    | BoundaryCaptureStatus_complete =>
        match dr_status (bdr_result queue_result) with
        | DequeueStatus_empty =>
            (clock, package, consumer_state,
             mkConsumerCapture CaptureStatus_empty None ClockReadStatus_ok
               RecordAccessStatus_valid None)
        | DequeueStatus_recycler_invariant_failure =>
            (clock, package, consumer_state,
             mkConsumerCapture CaptureStatus_queue_failure None ClockReadStatus_ok
               RecordAccessStatus_valid None)
        | DequeueStatus_item =>
            let '(dequeue_completion, clock) := clock_read clock in
            if negb (clock_ok dequeue_completion) then
              (clock, package, consumer_state,
               consumer_clock_failure TimestampBoundary_dequeue_completion
                 (crr_status dequeue_completion))
            else
              let '(access, consumer_state) :=
                access_and_mix arena (dr_event (bdr_result queue_result)) consumer_state in
              if negb (bool_decide (ra_status access = RecordAccessStatus_valid)) then
                (clock, package, consumer_state,
                 mkConsumerCapture CaptureStatus_record_failure None ClockReadStatus_ok
                   (ra_status access) None)
              else
                let '(action_completion, clock) := clock_read clock in
                if negb (clock_ok action_completion) then
                  (clock, package, consumer_state,
                   consumer_clock_failure TimestampBoundary_consumer_action_completion
                     (crr_status action_completion))
                else
                  (clock, package, consumer_state,
                   mkConsumerCapture CaptureStatus_complete None ClockReadStatus_ok
                     RecordAccessStatus_valid
                     (Some (mkConsumerObservation consumed_ordinal (ra_record_index access)
                        (crr_sample dequeue_invocation) (crr_sample reading)
                        (crr_sample dequeue_completion) (crr_sample action_completion))))
        end
    end.

End Capture.

Definition make_producer_record (run_id : Identifier) (o : ProducerObservation) : ProducerRecord :=
  mkProducerRecord run_id (po_logical_sequence o) (po_record_index o) (po_scheduled_arrival o)
    (relative_picoseconds (po_producer_handle_begin o))
    (relative_picoseconds (po_record_lookup_completion o))
    (relative_picoseconds (po_enqueue_invocation o))
    (relative_picoseconds <$> po_enqueue_linearization o)
    (relative_picoseconds (po_enqueue_attempt_completion o))
    (po_outcome o) (po_accepted_ordinal o).

Definition make_consumer_record (run_id : Identifier) (o : ConsumerObservation) : ConsumerRecord :=
  mkConsumerRecord run_id (co_consumed_ordinal o) (co_observed_record_index o)
    (relative_picoseconds (co_dequeue_invocation o))
    (relative_picoseconds (co_dequeue_linearization o))
    (relative_picoseconds (co_dequeue_completion o))
    (relative_picoseconds (co_consumer_action_completion o)).

(** ** What is known of the clock

    [now c] is the last relative time read. [CLOCK_MONOTONIC_RAW] does not go
    back: a good read returns a value not below it. Both times of a sample are
    64-bit values. *)
Definition sample_u64 (s : ClockSample) : Prop :=
  is_u64 (absolute_nanoseconds s) /\ is_u64 (relative_picoseconds s).

Definition clock_monotone {C : Type} (clock_read : C -> ClockReadResult * C) (now : C -> Z) : Prop :=
  forall c, let '(r, c') := clock_read c in
    now c <= now c' /\
    (crr_status r = ClockReadStatus_ok ->
     relative_picoseconds (crr_sample r) = now c' /\ sample_u64 (crr_sample r)).

(** ** Lemmas *)

Section Laws.

Context {C P : Type} (clock_read : C -> ClockReadResult * C) (now : C -> Z).
Context (Hclock : clock_monotone clock_read now).
Context `{!TimedPackage P} `{!TimedPackageLaws P}.

Lemma clock_step c r c' :
  clock_read c = (r, c') ->
  now c <= now c' /\
  (clock_ok r = true -> relative_picoseconds (crr_sample r) = now c' /\ sample_u64 (crr_sample r)).
Proof.
  intros E. pose proof (Hclock c) as H. rewrite E in H. destruct H as [H1 H2].
  split; [done|]. intros Hok. apply H2. by apply bool_decide_eq_true in Hok.
Qed.

(** The boundary callback is one clock read. *)
Lemma boundary_observer_step c s :
  fst (boundary_observer clock_read (c, s)) = clock_ok (fst (clock_read c)) /\
  snd (boundary_observer clock_read (c, s)) = (snd (clock_read c), fst (clock_read c)).
Proof. unfold boundary_observer. simpl. by destruct (clock_read c). Qed.

(** The observation of a completed attempt: its identity, its outcome, its
    timestamps in order; accepted-only fields present exactly when accepted. *)
Definition producer_observation_ok (n arrival ordinal index : Z) (accepted : bool) (t0 t1 : Z)
    (o : ProducerObservation) : Prop :=
  po_logical_sequence o = n /\ po_record_index o = index /\ po_scheduled_arrival o = arrival /\
  Forall sample_u64 [po_producer_handle_begin o; po_record_lookup_completion o;
    po_enqueue_invocation o; po_enqueue_attempt_completion o] /\
  let b := relative_picoseconds (po_producer_handle_begin o) in
  let c := relative_picoseconds (po_record_lookup_completion o) in
  let u := relative_picoseconds (po_enqueue_invocation o) in
  let r := relative_picoseconds (po_enqueue_attempt_completion o) in
  t0 <= b /\ b <= c /\ c <= u /\ u <= r /\ r = t1 /\
  if accepted then
    po_outcome o = ProducerOutcome_accepted /\ po_accepted_ordinal o = Some ordinal /\
    exists p, po_enqueue_linearization o = Some p /\ sample_u64 p /\
      u <= relative_picoseconds p /\ relative_picoseconds p <= r
  else
    po_outcome o = ProducerOutcome_full /\ po_accepted_ordinal o = None /\
    po_enqueue_linearization o = None.

Lemma capture_producer_cases arena n arrival ordinal c p l :
  arena_wf arena -> 0 < arena_storage arena -> 0 <= n -> tp_repr p l ->
  let '(c', p', r) := capture_due_producer_attempt clock_read arena n arrival ordinal c p in
  tp_capacity p' = tp_capacity p /\ now c <= now c' /\
  match pc_status r with
  | CaptureStatus_complete =>
      exists o index, pc_observation r = Some o /\ select arena n = (index, line_at arena index) /\
        producer_observation_ok n arrival ordinal index
          (Z.of_nat (length l) <? tp_capacity p) (now c) (now c') o /\
        tp_repr p' (if Z.of_nat (length l) <? tp_capacity p
                    then l ++ [line_at arena index] else l)
  | CaptureStatus_clock_failure => pc_observation r = None
  | _ => False
  end.
Proof.
  intros Ha Hbase Hn Hr. unfold capture_due_producer_attempt.
  destruct (clock_read c) as [b c1] eqn:E1. apply clock_step in E1 as [L1 S1].
  destruct (clock_ok b); [|done]. cbn [negb]. destruct (S1 eq_refl) as [T1 U1].
  destruct (select_lookup arena Ha n Hn) as (index & _ & Hindex & ->).
  destruct (clock_read c1) as [lk c2] eqn:E2. apply clock_step in E2 as [L2 S2].
  destruct (clock_ok lk); [|split; [done|]; split; [lia|done]]. cbn [negb]. destruct (S2 eq_refl) as [T2 U2].
  pose proof (aw_line arena Ha) as Hline. unfold sizeof_EventRecord in Hline.
  assert (line_at arena index <> nullptr) as Hnn by (unfold line_at, nullptr; nia).
  unfold EventPointer_from. rewrite (proj2 (Z.eqb_neq _ _) Hnn).
  destruct (clock_read c2) as [u c3] eqn:E3. apply clock_step in E3 as [L3 S3].
  destruct (clock_ok u); [|split; [done|]; split; [lia|done]]. cbn [negb]. destruct (S3 eq_refl) as [T3 U3].
  pose proof (tp_enqueue_law _ (boundary_observer clock_read) (line_at arena index) p l
    (c3, no_reading) Hr Hnn) as Hq.
  destruct (boundary_observer_step c3 no_reading) as [Ho1 Ho2]. rewrite Ho1, Ho2 in Hq.
  destruct (clock_read c3) as [lin c4] eqn:E4. pose proof (clock_step _ _ _ E4) as [L4 S4]. cbn [fst snd] in Hq.
  destruct (Z.ltb_spec (Z.of_nat (length l)) (tp_capacity p)).
  - destruct Hq as (p' & Hcap & Hq). destruct (clock_ok lin).
    + destruct Hq as [-> Hr']. cbn [ber_status ber_result]. destruct (S4 eq_refl) as [T4 U4].
      destruct (clock_read c4) as [r c5] eqn:E5. apply clock_step in E5 as [L5 S5].
      destruct (clock_ok r); cbn [negb]; [|split; [done|]; split; [lia|done]].
      destruct (S5 eq_refl) as [T5 U5]. split; [done|]. split; [lia|]. cbn [pc_status].
      eexists _, index. split; [reflexivity|]. split; [done|]. split; [|done].
      unfold producer_observation_ok; simpl. split_and!; try lia; try done; [by rewrite !Forall_cons, Forall_nil|].
      exists (crr_sample lin). split_and!; [done|done|lia|lia].
    + rewrite Hq. cbn [ber_status]. split; [done|]. split; [lia|done].
  - destruct Hq as (p' & Hcap & Hr' & ->). cbn [ber_status ber_result].
    rewrite E4.
    destruct (clock_ok lin); cbn [negb]; [|split; [done|]; split; [lia|done]].
    destruct (S4 eq_refl) as [T4 U4]. split; [done|]. split; [lia|]. cbn [pc_status].
    eexists _, index. split; [reflexivity|]. split; [done|]. split; [|done].
    unfold producer_observation_ok; simpl. split_and!; try lia; try done. by rewrite !Forall_cons, Forall_nil.
Qed.

Definition consumer_observation_ok (ordinal index t0 t1 : Z) (o : ConsumerObservation) : Prop :=
  co_consumed_ordinal o = ordinal /\ co_observed_record_index o = index /\
  Forall sample_u64 [co_dequeue_invocation o; co_dequeue_linearization o;
    co_dequeue_completion o; co_consumer_action_completion o] /\
  let v := relative_picoseconds (co_dequeue_invocation o) in
  let q := relative_picoseconds (co_dequeue_linearization o) in
  let r := relative_picoseconds (co_dequeue_completion o) in
  let f := relative_picoseconds (co_consumer_action_completion o) in
  t0 <= v /\ v <= q /\ q <= r /\ r <= f /\ f = t1.

(** Events in the queue are record addresses. *)
Definition holds_records (arena : EventArena) (l : list Z) : Prop :=
  Forall (fun e => exists i, 0 <= i < arena_capacity arena /\ e = line_at arena i) l.

Lemma capture_consumer_cases arena ordinal c p s l :
  arena_wf arena -> tp_repr p l -> holds_records arena l ->
  let '(c', p', s', r) := capture_dequeue_poll clock_read arena ordinal c p s in
  tp_capacity p' = tp_capacity p /\ now c <= now c' /\
  match cc_status r with
  | CaptureStatus_complete =>
      exists o index line l', cc_observation r = Some o /\ l = line_at arena index :: l' /\
        arena_lines arena !! Z.to_nat index = Some line /\
        s' = mix_consumer_state s index (er_payload (line_record line)) /\
        consumer_observation_ok ordinal index (now c) (now c') o /\ tp_repr p' l'
  | CaptureStatus_empty =>
      l = [] /\ tp_repr p' [] /\ s' = s /\ cc_observation r = None
  | CaptureStatus_clock_failure => cc_observation r = None
  | _ => False
  end.
Proof.
  intros Ha Hr Hl. unfold capture_dequeue_poll.
  destruct (clock_read c) as [v c1] eqn:E1. apply clock_step in E1 as [L1 S1].
  destruct (clock_ok v); [|done]. cbn [negb]. destruct (S1 eq_refl) as [T1 U1].
  destruct (tp_dequeue_law _ (boundary_observer clock_read) p l (c1, no_reading) Hr)
    as (p' & Hcap & Hq).
  destruct (boundary_observer_step c1 no_reading) as [Ho1 Ho2]. rewrite Ho1, Ho2 in Hq.
  destruct l as [|e l'].
  { destruct Hq as [Hr' ->]. cbn. done. }
  destruct (clock_read c1) as [q c2] eqn:E2. apply clock_step in E2 as [L2 S2]. cbn [fst snd] in Hq.
  destruct (clock_ok q).
  2: { destruct Hq as [Hr' ->]. cbn. split; [done|]. split; [lia|done]. }
  destruct Hq as [Hr' ->]. cbn [bdr_status bdr_result dr_status dr_event]. destruct (S2 eq_refl) as [T2 U2].
  destruct (clock_read c2) as [d c3] eqn:E3. apply clock_step in E3 as [L3 S3].
  destruct (clock_ok d); [|split; [done|]; split; [lia|done]]. cbn [negb]. destruct (S3 eq_refl) as [T3 U3].
  apply Forall_cons in Hl as [(index & Hindex & ->) _].
  destruct (access_at_line arena Ha index s Hindex) as (line & Hline & ->).
  cbn [ra_status ra_record_index]. rewrite bool_decide_true by done. cbn [negb].
  destruct (clock_read c3) as [f c4] eqn:E4. apply clock_step in E4 as [L4 S4].
  destruct (clock_ok f); [|split; [done|]; split; [lia|done]]. cbn [negb]. destruct (S4 eq_refl) as [T4 U4].
  split; [done|]. split; [lia|]. cbn [cc_status].
  eexists _, index, line, l'. split_and!; try done.
  unfold consumer_observation_ok; simpl. split_and!; lia || done || by rewrite !Forall_cons, Forall_nil.
Qed.

End Laws.

(** A clock that advances one nanosecond per read, for a few hours. *)
Definition ticking_clock (c : Z) : ClockReadResult * Z :=
  (mkClockRead (if (0 <=? c) && (c <? 10000000000000) then ClockReadStatus_ok
                else ClockReadStatus_overflow)
     (mkClockSample (c + 1) (1000 * (c + 1))), c + 1).

Lemma ticking_clock_monotone : clock_monotone ticking_clock (fun c => 1000 * c).
Proof.
  intros c. unfold ticking_clock. cbn. split; [lia|].
  destruct (Z.leb_spec 0 c), (Z.ltb_spec c 10000000000000); try done. intros _.
  split; [done|]. unfold sample_u64, is_u64, u64_max. simpl absolute_nanoseconds.
  simpl relative_picoseconds. lia.
Qed.

Definition example_package : Package := mkPackage (Package_r0 (mkRing 4 64 32 128 [0; 0; 0; 0] 0 0)) [].

Lemma example_package_repr : package_repr example_package [].
Proof.
  split; [constructor|]. eapply (ring_make_repr 4 64); [vm_compute; split; discriminate..|].
  reflexivity.
Qed.

Lemma example_arena_wf : arena_wf example_arena_value.
Proof.
  eapply (EventArena_make_wf example_hmac (fun bytes => bytes) 4096 example_config);
    [vm_compute; split; discriminate..|vm_compute; reflexivity].
Qed.

(** ** Properties *)

(** The producer's capture, for every package that keeps its contract and
    every clock that does not go back: a completed attempt records the selected
    record, ACCEPTED exactly when there was room (with the linearization time
    and ordinal, and the record now last in the queue) and FULL otherwise (with
    neither, the queue unchanged), its boundary times in order; a clock failure
    yields no observation; no other status is possible. *)
Theorem capture_producer_correct {C P : Type} (clock_read : C -> ClockReadResult * C)
    (now : C -> Z) `{!TimedPackage P} `{!TimedPackageLaws P} arena n arrival ordinal c (p : P) l :
  clock_monotone clock_read now ->
  arena_wf arena -> 0 < arena_storage arena -> 0 <= n -> tp_repr p l ->
  let '(c', p', r) := capture_due_producer_attempt clock_read arena n arrival ordinal c p in
  tp_capacity p' = tp_capacity p /\ now c <= now c' /\
  match pc_status r with
  | CaptureStatus_complete =>
      exists o index, pc_observation r = Some o /\ select arena n = (index, line_at arena index) /\
        producer_observation_ok n arrival ordinal index
          (Z.of_nat (length l) <? tp_capacity p) (now c) (now c') o /\
        tp_repr p' (if Z.of_nat (length l) <? tp_capacity p
                    then l ++ [line_at arena index] else l)
  | CaptureStatus_clock_failure => pc_observation r = None
  | _ => False
  end.
Proof. intros Hclock. by apply capture_producer_cases. Qed.

Lemma capture_producer_correct_witness :
  let '(c', p', r) := capture_due_producer_attempt ticking_clock example_arena_value 3 17 0 5
                        example_package in
  pc_status r = CaptureStatus_complete /\ 1000 * 5 <= 1000 * c'.
Proof.
  pose proof (capture_producer_correct ticking_clock (fun c => 1000 * c) example_arena_value
    3 17 0 5 example_package [] ticking_clock_monotone example_arena_wf
    ltac:(vm_compute; reflexivity) ltac:(lia) example_package_repr) as H.
  destruct (capture_due_producer_attempt ticking_clock example_arena_value 3 17 0 5
              example_package) as [[c' p'] r] eqn:E.
  split; [vm_compute in E; injection E as <- <- <-; reflexivity|]. exact (proj1 (proj2 H)).
Defined.

(** The consumer's capture, under the same assumptions: EMPTY exactly
    leaves everything as it was on an empty queue; a completed poll takes the
    oldest record, mixes its index and payload into the running state, and
    records its four boundary times in order; a clock failure yields no
    observation; queue and record failures do not occur. *)
Theorem capture_consumer_correct {C P : Type} (clock_read : C -> ClockReadResult * C)
    (now : C -> Z) `{!TimedPackage P} `{!TimedPackageLaws P} arena ordinal c (p : P) s l :
  clock_monotone clock_read now ->
  arena_wf arena -> tp_repr p l -> holds_records arena l ->
  let '(c', p', s', r) := capture_dequeue_poll clock_read arena ordinal c p s in
  tp_capacity p' = tp_capacity p /\ now c <= now c' /\
  match cc_status r with
  | CaptureStatus_complete =>
      exists o index line l', cc_observation r = Some o /\ l = line_at arena index :: l' /\
        arena_lines arena !! Z.to_nat index = Some line /\
        s' = mix_consumer_state s index (er_payload (line_record line)) /\
        consumer_observation_ok ordinal index (now c) (now c') o /\ tp_repr p' l'
  | CaptureStatus_empty =>
      l = [] /\ tp_repr p' [] /\ s' = s /\ cc_observation r = None
  | CaptureStatus_clock_failure => cc_observation r = None
  | _ => False
  end.
Proof. intros Hclock. by apply capture_consumer_cases. Qed.

Lemma capture_consumer_correct_witness :
  let '(c', p', s', r) := capture_dequeue_poll ticking_clock example_arena_value 0 5
                            example_package 11 in
  cc_status r = CaptureStatus_empty /\ tp_capacity p' = 4.
Proof.
  pose proof (capture_consumer_correct ticking_clock (fun c => 1000 * c) example_arena_value
    0 5 example_package 11 [] ticking_clock_monotone example_arena_wf
    example_package_repr (proj2 (Forall_nil _) I)) as H.
  destruct (capture_dequeue_poll ticking_clock example_arena_value 0 5 example_package 11)
    as [[[c' p'] s'] r] eqn:E.
  split; [vm_compute in E; injection E as <- <- <- <-; reflexivity|]. exact (proj1 H).
Defined.
