(* ===== verification/Semantic.v ===== *)
(** * Semantic validation of schedules and observation rows

    Models the part of [src/protocol/semantic.cpp] that checks schedule records
    and raw-observation envelopes ([validate_schedule], [validate_producer],
    [validate_consumer], [validate_joined], [validate_raw]), with the record
    types it reads from [include/cpu_prefetch/protocol/model.hpp]. Fields that
    hold JSON documents or provenance no validator of this file reads are left
    out of the records. *)

From stdpp Require Import prelude list strings.
From Stdlib Require Import ZArith Lia.
From S2P Require Import Prelude Validation Model Documents.
From S2P Require Import LifecycleRuntime Timing Capture.

#[local] Open Scope Z_scope.

(** [checked_add]: the sum, when it fits. *)
Definition semantic_checked_add (left right : Z) : option Z :=
  if right >? u64_sub u64_max left then None else Some (u64_add left right).

(** ** Schedules *)

Definition deadline_path (index : Z) : string :=
  ("$out/deadline_storage/deadline_ticks/" +:+ std_to_string index)%string.

(** The checks of one decoded deadline. *)
Definition decoded_errors (origin horizon_end index : Z) (previous : option Z) (deadline : Z) :
    list ValidationError :=
  error_when (match previous with Some p => deadline <? p | None => false end)
    (mkError ErrorCategory_cross_field (deadline_path index) "SCH-NONDECREASING"
       "decoded deadlines must be nondecreasing") ++
  error_when ((deadline <? origin) || (deadline >=? horizon_end))
    (mkError ErrorCategory_cross_field (deadline_path index) "SCH-HALF-OPEN"
       "decoded deadline is outside [origin, origin+horizon)").

(** The decoding loop, [accumulated] the sum of the deltas so far. *)
Fixpoint decode_loop (delta : bool) (origin horizon_end index accumulated : Z)
    (previous : option Z) (encoded : list Z) : list ValidationError :=
  match encoded with
  | [] => []
  | value :: rest =>
      match (if delta then semantic_checked_add accumulated value else Some value) with
      | None =>
          mkError ErrorCategory_out_of_range (deadline_path index) "SCH-DELTA-OVERFLOW"
            "delta decoding overflows the 64-bit tick domain" ::
          decode_loop delta origin horizon_end (index + 1) accumulated previous rest
      | Some deadline =>
          decoded_errors origin horizon_end index previous deadline ++
          decode_loop delta origin horizon_end (index + 1)
            (if delta then deadline else accumulated) (Some deadline) rest
      end
  end.

Definition validate_schedule (schedule : ScheduleRecord) : list ValidationError :=
  error_when (sr_horizon_ticks schedule =? 0)
    (mkError ErrorCategory_out_of_range "$out/horizon_ticks" "SCH-HORIZON"
       "schedule horizon must be positive") ++
  error_when (er_denominator_ticks (sr_nominal_offered_rate schedule) =? 0)
    (mkError ErrorCategory_out_of_range "$out/nominal_offered_rate/denominator_ticks"
       "SCH-RATE-DENOMINATOR" "exact rate denominator must be positive") ++
  error_when (bool_decide (sr_schedule_kind schedule = ScheduleKind_confirmatory) &&
              negb (bool_decide (sr_arrival_family schedule =
                                 ArrivalFamily_poisson_exponential)))
    (mkError ErrorCategory_cross_field "$out/arrival_family" "SCH-CONFIRMATORY-FAMILY"
       "confirmatory schedules require POISSON_EXPONENTIAL arrivals") ++
  match sr_deadline_storage schedule with
  | ExternalScheduleStorage _ _ row_count _ _ =>
      error_when (negb (row_count =? sr_offered_count schedule))
        (mkError ErrorCategory_cross_field "$out/deadline_storage/row_count" "SCH-ROW-COUNT"
           "external schedule row count must equal offered_count")
  | InlineDeadlineStorage encoded =>
      error_when (negb (Z.of_nat (length encoded) =? sr_offered_count schedule))
        (mkError ErrorCategory_cross_field "$out/deadline_storage/deadline_ticks"
           "SCH-DECODED-COUNT" "decoded deadline count must equal offered_count") ++
      match semantic_checked_add (sr_origin_ticks schedule) (sr_horizon_ticks schedule) with
      | None =>
          [mkError ErrorCategory_out_of_range "$out/horizon_ticks" "SCH-HORIZON-OVERFLOW"
             "origin plus horizon overflows the 64-bit tick domain"]
      | Some horizon_end =>
          decode_loop
            (bool_decide (sr_deadline_encoding schedule = DeadlineEncoding_delta_integer_ticks))
            (sr_origin_ticks schedule) horizon_end 0 (sr_origin_ticks schedule) None encoded
      end
  end.

(** ** Observation rows *)

Definition validate_producer (row : ProducerRecord) (envelope_run_id : Identifier)
    (path : string) : list ValidationError :=
  error_when (negb (bool_decide (pr_run_id row = envelope_run_id)))
    (mkError ErrorCategory_reference_mismatch (path +:+ "/run_id")%string "DAT-RUN-ID-MATCH"
       "row run_id must match its envelope") ++
  error_when
    (negb ((pr_scheduled_arrival row <=? pr_producer_handle_begin row) &&
           (pr_producer_handle_begin row <=? pr_record_lookup_completion row) &&
           (pr_record_lookup_completion row <=? pr_enqueue_invocation row) &&
           (pr_enqueue_invocation row <=? pr_enqueue_attempt_completion row)))
    (mkError ErrorCategory_cross_field path "TIM-PRODUCER-ORDER"
       "producer timestamps violate their protocol order") ++
  match pr_outcome row with
  | ProducerOutcome_accepted =>
      match pr_enqueue_linearization row, pr_accepted_ordinal row with
      | Some linearization, Some _ =>
          error_when ((linearization <? pr_enqueue_invocation row) ||
                      (linearization >? pr_enqueue_attempt_completion row))
            (mkError ErrorCategory_cross_field (path +:+ "/enqueue_linearization")%string
               "TIM-ENQUEUE-LINEARIZATION"
               "enqueue linearization must lie between invocation and completion")
      | _, _ =>
          [mkError ErrorCategory_missing_field path "RAW-ACCEPTED-FIELDS"
             "accepted row requires linearization and accepted ordinal"]
      end
  | ProducerOutcome_full =>
      error_when (match pr_enqueue_linearization row, pr_accepted_ordinal row with
                  | None, None => false
                  | _, _ => true
                  end)
        (mkError ErrorCategory_cross_field path "RAW-FULL-FIELDS"
           "FULL row must not have accepted-only fields")
  end.

Definition validate_consumer (row : ConsumerRecord) (envelope_run_id : Identifier)
    (path : string) : list ValidationError :=
  error_when (negb (bool_decide (cr_run_id row = envelope_run_id)))
    (mkError ErrorCategory_reference_mismatch (path +:+ "/run_id")%string "DAT-RUN-ID-MATCH"
       "row run_id must match its envelope") ++
  error_when
    (negb ((cr_dequeue_invocation row <=? cr_dequeue_linearization row) &&
           (cr_dequeue_linearization row <=? cr_dequeue_completion row) &&
           (cr_dequeue_completion row <=? cr_consumer_action_completion row)))
    (mkError ErrorCategory_cross_field path "TIM-CONSUMER-ORDER"
       "consumer timestamps violate their protocol order").

(** The [expect] lambda. *)
Definition expect_interval (path : string) (actual calculated : Z) (field rule : string) :
    list ValidationError :=
  error_when (negb (actual =? calculated))
    (mkError ErrorCategory_cross_field (path +:+ "/" +:+ field)%string rule
       "derived interval does not equal its timestamp equation").

Definition joined_order (row : JoinedRecord) : bool :=
  (jr_scheduled_arrival row <=? jr_producer_handle_begin row) &&
  (jr_producer_handle_begin row <=? jr_record_lookup_completion row) &&
  (jr_record_lookup_completion row <=? jr_enqueue_invocation row) &&
  (jr_enqueue_invocation row <=? jr_enqueue_linearization row) &&
  (jr_enqueue_linearization row <=? jr_enqueue_attempt_completion row) &&
  (jr_dequeue_invocation row <=? jr_dequeue_linearization row) &&
  (jr_dequeue_linearization row <=? jr_dequeue_completion row) &&
  (jr_dequeue_completion row <=? jr_consumer_action_completion row) &&
  (jr_enqueue_linearization row <=? jr_dequeue_linearization row).

Definition additive_sum (row : JoinedRecord) : option Z :=
  match semantic_checked_add (jr_admission_delay row) (jr_queue_residence row) with
  | Some partial => semantic_checked_add partial (jr_post_dequeue_delivery_interval row)
  | None => None
  end.

Definition validate_joined (row : JoinedRecord) (envelope_run_id : Identifier)
    (path : string) : list ValidationError :=
  error_when (negb (bool_decide (jr_run_id row = envelope_run_id)))
    (mkError ErrorCategory_reference_mismatch (path +:+ "/run_id")%string "DAT-RUN-ID-MATCH"
       "row run_id must match its envelope") ++
  if negb (joined_order row) then
    [mkError ErrorCategory_cross_field path "TIM-JOINED-ORDER"
       "joined timestamps violate producer, consumer, or queue order"]
  else
    expect_interval path (jr_producer_lateness row)
      (u64_sub (jr_producer_handle_begin row) (jr_scheduled_arrival row))
      "producer_lateness" "TIM-EQ-PRODUCER-LATENESS" ++
    expect_interval path (jr_pointer_lookup_interval row)
      (u64_sub (jr_record_lookup_completion row) (jr_producer_handle_begin row))
      "pointer_lookup_interval" "TIM-EQ-POINTER-LOOKUP" ++
    expect_interval path (jr_enqueue_service_time row)
      (u64_sub (jr_enqueue_attempt_completion row) (jr_enqueue_invocation row))
      "enqueue_service_time" "TIM-EQ-ENQUEUE-SERVICE" ++
    expect_interval path (jr_admission_delay row)
      (u64_sub (jr_enqueue_linearization row) (jr_scheduled_arrival row))
      "admission_delay" "TIM-EQ-ADMISSION" ++
    expect_interval path (jr_queue_residence row)
      (u64_sub (jr_dequeue_linearization row) (jr_enqueue_linearization row))
      "queue_residence" "TIM-EQ-RESIDENCE" ++
    expect_interval path (jr_dequeue_service_time row)
      (u64_sub (jr_dequeue_completion row) (jr_dequeue_invocation row))
      "dequeue_service_time" "TIM-EQ-DEQUEUE-SERVICE" ++
    expect_interval path (jr_post_dequeue_delivery_interval row)
      (u64_sub (jr_consumer_action_completion row) (jr_dequeue_linearization row))
      "post_dequeue_delivery_interval" "TIM-EQ-DELIVERY" ++
    expect_interval path (jr_consumer_action_interval row)
      (u64_sub (jr_consumer_action_completion row) (jr_dequeue_completion row))
      "consumer_action_interval" "TIM-EQ-CONSUMER-ACTION" ++
    expect_interval path (jr_end_to_end_latency row)
      (u64_sub (jr_consumer_action_completion row) (jr_scheduled_arrival row))
      "end_to_end_latency" "TIM-EQ-END-TO-END" ++
    error_when (match additive_sum row with
                | Some sum => negb (sum =? jr_end_to_end_latency row)
                | None => true
                end)
      (mkError ErrorCategory_cross_field (path +:+ "/end_to_end_latency")%string
         "TIM-EQ-ADDITIVE"
         "end-to-end latency must equal admission + residence + delivery").

(** ** Envelopes *)

(** The row loop of the visitor. *)
Fixpoint validate_rows {Row : Type} (validate : Row -> Identifier -> string -> list ValidationError)
    (run_id : Identifier) (index : Z) (rows : list Row) : list ValidationError :=
  match rows with
  | [] => []
  | row :: rest =>
      validate row run_id ("$out/storage/inline_rows/" +:+ std_to_string index)%string ++
      validate_rows validate run_id (index + 1) rest
  end.

Definition row_count_errors (row_count : Z) (size : nat) : list ValidationError :=
  error_when (negb (Z.of_nat size =? row_count))
    (mkError ErrorCategory_cross_field "$out/row_count" "DAT-RAW-ROW-COUNT"
       "envelope row_count must equal the inline logical row count").

Definition validate_raw (envelope : RawObservationEnvelope) : list ValidationError :=
  match ro_storage envelope with
  | ExternalStorage _ => []
  | InlineStorage (Rows_producer rows) =>
      row_count_errors (ro_row_count envelope) (length rows) ++
      validate_rows validate_producer (ro_run_id envelope) 0 rows
  | InlineStorage (Rows_consumer rows) =>
      row_count_errors (ro_row_count envelope) (length rows) ++
      validate_rows validate_consumer (ro_run_id envelope) 0 rows
  | InlineStorage (Rows_joined rows) =>
      row_count_errors (ro_row_count envelope) (length rows) ++
      validate_rows validate_joined (ro_run_id envelope) 0 rows
  end.

(** ** Specifications *)

(** The deadlines an encoding stands for. *)
Fixpoint delta_decode (accumulated : Z) (encoded : list Z) : list Z :=
  match encoded with
  | [] => []
  | value :: rest => (accumulated + value) :: delta_decode (accumulated + value) rest
  end.

Definition decoded_deadlines (encoding : DeadlineEncoding) (origin : Z) (encoded : list Z) :
    list Z :=
  match encoding with
  | DeadlineEncoding_absolute_integer_ticks => encoded
  | DeadlineEncoding_delta_integer_ticks => delta_decode origin encoded
  end.

Definition schedule_record_u64 (s : ScheduleRecord) : Prop :=
  is_u64 (sr_origin_ticks s) /\ is_u64 (sr_horizon_ticks s) /\
  match sr_deadline_storage s with
  | InlineDeadlineStorage encoded => Forall is_u64 encoded
  | _ => True
  end.

Definition producer_row_ok (run_id : Identifier) (row : ProducerRecord) : Prop :=
  pr_run_id row = run_id /\
  pr_scheduled_arrival row <= pr_producer_handle_begin row /\
  pr_producer_handle_begin row <= pr_record_lookup_completion row /\
  pr_record_lookup_completion row <= pr_enqueue_invocation row /\
  pr_enqueue_invocation row <= pr_enqueue_attempt_completion row /\
  match pr_outcome row with
  | ProducerOutcome_accepted =>
      is_Some (pr_accepted_ordinal row) /\
      exists l, pr_enqueue_linearization row = Some l /\
        pr_enqueue_invocation row <= l /\ l <= pr_enqueue_attempt_completion row
  | ProducerOutcome_full =>
      pr_enqueue_linearization row = None /\ pr_accepted_ordinal row = None
  end.

Definition consumer_row_ok (run_id : Identifier) (row : ConsumerRecord) : Prop :=
  cr_run_id row = run_id /\
  cr_dequeue_invocation row <= cr_dequeue_linearization row /\
  cr_dequeue_linearization row <= cr_dequeue_completion row /\
  cr_dequeue_completion row <= cr_consumer_action_completion row.

(** Every interval is the exact difference of two ordered timestamps. *)
Definition joined_row_ok (run_id : Identifier) (row : JoinedRecord) : Prop :=
  jr_run_id row = run_id /\ joined_order row = true /\
  jr_producer_lateness row = jr_producer_handle_begin row - jr_scheduled_arrival row /\
  jr_pointer_lookup_interval row =
    jr_record_lookup_completion row - jr_producer_handle_begin row /\
  jr_enqueue_service_time row = jr_enqueue_attempt_completion row - jr_enqueue_invocation row /\
  jr_admission_delay row = jr_enqueue_linearization row - jr_scheduled_arrival row /\
  jr_queue_residence row = jr_dequeue_linearization row - jr_enqueue_linearization row /\
  jr_dequeue_service_time row = jr_dequeue_completion row - jr_dequeue_invocation row /\
  jr_post_dequeue_delivery_interval row =
    jr_consumer_action_completion row - jr_dequeue_linearization row /\
  jr_consumer_action_interval row = jr_consumer_action_completion row - jr_dequeue_completion row /\
  jr_end_to_end_latency row = jr_consumer_action_completion row - jr_scheduled_arrival row.

Definition joined_timestamps_u64 (row : JoinedRecord) : Prop :=
  Forall is_u64
    [jr_scheduled_arrival row; jr_producer_handle_begin row; jr_record_lookup_completion row;
     jr_enqueue_invocation row; jr_enqueue_linearization row; jr_enqueue_attempt_completion row;
     jr_dequeue_invocation row; jr_dequeue_linearization row; jr_dequeue_completion row;
     jr_consumer_action_completion row].

(** ** Lemmas *)

Lemma semantic_checked_add_spec a b :
  is_u64 a -> is_u64 b ->
  semantic_checked_add a b = if a + b <=? u64_max then Some (a + b) else None.
Proof.
  intros Ha Hb. unfold semantic_checked_add. rewrite u64_sub_small by int_lia.
  rewrite Z.gtb_ltb.
  destruct (Z.ltb_spec (u64_max - a) b), (Z.leb_spec (a + b) u64_max); try lia; [done|].
  by rewrite u64_add_small by int_lia.
Qed.

Lemma decoded_errors_nil origin hend index index' previous deadline :
  decoded_errors origin hend index previous deadline = [] <->
  deadline_errors origin hend index' previous deadline = [].
Proof. unfold decoded_errors, deadline_errors. guards. tauto. Qed.

(** The decoding loop accepts what the prepared-schedule validator accepts of the
    decoded deadlines. *)
Lemma decode_loop_nil encoding origin hend index index' accumulated previous encoded :
  is_u64 accumulated -> Forall is_u64 encoded -> hend <= u64_max ->
  decode_loop (bool_decide (encoding = DeadlineEncoding_delta_integer_ticks)) origin hend index
    accumulated previous encoded = [] <->
  deadlines_errors origin hend index' previous (decoded_deadlines encoding accumulated encoded)
    = [].
Proof.
  intros Ha He Hh. revert index index' accumulated previous Ha.
  induction He as [|v rest Hv _ IH]; intros index index' acc previous Ha; [by destruct encoding|].
  destruct encoding; cbn [decode_loop decoded_deadlines deadlines_errors delta_decode].
  - rewrite bool_decide_eq_false_2 by done. rewrite !app_nil.
    rewrite decoded_errors_nil with (index' := index').
    specialize (IH (index + 1) (index' + 1) acc (Some v) Ha). cbn [decoded_deadlines] in IH.
    rewrite bool_decide_eq_false_2 in IH by done. by rewrite IH.
  - rewrite bool_decide_eq_true_2 by done. rewrite semantic_checked_add_spec by done.
    destruct (Z.leb_spec (acc + v) u64_max).
    + rewrite !app_nil. rewrite decoded_errors_nil with (index' := index').
      specialize (IH (index + 1) (index' + 1) (acc + v) (Some (acc + v))). cbn [decoded_deadlines] in IH.
      rewrite bool_decide_eq_true_2 in IH by done. rewrite IH by int_lia. done.
    + split; [done|]. rewrite app_nil. intros [Hd _]. exfalso. revert Hd.
      unfold deadline_errors. guards. rewrite Z.geb_leb, Z.leb_gt. lia.
Qed.

Lemma validate_producer_nil row run_id path :
  validate_producer row run_id path = [] <-> producer_row_ok run_id row.
Proof.
  unfold validate_producer, producer_row_ok. guards.
  rewrite !andb_true_iff, !Z.leb_le.
  destruct (pr_outcome row), (pr_enqueue_linearization row) as [l|], (pr_accepted_ordinal row);
    guards; rewrite ?Z.ltb_ge, ?Z.gtb_ltb, ?Z.ltb_ge; unfold is_Some; naive_solver lia.
Qed.

Lemma validate_consumer_nil row run_id path :
  validate_consumer row run_id path = [] <-> consumer_row_ok run_id row.
Proof.
  unfold validate_consumer, consumer_row_ok. guards. rewrite !andb_true_iff, !Z.leb_le. tauto.
Qed.

Lemma expect_interval_nil path actual calculated field rule :
  expect_interval path actual calculated field rule = [] <-> actual = calculated.
Proof. unfold expect_interval. guards. done. Qed.

Lemma joined_order_true row :
  joined_order row = true <->
  jr_scheduled_arrival row <= jr_producer_handle_begin row /\
  jr_producer_handle_begin row <= jr_record_lookup_completion row /\
  jr_record_lookup_completion row <= jr_enqueue_invocation row /\
  jr_enqueue_invocation row <= jr_enqueue_linearization row /\
  jr_enqueue_linearization row <= jr_enqueue_attempt_completion row /\
  jr_dequeue_invocation row <= jr_dequeue_linearization row /\
  jr_dequeue_linearization row <= jr_dequeue_completion row /\
  jr_dequeue_completion row <= jr_consumer_action_completion row /\
  jr_enqueue_linearization row <= jr_dequeue_linearization row.
Proof. unfold joined_order. rewrite !andb_true_iff, !Z.leb_le. tauto. Qed.

Lemma validate_joined_nil row run_id path :
  joined_timestamps_u64 row ->
  validate_joined row run_id path = [] <-> joined_row_ok run_id row.
Proof.
  intros Hu. unfold joined_timestamps_u64 in Hu. rewrite !Forall_cons in Hu.
  unfold validate_joined, joined_row_ok. guards.
  destruct (joined_order row) eqn:Ho; simpl; [|split; intros; [naive_solver|]; by destruct_and!].
  apply joined_order_true in Ho. destruct_and! Ho. destruct_and! Hu.
  guards. rewrite !expect_interval_nil, !u64_sub_small by int_lia.
  split; [tauto|]. intros (Q1 & _ & Q2 & Q3 & Q4 & Q5 & Q6 & Q7 & Q8 & Q9 & Q10).
  split_and!; try done. unfold additive_sum. rewrite Q5, Q6, Q8, Q10.
  rewrite semantic_checked_add_spec by int_lia.
  rewrite (proj2 (Z.leb_le _ _)) by int_lia.
  rewrite semantic_checked_add_spec by int_lia.
  rewrite (proj2 (Z.leb_le _ _)) by int_lia. rewrite negb_false_iff, Z.eqb_eq. lia.
Qed.

Lemma validate_rows_nil {Row} (validate : Row -> Identifier -> string -> list ValidationError)
    (ok : Row -> Prop) run_id index rows :
  (forall row path, row ∈ rows -> validate row run_id path = [] <-> ok row) ->
  validate_rows validate run_id index rows = [] <-> Forall ok rows.
Proof.
  revert index. induction rows as [|row rest IH]; intros index H; simpl; [done|].
  rewrite app_nil, Forall_cons, H, IH; [done| |set_solver].
  intros r p Hr. apply H. set_solver.
Qed.

(** What a derived row holds. *)
Lemma derive_joined_fields p i c j row :
  producer_record_u64 p -> consumer_record_u64 c -> derive_joined_record p i c j = success row ->
  joined_timestamps_u64 row /\ joined_row_ok (pr_run_id p) row.
Proof.
  intros Hp Hc Hd. pose proof (derive_joined_inv p i c j) as Hj. rewrite Hd in Hj.
  destruct (derive_joined_success p i c j Hp Hc Hj) as (r & Hr & Hfields).
  assert (r = row) as -> by congruence. clear Hr.
  destruct Hj as (Ho & lin & Hlin & Hord & Hrun & Hidx & Horder).
  unfold derive_joined_record in Hd. rewrite Ho, Hlin, Hord in Hd.
  do 3 (destr_in Hd; [done|]). injection Hd as <-. simpl in *.
  unfold producer_record_u64, consumer_record_u64 in *. rewrite Hlin in Hp. simpl in Hp.
  unfold joined_timestamps_u64, joined_row_ok. rewrite joined_order_true. simpl.
  rewrite !Forall_cons in *. split; [|split_and!]; tauto || lia.
Qed.

(** ** Properties *)

(** Schedule documents: for 64-bit fields [validate_schedule] reports no error
    for an inline schedule exactly when its scalar rules hold, its horizon end
    fits in 64 bits, its count is the offered count and its decoded deadlines
    (absolute, or partial sums of deltas) form a schedule that
    [validate_prepared_schedule] accepts in the window from the origin to the
    horizon end; a delta overflow never goes unnoticed. *)
Theorem schedule_record_exact s encoded :
  schedule_record_u64 s -> sr_deadline_storage s = InlineDeadlineStorage encoded ->
  validate_schedule s = [] <->
  sr_horizon_ticks s <> 0 /\ er_denominator_ticks (sr_nominal_offered_rate s) <> 0 /\
  (sr_schedule_kind s = ScheduleKind_confirmatory ->
   sr_arrival_family s = ArrivalFamily_poisson_exponential) /\
  Z.of_nat (length encoded) = sr_offered_count s /\
  sr_origin_ticks s + sr_horizon_ticks s <= u64_max /\
  validate_prepared_schedule
    (mkPreparedScheduleView
       (decoded_deadlines (sr_deadline_encoding s) (sr_origin_ticks s) encoded)
       (sr_origin_ticks s) (sr_origin_ticks s + sr_horizon_ticks s)) = [].
Proof.
  intros (Ho & Hh & He) Hs. rewrite Hs in He. unfold validate_schedule. rewrite Hs. guards.
  rewrite semantic_checked_add_spec by done.
  assert (Hc : bool_decide (sr_schedule_kind s = ScheduleKind_confirmatory) &&
    negb (bool_decide (sr_arrival_family s = ArrivalFamily_poisson_exponential)) = false <->
    (sr_schedule_kind s = ScheduleKind_confirmatory ->
     sr_arrival_family s = ArrivalFamily_poisson_exponential))
    by (repeat case_bool_decide; naive_solver).
  rewrite Hc. destruct (Z.leb_spec (sr_origin_ticks s + sr_horizon_ticks s) u64_max).
  - rewrite (decode_loop_nil _ _ _ 0 0) by done.
    unfold validate_prepared_schedule. cbn [sv_deadline_ticks sv_origin_ticks sv_horizon_ticks].
    guards. rewrite Z.gtb_ltb, Z.ltb_ge. unfold is_u64 in Hh. intuition lia.
  - split; [intros (_ & _ & _ & _ & ?); done | lia].
Qed.

Definition sample_schedule : ScheduleRecord :=
  mkScheduleRecord ProtocolVersion_v2_0_0_pre_2 ProtocolVersion_v2_0_0_pre_2 "schedule"
    ScheduleKind_confirmatory ArrivalFamily_poisson_exponential "namespace"
    (mkRngMetadata "PHILOX" "1" "seed" "derivation" "parent") "ns"
    DeadlineEncoding_delta_integer_ticks 5 100 3 (mkExactRate 1 10) "overflow"
    (InlineDeadlineStorage [10; 20; 30]) (mkSha256 []) (mkSha256 []) Json.Value_null.

Lemma schedule_record_exact_witness : validate_schedule sample_schedule = [].
Proof.
  apply (schedule_record_exact _ [10; 20; 30]).
  - unfold schedule_record_u64. simpl. repeat constructor; unfold u64_max; simpl; lia.
  - reflexivity.
  - simpl. split_and!; try lia; try reflexivity; unfold u64_max; lia.
Defined.

(** Joined rows: for 64-bit timestamps [validate_joined] accepts exactly the
    rows whose timestamps are ordered and whose nine intervals are the exact
    differences, and every row that [derive_joined_record] produces is accepted
    under its own run identifier. *)
Theorem joined_rows_validate :
  (forall row run_id path, joined_timestamps_u64 row ->
     validate_joined row run_id path = [] <-> joined_row_ok run_id row) /\
  (forall p i c j row path,
     producer_record_u64 p -> consumer_record_u64 c ->
     derive_joined_record p i c j = success row ->
     validate_joined row (pr_run_id p) path = []).
Proof.
  split; [apply validate_joined_nil|].
  intros p i c j row path Hp Hc Hd.
  destruct (derive_joined_fields p i c j row Hp Hc Hd) as [Hu Hok].
  by apply validate_joined_nil.
Qed.
