(* ===== verification/RawObservations.v ===== *)
(** * Raw observation streams

    Models [include/cpu_prefetch/storage/raw_observations.hpp] and
    [src/storage/raw_observations.cpp]: the row layout, the preallocated
    producer and consumer buffers with their preparation, appends and seals, the
    joined-row encoder and the decoder of external artifacts. A buffer is the
    list of its bytes; freshly allocated bytes are unspecified and are an
    argument. The SHA-256 of OpenSSL is a parameter of the decoder. *)

From stdpp Require Import prelude list strings.
From Stdlib Require Import ZArith Lia Ascii.
From S2P Require Import Prelude Validation Model Bytes Utf8 Documents.
From S2P Require Import Timing Capture Semantic.

#[local] Open Scope Z_scope.
#[local] Open Scope checked_scope.

Definition kRawFormatId : string := "RAW-OBS-U64LE-LP-RUNID-v1".
Definition kRawEncoding : string := "FIXED_U64_LE_LENGTH_PREFIXED_UTF8_RUN_ID".
Definition kRawTimeUnit : string := "PICOSECONDS".
Definition kRawCompression : string := "NONE".

Definition kProducerBodyBytes : Z := 15 * 8.
Definition kConsumerBodyBytes : Z := 10 * 8.
Definition kJoinedBodyBytes : Z := 24 * 8.

Definition kProducerAcceptedFlags : Z := 15.
Definition kProducerFullFlags : Z := 1.

Definition raw_checked_multiply (left right : Z) : option Z :=
  if negb (left =? 0) && (right >? u64_max / left) then None else Some (u64_mul left right).

(** ** Row layout *)

Record RowLayout : Set := mkRowLayout {
  rl_run_id_bytes : Z;
  rl_prefix_bytes : Z;
  rl_producer_row_bytes : Z;
  rl_consumer_row_bytes : Z;
  rl_joined_row_bytes : Z
}.

(** [~std::uint64_t{7U}]. *)
Definition not_seven : Z := 18446744073709551608.

Definition make_row_layout (run_id : string) : Throws RowLayout :=
  throw_if (str_empty run_id) "raw-observation run_id must not be empty" ;;
  throw_if (negb (valid_utf8 run_id)) "raw-observation run_id must be valid UTF-8" ;;
  let length := Z.of_nat (String.length run_id) in
  throw_if (length >? u32_max) "raw-observation run_id exceeds uint32 length" ;;
  match semantic_checked_add 4 length with
  | None => Threw "raw-observation row prefix size overflows uint64"
  | Some with_length =>
      throw_if (with_length >? u64_sub u64_max 7)
        "raw-observation row prefix size overflows uint64" ;;
      let prefix := Z.land (u64_add with_length 7) not_seven in
      match semantic_checked_add prefix kProducerBodyBytes,
            semantic_checked_add prefix kConsumerBodyBytes,
            semantic_checked_add prefix kJoinedBodyBytes with
      | Some producer, Some consumer, Some joined =>
          Returned (mkRowLayout length prefix producer consumer joined)
      | _, _, _ => Threw "raw-observation row size exceeds host size_t"
      end
  end.

(** ** Buffers *)

(** Stores at an offset inside the buffer. *)
Definition write_bytes (offset : nat) (bytes storage : list Z) : list Z :=
  take offset storage ++ bytes ++ drop (offset + length bytes) storage.

(** [store_words]. *)
Definition words_bytes (words : list Z) : list Z := flat_map (le_bytes 8) words.

(** What [initialize_prefixes] stores at the start of each row. *)
Definition prefix_image (prefix_bytes : Z) (run_id : string) : list Z :=
  le_bytes 4 (u32_wrap (Z.of_nat (String.length run_id))) ++ string_bytes run_id ++
  replicate (Z.to_nat prefix_bytes - (4 + String.length run_id)) 0.

Definition initialize_prefixes (capacity row_bytes prefix_bytes : Z) (run_id : string)
    (storage : list Z) : list Z :=
  fold_left (fun storage row =>
               write_bytes (row * Z.to_nat row_bytes) (prefix_image prefix_bytes run_id) storage)
    (seq 0 (Z.to_nat capacity)) storage.

Inductive AppendStatus : Set :=
| AppendStatus_appended
| AppendStatus_buffer_overflow
| AppendStatus_invalid_observation
| AppendStatus_stream_unprepared
| AppendStatus_stream_sealed.

Inductive StreamCompleteness : Set :=
| StreamCompleteness_writing
| StreamCompleteness_sealed_complete
| StreamCompleteness_sealed_incomplete.

Definition to_string_StreamCompleteness (state : StreamCompleteness) : string :=
  match state with
  | StreamCompleteness_writing => "WRITING"
  | StreamCompleteness_sealed_complete => "SEALED_COMPLETE"
  | StreamCompleteness_sealed_incomplete => "SEALED_INCOMPLETE"
  end.

#[export] Instance StreamCompleteness_eq_dec : EqDecision StreamCompleteness.
Proof. solve_decision. Defined.

(** [ProducerObservationStream] and [ConsumerObservationStream] have the same
    members; [os_kind] tells them apart. *)
Record ObservationStream : Set := mkObservationStream {
  os_kind : StreamKind;
  os_run_id : Identifier;
  os_layout : RowLayout;
  os_storage : list Z;
  os_row_count : Z;
  os_row_capacity : Z;
  os_row_bytes : Z;
  os_completeness : StreamCompleteness;
  os_overflowed : bool;
  os_prepared : bool
}.

Definition expected_row_bytes (kind : StreamKind) (layout : RowLayout) : Z :=
  match kind with
  | StreamKind_producer => rl_producer_row_bytes layout
  | StreamKind_consumer => rl_consumer_row_bytes layout
  | StreamKind_joined_derived => rl_joined_row_bytes layout
  end.

(** The two constructors. [fresh n] is the content of [n] newly allocated bytes. *)
Definition ObservationStream_make (kind : StreamKind) (fresh : nat -> list Z)
    (run_id : Identifier) (row_capacity : Z) : Throws ObservationStream :=
  let! layout := make_row_layout run_id in
  let row_bytes := expected_row_bytes kind layout in
  match raw_checked_multiply row_capacity row_bytes with
  | None =>
      Threw (match kind with
             | StreamKind_producer => "producer raw buffer size overflows host size_t"
             | _ => "consumer raw buffer size overflows host size_t"
             end)
  | Some allocated_bytes =>
      Returned (mkObservationStream kind run_id layout (fresh (Z.to_nat allocated_bytes))
                  0 row_capacity row_bytes StreamCompleteness_writing false false)
  end.

Definition set_storage (s : ObservationStream) (storage : list Z) : ObservationStream :=
  mkObservationStream (os_kind s) (os_run_id s) (os_layout s) storage (os_row_count s)
    (os_row_capacity s) (os_row_bytes s) (os_completeness s) (os_overflowed s) (os_prepared s).

Definition set_completeness (s : ObservationStream) (c : StreamCompleteness) (overflowed : bool) :
    ObservationStream :=
  mkObservationStream (os_kind s) (os_run_id s) (os_layout s) (os_storage s) (os_row_count s)
    (os_row_capacity s) (os_row_bytes s) c overflowed (os_prepared s).

Definition is_writing (s : ObservationStream) : bool :=
  bool_decide (os_completeness s = StreamCompleteness_writing).

Definition prepare_for_owner (s : ObservationStream) : ObservationStream * bool :=
  if os_prepared s || negb (is_writing s) then (s, false)
  else
    let storage :=
      match os_storage s with
      | [] => []
      | _ :: _ =>
          initialize_prefixes (os_row_capacity s) (os_row_bytes s)
            (rl_prefix_bytes (os_layout s)) (os_run_id s)
            (replicate (length (os_storage s)) 0)
      end in
    (mkObservationStream (os_kind s) (os_run_id s) (os_layout s) storage (os_row_count s)
       (os_row_capacity s) (os_row_bytes s) (os_completeness s) (os_overflowed s) true, true).

(** The end of both [append]s: overflow, or the stores of one row. *)
Definition append_words (s : ObservationStream) (words : list Z) :
    ObservationStream * AppendStatus :=
  if os_row_count s =? os_row_capacity s then
    (set_completeness s StreamCompleteness_sealed_incomplete true, AppendStatus_buffer_overflow)
  else
    let offset := u64_add (u64_mul (os_row_count s) (os_row_bytes s))
                    (rl_prefix_bytes (os_layout s)) in
    let storage := write_bytes (Z.to_nat offset) (words_bytes words) (os_storage s) in
    (mkObservationStream (os_kind s) (os_run_id s) (os_layout s) storage
       (u64_add (os_row_count s) 1) (os_row_capacity s) (os_row_bytes s)
       (os_completeness s) (os_overflowed s) (os_prepared s), AppendStatus_appended).

Definition producer_words (o : ProducerObservation) : list Z :=
  let accepted := bool_decide (po_outcome o = ProducerOutcome_accepted) in
  let linearization := default (mkClockSample 0 0) (po_enqueue_linearization o) in
  [po_logical_sequence o; po_record_index o; po_scheduled_arrival o;
   absolute_nanoseconds (po_producer_handle_begin o);
   relative_picoseconds (po_producer_handle_begin o);
   absolute_nanoseconds (po_record_lookup_completion o);
   relative_picoseconds (po_record_lookup_completion o);
   absolute_nanoseconds (po_enqueue_invocation o);
   relative_picoseconds (po_enqueue_invocation o);
   absolute_nanoseconds linearization; relative_picoseconds linearization;
   absolute_nanoseconds (po_enqueue_attempt_completion o);
   relative_picoseconds (po_enqueue_attempt_completion o);
   (if accepted then default 0 (po_accepted_ordinal o) else 0);
   (if accepted then kProducerAcceptedFlags else kProducerFullFlags)].

Definition producer_append (s : ObservationStream) (o : ProducerObservation) :
    ObservationStream * AppendStatus :=
  if negb (os_prepared s) then (s, AppendStatus_stream_unprepared)
  else if negb (is_writing s) then (s, AppendStatus_stream_sealed)
  else
    let accepted := bool_decide (po_outcome o = ProducerOutcome_accepted) in
    if negb (Bool.eqb accepted (bool_decide (is_Some (po_enqueue_linearization o)))) ||
       negb (Bool.eqb accepted (bool_decide (is_Some (po_accepted_ordinal o))))
    then (s, AppendStatus_invalid_observation)
    else append_words s (producer_words o).

Definition consumer_words (o : ConsumerObservation) : list Z :=
  [co_consumed_ordinal o; co_observed_record_index o;
   absolute_nanoseconds (co_dequeue_invocation o);
   relative_picoseconds (co_dequeue_invocation o);
   absolute_nanoseconds (co_dequeue_linearization o);
   relative_picoseconds (co_dequeue_linearization o);
   absolute_nanoseconds (co_dequeue_completion o);
   relative_picoseconds (co_dequeue_completion o);
   absolute_nanoseconds (co_consumer_action_completion o);
   relative_picoseconds (co_consumer_action_completion o)].

Definition consumer_append (s : ObservationStream) (o : ConsumerObservation) :
    ObservationStream * AppendStatus :=
  if negb (os_prepared s) then (s, AppendStatus_stream_unprepared)
  else if negb (is_writing s) then (s, AppendStatus_stream_sealed)
  else append_words s (consumer_words o).

Definition seal_complete (s : ObservationStream) : ObservationStream * bool :=
  if negb (os_prepared s) || negb (is_writing s) || os_overflowed s then (s, false)
  else (set_completeness s StreamCompleteness_sealed_complete (os_overflowed s), true).

Definition seal_incomplete (s : ObservationStream) : ObservationStream :=
  if is_writing s
  then set_completeness s StreamCompleteness_sealed_incomplete (os_overflowed s)
  else s.

Record RawStreamSnapshot : Set := mkRawStreamSnapshot {
  ss_stream_kind : StreamKind;
  ss_run_id : Identifier;
  ss_bytes : list Z;
  ss_row_count : Z;
  ss_row_capacity : Z;
  ss_row_bytes : Z;
  ss_completeness : StreamCompleteness;
  ss_overflowed : bool
}.

Definition snapshot (s : ObservationStream) : RawStreamSnapshot :=
  mkRawStreamSnapshot (os_kind s) (os_run_id s)
    (take (Z.to_nat (u64_mul (os_row_count s) (os_row_bytes s))) (os_storage s))
    (os_row_count s) (os_row_capacity s) (os_row_bytes s) (os_completeness s)
    (os_overflowed s).

(** ** Joined rows *)

Definition joined_words (row : JoinedRecord) : list Z :=
  [jr_accepted_ordinal row; jr_logical_sequence row; jr_record_index row;
   jr_producer_row_ordinal row; jr_consumer_row_ordinal row; jr_scheduled_arrival row;
   jr_producer_handle_begin row; jr_record_lookup_completion row; jr_enqueue_invocation row;
   jr_enqueue_linearization row; jr_enqueue_attempt_completion row; jr_dequeue_invocation row;
   jr_dequeue_linearization row; jr_dequeue_completion row; jr_consumer_action_completion row;
   jr_producer_lateness row; jr_pointer_lookup_interval row; jr_enqueue_service_time row;
   jr_admission_delay row; jr_queue_residence row; jr_dequeue_service_time row;
   jr_post_dequeue_delivery_interval row; jr_consumer_action_interval row;
   jr_end_to_end_latency row].

(** The store loop of the joined encoder. *)
Fixpoint store_joined (layout : RowLayout) (run_id : Identifier) (index : nat)
    (rows : list JoinedRecord) (output : list Z) : Throws (list Z) :=
  match rows with
  | [] => Returned output
  | row :: rest =>
      throw_if (negb (bool_decide (jr_run_id row = run_id)))
        "joined format-test row run_id mismatch" ;;
      store_joined layout run_id (S index) rest
        (write_bytes (index * Z.to_nat (rl_joined_row_bytes layout) +
                      Z.to_nat (rl_prefix_bytes layout)) (words_bytes (joined_words row)) output)
  end.

Definition encode_joined_rows_for_format_test (run_id : Identifier) (rows : list JoinedRecord) :
    Throws (list Z) :=
  let! layout := make_row_layout run_id in
  match raw_checked_multiply (Z.of_nat (length rows)) (rl_joined_row_bytes layout) with
  | None => Threw "joined format-test buffer size overflows size_t"
  | Some total =>
      store_joined layout run_id 0 rows
        (initialize_prefixes (Z.of_nat (length rows)) (rl_joined_row_bytes layout)
           (rl_prefix_bytes layout) run_id (replicate (Z.to_nat total) 0))
  end.

(** ** Decoding *)

Definition verify_prefix (row : list Z) (layout : RowLayout) (expected_run_id : string) : bool :=
  let id_bytes := String.length expected_run_id in
  (le_value (take 4 row) =? rl_run_id_bytes layout) &&
  bool_decide (take id_bytes (drop 4 row) = string_bytes expected_run_id) &&
  forallb (Z.eqb 0) (take (Z.to_nat (rl_prefix_bytes layout) - (4 + id_bytes))
                       (drop (4 + id_bytes) row)).

Definition load_words (count : nat) (body : list Z) : list Z :=
  (fun word => le_value (take 8 (drop (word * 8) body))) <$> seq 0 count.

Record DecodedProducerRow : Set := mkDecodedProducerRow {
  dp_run_id : string;
  dp_observation : ProducerObservation
}.

Record DecodedConsumerRow : Set := mkDecodedConsumerRow {
  dc_run_id : string;
  dc_observation : ConsumerObservation
}.

Inductive DecodedRows : Set :=
| Decoded_producer (rows : list DecodedProducerRow)
| Decoded_consumer (rows : list DecodedConsumerRow)
| Decoded_joined (rows : list JoinedRecord).

Record DecodedRawStream : Set := mkDecodedRawStream {
  ds_stream_kind : StreamKind;
  ds_rows : DecodedRows
}.

Definition row_path (index : Z) : string := ("$out/rows/" +:+ std_to_string index)%string.

(** One producer row: its words, the row index and the next accepted ordinal
    expected; the new expectation with the row. *)
Definition decode_producer_row (run_id : Identifier) (index expected_accepted : Z)
    (words : list Z) : Result (DecodedProducerRow * Z) :=
  match words with
  | [w0; w1; w2; w3; w4; w5; w6; w7; w8; w9; w10; w11; w12; w13; w14] =>
      if negb (w0 =? index) ||
         (negb (w14 =? kProducerAcceptedFlags) && negb (w14 =? kProducerFullFlags))
      then fail_with ErrorCategory_cross_field (row_path index) "RAW-PRODUCER-ORDER-FLAGS"
             "producer logical sequence or flags are noncanonical"
      else
        let accepted := w14 =? kProducerAcceptedFlags in
        if (accepted && negb (w13 =? expected_accepted)) ||
           (negb accepted && (negb (w9 =? 0) || negb (w10 =? 0) || negb (w13 =? 0)))
        then fail_with ErrorCategory_cross_field (row_path index)
               "RAW-PRODUCER-ABSENCE-ORDINAL"
               "producer ordinal or accepted-only absent values are noncanonical"
        else
          success
            (mkDecodedProducerRow run_id
               (mkProducerObservation w0 w1 w2 (mkClockSample w3 w4) (mkClockSample w5 w6)
                  (mkClockSample w7 w8)
                  (if accepted then Some (mkClockSample w9 w10) else None)
                  (mkClockSample w11 w12)
                  (if accepted then ProducerOutcome_accepted else ProducerOutcome_full)
                  (if accepted then Some w13 else None)),
             if accepted then u64_add expected_accepted 1 else expected_accepted)
  | _ => failure []
  end.

Definition decode_consumer_row (run_id : Identifier) (index : Z) (words : list Z) :
    Result DecodedConsumerRow :=
  match words with
  | [w0; w1; w2; w3; w4; w5; w6; w7; w8; w9] =>
      if negb (w0 =? index)
      then fail_with ErrorCategory_cross_field (row_path index +:+ "/consumed_ordinal")%string
             "RAW-CONSUMER-ORDER"
             "consumer rows must be in contiguous successful-dequeue order"
      else
        success (mkDecodedConsumerRow run_id
                   (mkConsumerObservation w0 w1 (mkClockSample w2 w3) (mkClockSample w4 w5)
                      (mkClockSample w6 w7) (mkClockSample w8 w9)))
  | _ => failure []
  end.

Definition decode_joined_row (run_id : Identifier) (index : Z) (words : list Z) :
    Result JoinedRecord :=
  match words with
  | [w0; w1; w2; w3; w4; w5; w6; w7; w8; w9; w10; w11; w12; w13; w14; w15; w16; w17; w18;
     w19; w20; w21; w22; w23] =>
      if negb (w0 =? index)
      then fail_with ErrorCategory_cross_field (row_path index +:+ "/accepted_ordinal")%string
             "RAW-JOINED-ORDER" "joined rows must be in contiguous accepted-ordinal order"
      else
        success (mkJoinedRecord run_id w0 w1 w2 w3 w4 w5 w6 w7 w8 w9 w10 w11 w12 w13 w14 w15
                   w16 w17 w18 w19 w20 w21 w22 w23)
  | _ => failure []
  end.

(** The row loop, for one kind of row: [decode] turns the words of a row into a
    value and the state for the next row. *)
Fixpoint decode_rows {A S : Type} (layout : RowLayout) (run_id : Identifier) (row_bytes : Z)
    (word_count : nat) (decode : Z -> S -> list Z -> Result (A * S)) (rows : nat) (index : Z)
    (state : S) (bytes : list Z) : Result (list A) :=
  match rows with
  | O => success []
  | Datatypes.S rows =>
      let row := take (Z.to_nat row_bytes) bytes in
      if negb (verify_prefix row layout run_id)
      then fail_with ErrorCategory_reference_mismatch (row_path index +:+ "/run_id")%string
             "RAW-ROW-RUN-ID"
             "row prefix is noncanonical or disagrees with the envelope run_id"
      else
        match decode index state
                (load_words word_count (drop (Z.to_nat (rl_prefix_bytes layout)) row)) with
        | failure errors => failure errors
        | success (value, state) =>
            match decode_rows layout run_id row_bytes word_count decode rows (index + 1) state
                    (drop (Z.to_nat row_bytes) bytes) with
            | failure errors => failure errors
            | success values => success (value :: values)
            end
        end
  end.

(** A decoder without state. *)
Definition stateless {A : Type} (decode : Z -> list Z -> Result A) (index : Z) (state : unit)
    (words : list Z) : Result (A * unit) :=
  match decode index words with
  | success value => success (value, tt)
  | failure errors => failure errors
  end.

(** [logical_envelope.storage = rows]. *)
Definition with_inline_rows (envelope : RawObservationEnvelope) (rows : InlineObservationRows) :
    RawObservationEnvelope :=
  mkRawObservationEnvelope (ro_schema_version envelope) (ro_protocol_version envelope)
    (ro_artifact_id envelope) (ro_run_id envelope) (ro_stream_kind envelope)
    (ro_logical_row_schema_version envelope) (ro_physical_format_record_id envelope)
    (ro_encoding envelope) (ro_time_unit envelope) (ro_endianness envelope)
    (ro_compression envelope) (ro_row_count envelope) (ro_byte_count envelope)
    (InlineStorage rows) (ro_source_artifacts envelope) (ro_integrity_artifact_ref envelope)
    (ro_artifact_sha256 envelope) (ro_source_document envelope).

(** The decoded stream, once its logical rows have been validated. *)
Definition validated_stream (envelope : RawObservationEnvelope) (rows : DecodedRows) :
    Result DecodedRawStream :=
  let logical :=
    match rows with
    | Decoded_producer rows =>
        Rows_producer ((fun r => make_producer_record (ro_run_id envelope) (dp_observation r))
                         <$> rows)
    | Decoded_consumer rows =>
        Rows_consumer ((fun r => make_consumer_record (ro_run_id envelope) (dc_observation r))
                         <$> rows)
    | Decoded_joined rows => Rows_joined rows
    end in
  match validate_raw (with_inline_rows envelope logical) with
  | [] => success (mkDecodedRawStream (ro_stream_kind envelope) rows)
  | errors => failure errors
  end.

Section Decoder.

Context (sha256 : list Z -> Sha256).

Definition str_eqb (a b : string) : bool := bool_decide (a = b).

(** The envelope checks before any byte is decoded, in order. *)
Definition envelope_error (envelope : RawObservationEnvelope) (bytes : list Z) :
    option ValidationError :=
  match ro_storage envelope with
  | InlineStorage _ =>
      Some (mkError ErrorCategory_cross_field "$out/storage" "RAW-EXTERNAL"
              "physical decoder accepts only external immutable raw artifacts")
  | ExternalStorage _ =>
      if negb (str_eqb (ro_physical_format_record_id envelope) kRawFormatId) ||
         negb (str_eqb (ro_encoding envelope) kRawEncoding) ||
         negb (str_eqb (ro_time_unit envelope) kRawTimeUnit) ||
         negb (bool_decide (ro_endianness envelope = Endianness_little_endian)) ||
         negb (str_eqb (ro_compression envelope) kRawCompression)
      then Some (mkError ErrorCategory_unsupported_version "$out" "RAW-FORMAT-SUITE"
                   "raw envelope does not select the accepted Stage 11 format suite")
      else if negb (bool_decide (ro_logical_row_schema_version envelope =
                                 ro_protocol_version envelope))
      then Some (mkError ErrorCategory_unsupported_version "$out/logical_row_schema_version"
                   "RAW-LOGICAL-VERSION"
                   "logical row schema and envelope protocol versions must match")
      else if negb (bool_decide (ro_stream_kind envelope = StreamKind_joined_derived)) &&
              negb (bool_decide (length (ro_source_artifacts envelope) = 0%nat))
      then Some (mkError ErrorCategory_cross_field "$out/source_artifacts"
                   "RAW-SOURCE-ARTIFACTS"
                   "producer and consumer raw streams must not name source artifacts")
      else if negb (str_eqb (Sha256_hex (sha256 bytes))
                      (Sha256_hex (ro_artifact_sha256 envelope)))
      then Some (mkError ErrorCategory_invalid_hash "$out/artifact_sha256" "RAW-SHA256"
                   "raw artifact SHA-256 does not match its envelope")
      else None
  end.

Definition decode_external_raw (envelope : RawObservationEnvelope) (bytes : list Z) :
    Result DecodedRawStream :=
  match envelope_error envelope bytes with
  | Some error => failure [error]
  | None =>
      match make_row_layout (ro_run_id envelope) with
      | Threw what => fail_with ErrorCategory_invalid_id "$out/run_id" "RAW-RUN-ID" what
      | Returned layout =>
          let row_bytes := expected_row_bytes (ro_stream_kind envelope) layout in
          let exact := raw_checked_multiply (ro_row_count envelope) row_bytes in
          if match exact with
             | None => true
             | Some exact_bytes =>
                 negb (exact_bytes =? ro_byte_count envelope) ||
                 negb (exact_bytes =? Z.of_nat (length bytes))
             end
          then fail_with ErrorCategory_cross_field "$out/byte_count" "RAW-EXACT-SIZE"
                 "row count, physical row size, byte count, and artifact size disagree"
          else
            let run_id := ro_run_id envelope in
            let rows := Z.to_nat (ro_row_count envelope) in
            match ro_stream_kind envelope with
            | StreamKind_producer =>
                match decode_rows layout run_id row_bytes 15 (decode_producer_row run_id)
                        rows 0 0 bytes with
                | success rows => validated_stream envelope (Decoded_producer rows)
                | failure errors => failure errors
                end
            | StreamKind_consumer =>
                match decode_rows layout run_id row_bytes 10
                        (stateless (decode_consumer_row run_id)) rows 0 tt bytes with
                | success rows => validated_stream envelope (Decoded_consumer rows)
                | failure errors => failure errors
                end
            | StreamKind_joined_derived =>
                match decode_rows layout run_id row_bytes 24
                        (stateless (decode_joined_row run_id)) rows 0 tt bytes with
                | success rows => validated_stream envelope (Decoded_joined rows)
                | failure errors => failure errors
                end
            end
      end
  end.

End Decoder.

(** ** Specifications *)

(** Words and bytes of one kind of row. *)
Definition word_count (kind : StreamKind) : nat :=
  match kind with
  | StreamKind_producer => 15
  | StreamKind_consumer => 10
  | StreamKind_joined_derived => 24
  end.

Definition row_image (layout : RowLayout) (run_id : Identifier) (words : list Z) : list Z :=
  prefix_image (rl_prefix_bytes layout) run_id ++ words_bytes words.

(** A complete artifact. *)
Definition rows_image (layout : RowLayout) (run_id : Identifier) (rows : list (list Z)) : list Z :=
  flat_map (row_image layout run_id) rows.

(** The words of a row of this kind. *)
Definition row_words_ok (kind : StreamKind) (words : list Z) : Prop :=
  length words = word_count kind /\ Forall is_u64 words.

Record layout_ok (run_id : Identifier) (layout : RowLayout) : Prop := {
  lk_id : rl_run_id_bytes layout = Z.of_nat (String.length run_id);
  lk_id_bound : rl_run_id_bytes layout <= u32_max;
  lk_prefix : 4 + rl_run_id_bytes layout <= rl_prefix_bytes layout <= u32_max + 12;
  lk_aligned : rl_prefix_bytes layout mod 8 = 0;
  lk_rows : forall kind, expected_row_bytes kind layout =
    rl_prefix_bytes layout + 8 * Z.of_nat (word_count kind)
}.

(** ** Lemmas: layout *)

Ltac int_nia := unfold_ints; nia.

Lemma land_not_seven x : is_u64 x -> Z.land x not_seven = x - x mod 8.
Proof.
  intros Hx. replace (x - x mod 8) with (Z.shiftl (Z.shiftr x 3) 3).
  2: { rewrite Z.shiftl_mul_pow2, Z.shiftr_div_pow2 by lia.
       pose proof (Z.div_mod x 8 ltac:(lia)). change (2 ^ 3) with 8. lia. }
  change not_seven with (Z.shiftl (Z.ones 61) 3).
  apply Z.bits_inj'. intros k Hk. rewrite Z.land_spec.
  destruct (Z.lt_ge_cases k 3); [rewrite !Z.shiftl_spec_low by lia; apply andb_false_r|].
  rewrite !Z.shiftl_spec_high by lia. rewrite Z.shiftr_spec by lia.
  replace (k - 3 + 3) with k by lia.
  destruct (Z.lt_ge_cases (k - 3) 61).
  - rewrite Z.ones_spec_low by lia. apply andb_true_r.
  - rewrite Z.ones_spec_high by lia. rewrite andb_false_r. symmetry.
    rewrite <- (Z.mod_small x (2 ^ 64)) by int_lia.
    by rewrite Z.mod_pow2_bits_high by lia.
Qed.

Lemma make_row_layout_ok run_id layout :
  make_row_layout run_id = Returned layout -> layout_ok run_id layout /\ run_id <> EmptyString.
Proof.
  unfold make_row_layout. destruct run_id as [|c run_id]; [done|].
  set (id := String c run_id). cbn [str_empty].
  destruct (valid_utf8 id); [|done]. cbn [negb].
  destruct (Z.gtb_spec (Z.of_nat (String.length id)) u32_max) as [|Hlen]; [done|].
  rewrite semantic_checked_add_spec by int_lia.
  rewrite (proj2 (Z.leb_le _ _)) by int_lia.
  destruct (Z.gtb_spec (4 + Z.of_nat (String.length id)) (u64_sub u64_max 7)) as [|Hw]; [done|].
  rewrite u64_add_small by int_lia. rewrite land_not_seven by int_lia.
  set (w := 4 + Z.of_nat (String.length id) + 7).
  assert (Hw8 : 0 <= w mod 8 < 8) by (apply Z.mod_pos_bound; lia).
  assert (Hal : (w - w mod 8) mod 8 = 0).
  { pose proof (Z.div_mod w 8 ltac:(lia)). replace (w - w mod 8) with (w / 8 * 8) by lia.
    apply Z.mod_mul. lia. }
  unfold kProducerBodyBytes, kConsumerBodyBytes, kJoinedBodyBytes.
  rewrite !semantic_checked_add_spec by (unfold w in *; int_lia).
  rewrite !(proj2 (Z.leb_le _ _)) by (unfold w in *; int_lia).
  intros E. injection E as <-. split; [|done].
  constructor; cbn [rl_run_id_bytes rl_prefix_bytes]; [done | exact Hlen | | exact Hal |].
  - change (S (String.length run_id)) with (String.length id). clearbody id.
    unfold w in *. int_lia.
  - intros []; simpl; lia.
Qed.

Lemma raw_checked_multiply_spec a b r :
  is_u64 a -> is_u64 b -> raw_checked_multiply a b = Some r <-> r = a * b /\ a * b <= u64_max.
Proof.
  intros Ha Hb. unfold raw_checked_multiply.
  destruct (Z.eqb_spec a 0) as [->|Hne]; simpl.
  - unfold u64_mul. change (u64_wrap (0 * b)) with 0. unfold u64_max. split; [intros [= <-]; lia|].
    intros [-> _]. done.
  - destruct (Z.gtb_spec b (u64_max / a)) as [Hgt|Hle].
    + split; [done|]. intros [_ Hm]. exfalso.
      assert (b <= u64_max / a) by (apply Z.div_le_lower_bound; int_lia). lia.
    + assert (a * b <= u64_max).
      { pose proof (Z.mul_div_le u64_max a ltac:(int_lia)). int_nia. }
      rewrite u64_mul_small by int_nia. split; [intros [= <-]; done | intros [-> _]; done].
Qed.

(** ** Lemmas: buffers *)

Lemma write_bytes_middle (a b c d : list Z) :
  length b = length c -> write_bytes (length a) b (a ++ c ++ d) = a ++ b ++ d.
Proof.
  intros E. unfold write_bytes. rewrite take_app_length.
  rewrite (drop_app_add' a) by done. rewrite E. by rewrite drop_app_length.
Qed.

Lemma length_words_bytes words : length (words_bytes words) = (8 * length words)%nat.
Proof.
  induction words as [|w words IH]; [done|]. cbn [words_bytes flat_map length] in *.
  rewrite length_app, length_le_bytes. unfold words_bytes in IH. lia.
Qed.

Lemma length_string_bytes s : length (string_bytes s) = String.length s.
Proof. unfold string_bytes. rewrite length_fmap. induction s; simpl; congruence. Qed.

Section Images.

Context (run_id : Identifier) (layout : RowLayout).
Hypothesis Hlayout : layout_ok run_id layout.

Lemma length_prefix_image :
  length (prefix_image (rl_prefix_bytes layout) run_id) = Z.to_nat (rl_prefix_bytes layout).
Proof.
  unfold prefix_image. rewrite !length_app, length_le_bytes, length_string_bytes, length_replicate.
  destruct Hlayout as [H1 H2 H3 _ _]. lia.
Qed.

Lemma row_bytes_nat kind :
  Z.to_nat (expected_row_bytes kind layout) =
    (Z.to_nat (rl_prefix_bytes layout) + 8 * word_count kind)%nat.
Proof. rewrite (lk_rows _ _ Hlayout). destruct Hlayout as [H1 H2 H3 _ _]. lia. Qed.

Lemma length_row_image kind words :
  length words = word_count kind ->
  length (row_image layout run_id words) = Z.to_nat (expected_row_bytes kind layout).
Proof.
  intros Hw. unfold row_image. rewrite length_app, length_prefix_image, length_words_bytes, Hw.
  by rewrite row_bytes_nat.
Qed.

Lemma length_rows_image kind rows :
  Forall (fun words => length words = word_count kind) rows ->
  length (rows_image layout run_id rows) =
    (length rows * Z.to_nat (expected_row_bytes kind layout))%nat.
Proof.
  induction 1 as [|w rows Hw _ IH]; [done|]. cbn [rows_image flat_map length].
  rewrite length_app, (length_row_image kind) by done. unfold rows_image in IH. lia.
Qed.

(** A prepared row that holds no observation yet. *)
Definition blank_row (kind : StreamKind) : list Z :=
  prefix_image (rl_prefix_bytes layout) run_id ++ replicate (8 * word_count kind) 0.

Lemma length_blank_row kind :
  length (blank_row kind) = Z.to_nat (expected_row_bytes kind layout).
Proof. unfold blank_row. by rewrite length_app, length_prefix_image, length_replicate, row_bytes_nat. Qed.

Definition blank_rows (kind : StreamKind) (n : nat) : list Z :=
  concat (replicate n (blank_row kind)).

Lemma length_blank_rows kind n :
  length (blank_rows kind n) = (n * Z.to_nat (expected_row_bytes kind layout))%nat.
Proof.
  unfold blank_rows. induction n as [|n IH]; [done|]. cbn [replicate concat].
  rewrite length_app, length_blank_row, IH. lia.
Qed.

Lemma blank_rows_snoc kind n : blank_rows kind (S n) = blank_rows kind n ++ blank_row kind.
Proof.
  unfold blank_rows. rewrite <- Nat.add_1_r, replicate_add, concat_app. simpl.
  by rewrite app_nil_r.
Qed.

Lemma initialize_from kind k n :
  fold_left (fun storage row =>
      write_bytes (row * Z.to_nat (expected_row_bytes kind layout))
        (prefix_image (rl_prefix_bytes layout) run_id) storage)
    (seq k n)
    (blank_rows kind k ++ replicate (n * Z.to_nat (expected_row_bytes kind layout)) 0) =
  blank_rows kind (k + n).
Proof.
  revert k. induction n as [|n IH]; intros k; cbn [seq fold_left].
  - by rewrite Nat.add_0_r, app_nil_r.
  - rewrite <- (length_blank_rows kind k).
    replace (S n * Z.to_nat (expected_row_bytes kind layout))%nat
      with (Z.to_nat (rl_prefix_bytes layout) +
            (8 * word_count kind + n * Z.to_nat (expected_row_bytes kind layout)))%nat
      by (rewrite row_bytes_nat; lia).
    rewrite replicate_add.
    rewrite write_bytes_middle by (by rewrite length_prefix_image, length_replicate).
    rewrite replicate_add, !(app_assoc (prefix_image _ _)), (app_assoc (blank_rows kind k)).
    fold (blank_row kind). rewrite <- blank_rows_snoc, IH. f_equal. lia.
Qed.

Lemma initialize_prefixes_image kind capacity :
  0 <= capacity ->
  initialize_prefixes capacity (expected_row_bytes kind layout) (rl_prefix_bytes layout) run_id
    (replicate (Z.to_nat (capacity * expected_row_bytes kind layout)) 0) =
  blank_rows kind (Z.to_nat capacity).
Proof.
  intros Hc. unfold initialize_prefixes.
  pose proof (lk_rows _ _ Hlayout kind) as Hr. destruct Hlayout as [H1 _ H3 _ _].
  rewrite Z2Nat.inj_mul by lia.
  apply (initialize_from kind 0 (Z.to_nat capacity)).
Qed.

(** Storing the words of the next row. *)
Lemma store_row_image kind rows words n :
  Forall (fun words => length words = word_count kind) rows ->
  length words = word_count kind ->
  write_bytes (length rows * Z.to_nat (expected_row_bytes kind layout) +
               Z.to_nat (rl_prefix_bytes layout)) (words_bytes words)
    (rows_image layout run_id rows ++ blank_rows kind (S n)) =
  rows_image layout run_id (rows ++ [words]) ++ blank_rows kind n.
Proof.
  intros Hrows Hw.
  unfold blank_rows at 1. cbn [replicate concat]. fold (blank_rows kind n).
  unfold blank_row. rewrite <- (length_rows_image kind rows), <- length_prefix_image by done.
  rewrite <- length_app, <- !app_assoc, (app_assoc (rows_image _ _ _)).
  rewrite write_bytes_middle by (rewrite length_words_bytes, length_replicate; lia).
  unfold rows_image. rewrite flat_map_app. cbn [flat_map]. unfold row_image.
  by rewrite app_nil_r, <- !app_assoc.
Qed.

End Images.

(** ** Lemmas: streams *)

(** A prepared stream that holds [rows]. *)
Record stream_holds (s : ObservationStream) (rows : list (list Z)) : Prop := {
  sh_layout : layout_ok (os_run_id s) (os_layout s);
  sh_prepared : os_prepared s = true;
  sh_capacity : is_u64 (os_row_capacity s);
  sh_size : os_row_capacity s * expected_row_bytes (os_kind s) (os_layout s) <= u64_max;
  sh_row_bytes : os_row_bytes s = expected_row_bytes (os_kind s) (os_layout s);
  sh_rows : Forall (row_words_ok (os_kind s)) rows;
  sh_count : os_row_count s = Z.of_nat (length rows);
  sh_bound : os_row_count s <= os_row_capacity s;
  sh_bytes : os_storage s = rows_image (os_layout s) (os_run_id s) rows ++
    blank_rows (os_run_id s) (os_layout s) (os_kind s)
      (Z.to_nat (os_row_capacity s) - length rows)
}.

Lemma rows_lengths kind rows :
  Forall (row_words_ok kind) rows -> Forall (fun words => length words = word_count kind) rows.
Proof. intros H. eapply Forall_impl; [exact H|]. by intros words [? _]. Qed.

Lemma prepared_stream_holds kind fresh run_id capacity s :
  (forall n, length (fresh n) = n) -> is_u64 capacity ->
  ObservationStream_make kind fresh run_id capacity = Returned s ->
  exists s', prepare_for_owner s = (s', true) /\ stream_holds s' [] /\
    os_kind s' = kind /\ os_run_id s' = run_id /\ os_row_capacity s' = capacity /\
    make_row_layout run_id = Returned (os_layout s') /\
    os_completeness s' = StreamCompleteness_writing /\ os_overflowed s' = false.
Proof.
  intros Hfresh Hcap Hmake. unfold ObservationStream_make in Hmake.
  destruct (make_row_layout run_id) as [layout|] eqn:El; [|done].
  destruct (make_row_layout_ok run_id layout El) as [Hl Hne].
  pose proof (lk_rows _ _ Hl kind) as Hrow. pose proof (lk_prefix _ _ Hl) as Hpre.
  pose proof (lk_id _ _ Hl) as Hid.
  destruct (raw_checked_multiply capacity (expected_row_bytes kind layout)) as [r|] eqn:Em; [|done].
  apply raw_checked_multiply_spec in Em as [-> Hsz]; [|done|destruct kind; simpl in *; int_lia].
  injection Hmake as <-. unfold prepare_for_owner. simpl. eexists. split; [reflexivity|].
  split; [|done]. constructor; simpl; try done; [int_lia|].
  rewrite Nat.sub_0_r. rewrite <- (initialize_prefixes_image run_id layout Hl kind capacity)
    by int_lia.
  destruct (fresh _) as [|b l] eqn:Ef; pose proof (Hfresh (Z.to_nat
    (capacity * expected_row_bytes kind layout))) as Hlen; rewrite Ef in Hlen.
  - simpl in Hlen. rewrite <- Hlen. simpl.
    assert (capacity = 0) as -> by (destruct kind; simpl in *; int_nia). done.
  - by rewrite Hlen.
Qed.

Lemma append_words_holds s rows words :
  stream_holds s rows -> row_words_ok (os_kind s) words ->
  os_row_count s < os_row_capacity s ->
  exists s', append_words s words = (s', AppendStatus_appended) /\
    stream_holds s' (rows ++ [words]) /\
    os_kind s' = os_kind s /\ os_run_id s' = os_run_id s /\ os_layout s' = os_layout s /\
    os_row_capacity s' = os_row_capacity s /\
    os_completeness s' = os_completeness s /\ os_overflowed s' = os_overflowed s.
Proof.
  intros [Hl Hp Hc Hsz Hrb Hrows Hcnt Hb Hst] Hw Hlt. unfold append_words.
  rewrite (proj2 (Z.eqb_neq _ _)) by lia. eexists. split; [reflexivity|]. split; [|done].
  pose proof (lk_rows _ _ Hl (os_kind s)) as Hrow. pose proof (lk_prefix _ _ Hl) as Hpre.
  pose proof (lk_id _ _ Hl) as Hid.
  assert (Hoff : u64_add (u64_mul (os_row_count s) (os_row_bytes s))
    (rl_prefix_bytes (os_layout s)) =
    os_row_count s * expected_row_bytes (os_kind s) (os_layout s) + rl_prefix_bytes (os_layout s)).
  { rewrite Hrb. rewrite u64_mul_small by int_nia. apply u64_add_small. int_nia. }
  constructor; simpl; try done.
  - apply Forall_app. split; [done | by constructor].
  - rewrite length_app. simpl. rewrite u64_add_small by int_lia. lia.
  - rewrite u64_add_small by int_lia. lia.
  - rewrite Hoff, Hst, Hcnt.
    replace (Z.to_nat (Z.of_nat (length rows) * expected_row_bytes (os_kind s) (os_layout s) +
               rl_prefix_bytes (os_layout s)))
      with (length rows * Z.to_nat (expected_row_bytes (os_kind s) (os_layout s)) +
            Z.to_nat (rl_prefix_bytes (os_layout s)))%nat by nia.
    replace (Z.to_nat (os_row_capacity s) - length rows)%nat
      with (S (Z.to_nat (os_row_capacity s) - length (rows ++ [words])))%nat
      by (rewrite length_app; simpl; lia).
    apply store_row_image; [done | by apply rows_lengths | apply Hw].
Qed.

Lemma snapshot_bytes s rows :
  stream_holds s rows ->
  ss_bytes (snapshot s) = rows_image (os_layout s) (os_run_id s) rows.
Proof.
  intros [Hl Hp Hc Hsz Hrb Hrows Hcnt Hb Hst]. unfold snapshot. simpl. rewrite Hst, Hrb, Hcnt.
  pose proof (lk_rows _ _ Hl (os_kind s)) as Hrow. pose proof (lk_prefix _ _ Hl) as Hpre.
  pose proof (lk_id _ _ Hl) as Hid.
  rewrite u64_mul_small by int_nia.
  rewrite Z2Nat.inj_mul, Nat2Z.id by lia.
  rewrite <- (length_rows_image _ _ Hl (os_kind s) rows) by (by apply rows_lengths).
  apply take_app_length.
Qed.

(** ** Lemmas: decoding *)

Lemma load_words_cons count body :
  load_words (S count) body = le_value (take 8 body) :: load_words count (drop 8 body).
Proof.
  unfold load_words. cbn [seq fmap list_fmap]. f_equal.
  rewrite <- fmap_S_seq, <- list_fmap_compose. apply list_fmap_ext. intros i k _. simpl.
  by rewrite drop_drop.
Qed.

Lemma load_words_bytes words :
  Forall is_u64 words -> load_words (length words) (words_bytes words) = words.
Proof.
  induction 1 as [|w words Hw _ IH]; [done|]. cbn [length words_bytes flat_map].
  rewrite load_words_cons. rewrite take_app_length', drop_app_length' by (by rewrite length_le_bytes).
  fold (words_bytes words). rewrite IH, le_value_bytes by int_lia.
  change (2 ^ (8 * Z.of_nat 8)) with u64_modulus. by rewrite Z.mod_small by int_lia.
Qed.

(** Every sequence of bytes is the image of the words read from it. *)
Lemma words_bytes_load count body :
  Forall is_byte body -> length body = (8 * count)%nat ->
  words_bytes (load_words count body) = body /\ Forall is_u64 (load_words count body).
Proof.
  revert body. induction count as [|count IH]; intros body Hb Hlen.
  - destruct body; [done | simpl in Hlen; lia].
  - rewrite load_words_cons. cbn [words_bytes flat_map].
    assert (Ht : length (take 8 body) = 8%nat) by (rewrite length_take; nia).
    assert (Forall is_byte (take 8 body)) as Htb by by apply Forall_take.
    destruct (IH (drop 8 body)) as [E1 E2]; [by apply Forall_drop | rewrite length_drop; lia|].
    unfold words_bytes in E1. rewrite E1. rewrite <- Ht at 1. rewrite le_bytes_value by done.
    split; [apply take_drop|]. constructor; [|done].
    pose proof (le_value_range _ Htb) as Hr. rewrite Ht in Hr.
    change (2 ^ (8 * Z.of_nat 8)) with u64_modulus in Hr. int_lia.
Qed.

Lemma length_load_words count body : length (load_words count body) = count.
Proof. unfold load_words. by rewrite length_fmap, length_seq. Qed.

Section DecodeRows.

Context (run_id : Identifier) (layout : RowLayout).
Hypothesis Hlayout : layout_ok run_id layout.

Lemma verify_prefix_image words : verify_prefix (row_image layout run_id words) layout run_id = true.
Proof.
  destruct Hlayout as [H1 H2 H3 _ _].
  unfold verify_prefix, row_image, prefix_image. rewrite <- !app_assoc.
  rewrite take_app_length', drop_app_length' by (by rewrite length_le_bytes).
  rewrite (drop_app_add' (le_bytes 4 _)) by (by rewrite length_le_bytes).
  rewrite take_app_length', drop_app_length' by (by rewrite length_string_bytes).
  rewrite take_app_length' by (by rewrite length_replicate).
  rewrite !andb_true_iff. split; [split|].
  - apply Z.eqb_eq. rewrite le_value_bytes by apply u32_wrap_range.
    change (2 ^ (8 * Z.of_nat 4)) with u32_modulus. rewrite u32_wrap_id by int_lia.
    rewrite H1. apply Z.mod_small. int_lia.
  - by apply bool_decide_eq_true.
  - apply forallb_forall. intros x Hx. apply list_elem_of_In, elem_of_replicate in Hx as [-> _].
    done.
Qed.

Lemma verify_prefix_inv row :
  Forall is_byte row -> (Z.to_nat (rl_prefix_bytes layout) <= length row)%nat ->
  verify_prefix row layout run_id = true ->
  row = prefix_image (rl_prefix_bytes layout) run_id ++
        drop (Z.to_nat (rl_prefix_bytes layout)) row.
Proof.
  intros Hb Hlen Hv. destruct Hlayout as [H1 H2 H3 _ _]. unfold verify_prefix in Hv.
  rewrite !andb_true_iff in Hv. destruct Hv as [[Hn Hid] Hz].
  apply Z.eqb_eq in Hn. apply bool_decide_eq_true in Hid.
  set (n := String.length run_id) in *. set (p := Z.to_nat (rl_prefix_bytes layout)) in *.
  assert (Hp : (4 + n <= p)%nat) by lia.
  assert (E4 : take 4 row = le_bytes 4 (u32_wrap (Z.of_nat n))).
  { assert (length (take 4 row) = 4%nat) as Ht by (rewrite length_take; nia).
    rewrite u32_wrap_id by int_lia. rewrite <- H1, <- Hn.
    pose proof (le_bytes_value (take 4 row) ltac:(by apply Forall_take)) as E.
    by rewrite Ht in E. }
  assert (Ez : take (p - (4 + n)) (drop (4 + n) row) = replicate (p - (4 + n)) 0).
  { symmetry. apply replicate_as_Forall. split; [rewrite length_take, length_drop; lia|].
    apply Forall_forall. intros x Hx. rewrite forallb_forall in Hz.
    apply Z.eqb_eq, Hz. by apply list_elem_of_In. }
  unfold prefix_image. fold n p. rewrite <- E4, <- Hid, <- Ez, <- !app_assoc.
  rewrite <- (take_drop 4 row) at 1. f_equal. rewrite <- (take_drop n (drop 4 row)) at 1. f_equal.
  rewrite drop_drop. rewrite <- (take_drop (p - (4 + n)) (drop (4 + n) row)) at 1. f_equal.
  rewrite drop_drop. f_equal. lia.
Qed.

Context {A St : Type} (decode : Z -> St -> list Z -> Result (A * St)).

(** The row loop on words instead of bytes. *)
Fixpoint decode_words (index : Z) (state : St) (rows : list (list Z)) : Result (list A) :=
  match rows with
  | [] => success []
  | words :: rest =>
      match decode index state words with
      | failure errors => failure errors
      | success (value, state) =>
          match decode_words (index + 1) state rest with
          | failure errors => failure errors
          | success values => success (value :: values)
          end
      end
  end.

Lemma decode_rows_image kind index state rows :
  Forall (row_words_ok kind) rows ->
  decode_rows layout run_id (expected_row_bytes kind layout) (word_count kind) decode
    (length rows) index state (rows_image layout run_id rows) =
  decode_words index state rows.
Proof.
  intros H. revert index state. induction H as [|words rows [Hlen Hu] _ IH]; intros index state;
    [done|]. cbn [length decode_rows decode_words rows_image flat_map].
  rewrite take_app_length', drop_app_length' by (symmetry; by apply length_row_image).
  rewrite verify_prefix_image. cbn [negb]. unfold row_image at 1.
  rewrite drop_app_length' by (symmetry; by apply length_prefix_image).
  rewrite <- Hlen at 1. rewrite load_words_bytes by done.
  destruct (decode index state words) as [[value st]|errors]; [|done].
  fold (rows_image layout run_id rows). by rewrite IH.
Qed.

(** Accepted bytes are the image of the words they decode from. *)
Lemma decode_rows_inv kind n index state bytes values :
  Forall is_byte bytes -> length bytes = (n * Z.to_nat (expected_row_bytes kind layout))%nat ->
  decode_rows layout run_id (expected_row_bytes kind layout) (word_count kind) decode
    n index state bytes = success values ->
  exists rows, length rows = n /\ bytes = rows_image layout run_id rows /\
    Forall (row_words_ok kind) rows /\ decode_words index state rows = success values.
Proof.
  revert index state bytes values.
  induction n as [|n IH]; intros index state bytes values Hb Hlen Hd.
  - destruct bytes; [|done]. exists []. split_and!; try done.
  - cbn [decode_rows] in Hd. set (rb := Z.to_nat (expected_row_bytes kind layout)) in *.
    pose proof (row_bytes_nat run_id layout Hlayout kind) as Hrb. fold rb in Hrb.
    destruct (verify_prefix (take rb bytes) layout run_id) eqn:Ev; [|done]. cbn [negb] in Hd.
    assert (Htl : length (take rb bytes) = rb) by (rewrite length_take; nia).
    assert (Htb : Forall is_byte (take rb bytes)) by by apply Forall_take.
    apply verify_prefix_inv in Ev as Erow; [|done|lia].
    set (body := drop (Z.to_nat (rl_prefix_bytes layout)) (take rb bytes)) in *.
    destruct (words_bytes_load (word_count kind) body) as [Ew Hu];
      [by apply Forall_drop | unfold body; rewrite length_drop; lia|].
    destruct (decode index state _) as [[value st]|] eqn:Ed; [|done].
    destruct (decode_rows _ _ _ _ _ n _ _ _) as [vs|] eqn:Er; [|done].
    destruct (IH (index + 1) st (drop rb bytes) vs ltac:(by apply Forall_drop) ltac:(rewrite length_drop; nia) Er)
      as (rows & Hn & Ebytes & Hrows & Edec).
    exists (load_words (word_count kind) body :: rows). split; [simpl; lia|].
    split; [|split].
    + cbn [rows_image flat_map]. unfold row_image at 1. rewrite Ew, <- Erow.
      fold (rows_image layout run_id rows). rewrite <- Ebytes. symmetry. apply take_drop.
    + constructor; [|done]. split; [apply length_load_words | done].
    + cbn [decode_words]. rewrite Ed, Edec. done.
Qed.

End DecodeRows.

(** ** Canonical observation sequences *)

(** What the producer records: consecutive sequence numbers, consecutive ordinals
    on accepted rows, no accepted-only field elsewhere, 64-bit words. *)
Fixpoint producers_canonical (index expected : Z) (obs : list ProducerObservation) : Prop :=
  match obs with
  | [] => True
  | o :: rest =>
      po_logical_sequence o = index /\ Forall is_u64 (producer_words o) /\
      match po_outcome o with
      | ProducerOutcome_accepted =>
          is_Some (po_enqueue_linearization o) /\ po_accepted_ordinal o = Some expected /\
          producers_canonical (index + 1) (expected + 1) rest
      | ProducerOutcome_full =>
          po_enqueue_linearization o = None /\ po_accepted_ordinal o = None /\
          producers_canonical (index + 1) expected rest
      end
  end.

Fixpoint consumers_canonical (index : Z) (obs : list ConsumerObservation) : Prop :=
  match obs with
  | [] => True
  | o :: rest =>
      co_consumed_ordinal o = index /\ Forall is_u64 (consumer_words o) /\
      consumers_canonical (index + 1) rest
  end.

Fixpoint joined_canonical (run_id : Identifier) (index : Z) (rows : list JoinedRecord) : Prop :=
  match rows with
  | [] => True
  | r :: rest =>
      jr_run_id r = run_id /\ jr_accepted_ordinal r = index /\ Forall is_u64 (joined_words r) /\
      joined_canonical run_id (index + 1) rest
  end.

Lemma decode_producer_words run_id index expected obs :
  producers_canonical index expected obs -> 0 <= expected ->
  expected + Z.of_nat (length obs) <= u64_max ->
  decode_words (decode_producer_row run_id) index expected (producer_words <$> obs) =
    success (mkDecodedProducerRow run_id <$> obs).
Proof.
  revert index expected. induction obs as [|o rest IH]; intros index expected Hc He Hb; [done|].
  cbn [length] in Hb. destruct Hc as (Hseq & Hu & Hc). cbn [fmap list_fmap decode_words].
  destruct o as [s i a b c u lin r outcome ord]. simpl in Hseq, Hc. subst s.
  destruct outcome.
  - destruct Hc as ([l ->] & -> & Hc). unfold decode_producer_row, producer_words. simpl.
    rewrite !Z.eqb_refl. simpl. rewrite u64_add_small by int_lia. rewrite IH by (done || lia).
    by destruct b, c, u, l, r.
  - destruct Hc as (-> & -> & Hc). unfold decode_producer_row, producer_words. simpl.
    rewrite Z.eqb_refl. simpl. rewrite IH by (done || lia). by destruct b, c, u, r.
Qed.

Lemma decode_consumer_words run_id index obs :
  consumers_canonical index obs ->
  decode_words (stateless (decode_consumer_row run_id)) index tt (consumer_words <$> obs) =
    success (mkDecodedConsumerRow run_id <$> obs).
Proof.
  revert index. induction obs as [|o rest IH]; intros index Hc; [done|].
  destruct Hc as (Hseq & Hu & Hc). cbn [fmap list_fmap decode_words].
  assert (stateless (decode_consumer_row run_id) index tt (consumer_words o) =
    success (mkDecodedConsumerRow run_id o, tt)) as ->.
  { unfold stateless, decode_consumer_row, consumer_words. rewrite Hseq, Z.eqb_refl.
    destruct o as [q i [] [] [] []]. simpl in *. by subst. }
  by rewrite (IH _ Hc).
Qed.

Lemma decode_joined_words run_id index rows :
  joined_canonical run_id index rows ->
  decode_words (stateless (decode_joined_row run_id)) index tt (joined_words <$> rows) =
    success rows.
Proof.
  revert index. induction rows as [|r rest IH]; intros index Hc; [done|].
  destruct Hc as (Hrun & Hseq & Hu & Hc). cbn [fmap list_fmap decode_words].
  assert (stateless (decode_joined_row run_id) index tt (joined_words r) = success (r, tt)) as ->.
  { unfold stateless, decode_joined_row, joined_words. rewrite Hseq, Z.eqb_refl.
    destruct r. simpl in *. by subst. }
  by rewrite (IH _ Hc).
Qed.

(** The words of decoded rows. *)
Definition decoded_words (rows : DecodedRows) : list (list Z) :=
  match rows with
  | Decoded_producer rows => (fun r => producer_words (dp_observation r)) <$> rows
  | Decoded_consumer rows => (fun r => consumer_words (dc_observation r)) <$> rows
  | Decoded_joined rows => joined_words <$> rows
  end.

Lemma decode_producer_row_inv run_id index expected words value next :
  length words = 15%nat ->
  decode_producer_row run_id index expected words = success (value, next) ->
  producer_words (dp_observation value) = words.
Proof.
  intros Hlen. destruct words as [|w0 [|w1 [|w2 [|w3 [|w4 [|w5 [|w6 [|w7 [|w8 [|w9 [|w10
    [|w11 [|w12 [|w13 [|w14 [|w15 words]]]]]]]]]]]]]]]]; try discriminate Hlen.
  unfold decode_producer_row. destruct (negb (w0 =? index) || _) eqn:E1; [done|].
  apply orb_false_iff in E1 as [_ E1].
  destruct (Z.eqb_spec w14 kProducerAcceptedFlags) as [->|Hne]; simpl.
  - destruct (negb (w13 =? expected)) eqn:E2; [done|]. simpl. intros E. by injection E as <- <-.
  - simpl in E1. apply negb_false_iff, Z.eqb_eq in E1 as ->.
    destruct (negb (w9 =? 0)) eqn:E9; [done|]. destruct (negb (w10 =? 0)) eqn:E10; [done|].
    destruct (negb (w13 =? 0)) eqn:E13; [done|]. apply negb_false_iff, Z.eqb_eq in E9, E10, E13.
    subst. intros E. by injection E as <- <-.
Qed.

Lemma decode_consumer_row_inv run_id index words value :
  length words = 10%nat -> decode_consumer_row run_id index words = success value ->
  consumer_words (dc_observation value) = words.
Proof.
  intros Hlen. destruct words as [|w0 [|w1 [|w2 [|w3 [|w4 [|w5 [|w6 [|w7 [|w8 [|w9
    [|w10 words]]]]]]]]]]]; try discriminate Hlen.
  unfold decode_consumer_row. destruct (negb _); [done|]. intros E. by injection E as <-.
Qed.

Lemma decode_joined_row_inv run_id index words value :
  length words = 24%nat -> decode_joined_row run_id index words = success value ->
  joined_words value = words.
Proof.
  intros Hlen. destruct words as [|w0 [|w1 [|w2 [|w3 [|w4 [|w5 [|w6 [|w7 [|w8 [|w9 [|w10
    [|w11 [|w12 [|w13 [|w14 [|w15 [|w16 [|w17 [|w18 [|w19 [|w20 [|w21 [|w22 [|w23
    [|w24 words]]]]]]]]]]]]]]]]]]]]]]]]]; try discriminate Hlen.
  unfold decode_joined_row. destruct (negb _); [done|]. intros E. by injection E as <-.
Qed.

(** A row decoder whose inverse is [encode] makes the loop invertible. *)
Lemma decode_words_inv {A St} (decode : Z -> St -> list Z -> Result (A * St))
    (encode : A -> list Z) kind index state rows values :
  (forall index state words value next, length words = word_count kind ->
     decode index state words = success (value, next) -> encode value = words) ->
  Forall (row_words_ok kind) rows ->
  decode_words decode index state rows = success values -> rows = encode <$> values.
Proof.
  intros Hrow H. revert index state values.
  induction H as [|words rows [Hw _] _ IH]; intros index state values Hd; cbn [decode_words] in Hd.
  - by injection Hd as <-.
  - destruct (decode index state words) as [[value st]|] eqn:E1; [|done].
    destruct (decode_words decode (index + 1) st rows) as [vs|] eqn:E2; [|done].
    injection Hd as <-. cbn [fmap list_fmap]. by rewrite (Hrow _ _ _ _ _ Hw E1), (IH _ _ _ E2).
Qed.

Lemma stateless_success {A} (decode : Z -> list Z -> Result A) index state words value next :
  stateless decode index state words = success (value, next) -> decode index words = success value.
Proof. unfold stateless. destruct (decode index words); [by intros [= ->] | done]. Qed.

(** ** Whole streams *)

(** Append one after the other; [None] when some append was refused. *)
Fixpoint append_all {O : Type} (append : ObservationStream -> O -> ObservationStream * AppendStatus)
    (s : ObservationStream) (obs : list O) : option ObservationStream :=
  match obs with
  | [] => Some s
  | o :: rest =>
      match append s o with
      | (s, AppendStatus_appended) => append_all append s rest
      | _ => None
      end
  end.

(** An envelope that describes these bytes. *)
Definition envelope_matches (sha256 : list Z -> Sha256) (envelope : RawObservationEnvelope)
    (kind : StreamKind) (run_id : Identifier) (rows : nat) (bytes : list Z) : Prop :=
  envelope_error sha256 envelope bytes = None /\ ro_run_id envelope = run_id /\
  ro_stream_kind envelope = kind /\ ro_row_count envelope = Z.of_nat rows /\
  ro_byte_count envelope = Z.of_nat (length bytes).

Lemma producer_append_holds s rows o s' :
  stream_holds s rows -> os_kind s = StreamKind_producer -> Forall is_u64 (producer_words o) ->
  producer_append s o = (s', AppendStatus_appended) ->
  stream_holds s' (rows ++ [producer_words o]) /\
  os_kind s' = os_kind s /\ os_run_id s' = os_run_id s /\ os_layout s' = os_layout s.
Proof.
  intros Hs Hk Hu Ha. unfold producer_append in Ha.
  rewrite (sh_prepared _ _ Hs) in Ha. cbn [negb] in Ha.
  destruct (is_writing s); [|done]. cbn [negb] in Ha.
  destruct (_ || _); [done|].
  destruct (Z.lt_ge_cases (os_row_count s) (os_row_capacity s)) as [Hlt|Hge].
  - destruct (append_words_holds s rows (producer_words o) Hs) as (s1 & E & H1 & H2 & H3 & H4 & _);
      [by rewrite Hk | done|]. rewrite E in Ha. injection Ha as <-. done.
  - unfold append_words in Ha. pose proof (sh_bound _ _ Hs).
    rewrite (proj2 (Z.eqb_eq _ _)) in Ha by lia. done.
Qed.

Lemma consumer_append_holds s rows o s' :
  stream_holds s rows -> os_kind s = StreamKind_consumer -> Forall is_u64 (consumer_words o) ->
  consumer_append s o = (s', AppendStatus_appended) ->
  stream_holds s' (rows ++ [consumer_words o]) /\
  os_kind s' = os_kind s /\ os_run_id s' = os_run_id s /\ os_layout s' = os_layout s.
Proof.
  intros Hs Hk Hu Ha. unfold consumer_append in Ha.
  rewrite (sh_prepared _ _ Hs) in Ha. cbn [negb] in Ha.
  destruct (is_writing s); [|done]. cbn [negb] in Ha.
  destruct (Z.lt_ge_cases (os_row_count s) (os_row_capacity s)) as [Hlt|Hge].
  - destruct (append_words_holds s rows (consumer_words o) Hs) as (s1 & E & H1 & H2 & H3 & H4 & _);
      [by rewrite Hk | done|]. rewrite E in Ha. injection Ha as <-. done.
  - unfold append_words in Ha. pose proof (sh_bound _ _ Hs).
    rewrite (proj2 (Z.eqb_eq _ _)) in Ha by lia. done.
Qed.

Lemma append_all_holds {O} (append : ObservationStream -> O -> ObservationStream * AppendStatus)
    (words : O -> list Z) kind :
  (forall s rows o s', stream_holds s rows -> os_kind s = kind -> Forall is_u64 (words o) ->
     append s o = (s', AppendStatus_appended) ->
     stream_holds s' (rows ++ [words o]) /\ os_kind s' = os_kind s /\
     os_run_id s' = os_run_id s /\ os_layout s' = os_layout s) ->
  forall obs s rows s', stream_holds s rows -> os_kind s = kind ->
    Forall (fun o => Forall is_u64 (words o)) obs -> append_all append s obs = Some s' ->
    stream_holds s' (rows ++ (words <$> obs)) /\ os_kind s' = kind /\
    os_run_id s' = os_run_id s /\ os_layout s' = os_layout s.
Proof.
  intros Happend obs. induction obs as [|o rest IH]; intros s rows s' Hs Hk Hu Ha.
  - injection Ha as <-. simpl. by rewrite app_nil_r.
  - apply Forall_cons in Hu as [Ho Hu]. simpl in Ha.
    destruct (append s o) as [s1 []] eqn:E; try done.
    destruct (Happend _ _ _ _ Hs Hk Ho E) as (H1 & H2 & H3 & H4).
    destruct (IH s1 _ s' H1 ltac:(congruence) Hu Ha) as (G1 & G2 & G3 & G4).
    rewrite <- app_assoc in G1. split; [done|]. split; [done|]. by rewrite G3, G4.
Qed.

(** The size check of the decoder passes for an image. *)
Lemma exact_size run_id layout kind rows :
  layout_ok run_id layout -> Forall (row_words_ok kind) rows ->
  Z.of_nat (length rows) * expected_row_bytes kind layout <= u64_max ->
  raw_checked_multiply (Z.of_nat (length rows)) (expected_row_bytes kind layout) =
    Some (Z.of_nat (length (rows_image layout run_id rows))).
Proof.
  intros Hl Hrows Hsz. pose proof (lk_rows _ _ Hl kind) as Hr. pose proof (lk_prefix _ _ Hl).
  pose proof (lk_id _ _ Hl).
  assert (is_u64 (Z.of_nat (length rows))) by int_nia.
  assert (is_u64 (expected_row_bytes kind layout)) by (destruct kind; simpl in *; int_lia).
  apply raw_checked_multiply_spec; [done..|].
  rewrite (length_rows_image run_id layout Hl kind) by by apply rows_lengths.
  split; [|done]. rewrite Nat2Z.inj_mul, Z2Nat.id by int_lia. done.
Qed.

Section Decode.

Context (sha256 : list Z -> Sha256).

Lemma decode_producer_image envelope layout run_id obs :
  make_row_layout run_id = Returned layout -> producers_canonical 0 0 obs ->
  Forall (producer_row_ok run_id) (make_producer_record run_id <$> obs) ->
  Z.of_nat (length obs) * rl_producer_row_bytes layout <= u64_max ->
  let bytes := rows_image layout run_id (producer_words <$> obs) in
  envelope_matches sha256 envelope StreamKind_producer run_id (length obs) bytes ->
  decode_external_raw sha256 envelope bytes =
    success (mkDecodedRawStream StreamKind_producer
               (Decoded_producer (mkDecodedProducerRow run_id <$> obs))).
Proof.
  intros El Hcan Hrows Hsz bytes (He & Hrun & Hkind & Hn & Hb).
  destruct (make_row_layout_ok run_id layout El) as [Hl _].
  assert (Hw : Forall (row_words_ok StreamKind_producer) (producer_words <$> obs)).
  { apply Forall_fmap. clear -Hcan. revert Hcan. generalize 0 at 1 as i. generalize 0 as e.
    induction obs as [|o rest IH]; intros e i Hc; [done|]. destruct Hc as (_ & Hu & Hc).
    constructor; [by split|]. destruct (po_outcome o); destruct Hc as (_ & _ & Hc); eauto. }
  unfold decode_external_raw. rewrite He, Hrun, El, Hkind, Hn. cbn [expected_row_bytes].
  pose proof (exact_size run_id layout _ _ Hl Hw) as Hex. rewrite length_fmap in Hex.
  cbn [expected_row_bytes] in Hex. rewrite Hex by done. rewrite Hb. fold bytes.
  rewrite !Z.eqb_refl. cbn [negb orb]. rewrite Nat2Z.id.
  pose proof (decode_rows_image run_id layout Hl (decode_producer_row run_id)
    StreamKind_producer 0 0 _ Hw) as Hd. rewrite length_fmap in Hd.
  cbn [expected_row_bytes word_count] in Hd. unfold bytes. rewrite Hd.
  assert (Z.of_nat (length obs) <= u64_max).
  { pose proof (lk_rows _ _ Hl StreamKind_producer) as Hr. simpl in Hr.
    pose proof (lk_prefix _ _ Hl). pose proof (lk_id _ _ Hl). nia. }
  rewrite decode_producer_words by (done || lia).
  unfold validated_stream. rewrite Hrun.
  assert ((fun r => make_producer_record run_id (dp_observation r)) <$>
    (mkDecodedProducerRow run_id <$> obs) = make_producer_record run_id <$> obs) as ->
    by (by rewrite <- list_fmap_compose).
  assert (validate_raw (with_inline_rows envelope
    (Rows_producer (make_producer_record run_id <$> obs))) = []) as Hv.
  { unfold validate_raw, row_count_errors. cbn [with_inline_rows ro_storage ro_row_count ro_run_id].
    apply app_nil. rewrite Hn, Hrun, length_fmap, Z.eqb_refl. split; [done|].
    apply (validate_rows_nil _ (producer_row_ok run_id)); [|done].
    intros row path _. apply validate_producer_nil. }
  by rewrite Hv, Hkind.
Qed.

Lemma decode_consumer_image envelope layout run_id obs :
  make_row_layout run_id = Returned layout -> consumers_canonical 0 obs ->
  Forall (consumer_row_ok run_id) (make_consumer_record run_id <$> obs) ->
  Z.of_nat (length obs) * rl_consumer_row_bytes layout <= u64_max ->
  let bytes := rows_image layout run_id (consumer_words <$> obs) in
  envelope_matches sha256 envelope StreamKind_consumer run_id (length obs) bytes ->
  decode_external_raw sha256 envelope bytes =
    success (mkDecodedRawStream StreamKind_consumer
               (Decoded_consumer (mkDecodedConsumerRow run_id <$> obs))).
Proof.
  intros El Hcan Hrows Hsz bytes (He & Hrun & Hkind & Hn & Hb).
  destruct (make_row_layout_ok run_id layout El) as [Hl _].
  assert (Hw : Forall (row_words_ok StreamKind_consumer) (consumer_words <$> obs)).
  { apply Forall_fmap. clear -Hcan. revert Hcan. generalize 0 as i.
    induction obs as [|o rest IH]; intros i Hc; [done|]. destruct Hc as (_ & Hu & Hc).
    constructor; [by split | eauto]. }
  unfold decode_external_raw. rewrite He, Hrun, El, Hkind, Hn. cbn [expected_row_bytes].
  pose proof (exact_size run_id layout _ _ Hl Hw) as Hex. rewrite length_fmap in Hex.
  cbn [expected_row_bytes] in Hex. rewrite Hex by done. rewrite Hb. fold bytes.
  rewrite !Z.eqb_refl. cbn [negb orb]. rewrite Nat2Z.id.
  pose proof (decode_rows_image run_id layout Hl (stateless (decode_consumer_row run_id))
    StreamKind_consumer 0 tt _ Hw) as Hd. rewrite length_fmap in Hd.
  cbn [expected_row_bytes word_count] in Hd. unfold bytes.
  rewrite Hd, decode_consumer_words by done. unfold validated_stream. rewrite Hrun.
  assert ((fun r => make_consumer_record run_id (dc_observation r)) <$>
    (mkDecodedConsumerRow run_id <$> obs) = make_consumer_record run_id <$> obs) as ->
    by (by rewrite <- list_fmap_compose).
  assert (validate_raw (with_inline_rows envelope
    (Rows_consumer (make_consumer_record run_id <$> obs))) = []) as Hv.
  { unfold validate_raw, row_count_errors. cbn [with_inline_rows ro_storage ro_row_count ro_run_id].
    apply app_nil. rewrite Hn, Hrun, length_fmap, Z.eqb_refl. split; [done|].
    apply (validate_rows_nil _ (consumer_row_ok run_id)); [|done].
    intros row path _. apply validate_consumer_nil. }
  by rewrite Hv, Hkind.
Qed.

Lemma validated_stream_rows envelope rows stream :
  validated_stream envelope rows = success stream -> ds_rows stream = rows.
Proof. unfold validated_stream. destruct (validate_raw _); [by intros [= <-] | done]. Qed.

(** Accepted artifacts are images. *)
Lemma decode_external_canonical envelope bytes stream :
  Forall is_byte bytes -> is_u64 (ro_row_count envelope) ->
  decode_external_raw sha256 envelope bytes = success stream ->
  exists layout, make_row_layout (ro_run_id envelope) = Returned layout /\
    bytes = rows_image layout (ro_run_id envelope) (decoded_words (ds_rows stream)) /\
    Z.of_nat (length (decoded_words (ds_rows stream))) = ro_row_count envelope.
Proof.
  intros Hb Hn Hd. unfold decode_external_raw in Hd.
  destruct (envelope_error sha256 envelope bytes); [done|].
  destruct (make_row_layout (ro_run_id envelope)) as [layout|] eqn:El; [|done].
  destruct (make_row_layout_ok _ _ El) as [Hl _]. exists layout. split; [done|].
  set (kind := ro_stream_kind envelope) in *. set (id := ro_run_id envelope) in *.
  destruct (raw_checked_multiply (ro_row_count envelope) (expected_row_bytes kind layout))
    as [exact|] eqn:Em; [|done].
  pose proof (lk_rows _ _ Hl kind) as Hr. pose proof (lk_prefix _ _ Hl). pose proof (lk_id _ _ Hl).
  apply raw_checked_multiply_spec in Em as [-> Hsz]; [|done|destruct kind; simpl in *; int_lia].
  destruct (_ || _) eqn:Eb; [done|]. apply orb_false_iff in Eb as [_ Eb].
  apply negb_false_iff, Z.eqb_eq in Eb.
  assert (Hlen : length bytes =
    (Z.to_nat (ro_row_count envelope) * Z.to_nat (expected_row_bytes kind layout))%nat) by nia.
  assert (Hfinish : forall {A St} (decode : Z -> St -> list Z -> Result (A * St))
      (encode : A -> list Z) state values,
    (forall index state words value next, length words = word_count kind ->
       decode index state words = success (value, next) -> encode value = words) ->
    decode_rows layout id (expected_row_bytes kind layout) (word_count kind) decode
      (Z.to_nat (ro_row_count envelope)) 0 state bytes = success values ->
    bytes = rows_image layout id (encode <$> values) /\
    Z.of_nat (length (encode <$> values)) = ro_row_count envelope).
  { intros A St decode encode state values Henc Hdec.
    destruct (decode_rows_inv id layout Hl decode kind _ _ _ _ _ Hb Hlen Hdec)
      as (rows & Hrows & -> & Hw & Edec).
    rewrite <- (decode_words_inv decode encode kind _ _ _ _ Henc Hw Edec).
    split; [done|]. rewrite Hrows. unfold is_u64 in Hn. lia. }
  destruct kind; destruct (decode_rows _ _ _ _ _ _ _ _ _) as [values|] eqn:E; try done;
    apply validated_stream_rows in Hd; rewrite Hd; cbn [decoded_words].
  - refine (Hfinish _ _ _ (fun r => producer_words (dp_observation r)) _ _ _ E).
    intros ? ? ? ? ?. apply decode_producer_row_inv.
  - refine (Hfinish _ _ _ (fun r => consumer_words (dc_observation r)) _ _ _ E).
    intros ? ? ? ? ? Hw Hs. eapply decode_consumer_row_inv; [done | by eapply stateless_success].
  - refine (Hfinish _ _ _ joined_words _ _ _ E).
    intros ? ? ? ? ? Hw Hs. eapply decode_joined_row_inv; [done | by eapply stateless_success].
Qed.

End Decode.

Lemma producers_words_u64 index expected obs :
  producers_canonical index expected obs -> Forall (fun o => Forall is_u64 (producer_words o)) obs.
Proof.
  revert index expected. induction obs as [|o rest IH]; intros index expected Hc; [done|].
  destruct Hc as (_ & Hu & Hc). constructor; [done|].
  destruct (po_outcome o); destruct Hc as (_ & _ & Hc); eauto.
Qed.

Lemma consumers_words_u64 index obs :
  consumers_canonical index obs -> Forall (fun o => Forall is_u64 (consumer_words o)) obs.
Proof.
  revert index. induction obs as [|o rest IH]; intros index Hc; [done|].
  destruct Hc as (_ & Hu & Hc). constructor; eauto.
Qed.

(** The rows of a stream fit in 64 bits. *)
Lemma stream_size s rows n :
  stream_holds s rows -> length rows = n ->
  Z.of_nat n * expected_row_bytes (os_kind s) (os_layout s) <= u64_max.
Proof.
  intros [Hl _ _ Hsz _ _ Hcnt Hb _] <-. pose proof (lk_rows _ _ Hl (os_kind s)).
  pose proof (lk_prefix _ _ Hl). pose proof (lk_id _ _ Hl). nia.
Qed.

(** ** Example *)

(** Word lists of examples are checked by evaluation. *)
Lemma u64_words_check l :
  forallb (fun z => (0 <=? z) && (z <=? u64_max)) l = true -> Forall is_u64 l.
Proof.
  intros H. apply Forall_forall. intros z Hz%list_elem_of_In.
  rewrite forallb_forall in H. specialize (H z Hz). unfold is_u64. lia.
Qed.

Definition example_sha (bytes : list Z) : Sha256 := mkSha256 (replicate 32 7).

Definition example_fresh (n : nat) : list Z := replicate n 170.

Definition sample (t : Z) : ClockSample := mkClockSample (1000 + t) t.

Definition example_producer_obs : list ProducerObservation :=
  [mkProducerObservation 0 3 10 (sample 11) (sample 12) (sample 13) (Some (sample 14)) (sample 15)
     ProducerOutcome_accepted (Some 0);
   mkProducerObservation 1 4 20 (sample 21) (sample 22) (sample 23) None (sample 25)
     ProducerOutcome_full None].

Definition stream_or (r : Throws ObservationStream) (d : ObservationStream) : ObservationStream :=
  match r with Returned s => s | Threw _ => d end.

Definition example_stream0 : ObservationStream :=
  stream_or (ObservationStream_make StreamKind_producer example_fresh "run1" 2)
    (mkObservationStream StreamKind_producer "" (mkRowLayout 0 0 0 0 0) [] 0 0 0
       StreamCompleteness_writing false false).

Definition example_stream1 : ObservationStream := fst (prepare_for_owner example_stream0).

Definition example_stream2 : ObservationStream :=
  default example_stream1 (append_all producer_append example_stream1 example_producer_obs).

Definition example_envelope (bytes : list Z) : RawObservationEnvelope :=
  mkRawObservationEnvelope ProtocolVersion_v2_0_0_pre_2 ProtocolVersion_v2_0_0_pre_2 "artifact"
    "run1" StreamKind_producer ProtocolVersion_v2_0_0_pre_2 kRawFormatId kRawEncoding kRawTimeUnit
    Endianness_little_endian kRawCompression 2 (Z.of_nat (length bytes)) (ExternalStorage "uri") []
    (mkArtifactReference "integrity" (mkSha256 [])) (example_sha bytes) Json.Value_null.

(** ** Properties *)

(** Observation streams round trip: whatever freshly allocated memory holds,
    observations appended to a prepared producer (or consumer) stream come back
    unchanged from [decode_external_raw] of the snapshot's bytes under an
    envelope that describes them, provided they are what the capture path
    records (consecutive indexes and ordinals, accepted-only fields exactly on
    accepted rows, ordered timestamps). *)
Theorem observation_streams_roundtrip sha256 fresh run_id capacity :
  (forall n, length (fresh n) = n) -> is_u64 capacity ->
  (forall s0 s1 s2 obs envelope,
     ObservationStream_make StreamKind_producer fresh run_id capacity = Returned s0 ->
     prepare_for_owner s0 = (s1, true) -> append_all producer_append s1 obs = Some s2 ->
     producers_canonical 0 0 obs ->
     Forall (producer_row_ok run_id) (make_producer_record run_id <$> obs) ->
     envelope_matches sha256 envelope StreamKind_producer run_id (length obs)
       (ss_bytes (snapshot s2)) ->
     decode_external_raw sha256 envelope (ss_bytes (snapshot s2)) =
       success (mkDecodedRawStream StreamKind_producer
                  (Decoded_producer (mkDecodedProducerRow run_id <$> obs)))) /\
  (forall s0 s1 s2 obs envelope,
     ObservationStream_make StreamKind_consumer fresh run_id capacity = Returned s0 ->
     prepare_for_owner s0 = (s1, true) -> append_all consumer_append s1 obs = Some s2 ->
     consumers_canonical 0 obs ->
     Forall (consumer_row_ok run_id) (make_consumer_record run_id <$> obs) ->
     envelope_matches sha256 envelope StreamKind_consumer run_id (length obs)
       (ss_bytes (snapshot s2)) ->
     decode_external_raw sha256 envelope (ss_bytes (snapshot s2)) =
       success (mkDecodedRawStream StreamKind_consumer
                  (Decoded_consumer (mkDecodedConsumerRow run_id <$> obs)))).
Proof.
  intros Hfresh Hcap. split; intros s0 s1 s2 obs envelope Hm Hp Ha Hcan Hrows Henv.
  - destruct (prepared_stream_holds _ _ _ _ _ Hfresh Hcap Hm)
      as (s1' & Hp' & Hh & Hk & Hrun & Hc & Hl & _).
    rewrite Hp in Hp'. injection Hp' as <-.
    destruct (append_all_holds producer_append producer_words StreamKind_producer
      producer_append_holds obs s1 [] s2 Hh Hk (producers_words_u64 _ _ _ Hcan) Ha)
      as (Hh2 & Hk2 & Hrun2 & Hl2). simpl in Hh2.
    rewrite (snapshot_bytes _ _ Hh2), Hrun2, Hl2, Hrun in *.
    apply decode_producer_image; try done.
    pose proof (stream_size s2 _ (length obs) Hh2 ltac:(by rewrite length_fmap)) as Hsz.
    by rewrite Hk2, Hl2 in Hsz.
  - destruct (prepared_stream_holds _ _ _ _ _ Hfresh Hcap Hm)
      as (s1' & Hp' & Hh & Hk & Hrun & Hc & Hl & _).
    rewrite Hp in Hp'. injection Hp' as <-.
    destruct (append_all_holds consumer_append consumer_words StreamKind_consumer
      consumer_append_holds obs s1 [] s2 Hh Hk (consumers_words_u64 _ _ Hcan) Ha)
      as (Hh2 & Hk2 & Hrun2 & Hl2). simpl in Hh2.
    rewrite (snapshot_bytes _ _ Hh2), Hrun2, Hl2, Hrun in *.
    apply decode_consumer_image; try done.
    pose proof (stream_size s2 _ (length obs) Hh2 ltac:(by rewrite length_fmap)) as Hsz.
    by rewrite Hk2, Hl2 in Hsz.
Qed.

Lemma observation_streams_roundtrip_witness :
  decode_external_raw example_sha (example_envelope (ss_bytes (snapshot example_stream2)))
    (ss_bytes (snapshot example_stream2)) =
  success (mkDecodedRawStream StreamKind_producer
             (Decoded_producer (mkDecodedProducerRow "run1" <$> example_producer_obs))).
Proof.
  refine (proj1 (observation_streams_roundtrip example_sha example_fresh "run1" 2 _ _)
    example_stream0 example_stream1 example_stream2 example_producer_obs _ _ _ _ _ _ _).
  - intros n. apply length_replicate.
  - unfold is_u64, u64_max. lia.
  - vm_compute. reflexivity.
  - vm_compute. reflexivity.
  - vm_compute. reflexivity.
  - simpl. unfold is_u64, u64_max.
    repeat match goal with
      | |- _ /\ _ => split
      | |- Forall _ _ => repeat constructor
      | |- is_Some _ => eexists; reflexivity
      end; reflexivity || (simpl; lia) || exact I || (vm_compute; intros ?; discriminate).
  - unfold producer_row_ok, make_producer_record, example_producer_obs, sample. simpl.
    repeat match goal with
      | |- Forall _ [] => constructor
      | |- Forall _ (_ :: _) => constructor
      | |- _ /\ _ => split
      | |- is_Some _ => eexists; reflexivity
      | |- exists _, _ => eexists
      | |- match _ with _ => _ end => simpl
      end; reflexivity || (simpl; lia).
  - unfold envelope_matches. split_and!; vm_compute; reflexivity.
Defined.

(** The raw format is canonical: bytes that [decode_external_raw] accepts are
    exactly the image of the rows it returns (prefix, padding and every word),
    as many as the envelope says; hence two artifacts accepted for the same run
    with the same rows are the same bytes. *)
Theorem raw_decoding_canonical sha256 envelope envelope' bytes bytes' stream stream' :
  Forall is_byte bytes -> Forall is_byte bytes' ->
  is_u64 (ro_row_count envelope) -> is_u64 (ro_row_count envelope') ->
  decode_external_raw sha256 envelope bytes = success stream ->
  decode_external_raw sha256 envelope' bytes' = success stream' ->
  (exists layout, make_row_layout (ro_run_id envelope) = Returned layout /\
     bytes = rows_image layout (ro_run_id envelope) (decoded_words (ds_rows stream)) /\
     Z.of_nat (length (decoded_words (ds_rows stream))) = ro_row_count envelope) /\
  (ro_run_id envelope = ro_run_id envelope' -> ds_rows stream = ds_rows stream' ->
   bytes = bytes').
Proof.
  intros Hb Hb' Hn Hn' Hd Hd'.
  destruct (decode_external_canonical _ _ _ _ Hb Hn Hd) as (layout & El & E & Ec).
  destruct (decode_external_canonical _ _ _ _ Hb' Hn' Hd') as (layout' & El' & E' & _).
  split; [by exists layout|]. intros Hrun Hrows. rewrite E, E', Hrows, Hrun.
  rewrite Hrun, El' in El. by injection El as ->.
Qed.

Lemma raw_decoding_canonical_witness :
  exists layout, make_row_layout "run1" = Returned layout /\
    ss_bytes (snapshot example_stream2) =
      rows_image layout "run1" (producer_words <$> example_producer_obs).
Proof.
  set (bytes := ss_bytes (snapshot example_stream2)).
  set (stream := mkDecodedRawStream StreamKind_producer
             (Decoded_producer (mkDecodedProducerRow "run1" <$> example_producer_obs))).
  assert (Hb : Forall is_byte bytes).
  { apply (Forall_impl (fun b => ((0 <=? b) && (b <? 256)) = true)).
    - apply Forall_forall. intros x Hx. apply list_elem_of_In in Hx.
      assert (forallb (fun b => (0 <=? b) && (b <? 256)) bytes = true) as H by (vm_compute; reflexivity).
      rewrite forallb_forall in H. by apply H.
    - intros b H. unfold is_byte. lia. }
  assert (Hd : decode_external_raw example_sha (example_envelope bytes) bytes = success stream)
    by (vm_compute; reflexivity).
  destruct (raw_decoding_canonical example_sha (example_envelope bytes) (example_envelope bytes)
    bytes bytes stream stream Hb Hb ltac:(unfold is_u64, u64_max; simpl; lia)
    ltac:(unfold is_u64, u64_max; simpl; lia) Hd Hd)
    as [(layout & E1 & E2 & _) _].
  exists layout. split; assumption.
Defined.

(** Appends never lose or overwrite a row: on a prepared writing stream with
    room an append of a well-formed observation adds exactly its row; on a full
    one it seals the stream as incomplete, marks the overflow and leaves every
    byte; a sealed stream refuses all appends and cannot be sealed complete. *)
Theorem stream_append_exact s rows o :
  stream_holds s rows -> os_kind s = StreamKind_producer -> is_writing s = true ->
  Forall is_u64 (producer_words o) ->
  (po_outcome o = ProducerOutcome_accepted <-> is_Some (po_enqueue_linearization o)) ->
  (po_outcome o = ProducerOutcome_accepted <-> is_Some (po_accepted_ordinal o)) ->
  let '(s', status) := producer_append s o in
  (os_row_count s < os_row_capacity s ->
     status = AppendStatus_appended /\ stream_holds s' (rows ++ [producer_words o]) /\
     is_writing s' = true) /\
  (os_row_count s = os_row_capacity s ->
     status = AppendStatus_buffer_overflow /\ stream_holds s' rows /\
     os_completeness s' = StreamCompleteness_sealed_incomplete /\ os_overflowed s' = true /\
     snd (seal_complete s') = false /\
     forall o', producer_append s' o' = (s', AppendStatus_stream_sealed)).
Proof.
  intros Hs Hk Hw Hu Hlin Hord. unfold producer_append.
  rewrite (sh_prepared _ _ Hs), Hw. cbn [negb].
  assert (Hv : negb (Bool.eqb (bool_decide (po_outcome o = ProducerOutcome_accepted))
      (bool_decide (is_Some (po_enqueue_linearization o)))) ||
    negb (Bool.eqb (bool_decide (po_outcome o = ProducerOutcome_accepted))
      (bool_decide (is_Some (po_accepted_ordinal o)))) = false).
  { rewrite <- (bool_decide_ext _ _ Hlin), <- (bool_decide_ext _ _ Hord).
    by rewrite Bool.eqb_reflx. }
  rewrite Hv. destruct (append_words s (producer_words o)) as [s' status] eqn:E. split.
  - intros Hlt. destruct (append_words_holds s rows (producer_words o) Hs)
      as (s1 & E1 & H1 & _ & _ & _ & _ & H2 & _); [by rewrite Hk | done|].
    rewrite E1 in E. injection E as <- <-. split; [done|]. split; [done|].
    unfold is_writing in *. by rewrite H2.
  - intros Heq. unfold append_words in E. rewrite Heq, Z.eqb_refl in E. injection E as <- <-.
    split; [done|]. split; [destruct Hs; by constructor|]. split; [done|]. split; [done|].
    unfold seal_complete, is_writing. simpl. rewrite (sh_prepared _ _ Hs). done.
Qed.

Lemma stream_append_exact_witness :
  exists s', producer_append example_stream1
    (mkProducerObservation 0 3 10 (sample 11) (sample 12) (sample 13) (Some (sample 14))
       (sample 15) ProducerOutcome_accepted (Some 0)) = (s', AppendStatus_appended) /\
    is_writing s' = true.
Proof.
  destruct (prepared_stream_holds StreamKind_producer example_fresh "run1" 2 example_stream0)
    as (s1 & E1 & Hh & Hk & _); [intros n; apply length_replicate | unfold is_u64, u64_max; lia
    | vm_compute; reflexivity|].
  set (o := mkProducerObservation 0 3 10 (sample 11) (sample 12) (sample 13) (Some (sample 14))
       (sample 15) ProducerOutcome_accepted (Some 0)).
  assert (s1 = example_stream1) as -> by (unfold example_stream1; by rewrite E1).
  pose proof (stream_append_exact example_stream1 [] o Hh Hk
    ltac:(vm_compute; reflexivity)
    (u64_words_check (producer_words o) ltac:(vm_compute; reflexivity))
    ltac:(simpl; split; [intros _; eexists; reflexivity | reflexivity])
    ltac:(simpl; split; [intros _; eexists; reflexivity | reflexivity])) as H.
  destruct (producer_append example_stream1 o) as [s' status].
  destruct H as [H _]. destruct H as (H1 & _ & H2); [vm_compute; reflexivity|].
  exists s'. split; [rewrite H1; reflexivity | exact H2].
Defined.
