(* ===== verification/Reconciliation.v ===== *)
(** * Reconciliation of the two observation streams

    Models [include/cpu_prefetch/reconciliation/reconciliation.hpp] and the run
    level of [src/reconciliation/reconciliation.cpp]: [reconcile], which joins
    the k-th accepted producer row with the k-th consumer row and derives the
    latency intervals only after a complete audit, and [evaluate_run_status],
    the independent gates of a run with their confirmatory blockers. The audit
    document and the cross-record validator of the same file work on JSON
    documents and are not modelled. *)

From stdpp Require Import prelude list strings.
From Stdlib Require Import ZArith Lia SpecFloat.
From S2P Require Import Prelude Validation Model Json Documents Timing Semantic.

#[local] Open Scope Z_scope.

(** ** Issues and results *)

Inductive FailureClass : Set :=
| FailureClass_producer_count
| FailureClass_producer_run_identity
| FailureClass_producer_logical_sequence
| FailureClass_producer_record_mapping
| FailureClass_producer_outcome_shape
| FailureClass_accepted_ordinal
| FailureClass_consumer_count
| FailureClass_consumer_run_identity
| FailureClass_consumer_ordinal
| FailureClass_consumer_record_index
| FailureClass_timestamp_order.

Definition to_string_FailureClass (failure : FailureClass) : string :=
  match failure with
  | FailureClass_producer_count => "PRODUCER_COUNT"
  | FailureClass_producer_run_identity => "PRODUCER_RUN_IDENTITY"
  | FailureClass_producer_logical_sequence => "PRODUCER_LOGICAL_SEQUENCE"
  | FailureClass_producer_record_mapping => "PRODUCER_RECORD_MAPPING"
  | FailureClass_producer_outcome_shape => "PRODUCER_OUTCOME_SHAPE"
  | FailureClass_accepted_ordinal => "ACCEPTED_ORDINAL"
  | FailureClass_consumer_count => "CONSUMER_COUNT"
  | FailureClass_consumer_run_identity => "CONSUMER_RUN_IDENTITY"
  | FailureClass_consumer_ordinal => "CONSUMER_ORDINAL"
  | FailureClass_consumer_record_index => "CONSUMER_RECORD_INDEX"
  | FailureClass_timestamp_order => "TIMESTAMP_ORDER"
  end.

Record Issue : Set := mkIssue {
  is_failure : FailureClass;
  is_error : ValidationError
}.

Record ReconciliationResult : Set := mkReconciliationResult {
  rr_status : JoinStatus;
  rr_producer_rows : Z;
  rr_accepted_rows : Z;
  rr_full_rows : Z;
  rr_consumer_rows : Z;
  rr_joined_rows : list JoinedRecord;
  rr_issues : list Issue
}.

(** [if (condition) issue(...)]. *)
Definition issue_when (condition : bool) (failure : FailureClass) (category : ErrorCategory)
    (path rule message : string) : list Issue :=
  if condition then [mkIssue failure (mkError category path rule message)] else [].

(** ** The join *)

Definition producer_path (index : Z) : string :=
  ("$reconciliation/producer/" +:+ std_to_string index)%string.

Definition consumer_path (index : Z) : string :=
  ("$reconciliation/consumer/" +:+ std_to_string index)%string.

(** The row goes to the [accepted] vector. *)
Definition joins (row : ProducerRecord) : bool :=
  bool_decide (pr_outcome row = ProducerOutcome_accepted) &&
  bool_decide (is_Some (pr_accepted_ordinal row)) &&
  bool_decide (is_Some (pr_enqueue_linearization row)).

(** The issues of one producer row; [expected] is what is left of
    [expected_record_indices] at this index. *)
Definition producer_row_issues (run_id : Identifier) (index next_accepted : Z)
    (expected : option Z) (row : ProducerRecord) : list Issue :=
  let path := producer_path index in
  issue_when (negb (bool_decide (pr_run_id row = run_id)))
    FailureClass_producer_run_identity ErrorCategory_reference_mismatch
    (path +:+ "/run_id") "REC-PRODUCER-RUN-ID"
    "producer row run identity differs from the reconciled run" ++
  issue_when (negb (pr_logical_sequence row =? index))
    FailureClass_producer_logical_sequence ErrorCategory_cross_field
    (path +:+ "/logical_sequence") "REC-LOGICAL-SEQUENCE"
    "producer logical sequence must be contiguous in stream order" ++
  issue_when (match expected with Some e => negb (pr_record_index row =? e) | None => false end)
    FailureClass_producer_record_mapping ErrorCategory_reference_mismatch
    (path +:+ "/record_index") "REC-RECORD-MAPPING"
    "record index disagrees with the outcome-independent Stage 6 mapping" ++
  match pr_outcome row with
  | ProducerOutcome_accepted =>
      match pr_accepted_ordinal row, pr_enqueue_linearization row with
      | Some ordinal, Some _ =>
          issue_when (negb (ordinal =? next_accepted))
            FailureClass_accepted_ordinal ErrorCategory_cross_field
            (path +:+ "/accepted_ordinal") "REC-ACCEPTED-ORDINAL"
            "accepted ordinals must be contiguous in producer logical order"
      | _, _ =>
          issue_when true FailureClass_producer_outcome_shape ErrorCategory_missing_field
            path "REC-ACCEPTED-SHAPE"
            "ACCEPTED requires accepted ordinal and enqueue linearization"
      end
  | ProducerOutcome_full =>
      issue_when (bool_decide (is_Some (pr_accepted_ordinal row)) ||
                  bool_decide (is_Some (pr_enqueue_linearization row)))
        FailureClass_producer_outcome_shape ErrorCategory_cross_field
        path "REC-FULL-SHAPE"
        "FULL cannot contain accepted ordinal or enqueue linearization"
  end.

(** The loop over the producer rows: its issues, the accepted rows with their
    positions in the stream, and the count of full rows. Positions and counts
    are bounded by the size of the span, so they do not wrap. *)
Fixpoint producer_loop (run_id : Identifier) (index next_accepted : Z) (expected : list Z)
    (rows : list ProducerRecord) : list Issue * list (ProducerRecord * Z) * Z :=
  match rows with
  | [] => ([], [], 0)
  | row :: rest =>
      let '(issues, accepted, full) :=
        producer_loop run_id (index + 1) (if joins row then next_accepted + 1 else next_accepted)
          (tail expected) rest in
      (producer_row_issues run_id index next_accepted (head expected) row ++ issues,
       (if joins row then (row, index) :: accepted else accepted),
       (if bool_decide (pr_outcome row = ProducerOutcome_accepted) then full else full + 1))
  end.

Definition pair_issues (run_id : Identifier) (index : Z) (consumer : ConsumerRecord)
    (producer : ProducerRecord) : list Issue :=
  let path := consumer_path index in
  issue_when (negb (bool_decide (cr_run_id consumer = run_id)))
    FailureClass_consumer_run_identity ErrorCategory_reference_mismatch
    (path +:+ "/run_id") "REC-CONSUMER-RUN-ID"
    "consumer row run identity differs from the reconciled run" ++
  issue_when (negb (cr_consumed_ordinal consumer =? index) ||
              match pr_accepted_ordinal producer with
              | None => true
              | Some ordinal => negb (cr_consumed_ordinal consumer =? ordinal)
              end)
    FailureClass_consumer_ordinal ErrorCategory_cross_field
    (path +:+ "/consumed_ordinal") "REC-KTH-ORDINAL"
    "the k-th consumer row must match the k-th accepted producer row" ++
  issue_when (negb (cr_observed_record_index consumer =? pr_record_index producer))
    FailureClass_consumer_record_index ErrorCategory_reference_mismatch
    (path +:+ "/observed_record_index") "REC-KTH-RECORD-INDEX"
    "consumer record index must match its accepted producer event".

(** The loop over the first [min(consumer_rows.size(), accepted.size())] pairs. *)
Fixpoint pair_loop (run_id : Identifier) (index : Z) (consumers : list ConsumerRecord)
    (accepted : list (ProducerRecord * Z)) : list Issue :=
  match consumers, accepted with
  | consumer :: consumers, (producer, _) :: accepted =>
      pair_issues run_id index consumer producer ++
      pair_loop run_id (index + 1) consumers accepted
  | _, _ => []
  end.

(** The derivation loop. It runs only when the counts agree, so every accepted
    row has its consumer row. *)
Fixpoint derive_loop (index : Z) (accepted : list (ProducerRecord * Z))
    (consumers : list ConsumerRecord) : list Issue * list JoinedRecord :=
  match accepted, consumers with
  | (producer, position) :: accepted, consumer :: consumers =>
      let '(issues, rows) := derive_loop (index + 1) accepted consumers in
      match derive_joined_record producer position consumer index with
      | failure errors => ((mkIssue FailureClass_timestamp_order <$> errors) ++ issues, rows)
      | success row => (issues, row :: rows)
      end
  | _, _ => ([], [])
  end.

(** The issues of the audit, in the order they are found. *)
Definition audit_issues (run_id : Identifier) (producer_rows : list ProducerRecord)
    (consumer_rows : list ConsumerRecord) (expected_record_indices : list Z) : list Issue :=
  let '(row_issues, accepted, _) :=
    producer_loop run_id 0 0 expected_record_indices producer_rows in
  issue_when (negb (bool_decide (length producer_rows = length expected_record_indices)))
    FailureClass_producer_count ErrorCategory_reference_mismatch
    "$reconciliation/producer_rows" "REC-PRODUCER-MAPPING-COUNT"
    "producer row count differs from the immutable record-index mapping" ++
  row_issues ++
  issue_when (negb (bool_decide (length consumer_rows = length accepted)))
    FailureClass_consumer_count ErrorCategory_cross_field
    "$reconciliation/consumer_rows" "REC-CONSUMER-COUNT"
    "consumer count must equal the accepted producer count" ++
  pair_loop run_id 0 consumer_rows accepted.

Definition reconcile (run_id : Identifier) (producer_rows : list ProducerRecord)
    (consumer_rows : list ConsumerRecord) (expected_record_indices : list Z) :
    ReconciliationResult :=
  let '(_, accepted, full_rows) :=
    producer_loop run_id 0 0 expected_record_indices producer_rows in
  let result status joined issues :=
    mkReconciliationResult status (Z.of_nat (length producer_rows)) (Z.of_nat (length accepted))
      full_rows (Z.of_nat (length consumer_rows)) joined issues in
  match audit_issues run_id producer_rows consumer_rows expected_record_indices with
  | (_ :: _) as issues => result JoinStatus_failed [] issues
  | [] =>
      let '(issues, joined) := derive_loop 0 accepted consumer_rows in
      match issues with
      | _ :: _ => result JoinStatus_failed [] issues
      | [] => result JoinStatus_passed joined []
      end
  end.

(** ** Run status *)

(** [std::get] of the wrong alternative throws. *)
Definition bad_variant_access {A : Type} : Throws A := Threw "std::get: wrong index for variant".

(** 200000.0: the significand has 53 bits. *)
Definition double_200000 : spec_float := S754_finite false 6871947673600000 (-35).

Definition n_eff_at_least_threshold (number : Number) : Throws bool :=
  match num_kind number, num_value number with
  | NumberKind_signed_integer, Number_int64 value => Returned (value >=? 200000)
  | NumberKind_unsigned_integer, Number_uint64 value => Returned (value >=? 200000)
  | NumberKind_binary64, Number_double value => Returned (SFleb double_200000 value)
  | _, _ => bad_variant_access
  end.

Definition complete_count_identities (counts : RunCounts) : bool :=
  match rc_offered counts, rc_attempted counts, rc_accepted counts, rc_full counts,
        rc_consumed counts, rc_final_occupancy counts, rc_raw_sample_count counts,
        rc_n_eff_p999 counts with
  | Some offered, Some attempted, Some accepted, Some full, Some consumed,
    Some final_occupancy, Some raw_sample_count, Some _ =>
      if accepted >? u64_sub u64_max full then false
      else (offered =? attempted) && (attempted =? u64_add accepted full) &&
           (consumed =? accepted) && (final_occupancy =? 0) && (raw_sample_count =? accepted)
  | _, _, _, _, _, _, _, _ => false
  end.

Definition summary_for (blockers : list ConfirmatoryBlocker) : ConfirmatoryEstimability :=
  match blockers with
  | [] => ConfirmatoryEstimability_estimable
  | _ :: _ :: _ => ConfirmatoryEstimability_blocked_multiple
  | [blocker] =>
      match blocker with
      | ConfirmatoryBlocker_blocked_access_leakage =>
          ConfirmatoryEstimability_blocked_access_leakage
      | ConfirmatoryBlocker_blocked_effective_tail =>
          ConfirmatoryEstimability_blocked_effective_tail
      | ConfirmatoryBlocker_blocked_incomplete_block =>
          ConfirmatoryEstimability_blocked_incomplete_block
      | ConfirmatoryBlocker_blocked_invalid_run => ConfirmatoryEstimability_blocked_invalid_run
      | ConfirmatoryBlocker_blocked_zero_loss => ConfirmatoryEstimability_blocked_zero_loss
      end
  end.

Inductive LifecycleCompletion : Set :=
| LifecycleCompletion_not_evaluated
| LifecycleCompletion_incomplete
| LifecycleCompletion_complete.

Record AuthoritativeGate : Set := mkAuthoritativeGate {
  ag_status : GateStatus;
  ag_authoritative : bool
}.

Record AuthoritativeBlockCompleteness : Set := mkAuthoritativeBlockCompleteness {
  ab_status : BlockCompleteness;
  ab_authoritative : bool
}.

Record RunStatusInput : Set := mkRunStatusInput {
  ri_stage : Stage;
  ri_lifecycle_state : LifecycleState;
  ri_join_status : JoinStatus;
  ri_counts : option RunCounts;
  ri_invalidating_failure_record_present : bool;
  ri_block_completeness : AuthoritativeBlockCompleteness;
  ri_access_integrity : AuthoritativeGate
}.

Record RunStatus : Set := mkRunStatus {
  rs_lifecycle_completion : LifecycleCompletion;
  rs_validity : RunValidity;
  rs_join_status : JoinStatus;
  rs_count_reconciliation : GateStatus;
  rs_zero_loss : GateStatus;
  rs_effective_tail : GateStatus;
  rs_confirmatory_estimability : ConfirmatoryEstimability;
  rs_block_completeness : BlockCompleteness;
  rs_confirmatory_blockers : list ConfirmatoryBlocker
}.

#[export] Instance FailureClass_eq_dec : EqDecision FailureClass.
Proof. solve_decision. Defined.

#[export] Instance Issue_eq_dec : EqDecision Issue.
Proof. solve_decision. Defined.

#[export] Instance LifecycleCompletion_eq_dec : EqDecision LifecycleCompletion.
Proof. solve_decision. Defined.

Definition gate (pass : bool) : GateStatus := if pass then GateStatus_pass else GateStatus_fail.

Definition set_estimability (status : RunStatus) (summary : ConfirmatoryEstimability)
    (blockers : list ConfirmatoryBlocker) : RunStatus :=
  mkRunStatus (rs_lifecycle_completion status) (rs_validity status) (rs_join_status status)
    (rs_count_reconciliation status) (rs_zero_loss status) (rs_effective_tail status) summary
    (rs_block_completeness status) blockers.

(** The gates of a completed run. *)
Definition completed_status (input : RunStatusInput) (counts : RunCounts) : Throws RunStatus :=
  let passed := complete_count_identities counts &&
                bool_decide (ri_join_status input = JoinStatus_passed) in
  let status tail :=
    mkRunStatus LifecycleCompletion_complete
      (if passed then RunValidity_valid else RunValidity_invalid) (ri_join_status input)
      (gate passed)
      (match rc_full counts with
       | Some full => gate (full =? 0)
       | None => GateStatus_not_evaluated
       end)
      tail ConfirmatoryEstimability_not_evaluated (ab_status (ri_block_completeness input)) [] in
  match rc_n_eff_p999 counts with
  | None => Returned (status GateStatus_not_evaluated)
  | Some number =>
      match n_eff_at_least_threshold number with
      | Returned reached => Returned (status (gate reached))
      | Threw what => Threw what
      end
  end.

Definition confirmatory_blockers (input : RunStatusInput) (output : RunStatus) :
    list ConfirmatoryBlocker :=
  (if bool_decide (ag_status (ri_access_integrity input) = GateStatus_fail)
   then [ConfirmatoryBlocker_blocked_access_leakage] else []) ++
  (if bool_decide (rs_effective_tail output = GateStatus_fail)
   then [ConfirmatoryBlocker_blocked_effective_tail] else []) ++
  (if bool_decide (ab_status (ri_block_completeness input) = BlockCompleteness_incomplete)
   then [ConfirmatoryBlocker_blocked_incomplete_block] else []) ++
  (if bool_decide (rs_validity output = RunValidity_invalid)
   then [ConfirmatoryBlocker_blocked_invalid_run] else []) ++
  (if bool_decide (rs_zero_loss output = GateStatus_fail)
   then [ConfirmatoryBlocker_blocked_zero_loss] else []).

(** From the evaluated gates to the confirmatory conclusion. *)
Definition conclude_status (input : RunStatusInput) (output : RunStatus) : Result RunStatus :=
  if bool_decide (rs_validity output = RunValidity_invalid) &&
     negb (ri_invalidating_failure_record_present input) then
    fail_with ErrorCategory_missing_evidence "$status/failure_record_ids"
      "REC-INVALID-FAILURE-EVIDENCE" "INVALID requires an invalidating failure record"
  else if negb (bool_decide (ri_stage input = Stage_stage_a)) then
    success (set_estimability output ConfirmatoryEstimability_not_applicable [])
  else
    let run_gates_authoritative :=
      negb (bool_decide (rs_lifecycle_completion output = LifecycleCompletion_not_evaluated)) &&
      negb (bool_decide (rs_validity output = RunValidity_not_evaluated)) &&
      negb (bool_decide (rs_zero_loss output = GateStatus_not_evaluated)) &&
      negb (bool_decide (rs_effective_tail output = GateStatus_not_evaluated)) in
    if negb run_gates_authoritative || negb (ab_authoritative (ri_block_completeness input)) ||
       negb (ag_authoritative (ri_access_integrity input)) then
      success (set_estimability output ConfirmatoryEstimability_not_evaluated [])
    else
      let blockers := confirmatory_blockers input output in
      success (set_estimability output (summary_for blockers) blockers).

Definition evaluate_run_status (input : RunStatusInput) : Throws (Result RunStatus) :=
  let initial completion validity :=
    mkRunStatus completion validity (ri_join_status input) GateStatus_not_evaluated
      GateStatus_not_evaluated GateStatus_not_evaluated ConfirmatoryEstimability_not_evaluated
      (ab_status (ri_block_completeness input)) [] in
  match ri_lifecycle_state input with
  | LifecycleState_planned | LifecycleState_measurement_started =>
      Returned (success (initial LifecycleCompletion_not_evaluated RunValidity_not_evaluated))
  | LifecycleState_completed =>
      match ri_counts input with
      | None =>
          Returned (fail_with ErrorCategory_missing_evidence "$status/counts"
            "REC-STATUS-COUNTS" "completed lifecycle requires complete counts")
      | Some counts =>
          match completed_status input counts with
          | Returned output => Returned (conclude_status input output)
          | Threw what => Threw what
          end
      end
  | _ => Returned (conclude_status input (initial LifecycleCompletion_incomplete RunValidity_invalid))
  end.

(** ** What a passed join means *)

(** The optional fields a row has are those of its outcome. *)
Definition row_shape (row : ProducerRecord) : Prop :=
  match pr_outcome row with
  | ProducerOutcome_accepted =>
      is_Some (pr_accepted_ordinal row) /\ is_Some (pr_enqueue_linearization row)
  | ProducerOutcome_full =>
      pr_accepted_ordinal row = None /\ pr_enqueue_linearization row = None
  end.

Definition accepted_rows (rows : list ProducerRecord) : list ProducerRecord :=
  filter (fun row => pr_outcome row = ProducerOutcome_accepted) rows.

(** Producer rows carry the run, their position and their mapped record; the
    k-th consumer row is that of the k-th accepted producer row. *)
Definition exact_join (run_id : Identifier) (producers : list ProducerRecord)
    (consumers : list ConsumerRecord) (expected : list Z) : Prop :=
  length producers = length expected /\
  (forall i row, producers !! i = Some row ->
     pr_run_id row = run_id /\ pr_logical_sequence row = Z.of_nat i /\
     expected !! i = Some (pr_record_index row) /\ row_shape row) /\
  (forall k p, accepted_rows producers !! k = Some p ->
     pr_accepted_ordinal p = Some (Z.of_nat k)) /\
  length consumers = length (accepted_rows producers) /\
  (forall k p c, accepted_rows producers !! k = Some p -> consumers !! k = Some c ->
     cr_run_id c = run_id /\ cr_consumed_ordinal c = Z.of_nat k /\
     cr_observed_record_index c = pr_record_index p).

(** Every pair has its timestamps in order. *)
Definition ordered_join (producers : list ProducerRecord) (consumers : list ConsumerRecord) : Prop :=
  forall k p c, accepted_rows producers !! k = Some p -> consumers !! k = Some c -> joinable p c.

(** ** Lemmas *)

Lemma issue_when_nil b f c p r m : issue_when b f c p r m = [] <-> b = false.
Proof. destruct b; simpl; split; congruence. Qed.

(** Issue vectors are empty when every part is. *)
Ltac issues_nil :=
  repeat (rewrite ?app_nil, ?issue_when_nil, ?negb_false_iff, ?bool_decide_eq_true, ?Z.eqb_eq).

(** The recursive reading of the checks on the producer rows. *)
Definition row_ok (run_id : Identifier) (index next : Z) (expected : option Z)
    (row : ProducerRecord) : Prop :=
  pr_run_id row = run_id /\ pr_logical_sequence row = index /\
  (forall e, expected = Some e -> pr_record_index row = e) /\
  row_shape row /\
  (pr_outcome row = ProducerOutcome_accepted -> pr_accepted_ordinal row = Some next).

Lemma producer_row_issues_nil run_id index next expected row :
  producer_row_issues run_id index next expected row = [] <->
  row_ok run_id index next expected row.
Proof.
  unfold producer_row_issues, row_ok, row_shape. issues_nil.
  assert (He : match expected with Some e => negb (pr_record_index row =? e) | None => false end
    = false <-> (forall e, expected = Some e -> pr_record_index row = e)).
  { destruct expected as [e|]; [|naive_solver].
    rewrite negb_false_iff, Z.eqb_eq. naive_solver. }
  rewrite He. destruct (pr_outcome row).
  - destruct (pr_accepted_ordinal row) as [ordinal|], (pr_enqueue_linearization row) as [l|];
      rewrite issue_when_nil.
    + rewrite negb_false_iff, Z.eqb_eq. split.
      * intros (? & ? & ? & ->). split_and!; done.
      * intros (? & ? & ? & _ & Ho). specialize (Ho eq_refl). naive_solver.
    + split; [naive_solver|]. intros (_ & _ & _ & [_ [? ?]] & _). done.
    + split; [naive_solver|]. intros (_ & _ & _ & [[? ?] _] & _). done.
    + split; [naive_solver|]. intros (_ & _ & _ & [[? ?] _] & _). done.
  - rewrite issue_when_nil, orb_false_iff, !bool_decide_eq_false, <- !eq_None_not_Some.
    naive_solver.
Qed.

Fixpoint rows_ok (run_id : Identifier) (index next : Z) (expected : list Z)
    (rows : list ProducerRecord) : Prop :=
  match rows with
  | [] => True
  | row :: rest =>
      row_ok run_id index next (head expected) row /\
      rows_ok run_id (index + 1) (if joins row then next + 1 else next) (tail expected) rest
  end.

Lemma producer_loop_nil run_id index next expected rows :
  (producer_loop run_id index next expected rows).1.1 = [] <->
  rows_ok run_id index next expected rows.
Proof.
  revert index next expected. induction rows as [|row rest IH]; intros index next expected; [done|].
  cbn [producer_loop rows_ok].
  specialize (IH (index + 1) (if joins row then next + 1 else next) (tail expected)).
  destruct (producer_loop _ _ _ _ rest) as [[issues accepted] full]. simpl in *.
  by rewrite app_nil, producer_row_issues_nil, IH.
Qed.

(** Well-shaped rows join exactly when they were accepted. *)
Lemma joins_shape row :
  row_shape row -> joins row = bool_decide (pr_outcome row = ProducerOutcome_accepted).
Proof.
  unfold row_shape, joins. destruct (pr_outcome row).
  - intros [H1 H2]. by rewrite (bool_decide_true _ H1), (bool_decide_true _ H2).
  - intros _. by rewrite bool_decide_false.
Qed.

Lemma rows_ok_spec run_id index next expected rows :
  rows_ok run_id index next expected rows <->
  (forall i row, rows !! i = Some row ->
     pr_run_id row = run_id /\ pr_logical_sequence row = index + Z.of_nat i /\
     (forall e, expected !! i = Some e -> pr_record_index row = e) /\ row_shape row) /\
  (forall k p, accepted_rows rows !! k = Some p ->
     pr_accepted_ordinal p = Some (next + Z.of_nat k)).
Proof.
  revert index next expected. induction rows as [|row rest IH]; intros index next expected.
  { simpl. split; [|done]. intros _. split; intros i r; [by rewrite lookup_nil|].
    unfold accepted_rows. rewrite filter_nil. by rewrite lookup_nil. }
  cbn [rows_ok]. rewrite IH. unfold accepted_rows. rewrite filter_cons. split.
  - intros [(H1 & H2 & H3 & H4 & H5) [Ha Hb]]. rewrite (joins_shape _ H4) in Hb. split.
    + intros [|i] r; simpl; [intros [= <-]|intros Hi].
      * split_and!; [done|lia| |done]. intros e He. apply H3. by destruct expected.
      * destruct (Ha i r Hi) as (A1 & A2 & A3 & A4). split_and!; [done|lia| |done].
        intros e He. apply A3. by destruct expected.
    + intros k p. case_decide as Ho.
      * rewrite (bool_decide_true _ Ho) in Hb.
        destruct k as [|k]; simpl; [intros [= <-]; rewrite H5 by done; f_equal; lia|].
        intros Hk. rewrite (Hb k p Hk). f_equal. lia.
      * rewrite (bool_decide_false _ Ho) in Hb. apply Hb.
  - intros [Ha Hb]. destruct (Ha 0%nat row eq_refl) as (H1 & H2 & H3 & H4).
    rewrite (joins_shape _ H4). split.
    + split_and!; [done|lia| |done|].
      * intros e He. apply H3. by destruct expected.
      * intros Ho. specialize (Hb 0%nat row). rewrite decide_True in Hb by done.
        rewrite (Hb eq_refl). f_equal. lia.
    + split.
      * intros i r Hi. destruct (Ha (S i) r Hi) as (A1 & A2 & A3 & A4).
        split_and!; [done|lia| |done]. intros e He. apply A3. by destruct expected.
      * intros k p Hk. destruct (decide (pr_outcome row = ProducerOutcome_accepted)) as [Ho|Ho].
        -- rewrite (bool_decide_true _ Ho). rewrite (Hb (S k) p Hk). f_equal. lia.
        -- rewrite (bool_decide_false _ Ho). by apply Hb.
Qed.

Lemma producer_loop_accepted run_id index next expected rows :
  Forall row_shape rows ->
  (producer_loop run_id index next expected rows).1.2.*1 = accepted_rows rows /\
  Z.of_nat (length (accepted_rows rows)) + (producer_loop run_id index next expected rows).2 =
    Z.of_nat (length rows) /\
  Forall (fun q => exists i, rows !! i = Some q.1 /\ q.2 = index + Z.of_nat i)
    (producer_loop run_id index next expected rows).1.2.
Proof.
  revert index next expected. induction rows as [|row rest IH]; intros index next expected Hs.
  { simpl. unfold accepted_rows. rewrite filter_nil. split_and!; [done..|constructor]. }
  apply Forall_cons in Hs as [H1 Hs]. cbn [producer_loop].
  destruct (IH (index + 1) (if joins row then next + 1 else next) (tail expected) Hs)
    as (E1 & E2 & E3).
  destruct (producer_loop _ _ _ _ rest) as [[issues accepted] full]. simpl in *.
  rewrite (joins_shape _ H1). unfold accepted_rows. rewrite filter_cons.
  assert (Hshift : Forall (fun q : ProducerRecord * Z => exists i, (row :: rest) !! i = Some q.1 /\
    q.2 = index + Z.of_nat i) accepted).
  { eapply Forall_impl; [exact E3|]. intros q (i & Hi & Hq). exists (S i). split; [done|lia]. }
  unfold accepted_rows in *. case_decide as Ho.
  - rewrite (bool_decide_true _ Ho). simpl. split_and!; [f_equal; exact E1 | simpl in *; lia|].
    constructor; [|done]. exists 0%nat. simpl. split; [done|lia].
  - rewrite (bool_decide_false _ Ho). split_and!; [done | simpl in *; lia | done].
Qed.

Lemma pair_issues_nil run_id index c p :
  pair_issues run_id index c p = [] <->
  cr_run_id c = run_id /\ cr_consumed_ordinal c = index /\ pr_accepted_ordinal p = Some index /\
  cr_observed_record_index c = pr_record_index p.
Proof.
  unfold pair_issues. issues_nil. rewrite orb_false_iff, negb_false_iff, Z.eqb_eq.
  destruct (pr_accepted_ordinal p) as [ordinal|]; [|naive_solver].
  rewrite negb_false_iff, Z.eqb_eq. naive_solver.
Qed.

Lemma pair_loop_nil run_id index consumers accepted :
  pair_loop run_id index consumers accepted = [] <->
  (forall k p c, accepted.*1 !! k = Some p -> consumers !! k = Some c ->
     cr_run_id c = run_id /\ cr_consumed_ordinal c = index + Z.of_nat k /\
     pr_accepted_ordinal p = Some (index + Z.of_nat k) /\
     cr_observed_record_index c = pr_record_index p).
Proof.
  revert index accepted. induction consumers as [|c consumers IH]; intros index accepted.
  { split; [|by destruct accepted]. intros _ k p c _. by rewrite lookup_nil. }
  destruct accepted as [|[p pos] accepted].
  { split; [|done]. intros _ k p c'. cbn [fmap list_fmap]. by rewrite lookup_nil. }
  cbn [pair_loop fmap list_fmap fst]. rewrite app_nil, pair_issues_nil, IH. split.
  - intros [H1 H2] [|k] p' c'; simpl.
    + intros [= <-] [= <-]. rewrite Z.add_0_r. naive_solver.
    + intros Hp Hc. replace (index + Z.of_nat (S k)) with (index + 1 + Z.of_nat k) by lia.
      by apply H2.
  - intros H. split.
    + specialize (H 0%nat p c eq_refl eq_refl). rewrite Z.add_0_r in H. naive_solver.
    + intros k p' c' Hp Hc. specialize (H (S k) p' c' Hp Hc).
      by replace (index + 1 + Z.of_nat k) with (index + Z.of_nat (S k)) by lia.
Qed.

(** Errors of a refused derivation are never an empty list. *)
Lemma derive_failure_nonempty p i c j es : derive_joined_record p i c j = failure es -> es <> [].
Proof.
  unfold derive_joined_record, intervals_failure. intros H.
  repeat destr_in H; simplify_eq; done.
Qed.

Lemma derive_loop_nil index accepted consumers :
  length consumers = length accepted ->
  Forall producer_record_u64 accepted.*1 -> Forall consumer_record_u64 consumers ->
  ((derive_loop index accepted consumers).1 = [] <->
   forall k p c, accepted.*1 !! k = Some p -> consumers !! k = Some c -> joinable p c) /\
  ((derive_loop index accepted consumers).1 = [] ->
   length (derive_loop index accepted consumers).2 = length accepted /\
   forall k p pos c, accepted !! k = Some (p, pos) -> consumers !! k = Some c ->
     exists row, (derive_loop index accepted consumers).2 !! k = Some row /\
       derive_joined_record p pos c (index + Z.of_nat k) = success row).
Proof.
  revert index consumers. induction accepted as [|[p pos] accepted IH];
    intros index [|c consumers] Hlen Hp Hc; try discriminate.
  { split; [done|]. intros _. split; done. }
  cbn [derive_loop fmap list_fmap fst] in *. apply Forall_cons in Hp as [Hp1 Hp].
  apply Forall_cons in Hc as [Hc1 Hc]. injection Hlen as Hlen.
  destruct (IH (index + 1) consumers Hlen Hp Hc) as [IH1 IH2].
  destruct (derive_loop (index + 1) accepted consumers) as [issues rows].
  pose proof (derive_joined_inv p pos c index) as Hinv.
  destruct (derive_joined_record p pos c index) as [row|es] eqn:E; simpl in *.
  - split.
    + rewrite IH1. split.
      * intros H [|k] p' c'; simpl; [by intros [= <-] [= <-] | apply H].
      * intros H k p' c' Hk1 Hk2. by apply (H (S k)).
    + intros Hnil. destruct (IH2 Hnil) as [L1 L2]. split; [by rewrite L1|].
      intros [|k] p' pos' c'; simpl.
      * intros [= <- <-] [= <-]. exists row. by rewrite Z.add_0_r.
      * intros Hk1 Hk2. destruct (L2 k p' pos' c' Hk1 Hk2) as (r & Hr & Hd). exists r.
        by replace (index + Z.of_nat (S k)) with (index + 1 + Z.of_nat k) by lia.
  - pose proof (derive_failure_nonempty _ _ _ _ _ E) as Hne.
    destruct es as [|e es]; [done|]. simpl. split; [|done]. split; [done|].
    intros H. specialize (H 0%nat p c eq_refl eq_refl).
    destruct (derive_joined_success p pos c index Hp1 Hc1 H) as (r & Hr & _). congruence.
Qed.

(** The audit is clean exactly for an exact join. *)
Lemma audit_nil run_id producers consumers expected :
  audit_issues run_id producers consumers expected = [] <->
  exact_join run_id producers consumers expected.
Proof.
  unfold audit_issues.
  pose proof (producer_loop_nil run_id 0 0 expected producers) as Hrows.
  rewrite rows_ok_spec in Hrows.
  pose proof (producer_loop_accepted run_id 0 0 expected producers) as Hacc.
  destruct (producer_loop _ _ _ _ producers) as [[row_issues accepted] full]. simpl in Hrows, Hacc.
  issues_nil. rewrite Hrows, pair_loop_nil. unfold exact_join.
  assert (Hlen : forall i (row : ProducerRecord), length producers = length expected ->
    producers !! i = Some row -> exists e, expected !! i = Some e).
  { intros i row Hl Hi. apply lookup_lt_Some in Hi. apply lookup_lt_is_Some. lia. }
  assert (Hshape : (forall i row, producers !! i = Some row -> row_shape row) ->
    accepted.*1 = accepted_rows producers /\ length accepted = length (accepted_rows producers)).
  { intros H. destruct Hacc as (E1 & _); [by apply Forall_lookup|].
    split; [done|]. by rewrite <- E1, length_fmap. }
  split.
  - intros (Hl & [H1 H2] & Hc & H3). destruct Hshape as [E1 E2]; [naive_solver|].
    rewrite E1 in H3. split_and!; [done| |done|congruence|naive_solver].
    intros i row Hi. destruct (H1 i row Hi) as (? & ? & He & ?). split_and!; [done|done| |done].
    destruct (Hlen i row Hl Hi) as [e Hexp]. rewrite Hexp. f_equal. symmetry. by apply He.
  - intros (Hl & H1 & H2 & Hc & H3). destruct Hshape as [E1 E2]; [naive_solver|].
    rewrite E1. split_and!; [done| |done|congruence|].
    + intros i row Hi. destruct (H1 i row Hi) as (? & ? & He & ?). split_and!; [done|done| |done].
      intros e Hexp. congruence.
    + intros k p c Hp Hk. destruct (H3 k p c Hp Hk) as (? & ? & ?).
      split_and!; [done|done|by apply H2|done].
Qed.

(** In an exact join the vector of accepted rows holds the accepted rows with
    their logical sequence numbers as positions. *)
Lemma exact_join_accepted run_id producers consumers expected :
  exact_join run_id producers consumers expected ->
  let '(_, accepted, full) := producer_loop run_id 0 0 expected producers in
  accepted.*1 = accepted_rows producers /\ length accepted = length consumers /\
  Z.of_nat (length producers) = Z.of_nat (length accepted) + full /\
  (forall k p pos, accepted !! k = Some (p, pos) -> pos = pr_logical_sequence p).
Proof.
  intros (Hl & H1 & H2 & Hc & H3).
  destruct (producer_loop_accepted run_id 0 0 expected producers) as (E1 & E2 & E3).
  { apply Forall_lookup. naive_solver. }
  destruct (producer_loop _ _ _ _ producers) as [[row_issues accepted] full]. simpl in *.
  assert (length accepted = length (accepted_rows producers)) by (by rewrite <- E1, length_fmap).
  split_and!; [done|congruence|lia|].
  intros k p pos Hk. rewrite Forall_lookup in E3. destruct (E3 k _ Hk) as (i & Hi & Hpos).
  simpl in Hi, Hpos. destruct (H1 i p Hi) as (_ & -> & _). lia.
Qed.

(** What [reconcile] does after a clean audit. *)
Lemma reconcile_after_audit run_id producers consumers expected :
  exact_join run_id producers consumers expected ->
  let '(_, accepted, full) := producer_loop run_id 0 0 expected producers in
  let '(issues, joined) := derive_loop 0 accepted consumers in
  reconcile run_id producers consumers expected =
    mkReconciliationResult
      (if bool_decide (issues = []) then JoinStatus_passed else JoinStatus_failed)
      (Z.of_nat (length producers)) (Z.of_nat (length accepted)) full
      (Z.of_nat (length consumers)) (if bool_decide (issues = []) then joined else []) issues.
Proof.
  intros Hj. apply audit_nil in Hj. unfold reconcile.
  destruct (producer_loop _ _ _ _ producers) as [[row_issues accepted] full]. rewrite Hj.
  by destruct (derive_loop 0 accepted consumers) as [[|i issues] joined].
Qed.

Lemma reconcile_refused run_id producers consumers expected :
  ~ exact_join run_id producers consumers expected ->
  rr_status (reconcile run_id producers consumers expected) = JoinStatus_failed /\
  rr_joined_rows (reconcile run_id producers consumers expected) = [] /\
  rr_issues (reconcile run_id producers consumers expected) <> [].
Proof.
  intros Hj. rewrite <- audit_nil in Hj. unfold reconcile.
  destruct (producer_loop _ _ _ _ producers) as [[row_issues accepted] full].
  destruct (audit_issues _ _ _ _); [done|]. cbn. done.
Qed.

(** After a clean audit the result depends on the order of the timestamps. *)
Lemma reconcile_audited run_id producers consumers expected :
  Forall producer_record_u64 producers -> Forall consumer_record_u64 consumers ->
  exact_join run_id producers consumers expected ->
  let r := reconcile run_id producers consumers expected in
  (rr_status r = JoinStatus_passed <-> ordered_join producers consumers) /\
  rr_producer_rows r = rr_accepted_rows r + rr_full_rows r /\
  rr_consumer_rows r = rr_accepted_rows r /\
  rr_accepted_rows r = Z.of_nat (length (accepted_rows producers)) /\
  (rr_status r = JoinStatus_passed ->
     rr_issues r = [] /\ Z.of_nat (length (rr_joined_rows r)) = rr_accepted_rows r /\
     forall k p c, accepted_rows producers !! k = Some p -> consumers !! k = Some c ->
       exists row, rr_joined_rows r !! k = Some row /\
         derive_joined_record p (pr_logical_sequence p) c (Z.of_nat k) = success row) /\
  (rr_status r <> JoinStatus_passed ->
     rr_status r = JoinStatus_failed /\ rr_joined_rows r = [] /\ rr_issues r <> []).
Proof.
  intros Hp Hc Ha. cbv zeta.
  pose proof (exact_join_accepted _ _ _ _ Ha) as Hacc.
  pose proof (reconcile_after_audit _ _ _ _ Ha) as Hr.
  destruct (producer_loop _ _ _ _ producers) as [[row_issues accepted] full].
  destruct Hacc as (E1 & E2 & E3 & E4).
  destruct (derive_loop_nil 0 accepted consumers) as [D1 D2]; [done| |done|].
  { rewrite E1. apply Forall_forall. intros x [_ Hx]%list_elem_of_filter.
    rewrite Forall_forall in Hp. by apply Hp. }
  destruct (derive_loop 0 accepted consumers) as [issues joined]. rewrite Hr. simpl in *.
  assert (length accepted = length (accepted_rows producers)) by (by rewrite <- E1, length_fmap).
  rewrite E1 in D1. unfold ordered_join. rewrite <- D1. case_bool_decide as Hi.
  - destruct (D2 Hi) as [L1 L2]. split_and!; [done|lia|lia|lia| |done]. intros _.
    split_and!; [done|lia|]. intros k p c Hk Hk'. rewrite <- E1 in Hk.
    apply list_lookup_fmap_Some in Hk as ([p' pos] & Hk & Hpk). simpl in Hk. subst p'.
    destruct (L2 k p pos c Hpk Hk') as (row & Hrow & Hd). exists row. split; [done|].
    by rewrite <- (E4 k p pos Hpk).
  - split_and!; [naive_solver|lia|lia|lia|done|done].
Qed.

(** ** Gates *)

(** The count identities a valid run satisfies, without wrap-around. *)
Definition exact_counts (counts : RunCounts) : Prop :=
  exists accepted full number,
    rc_accepted counts = Some accepted /\ rc_full counts = Some full /\
    rc_offered counts = Some (accepted + full) /\ rc_attempted counts = Some (accepted + full) /\
    rc_consumed counts = Some accepted /\ rc_final_occupancy counts = Some 0 /\
    rc_raw_sample_count counts = Some accepted /\ rc_n_eff_p999 counts = Some number /\
    accepted + full <= u64_max.

Definition counts_u64 (counts : RunCounts) : Prop :=
  forall z, rc_accepted counts = Some z \/ rc_full counts = Some z -> is_u64 z.

Lemma complete_count_identities_true counts :
  counts_u64 counts -> complete_count_identities counts = true <-> exact_counts counts.
Proof.
  intros Hu. unfold complete_count_identities, exact_counts, counts_u64 in *.
  destruct counts as [offered attempted accepted full consumed occ raw n]; simpl in *.
  split.
  - destruct offered as [offered|], attempted as [attempted|], accepted as [accepted|],
      full as [full|], consumed as [consumed|], occ as [occ|], raw as [raw|], n as [n|];
      try done.
    pose proof (Hu accepted (or_introl eq_refl)). pose proof (Hu full (or_intror eq_refl)).
    rewrite u64_sub_small by int_lia. destruct (Z.gtb_spec accepted (u64_max - full)); [done|].
    rewrite u64_add_small by int_lia. rewrite !andb_true_iff, !Z.eqb_eq.
    intros ((((-> & ->) & ->) & ->) & ->). exists accepted, full, n. split_and!; done || lia.
  - intros (a & f & m & -> & -> & -> & -> & -> & -> & -> & -> & Hle).
    pose proof (Hu a (or_introl eq_refl)). pose proof (Hu f (or_intror eq_refl)).
    rewrite u64_sub_small by int_lia. destruct (Z.gtb_spec a (u64_max - f)); [lia|].
    rewrite u64_add_small by int_lia. by rewrite !Z.eqb_refl.
Qed.

(** The cause a blocker names. *)
Definition applies (input : RunStatusInput) (st : RunStatus) (b : ConfirmatoryBlocker) : Prop :=
  match b with
  | ConfirmatoryBlocker_blocked_access_leakage =>
      ag_status (ri_access_integrity input) = GateStatus_fail
  | ConfirmatoryBlocker_blocked_effective_tail => rs_effective_tail st = GateStatus_fail
  | ConfirmatoryBlocker_blocked_incomplete_block =>
      ab_status (ri_block_completeness input) = BlockCompleteness_incomplete
  | ConfirmatoryBlocker_blocked_invalid_run => rs_validity st = RunValidity_invalid
  | ConfirmatoryBlocker_blocked_zero_loss => rs_zero_loss st = GateStatus_fail
  end.

(** Everything the confirmatory conclusion rests on has been evaluated. *)
Definition evidence_complete (input : RunStatusInput) (st : RunStatus) : Prop :=
  ri_stage input = Stage_stage_a /\
  rs_lifecycle_completion st <> LifecycleCompletion_not_evaluated /\
  rs_validity st <> RunValidity_not_evaluated /\ rs_zero_loss st <> GateStatus_not_evaluated /\
  rs_effective_tail st <> GateStatus_not_evaluated /\
  ab_authoritative (ri_block_completeness input) = true /\
  ag_authoritative (ri_access_integrity input) = true.

Lemma confirmatory_blockers_spec input st b :
  b ∈ confirmatory_blockers input st <-> applies input st b.
Proof.
  unfold confirmatory_blockers. rewrite !elem_of_app.
  repeat case_bool_decide; destruct b; simpl; set_solver.
Qed.

(** Blockers come in the order of their tokens. *)
Lemma confirmatory_blockers_order input st :
  confirmatory_blockers input st `sublist_of` confirmatory_blocker_values.*2.
Proof.
  unfold confirmatory_blockers. repeat case_bool_decide; simpl; repeat constructor.
Qed.

Lemma summary_estimable blockers :
  summary_for blockers = ConfirmatoryEstimability_estimable <-> blockers = [].
Proof. destruct blockers as [|[] [|]]; simpl; split; congruence. Qed.

(** What follows from a successful conclusion. *)
Lemma conclude_status_spec input output st :
  conclude_status input output = success st ->
  rs_validity st = rs_validity output /\ rs_zero_loss st = rs_zero_loss output /\
  rs_effective_tail st = rs_effective_tail output /\
  rs_lifecycle_completion st = rs_lifecycle_completion output /\
  (rs_validity st = RunValidity_invalid -> ri_invalidating_failure_record_present input = true) /\
  ((evidence_complete input st /\ rs_confirmatory_blockers st = confirmatory_blockers input st /\
    rs_confirmatory_estimability st = summary_for (rs_confirmatory_blockers st)) \/
   (~ evidence_complete input st /\ rs_confirmatory_blockers st = [] /\
    rs_confirmatory_estimability st = if bool_decide (ri_stage input = Stage_stage_a)
      then ConfirmatoryEstimability_not_evaluated else ConfirmatoryEstimability_not_applicable)).
Proof.
  unfold conclude_status. intros H. destr_in H; [done|].
  assert (Hinv : rs_validity output = RunValidity_invalid ->
    ri_invalidating_failure_record_present input = true).
  { intros E. rewrite (bool_decide_true _ E) in Heqb. by apply negb_false_iff in Heqb. }
  unfold evidence_complete. case_bool_decide as Hs; cbn [negb] in H.
  - destr_in H; injection H as <-; cbn; split_and!; try done.
    + right. split; [|done]. intros (_ & H1 & H2 & H3 & H4 & H5 & H6).
      rewrite H5, H6, !bool_decide_false in Heqb0 by done. done.
    + left. rewrite !orb_false_iff, !negb_false_iff, !andb_true_iff, !negb_true_iff,
        !bool_decide_eq_false in Heqb0. split; [tauto|]. split; done.
  - injection H as <-. cbn. split_and!; try done. right. split; [tauto|done].
Qed.

(** The confirmatory conclusion follows from the gates. *)
Definition confirmatory_sound (input : RunStatusInput) (st : RunStatus) : Prop :=
  (evidence_complete input st ->
     (forall b, b ∈ rs_confirmatory_blockers st <-> applies input st b) /\
     rs_confirmatory_blockers st `sublist_of` confirmatory_blocker_values.*2) /\
  (~ evidence_complete input st -> rs_confirmatory_blockers st = []) /\
  (rs_confirmatory_estimability st = ConfirmatoryEstimability_estimable <->
     evidence_complete input st /\ forall b, ~ applies input st b).

Lemma conclude_confirmatory input output st :
  conclude_status input output = success st -> confirmatory_sound input st.
Proof.
  intros H. apply conclude_status_spec in H as (_ & _ & _ & _ & _ & [(He & Hb & Hs)|(He & Hb & Hs)]);
    unfold confirmatory_sound; rewrite Hs, Hb.
  - split_and!; [|done|].
    + intros _. split; [apply confirmatory_blockers_spec | apply confirmatory_blockers_order].
    + rewrite summary_estimable. split.
      * intros Hn. split; [done|]. intros b Ha. rewrite <- confirmatory_blockers_spec, Hn in Ha.
        by apply not_elem_of_nil in Ha.
      * intros [_ Hn]. destruct (confirmatory_blockers input st) as [|b l] eqn:E; [done|].
        destruct (Hn b). rewrite <- confirmatory_blockers_spec, E. left.
  - split_and!; [done..|]. split; [by case_bool_decide | tauto].
Qed.

Lemma completed_status_gates input counts output :
  completed_status input counts = Returned output ->
  rs_validity output = (if complete_count_identities counts &&
      bool_decide (ri_join_status input = JoinStatus_passed)
    then RunValidity_valid else RunValidity_invalid).
Proof.
  unfold completed_status. intros H. destr_in H; [destr_in H|]; by simplify_eq.
Qed.

(** ** Properties *)

(** C22. Exact reconciliation: for 64-bit timestamps [reconcile] passes exactly
    when the streams are an exact join (run, logical sequence, record mapping and
    shape of every producer row; contiguous accepted ordinals; the k-th consumer
    row is that of the k-th accepted row) with ordered timestamps. A passed join
    has no issues, accounts for every row, and its k-th joined row is derived from
    the k-th pair at its positions; a join that does not pass is FAILED, has
    issues and no joined row. *)
Theorem reconcile_exact run_id producers consumers expected :
  Forall producer_record_u64 producers -> Forall consumer_record_u64 consumers ->
  let r := reconcile run_id producers consumers expected in
  (rr_status r = JoinStatus_passed <->
     exact_join run_id producers consumers expected /\ ordered_join producers consumers) /\
  (rr_status r = JoinStatus_passed ->
     rr_issues r = [] /\
     rr_producer_rows r = rr_accepted_rows r + rr_full_rows r /\
     rr_consumer_rows r = rr_accepted_rows r /\
     Z.of_nat (length (rr_joined_rows r)) = rr_accepted_rows r /\
     forall k p c, accepted_rows producers !! k = Some p -> consumers !! k = Some c ->
       exists row, rr_joined_rows r !! k = Some row /\
         derive_joined_record p (pr_logical_sequence p) c (Z.of_nat k) = success row) /\
  (rr_status r <> JoinStatus_passed ->
     rr_status r = JoinStatus_failed /\ rr_joined_rows r = [] /\ rr_issues r <> []).
Proof.
  intros Hp Hc. cbv zeta.
  destruct (decide (audit_issues run_id producers consumers expected = [])) as [Ha|Ha];
    rewrite audit_nil in Ha.
  - destruct (reconcile_audited _ _ _ _ Hp Hc Ha) as (R1 & R2 & R3 & R4 & R5 & R6).
    rewrite R1. naive_solver.
  - destruct (reconcile_refused _ _ _ _ Ha) as (R1 & R2 & R3). rewrite R1. naive_solver.
Qed.

Definition example_producers : list ProducerRecord :=
  [mkProducerRecord "run" 0 5 100 110 120 130 (Some 140) 150 ProducerOutcome_accepted (Some 0);
   mkProducerRecord "run" 1 6 200 210 220 230 None 250 ProducerOutcome_full None;
   mkProducerRecord "run" 2 7 300 310 320 330 (Some 340) 350 ProducerOutcome_accepted (Some 1)].

Definition example_consumers : list ConsumerRecord :=
  [mkConsumerRecord "run" 0 5 125 160 170 180; mkConsumerRecord "run" 1 7 325 360 370 380].

Lemma reconcile_exact_witness :
  exact_join "run" example_producers example_consumers [5; 6; 7] /\
  length (rr_joined_rows (reconcile "run" example_producers example_consumers [5; 6; 7])) = 2%nat.
Proof.
  destruct (reconcile_exact "run" example_producers example_consumers [5; 6; 7])
    as (H1 & H2 & _).
  - repeat constructor; simpl; unfold u64_max; lia.
  - repeat constructor; simpl; unfold u64_max; lia.
  - split; [apply H1; vm_compute; reflexivity|].
    destruct H2 as (_ & _ & _ & H & _); [vm_compute; reflexivity|].
    apply Nat2Z.inj. rewrite H. vm_compute. reflexivity.
Defined.

(** Run status: a run is VALID exactly when it completed, its join passed and
    its counts satisfy every identity without wrap-around; INVALID is never
    reported without an invalidating failure record. Once all evidence is
    authoritative the blockers are exactly the causes that apply, each once and in
    token order; before that there are none and no conclusion. A run is estimable
    exactly when the evidence is complete and no gate fails. *)
Theorem run_status_sound input st :
  (forall counts, ri_counts input = Some counts -> counts_u64 counts) ->
  evaluate_run_status input = Returned (success st) ->
  (rs_validity st = RunValidity_valid <->
     ri_lifecycle_state input = LifecycleState_completed /\
     ri_join_status input = JoinStatus_passed /\
     exists counts, ri_counts input = Some counts /\ exact_counts counts) /\
  (rs_validity st = RunValidity_invalid -> ri_invalidating_failure_record_present input = true) /\
  (evidence_complete input st ->
     (forall b, b ∈ rs_confirmatory_blockers st <-> applies input st b) /\
     rs_confirmatory_blockers st `sublist_of` confirmatory_blocker_values.*2) /\
  (~ evidence_complete input st -> rs_confirmatory_blockers st = []) /\
  (rs_confirmatory_estimability st = ConfirmatoryEstimability_estimable <->
     evidence_complete input st /\ forall b, ~ applies input st b).
Proof.
  intros Hu H. unfold evaluate_run_status in H.
  assert (Hc : forall output, conclude_status input output = success st ->
    rs_validity st = rs_validity output /\
    (rs_validity st = RunValidity_invalid -> ri_invalidating_failure_record_present input = true) /\
    confirmatory_sound input st).
  { intros output Ho. pose proof (conclude_confirmatory _ _ _ Ho).
    apply conclude_status_spec in Ho. tauto. }
  destruct (ri_lifecycle_state input) eqn:Hl.
  8: { destruct (ri_counts input) as [counts|]; [|done].
    destruct (completed_status input counts) as [output|] eqn:Ho; [|done]. injection H as H.
    destruct (Hc output H) as (-> & H2 & H3). rewrite (completed_status_gates _ _ _ Ho) in *.
    split; [|done].
    split.
    - destruct (complete_count_identities counts) eqn:E; case_bool_decide; try done.
      intros _. split_and!; [done..|]. exists counts. split; [done|].
      by apply complete_count_identities_true; [apply Hu|].
    - intros (_ & Hj & counts' & [= <-] & He). rewrite (bool_decide_true _ Hj).
      apply complete_count_identities_true in He; [|by apply Hu]. by rewrite He. }
  all: try (injection H as H; destruct (Hc _ H) as (-> & H2 & H3); split; [|done]; cbn;
            split; [done | intros (? & _); done]).
  all: injection H as <-; split; [cbn; split; [done | intros (? & _); done]|];
    split; [done|]; unfold evidence_complete; cbn; split_and!; [tauto | done | split; [done | tauto]].
Qed.

Lemma run_status_sound_witness :
  exists st, evaluate_run_status
    (mkRunStatusInput Stage_stage_a LifecycleState_completed JoinStatus_passed
       (Some (mkRunCounts (Some 300001) (Some 300001) (Some 300000) (Some 1) (Some 300000)
          (Some 0) (Some 300000)
          (Some (mkNumber NumberKind_unsigned_integer "100000" (Number_uint64 100000)))))
       false (mkAuthoritativeBlockCompleteness BlockCompleteness_complete true)
       (mkAuthoritativeGate GateStatus_pass true)) = Returned (success st) /\
    rs_validity st = RunValidity_valid /\
    ~ (rs_confirmatory_estimability st = ConfirmatoryEstimability_estimable).
Proof.
  eexists. split; [vm_compute; reflexivity|].
  match goal with
  | |- context [rs_validity ?st] =>
      destruct (run_status_sound
        (mkRunStatusInput Stage_stage_a LifecycleState_completed JoinStatus_passed
           (Some (mkRunCounts (Some 300001) (Some 300001) (Some 300000) (Some 1) (Some 300000)
              (Some 0) (Some 300000)
              (Some (mkNumber NumberKind_unsigned_integer "100000" (Number_uint64 100000)))))
           false (mkAuthoritativeBlockCompleteness BlockCompleteness_complete true)
           (mkAuthoritativeGate GateStatus_pass true)) st) as (H1 & _ & _ & _ & H5)
  end.
  - intros counts [= <-] z [[= <-]|[= <-]]; unfold is_u64, u64_max; lia.
  - vm_compute. reflexivity.
  - split.
    + apply H1. cbn. split_and!; [reflexivity..|]. eexists. split; [reflexivity|].
      exists 300000, 1, (mkNumber NumberKind_unsigned_integer "100000" (Number_uint64 100000)).
      cbn. unfold u64_max. split_and!; reflexivity || lia.
    + intros E. apply H5 in E as [_ E]. apply (E ConfirmatoryBlocker_blocked_zero_loss). reflexivity.
Defined.
