(* ===== verification/Load.v ===== *)
(** * Loading documents

    Models [src/protocol/load.cpp]: from a JSON document to the record of its
    kind. A [LoadFailure] that the loaders throw and [load_document] catches is
    the failure of a [Result]; fields are read in the order of the source, so the
    first failure is the same. *)

From stdpp Require Import prelude list strings.
From Stdlib Require Import ZArith Lia SpecFloat.
From S2P Require Import Prelude Validation Model Json Documents.

#[local] Open Scope Z_scope.
#[local] Open Scope result_scope.

Definition Object : Set := list (string * Value).

(** [std::optional::has_value]. *)
Definition is_some {A : Type} (o : option A) : bool := match o with Some _ => true | None => false end.

(** ** Fields *)

Definition load_fail {A : Type} (category : ErrorCategory) (path rule message : string) : Result A :=
  failure [mkError category path rule message].

Definition object_of (value : Value) (path : string) : Result Object :=
  match as_object value with
  | Some object => success object
  | None => load_fail ErrorCategory_invalid_type path "SCHEMA-TYPE" "expected object"
  end.

Definition array_of (value : Value) (path : string) : Result (list Value) :=
  match as_array value with
  | Some array => success array
  | None => load_fail ErrorCategory_invalid_type path "SCHEMA-TYPE" "expected array"
  end.

Definition child (path key : string) : string := path +:+ "/" +:+ key.

Definition required (object : Object) (key path : string) : Result Value :=
  match map_find key object with
  | Some value => success value
  | None =>
      load_fail ErrorCategory_missing_field (child path key) "SCHEMA-REQUIRED"
        "required field is missing"
  end.

Definition optional (object : Object) (key : string) : option Value := map_find key object.

Fixpoint reject_unknown (object : Object) (allowed : list string) (path : string) : Result unit :=
  match object with
  | [] => success tt
  | (key, _) :: rest =>
      if bool_decide (key ∈ allowed) then reject_unknown rest allowed path
      else load_fail ErrorCategory_unknown_field (child path key) "SCHEMA-ADDITIONAL"
             "unknown field is not permitted by the versioned schema"
  end.

Definition string_of (value : Value) (path : string) (allow_empty : bool) : Result string :=
  match as_string value with
  | None => load_fail ErrorCategory_invalid_type path "SCHEMA-TYPE" "expected string"
  | Some s =>
      if negb allow_empty && str_empty s then
        load_fail ErrorCategory_invalid_id path "SCHEMA-MIN-LENGTH" "string must not be empty"
      else success s
  end.

Definition string_field (object : Object) (key path : string) : Result string :=
  let* value := required object key path in
  string_of value (child path key) false.

Definition unit_field (object : Object) (key path : string) : Result string :=
  let* value := required object key path in
  let* unit := string_of value (child path key) true in
  if str_empty unit then
    load_fail ErrorCategory_invalid_unit (child path key) "DAT-TIME-UNIT"
      "unit must be present explicitly and must not be empty"
  else success unit.

Definition bool_field (object : Object) (key path : string) : Result bool :=
  let* value := required object key path in
  match as_bool value with
  | Some b => success b
  | None => load_fail ErrorCategory_invalid_type (child path key) "SCHEMA-TYPE" "expected boolean"
  end.

(** [std::get] of the alternative the kind names; a number of the program holds
    it. *)
Definition uint_of (value : Value) (path : string) : Result Z :=
  match as_number value with
  | Some number =>
      match num_kind number with
      | NumberKind_binary64 =>
          load_fail ErrorCategory_invalid_type path "SCHEMA-INTEGER" "expected exact integer"
      | NumberKind_signed_integer =>
          if number_integer number <? 0 then
            load_fail ErrorCategory_out_of_range path "SCHEMA-MINIMUM" "integer must be nonnegative"
          else success (number_integer number)
      | NumberKind_unsigned_integer => success (number_integer number)
      end
  | None => load_fail ErrorCategory_invalid_type path "SCHEMA-INTEGER" "expected exact integer"
  end.

Definition uint_field (object : Object) (key path : string) : Result Z :=
  let* value := required object key path in uint_of value (child path key).

(** [static_cast<double>] rounds to nearest. *)
Definition double_of_integer (z : Z) : spec_float := round_decimal (z <? 0) (Z.abs z) 0.

Definition number_of (value : Value) (path : string) : Result spec_float :=
  match as_number value with
  | None => load_fail ErrorCategory_invalid_type path "SCHEMA-NUMBER" "expected number"
  | Some number =>
      match num_kind number with
      | NumberKind_binary64 => success (number_double number)
      | _ => success (double_of_integer (number_integer number))
      end
  end.

Definition exact_number_of (value : Value) (path : string) : Result Number :=
  match as_number value with
  | None => load_fail ErrorCategory_invalid_type path "SCHEMA-NUMBER" "expected number"
  | Some number => success number
  end.

Definition id_field (object : Object) (key path : string) : Result Identifier :=
  let* value := required object key path in
  let* text := string_of value (child path key) false in
  Identifier_parse text (child path key).

Definition optional_nullable_id (object : Object) (key path : string) : Result (option Identifier) :=
  match optional object key with
  | None => success None
  | Some value =>
      if is_null value then success None
      else
        let* text := string_of value (child path key) false in
        let* id := Identifier_parse text (child path key) in
        success (Some id)
  end.

Definition version_field (object : Object) (key path : string) : Result ProtocolVersion :=
  let* value := required object key path in
  let* text := string_of value (child path key) false in
  parse_protocol_version text (child path key).

Definition sha_field (object : Object) (key path : string) : Result Sha256 :=
  let* value := required object key path in
  let* text := string_of value (child path key) false in
  Sha256_parse text (child path key).

Fixpoint enum_lookup {E : Type} (text : string) (entries : list (string * E)) : option E :=
  match entries with
  | [] => None
  | (name, value) :: rest => if String.eqb name text then Some value else enum_lookup text rest
  end.

Definition enum_value {E : Type} (value : Value) (path rule : string) (entries : list (string * E)) :
    Result E :=
  let* text := string_of value path false in
  match enum_lookup text entries with
  | Some e => success e
  | None => load_fail ErrorCategory_unknown_enum path rule ("unknown enum value: " +:+ text)
  end.

Definition enum_field {E : Type} (object : Object) (key path rule : string)
    (entries : list (string * E)) : Result E :=
  let* value := required object key path in enum_value value (child path key) rule entries.

(** [take(parse_x(string_field(object, key, path), path + "/" + key))]. *)
Definition parsed_field {E : Type} (parse : string -> string -> Result E) (object : Object)
    (key path : string) : Result E :=
  let* text := string_field object key path in parse text (child path key).

(** A loop over an array whose elements have the paths [path/0], [path/1], ... *)
Fixpoint load_elements {A : Type} (load : Value -> string -> Result A) (path : string) (index : Z)
    (array : list Value) : Result (list A) :=
  match array with
  | [] => success []
  | value :: rest =>
      let* a := load value (child path (std_to_string index)) in
      let* l := load_elements load path (index + 1) rest in
      success (a :: l)
  end.

Definition string_array (value : Value) (path : string) (require_nonempty : bool) :
    Result (list string) :=
  let* array := array_of value path in
  if require_nonempty && bool_decide (array = []) then
    load_fail ErrorCategory_out_of_range path "SCHEMA-MIN-ITEMS"
      "array must contain at least one item"
  else load_elements (fun value path => string_of value path false) path 0 array.

Definition artifact_reference (value : Value) (path : string) : Result ArtifactReference :=
  let* object := object_of value path in
  let* _u := reject_unknown object ["artifact_id"; "sha256"] path in
  let* artifact_id := id_field object "artifact_id" path in
  let* sha256 := sha_field object "sha256" path in
  success (mkArtifactReference artifact_id sha256).

Definition artifact_reference_array (value : Value) (path : string) (require_nonempty : bool) :
    Result (list ArtifactReference) :=
  let* array := array_of value path in
  if require_nonempty && bool_decide (array = []) then
    load_fail ErrorCategory_out_of_range path "SCHEMA-MIN-ITEMS"
      "artifact reference array must not be empty"
  else load_elements artifact_reference path 0 array.

(** A field that may be absent. *)
Definition optional_with {A : Type} (object : Object) (key : string) (load : Value -> Result A) :
    Result (option A) :=
  match optional object key with
  | None => success None
  | Some value => let* a := load value in success (Some a)
  end.

(** ** Schedules *)

Definition schedule_kinds : list (string * ScheduleKind) :=
  [("WARMUP", ScheduleKind_warmup);
   ("CALIBRATION", ScheduleKind_calibration);
   ("PILOT", ScheduleKind_pilot);
   ("CONFIRMATORY", ScheduleKind_confirmatory);
   ("DIAGNOSTIC", ScheduleKind_diagnostic);
   ("STAGE_B", ScheduleKind_stage_b);
   ("STAGE_C", ScheduleKind_stage_c)].

Definition arrival_families : list (string * ArrivalFamily) :=
  [("POISSON_EXPONENTIAL", ArrivalFamily_poisson_exponential);
   ("CONTINUOUS_READY", ArrivalFamily_continuous_ready);
   ("PREDECLARED_BURST", ArrivalFamily_predeclared_burst);
   ("PREDECLARED_OTHER", ArrivalFamily_predeclared_other)].

Definition deadline_encodings : list (string * DeadlineEncoding) :=
  [("ABSOLUTE_INTEGER_TICKS", DeadlineEncoding_absolute_integer_ticks);
   ("DELTA_INTEGER_TICKS", DeadlineEncoding_delta_integer_ticks)].

Definition load_rng (object : Object) : Result RngMetadata :=
  let* rng_value := required object "rng" "$out" in
  let* rng_object := object_of rng_value "$out/rng" in
  let* _u := reject_unknown rng_object
    ["algorithm"; "version"; "seed_id"; "derivation_record_id"; "parent_namespace_id"] "$out/rng" in
  let* algorithm := string_field rng_object "algorithm" "$out/rng" in
  let* version := string_field rng_object "version" "$out/rng" in
  let* seed_id := id_field rng_object "seed_id" "$out/rng" in
  let* derivation_record_id := id_field rng_object "derivation_record_id" "$out/rng" in
  let* parent_namespace_id := id_field rng_object "parent_namespace_id" "$out/rng" in
  success (mkRngMetadata algorithm version seed_id derivation_record_id parent_namespace_id).

(** The second field is only read when the first holds. *)
Definition load_boundary (object : Object) : Result unit :=
  let* value := required object "inclusion_boundary" "$out" in
  let* boundary := object_of value "$out/inclusion_boundary" in
  let* _u := reject_unknown boundary
    ["start_inclusive"; "end_exclusive"] "$out/inclusion_boundary" in
  let* start_inclusive := bool_field boundary "start_inclusive" "$out/inclusion_boundary" in
  let* half_open :=
    (if start_inclusive then bool_field boundary "end_exclusive" "$out/inclusion_boundary"
     else success false) in
  fail_if (negb half_open)
    (mkError ErrorCategory_cross_field "$out/inclusion_boundary" "SCH-HALF-OPEN"
       "the protocol requires an inclusive origin and exclusive end") ;;
  success tt.

Definition load_rate (object : Object) : Result ExactRate :=
  let* value := required object "nominal_offered_rate" "$out" in
  let* rate := object_of value "$out/nominal_offered_rate" in
  let* _u := reject_unknown rate
    ["numerator_events"; "denominator_ticks"] "$out/nominal_offered_rate" in
  let* numerator_events := uint_field rate "numerator_events" "$out/nominal_offered_rate" in
  let* denominator_ticks := uint_field rate "denominator_ticks" "$out/nominal_offered_rate" in
  fail_if (denominator_ticks =? 0)
    (mkError ErrorCategory_out_of_range "$out/nominal_offered_rate/denominator_ticks" "SCH-RATE-DENOMINATOR"
       "exact rate denominator must be positive") ;;
  success (mkExactRate numerator_events denominator_ticks).

Definition load_deadline_storage (object : Object) : Result DeadlineStorage :=
  let* value := required object "deadline_storage" "$out" in
  let* storage := object_of value "$out/deadline_storage" in
  let* mode := string_field storage "mode" "$out/deadline_storage" in
  if String.eqb mode "EXTERNAL_IMMUTABLE_ARTIFACT" then
    let* _u := reject_unknown storage
      ["mode"; "artifact_id"; "artifact_uri"; "row_count"; "byte_count"; "artifact_sha256"] "$out/deadline_storage" in
    let* artifact_id := id_field storage "artifact_id" "$out/deadline_storage" in
    let* artifact_uri := string_field storage "artifact_uri" "$out/deadline_storage" in
    let* row_count := uint_field storage "row_count" "$out/deadline_storage" in
    let* byte_count := uint_field storage "byte_count" "$out/deadline_storage" in
    let* artifact_sha256 := sha_field storage "artifact_sha256" "$out/deadline_storage" in
    success (ExternalScheduleStorage artifact_id artifact_uri row_count byte_count
    artifact_sha256)
  else if String.eqb mode "INLINE_TEST_ONLY" then
    let* _u := reject_unknown storage
      ["mode"; "deadline_ticks"] "$out/deadline_storage" in
    let* value := required storage "deadline_ticks" "$out/deadline_storage" in
    let* ticks := array_of value "$out/deadline_storage/deadline_ticks" in
    let* deadlines := load_elements uint_of "$out/deadline_storage/deadline_ticks" 0 ticks in
    success (InlineDeadlineStorage deadlines)
  else
    load_fail ErrorCategory_unknown_enum "$out/deadline_storage/mode" "DAT-STORAGE-MODE"
      ("unknown storage mode: " +:+ mode).

Definition schedule_members : list string :=
  ["schema_version"; "protocol_version"; "schedule_id"; "schedule_kind"; "arrival_family";
  "namespace_id"; "rng"; "time_unit"; "deadline_encoding"; "origin_ticks"; "horizon_ticks";
  "inclusion_boundary"; "offered_count"; "nominal_offered_rate"; "overflow_rule_record_id";
  "immutable_ordering"; "deadline_storage"; "decoded_deadlines_sha256"; "schedule_sha256"].

Definition load_schedule (document : Value) : Result ScheduleRecord :=
  let* object := object_of document "$out" in
  let* _u := reject_unknown object schedule_members "$out" in
  let* rng := load_rng object in
  let* _u := load_boundary object in
  let* immutable_ordering := bool_field object "immutable_ordering" "$out" in
  fail_if (negb immutable_ordering)
    (mkError ErrorCategory_cross_field "$out/immutable_ordering" "SCH-IMMUTABLE"
       "schedule ordering must be immutable") ;;
  let* exact_rate := load_rate object in
  let* typed_storage := load_deadline_storage object in
  let* time_unit := unit_field object "time_unit" "$out" in
  let* schema_version := version_field object "schema_version" "$out" in
  let* protocol_version := version_field object "protocol_version" "$out" in
  let* schedule_id := id_field object "schedule_id" "$out" in
  let* schedule_kind := enum_field object "schedule_kind" "$out" "SCH-KIND" schedule_kinds in
  let* arrival_family := enum_field object "arrival_family" "$out" "SCH-ARRIVAL" arrival_families in
  let* namespace_id := id_field object "namespace_id" "$out" in
  let* deadline_encoding :=
    enum_field object "deadline_encoding" "$out" "SCH-ENCODING" deadline_encodings in
  let* origin_ticks := uint_field object "origin_ticks" "$out" in
  let* horizon_ticks := uint_field object "horizon_ticks" "$out" in
  let* offered_count := uint_field object "offered_count" "$out" in
  let* overflow_rule_record_id := id_field object "overflow_rule_record_id" "$out" in
  let* decoded_deadlines_sha256 := sha_field object "decoded_deadlines_sha256" "$out" in
  let* schedule_sha256 := sha_field object "schedule_sha256" "$out" in
  success (mkScheduleRecord schema_version protocol_version schedule_id schedule_kind
  arrival_family namespace_id rng time_unit deadline_encoding origin_ticks horizon_ticks
  offered_count exact_rate overflow_rule_record_id typed_storage decoded_deadlines_sha256
  schedule_sha256 document).

(** ** Observation rows and envelopes *)

Definition outcomes : list (string * ProducerOutcome) :=
  [("ACCEPTED", ProducerOutcome_accepted);
   ("FULL", ProducerOutcome_full)].

Definition kinds : list (string * StreamKind) :=
  [("PRODUCER", StreamKind_producer);
   ("CONSUMER", StreamKind_consumer);
   ("JOINED_DERIVED", StreamKind_joined_derived)].

Definition byte_orders : list (string * Endianness) :=
  [("LITTLE_ENDIAN", Endianness_little_endian);
   ("BIG_ENDIAN", Endianness_big_endian);
   ("NOT_APPLICABLE", Endianness_not_applicable)].

Definition producer_row (value : Value) (path : string) : Result ProducerRecord :=
  let* object := object_of value path in
  let* _u := reject_unknown object
    ["run_id"; "logical_sequence"; "record_index"; "scheduled_arrival"; "producer_handle_begin";
    "record_lookup_completion"; "enqueue_invocation"; "enqueue_linearization";
    "enqueue_attempt_completion"; "attempted"; "outcome"; "accepted_ordinal"] path in
  let* attempted := bool_field object "attempted" path in
  fail_if (negb attempted)
    (mkError ErrorCategory_cross_field (child path "attempted") "RAW-ATTEMPTED"
       "producer rows always represent an attempted enqueue") ;;
  let* outcome := enum_field object "outcome" path "RAW-OUTCOME" outcomes in
  let* linearization :=
    optional_with object "enqueue_linearization"
      (fun field => uint_of field (child path "enqueue_linearization")) in
  let* accepted_ordinal :=
    optional_with object "accepted_ordinal"
      (fun field => uint_of field (child path "accepted_ordinal")) in
  fail_if (bool_decide (outcome = ProducerOutcome_accepted) &&
           (negb (is_some linearization) || negb (is_some accepted_ordinal)))
    (mkError ErrorCategory_missing_field path "RAW-ACCEPTED-FIELDS"
       "accepted rows require enqueue_linearization and accepted_ordinal") ;;
  fail_if (bool_decide (outcome = ProducerOutcome_full) &&
           (is_some linearization || is_some accepted_ordinal))
    (mkError ErrorCategory_cross_field path "RAW-FULL-FIELDS"
       "FULL rows must not contain a linearization timestamp or accepted ordinal") ;;
  let* run_id := id_field object "run_id" path in
  let* logical_sequence := uint_field object "logical_sequence" path in
  let* record_index := uint_field object "record_index" path in
  let* scheduled_arrival := uint_field object "scheduled_arrival" path in
  let* producer_handle_begin := uint_field object "producer_handle_begin" path in
  let* record_lookup_completion := uint_field object "record_lookup_completion" path in
  let* enqueue_invocation := uint_field object "enqueue_invocation" path in
  let* enqueue_attempt_completion := uint_field object "enqueue_attempt_completion" path in
  success (mkProducerRecord run_id logical_sequence record_index scheduled_arrival
  producer_handle_begin record_lookup_completion enqueue_invocation linearization
  enqueue_attempt_completion outcome accepted_ordinal).

Definition consumer_row (value : Value) (path : string) : Result ConsumerRecord :=
  let* object := object_of value path in
  let* _u := reject_unknown object
    ["run_id"; "consumed_ordinal"; "observed_record_index"; "dequeue_invocation";
    "dequeue_linearization"; "dequeue_completion"; "consumer_action_completion"] path in
  let* run_id := id_field object "run_id" path in
  let* consumed_ordinal := uint_field object "consumed_ordinal" path in
  let* observed_record_index := uint_field object "observed_record_index" path in
  let* dequeue_invocation := uint_field object "dequeue_invocation" path in
  let* dequeue_linearization := uint_field object "dequeue_linearization" path in
  let* dequeue_completion := uint_field object "dequeue_completion" path in
  let* consumer_action_completion := uint_field object "consumer_action_completion" path in
  success (mkConsumerRecord run_id consumed_ordinal observed_record_index dequeue_invocation
  dequeue_linearization dequeue_completion consumer_action_completion).

Definition joined_row (value : Value) (path : string) : Result JoinedRecord :=
  let* object := object_of value path in
  let* _u := reject_unknown object
    ["run_id"; "accepted_ordinal"; "logical_sequence"; "record_index"; "producer_row_ordinal";
    "consumer_row_ordinal"; "scheduled_arrival"; "producer_handle_begin";
    "record_lookup_completion"; "enqueue_invocation"; "enqueue_linearization";
    "enqueue_attempt_completion"; "dequeue_invocation"; "dequeue_linearization";
    "dequeue_completion"; "consumer_action_completion"; "producer_lateness";
    "pointer_lookup_interval"; "enqueue_service_time"; "admission_delay"; "queue_residence";
    "dequeue_service_time"; "post_dequeue_delivery_interval"; "consumer_action_interval";
    "end_to_end_latency"] path in
  let* run_id := id_field object "run_id" path in
  let* accepted_ordinal := uint_field object "accepted_ordinal" path in
  let* logical_sequence := uint_field object "logical_sequence" path in
  let* record_index := uint_field object "record_index" path in
  let* producer_row_ordinal := uint_field object "producer_row_ordinal" path in
  let* consumer_row_ordinal := uint_field object "consumer_row_ordinal" path in
  let* scheduled_arrival := uint_field object "scheduled_arrival" path in
  let* producer_handle_begin := uint_field object "producer_handle_begin" path in
  let* record_lookup_completion := uint_field object "record_lookup_completion" path in
  let* enqueue_invocation := uint_field object "enqueue_invocation" path in
  let* enqueue_linearization := uint_field object "enqueue_linearization" path in
  let* enqueue_attempt_completion := uint_field object "enqueue_attempt_completion" path in
  let* dequeue_invocation := uint_field object "dequeue_invocation" path in
  let* dequeue_linearization := uint_field object "dequeue_linearization" path in
  let* dequeue_completion := uint_field object "dequeue_completion" path in
  let* consumer_action_completion := uint_field object "consumer_action_completion" path in
  let* producer_lateness := uint_field object "producer_lateness" path in
  let* pointer_lookup_interval := uint_field object "pointer_lookup_interval" path in
  let* enqueue_service_time := uint_field object "enqueue_service_time" path in
  let* admission_delay := uint_field object "admission_delay" path in
  let* queue_residence := uint_field object "queue_residence" path in
  let* dequeue_service_time := uint_field object "dequeue_service_time" path in
  let* post_dequeue_delivery_interval := uint_field object "post_dequeue_delivery_interval" path in
  let* consumer_action_interval := uint_field object "consumer_action_interval" path in
  let* end_to_end_latency := uint_field object "end_to_end_latency" path in
  success (mkJoinedRecord run_id accepted_ordinal logical_sequence record_index
  producer_row_ordinal consumer_row_ordinal scheduled_arrival producer_handle_begin
  record_lookup_completion enqueue_invocation enqueue_linearization enqueue_attempt_completion
  dequeue_invocation dequeue_linearization dequeue_completion consumer_action_completion
  producer_lateness pointer_lookup_interval enqueue_service_time admission_delay queue_residence
  dequeue_service_time post_dequeue_delivery_interval consumer_action_interval
  end_to_end_latency).

Definition load_observation_storage (kind : StreamKind) (object : Object) : Result ObservationStorage :=
  let* value := required object "storage" "$out" in
  let* storage := object_of value "$out/storage" in
  let* mode := string_field storage "mode" "$out/storage" in
  if String.eqb mode "EXTERNAL_IMMUTABLE_ARTIFACT" then
    let* _u := reject_unknown storage
      ["mode"; "artifact_uri"] "$out/storage" in
    let* artifact_uri := string_field storage "artifact_uri" "$out/storage" in
    success (ExternalStorage artifact_uri)
  else if String.eqb mode "INLINE_TEST_ONLY" then
    let* _u := reject_unknown storage
      ["mode"; "inline_rows"] "$out/storage" in
    let* value := required storage "inline_rows" "$out/storage" in
    let* rows := array_of value "$out/storage/inline_rows" in
    match kind with
    | StreamKind_producer =>
        let* result := load_elements producer_row "$out/storage/inline_rows" 0 rows in
        success (InlineStorage (Rows_producer result))
    | StreamKind_consumer =>
        let* result := load_elements consumer_row "$out/storage/inline_rows" 0 rows in
        success (InlineStorage (Rows_consumer result))
    | StreamKind_joined_derived =>
        let* result := load_elements joined_row "$out/storage/inline_rows" 0 rows in
        success (InlineStorage (Rows_joined result))
    end
  else
    load_fail ErrorCategory_unknown_enum "$out/storage/mode" "DAT-STORAGE-MODE"
      ("unknown storage mode: " +:+ mode).

Definition raw_members : list string :=
  ["schema_version"; "protocol_version"; "artifact_id"; "run_id"; "stream_kind";
  "logical_row_schema_version"; "physical_format_record_id"; "encoding"; "time_unit";
  "endianness"; "compression"; "row_count"; "byte_count"; "immutable_ordering"; "storage";
  "source_artifacts"; "integrity_artifact_ref"; "artifact_sha256"].

Definition load_raw (document : Value) : Result RawObservationEnvelope :=
  let* object := object_of document "$out" in
  let* _u := reject_unknown object raw_members "$out" in
  let* kind := enum_field object "stream_kind" "$out" "DAT-STREAM-KIND" kinds in
  let* immutable_ordering := bool_field object "immutable_ordering" "$out" in
  fail_if (negb immutable_ordering)
    (mkError ErrorCategory_cross_field "$out/immutable_ordering" "DAT-IMMUTABLE-ORDER"
       "raw observation order must be immutable") ;;
  let* typed_storage := load_observation_storage kind object in
  let* source_artifacts :=
    optional_with object "source_artifacts"
      (fun value => artifact_reference_array value "$out/source_artifacts" false) in
  let sources := default [] source_artifacts in
  fail_if (bool_decide (kind = StreamKind_joined_derived) && (length sources <? 2)%nat)
    (mkError ErrorCategory_missing_evidence "$out/source_artifacts" "DAT-JOIN-SOURCES"
       "joined streams require at least two source artifacts") ;;
  let* schema_version := version_field object "schema_version" "$out" in
  let* protocol_version := version_field object "protocol_version" "$out" in
  let* artifact_id := id_field object "artifact_id" "$out" in
  let* run_id := id_field object "run_id" "$out" in
  let* logical_row_schema_version := version_field object "logical_row_schema_version" "$out" in
  let* physical_format_record_id := id_field object "physical_format_record_id" "$out" in
  let* encoding := string_field object "encoding" "$out" in
  let* time_unit := unit_field object "time_unit" "$out" in
  let* endianness := enum_field object "endianness" "$out" "DAT-ENDIANNESS" byte_orders in
  let* compression := string_field object "compression" "$out" in
  let* row_count := uint_field object "row_count" "$out" in
  let* byte_count := uint_field object "byte_count" "$out" in
  let* integrity_value := required object "integrity_artifact_ref" "$out" in
  let* integrity_artifact_ref :=
    artifact_reference integrity_value "$out/integrity_artifact_ref" in
  let* artifact_sha256 := sha_field object "artifact_sha256" "$out" in
  success (mkRawObservationEnvelope schema_version protocol_version artifact_id run_id kind
  logical_row_schema_version physical_format_record_id encoding time_unit endianness compression
  row_count byte_count typed_storage sources integrity_artifact_ref artifact_sha256 document).

(** ** Run manifests *)

(** The characters of a checksum. *)
Fixpoint lowercase_hex (checksum : string) : bool :=
  match checksum with
  | EmptyString => true
  | String c rest =>
      let code := char_code c in
      (((48 <=? code) && (code <=? 57)) || ((97 <=? code) && (code <=? 102))) && lowercase_hex rest
  end.

Definition checksum_evidence (value : Value) (path : string) : Result ChecksumEvidence :=
  let* object := object_of value path in
  let* _u := reject_unknown object
    ["algorithm_record_id"; "algorithm_version"; "value_hex"] path in
  let* checksum := string_field object "value_hex" path in
  fail_if (negb (lowercase_hex checksum))
    (mkError ErrorCategory_invalid_hash (child path "value_hex") "DAT-CHECKSUM-HEX"
       "checksum value must be nonempty lowercase hexadecimal") ;;
  let* algorithm_record_id := id_field object "algorithm_record_id" path in
  let* algorithm_version := string_field object "algorithm_version" path in
  success (mkChecksumEvidence algorithm_record_id algorithm_version checksum).

(** A required field that is itself a document. *)
Definition nested {A : Type} (load : Value -> string -> Result A) (object : Object)
    (key path : string) : Result A :=
  let* value := required object key path in load value (child path key).

Definition phase_integrity (value : Value) (path : string) : Result PhaseIntegrityRecord :=
  let* object := object_of value path in
  let* _u := reject_unknown object
    ["report_artifact"; "final_consumer_rolling_checksum"; "event_records_pre_checksum";
    "event_records_post_checksum"; "ordered_index_checksum"; "address_delta_checksum"] path in
  let* report_artifact := nested artifact_reference object "report_artifact" path in
  let* final_consumer_rolling_checksum :=
    nested checksum_evidence object "final_consumer_rolling_checksum" path in
  let* event_records_pre_checksum :=
    nested checksum_evidence object "event_records_pre_checksum" path in
  let* event_records_post_checksum :=
    nested checksum_evidence object "event_records_post_checksum" path in
  let* ordered_index_checksum :=
    nested checksum_evidence object "ordered_index_checksum" path in
  let* address_delta_checksum :=
    nested checksum_evidence object "address_delta_checksum" path in
  success (mkPhaseIntegrityRecord report_artifact final_consumer_rolling_checksum
  event_records_pre_checksum event_records_post_checksum ordered_index_checksum
  address_delta_checksum).

Definition run_counts (value : Value) (path : string) : Result RunCounts :=
  let* object := object_of value path in
  let* _u := reject_unknown object
    ["offered"; "attempted"; "accepted"; "full"; "consumed"; "final_occupancy";
    "raw_sample_count"; "n_eff_p999"] path in
  let optional_uint key := optional_with object key (fun field => uint_of field (child path key)) in
  let* effective :=
    match optional object "n_eff_p999" with
    | None => success None
    | Some field =>
        if is_null field then success None
        else
          let* number := exact_number_of field (child path "n_eff_p999") in
          let* value := number_of field (child path "n_eff_p999") in
          if SFltb value (S754_zero false) then
            load_fail ErrorCategory_out_of_range (child path "n_eff_p999") "SCHEMA-MINIMUM"
              "effective tail count must be nonnegative"
          else success (Some number)
    end in
  let* offered := optional_uint "offered" in
  let* attempted := optional_uint "attempted" in
  let* accepted := optional_uint "accepted" in
  let* full := optional_uint "full" in
  let* consumed := optional_uint "consumed" in
  let* final_occupancy := optional_uint "final_occupancy" in
  let* raw_sample_count := optional_uint "raw_sample_count" in
  success (mkRunCounts offered attempted accepted full consumed final_occupancy raw_sample_count
  effective).

Definition run_provenance (value : Value) (path : string) : Result RunProvenance :=
  let* object := object_of value path in
  let* _u := reject_unknown object
    ["paper_repository_revision"; "implementation_repository_revision"; "build_artifact_sha256";
    "compiler_identity"; "compiler_flags"; "standard_library"; "dependency_record_id"] path in
  let* paper_repository_revision := string_field object "paper_repository_revision" path in
  let* implementation_repository_revision := string_field object "implementation_repository_revision" path in
  let* build_artifact_sha256 := sha_field object "build_artifact_sha256" path in
  let* compiler_identity := string_field object "compiler_identity" path in
  let* compiler_flags :=
    nested (fun value path => string_array value path false) object "compiler_flags" path in
  let* standard_library := string_field object "standard_library" path in
  let* dependency_record_id := id_field object "dependency_record_id" path in
  success (mkRunProvenance paper_repository_revision implementation_repository_revision
  build_artifact_sha256 compiler_identity compiler_flags standard_library dependency_record_id).

Definition run_schedule_refs (value : Value) (path : string) : Result RunScheduleReferences :=
  let* object := object_of value path in
  let* _u := reject_unknown object
    ["measurement"; "warmup"] path in
  let* measurement := nested artifact_reference object "measurement" path in
  let* warmup := nested artifact_reference object "warmup" path in
  success (mkRunScheduleReferences measurement warmup).

Definition run_seed_refs (value : Value) (path : string) : Result RunSeedReferences :=
  let* object := object_of value path in
  let* _u := reject_unknown object
    ["arrival"; "node_order"; "event_order"; "warmup"; "derivation_record_id"] path in
  let* arrival := id_field object "arrival" path in
  let* node_order := optional_nullable_id object "node_order" path in
  let* event_order := id_field object "event_order" path in
  let* warmup := id_field object "warmup" path in
  let* derivation_record_id := id_field object "derivation_record_id" path in
  success (mkRunSeedReferences arrival node_order event_order warmup derivation_record_id).

Definition relationships : list (string * ArtifactRelationship) :=
  [("PRODUCER_RAW", ArtifactRelationship_producer_raw);
   ("CONSUMER_RAW", ArtifactRelationship_consumer_raw);
   ("JOIN_AUDIT", ArtifactRelationship_join_audit);
   ("JOINED_DERIVED", ArtifactRelationship_joined_derived);
   ("PHASE_INTEGRITY_REPORT", ArtifactRelationship_phase_integrity_report);
   ("SCHEDULE", ArtifactRelationship_schedule);
   ("COUNTER", ArtifactRelationship_counter);
   ("DERIVED", ArtifactRelationship_derived);
   ("PROVENANCE", ArtifactRelationship_provenance);
   ("FAILURE_EVIDENCE", ArtifactRelationship_failure_evidence)].

Definition typed_artifact (value : Value) (path : string) : Result TypedArtifactReference :=
  let* object := object_of value path in
  let* _u := reject_unknown object
    ["artifact_id"; "relationship"; "sha256"] path in
  let* artifact_id := id_field object "artifact_id" path in
  let* sha256 := sha_field object "sha256" path in
  let* relationship :=
    enum_field object "relationship" path "DAT-ARTIFACT-RELATIONSHIP" relationships in
  success (mkTypedArtifactReference (mkArtifactReference artifact_id sha256) relationship).

(** [take(Id::parse(string_of(value, path), path))] for the element of an array. *)
Definition id_of (value : Value) (path : string) : Result Identifier :=
  let* text := string_of value path false in Identifier_parse text path.

(** The blockers of a manifest, which only the second snapshot has. *)
Definition load_blockers (object : Object) (protocol_version : ProtocolVersion) :
    Result (list ConfirmatoryBlocker) :=
  match protocol_version, optional object "confirmatory_blockers" with
  | ProtocolVersion_v2_0_0_pre_2, None =>
      load_fail ErrorCategory_missing_field "$out/confirmatory_blockers" "SCHEMA-REQUIRED"
        "2.0.0-pre.2 requires the exhaustive confirmatory blocker array"
  | ProtocolVersion_v2_0_0_pre_2, Some value =>
      let* blocker_array := array_of value "$out/confirmatory_blockers" in
      load_elements (fun value path =>
        let* text := string_of value path false in parse_confirmatory_blocker text path)
        "$out/confirmatory_blockers" 0 blocker_array
  | ProtocolVersion_v2_0_0_pre_1, Some _ =>
      load_fail ErrorCategory_unknown_field "$out/confirmatory_blockers" "SCHEMA-ADDITIONAL"
        "2.0.0-pre.1 does not contain confirmatory_blockers"
  | ProtocolVersion_v2_0_0_pre_1, None => success []
  end.

Definition manifest_members : list string :=
  ["schema_version"; "protocol_version"; "run_id"; "platform_id"; "build_id";
  "within_cell_ordinal"; "queue_provenance_id"; "provenance"; "stage"; "run_mode";
  "lifecycle_state"; "block_id"; "block_role"; "package"; "requested_hardware_state";
  "verified_hardware_state"; "placement"; "working_set_class"; "load_level"; "capacity_events";
  "time_unit"; "schedule_refs"; "seed_refs"; "validity"; "count_reconciliation";
  "zero_loss_status"; "effective_tail_status"; "confirmatory_estimability";
  "confirmatory_blockers"; "block_completeness"; "join_status"; "counts"; "integrity_evidence";
  "failure_record_ids"; "artifact_refs"; "manifest_sha256"].

Definition load_manifest (document : Value) : Result RunManifest :=
  let* object := object_of document "$out" in
  let* _u := reject_unknown object manifest_members "$out" in
  let* schema_version := version_field object "schema_version" "$out" in
  let* protocol_version := version_field object "protocol_version" "$out" in
  fail_if (negb (bool_decide (schema_version = protocol_version)))
    (mkError ErrorCategory_unsupported_version "$out/protocol_version" "GOV-004"
       "schema_version and protocol_version must identify the same snapshot") ;;
  let* stage := parsed_field parse_stage object "stage" "$out" in
  let* run_mode := parsed_field parse_run_mode object "run_mode" "$out" in
  let* lifecycle_state := parsed_field parse_lifecycle_state object "lifecycle_state" "$out" in
  let* block_role := parsed_field parse_block_role object "block_role" "$out" in
  let* package := parsed_field parse_queue_package object "package" "$out" in
  let* requested_state :=
    parsed_field parse_requested_hardware_state object "requested_hardware_state" "$out" in
  let* verified_state :=
    parsed_field parse_verified_hardware_state object "verified_hardware_state" "$out" in
  let* placement := parsed_field parse_placement object "placement" "$out" in
  let* working_set :=
    parsed_field parse_working_set_class object "working_set_class" "$out" in
  let* load_level := parsed_field parse_load_level object "load_level" "$out" in
  let* validity := parsed_field parse_run_validity object "validity" "$out" in
  let* count_reconciliation :=
    parsed_field parse_gate_status object "count_reconciliation" "$out" in
  let* zero_loss_status := parsed_field parse_gate_status object "zero_loss_status" "$out" in
  let* effective_tail :=
    parsed_field parse_gate_status object "effective_tail_status" "$out" in
  let* estimability :=
    parsed_field parse_confirmatory_estimability object "confirmatory_estimability" "$out" in
  let* confirmatory_blockers := load_blockers object protocol_version in
  let* completeness :=
    parsed_field parse_block_completeness object "block_completeness" "$out" in
  let* join_status := parsed_field parse_join_status object "join_status" "$out" in
  let* counts := optional_with object "counts" (fun value => run_counts value "$out/counts") in
  let* integrity :=
    optional_with object "integrity_evidence"
      (fun value => phase_integrity value "$out/integrity_evidence") in
  let* failure_value := required object "failure_record_ids" "$out" in
  let* failure_array := array_of failure_value "$out/failure_record_ids" in
  let* failures := load_elements id_of "$out/failure_record_ids" 0 failure_array in
  let* artifact_value := required object "artifact_refs" "$out" in
  let* artifact_array := array_of artifact_value "$out/artifact_refs" in
  let* artifacts := load_elements typed_artifact "$out/artifact_refs" 0 artifact_array in
  let* time_unit := unit_field object "time_unit" "$out" in
  let* run_id := id_field object "run_id" "$out" in
  let* platform_id := id_field object "platform_id" "$out" in
  let* build_id := id_field object "build_id" "$out" in
  let* within_cell_ordinal := uint_field object "within_cell_ordinal" "$out" in
  let* queue_provenance_id := id_field object "queue_provenance_id" "$out" in
  let* provenance := nested run_provenance object "provenance" "$out" in
  let* block_id := id_field object "block_id" "$out" in
  let* capacity_events := uint_field object "capacity_events" "$out" in
  let* schedule_refs := nested run_schedule_refs object "schedule_refs" "$out" in
  let* seed_refs := nested run_seed_refs object "seed_refs" "$out" in
  let* manifest_sha256 := sha_field object "manifest_sha256" "$out" in
  success (mkRunManifest schema_version protocol_version run_id platform_id build_id
  within_cell_ordinal queue_provenance_id provenance stage run_mode lifecycle_state block_id
  block_role package requested_state verified_state placement working_set load_level
  capacity_events time_unit schedule_refs seed_refs validity count_reconciliation
  zero_loss_status effective_tail estimability confirmatory_blockers completeness join_status
  counts integrity failures artifacts manifest_sha256 document).

(** ** Block plans *)

Definition load_cell (value : Value) (path : string) : Result StageACell :=
  let* cell := object_of value path in
  let* _u := reject_unknown cell
    ["cell_ordinal"; "package"; "requested_hardware_state"; "placement"; "working_set_class";
    "load_level"; "arrival_seed_ref"; "node_seed_ref"; "event_seed_ref"] path in
  let* cell_ordinal := uint_field cell "cell_ordinal" path in
  let* package := parsed_field parse_queue_package cell "package" path in
  let* requested_hardware_state :=
    parsed_field parse_requested_hardware_state cell "requested_hardware_state" path in
  let* placement := parsed_field parse_placement cell "placement" path in
  let* working_set_class :=
    parsed_field parse_working_set_class cell "working_set_class" path in
  let* load_level := parsed_field parse_load_level cell "load_level" path in
  let* arrival_seed_ref := id_field cell "arrival_seed_ref" path in
  let* node_seed_ref := optional_nullable_id cell "node_seed_ref" path in
  let* event_seed_ref := id_field cell "event_seed_ref" path in
  success (mkStageACell cell_ordinal package requested_hardware_state placement working_set_class
  load_level arrival_seed_ref node_seed_ref event_seed_ref).

Definition load_lineage (object : Object) : Result (option ReplacementLineage) :=
  match optional object "replacement_lineage" with
  | None => success None
  | Some value =>
      if is_null value then success None
      else
        let* lineage_object := object_of value "$out/replacement_lineage" in
        let* _u := reject_unknown lineage_object
          ["replaced_block_ordinal"; "replaced_block_role"; "replaced_seed_subspace_id"] "$out/replacement_lineage" in
        let* replaced_block_ordinal :=
          uint_field lineage_object "replaced_block_ordinal" "$out/replacement_lineage" in
        let* replaced_block_role :=
          parsed_field parse_block_role lineage_object "replaced_block_role"
            "$out/replacement_lineage" in
        let* replaced_seed_subspace_id :=
          id_field lineage_object "replaced_seed_subspace_id" "$out/replacement_lineage" in
        success (Some (mkReplacementLineage replaced_block_ordinal replaced_block_role
                         replaced_seed_subspace_id))
  end.

Definition hardware_state_of (value : Value) (path : string) : Result RequestedHardwareState :=
  let* text := string_of value path false in parse_requested_hardware_state text path.

Definition load_whole_plot_order (object : Object) :
    Result (RequestedHardwareState * RequestedHardwareState) :=
  let* value := required object "whole_plot_order" "$out" in
  let* plots := array_of value "$out/whole_plot_order" in
  match plots with
  | [first; second] =>
      let* first := hardware_state_of first "$out/whole_plot_order/0" in
      let* second := hardware_state_of second "$out/whole_plot_order/1" in
      success (first, second)
  | _ =>
      load_fail ErrorCategory_out_of_range "$out/whole_plot_order" "BLK-WHOLE-PLOTS"
        "whole_plot_order must contain exactly two states"
  end.

Definition block_plan_members : list string :=
  ["schema_version"; "protocol_version"; "block_id"; "platform_id"; "build_id"; "stage";
  "block_role"; "block_ordinal"; "seed_subspace_id"; "replaces_block_id";
  "replacement_authorization_id"; "replacement_lineage"; "whole_plot_order"; "cells";
  "access_state"; "plan_sha256"].

Definition load_block_plan (document : Value) : Result BlockPlan :=
  let* object := object_of document "$out" in
  let* _u := reject_unknown object block_plan_members "$out" in
  let* stage := parsed_field parse_stage object "stage" "$out" in
  fail_if (negb (bool_decide (stage = Stage_stage_a)))
    (mkError ErrorCategory_cross_field "$out/stage" "BLK-STAGE-A"
       "block plans in this schema are Stage A only") ;;
  let* role := parsed_field parse_block_role object "block_role" "$out" in
  fail_if (bool_decide (role = BlockRole_not_applicable))
    (mkError ErrorCategory_unknown_enum "$out/block_role" "BLK-ROLE"
       "Stage A block role cannot be NOT_APPLICABLE") ;;
  let* replaces := optional_nullable_id object "replaces_block_id" "$out" in
  let* authorization := optional_nullable_id object "replacement_authorization_id" "$out" in
  let* lineage := load_lineage object in
  fail_if (negb (Bool.eqb (is_some replaces) (is_some authorization)) ||
           negb (Bool.eqb (is_some replaces) (is_some lineage)))
    (mkError ErrorCategory_cross_field "$out/replaces_block_id" "BLK-REPLACEMENT-SHAPE"
       "replacement identity, authorization, and lineage must be all null or all present") ;;
  let* whole_plot_order := load_whole_plot_order object in
  let* cells_value := required object "cells" "$out" in
  let* cell_array := array_of cells_value "$out/cells" in
  let* cells := load_elements load_cell "$out/cells" 0 cell_array in
  let* schema_version := version_field object "schema_version" "$out" in
  let* protocol_version := version_field object "protocol_version" "$out" in
  let* block_id := id_field object "block_id" "$out" in
  let* platform_id := id_field object "platform_id" "$out" in
  let* build_id := id_field object "build_id" "$out" in
  let* block_ordinal := uint_field object "block_ordinal" "$out" in
  let* seed_subspace_id := id_field object "seed_subspace_id" "$out" in
  let* access_state := parsed_field parse_access_state object "access_state" "$out" in
  let* plan_sha256 := sha_field object "plan_sha256" "$out" in
  success (mkBlockPlan schema_version protocol_version block_id platform_id build_id stage role
  block_ordinal seed_subspace_id replaces authorization lineage whole_plot_order cells
  access_state plan_sha256 document).

(** ** Failure records *)

Definition scopes : list (string * FailureScope) :=
  [("RUN", FailureScope_run);
   ("BLOCK", FailureScope_block);
   ("PLATFORM", FailureScope_platform);
   ("BUILD", FailureScope_build);
   ("PROTOCOL", FailureScope_protocol);
   ("ACCESS", FailureScope_access)].

Definition categories : list (string * FailureCategory) :=
  [("CORRECTNESS", FailureCategory_correctness);
   ("COUNT_RECONCILIATION", FailureCategory_count_reconciliation);
   ("CLOCK", FailureCategory_clock);
   ("AFFINITY", FailureCategory_affinity);
   ("NUMA", FailureCategory_numa);
   ("HARDWARE_STATE", FailureCategory_hardware_state);
   ("PROCESS_INTERRUPTION", FailureCategory_process_interruption);
   ("SAMPLE_LOSS", FailureCategory_sample_loss);
   ("BUFFER_OVERFLOW", FailureCategory_buffer_overflow);
   ("CORRUPT_OUTPUT", FailureCategory_corrupt_output);
   ("MANIFEST", FailureCategory_manifest);
   ("ADDRESS_PATTERN", FailureCategory_address_pattern);
   ("PHASE_RESET", FailureCategory_phase_reset);
   ("ENVIRONMENT", FailureCategory_environment);
   ("ACCESS_LEAKAGE", FailureCategory_access_leakage);
   ("OTHER_MEASUREMENT", FailureCategory_other_measurement)].

Definition phases : list (string * DetectedPhase) :=
  [("PRE_RUN", DetectedPhase_pre_run);
   ("WARMUP", DetectedPhase_warmup);
   ("RESET", DetectedPhase_reset);
   ("MEASUREMENT", DetectedPhase_measurement);
   ("DRAIN", DetectedPhase_drain);
   ("POST_RUN", DetectedPhase_post_run);
   ("ANALYSIS", DetectedPhase_analysis);
   ("ACCESS_AUDIT", DetectedPhase_access_audit)].

Definition consequences : list (string * BlockConsequence) :=
  [("NONE", BlockConsequence_none);
   ("ORIGINAL_BLOCK_INCOMPLETE", BlockConsequence_original_block_incomplete);
   ("STUDY_UNRESOLVED", BlockConsequence_study_unresolved);
   ("NOT_APPLICABLE", BlockConsequence_not_applicable)].

Definition resolutions : list (string * ResolutionStatus) :=
  [("OPEN", ResolutionStatus_open);
   ("RETAINED_DIAGNOSTIC_ONLY", ResolutionStatus_retained_diagnostic_only);
   ("REPLACEMENT_AUTHORIZED", ResolutionStatus_replacement_authorized);
   ("REPLACEMENT_DENIED", ResolutionStatus_replacement_denied);
   ("RESOLVED_BEFORE_MEASUREMENT", ResolutionStatus_resolved_before_measurement);
   ("STUDY_STOPPED", ResolutionStatus_study_stopped)].

Definition failure_members : list string :=
  ["schema_version"; "protocol_version"; "failure_record_id"; "platform_id"; "stage"; "scope";
  "run_id"; "block_id"; "build_id"; "category"; "detected_phase"; "observed_at_utc";
  "description"; "invalidates_run"; "block_consequence"; "resolution_status";
  "replacement_authorization_id"; "replacement_block_id"; "supersedes_id"; "evidence_refs";
  "record_sha256"].

Definition load_failure (document : Value) : Result FailureRecord :=
  let* object := object_of document "$out" in
  let* _u := reject_unknown object failure_members "$out" in
  let* scope := enum_field object "scope" "$out" "FAIL-SCOPE" scopes in
  let* run_id := optional_nullable_id object "run_id" "$out" in
  let* block_id := optional_nullable_id object "block_id" "$out" in
  fail_if (bool_decide (scope = FailureScope_run) && (negb (is_some run_id) || negb (is_some block_id)))
    (mkError ErrorCategory_missing_field "$out/run_id" "FAIL-RUN-IDENTITY"
       "run-scoped failures require both run_id and block_id") ;;
  let* status := enum_field object "resolution_status" "$out" "FAIL-RESOLUTION" resolutions in
  let* replacement_auth := optional_nullable_id object "replacement_authorization_id" "$out" in
  let* replacement_block := optional_nullable_id object "replacement_block_id" "$out" in
  fail_if (bool_decide (status = ResolutionStatus_replacement_authorized) &&
           (negb (is_some replacement_auth) || negb (is_some replacement_block)))
    (mkError ErrorCategory_missing_field "$out/replacement_authorization_id" "FAIL-REPLACEMENT-EVIDENCE"
       "authorized replacement requires authorization and replacement block IDs") ;;
  let* schema_version := version_field object "schema_version" "$out" in
  let* protocol_version := version_field object "protocol_version" "$out" in
  let* failure_record_id := id_field object "failure_record_id" "$out" in
  let* platform_id := id_field object "platform_id" "$out" in
  let* stage := parsed_field parse_stage object "stage" "$out" in
  let* build_id := optional_nullable_id object "build_id" "$out" in
  let* category := enum_field object "category" "$out" "FAIL-CATEGORY" categories in
  let* detected_phase := enum_field object "detected_phase" "$out" "FAIL-PHASE" phases in
  let* observed_at_utc := string_field object "observed_at_utc" "$out" in
  let* description := string_field object "description" "$out" in
  let* invalidates_run := bool_field object "invalidates_run" "$out" in
  let* block_consequence :=
    enum_field object "block_consequence" "$out" "FAIL-BLOCK-CONSEQUENCE" consequences in
  let* supersedes_id := optional_nullable_id object "supersedes_id" "$out" in
  let* evidence_refs :=
    nested (fun value path => artifact_reference_array value path true) object "evidence_refs"
      "$out" in
  let* record_sha256 := sha_field object "record_sha256" "$out" in
  success (mkFailureRecord schema_version protocol_version failure_record_id platform_id stage
  scope run_id block_id build_id category detected_phase observed_at_utc description
  invalidates_run block_consequence status replacement_auth replacement_block supersedes_id
  evidence_refs record_sha256 document).

(** ** Freeze records *)

Definition record_kinds : list (string * RecordKind) :=
  [("PROTOCOL_FREEZE", RecordKind_protocol_freeze);
   ("SELECTION_FREEZE", RecordKind_selection_freeze);
   ("VALIDATION_UNSEAL", RecordKind_validation_unseal);
   ("H3_EVALUATED", RecordKind_h3_evaluated);
   ("H1H2_RELEASED", RecordKind_h1h2_released);
   ("REPLACEMENT_AUTHORIZATION", RecordKind_replacement_authorization);
   ("AMENDMENT", RecordKind_amendment)].

Definition boundaries : list (string * ReadinessBoundary) :=
  [("READY_FOR_IMPLEMENTATION", ReadinessBoundary_ready_for_implementation);
   ("BLOCKED_BEFORE_IMPLEMENTATION", ReadinessBoundary_blocked_before_implementation);
   ("BLOCKED_BEFORE_PILOT", ReadinessBoundary_blocked_before_pilot);
   ("BLOCKED_BEFORE_CONFIRMATORY_EXECUTION", ReadinessBoundary_blocked_before_confirmatory_execution);
   ("SUBMISSION_ONLY", ReadinessBoundary_submission_only)].

Definition statuses : list (string * FreezeStatus) :=
  [("OPEN", FreezeStatus_open);
   ("FROZEN", FreezeStatus_frozen);
   ("AUTHORIZED", FreezeStatus_authorized);
   ("REJECTED", FreezeStatus_rejected);
   ("SUPERSEDED", FreezeStatus_superseded)].

Definition authorization_statuses : list (string * AuthorizationStatus) :=
  [("NOT_APPLICABLE", AuthorizationStatus_not_applicable);
   ("PENDING", AuthorizationStatus_pending);
   ("AUTHORIZED", AuthorizationStatus_authorized);
   ("REJECTED", AuthorizationStatus_rejected)].

Definition authority_roles : list (string * AuthorityRole) :=
  [("PROTOCOL_OWNER", AuthorityRole_protocol_owner);
   ("FREEZE_AUTHORITY", AuthorityRole_freeze_authority);
   ("VALIDATION_CUSTODIAN", AuthorityRole_validation_custodian);
   ("CONFIRMATORY_ANALYST", AuthorityRole_confirmatory_analyst);
   ("REPLACEMENT_AUTHORITY", AuthorityRole_replacement_authority);
   ("PLATFORM_OPERATOR", AuthorityRole_platform_operator);
   ("AUTHOR", AuthorityRole_author)].

Definition access_classes : list (string * AccessClass) :=
  [("TREATMENT_BLIND", AccessClass_treatment_blind);
   ("TRAINING_ONLY", AccessClass_training_only);
   ("VALIDATION_SEALED", AccessClass_validation_sealed);
   ("VALIDATION_UNSEALED", AccessClass_validation_unsealed);
   ("PUBLIC_PROTOCOL", AccessClass_public_protocol);
   ("PLATFORM_EVIDENCE", AccessClass_platform_evidence)].

Definition context_names : list (string * H3Context) :=
  [("NEAR_L2_L050", H3Context_near_l2_l050);
   ("NEAR_LLC_L050", H3Context_near_llc_l050);
   ("NEAR_BEYOND_LLC_L050", H3Context_near_beyond_llc_l050);
   ("FAR_L2_L050", H3Context_far_l2_l050);
   ("FAR_LLC_L050", H3Context_far_llc_l050);
   ("FAR_BEYOND_LLC_L050", H3Context_far_beyond_llc_l050)].

Definition optional_artifact_ref (object : Object) (key path : string) :
    Result (option ArtifactReference) :=
  optional_with object key (fun value => artifact_reference value (child path key)).

Definition optional_string (object : Object) (key path : string) (nullable : bool) :
    Result (option string) :=
  match optional object key with
  | None => success None
  | Some value =>
      if nullable && is_null value then success None
      else let* s := string_of value (child path key) true in success (Some s)
  end.

Definition optional_string_array (object : Object) (key : string) (require_nonempty : bool) :
    Result (list string) :=
  match optional object key with
  | None => success []
  | Some value => string_array value (child "$out" key) require_nonempty
  end.

Definition load_authority (object : Object) : Result Authority :=
  let* value := required object "authority" "$out" in
  let* authority_object := object_of value "$out/authority" in
  let* _u := reject_unknown authority_object
    ["authority_id"; "role"; "attestation"; "signature_artifact_id"] "$out/authority" in
  let* authority_id := id_field authority_object "authority_id" "$out/authority" in
  let* role :=
    enum_field authority_object "role" "$out/authority" "ACC-AUTHORITY-ROLE" authority_roles in
  let* attestation := string_field authority_object "attestation" "$out/authority" in
  let* signature_artifact_id :=
    optional_nullable_id authority_object "signature_artifact_id" "$out/authority" in
  success (mkAuthority authority_id role attestation signature_artifact_id).

(** One context of the selections. *)
Definition load_candidate (selection_object : Object) (name : string) : Result H3Candidate :=
  let path := child "$out/h3_selections" name in
  let* value := required selection_object name "$out/h3_selections" in
  let* candidate := object_of value path in
  let* _u := reject_unknown candidate ["package"; "requested_hardware_state"] path in
  let* package := parsed_field parse_queue_package candidate "package" path in
  let* state :=
    parsed_field parse_requested_hardware_state candidate "requested_hardware_state" path in
  fail_if (bool_decide (package = QueuePackage_nblfq_mpsc) ||
           bool_decide (package = QueuePackage_not_applicable) ||
           bool_decide (state = RequestedHardwareState_not_applicable))
    (mkError ErrorCategory_unknown_enum path "ACC-H3-CANDIDATE"
       "H3 candidate must be one of the ten Stage A package/state candidates") ;;
  success (mkH3Candidate package state).

Fixpoint load_candidates (selection_object : Object) (names : list (string * H3Context)) :
    Result (list (H3Context * H3Candidate)) :=
  match names with
  | [] => success []
  | (name, context) :: rest =>
      let* candidate := load_candidate selection_object name in
      let* selections := load_candidates selection_object rest in
      success ((context, candidate) :: selections)
  end.

Definition load_selections (object : Object) : Result (list (H3Context * H3Candidate)) :=
  match optional object "h3_selections" with
  | None => success []
  | Some value =>
      let* selection_object := object_of value "$out/h3_selections" in
      let* _u := reject_unknown selection_object (fst <$> context_names) "$out/h3_selections" in
      load_candidates selection_object context_names
  end.

Definition load_replacement (value : Value) : Result ReplacementAuthorization :=
  let* replacement_object := object_of value "$out/replacement" in
  let* _u := reject_unknown replacement_object
    ["original_block_id"; "replacement_block_id"; "replacement_block_ordinal"; "block_role";
    "replacement_seed_subspace_id"; "failure_record_id"; "replacement_budget_record_id"] "$out/replacement" in
  let* original_block_id :=
    id_field replacement_object "original_block_id" "$out/replacement" in
  let* replacement_block_id :=
    id_field replacement_object "replacement_block_id" "$out/replacement" in
  let* replacement_block_ordinal :=
    uint_field replacement_object "replacement_block_ordinal" "$out/replacement" in
  let* block_role :=
    parsed_field parse_block_role replacement_object "block_role" "$out/replacement" in
  let* replacement_seed_subspace_id :=
    id_field replacement_object "replacement_seed_subspace_id" "$out/replacement" in
  let* failure_record_id :=
    id_field replacement_object "failure_record_id" "$out/replacement" in
  let* replacement_budget_record_id :=
    id_field replacement_object "replacement_budget_record_id" "$out/replacement" in
  success (mkReplacementAuthorization original_block_id replacement_block_id
  replacement_block_ordinal block_role replacement_seed_subspace_id failure_record_id
  replacement_budget_record_id).

Definition load_input (value : Value) (path : string) : Result AccessInputArtifact :=
  let* item := object_of value path in
  let* _u := reject_unknown item
    ["artifact_id"; "sha256"; "access_class"] path in
  let* artifact_id := id_field item "artifact_id" path in
  let* sha256 := sha_field item "sha256" path in
  let* access_class := enum_field item "access_class" path "ACC-ACCESS-CLASS" access_classes in
  success (mkAccessInputArtifact (mkArtifactReference artifact_id sha256) access_class).

Definition freeze_members : list string :=
  ["schema_version"; "protocol_version"; "record_id"; "record_kind"; "decision_id";
  "readiness_boundary"; "status"; "authorization_status"; "created_at_utc"; "authority";
  "decision_value"; "rationale"; "access_state_before"; "access_state_after";
  "affected_block_ids"; "h3_selections"; "training_input_artifacts"; "selection_rule_version";
  "selection_record_checksum_sha256"; "selection_record_ref"; "validation_namespace_id";
  "validation_artifact_ref"; "validation_unseal_record_ref"; "h3_evaluation_artifact_ref";
  "h3_access_record_ref"; "replacement"; "supersedes_id"; "prior_protocol_version";
  "new_protocol_version"; "affected_documents"; "affected_schema_ids"; "affected_estimands";
  "affected_contrast_ids"; "pilot_record_disposition"; "prior_authoritative_hashes";
  "outcome_access_prohibited"; "input_artifacts"; "record_sha256"].

Definition load_freeze (document : Value) : Result FreezeRecord :=
  let* object := object_of document "$out" in
  let* _u := reject_unknown object freeze_members "$out" in
  let* kind := enum_field object "record_kind" "$out" "ACC-RECORD-KIND" record_kinds in
  let* authority := load_authority object in
  let* affected_blocks :=
    optional_with object "affected_block_ids" (fun value =>
      let* array := array_of value "$out/affected_block_ids" in
      load_elements id_of "$out/affected_block_ids" 0 array) in
  let* selections := load_selections object in
  let* training_inputs :=
    optional_with object "training_input_artifacts" (fun value =>
      artifact_reference_array value "$out/training_input_artifacts" true) in
  let* selection_checksum :=
    optional_with object "selection_record_checksum_sha256" (fun _ =>
      sha_field object "selection_record_checksum_sha256" "$out") in
  let* replacement := optional_with object "replacement" load_replacement in
  let* prior_hashes :=
    optional_with object "prior_authoritative_hashes" (fun value =>
      artifact_reference_array value "$out/prior_authoritative_hashes" true) in
  let* input_value := required object "input_artifacts" "$out" in
  let* input_array := array_of input_value "$out/input_artifacts" in
  fail_if (bool_decide (input_array = []))
    (mkError ErrorCategory_out_of_range "$out/input_artifacts" "SCHEMA-MIN-ITEMS"
       "freeze record requires at least one input artifact") ;;
  let* inputs := load_elements load_input "$out/input_artifacts" 0 input_array in
  let* schema_version := version_field object "schema_version" "$out" in
  let* protocol_version := version_field object "protocol_version" "$out" in
  let* record_id := id_field object "record_id" "$out" in
  let* decision_id := string_field object "decision_id" "$out" in
  let* readiness_boundary :=
    enum_field object "readiness_boundary" "$out" "ACC-READINESS" boundaries in
  let* status := enum_field object "status" "$out" "ACC-STATUS" statuses in
  let* authorization_status :=
    enum_field object "authorization_status" "$out" "ACC-AUTHORIZATION" authorization_statuses in
  let* created_at_utc := string_field object "created_at_utc" "$out" in
  let* rationale := optional_string object "rationale" "$out" false in
  let* access_state_before :=
    parsed_field parse_access_state object "access_state_before" "$out" in
  let* access_state_after :=
    parsed_field parse_access_state object "access_state_after" "$out" in
  let* outcome_access_prohibited := bool_field object "outcome_access_prohibited" "$out" in
  let* selection_rule_version :=
    optional_string object "selection_rule_version" "$out" false in
  let* selection_record_ref :=
    optional_artifact_ref object "selection_record_ref" "$out" in
  let* validation_namespace_id :=
    optional_nullable_id object "validation_namespace_id" "$out" in
  let* validation_artifact_ref :=
    optional_artifact_ref object "validation_artifact_ref" "$out" in
  let* validation_unseal_record_ref :=
    optional_artifact_ref object "validation_unseal_record_ref" "$out" in
  let* h3_evaluation_artifact_ref :=
    optional_artifact_ref object "h3_evaluation_artifact_ref" "$out" in
  let* h3_access_record_ref :=
    optional_artifact_ref object "h3_access_record_ref" "$out" in
  let* supersedes_id := optional_nullable_id object "supersedes_id" "$out" in
  let* prior_protocol_version :=
    optional_string object "prior_protocol_version" "$out" true in
  let* new_protocol_version := optional_string object "new_protocol_version" "$out" true in
  let* affected_documents := optional_string_array object "affected_documents" true in
  let* affected_schema_ids := optional_string_array object "affected_schema_ids" true in
  let* affected_estimands := optional_string_array object "affected_estimands" true in
  let* affected_contrast_ids := optional_string_array object "affected_contrast_ids" false in
  let* pilot_record_disposition :=
    optional_string object "pilot_record_disposition" "$out" false in
  let* record_sha256 := sha_field object "record_sha256" "$out" in
  success (mkFreezeRecord schema_version protocol_version record_id kind decision_id
  readiness_boundary status authorization_status created_at_utc authority (optional object
  "decision_value") rationale access_state_before access_state_after outcome_access_prohibited
  (default [] affected_blocks) selections (default [] training_inputs) selection_rule_version
  selection_checksum selection_record_ref validation_namespace_id validation_artifact_ref
  validation_unseal_record_ref h3_evaluation_artifact_ref h3_access_record_ref replacement
  supersedes_id prior_protocol_version new_protocol_version affected_documents
  affected_schema_ids affected_estimands affected_contrast_ids pilot_record_disposition (default
  [] prior_hashes) inputs record_sha256 document).

(** ** Platform records *)

Definition load_cpu (object : Object) : Result PlatformCpu :=
  let* value := required object "cpu" "$out" in
  let* cpu := object_of value "$out/cpu" in
  let* _u := reject_unknown cpu
    ["vendor"; "model"; "stepping"; "microcode"; "cache_line_bytes"; "atomic_width_bits";
    "atomic_alignment_bytes"] "$out/cpu" in
  let* vendor := string_field cpu "vendor" "$out/cpu" in
  let* model := string_field cpu "model" "$out/cpu" in
  let* stepping := string_field cpu "stepping" "$out/cpu" in
  let* microcode := string_field cpu "microcode" "$out/cpu" in
  let* cache_line_bytes := uint_field cpu "cache_line_bytes" "$out/cpu" in
  let* atomic_width_bits := uint_field cpu "atomic_width_bits" "$out/cpu" in
  let* atomic_alignment_bytes := uint_field cpu "atomic_alignment_bytes" "$out/cpu" in
  success (mkPlatformCpu vendor model stepping microcode cache_line_bytes atomic_width_bits
  atomic_alignment_bytes).

Definition core_pair (topology : Object) (key : string) : Result (Z * Z) :=
  let path := child "$out/topology" key in
  let* value := required topology key "$out/topology" in
  let* values := array_of value path in
  match values with
  | [first; second] =>
      let* first := uint_of first (child path "0") in
      let* second := uint_of second (child path "1") in
      success (first, second)
  | _ =>
      load_fail ErrorCategory_out_of_range path "PLATFORM-CORE-PAIR"
        "core pair requires exactly two CPU identifiers"
  end.

Definition load_topology (object : Object) : Result PlatformTopology :=
  let* value := required object "topology" "$out" in
  let* topology := object_of value "$out/topology" in
  let* _u := reject_unknown topology
    ["sockets"; "numa_nodes"; "physical_cores"; "smt_enabled"; "cache_domains"; "near_core_pair";
    "far_core_pair"] "$out/topology" in
  let* sockets := uint_field topology "sockets" "$out/topology" in
  let* numa_nodes := uint_field topology "numa_nodes" "$out/topology" in
  let* physical_cores := uint_field topology "physical_cores" "$out/topology" in
  let* smt_enabled := bool_field topology "smt_enabled" "$out/topology" in
  let* cache_domains :=
    nested (fun value path => string_array value path true) topology "cache_domains"
      "$out/topology" in
  let* near_core_pair := core_pair topology "near_core_pair" in
  let* far_core_pair := core_pair topology "far_core_pair" in
  success (mkPlatformTopology sockets numa_nodes physical_cores smt_enabled cache_domains
  near_core_pair far_core_pair).

Definition load_memory (object : Object) : Result PlatformMemory :=
  let* value := required object "memory" "$out" in
  let* memory := object_of value "$out/memory" in
  let* _u := reject_unknown memory
    ["population"; "base_page_bytes"; "residency_verification_method"] "$out/memory" in
  let* population := string_field memory "population" "$out/memory" in
  let* base_page_bytes := uint_field memory "base_page_bytes" "$out/memory" in
  let* residency_verification_method := string_field memory "residency_verification_method" "$out/memory" in
  success (mkPlatformMemory population base_page_bytes residency_verification_method).

Definition load_software (object : Object) : Result PlatformSoftware :=
  let* value := required object "software" "$out" in
  let* software := object_of value "$out/software" in
  let* _u := reject_unknown software
    ["operating_system"; "kernel"; "compiler"; "standard_library"; "language_standard"; "flags";
    "link_mode"] "$out/software" in
  let* operating_system := string_field software "operating_system" "$out/software" in
  let* kernel := string_field software "kernel" "$out/software" in
  let* compiler := string_field software "compiler" "$out/software" in
  let* standard_library := string_field software "standard_library" "$out/software" in
  let* language_standard := string_field software "language_standard" "$out/software" in
  let* flags :=
    nested (fun value path => string_array value path false) software "flags" "$out/software" in
  let* link_mode := string_field software "link_mode" "$out/software" in
  success (mkPlatformSoftware operating_system kernel compiler standard_library language_standard
  flags link_mode).

Definition load_clock (object : Object) : Result PlatformClock :=
  let* value := required object "clock" "$out" in
  let* clock := object_of value "$out/clock" in
  let* _u := reject_unknown clock
    ["source"; "time_unit"; "conversion_record_id"; "serialization_record_id";
    "acceptance_record_id"] "$out/clock" in
  let* source := string_field clock "source" "$out/clock" in
  let* time_unit := unit_field clock "time_unit" "$out/clock" in
  let* conversion_record_id := id_field clock "conversion_record_id" "$out/clock" in
  let* serialization_record_id := id_field clock "serialization_record_id" "$out/clock" in
  let* acceptance_record_id := id_field clock "acceptance_record_id" "$out/clock" in
  success (mkPlatformClock source time_unit conversion_record_id serialization_record_id
  acceptance_record_id).

Definition load_hardware_state (value : Value) (path : string) : Result RequestedAndVerifiedHardwareState :=
  let* state := object_of value path in
  let* _u := reject_unknown state
    ["requested"; "verified"; "readback_artifact_id"; "behavioral_probe_artifact_id";
    "privileged_authority_id"] path in
  let* requested := parsed_field parse_requested_hardware_state state "requested" path in
  let* verified := parsed_field parse_verified_hardware_state state "verified" path in
  let* readback_artifact_id := id_field state "readback_artifact_id" path in
  let* behavioral_probe_artifact_id := id_field state "behavioral_probe_artifact_id" path in
  let* privileged_authority_id := id_field state "privileged_authority_id" path in
  success (mkRequestedAndVerifiedHardwareState requested verified readback_artifact_id
  behavioral_probe_artifact_id privileged_authority_id).

Definition platform_members : list string :=
  ["schema_version"; "protocol_version"; "platform_id"; "cpu"; "topology"; "memory"; "software";
  "clock"; "hardware_prefetch_states"; "record_sha256"].

Definition load_platform (document : Value) : Result PlatformRecord :=
  let* object := object_of document "$out" in
  let* _u := reject_unknown object platform_members "$out" in
  let* typed_cpu := load_cpu object in
  let* typed_topology := load_topology object in
  let* typed_memory := load_memory object in
  let* typed_software := load_software object in
  let* typed_clock := load_clock object in
  let* value := required object "hardware_prefetch_states" "$out" in
  let* hardware_states := array_of value "$out/hardware_prefetch_states" in
  fail_if ((length hardware_states <? 2)%nat)
    (mkError ErrorCategory_out_of_range "$out/hardware_prefetch_states" "HWP-STATE-COUNT"
       "platform record requires at least two requested hardware states") ;;
  let* typed_states :=
    load_elements load_hardware_state "$out/hardware_prefetch_states" 0 hardware_states in
  let* schema_version := version_field object "schema_version" "$out" in
  let* protocol_version := version_field object "protocol_version" "$out" in
  let* platform_id := id_field object "platform_id" "$out" in
  let* record_sha256 := sha_field object "record_sha256" "$out" in
  success (mkPlatformRecord schema_version protocol_version platform_id typed_cpu typed_topology
  typed_memory typed_software typed_clock typed_states record_sha256 document).

(** ** Documents *)

(** [load_document] of a parsed document. *)
Definition load_document (kind : DocumentKind) (document : Value) : Result ProtocolRecord :=
  match kind with
  | DocumentKind_platform => let* r := load_platform document in success (Record_platform r)
  | DocumentKind_schedule => let* r := load_schedule document in success (Record_schedule r)
  | DocumentKind_raw_observation => let* r := load_raw document in success (Record_raw r)
  | DocumentKind_run_manifest => let* r := load_manifest document in success (Record_manifest r)
  | DocumentKind_block_plan => let* r := load_block_plan document in success (Record_block r)
  | DocumentKind_failure_record => let* r := load_failure document in success (Record_failure r)
  | DocumentKind_freeze_record => let* r := load_freeze document in success (Record_freeze r)
  end.

(** [load_document] of a text. *)
Definition load_document_text (kind : DocumentKind) (json_text : string) : Result ProtocolRecord :=
  let* document := parse json_text in load_document kind document.

Definition nonempty {A : Type} (l : list A) : bool := match l with [] => false | _ => true end.

Lemma nonempty_false {A} (l : list A) : nonempty l = false <-> l = [].
Proof. by destruct l. Qed.

Definition amendment_view (record : FreezeRecord) : Result AmendmentRecord :=
  let missing :=
    load_fail ErrorCategory_missing_evidence "$out" "GOV-AMENDMENT-SHAPE"
      "amendment view requires every protocol amendment evidence field" in
  match fz_supersedes_id record, fz_prior_protocol_version record,
        fz_new_protocol_version record with
  | Some supersedes_id, Some prior, Some new =>
      if bool_decide (fz_record_kind record = RecordKind_amendment) &&
         nonempty (fz_affected_documents record) && nonempty (fz_affected_schema_ids record) &&
         nonempty (fz_affected_estimands record) && nonempty (fz_prior_authoritative_hashes record)
      then success (mkAmendmentRecord (fz_record_id record) supersedes_id prior new
             (fz_affected_documents record) (fz_affected_schema_ids record)
             (fz_affected_estimands record) (fz_affected_contrast_ids record)
             (fz_prior_authoritative_hashes record) (fz_record_sha256 record))
      else missing
  | _, _, _ => missing
  end.

Definition source_document (record : ProtocolRecord) : Value :=
  match record with
  | Record_platform r => pl_source_document r
  | Record_schedule r => sr_source_document r
  | Record_raw r => ro_source_document r
  | Record_manifest r => rm_source_document r
  | Record_block r => bp_source_document r
  | Record_failure r => fl_source_document r
  | Record_freeze r => fz_source_document r
  end.
