(* ===== verification/SemanticRecords.v ===== *)
(** * Record-local validation of manifests, plans and governance records

    Models the rest of [src/protocol/semantic.cpp]: [validate_manifest],
    [validate_block], [validate_failure], [validate_freeze], [validate_platform],
    the dispatch of [Stage4SemanticValidator] and [ScientificConfiguration::load],
    which validates what it loads. A [std::set] that is only counted and searched
    is a [gset] or the list of its insertions. *)

From stdpp Require Import prelude list strings gmap.
From Stdlib Require Import ZArith Lia SpecFloat.
From S2P Require Import Prelude Validation Model Json Documents Load Semantic Reconciliation.

#[local] Open Scope Z_scope.
#[local] Open Scope result_scope.

(** ** Manifests *)

Definition has_relationship (manifest : RunManifest) (relationship : ArtifactRelationship) : bool :=
  existsb (fun artifact => bool_decide (ta_relationship artifact = relationship))
    (rm_artifact_refs manifest).

Definition at_least_200000 (number : Number) : bool :=
  match num_kind number with
  | NumberKind_signed_integer | NumberKind_unsigned_integer => number_integer number >=? 200000
  | NumberKind_binary64 => SFleb double_200000 (number_double number)
  end.

Definition is_failure_lifecycle (state : LifecycleState) : bool :=
  match state with
  | LifecycleState_pre_run_failure | LifecycleState_warmup_failure | LifecycleState_reset_failure
  | LifecycleState_measurement_failure | LifecycleState_drain_failure => true
  | _ => false
  end.

Definition is_early_failure_state (state : LifecycleState) : bool :=
  match state with
  | LifecycleState_pre_run_failure | LifecycleState_warmup_failure
  | LifecycleState_reset_failure => true
  | _ => false
  end.

(** The enumerators are compared by their underlying values. *)
Definition blocker_rank (blocker : ConfirmatoryBlocker) : Z :=
  match blocker with
  | ConfirmatoryBlocker_blocked_access_leakage => 0
  | ConfirmatoryBlocker_blocked_effective_tail => 1
  | ConfirmatoryBlocker_blocked_incomplete_block => 2
  | ConfirmatoryBlocker_blocked_invalid_run => 3
  | ConfirmatoryBlocker_blocked_zero_loss => 4
  end.

(** [is_sorted]. *)
Fixpoint blockers_sorted (blockers : list ConfirmatoryBlocker) : bool :=
  match blockers with
  | a :: ((b :: _) as rest) => (blocker_rank a <=? blocker_rank b) && blockers_sorted rest
  | _ => true
  end.

(** [adjacent_find] finds nothing. *)
Fixpoint no_adjacent (blockers : list ConfirmatoryBlocker) : bool :=
  match blockers with
  | a :: ((b :: _) as rest) => negb (blocker_rank a =? blocker_rank b) && no_adjacent rest
  | _ => true
  end.

Definition blocker_in (blocker : ConfirmatoryBlocker) (blockers : list ConfirmatoryBlocker) : bool :=
  bool_decide (blocker ∈ blockers).

(** The part of [validate_manifest] for the second protocol snapshot. *)
Definition blocker_errors (manifest : RunManifest) : list ValidationError :=
  let blockers := rm_confirmatory_blockers manifest in
  let evidence_pending :=
    bool_decide (rm_validity manifest = RunValidity_not_evaluated) ||
    bool_decide (rm_zero_loss_status manifest = GateStatus_not_evaluated) ||
    bool_decide (rm_effective_tail_status manifest = GateStatus_not_evaluated) ||
    bool_decide (rm_block_completeness manifest = BlockCompleteness_not_evaluated) in
  let local_mismatch :=
    xorb (blocker_in ConfirmatoryBlocker_blocked_zero_loss blockers)
      (bool_decide (rm_zero_loss_status manifest = GateStatus_fail)) ||
    xorb (blocker_in ConfirmatoryBlocker_blocked_effective_tail blockers)
      (bool_decide (rm_effective_tail_status manifest = GateStatus_fail)) ||
    xorb (blocker_in ConfirmatoryBlocker_blocked_invalid_run blockers)
      (bool_decide (rm_validity manifest = RunValidity_invalid)) ||
    xorb (blocker_in ConfirmatoryBlocker_blocked_incomplete_block blockers)
      (bool_decide (rm_block_completeness manifest = BlockCompleteness_incomplete)) in
  let expected_summary :=
    if evidence_pending then ConfirmatoryEstimability_not_evaluated else summary_for blockers in
  error_when (negb (blockers_sorted blockers) || negb (no_adjacent blockers))
    (mkError ErrorCategory_duplicate_value "$out/confirmatory_blockers"
       "LIF-BLOCKER-CANONICAL-ORDER"
       "confirmatory blockers must be unique and in ascending UTF-8 token order") ++
  error_when (evidence_pending &&
              (negb (bool_decide (rm_confirmatory_estimability manifest =
                                  ConfirmatoryEstimability_not_evaluated)) ||
               nonempty blockers))
    (mkError ErrorCategory_cross_field "$out/confirmatory_estimability"
       "LIF-BLOCKER-EVIDENCE-COMPLETE"
       "final estimability and blocker values require authoritative evidence for every applicable gate") ++
  error_when (negb evidence_pending && local_mismatch)
    (mkError ErrorCategory_cross_field "$out/confirmatory_blockers"
       "LIF-BLOCKER-EXHAUSTIVE-LOCAL"
       "the blocker array must exactly reflect every locally represented failed gate") ++
  error_when (negb (bool_decide (rm_confirmatory_estimability manifest = expected_summary)))
    (mkError ErrorCategory_cross_field "$out/confirmatory_estimability" "LIF-BLOCKER-SUMMARY"
       "estimability summary does not match the exhaustive blocker array").

(** The factors a Stage A manifest may not have. *)
Definition outside_stage_a (manifest : RunManifest) : bool :=
  negb (bool_decide (rm_run_mode manifest = RunMode_latency)) ||
  bool_decide (rm_block_role manifest = BlockRole_not_applicable) ||
  bool_decide (rm_package manifest = QueuePackage_nblfq_mpsc) ||
  bool_decide (rm_package manifest = QueuePackage_not_applicable) ||
  bool_decide (rm_requested_hardware_state manifest = RequestedHardwareState_not_applicable) ||
  bool_decide (rm_placement manifest = Placement_not_applicable) ||
  bool_decide (rm_placement manifest = Placement_stage_c_other) ||
  bool_decide (rm_working_set_class manifest = WorkingSetClass_not_applicable) ||
  bool_decide (rm_load_level manifest = LoadLevel_not_applicable) ||
  bool_decide (rm_load_level manifest = LoadLevel_calibration_ready) ||
  bool_decide (rm_load_level manifest = LoadLevel_stage_c_other).

Definition measurement_relationships : list ArtifactRelationship :=
  [ArtifactRelationship_producer_raw; ArtifactRelationship_consumer_raw;
   ArtifactRelationship_join_audit; ArtifactRelationship_joined_derived;
   ArtifactRelationship_phase_integrity_report].

Definition required_relationships : list ArtifactRelationship :=
  measurement_relationships ++ [ArtifactRelationship_provenance].

(** The checks of every manifest. *)
Definition common_errors (manifest : RunManifest) : list ValidationError :=
  error_when (bool_decide (rm_stage manifest = Stage_stage_a) && outside_stage_a manifest)
    (mkError ErrorCategory_cross_field "$out" "LIF-STAGE-A-FACTORS"
       "Stage A manifest factors must use the exact registered Stage A levels") ++
  error_when (is_failure_lifecycle (rm_lifecycle_state manifest) &&
              (negb (bool_decide (rm_validity manifest = RunValidity_invalid)) ||
               negb (nonempty (rm_failure_record_ids manifest))))
    (mkError ErrorCategory_missing_evidence "$out/failure_record_ids" "LIF-FAILURE-EVIDENCE"
       "failure lifecycle requires INVALID and a failure record") ++
  error_when (bool_decide (rm_validity manifest = RunValidity_invalid) &&
              negb (nonempty (rm_failure_record_ids manifest)))
    (mkError ErrorCategory_missing_evidence "$out/failure_record_ids" "LIF-INVALID-EVIDENCE"
       "invalid run requires a failure record") ++
  error_when (is_early_failure_state (rm_lifecycle_state manifest) &&
              (is_some (rm_counts manifest) || is_some (rm_integrity_evidence manifest) ||
               existsb (has_relationship manifest) measurement_relationships))
    (mkError ErrorCategory_cross_field "$out/artifact_refs" "LIF-NO-FABRICATION"
       "early failure must not fabricate measurement, join, or integrity artifacts") ++
  error_when (bool_decide (rm_join_status manifest = JoinStatus_failed) &&
              (negb (bool_decide (rm_validity manifest = RunValidity_invalid)) ||
               negb (nonempty (rm_failure_record_ids manifest)) ||
               negb (has_relationship manifest ArtifactRelationship_join_audit) ||
               has_relationship manifest ArtifactRelationship_joined_derived))
    (mkError ErrorCategory_cross_field "$out/join_status" "DAT-FAILED-JOIN"
       "failed join requires invalidity, failure evidence, a join audit, and no joined data").

(** The checks of complete counts. *)
Definition count_errors (manifest : RunManifest)
    (offered attempted accepted full consumed final_occupancy raw_sample_count : Z)
    (n_eff_p999 : Number) : list ValidationError :=
  let expected_zero := gate (full =? 0) in
  let expected_tail := gate (at_least_200000 n_eff_p999) in
  let estimability := rm_confirmatory_estimability manifest in
  let incomplete := bool_decide (rm_block_completeness manifest = BlockCompleteness_incomplete) in
  let selected summary := bool_decide (estimability = summary) in
  let incorrectly_estimable :=
    selected ConfirmatoryEstimability_estimable &&
    (bool_decide (expected_zero = GateStatus_fail) ||
     bool_decide (expected_tail = GateStatus_fail) || incomplete) in
  let selected_reason_does_not_apply :=
    (selected ConfirmatoryEstimability_blocked_zero_loss &&
     negb (bool_decide (expected_zero = GateStatus_fail))) ||
    (selected ConfirmatoryEstimability_blocked_effective_tail &&
     negb (bool_decide (expected_tail = GateStatus_fail))) ||
    (selected ConfirmatoryEstimability_blocked_invalid_run &&
     negb (bool_decide (rm_validity manifest = RunValidity_invalid))) ||
    (selected ConfirmatoryEstimability_blocked_incomplete_block && negb incomplete) in
  error_when (negb (offered =? attempted) ||
              negb (match semantic_checked_add accepted full with
                    | Some sum => attempted =? sum
                    | None => false
                    end) ||
              negb (consumed =? accepted) || negb (final_occupancy =? 0) ||
              negb (raw_sample_count =? accepted))
    (mkError ErrorCategory_cross_field "$out/counts" "DAT-COUNT-IDENTITIES"
       "completed count identities or zero final occupancy do not reconcile") ++
  error_when (negb (bool_decide (rm_zero_loss_status manifest = expected_zero)))
    (mkError ErrorCategory_cross_field "$out/zero_loss_status" "LIF-ZERO-LOSS"
       "zero-loss status must be independent and derived from the FULL count") ++
  error_when (negb (bool_decide (rm_effective_tail_status manifest = expected_tail)))
    (mkError ErrorCategory_cross_field "$out/effective_tail_status" "LIF-EFFECTIVE-TAIL"
       "effective-tail status must use the fixed N_eff=200000 threshold") ++
  error_when (bool_decide (rm_protocol_version manifest = ProtocolVersion_v2_0_0_pre_1) &&
              (incorrectly_estimable || selected_reason_does_not_apply))
    (mkError ErrorCategory_cross_field "$out/confirmatory_estimability"
       "LIF-ESTIMABILITY-APPLICABILITY"
       "estimability must remain blocked when a local gate fails and any selected blocking reason must apply; Stage 4 does not invent precedence among simultaneous blockers").

(** The checks of a valid completed Stage A run. *)
Definition completed_errors (manifest : RunManifest) : list ValidationError :=
  error_when (negb (is_some (rm_counts manifest)) || negb (is_some (rm_integrity_evidence manifest)) ||
              negb (bool_decide (rm_join_status manifest = JoinStatus_passed)) ||
              negb (bool_decide (rm_count_reconciliation manifest = GateStatus_pass)))
    (mkError ErrorCategory_missing_evidence "$out" "LIF-COMPLETED-EVIDENCE"
       "valid completed Stage A run requires counts, integrity, passed join and reconciliation") ++
  mjoin ((fun relationship =>
    error_when (negb (has_relationship manifest relationship))
      (mkError ErrorCategory_missing_evidence "$out/artifact_refs" "LIF-COMPLETED-ARTIFACTS"
         "valid completed Stage A run is missing a required artifact relationship"))
    <$> required_relationships) ++
  match rm_counts manifest with
  | None => []
  | Some counts =>
      match rc_offered counts, rc_attempted counts, rc_accepted counts, rc_full counts,
            rc_consumed counts, rc_final_occupancy counts, rc_raw_sample_count counts,
            rc_n_eff_p999 counts with
      | Some offered, Some attempted, Some accepted, Some full, Some consumed,
        Some final_occupancy, Some raw_sample_count, Some n_eff_p999 =>
          count_errors manifest offered attempted accepted full consumed final_occupancy
            raw_sample_count n_eff_p999
      | _, _, _, _, _, _, _, _ =>
          [mkError ErrorCategory_missing_field "$out/counts" "LIF-COMPLETE-COUNTS"
             "valid completed Stage A run requires every registered count"]
      end
  end.

Definition validate_manifest (manifest : RunManifest) : list ValidationError :=
  (if bool_decide (rm_protocol_version manifest = ProtocolVersion_v2_0_0_pre_2)
   then blocker_errors manifest else []) ++
  common_errors manifest ++
  (if bool_decide (rm_stage manifest = Stage_stage_a) &&
      bool_decide (rm_lifecycle_state manifest = LifecycleState_completed) &&
      bool_decide (rm_validity manifest = RunValidity_valid)
   then completed_errors manifest else []).

(** ** Block plans *)

Definition CellKey : Set :=
  QueuePackage * RequestedHardwareState * Placement * WorkingSetClass * LoadLevel.

Definition cell_key (cell : StageACell) : CellKey :=
  (sc_package cell, sc_requested_hardware_state cell, sc_placement cell,
   sc_working_set_class cell, sc_load_level cell).

(** The elements of a [std::set] after the insertions of a list: its size. *)
Definition set_size {A : Type} `{EqDecision A} (l : list A) : Z :=
  Z.of_nat (length (remove_dups l)).

Definition linked (package : QueuePackage) : bool :=
  bool_decide (package = QueuePackage_l0) || bool_decide (package = QueuePackage_l1).

Fixpoint node_seed_errors (index : Z) (cells : list StageACell) : list ValidationError :=
  match cells with
  | [] => []
  | cell :: rest =>
      error_when (xorb (linked (sc_package cell)) (is_some (sc_node_seed_ref cell)))
        (mkError ErrorCategory_cross_field
           ("$out/cells/" +:+ std_to_string index +:+ "/node_seed_ref") "BLK-NODE-SEED"
           "node seed is required only for linked packages") ++
      node_seed_errors (index + 1) rest
  end.

(** The ordinals 0 to 179. *)
Definition ordinals_of_block : list Z := Z.of_nat <$> seq 0 180.

Definition validate_block (block : BlockPlan) : list ValidationError :=
  let '(first, second) := bp_whole_plot_order block in
  let ordinals := sc_cell_ordinal <$> bp_cells block in
  let neither state := negb (bool_decide (first = state)) && negb (bool_decide (second = state)) in
  let replacement := is_some (bp_replaces_block_id block) in
  error_when (bool_decide (first = second) || neither RequestedHardwareState_h0 ||
              neither RequestedHardwareState_h1)
    (mkError ErrorCategory_duplicate_value "$out/whole_plot_order" "BLK-WHOLE-PLOTS"
       "whole plots must contain H0 and H1 exactly once") ++
  error_when (negb (Z.of_nat (length (bp_cells block)) =? 180))
    (mkError ErrorCategory_out_of_range "$out/cells" "BLK-180-CELLS"
       "Stage A block requires exactly 180 cells") ++
  node_seed_errors 0 (bp_cells block) ++
  error_when (negb (set_size (cell_key <$> bp_cells block) =? 180))
    (mkError ErrorCategory_duplicate_value "$out/cells" "BLK-FACTORIAL-PRODUCT"
       "cells must contain every registered Stage A Cartesian-product tuple exactly once") ++
  error_when (negb ((set_size ordinals =? 180) &&
                    forallb (fun ordinal => bool_decide (ordinal ∈ ordinals)) ordinals_of_block))
    (mkError ErrorCategory_cross_field "$out/cells" "BLK-CELL-ORDINALS"
       "cell ordinals must be exactly 0 through 179") ++
  error_when (xorb replacement (is_some (bp_replacement_authorization_id block)) ||
              xorb replacement (is_some (bp_replacement_lineage block)))
    (mkError ErrorCategory_cross_field "$out/replaces_block_id" "BLK-REPLACEMENT-SHAPE"
       "replacement fields must be all absent or all present") ++
  match bp_replacement_lineage block, bp_replaces_block_id block with
  | Some lineage, Some replaces =>
      error_when (bool_decide (bp_block_id block = replaces) ||
                  (bp_block_ordinal block =? rl_replaced_block_ordinal lineage) ||
                  bool_decide (bp_seed_subspace_id block = rl_replaced_seed_subspace_id lineage) ||
                  negb (bool_decide (bp_block_role block = rl_replaced_block_role lineage)))
        (mkError ErrorCategory_cross_field "$out/replacement_lineage" "BLK-REPLACEMENT-LINEAGE"
           "replacement requires new ID/ordinal/subspace and the same immutable role")
  | _, _ => []
  end.

(** ** Failures, freezes, platforms *)

Definition validate_failure (failure : FailureRecord) : list ValidationError :=
  error_when (bool_decide (fl_scope failure = FailureScope_run) &&
              (negb (is_some (fl_run_id failure)) || negb (is_some (fl_block_id failure))))
    (mkError ErrorCategory_missing_field "$out/run_id" "FAIL-RUN-IDENTITY"
       "run-scoped failure requires run_id and block_id") ++
  error_when (fl_invalidates_run failure && bool_decide (fl_stage failure = Stage_stage_a) &&
              negb (bool_decide (fl_block_consequence failure =
                                 BlockConsequence_original_block_incomplete)) &&
              negb (bool_decide (fl_block_consequence failure = BlockConsequence_study_unresolved)))
    (mkError ErrorCategory_cross_field "$out/block_consequence" "FAIL-STAGE-A-CONSEQUENCE"
       "invalid Stage A run makes its original block incomplete or study unresolved") ++
  error_when (bool_decide (fl_resolution_status failure = ResolutionStatus_replacement_authorized) &&
              (negb (is_some (fl_replacement_authorization_id failure)) ||
               negb (is_some (fl_replacement_block_id failure))))
    (mkError ErrorCategory_missing_evidence "$out/replacement_authorization_id"
       "FAIL-REPLACEMENT-EVIDENCE"
       "authorized replacement requires authorization and replacement block IDs").

(** The state transition and the authority a record kind requires. *)
Definition custody (record : FreezeRecord) (role : AuthorityRole) (before after : AccessState) : bool :=
  bool_decide (au_role (fz_authority record) = role) &&
  bool_decide (fz_access_state_before record = before) &&
  bool_decide (fz_access_state_after record = after).

Definition require_blocks (record : FreezeRecord) : list ValidationError :=
  error_when (negb (nonempty (fz_affected_block_ids record)))
    (mkError ErrorCategory_missing_evidence "$out/affected_block_ids" "ACC-AFFECTED-BLOCKS"
       "this record kind requires a nonempty affected block list").

Definition validate_freeze (record : FreezeRecord) : list ValidationError :=
  match fz_record_kind record with
  | RecordKind_selection_freeze =>
      require_blocks record ++
      error_when (negb (bool_decide (fz_status record = FreezeStatus_frozen)) ||
                  negb (bool_decide (fz_authorization_status record = AuthorizationStatus_authorized)) ||
                  negb (custody record AuthorityRole_freeze_authority AccessState_training_open
                          AccessState_selection_frozen) ||
                  negb (fz_outcome_access_prohibited record) ||
                  negb (length (fz_h3_selections record) =? 6)%nat ||
                  negb (nonempty (fz_training_input_artifacts record)) ||
                  negb (is_some (fz_selection_rule_version record)) ||
                  negb (is_some (fz_selection_record_checksum_sha256 record)))
        (mkError ErrorCategory_missing_evidence "$out" "ACC-SELECTION-FREEZE"
           "selection freeze lacks exact contexts, evidence, authority, or state transition")
  | RecordKind_validation_unseal =>
      require_blocks record ++
      error_when (negb (bool_decide (fz_status record = FreezeStatus_authorized)) ||
                  negb (bool_decide (fz_authorization_status record = AuthorizationStatus_authorized)) ||
                  negb (custody record AuthorityRole_validation_custodian
                          AccessState_selection_frozen AccessState_validation_unsealed) ||
                  fz_outcome_access_prohibited record ||
                  negb (is_some (fz_selection_record_ref record)) ||
                  negb (is_some (fz_validation_namespace_id record)) ||
                  negb (is_some (fz_validation_artifact_ref record)))
        (mkError ErrorCategory_missing_evidence "$out" "ACC-VALIDATION-UNSEAL"
           "validation unseal requires selection and validation IDs/hashes and exact custody transition")
  | RecordKind_h3_evaluated =>
      require_blocks record ++
      error_when (negb (custody record AuthorityRole_confirmatory_analyst
                          AccessState_validation_unsealed AccessState_h3_evaluated) ||
                  negb (is_some (fz_selection_record_ref record)) ||
                  negb (is_some (fz_validation_namespace_id record)) ||
                  negb (is_some (fz_validation_artifact_ref record)) ||
                  negb (is_some (fz_validation_unseal_record_ref record)) ||
                  negb (is_some (fz_h3_evaluation_artifact_ref record)))
        (mkError ErrorCategory_missing_evidence "$out" "ACC-H3-EVALUATED"
           "H3 evaluation lacks a required predecessor or evaluation artifact hash")
  | RecordKind_h1h2_released =>
      require_blocks record ++
      error_when (negb (custody record AuthorityRole_validation_custodian
                          AccessState_h3_evaluated AccessState_h1h2_released) ||
                  negb (is_some (fz_h3_access_record_ref record)) ||
                  negb (is_some (fz_h3_evaluation_artifact_ref record)))
        (mkError ErrorCategory_missing_evidence "$out" "ACC-H1H2-RELEASE"
           "H1/H2 release lacks sealed H3 access/evaluation evidence")
  | RecordKind_replacement_authorization =>
      require_blocks record ++
      error_when (negb (length (fz_affected_block_ids record) =? 1)%nat ||
                  negb (is_some (fz_replacement record)) ||
                  negb (custody record AuthorityRole_replacement_authority AccessState_planned
                          AccessState_planned) ||
                  negb (fz_outcome_access_prohibited record))
        (mkError ErrorCategory_missing_evidence "$out" "BLK-REPLACEMENT-AUTHORITY"
           "replacement authorization requires one block, budget/failure lineage, and authority")
  | RecordKind_amendment =>
      error_when (negb (bool_decide (au_role (fz_authority record) = AuthorityRole_protocol_owner)) ||
                  negb (is_some (fz_supersedes_id record)) ||
                  negb (is_some (fz_prior_protocol_version record)) ||
                  negb (is_some (fz_new_protocol_version record)) ||
                  negb (is_some (fz_rationale record)) ||
                  negb (nonempty (fz_affected_documents record)) ||
                  negb (nonempty (fz_affected_schema_ids record)) ||
                  negb (nonempty (fz_affected_estimands record)) ||
                  negb (is_some (fz_pilot_record_disposition record)) ||
                  negb (nonempty (fz_prior_authoritative_hashes record)) ||
                  negb (fz_outcome_access_prohibited record))
        (mkError ErrorCategory_missing_evidence "$out" "GOV-AMENDMENT-SHAPE"
           "amendment lacks owner, lineage, impact, disposition, or prior hash evidence")
  | RecordKind_protocol_freeze => []
  end.

Definition requested_states (platform : PlatformRecord) : list RequestedHardwareState :=
  rv_requested <$> pl_hardware_prefetch_states platform.

Definition validate_platform (platform : PlatformRecord) : list ValidationError :=
  let cpu := pl_cpu platform in
  let topology := pl_topology platform in
  error_when ((cpu_cache_line_bytes cpu =? 0) || (cpu_atomic_width_bits cpu =? 0) ||
              (cpu_atomic_alignment_bytes cpu =? 0) || (top_sockets topology =? 0) ||
              (top_numa_nodes topology =? 0) || (top_physical_cores topology <? 2) ||
              (mem_base_page_bytes (pl_memory platform) =? 0))
    (mkError ErrorCategory_out_of_range "$out" "PLATFORM-POSITIVE-QUANTITIES"
       "platform quantities violate imported schema minima") ++
  mjoin ((fun state =>
    error_when (bool_decide (rv_requested state = RequestedHardwareState_not_applicable) ||
                bool_decide (rv_verified state = VerifiedHardwareState_not_applicable))
      (mkError ErrorCategory_unknown_enum "$out/hardware_prefetch_states" "HWP-PLATFORM-STATES"
         "platform hardware state records require H0/H1 and verification"))
    <$> pl_hardware_prefetch_states platform) ++
  error_when (negb (bool_decide (RequestedHardwareState_h0 ∈ requested_states platform)) ||
              negb (bool_decide (RequestedHardwareState_h1 ∈ requested_states platform)))
    (mkError ErrorCategory_cross_field "$out/hardware_prefetch_states" "HWP-PLATFORM-STATES"
       "platform record must explicitly include requested H0 and H1").

(** ** The validator *)

(** [Stage4SemanticValidator::validate]. *)
Definition validate (record : ProtocolRecord) : list ValidationError :=
  match record with
  | Record_platform r => validate_platform r
  | Record_schedule r => validate_schedule r
  | Record_raw r => validate_raw r
  | Record_manifest r => validate_manifest r
  | Record_block r => validate_block r
  | Record_failure r => validate_failure r
  | Record_freeze r => validate_freeze r
  end.

(** [ScientificConfiguration::load]. *)
Definition ScientificConfiguration_load (kind : DocumentKind) (text : string) :
    Result ProtocolRecord :=
  let* record := load_document_text kind text in
  match validate record with
  | [] => success record
  | errors => failure errors
  end.
