(* ===== verification/Configuration.v ===== *)
(** * What a loaded configuration guarantees

    From text to facts: a document that [ScientificConfiguration::load] accepts
    is a well-formed JSON text without unknown members, its 64-bit fields are in
    range, and the rules of its kind hold of the record. *)

From stdpp Require Import prelude list strings.
From Stdlib Require Import ZArith Lia SpecFloat.
From S2P Require Import Prelude Validation Model Json JsonParsing Documents Load Timing.
From S2P Require Import LifecycleRuntime Semantic Reconciliation SemanticRecords.

#[local] Open Scope Z_scope.
#[local] Open Scope result_scope.

(** ** Inverting a loader *)

Lemma rbind_success {A B} (r : Result A) (k : A -> Result B) b :
  rbind r k = success b -> exists a, r = success a /\ k a = success b.
Proof. destruct r; simpl; [eauto | done]. Qed.

(** Split a successful loader into the successes of its steps. *)
Ltac load_inv :=
  repeat match goal with
    | H : rbind _ _ = success _ |- _ =>
        let a := fresh "x" in let E := fresh "E" in
        apply rbind_success in H as (a & E & H)
    | H : (if ?b then failure _ else _) = success _ |- _ =>
        let C := fresh "C" in destruct b eqn:C; [discriminate H|]
    | H : (if ?b then load_fail _ _ _ _ else _) = success _ |- _ =>
        let C := fresh "C" in destruct b eqn:C; [discriminate H|]
    | H : success _ = success _ |- _ => injection H as H
    end.

(** ** Ranges *)

Definition well_formed_object (object : Object) : Prop := well_formed (Value_object object) = true.

Lemma map_find_In {V} key (members : list (string * V)) v :
  map_find key members = Some v -> In (key, v) members.
Proof.
  induction members as [|[k w] rest IH]; simpl; [done|].
  destruct (String.eqb_spec key k) as [->|]; [intros [= ->]; by left | right; auto].
Qed.

Lemma well_formed_member object key v :
  well_formed_object object -> map_find key object = Some v -> well_formed v = true.
Proof.
  unfold well_formed_object. simpl. rewrite andb_true_iff, forallb_forall. intros [_ F] Hf.
  apply map_find_In, F in Hf. by apply andb_true_iff in Hf as [_ Hf].
Qed.

Lemma required_well_formed object key path v :
  well_formed_object object -> required object key path = success v -> well_formed v = true.
Proof.
  unfold required. intros W. destruct (map_find key object) eqn:F; [|done].
  intros [= <-]. by eapply well_formed_member.
Qed.

Lemma object_of_well_formed v path object :
  well_formed v = true -> object_of v path = success object -> well_formed_object object.
Proof. unfold object_of. destruct v; simpl; try done. by intros W [= <-]. Qed.

Lemma array_of_well_formed v path array :
  well_formed v = true -> array_of v path = success array ->
  Forall (fun v => well_formed v = true) array.
Proof.
  unfold array_of. destruct v; simpl; try done. rewrite forallb_forall, <- List.Forall_forall.
  by intros W [= <-].
Qed.

Lemma uint_of_u64 v path z : well_formed v = true -> uint_of v path = success z -> is_u64 z.
Proof.
  unfold uint_of. destruct v as [| |n| | |]; simpl; try done.
  unfold number_well_formed, number_integer.
  destruct (num_kind n), (num_value n); try done; intros W; split_hyps.
  - destruct (Z.ltb_spec value 0); [done|]. intros [= <-]. int_lia.
  - intros [= <-]. int_lia.
Qed.

Lemma uint_field_u64 object key path z :
  well_formed_object object -> uint_field object key path = success z -> is_u64 z.
Proof.
  unfold uint_field. intros W H. load_inv. eapply uint_of_u64; [|exact H].
  by eapply required_well_formed.
Qed.

Lemma load_elements_Forall {A} (load : Value -> string -> Result A) (P : A -> Prop) path array :
  forall index l,
  (forall v p a, well_formed v = true -> load v p = success a -> P a) ->
  Forall (fun v => well_formed v = true) array ->
  load_elements load path index array = success l -> Forall P l /\ length l = length array.
Proof.
  induction array as [|v array IH]; intros index l HP W H; simpl in H.
  - load_inv. subst. by split.
  - apply Forall_cons in W as [Wv W]. load_inv. subst.
    destruct (IH _ _ HP W E0) as [F L]. split; [|simpl; by rewrite L].
    constructor; [by eapply HP | done].
Qed.

(** ** Records whose fields are in range *)

Lemma joined_row_u64 v path row :
  well_formed v = true -> joined_row v path = success row -> joined_timestamps_u64 row.
Proof.
  intros W H. unfold joined_row in H. load_inv. subst row.
  assert (WO : well_formed_object x) by by eapply object_of_well_formed.
  unfold joined_timestamps_u64. simpl.
  repeat constructor; eapply uint_field_u64; eassumption.
Qed.

Lemma load_deadline_storage_u64 object storage :
  well_formed_object object -> load_deadline_storage object = success storage ->
  match storage with InlineDeadlineStorage encoded => Forall is_u64 encoded | _ => True end.
Proof.
  intros W H. unfold load_deadline_storage in H. load_inv.
  assert (WS : well_formed_object x0)
    by (eapply object_of_well_formed; [eapply required_well_formed|]; eassumption).
  destruct (String.eqb x1 _); [load_inv; by subst|]. destruct (String.eqb x1 _); [|done].
  load_inv. subst storage.
  eapply load_elements_Forall; [exact uint_of_u64| |eassumption].
  eapply array_of_well_formed; [eapply required_well_formed|]; eassumption.
Qed.

Lemma load_schedule_u64 document schedule :
  well_formed document = true -> load_schedule document = success schedule ->
  schedule_record_u64 schedule.
Proof.
  intros W H. unfold load_schedule in H. load_inv. subst schedule.
  assert (WO : well_formed_object x) by by eapply object_of_well_formed.
  unfold schedule_record_u64. simpl.
  split_and!; [eapply uint_field_u64; eassumption.. | by eapply load_deadline_storage_u64].
Qed.

Lemma load_observation_storage_joined kind object rows :
  well_formed_object object ->
  load_observation_storage kind object = success (InlineStorage (Rows_joined rows)) ->
  Forall joined_timestamps_u64 rows.
Proof.
  intros W H. unfold load_observation_storage in H. load_inv.
  assert (WS : well_formed_object x0)
    by (eapply object_of_well_formed; [eapply required_well_formed|]; eassumption).
  destruct (String.eqb x1 _); [load_inv; discriminate|]. destruct (String.eqb x1 _); [|done].
  load_inv. assert (WA : Forall (fun v => well_formed v = true) x4).
  { eapply array_of_well_formed; [eapply required_well_formed|]; eassumption. }
  destruct kind; load_inv; try discriminate.
  subst rows.
  by eapply load_elements_Forall; [exact joined_row_u64| |eassumption].
Qed.

(** ** Facts about the records *)

(** The window a schedule's deadlines are in. *)
Definition schedule_sound (s : ScheduleRecord) : Prop :=
  sr_horizon_ticks s <> 0 /\ er_denominator_ticks (sr_nominal_offered_rate s) <> 0 /\
  (sr_schedule_kind s = ScheduleKind_confirmatory ->
   sr_arrival_family s = ArrivalFamily_poisson_exponential) /\
  match sr_deadline_storage s with
  | ExternalScheduleStorage _ _ row_count _ _ => row_count = sr_offered_count s
  | InlineDeadlineStorage encoded =>
      Z.of_nat (length encoded) = sr_offered_count s /\
      sr_origin_ticks s + sr_horizon_ticks s <= u64_max /\
      validate_prepared_schedule
        (mkPreparedScheduleView
           (decoded_deadlines (sr_deadline_encoding s) (sr_origin_ticks s) encoded)
           (sr_origin_ticks s) (sr_origin_ticks s + sr_horizon_ticks s)) = []
  end.

Definition rows_sound {Row : Type} (ok : Row -> Prop) (envelope : RawObservationEnvelope)
    (rows : list Row) : Prop :=
  Z.of_nat (length rows) = ro_row_count envelope /\ Forall ok rows.

Definition raw_sound (envelope : RawObservationEnvelope) : Prop :=
  match ro_storage envelope with
  | ExternalStorage _ => True
  | InlineStorage (Rows_producer rows) =>
      rows_sound (producer_row_ok (ro_run_id envelope)) envelope rows
  | InlineStorage (Rows_consumer rows) =>
      rows_sound (consumer_row_ok (ro_run_id envelope)) envelope rows
  | InlineStorage (Rows_joined rows) =>
      rows_sound (joined_row_ok (ro_run_id envelope)) envelope rows
  end.

(** 180 distinct cells whose ordinals are 0 to 179 in some order; a node seed
    exactly for linked packages; one plot per hardware state; replacement data
    all or nothing. *)
Definition block_sound (block : BlockPlan) : Prop :=
  bp_whole_plot_order block ∈
    [(RequestedHardwareState_h0, RequestedHardwareState_h1);
     (RequestedHardwareState_h1, RequestedHardwareState_h0)] /\
  (sc_cell_ordinal <$> bp_cells block) ≡ₚ ordinals_of_block /\
  NoDup (cell_key <$> bp_cells block) /\
  Forall (fun cell => linked (sc_package cell) = is_some (sc_node_seed_ref cell)) (bp_cells block) /\
  (is_some (bp_replaces_block_id block) = is_some (bp_replacement_authorization_id block) /\
   is_some (bp_replaces_block_id block) = is_some (bp_replacement_lineage block)) /\
  match bp_replacement_lineage block, bp_replaces_block_id block with
  | Some lineage, Some replaces =>
      bp_block_id block <> replaces /\ bp_block_ordinal block <> rl_replaced_block_ordinal lineage /\
      bp_seed_subspace_id block <> rl_replaced_seed_subspace_id lineage /\
      bp_block_role block = rl_replaced_block_role lineage
  | _, _ => True
  end.

(** The counts of a completed run add up and decide its gates. *)
Definition counts_sound (manifest : RunManifest) : Prop :=
  exists counts offered accepted full number,
    rm_counts manifest = Some counts /\
    counts = mkRunCounts (Some offered) (Some offered) (Some accepted) (Some full) (Some accepted)
               (Some 0) (Some accepted) (Some number) /\
    offered = accepted + full /\
    rm_zero_loss_status manifest = gate (full =? 0) /\
    rm_effective_tail_status manifest = gate (at_least_200000 number).

Definition manifest_sound (manifest : RunManifest) : Prop :=
  (rm_validity manifest = RunValidity_invalid -> rm_failure_record_ids manifest <> []) /\
  (is_early_failure_state (rm_lifecycle_state manifest) = true ->
   rm_counts manifest = None /\ rm_integrity_evidence manifest = None /\
   forall r, r ∈ measurement_relationships -> has_relationship manifest r = false) /\
  (rm_stage manifest = Stage_stage_a -> rm_lifecycle_state manifest = LifecycleState_completed ->
   rm_validity manifest = RunValidity_valid ->
   rm_join_status manifest = JoinStatus_passed /\
   (forall r, r ∈ required_relationships -> has_relationship manifest r = true) /\
   counts_sound manifest).

(** ** The validators establish them *)

Lemma remove_dups_length {A} `{EqDecision A} (l : list A) : (length (remove_dups l) <= length l)%nat.
Proof. induction l as [|x l IH]; simpl; [done|]. case_decide; simpl; lia. Qed.

Lemma set_size_NoDup {A} `{EqDecision A} (l : list A) :
  set_size l = Z.of_nat (length l) <-> NoDup l.
Proof.
  unfold set_size. rewrite Nat2Z.inj_iff. induction l as [|x l IH]; simpl; [by split; [constructor|]|].
  pose proof (remove_dups_length l). rewrite NoDup_cons, <- IH. case_decide; simpl; split; naive_solver lia.
Qed.

Lemma schedule_valid s : schedule_record_u64 s -> validate_schedule s = [] -> schedule_sound s.
Proof.
  intros U V. unfold schedule_sound.
  destruct (sr_deadline_storage s) as [encoded|] eqn:D.
  - pose proof (schedule_record_exact s encoded U D). tauto.
  - unfold validate_schedule in V. rewrite D, !app_nil, !error_when_nil in V.
    destruct V as (Vh & Vd & Vk & Vr). apply Z.eqb_neq in Vh, Vd.
    apply negb_false_iff, Z.eqb_eq in Vr. split_and!; try done. intros K.
    rewrite bool_decide_eq_true_2 in Vk by done. by apply negb_false_iff, bool_decide_eq_true in Vk.
Qed.

Lemma raw_valid envelope :
  (forall rows, ro_storage envelope = InlineStorage (Rows_joined rows) ->
     Forall joined_timestamps_u64 rows) ->
  validate_raw envelope = [] -> raw_sound envelope.
Proof.
  intros U V. unfold raw_sound, validate_raw, rows_sound, row_count_errors in *.
  destruct (ro_storage envelope) as [|[rows|rows|rows]]; [done| | |];
    apply app_eq_nil in V as [L V]; apply error_when_nil, negb_false_iff, Z.eqb_eq in L;
    (split; [done|]).
  - eapply validate_rows_nil; [|exact V]. intros. apply validate_producer_nil.
  - eapply validate_rows_nil; [|exact V]. intros. apply validate_consumer_nil.
  - eapply validate_rows_nil; [|exact V]. intros row path Hrow. apply validate_joined_nil. specialize (U rows eq_refl). rewrite Forall_forall in U. by apply U.
Qed.

Lemma node_seed_errors_nil cells : forall index,
  node_seed_errors index cells = [] <->
  Forall (fun cell => linked (sc_package cell) = is_some (sc_node_seed_ref cell)) cells.
Proof.
  induction cells as [|cell cells IH]; intros index; simpl; [done|].
  rewrite app_nil, error_when_nil, Forall_cons, IH.
  destruct (linked _), (is_some _); simpl; naive_solver.
Qed.

Lemma ordinals_cover ordinals :
  length ordinals = 180%nat ->
  forallb (fun ordinal => bool_decide (ordinal ∈ ordinals)) ordinals_of_block = true ->
  ordinals ≡ₚ ordinals_of_block.
Proof.
  intros L F. symmetry. apply submseteq_length_Permutation.
  - apply NoDup_submseteq; [apply NoDup_fmap; [apply _ | apply NoDup_seq]|].
    intros x Hx. rewrite forallb_forall in F. specialize (F x). rewrite bool_decide_eq_true in F.
    by apply F, list_elem_of_In.
  - rewrite L. unfold ordinals_of_block. rewrite length_fmap, length_seq. done.
Qed.

Lemma block_valid block : validate_block block = [] -> block_sound block.
Proof.
  unfold validate_block, block_sound. destruct (bp_whole_plot_order block) as [first second].
  cbv zeta. rewrite !app_nil, !error_when_nil.
  intros (Vp & Vn & Vs & Vk & Vo & Vr & Vl).
  apply negb_false_iff, Z.eqb_eq in Vn. assert (L : length (bp_cells block) = 180%nat) by lia.
  apply negb_false_iff, Z.eqb_eq in Vk. apply negb_false_iff, andb_true_iff in Vo as [_ Vo].
  split_and!.
  - destruct first, second; vm_compute in Vp; try discriminate;
      apply (bool_decide_unpack _); vm_compute; done.
  - apply ordinals_cover; [by rewrite length_fmap | done].
  - apply set_size_NoDup. by rewrite Vk, length_fmap, L.
  - by eapply node_seed_errors_nil.
  - by destruct (is_some _), (is_some _), (is_some _).
  - by destruct (is_some _), (is_some _), (is_some _).
  - destruct (bp_replacement_lineage block), (bp_replaces_block_id block); try done.
    apply error_when_nil in Vl. repeat rewrite orb_false_iff in Vl.
    destruct Vl as (((A & B) & C) & D). apply bool_decide_eq_false in A, C. apply Z.eqb_neq in B.
    apply negb_false_iff, bool_decide_eq_true in D. done.
Qed.

(** The counts a manifest may carry are 64-bit values. *)
Definition counts_u64 (counts : RunCounts) : Prop :=
  (forall z, rc_accepted counts = Some z -> is_u64 z) /\
  (forall z, rc_full counts = Some z -> is_u64 z).

Lemma has_relationship_dec manifest l :
  (forall r, r ∈ l -> has_relationship manifest r = false) <->
  existsb (has_relationship manifest) l = false.
Proof.
  induction l as [|r l IH]; simpl; [set_solver|]. rewrite orb_false_iff, <- IH. set_solver.
Qed.

Lemma common_valid manifest :
  common_errors manifest = [] ->
  (rm_validity manifest = RunValidity_invalid -> rm_failure_record_ids manifest <> []) /\
  (is_early_failure_state (rm_lifecycle_state manifest) = true ->
   rm_counts manifest = None /\ rm_integrity_evidence manifest = None /\
   forall r, r ∈ measurement_relationships -> has_relationship manifest r = false).
Proof.
  unfold common_errors. rewrite !app_nil, !error_when_nil. intros (_ & _ & Vi & Ve & _). split.
  - intros K. rewrite bool_decide_eq_true_2 in Vi by done. revert Vi. by destruct (rm_failure_record_ids manifest).
  - intros K. rewrite K, andb_true_l, !orb_false_iff in Ve.
    destruct Ve as ((Vc & Vd) & Vr). split_and!.
    + revert Vc. by destruct (rm_counts manifest).
    + revert Vd. by destruct (rm_integrity_evidence manifest).
    + by apply has_relationship_dec.
Qed.

Lemma count_errors_nil manifest offered attempted accepted full consumed occupancy samples number :
  is_u64 accepted -> is_u64 full ->
  count_errors manifest offered attempted accepted full consumed occupancy samples number = [] ->
  offered = accepted + full /\ attempted = offered /\ consumed = accepted /\ occupancy = 0 /\
  samples = accepted /\ rm_zero_loss_status manifest = gate (full =? 0) /\
  rm_effective_tail_status manifest = gate (at_least_200000 number).
Proof.
  intros Ua Uf. unfold count_errors. cbv zeta. rewrite !app_nil, !error_when_nil.
  rewrite semantic_checked_add_spec by done. rewrite !orb_false_iff, !negb_false_iff, !Z.eqb_eq.
  rewrite !bool_decide_eq_true. intros (((((A & B) & C) & D) & E) & F & G & _).
  destruct (Z.leb_spec (accepted + full) u64_max); [|done]. apply Z.eqb_eq in B. split_and!; auto; lia.
Qed.

Lemma completed_valid manifest :
  (forall counts, rm_counts manifest = Some counts -> counts_u64 counts) ->
  completed_errors manifest = [] ->
  rm_join_status manifest = JoinStatus_passed /\
  (forall r, r ∈ required_relationships -> has_relationship manifest r = true) /\
  counts_sound manifest.
Proof.
  intros U. unfold completed_errors. rewrite !app_nil, error_when_nil. intros (Ve & Vr & Vc).
  rewrite !orb_false_iff, !negb_false_iff, !bool_decide_eq_true in Ve.
  destruct Ve as (((Hc & _) & Hj) & _). split; [done|]. split.
  - intros r Hr. apply join_nil in Vr. rewrite Forall_fmap, Forall_forall in Vr.
    specialize (Vr r Hr). by apply error_when_nil, negb_false_iff in Vr.
  - destruct (rm_counts manifest) as [counts|] eqn:C; [|done].
    destruct (U counts eq_refl) as [Ua Uf].
    destruct counts as [o a c f n z s e]. simpl in *.
    destruct o, a, c, f, n, z, s, e; try discriminate.
    apply count_errors_nil in Vc; [|by apply Ua|by apply Uf]. destruct_and! Vc. subst.
    unfold counts_sound. rewrite C. eexists _, _, _, _, _. split_and!; done.
Qed.

Lemma manifest_valid manifest :
  (forall counts, rm_counts manifest = Some counts -> counts_u64 counts) ->
  validate_manifest manifest = [] -> manifest_sound manifest.
Proof.
  intros U. unfold validate_manifest. rewrite !app_nil. intros (_ & Vc & Vd).
  destruct (common_valid _ Vc) as [Hi He]. split_and!; try done.
  intros S L V. rewrite !bool_decide_eq_true_2 in Vd by done. by apply completed_valid.
Qed.

(** The authority and the access states of the record kinds that move custody. *)
Definition access_transition (kind : RecordKind) : option (AuthorityRole * AccessState * AccessState) :=
  match kind with
  | RecordKind_selection_freeze =>
      Some (AuthorityRole_freeze_authority, AccessState_training_open, AccessState_selection_frozen)
  | RecordKind_validation_unseal =>
      Some (AuthorityRole_validation_custodian, AccessState_selection_frozen,
            AccessState_validation_unsealed)
  | RecordKind_h3_evaluated =>
      Some (AuthorityRole_confirmatory_analyst, AccessState_validation_unsealed,
            AccessState_h3_evaluated)
  | RecordKind_h1h2_released =>
      Some (AuthorityRole_validation_custodian, AccessState_h3_evaluated, AccessState_h1h2_released)
  | RecordKind_replacement_authorization =>
      Some (AuthorityRole_replacement_authority, AccessState_planned, AccessState_planned)
  | RecordKind_amendment | RecordKind_protocol_freeze => None
  end.

Definition freeze_sound (record : FreezeRecord) : Prop :=
  match access_transition (fz_record_kind record) with
  | Some (role, before, after) =>
      au_role (fz_authority record) = role /\ fz_access_state_before record = before /\
      fz_access_state_after record = after /\ fz_affected_block_ids record <> []
  | None => True
  end.

Lemma custody_sound record role before after :
  nonempty (fz_affected_block_ids record) = true -> custody record role before after = true ->
  au_role (fz_authority record) = role /\ fz_access_state_before record = before /\
  fz_access_state_after record = after /\ fz_affected_block_ids record <> [].
Proof.
  unfold custody. rewrite !andb_true_iff, !bool_decide_eq_true. intros N ((A & B) & C).
  split_and!; try done. intros E. by rewrite E in N.
Qed.

Lemma freeze_valid record : validate_freeze record = [] -> freeze_sound record.
Proof.
  unfold validate_freeze, freeze_sound, require_blocks.
  destruct (fz_record_kind record); cbn [access_transition]; try done;
    rewrite !app_nil, !error_when_nil, !orb_false_iff, !negb_false_iff; intros V;
    apply custody_sound; tauto.
Qed.

Definition failure_sound (failure : FailureRecord) : Prop :=
  (fl_scope failure = FailureScope_run ->
   is_Some (fl_run_id failure) /\ is_Some (fl_block_id failure)) /\
  (fl_invalidates_run failure = true -> fl_stage failure = Stage_stage_a ->
   fl_block_consequence failure ∈
     [BlockConsequence_original_block_incomplete; BlockConsequence_study_unresolved]).

Lemma is_some_true {A} (o : option A) : is_some o = true <-> is_Some o.
Proof. destruct o; simpl; split; naive_solver. Qed.

Lemma failure_valid failure : validate_failure failure = [] -> failure_sound failure.
Proof.
  unfold validate_failure, failure_sound. rewrite !app_nil, !error_when_nil.
  intros (Vr & Vc & _). split.
  - intros S. rewrite bool_decide_eq_true_2, andb_true_l, orb_false_iff, !negb_false_iff in Vr by done.
    by rewrite !is_some_true in Vr.
  - intros I S. rewrite I, bool_decide_eq_true_2 in Vc by done.
    destruct (fl_block_consequence failure); vm_compute in Vc; try discriminate;
      apply (bool_decide_unpack _); vm_compute; done.
Qed.

Definition platform_sound (platform : PlatformRecord) : Prop :=
  RequestedHardwareState_h0 ∈ requested_states platform /\
  RequestedHardwareState_h1 ∈ requested_states platform /\
  RequestedHardwareState_not_applicable ∉ requested_states platform.

Lemma platform_valid platform : validate_platform platform = [] -> platform_sound platform.
Proof.
  unfold validate_platform, platform_sound. cbv zeta. rewrite !app_nil, !error_when_nil.
  intros (_ & Vs & Vh). rewrite orb_false_iff, !negb_false_iff, !bool_decide_eq_true in Vh.
  destruct Vh as [H0 H1]. split_and!; try done. intros N. unfold requested_states in N.
  apply list_elem_of_fmap in N as (state & E & Hin).
  apply join_nil in Vs. rewrite Forall_fmap, Forall_forall in Vs. specialize (Vs state Hin).
  apply error_when_nil, orb_false_iff in Vs as [Vs _]. by apply bool_decide_eq_false in Vs.
Qed.

(** ** Loading establishes the ranges *)

Lemma optional_uint_u64 object key path o z :
  well_formed_object object ->
  optional_with object key (fun field => uint_of field path) = success o -> o = Some z -> is_u64 z.
Proof.
  unfold optional_with, optional. intros W. destruct (map_find key object) eqn:F; [|naive_solver].
  intros H ->. load_inv. subst. eapply uint_of_u64; [by eapply well_formed_member | eassumption].
Qed.

Lemma run_counts_u64 v path counts :
  well_formed v = true -> run_counts v path = success counts -> counts_u64 counts.
Proof.
  intros W H. unfold run_counts in H. cbv zeta in H. load_inv. subst counts.
  assert (WO : well_formed_object x) by by eapply object_of_well_formed.
  split; simpl; intros z ->; (eapply (optional_uint_u64 x _ _ (Some z)); [done | eassumption | done]).
Qed.

Lemma load_manifest_u64 document manifest counts :
  well_formed document = true -> load_manifest document = success manifest ->
  rm_counts manifest = Some counts -> counts_u64 counts.
Proof.
  intros W H. unfold load_manifest in H. load_inv. subst manifest. simpl. intros ->.
  assert (WO : well_formed_object x) by by eapply object_of_well_formed.
  match goal with H : optional_with _ "counts" _ = _ |- _ => rename H into L end.
  unfold optional_with, optional in L. destruct (map_find "counts" x) eqn:F; [|done].
  load_inv. subst. eapply run_counts_u64; [by eapply well_formed_member | eassumption].
Qed.

Lemma load_raw_u64 document envelope rows :
  well_formed document = true -> load_raw document = success envelope ->
  ro_storage envelope = InlineStorage (Rows_joined rows) -> Forall joined_timestamps_u64 rows.
Proof.
  intros W H. unfold load_raw in H. load_inv. subst envelope. simpl. intros ->.
  assert (WO : well_formed_object x) by by eapply object_of_well_formed.
  by eapply load_observation_storage_joined.
Qed.

(** ** The member lists *)

Definition document_members (kind : DocumentKind) : list string :=
  match kind with
  | DocumentKind_platform => platform_members
  | DocumentKind_schedule => schedule_members
  | DocumentKind_raw_observation => raw_members
  | DocumentKind_run_manifest => manifest_members
  | DocumentKind_block_plan => block_plan_members
  | DocumentKind_failure_record => failure_members
  | DocumentKind_freeze_record => freeze_members
  end.

Lemma reject_unknown_success object allowed path u :
  reject_unknown object allowed path = success u -> Forall (fun kv => fst kv ∈ allowed) object.
Proof.
  induction object as [|[key v] rest IH]; simpl; [by constructor|].
  case_bool_decide; [|done]. intros H1. constructor; [done | by apply IH].
Qed.

(** A loaded record keeps its document, which is an object without members
    outside the schema of its kind. *)
Lemma load_document_source kind document record :
  load_document kind document = success record ->
  source_document record = document /\
  exists object, document = Value_object object /\
    Forall (fun kv => fst kv ∈ document_members kind) object.
Proof.
  assert (O : forall object path (u : unit) allowed, object_of document path = success object ->
    reject_unknown object allowed path = success u ->
    exists object, document = Value_object object /\ Forall (fun kv => fst kv ∈ allowed) object).
  { intros object path u allowed H R. unfold object_of in H. destruct document; try done.
    injection H as ->. eexists. split; [done|]. by eapply reject_unknown_success. }
  destruct kind; simpl; intros H; load_inv; subst record;
    match goal with
    | H : load_platform _ = _ |- _ => unfold load_platform in H
    | H : load_schedule _ = _ |- _ => unfold load_schedule in H
    | H : load_raw _ = _ |- _ => unfold load_raw in H
    | H : load_manifest _ = _ |- _ => unfold load_manifest in H
    | H : load_block_plan _ = _ |- _ => unfold load_block_plan in H
    | H : load_failure _ = _ |- _ => unfold load_failure in H
    | H : load_freeze _ = _ |- _ => unfold load_freeze in H
    end; load_inv; subst; (split; [done|]); eapply O; eassumption.
Qed.

Definition record_sound (record : ProtocolRecord) : Prop :=
  match record with
  | Record_platform r => platform_sound r
  | Record_schedule r => schedule_sound r
  | Record_raw r => raw_sound r
  | Record_manifest r => manifest_sound r
  | Record_block r => block_sound r
  | Record_failure r => failure_sound r
  | Record_freeze r => freeze_sound r
  end.

Lemma validated_sound kind document record :
  well_formed document = true -> load_document kind document = success record ->
  validate record = [] -> record_sound record.
Proof.
  intros W L V. destruct kind; simpl in L; load_inv; subst record; simpl in V |- *.
  - by apply platform_valid.
  - apply schedule_valid; [by eapply load_schedule_u64 | done].
  - apply raw_valid; [|done]. intros rows. by eapply load_raw_u64.
  - apply manifest_valid; [|done]. intros counts. by eapply load_manifest_u64.
  - by apply block_valid.
  - by apply failure_valid.
  - by apply freeze_valid.
Qed.


(** A schedule document. *)
Definition text_member (key s : string) : string * Value := (key, Value_string s).
Definition number_member (key : string) (z : Z) : string * Value :=
  (key, Value_number (mkNumber NumberKind_unsigned_integer (std_to_string z) (Number_uint64 z))).
Definition zero_digest : string := String.concat EmptyString (replicate 64 "0"%string).

Definition sample_schedule_document : Value :=
  Value_object (map_of
    [text_member "schema_version" kProtocolVersion; text_member "protocol_version" kProtocolVersion;
     text_member "schedule_id" "schedule"; text_member "schedule_kind" "CONFIRMATORY";
     text_member "arrival_family" "POISSON_EXPONENTIAL"; text_member "namespace_id" "namespace";
     ("rng", Value_object (map_of
        [text_member "algorithm" "PHILOX"; text_member "version" "1"; text_member "seed_id" "seed";
         text_member "derivation_record_id" "d"; text_member "parent_namespace_id" "p"]));
     text_member "time_unit" "ns"; text_member "deadline_encoding" "DELTA_INTEGER_TICKS";
     number_member "origin_ticks" 5; number_member "horizon_ticks" 100;
     number_member "offered_count" 3;
     ("inclusion_boundary", Value_object (map_of
        [("start_inclusive", Value_bool true); ("end_exclusive", Value_bool true)]));
     ("nominal_offered_rate", Value_object (map_of
        [number_member "numerator_events" 1; number_member "denominator_ticks" 10]));
     text_member "overflow_rule_record_id" "rule"; ("immutable_ordering", Value_bool true);
     ("deadline_storage", Value_object (map_of
        [text_member "mode" "INLINE_TEST_ONLY";
         ("deadline_ticks", Value_array (snd <$> [number_member "" 10; number_member "" 20;
                                                  number_member "" 30]))]));
     text_member "decoded_deadlines_sha256" zero_digest; text_member "schedule_sha256" zero_digest]).

Definition sample_schedule_text : string :=
  match canonicalize sample_schedule_document with success t => t | failure _ => EmptyString end.


(** ** The status of a run in its manifest *)

(** A manifest that records a run status. *)
Definition manifest_carries (status : RunStatus) (manifest : RunManifest) : Prop :=
  rm_validity manifest = rs_validity status /\
  rm_zero_loss_status manifest = rs_zero_loss status /\
  rm_effective_tail_status manifest = rs_effective_tail status /\
  rm_block_completeness manifest = rs_block_completeness status /\
  rm_confirmatory_estimability manifest = rs_confirmatory_estimability status /\
  rm_confirmatory_blockers manifest = rs_confirmatory_blockers status.

(** [blocker_errors] as a function of the fields it reads. *)
Definition blockers_consistent (validity : RunValidity) (zero_loss tail : GateStatus)
    (completeness : BlockCompleteness) (estimability : ConfirmatoryEstimability)
    (blockers : list ConfirmatoryBlocker) : Prop :=
  forall manifest, rm_validity manifest = validity -> rm_zero_loss_status manifest = zero_loss ->
    rm_effective_tail_status manifest = tail -> rm_block_completeness manifest = completeness ->
    rm_confirmatory_estimability manifest = estimability ->
    rm_confirmatory_blockers manifest = blockers -> blocker_errors manifest = [].

Lemma pending_consistent validity zero_loss tail completeness :
  validity = RunValidity_not_evaluated \/ zero_loss = GateStatus_not_evaluated \/
  tail = GateStatus_not_evaluated ->
  blockers_consistent validity zero_loss tail completeness
    ConfirmatoryEstimability_not_evaluated [].
Proof.
  intros H manifest E1 E2 E3 E4 E5 E6. unfold blocker_errors. rewrite E1, E2, E3, E4, E5, E6.
  destruct validity, zero_loss, tail; try (exfalso; destruct H as [H|[H|H]]; discriminate H);
    destruct completeness; reflexivity.
Qed.

Lemma concluded_consistent input output :
  rs_validity output <> RunValidity_not_evaluated ->
  rs_zero_loss output <> GateStatus_not_evaluated ->
  rs_effective_tail output <> GateStatus_not_evaluated ->
  ab_status (ri_block_completeness input) <> BlockCompleteness_not_evaluated ->
  blockers_consistent (rs_validity output) (rs_zero_loss output) (rs_effective_tail output)
    (ab_status (ri_block_completeness input))
    (summary_for (confirmatory_blockers input output)) (confirmatory_blockers input output).
Proof.
  intros H1 H2 H3 H4 manifest E1 E2 E3 E4 E5 E6. unfold blocker_errors.
  rewrite E1, E2, E3, E4, E5, E6. unfold confirmatory_blockers.
  destruct (rs_validity output); [contradiction| |];
  (destruct (rs_zero_loss output); [contradiction| | |]);
  (destruct (rs_effective_tail output); [contradiction| | |]);
  (destruct (ab_status (ri_block_completeness input)); [contradiction| | |]);
  destruct (ag_status (ri_access_integrity input)); reflexivity.
Qed.

(** The status a run is given and the manifest that records it agree: for a
    Stage A run whose block completeness and access evidence are authoritative,
    the validity, gates, blockers and estimability that [evaluate_run_status]
    computes pass the blocker rules of [validate_manifest]. *)
Theorem run_status_manifest_consistent (input : RunStatusInput) (status : RunStatus)
    (manifest : RunManifest) :
  ri_stage input = Stage_stage_a ->
  ab_authoritative (ri_block_completeness input) = true ->
  ab_status (ri_block_completeness input) <> BlockCompleteness_not_evaluated ->
  ag_authoritative (ri_access_integrity input) = true ->
  evaluate_run_status input = Returned (success status) ->
  manifest_carries status manifest -> blocker_errors manifest = [].
Proof.
  intros A B C D E (M1 & M2 & M3 & M4 & M5 & M6).
  enough (K : blockers_consistent (rs_validity status) (rs_zero_loss status)
    (rs_effective_tail status) (rs_block_completeness status)
    (rs_confirmatory_estimability status) (rs_confirmatory_blockers status)) by (by apply K).
  assert (Conclude : forall output,
    rs_block_completeness output = ab_status (ri_block_completeness input) ->
    rs_lifecycle_completion output <> LifecycleCompletion_not_evaluated ->
    conclude_status input output = success status ->
    blockers_consistent (rs_validity status) (rs_zero_loss status)
      (rs_effective_tail status) (rs_block_completeness status)
      (rs_confirmatory_estimability status) (rs_confirmatory_blockers status)).
  { intros output Hb Hl. unfold conclude_status. destruct (_ && negb _); [done|].
    rewrite A, bool_decide_eq_true_2, B, D by done. cbn [negb]. rewrite !orb_false_r.
    match goal with |- context [if negb ?b then _ else _] => destruct b eqn:G end; cbn [negb];
      intros [= <-]; cbn.
    - rewrite !andb_true_iff, !negb_true_iff, !bool_decide_eq_false in G. rewrite Hb.
      apply concluded_consistent; tauto.
    - apply pending_consistent. repeat rewrite andb_false_iff in G.
      rewrite !negb_false_iff, !bool_decide_eq_true in G. tauto. }
  unfold evaluate_run_status in E. cbv zeta in E.
  destruct (ri_lifecycle_state input); try (injection E as E; eapply Conclude; [..|exact E]; done).
  - injection E as <-. apply pending_consistent. by left.
  - injection E as <-. apply pending_consistent. by left.
  - destruct (ri_counts input) as [counts|]; [|done]. unfold completed_status in E. cbv zeta in E.
    destruct (rc_n_eff_p999 counts) as [n|]; [destruct (n_eff_at_least_threshold n); [|done]|];
      injection E as E; eapply Conclude; [..|exact E| | |exact E]; done.
Qed.

Definition sample_status_input : RunStatusInput :=
  mkRunStatusInput Stage_stage_a LifecycleState_completed JoinStatus_passed
    (Some (mkRunCounts (Some 300001) (Some 300001) (Some 300000) (Some 1) (Some 300000) (Some 0)
             (Some 300000)
             (Some (mkNumber NumberKind_unsigned_integer "100000" (Number_uint64 100000)))))
    false (mkAuthoritativeBlockCompleteness BlockCompleteness_complete true)
    (mkAuthoritativeGate GateStatus_pass true).

Definition sample_reference : ArtifactReference := mkArtifactReference "artifact" (mkSha256 []).

(** The manifest of that run: blocked by the lost event and by the tail. *)
Definition sample_manifest (estimability : ConfirmatoryEstimability)
    (blockers : list ConfirmatoryBlocker) (stage : Stage) : RunManifest :=
  mkRunManifest ProtocolVersion_v2_0_0_pre_2 ProtocolVersion_v2_0_0_pre_2 "run" "platform" "build" 0
    "queue" (mkRunProvenance "paper" "implementation" (mkSha256 []) "compiler" [] "library" "record")
    stage RunMode_latency LifecycleState_completed "block" BlockRole_h3_train QueuePackage_r0
    RequestedHardwareState_h0 VerifiedHardwareState_verified_default Placement_near
    WorkingSetClass_l2_resident LoadLevel_l050 64 "ns"
    (mkRunScheduleReferences sample_reference sample_reference)
    (mkRunSeedReferences "arrival" None "event" "warmup" "record") RunValidity_valid
    GateStatus_pass GateStatus_fail GateStatus_fail estimability blockers BlockCompleteness_complete
    JoinStatus_passed None None [] [] (mkSha256 []) Value_null.

Lemma run_status_manifest_consistent_witness :
  blocker_errors
    (sample_manifest ConfirmatoryEstimability_blocked_multiple
       [ConfirmatoryBlocker_blocked_effective_tail; ConfirmatoryBlocker_blocked_zero_loss]
       Stage_stage_a) = [].
Proof.
  eapply (run_status_manifest_consistent sample_status_input).
  - reflexivity.
  - reflexivity.
  - discriminate.
  - reflexivity.
  - vm_compute. reflexivity.
  - repeat split.
Defined.

(** A manifest of the second snapshot outside Stage A with the estimability that
    [evaluate_run_status] gives such runs is rejected, whatever else it holds. *)
Theorem not_applicable_rejected (manifest : RunManifest) :
  rm_protocol_version manifest = ProtocolVersion_v2_0_0_pre_2 ->
  rm_confirmatory_estimability manifest = ConfirmatoryEstimability_not_applicable ->
  validate_manifest manifest <> [].
Proof.
  intros V N. unfold validate_manifest. rewrite bool_decide_eq_true_2, !app_nil by done.
  intros (B & _). unfold blocker_errors in B. cbv zeta in B.
  rewrite !app_nil, !error_when_nil in B. destruct B as (_ & _ & _ & B).
  apply negb_false_iff, bool_decide_eq_true in B. rewrite N in B.
  destruct (_ || _); [done|]. destruct (rm_confirmatory_blockers manifest) as [|b [|]]; [done| |done].
  by destruct b.
Qed.

Lemma not_applicable_rejected_witness :
  validate_manifest
    (sample_manifest ConfirmatoryEstimability_not_applicable [] Stage_diagnostic) <> [].
Proof. apply not_applicable_rejected; reflexivity. Defined.
