(* ===== verification/BlockPlanning.v ===== *)
(** * Block planning

    Models [include/cpu_prefetch/orchestration/block_planning.hpp] and
    [src/orchestration/block_planning.cpp]: the product of Stage A factors, block
    identities, role namespaces and seed catalogs, the generation of a block plan
    from Philox permutations with its self-hash, and the validation of plans and
    of a pool of plans. SHA-256 is a parameter: a function from bytes to the bytes
    of a digest. A [std::set] is the list of its insertions. *)

From stdpp Require Import prelude list strings.
From Stdlib Require Import ZArith Lia Ascii.
From S2P Require Import Prelude Validation Model Bytes Json Documents Load Deterministic.
From S2P Require Import Semantic Reconciliation SemanticRecords.

#[local] Open Scope Z_scope.
#[local] Open Scope result_scope.
#[local] Open Scope checked_scope.

(** ** Data *)

Definition kStageACells : Z := 180.
Definition kStageACellsPerWholePlot : Z := 90.
Definition kArrivalSeedCountPerBlock : Z := 18.
Definition kArenaSeedCountPerBlock : Z := 6.

Record RoleNamespaceBinding : Set := mkRoleNamespaceBinding {
  rb_role : BlockRole;
  rb_namespace_id : Identifier;
  rb_parent_namespace_id : Identifier
}.

Record RoleNamespaceRegistry : Set := mkRoleNamespaceRegistry {
  rr_common_stage_a_namespace_id : Identifier;
  rr_role_bindings : list RoleNamespaceBinding
}.

Record BlockSeedCatalog : Set := mkBlockSeedCatalog {
  bs_role : BlockRole;
  bs_role_namespace_id : Identifier;
  bs_block_subspace_id : Identifier;
  bs_derivation_artifact : ArtifactReference;
  bs_whole_plot_key : PhiloxKey;
  bs_h0_cell_order_key : PhiloxKey;
  bs_h1_cell_order_key : PhiloxKey;
  bs_arrival_seed_ids : list Identifier;
  bs_node_seed_ids : list Identifier;
  bs_event_seed_ids : list Identifier
}.

Record ReplacementPlanInput : Set := mkReplacementPlanInput {
  ri_replaced_block_id : Identifier;
  ri_replacement_authorization_id : Identifier;
  ri_replaced_block_ordinal : Z;
  ri_replaced_block_role : BlockRole;
  ri_replaced_seed_subspace_id : Identifier
}.

Record BlockGenerationInput : Set := mkBlockGenerationInput {
  bg_platform_id : Identifier;
  bg_build_id : Identifier;
  bg_role : BlockRole;
  bg_block_ordinal : Z;
  bg_seeds : BlockSeedCatalog;
  bg_replacement : option ReplacementPlanInput
}.

Record GeneratedBlockPlan : Set := mkGeneratedBlockPlan {
  gp_plan : BlockPlan;
  gp_canonical_json : string
}.

Definition WithinPlotKey : Set := QueuePackage * Placement * WorkingSetClass * LoadLevel.

(** ** Names and indices of the factors *)

(** Nonempty and free of path separators. *)
Definition opaque (value : string) : bool :=
  negb (str_empty value) &&
  forallb (fun c => negb (Ascii.eqb c "/") && negb (Ascii.eqb c backslash)) (text value).

Definition role_name (role : BlockRole) : string :=
  match role with
  | BlockRole_h3_train => "H3_TRAIN"
  | BlockRole_h3_validation => "H3_VALIDATION"
  | BlockRole_h1h2_supplemental => "H1H2_SUPPLEMENTAL"
  | BlockRole_not_applicable => EmptyString
  end.

Definition package_name (package : QueuePackage) : string :=
  match package with
  | QueuePackage_r0 => "R0"
  | QueuePackage_r1 => "R1"
  | QueuePackage_r2 => "R2"
  | QueuePackage_l0 => "L0"
  | QueuePackage_l1 => "L1"
  | QueuePackage_nblfq_mpsc | QueuePackage_not_applicable => EmptyString
  end.

Definition hardware_name (state : RequestedHardwareState) : string :=
  match state with
  | RequestedHardwareState_h0 => "H0"
  | RequestedHardwareState_h1 => "H1"
  | RequestedHardwareState_not_applicable => EmptyString
  end.

Definition placement_name (placement : Placement) : string :=
  match placement with
  | Placement_near => "NEAR"
  | Placement_far => "FAR"
  | Placement_stage_c_other | Placement_not_applicable => EmptyString
  end.

Definition working_set_name (working_set : WorkingSetClass) : string :=
  match working_set with
  | WorkingSetClass_l2_resident => "L2_RESIDENT"
  | WorkingSetClass_llc_resident => "LLC_RESIDENT"
  | WorkingSetClass_beyond_llc => "BEYOND_LLC"
  | WorkingSetClass_not_applicable => EmptyString
  end.

Definition load_name (load : LoadLevel) : string :=
  match load with
  | LoadLevel_l025 => "L025"
  | LoadLevel_l050 => "L050"
  | LoadLevel_l075 => "L075"
  | LoadLevel_calibration_ready | LoadLevel_stage_c_other | LoadLevel_not_applicable => EmptyString
  end.

Definition string_value (value : string) : Value := Value_string value.

Definition uint_value (value : Z) : Value :=
  Value_number (mkNumber NumberKind_unsigned_integer (std_to_string value) (Number_uint64 value)).

Definition placement_index (placement : Placement) : option Z :=
  match placement with
  | Placement_near => Some 0
  | Placement_far => Some 1
  | _ => None
  end.

Definition working_set_index (working_set : WorkingSetClass) : option Z :=
  match working_set with
  | WorkingSetClass_l2_resident => Some 0
  | WorkingSetClass_llc_resident => Some 1
  | WorkingSetClass_beyond_llc => Some 2
  | _ => None
  end.

Definition load_index (load : LoadLevel) : option Z :=
  match load with
  | LoadLevel_l025 => Some 0
  | LoadLevel_l050 => Some 1
  | LoadLevel_l075 => Some 2
  | _ => None
  end.

Definition arena_index (placement : Placement) (working_set : WorkingSetClass) : option Z :=
  let? placement_value := placement_index placement in
  let? working_set_value := working_set_index working_set in
  Some (placement_value * 3 + working_set_value).

Definition arrival_index (placement : Placement) (working_set : WorkingSetClass) (load : LoadLevel) :
    option Z :=
  let? arena := arena_index placement working_set in
  let? load_value := load_index load in
  Some (arena * 3 + load_value).

(** ** Documents *)

Definition identity_document (platform_id build_id : Identifier) (role : BlockRole) (ordinal : Z) :
    Value :=
  Value_object (map_of
    [("block_ordinal", uint_value ordinal);
     ("block_role", string_value (role_name role));
     ("build_id", string_value build_id);
     ("platform_id", string_value platform_id);
     ("protocol_version", string_value kProtocolVersion);
     ("stage", string_value "STAGE_A")]).

Definition optional_text (value : option string) : Value :=
  match value with Some s => string_value s | None => Value_null end.

Definition cell_document (cell : StageACell) : Value :=
  Value_object (map_of
    [("arrival_seed_ref", string_value (sc_arrival_seed_ref cell));
     ("cell_ordinal", uint_value (sc_cell_ordinal cell));
     ("event_seed_ref", string_value (sc_event_seed_ref cell));
     ("load_level", string_value (load_name (sc_load_level cell)));
     ("node_seed_ref", optional_text (sc_node_seed_ref cell));
     ("package", string_value (package_name (sc_package cell)));
     ("placement", string_value (placement_name (sc_placement cell)));
     ("requested_hardware_state", string_value (hardware_name (sc_requested_hardware_state cell)));
     ("working_set_class", string_value (working_set_name (sc_working_set_class cell)))]).

Definition lineage_document (replacement : ReplacementPlanInput) : Value :=
  Value_object (map_of
    [("replaced_block_ordinal", uint_value (ri_replaced_block_ordinal replacement));
     ("replaced_block_role", string_value (role_name (ri_replaced_block_role replacement)));
     ("replaced_seed_subspace_id", string_value (ri_replaced_seed_subspace_id replacement))]).

Definition block_document (input : BlockGenerationInput) (block_id : Identifier)
    (whole_plot_order : RequestedHardwareState * RequestedHardwareState) (cells : list StageACell)
    (plan_hash : string) : Value :=
  Value_object (map_of
    ([("access_state", string_value "PLANNED");
      ("block_id", string_value block_id);
      ("block_ordinal", uint_value (bg_block_ordinal input));
      ("block_role", string_value (role_name (bg_role input)));
      ("build_id", string_value (bg_build_id input));
      ("cells", Value_array (cell_document <$> cells));
      ("plan_sha256", string_value plan_hash);
      ("platform_id", string_value (bg_platform_id input));
      ("protocol_version", string_value kProtocolVersion)] ++
     match bg_replacement input with
     | Some replacement =>
         [("replacement_authorization_id",
           string_value (ri_replacement_authorization_id replacement));
          ("replacement_lineage", lineage_document replacement);
          ("replaces_block_id", string_value (ri_replaced_block_id replacement))]
     | None =>
         [("replacement_authorization_id", Value_null);
          ("replacement_lineage", Value_null);
          ("replaces_block_id", Value_null)]
     end ++
     [("schema_version", string_value kProtocolVersion);
      ("seed_subspace_id", string_value (bs_block_subspace_id (bg_seeds input)));
      ("stage", string_value "STAGE_A");
      ("whole_plot_order",
       Value_array [string_value (hardware_name (fst whole_plot_order));
                    string_value (hardware_name (snd whole_plot_order))])])).

(** ** Namespaces and seeds *)

Definition find_binding (registry : RoleNamespaceRegistry) (role : BlockRole) :
    option RoleNamespaceBinding :=
  find (fun binding => bool_decide (rb_role binding = role)) (rr_role_bindings registry).

(** The loop over the bindings; a duplicate role keeps its identifier out of the
    set of identifiers. *)
Fixpoint binding_errors (common : Identifier) (index : Z) (roles : list BlockRole)
    (identifiers : list string) (bindings : list RoleNamespaceBinding) : list ValidationError :=
  match bindings with
  | [] => []
  | binding :: rest =>
      let duplicate_role := bool_decide (rb_role binding ∈ roles) in
      let duplicate_id := negb duplicate_role && bool_decide (rb_namespace_id binding ∈ identifiers) in
      error_when (str_empty (role_name (rb_role binding)) ||
                  negb (opaque (rb_namespace_id binding)) ||
                  negb (opaque (rb_parent_namespace_id binding)) ||
                  negb (bool_decide (rb_parent_namespace_id binding = common)))
        (mkError ErrorCategory_cross_field
           ("$/role_namespaces/role_bindings/" +:+ std_to_string index)
           "BLK-ROLE-NAMESPACE-PARENT"
           "every registered role needs an explicit distinct child of the common namespace") ++
      error_when (duplicate_role || duplicate_id)
        (mkError ErrorCategory_duplicate_value "$/role_namespaces/role_bindings"
           "BLK-ROLE-NAMESPACE-UNIQUE"
           "role and namespace bindings must be unique and nonoverlapping") ++
      binding_errors common (index + 1) (rb_role binding :: roles)
        (if duplicate_role then identifiers else rb_namespace_id binding :: identifiers) rest
  end.

Definition required_roles : list BlockRole :=
  [BlockRole_h3_train; BlockRole_h3_validation; BlockRole_h1h2_supplemental].

Definition validate_role_namespaces (registry : RoleNamespaceRegistry) : list ValidationError :=
  let common := rr_common_stage_a_namespace_id registry in
  let bindings := rr_role_bindings registry in
  error_when (negb (opaque common))
    (mkError ErrorCategory_invalid_id "$/role_namespaces/common_stage_a_namespace_id"
       "BLK-NAMESPACE-OPAQUE" "common Stage A namespace must be an opaque stored identity") ++
  binding_errors common 0 [] [common] bindings ++
  mjoin ((fun role =>
    error_when (negb (bool_decide (role ∈ rb_role <$> bindings)))
      (mkError ErrorCategory_missing_evidence "$/role_namespaces/role_bindings"
         "BLK-ROLE-NAMESPACE-COMPLETE"
         "training, validation, and supplemental namespaces are all required"))
    <$> required_roles) ++
  error_when (negb (length bindings =? length required_roles)%nat)
    (mkError ErrorCategory_out_of_range "$/role_namespaces/role_bindings"
       "BLK-ROLE-NAMESPACE-EXACT" "the common Stage A pool has exactly three role namespaces").

(** The loop of [inspect]: the errors and the identifiers seen. *)
Fixpoint inspect (path : string) (index : Z) (identifiers : list string) (values : list Identifier) :
    list ValidationError * list string :=
  match values with
  | [] => ([], identifiers)
  | value :: rest =>
      let '(errors, seen) := inspect path (index + 1) (value :: identifiers) rest in
      (error_when (negb (opaque value))
         (mkError ErrorCategory_invalid_id (path +:+ "/" +:+ std_to_string index) "BLK-SEED-OPAQUE"
            "seed identity must be stored and must not be interpreted as a path") ++
       error_when (bool_decide (value ∈ identifiers))
         (mkError ErrorCategory_duplicate_value path "BLK-SEED-DOMAIN-SEPARATION"
            "arrival, node, and event seed identities must be domain-separated") ++ errors,
       seen)
  end.

Definition size_is {A : Type} (l : list A) (n : Z) : bool := Z.of_nat (length l) =? n.

Definition validate_seed_catalog (catalog : BlockSeedCatalog) (registry : RoleNamespaceRegistry) :
    list ValidationError :=
  let '(arrival_errors, seen) :=
    inspect "$/seed_catalog/arrival_seed_ids" 0 [] (bs_arrival_seed_ids catalog) in
  let '(node_errors, seen) :=
    inspect "$/seed_catalog/node_seed_ids" 0 seen (bs_node_seed_ids catalog) in
  let '(event_errors, _) :=
    inspect "$/seed_catalog/event_seed_ids" 0 seen (bs_event_seed_ids catalog) in
  validate_role_namespaces registry ++
  error_when (match find_binding registry (bs_role catalog) with
              | None => true
              | Some binding =>
                  negb (bool_decide (rb_namespace_id binding = bs_role_namespace_id catalog)) ||
                  negb (opaque (bs_block_subspace_id catalog)) ||
                  bool_decide (bs_block_subspace_id catalog = bs_role_namespace_id catalog) ||
                  bool_decide (bs_block_subspace_id catalog = rr_common_stage_a_namespace_id registry)
              end)
    (mkError ErrorCategory_reference_mismatch "$/seed_catalog" "BLK-SEED-SUBSPACE-ROLE"
       "block seed subspace must explicitly belong to its immutable role namespace") ++
  error_when (negb (opaque (ar_artifact_id (bs_derivation_artifact catalog))))
    (mkError ErrorCategory_invalid_id "$/seed_catalog/derivation_artifact" "BLK-SEED-DERIVATION"
       "randomization derivation evidence must have an opaque artifact identity") ++
  error_when (negb (size_is (bs_arrival_seed_ids catalog) kArrivalSeedCountPerBlock) ||
              negb (size_is (bs_node_seed_ids catalog) kArenaSeedCountPerBlock) ||
              negb (size_is (bs_event_seed_ids catalog) kArenaSeedCountPerBlock))
    (mkError ErrorCategory_out_of_range "$/seed_catalog" "BLK-SEED-CARDINALITY"
       "a block needs 18 arrival and six node/event arena seed identities") ++
  arrival_errors ++ node_errors ++ event_errors.

(** ** The factorial product *)

Definition packages : list QueuePackage :=
  [QueuePackage_r0; QueuePackage_r1; QueuePackage_r2; QueuePackage_l0; QueuePackage_l1].
Definition states : list RequestedHardwareState :=
  [RequestedHardwareState_h0; RequestedHardwareState_h1].
Definition placements : list Placement := [Placement_near; Placement_far].
Definition working_sets : list WorkingSetClass :=
  [WorkingSetClass_l2_resident; WorkingSetClass_llc_resident; WorkingSetClass_beyond_llc].
Definition loads : list LoadLevel := [LoadLevel_l025; LoadLevel_l050; LoadLevel_l075].

Definition expected_stage_a_cells : list CellKey :=
  package ← packages; state ← states; placement ← placements; working_set ← working_sets;
  load ← loads; [(package, state, placement, working_set, load)].

(** [base] of [generate_block_plan]. *)
Definition within_plot_keys : list WithinPlotKey :=
  package ← packages; placement ← placements; working_set ← working_sets; load ← loads;
  [(package, placement, working_set, load)].

(** ** Identities, generation, validation *)

Section Planning.
Context (sha256 : list Z -> list Z).

(** The digest printed in hexadecimal and parsed again. *)
Definition sha_from_text (t : string) : Result Sha256 :=
  Sha256_parse (Sha256_hex (mkSha256 (sha256 (string_bytes t)))) "$/sha256".

Definition make_block_id (platform_id build_id : Identifier) (role : BlockRole) (block_ordinal : Z) :
    Result Identifier :=
  if negb (opaque platform_id) || negb (opaque build_id) || str_empty (role_name role) then
    fail_with ErrorCategory_invalid_id "$/block_id" "BLK-ID-FIELDS"
      "block identity fields must be opaque and Stage A compatible"
  else
    let* canonical := canonicalize (identity_document platform_id build_id role block_ordinal) in
    let* digest := sha_from_text canonical in
    Identifier_parse ("stage-a-block-" +:+ Sha256_hex digest) "$/block_id".

Definition zero_hash : string := untext (replicate 64 ("0"%char)).

Definition verify_plan_hash (block : BlockPlan) : bool :=
  match as_object (bp_source_document block) with
  | None => false
  | Some source =>
      match map_find "plan_sha256" source with
      | None => false
      | Some _ =>
          match canonicalize (Value_object (map_assign "plan_sha256" (string_value zero_hash) source)) with
          | failure _ => false
          | success canonical =>
              match sha_from_text canonical with
              | failure _ => false
              | success digest => bool_decide (digest = bp_plan_sha256 block)
              end
          end
      end
  end.

(** The state of the cell loop of [validate_block_plan]: the tuples and the cells
    by ordinal. *)
Record CellScan : Set := mkCellScan {
  cs_actual : list CellKey;
  cs_by_ordinal : list (option StageACell)
}.

(** Whether the seeds of a cell are those of its arena and load. *)
Definition seeds_shared (seeds : BlockSeedCatalog) (cell : StageACell) (arrival arena : Z) : bool :=
  bool_decide (bs_arrival_seed_ids seeds !! Z.to_nat arrival = Some (sc_arrival_seed_ref cell)) &&
  bool_decide (bs_event_seed_ids seeds !! Z.to_nat arena = Some (sc_event_seed_ref cell)) &&
  (if linked (sc_package cell)
   then match sc_node_seed_ref cell with
        | Some node => bool_decide (bs_node_seed_ids seeds !! Z.to_nat arena = Some node)
        | None => false
        end
   else negb (is_some (sc_node_seed_ref cell))).

Definition below_size {A : Type} (index : Z) (l : list A) : bool := index <? Z.of_nat (length l).

(** One cell, whose ordinal [taken] tells whether it is out of range or taken. *)
Definition cell_errors (seeds : BlockSeedCatalog) (index : Z) (duplicate taken : bool)
    (cell : StageACell) : list ValidationError :=
  let path := "$/cells/" +:+ std_to_string index in
  error_when duplicate
    (mkError ErrorCategory_duplicate_value path "BLK-FACTOR-DUPLICATE"
       "each registered Stage A factor tuple must occur exactly once") ++
  if taken then
    [mkError ErrorCategory_duplicate_value (path +:+ "/cell_ordinal") "BLK-CELL-ORDINAL-EXACT"
       "cell ordinals must be unique and exactly cover 0 through 179"]
  else
    match arrival_index (sc_placement cell) (sc_working_set_class cell) (sc_load_level cell),
          arena_index (sc_placement cell) (sc_working_set_class cell) with
    | Some arrival, Some arena =>
        if negb (below_size arrival (bs_arrival_seed_ids seeds)) ||
           negb (below_size arena (bs_event_seed_ids seeds)) ||
           negb (below_size arena (bs_node_seed_ids seeds)) then
          [mkError ErrorCategory_unknown_enum path "BLK-REGISTERED-FACTORS"
             "cell contains a factor outside the registered Stage A product"]
        else
          error_when (negb (seeds_shared seeds cell arrival arena))
            (mkError ErrorCategory_reference_mismatch path "BLK-SEED-SHARING"
               "arrival and persistent arena seed references must follow their role-compatible matched domains")
    | _, _ =>
        [mkError ErrorCategory_unknown_enum path "BLK-REGISTERED-FACTORS"
           "cell contains a factor outside the registered Stage A product"]
    end.

Fixpoint scan_cells (seeds : BlockSeedCatalog) (index : Z) (scan : CellScan)
    (cells : list StageACell) : list ValidationError * CellScan :=
  match cells with
  | [] => ([], scan)
  | cell :: rest =>
      let ordinal := Z.to_nat (sc_cell_ordinal cell) in
      let duplicate := bool_decide (cell_key cell ∈ cs_actual scan) in
      let taken :=
        (sc_cell_ordinal cell >=? kStageACells) ||
        match cs_by_ordinal scan !! ordinal with Some (Some _) => true | _ => false end in
      let next :=
        mkCellScan (cell_key cell :: cs_actual scan)
          (if taken then cs_by_ordinal scan else <[ordinal := Some cell]> (cs_by_ordinal scan)) in
      let '(errors, scan) := scan_cells seeds (index + 1) next rest in
      (cell_errors seeds index duplicate taken cell ++ errors, scan)
  end.

(** The loop over the ordinals; it ends at the first gap or misplaced cell. *)
Fixpoint ordinal_errors (order : RequestedHardwareState * RequestedHardwareState) (ordinal : Z)
    (by_ordinal : list (option StageACell)) : list ValidationError :=
  match by_ordinal with
  | [] => []
  | None :: _ =>
      [mkError ErrorCategory_missing_evidence "$/cells" "BLK-CELL-ORDINAL-EXACT"
         "cell ordinals must be unique and exactly cover 0 through 179"]
  | Some cell :: rest =>
      let expected := if ordinal <? kStageACellsPerWholePlot then fst order else snd order in
      if negb (bool_decide (sc_requested_hardware_state cell = expected)) then
        [mkError ErrorCategory_cross_field ("$/cells/" +:+ std_to_string ordinal)
           "BLK-WHOLE-PLOT-ORDER"
           "the first and second 90 logical ordinals must follow the frozen whole-plot order"]
      else ordinal_errors order (ordinal + 1) rest
  end.

Definition within_key (cell : StageACell) : WithinPlotKey :=
  (sc_package cell, sc_placement cell, sc_working_set_class cell, sc_load_level cell).

(** The cells of one whole plot. *)
Definition plot_errors (plot : list (option StageACell)) : list ValidationError :=
  error_when (negb (set_size (within_key <$> omap id plot) =? kStageACellsPerWholePlot))
    (mkError ErrorCategory_cross_field "$/cells" "BLK-WHOLE-PLOT-COMPOSITION"
       "each hardware whole plot must contain all 90 package/context/load cells once").

Definition initial_scan : CellScan := mkCellScan [] (replicate (Z.to_nat kStageACells) None).

Definition validate_block_plan (block : BlockPlan) (seeds : BlockSeedCatalog)
    (registry : RoleNamespaceRegistry) : list ValidationError :=
  let expected_id := make_block_id (bp_platform_id block) (bp_build_id block)
                       (bp_block_role block) (bp_block_ordinal block) in
  let '(scan_errors, scan) := scan_cells seeds 0 initial_scan (bp_cells block) in
  let actual := cs_actual scan in
  validate_seed_catalog seeds registry ++
  validate (Record_block block) ++
  error_when (negb (bool_decide (bp_protocol_version block = ProtocolVersion_v2_0_0_pre_2)) ||
              negb (bool_decide (bp_schema_version block = ProtocolVersion_v2_0_0_pre_2)) ||
              negb (bool_decide (bp_stage block = Stage_stage_a)))
    (mkError ErrorCategory_unsupported_version "$/block_plan" "BLK-CURRENT-STAGE-A"
       "new Stage 14 plans must use protocol 2.0.0-pre.2 and STAGE_A") ++
  error_when (match expected_id with
              | failure _ => true
              | success id =>
                  negb (bool_decide (id = bp_block_id block)) ||
                  negb (opaque (bp_block_id block)) || negb (opaque (bp_build_id block))
              end)
    (mkError ErrorCategory_invalid_id "$/block_id" "BLK-CANONICAL-ID"
       "block ID must be derived from explicit fields and never from a path") ++
  error_when (negb (bool_decide (bp_block_role block = bs_role seeds)) ||
              negb (bool_decide (bp_seed_subspace_id block = bs_block_subspace_id seeds)))
    (mkError ErrorCategory_reference_mismatch "$/seed_subspace_id" "BLK-SEED-CATALOG-BINDING"
       "block role and seed subspace must match the immutable seed catalog") ++
  error_when (negb (verify_plan_hash block))
    (mkError ErrorCategory_invalid_hash "$/plan_sha256" "BLK-PLAN-ZEROSELF-HASH"
       "plan hash must match the accepted zero-self canonical record profile") ++
  scan_errors ++
  error_when (negb (size_is (bp_cells block) kStageACells) ||
              negb (set_size actual =? Z.of_nat (length expected_stage_a_cells)) ||
              negb (forallb (fun key => bool_decide (key ∈ actual)) expected_stage_a_cells))
    (mkError ErrorCategory_cross_field "$/cells" "BLK-EXACT-FACTORIAL-PROOF"
       "block must equal the complete registered 5x2x2x3x3 Cartesian product") ++
  ordinal_errors (bp_whole_plot_order block) 0 (cs_by_ordinal scan) ++
  plot_errors (take (Z.to_nat kStageACellsPerWholePlot) (cs_by_ordinal scan)) ++
  plot_errors (take (Z.to_nat kStageACellsPerWholePlot)
                 (drop (Z.to_nat kStageACellsPerWholePlot) (cs_by_ordinal scan))).

(** One cell of the plan. *)
Definition plan_cell (seeds : BlockSeedCatalog) (ordinal : Z) (state : RequestedHardwareState)
    (key : WithinPlotKey) : option StageACell :=
  let '(package, placement, working_set, load) := key in
  let? arrival := arrival_index placement working_set load in
  let? arena := arena_index placement working_set in
  let? arrival_seed := bs_arrival_seed_ids seeds !! Z.to_nat arrival in
  let? event_seed := bs_event_seed_ids seeds !! Z.to_nat arena in
  if linked package then
    let? node := bs_node_seed_ids seeds !! Z.to_nat arena in
    Some (mkStageACell ordinal package state placement working_set load arrival_seed (Some node)
            event_seed)
  else
    Some (mkStageACell ordinal package state placement working_set load arrival_seed None event_seed).

(** The cells of one whole plot, in the order of a permutation of the tuples. *)
Fixpoint plan_cells (seeds : BlockSeedCatalog) (state : RequestedHardwareState) (ordinal : Z)
    (order : list Z) : option (list StageACell) :=
  match order with
  | [] => Some []
  | selected :: rest =>
      let? key := within_plot_keys !! Z.to_nat selected in
      let? cell := plan_cell seeds ordinal state key in
      let? cells := plan_cells seeds state (ordinal + 1) rest in
      Some (cell :: cells)
  end.

(** The end of [generate_block_plan]: the self-hash, the final document and its
    validation as a loaded plan. *)
Definition finish_block_plan (input : BlockGenerationInput) (registry : RoleNamespaceRegistry)
    (block_id : Identifier) (order : RequestedHardwareState * RequestedHardwareState)
    (cells : list StageACell) : Result GeneratedBlockPlan :=
  let* zero_canonical := canonicalize (block_document input block_id order cells zero_hash) in
  let* plan_hash := sha_from_text zero_canonical in
  let final_document := block_document input block_id order cells (Sha256_hex plan_hash) in
  let* canonical := canonicalize final_document in
  let* loaded := load_document DocumentKind_block_plan final_document in
  match loaded with
  | Record_block plan =>
      match validate_block_plan plan (bg_seeds input) registry with
      | [] => success (mkGeneratedBlockPlan plan canonical)
      | validation => failure validation
      end
  | _ =>
      fail_with ErrorCategory_invalid_type "$/block_plan" "BLK-GENERATION-TYPE"
        "generated document did not decode as a block plan"
  end.

(** The checks before the randomisation. *)
Definition prepare_block_plan (input : BlockGenerationInput) (registry : RoleNamespaceRegistry) :
    Result Identifier :=
  match validate_seed_catalog (bg_seeds input) registry with
  | _ :: _ as seed_errors => failure seed_errors
  | [] =>
      if negb (bool_decide (bg_role input = bs_role (bg_seeds input))) ||
         negb (opaque (bg_build_id input)) then
        fail_with ErrorCategory_reference_mismatch "$/block_generation" "BLK-GENERATION-IDENTITY"
          "block role and build identity must match explicit prospective inputs"
      else if match bg_replacement input with
              | Some replacement =>
                  negb (bool_decide (ri_replaced_block_role replacement = bg_role input))
              | None => false
              end then
        fail_with ErrorCategory_cross_field "$/replacement" "BLK-ROLE-IMMUTABLE"
          "replacement must preserve the original block role"
      else
        let* block_id := make_block_id (bg_platform_id input) (bg_build_id input) (bg_role input)
                           (bg_block_ordinal input) in
        if match bg_replacement input with
           | Some replacement => bool_decide (ri_replaced_block_id replacement = block_id)
           | None => false
           end then
          fail_with ErrorCategory_cross_field "$/replacement/replaced_block_id"
            "BLK-REPLACEMENT-NEW-ID" "replacement block identity must be new"
        else success block_id
  end.

Definition state_at (permutation : list Z) (index : nat) : RequestedHardwareState :=
  default RequestedHardwareState_h0 (index' ← permutation !! index; states !! Z.to_nat index').

Definition generate_block_plan (input : BlockGenerationInput) (registry : RoleNamespaceRegistry) :
    Throws (Result GeneratedBlockPlan) :=
  match prepare_block_plan input registry with
  | failure errors => Returned (failure errors)
  | success block_id =>
      let seeds := bg_seeds input in
      let! plots := make_permutation 2 (draw (bs_whole_plot_key seeds)) in
      let! h0_order :=
        make_permutation (Z.of_nat (length within_plot_keys)) (draw (bs_h0_cell_order_key seeds)) in
      let! h1_order :=
        make_permutation (Z.of_nat (length within_plot_keys)) (draw (bs_h1_cell_order_key seeds)) in
      let first := state_at plots 0 in
      let second := state_at plots 1 in
      let order_of state :=
        if bool_decide (state = RequestedHardwareState_h0) then h0_order else h1_order in
      match plan_cells seeds first 0 (order_of first),
            plan_cells seeds second (Z.of_nat (length (order_of first))) (order_of second) with
      | Some cells, Some more =>
          Returned (finish_block_plan input registry block_id (first, second) (cells ++ more))
      | _, _ =>
          Returned (fail_with ErrorCategory_cross_field "$/cells" "BLK-FACTOR-INDEX"
            "registered factor could not map to its seed domain")
      end
  end.

(** ** Pools of plans *)

Record PoolScan : Set := mkPoolScan {
  ps_block_ids : list string;
  ps_ordinals : list Z;
  ps_subspaces : list string;
  ps_seed_ids : list string;
  ps_roles : list BlockRole;
  ps_h0_first : Z;
  ps_h1_first : Z
}.

(** The seeds of one catalog: an error for each that was seen. *)
Fixpoint seed_reuse (seen : list string) (seeds : list Identifier) :
    list ValidationError * list string :=
  match seeds with
  | [] => ([], seen)
  | seed :: rest =>
      let '(errors, all) := seed_reuse (seed :: seen) rest in
      (error_when (bool_decide (seed ∈ seen))
         (mkError ErrorCategory_duplicate_value "$/block_pool/seed_catalogs"
            "BLK-POOL-SEED-NO-REUSE"
            "role-specific block seed identities cannot overlap across blocks") ++ errors, all)
  end.

(** The insertions of the identity check stop at the first that fails. *)
Definition pool_identity (scan : PoolScan) (block : BlockPlan) (seeds : BlockSeedCatalog) :
    bool * (list string * list Z * list string) :=
  let duplicate_id := bool_decide (bp_block_id block ∈ ps_block_ids scan) in
  let duplicate_ordinal := bool_decide (bp_block_ordinal block ∈ ps_ordinals scan) in
  let duplicate_subspace := bool_decide (bs_block_subspace_id seeds ∈ ps_subspaces scan) in
  let ids := bp_block_id block :: ps_block_ids scan in
  let ordinals := bp_block_ordinal block :: ps_ordinals scan in
  let subspaces := bs_block_subspace_id seeds :: ps_subspaces scan in
  if duplicate_id then (true, (ids, ps_ordinals scan, ps_subspaces scan))
  else if duplicate_ordinal then (true, (ids, ordinals, ps_subspaces scan))
  else (duplicate_subspace, (ids, ordinals, subspaces)).

Fixpoint scan_pool (registry : RoleNamespaceRegistry) (index : Z) (scan : PoolScan)
    (pool : list (BlockPlan * BlockSeedCatalog)) : list ValidationError * PoolScan :=
  match pool with
  | [] => ([], scan)
  | (block, seeds) :: rest =>
      let '(duplicate, (ids, ordinals, subspaces)) := pool_identity scan block seeds in
      let '(reuse, seen) :=
        seed_reuse (ps_seed_ids scan)
          (bs_arrival_seed_ids seeds ++ bs_node_seed_ids seeds ++ bs_event_seed_ids seeds) in
      let first state := if bool_decide (fst (bp_whole_plot_order block) = state) then 1 else 0 in
      let next :=
        mkPoolScan ids ordinals subspaces seen (bp_block_role block :: ps_roles scan)
          (ps_h0_first scan + first RequestedHardwareState_h0)
          (ps_h1_first scan + first RequestedHardwareState_h1) in
      let '(errors, last) := scan_pool registry (index + 1) next rest in
      (validate_block_plan block seeds registry ++
       error_when duplicate
         (mkError ErrorCategory_duplicate_value ("$/block_pool/" +:+ std_to_string index)
            "BLK-POOL-IDENTITY-UNIQUE"
            "block IDs, ordinals, and block seed subspaces must be globally unique") ++
       reuse ++ errors, last)
  end.

(** [roles[role]]. *)
Definition role_count (roles : list BlockRole) (role : BlockRole) : Z :=
  Z.of_nat (length (filter (fun r => r = role) roles)).

Definition validate_block_pool (blocks : list BlockPlan) (seed_catalogs : list BlockSeedCatalog)
    (registry : RoleNamespaceRegistry)
    (expected_train_blocks expected_validation_blocks expected_supplemental_blocks : Z) :
    list ValidationError :=
  let overflow :=
    [mkError ErrorCategory_out_of_range "$/block_pool" "BLK-POOL-COUNT-OVERFLOW"
       "role-count sum overflows u64"] in
  if expected_train_blocks >? u64_max - expected_validation_blocks then overflow
  else
    let partial := expected_train_blocks + expected_validation_blocks in
    if partial >? u64_max - expected_supplemental_blocks then overflow
    else
      let expected_total := partial + expected_supplemental_blocks in
      let '(errors, scan) :=
        scan_pool registry 0 (mkPoolScan [] [] [] [] [] 0 0) (zip blocks seed_catalogs) in
      let count := role_count (ps_roles scan) in
      error_when (negb (size_is blocks expected_total) ||
                  negb (length seed_catalogs =? length blocks)%nat)
        (mkError ErrorCategory_out_of_range "$/block_pool" "BLK-POOL-EXACT-COUNT"
           "block and seed-catalog counts must equal the frozen role-count sum") ++
      errors ++
      error_when (negb (count BlockRole_h3_train =? expected_train_blocks) ||
                  negb (count BlockRole_h3_validation =? expected_validation_blocks) ||
                  negb (count BlockRole_h1h2_supplemental =? expected_supplemental_blocks))
        (mkError ErrorCategory_cross_field "$/block_pool/roles" "BLK-POOL-ROLE-COUNTS"
           "immutable block roles must exactly equal the prospective precision counts") ++
      error_when (Z.abs (ps_h0_first scan - ps_h1_first scan) >? 1)
        (mkError ErrorCategory_cross_field "$/block_pool/whole_plot_order"
           "BLK-WHOLE-PLOT-COUNTERBALANCE"
           "H0-first and H1-first whole-plot counts must differ by at most one").
End Planning.
