(* ===== verification/BlockPlans.v ===== *)
(** * Generated block plans

    Every plan that [generate_block_plan] returns is the complete factorial
    product in a random order, passes its own validation and reads back from its
    canonical text; every plan that [validate_block_plan] accepts is such a
    product. *)

From stdpp Require Import prelude list strings.
From Stdlib Require Import ZArith Lia Ascii.
From S2P Require Import Prelude Validation Model Bytes Utf8 Json JsonParsing JsonCanonical Documents.
From S2P Require Import Load Deterministic Semantic Reconciliation SemanticRecords Configuration.
From S2P Require Import BlockPlanning.

#[local] Open Scope Z_scope.
#[local] Open Scope result_scope.

(** ** Decimal texts *)

Lemma decimal_go_digits fuel : forall fuel' z acc,
  0 <= z < 10 ^ Z.of_nat (S fuel) -> z < 2 ^ Z.of_nat (S fuel') ->
  decimal_go (S fuel) z acc = untext (digits_go (S fuel') z (text acc)).
Proof.
  induction fuel as [|fuel IH]; intros fuel' z acc H H'; cbn [decimal_go digits_go].
  - change (10 ^ Z.of_nat 1) with 10 in H. destruct (Z.ltb_spec z 10); [|lia].
    simpl. by rewrite untext_text.
  - destruct (Z.ltb_spec z 10); [simpl; by rewrite untext_text|].
    destruct fuel' as [|fuel']; [change (2 ^ Z.of_nat 1) with 2 in H'; lia|].
    change (decimal_go (S fuel) (z / 10) (String (decimal_digit (z mod 10)) acc) =
            untext (digits_go (S fuel') (z / 10) (text (String (decimal_digit (z mod 10)) acc)))).
    apply IH.
    + replace (Z.of_nat (S (S fuel))) with (Z.of_nat (S fuel) + 1) in H by lia.
      rewrite Z.pow_add_r in H by lia. split; [apply Z.div_pos; lia|].
      apply Z.div_lt_upper_bound; lia.
    + replace (Z.of_nat (S (S fuel'))) with (Z.of_nat (S fuel') + 1) in H' by lia.
      rewrite Z.pow_add_r in H' by lia. apply Z.div_lt_upper_bound; lia.
Qed.

(** [std::to_string] of a 64-bit value is its canonical text. *)
Lemma std_to_string_canonical z : is_u64 z -> std_to_string z = untext (to_chars_int z).
Proof.
  intros H. unfold std_to_string, to_chars_int. destruct (Z.ltb_spec z 0); [int_lia|].
  unfold decimal_digits. apply decimal_go_digits; [|by apply decimal_digits_fuel].
  change (10 ^ Z.of_nat 20) with 100000000000000000000. int_lia.
Qed.

Lemma normalize_uint z : is_u64 z -> normalize (uint_value z) = uint_value z.
Proof.
  intros H. unfold uint_value. cbn [normalize]. unfold canonical_number, number_integer. cbn [num_value].
  destruct (Z.ltb_spec z 0); [int_lia|]. by rewrite std_to_string_canonical.
Qed.

(** ** Texts in ASCII *)

Definition is_ascii (c : ascii) : bool := char_code c <? 128.

Lemma decode_ascii fuel : forall t, (length t <= fuel)%nat ->
  Forall (fun c => is_ascii c = true) t ->
  has_value (decode_utf8_from fuel (char_code <$> t)) = true.
Proof.
  induction fuel as [|fuel IH]; intros [|c t] L F; simpl in L; [done|lia|done|].
  apply Forall_cons in F as [C F]. cbn [fmap list_fmap decode_utf8_from].
  unfold is_ascii in C. apply Z.ltb_lt in C.
  assert (0 <= char_code c) by (unfold char_code; lia).
  unfold utf8_lead. rewrite (proj2 (Z.leb_le (char_code c) 127)) by lia.
  replace (length _ <? 1)%nat with false by (symmetry; apply Nat.ltb_ge; simpl; lia).
  rewrite take_0, drop_0. cbn [utf8_continue].
  replace (utf8_code_point_ok 1 (char_code c)) with true.
  2:{ unfold utf8_code_point_ok. simpl. rewrite !Z.gtb_ltb, !Z.geb_leb. symmetry.
      rewrite (proj2 (Z.ltb_ge _ _)), (proj2 (Z.leb_gt 55296 _)) by lia. done. }
  cbn [negb]. specialize (IH t ltac:(lia) F). by destruct (decode_utf8_from fuel _).
Qed.

Lemma ascii_text_valid s :
  Forall (fun c => is_ascii c = true) (text s) -> has_value (decode_utf8 s) = true.
Proof.
  intros F. unfold decode_utf8, string_bytes. apply decode_ascii; [|done].
  induction s as [|c s IH]; simpl; [done|]. apply Forall_cons in F as [_ F]. specialize (IH F). lia.
Qed.

(** The characters of a digest are plain, printable and no separators. *)
Definition is_word (c : ascii) : bool :=
  is_ascii c && negb (Ascii.eqb c "/") && negb (Ascii.eqb c backslash).

Lemma hex_digit_word d : is_word (hex_digit d) = true.
Proof.
  unfold hex_digit. destruct (hex_digits !! Z.to_nat d) eqn:E; [|done]. simpl.
  apply list_elem_of_lookup_2 in E. revert a E. apply Forall_forall.
  apply (bool_decide_unpack _). vm_compute. done.
Qed.

Lemma hex_word sha : Forall (fun c => is_word c = true) (text (Sha256_hex sha)).
Proof.
  unfold Sha256_hex. change (text (String.string_of_list_ascii ?l)) with (text (untext l)).
  rewrite text_untext. induction (sha_bytes sha) as [|b l IH]; simpl; [constructor|].
  repeat constructor; [apply hex_digit_word..|done].
Qed.

Lemma text_app s t : text (s +:+ t) = text s ++ text t.
Proof.
  induction s as [|c s IH]; [done|].
  change (c :: text (s +:+ t) = c :: (text s ++ text t)). by rewrite IH.
Qed.

Lemma words_valid s : Forall (fun c => is_word c = true) (text s) -> has_value (decode_utf8 s) = true.
Proof.
  intros F. apply ascii_text_valid. eapply Forall_impl; [exact F|]. intros c. unfold is_word.
  by destruct (is_ascii c).
Qed.

Lemma words_opaque s :
  Forall (fun c => is_word c = true) (text s) -> str_empty s = false -> opaque s = true.
Proof.
  intros F E. unfold opaque. rewrite E. simpl. apply forallb_forall. intros c Hc.
  rewrite List.Forall_forall in F. specialize (F c Hc). unfold is_word in F.
  rewrite !andb_true_iff in *. tauto.
Qed.

(** ** The text of an identity *)

Definition good_id (s : string) : Prop := str_empty s = false /\ has_value (decode_utf8 s) = true.

Lemma opaque_nonempty s : opaque s = true -> str_empty s = false.
Proof. unfold opaque. by destruct (str_empty s). Qed.

Lemma sha_from_text_success sha256 t :
  (forall m, sha_wf (mkSha256 (sha256 m))) ->
  sha_from_text sha256 t = success (mkSha256 (sha256 (string_bytes t))).
Proof. intros W. unfold sha_from_text. by apply sha256_roundtrip. Qed.

Lemma Identifier_parse_success s path : str_empty s = false -> Identifier_parse s path = success s.
Proof. unfold Identifier_parse. by intros ->. Qed.

Lemma block_id_good sha :
  good_id ("stage-a-block-" +:+ Sha256_hex sha) /\ opaque ("stage-a-block-" +:+ Sha256_hex sha) = true.
Proof.
  assert (F : Forall (fun c => is_word c = true) (text ("stage-a-block-" +:+ Sha256_hex sha))).
  { rewrite text_app. apply Forall_app. split; [|apply hex_word].
    apply (bool_decide_unpack _). vm_compute. done. }
  split; [split; [done | by apply words_valid] | by apply words_opaque].
Qed.

(** ** What a successful preparation established *)

Lemma inspect_nil path values : forall index seen,
  fst (inspect path index seen values) = [] ->
  Forall (fun s => opaque s = true) values /\ NoDup values /\ (forall s, s ∈ values -> s ∉ seen).
Proof.
  induction values as [|value values IH]; intros index seen; simpl.
  { intros _. split_and!; [constructor | constructor | set_solver]. }
  destruct (inspect path (index + 1) (value :: seen) values) as [errors all] eqn:E. simpl.
  rewrite !app_nil, !error_when_nil. intros (O & D & R).
  destruct (IH (index + 1) (value :: seen)) as (F & N & S); [by rewrite E|].
  apply negb_false_iff in O. apply bool_decide_eq_false in D. split_and!.
  - by constructor.
  - constructor; [|done]. intros Hin. apply S in Hin. set_solver.
  - intros s Hs. apply elem_of_cons in Hs as [->|Hs]; [done|]. apply S in Hs. set_solver.
Qed.

Lemma validate_seed_catalog_nil catalog registry :
  validate_seed_catalog catalog registry = [] ->
  Forall (fun s => opaque s = true) (bs_arrival_seed_ids catalog) /\
  Forall (fun s => opaque s = true) (bs_node_seed_ids catalog) /\
  Forall (fun s => opaque s = true) (bs_event_seed_ids catalog) /\
  length (bs_arrival_seed_ids catalog) = 18%nat /\ length (bs_node_seed_ids catalog) = 6%nat /\
  length (bs_event_seed_ids catalog) = 6%nat /\ opaque (bs_block_subspace_id catalog) = true.
Proof.
  unfold validate_seed_catalog.
  pose proof (inspect_nil "$/seed_catalog/arrival_seed_ids" (bs_arrival_seed_ids catalog) 0 []) as A.
  destruct (inspect _ 0 [] (bs_arrival_seed_ids catalog)) as [ea seen].
  pose proof (inspect_nil "$/seed_catalog/node_seed_ids" (bs_node_seed_ids catalog) 0 seen) as N.
  destruct (inspect _ 0 seen (bs_node_seed_ids catalog)) as [en seen'].
  pose proof (inspect_nil "$/seed_catalog/event_seed_ids" (bs_event_seed_ids catalog) 0 seen') as E.
  destruct (inspect _ 0 seen' (bs_event_seed_ids catalog)) as [ee seen'']. simpl in A, N, E.
  rewrite !app_nil, !error_when_nil. intros (_ & B & _ & C & Ha & Hn & He).
  unfold size_is in C. rewrite !orb_false_iff, !negb_false_iff, !Z.eqb_eq in C.
  unfold kArrivalSeedCountPerBlock, kArenaSeedCountPerBlock in C.
  destruct (find_binding registry (bs_role catalog)); [|done].
  rewrite !orb_false_iff, !negb_false_iff in B.
  destruct (A Ha) as (? & _), (N Hn) as (? & _), (E He) as (? & _).
  split_and!; (tauto || lia).
Qed.

(** ** The document of a plan *)

Section Document.
Context (input : BlockGenerationInput) (block_id : Identifier).
Context (order : RequestedHardwareState * RequestedHardwareState) (cells : list StageACell).

Definition replacement_text (f : ReplacementPlanInput -> string) : Value :=
  match bg_replacement input with Some r => string_value (f r) | None => Value_null end.

Definition replacement_lineage_value : Value :=
  match bg_replacement input with Some r => lineage_document r | None => Value_null end.

(** The members in the order of their keys. *)
Definition block_members (plan_hash : string) : list (string * Value) :=
  [("access_state", string_value "PLANNED");
   ("block_id", string_value block_id);
   ("block_ordinal", uint_value (bg_block_ordinal input));
   ("block_role", string_value (role_name (bg_role input)));
   ("build_id", string_value (bg_build_id input));
   ("cells", Value_array (cell_document <$> cells));
   ("plan_sha256", string_value plan_hash);
   ("platform_id", string_value (bg_platform_id input));
   ("protocol_version", string_value kProtocolVersion);
   ("replacement_authorization_id", replacement_text ri_replacement_authorization_id);
   ("replacement_lineage", replacement_lineage_value);
   ("replaces_block_id", replacement_text ri_replaced_block_id);
   ("schema_version", string_value kProtocolVersion);
   ("seed_subspace_id", string_value (bs_block_subspace_id (bg_seeds input)));
   ("stage", string_value "STAGE_A");
   ("whole_plot_order",
    Value_array [string_value (hardware_name (fst order)); string_value (hardware_name (snd order))])].

Lemma block_document_members plan_hash :
  block_document input block_id order cells plan_hash = Value_object (block_members plan_hash).
Proof.
  unfold block_document, block_members, replacement_text, replacement_lineage_value.
  by destruct (bg_replacement input).
Qed.

Lemma block_members_zero plan_hash :
  map_assign "plan_sha256" (string_value zero_hash) (block_members plan_hash) =
  block_members zero_hash.
Proof. reflexivity. Qed.

(** The plan a loaded document is. *)
Definition plan_of (plan_hash : Sha256) : BlockPlan :=
  mkBlockPlan ProtocolVersion_v2_0_0_pre_2 ProtocolVersion_v2_0_0_pre_2 block_id
    (bg_platform_id input) (bg_build_id input) Stage_stage_a (bg_role input)
    (bg_block_ordinal input) (bs_block_subspace_id (bg_seeds input))
    (ri_replaced_block_id <$> bg_replacement input)
    (ri_replacement_authorization_id <$> bg_replacement input)
    ((fun r => mkReplacementLineage (ri_replaced_block_ordinal r) (ri_replaced_block_role r)
                 (ri_replaced_seed_subspace_id r)) <$> bg_replacement input)
    order cells AccessState_planned plan_hash
    (block_document input block_id order cells (Sha256_hex plan_hash)).
End Document.

(** ** Cells *)

(** A cell of the registered product with its identifiers. *)
Record cell_ok (cell : StageACell) : Prop := {
  ok_package : sc_package cell ∈ packages;
  ok_state : sc_requested_hardware_state cell ∈ states;
  ok_placement : sc_placement cell ∈ placements;
  ok_working_set : sc_working_set_class cell ∈ working_sets;
  ok_load : sc_load_level cell ∈ loads;
  ok_arrival : good_id (sc_arrival_seed_ref cell);
  ok_node : forall node, sc_node_seed_ref cell = Some node -> good_id node;
  ok_event : good_id (sc_event_seed_ref cell);
  ok_ordinal : is_u64 (sc_cell_ordinal cell)
}.

(** The members of a cell's document in the order of their keys. *)
Lemma cell_document_members cell :
  cell_document cell = Value_object
    [("arrival_seed_ref", string_value (sc_arrival_seed_ref cell));
     ("cell_ordinal", uint_value (sc_cell_ordinal cell));
     ("event_seed_ref", string_value (sc_event_seed_ref cell));
     ("load_level", string_value (load_name (sc_load_level cell)));
     ("node_seed_ref", optional_text (sc_node_seed_ref cell));
     ("package", string_value (package_name (sc_package cell)));
     ("placement", string_value (placement_name (sc_placement cell)));
     ("requested_hardware_state", string_value (hardware_name (sc_requested_hardware_state cell)));
     ("working_set_class", string_value (working_set_name (sc_working_set_class cell)))].
Proof. reflexivity. Qed.

(** A string that is present and not empty. *)
Lemma string_of_nonempty s path : str_empty s = false -> string_of (string_value s) path false = success s.
Proof. intros E. unfold string_of, string_value. cbn [as_string negb andb]. by rewrite E. Qed.

(** Reading an identifier from a member. *)
Lemma id_field_good object key path s :
  map_find key object = Some (string_value s) -> str_empty s = false ->
  id_field object key path = success s.
Proof.
  intros F E. unfold id_field, required. rewrite F. cbn [rbind]. rewrite string_of_nonempty by done.
  by apply Identifier_parse_success.
Qed.

(** Reading an enumerator from a member. *)
Lemma parsed_field_good {E} (parse : string -> string -> Result E) object key path s e :
  map_find key object = Some (string_value s) -> str_empty s = false ->
  parse s (child path key) = success e -> parsed_field parse object key path = success e.
Proof.
  intros F N P. unfold parsed_field, string_field, required. rewrite F. cbn [rbind].
  by rewrite string_of_nonempty.
Qed.

(** Case analysis on a registered level. *)
Ltac registered H :=
  repeat (apply elem_of_cons in H as [->|H]); [..|by apply not_elem_of_nil in H].

Lemma package_reads p path : p ∈ packages ->
  str_empty (package_name p) = false /\ parse_queue_package (package_name p) path = success p /\
  has_value (decode_utf8 (package_name p)) = true.
Proof. intros H. unfold packages in H. registered H; done. Qed.

Lemma state_reads s path : s ∈ states ->
  str_empty (hardware_name s) = false /\
  parse_requested_hardware_state (hardware_name s) path = success s /\
  has_value (decode_utf8 (hardware_name s)) = true.
Proof. intros H. unfold states in H. registered H; done. Qed.

Lemma placement_reads p path : p ∈ placements ->
  str_empty (placement_name p) = false /\ parse_placement (placement_name p) path = success p /\
  has_value (decode_utf8 (placement_name p)) = true.
Proof. intros H. unfold placements in H. registered H; done. Qed.

Lemma working_set_reads w path : w ∈ working_sets ->
  str_empty (working_set_name w) = false /\
  parse_working_set_class (working_set_name w) path = success w /\
  has_value (decode_utf8 (working_set_name w)) = true.
Proof. intros H. unfold working_sets in H. registered H; done. Qed.

Lemma load_reads l path : l ∈ loads ->
  str_empty (load_name l) = false /\ parse_load_level (load_name l) path = success l /\
  has_value (decode_utf8 (load_name l)) = true.
Proof. intros H. unfold loads in H. registered H; done. Qed.

Lemma load_cell_document cell path :
  cell_ok cell -> load_cell (cell_document cell) path = success cell.
Proof.
  intros []. rewrite cell_document_members. unfold load_cell. cbn [object_of as_object rbind].
  set (object := [_; _; _; _; _; _; _; _; _]).
  assert (R : reject_unknown object ["cell_ordinal"; "package"; "requested_hardware_state";
    "placement"; "working_set_class"; "load_level"; "arrival_seed_ref"; "node_seed_ref";
    "event_seed_ref"] path = success tt) by (vm_compute; reflexivity).
  rewrite R. cbn [rbind].
  assert (O : uint_field object "cell_ordinal" path = success (sc_cell_ordinal cell)) by reflexivity.
  rewrite O. cbn [rbind].
  destruct (package_reads _ (child path "package") ok_package0) as (P1 & P2 & _).
  rewrite (parsed_field_good _ object "package" path _ _ eq_refl P1 P2). cbn [rbind].
  destruct (state_reads _ (child path "requested_hardware_state") ok_state0) as (S1 & S2 & _).
  rewrite (parsed_field_good _ object "requested_hardware_state" path _ _ eq_refl S1 S2). cbn [rbind].
  destruct (placement_reads _ (child path "placement") ok_placement0) as (L1 & L2 & _).
  rewrite (parsed_field_good _ object "placement" path _ _ eq_refl L1 L2). cbn [rbind].
  destruct (working_set_reads _ (child path "working_set_class") ok_working_set0) as (W1 & W2 & _).
  rewrite (parsed_field_good _ object "working_set_class" path _ _ eq_refl W1 W2). cbn [rbind].
  destruct (load_reads _ (child path "load_level") ok_load0) as (D1 & D2 & _).
  rewrite (parsed_field_good _ object "load_level" path _ _ eq_refl D1 D2). cbn [rbind].
  rewrite (id_field_good object "arrival_seed_ref" path (sc_arrival_seed_ref cell) eq_refl)
    by apply ok_arrival0. cbn [rbind].
  assert (N : optional_nullable_id object "node_seed_ref" path = success (sc_node_seed_ref cell)).
  { unfold optional_nullable_id. change (optional object "node_seed_ref")
      with (Some (optional_text (sc_node_seed_ref cell))).
    destruct (sc_node_seed_ref cell) as [node|]; [|done]. destruct (ok_node0 node eq_refl) as [E _].
    cbn [optional_text is_null string_value]. rewrite string_of_nonempty by done. cbn [rbind].
    by rewrite Identifier_parse_success. }
  rewrite N. cbn [rbind].
  rewrite (id_field_good object "event_seed_ref" path (sc_event_seed_ref cell) eq_refl)
    by apply ok_event0. cbn [rbind].
  by destruct cell.
Qed.

Lemma load_cells_document path cells : forall index,
  Forall cell_ok cells ->
  load_elements load_cell path index (cell_document <$> cells) = success cells.
Proof.
  induction cells as [|cell cells IH]; intros index F; [done|]. apply Forall_cons in F as [C F].
  cbn [fmap list_fmap load_elements]. rewrite load_cell_document by done. cbn [rbind].
  change (list_fmap _ _ cell_document cells) with (cell_document <$> cells).
  by rewrite IH.
Qed.

(** ** The inputs of a generation *)

Definition valid_text (s : string) : Prop := has_value (decode_utf8 s) = true.

(** Identifiers are nonempty by construction; their texts are valid UTF-8. A
    replacement names a block with another ordinal and seed subspace. *)
Record replacement_ok (input : BlockGenerationInput) (r : ReplacementPlanInput) : Prop := {
  ro_block : good_id (ri_replaced_block_id r);
  ro_authorization : good_id (ri_replacement_authorization_id r);
  ro_subspace : good_id (ri_replaced_seed_subspace_id r);
  ro_ordinal_range : is_u64 (ri_replaced_block_ordinal r);
  ro_ordinal_new : ri_replaced_block_ordinal r <> bg_block_ordinal input;
  ro_subspace_new : ri_replaced_seed_subspace_id r <> bs_block_subspace_id (bg_seeds input)
}.

Record input_ok (input : BlockGenerationInput) : Prop := {
  in_platform : valid_text (bg_platform_id input);
  in_build : valid_text (bg_build_id input);
  in_subspace : valid_text (bs_block_subspace_id (bg_seeds input));
  in_arrival : Forall valid_text (bs_arrival_seed_ids (bg_seeds input));
  in_node : Forall valid_text (bs_node_seed_ids (bg_seeds input));
  in_event : Forall valid_text (bs_event_seed_ids (bg_seeds input));
  in_ordinal : is_u64 (bg_block_ordinal input);
  in_replacement : forall r, bg_replacement input = Some r -> replacement_ok input r
}.

Definition whole_plot_orders : list (RequestedHardwareState * RequestedHardwareState) :=
  [(RequestedHardwareState_h0, RequestedHardwareState_h1);
   (RequestedHardwareState_h1, RequestedHardwareState_h0)].

Definition role_registered (role : BlockRole) : Prop := role ∈ required_roles.

Lemma role_reads role path : role_registered role ->
  str_empty (role_name role) = false /\ parse_block_role (role_name role) path = success role /\
  has_value (decode_utf8 (role_name role)) = true /\ role <> BlockRole_not_applicable.
Proof. intros H. unfold role_registered, required_roles in H. registered H; done. Qed.

Section Loading.
Context (input : BlockGenerationInput) (block_id : Identifier).
Context (order : RequestedHardwareState * RequestedHardwareState) (cells : list StageACell).
Context (plan_hash : Sha256).
Hypothesis Hinput : input_ok input.
Hypothesis Hplatform : str_empty (bg_platform_id input) = false.
Hypothesis Hbuild : str_empty (bg_build_id input) = false.
Hypothesis Hsubspace : str_empty (bs_block_subspace_id (bg_seeds input)) = false.
Hypothesis Hid : good_id block_id.
Hypothesis Hrole : role_registered (bg_role input).
Hypothesis Hrole_replaced : forall r, bg_replacement input = Some r ->
  ri_replaced_block_role r = bg_role input.
Hypothesis Horder : order ∈ whole_plot_orders.
Hypothesis Hcells : Forall cell_ok cells.
Hypothesis Hhash : sha_wf plan_hash.

#[local] Abbreviation object := (block_members input block_id order cells (Sha256_hex plan_hash)).

Lemma nullable_replacement key f :
  map_find key object = Some (replacement_text input f) ->
  (forall r, bg_replacement input = Some r -> good_id (f r)) ->
  optional_nullable_id object key "$out" = success (f <$> bg_replacement input).
Proof.
  intros F G. unfold optional_nullable_id, optional. rewrite F. unfold replacement_text.
  destruct (bg_replacement input) as [r|]; [|done]. destruct (G r eq_refl) as [E _].
  cbn [is_null string_value]. rewrite string_of_nonempty by done. cbn [rbind].
  by rewrite Identifier_parse_success.
Qed.

Lemma load_lineage_document :
  load_lineage object =
  success ((fun r => mkReplacementLineage (ri_replaced_block_ordinal r) (ri_replaced_block_role r)
                       (ri_replaced_seed_subspace_id r)) <$> bg_replacement input).
Proof.
  unfold load_lineage. change (optional object "replacement_lineage")
    with (Some (replacement_lineage_value input)). unfold replacement_lineage_value.
  pose proof (in_replacement _ Hinput) as G. destruct (bg_replacement input) as [r|]; [|done].
  destruct (G r eq_refl) as [_ _ [S _] _ _ _]. rewrite <- (Hrole_replaced r eq_refl) in Hrole.
  destruct (role_reads _ (child "$out/replacement_lineage" "replaced_block_role") Hrole) as (R1 & R2 & _).
  unfold lineage_document. set (lineage := map_of _). cbn [is_null object_of as_object rbind].
  assert (J : reject_unknown lineage ["replaced_block_ordinal"; "replaced_block_role";
    "replaced_seed_subspace_id"] "$out/replacement_lineage" = success tt) by (vm_compute; reflexivity).
  rewrite J. cbn [rbind].
  assert (O : uint_field lineage "replaced_block_ordinal" "$out/replacement_lineage" =
    success (ri_replaced_block_ordinal r)) by reflexivity.
  rewrite O. cbn [rbind].
  rewrite (parsed_field_good _ lineage "replaced_block_role" _ _ _ eq_refl R1 R2). cbn [rbind].
  by rewrite (id_field_good lineage "replaced_seed_subspace_id" _ _ eq_refl S).
Qed.

Lemma load_plot_order_document : load_whole_plot_order object = success order.
Proof.
  unfold load_whole_plot_order.
  change (required object "whole_plot_order" "$out") with
    (@success Value (Value_array [string_value (hardware_name (fst order));
                                  string_value (hardware_name (snd order))])).
  unfold whole_plot_orders in Horder. registered Horder; reflexivity.
Qed.

Lemma sha_field_good key path :
  map_find key object = Some (string_value (Sha256_hex plan_hash)) ->
  sha_field object key path = success plan_hash.
Proof.
  intros F. unfold sha_field, required. rewrite F. cbn [rbind].
  assert (E : str_empty (Sha256_hex plan_hash) = false).
  { destruct Hhash as [L _]. unfold Sha256_hex. by destruct (sha_bytes plan_hash). }
  rewrite string_of_nonempty by done. cbn [rbind]. by apply sha256_roundtrip.
Qed.

Lemma load_block_document :
  load_block_plan (block_document input block_id order cells (Sha256_hex plan_hash)) =
  success (plan_of input block_id order cells plan_hash).
Proof.
  unfold plan_of. rewrite block_document_members. unfold load_block_plan.
  cbn [object_of as_object rbind].
  assert (R : reject_unknown object block_plan_members "$out" = success tt) by (vm_compute; reflexivity).
  rewrite R. cbn [rbind].
  assert (S : parsed_field parse_stage object "stage" "$out" = success Stage_stage_a) by reflexivity.
  rewrite S. cbn [rbind]. rewrite bool_decide_eq_true_2 by done. cbn [negb].
  destruct (role_reads _ (child "$out" "block_role") Hrole) as (R1 & R2 & _ & R3).
  rewrite (parsed_field_good _ object "block_role" "$out" _ _ eq_refl R1 R2). cbn [rbind].
  rewrite bool_decide_eq_false_2 by done.
  pose proof (in_replacement _ Hinput) as G.
  rewrite (nullable_replacement "replaces_block_id" ri_replaced_block_id eq_refl)
    by (intros r Hr; apply (G r Hr)). cbn [rbind].
  rewrite (nullable_replacement "replacement_authorization_id" ri_replacement_authorization_id eq_refl)
    by (intros r Hr; apply (G r Hr)). cbn [rbind].
  rewrite load_lineage_document. cbn [rbind].
  match goal with |- context [if ?b then failure _ else _] => assert (B : b = false) by (by destruct (bg_replacement input)) end.
  rewrite B, load_plot_order_document. cbn [rbind].
  assert (C : required object "cells" "$out" = success (Value_array (cell_document <$> cells)))
    by reflexivity.
  rewrite C. cbn [rbind array_of as_array]. rewrite load_cells_document by done. cbn [rbind].
  assert (V : version_field object "schema_version" "$out" = success ProtocolVersion_v2_0_0_pre_2)
    by reflexivity.
  assert (W : version_field object "protocol_version" "$out" = success ProtocolVersion_v2_0_0_pre_2)
    by reflexivity.
  rewrite V, W. cbn [rbind].
  rewrite (id_field_good object "block_id" "$out" block_id eq_refl) by apply Hid. cbn [rbind].
  rewrite (id_field_good object "platform_id" "$out" (bg_platform_id input) eq_refl) by done. cbn [rbind].
  rewrite (id_field_good object "build_id" "$out" (bg_build_id input) eq_refl) by done. cbn [rbind].
  assert (O : uint_field object "block_ordinal" "$out" = success (bg_block_ordinal input)) by reflexivity.
  rewrite O. cbn [rbind].
  rewrite (id_field_good object "seed_subspace_id" "$out" _ eq_refl) by done. cbn [rbind].
  assert (A : parsed_field parse_access_state object "access_state" "$out" = success AccessState_planned)
    by reflexivity.
  rewrite A. cbn [rbind]. by rewrite (sha_field_good "plan_sha256" "$out" eq_refl).
Qed.

(** *** The document is canonical *)

Lemma good_id_valid s : good_id s -> has_value (decode_utf8 s) = true.
Proof. by intros [_ H]. Qed.

Lemma uint_well_formed z : is_u64 z -> well_formed (uint_value z) = true.
Proof. intros H. unfold uint_value. cbn. int_lia. Qed.

Lemma cell_document_canonical cell : cell_ok cell ->
  well_formed (cell_document cell) = true /\ integers_only (cell_document cell) = true /\
  normalize (cell_document cell) = cell_document cell.
Proof.
  intros []. rewrite cell_document_members.
  destruct (package_reads _ "$" ok_package0) as (_ & _ & P).
  destruct (state_reads _ "$" ok_state0) as (_ & _ & S).
  destruct (placement_reads _ "$" ok_placement0) as (_ & _ & L).
  destruct (working_set_reads _ "$" ok_working_set0) as (_ & _ & W).
  destruct (load_reads _ "$" ok_load0) as (_ & _ & D).
  assert (N : well_formed (optional_text (sc_node_seed_ref cell)) = true /\
              integers_only (optional_text (sc_node_seed_ref cell)) = true /\
              normalize (optional_text (sc_node_seed_ref cell)) = optional_text (sc_node_seed_ref cell)).
  { destruct (sc_node_seed_ref cell) as [node|]; [|done]. split_and!; try done.
    by apply good_id_valid, ok_node0. }
  destruct N as (N1 & N2 & N3). split_and!.
  - cbn [well_formed forallb fst snd]. rewrite N1, uint_well_formed by done.
    cbn [well_formed string_value]. rewrite P, S, L, W, D, (good_id_valid _ ok_arrival0),
      (good_id_valid _ ok_event0). reflexivity.
  - cbn [integers_only forallb fst snd]. by rewrite N2.
  - cbn [normalize List.map fst snd]. by rewrite N3, normalize_uint.
Qed.

Lemma cells_canonical :
  forallb well_formed (cell_document <$> cells) = true /\
  forallb integers_only (cell_document <$> cells) = true /\
  List.map normalize (cell_document <$> cells) = cell_document <$> cells.
Proof.
  clear - Hcells. induction cells as [|cell cells' IH]; [done|].
  apply Forall_cons in Hcells as [C F]. specialize (IH F).
  destruct (cell_document_canonical _ C) as (A & B & D), IH as (A' & B' & D').
  cbn [fmap list_fmap forallb List.map]. rewrite A, B, D. change (list_fmap _ _ cell_document cells') with (cell_document <$> cells').
  by rewrite A', B', D'.
Qed.

Lemma replacement_text_canonical f :
  (forall r, bg_replacement input = Some r -> good_id (f r)) ->
  well_formed (replacement_text input f) = true /\
  integers_only (replacement_text input f) = true /\
  normalize (replacement_text input f) = replacement_text input f.
Proof.
  unfold replacement_text. intros G. destruct (bg_replacement input); [|done].
  split_and!; try done. by apply good_id_valid, G.
Qed.

Lemma replacement_lineage_canonical :
  well_formed (replacement_lineage_value input) = true /\
  integers_only (replacement_lineage_value input) = true /\
  normalize (replacement_lineage_value input) = replacement_lineage_value input.
Proof.
  unfold replacement_lineage_value. pose proof (in_replacement _ Hinput) as G.
  destruct (bg_replacement input) as [r|]; [|done]. destruct (G r eq_refl) as [_ _ S O _ _].
  rewrite <- (Hrole_replaced r eq_refl) in Hrole. destruct (role_reads _ "$" Hrole) as (_ & _ & R & _).
  assert (M : lineage_document r = Value_object
    [("replaced_block_ordinal", uint_value (ri_replaced_block_ordinal r));
     ("replaced_block_role", string_value (role_name (ri_replaced_block_role r)));
     ("replaced_seed_subspace_id", string_value (ri_replaced_seed_subspace_id r))]) by reflexivity.
  rewrite M. split_and!.
  - cbn [well_formed forallb fst snd]. rewrite uint_well_formed by done.
    cbn [well_formed string_value]. by rewrite R, (good_id_valid _ S).
  - done.
  - cbn [normalize List.map fst snd]. by rewrite normalize_uint.
Qed.

Lemma order_valid :
  has_value (decode_utf8 (hardware_name (fst order))) = true /\
  has_value (decode_utf8 (hardware_name (snd order))) = true.
Proof. unfold whole_plot_orders in Horder. registered Horder; done. Qed.

Lemma block_document_canonical hash :
  has_value (decode_utf8 hash) = true ->
  well_formed (block_document input block_id order cells hash) = true /\
  integers_only (block_document input block_id order cells hash) = true /\
  normalize (block_document input block_id order cells hash) =
  block_document input block_id order cells hash.
Proof.
  intros H. rewrite block_document_members. unfold block_members.
  pose proof (in_replacement _ Hinput) as G.
  destruct (replacement_text_canonical ri_replacement_authorization_id) as (A1 & A2 & A3).
  { intros r Hr. apply (G r Hr). }
  destruct (replacement_text_canonical ri_replaced_block_id) as (B1 & B2 & B3).
  { intros r Hr. apply (G r Hr). }
  destruct replacement_lineage_canonical as (L1 & L2 & L3), cells_canonical as (C1 & C2 & C3).
  destruct order_valid as [O1 O2]. destruct (role_reads _ "$" Hrole) as (_ & _ & R & _).
  pose proof (in_ordinal _ Hinput) as N. split_and!.
  - cbn [well_formed forallb fst snd]. rewrite A1, B1, L1, C1, uint_well_formed by done.
    cbn [well_formed string_value].
    rewrite H, O1, O2, R, (good_id_valid _ Hid), (in_platform _ Hinput), (in_build _ Hinput),
      (in_subspace _ Hinput). reflexivity.
  - cbn [integers_only forallb fst snd]. by rewrite A2, B2, L2, C2.
  - cbn [normalize List.map fst snd]. by rewrite A3, B3, L3, C3, normalize_uint.
Qed.
End Loading.

(** ** The cells of a plan *)

Lemma indices_registered placement working_set load :
  placement ∈ placements -> working_set ∈ working_sets -> load ∈ loads ->
  exists arrival arena, arrival_index placement working_set load = Some arrival /\
    arena_index placement working_set = Some arena /\ 0 <= arrival < 18 /\ 0 <= arena < 6.
Proof.
  intros P W L. unfold placements in P. unfold working_sets in W. unfold loads in L.
  registered P; registered W; registered L; (eexists _, _; split; [reflexivity|split; [reflexivity|]]; lia).
Qed.

Lemma within_plot_registered key : key ∈ within_plot_keys ->
  let '(package, placement, working_set, load) := key in
  package ∈ packages /\ placement ∈ placements /\ working_set ∈ working_sets /\ load ∈ loads.
Proof.
  destruct key as [[[p l] w] d]. unfold within_plot_keys.
  repeat (setoid_rewrite list_elem_of_bind). set_solver.
Qed.

(** A cell that validation finds nothing wrong with. *)
Record cell_planned (seeds : BlockSeedCatalog) (state : RequestedHardwareState) (cell : StageACell) :
    Prop := {
  cp_ok : cell_ok cell;
  cp_state : sc_requested_hardware_state cell = state;
  cp_within : within_key cell ∈ within_plot_keys;
  cp_errors : forall index, cell_errors seeds index false false cell = [];
  cp_linked : linked (sc_package cell) = is_some (sc_node_seed_ref cell)
}.

Section Cells.
Context (seeds : BlockSeedCatalog).
Hypothesis Hsizes : length (bs_arrival_seed_ids seeds) = 18%nat /\
  length (bs_node_seed_ids seeds) = 6%nat /\ length (bs_event_seed_ids seeds) = 6%nat.
Hypothesis Hgood : Forall good_id (bs_arrival_seed_ids seeds) /\
  Forall good_id (bs_node_seed_ids seeds) /\ Forall good_id (bs_event_seed_ids seeds).

Lemma seed_lookup (l : list Identifier) n z :
  length l = n -> 0 <= z < Z.of_nat n -> Forall good_id l ->
  exists s : Identifier, l !! Z.to_nat z = Some s /\ good_id s.
Proof.
  intros L Z F. destruct (lookup_lt_is_Some_2 l (Z.to_nat z)) as [s E]; [lia|].
  exists s. split; [done|]. rewrite Forall_forall in F. by eapply F, list_elem_of_lookup_2.
Qed.

Lemma plan_cell_planned state ordinal key :
  key ∈ within_plot_keys -> state ∈ states -> is_u64 ordinal ->
  exists cell, plan_cell seeds ordinal state key = Some cell /\ within_key cell = key /\
    sc_cell_ordinal cell = ordinal /\ cell_planned seeds state cell.
Proof.
  intros K S O. pose proof (within_plot_registered _ K) as R.
  destruct key as [[[package placement] working_set] load]. destruct R as (P & L & W & D).
  destruct (indices_registered _ _ _ L W D) as (arrival & arena & Ea & Er & Ha & Hr).
  destruct Hsizes as (La & Ln & Le), Hgood as (Ga & Gn & Ge).
  destruct (seed_lookup _ 18 arrival La ltac:(lia) Ga) as (sa & Fa & Goa).
  destruct (seed_lookup _ 6 arena Ln ltac:(lia) Gn) as (sn & Fn & Gon).
  destruct (seed_lookup _ 6 arena Le ltac:(lia) Ge) as (se & Fe & Goe).
  unfold plan_cell. rewrite Ea, Er. cbv beta iota. rewrite Fa, Fe, Fn. cbv beta iota.
  assert (E : forall node, (if linked package then node = Some sn else node = None) ->
    let cell := mkStageACell ordinal package state placement working_set load sa node se in
    cell_planned seeds state cell).
  { intros node Hnode cell. split; try done.
    - split; try done. intros n. simpl. intros ->. destruct (linked package); congruence.
    - intros index. unfold cell_errors. cbv zeta. cbn [sc_placement sc_working_set_class sc_load_level cell].
      rewrite Ea, Er. unfold below_size. rewrite La, Ln, Le.
      rewrite !(proj2 (Z.ltb_lt _ _)) by lia. cbn [negb orb error_when app].
      unfold seeds_shared. cbn [sc_arrival_seed_ref sc_event_seed_ref sc_package sc_node_seed_ref cell].
      rewrite Fa, Fe, Fn, !bool_decide_eq_true_2 by done. cbn [andb].
      destruct (linked package); subst node; [by rewrite bool_decide_eq_true_2 | done].
    - simpl. destruct (linked package); by subst node. }
  destruct (linked package) eqn:K'; eexists; (split; [done|]); (split; [done|]); (split; [done|]);
    by apply E.
Qed.

(** The tuple a permutation selects. *)
Definition key_at (selected : Z) : WithinPlotKey :=
  default (QueuePackage_r0, Placement_near, WorkingSetClass_l2_resident, LoadLevel_l025)
    (within_plot_keys !! Z.to_nat selected).

Lemma key_at_in selected : 0 <= selected < 90 ->
  within_plot_keys !! Z.to_nat selected = Some (key_at selected) /\ key_at selected ∈ within_plot_keys.
Proof.
  intros H. unfold key_at. destruct (within_plot_keys !! Z.to_nat selected) as [k|] eqn:E.
  - split; [done|]. by eapply list_elem_of_lookup_2.
  - apply lookup_ge_None in E. change (length within_plot_keys) with 90%nat in E. lia.
Qed.

Lemma plan_cells_planned state order : forall ordinal,
  state ∈ states -> Forall (fun i => 0 <= i < 90) order -> 0 <= ordinal ->
  ordinal + Z.of_nat (length order) <= u64_max ->
  exists cells, plan_cells seeds state ordinal order = Some cells /\
    within_key <$> cells = key_at <$> order /\
    sc_cell_ordinal <$> cells = seqZ ordinal (Z.of_nat (length order)) /\
    Forall (cell_planned seeds state) cells.
Proof.
  induction order as [|selected order IH]; intros ordinal S F O U.
  { exists []. by split_and!. }
  apply Forall_cons in F as [Fs F]. simpl length in U.
  destruct (key_at_in selected Fs) as [E K].
  destruct (plan_cell_planned state ordinal _ K S) as (cell & C & Ck & Co & Cp); [int_lia|].
  destruct (IH (ordinal + 1) S F) as (cells & D & Dk & Do & Dp); [lia|lia|].
  exists (cell :: cells). cbn [plan_cells]. rewrite E, C, D. split_and!; try done.
  - cbn. by rewrite Ck, Dk.
  - cbn [fmap list_fmap length]. change (list_fmap _ _ sc_cell_ordinal cells) with (sc_cell_ordinal <$> cells).
    rewrite Co, Do. rewrite Nat2Z.inj_succ. rewrite (seqZ_cons ordinal) by lia.
    f_equal. f_equal; lia.
  - by constructor.
Qed.

Lemma scan_in_order cells : forall index actual prefix m,
  sc_cell_ordinal <$> cells = seqZ (Z.of_nat (length prefix)) (Z.of_nat (length cells)) ->
  (length prefix + length cells + m = 180)%nat ->
  NoDup (cell_key <$> cells) -> (forall key, key ∈ cell_key <$> cells -> key ∉ actual) ->
  Forall (fun cell => forall index, cell_errors seeds index false false cell = []) cells ->
  scan_cells seeds index (mkCellScan actual (prefix ++ replicate (length cells + m) None)) cells =
  ([], mkCellScan (reverse (cell_key <$> cells) ++ actual)
         (prefix ++ (Some <$> cells) ++ replicate m None)).
Proof.
  clear Hsizes Hgood.
  induction cells as [|cell cells IH]; intros index actual prefix m O L N D E; [done|].
  cbn [fmap list_fmap length] in *. apply Forall_cons in E as [Ec E].
  rewrite Nat2Z.inj_succ, seqZ_cons in O by lia. injection O as Oc O.
  apply NoDup_cons in N as [Nc N].
  cbn [scan_cells cs_actual cs_by_ordinal Nat.add replicate]. rewrite Oc, Nat2Z.id.
  rewrite bool_decide_eq_false_2 by (apply D; set_solver).
  assert (B : (Z.of_nat (length prefix) >=? kStageACells) = false) by (unfold kStageACells; lia).
  rewrite B, list_lookup_middle by done. cbn [orb].
  rewrite insert_app_r_alt, Nat.sub_diag by lia. cbn [insert list_insert].
  change (prefix ++ Some cell :: replicate (length cells + m) None)
    with (prefix ++ [Some cell] ++ replicate (length cells + m) None).
  rewrite app_assoc, (IH (index + 1) (cell_key cell :: actual) (prefix ++ [Some cell]) m); try done.
  - rewrite Ec. cbn [app]. rewrite reverse_cons, <- !app_assoc. done.
  - rewrite length_app. simpl. rewrite Nat2Z.inj_add. simpl.
    change (list_fmap _ _ sc_cell_ordinal cells) with (sc_cell_ordinal <$> cells) in O.
    rewrite O. f_equal; lia.
  - rewrite length_app. simpl. lia.
  - intros key Hk. apply not_elem_of_cons. split; [by intros ->|]. apply D. set_solver.
Qed.
End Cells.

(** ** The product of a plan *)

Definition with_state (state : RequestedHardwareState) (key : WithinPlotKey) : CellKey :=
  let '(package, placement, working_set, load) := key in (package, state, placement, working_set, load).

Lemma expected_NoDup : NoDup expected_stage_a_cells.
Proof. apply (bool_decide_unpack _). vm_compute. done. Qed.

Lemma within_NoDup : NoDup within_plot_keys.
Proof. apply (bool_decide_unpack _). vm_compute. done. Qed.

Lemma NoDup_same_elements {A} `{EqDecision A} (l k : list A) :
  NoDup l -> NoDup k -> length l = length k ->
  forallb (fun x => bool_decide (x ∈ k)) l = true -> l ≡ₚ k.
Proof.
  intros Nl Nk L F. apply submseteq_length_Permutation; [|lia].
  apply NoDup_submseteq; [done|]. intros x Hx. rewrite forallb_forall in F.
  specialize (F x). rewrite bool_decide_eq_true in F. by apply F, list_elem_of_In.
Qed.

Lemma plots_product order : order ∈ whole_plot_orders ->
  (with_state (fst order) <$> within_plot_keys) ++ (with_state (snd order) <$> within_plot_keys)
  ≡ₚ expected_stage_a_cells.
Proof.
  intros O. unfold whole_plot_orders in O.
  assert (N : forall l : list CellKey, bool_decide (NoDup l) = true ->
    (length l =? 180)%nat = true ->
    forallb (fun x => bool_decide (x ∈ expected_stage_a_cells)) l = true -> l ≡ₚ expected_stage_a_cells).
  { intros l D L F. apply NoDup_same_elements; [by apply bool_decide_eq_true in D|
      apply expected_NoDup | by apply Nat.eqb_eq in L | done]. }
  registered O; (apply N; vm_compute; reflexivity).
Qed.

Lemma key_at_permutation (order : list Z) :
  order ≡ₚ Z.of_nat <$> seq 0 90 -> key_at <$> order ≡ₚ within_plot_keys.
Proof. intros ->. vm_compute. reflexivity. Qed.

Lemma cell_key_planned seeds state cells :
  Forall (cell_planned seeds state) cells ->
  cell_key <$> cells = with_state state <$> (within_key <$> cells).
Proof.
  intros F. rewrite <- list_fmap_compose. apply list_fmap_ext. intros i cell E.
  rewrite Forall_forall in F. apply list_elem_of_lookup_2, F in E. destruct E as [_ S _ _ _].
  unfold cell_key, with_state, compose, within_key. by rewrite S.
Qed.

Lemma ordinal_errors_nil order (first second : list StageACell) :
  Forall (fun cell => sc_requested_hardware_state cell = fst order) first ->
  Forall (fun cell => sc_requested_hardware_state cell = snd order) second ->
  length first = 90%nat ->
  ordinal_errors order 0 (Some <$> (first ++ second)) = [].
Proof.
  intros F S L.
  assert (Second : forall cells ordinal, Forall (fun cell => sc_requested_hardware_state cell = snd order) cells ->
    90 <= ordinal -> ordinal_errors order ordinal (Some <$> cells) = []).
  { induction cells as [|cell cells IH]; intros ordinal C O; [done|]. apply Forall_cons in C as [C C'].
    cbn [fmap list_fmap ordinal_errors]. unfold kStageACellsPerWholePlot.
    rewrite (proj2 (Z.ltb_ge _ _)), bool_decide_eq_true_2 by (done || lia). apply IH; [done | lia]. }
  assert (First : forall cells ordinal, Forall (fun cell => sc_requested_hardware_state cell = fst order) cells ->
    ordinal + Z.of_nat (length cells) = 90 ->
    ordinal_errors order ordinal (Some <$> (cells ++ second)) = []).
  { induction cells as [|cell cells IH]; intros ordinal C O; simpl in O.
    - apply Second; [done | lia].
    - apply Forall_cons in C as [C C']. cbn [fmap list_fmap app ordinal_errors].
      unfold kStageACellsPerWholePlot.
      rewrite (proj2 (Z.ltb_lt _ _)), bool_decide_eq_true_2 by (done || lia). apply IH; [done | lia]. }
  apply First; [done | lia].
Qed.

Lemma omap_Some (cells : list StageACell) : omap id (Some <$> cells) = cells.
Proof. induction cells as [|c cells IH]; [done|]. cbn. f_equal. exact IH. Qed.

Lemma plot_errors_nil (cells : list StageACell) :
  within_key <$> cells ≡ₚ within_plot_keys -> plot_errors (Some <$> cells) = [].
Proof.
  intros P. unfold plot_errors. apply error_when_nil, negb_false_iff, Z.eqb_eq. rewrite omap_Some.
  assert (N : NoDup (within_key <$> cells)) by (rewrite P; apply within_NoDup).
  apply set_size_NoDup in N. rewrite N, P. reflexivity.
Qed.

(** ** A prepared generation *)

Section Generation.
Context (sha256 : list Z -> list Z).
Hypothesis Hsha : forall m, sha_wf (mkSha256 (sha256 m)).

Lemma make_block_id_success platform build role ordinal id :
  make_block_id sha256 platform build role ordinal = success id ->
  opaque platform = true /\ opaque build = true /\ role_registered role /\ good_id id /\
  opaque id = true.
Proof.
  unfold make_block_id.
  destruct (negb (opaque platform) || negb (opaque build) || str_empty (role_name role)) eqn:E; [done|].
  rewrite !orb_false_iff, !negb_false_iff in E. destruct E as [[P B] R].
  destruct (canonicalize _) as [canonical|]; [|done]. cbn [rbind].
  rewrite sha_from_text_success by done. cbn [rbind].
  destruct (block_id_good (mkSha256 (sha256 (string_bytes canonical)))) as [G O].
  rewrite Identifier_parse_success by apply G. intros [= <-]. split_and!; try done.
  unfold role_registered, required_roles. destruct role; set_solver.
Qed.

Record prepared (input : BlockGenerationInput) (registry : RoleNamespaceRegistry)
    (block_id : Identifier) : Prop := {
  pr_catalog : validate_seed_catalog (bg_seeds input) registry = [];
  pr_role : bg_role input = bs_role (bg_seeds input);
  pr_replaced_role : forall r, bg_replacement input = Some r ->
    ri_replaced_block_role r = bg_role input;
  pr_id : make_block_id sha256 (bg_platform_id input) (bg_build_id input) (bg_role input)
            (bg_block_ordinal input) = success block_id;
  pr_new : forall r, bg_replacement input = Some r -> ri_replaced_block_id r <> block_id
}.

Lemma prepare_success input registry block_id :
  prepare_block_plan sha256 input registry = success block_id -> prepared input registry block_id.
Proof.
  unfold prepare_block_plan. destruct (validate_seed_catalog _ _) eqn:S; [|done].
  destruct (negb _ || negb _) eqn:E; [done|]. rewrite orb_false_iff, !negb_false_iff in E.
  destruct E as [R%bool_decide_eq_true B].
  destruct (make_block_id _ _ _ _ _) as [id|] eqn:M; [|by destruct (bg_replacement input) as [r|];
    [destruct (negb _)|]].
  destruct (bg_replacement input) as [r|] eqn:P.
  - destruct (bool_decide (ri_replaced_block_role r = bg_role input)) eqn:Q; [|done]. cbn [negb rbind].
    destruct (bool_decide (ri_replaced_block_id r = id)) eqn:N; [done|]. intros [= <-].
    apply bool_decide_eq_true in Q. apply bool_decide_eq_false in N.
    split; try done; intros r'; rewrite P; by intros [= <-].
  - cbn [rbind]. intros [= <-]. split; try done; intros r'; by rewrite P.
Qed.

(** ** The validation of a generated plan *)

Section Validation.
Context (input : BlockGenerationInput) (registry : RoleNamespaceRegistry) (block_id : Identifier).
Context (order : RequestedHardwareState * RequestedHardwareState) (first second : list StageACell).
Hypothesis Hinput : input_ok input.
Hypothesis Hprepared : prepared input registry block_id.
Hypothesis Horder : order ∈ whole_plot_orders.
Hypothesis Hfirst : Forall (cell_planned (bg_seeds input) (fst order)) first.
Hypothesis Hsecond : Forall (cell_planned (bg_seeds input) (snd order)) second.
Hypothesis Hfirst_keys : within_key <$> first ≡ₚ within_plot_keys.
Hypothesis Hsecond_keys : within_key <$> second ≡ₚ within_plot_keys.
Hypothesis Hordinals : sc_cell_ordinal <$> (first ++ second) = seqZ 0 180.

#[local] Abbreviation cells := (first ++ second).

Lemma plan_lengths : length first = 90%nat /\ length second = 90%nat.
Proof.
  apply Permutation_length in Hfirst_keys, Hsecond_keys. rewrite length_fmap in *.
  rewrite Hfirst_keys, Hsecond_keys. done.
Qed.

Lemma plan_keys : cell_key <$> cells ≡ₚ expected_stage_a_cells.
Proof.
  rewrite fmap_app, (cell_key_planned _ _ _ Hfirst), (cell_key_planned _ _ _ Hsecond).
  rewrite Hfirst_keys, Hsecond_keys. by apply plots_product.
Qed.

Lemma plan_keys_NoDup : NoDup (cell_key <$> cells).
Proof. rewrite plan_keys. apply expected_NoDup. Qed.

Lemma plan_validate plan_hash :
  validate (Record_block (plan_of input block_id order cells plan_hash)) = [].
Proof.
  change (validate_block (plan_of input block_id order cells plan_hash) = []).
  destruct plan_lengths as [L1 L2]. pose proof plan_keys_NoDup as N. apply set_size_NoDup in N.
  unfold validate_block, plan_of.
  cbn [bp_whole_plot_order bp_cells bp_replaces_block_id bp_replacement_authorization_id
    bp_replacement_lineage bp_block_id bp_block_ordinal bp_seed_subspace_id bp_block_role].
  rewrite Hordinals. destruct order as [a b] eqn:Eo.
  rewrite !app_nil, !error_when_nil. split_and!.
  - unfold whole_plot_orders in Horder.
    repeat (apply elem_of_cons in Horder as [ [= -> ->] |Horder]); [done..|by apply not_elem_of_nil in Horder].
  - rewrite length_app, L1, L2. reflexivity.
  - apply node_seed_errors_nil. apply Forall_app. split; [eapply Forall_impl; [exact Hfirst|]|
      eapply Forall_impl; [exact Hsecond|]]; intros cell C; apply C.
  - rewrite N, length_fmap, length_app, L1, L2. reflexivity.
  - vm_compute. reflexivity.
  - by destruct (bg_replacement input).
  - pose proof (in_replacement _ Hinput) as R. pose proof (pr_new _ _ _ Hprepared) as W.
    pose proof (pr_replaced_role _ _ _ Hprepared) as Q.
    destruct (bg_replacement input) as [r|]; [|done]. cbn [fmap option_fmap option_map].
    destruct (R r eq_refl). specialize (W r eq_refl). specialize (Q r eq_refl).
    cbn [rl_replaced_block_ordinal rl_replaced_block_role rl_replaced_seed_subspace_id].
    apply error_when_nil. rewrite !bool_decide_eq_false_2 by congruence.
    rewrite (proj2 (Z.eqb_neq _ _)) by lia. rewrite bool_decide_eq_true_2 by done. done.
Qed.

Lemma cells_ok : Forall cell_ok cells.
Proof.
  apply Forall_app. split; [eapply Forall_impl; [exact Hfirst|] | eapply Forall_impl; [exact Hsecond|]];
    intros cell C; apply C.
Qed.

Lemma plan_document_canonical hash : has_value (decode_utf8 hash) = true ->
  well_formed (block_document input block_id order cells hash) = true /\
  integers_only (block_document input block_id order cells hash) = true /\
  normalize (block_document input block_id order cells hash) =
  block_document input block_id order cells hash.
Proof.
  destruct (make_block_id_success _ _ _ _ _ (pr_id _ _ _ Hprepared)) as (_ & _ & R & G & _).
  apply block_document_canonical; try done; [apply Hprepared | apply cells_ok].
Qed.

Lemma plan_prints hash : has_value (decode_utf8 hash) = true ->
  exists t, canonicalize (block_document input block_id order cells hash) = success t /\
    parse t = success (block_document input block_id order cells hash).
Proof.
  intros H. destruct (plan_document_canonical hash H) as (W & I & N).
  destruct (well_formed_reads _ W I) as (u & A & _). eexists.
  assert (C : canonicalize (block_document input block_id order cells hash) = success (untext u))
    by (unfold canonicalize; by rewrite A).
  split; [exact C|]. pose proof (canonical_reads _ _ W I C) as R. by rewrite N in R.
Qed.

Lemma plan_scan :
  scan_cells (bg_seeds input) 0 initial_scan cells =
  ([], mkCellScan (reverse (cell_key <$> cells)) (Some <$> cells)).
Proof.
  destruct plan_lengths as [L1 L2].
  pose proof (scan_in_order (bg_seeds input) cells 0 [] [] 0) as S.
  assert (L : length cells = 180%nat) by (rewrite length_app; lia).
  rewrite L in S. rewrite !app_nil_r in S. apply S.
  - exact Hordinals.
  - done.
  - apply plan_keys_NoDup.
  - intros key _. apply not_elem_of_nil.
  - apply Forall_app. split; [eapply Forall_impl; [exact Hfirst|] | eapply Forall_impl; [exact Hsecond|]];
      intros cell C; apply C.
Qed.

Lemma plan_plots :
  take (Z.to_nat kStageACellsPerWholePlot) (Some <$> cells) = Some <$> first /\
  take (Z.to_nat kStageACellsPerWholePlot) (drop (Z.to_nat kStageACellsPerWholePlot) (Some <$> cells)) =
  Some <$> second.
Proof.
  destruct plan_lengths as [L1 L2]. change (Z.to_nat kStageACellsPerWholePlot) with 90%nat.
  rewrite fmap_app. split.
  - by rewrite take_app_le, take_ge by (rewrite length_fmap; lia).
  - rewrite drop_app_ge by (rewrite length_fmap; lia). rewrite length_fmap, L1, Nat.sub_diag, drop_0.
    by rewrite take_ge by (rewrite length_fmap; lia).
Qed.

Lemma plan_hash_verified zero_text :
  canonicalize (block_document input block_id order cells zero_hash) = success zero_text ->
  verify_plan_hash sha256
    (plan_of input block_id order cells (mkSha256 (sha256 (string_bytes zero_text)))) = true.
Proof.
  intros C. unfold verify_plan_hash, plan_of. cbn [bp_source_document bp_plan_sha256].
  rewrite block_document_members in C |- *. cbn [as_object].
  assert (F : map_find "plan_sha256" (block_members input block_id order cells
    (Sha256_hex (mkSha256 (sha256 (string_bytes zero_text))))) <> None) by discriminate.
  destruct (map_find _ _); [|done]. rewrite block_members_zero, C.
  rewrite sha_from_text_success by done. by rewrite bool_decide_eq_true_2.
Qed.

Lemma plan_factorial :
  negb (size_is cells kStageACells) ||
  negb (set_size (reverse (cell_key <$> cells)) =? Z.of_nat (length expected_stage_a_cells)) ||
  negb (forallb (fun key => bool_decide (key ∈ reverse (cell_key <$> cells))) expected_stage_a_cells) =
  false.
Proof.
  destruct plan_lengths as [L1 L2].
  assert (P : reverse (cell_key <$> cells) ≡ₚ expected_stage_a_cells)
    by (rewrite reverse_Permutation; apply plan_keys).
  assert (N : NoDup (reverse (cell_key <$> cells))) by (rewrite P; apply expected_NoDup).
  apply set_size_NoDup in N. rewrite N, P. rewrite Z.eqb_refl. unfold size_is.
  rewrite length_app, L1, L2. cbn [negb orb]. apply negb_false_iff, forallb_forall.
  intros key K. apply bool_decide_eq_true. rewrite P. by apply list_elem_of_In.
Qed.

Lemma plan_valid zero_text :
  canonicalize (block_document input block_id order cells zero_hash) = success zero_text ->
  validate_block_plan sha256
    (plan_of input block_id order cells (mkSha256 (sha256 (string_bytes zero_text))))
    (bg_seeds input) registry = [].
Proof.
  intros C. pose proof (plan_hash_verified _ C) as V. set (hash := mkSha256 _) in *.
  unfold validate_block_plan. rewrite V, plan_validate.
  unfold plan_of. cbn [bp_cells bp_platform_id bp_build_id bp_block_role bp_block_ordinal bp_block_id
    bp_protocol_version bp_schema_version bp_stage bp_seed_subspace_id bp_whole_plot_order].
  rewrite plan_scan. cbn [cs_actual cs_by_ordinal]. destruct plan_plots as [-> ->].
  rewrite (pr_catalog _ _ _ Hprepared), (pr_id _ _ _ Hprepared), plan_factorial.
  destruct (make_block_id_success _ _ _ _ _ (pr_id _ _ _ Hprepared)) as (_ & B & _ & _ & O).
  rewrite O, B, !bool_decide_eq_true_2 by (done || apply Hprepared).
  rewrite !plot_errors_nil by done. rewrite ordinal_errors_nil; [done|..|apply plan_lengths].
  - eapply Forall_impl; [exact Hfirst|]. intros cell K. apply K.
  - eapply Forall_impl; [exact Hsecond|]. intros cell K. apply K.
Qed.

Lemma plan_finishes : exists g,
  finish_block_plan sha256 input registry block_id order cells = success g /\
  (exists hash, gp_plan g = plan_of input block_id order cells hash) /\
  validate_block_plan sha256 (gp_plan g) (bg_seeds input) registry = [] /\
  load_document_text DocumentKind_block_plan (gp_canonical_json g) = success (Record_block (gp_plan g)).
Proof.
  destruct (plan_prints zero_hash) as (zero_text & C & _); [vm_compute; reflexivity|].
  pose proof (plan_valid _ C) as V. unfold finish_block_plan. rewrite C. cbn [rbind].
  rewrite sha_from_text_success by done. cbn [rbind]. set (hash := mkSha256 _) in *.
  destruct (plan_prints (Sha256_hex hash)) as (t & D & P); [apply words_valid, hex_word|].
  rewrite D. cbn [rbind load_document].
  destruct (make_block_id_success _ _ _ _ _ (pr_id _ _ _ Hprepared)) as (O1 & O2 & R & G & _).
  destruct (validate_seed_catalog_nil _ _ (pr_catalog _ _ _ Hprepared)) as (_ & _ & _ & _ & _ & _ & S).
  assert (L : load_block_plan (block_document input block_id order cells (Sha256_hex hash)) =
    success (plan_of input block_id order cells hash)).
  { apply load_block_document; try done; try (by apply opaque_nonempty); [apply Hprepared |
      apply cells_ok | apply Hsha]. }
  rewrite L. cbn [rbind]. rewrite V. eexists. split; [reflexivity|].
  cbn [gp_plan gp_canonical_json]. split_and!; [by exists hash | done |].
  unfold load_document_text. rewrite P. cbn [rbind load_document]. by rewrite L.
Qed.
End Validation.
End Generation.

(** ** Generation *)

Lemma plots_order plots :
  plots ≡ₚ Z.of_nat <$> seq 0 2 -> (state_at plots 0, state_at plots 1) ∈ whole_plot_orders.
Proof.
  intros P. symmetry in P. apply Permutation_length_2_inv in P as [-> | ->];
    apply (bool_decide_unpack _); vm_compute; done.
Qed.

(** The cells of one whole plot, from a permutation of the tuples. *)
Lemma plot_planned input registry state ordinal order :
  input_ok input -> validate_seed_catalog (bg_seeds input) registry = [] -> state ∈ states ->
  order ≡ₚ Z.of_nat <$> seq 0 90 -> 0 <= ordinal <= 90 ->
  exists cells, plan_cells (bg_seeds input) state ordinal order = Some cells /\
    within_key <$> cells ≡ₚ within_plot_keys /\
    sc_cell_ordinal <$> cells = seqZ ordinal 90 /\
    Forall (cell_planned (bg_seeds input) state) cells.
Proof.
  intros I V S P O. destruct (validate_seed_catalog_nil _ _ V) as (Oa & On & Oe & La & Ln & Le & _).
  assert (G : forall l : list Identifier, Forall (fun s => opaque s = true) l -> Forall valid_text l ->
    Forall good_id l).
  { intros l A B. rewrite Forall_forall in *. intros s Hs. split; [by apply opaque_nonempty, A | by apply B]. }
  assert (L : length order = 90%nat) by (apply Permutation_length in P; by rewrite P).
  destruct (plan_cells_planned (bg_seeds input)) with (state := state) (order := order)
    (ordinal := ordinal) as (cells & C & K & N & F); try done.
  - destruct I. split_and!; by apply G.
  - rewrite P. apply Forall_forall. intros i Hi. apply list_elem_of_fmap in Hi as (n & -> & Hn).
    apply elem_of_seq in Hn. lia.
  - lia.
  - rewrite L. unfold u64_max. lia.
  - exists cells. rewrite L in N. split_and!; try done. rewrite K. by apply key_at_permutation.
Qed.

Lemma generate_block_plan_cases sha256 input registry block_id :
  (forall m, sha_wf (mkSha256 (sha256 m))) -> input_ok input ->
  prepare_block_plan sha256 input registry = success block_id ->
  match generate_block_plan sha256 input registry with
  | Returned (success g) =>
      (exists order cells hash, order ∈ whole_plot_orders /\
         gp_plan g = plan_of input block_id order cells hash) /\
      cell_key <$> bp_cells (gp_plan g) ≡ₚ expected_stage_a_cells /\
      sc_cell_ordinal <$> bp_cells (gp_plan g) = seqZ 0 180 /\
      validate_block_plan sha256 (gp_plan g) (bg_seeds input) registry = [] /\
      load_document_text DocumentKind_block_plan (gp_canonical_json g) =
      success (Record_block (gp_plan g))
  | Returned (failure _) => False
  | Threw what => what = "permutation draw ordinal exhausted"%string
  end.
Proof.
  intros Hsha I P. unfold generate_block_plan. rewrite P. apply prepare_success in P.
  change (Z.of_nat (length within_plot_keys)) with 90.
  assert (M : forall count key, 0 < count <= 90 -> match make_permutation count (draw key) with
    | Returned order => order ≡ₚ Z.of_nat <$> seq 0 (Z.to_nat count)
    | Threw what => what = "permutation draw ordinal exhausted"%string end).
  { intros count key C. pose proof (make_permutation_cases count (draw key)) as Q.
    specialize (Q ltac:(int_lia)). destruct (make_permutation _ _); [apply Q|]. destruct Q as [[? _] | [_ ?] ]; [lia|done]. }
  pose proof (M 2 (bs_whole_plot_key (bg_seeds input)) ltac:(lia)) as M2.
  destruct (make_permutation 2 _) as [plots|]; [|done].
  pose proof (M 90 (bs_h0_cell_order_key (bg_seeds input)) ltac:(lia)) as H0.
  destruct (make_permutation 90 (draw (bs_h0_cell_order_key _))) as [h0|]; [|done].
  pose proof (M 90 (bs_h1_cell_order_key (bg_seeds input)) ltac:(lia)) as H1.
  destruct (make_permutation 90 (draw (bs_h1_cell_order_key _))) as [h1|]; [|done].
  clear M. apply plots_order in M2. set (a := state_at plots 0) in *. set (b := state_at plots 1) in *.
  clearbody a b.
  assert (O : forall state, (if bool_decide (state = RequestedHardwareState_h0)
    then h0 else h1) ≡ₚ Z.of_nat <$> seq 0 90) by (intros state; by case_bool_decide).
  assert (S : a ∈ states /\ b ∈ states).
  { unfold whole_plot_orders in M2.
    repeat (apply elem_of_cons in M2 as [ [= -> ->] |M2]); [set_solver..|by apply not_elem_of_nil in M2]. }
  destruct S as [Sa Sb].
  destruct (plot_planned input registry a 0 _ I (pr_catalog _ _ _ _ P) Sa (O a) ltac:(lia))
    as (first & E & K & N & F).
  assert (L : Z.of_nat (length (if bool_decide (a = RequestedHardwareState_h0) then h0 else h1)) = 90)
    by (specialize (O a); apply Permutation_length in O; by rewrite O).
  destruct (plot_planned input registry b 90 _ I (pr_catalog _ _ _ _ P) Sb (O b) ltac:(lia))
    as (second & E' & K' & N' & F').
  cbv zeta. rewrite E, L, E'.
  assert (N2 : sc_cell_ordinal <$> (first ++ second) = seqZ 0 180)
    by (rewrite fmap_app, N, N', <- seqZ_app; [done | lia..]).
  destruct (plan_finishes sha256 Hsha input registry block_id (a, b) first second)
    as (g & G & (hash & P') & V & R); try done.
  assert (C : bp_cells (gp_plan g) = first ++ second) by (by rewrite P').
  rewrite G, C. split_and!; try done; [by exists (a, b), (first ++ second), hash|].
  by eapply (plan_keys input (a, b)).
Qed.


(** C14. Block generation delivers what it promises. When the prospective inputs
    pass the checks that precede the randomisation, the only way not to obtain a
    plan is that a permutation runs out of draw ordinals, which throws: no branch
    returns an error after that point. The plan has the derived block identity,
    its cells are the complete registered product of the five factors, each tuple
    once, at the ordinals 0 to 179 in their order; it passes its own validation;
    and its canonical text, parsed and loaded again, is that very plan. *)
Theorem generate_block_plan_correct sha256 input registry block_id :
  (forall m, sha_wf (mkSha256 (sha256 m))) -> input_ok input ->
  prepare_block_plan sha256 input registry = success block_id ->
  match generate_block_plan sha256 input registry with
  | Returned (success g) =>
      bp_block_id (gp_plan g) = block_id /\
      bp_whole_plot_order (gp_plan g) ∈ whole_plot_orders /\
      cell_key <$> bp_cells (gp_plan g) ≡ₚ expected_stage_a_cells /\
      sc_cell_ordinal <$> bp_cells (gp_plan g) = seqZ 0 180 /\
      validate_block_plan sha256 (gp_plan g) (bg_seeds input) registry = [] /\
      load_document_text DocumentKind_block_plan (gp_canonical_json g) =
      success (Record_block (gp_plan g))
  | Returned (failure _) => False
  | Threw what => what = "permutation draw ordinal exhausted"%string
  end.
Proof.
  intros Hsha I P. pose proof (generate_block_plan_cases sha256 input registry block_id Hsha I P) as G.
  destruct (generate_block_plan sha256 input registry) as [[g|]|]; try done.
  destruct G as ((order & cells & hash & O & E) & G). split; [by rewrite E|]. split; [by rewrite E | done].
Qed.

(** A stand-in for the digest: a 16-bit polynomial checksum in the last bytes. *)
Definition sample_sha (message : list Z) : list Z :=
  let checksum := fold_left (fun acc byte => (acc * 31 + byte) mod 65536) message 7 in
  replicate 30 0 ++ [(checksum / 256) mod 256; checksum mod 256].

Lemma sample_sha_wf m : sha_wf (mkSha256 (sample_sha m)).
Proof.
  split; [done|]. cbn [sha_bytes]. unfold sample_sha. set (checksum := fold_left _ _ _).
  apply Forall_app. split; [by repeat constructor|].
  pose proof (Z.mod_pos_bound (checksum / 256) 256). pose proof (Z.mod_pos_bound checksum 256).
  repeat constructor; int_lia.
Qed.

Definition sample_ids (prefix : string) (n : nat) : list Identifier :=
  (fun i => prefix +:+ std_to_string (Z.of_nat i)) <$> seq 0 n.

Definition sample_catalog : BlockSeedCatalog :=
  mkBlockSeedCatalog BlockRole_h3_train "train" "block-0" (mkArtifactReference "derivation" (mkSha256 []))
    (mkPhiloxKey 1 2) (mkPhiloxKey 3 4) (mkPhiloxKey 5 6)
    (sample_ids "arrival-" 18) (sample_ids "node-" 6) (sample_ids "event-" 6).

Definition sample_registry : RoleNamespaceRegistry :=
  mkRoleNamespaceRegistry "stage-a"
    [mkRoleNamespaceBinding BlockRole_h3_train "train" "stage-a";
     mkRoleNamespaceBinding BlockRole_h3_validation "validation" "stage-a";
     mkRoleNamespaceBinding BlockRole_h1h2_supplemental "supplemental" "stage-a"].

(** A replacement of block 7. *)
Definition sample_input : BlockGenerationInput :=
  mkBlockGenerationInput "platform" "build" BlockRole_h3_train 8 sample_catalog
    (Some (mkReplacementPlanInput "stage-a-block-old" "authorization" 7 BlockRole_h3_train "block-7")).

Definition sample_block_id : Identifier :=
  match prepare_block_plan sample_sha sample_input sample_registry with
  | success id => id
  | failure _ => EmptyString
  end.

Lemma sample_input_ok : input_ok sample_input.
Proof.
  assert (F : forall l, forallb (fun s => has_value (decode_utf8 s)) l = true -> Forall valid_text l).
  { intros l. rewrite forallb_forall, List.Forall_forall. done. }
  split; [vm_compute; reflexivity..|apply F; vm_compute; reflexivity|apply F; vm_compute; reflexivity
    |apply F; vm_compute; reflexivity|cbn; int_lia|].
  intros r [= <-]. split; cbn [ri_replaced_block_id ri_replacement_authorization_id
    ri_replaced_seed_subspace_id ri_replaced_block_ordinal];
    [split; vm_compute; reflexivity..|int_lia|done|done].
Qed.

Lemma generate_block_plan_correct_witness :
  exists g, generate_block_plan sample_sha sample_input sample_registry = Returned (success g) /\
    cell_key <$> bp_cells (gp_plan g) ≡ₚ expected_stage_a_cells /\
    load_document_text DocumentKind_block_plan (gp_canonical_json g) =
    success (Record_block (gp_plan g)).
Proof.
  assert (R : match generate_block_plan sample_sha sample_input sample_registry with
    | Returned _ => true | Threw _ => false end = true) by (vm_compute; reflexivity).
  pose proof (generate_block_plan_correct sample_sha sample_input sample_registry sample_block_id
    sample_sha_wf sample_input_ok ltac:(vm_compute; reflexivity)) as G.
  destruct (generate_block_plan sample_sha sample_input sample_registry) as [[g|]|]; [|done|done].
  exists g. split; [done|]. destruct G as (_ & _ & K & _ & _ & L). by split.
Defined.

(** ** Validated plans *)

(** What the cell loop leaves when it reports nothing. *)
Lemma scan_cells_nil seeds cells : forall index scan,
  fst (scan_cells seeds index scan cells) = [] -> length (cs_by_ordinal scan) = 180%nat ->
  let last := snd (scan_cells seeds index scan cells) in
  cs_actual last = reverse (cell_key <$> cells) ++ cs_actual scan /\
  Forall (fun cell => exists index, cell_errors seeds index false false cell = []) cells /\
  (forall i cell, cs_by_ordinal scan !! i = Some (Some cell) -> cs_by_ordinal last !! i = Some (Some cell)) /\
  (forall cell, cell ∈ cells -> cs_by_ordinal last !! Z.to_nat (sc_cell_ordinal cell) = Some (Some cell)).
Proof.
  induction cells as [|cell cells IH]; intros index scan E L; [by split_and!; [|constructor|..]; set_solver|].
  cbn [scan_cells] in E |- *.
  set (taken := _ || _) in E |- *. set (next := mkCellScan _ _) in E |- *.
  specialize (IH (index + 1) next).
  destruct (scan_cells seeds (index + 1) next cells) as [errors last] eqn:S. cbn [fst snd] in *.
  apply app_nil in E as [E ->]. unfold cell_errors in E. cbv zeta in E. apply app_nil in E as [D E].
  apply error_when_nil in D. destruct taken eqn:T; [done|].
  apply orb_false_iff in T as [B T]. rewrite Z.geb_leb in B. apply Z.leb_gt in B. unfold kStageACells in B.
  destruct IH as (A & F & K & M); [done | unfold next; simpl; by rewrite length_insert|].
  assert (N : cs_by_ordinal next !! Z.to_nat (sc_cell_ordinal cell) = Some (Some cell))
    by (unfold next; simpl; apply list_lookup_insert_eq; lia).
  split_and!.
  - rewrite A. unfold next. cbn [cs_actual fmap list_fmap]. rewrite reverse_cons, <- app_assoc. done.
  - constructor; [|done]. exists index. unfold cell_errors. cbv zeta. simpl. exact E.
  - intros i c C. apply K. unfold next. cbn [cs_by_ordinal].
    rewrite list_lookup_insert_ne; [done|]. intros <-. by rewrite C in T.
  - intros c C. apply elem_of_cons in C as [->|C]; [by apply K | by apply M].
Qed.

Lemma ordinal_errors_states order cells : forall ordinal i cell,
  ordinal_errors order ordinal cells = [] -> cells !! i = Some (Some cell) ->
  sc_requested_hardware_state cell =
  if ordinal + Z.of_nat i <? kStageACellsPerWholePlot then fst order else snd order.
Proof.
  induction cells as [|c cells IH]; intros ordinal i cell E L; [done|].
  destruct c as [c|]; [|done]. cbn [ordinal_errors] in E.
  destruct (negb _) eqn:N; [done|]. apply negb_false_iff, bool_decide_eq_true in N.
  destruct i as [|i].
  - injection L as <-. by rewrite Z.add_0_r.
  - rewrite (IH (ordinal + 1) i cell E L). replace (ordinal + 1 + Z.of_nat i) with (ordinal + Z.of_nat (S i)) by lia. done.
Qed.

(** The seeds of a cell are those of its load and arena. *)
Definition cell_seeded (seeds : BlockSeedCatalog) (cell : StageACell) : Prop :=
  exists arrival arena,
    arrival_index (sc_placement cell) (sc_working_set_class cell) (sc_load_level cell) = Some arrival /\
    arena_index (sc_placement cell) (sc_working_set_class cell) = Some arena /\
    bs_arrival_seed_ids seeds !! Z.to_nat arrival = Some (sc_arrival_seed_ref cell) /\
    bs_event_seed_ids seeds !! Z.to_nat arena = Some (sc_event_seed_ref cell) /\
    sc_node_seed_ref cell = if linked (sc_package cell)
                            then bs_node_seed_ids seeds !! Z.to_nat arena else None.

Lemma cell_errors_seeded seeds index cell :
  cell_errors seeds index false false cell = [] -> cell_seeded seeds cell.
Proof.
  unfold cell_errors. cbv zeta. cbn [error_when app].
  destruct (arrival_index _ _ _) as [arrival|] eqn:A; [|done].
  destruct (arena_index _ _) as [arena|] eqn:B; [|done].
  destruct (negb _ || negb _ || negb _); [done|]. rewrite error_when_nil, negb_false_iff.
  unfold seeds_shared. rewrite !andb_true_iff, !bool_decide_eq_true. intros [[C D] E].
  exists arrival, arena. split_and!; try done. destruct (linked _).
  - destruct (sc_node_seed_ref cell); [|done]. by apply bool_decide_eq_true in E.
  - by destruct (sc_node_seed_ref cell).
Qed.

(** What [validate_block_plan] certifies. *)
Record plan_sound (sha256 : list Z -> list Z) (block : BlockPlan) (seeds : BlockSeedCatalog) : Prop := {
  so_block : block_sound block;
  so_keys : cell_key <$> bp_cells block ≡ₚ expected_stage_a_cells;
  so_plots : forall cell, cell ∈ bp_cells block ->
    sc_requested_hardware_state cell =
    if sc_cell_ordinal cell <? kStageACellsPerWholePlot
    then fst (bp_whole_plot_order block) else snd (bp_whole_plot_order block);
  so_seeds : Forall (cell_seeded seeds) (bp_cells block);
  so_id : make_block_id sha256 (bp_platform_id block) (bp_build_id block) (bp_block_role block)
            (bp_block_ordinal block) = success (bp_block_id block);
  so_role : bp_block_role block = bs_role seeds;
  so_subspace : bp_seed_subspace_id block = bs_block_subspace_id seeds;
  so_hash : verify_plan_hash sha256 block = true
}.

Lemma plan_validated sha256 block seeds registry :
  validate_block_plan sha256 block seeds registry = [] -> plan_sound sha256 block seeds.
Proof.
  unfold validate_block_plan.
  pose proof (scan_cells_nil seeds (bp_cells block) 0 initial_scan) as S.
  destruct (scan_cells seeds 0 initial_scan (bp_cells block)) as [errors scan]. cbn [fst snd] in S.
  rewrite !app_nil, !error_when_nil.
  intros (_ & V & _ & I & B & H & E & F & O & _ & _).
  destruct (S E eq_refl) as (A & C & _ & M). cbn [cs_actual initial_scan] in A. rewrite app_nil_r in A.
  apply block_valid in V. repeat rewrite ?orb_false_iff, ?negb_false_iff, ?bool_decide_eq_true in B.
  repeat rewrite ?orb_false_iff, ?negb_false_iff in F. apply negb_false_iff in H.
  destruct B as [B1 B2]. destruct F as ((F1 & F2) & F3).
  destruct (make_block_id _ _ _ _ _) as [id|] eqn:Eid; [|done].
  repeat rewrite ?orb_false_iff, ?negb_false_iff, ?bool_decide_eq_true in I. destruct I as ((-> & _) & _).
  split; try done.
  - rewrite <- reverse_Permutation, <- A. symmetry.
    assert (L : length (cs_actual scan) = length expected_stage_a_cells).
    { rewrite A, length_reverse, length_fmap. unfold size_is, kStageACells in F1.
      apply Z.eqb_eq in F1. change (length expected_stage_a_cells) with 180%nat. lia. }
    apply NoDup_same_elements; [apply expected_NoDup | | done | done].
    apply set_size_NoDup. rewrite L. by apply Z.eqb_eq.
  - intros cell K. destruct V as (_ & R & _).
    assert (U : 0 <= sc_cell_ordinal cell).
    { assert (K' : sc_cell_ordinal cell ∈ sc_cell_ordinal <$> bp_cells block) by (by apply list_elem_of_fmap_2).
      rewrite R in K'. apply list_elem_of_fmap in K' as (n & -> & _). lia. }
    rewrite (ordinal_errors_states _ _ _ _ _ O (M cell K)). by rewrite Z2Nat.id, Z.add_0_l.
  - eapply Forall_impl; [exact C|]. intros cell [index K]. by eapply cell_errors_seeded.
Qed.

(** What block validation certifies. A plan that [validate_block_plan]
    accepts is the complete registered product of the factors, each tuple once,
    at the ordinals 0 to 179; the hardware state of every cell is that of its
    whole plot; its arrival seed depends only on placement, working set and load
    and its event and node seeds only on placement and working set, as the seed
    catalog assigns them; its identity is the one derived from its fields and its
    self-hash is that of its document. Cells of two packages under the same
    conditions therefore share their seeds. *)
Theorem validate_block_plan_sound sha256 block seeds registry :
  validate_block_plan sha256 block seeds registry = [] ->
  plan_sound sha256 block seeds /\
  (forall a b, a ∈ bp_cells block -> b ∈ bp_cells block ->
   sc_placement a = sc_placement b -> sc_working_set_class a = sc_working_set_class b ->
   sc_event_seed_ref a = sc_event_seed_ref b /\
   (sc_load_level a = sc_load_level b -> sc_arrival_seed_ref a = sc_arrival_seed_ref b) /\
   (linked (sc_package a) = linked (sc_package b) -> sc_node_seed_ref a = sc_node_seed_ref b)).
Proof.
  intros V. apply plan_validated in V. split; [done|]. intros a b Ha Hb P W.
  pose proof (so_seeds _ _ _ V) as S. rewrite Forall_forall in S.
  destruct (S a Ha) as (ra & na & Ra & Na & Aa & Ea & Da), (S b Hb) as (rb & nb & Rb & Nb & Ab & Eb & Db).
  rewrite P, W, Nb in Na. injection Na as <-. split_and!.
  - congruence.
  - intros L. rewrite P, W, L in Ra. congruence.
  - intros L. by rewrite Da, Db, L.
Qed.

Definition sample_plan : option BlockPlan :=
  match generate_block_plan sample_sha sample_input sample_registry with
  | Returned (success g) => Some (gp_plan g)
  | _ => None
  end.

Lemma validate_block_plan_sound_witness :
  exists plan, sample_plan = Some plan /\
    validate_block_plan sample_sha plan sample_catalog sample_registry = [] /\
    plan_sound sample_sha plan sample_catalog.
Proof.
  assert (R : match sample_plan with
    | Some plan => validate_block_plan sample_sha plan sample_catalog sample_registry = []
    | None => False end) by (vm_compute; reflexivity).
  destruct sample_plan as [plan|]; [|done]. exists plan. split; [done|]. split; [done|].
  by apply (validate_block_plan_sound sample_sha plan sample_catalog sample_registry).
Defined.

(** ** Pools *)

Lemma seed_reuse_nil seeds : forall seen,
  fst (seed_reuse seen seeds) = [] ->
  NoDup seeds /\ (forall s, s ∈ seeds -> s ∉ seen) /\
  (forall s, s ∈ snd (seed_reuse seen seeds) <-> s ∈ seeds \/ s ∈ seen).
Proof.
  induction seeds as [|seed seeds IH]; intros seen; simpl.
  { intros _. split_and!; [constructor | set_solver | set_solver]. }
  destruct (seed_reuse (seed :: seen) seeds) as [errors all] eqn:E. simpl.
  rewrite app_nil, error_when_nil, bool_decide_eq_false. intros [D R].
  destruct (IH (seed :: seen)) as (N & F & A); [by rewrite E|]. rewrite E in A. simpl in A. split_and!.
  - constructor; [|done]. intros H. by apply F in H; set_solver.
  - intros s Hs. apply elem_of_cons in Hs as [->|Hs]; [done|]. apply F in Hs. set_solver.
  - intros s. rewrite A. set_solver.
Qed.

Definition catalog_seeds (seeds : BlockSeedCatalog) : list Identifier :=
  bs_arrival_seed_ids seeds ++ bs_node_seed_ids seeds ++ bs_event_seed_ids seeds.

(** The plans whose first whole plot is in a state. *)
Definition first_count (state : RequestedHardwareState) (blocks : list BlockPlan) : Z :=
  Z.of_nat (length (filter (fun block => fst (bp_whole_plot_order block) = state) blocks)).

(** The values of a pool are distinct and none was seen before. *)
Definition fresh {A : Type} (seen values : list A) : Prop :=
  NoDup values /\ forall x, x ∈ values -> x ∉ seen.

Lemma fresh_cons {A : Type} (x : A) seen seen' values :
  x ∉ seen -> (forall y, y ∈ seen' <-> y = x \/ y ∈ seen) -> fresh seen' values -> fresh seen (x :: values).
Proof.
  intros X S [N F]. split.
  - constructor; [|done]. intros H. apply F in H. apply H, S. by left.
  - intros y Hy. apply elem_of_cons in Hy as [->|Hy]; [done|]. apply F in Hy. intros K. apply Hy, S. by right.
Qed.

Lemma fresh_app {A : Type} (l : list A) seen seen' values :
  NoDup l -> (forall x, x ∈ l -> x ∉ seen) -> (forall y, y ∈ seen' <-> y ∈ l \/ y ∈ seen) ->
  fresh seen' values -> fresh seen (l ++ values).
Proof.
  intros L D S [N F]. split.
  - apply NoDup_app. split_and!; [done| |done]. intros x Hx K. apply F in K. apply K, S. by left.
  - intros x Hx. apply elem_of_app in Hx as [Hx|Hx]; [by apply D|].
    apply F in Hx. intros K. apply Hx, S. by right.
Qed.

Section Pool.
Context (sha256 : list Z -> list Z) (registry : RoleNamespaceRegistry).

Record pool_scanned (scan last : PoolScan) (pool : list (BlockPlan * BlockSeedCatalog)) : Prop := {
  pool_plans : Forall (fun entry => validate_block_plan sha256 (fst entry) (snd entry) registry = []) pool;
  pool_ids : fresh (ps_block_ids scan) (bp_block_id ∘ fst <$> pool);
  pool_ordinals : fresh (ps_ordinals scan) (bp_block_ordinal ∘ fst <$> pool);
  pool_subspaces : fresh (ps_subspaces scan) (bs_block_subspace_id ∘ snd <$> pool);
  pool_seeds : fresh (ps_seed_ids scan) (mjoin (catalog_seeds ∘ snd <$> pool));
  pool_roles : ps_roles last = reverse (bp_block_role ∘ fst <$> pool) ++ ps_roles scan;
  pool_h0 : ps_h0_first last =
    ps_h0_first scan + first_count RequestedHardwareState_h0 (fst <$> pool);
  pool_h1 : ps_h1_first last =
    ps_h1_first scan + first_count RequestedHardwareState_h1 (fst <$> pool)
}.

Lemma fresh_nil {A : Type} (seen : list A) : fresh seen [].
Proof. split; [constructor | set_solver]. Qed.

Lemma first_count_cons state block blocks :
  first_count state (block :: blocks) =
  (if bool_decide (fst (bp_whole_plot_order block) = state) then 1 else 0) + first_count state blocks.
Proof. unfold first_count. rewrite filter_cons. case_decide; case_bool_decide; simpl; (done || lia). Qed.

Lemma scan_pool_nil pool : forall index scan,
  fst (scan_pool sha256 registry index scan pool) = [] ->
  pool_scanned scan (snd (scan_pool sha256 registry index scan pool)) pool.
Proof.
  induction pool as [|[block seeds] pool IH]; intros index scan.
  { intros _. split; simpl; try apply fresh_nil; [constructor | done | |]; unfold first_count; simpl; lia. }
  cbn [scan_pool].
  destruct (pool_identity scan block seeds) as [duplicate [[ids ordinals] subspaces]] eqn:I.
  pose proof (seed_reuse_nil (catalog_seeds seeds) (ps_seed_ids scan)) as R. unfold catalog_seeds in R.
  destruct (seed_reuse _ _) as [reuse seen]. cbn [fst snd] in R.
  set (next := mkPoolScan _ _ _ _ _ _ _). specialize (IH (index + 1) next).
  destruct (scan_pool sha256 registry (index + 1) next pool) as [errors last]. cbn [fst snd] in *.
  rewrite !app_nil, error_when_nil. intros (V & -> & -> & E). destruct (R eq_refl) as (N & F & S).
  destruct (IH E) as [P1 P2 P3 P4 P5 P6 P7 P8]. unfold pool_identity in I.
  destruct (bool_decide (bp_block_id block ∈ ps_block_ids scan)) eqn:D1; [done|].
  destruct (bool_decide (bp_block_ordinal block ∈ ps_ordinals scan)) eqn:D2; [done|].
  injection I as D3 <- <- <-. apply bool_decide_eq_false in D1, D2, D3.
  unfold next in *. cbn [ps_block_ids ps_ordinals ps_subspaces ps_seed_ids ps_roles ps_h0_first
    ps_h1_first] in *.
  split; cbn [fmap list_fmap mjoin list_join].
  - by constructor.
  - eapply fresh_cons; [done | | exact P2]. intros y. apply elem_of_cons.
  - eapply fresh_cons; [done | | exact P3]. intros y. apply elem_of_cons.
  - eapply fresh_cons; [done | | exact P4]. intros y. apply elem_of_cons.
  - eapply (fresh_app (catalog_seeds seeds)); [done | done | exact S | exact P5].
  - rewrite P6, reverse_cons, <- app_assoc. done.
  - rewrite P7. rewrite first_count_cons. simpl. lia.
  - rewrite P8. rewrite first_count_cons. simpl. lia.
Qed.

Lemma role_count_reverse roles role : role_count (reverse roles) role = role_count roles role.
Proof. unfold role_count. by rewrite reverse_Permutation. Qed.

Lemma zip_sound blocks : forall seed_catalogs, length seed_catalogs = length blocks ->
  Forall (fun entry => validate_block_plan sha256 (fst entry) (snd entry) registry = [])
    (zip blocks seed_catalogs) ->
  Forall2 (plan_sound sha256) blocks seed_catalogs /\
  bp_seed_subspace_id <$> blocks = bs_block_subspace_id <$> seed_catalogs.
Proof.
  induction blocks as [|block blocks IH]; intros [|seeds seed_catalogs] L F; try done.
  simpl in L, F. apply Forall_cons in F as [V F]. destruct (IH seed_catalogs) as [A B]; [lia|done|].
  apply plan_validated in V. split; [by constructor|]. cbn. f_equal; [by destruct V | exact B].
Qed.

Lemma pool_validated blocks seed_catalogs train validation supplemental :
  is_u64 train -> is_u64 validation -> is_u64 supplemental ->
  validate_block_pool sha256 blocks seed_catalogs registry train validation supplemental = [] ->
  Z.of_nat (length blocks) = train + validation + supplemental /\
  Forall2 (plan_sound sha256) blocks seed_catalogs /\
  NoDup (bp_block_id <$> blocks) /\ NoDup (bp_block_ordinal <$> blocks) /\
  NoDup (bp_seed_subspace_id <$> blocks) /\ NoDup (mjoin (catalog_seeds <$> seed_catalogs)) /\
  role_count (bp_block_role <$> blocks) BlockRole_h3_train = train /\
  role_count (bp_block_role <$> blocks) BlockRole_h3_validation = validation /\
  role_count (bp_block_role <$> blocks) BlockRole_h1h2_supplemental = supplemental /\
  Z.abs (first_count RequestedHardwareState_h0 blocks -
         first_count RequestedHardwareState_h1 blocks) <= 1.
Proof.
  intros Ut Uv Us. unfold validate_block_pool.
  destruct (train >? _); [done|]. destruct (train + validation >? _); [done|].
  pose proof (scan_pool_nil (zip blocks seed_catalogs) 0 (mkPoolScan [] [] [] [] [] 0 0)) as S.
  destruct (scan_pool _ _ _ _ _) as [errors scan]. cbn [fst snd] in S.
  rewrite !app_nil, !error_when_nil. intros (L & E & C & B). destruct (S E) as [P I O U D R H0 H1].
  cbn [ps_roles ps_h0_first ps_h1_first] in *. rewrite app_nil_r in R.
  repeat rewrite ?orb_false_iff, ?negb_false_iff in L. destruct L as [L1 L2].
  apply Z.eqb_eq in L1. apply Nat.eqb_eq in L2.
  assert (Zf : fst <$> zip blocks seed_catalogs = blocks) by (apply fst_zip; lia).
  assert (Zs : snd <$> zip blocks seed_catalogs = seed_catalogs) by (apply snd_zip; lia).
  rewrite list_fmap_compose, ?Zf in I, O, R. rewrite list_fmap_compose, Zs in U, D.
  rewrite Zf in H0, H1. destruct (zip_sound _ _ L2 P) as [Q Sub].
  repeat rewrite ?orb_false_iff, ?negb_false_iff, ?Z.eqb_eq in C. rewrite R in C.
  rewrite !role_count_reverse in C. rewrite H0, H1, Z.gtb_ltb in B. apply Z.ltb_ge in B.
  rewrite Sub. destruct C as ((C1 & C2) & C3). rewrite !Z.add_0_l in B.
  split_and!; (done || apply I || apply O || apply U || apply D).
Qed.

(** What pool validation certifies. An accepted pool has exactly the
    prospective number of plans of each role, every plan of it is a validated
    plan with the catalog it comes with, no block identity, ordinal, seed
    subspace or seed identity occurs twice anywhere in the pool, and the plans
    that begin with either hardware state are counterbalanced to within one. *)
Theorem validate_block_pool_sound blocks seed_catalogs train validation supplemental :
  is_u64 train -> is_u64 validation -> is_u64 supplemental ->
  validate_block_pool sha256 blocks seed_catalogs registry train validation supplemental = [] ->
  Z.of_nat (length blocks) = train + validation + supplemental /\
  Forall2 (plan_sound sha256) blocks seed_catalogs /\
  NoDup (bp_block_id <$> blocks) /\ NoDup (bp_block_ordinal <$> blocks) /\
  NoDup (bp_seed_subspace_id <$> blocks) /\ NoDup (mjoin (catalog_seeds <$> seed_catalogs)) /\
  role_count (bp_block_role <$> blocks) BlockRole_h3_train = train /\
  role_count (bp_block_role <$> blocks) BlockRole_h3_validation = validation /\
  role_count (bp_block_role <$> blocks) BlockRole_h1h2_supplemental = supplemental /\
  Z.abs (first_count RequestedHardwareState_h0 blocks -
         first_count RequestedHardwareState_h1 blocks) <= 1.
Proof. apply pool_validated. Qed.
End Pool.

Lemma validate_block_pool_sound_witness :
  exists plan, sample_plan = Some plan /\
    validate_block_pool sample_sha [plan] [sample_catalog] sample_registry 1 0 0 = [] /\
    NoDup (mjoin (catalog_seeds <$> [sample_catalog])).
Proof.
  assert (R : match sample_plan with
    | Some plan => validate_block_pool sample_sha [plan] [sample_catalog] sample_registry 1 0 0 = []
    | None => False end) by (vm_compute; reflexivity).
  destruct sample_plan as [plan|]; [|done]. exists plan. split; [done|]. split; [done|].
  apply (validate_block_pool_sound sample_sha sample_registry [plan] [sample_catalog] 1 0 0);
    [int_lia..|done].
Defined.
