(* ===== verification/Precision.v ===== *)
(** * Prospective precision

    Models [include/cpu_prefetch/orchestration/precision.hpp] and
    [src/orchestration/precision.cpp]: the registered contrasts and comparison
    families, the comparisons that are reported for a selection, and the
    evaluation of a prospective precision plan. A [std::map] from contexts is the
    association list of its entries. *)

From stdpp Require Import prelude list strings.
From Stdlib Require Import ZArith Lia.
From S2P Require Import Prelude Validation Model Json Documents Load SemanticRecords BlockPlanning.

#[local] Open Scope Z_scope.
#[local] Open Scope result_scope.

(** ** Data *)

Definition kH1ContrastCount : Z := 7.
Definition kH2ContrastCount : Z := 20.
Definition kH3ContextCount : Z := 6.
Definition kH3CandidateCount : Z := 10.
Definition kH3TrainingPairCount : Z := 270.
Definition kH3ValidationFamilyCount : Z := 540.
Definition kH3ReportedComparisonCount : Z := 54.
Definition kH3SelectionRuleId : string := "H3-MEAN-LOG-P999-MIN-CANDIDATE-ORDER-v1".

Inductive PrecisionState : Set :=
| PrecisionState_not_evaluated
| PrecisionState_resolved
| PrecisionState_infeasible.

Record ProspectiveCounts : Set := mkProspectiveCounts {
  pc_r_h1 : Z;
  pc_r_h2 : Z;
  pc_r12 : Z;
  pc_rtrain : Z;
  pc_rval : Z;
  pc_rtotal : Z;
  pc_nruns : Z
}.

Record ProspectivePrecisionEvidence : Set := mkProspectivePrecisionEvidence {
  pe_delta_star : ArtifactReference;
  pe_bootstrap_configuration : ArtifactReference;
  pe_h1_sizing : ArtifactReference;
  pe_h2_sizing : ArtifactReference;
  pe_h3_training_sizing : ArtifactReference;
  pe_h3_validation_sizing : ArtifactReference;
  pe_input_artifacts : list AccessInputArtifact
}.

Record PrecisionPlanInput : Set := mkPrecisionPlanInput {
  pp_counts : option ProspectiveCounts;
  pp_evidence : option ProspectivePrecisionEvidence
}.

Record RoleCounts : Set := mkRoleCounts {
  rc_h3_train : Z;
  rc_h3_validation : Z;
  rc_h1h2_supplemental : Z
}.

Record PrecisionResult : Set := mkPrecisionResult {
  pz_state : PrecisionState;
  pz_counts : option ProspectiveCounts;
  pz_role_counts : option RoleCounts;
  pz_evidence : option ProspectivePrecisionEvidence;
  pz_blockers : list string
}.

Record H3Comparison : Set := mkH3Comparison {
  hc_context : H3Context;
  hc_left : H3Candidate;
  hc_right : H3Candidate
}.

#[export] Instance H3Comparison_eq_dec : EqDecision H3Comparison.
Proof. solve_decision. Defined.

#[export] Instance PrecisionState_eq_dec : EqDecision PrecisionState.
Proof. solve_decision. Defined.

(** ** Families *)

Definition h1_contrast_ids : list string :=
  ["H1-SW-R1"; "H1-SW-R2"; "H1-HQ"; "H1-HS-R1"; "H1-HS-R2"; "H1-HS-L1"; "H1-R12"].

Definition h2_contrast_ids : list string :=
  ["H2-P-H"; "H2-P-R1"; "H2-P-R2"; "H2-P-L1"; "H2-W12-H"; "H2-W12-R1"; "H2-W12-R2"; "H2-W12-L1";
   "H2-W23-H"; "H2-W23-R1"; "H2-W23-R2"; "H2-W23-L1"; "H2-A12-H"; "H2-A12-R1"; "H2-A12-R2";
   "H2-A12-L1"; "H2-A23-H"; "H2-A23-R1"; "H2-A23-R2"; "H2-A23-L1"].

Definition h3_contexts : list H3Context :=
  [H3Context_near_l2_l050; H3Context_near_llc_l050; H3Context_near_beyond_llc_l050;
   H3Context_far_l2_l050; H3Context_far_llc_l050; H3Context_far_beyond_llc_l050].

Definition h3_candidates : list H3Candidate :=
  package ← packages; state ← states; [mkH3Candidate package state].

Definition candidate_equal (a b : H3Candidate) : bool :=
  bool_decide (h3_package a = h3_package b) &&
  bool_decide (h3_requested_hardware_state a = h3_requested_hardware_state b).

Definition h3_candidate_valid (candidate : H3Candidate) : bool :=
  existsb (candidate_equal candidate) h3_candidates.

(** The pairs of positions [left < right] of a list. *)
Fixpoint ordered_pairs {A : Type} (l : list A) : list (A * A) :=
  match l with
  | [] => []
  | x :: rest => ((fun y => (x, y)) <$> rest) ++ ordered_pairs rest
  end.

Definition h3_training_pairs : list H3Comparison :=
  context ← h3_contexts;
  (fun pair => mkH3Comparison context (fst pair) (snd pair)) <$> ordered_pairs h3_candidates.

(** The loops over two positions [left != right]. *)
Definition h3_validation_family : list H3Comparison :=
  context ← h3_contexts; x ← zip (seq 0 (length h3_candidates)) h3_candidates;
  y ← zip (seq 0 (length h3_candidates)) h3_candidates;
  if (fst x =? fst y)%nat then [] else [mkH3Comparison context (snd x) (snd y)].

(** [selections.find(context)]. *)
Definition selection_find (context : H3Context) (selections : list (H3Context * H3Candidate)) :
    option H3Candidate :=
  snd <$> find (fun entry => bool_decide (fst entry = context)) selections.

(** One registered candidate for each context. *)
Definition selections_exact (selections : list (H3Context * H3Candidate)) : bool :=
  size_is selections (Z.of_nat (length h3_contexts)) &&
  forallb (fun context =>
    match selection_find context selections with
    | Some candidate => h3_candidate_valid candidate
    | None => false
    end) h3_contexts.

Definition h3_reported_comparisons (selections : list (H3Context * H3Candidate)) :
    Result (list H3Comparison) :=
  if negb (selections_exact selections) then
    fail_with ErrorCategory_cross_field "$/h3_selections" "H3-EXACT-SIX-SELECTIONS"
      "reporting requires one registered candidate for each of six stable contexts"
  else
    success (context ← h3_contexts; selected ← option_list (selection_find context selections);
             alternative ← h3_candidates;
             if candidate_equal selected alternative then []
             else [mkH3Comparison context selected alternative]).

(** ** The precision plan *)

Definition evidence_valid (evidence : ArtifactReference) : bool := opaque (ar_artifact_id evidence).

(** The references in order, each valid and none named before. *)
Fixpoint references_distinct (ids : list string) (references : list ArtifactReference) : bool :=
  match references with
  | [] => true
  | value :: rest =>
      evidence_valid value && negb (bool_decide (ar_artifact_id value ∈ ids)) &&
      references_distinct (ar_artifact_id value :: ids) rest
  end.

Definition sizing_references (evidence : ProspectivePrecisionEvidence) : list ArtifactReference :=
  [pe_delta_star evidence; pe_bootstrap_configuration evidence; pe_h1_sizing evidence;
   pe_h2_sizing evidence; pe_h3_training_sizing evidence; pe_h3_validation_sizing evidence].

Definition prospective_class (access_class : AccessClass) : bool :=
  match access_class with
  | AccessClass_treatment_blind | AccessClass_public_protocol | AccessClass_platform_evidence => true
  | _ => false
  end.

(** The position of the first source that is not prospective evidence. *)
Fixpoint first_outcome_source (index : Z) (sources : list AccessInputArtifact) : option Z :=
  match sources with
  | [] => None
  | source :: rest =>
      if negb (evidence_valid (ai_artifact source)) || negb (prospective_class (ai_access_class source))
      then Some index
      else first_outcome_source (index + 1) rest
  end.

(** The end of [evaluate_precision_plan], once the counts are known to be
    consistent. *)
Definition conclude_precision (counts : ProspectiveCounts) (evidence : ProspectivePrecisionEvidence) :
    Result PrecisionResult :=
  let train_and_validation := u64_add (pc_rtrain counts) (pc_rval counts) in
  let roles :=
    mkRoleCounts (pc_rtrain counts) (pc_rval counts)
      (if pc_r12 counts >? train_and_validation
       then u64_sub (pc_r12 counts) train_and_validation else 0) in
  if (pc_r_h1 counts >? 30) || (pc_r_h2 counts >? 30) then
    success (mkPrecisionResult PrecisionState_infeasible (Some counts) (Some roles) (Some evidence)
               ["an H1 or H2 requirement exceeds the frozen go/no-go ceiling of 30"])
  else if negb (size_is h1_contrast_ids kH1ContrastCount) ||
          negb (size_is h2_contrast_ids kH2ContrastCount) ||
          negb (size_is h3_training_pairs kH3TrainingPairCount) ||
          negb (size_is h3_validation_family kH3ValidationFamilyCount) then
    fail_with ErrorCategory_cross_field "$/precision/registries" "PRECISION-REGISTRY-INTERNAL"
      "registered family cardinality is inconsistent"
  else success (mkPrecisionResult PrecisionState_resolved (Some counts) (Some roles) (Some evidence) []).

Definition evaluate_counts (counts : ProspectiveCounts) (evidence : ProspectivePrecisionEvidence) :
    Result PrecisionResult :=
  if (pc_r_h1 counts <? 20) || (pc_r_h2 counts <? 20) || (pc_rtrain counts <? 12) ||
     (pc_rval counts <? 8) then
    fail_with ErrorCategory_out_of_range "$/precision/counts" "PRECISION-MINIMA"
      "H1/H2 require at least 20 blocks, H3 training 12, and validation 8"
  else if negb (pc_r12 counts =? Z.max (pc_r_h1 counts) (pc_r_h2 counts)) then
    fail_with ErrorCategory_cross_field "$/precision/counts/r12" "PRECISION-R12"
      "R12 must equal max(R_H1,R_H2) with separate families"
  else if pc_rtrain counts >? u64_sub u64_max (pc_rval counts) then
    fail_with ErrorCategory_out_of_range "$/precision/counts" "PRECISION-COUNT-OVERFLOW"
      "Rtrain+Rval overflows u64"
  else
    let train_and_validation := u64_add (pc_rtrain counts) (pc_rval counts) in
    let expected_total := Z.max (pc_r12 counts) train_and_validation in
    if negb (pc_rtotal counts =? expected_total) then
      fail_with ErrorCategory_cross_field "$/precision/counts/rtotal" "PRECISION-RTOTAL"
        "Rtotal must equal max(R12,Rtrain+Rval) without outcome-based resizing"
    else if (pc_rtotal counts >? u64_max / kStageACells) ||
            negb (pc_nruns counts =? u64_mul (pc_rtotal counts) kStageACells) then
      fail_with ErrorCategory_cross_field "$/precision/counts/nruns" "PRECISION-NRUNS"
        "Nruns must equal checked 180*Rtotal"
    else conclude_precision counts evidence.

Definition evaluate_precision_plan (input : PrecisionPlanInput) : Result PrecisionResult :=
  match pp_counts input, pp_evidence input with
  | Some counts, Some evidence =>
      if negb (references_distinct [] (sizing_references evidence)) then
        fail_with ErrorCategory_missing_evidence "$/precision/evidence" "PRECISION-EVIDENCE-EXACT"
          "delta, bootstrap, separate H1/H2, and separate H3 sizing evidence must be distinct and immutable"
      else if negb (nonempty (pe_input_artifacts evidence)) then
        fail_with ErrorCategory_missing_evidence "$/precision/input_artifacts"
          "PRECISION-PROSPECTIVE-SOURCES"
          "prospective sizing must name treatment-blind input evidence"
      else
        match first_outcome_source 0 (pe_input_artifacts evidence) with
        | Some index =>
            fail_with ErrorCategory_cross_field
              ("$/precision/input_artifacts/" +:+ std_to_string index) "PRECISION-NO-OUTCOME-ACCESS"
              "training, validation, or unsealed outcomes cannot size any precision family"
        | None => evaluate_counts counts evidence
        end
  | _, _ =>
      success (mkPrecisionResult PrecisionState_not_evaluated None None None
                 ["prospective precision counts and immutable evidence are required"])
  end.

(** ** Theorems *)

Lemma candidate_equal_iff a b : candidate_equal a b = true <-> a = b.
Proof.
  unfold candidate_equal. rewrite andb_true_iff, !bool_decide_eq_true.
  destruct a, b; simpl. split; [intros [-> ->]; done | by intros [= -> ->]].
Qed.

Lemma candidate_valid_iff c : h3_candidate_valid c = true <-> c ∈ h3_candidates.
Proof.
  unfold h3_candidate_valid. rewrite existsb_exists. split.
  - intros (d & D & E). apply candidate_equal_iff in E as ->. by apply list_elem_of_In.
  - intros H. exists c. split; [by apply list_elem_of_In | by apply candidate_equal_iff].
Qed.

(** The comparisons of one context. *)
Definition context_comparisons (context : H3Context) (selected : H3Candidate) : list H3Comparison :=
  alternative ← h3_candidates;
  if candidate_equal selected alternative then [] else [mkH3Comparison context selected alternative].

Lemma context_comparisons_exact context selected :
  selected ∈ h3_candidates ->
  length (context_comparisons context selected) = 9%nat /\
  NoDup (context_comparisons context selected) /\
  (forall c, c ∈ context_comparisons context selected -> c ∈ h3_validation_family /\ hc_context c = context).
Proof.
  intros H.
  assert (E : forall context selected, (length (context_comparisons context selected) =? 9)%nat &&
      bool_decide (NoDup (context_comparisons context selected)) &&
      forallb (fun c => bool_decide (c ∈ h3_validation_family) && bool_decide (hc_context c = context))
        (context_comparisons context selected) = true ->
    length (context_comparisons context selected) = 9%nat /\
    NoDup (context_comparisons context selected) /\
    (forall c, c ∈ context_comparisons context selected -> c ∈ h3_validation_family /\ hc_context c = context)).
  { intros ctx sel. rewrite !andb_true_iff, Nat.eqb_eq, bool_decide_eq_true, forallb_forall.
    intros [[L N] F]. split_and!; try done. intros c C. apply list_elem_of_In in C.
    specialize (F c C). by rewrite andb_true_iff, !bool_decide_eq_true in F. }
  apply E. clear E. revert selected H.
  assert (A : Forall (fun selected => (length (context_comparisons context selected) =? 9)%nat &&
      bool_decide (NoDup (context_comparisons context selected)) &&
      forallb (fun c => bool_decide (c ∈ h3_validation_family) && bool_decide (hc_context c = context))
        (context_comparisons context selected) = true) h3_candidates)
    by (destruct context; apply (bool_decide_unpack _); vm_compute; done).
  by apply Forall_forall.
Qed.

Lemma comparisons_of_contexts (pick : H3Context -> option H3Candidate) contexts :
  NoDup contexts ->
  (forall context, context ∈ contexts -> exists c, pick context = Some c /\ c ∈ h3_candidates) ->
  let comparisons :=
    context ← contexts; selected ← option_list (pick context); context_comparisons context selected in
  length comparisons = (9 * length contexts)%nat /\ NoDup comparisons /\
  (forall c, c ∈ comparisons -> c ∈ h3_validation_family /\ hc_context c ∈ contexts).
Proof.
  induction contexts as [|context contexts IH]; intros N P; cbv zeta.
  { split_and!; [done | constructor | set_solver]. }
  apply NoDup_cons in N as [Nc N]. destruct IH as (L & D & F); [done | intros; apply P; set_solver|].
  destruct (P context) as (selected & E & V); [set_solver|].
  destruct (context_comparisons_exact context selected V) as (L' & D' & F'). rewrite bind_cons, E.
  change (option_list (Some selected)) with [selected]. rewrite bind_singleton. split_and!.
  - rewrite length_app, L', L. simpl. lia.
  - apply NoDup_app. split_and!; [done| |done]. intros c C C'. apply F' in C as [_ C].
    apply F in C' as [_ C']. congruence.
  - intros c C. apply elem_of_app in C as [C|C].
    + apply F' in C as [C <-]. set_solver.
    + apply F in C. set_solver.
Qed.

Lemma selection_found context selections :
  selections_exact selections = true -> context ∈ h3_contexts ->
  exists c, selection_find context selections = Some c /\ c ∈ h3_candidates.
Proof.
  unfold selections_exact. rewrite andb_true_iff, forallb_forall. intros [_ F] C.
  apply list_elem_of_In in C. specialize (F context C).
  destruct (selection_find context selections) as [c|]; [|done]. exists c. split; [done|].
  by apply candidate_valid_iff.
Qed.

Lemma selection_find_lookup context candidate selections :
  NoDup (fst <$> selections) -> (context, candidate) ∈ selections ->
  selection_find context selections = Some candidate.
Proof.
  unfold selection_find. induction selections as [|[k c] selections IH]; simpl; [set_solver|].
  intros N H. apply NoDup_cons in N as [K N]. case_bool_decide as E; simpl.
  - apply elem_of_cons in H as [[= -> ->]|H]; [done|]. subst k. exfalso. apply K.
    by apply (list_elem_of_fmap_2 fst) in H.
  - apply elem_of_cons in H as [[= -> ->]|H]; [done|]. by apply IH.
Qed.

Lemma elem_of_option_list {A} (x : A) o : x ∈ option_list o <-> o = Some x.
Proof. destruct o; simpl; [rewrite list_elem_of_singleton; naive_solver | set_solver]. Qed.

Lemma family_sound c : c ∈ h3_validation_family ->
  hc_context c ∈ h3_contexts /\ hc_left c ∈ h3_candidates /\ hc_right c ∈ h3_candidates /\
  hc_left c <> hc_right c.
Proof.
  revert c. apply Forall_forall. apply (bool_decide_unpack _). vm_compute. done.
Qed.

(** The H3 report covers exactly the registered comparisons of its
    selection: when the six contexts have one registered candidate each, there
    are 54 distinct comparisons, and they are those of the 540-member validation
    family whose left side is the candidate selected for its context. *)
Theorem reported_comparisons_exact selections comparisons :
  NoDup (fst <$> selections) ->
  h3_reported_comparisons selections = success comparisons ->
  Z.of_nat (length comparisons) = kH3ReportedComparisonCount /\ NoDup comparisons /\
  (forall c, c ∈ comparisons <->
     c ∈ h3_validation_family /\ (hc_context c, hc_left c) ∈ selections).
Proof.
  intros K. unfold h3_reported_comparisons. destruct (selections_exact selections) eqn:X; [|done].
  cbn [negb]. set (reported := mbind _ h3_contexts). intros E.
  assert (comparisons = reported) as -> by congruence. clear E. subst reported.
  pose proof (comparisons_of_contexts (fun context => selection_find context selections) h3_contexts
    ltac:(apply (bool_decide_unpack _); vm_compute; done)
    (fun context => selection_found context selections X)) as (L & D & F).
  split_and!; [exact (f_equal Z.of_nat L) | exact D |]. intros c. split.
  - intros C. split; [by apply F|]. apply list_elem_of_bind in C as (context & C & _).
    apply list_elem_of_bind in C as (selected & C & S). rewrite elem_of_option_list in S.
    apply list_elem_of_bind in C as (alternative & C & _).
    destruct (candidate_equal selected alternative); [set_solver|].
    apply list_elem_of_singleton in C as ->. cbn [hc_context hc_left].
    unfold selection_find in S. destruct (find _ selections) as [[k s]|] eqn:E; [|done].
    injection S as ->. apply find_some in E as [E B]. apply bool_decide_eq_true in B as <-.
    by apply list_elem_of_In.
  - intros [V S]. apply family_sound in V as (Vc & Vl & Vr & N).
    apply list_elem_of_bind. exists (hc_context c). split; [|done].
    apply list_elem_of_bind. exists (hc_left c).
    split; [|rewrite elem_of_option_list; by apply selection_find_lookup].
    apply list_elem_of_bind. exists (hc_right c). split; [|done].
    destruct (candidate_equal _ _) eqn:E; [by apply candidate_equal_iff in E|].
    apply list_elem_of_singleton. by destruct c.
Qed.

Definition sample_selections : list (H3Context * H3Candidate) :=
  (fun context => (context, mkH3Candidate QueuePackage_r1 RequestedHardwareState_h0)) <$> h3_contexts.

Lemma reported_comparisons_exact_witness :
  exists comparisons, h3_reported_comparisons sample_selections = success comparisons /\
    Z.of_nat (length comparisons) = kH3ReportedComparisonCount.
Proof.
  eexists. split; [vm_compute; reflexivity|].
  eapply (reported_comparisons_exact sample_selections);
    [apply (bool_decide_unpack _); vm_compute; done | vm_compute; reflexivity].
Defined.

(** *** Counts *)

Definition counts_ok (counts : ProspectiveCounts) : Prop :=
  20 <= pc_r_h1 counts /\ 20 <= pc_r_h2 counts /\ 12 <= pc_rtrain counts /\ 8 <= pc_rval counts /\
  pc_r12 counts = Z.max (pc_r_h1 counts) (pc_r_h2 counts) /\
  pc_rtotal counts = Z.max (pc_r12 counts) (pc_rtrain counts + pc_rval counts) /\
  pc_nruns counts = kStageACells * pc_rtotal counts.

Definition counts_u64 (counts : ProspectiveCounts) : Prop :=
  is_u64 (pc_r_h1 counts) /\ is_u64 (pc_r_h2 counts) /\ is_u64 (pc_r12 counts) /\
  is_u64 (pc_rtrain counts) /\ is_u64 (pc_rval counts) /\ is_u64 (pc_rtotal counts) /\
  is_u64 (pc_nruns counts).

Definition evidence_ok (evidence : ProspectivePrecisionEvidence) : Prop :=
  NoDup (ar_artifact_id <$> sizing_references evidence) /\
  Forall (fun reference => opaque (ar_artifact_id reference) = true) (sizing_references evidence) /\
  pe_input_artifacts evidence <> [] /\
  Forall (fun source => opaque (ar_artifact_id (ai_artifact source)) = true /\
                        prospective_class (ai_access_class source) = true)
    (pe_input_artifacts evidence).

Lemma references_distinct_iff references : forall ids,
  references_distinct ids references = true <->
  NoDup (ar_artifact_id <$> references) /\
  Forall (fun reference => opaque (ar_artifact_id reference) = true) references /\
  (forall reference, reference ∈ references -> ar_artifact_id reference ∉ ids).
Proof.
  induction references as [|value rest IH]; intros ids; cbn [references_distinct fmap list_fmap].
  { split; [intros _; split_and!; [constructor | constructor | set_solver] | done]. }
  rewrite !andb_true_iff, negb_true_iff, bool_decide_eq_false, IH, NoDup_cons, Forall_cons.
  unfold evidence_valid. rewrite list_elem_of_fmap. split.
  - intros [[V N] (D & F & R)]. split_and!; try done.
    + intros (r & E & Hr). apply R in Hr. rewrite <- E in Hr. set_solver.
    + intros r Hr. apply elem_of_cons in Hr as [->|Hr]; [done|]. apply R in Hr. set_solver.
  - intros ((D & N) & (V & F) & R). split_and!; try done.
    + apply R. set_solver.
    + intros r Hr. apply not_elem_of_cons. split; [|apply R; set_solver].
      intros E. apply D. exists r. by split.
Qed.

Lemma first_outcome_source_none sources : forall index,
  first_outcome_source index sources = None <->
  Forall (fun source => opaque (ar_artifact_id (ai_artifact source)) = true /\
                        prospective_class (ai_access_class source) = true) sources.
Proof.
  induction sources as [|source rest IH]; intros index; cbn [first_outcome_source]; [done|].
  unfold evidence_valid. rewrite Forall_cons, <- (IH (index + 1)).
  destruct (opaque _), (prospective_class _); simpl; naive_solver.
Qed.

Lemma registries_consistent :
  negb (size_is h1_contrast_ids kH1ContrastCount) || negb (size_is h2_contrast_ids kH2ContrastCount) ||
  negb (size_is h3_training_pairs kH3TrainingPairCount) ||
  negb (size_is h3_validation_family kH3ValidationFamilyCount) = false.
Proof. vm_compute. reflexivity. Qed.

Lemma counts_exact counts evidence :
  counts_u64 counts ->
  match evaluate_counts counts evidence with
  | success result =>
      counts_ok counts /\
      exists roles, result = mkPrecisionResult
          (if (pc_r_h1 counts >? 30) || (pc_r_h2 counts >? 30) then PrecisionState_infeasible
           else PrecisionState_resolved) (Some counts) (Some roles) (Some evidence)
          (if (pc_r_h1 counts >? 30) || (pc_r_h2 counts >? 30)
           then ["an H1 or H2 requirement exceeds the frozen go/no-go ceiling of 30"%string] else []) /\
        rc_h3_train roles = pc_rtrain counts /\ rc_h3_validation roles = pc_rval counts /\
        0 <= rc_h1h2_supplemental roles /\
        rc_h3_train roles + rc_h3_validation roles + rc_h1h2_supplemental roles = pc_rtotal counts
  | failure _ => ~ counts_ok counts
  end.
Proof.
  intros (U1 & U2 & U3 & U4 & U5 & U6 & U7). unfold evaluate_counts, counts_ok, conclude_precision.
  unfold kStageACells. rewrite registries_consistent. cbv zeta.
  destruct ((pc_r_h1 counts <? 20) || _ || _ || _) eqn:M; [cbn; lia|].
  destruct (pc_r12 counts =? _) eqn:R; [|cbn; lia]. cbn [negb].
  assert (S : u64_sub u64_max (pc_rval counts) = u64_max - pc_rval counts) by (apply u64_sub_small; int_lia).
  rewrite S. destruct (pc_rtrain counts >? u64_max - pc_rval counts) eqn:O; [cbn; int_lia|].
  assert (A : u64_add (pc_rtrain counts) (pc_rval counts) = pc_rtrain counts + pc_rval counts)
    by (apply u64_add_small; int_lia).
  rewrite A. destruct (pc_rtotal counts =? _) eqn:T; [|cbn; lia]. cbn [negb].
  destruct (pc_rtotal counts >? u64_max / 180) eqn:Q; cbn [orb].
  { intros (_ & _ & _ & _ & _ & _ & N). change (u64_max / 180) with 102481911520608620 in Q. int_lia. }
  change (u64_max / 180) with 102481911520608620 in Q.
  rewrite u64_mul_small by int_lia. destruct (pc_nruns counts =? _) eqn:N; [|cbn; lia]. cbn [negb].
  set (supplemental := if pc_r12 counts >? _ then _ else _).
  assert (B : supplemental = Z.max 0 (pc_r12 counts - (pc_rtrain counts + pc_rval counts))).
  { subst supplemental. destruct (pc_r12 counts >? _) eqn:G; [rewrite u64_sub_small by int_lia|]; lia. }
  destruct ((pc_r_h1 counts >? 30) || _); (split; [lia|]; eexists; split; [reflexivity|]; cbn; lia).
Qed.

Lemma precision_plan_cases counts evidence :
  counts_u64 counts ->
  match evaluate_precision_plan (mkPrecisionPlanInput (Some counts) (Some evidence)) with
  | success result =>
      evidence_ok evidence /\ counts_ok counts /\
      pz_counts result = Some counts /\ pz_evidence result = Some evidence /\
      pz_state result =
        (if (pc_r_h1 counts >? 30) || (pc_r_h2 counts >? 30) then PrecisionState_infeasible
         else PrecisionState_resolved) /\
      exists roles, pz_role_counts result = Some roles /\
        rc_h3_train roles = pc_rtrain counts /\ rc_h3_validation roles = pc_rval counts /\
        0 <= rc_h1h2_supplemental roles /\
        rc_h3_train roles + rc_h3_validation roles + rc_h1h2_supplemental roles = pc_rtotal counts
  | failure _ => ~ (evidence_ok evidence /\ counts_ok counts)
  end.
Proof.
  intros U. unfold evaluate_precision_plan. cbn [pp_counts pp_evidence]. unfold evidence_ok.
  pose proof (references_distinct_iff (sizing_references evidence) []) as D.
  destruct (references_distinct _ _); cbn [negb].
  2:{ intros ((N & O & _) & _). assert (false = true); [|done]. apply D. split_and!; try done. set_solver. }
  destruct (proj1 D eq_refl) as (N & O & _). clear D.
  pose proof (first_outcome_source_none (pe_input_artifacts evidence) 0) as F.
  destruct (pe_input_artifacts evidence) as [|source rest]; cbn [nonempty negb]; [naive_solver|].
  destruct (first_outcome_source 0 (source :: rest)) as [index|].
  { intros ((_ & _ & _ & P) & _). apply F in P. done. }
  pose proof (counts_exact counts evidence U) as C.
  destruct (evaluate_counts counts evidence) as [result|]; [|tauto].
  destruct C as (K & roles & -> & R). cbn [pz_counts pz_evidence pz_state pz_role_counts].
  split_and!; try done; [by apply F|]. exists roles. by split.
Qed.


Definition sample_counts : ProspectiveCounts := mkProspectiveCounts 24 20 24 12 8 24 4320.

Definition sample_evidence : ProspectivePrecisionEvidence :=
  let reference id := mkArtifactReference id (mkSha256 []) in
  mkProspectivePrecisionEvidence (reference "delta") (reference "bootstrap") (reference "h1")
    (reference "h2") (reference "h3-training") (reference "h3-validation")
    [mkAccessInputArtifact (reference "pilot") AccessClass_treatment_blind].

