(* ===== verification/Access.v ===== *)
(** * Access control

    Models [include/cpu_prefetch/orchestration/access.hpp] and
    [src/orchestration/access.cpp]: the authority policy, the append-only access
    ledger and its transitions, the decision on an outcome access and on the
    replacement of a block, and the validator of a whole record set. SHA-256 is a
    parameter. A pointer to a record is an option; a [std::set] of identities that
    is compared as a whole is a [gset], otherwise the list of its insertions. *)

From stdpp Require Import prelude list strings gmap sorting.
From Stdlib Require Import ZArith Lia Ascii.
From S2P Require Import Prelude Validation Model Bytes Json Documents Load Semantic SemanticRecords.
From S2P Require Import BlockPlanning Precision.

#[local] Open Scope Z_scope.
#[local] Open Scope result_scope.
#[local] Open Scope checked_scope.

(** ** Data *)

Inductive AccessPrincipalRole : Set :=
| AccessPrincipalRole_freeze_authority
| AccessPrincipalRole_custodian
| AccessPrincipalRole_training_analyst
| AccessPrincipalRole_validation_authority
| AccessPrincipalRole_confirmatory_analyst
| AccessPrincipalRole_replacement_authority.

Inductive OutcomeDomain : Set :=
| OutcomeDomain_h3_training
| OutcomeDomain_h3_validation
| OutcomeDomain_h1h2.

#[export] Instance AccessPrincipalRole_eq_dec : EqDecision AccessPrincipalRole.
Proof. solve_decision. Defined.

Record PrincipalAssignment : Set := mkPrincipalAssignment {
  pa_role : AccessPrincipalRole;
  pa_authority_id : Identifier
}.

Record RoleOverlapAuthorization : Set := mkRoleOverlapAuthorization {
  ro_first : AccessPrincipalRole;
  ro_second : AccessPrincipalRole;
  ro_authority_id : Identifier;
  ro_authorization_artifact : ArtifactReference
}.

Record AuthorityPolicy : Set := mkAuthorityPolicy {
  ap_assignments : list PrincipalAssignment;
  ap_permitted_overlaps : list RoleOverlapAuthorization
}.

Record ArtifactAccessRecord : Set := mkArtifactAccessRecord {
  aa_artifact : ArtifactReference;
  aa_access_class : AccessClass;
  aa_block_id : option Identifier;
  aa_namespace_id : option Identifier;
  aa_block_role : option BlockRole;
  aa_issuing_role : option AccessPrincipalRole;
  aa_issuer_id : option Identifier
}.

Record ReplacementBudget : Set := mkReplacementBudget {
  rg_platform_id : Identifier;
  rg_maximum_replacement_blocks : Z;
  rg_budget_artifact : ArtifactReference
}.

Inductive ReplacementDecisionState : Set :=
| ReplacementDecisionState_authorized
| ReplacementDecisionState_study_unresolved.

Record ReplacementDecision : Set := mkReplacementDecision {
  rd_state : ReplacementDecisionState;
  rd_replacement_plan : option GeneratedBlockPlan;
  rd_blockers : list string
}.

Record ReplacementRequest : Set := mkReplacementRequest {
  rq_replaced_block : BlockPlan;
  rq_invalid_run : RunManifest;
  rq_failure : FailureRecord;
  rq_authorization : FreezeRecord;
  rq_replacement_input : BlockGenerationInput
}.

Record AccessRequest : Set := mkAccessRequest {
  aq_actor_id : Identifier;
  aq_actor_role : AccessPrincipalRole;
  aq_domain : OutcomeDomain;
  aq_block_id : Identifier
}.

Record AccessLedgerResult : Set := mkAccessLedgerResult {
  al_final_state : AccessState;
  al_errors : list ValidationError
}.

(** The underlying values, which the comparisons of states use. *)
Definition access_rank (state : AccessState) : Z :=
  match state with
  | AccessState_planned => 0
  | AccessState_collected_sealed => 1
  | AccessState_training_open => 2
  | AccessState_selection_frozen => 3
  | AccessState_validation_unsealed => 4
  | AccessState_h3_evaluated => 5
  | AccessState_h1h2_released => 6
  | AccessState_archived => 7
  end.

(** ** Lookups *)

Definition principal_for (kind : RecordKind) : option AccessPrincipalRole :=
  match kind with
  | RecordKind_protocol_freeze | RecordKind_selection_freeze =>
      Some AccessPrincipalRole_freeze_authority
  | RecordKind_validation_unseal | RecordKind_h1h2_released => Some AccessPrincipalRole_custodian
  | RecordKind_h3_evaluated => Some AccessPrincipalRole_confirmatory_analyst
  | RecordKind_replacement_authorization => Some AccessPrincipalRole_replacement_authority
  | RecordKind_amendment => None
  end.

Definition protocol_role_for (role : AccessPrincipalRole) : option AuthorityRole :=
  match role with
  | AccessPrincipalRole_freeze_authority => Some AuthorityRole_freeze_authority
  | AccessPrincipalRole_custodian => Some AuthorityRole_validation_custodian
  | AccessPrincipalRole_confirmatory_analyst => Some AuthorityRole_confirmatory_analyst
  | AccessPrincipalRole_replacement_authority => Some AuthorityRole_replacement_authority
  | AccessPrincipalRole_training_analyst | AccessPrincipalRole_validation_authority => None
  end.

Definition assignment_for (policy : AuthorityPolicy) (role : AccessPrincipalRole) :
    option PrincipalAssignment :=
  find (fun assignment => bool_decide (pa_role assignment = role)) (ap_assignments policy).

Definition artifact_for (artifacts : list ArtifactAccessRecord) (reference : ArtifactReference) :
    option ArtifactAccessRecord :=
  find (fun record => bool_decide (aa_artifact record = reference)) artifacts.

Definition id_in (blocks : list BlockPlan) (id : Identifier) : option BlockPlan :=
  find (fun block => bool_decide (bp_block_id block = id)) blocks.

Definition is_stage_a_role (role : BlockRole) : bool :=
  match role with
  | BlockRole_h3_train | BlockRole_h3_validation | BlockRole_h1h2_supplemental => true
  | BlockRole_not_applicable => false
  end.

Definition role_allowed_for_record (record : FreezeRecord) (role : BlockRole) : bool :=
  match fz_record_kind record with
  | RecordKind_selection_freeze => bool_decide (role = BlockRole_h3_train)
  | RecordKind_validation_unseal | RecordKind_h3_evaluated =>
      bool_decide (role = BlockRole_h3_validation)
  | RecordKind_h1h2_released | RecordKind_protocol_freeze | RecordKind_amendment =>
      is_stage_a_role role
  | RecordKind_replacement_authorization => true
  end.

(** ** Timestamps *)

Record UtcTimestamp : Set := mkUtcTimestamp {
  ut_fields : list Z;
  ut_fraction : list ascii
}.

Fixpoint digits_value (acc : Z) (digits : list ascii) : option Z :=
  match digits with
  | [] => Some acc
  | c :: rest => if json_is_digit c then digits_value (acc * 10 + (char_code c - 48)) rest else None
  end.

Definition parse_digits (value : list ascii) (offset count : nat) : option Z :=
  if (length value <? offset + count)%nat then None
  else digits_value 0 (take count (drop offset value)).

Definition leap (year : Z) : bool :=
  (((year mod 4 =? 0) && negb (year mod 100 =? 0)) || (year mod 400 =? 0))%bool.

Definition char_at (value : list ascii) (index : nat) (c : ascii) : bool :=
  match value !! index with Some d => Ascii.eqb d c | None => false end.

Definition month_days : list Z := [31; 28; 31; 30; 31; 30; 31; 31; 30; 31; 30; 31].

Definition field_positions : list (nat * nat) :=
  [(0, 4); (5, 2); (8, 2); (11, 2); (14, 2); (17, 2)]%nat.

Definition drop_trailing_zeros (digits : list ascii) : list ascii :=
  reverse ((fix go (l : list ascii) : list ascii :=
              match l with
              | c :: rest => if Ascii.eqb c "0" then go rest else l
              | [] => []
              end) (reverse digits)).

Definition parse_fraction (value : list ascii) : option (list ascii) :=
  let size := length value in
  if (size <=? 20)%nat then Some []
  else if negb (char_at value 19 ".") || (size =? 21)%nat then None
  else
    let fraction := take (size - 21) (drop 20 value) in
    if negb (nonempty fraction) || negb (forallb json_is_digit fraction) then None
    else Some (drop_trailing_zeros fraction).

Definition parse_utc (s : string) : option UtcTimestamp :=
  let value := text s in
  if (length value <? 20)%nat || negb (char_at value (length value - 1) "Z") ||
     negb (char_at value 4 "-") || negb (char_at value 7 "-") || negb (char_at value 10 "T") ||
     negb (char_at value 13 ":") || negb (char_at value 16 ":") then None
  else
    let? fields :=
      mapM (fun position => parse_digits value (fst position) (snd position)) field_positions in
    match fields with
    | [year; month; day; hour; minute; second] =>
        if (month =? 0) || (month >? 12) || (hour >? 23) || (minute >? 59) || (second >? 60) then None
        else
          let? days := month_days !! Z.to_nat (month - 1) in
          let maximum_day := if (month =? 2) && leap year then 29 else days in
          if (day =? 0) || (day >? maximum_day) then None
          else
            let? fraction := parse_fraction value in
            Some (mkUtcTimestamp fields fraction)
    | _ => None
    end.

(** [std::array] and [std::string] compare lexicographically. *)
Fixpoint fields_ltb (a b : list Z) : bool :=
  match a, b with
  | x :: a, y :: b => (x <? y) || ((x =? y) && fields_ltb a b)
  | [], _ :: _ => true
  | _, [] => false
  end.

Definition resize (l : list ascii) (size : nat) : list ascii :=
  take size l ++ replicate (size - length l) ("0"%char).

Definition timestamp_less (a b : UtcTimestamp) : bool :=
  if negb (bool_decide (ut_fields a = ut_fields b)) then fields_ltb (ut_fields a) (ut_fields b)
  else
    let size := Nat.max (length (ut_fraction a)) (length (ut_fraction b)) in
    fields_ltb (char_code <$> resize (ut_fraction a) size) (char_code <$> resize (ut_fraction b) size).

(** ** References between records *)

Definition record_reference (records : list FreezeRecord) (before : nat)
    (reference : ArtifactReference) : option FreezeRecord :=
  find (fun record => bool_decide (fz_record_id record = ar_artifact_id reference) &&
                      bool_decide (fz_record_sha256 record = ar_sha256 reference))
    (take before records).

Definition reference_resolves (records : list FreezeRecord) (before : nat)
    (artifacts : list ArtifactAccessRecord) (reference : ArtifactReference) : bool :=
  is_some (artifact_for artifacts reference) || is_some (record_reference records before reference).

Definition same_factor (run : RunManifest) (cell : StageACell) : bool :=
  bool_decide (rm_package run = sc_package cell) &&
  bool_decide (rm_requested_hardware_state run = sc_requested_hardware_state cell) &&
  bool_decide (rm_placement run = sc_placement cell) &&
  bool_decide (rm_working_set_class run = sc_working_set_class cell) &&
  bool_decide (rm_load_level run = sc_load_level cell).

Definition ordinal_le (a b : StageACell) : Prop := sc_cell_ordinal a <= sc_cell_ordinal b.

#[export] Instance ordinal_le_dec : RelDecision ordinal_le.
Proof. intros a b. unfold ordinal_le. apply _. Defined.

(** [std::sort] by ordinal: its result is determined when the ordinals are
    distinct, as those of a validated plan are. *)
Definition ordered_factor_sequence (block : BlockPlan) : list CellKey :=
  cell_key <$> merge_sort ordinal_le (bp_cells block).

(** ** The decision that opens the training outcomes *)

Definition decision_u64 (object : Object) (key : string) : option Z :=
  let? value := map_find key object in
  let? number := as_number value in
  match num_kind number, num_value number with
  | NumberKind_unsigned_integer, Number_uint64 n => Some n
  | NumberKind_signed_integer, Number_int64 n => if n >=? 0 then Some n else None
  | _, _ => None
  end.

Definition decision_string (object : Object) (key : string) : string :=
  default EmptyString (value ← map_find key object; as_string value).

Definition decision_strings (object : Object) (key : string) : option (list string) :=
  let? value := map_find key object in
  let? array := as_array value in
  mapM as_string array.

Definition exact_strings (actual : option (list string)) (expected : list string) : bool :=
  match actual with Some l => bool_decide (l = expected) | None => false end.

Record TrainingOpenDecision : Set := mkTrainingOpenDecision {
  td_counts : ProspectiveCounts;
  td_delta_star_artifact_id : string;
  td_bootstrap_configuration_artifact_id : string
}.

Definition candidate_order : list string :=
  ["R0:H0"; "R0:H1"; "R1:H0"; "R1:H1"; "R2:H0"; "R2:H1"; "L0:H0"; "L0:H1"; "L1:H0"; "L1:H1"].

Definition context_order : list string :=
  ["NEAR_L2_L050"; "NEAR_LLC_L050"; "NEAR_BEYOND_LLC_L050"; "FAR_L2_L050"; "FAR_LLC_L050";
   "FAR_BEYOND_LLC_L050"].

(** Opaque identities, none twice. *)
Fixpoint distinct_opaque (seen values : list string) : bool :=
  match values with
  | [] => true
  | value :: rest =>
      opaque value && negb (bool_decide (value ∈ seen)) && distinct_opaque (value :: seen) rest
  end.

(** The registered orders, families, rules and identities of the decision. *)
Definition decision_registered (object : Object) : bool :=
  let is_count key n := bool_decide (decision_u64 object key = Some n) in
  size_is object 20 &&
  exact_strings (decision_strings object "candidate_order") candidate_order &&
  exact_strings (decision_strings object "h3_context_order") context_order &&
  exact_strings (decision_strings object "h1_contrast_ids") h1_contrast_ids &&
  exact_strings (decision_strings object "h2_contrast_ids") h2_contrast_ids &&
  is_count "h3_training_pair_count" kH3TrainingPairCount &&
  is_count "h3_validation_family_count" kH3ValidationFamilyCount &&
  is_count "h3_reported_comparison_count" kH3ReportedComparisonCount &&
  bool_decide (decision_string object "tie_break_rule_id" = kH3SelectionRuleId) &&
  opaque (decision_string object "delta_star_artifact_id") &&
  opaque (decision_string object "bootstrap_configuration_artifact_id") &&
  opaque (decision_string object "bootstrap_seed_id") &&
  opaque (decision_string object "precision_profile_id").

Definition decision_counts (object : Object) : option ProspectiveCounts :=
  let? r_h1 := decision_u64 object "r_h1" in
  let? r_h2 := decision_u64 object "r_h2" in
  let? r12 := decision_u64 object "r12" in
  let? rtrain := decision_u64 object "rtrain" in
  let? rval := decision_u64 object "rval" in
  let? rtotal := decision_u64 object "rtotal" in
  let? nruns := decision_u64 object "nruns" in
  Some (mkProspectiveCounts r_h1 r_h2 r12 rtrain rval rtotal nruns).

Definition decode_training_open_decision (record : FreezeRecord) : Result TrainingOpenDecision :=
  match fz_decision_value record with
  | None =>
      fail_with ErrorCategory_missing_evidence "$/decision_value" "ACCESS-TRAINING-FREEZE-EVIDENCE"
        "TRAINING_OPEN requires the complete prospective precision freeze object"
  | Some decision =>
      let unregistered :=
        fail_with ErrorCategory_missing_evidence "$/decision_value" "ACCESS-TRAINING-FREEZE-EVIDENCE"
          "TRAINING_OPEN must freeze candidate/context order, exact families, rules, and evidence identities" in
      match as_object decision with
      | None => unregistered
      | Some object =>
          if negb (decision_registered object) then unregistered
          else
            let no_schemas :=
              fail_with ErrorCategory_missing_evidence "$/decision_value/schema_artifact_ids"
                "ACCESS-TRAINING-FREEZE-SCHEMAS"
                "TRAINING_OPEN requires nonempty distinct immutable schema identities" in
            match decision_strings object "schema_artifact_ids" with
            | None => no_schemas
            | Some schemas =>
                if negb (nonempty schemas) || negb (distinct_opaque [] schemas) then no_schemas
                else
                  match decision_counts object with
                  | None =>
                      fail_with ErrorCategory_missing_evidence "$/decision_value"
                        "ACCESS-TRAINING-FREEZE-COUNTS"
                        "TRAINING_OPEN requires all seven prospective count fields as exact integers"
                  | Some counts =>
                      let input_ids :=
                        (fun input => ar_artifact_id (ai_artifact input)) <$> fz_input_artifacts record in
                      let delta := decision_string object "delta_star_artifact_id" in
                      let bootstrap := decision_string object "bootstrap_configuration_artifact_id" in
                      if negb (forallb (fun id => bool_decide (id ∈ input_ids))
                                 (delta :: bootstrap :: schemas)) then
                        fail_with ErrorCategory_reference_mismatch "$/decision_value"
                          "ACCESS-TRAINING-FREEZE-INPUTS"
                          "every named delta, bootstrap, and schema artifact requires an exact hashed input reference"
                      else success (mkTrainingOpenDecision counts delta bootstrap)
                  end
            end
      end
  end.

(** ** Blocks and inputs a record names *)

Definition is_replaced (blocks : list BlockPlan) (id : Identifier) : bool :=
  existsb (fun candidate => bool_decide (bp_replaces_block_id candidate = Some id)) blocks.

(** The active blocks of a role, or of every role. *)
Definition active_ids (blocks : list BlockPlan) (role : option BlockRole) : list Identifier :=
  bp_block_id <$>
  filter (fun block => negb (is_replaced blocks (bp_block_id block)) &&
                       match role with Some r => bool_decide (bp_block_role block = r) | None => true end)
    blocks.

Definition exact_affected_blocks (record : FreezeRecord) (blocks : list BlockPlan)
    (role : option BlockRole) : bool :=
  let expected : gset string := list_to_set (active_ids blocks role) in
  let actual : gset string := list_to_set (fz_affected_block_ids record) in
  negb (bool_decide (expected = ∅)) && bool_decide (actual = expected) &&
  (size actual =? length (fz_affected_block_ids record))%nat.

Definition counts_equal (a b : ProspectiveCounts) : bool :=
  (pc_r_h1 a =? pc_r_h1 b) && (pc_r_h2 a =? pc_r_h2 b) && (pc_r12 a =? pc_r12 b) &&
  (pc_rtrain a =? pc_rtrain b) && (pc_rval a =? pc_rval b) && (pc_rtotal a =? pc_rtotal b) &&
  (pc_nruns a =? pc_nruns b).

Definition input_contains (record : FreezeRecord) (reference : ArtifactReference) : bool :=
  existsb (fun input =>
    bool_decide (ai_artifact input = reference) &&
    negb (bool_decide (ai_access_class input = AccessClass_training_only)) &&
    negb (bool_decide (ai_access_class input = AccessClass_validation_sealed)) &&
    negb (bool_decide (ai_access_class input = AccessClass_validation_unsealed)))
    (fz_input_artifacts record).

(** ** The authority policy *)

Definition required_principals : list AccessPrincipalRole :=
  [AccessPrincipalRole_freeze_authority; AccessPrincipalRole_custodian;
   AccessPrincipalRole_training_analyst; AccessPrincipalRole_validation_authority;
   AccessPrincipalRole_confirmatory_analyst; AccessPrincipalRole_replacement_authority].

(** The loop over the assignments; an identity that is not opaque keeps its role
    out of the set. *)
Fixpoint assignment_errors (index : Z) (roles : list AccessPrincipalRole)
    (assignments : list PrincipalAssignment) : list ValidationError * list AccessPrincipalRole :=
  match assignments with
  | [] => ([], roles)
  | assignment :: rest =>
      let named := opaque (pa_authority_id assignment) in
      let duplicate := bool_decide (pa_role assignment ∈ roles) in
      let '(errors, last) :=
        assignment_errors (index + 1) (if named then pa_role assignment :: roles else roles) rest in
      (error_when (negb named || duplicate)
         (mkError ErrorCategory_duplicate_value
            ("$/authority_policy/assignments/" +:+ std_to_string index) "ACCESS-AUTHORITY-ASSIGNMENT"
            "each operational access role requires one opaque authority identity") ++ errors, last)
  end.

Definition overlap_permitted (policy : AuthorityPolicy) (artifacts : list ArtifactAccessRecord)
    (first second : PrincipalAssignment) : bool :=
  existsb (fun candidate =>
    ((bool_decide (ro_first candidate = pa_role first) &&
      bool_decide (ro_second candidate = pa_role second)) ||
     (bool_decide (ro_first candidate = pa_role second) &&
      bool_decide (ro_second candidate = pa_role first))) &&
    bool_decide (ro_authority_id candidate = pa_authority_id first) &&
    is_some (artifact_for artifacts (ro_authorization_artifact candidate)))
    (ap_permitted_overlaps policy).

Definition validate_authority_policy (policy : AuthorityPolicy)
    (artifacts : list ArtifactAccessRecord) : list ValidationError :=
  let '(errors, roles) := assignment_errors 0 [] (ap_assignments policy) in
  errors ++
  mjoin ((fun role =>
    error_when (negb (bool_decide (role ∈ roles)))
      (mkError ErrorCategory_missing_evidence "$/authority_policy/assignments"
         "ACCESS-AUTHORITY-COMPLETE" "all six imported access roles require explicit principals"))
    <$> required_principals) ++
  error_when (negb (length (ap_assignments policy) =? length required_principals)%nat)
    (mkError ErrorCategory_out_of_range "$/authority_policy/assignments" "ACCESS-AUTHORITY-EXACT"
       "the authority registry must contain exactly the six imported access roles") ++
  mjoin ((fun pair =>
    error_when (bool_decide (pa_authority_id (fst pair) = pa_authority_id (snd pair)) &&
                negb (overlap_permitted policy artifacts (fst pair) (snd pair)))
      (mkError ErrorCategory_missing_evidence "$/authority_policy/permitted_overlaps"
         "ACCESS-AUTHORITY-SEGREGATION"
         "one principal may hold multiple roles only with immutable authorization evidence"))
    <$> ordered_pairs (ap_assignments policy)).

(** ** The ledger *)

Section Ledger.
Context (sha256 : list Z -> list Z).

Definition text_digest (t : string) : string := Sha256_hex (mkSha256 (sha256 (string_bytes t))).

Definition zero_self_hash_matches (record : FreezeRecord) : bool :=
  match as_object (fz_source_document record) with
  | None => false
  | Some object =>
      match map_find "record_sha256" object with
      | None => false
      | Some _ =>
          match canonicalize
                  (Value_object (map_assign "record_sha256" (Value_string zero_hash) object)) with
          | failure _ => false
          | success canonical => bool_decide (text_digest canonical = Sha256_hex (fz_record_sha256 record))
          end
      end
  end.

Definition selection_keys : list string :=
  ["h3_selections"; "training_input_artifacts"; "selection_rule_version"].

Definition selection_checksum_matches (record : FreezeRecord) : bool :=
  match fz_selection_record_checksum_sha256 record, as_object (fz_source_document record) with
  | Some checksum, Some object =>
      match mapM (fun key => (pair key) <$> map_find key object) selection_keys with
      | None => false
      | Some payload =>
          match canonicalize (Value_object (map_of payload)) with
          | failure _ => false
          | success canonical => bool_decide (text_digest canonical = Sha256_hex checksum)
          end
      end
  | _, _ => false
  end.

Context (blocks : list BlockPlan) (records : list FreezeRecord).
Context (artifacts : list ArtifactAccessRecord) (namespaces : RoleNamespaceRegistry).
Context (authorities : AuthorityPolicy).

(** The state of the loop over the records. *)
Record LedgerScan : Set := mkLedgerScan {
  ls_final_state : AccessState;
  ls_record_ids : list string;
  ls_amendment_targets : list string;
  ls_previous_timestamp : option UtcTimestamp
}.

Definition out_of_order (previous timestamp : option UtcTimestamp) : bool :=
  match timestamp with
  | None => true
  | Some t => match previous with Some p => timestamp_less t p | None => false end
  end.

Definition authority_bound (record : FreezeRecord) : bool :=
  match principal_for (fz_record_kind record) with
  | None => true
  | Some principal =>
      match assignment_for authorities principal, protocol_role_for principal with
      | Some assignment, Some expected_role =>
          bool_decide (pa_authority_id assignment = au_authority_id (fz_authority record)) &&
          bool_decide (au_role (fz_authority record) = expected_role)
      | _, _ => false
      end
  end.

(** The checks of one record that come before its transition. *)
Definition record_errors (path : string) (index : nat) (scan : LedgerScan) (record : FreezeRecord) :
    list ValidationError :=
  validate (Record_freeze record) ++
  error_when (bool_decide (fz_record_id record ∈ ls_record_ids scan))
    (mkError ErrorCategory_duplicate_value (path +:+ "/record_id") "ACCESS-APPEND-ONLY-ID"
       "an append-only access ledger cannot overwrite a record identity") ++
  error_when (negb (zero_self_hash_matches record))
    (mkError ErrorCategory_invalid_hash (path +:+ "/record_sha256") "ACCESS-ZEROSELF-HASH"
       "access record hash must bind its complete canonical source document") ++
  error_when (out_of_order (ls_previous_timestamp scan) (parse_utc (fz_created_at_utc record)))
    (mkError ErrorCategory_cross_field (path +:+ "/created_at_utc") "ACCESS-CHRONOLOGY"
       "access ledger timestamps must be normalized UTC and nondecreasing") ++
  mjoin ((fun input =>
    error_when (negb (reference_resolves records index artifacts (ai_artifact input)))
      (mkError ErrorCategory_reference_mismatch (path +:+ "/input_artifacts")
         "ACCESS-INPUT-RESOLUTION"
         "every access input must resolve to immutable prior or external evidence"))
    <$> fz_input_artifacts record) ++
  error_when (negb (authority_bound record))
    (mkError ErrorCategory_reference_mismatch (path +:+ "/authority") "ACCESS-AUTHORITY-BINDING"
       "record authority must match the frozen operational role assignment") ++
  mjoin ((fun block_id =>
    error_when (match id_in blocks block_id with
                | None => true
                | Some block => negb (role_allowed_for_record record (bp_block_role block))
                end)
      (mkError ErrorCategory_reference_mismatch (path +:+ "/affected_block_ids")
         "ACCESS-AFFECTED-BLOCK-ROLE"
         "affected block must exist and have a role compatible with this transition"))
    <$> fz_affected_block_ids record).

Definition moves (record : FreezeRecord) (before after : AccessState) : bool :=
  bool_decide (fz_access_state_before record = before) &&
  bool_decide (fz_access_state_after record = after).

(** A check of the blocks a record affects, which also decides the transition. *)
Definition blocks_named (record : FreezeRecord) (role : option BlockRole) (path rule message : string) :
    list ValidationError :=
  error_when (negb (exact_affected_blocks record blocks role))
    (mkError ErrorCategory_cross_field (path +:+ "/affected_block_ids") rule message).

(** [PROTOCOL_FREEZE]: the errors and whether the transition is allowed. *)
Definition protocol_freeze_step (path : string) (record : FreezeRecord) : list ValidationError * bool :=
  let legal :=
    moves record AccessState_planned AccessState_collected_sealed ||
    moves record AccessState_collected_sealed AccessState_training_open ||
    moves record AccessState_h1h2_released AccessState_archived in
  let authorised :=
    fz_outcome_access_prohibited record &&
    bool_decide (au_role (fz_authority record) = AuthorityRole_freeze_authority) in
  let errors :=
    match fz_access_state_after record with
    | AccessState_collected_sealed =>
        blocks_named record None path "ACCESS-COLLECTION-EXACT-BLOCKS"
          "collection sealing must name the complete frozen common block pool"
    | AccessState_training_open =>
        blocks_named record (Some BlockRole_h3_train) path "ACCESS-TRAINING-EXACT-BLOCKS"
          "opening training must name exactly every H3_TRAIN block" ++
        errors_of (decode_training_open_decision record)
    | AccessState_archived =>
        blocks_named record None path "ACCESS-ARCHIVE-EXACT-BLOCKS"
          "archival must name the complete frozen common block pool"
    | _ => []
    end in
  let complete :=
    match fz_access_state_after record with
    | AccessState_collected_sealed | AccessState_archived => exact_affected_blocks record blocks None
    | AccessState_training_open =>
        exact_affected_blocks record blocks (Some BlockRole_h3_train) &&
        has_value (decode_training_open_decision record)
    | _ => true
    end in
  (errors, legal && authorised && complete).

Definition training_only (record : FreezeRecord) (training : ArtifactReference) : bool :=
  existsb (fun input => bool_decide (ai_artifact input = training) &&
                        bool_decide (ai_access_class input = AccessClass_training_only))
    (fz_input_artifacts record).

Definition training_artifact_ok (record : FreezeRecord) (training : ArtifactReference) : bool :=
  match artifact_for artifacts training with
  | None => false
  | Some artifact =>
      bool_decide (aa_access_class artifact = AccessClass_training_only) &&
      bool_decide (aa_block_role artifact = Some BlockRole_h3_train) &&
      training_only record training
  end.

Definition training_inputs (record : FreezeRecord) : nat :=
  length (filter (fun input => ai_access_class input = AccessClass_training_only)
            (fz_input_artifacts record)).

(** [SELECTION_FREEZE]. *)
Definition selection_freeze_step (path : string) (record : FreezeRecord) : list ValidationError * bool :=
  let rule := bool_decide (fz_selection_rule_version record = Some kH3SelectionRuleId) in
  let inputs_exact := (training_inputs record =? length (fz_training_input_artifacts record))%nat in
  (blocks_named record (Some BlockRole_h3_train) path "ACCESS-SELECTION-EXACT-BLOCKS"
     "selection freeze must name exactly every H3_TRAIN block" ++
   error_when (negb rule)
     (mkError ErrorCategory_cross_field (path +:+ "/selection_rule_version") "ACCESS-H3-SELECTION-RULE"
        "selection must use arithmetic mean log(p99.9), minimum candidate, and the frozen candidate-order tie break") ++
   error_when (negb (selection_checksum_matches record))
     (mkError ErrorCategory_invalid_hash (path +:+ "/selection_record_checksum_sha256")
        "ACCESS-SELECTION-PAYLOAD-HASH"
        "selection checksum must bind contexts, candidates, rule, and every training artifact reference") ++
   error_when (negb (selections_exact (fz_h3_selections record)))
     (mkError ErrorCategory_cross_field (path +:+ "/h3_selections") "ACCESS-H3-SIX-CONTEXTS"
        "selection must freeze one registered candidate in each stable context") ++
   mjoin ((fun training =>
     error_when (negb (training_artifact_ok record training))
       (mkError ErrorCategory_reference_mismatch (path +:+ "/training_input_artifacts")
          "ACCESS-TRAINING-ONLY" "selection can consume only named H3 training artifacts"))
     <$> fz_training_input_artifacts record) ++
   error_when (negb inputs_exact)
     (mkError ErrorCategory_reference_mismatch (path +:+ "/input_artifacts")
        "ACCESS-TRAINING-INPUTS-EXACT"
        "selection input hashes must exactly equal the named H3 training artifacts"),
   moves record AccessState_training_open AccessState_selection_frozen &&
   exact_affected_blocks record blocks (Some BlockRole_h3_train) && rule &&
   selection_checksum_matches record && inputs_exact).

Definition validation_namespace_errors (path : string) (record : FreezeRecord) : list ValidationError :=
  let unnamed :=
    [mkError ErrorCategory_reference_mismatch (path +:+ "/validation_namespace_id")
       "ACCESS-VALIDATION-NAMESPACE"
       "unseal must name the frozen validation role namespace and artifact"] in
  match fz_validation_namespace_id record, find_binding namespaces BlockRole_h3_validation,
        fz_validation_artifact_ref record with
  | Some id, Some binding, Some reference =>
      if negb (bool_decide (id = rb_namespace_id binding)) then unnamed
      else
        error_when (match artifact_for artifacts reference with
                    | None => true
                    | Some artifact =>
                        negb (bool_decide (aa_access_class artifact = AccessClass_validation_sealed)) ||
                        negb (bool_decide (aa_namespace_id artifact = Some id))
                    end)
          (mkError ErrorCategory_reference_mismatch (path +:+ "/validation_artifact_ref")
             "ACCESS-VALIDATION-SEALED"
             "validation evidence must resolve as sealed in the frozen namespace")
  | _, _, _ => unnamed
  end.

(** An input that the validation authority issued. *)
Definition validation_approved (record : FreezeRecord) : bool :=
  match assignment_for authorities AccessPrincipalRole_validation_authority with
  | None => false
  | Some validation_authority =>
      existsb (fun input =>
        match artifact_for artifacts (ai_artifact input) with
        | None => false
        | Some artifact =>
            bool_decide (aa_issuing_role artifact = Some AccessPrincipalRole_validation_authority) &&
            bool_decide (aa_issuer_id artifact = Some (pa_authority_id validation_authority))
        end) (fz_input_artifacts record)
  end.

Definition earlier_record (index : nat) (reference : option ArtifactReference) : bool :=
  match reference with
  | Some r => is_some (record_reference records index r)
  | None => false
  end.

Definition known_artifact (reference : option ArtifactReference) : bool :=
  match reference with
  | Some r => is_some (artifact_for artifacts r)
  | None => false
  end.

(** [VALIDATION_UNSEAL]. *)
Definition validation_unseal_step (path : string) (index : nat) (record : FreezeRecord) :
    list ValidationError * bool :=
  (blocks_named record (Some BlockRole_h3_validation) path "ACCESS-UNSEAL-EXACT-BLOCKS"
     "validation unsealing must name exactly every H3_VALIDATION block" ++
   validation_namespace_errors path record ++
   error_when (negb (validation_approved record))
     (mkError ErrorCategory_missing_evidence (path +:+ "/input_artifacts") "ACCESS-VALIDATION-AUTHORITY"
        "validation authority approval must precede custodian unsealing") ++
   error_when (negb (earlier_record index (fz_selection_record_ref record)))
     (mkError ErrorCategory_reference_mismatch (path +:+ "/selection_record_ref")
        "ACCESS-SELECTION-PREDECESSOR"
        "validation unseal must hash-link the earlier selection freeze"),
   moves record AccessState_selection_frozen AccessState_validation_unsealed &&
   exact_affected_blocks record blocks (Some BlockRole_h3_validation)).

(** [H3_EVALUATED]. *)
Definition h3_evaluated_step (path : string) (index : nat) (record : FreezeRecord) :
    list ValidationError * bool :=
  (blocks_named record (Some BlockRole_h3_validation) path "ACCESS-H3-EVALUATION-EXACT-BLOCKS"
     "H3 evaluation must name exactly every H3_VALIDATION block" ++
   error_when (negb (earlier_record index (fz_selection_record_ref record)) ||
               negb (earlier_record index (fz_validation_unseal_record_ref record)) ||
               negb (known_artifact (fz_h3_evaluation_artifact_ref record)))
     (mkError ErrorCategory_reference_mismatch path "ACCESS-H3-EVALUATION-LINEAGE"
        "H3 evaluation must link selection, unseal, validation, and evaluation hashes"),
   moves record AccessState_validation_unsealed AccessState_h3_evaluated &&
   exact_affected_blocks record blocks (Some BlockRole_h3_validation)).

(** [H1H2_RELEASED]. *)
Definition h1h2_released_step (path : string) (record : FreezeRecord) : list ValidationError * bool :=
  (blocks_named record None path "ACCESS-H1H2-EXACT-BLOCKS"
     "H1/H2 release must name the complete common block pool" ++
   error_when (negb (known_artifact (fz_h3_evaluation_artifact_ref record)) ||
               negb (known_artifact (fz_h3_access_record_ref record)))
     (mkError ErrorCategory_reference_mismatch path "ACCESS-H1H2-SEALED-H3"
        "H1/H2 release requires immutable H3 evaluation and access-audit evidence"),
   moves record AccessState_h3_evaluated AccessState_h1h2_released &&
   exact_affected_blocks record blocks None).

(** The superseded record is an earlier one and its hash is named. *)
Definition prior_hash_named (index : nat) (record : FreezeRecord) (supersedes : Identifier) : bool :=
  match find (fun previous => bool_decide (fz_record_id previous = supersedes)) (take index records) with
  | None => false
  | Some target =>
      existsb (fun reference => bool_decide (ar_artifact_id reference = fz_record_id target) &&
                                bool_decide (ar_sha256 reference = fz_record_sha256 target))
        (fz_prior_authoritative_hashes record)
  end.

Definition amendment_lineage (path : string) (index : nat) (targets : list string)
    (record : FreezeRecord) : list ValidationError * list string :=
  let unbranched :=
    [mkError ErrorCategory_duplicate_value (path +:+ "/supersedes_id") "ACCESS-AMENDMENT-LINEAGE"
       "amendments require one earlier unbranched supersession target"] in
  match fz_supersedes_id record with
  | None => (unbranched, targets)
  | Some supersedes =>
      if bool_decide (supersedes ∈ targets) then (unbranched, targets)
      else
        (error_when (negb (prior_hash_named index record supersedes))
           (mkError ErrorCategory_reference_mismatch (path +:+ "/prior_authoritative_hashes")
              "ACCESS-AMENDMENT-PREDECESSOR"
              "amendment must name and hash its earlier superseded record"),
         supersedes :: targets)
  end.

(** [AMENDMENT]: the errors, the decision and the targets of amendments. *)
Definition amendment_step (path : string) (index : nat) (targets : list string) (record : FreezeRecord) :
    list ValidationError * bool * list string :=
  let '(errors, targets) := amendment_lineage path index targets record in
  (errors ++
   error_when (existsb (fun input =>
       bool_decide (ai_access_class input = AccessClass_training_only) ||
       bool_decide (ai_access_class input = AccessClass_validation_unsealed)) (fz_input_artifacts record))
     (mkError ErrorCategory_cross_field (path +:+ "/input_artifacts") "ACCESS-AMENDMENT-NO-OUTCOMES"
        "an amendment cannot be selected from training or validation outcomes"),
   bool_decide (fz_access_state_before record = fz_access_state_after record) &&
   fz_outcome_access_prohibited record,
   targets).

Definition kind_step (path : string) (index : nat) (targets : list string) (record : FreezeRecord) :
    list ValidationError * bool * list string :=
  match fz_record_kind record with
  | RecordKind_protocol_freeze => (protocol_freeze_step path record, targets)
  | RecordKind_selection_freeze => (selection_freeze_step path record, targets)
  | RecordKind_validation_unseal => (validation_unseal_step path index record, targets)
  | RecordKind_h3_evaluated => (h3_evaluated_step path index record, targets)
  | RecordKind_h1h2_released => (h1h2_released_step path record, targets)
  | RecordKind_amendment => amendment_step path index targets record
  | RecordKind_replacement_authorization => ([], false, targets)
  end.

Definition next_timestamp (previous : option UtcTimestamp) (record : FreezeRecord) :
    option UtcTimestamp :=
  match parse_utc (fz_created_at_utc record) with Some t => Some t | None => previous end.

(** One record of the ledger. *)
Definition ledger_record (index : nat) (scan : LedgerScan) (record : FreezeRecord) :
    list ValidationError * LedgerScan :=
  let path := "$/access_records/" +:+ std_to_string (Z.of_nat index) in
  let errors := record_errors path index scan record in
  let record_ids := fz_record_id record :: ls_record_ids scan in
  let previous := next_timestamp (ls_previous_timestamp scan) record in
  let targets := ls_amendment_targets scan in
  if bool_decide (fz_record_kind record = RecordKind_replacement_authorization) then
    (errors, mkLedgerScan (ls_final_state scan) record_ids targets previous)
  else
    let '(kind_errors, allowed, targets) := kind_step path index targets record in
    (errors ++
     error_when (negb (bool_decide (fz_access_state_before record = ls_final_state scan)))
       (mkError ErrorCategory_cross_field (path +:+ "/access_state_before") "ACCESS-PREDECESSOR-STATE"
          "access transition must begin at the exact preceding ledger state") ++
     kind_errors ++
     error_when (negb allowed)
       (mkError ErrorCategory_cross_field path "ACCESS-ILLEGAL-TRANSITION"
          "record kind does not authorize this access-state transition"),
     mkLedgerScan (if allowed then fz_access_state_after record else ls_final_state scan)
       record_ids targets previous).

Fixpoint ledger_loop (index : nat) (scan : LedgerScan) (rest : list FreezeRecord) :
    list ValidationError * LedgerScan :=
  match rest with
  | [] => ([], scan)
  | record :: rest =>
      let '(errors, scan) := ledger_record index scan record in
      let '(more, scan) := ledger_loop (S index) scan rest in
      (errors ++ more, scan)
  end.

Fixpoint duplicate_blocks (seen : list string) (plans : list BlockPlan) : list ValidationError :=
  match plans with
  | [] => []
  | block :: rest =>
      error_when (bool_decide (bp_block_id block ∈ seen))
        (mkError ErrorCategory_duplicate_value "$/blocks" "ACCESS-BLOCK-UNIQUE"
           "block identities in an access graph must be unique") ++
      duplicate_blocks (bp_block_id block :: seen) rest
  end.

Definition initial_ledger : LedgerScan := mkLedgerScan AccessState_planned [] [] None.

Definition validate_access_ledger : AccessLedgerResult :=
  let '(errors, scan) := ledger_loop 0 initial_ledger records in
  mkAccessLedgerResult (ls_final_state scan)
    (validate_authority_policy authorities artifacts ++ validate_role_namespaces namespaces ++
     duplicate_blocks [] blocks ++ errors).
End Ledger.

(** ** Outcome access *)

Definition domain_allows (final_state : AccessState) (block : BlockPlan) (request : AccessRequest) : bool :=
  let at_least state := access_rank state <=? access_rank final_state in
  match aq_domain request with
  | OutcomeDomain_h3_training =>
      bool_decide (aq_actor_role request = AccessPrincipalRole_training_analyst) &&
      bool_decide (bp_block_role block = BlockRole_h3_train) && at_least AccessState_training_open
  | OutcomeDomain_h3_validation =>
      bool_decide (aq_actor_role request = AccessPrincipalRole_confirmatory_analyst) &&
      bool_decide (bp_block_role block = BlockRole_h3_validation) &&
      at_least AccessState_validation_unsealed
  | OutcomeDomain_h1h2 =>
      bool_decide (aq_actor_role request = AccessPrincipalRole_confirmatory_analyst) &&
      at_least AccessState_h1h2_released
  end.

Definition authorize_outcome_access (ledger : AccessLedgerResult) (blocks : list BlockPlan)
    (authorities : AuthorityPolicy) (request : AccessRequest) : Result bool :=
  if nonempty (al_errors ledger) then
    fail_with ErrorCategory_missing_evidence "$/access_ledger" "ACCESS-LEDGER-NOT-VALID"
      "outcome access is denied while the ledger has validation errors"
  else
    let unresolved :=
      fail_with ErrorCategory_reference_mismatch "$/access_request" "ACCESS-REQUEST-IDENTITY"
        "actor assignment and active block identity must be frozen and resolvable" in
    match assignment_for authorities (aq_actor_role request), id_in blocks (aq_block_id request) with
    | Some assignment, Some block =>
        if negb (bool_decide (pa_authority_id assignment = aq_actor_id request)) ||
           is_replaced blocks (aq_block_id request) then unresolved
        else if negb (domain_allows (al_final_state ledger) block request) then
          fail_with ErrorCategory_missing_evidence "$/access_request" "ACCESS-OUTCOME-DENIED"
            "role, block role, or access chronology does not permit this outcome access"
        else success true
    | _, _ => unresolved
    end.

(** ** Replacement of a block *)

Definition replacement_blocks (blocks : list BlockPlan) : Z :=
  Z.of_nat (length (filter (fun block => is_Some (bp_replaces_block_id block)) blocks)).

Definition option_is {A : Type} `{EqDecision A} (o : option A) (value : A) : bool :=
  bool_decide (o = Some value).

(** The invalid run belongs to the replaced block and the failure names it. *)
Definition invalid_required_run (request : ReplacementRequest) : bool :=
  let block := rq_replaced_block request in
  let run := rq_invalid_run request in
  let failure := rq_failure request in
  bool_decide (rm_stage run = Stage_stage_a) &&
  bool_decide (rm_block_id run = bp_block_id block) &&
  bool_decide (rm_block_role run = bp_block_role block) &&
  bool_decide (rm_validity run = RunValidity_invalid) &&
  bool_decide (rm_block_completeness run = BlockCompleteness_incomplete) &&
  existsb (same_factor run) (bp_cells block) &&
  bool_decide (fl_failure_record_id failure ∈ rm_failure_record_ids run) &&
  option_is (fl_run_id failure) (rm_run_id run) &&
  option_is (fl_block_id failure) (bp_block_id block) &&
  fl_invalidates_run failure &&
  bool_decide (fl_block_consequence failure = BlockConsequence_original_block_incomplete).

Definition budget_bound (authorization : FreezeRecord) (budget : ReplacementBudget) : bool :=
  existsb (fun input => bool_decide (ai_artifact input = rg_budget_artifact budget) &&
                        prospective_class (ai_access_class input)) (fz_input_artifacts authorization).

Section Replacement.
Context (sha256 : list Z -> list Z).

(** What the authorization says of the block, the failure and the budget. *)
Definition authorization_lineage (request : ReplacementRequest) (budget : ReplacementBudget) :
    option ReplacementAuthorization :=
  let block := rq_replaced_block request in
  let authorization := rq_authorization request in
  let? authorized := fz_replacement authorization in
  if negb (bool_decide (validate (Record_freeze authorization) = [])) ||
     negb (zero_self_hash_matches sha256 authorization) ||
     negb (bool_decide (fz_record_kind authorization = RecordKind_replacement_authorization)) ||
     negb (bool_decide (fz_affected_block_ids authorization = [bp_block_id block])) ||
     negb (bool_decide (ra_original_block_id authorized = bp_block_id block)) ||
     negb (bool_decide (ra_failure_record_id authorized = fl_failure_record_id (rq_failure request))) ||
     negb (bool_decide (ra_replacement_budget_record_id authorized =
                        ar_artifact_id (rg_budget_artifact budget))) ||
     negb (budget_bound authorization budget)
  then None else Some authorized.

(** The generation input is the authorized one. *)
Definition input_bound (request : ReplacementRequest) (authorized : ReplacementAuthorization)
    (generated_id : Identifier) : bool :=
  let block := rq_replaced_block request in
  let input := rq_replacement_input request in
  bool_decide (generated_id = ra_replacement_block_id authorized) &&
  bool_decide (bg_platform_id input = bp_platform_id block) &&
  bool_decide (bg_build_id input = bp_build_id block) &&
  (bg_block_ordinal input =? ra_replacement_block_ordinal authorized) &&
  bool_decide (bg_role input = ra_block_role authorized) &&
  bool_decide (bs_block_subspace_id (bg_seeds input) = ra_replacement_seed_subspace_id authorized) &&
  match bg_replacement input with
  | None => false
  | Some replacement =>
      bool_decide (ri_replacement_authorization_id replacement =
                   fz_record_id (rq_authorization request)) &&
      bool_decide (ri_replaced_block_id replacement = bp_block_id block) &&
      (ri_replaced_block_ordinal replacement =? bp_block_ordinal block) &&
      bool_decide (ri_replaced_block_role replacement = bp_block_role block) &&
      bool_decide (ri_replaced_seed_subspace_id replacement = bp_seed_subspace_id block)
  end.

Definition collides (input : BlockGenerationInput) (generated_id : Identifier) (block : BlockPlan) : bool :=
  bool_decide (bp_block_id block = generated_id) ||
  (bp_block_ordinal block =? bg_block_ordinal input) ||
  bool_decide (bp_seed_subspace_id block = bs_block_subspace_id (bg_seeds input)).

Definition same_order (a b : BlockPlan) : bool :=
  bool_decide (bp_whole_plot_order a = bp_whole_plot_order b) &&
  bool_decide (ordered_factor_sequence a = ordered_factor_sequence b).

(** The end of the decision: the new plan. *)
Definition generate_replacement (request : ReplacementRequest) (existing_blocks : list BlockPlan)
    (namespaces : RoleNamespaceRegistry) (authorized : ReplacementAuthorization) :
    Throws (Result ReplacementDecision) :=
  let input := rq_replacement_input request in
  let unbound :=
    Returned (fail_with ErrorCategory_reference_mismatch "$/replacement/new_plan"
      "REPLACEMENT-NEW-BLOCK-BINDING"
      "new identity, ordinal, role, seed subspace, and authorization must match exactly") in
  match make_block_id sha256 (bg_platform_id input) (bg_build_id input) (bg_role input)
          (bg_block_ordinal input) with
  | failure _ => unbound
  | success generated_id =>
      if negb (input_bound request authorized generated_id) then unbound
      else if existsb (collides input generated_id) existing_blocks then
        Returned (fail_with ErrorCategory_duplicate_value "$/replacement/new_plan"
          "REPLACEMENT-NEW-IDENTITY" "replacement ID, ordinal, and seed subspace must all be new")
      else
        let! generated := generate_block_plan sha256 input namespaces in
        match generated with
        | failure errors => Returned (failure errors)
        | success g =>
            if same_order (gp_plan g) (rq_replaced_block request) then
              Returned (fail_with ErrorCategory_cross_field "$/replacement/new_plan/cells"
                "REPLACEMENT-NEW-RANDOM-ORDER"
                "replacement must realize a new randomized whole/cell order")
            else
              Returned (success
                (mkReplacementDecision ReplacementDecisionState_authorized (Some g) []))
        end
  end.

Definition failure_resolved (request : ReplacementRequest) (authorized : ReplacementAuthorization) : bool :=
  let failure := rq_failure request in
  bool_decide (fl_resolution_status failure = ResolutionStatus_replacement_authorized) &&
  option_is (fl_replacement_authorization_id failure) (fz_record_id (rq_authorization request)) &&
  option_is (fl_replacement_block_id failure) (ra_replacement_block_id authorized).

Definition decide_complete_block_replacement (request : ReplacementRequest)
    (existing_blocks : list BlockPlan) (budget : ReplacementBudget)
    (namespaces : RoleNamespaceRegistry) : Throws (Result ReplacementDecision) :=
  let block := rq_replaced_block request in
  if negb (bool_decide (bp_platform_id block = rg_platform_id budget)) ||
     negb (is_some (id_in existing_blocks (bp_block_id block))) ||
     negb (opaque (ar_artifact_id (rg_budget_artifact budget))) then
    Returned (fail_with ErrorCategory_reference_mismatch "$/replacement" "REPLACEMENT-PLATFORM-BUDGET"
      "target block and frozen budget must share an explicit platform")
  else if replacement_blocks existing_blocks >=? rg_maximum_replacement_blocks budget then
    Returned (success (mkReplacementDecision ReplacementDecisionState_study_unresolved None
      ["R_replacement_max is exhausted; collection must stop unresolved"]))
  else if is_replaced existing_blocks (bp_block_id block) then
    Returned (fail_with ErrorCategory_duplicate_value "$/replacement/replaces_block_id"
      "REPLACEMENT-NO-BRANCH" "an incomplete block may have only one direct replacement")
  else if negb (invalid_required_run request) then
    Returned (fail_with ErrorCategory_missing_evidence "$/replacement/failure"
      "REPLACEMENT-INVALID-REQUIRED-RUN"
      "replacement requires a retained invalid required run and matching invalidating failure record")
  else
    match authorization_lineage request budget with
    | None =>
        Returned (fail_with ErrorCategory_reference_mismatch "$/replacement/authorization"
          "REPLACEMENT-AUTHORIZATION-LINEAGE"
          "authorization must name the exact block, invalid failure, and frozen budget hash")
    | Some authorized =>
        if negb (failure_resolved request authorized) then
          Returned (fail_with ErrorCategory_reference_mismatch "$/replacement/failure/resolution_status"
            "REPLACEMENT-FAILURE-AUTHORIZATION"
            "failure resolution must link the exact authorization and replacement block")
        else generate_replacement request existing_blocks namespaces authorized
    end.
End Replacement.

(** ** The validator of a record set *)

Definition block_of (record : ProtocolRecord) : option BlockPlan :=
  match record with Record_block r => Some r | _ => None end.
Definition freeze_of (record : ProtocolRecord) : option FreezeRecord :=
  match record with Record_freeze r => Some r | _ => None end.
Definition failure_of (record : ProtocolRecord) : option FailureRecord :=
  match record with Record_failure r => Some r | _ => None end.
Definition manifest_of (record : ProtocolRecord) : option RunManifest :=
  match record with Record_manifest r => Some r | _ => None end.

(** Every replacement of a block after the first. *)
Fixpoint branch_errors (replaced : list string) (blocks : list BlockPlan) : list ValidationError :=
  match blocks with
  | [] => []
  | block :: rest =>
      match bp_replaces_block_id block with
      | None => branch_errors replaced rest
      | Some id =>
          error_when (bool_decide (id ∈ replaced))
            (mkError ErrorCategory_duplicate_value "$/blocks/replaces_block_id" "REPLACEMENT-NO-BRANCH"
               "an incomplete block may have only one direct replacement") ++
          branch_errors (id :: replaced) rest
      end
  end.

(** The seeds of a catalog: an error for each that was seen. *)
Fixpoint all_seed_errors (seen : list string) (seeds : list Identifier) :
    list ValidationError * list string :=
  match seeds with
  | [] => ([], seen)
  | seed :: rest =>
      let '(errors, all) := all_seed_errors (seed :: seen) rest in
      (error_when (bool_decide (seed ∈ seen))
         (mkError ErrorCategory_duplicate_value "$/seed_catalogs" "BLK-POOL-SEED-NO-REUSE"
            "original and replacement block seed subspaces cannot overlap") ++ errors, all)
  end.

Section Stage14.
Context (sha256 : list Z -> list Z).
Context (namespaces : RoleNamespaceRegistry) (seed_catalogs : list BlockSeedCatalog).
Context (artifacts : list ArtifactAccessRecord) (authorities : AuthorityPolicy).
Context (precision : option PrecisionResult) (replacement_budget : option ReplacementBudget).

Definition catalog_for (block : BlockPlan) : option BlockSeedCatalog :=
  find (fun candidate => bool_decide (bs_block_subspace_id candidate = bp_seed_subspace_id block))
    seed_catalogs.

(** The loop over the blocks: errors and the active blocks with their catalogs. *)
Fixpoint stage14_blocks (blocks : list BlockPlan) (seen : list string) (rest : list BlockPlan) :
    list ValidationError * list (BlockPlan * BlockSeedCatalog) :=
  match rest with
  | [] => ([], [])
  | block :: rest =>
      match catalog_for block with
      | None =>
          let '(errors, active) := stage14_blocks blocks seen rest in
          (mkError ErrorCategory_missing_evidence "$/blocks/seed_subspace_id" "BLK-SEED-CATALOG-MISSING"
             "every block requires its immutable role-compatible seed catalog" :: errors, active)
      | Some catalog =>
          let '(reuse, seen) :=
            all_seed_errors seen (bs_arrival_seed_ids catalog ++ bs_node_seed_ids catalog ++
                                  bs_event_seed_ids catalog) in
          let '(errors, active) := stage14_blocks blocks seen rest in
          (validate_block_plan sha256 block catalog namespaces ++ reuse ++ errors,
           if is_replaced blocks (bp_block_id block) then active else (block, catalog) :: active)
      end
  end.

Definition pool_errors (active : list (BlockPlan * BlockSeedCatalog)) : list ValidationError :=
  let unresolved :=
    [mkError ErrorCategory_missing_evidence "$/precision" "BLK-POOL-PRECISION-UNRESOLVED"
       "final common block-pool completeness requires resolved prospective counts"] in
  match precision with
  | Some p =>
      match pz_state p, pz_role_counts p with
      | PrecisionState_resolved, Some roles =>
          validate_block_pool sha256 (fst <$> active) (snd <$> active) namespaces (rc_h3_train roles)
            (rc_h3_validation roles) (rc_h1h2_supplemental roles)
      | _, _ => unresolved
      end
  | None => unresolved
  end.

Definition opens_training (record : FreezeRecord) : bool :=
  bool_decide (fz_record_kind record = RecordKind_protocol_freeze) &&
  bool_decide (fz_access_state_after record = AccessState_training_open).

(** The decision agrees with the precision plan and binds its evidence. *)
Definition training_open_errors (training_open : FreezeRecord) : list ValidationError :=
  match decode_training_open_decision training_open, precision with
  | success decision, Some p =>
      match pz_counts p with
      | Some counts =>
          error_when (negb (counts_equal (td_counts decision) counts))
            (mkError ErrorCategory_reference_mismatch "$/access_records/decision_value"
               "ACCESS-PRECISION-FREEZE-COUNTS"
               "TRAINING_OPEN counts must equal the resolved prospective precision plan")
      | None => []
      end ++
      match pz_evidence p with
      | Some evidence =>
          error_when
            (negb (bool_decide (td_delta_star_artifact_id decision =
                                ar_artifact_id (pe_delta_star evidence)) &&
                   bool_decide (td_bootstrap_configuration_artifact_id decision =
                                ar_artifact_id (pe_bootstrap_configuration evidence))) ||
             negb (forallb (input_contains training_open) (sizing_references evidence)) ||
             negb (forallb (fun input => input_contains training_open (ai_artifact input))
                     (pe_input_artifacts evidence)))
            (mkError ErrorCategory_reference_mismatch "$/access_records/input_artifacts"
               "ACCESS-PRECISION-FREEZE-INPUTS"
               "TRAINING_OPEN must hash-bind the exact delta, bootstrap, separate family sizing, and prospective source evidence")
      | None => []
      end
  | _, _ => []
  end.

Definition training_freeze_errors (freezes : list FreezeRecord) : list ValidationError :=
  match filter (fun record => opens_training record) freezes with
  | [training_open] => training_open_errors training_open
  | _ =>
      [mkError ErrorCategory_missing_evidence "$/access_records" "ACCESS-TRAINING-FREEZE-UNIQUE"
         "the common block pool requires exactly one immutable TRAINING_OPEN freeze"]
  end.

Definition budget_errors (blocks : list BlockPlan) : list ValidationError :=
  match replacement_budget with
  | Some budget =>
      error_when (negb (is_some (artifact_for artifacts (rg_budget_artifact budget))))
        (mkError ErrorCategory_reference_mismatch "$/replacement_budget/budget_artifact"
           "REPLACEMENT-BUDGET-EVIDENCE"
           "the frozen replacement budget must resolve by exact artifact ID and SHA-256") ++
      error_when (replacement_blocks blocks >? rg_maximum_replacement_blocks budget)
        (mkError ErrorCategory_out_of_range "$/replacement_budget" "REPLACEMENT-BUDGET-EXCEEDED"
           "replacement count exceeds R_replacement_max and study must remain unresolved")
  | None =>
      error_when (existsb (fun block => is_some (bp_replaces_block_id block)) blocks)
        (mkError ErrorCategory_missing_evidence "$/replacement_budget" "REPLACEMENT-BUDGET-MISSING"
           "replacement blocks require a frozen platform budget")
  end.

Definition lineage_matches (block original : BlockPlan) : bool :=
  match bp_replacement_lineage block with
  | None => false
  | Some lineage =>
      bool_decide (bp_platform_id block = bp_platform_id original) &&
      bool_decide (bp_build_id block = bp_build_id original) &&
      bool_decide (bp_block_role block = bp_block_role original) &&
      negb (bp_block_ordinal block =? bp_block_ordinal original) &&
      negb (bool_decide (bp_seed_subspace_id block = bp_seed_subspace_id original)) &&
      (rl_replaced_block_ordinal lineage =? bp_block_ordinal original) &&
      bool_decide (rl_replaced_block_role lineage = bp_block_role original) &&
      bool_decide (rl_replaced_seed_subspace_id lineage = bp_seed_subspace_id original) &&
      negb (same_order block original)
  end.

(** The authorization of a replacement block, when it is in order. *)
Definition authorization_of (freezes : list FreezeRecord) (block : BlockPlan)
    (replaces authorization_id : Identifier) : option (FreezeRecord * ReplacementAuthorization) :=
  let? authorization :=
    find (fun record => bool_decide (fz_record_id record = authorization_id)) freezes in
  let? replacement := fz_replacement authorization in
  let? budget := replacement_budget in
  if bool_decide (ra_replacement_block_id replacement = bp_block_id block) &&
     bool_decide (ra_original_block_id replacement = replaces) &&
     (ra_replacement_block_ordinal replacement =? bp_block_ordinal block) &&
     bool_decide (ra_replacement_seed_subspace_id replacement = bp_seed_subspace_id block) &&
     bool_decide (ra_block_role replacement = bp_block_role block) &&
     bool_decide (ra_replacement_budget_record_id replacement =
                  ar_artifact_id (rg_budget_artifact budget)) &&
     input_contains authorization (rg_budget_artifact budget)
  then Some (authorization, replacement) else None.

Definition invalid_run_resolved (failures : list FailureRecord) (manifests : list RunManifest)
    (block : BlockPlan) (replaces : Identifier) (authorization : FreezeRecord)
    (replacement : ReplacementAuthorization) : bool :=
  match find (fun record => bool_decide (fl_failure_record_id record = ra_failure_record_id replacement))
          failures with
  | None => false
  | Some found =>
      match fl_run_id found with
      | None => false
      | Some run_id =>
          existsb (fun run => bool_decide (rm_run_id run = run_id) &&
                              bool_decide (rm_validity run = RunValidity_invalid)) manifests
      end &&
      fl_invalidates_run found && option_is (fl_block_id found) replaces &&
      bool_decide (fl_resolution_status found = ResolutionStatus_replacement_authorized) &&
      option_is (fl_replacement_authorization_id found) (fz_record_id authorization) &&
      option_is (fl_replacement_block_id found) (bp_block_id block)
  end.

(** One replacement block of the pool. *)
Definition replacement_errors (blocks : list BlockPlan) (freezes : list FreezeRecord)
    (failures : list FailureRecord) (manifests : list RunManifest) (block : BlockPlan) :
    list ValidationError :=
  match bp_replaces_block_id block, bp_replacement_authorization_id block with
  | Some replaces, Some authorization_id =>
      if negb (match id_in blocks replaces with
               | Some original => lineage_matches block original
               | None => false
               end) then
        [mkError ErrorCategory_reference_mismatch "$/replacement_lineage"
           "REPLACEMENT-ORIGINAL-RESOLUTION"
           "replacement lineage must resolve the retained original with the same platform/build/role and a new ordinal, seed subspace, and randomized order"]
      else
        match authorization_of freezes block replaces authorization_id with
        | None =>
            [mkError ErrorCategory_reference_mismatch "$/replacement_authorization_id"
               "REPLACEMENT-RECORD-RESOLUTION"
               "replacement plan must resolve an authorization naming both block identities"]
        | Some (authorization, replacement) =>
            error_when (negb (invalid_run_resolved failures manifests block replaces authorization
                                replacement))
              (mkError ErrorCategory_missing_evidence "$/replacement/failure_record_id"
                 "REPLACEMENT-INVALID-RUN-RESOLUTION"
                 "replacement authorization must resolve a retained invalid required run and failure")
        end
  | _, _ => []
  end.

(** [Stage14CrossRecordSemanticValidator::validate]. *)
Definition stage14_validate (records : list ProtocolRecord) : list ValidationError :=
  let blocks := omap block_of records in
  let freezes := omap freeze_of records in
  let failures := omap failure_of records in
  let manifests := omap manifest_of records in
  let '(block_errors, active) := stage14_blocks blocks [] blocks in
  mjoin (validate <$> records) ++
  branch_errors [] blocks ++
  block_errors ++
  pool_errors active ++
  al_errors (validate_access_ledger sha256 blocks freezes artifacts namespaces authorities) ++
  training_freeze_errors freezes ++
  budget_errors blocks ++
  mjoin (replacement_errors blocks freezes failures manifests <$> blocks).
End Stage14.
