(* ===== verification/AccessControl.v ===== *)
(** * Properties of access control

    The access ledger refines an abstract machine of eight states; an outcome is
    accessible only after the records that open it, in their order. *)

From stdpp Require Import prelude list strings gmap.
From Stdlib Require Import ZArith Lia.
From S2P Require Import Prelude Validation Model Bytes Json Documents Load Semantic SemanticRecords.
From S2P Require Import Configuration BlockPlanning BlockPlans Precision Access.

#[local] Open Scope Z_scope.
#[local] Open Scope result_scope.

(** ** The abstract machine *)

(** The transition a kind of record stands for; amendments and replacement
    authorizations leave the state as it is. *)
Inductive access_step : RecordKind -> AccessState -> AccessState -> Prop :=
| transition_collect :
    access_step RecordKind_protocol_freeze AccessState_planned AccessState_collected_sealed
| transition_open_training :
    access_step RecordKind_protocol_freeze AccessState_collected_sealed AccessState_training_open
| transition_freeze_selection :
    access_step RecordKind_selection_freeze AccessState_training_open AccessState_selection_frozen
| transition_unseal :
    access_step RecordKind_validation_unseal AccessState_selection_frozen
      AccessState_validation_unsealed
| transition_evaluate :
    access_step RecordKind_h3_evaluated AccessState_validation_unsealed AccessState_h3_evaluated
| transition_release :
    access_step RecordKind_h1h2_released AccessState_h3_evaluated AccessState_h1h2_released
| transition_archive :
    access_step RecordKind_protocol_freeze AccessState_h1h2_released AccessState_archived
| transition_amend state : access_step RecordKind_amendment state state
| transition_replace state : access_step RecordKind_replacement_authorization state state.

(** Histories of the machine. *)
Inductive access_history : AccessState -> list FreezeRecord -> AccessState -> Prop :=
| history_nil state : access_history state [] state
| history_cons record state next rest last :
    access_step (fz_record_kind record) state next -> access_history next rest last ->
    access_history state (record :: rest) last.

Lemma transition_rank kind before after :
  access_step kind before after ->
  access_rank after = access_rank before \/ access_rank after = access_rank before + 1.
Proof. destruct 1; cbn; lia. Qed.

(** The record that takes a history over a rank. *)
Lemma history_crosses state records last n :
  access_history state records last -> access_rank state <= n < access_rank last ->
  exists pre record post before after, records = pre ++ record :: post /\
    access_history state pre before /\ access_step (fz_record_kind record) before after /\
    access_history after post last /\ access_rank before = n /\ access_rank after = n + 1.
Proof.
  induction 1 as [|record state next rest last T H IH]; intros R; [lia|].
  destruct (transition_rank _ _ _ T) as [E|E].
  - destruct IH as (pre & r & post & before & after & -> & P & Q); [lia|].
    exists (record :: pre), r, post, before, after. split; [done|]. split; [by econstructor | done].
  - destruct (decide (access_rank state = n)) as [<-|N].
    + exists [], record, rest, state, next. split_and!; try done. constructor.
    + destruct IH as (pre & r & post & before & after & -> & P & Q); [lia|].
      exists (record :: pre), r, post, before, after. split; [done|]. split; [by econstructor | done].
Qed.

(** The record at an index takes the machine over a rank. *)
Definition crosses (records : list FreezeRecord) (n index : nat) : Prop :=
  exists record before after, records !! index = Some record /\
    access_step (fz_record_kind record) before after /\
    access_rank before = Z.of_nat n /\ access_rank after = Z.of_nat n + 1.

(** A history from the initial state crosses every rank below its last, in
    order. *)
Lemma history_crossings n : forall records last,
  access_history AccessState_planned records last -> Z.of_nat n < access_rank last ->
  exists index : nat -> nat,
    (forall m, (m <= n)%nat -> crosses records m (index m)) /\
    (forall m, (m < n)%nat -> (index m < index (S m))%nat) /\ (index n < length records)%nat.
Proof.
  induction n as [|n IH]; intros records last H R.
  - destruct (history_crosses _ _ _ 0 H) as (pre & r & post & before & after & -> & _ & T & _ & B & A);
      [cbn; lia|].
    exists (fun _ => length pre). split_and!; [|lia|rewrite length_app; simpl; lia].
    intros m Hm. replace m with 0%nat by lia. exists r, before, after.
    split; [by apply list_lookup_middle|]. by split_and!.
  - destruct (history_crosses _ _ _ (Z.of_nat (S n)) H)
      as (pre & r & post & before & after & -> & P & T & _ & B & A); [cbn; lia|].
    destruct (IH _ _ P) as (index & C & O & L); [lia|].
    exists (fun m => if (m =? S n)%nat then length pre else index m). split_and!.
    + intros m Hm. destruct (Nat.eqb_spec m (S n)) as [->|N].
      * exists r, before, after. split; [by apply list_lookup_middle|]. by split_and!.
      * destruct (C m) as (r' & b & a & E & Q); [lia|]. exists r', b, a. split; [|done].
        by apply lookup_app_l_Some.
    + intros m Hm. destruct (Nat.eqb_spec m (S n)); [lia|].
      destruct (Nat.eqb_spec (S m) (S n)) as [[= ->]|]; [done | apply O; lia].
    + rewrite Nat.eqb_refl, length_app. simpl. lia.
Qed.

(** ** Empty error lists *)

Lemma join_errors_nil {A : Type} (f : A -> list ValidationError) l :
  mjoin (f <$> l) = [] <-> Forall (fun x => f x = []) l.
Proof.
  induction l as [|x l IH]; [done|]. cbn [fmap list_fmap mjoin list_join].
  rewrite app_nil, Forall_cons, <- IH. done.
Qed.

Lemma join_error_when_nil {A : Type} (b : A -> bool) (e : A -> ValidationError) l :
  mjoin ((fun x => error_when (b x) (e x)) <$> l) = [] <-> Forall (fun x => b x = false) l.
Proof.
  rewrite join_errors_nil. apply Forall_iff. intros x. apply error_when_nil.
Qed.

(** ** One record of a clean ledger *)

Section Clean.
Context (sha256 : list Z -> list Z) (blocks : list BlockPlan) (records : list FreezeRecord).
Context (artifacts : list ArtifactAccessRecord) (namespaces : RoleNamespaceRegistry).
Context (authorities : AuthorityPolicy).

(** The evidence a record carries for the transition of its kind. *)
Definition kind_evidence (index : nat) (record : FreezeRecord) : Prop :=
  let names role := exact_affected_blocks record blocks role = true in
  match fz_record_kind record with
  | RecordKind_protocol_freeze =>
      fz_outcome_access_prohibited record = true /\
      match fz_access_state_after record with
      | AccessState_training_open =>
          names (Some BlockRole_h3_train) /\ has_value (decode_training_open_decision record) = true
      | _ => names None
      end
  | RecordKind_selection_freeze =>
      names (Some BlockRole_h3_train) /\
      fz_selection_rule_version record = Some kH3SelectionRuleId /\
      selection_checksum_matches sha256 record = true /\
      selections_exact (fz_h3_selections record) = true /\
      Forall (fun training => training_artifact_ok artifacts record training = true)
        (fz_training_input_artifacts record) /\
      training_inputs record = length (fz_training_input_artifacts record)
  | RecordKind_validation_unseal =>
      names (Some BlockRole_h3_validation) /\
      (forall path, validation_namespace_errors artifacts namespaces path record = []) /\
      validation_approved artifacts authorities record = true /\
      earlier_record records index (fz_selection_record_ref record) = true
  | RecordKind_h3_evaluated =>
      names (Some BlockRole_h3_validation) /\
      earlier_record records index (fz_selection_record_ref record) = true /\
      earlier_record records index (fz_validation_unseal_record_ref record) = true /\
      known_artifact artifacts (fz_h3_evaluation_artifact_ref record) = true
  | RecordKind_h1h2_released =>
      names None /\ known_artifact artifacts (fz_h3_evaluation_artifact_ref record) = true /\
      known_artifact artifacts (fz_h3_access_record_ref record) = true
  | RecordKind_amendment =>
      fz_outcome_access_prohibited record = true /\
      exists supersedes, fz_supersedes_id record = Some supersedes /\
        prior_hash_named records index record supersedes = true
  | RecordKind_replacement_authorization => True
  end.

Lemma moves_iff record before after :
  moves record before after = true <->
  fz_access_state_before record = before /\ fz_access_state_after record = after.
Proof. unfold moves. by rewrite andb_true_iff, !bool_decide_eq_true. Qed.

Lemma validation_namespace_errors_path record path path' :
  validation_namespace_errors artifacts namespaces path record = [] ->
  validation_namespace_errors artifacts namespaces path' record = [].
Proof.
  unfold validation_namespace_errors.
  destruct (fz_validation_namespace_id record), (find_binding namespaces BlockRole_h3_validation),
    (fz_validation_artifact_ref record);
    try done. destruct (negb _); [done|]. by rewrite !error_when_nil.
Qed.

Lemma protocol_freeze_clean path index record errors :
  fz_record_kind record = RecordKind_protocol_freeze ->
  protocol_freeze_step blocks path record = (errors, true) ->
  access_step RecordKind_protocol_freeze (fz_access_state_before record)
    (fz_access_state_after record) /\ kind_evidence index record.
Proof.
  intros K. unfold protocol_freeze_step, kind_evidence. rewrite K. intros [= _ A].
  rewrite !andb_true_iff, !orb_true_iff, !moves_iff, bool_decide_eq_true in A.
  destruct A as [[[[[B C]|[B C]]|[B C]] [P R]] E]; rewrite B, C in *;
    (split; [constructor|]); (split; [done|]); rewrite ?andb_true_iff in E; done.
Qed.

Lemma selection_freeze_clean path index record :
  fz_record_kind record = RecordKind_selection_freeze ->
  selection_freeze_step sha256 blocks artifacts path record = ([], true) ->
  access_step RecordKind_selection_freeze (fz_access_state_before record)
    (fz_access_state_after record) /\ kind_evidence index record.
Proof.
  intros K. unfold selection_freeze_step, kind_evidence. rewrite K. intros [= E A].
  rewrite !andb_true_iff, moves_iff, bool_decide_eq_true, Nat.eqb_eq in A.
  destruct A as [[[[[B C] X] R] H] N]. rewrite B, C.
  rewrite !app_nil, join_error_when_nil, !error_when_nil in E. destruct E as (_ & _ & _ & S & T & _).
  split; [constructor|]. split_and!; try done; [by apply negb_false_iff in S|].
  eapply Forall_impl; [exact T|]. intros x. apply negb_false_iff.
Qed.

Lemma validation_unseal_clean path index record :
  fz_record_kind record = RecordKind_validation_unseal ->
  validation_unseal_step blocks records artifacts namespaces authorities path index record = ([], true) ->
  access_step RecordKind_validation_unseal (fz_access_state_before record)
    (fz_access_state_after record) /\ kind_evidence index record.
Proof.
  intros K. unfold validation_unseal_step, kind_evidence. rewrite K. intros [= E A].
  rewrite andb_true_iff, moves_iff in A. destruct A as [[B C] X]. rewrite B, C.
  rewrite !app_nil, !error_when_nil, !negb_false_iff in E. destruct E as (_ & N & V & S).
  split; [constructor|]. split_and!; try done. intros path'. by eapply validation_namespace_errors_path.
Qed.

Lemma h3_evaluated_clean path index record :
  fz_record_kind record = RecordKind_h3_evaluated ->
  h3_evaluated_step blocks records artifacts path index record = ([], true) ->
  access_step RecordKind_h3_evaluated (fz_access_state_before record)
    (fz_access_state_after record) /\ kind_evidence index record.
Proof.
  intros K. unfold h3_evaluated_step, kind_evidence. rewrite K. intros [= E A].
  rewrite andb_true_iff, moves_iff in A. destruct A as [[B C] X]. rewrite B, C.
  rewrite !app_nil, !error_when_nil, !orb_false_iff, !negb_false_iff in E.
  destruct E as (_ & (L & M) & N). split; [constructor|]. by split_and!.
Qed.

Lemma h1h2_released_clean path index record :
  fz_record_kind record = RecordKind_h1h2_released ->
  h1h2_released_step blocks artifacts path record = ([], true) ->
  access_step RecordKind_h1h2_released (fz_access_state_before record)
    (fz_access_state_after record) /\ kind_evidence index record.
Proof.
  intros K. unfold h1h2_released_step, kind_evidence. rewrite K. intros [= E A].
  rewrite andb_true_iff, moves_iff in A. destruct A as [[B C] X]. rewrite B, C.
  rewrite !app_nil, !error_when_nil, !orb_false_iff, !negb_false_iff in E.
  destruct E as (_ & L & M). split; [constructor|]. by split_and!.
Qed.

Lemma amendment_clean path index targets targets' record :
  fz_record_kind record = RecordKind_amendment ->
  amendment_step records path index targets record = ([], true, targets') ->
  access_step RecordKind_amendment (fz_access_state_before record)
    (fz_access_state_after record) /\ kind_evidence index record.
Proof.
  intros K. unfold amendment_step, amendment_lineage, kind_evidence. rewrite K.
  destruct (fz_supersedes_id record) as [supersedes|]; [|done].
  destruct (bool_decide (supersedes ∈ targets)); [done|]. intros [= E A _].
  rewrite andb_true_iff, bool_decide_eq_true in A. destruct A as [B P]. rewrite B.
  rewrite app_nil, !error_when_nil, negb_false_iff in E. destruct E as [E _].
  split; [constructor|]. split; [done|]. by exists supersedes.
Qed.

Lemma kind_step_clean path index targets targets' record :
  fz_record_kind record <> RecordKind_replacement_authorization ->
  kind_step sha256 blocks records artifacts namespaces authorities path index targets record =
    ([], true, targets') ->
  access_step (fz_record_kind record) (fz_access_state_before record)
    (fz_access_state_after record) /\ kind_evidence index record.
Proof.
  unfold kind_step. destruct (fz_record_kind record) eqn:K; intros N E.
  all: try done.
  all: try (by eapply amendment_clean).
  all: apply (f_equal fst) in E; cbn [fst] in E.
  all: eauto using protocol_freeze_clean, selection_freeze_clean, validation_unseal_clean,
         h3_evaluated_clean, h1h2_released_clean.
Qed.

(** What a clean ledger established of the record at an index. *)
Record record_clean (index : nat) (record : FreezeRecord) : Prop := {
  rc_local : freeze_sound record;
  rc_hash : zero_self_hash_matches sha256 record = true;
  rc_inputs : Forall (fun input => reference_resolves records index artifacts (ai_artifact input) = true)
                (fz_input_artifacts record);
  rc_authority : authority_bound authorities record = true;
  rc_blocks : Forall (fun id => exists block, id_in blocks id = Some block /\
                role_allowed_for_record record (bp_block_role block) = true)
                (fz_affected_block_ids record);
  rc_evidence : kind_evidence index record
}.

Lemma record_errors_nil path index scan record :
  record_errors sha256 blocks records artifacts authorities path index scan record = [] ->
  freeze_sound record /\ (fz_record_id record ∉ ls_record_ids scan) /\
  zero_self_hash_matches sha256 record = true /\
  (exists t, parse_utc (fz_created_at_utc record) = Some t /\
     forall previous, ls_previous_timestamp scan = Some previous -> timestamp_less t previous = false) /\
  Forall (fun input => reference_resolves records index artifacts (ai_artifact input) = true)
    (fz_input_artifacts record) /\
  authority_bound authorities record = true /\
  Forall (fun id => exists block, id_in blocks id = Some block /\
    role_allowed_for_record record (bp_block_role block) = true) (fz_affected_block_ids record).
Proof.
  unfold record_errors. rewrite !app_nil, !join_error_when_nil, !error_when_nil.
  intros (L & D & H & T & I & A & B). split_and!.
  - by apply freeze_valid.
  - by apply bool_decide_eq_false in D.
  - by apply negb_false_iff in H.
  - unfold out_of_order in T. destruct (parse_utc (fz_created_at_utc record)) as [t|]; [|done].
    exists t. split; [done|]. intros previous P. by rewrite P in T.
  - eapply Forall_impl; [exact I|]. intros input. apply negb_false_iff.
  - by apply negb_false_iff in A.
  - eapply Forall_impl; [exact B|]. intros id. cbv beta.
    destruct (id_in blocks id) as [block|]; [|done]. rewrite negb_false_iff. intros R. by exists block.
Qed.

Lemma ledger_record_nil index scan record next :
  ledger_record sha256 blocks records artifacts namespaces authorities index scan record = ([], next) ->
  record_clean index record /\
  access_step (fz_record_kind record) (ls_final_state scan) (ls_final_state next) /\
  (fz_record_id record ∉ ls_record_ids scan) /\ ls_record_ids next = fz_record_id record :: ls_record_ids scan /\
  exists t, parse_utc (fz_created_at_utc record) = Some t /\ ls_previous_timestamp next = Some t /\
    forall previous, ls_previous_timestamp scan = Some previous -> timestamp_less t previous = false.
Proof.
  unfold ledger_record. set (path := _ +:+ _). case_bool_decide as K.
  - intros [= E <-]. destruct (record_errors_nil _ _ _ _ E) as (L & D & H & (t & T & P) & I & A & B).
    cbn [ls_final_state ls_record_ids ls_previous_timestamp]. unfold next_timestamp. rewrite T, K.
    split_and!; try done; [|constructor|by exists t].
    split; try done. unfold kind_evidence. by rewrite K.
  - destruct (kind_step _ _ _ _ _ _ _ _ _ _) as [[errors allowed] targets] eqn:S.
    intros [= E <-]. rewrite !app_nil, !error_when_nil, !negb_false_iff in E.
    destruct E as (E & Q & -> & ->). apply bool_decide_eq_true in Q.
    destruct (record_errors_nil _ _ _ _ E) as (L & D & H & (t & T & P) & I & A & B).
    destruct (kind_step_clean _ _ _ _ _ K S) as [X V].
    cbn [ls_final_state ls_record_ids ls_previous_timestamp]. unfold next_timestamp.
    rewrite T, <- Q. split_and!; try done. by exists t.
Qed.

(** Each record's timestamp is not before the preceding one's. *)
Fixpoint chronological (previous : option UtcTimestamp) (rest : list FreezeRecord) : Prop :=
  match rest with
  | [] => True
  | record :: rest =>
      exists t, parse_utc (fz_created_at_utc record) = Some t /\
        (forall p, previous = Some p -> timestamp_less t p = false) /\ chronological (Some t) rest
  end.

Lemma ledger_loop_nil rest : forall index scan last,
  ledger_loop sha256 blocks records artifacts namespaces authorities index scan rest = ([], last) ->
  access_history (ls_final_state scan) rest (ls_final_state last) /\
  (forall i record, rest !! i = Some record -> record_clean (index + i) record) /\
  fresh (ls_record_ids scan) (fz_record_id <$> rest) /\
  chronological (ls_previous_timestamp scan) rest.
Proof.
  induction rest as [|record rest IH]; intros index scan last; cbn [ledger_loop].
  { intros [= <-]. split_and!; [constructor | done | apply fresh_nil | done]. }
  destruct (ledger_record _ _ _ _ _ _ _ _ _) as [errors next] eqn:R.
  destruct (ledger_loop _ _ _ _ _ _ _ _ rest) as [more end_] eqn:M.
  intros [= E <-]. apply app_nil in E as [-> ->].
  destruct (ledger_record_nil _ _ _ _ R) as (C & T & D & Ids & t & Pt & Nt & Ct).
  destruct (IH _ _ _ M) as (H & F & U & Ch). split_and!.
  - by econstructor.
  - intros [|i] r; simpl; [intros [= <-]; by rewrite Nat.add_0_r|].
    intros L. rewrite Nat.add_succ_r. by apply (F i).
  - cbn [fmap list_fmap]. eapply fresh_cons; [done | | exact U]. intros y. rewrite Ids. apply elem_of_cons.
  - exists t. split_and!; try done. by rewrite <- Nt.
Qed.
End Clean.

(** ** The authority policy *)

Definition policy_sound (policy : AuthorityPolicy) (artifacts : list ArtifactAccessRecord) : Prop :=
  pa_role <$> ap_assignments policy ≡ₚ required_principals /\
  (forall i j a b, (i < j)%nat -> ap_assignments policy !! i = Some a ->
     ap_assignments policy !! j = Some b -> pa_authority_id a = pa_authority_id b ->
     overlap_permitted policy artifacts a b = true).

Lemma assignment_errors_nil assignments : forall index roles,
  fst (assignment_errors index roles assignments) = [] ->
  fresh roles (pa_role <$> assignments) /\
  (forall role, role ∈ snd (assignment_errors index roles assignments) <->
     role ∈ pa_role <$> assignments \/ role ∈ roles).
Proof.
  induction assignments as [|a assignments IH]; intros index roles; cbn [assignment_errors].
  { intros _. split; [apply fresh_nil | cbn; set_solver]. }
  set (roles' := if opaque _ then _ else _). specialize (IH (index + 1) roles').
  destruct (assignment_errors (index + 1) roles' assignments) as [errors last]. cbn [fst snd] in *.
  rewrite app_nil, error_when_nil, orb_false_iff, negb_false_iff, bool_decide_eq_false.
  intros [[O D] E]. subst roles'. rewrite O in IH. destruct (IH E) as [F S]. split.
  - eapply fresh_cons; [done | | exact F]. intros y. apply elem_of_cons.
  - intros role. rewrite S. cbn. set_solver.
Qed.

Lemma ordered_pairs_lookup {A} (l : list A) : forall i j a b,
  (i < j)%nat -> l !! i = Some a -> l !! j = Some b -> (a, b) ∈ ordered_pairs l.
Proof.
  induction l as [|x l IH]; intros i j a b L A' B; [done|]. cbn [ordered_pairs]. apply elem_of_app.
  destruct j as [|j]; [lia|]. destruct i as [|i].
  - left. injection A' as <-. apply list_elem_of_fmap. exists b. split; [done|].
    by eapply list_elem_of_lookup_2.
  - right. by apply (IH i j); [lia|..].
Qed.

Lemma authority_policy_nil policy artifacts :
  validate_authority_policy policy artifacts = [] -> policy_sound policy artifacts.
Proof.
  unfold validate_authority_policy.
  pose proof (assignment_errors_nil (ap_assignments policy) 0 []) as S.
  destruct (assignment_errors 0 [] (ap_assignments policy)) as [errors roles]. cbn [fst snd] in S.
  rewrite !app_nil, !join_error_when_nil, error_when_nil. intros (E & C & L & P).
  destruct (S E) as [[N _] R]. apply negb_false_iff, Nat.eqb_eq in L. split.
  - symmetry. apply submseteq_length_Permutation; [|rewrite length_fmap; lia].
    apply NoDup_submseteq; [apply (bool_decide_unpack _); vm_compute; done|]. intros role H.
    rewrite Forall_forall in C. specialize (C role H). apply negb_false_iff, bool_decide_eq_true in C.
    apply R in C as [C|C]; [done | by apply not_elem_of_nil in C].
  - intros i j a b I A B Q. rewrite Forall_forall in P.
    specialize (P (a, b) (ordered_pairs_lookup _ _ _ _ _ I A B)). cbn [fst snd] in P.
    rewrite bool_decide_eq_true_2, andb_true_l in P by done. by apply negb_false_iff in P.
Qed.

(** ** The ledger *)

Section Ledger.
Context (sha256 : list Z -> list Z) (blocks : list BlockPlan) (records : list FreezeRecord).
Context (artifacts : list ArtifactAccessRecord) (namespaces : RoleNamespaceRegistry).
Context (authorities : AuthorityPolicy).

#[local] Abbreviation ledger :=
  (validate_access_ledger sha256 blocks records artifacts namespaces authorities).

Lemma ledger_nil :
  al_errors ledger = [] ->
  policy_sound authorities artifacts /\
  access_history AccessState_planned records (al_final_state ledger) /\
  NoDup (fz_record_id <$> records) /\ chronological None records /\
  (forall i record, records !! i = Some record ->
     record_clean sha256 blocks records artifacts namespaces authorities i record).
Proof.
  unfold validate_access_ledger.
  destruct (ledger_loop _ _ _ _ _ _ _ _ _) as [errors scan] eqn:E. cbn [al_errors al_final_state].
  rewrite !app_nil. intros (P & _ & _ & ->). apply authority_policy_nil in P.
  destruct (ledger_loop_nil _ _ _ _ _ _ _ _ _ _ E) as (H & F & [N _] & C).
  by split_and!.
Qed.

(** C5. The access ledger refines the abstract machine of access states. A ledger
    without errors is a history of that machine from PLANNED to the state it
    reports: every record takes the one transition of its kind, in the order of
    the records. No identity occurs twice, timestamps never go back, every record
    carries its self-hash, the assigned authority, inputs that resolve to earlier
    records or immutable artifacts, and the evidence its kind requires. *)
Theorem access_ledger_refines :
  al_errors ledger = [] ->
  access_history AccessState_planned records (al_final_state ledger) /\
  NoDup (fz_record_id <$> records) /\ chronological None records /\
  (forall i record, records !! i = Some record ->
     record_clean sha256 blocks records artifacts namespaces authorities i record).
Proof. intros E. apply ledger_nil in E. tauto. Qed.

(** A record of the ledger that took the machine from one state to the next. *)
Definition recorded (index : nat) (kind : RecordKind) (before after : AccessState) : Prop :=
  exists record, records !! index = Some record /\ fz_record_kind record = kind /\
    access_step kind before after /\
    record_clean sha256 blocks records artifacts namespaces authorities index record.

(** The records that open an outcome domain, in their order. *)
Definition domain_opened (domain : OutcomeDomain) : Prop :=
  exists collected opened, (collected < opened)%nat /\
    recorded collected RecordKind_protocol_freeze AccessState_planned AccessState_collected_sealed /\
    recorded opened RecordKind_protocol_freeze AccessState_collected_sealed AccessState_training_open /\
    match domain with
    | OutcomeDomain_h3_training => True
    | OutcomeDomain_h3_validation | OutcomeDomain_h1h2 =>
        exists selected unsealed, (opened < selected < unsealed)%nat /\
          recorded selected RecordKind_selection_freeze AccessState_training_open
            AccessState_selection_frozen /\
          recorded unsealed RecordKind_validation_unseal AccessState_selection_frozen
            AccessState_validation_unsealed /\
          match domain with
          | OutcomeDomain_h1h2 =>
              exists evaluated released, (unsealed < evaluated < released)%nat /\
                recorded evaluated RecordKind_h3_evaluated AccessState_validation_unsealed
                  AccessState_h3_evaluated /\
                recorded released RecordKind_h1h2_released AccessState_h3_evaluated
                  AccessState_h1h2_released
          | _ => True
          end
    end.

Lemma crosses_recorded (n index : nat) kind before after :
  al_errors ledger = [] -> crosses records n index ->
  access_rank before = Z.of_nat n -> access_rank after = Z.of_nat n + 1 ->
  access_step kind before after ->
  recorded index kind before after.
Proof.
  intros E (record & b & a & L & T & B & A) B' A' K. destruct (ledger_nil E) as (_ & _ & _ & _ & C).
  assert (b = before) as -> by (destruct b, before; cbn in *; (done || lia)).
  assert (a = after) as -> by (destruct a, after; cbn in *; (done || lia)).
  exists record. split_and!; try done; [|by apply C].
  destruct K; inversion T; (done || (subst; cbn in *; lia)).
Qed.

Lemma rank_opened (domain : OutcomeDomain) :
  al_errors ledger = [] ->
  access_rank (match domain with
               | OutcomeDomain_h3_training => AccessState_training_open
               | OutcomeDomain_h3_validation => AccessState_validation_unsealed
               | OutcomeDomain_h1h2 => AccessState_h1h2_released
               end) <= access_rank (al_final_state ledger) ->
  domain_opened domain.
Proof.
  intros E R. destruct (ledger_nil E) as (_ & H & _).
  set (n := match domain with
            | OutcomeDomain_h3_training => 1
            | OutcomeDomain_h3_validation => 3
            | OutcomeDomain_h1h2 => 5
            end%nat).
  destruct (history_crossings n _ _ H) as (index & C & O & _); [destruct domain; cbn in *; lia|].
  assert (Q : forall m kind before after, (m <= n)%nat -> access_rank before = Z.of_nat m ->
    access_rank after = Z.of_nat m + 1 -> access_step kind before after ->
    recorded (index m) kind before after).
  { intros m kind before after M B A T. eapply crosses_recorded; eauto. }
  assert (I : forall m, (m < n)%nat -> (index m < index (S m))%nat) by done.
  exists (index 0%nat), (index 1%nat). split_and!; [apply I; destruct domain; cbn; lia|..].
  - apply Q; [lia | done | done | constructor].
  - apply Q; [destruct domain; cbn; lia | done | done | constructor].
  - destruct domain; [done|..]; exists (index 2%nat), (index 3%nat);
      pose proof (I 1%nat ltac:(cbn; lia)); pose proof (I 2%nat ltac:(cbn; lia));
      (split; [lia|]); (split; [apply Q; [cbn; lia | done | done | constructor]|]);
      (split; [apply Q; [cbn; lia | done | done | constructor]|]); [done|].
    exists (index 4%nat), (index 5%nat).
    pose proof (I 3%nat ltac:(cbn; lia)). pose proof (I 4%nat ltac:(cbn; lia)).
    split; [lia|]. split; (apply Q; [cbn; lia | done | done | constructor]).
Qed.

(** C9. No outcome leaks before its gate. If an outcome access is authorized, the
    ledger has no errors and already holds, in this order and each with its
    evidence, every record that must precede it: the sealing of the collection
    and the opening of training; for validation outcomes also the selection
    freeze and then the unsealing the validation authority approved; for H1/H2
    outcomes also the H3 evaluation and then the release. The actor is the one
    principal the policy assigns to the role the domain requires, and the block
    is an active block of the role the domain covers. *)
Theorem outcome_access_gated request :
  authorize_outcome_access ledger blocks authorities request = success true ->
  al_errors ledger = [] /\ domain_opened (aq_domain request) /\
  policy_sound authorities artifacts /\
  mkPrincipalAssignment (aq_actor_role request) (aq_actor_id request) ∈ ap_assignments authorities /\
  aq_actor_role request = match aq_domain request with
                          | OutcomeDomain_h3_training => AccessPrincipalRole_training_analyst
                          | _ => AccessPrincipalRole_confirmatory_analyst
                          end /\
  exists block, block ∈ blocks /\ bp_block_id block = aq_block_id request /\
    (forall other, other ∈ blocks -> bp_replaces_block_id other <> Some (aq_block_id request)) /\
    match aq_domain request with
    | OutcomeDomain_h3_training => bp_block_role block = BlockRole_h3_train
    | OutcomeDomain_h3_validation => bp_block_role block = BlockRole_h3_validation
    | OutcomeDomain_h1h2 => True
    end.
Proof.
  unfold authorize_outcome_access. destruct (al_errors ledger) eqn:E; [|done]. cbn [nonempty].
  destruct (assignment_for authorities (aq_actor_role request)) as [assignment|] eqn:A; [|done].
  destruct (id_in blocks (aq_block_id request)) as [block|] eqn:B; [|done].
  destruct (negb _ || is_replaced _ _) eqn:N; [done|].
  rewrite orb_false_iff, negb_false_iff, bool_decide_eq_true in N. destruct N as [N1 N2].
  destruct (domain_allows _ _ _) eqn:D; [|done]. intros _.
  apply find_some in A as [A1 A2]. apply bool_decide_eq_true in A2.
  apply find_some in B as [B1 B2]. apply bool_decide_eq_true in B2.
  unfold domain_allows in D. split; [done|]. split.
  { apply rank_opened; [done|]. destruct (aq_domain request); rewrite !andb_true_iff, Z.leb_le in D; tauto. }
  split; [by apply ledger_nil|]. split.
  { rewrite <- A2, <- N1. destruct assignment. by apply list_elem_of_In. }
  split.
  { destruct (aq_domain request); rewrite !andb_true_iff, !bool_decide_eq_true in D; tauto. }
  exists block. split; [by apply list_elem_of_In|]. split; [done|]. split.
  - intros other O P. assert (is_replaced blocks (aq_block_id request) = true) as T; [|congruence].
    unfold is_replaced. apply existsb_exists. exists other. split; [by apply list_elem_of_In|].
    by apply bool_decide_eq_true.
  - destruct (aq_domain request); [|..|done]; rewrite !andb_true_iff, !bool_decide_eq_true in D; tauto.
Qed.
End Ledger.

(** ** A complete ledger *)

Definition sample_artifact (id : string) : ArtifactReference := mkArtifactReference id (mkSha256 []).

Definition sample_input_of (id : string) (access_class : AccessClass) : AccessInputArtifact :=
  mkAccessInputArtifact (sample_artifact id) access_class.

(** The self-hash of a document. *)
Definition self_hash (object : Object) : Sha256 :=
  match canonicalize (Value_object (map_assign "record_sha256" (Value_string zero_hash) object)) with
  | success t => mkSha256 (sample_sha (string_bytes t))
  | failure _ => mkSha256 []
  end.

Definition record_document (id : string) : Object :=
  map_of [("h3_selections", Value_null); ("record_id", Value_string id);
          ("record_sha256", Value_string zero_hash); ("selection_rule_version", Value_null);
          ("training_input_artifacts", Value_null)].

Definition sample_freeze (id : string) (kind : RecordKind) (status : FreezeStatus) (authority : string)
    (role : AuthorityRole) (before after : AccessState) (prohibited : bool) (affected : list Identifier)
    (decision : option Value) (training : list ArtifactReference)
    (selection unseal evaluation audit : option ArtifactReference)
    (inputs : list AccessInputArtifact) : FreezeRecord :=
  let object := record_document id in
  let selects := bool_decide (kind = RecordKind_selection_freeze) in
  let payload := map_of [("h3_selections", Value_null); ("training_input_artifacts", Value_null);
                         ("selection_rule_version", Value_null)] in
  let checksum :=
    match canonicalize (Value_object payload) with
    | success t => mkSha256 (sample_sha (string_bytes t))
    | failure _ => mkSha256 []
    end in
  mkFreezeRecord ProtocolVersion_v2_0_0_pre_2 ProtocolVersion_v2_0_0_pre_2 id kind "decision"
    ReadinessBoundary_ready_for_implementation status AuthorizationStatus_authorized
    "2026-01-01T00:00:00Z" (mkAuthority authority role "attested" None) decision None before after
    prohibited affected (if selects then sample_selections else []) training
    (if selects then Some kH3SelectionRuleId else None) (if selects then Some checksum else None)
    selection (Some "validation") (Some (sample_artifact "validation-data")) unseal evaluation audit None None
    None None [] [] [] [] None [] inputs (self_hash object) (Value_object object).

Definition sample_block (id : string) (role : BlockRole) (ordinal : Z) : BlockPlan :=
  mkBlockPlan ProtocolVersion_v2_0_0_pre_2 ProtocolVersion_v2_0_0_pre_2 id "platform" "build"
    Stage_stage_a role ordinal id None None None (RequestedHardwareState_h0, RequestedHardwareState_h1)
    [] AccessState_planned (mkSha256 []) Value_null.

Definition sample_blocks : list BlockPlan :=
  [sample_block "block-0" BlockRole_h3_train 0; sample_block "block-1" BlockRole_h3_validation 1].

Definition text_array (values : list string) : Value := Value_array (Value_string <$> values).

Definition sample_decision : Value :=
  Value_object (map_of
    [("candidate_order", text_array candidate_order); ("h3_context_order", text_array context_order);
     ("h1_contrast_ids", text_array h1_contrast_ids); ("h2_contrast_ids", text_array h2_contrast_ids);
     ("h3_training_pair_count", uint_value 270); ("h3_validation_family_count", uint_value 540);
     ("h3_reported_comparison_count", uint_value 54);
     ("tie_break_rule_id", Value_string kH3SelectionRuleId);
     ("delta_star_artifact_id", Value_string "delta");
     ("bootstrap_configuration_artifact_id", Value_string "bootstrap");
     ("bootstrap_seed_id", Value_string "seed"); ("precision_profile_id", Value_string "profile");
     ("schema_artifact_ids", text_array ["schema"]); ("r_h1", uint_value 20); ("r_h2", uint_value 20);
     ("r12", uint_value 20); ("rtrain", uint_value 12); ("rval", uint_value 8);
     ("rtotal", uint_value 20); ("nruns", uint_value 3600)]).

Definition record_ref (record : FreezeRecord) : option ArtifactReference :=
  Some (mkArtifactReference (fz_record_id record) (fz_record_sha256 record)).

Definition sample_records : list FreezeRecord :=
  let public id := sample_input_of id AccessClass_public_protocol in
  let everything := ["block-0"; "block-1"] in
  let collect :=
    sample_freeze "collect" RecordKind_protocol_freeze FreezeStatus_frozen "freezer"
      AuthorityRole_freeze_authority AccessState_planned AccessState_collected_sealed true everything
      None [] None None None None [public "delta"] in
  let open :=
    sample_freeze "open" RecordKind_protocol_freeze FreezeStatus_frozen "freezer"
      AuthorityRole_freeze_authority AccessState_collected_sealed AccessState_training_open true
      ["block-0"] (Some sample_decision) [] None None None None
      [public "delta"; public "bootstrap"; public "schema"] in
  let select :=
    sample_freeze "select" RecordKind_selection_freeze FreezeStatus_frozen "freezer"
      AuthorityRole_freeze_authority AccessState_training_open AccessState_selection_frozen true
      ["block-0"] None [sample_artifact "training-data"] None None None None
      [sample_input_of "training-data" AccessClass_training_only] in
  let unseal :=
    sample_freeze "unseal" RecordKind_validation_unseal FreezeStatus_authorized "custodian"
      AuthorityRole_validation_custodian AccessState_selection_frozen AccessState_validation_unsealed
      false ["block-1"] None [] (record_ref select) None None None [public "approval"] in
  let evaluate :=
    sample_freeze "evaluate" RecordKind_h3_evaluated FreezeStatus_authorized "analyst"
      AuthorityRole_confirmatory_analyst AccessState_validation_unsealed AccessState_h3_evaluated
      false ["block-1"] None [] (record_ref select) (record_ref unseal)
      (Some (sample_artifact "evaluation")) None [public "evaluation"] in
  let release :=
    sample_freeze "release" RecordKind_h1h2_released FreezeStatus_authorized "custodian"
      AuthorityRole_validation_custodian AccessState_h3_evaluated AccessState_h1h2_released false
      everything None [] None None (Some (sample_artifact "evaluation"))
      (Some (sample_artifact "audit")) [public "audit"] in
  [collect; open; select; unseal; evaluate; release].

Definition sample_artifacts : list ArtifactAccessRecord :=
  let plain id := mkArtifactAccessRecord (sample_artifact id) AccessClass_public_protocol None None None None None in
  [plain "delta"; plain "bootstrap"; plain "schema"; plain "evaluation"; plain "audit";
   mkArtifactAccessRecord (sample_artifact "training-data") AccessClass_training_only None None
     (Some BlockRole_h3_train) None None;
   mkArtifactAccessRecord (sample_artifact "validation-data") AccessClass_validation_sealed None
     (Some "validation") None None None;
   mkArtifactAccessRecord (sample_artifact "approval") AccessClass_public_protocol None None None
     (Some AccessPrincipalRole_validation_authority) (Some "validator")].

Definition sample_policy : AuthorityPolicy :=
  mkAuthorityPolicy
    [mkPrincipalAssignment AccessPrincipalRole_freeze_authority "freezer";
     mkPrincipalAssignment AccessPrincipalRole_custodian "custodian";
     mkPrincipalAssignment AccessPrincipalRole_training_analyst "trainer";
     mkPrincipalAssignment AccessPrincipalRole_validation_authority "validator";
     mkPrincipalAssignment AccessPrincipalRole_confirmatory_analyst "analyst";
     mkPrincipalAssignment AccessPrincipalRole_replacement_authority "replacer"] [].

Definition sample_ledger : AccessLedgerResult :=
  validate_access_ledger sample_sha sample_blocks sample_records sample_artifacts sample_registry
    sample_policy.

Lemma access_ledger_refines_witness :
  al_errors sample_ledger = [] /\
  access_history AccessState_planned sample_records (al_final_state sample_ledger) /\
  al_final_state sample_ledger = AccessState_h1h2_released.
Proof.
  assert (E : al_errors sample_ledger = []) by (vm_compute; reflexivity).
  split; [exact E|]. split; [|vm_compute; reflexivity].
  apply (access_ledger_refines sample_sha sample_blocks sample_records sample_artifacts
    sample_registry sample_policy). exact E.
Defined.

Lemma outcome_access_gated_witness :
  domain_opened sample_sha sample_blocks sample_records sample_artifacts sample_registry sample_policy
    OutcomeDomain_h1h2.
Proof.
  apply (outcome_access_gated sample_sha sample_blocks sample_records sample_artifacts
    sample_registry sample_policy
    (mkAccessRequest "analyst" AccessPrincipalRole_confirmatory_analyst OutcomeDomain_h1h2 "block-1")).
  vm_compute. reflexivity.
Defined.

(** ** Replacements *)

Lemma replacement_blocks_snoc blocks block :
  is_Some (bp_replaces_block_id block) ->
  replacement_blocks (blocks ++ [block]) = replacement_blocks blocks + 1.
Proof.
  intros H. unfold replacement_blocks. rewrite filter_app, length_app, filter_cons_True by done.
  rewrite filter_nil. simpl. lia.
Qed.

(** What an authorized replacement is. *)
Record replacement_sound (sha256 : list Z -> list Z) (request : ReplacementRequest)
    (existing : list BlockPlan) (budget : ReplacementBudget) (namespaces : RoleNamespaceRegistry)
    (plan : BlockPlan) : Prop := {
  rs_valid : validate_block_plan sha256 plan (bg_seeds (rq_replacement_input request)) namespaces = [];
  rs_factorial : cell_key <$> bp_cells plan ≡ₚ expected_stage_a_cells;
  rs_replaces : bp_replaces_block_id plan = Some (bp_block_id (rq_replaced_block request));
  rs_authorization :
    bp_replacement_authorization_id plan = Some (fz_record_id (rq_authorization request));
  rs_lineage : lineage_matches plan (rq_replaced_block request) = true;
  rs_new : forall block, block ∈ existing ->
    bp_block_id block <> bp_block_id plan /\ bp_block_ordinal block <> bp_block_ordinal plan /\
    bp_seed_subspace_id block <> bp_seed_subspace_id plan;
  rs_single : forall block, block ∈ existing ->
    bp_replaces_block_id block <> Some (bp_block_id (rq_replaced_block request));
  rs_budget : replacement_blocks (existing ++ [plan]) <= rg_maximum_replacement_blocks budget;
  rs_invalid : invalid_required_run request = true
}.

Lemma collides_false input generated_id block :
  collides input generated_id block = false ->
  bp_block_id block <> generated_id /\ bp_block_ordinal block <> bg_block_ordinal input /\
  bp_seed_subspace_id block <> bs_block_subspace_id (bg_seeds input).
Proof.
  unfold collides. rewrite !orb_false_iff, !bool_decide_eq_false, Z.eqb_neq. tauto.
Qed.

Lemma is_replaced_false blocks id :
  is_replaced blocks id = false ->
  forall block, block ∈ blocks -> bp_replaces_block_id block <> Some id.
Proof.
  intros R block H E. assert (is_replaced blocks id = true); [|congruence].
  unfold is_replaced. apply existsb_exists. exists block.
  split; [by apply list_elem_of_In | by apply bool_decide_eq_true].
Qed.

Lemma generate_prepared sha256 input registry g :
  generate_block_plan sha256 input registry = Returned (success g) ->
  exists id, prepare_block_plan sha256 input registry = success id.
Proof.
  unfold generate_block_plan. destruct (prepare_block_plan sha256 input registry) as [id|]; [|done].
  intros _. by exists id.
Qed.

Lemma generate_replacement_sound sha256 request existing namespaces authorized decision :
  (forall m, sha_wf (mkSha256 (sha256 m))) -> input_ok (rq_replacement_input request) ->
  generate_replacement sha256 request existing namespaces authorized = Returned (success decision) ->
  rd_state decision = ReplacementDecisionState_authorized /\
  exists g, rd_replacement_plan decision = Some g /\
    validate_block_plan sha256 (gp_plan g) (bg_seeds (rq_replacement_input request)) namespaces = [] /\
    cell_key <$> bp_cells (gp_plan g) ≡ₚ expected_stage_a_cells /\
    bp_replaces_block_id (gp_plan g) = Some (bp_block_id (rq_replaced_block request)) /\
    bp_replacement_authorization_id (gp_plan g) = Some (fz_record_id (rq_authorization request)) /\
    lineage_matches (gp_plan g) (rq_replaced_block request) = true /\
    Forall (fun block => bp_block_id block <> bp_block_id (gp_plan g) /\
       bp_block_ordinal block <> bp_block_ordinal (gp_plan g) /\
       bp_seed_subspace_id block <> bp_seed_subspace_id (gp_plan g)) existing.
Proof.
  intros Hsha I. unfold generate_replacement. set (input := rq_replacement_input request) in *.
  set (old := rq_replaced_block request) in *.
  destruct (make_block_id _ _ _ _ _) as [id|] eqn:M; [|done].
  destruct (input_bound request authorized id) eqn:B; [|done]. cbn [negb].
  destruct (existsb (collides input id) existing) eqn:C; [done|].
  destruct (generate_block_plan sha256 input namespaces) as [[g|]|] eqn:X; [|done|done].
  destruct (generate_prepared _ _ _ _ X) as [id' P].
  pose proof (generate_block_plan_cases sha256 input namespaces id' Hsha I P) as G. rewrite X in G.
  apply prepare_success in P. pose proof (pr_id _ _ _ _ P) as Id. rewrite M in Id.
  injection Id as <-. clear X.
  destruct (same_order (gp_plan g) old) eqn:S; [done|]. intros [= <-].
  destruct G as ((order & cells & hash & _ & E) & K & _ & V & _).
  split; [done|]. exists g. split; [done|]. split; [done|]. split; [done|].
  unfold input_bound in B. fold input old in B. pose proof (in_replacement _ I) as R.
  pose proof (pr_replaced_role _ _ _ _ P) as Q.
  destruct (bg_replacement input) as [r|] eqn:Er; [|by rewrite !andb_false_r in B].
  rewrite !andb_true_iff, !bool_decide_eq_true, !Z.eqb_eq in B.
  destruct B as ((((((_ & Bp) & Bb) & _) & _) & _) & (((Ra & Rb) & Ro) & Rr) & Rs).
  destruct (R r eq_refl) as [_ _ _ _ No Ns]. specialize (Q r eq_refl).
  rewrite E in S |- *. unfold plan_of. cbn [bp_replaces_block_id bp_replacement_authorization_id
    bp_block_id bp_block_ordinal bp_seed_subspace_id]. rewrite Er. cbn [fmap option_fmap option_map].
  split; [by rewrite Rb|]. split; [by rewrite Ra|]. split.
  - unfold lineage_matches. cbn [bp_replacement_lineage bp_platform_id bp_build_id bp_block_role
      bp_block_ordinal bp_seed_subspace_id rl_replaced_block_ordinal rl_replaced_block_role
      rl_replaced_seed_subspace_id]. rewrite !bool_decide_eq_true_2 by congruence.
    rewrite bool_decide_eq_false_2 by congruence. rewrite (proj2 (Z.eqb_neq _ _)) by lia.
    rewrite (proj2 (Z.eqb_eq _ _)) by done. unfold plan_of in S. rewrite Er in S.
    set (o := same_order _ _). replace o with false by (symmetry; exact S). by rewrite !bool_decide_eq_true_2.
  - apply Forall_forall. intros block H. apply collides_false.
    apply list_elem_of_In in H. destruct (collides input id block) eqn:X; [|done].
    assert (existsb (collides input id) existing = true); [|congruence].
    apply existsb_exists. by exists block.
Qed.


(** The replacement of block 7. *)
Definition sample_cell : StageACell :=
  mkStageACell 0 QueuePackage_r0 RequestedHardwareState_h0 Placement_near WorkingSetClass_l2_resident
    LoadLevel_l050 "arrival" None "event".

Definition sample_replaced : BlockPlan :=
  mkBlockPlan ProtocolVersion_v2_0_0_pre_2 ProtocolVersion_v2_0_0_pre_2 "stage-a-block-old" "platform"
    "build" Stage_stage_a BlockRole_h3_train 7 "block-7" None None None
    (RequestedHardwareState_h0, RequestedHardwareState_h1) [sample_cell] AccessState_planned
    (mkSha256 []) Value_null.

Definition sample_invalid_run : RunManifest :=
  mkRunManifest ProtocolVersion_v2_0_0_pre_2 ProtocolVersion_v2_0_0_pre_2 "run" "platform" "build" 0
    "queue" (mkRunProvenance "paper" "implementation" (mkSha256 []) "compiler" [] "library" "record")
    Stage_stage_a RunMode_latency LifecycleState_measurement_failure "stage-a-block-old"
    BlockRole_h3_train QueuePackage_r0 RequestedHardwareState_h0
    VerifiedHardwareState_verified_default Placement_near WorkingSetClass_l2_resident LoadLevel_l050 64
    "ns" (mkRunScheduleReferences sample_reference sample_reference)
    (mkRunSeedReferences "arrival" None "event" "warmup" "record") RunValidity_invalid
    GateStatus_not_evaluated GateStatus_not_evaluated GateStatus_not_evaluated
    ConfirmatoryEstimability_not_evaluated [] BlockCompleteness_incomplete JoinStatus_not_attempted None
    None ["failure"] [] (mkSha256 []) Value_null.

Definition sample_run_failure : FailureRecord :=
  mkFailureRecord ProtocolVersion_v2_0_0_pre_2 ProtocolVersion_v2_0_0_pre_2 "failure" "platform"
    Stage_stage_a FailureScope_run (Some "run") (Some "stage-a-block-old") None
    FailureCategory_process_interruption DetectedPhase_measurement "2026-01-01T00:00:00Z" "crash" true
    BlockConsequence_original_block_incomplete ResolutionStatus_replacement_authorized
    (Some "authorization") (Some sample_block_id) None [] (mkSha256 []) Value_null.

Definition sample_authorization : FreezeRecord :=
  let object := record_document "authorization" in
  mkFreezeRecord ProtocolVersion_v2_0_0_pre_2 ProtocolVersion_v2_0_0_pre_2 "authorization"
    RecordKind_replacement_authorization "decision" ReadinessBoundary_ready_for_implementation
    FreezeStatus_authorized AuthorizationStatus_authorized "2026-01-01T00:00:00Z"
    (mkAuthority "replacer" AuthorityRole_replacement_authority "attested" None) None None
    AccessState_planned AccessState_planned true ["stage-a-block-old"] [] [] None None None None None None
    None None
    (Some (mkReplacementAuthorization "stage-a-block-old" sample_block_id 8 BlockRole_h3_train "block-0"
             "failure" "budget")) None None None [] [] [] [] None []
    [sample_input_of "budget" AccessClass_public_protocol] (self_hash object) (Value_object object).

Definition sample_replacement_request : ReplacementRequest :=
  mkReplacementRequest sample_replaced sample_invalid_run sample_run_failure sample_authorization
    sample_input.

Definition sample_budget (maximum : Z) : ReplacementBudget :=
  mkReplacementBudget "platform" maximum (sample_artifact "budget").

