(* ===== verification/StudyPool.v ===== *)
(** * The study pool

    The composition of the precision gate, block planning and access control by
    [Stage14CrossRecordSemanticValidator]: what an accepted record set holds. *)

From stdpp Require Import prelude list strings gmap.
From Stdlib Require Import ZArith Lia.
From S2P Require Import Prelude Validation Model Bytes Json Documents Load Semantic SemanticRecords.
From S2P Require Import Deterministic Configuration BlockPlanning BlockPlans Precision Access.
From S2P Require Import AccessControl.

#[local] Open Scope Z_scope.
#[local] Open Scope result_scope.

(** ** Blocks of the set *)

(** The blocks no other block replaces. *)
Definition active_blocks (blocks : list BlockPlan) : list BlockPlan :=
  filter (fun block => is_replaced blocks (bp_block_id block) = false) blocks.

Definition planned_cells (blocks : list BlockPlan) : Z :=
  foldr (fun block n => Z.of_nat (length (bp_cells block)) + n) 0 blocks.

Lemma all_seed_errors_nil seeds : forall seen,
  fst (all_seed_errors seen seeds) = [] ->
  NoDup seeds /\ (forall s, s ∈ seeds -> s ∉ seen) /\
  (forall s, s ∈ snd (all_seed_errors seen seeds) <-> s ∈ seeds \/ s ∈ seen).
Proof.
  induction seeds as [|seed seeds IH]; intros seen; simpl.
  { intros _. split_and!; [constructor | set_solver | set_solver]. }
  destruct (all_seed_errors (seed :: seen) seeds) as [errors all] eqn:E. simpl.
  rewrite app_nil, error_when_nil, bool_decide_eq_false. intros [D R].
  destruct (IH (seed :: seen)) as (N & F & A); [by rewrite E|]. rewrite E in A. simpl in A. split_and!.
  - constructor; [|done]. intros H. by apply F in H; set_solver.
  - intros s Hs. apply elem_of_cons in Hs as [->|Hs]; [done|]. apply F in Hs. set_solver.
  - intros s. rewrite A. set_solver.
Qed.

Lemma branch_errors_nil blocks : forall replaced,
  branch_errors replaced blocks = [] -> fresh replaced (omap bp_replaces_block_id blocks).
Proof.
  induction blocks as [|block blocks IH]; intros replaced; cbn [branch_errors].
  { intros _. apply fresh_nil. }
  cbn [omap list_omap]. destruct (bp_replaces_block_id block) as [id|]; [|apply IH].
  rewrite app_nil, error_when_nil, bool_decide_eq_false. intros [D E].
  eapply fresh_cons; [done | | by apply IH]. intros y. apply elem_of_cons.
Qed.

Section Stage14.
Context (sha256 : list Z -> list Z).
Context (namespaces : RoleNamespaceRegistry) (seed_catalogs : list BlockSeedCatalog).
Context (artifacts : list ArtifactAccessRecord) (authorities : AuthorityPolicy).
Context (precision : option PrecisionResult) (replacement_budget : option ReplacementBudget).

Lemma stage14_blocks_nil blocks rest : forall seen,
  fst (stage14_blocks sha256 namespaces seed_catalogs blocks seen rest) = [] ->
  let active := snd (stage14_blocks sha256 namespaces seed_catalogs blocks seen rest) in
  fst <$> active = filter (fun block => is_replaced blocks (bp_block_id block) = false) rest /\
  exists catalogs, Forall2 (fun block catalog => catalog_for seed_catalogs block = Some catalog /\
      plan_sound sha256 block catalog) rest catalogs /\
    fresh seen (mjoin (catalog_seeds <$> catalogs)).
Proof.
  induction rest as [|block rest IH]; intros seen; cbn [stage14_blocks].
  { intros _. split; [done|]. exists []. split; [constructor | apply fresh_nil]. }
  destruct (catalog_for seed_catalogs block) as [catalog|] eqn:C.
  2:{ by destruct (stage14_blocks _ _ _ _ _ _). }
  pose proof (all_seed_errors_nil (catalog_seeds catalog) seen) as R. unfold catalog_seeds in R.
  destruct (all_seed_errors _ _) as [reuse seen']. cbn [fst snd] in R. specialize (IH seen').
  destruct (stage14_blocks _ _ _ _ _ _) as [errors active]. cbn [fst snd] in *.
  rewrite !app_nil. intros (V & -> & E). destruct (R eq_refl) as (N & F & S).
  destruct (IH E) as (A & catalogs & P & Q). rewrite filter_cons. split.
  - destruct (is_replaced blocks (bp_block_id block)); simpl; [done|].
    cbn. by rewrite <- A.
  - exists (catalog :: catalogs). split; [constructor; [|done]|].
    + split; [done|]. by eapply plan_validated.
    + cbn [fmap list_fmap mjoin list_join]. by eapply (fresh_app (catalog_seeds catalog)).
Qed.

Lemma planned_cells_sound blocks catalogs :
  Forall2 (plan_sound sha256) blocks catalogs ->
  planned_cells blocks = kStageACells * Z.of_nat (length blocks).
Proof.
  induction 1 as [|block catalog blocks catalogs P F IH]; [done|].
  cbn [planned_cells foldr]. fold (planned_cells blocks). rewrite IH.
  pose proof (so_keys _ _ _ P) as K. apply Permutation_length in K. rewrite length_fmap in K.
  rewrite K. change (length expected_stage_a_cells) with 180%nat. unfold kStageACells. simpl length. lia.
Qed.

Lemma training_open_exact freezes :
  training_freeze_errors precision freezes = [] ->
  exists training_open, filter (fun record => opens_training record) freezes = [training_open] /\
    training_open_errors precision training_open = [].
Proof.
  unfold training_freeze_errors.
  destruct (filter _ freezes) as [|training_open [|]] eqn:E; intros H; try done. by exists training_open.
Qed.
End Stage14.

Lemma counts_equal_iff a b : counts_equal a b = true <-> a = b.
Proof.
  unfold counts_equal. rewrite !andb_true_iff, !Z.eqb_eq. destruct a, b; simpl.
  split; [intros; f_equal; tauto | intros [= -> -> -> -> -> -> ->]; tauto].
Qed.

Lemma no_replacements blocks :
  existsb (fun block => is_some (bp_replaces_block_id block)) blocks = false ->
  replacement_blocks blocks = 0.
Proof.
  induction blocks as [|block blocks IH]; simpl; [done|]. rewrite orb_false_iff. intros [A B].
  unfold replacement_blocks in *. rewrite filter_cons_False; [by apply IH|].
  destruct (bp_replaces_block_id block); [done|]. by intros [? ?].
Qed.

Lemma training_open_decided sha256 blocks freezes artifacts namespaces authorities training_open :
  al_errors (validate_access_ledger sha256 blocks freezes artifacts namespaces authorities) = [] ->
  training_open ∈ freezes -> opens_training training_open = true ->
  exists decision, decode_training_open_decision training_open = success decision.
Proof.
  intros L H O. apply list_elem_of_lookup in H as [i H].
  destruct (ledger_nil _ _ _ _ _ _ L) as (_ & _ & _ & _ & C). specialize (C i training_open H).
  unfold opens_training in O. rewrite andb_true_iff, !bool_decide_eq_true in O. destruct O as [K A].
  pose proof (rc_evidence _ _ _ _ _ _ _ _ C) as E. unfold kind_evidence in E. rewrite K, A in E.
  destruct E as (_ & _ & D). destruct (decode_training_open_decision training_open) as [d|]; [|done].
  by exists d.
Qed.

(** C26. The study pool is the prospective plan. When a record set passes the
    cross-record validator with the precision plan that the gate resolved, the
    active blocks are exactly Rtotal, split into training, validation and
    supplemental blocks as planned, their cells are exactly Nruns, their
    identities and all seed identities of the pool are distinct, no block is
    replaced twice and the replacements are within the budget; the access ledger
    has no errors, and the one record that opened training froze these very
    counts. *)
Theorem study_pool_matches_precision sha256 namespaces seed_catalogs artifacts authorities counts
    evidence result budget records :
  counts_u64 counts ->
  evaluate_precision_plan (mkPrecisionPlanInput (Some counts) (Some evidence)) = success result ->
  stage14_validate sha256 namespaces seed_catalogs artifacts authorities (Some result) budget records = [] ->
  let blocks := omap block_of records in
  let active := active_blocks blocks in
  pz_state result = PrecisionState_resolved /\
  Z.of_nat (length active) = pc_rtotal counts /\ planned_cells active = pc_nruns counts /\
  role_count (bp_block_role <$> active) BlockRole_h3_train = pc_rtrain counts /\
  role_count (bp_block_role <$> active) BlockRole_h3_validation = pc_rval counts /\
  NoDup (bp_block_id <$> active) /\ NoDup (omap bp_replaces_block_id blocks) /\
  match budget with
  | Some b => replacement_blocks blocks <= rg_maximum_replacement_blocks b
  | None => replacement_blocks blocks = 0
  end /\
  al_errors (validate_access_ledger sha256 blocks (omap freeze_of records) artifacts namespaces
               authorities) = [] /\
  exists training_open decision, training_open ∈ omap freeze_of records /\
    opens_training training_open = true /\
    decode_training_open_decision training_open = success decision /\ td_counts decision = counts.
Proof.
  intros U P V blocks active. pose proof (precision_plan_cases counts evidence U) as X. rewrite P in X.
  destruct X as (_ & K & Pc & _ & _ & roles & Pr & Rt & Rv & R0 & Rsum).
  unfold stage14_validate in V. fold blocks in V. unfold active, active_blocks.
  pose proof (stage14_blocks_nil sha256 namespaces seed_catalogs blocks blocks []) as S.
  destruct (stage14_blocks _ _ _ _ _ _) as [block_errors pool]. cbn [fst snd] in S.
  rewrite !app_nil in V. destruct V as (_ & B & E & Q & L & T & G & _).
  destruct (S E) as (A & _). apply branch_errors_nil in B as [B _].
  unfold pool_errors in Q. rewrite Pr in Q. destruct (pz_state result) eqn:St; [done| |done].
  destruct K as (K1 & K2 & K3 & K4 & K5 & K6 & K7). destruct U as (U1 & U2 & U3 & U4 & U5 & U6 & U7).
  apply pool_validated in Q; [|int_lia..]. rewrite A in Q.
  destruct Q as (Ql & Qp & Qi & _ & _ & _ & Q1 & Q2 & _ & _).
  apply training_open_exact in T as (training_open & F & T).
  assert (Ht : training_open ∈ filter (fun record => opens_training record) (omap freeze_of records))
    by (rewrite F; set_solver).
  apply list_elem_of_filter in Ht as [O Ht]. apply Is_true_true in O.
  destruct (training_open_decided _ _ _ _ _ _ _ L Ht O) as [decision D].
  unfold training_open_errors in T. rewrite D, Pc in T. apply app_nil in T as [T _].
  rewrite error_when_nil, negb_false_iff, counts_equal_iff in T.
  split_and!; try done.
  - lia.
  - rewrite (planned_cells_sound _ _ _ Qp). lia.
  - lia.
  - lia.
  - destruct budget as [b|]; unfold budget_errors in G.
    + rewrite app_nil, !error_when_nil, Z.gtb_ltb in G. destruct G as [_ G]. by apply Z.ltb_ge in G.
    + apply error_when_nil in G. by apply no_replacements.
  - by exists training_open, decision.
Qed.

(** ** A pool of twenty blocks *)

Definition pool_role (i : nat) : BlockRole :=
  if (i <? 12)%nat then BlockRole_h3_train else BlockRole_h3_validation.

Definition pool_ids (suffix : string) (n : nat) : list Identifier :=
  (fun k => std_to_string (Z.of_nat k) +:+ suffix) <$> seq 0 n.

Definition pool_catalog (i : nat) : BlockSeedCatalog :=
  let name := std_to_string (Z.of_nat i) in
  mkBlockSeedCatalog (pool_role i) (if (i <? 12)%nat then "train" else "validation")
    ("block-" +:+ name) (sample_artifact "derivation") (mkPhiloxKey 1 2) (mkPhiloxKey 3 4)
    (mkPhiloxKey 5 6) (pool_ids ("a" +:+ name) 18) (pool_ids ("n" +:+ name) 6)
    (pool_ids ("e" +:+ name) 6).

Definition pool_order (i : nat) : RequestedHardwareState * RequestedHardwareState :=
  if Nat.even i then (RequestedHardwareState_h0, RequestedHardwareState_h1)
  else (RequestedHardwareState_h1, RequestedHardwareState_h0).

(** The plan of a block with its cells in the order of the product. The validators
    read the source document for the self-hash only, so a short one will do. *)
Definition pool_plan (i : nat) : option BlockPlan :=
  let order := pool_order i in
  let object := map_of [("block_ordinal", uint_value (Z.of_nat i));
                        ("plan_sha256", string_value zero_hash)] in
  match make_block_id sample_sha "platform" "build" (pool_role i) (Z.of_nat i),
        plan_cells (pool_catalog i) (fst order) 0 (seqZ 0 90),
        plan_cells (pool_catalog i) (snd order) 90 (seqZ 0 90), canonicalize (Value_object object) with
  | success id, Some first, Some second, success t =>
      Some (mkBlockPlan ProtocolVersion_v2_0_0_pre_2 ProtocolVersion_v2_0_0_pre_2 id "platform" "build"
              Stage_stage_a (pool_role i) (Z.of_nat i) (bs_block_subspace_id (pool_catalog i)) None None
              None order (first ++ second) AccessState_planned (mkSha256 (sample_sha (string_bytes t)))
              (Value_object object))
  | _, _, _, _ => None
  end.

Definition pool_blocks : list BlockPlan := omap pool_plan (seq 0 20).

Definition pool_inputs : list string :=
  ["delta"; "bootstrap"; "h1"; "h2"; "h3-training"; "h3-validation"; "pilot"; "schema"].

Definition pool_freezes : list FreezeRecord :=
  let inputs := (fun id => sample_input_of id AccessClass_public_protocol) <$> pool_inputs in
  [sample_freeze "collect" RecordKind_protocol_freeze FreezeStatus_frozen "freezer"
     AuthorityRole_freeze_authority AccessState_planned AccessState_collected_sealed true
     (bp_block_id <$> pool_blocks) None [] None None None None inputs;
   sample_freeze "open" RecordKind_protocol_freeze FreezeStatus_frozen "freezer"
     AuthorityRole_freeze_authority AccessState_collected_sealed AccessState_training_open true
     (bp_block_id <$> take 12 pool_blocks) (Some sample_decision) [] None None None None inputs].

Definition pool_artifacts : list ArtifactAccessRecord :=
  (fun id => mkArtifactAccessRecord (sample_artifact id) AccessClass_public_protocol None None None None
               None) <$> pool_inputs.

Definition pool_counts : ProspectiveCounts := mkProspectiveCounts 20 20 20 12 8 20 3600.

Definition pool_result : PrecisionResult :=
  mkPrecisionResult PrecisionState_resolved (Some pool_counts) (Some (mkRoleCounts 12 8 0))
    (Some sample_evidence) [].

Definition pool_records : list ProtocolRecord :=
  (Record_block <$> pool_blocks) ++ (Record_freeze <$> pool_freezes).

Lemma study_pool_matches_precision_witness :
  Z.of_nat (length (active_blocks (omap block_of pool_records))) = 20 /\
  planned_cells (active_blocks (omap block_of pool_records)) = 3600.
Proof.
  assert (U : counts_u64 pool_counts) by (unfold counts_u64; cbn; int_lia).
  assert (P : evaluate_precision_plan (mkPrecisionPlanInput (Some pool_counts) (Some sample_evidence)) =
    success pool_result) by (vm_compute; reflexivity).
  assert (V : stage14_validate sample_sha sample_registry (pool_catalog <$> seq 0 20) pool_artifacts
    sample_policy (Some pool_result) None pool_records = []) by (vm_compute; reflexivity).
  destruct (study_pool_matches_precision sample_sha sample_registry (pool_catalog <$> seq 0 20)
    pool_artifacts sample_policy pool_counts sample_evidence pool_result None pool_records U P V)
    as (_ & L & C & _).
  split; [exact L | exact C].
Defined.
