(* ===== verification/CrossRecord.v ===== *)
(** * Join audits and cross-record validation of runs

    Models the rest of [src/reconciliation/reconciliation.cpp] and its header: the
    canonical join audit and [Stage12CrossRecordSemanticValidator], which checks
    the record graph of runs against immutable artifact bytes and injected
    evidence. SHA-256 is a parameter; a pointer is an option; a span is a list. *)

From stdpp Require Import prelude list strings.
From Stdlib Require Import ZArith Lia Ascii.
From S2P Require Import Prelude Validation Model Bytes Json Documents Timing Capture Load Semantic.
From S2P Require Import SemanticRecords RawObservations Reconciliation BlockPlanning Access.

#[local] Open Scope Z_scope.
#[local] Open Scope result_scope.
#[local] Open Scope checked_scope.

(** ** Data *)

Record JoinAuditInput : Set := mkJoinAuditInput {
  ja_producer_source : ArtifactReference;
  ja_consumer_source : ArtifactReference;
  ja_joined_artifact : option ArtifactReference
}.

Record ArtifactBytes : Set := mkArtifactBytes {
  ab_artifact_id : Identifier;
  ab_bytes : list Z
}.

Record RunEvidence : Set := mkRunEvidence {
  re_run_id : Identifier;
  re_expected_record_indices : list Z;
  re_block_completeness : AuthoritativeBlockCompleteness;
  re_access_integrity : AuthoritativeGate
}.

(** ** JSON members *)

Definition artifact_value (reference : ArtifactReference) : Value :=
  Value_object (map_of [("artifact_id", string_value (ar_artifact_id reference));
                        ("sha256", string_value (Sha256_hex (ar_sha256 reference)))]).

(** The text of bytes. *)
Definition bytes_text (bytes : list Z) : string :=
  untext ((fun b => Ascii.ascii_of_N (Z.to_N b)) <$> bytes).

Definition member (object : Object) (name : string) : option Value := map_find name object.

Definition string_member (object : Object) (name : string) : string :=
  default EmptyString (value ← member object name; as_string value).

Definition uint_member (object : Object) (name : string) : option Z :=
  let? value := member object name in
  let? number := as_number value in
  match num_kind number, num_value number with
  | NumberKind_unsigned_integer, Number_uint64 n => Some n
  | NumberKind_signed_integer, Number_int64 n => if n >=? 0 then Some n else None
  | _, _ => None
  end.

Definition member_is (object : Object) (name value : string) : bool :=
  bool_decide (string_member object name = value).

Definition json_artifact_matches (value : Value) (expected : ArtifactReference) : bool :=
  match as_object value with
  | None => false
  | Some object =>
      member_is object "artifact_id" (ar_artifact_id expected) &&
      member_is object "sha256" (Sha256_hex (ar_sha256 expected))
  end.

Definition checksum_matches (value : Value) (expected : ChecksumEvidence) : bool :=
  match as_object value with
  | None => false
  | Some object =>
      member_is object "algorithm_record_id" (ce_algorithm_record_id expected) &&
      member_is object "algorithm_version" (ce_algorithm_version expected) &&
      member_is object "value_hex" (ce_value_hex expected)
  end.

Definition same_joined_row (a b : JoinedRecord) : bool :=
  let same f := f a =? f b in
  bool_decide (jr_run_id a = jr_run_id b) && same jr_accepted_ordinal && same jr_logical_sequence &&
  same jr_record_index && same jr_producer_row_ordinal && same jr_consumer_row_ordinal &&
  same jr_scheduled_arrival && same jr_producer_handle_begin && same jr_record_lookup_completion &&
  same jr_enqueue_invocation && same jr_enqueue_linearization && same jr_enqueue_attempt_completion &&
  same jr_dequeue_invocation && same jr_dequeue_linearization && same jr_dequeue_completion &&
  same jr_consumer_action_completion && same jr_producer_lateness && same jr_pointer_lookup_interval &&
  same jr_enqueue_service_time && same jr_admission_delay && same jr_queue_residence &&
  same jr_dequeue_service_time && same jr_post_dequeue_delivery_interval &&
  same jr_consumer_action_interval && same jr_end_to_end_latency.

(** [std::ranges::equal] of rows. *)
Fixpoint same_joined_rows (a b : list JoinedRecord) : bool :=
  match a, b with
  | [], [] => true
  | x :: a, y :: b => same_joined_row x y && same_joined_rows a b
  | _, _ => false
  end.

(** ** The join audit *)

Section Audit.
Context (sha256 : list Z -> list Z).

Definition digest_hex (bytes : list Z) : string := Sha256_hex (mkSha256 (sha256 bytes)).

Definition issue_value (issue : Issue) : Value :=
  Value_object (map_of
    [("failure_class", string_value (to_string_FailureClass (is_failure issue)));
     ("category", string_value (to_string_ErrorCategory (category (is_error issue))));
     ("path", string_value (path (is_error issue)));
     ("rule_id", string_value (rule_id (is_error issue)));
     ("message", string_value (message (is_error issue)))]).

Definition audit_object (run_id : Identifier) (result : ReconciliationResult)
    (artifacts : JoinAuditInput) (record_sha256 : string) : Object :=
  map_of
    [("schema_version", string_value "cpu-prefetch-join-audit/1");
     ("protocol_version", string_value kProtocolVersion);
     ("run_id", string_value run_id);
     ("join_status",
      string_value (if bool_decide (rr_status result = JoinStatus_passed) then "PASSED" else "FAILED"));
     ("producer_rows", uint_value (rr_producer_rows result));
     ("accepted_rows", uint_value (rr_accepted_rows result));
     ("full_rows", uint_value (rr_full_rows result));
     ("consumer_rows", uint_value (rr_consumer_rows result));
     ("source_artifacts",
      Value_array [artifact_value (ja_producer_source artifacts);
                   artifact_value (ja_consumer_source artifacts)]);
     ("issues", Value_array (issue_value <$> rr_issues result));
     ("joined_artifact",
      match ja_joined_artifact artifacts with Some a => artifact_value a | None => Value_null end);
     ("record_sha256", string_value record_sha256)].

Definition make_join_audit (run_id : Identifier) (result : ReconciliationResult)
    (artifacts : JoinAuditInput) : Result string :=
  let passed := bool_decide (rr_status result = JoinStatus_passed) in
  if bool_decide (rr_status result = JoinStatus_not_attempted) then
    fail_with ErrorCategory_cross_field "$audit/join_status" "REC-AUDIT-FINAL"
      "join audit requires PASSED or FAILED status"
  else if xorb passed (is_some (ja_joined_artifact artifacts)) then
    fail_with ErrorCategory_cross_field "$audit/joined_artifact" "REC-AUDIT-JOINED"
      "passed audit requires joined artifact; failed audit forbids it"
  else if (passed && nonempty (rr_issues result)) ||
          (bool_decide (rr_status result = JoinStatus_failed) && negb (nonempty (rr_issues result))) then
    fail_with ErrorCategory_cross_field "$audit/issues" "REC-AUDIT-ISSUES"
      "audit issue cardinality disagrees with join status"
  else
    let object := audit_object run_id result artifacts zero_hash in
    let* canonical_zero := canonicalize (Value_object object) in
    canonicalize (Value_object (map_assign "record_sha256"
      (string_value (digest_hex (string_bytes canonical_zero))) object)).

Definition zero_self_hash_matches (document : Value) (field : string) : bool :=
  match as_object document with
  | None => false
  | Some source =>
      let declared := string_member source field in
      if negb (String.length declared =? 64)%nat then false
      else
        match canonicalize (Value_object (map_assign field (string_value zero_hash) source)) with
        | failure _ => false
        | success canonical => bool_decide (digest_hex (string_bytes canonical) = declared)
        end
  end.
End Audit.

(** ** The validator *)

Definition protocol_version_of (record : ProtocolRecord) : ProtocolVersion :=
  match record with
  | Record_platform r => pl_protocol_version r
  | Record_schedule r => sr_protocol_version r
  | Record_raw r => ro_protocol_version r
  | Record_manifest r => rm_protocol_version r
  | Record_block r => bp_protocol_version r
  | Record_failure r => fl_protocol_version r
  | Record_freeze r => fz_protocol_version r
  end.

Definition schema_version_of (record : ProtocolRecord) : ProtocolVersion :=
  match record with
  | Record_platform r => pl_schema_version r
  | Record_schedule r => sr_schema_version r
  | Record_raw r => ro_schema_version r
  | Record_manifest r => rm_schema_version r
  | Record_block r => bp_schema_version r
  | Record_failure r => fl_schema_version r
  | Record_freeze r => fz_schema_version r
  end.

(** The alternatives [std::visit] collects; the other two are those of the
    access validator. *)
Definition raw_of (record : ProtocolRecord) : option RawObservationEnvelope :=
  match record with Record_raw r => Some r | _ => None end.
Definition schedule_of (record : ProtocolRecord) : option ScheduleRecord :=
  match record with Record_schedule r => Some r | _ => None end.

Definition parse_artifact_json (artifact : ArtifactBytes) : Result Value :=
  parse (bytes_text (ab_bytes artifact)).

(** [reject_duplicate]: one error per value whose key came before. *)
Fixpoint reject_duplicate (seen : list string) (error : ValidationError) (keys : list string) :
    list ValidationError :=
  match keys with
  | [] => []
  | key :: rest =>
      error_when (bool_decide (key ∈ seen)) error ++ reject_duplicate (key :: seen) error rest
  end.

Definition local_record_errors (record : ProtocolRecord) : list ValidationError :=
  validate record ++
  error_when (negb (bool_decide (protocol_version_of record = ProtocolVersion_v2_0_0_pre_2)) ||
              negb (bool_decide (schema_version_of record = ProtocolVersion_v2_0_0_pre_2)))
    (mkError ErrorCategory_unsupported_version "$records/protocol_version" "REC-PRE2-REQUIRED"
       "Stage 12 final semantics require matching protocol/schema 2.0.0-pre.2").

(** The rows of one alternative of a decoded stream. *)
Definition producer_rows_of (stream : DecodedRawStream) : option (list DecodedProducerRow) :=
  match ds_rows stream with Decoded_producer rows => Some rows | _ => None end.
Definition consumer_rows_of (stream : DecodedRawStream) : option (list DecodedConsumerRow) :=
  match ds_rows stream with Decoded_consumer rows => Some rows | _ => None end.
Definition joined_rows_of (stream : DecodedRawStream) : option (list JoinedRecord) :=
  match ds_rows stream with Decoded_joined rows => Some rows | _ => None end.

Definition relationship (manifest : RunManifest) (wanted : ArtifactRelationship) :
    option ArtifactReference :=
  ta_artifact <$> List.find (fun r => bool_decide (ta_relationship r = wanted)) (rm_artifact_refs manifest).

Definition raw_for (envelopes : list RawObservationEnvelope) (reference : option ArtifactReference) :
    option RawObservationEnvelope :=
  let? reference := reference in
  List.find (fun e => bool_decide (ro_artifact_id e = ar_artifact_id reference)) envelopes.

Definition run_path (manifest : RunManifest) (suffix : string) : string :=
  "$runs/" +:+ rm_run_id manifest +:+ suffix.

(** The failure records a manifest names, and whether one invalidates the run. *)
Fixpoint failure_references (manifest : RunManifest) (failures : list FailureRecord)
    (ids : list Identifier) (invalidating : bool) : list ValidationError * bool :=
  match ids with
  | [] => ([], invalidating)
  | id :: rest =>
      match List.find (fun f => bool_decide (fl_failure_record_id f = id)) failures with
      | Some found =>
          if bool_decide (fl_run_id found = Some (rm_run_id manifest)) then
            failure_references manifest failures rest (invalidating || fl_invalidates_run found)
          else
            let '(errors, invalidating) := failure_references manifest failures rest invalidating in
            (mkError ErrorCategory_reference_mismatch (run_path manifest "/failure_record_ids")
               "REC-FAILURE-RELATION" "failure reference does not resolve to this run" :: errors,
             invalidating)
      | None =>
          let '(errors, invalidating) := failure_references manifest failures rest invalidating in
          (mkError ErrorCategory_reference_mismatch (run_path manifest "/failure_record_ids")
             "REC-FAILURE-RELATION" "failure reference does not resolve to this run" :: errors,
           invalidating)
      end
  end.

Definition schedule_for (schedules : list ScheduleRecord) (reference : ArtifactReference) :
    option ScheduleRecord :=
  List.find (fun s =>
    match sr_deadline_storage s with
    | ExternalScheduleStorage id _ _ _ sha =>
        bool_decide (id = ar_artifact_id reference) && bool_decide (sha = ar_sha256 reference)
    | InlineDeadlineStorage _ => false
    end) schedules.

Section Stage12.
Context (sha256 : list Z -> list Z) (artifacts : list ArtifactBytes) (evidence : list RunEvidence).

Definition find_artifact (id : Identifier) : option ArtifactBytes :=
  List.find (fun a => bool_decide (ab_artifact_id a = id)) artifacts.

Definition find_evidence (run_id : Identifier) : option RunEvidence :=
  List.find (fun e => bool_decide (re_run_id e = run_id)) evidence.

Definition hash_matches (artifact : ArtifactBytes) (expected : Sha256) : bool :=
  bool_decide (digest_hex sha256 (ab_bytes artifact) = Sha256_hex expected).

(** Whether a reference resolves to the exact bytes it names. *)
Definition resolves (reference : ArtifactReference) : bool :=
  match find_artifact (ar_artifact_id reference) with
  | Some artifact => hash_matches artifact (ar_sha256 reference)
  | None => false
  end.

(** The typed digest of a record is the declared one and the zero-self digest. *)
Definition self_hash_valid (document : Value) (field : string) (typed : Sha256) : bool :=
  match as_object document with
  | None => false
  | Some object =>
      member_is object field (Sha256_hex typed) && zero_self_hash_matches sha256 document field
  end.

Definition failure_record_errors (failure_record : FailureRecord) : list ValidationError :=
  error_when (negb (self_hash_valid (fl_source_document failure_record) "record_sha256"
                      (fl_record_sha256 failure_record)))
    (mkError ErrorCategory_invalid_hash "$records/failure/record_sha256" "REC-FAILURE-SELF-HASH"
       "typed and source failure SHA-256 must agree with its zero-self digest") ++
  mjoin ((fun reference =>
    error_when (negb (resolves reference))
      (mkError ErrorCategory_invalid_hash "$records/failure/evidence_refs" "REC-FAILURE-EVIDENCE-HASH"
         "failure evidence must resolve to exact immutable bytes"))
    <$> fl_evidence_refs failure_record).

Definition manifest_hash_errors (manifest : RunManifest) : list ValidationError :=
  error_when (negb (self_hash_valid (rm_source_document manifest) "manifest_sha256"
                      (rm_manifest_sha256 manifest)))
    (mkError ErrorCategory_invalid_hash (run_path manifest "/manifest_sha256") "REC-MANIFEST-SELF-HASH"
       "typed and source manifest SHA-256 must agree with the JCS-I64-v1 zero-self digest").

Fixpoint artifact_reference_errors (manifest : RunManifest) (seen : list ArtifactRelationship)
    (references : list TypedArtifactReference) : list ValidationError :=
  let path := run_path manifest "/artifact_refs" in
  match references with
  | [] => []
  | reference :: rest =>
      error_when (bool_decide (ta_relationship reference ∈ seen))
        (mkError ErrorCategory_duplicate_value path "REC-DUPLICATE-RELATIONSHIP"
           "a run manifest can name each artifact relationship only once") ++
      match find_artifact (ar_artifact_id (ta_artifact reference)) with
      | None =>
          [mkError ErrorCategory_missing_evidence path "REC-ARTIFACT-MISSING"
             "manifest artifact bytes are unavailable"]
      | Some artifact =>
          error_when (negb (hash_matches artifact (ar_sha256 (ta_artifact reference))))
            (mkError ErrorCategory_invalid_hash path "REC-ARTIFACT-HASH"
               "artifact bytes do not match the manifest SHA-256")
      end ++
      artifact_reference_errors manifest (ta_relationship reference :: seen) rest
  end.

Definition require_raw_envelope (manifest : RunManifest) (reference : option ArtifactReference)
    (envelope : option RawObservationEnvelope) (name : string) : list ValidationError :=
  error_when (is_some reference && negb (is_some envelope))
    (mkError ErrorCategory_missing_evidence (run_path manifest ("/artifact_refs/" +:+ name))
       "REC-RAW-ENVELOPE" "raw artifact relationship does not resolve to a typed envelope record").

(** The JSON object of an artifact's bytes, when it is one. *)
Definition artifact_object (artifact : ArtifactBytes) : option Object :=
  match parse_artifact_json artifact with
  | success document => as_object document
  | failure _ => None
  end.

Definition provenance_errors (manifest : RunManifest) : list ValidationError :=
  match (let? reference := relationship manifest ArtifactRelationship_provenance in
         find_artifact (ar_artifact_id reference)) with
  | None => []
  | Some bytes =>
      error_when
        match artifact_object bytes with
        | None => true
        | Some object =>
            negb (member_is object "schema_version" "cpu-prefetch-queue-provenance/1") ||
            negb (member_is object "protocol_version" kPreviousProtocolVersion) ||
            negb (member_is object "queue_id" (rm_queue_provenance_id manifest))
        end
        (mkError ErrorCategory_reference_mismatch (run_path manifest "/provenance")
           "REC-QUEUE-PROVENANCE"
           "queue provenance identity and accepted historical suite must match")
  end.

(** Decoding one raw artifact; nothing is reported when it cannot be found. *)
Definition decode_raw (envelope : option RawObservationEnvelope)
    (reference : option ArtifactReference) : list ValidationError * option DecodedRawStream :=
  match envelope, reference with
  | Some envelope, Some reference =>
      match find_artifact (ar_artifact_id reference) with
      | None => ([], None)
      | Some bytes =>
          match decode_external_raw (fun b => mkSha256 (sha256 b)) envelope (ab_bytes bytes) with
          | failure errors => (errors, None)
          | success decoded => ([], Some decoded)
          end
      end
  | _, _ => ([], None)
  end.

Definition audit_counts_valid (object : Object) : bool :=
  match uint_member object "producer_rows", uint_member object "accepted_rows",
        uint_member object "full_rows", uint_member object "consumer_rows" with
  | Some producer, Some accepted, Some full, Some _ =>
      (accepted <=? u64_sub u64_max full) && (producer =? u64_add accepted full)
  | _, _, _, _ => false
  end.

Definition audit_content_valid (manifest : RunManifest) (document : Value) (object : Object) : bool :=
  let passed := bool_decide (rm_join_status manifest = JoinStatus_passed) in
  let sources_match :=
    match relationship manifest ArtifactRelationship_producer_raw,
          relationship manifest ArtifactRelationship_consumer_raw,
          (value ← member object "source_artifacts"; as_array value) with
    | Some producer, Some consumer, Some [first; second] =>
        json_artifact_matches first producer && json_artifact_matches second consumer
    | _, _, _ => false
    end in
  let joined_matches :=
    match member object "joined_artifact" with
    | None => false
    | Some value =>
        if passed then
          match relationship manifest ArtifactRelationship_joined_derived with
          | Some joined => json_artifact_matches value joined
          | None => false
          end
        else is_null value
    end in
  member_is object "schema_version" "cpu-prefetch-join-audit/1" &&
  member_is object "protocol_version" kProtocolVersion &&
  member_is object "run_id" (rm_run_id manifest) &&
  member_is object "join_status" (if passed then "PASSED" else "FAILED") &&
  sources_match && joined_matches && audit_counts_valid object &&
  zero_self_hash_matches sha256 document "record_sha256".

Definition audit_errors (manifest : RunManifest) : list ValidationError :=
  match (let? reference := relationship manifest ArtifactRelationship_join_audit in
         find_artifact (ar_artifact_id reference)) with
  | None => []
  | Some bytes =>
      match parse_artifact_json bytes with
      | success ((Value_object object) as document) =>
          error_when (negb (audit_content_valid manifest document object))
            (mkError ErrorCategory_reference_mismatch (run_path manifest "/join_audit")
               "REC-AUDIT-CONTENT"
               "join audit version, identity, status, sources, or self-hash disagrees with the manifest")
      | _ =>
          [mkError ErrorCategory_parse_error (run_path manifest "/join_audit") "REC-AUDIT-JSON"
             "join audit is not a valid JSON object"]
      end
  end.

Definition integrity_content_valid (manifest : RunManifest) (expected : PhaseIntegrityRecord)
    (reference : ArtifactReference) (object : Object) : bool :=
  let check '(name, checksum) :=
    match member object name with Some value => checksum_matches value checksum | None => false end in
  member_is object "protocol_version" kProtocolVersion &&
  member_is object "artifact_id" (ar_artifact_id reference) &&
  member_is object "run_id" (rm_run_id manifest) &&
  bool_decide ((value ← member object "content_checksum_match"; as_bool value) = Some true) &&
  forallb check
    [("final_consumer_rolling_checksum", pi_final_consumer_rolling_checksum expected);
     ("event_records_pre_checksum", pi_event_records_pre_checksum expected);
     ("event_records_post_checksum", pi_event_records_post_checksum expected);
     ("ordered_index_checksum", pi_ordered_index_checksum expected);
     ("address_delta_checksum", pi_address_delta_checksum expected)].

Definition integrity_errors (manifest : RunManifest) (envelopes : list (option RawObservationEnvelope)) :
    list ValidationError :=
  match rm_integrity_evidence manifest,
        relationship manifest ArtifactRelationship_phase_integrity_report with
  | Some expected, Some reference =>
      error_when (negb (bool_decide (pi_report_artifact expected = reference)))
        (mkError ErrorCategory_reference_mismatch
           (run_path manifest "/integrity_evidence/report_artifact") "REC-INTEGRITY-REFERENCE"
           "integrity evidence and artifact relationship disagree") ++
      match find_artifact (ar_artifact_id reference) with
      | None => []
      | Some bytes =>
          error_when
            match artifact_object bytes with
            | None => true
            | Some object => negb (integrity_content_valid manifest expected reference object)
            end
            (mkError ErrorCategory_reference_mismatch (run_path manifest "/integrity_evidence")
               "REC-INTEGRITY-CONTENT"
               "phase/integrity report identity or checksum evidence disagrees")
      end ++
      mjoin ((fun envelope =>
        match envelope with
        | Some envelope =>
            error_when (negb (bool_decide (ro_integrity_artifact_ref envelope = reference)))
              (mkError ErrorCategory_reference_mismatch
                 (run_path manifest "/raw/integrity_artifact_ref") "REC-RAW-INTEGRITY"
                 "raw envelope does not reference the manifest integrity report")
        | None => []
        end) <$> envelopes)
  | _, _ => []
  end.

(** The exact join of the decoded streams. *)
Definition reconcile_run (manifest : RunManifest) (producer consumer : option DecodedRawStream) :
    list ValidationError * option ReconciliationResult :=
  match producer ≫= producer_rows_of, consumer ≫= consumer_rows_of with
  | Some producer, Some consumer =>
      match find_evidence (rm_run_id manifest) with
      | None =>
          ([mkError ErrorCategory_missing_evidence (run_path manifest "/record_mapping")
              "REC-STAGE6-MAPPING" "exact reconciliation requires immutable Stage 6 record mapping"],
           None)
      | Some run_evidence =>
          let reconciled :=
            reconcile (rm_run_id manifest)
              ((fun row => make_producer_record (rm_run_id manifest) (dp_observation row)) <$> producer)
              ((fun row => make_consumer_record (rm_run_id manifest) (dc_observation row)) <$> consumer)
              (re_expected_record_indices run_evidence) in
          (error_when (negb (bool_decide (rr_status reconciled = rm_join_status manifest)))
             (mkError ErrorCategory_cross_field (run_path manifest "/join_status") "REC-JOIN-STATUS"
                "manifest join status disagrees with exact join") ++
           (is_error <$> rr_issues reconciled),
           Some reconciled)
      end
  | _, _ => ([], None)
  end.

Definition counts_match (counts : RunCounts) (reconciled : ReconciliationResult) : bool :=
  match rc_attempted counts, rc_accepted counts, rc_full counts, rc_consumed counts,
        rc_raw_sample_count counts with
  | Some attempted, Some accepted, Some full, Some consumed, Some samples =>
      (attempted =? rr_producer_rows reconciled) && (accepted =? rr_accepted_rows reconciled) &&
      (full =? rr_full_rows reconciled) && (consumed =? rr_consumer_rows reconciled) &&
      (samples =? Z.of_nat (length (rr_joined_rows reconciled)))
  | _, _, _, _, _ => false
  end.

Definition joined_errors (manifest : RunManifest) (joined_envelope : option RawObservationEnvelope)
    (joined : option DecodedRawStream) (reconciled : ReconciliationResult) : list ValidationError :=
  error_when
    match joined ≫= joined_rows_of with
    | None => true
    | Some rows => negb (same_joined_rows rows (rr_joined_rows reconciled))
    end
    (mkError ErrorCategory_reference_mismatch (run_path manifest "/joined_derived") "REC-JOINED-EXACT"
       "joined artifact is absent or differs from exact post-run derivation") ++
  match joined_envelope, relationship manifest ArtifactRelationship_producer_raw,
        relationship manifest ArtifactRelationship_consumer_raw with
  | Some envelope, Some producer, Some consumer =>
      error_when (negb (bool_decide (ro_source_artifacts envelope = [producer; consumer])))
        (mkError ErrorCategory_reference_mismatch (run_path manifest "/joined_derived/source_artifacts")
           "REC-JOINED-SOURCES" "joined envelope must name producer then consumer raw artifacts")
  | _, _, _ => []
  end ++
  match rm_counts manifest with
  | Some counts =>
      error_when (negb (counts_match counts reconciled))
        (mkError ErrorCategory_cross_field (run_path manifest "/counts") "REC-RAW-COUNTS"
           "manifest counts disagree with reconciled raw and joined rows")
  | None => []
  end.

(** The audit artifact against the audit regenerated from the exact join. *)
Definition audit_exact_errors (manifest : RunManifest) (reconciled : ReconciliationResult) :
    list ValidationError :=
  match relationship manifest ArtifactRelationship_join_audit,
        relationship manifest ArtifactRelationship_producer_raw,
        relationship manifest ArtifactRelationship_consumer_raw with
  | Some audit, Some producer, Some consumer =>
      let actual :=
        match find_artifact (ar_artifact_id audit) with
        | Some bytes => bytes_text (ab_bytes bytes)
        | None => EmptyString
        end in
      let joined :=
        if bool_decide (rr_status reconciled = JoinStatus_passed)
        then relationship manifest ArtifactRelationship_joined_derived else None in
      error_when
        match make_join_audit sha256 (rm_run_id manifest) reconciled
                (mkJoinAuditInput producer consumer joined) with
        | failure _ => true
        | success expected => negb (bool_decide (actual = expected))
        end
        (mkError ErrorCategory_reference_mismatch (run_path manifest "/join_audit") "REC-AUDIT-EXACT"
           "join audit must exactly equal the independently regenerated audit")
  | _, _, _ => []
  end.

Definition schedule_errors (manifest : RunManifest) (schedules : list ScheduleRecord) :
    list ValidationError :=
  let measurement := rsr_measurement (rm_schedule_refs manifest) in
  let warmup := rsr_warmup (rm_schedule_refs manifest) in
  let measurement_schedule := schedule_for schedules measurement in
  mjoin ((fun reference =>
    error_when (negb (resolves reference))
      (mkError ErrorCategory_invalid_hash (run_path manifest "/schedule_refs") "REC-SCHEDULE-ARTIFACT"
         "schedule reference does not resolve to exact immutable bytes"))
    <$> [measurement; warmup]) ++
  error_when (bool_decide (rm_lifecycle_state manifest = LifecycleState_completed) &&
              (negb (is_some measurement_schedule) || negb (is_some (schedule_for schedules warmup))))
    (mkError ErrorCategory_missing_evidence (run_path manifest "/schedule_refs") "REC-SCHEDULE-RELATION"
       "completed run schedule references must resolve to exact schedule records") ++
  match rm_counts manifest ≫= rc_offered, measurement_schedule with
  | Some offered, Some schedule =>
      error_when (negb (offered =? sr_offered_count schedule))
        (mkError ErrorCategory_cross_field (run_path manifest "/counts/offered") "REC-SCHEDULE-COUNT"
           "manifest offered count differs from the frozen measurement schedule")
  | _, _ => []
  end.

Definition status_input (manifest : RunManifest) (invalidating_failure : bool) : RunStatusInput :=
  let run_evidence := find_evidence (rm_run_id manifest) in
  mkRunStatusInput (rm_stage manifest) (rm_lifecycle_state manifest) (rm_join_status manifest)
    (rm_counts manifest) invalidating_failure
    (default (mkAuthoritativeBlockCompleteness BlockCompleteness_not_evaluated false)
       (re_block_completeness <$> run_evidence))
    (default (mkAuthoritativeGate GateStatus_not_evaluated false)
       (re_access_integrity <$> run_evidence)).

Definition gates_match (manifest : RunManifest) (status : RunStatus) : bool :=
  bool_decide (rm_validity manifest = rs_validity status) &&
  bool_decide (rm_count_reconciliation manifest = rs_count_reconciliation status) &&
  bool_decide (rm_zero_loss_status manifest = rs_zero_loss status) &&
  bool_decide (rm_effective_tail_status manifest = rs_effective_tail status) &&
  bool_decide (rm_block_completeness manifest = rs_block_completeness status) &&
  bool_decide (rm_confirmatory_estimability manifest = rs_confirmatory_estimability status) &&
  bool_decide (rm_confirmatory_blockers manifest = rs_confirmatory_blockers status).

Definition status_errors (manifest : RunManifest) (invalidating_failure : bool) :
    Throws (list ValidationError) :=
  let! evaluated := evaluate_run_status (status_input manifest invalidating_failure) in
  Returned
    match evaluated with
    | failure errors => errors
    | success status =>
        error_when (negb (gates_match manifest status))
          (mkError ErrorCategory_cross_field (run_path manifest "/status") "REC-INDEPENDENT-GATES"
             "manifest independent run gates disagree with Stage 12 evaluation")
    end.

(** The body of the loop over the manifests. *)
Definition run_errors (records : list ProtocolRecord) (manifest : RunManifest) :
    Throws (list ValidationError) :=
  let envelopes := omap raw_of records in
  let schedules := omap schedule_of records in
  let '(failure_errors, invalidating_failure) :=
    failure_references manifest (omap failure_of records) (rm_failure_record_ids manifest) false in
  let producer_ref := relationship manifest ArtifactRelationship_producer_raw in
  let consumer_ref := relationship manifest ArtifactRelationship_consumer_raw in
  let joined_ref := relationship manifest ArtifactRelationship_joined_derived in
  let producer_envelope := raw_for envelopes producer_ref in
  let consumer_envelope := raw_for envelopes consumer_ref in
  let joined_envelope := raw_for envelopes joined_ref in
  let '(producer_errors, producer) := decode_raw producer_envelope producer_ref in
  let '(consumer_errors, consumer) := decode_raw consumer_envelope consumer_ref in
  let '(joined_decode_errors, joined) := decode_raw joined_envelope joined_ref in
  let '(join_errors, reconciled) := reconcile_run manifest producer consumer in
  let! gate_errors := status_errors manifest invalidating_failure in
  Returned
    (manifest_hash_errors manifest ++
     artifact_reference_errors manifest [] (rm_artifact_refs manifest) ++
     failure_errors ++
     require_raw_envelope manifest producer_ref producer_envelope "producer_raw" ++
     require_raw_envelope manifest consumer_ref consumer_envelope "consumer_raw" ++
     require_raw_envelope manifest joined_ref joined_envelope "joined_derived" ++
     provenance_errors manifest ++
     producer_errors ++ consumer_errors ++ joined_decode_errors ++
     audit_errors manifest ++
     integrity_errors manifest [producer_envelope; consumer_envelope; joined_envelope] ++
     join_errors ++
     match reconciled with
     | Some result =>
         (if bool_decide (rr_status result = JoinStatus_passed)
          then joined_errors manifest joined_envelope joined result else []) ++
         audit_exact_errors manifest result
     | None => []
     end ++
     schedule_errors manifest schedules ++
     gate_errors).

Fixpoint runs_errors (records : list ProtocolRecord) (manifests : list RunManifest) :
    Throws (list ValidationError) :=
  match manifests with
  | [] => Returned []
  | manifest :: rest =>
      let! errors := run_errors records manifest in
      let! others := runs_errors records rest in
      Returned (errors ++ others)
  end.

(** [Stage12CrossRecordSemanticValidator::validate]. *)
Definition stage12_validate (records : list ProtocolRecord) : Throws (list ValidationError) :=
  let failures := omap failure_of records in
  let manifests := omap manifest_of records in
  let! run_errors := runs_errors records manifests in
  Returned
    (mjoin (local_record_errors <$> records) ++
     reject_duplicate []
       (mkError ErrorCategory_duplicate_value "$artifacts" "REC-DUPLICATE-ARTIFACT-ID"
          "artifact IDs must be unique") (ab_artifact_id <$> artifacts) ++
     reject_duplicate []
       (mkError ErrorCategory_duplicate_value "$records/raw_observation" "REC-DUPLICATE-RAW-ENVELOPE"
          "raw-envelope artifact IDs must be unique in a record graph")
       (ro_artifact_id <$> omap raw_of records) ++
     reject_duplicate []
       (mkError ErrorCategory_duplicate_value "$records/schedule" "REC-DUPLICATE-SCHEDULE-ID"
          "schedule IDs must be unique in a record graph")
       (sr_schedule_id <$> omap schedule_of records) ++
     reject_duplicate []
       (mkError ErrorCategory_duplicate_value "$records/failure" "REC-DUPLICATE-FAILURE-ID"
          "failure record IDs must be unique in a record graph")
       (fl_failure_record_id <$> failures) ++
     reject_duplicate []
       (mkError ErrorCategory_duplicate_value "$records/run_manifest" "REC-DUPLICATE-RUN-MANIFEST"
          "each run identity can have only one manifest in a record graph")
       (rm_run_id <$> manifests) ++
     reject_duplicate []
       (mkError ErrorCategory_duplicate_value "$evidence" "REC-DUPLICATE-RUN-EVIDENCE"
          "each run identity can have only one injected evidence record")
       (re_run_id <$> evidence) ++
     mjoin (failure_record_errors <$> failures) ++
     run_errors).
End Stage12.
