(* ===== verification/RunGraph.v ===== *)
(** * Accepted record graphs

    What [Stage12CrossRecordSemanticValidator] establishes of a graph it accepts:
    the records and artifacts of every run are the ones their digests name, the
    gates of the manifest are those of the status evaluation, and the joined data
    and the audit of a valid run are regenerated from its raw streams. *)

From stdpp Require Import prelude list strings.
From Stdlib Require Import ZArith Lia Ascii.
From S2P Require Import Prelude Validation Model Bytes Utf8 Json JsonParsing JsonCanonical Documents.
From S2P Require Import Timing Capture Load Semantic SemanticRecords RawObservations Reconciliation.
From S2P Require Import BlockPlanning BlockPlans Access CrossRecord.

#[local] Open Scope Z_scope.

(** ** Rows *)

Lemma same_joined_row_eq a b : same_joined_row a b = true <-> a = b.
Proof.
  unfold same_joined_row. split.
  - intros H. repeat rewrite andb_true_iff in H. rewrite bool_decide_eq_true in H.
    repeat rewrite Z.eqb_eq in H. destruct a, b. cbn in H. destruct_and! H. by subst.
  - intros <-. rewrite bool_decide_true by done. by repeat rewrite Z.eqb_refl.
Qed.

Lemma same_joined_rows_eq a : forall b, same_joined_rows a b = true <-> a = b.
Proof.
  induction a as [|x a IH]; intros [|y b]; cbn; try (split; congruence).
  rewrite andb_true_iff, same_joined_row_eq, IH. split; [by intros [-> ->] | by intros [= -> ->]].
Qed.

(** ** Errors are never empty *)

Lemma decode_rows_failure {A St} layout run_id row_bytes wc (decode : Z -> St -> list Z -> Result (A * St)) :
  (forall index state words es, length words = wc -> decode index state words = failure es -> es <> []) ->
  forall rows index state bytes es,
    decode_rows layout run_id row_bytes wc decode rows index state bytes = failure es -> es <> [].
Proof.
  intros D rows. induction rows as [|rows IH]; intros index state bytes es; cbn; [done|].
  destruct (negb _); [by intros [= <-]|].
  destruct (decode index state _) as [[v st]|] eqn:E.
  - destruct (decode_rows _ _ _ _ _ _ _ _ _) eqn:E'; [done|]. intros [= <-]. eauto.
  - intros [= <-]. eapply D; [|done]. apply length_load_words.
Qed.

Ltac row_words words :=
  repeat (destruct words as [|? words]; [done|]); destruct words; [|done].

Lemma decode_producer_row_failure run_id index state words es :
  length words = 15%nat -> decode_producer_row run_id index state words = failure es -> es <> [].
Proof.
  intros L. row_words words. cbn. repeat case_match; try done; by intros [= <-].
Qed.

Lemma decode_consumer_row_failure run_id index state words es :
  length words = 10%nat -> stateless (decode_consumer_row run_id) index state words = failure es ->
  es <> [].
Proof.
  intros L. row_words words. unfold stateless. cbn. destruct (negb _); [|done]. by intros [= <-].
Qed.

Lemma decode_joined_row_failure run_id index state words es :
  length words = 24%nat -> stateless (decode_joined_row run_id) index state words = failure es ->
  es <> [].
Proof.
  intros L. row_words words. unfold stateless. cbn. destruct (negb _); [|done]. by intros [= <-].
Qed.

Lemma validated_stream_failure envelope rows es :
  validated_stream envelope rows = failure es -> es <> [].
Proof. unfold validated_stream. destruct (validate_raw _); [done|]. by intros [= <-]. Qed.

Lemma decode_external_failure sha envelope bytes es :
  decode_external_raw sha envelope bytes = failure es -> es <> [].
Proof.
  unfold decode_external_raw. destruct (envelope_error _ _ _); [by intros [= <-]|].
  destruct (make_row_layout _); [|by intros [= <-]].
  destruct (raw_checked_multiply _ _) as [exact|]; [|by intros [= <-]].
  destruct (_ || _); [by intros [= <-]|].
  destruct (ro_stream_kind envelope);
    match goal with |- context [@decode_rows ?A ?S ?a ?b ?c ?d ?e ?f ?g ?h ?i] =>
      destruct (@decode_rows A S a b c d e f g h i) eqn:E end;
    try apply validated_stream_failure; intros [= <-]; eapply decode_rows_failure in E; try exact E.
  - intros ????. apply decode_producer_row_failure.
  - intros ????. apply decode_consumer_row_failure.
  - intros ????. apply decode_joined_row_failure.
Qed.

(** ** The parts of an accepted graph *)

Lemma runs_errors_nil sha artifacts evidence records manifests manifest :
  runs_errors sha artifacts evidence records manifests = Returned [] -> manifest ∈ manifests ->
  run_errors sha artifacts evidence records manifest = Returned [].
Proof.
  induction manifests as [|m rest IH]; intros H Hin; [by apply elem_of_nil in Hin|]. cbn in H.
  destruct (run_errors _ _ _ _ m) as [es|] eqn:E; [|done].
  destruct (runs_errors _ _ _ _ rest) as [os|]; [|done]. injection H as H.
  apply app_eq_nil in H as [-> ->]. apply elem_of_cons in Hin as [->|Hin]; [done|]. by apply IH.
Qed.

Lemma mjoin_nil {A B} (f : A -> list B) (l : list A) x : mjoin (f <$> l) = [] -> x ∈ l -> f x = [].
Proof.
  induction l as [|a l IH]; intros H Hin; [by apply elem_of_nil in Hin|]. cbn in H.
  apply app_eq_nil in H as [H1 H2]. apply elem_of_cons in Hin as [->|Hin]; auto.
Qed.

Lemma stage12_run sha artifacts evidence records manifest :
  stage12_validate sha artifacts evidence records = Returned [] ->
  Record_manifest manifest ∈ records ->
  run_errors sha artifacts evidence records manifest = Returned [] /\ validate_manifest manifest = [].
Proof.
  unfold stage12_validate. destruct (runs_errors _ _ _ _ _) as [es|] eqn:E; [|done].
  intros H Hin. injection H as H. repeat (apply app_eq_nil in H as [? H]). subst es. split.
  - eapply runs_errors_nil; [done|]. apply list_elem_of_omap. by exists (Record_manifest manifest).
  - match goal with L : mjoin (local_record_errors <$> _) = [] |- _ =>
      apply (mjoin_nil _ _ _ L) in Hin; by apply app_eq_nil in Hin as [? _] end.
Qed.

(** The parts of a run without errors. *)
Record run_accepted sha artifacts evidence records manifest : Prop := {
  ra_hash : manifest_hash_errors sha manifest = [];
  ra_refs : artifact_reference_errors sha artifacts manifest [] (rm_artifact_refs manifest) = [];
  ra_producer : require_raw_envelope manifest (relationship manifest ArtifactRelationship_producer_raw)
    (raw_for (omap raw_of records) (relationship manifest ArtifactRelationship_producer_raw))
    "producer_raw" = [];
  ra_consumer : require_raw_envelope manifest (relationship manifest ArtifactRelationship_consumer_raw)
    (raw_for (omap raw_of records) (relationship manifest ArtifactRelationship_consumer_raw))
    "consumer_raw" = [];
  ra_decoded : forall relation,
    relation ∈ [ArtifactRelationship_producer_raw; ArtifactRelationship_consumer_raw;
                ArtifactRelationship_joined_derived] ->
    (decode_raw sha artifacts (raw_for (omap raw_of records) (relationship manifest relation))
      (relationship manifest relation)).1 = [];
  ra_joined :
    let decoded relation :=
      (decode_raw sha artifacts (raw_for (omap raw_of records) (relationship manifest relation))
        (relationship manifest relation)).2 in
    let joined := reconcile_run evidence manifest (decoded ArtifactRelationship_producer_raw)
      (decoded ArtifactRelationship_consumer_raw) in
    joined.1 = [] /\
    forall result, joined.2 = Some result ->
      (rr_status result = JoinStatus_passed ->
       joined_errors manifest
         (raw_for (omap raw_of records) (relationship manifest ArtifactRelationship_joined_derived))
         (decoded ArtifactRelationship_joined_derived) result = []) /\
      audit_exact_errors sha artifacts manifest result = [];
  ra_schedules : schedule_errors sha artifacts manifest (omap schedule_of records) = [];
  ra_failures : (failure_references manifest (omap failure_of records)
                   (rm_failure_record_ids manifest) false).1 = [];
  ra_gates : status_errors evidence manifest
    (failure_references manifest (omap failure_of records) (rm_failure_record_ids manifest) false).2 =
    Returned []
}.

Lemma run_errors_accepted sha artifacts evidence records manifest :
  run_errors sha artifacts evidence records manifest = Returned [] ->
  run_accepted sha artifacts evidence records manifest.
Proof.
  unfold run_errors.
  destruct (failure_references _ _ _ _) as [fe inv] eqn:Ef.
  destruct (decode_raw _ _ (raw_for _ (relationship _ ArtifactRelationship_producer_raw)) _) eqn:Ep.
  destruct (decode_raw _ _ (raw_for _ (relationship _ ArtifactRelationship_consumer_raw)) _) eqn:Ec.
  destruct (decode_raw _ _ (raw_for _ (relationship _ ArtifactRelationship_joined_derived)) _) eqn:Ej.
  destruct (reconcile_run _ _ _ _) as [je result] eqn:Er.
  destruct (status_errors _ _ _) as [ge|] eqn:Eg; [|done].
  intros [= H]. repeat (apply app_eq_nil in H as [? H]). subst.
  constructor; rewrite ?Ef; try done.
  - intros relation. rewrite !elem_of_cons, elem_of_nil.
    intros [-> | [-> | [-> | []]]]; rewrite ?Ep, ?Ec, ?Ej; done.
  - cbv beta zeta. rewrite Ep, Ec, Ej. cbn. rewrite Er. cbn. split; [done|]. intros r ->.
    match goal with J : (if _ then _ else _) ++ _ = [] |- _ => apply app_eq_nil in J as [J1 J2] end.
    split; [|done]. intros P. by rewrite bool_decide_true in J1.
Qed.

(** ** References, failures and gates *)

Lemma artifact_references_ok sha artifacts manifest refs : forall seen,
  artifact_reference_errors sha artifacts manifest seen refs = [] ->
  NoDup (ta_relationship <$> refs) /\ Forall (fun r => ta_relationship r ∉ seen) refs /\
  Forall (fun r => resolves sha artifacts (ta_artifact r) = true) refs.
Proof.
  induction refs as [|r rest IH]; intros seen H; cbn in H; [repeat split; constructor|].
  apply app_eq_nil in H as [H1 H]. apply app_eq_nil in H as [H2 H].
  apply error_when_nil, bool_decide_eq_false in H1. apply IH in H as (N & S & R).
  repeat split.
  - constructor; [|done]. intros I. apply list_elem_of_fmap in I as (x & E & I).
    rewrite Forall_forall in S. apply (S x I). rewrite <- E. by left.
  - constructor; [done|]. eapply Forall_impl; [exact S|]. cbn. intros x Hx I. apply Hx. by right.
  - constructor; [|done]. unfold resolves. destruct (find_artifact _ _); [|done].
    by apply error_when_nil, negb_false_iff in H2.
Qed.

(** The failure record an identifier names. *)
Definition named_failure (failures : list FailureRecord) (id : Identifier) : option FailureRecord :=
  List.find (fun f => bool_decide (fl_failure_record_id f = id)) failures.

Definition invalidates (failures : list FailureRecord) (id : Identifier) : bool :=
  match named_failure failures id with Some f => fl_invalidates_run f | None => false end.

Lemma failure_references_ok manifest failures ids : forall inv,
  (failure_references manifest failures ids inv).1 = [] ->
  (failure_references manifest failures ids inv).2 = inv || existsb (invalidates failures) ids /\
  Forall (fun id => exists f, named_failure failures id = Some f /\
                              fl_run_id f = Some (rm_run_id manifest)) ids.
Proof.
  unfold invalidates, named_failure.
  induction ids as [|id rest IH]; intros inv H; cbn in H |- *; [by rewrite orb_false_r|].
  destruct (List.find _ failures) as [f|] eqn:E.
  - case_bool_decide as R.
    + apply IH in H as [-> F]. rewrite <- orb_assoc. split; [done|]. constructor; eauto.
    + destruct (failure_references manifest failures rest inv); done.
  - destruct (failure_references manifest failures rest inv); done.
Qed.

Lemma evaluate_failure input es : evaluate_run_status input = Returned (failure es) -> es <> [].
Proof.
  assert (C : forall output es, conclude_status input output = failure es -> es <> []).
  { intros output es'. unfold conclude_status. repeat case_match; try done; by intros [= <-]. }
  unfold evaluate_run_status.
  destruct (ri_lifecycle_state input); try done; try (intros [= H]; by apply C in H).
  destruct (ri_counts input); [|by intros [= <-]]. destruct (completed_status _ _); [|done].
  intros [= H]. by apply C in H.
Qed.

Lemma gates_match_true manifest status :
  gates_match manifest status = true ->
  rm_validity manifest = rs_validity status /\
  rm_count_reconciliation manifest = rs_count_reconciliation status /\
  rm_zero_loss_status manifest = rs_zero_loss status /\
  rm_effective_tail_status manifest = rs_effective_tail status /\
  rm_block_completeness manifest = rs_block_completeness status /\
  rm_confirmatory_estimability manifest = rs_confirmatory_estimability status /\
  rm_confirmatory_blockers manifest = rs_confirmatory_blockers status.
Proof.
  unfold gates_match. intros H. repeat rewrite andb_true_iff in H.
  repeat rewrite bool_decide_eq_true in H. tauto.
Qed.

Lemma status_errors_ok evidence manifest inv :
  status_errors evidence manifest inv = Returned [] ->
  exists status, evaluate_run_status (status_input evidence manifest inv) = Returned (success status) /\
    gates_match manifest status = true.
Proof.
  unfold status_errors. destruct (evaluate_run_status _) as [[status|es]|] eqn:E; [| |done]; intros [= H].
  - exists status. by apply error_when_nil, negb_false_iff in H.
  - by apply evaluate_failure in E.
Qed.

(** A graph the Stage 12 validator accepts: every manifest declares its own
    zero-self digest, names each artifact relationship once, and every artifact
    and schedule reference resolves to bytes with the digest it names; every
    failure record it lists exists and is of this run; and the validity, count,
    zero-loss, tail, completeness, estimability and blockers it states are the
    ones the status evaluation computes from the run's evidence and from whether
    one of those failures invalidates the run. *)
Theorem stage12_runs_verified sha artifacts evidence records manifest :
  stage12_validate sha artifacts evidence records = Returned [] ->
  Record_manifest manifest ∈ records ->
  self_hash_valid sha (rm_source_document manifest) "manifest_sha256" (rm_manifest_sha256 manifest) =
    true /\
  NoDup (ta_relationship <$> rm_artifact_refs manifest) /\
  Forall (fun r => resolves sha artifacts (ta_artifact r) = true) (rm_artifact_refs manifest) /\
  resolves sha artifacts (rsr_measurement (rm_schedule_refs manifest)) = true /\
  resolves sha artifacts (rsr_warmup (rm_schedule_refs manifest)) = true /\
  Forall (fun id => exists f, named_failure (omap failure_of records) id = Some f /\
                              fl_run_id f = Some (rm_run_id manifest)) (rm_failure_record_ids manifest) /\
  exists status,
    evaluate_run_status (status_input evidence manifest
      (existsb (invalidates (omap failure_of records)) (rm_failure_record_ids manifest))) =
      Returned (success status) /\
    rm_validity manifest = rs_validity status /\
    rm_count_reconciliation manifest = rs_count_reconciliation status /\
    rm_zero_loss_status manifest = rs_zero_loss status /\
    rm_effective_tail_status manifest = rs_effective_tail status /\
    rm_block_completeness manifest = rs_block_completeness status /\
    rm_confirmatory_estimability manifest = rs_confirmatory_estimability status /\
    rm_confirmatory_blockers manifest = rs_confirmatory_blockers status.
Proof.
  intros V I. destruct (stage12_run _ _ _ _ _ V I) as [R _]. apply run_errors_accepted in R as [].
  apply error_when_nil, negb_false_iff in ra_hash0.
  apply artifact_references_ok in ra_refs0 as (N & _ & A).
  apply failure_references_ok in ra_failures0 as [Ei F]. rewrite Ei in ra_gates0. cbn [orb] in ra_gates0.
  apply status_errors_ok in ra_gates0 as (status & E & G). apply gates_match_true in G.
  unfold schedule_errors in ra_schedules0. cbn [fmap list_fmap mjoin list_join] in ra_schedules0.
  rewrite <- !app_assoc in ra_schedules0. cbn [app] in ra_schedules0.
  apply app_eq_nil in ra_schedules0 as [S1 S2]. apply app_eq_nil in S2 as [S2 _].
  apply error_when_nil, negb_false_iff in S1, S2. eauto 12.
Qed.

(** ** Joins *)

Lemma has_relationship_some manifest relation :
  has_relationship manifest relation = true -> is_Some (relationship manifest relation).
Proof.
  unfold has_relationship, relationship. induction (rm_artifact_refs manifest) as [|r rest IH]; [done|].
  cbn. case_bool_decide; cbn; [eauto | exact IH].
Qed.

Lemma relationship_in manifest relation reference :
  relationship manifest relation = Some reference ->
  exists r, r ∈ rm_artifact_refs manifest /\ ta_artifact r = reference.
Proof.
  unfold relationship. destruct (List.find _ _) as [r|] eqn:E; [|done]. intros [= <-].
  apply find_some in E as [I _]. exists r. by rewrite list_elem_of_In.
Qed.

(** A valid completed Stage A run. *)
Definition valid_completed (manifest : RunManifest) : Prop :=
  rm_stage manifest = Stage_stage_a /\ rm_lifecycle_state manifest = LifecycleState_completed /\
  rm_validity manifest = RunValidity_valid.

Lemma completed_parts manifest :
  valid_completed manifest -> validate_manifest manifest = [] ->
  is_Some (rm_counts manifest) /\ rm_join_status manifest = JoinStatus_passed /\
  forall relation, relation ∈ required_relationships -> is_Some (relationship manifest relation).
Proof.
  intros (E1 & E2 & E3) V. unfold validate_manifest in V.
  apply app_eq_nil in V as [_ V]. apply app_eq_nil in V as [_ V].
  rewrite !bool_decide_true in V by done. cbn [andb] in V. unfold completed_errors in V.
  apply app_eq_nil in V as [V1 V]. apply app_eq_nil in V as [V2 _].
  apply error_when_nil in V1. repeat rewrite orb_false_iff in V1.
  destruct V1 as [[[C _] J] _]. apply negb_false_iff in C, J. apply bool_decide_eq_true in J.
  split; [destruct (rm_counts manifest); [by eexists | done]|]. split; [done|].
  intros relation I. apply (mjoin_nil _ _ _ V2) in I.
  apply error_when_nil, negb_false_iff in I. by apply has_relationship_some.
Qed.

(** An accepted graph decodes every raw artifact it names. *)
Lemma decode_raw_ok sha artifacts envelope reference :
  (decode_raw sha artifacts (Some envelope) (Some reference)).1 = [] ->
  resolves sha artifacts reference = true ->
  exists bytes stream, find_artifact artifacts (ar_artifact_id reference) = Some bytes /\
    decode_external_raw (fun b => mkSha256 (sha b)) envelope (ab_bytes bytes) = success stream /\
    (decode_raw sha artifacts (Some envelope) (Some reference)).2 = Some stream.
Proof.
  unfold decode_raw, resolves. destruct (find_artifact _ _) as [bytes|]; [|done].
  destruct (decode_external_raw _ _ _) as [stream|es] eqn:E; cbn; intros D _.
  - by exists bytes, stream.
  - subst es. by apply decode_external_failure in E.
Qed.

Lemma decode_external_kind sha envelope bytes stream :
  decode_external_raw sha envelope bytes = success stream ->
  match ro_stream_kind envelope with
  | StreamKind_producer => exists rows, ds_rows stream = Decoded_producer rows
  | StreamKind_consumer => exists rows, ds_rows stream = Decoded_consumer rows
  | StreamKind_joined_derived => exists rows, ds_rows stream = Decoded_joined rows
  end.
Proof.
  unfold decode_external_raw. destruct (envelope_error _ _ _); [done|].
  destruct (make_row_layout _); [|done]. destruct (raw_checked_multiply _ _) as [exact|]; [|done].
  destruct (_ || _); [done|].
  destruct (ro_stream_kind envelope);
    match goal with |- context [@decode_rows ?A ?S ?a ?b ?c ?d ?e ?f ?g ?h ?i] =>
      destruct (@decode_rows A S a b c d e f g h i) eqn:E end; try done;
    intros H%validated_stream_rows; eauto.
Qed.

Lemma decode_external_producer sha envelope bytes stream :
  ro_stream_kind envelope = StreamKind_producer ->
  decode_external_raw sha envelope bytes = success stream ->
  exists rows, ds_rows stream = Decoded_producer rows.
Proof. intros K D. apply decode_external_kind in D. by rewrite K in D. Qed.

Lemma decode_external_consumer sha envelope bytes stream :
  ro_stream_kind envelope = StreamKind_consumer ->
  decode_external_raw sha envelope bytes = success stream ->
  exists rows, ds_rows stream = Decoded_consumer rows.
Proof. intros K D. apply decode_external_kind in D. by rewrite K in D. Qed.

Lemma reconcile_passed_exact run_id producers consumers expected :
  rr_status (reconcile run_id producers consumers expected) = JoinStatus_passed ->
  exact_join run_id producers consumers expected.
Proof.
  intros P. destruct (decide (audit_issues run_id producers consumers expected = [])) as [A|A];
    rewrite audit_nil in A; [done|].
  apply reconcile_refused in A as (R & _). congruence.
Qed.

(** The producer records of decoded rows, under a run's identity. *)
Definition producer_records (run_id : Identifier) (rows : list DecodedProducerRow) : list ProducerRecord :=
  (fun row => make_producer_record run_id (dp_observation row)) <$> rows.
Definition consumer_records (run_id : Identifier) (rows : list DecodedConsumerRow) : list ConsumerRecord :=
  (fun row => make_consumer_record run_id (dc_observation row)) <$> rows.

Lemma reconcile_run_ok evidence manifest p c prows crows :
  ds_rows p = Decoded_producer prows -> ds_rows c = Decoded_consumer crows ->
  (reconcile_run evidence manifest (Some p) (Some c)).1 = [] ->
  exists e, e ∈ evidence /\ re_run_id e = rm_run_id manifest /\
    let result := reconcile (rm_run_id manifest) (producer_records (rm_run_id manifest) prows)
                    (consumer_records (rm_run_id manifest) crows) (re_expected_record_indices e) in
    (reconcile_run evidence manifest (Some p) (Some c)).2 = Some result /\
    rr_status result = rm_join_status manifest.
Proof.
  intros Ep Ec. unfold reconcile_run, producer_rows_of, consumer_rows_of. cbn. rewrite Ep, Ec. cbn.
  unfold find_evidence. destruct (List.find _ evidence) as [e|] eqn:E; [|done].
  apply find_some in E as [I E]. apply bool_decide_eq_true in E. cbn. intros H.
  apply app_eq_nil in H as [H _]. apply error_when_nil, negb_false_iff, bool_decide_eq_true in H.
  exists e. split; [by apply list_elem_of_In|]. done.
Qed.

Lemma joined_errors_ok manifest envelope joined result :
  joined_errors manifest envelope joined result = [] ->
  (exists stream, joined = Some stream /\ ds_rows stream = Decoded_joined (rr_joined_rows result)) /\
  (forall counts, rm_counts manifest = Some counts -> counts_match counts result = true).
Proof.
  unfold joined_errors. intros H. apply app_eq_nil in H as [H1 H]. apply app_eq_nil in H as [_ H2].
  split.
  - apply error_when_nil in H1. unfold joined_rows_of in H1.
    destruct joined as [stream|]; [|done]. cbn in H1. destruct (ds_rows stream) as [| |rows] eqn:E; try done.
    apply negb_false_iff, same_joined_rows_eq in H1 as ->. by exists stream.
  - intros counts C. rewrite C in H2. by apply error_when_nil, negb_false_iff in H2.
Qed.

Lemma audit_exact_ok sha artifacts manifest result audit producer consumer joined :
  rr_status result = JoinStatus_passed ->
  relationship manifest ArtifactRelationship_join_audit = Some audit ->
  relationship manifest ArtifactRelationship_producer_raw = Some producer ->
  relationship manifest ArtifactRelationship_consumer_raw = Some consumer ->
  relationship manifest ArtifactRelationship_joined_derived = Some joined ->
  audit_exact_errors sha artifacts manifest result = [] ->
  exists expected,
    make_join_audit sha (rm_run_id manifest) result (mkJoinAuditInput producer consumer (Some joined)) =
      success expected /\
    match find_artifact artifacts (ar_artifact_id audit) with
    | Some bytes => bytes_text (ab_bytes bytes)
    | None => EmptyString
    end = expected.
Proof.
  intros P Ea Ep Ec Ej. unfold audit_exact_errors. rewrite Ea, Ep, Ec, Ej, P. cbn.
  intros H. apply error_when_nil in H. destruct (make_join_audit _ _ _ _) as [expected|] eqn:E; [|done].
  apply negb_false_iff, bool_decide_eq_true in H. by exists expected.
Qed.

Lemma counts_match_true counts result :
  counts_match counts result = true ->
  rc_attempted counts = Some (rr_producer_rows result) /\
  rc_accepted counts = Some (rr_accepted_rows result) /\
  rc_full counts = Some (rr_full_rows result) /\
  rc_consumed counts = Some (rr_consumer_rows result) /\
  rc_raw_sample_count counts = Some (Z.of_nat (length (rr_joined_rows result))).
Proof.
  unfold counts_match.
  destruct (rc_attempted counts), (rc_accepted counts), (rc_full counts), (rc_consumed counts),
    (rc_raw_sample_count counts); try done.
  repeat rewrite andb_true_iff. repeat rewrite Z.eqb_eq. intros [[[[-> ->] ->] ->] ->]. done.
Qed.


(** ** The audit a join produces *)

Section Audit.
Context (sha : list Z -> list Z) (run_id : Identifier) (result : ReconciliationResult)
  (inputs : JoinAuditInput).
Hypothesis Hsha : forall m, sha_wf (mkSha256 (sha m)).

(** The members of an audit in the order of their keys. *)
Definition audit_members (digest : string) : Object :=
  [("accepted_rows", uint_value (rr_accepted_rows result));
   ("consumer_rows", uint_value (rr_consumer_rows result));
   ("full_rows", uint_value (rr_full_rows result));
   ("issues", Value_array (issue_value <$> rr_issues result));
   ("join_status",
    string_value (if bool_decide (rr_status result = JoinStatus_passed) then "PASSED" else "FAILED"));
   ("joined_artifact",
    match ja_joined_artifact inputs with Some a => artifact_value a | None => Value_null end);
   ("producer_rows", uint_value (rr_producer_rows result));
   ("protocol_version", string_value kProtocolVersion);
   ("record_sha256", string_value digest);
   ("run_id", string_value run_id);
   ("schema_version", string_value "cpu-prefetch-join-audit/1");
   ("source_artifacts",
    Value_array [artifact_value (ja_producer_source inputs); artifact_value (ja_consumer_source inputs)])].

Lemma audit_object_members digest : audit_object run_id result inputs digest = audit_members digest.
Proof. reflexivity. Qed.

Lemma hex_valid s : has_value (decode_utf8 (Sha256_hex s)) = true.
Proof. apply words_valid, hex_word. Qed.

Lemma hex_length s : sha_wf s -> String.length (Sha256_hex s) = 64%nat.
Proof.
  intros [L _]. unfold Sha256_hex. change 64%nat with (2 * 32)%nat. rewrite <- L.
  clear L. induction (sha_bytes s) as [|b l IH]; [done|].
  cbn [flat_map app String.string_of_list_ascii String.length]. rewrite IH. cbn [length]. lia.
Qed.

Lemma issue_integers issues : forallb integers_only (issue_value <$> issues) = true.
Proof. by induction issues as [|i issues IH]. Qed.

Lemma audit_integers digest : integers_only (Value_object (audit_members digest)) = true.
Proof.
  cbn [integers_only audit_members forallb snd uint_value is_integer num_kind andb].
  rewrite issue_integers. by destruct (ja_joined_artifact inputs).
Qed.

(** The text of another digest does not change that the audit is well formed. *)
Lemma audit_well_formed digest :
  well_formed (Value_object (audit_members zero_hash)) = true ->
  has_value (decode_utf8 digest) = true ->
  well_formed (Value_object (audit_members digest)) = true.
Proof.
  cbn [well_formed audit_members keys_sorted forallb fst snd]. intros W V.
  rewrite !andb_true_iff in W |- *. unfold string_value in *. cbn [well_formed] in *. tauto.
Qed.

Lemma audit_zeroed digest :
  map_assign "record_sha256" (string_value zero_hash)
    (List.map (fun kv => (fst kv, normalize (snd kv))) (audit_members digest)) =
  List.map (fun kv => (fst kv, normalize (snd kv))) (audit_members zero_hash).
Proof. reflexivity. Qed.

Lemma canonicalize_normalize v :
  integers_only v = true -> canonicalize (normalize v) = canonicalize v.
Proof. intros I. unfold canonicalize. by rewrite append_canonical_normalize. Qed.

(** The document an audit text is, and its digest. *)
Lemma make_join_audit_document t :
  well_formed (Value_object (audit_members zero_hash)) = true ->
  make_join_audit sha run_id result inputs = success t ->
  exists zero,
    canonicalize (Value_object (audit_members zero_hash)) = success zero /\
    parse t = success (normalize (Value_object (audit_members (digest_hex sha (string_bytes zero))))) /\
    xorb (bool_decide (rr_status result = JoinStatus_passed)) (is_some (ja_joined_artifact inputs)) = false.
Proof.
  intros W. unfold make_join_audit. destruct (bool_decide _); [done|].
  destruct (xorb _ _) eqn:X; [done|]. destruct (_ || _); [done|].
  rewrite audit_object_members.
  destruct (canonicalize (Value_object (audit_members zero_hash))) as [zero|] eqn:Z; [|done].
  cbn [rbind]. intros T. exists zero. split; [done|]. split; [|done].
  change (map_assign _ _ _) with (audit_members (digest_hex sha (string_bytes zero))) in T.
  apply canonical_reads in T; [done| |apply audit_integers].
  apply audit_well_formed; [done | apply hex_valid].
Qed.

Lemma uint_member_canonical members name n :
  map_find name members = Some (Value_number (canonical_number n)) -> 0 <= n ->
  uint_member members name = Some n.
Proof.
  intros F N. unfold uint_member, member. rewrite F. cbn. unfold canonical_number.
  by destruct (Z.ltb_spec n 0); [lia|].
Qed.

Lemma artifact_matches_self a : json_artifact_matches (normalize (artifact_value a)) a = true.
Proof.
  change (bool_decide (ar_artifact_id a = ar_artifact_id a) &&
          bool_decide (Sha256_hex (ar_sha256 a) = Sha256_hex (ar_sha256 a)) = true).
  by rewrite !bool_decide_true.
Qed.
End Audit.

(** Join audits verify: the text [make_join_audit] produces for well-formed
    UTF-8 inputs parses, declares its own zero-self digest, and is content the
    validator accepts for every manifest of that run with the status and the
    artifacts of the audit, when the row counts add up. *)
Theorem join_audit_verifies sha run_id result inputs t :
  (forall m, sha_wf (mkSha256 (sha m))) ->
  well_formed (Value_object (audit_object run_id result inputs zero_hash)) = true ->
  make_join_audit sha run_id result inputs = success t ->
  exists object, parse t = success (Value_object object) /\
    zero_self_hash_matches sha (Value_object object) "record_sha256" = true /\
    forall manifest,
      rm_run_id manifest = run_id -> rm_join_status manifest = rr_status result ->
      relationship manifest ArtifactRelationship_producer_raw = Some (ja_producer_source inputs) ->
      relationship manifest ArtifactRelationship_consumer_raw = Some (ja_consumer_source inputs) ->
      relationship manifest ArtifactRelationship_joined_derived = ja_joined_artifact inputs ->
      is_u64 (rr_producer_rows result) -> is_u64 (rr_accepted_rows result) ->
      is_u64 (rr_full_rows result) -> is_u64 (rr_consumer_rows result) ->
      rr_producer_rows result = rr_accepted_rows result + rr_full_rows result ->
      audit_content_valid sha manifest (Value_object object) object = true.
Proof.
  intros Hsha W T. rewrite audit_object_members in W.
  destruct (make_join_audit_document sha run_id result inputs t W T) as (zero & Z & P & X).
  set (digest := digest_hex sha (string_bytes zero)) in *.
  cbn [normalize] in P. eexists. split; [exact P|].
  assert (S : zero_self_hash_matches sha
    (Value_object (List.map (fun kv => (fst kv, normalize (snd kv)))
       (audit_members run_id result inputs digest))) "record_sha256" = true).
  { unfold zero_self_hash_matches. cbn [as_object].
    change (string_member _ "record_sha256") with digest. unfold digest at 1, digest_hex.
    rewrite hex_length by apply Hsha. cbn [Nat.eqb negb]. rewrite audit_zeroed.
    change (Value_object (List.map _ (audit_members run_id result inputs zero_hash)))
      with (normalize (Value_object (audit_members run_id result inputs zero_hash))).
    rewrite canonicalize_normalize by apply audit_integers. rewrite Z. by apply bool_decide_true. }
  split; [exact S|].
  intros manifest Er Ej Ep Ec Ejr U1 U2 U3 U4 Sum. unfold audit_content_valid. rewrite S.
  rewrite Er, Ej, Ep, Ec, Ejr. unfold audit_counts_valid.
  rewrite !(uint_member_canonical _ _ (rr_producer_rows result)),
    !(uint_member_canonical _ _ (rr_accepted_rows result)),
    !(uint_member_canonical _ _ (rr_full_rows result)),
    !(uint_member_canonical _ _ (rr_consumer_rows result)) by (reflexivity || int_lia).
  replace (rr_accepted_rows result <=? u64_sub u64_max (rr_full_rows result)) with true
    by (symmetry; apply Z.leb_le; rewrite u64_sub_small; int_lia).
  replace (rr_producer_rows result =? u64_add (rr_accepted_rows result) (rr_full_rows result)) with true
    by (symmetry; apply Z.eqb_eq; rewrite u64_add_small; int_lia).
  unfold member_is. cbn -[json_artifact_matches artifact_value].
  rewrite !artifact_matches_self, !bool_decide_true by reflexivity.
  destruct (bool_decide (rr_status result = JoinStatus_passed)), (ja_joined_artifact inputs); try done.
  cbn -[json_artifact_matches artifact_value]. by rewrite artifact_matches_self.
Qed.

(** ** A record graph *)

Module SampleGraph.

Definition clock (t : Z) : ClockSample := mkClockSample t t.

Definition producer_observations : list ProducerObservation :=
  [mkProducerObservation 0 5 100 (clock 110) (clock 120) (clock 130) (Some (clock 140)) (clock 150)
     ProducerOutcome_accepted (Some 0);
   mkProducerObservation 1 6 200 (clock 210) (clock 220) (clock 230) None (clock 250)
     ProducerOutcome_full None].

Definition consumer_observations : list ConsumerObservation :=
  [mkConsumerObservation 0 5 (clock 125) (clock 160) (clock 170) (clock 180)].

Definition result : ReconciliationResult :=
  reconcile "run" (make_producer_record "run" <$> producer_observations)
    (make_consumer_record "run" <$> consumer_observations) [5; 6].

Definition image (run_id : Identifier) (rows : list (list Z)) : list Z :=
  match make_row_layout run_id with Returned layout => rows_image layout run_id rows | Threw _ => [] end.

Definition reference (id : Identifier) (bytes : list Z) : ArtifactReference :=
  mkArtifactReference id (mkSha256 (sample_sha bytes)).

Definition json_bytes (members : list (string * Value)) : list Z :=
  match canonicalize (Value_object (map_of members)) with
  | success t => string_bytes t
  | failure _ => []
  end.

(** A document that declares its zero-self digest. *)
Definition self_hashed (field : string) (members : list (string * Value)) : Object * Sha256 :=
  let digest := mkSha256 (sample_sha (json_bytes ((field, string_value zero_hash) :: members))) in
  (map_of ((field, string_value (Sha256_hex digest)) :: members), digest).

Definition checksum (name : string) : ChecksumEvidence := mkChecksumEvidence name "1" "00".
Definition checksum_value (name : string) : Value :=
  Value_object (map_of [("algorithm_record_id", string_value name);
    ("algorithm_version", string_value "1"); ("value_hex", string_value "00")]).

Definition report_bytes : list Z :=
  json_bytes [("protocol_version", string_value kProtocolVersion);
    ("artifact_id", string_value "report"); ("run_id", string_value "run");
    ("content_checksum_match", Value_bool true);
    ("final_consumer_rolling_checksum", checksum_value "a");
    ("event_records_pre_checksum", checksum_value "b");
    ("event_records_post_checksum", checksum_value "c");
    ("ordered_index_checksum", checksum_value "d");
    ("address_delta_checksum", checksum_value "e")].

Definition provenance_bytes : list Z :=
  json_bytes [("schema_version", string_value "cpu-prefetch-queue-provenance/1");
    ("protocol_version", string_value kPreviousProtocolVersion); ("queue_id", string_value "queue")].

Definition report_ref : ArtifactReference := reference "report" report_bytes.

Definition envelope (id run_id : Identifier) (kind : StreamKind) (rows : Z) (bytes : list Z)
    (sources : list ArtifactReference) : RawObservationEnvelope :=
  mkRawObservationEnvelope ProtocolVersion_v2_0_0_pre_2 ProtocolVersion_v2_0_0_pre_2 id run_id kind
    ProtocolVersion_v2_0_0_pre_2 kRawFormatId kRawEncoding kRawTimeUnit Endianness_little_endian
    kRawCompression rows (Z.of_nat (length bytes)) (ExternalStorage "uri") sources report_ref
    (mkSha256 (sample_sha bytes)) Value_null.

(** The run identity of the producer stream is a parameter. *)
Definition producer_bytes (producer_run : Identifier) : list Z :=
  image producer_run (producer_words <$> producer_observations).
Definition consumer_bytes : list Z := image "run" (consumer_words <$> consumer_observations).
Definition joined_bytes : list Z := image "run" (joined_words <$> rr_joined_rows result).

Definition producer_ref (producer_run : Identifier) : ArtifactReference :=
  reference "producer" (producer_bytes producer_run).
Definition consumer_ref : ArtifactReference := reference "consumer" consumer_bytes.
Definition joined_ref : ArtifactReference := reference "joined" joined_bytes.

Definition audit_bytes (producer_run : Identifier) : list Z :=
  match make_join_audit sample_sha "run" result
          (mkJoinAuditInput (producer_ref producer_run) consumer_ref (Some joined_ref)) with
  | success t => string_bytes t
  | failure _ => []
  end.

Definition schedule_bytes : list Z := [1; 2; 3].
Definition schedule_ref : ArtifactReference := reference "schedule" schedule_bytes.

Definition schedule : ScheduleRecord :=
  mkScheduleRecord ProtocolVersion_v2_0_0_pre_2 ProtocolVersion_v2_0_0_pre_2 "schedule"
    ScheduleKind_confirmatory ArrivalFamily_poisson_exponential "namespace"
    (mkRngMetadata "philox" "1" "seed" "derivation" "parent") "PICOSECONDS"
    DeadlineEncoding_absolute_integer_ticks 0 1000 2 (mkExactRate 1 100) "overflow"
    (ExternalScheduleStorage "schedule" "uri" 2 3 (mkSha256 (sample_sha schedule_bytes)))
    (mkSha256 (sample_sha [])) (mkSha256 (sample_sha [])) Value_null.

Definition typed (r : ArtifactReference) (relation : ArtifactRelationship) : TypedArtifactReference :=
  mkTypedArtifactReference r relation.

Definition manifest (producer_run : Identifier) : RunManifest :=
  let '(document, digest) := self_hashed "manifest_sha256" [("run_id", string_value "run")] in
  mkRunManifest ProtocolVersion_v2_0_0_pre_2 ProtocolVersion_v2_0_0_pre_2 "run" "platform" "build" 0
    "queue" (mkRunProvenance "p" "i" (mkSha256 (sample_sha [])) "cc" [] "std" "dependencies")
    Stage_stage_a RunMode_latency LifecycleState_completed "block" BlockRole_h3_train QueuePackage_r0
    RequestedHardwareState_h0 VerifiedHardwareState_verified_default Placement_near
    WorkingSetClass_l2_resident LoadLevel_l050 64 "PICOSECONDS"
    (mkRunScheduleReferences schedule_ref schedule_ref)
    (mkRunSeedReferences "arrival" None "event" "warmup" "derivation")
    RunValidity_valid GateStatus_pass GateStatus_fail GateStatus_pass
    ConfirmatoryEstimability_blocked_zero_loss [ConfirmatoryBlocker_blocked_zero_loss]
    BlockCompleteness_complete JoinStatus_passed
    (Some (mkRunCounts (Some 2) (Some 2) (Some 1) (Some 1) (Some 1) (Some 0) (Some 1)
       (Some (mkNumber NumberKind_unsigned_integer "200000" (Number_uint64 200000)))))
    (Some (mkPhaseIntegrityRecord report_ref (checksum "a") (checksum "b") (checksum "c")
       (checksum "d") (checksum "e")))
    []
    [typed (producer_ref producer_run) ArtifactRelationship_producer_raw;
     typed consumer_ref ArtifactRelationship_consumer_raw;
     typed (reference "audit" (audit_bytes producer_run)) ArtifactRelationship_join_audit;
     typed joined_ref ArtifactRelationship_joined_derived;
     typed report_ref ArtifactRelationship_phase_integrity_report;
     typed (reference "provenance" provenance_bytes) ArtifactRelationship_provenance]
    digest (Value_object document).

Definition producer_envelope (producer_run : Identifier) : RawObservationEnvelope :=
  envelope "producer" producer_run StreamKind_producer 2 (producer_bytes producer_run) [].
Definition consumer_envelope : RawObservationEnvelope :=
  envelope "consumer" "run" StreamKind_consumer 1 consumer_bytes [].

Definition records (producer_run : Identifier) : list ProtocolRecord :=
  [Record_manifest (manifest producer_run); Record_schedule schedule;
   Record_raw (producer_envelope producer_run); Record_raw consumer_envelope;
   Record_raw (envelope "joined" "run" StreamKind_joined_derived 1 joined_bytes
                 [producer_ref producer_run; consumer_ref])].

Definition artifacts (producer_run : Identifier) : list ArtifactBytes :=
  [mkArtifactBytes "producer" (producer_bytes producer_run); mkArtifactBytes "consumer" consumer_bytes;
   mkArtifactBytes "joined" joined_bytes; mkArtifactBytes "audit" (audit_bytes producer_run);
   mkArtifactBytes "report" report_bytes; mkArtifactBytes "provenance" provenance_bytes;
   mkArtifactBytes "schedule" schedule_bytes].

Definition evidence : list RunEvidence :=
  [mkRunEvidence "run" [5; 6] (mkAuthoritativeBlockCompleteness BlockCompleteness_complete true)
     (mkAuthoritativeGate GateStatus_pass true)].
End SampleGraph.

Lemma stage12_runs_verified_witness :
  self_hash_valid sample_sha (rm_source_document (SampleGraph.manifest "run")) "manifest_sha256"
    (rm_manifest_sha256 (SampleGraph.manifest "run")) = true.
Proof.
  apply (stage12_runs_verified sample_sha (SampleGraph.artifacts "run") SampleGraph.evidence
           (SampleGraph.records "run") (SampleGraph.manifest "run")).
  - vm_compute. reflexivity.
  - left.
Defined.


Lemma join_audit_verifies_witness :
  exists t object, make_join_audit sample_sha "run" SampleGraph.result
      (mkJoinAuditInput (SampleGraph.producer_ref "run") SampleGraph.consumer_ref
         (Some SampleGraph.joined_ref)) = success t /\
    parse t = success (Value_object object) /\
    zero_self_hash_matches sample_sha (Value_object object) "record_sha256" = true.
Proof.
  pose proof (join_audit_verifies sample_sha "run" SampleGraph.result
    (mkJoinAuditInput (SampleGraph.producer_ref "run") SampleGraph.consumer_ref
       (Some SampleGraph.joined_ref))) as T.
  assert (M : exists t, make_join_audit sample_sha "run" SampleGraph.result
      (mkJoinAuditInput (SampleGraph.producer_ref "run") SampleGraph.consumer_ref
         (Some SampleGraph.joined_ref)) = success t) by (eexists; vm_compute; reflexivity).
  destruct M as [t M]. destruct (T t sample_sha_wf ltac:(vm_compute; reflexivity) M) as (o & P & Z & _).
  exists t, o. split; [exact M|]. split; [exact P | exact Z].
Defined.

(** ** Run identity of the raw streams

    The rows of the raw streams are joined under the identity of the manifest and
    no rule compares it with the identity of the envelopes: a graph whose producer
    stream was recorded for another run is accepted. *)

(** The records the join sees do not depend on the identity of the rows. *)
Lemma producer_records_any_run run_id other rows :
  producer_records run_id ((fun row => mkDecodedProducerRow other (dp_observation row)) <$> rows) =
  producer_records run_id rows.
Proof. unfold producer_records. by rewrite <- list_fmap_compose. Qed.

Theorem foreign_producer_accepted :
  exists artifacts evidence records manifest envelope,
    Record_manifest manifest ∈ records /\ Record_raw envelope ∈ records /\
    raw_for (omap raw_of records) (relationship manifest ArtifactRelationship_producer_raw) =
      Some envelope /\
    ro_run_id envelope <> rm_run_id manifest /\
    stage12_validate sample_sha artifacts evidence records = Returned [].
Proof.
  exists (SampleGraph.artifacts "other"), SampleGraph.evidence, (SampleGraph.records "other"),
    (SampleGraph.manifest "other"), (SampleGraph.producer_envelope "other").
  split; [left|]. split; [right; right; left|].
  split; [reflexivity|]. split; [discriminate|]. vm_compute. reflexivity.
Qed.
