(* ===== verification/Rationals.v ===== *)
(** * Exact rationals and quantiles

    Models the arithmetic of [src/calibration/calibration.cpp]: reduced 64-bit
    rationals ([make_rational], [exact_throughput], [multiply]), their comparison
    by continued fractions, and the inverse empirical distribution function. *)

From stdpp Require Import prelude list strings sorting.
From Stdlib Require Import ZArith Lia Znumtheory.
From S2P Require Import Prelude Validation.

#[local] Open Scope Z_scope.
#[local] Open Scope result_scope.

(** ** Checked arithmetic *)

Definition cal_checked_multiply (a b : Z) : option Z :=
  if negb (a =? 0) && (b >? u64_max / a) then None else Some (u64_mul a b).

Definition checked_ceil_divide (numerator denominator : Z) : option Z :=
  if denominator =? 0 then None
  else
    let result := numerator / denominator in
    if negb (numerator mod denominator =? 0) then
      if result =? u64_max then None else Some (u64_add result 1)
    else Some result.

(** ** Rationals *)

Record ExactRational : Set := mkExactRational {
  numerator : Z;
  denominator : Z
}.

#[export] Instance ExactRational_eq_dec : EqDecision ExactRational.
Proof. solve_decision. Defined.

Definition make_rational (num den : Z) (path : string) : Result ExactRational :=
  if den =? 0 then
    fail_with ErrorCategory_out_of_range path "CAL-RATIONAL-DENOMINATOR"
      "exact rational denominator must be nonzero"
  else
    let divisor := Z.gcd num den in
    success (mkExactRational (num / divisor) (den / divisor)).

Record ThroughputObservation : Set := mkThroughputObservation {
  to_consumed_events : Z;
  to_ticks_per_second : Z;
  to_interval_ticks : Z
}.

Definition exact_throughput (observation : ThroughputObservation) : Result ExactRational :=
  if (to_ticks_per_second observation =? 0) || (to_interval_ticks observation =? 0) then
    fail_with ErrorCategory_out_of_range "$/service_run" "CAL-SERVICE-UNITS"
      "tick frequency and interval must be nonzero"
  else
    let consumed := to_consumed_events observation in
    let frequency := to_ticks_per_second observation in
    let interval := to_interval_ticks observation in
    let divisor := Z.gcd consumed interval in
    let consumed := consumed / divisor in
    let interval := interval / divisor in
    let divisor := Z.gcd frequency interval in
    let frequency := frequency / divisor in
    let interval := interval / divisor in
    match cal_checked_multiply consumed frequency with
    | None =>
        fail_with ErrorCategory_out_of_range "$/service_run/consumed_events"
          "CAL-SERVICE-THROUGHPUT-OVERFLOW" "exact throughput numerator overflows u64"
    | Some num => success (mkExactRational num interval)
    end.

(** The loop of [compare]: quotients and remainders of both continued fractions;
    [None] when the fuel is spent. *)
Fixpoint compare_loop (fuel : nat) (ln ld rn rd : Z) (inverted : bool) : option Z :=
  match fuel with
  | O => None
  | S fuel =>
      let lq := ln / ld in
      let rq := rn / rd in
      let answer result := Some (if inverted then - result else result) in
      if negb (lq =? rq) then answer (if lq <? rq then -1 else 1)
      else
        let lr := ln mod ld in
        let rr := rn mod rd in
        if (lr =? 0) || (rr =? 0) then
          if (lr =? 0) && (rr =? 0) then Some 0 else answer (if lr =? 0 then -1 else 1)
        else compare_loop fuel ld lr rd rr (negb inverted)
  end.

(** 64-bit denominators need at most 129 rounds: [compare_rationals_exact]. *)
Definition compare_fuel : nat := 129.

Definition compare_rationals (a b : ExactRational) : Result Z :=
  if (denominator a =? 0) || (denominator b =? 0) then
    fail_with ErrorCategory_out_of_range "$/rate" "CAL-RATIONAL-DENOMINATOR"
      "exact rational denominator must be nonzero"
  else
    match compare_loop compare_fuel (numerator a) (denominator a) (numerator b) (denominator b) false with
    | Some result => success result
    | None => failure []
    end.

Definition multiply_rationals (a b : ExactRational) (path : string) : Result ExactRational :=
  if (denominator a =? 0) || (denominator b =? 0) then
    fail_with ErrorCategory_out_of_range path "CAL-RATIONAL-DENOMINATOR"
      "exact rational denominator must be nonzero"
  else
    let divisor := Z.gcd (numerator a) (denominator b) in
    let left_numerator := numerator a / divisor in
    let right_denominator := denominator b / divisor in
    let divisor := Z.gcd (numerator b) (denominator a) in
    let right_numerator := numerator b / divisor in
    let left_denominator := denominator a / divisor in
    match cal_checked_multiply left_numerator right_numerator,
          cal_checked_multiply left_denominator right_denominator with
    | Some num, Some den => make_rational num den path
    | _, _ =>
        fail_with ErrorCategory_out_of_range path "CAL-RATIONAL-OVERFLOW"
          "exact rational multiplication overflows u64"
    end.

(** ** Quantiles *)

Definition quantile_overflow : Result Z :=
  fail_with ErrorCategory_out_of_range "$/quantile/rank" "CAL-QUANTILE-OVERFLOW"
    "quantile rank overflows u64".

(** [std::sort]. *)
Definition sorted_values (values : list Z) : list Z := merge_sort Z.le values.

Definition inverse_ecdf (values : list Z) (num den : Z) : Result Z :=
  if bool_decide (values = []) || (num =? 0) || (num >? den) || (den =? 0) then
    fail_with ErrorCategory_out_of_range "$/quantile" "CAL-INVERSE-ECDF-INPUT"
      "inverse ECDF needs data and probability in (0,1]"
  else
    let count := Z.of_nat (length values) in
    match cal_checked_multiply (count / den) num with
    | None => quantile_overflow
    | Some whole =>
        match cal_checked_multiply (count mod den) num with
        | None => quantile_overflow
        | Some remainder_product =>
            match checked_ceil_divide remainder_product den with
            | None => quantile_overflow
            | Some remainder_rank =>
                if whole >? u64_sub u64_max remainder_rank then quantile_overflow
                else
                  let rank := u64_add whole remainder_rank in
                  if (rank =? 0) || (rank >? count) then
                    fail_with ErrorCategory_cross_field "$/quantile/rank" "CAL-QUANTILE-RANK"
                      "quantile rank is outside the observed sequence"
                  else
                    match sorted_values values !! Z.to_nat (u64_sub rank 1) with
                    | Some value => success value
                    | None => failure []
                    end
            end
        end
    end.

(** ** Arithmetic *)

Ltac int_nia := unfold_ints; nia.

Lemma cal_checked_multiply_spec a b :
  is_u64 a -> is_u64 b ->
  cal_checked_multiply a b = if a * b <=? u64_max then Some (a * b) else None.
Proof.
  intros Ha Hb. unfold cal_checked_multiply.
  destruct (Z.eqb_spec a 0) as [->|Na]; cbn [negb andb].
  - rewrite u64_mul_small by int_lia. by destruct (Z.leb_spec (0 * b) u64_max); [|int_lia].
  - rewrite Z.gtb_ltb. destruct (Z.ltb_spec (u64_max / a) b) as [H|H].
    + destruct (Z.leb_spec (a * b) u64_max) as [H'|]; [|done].
      assert (b <= u64_max / a) by (apply Z.div_le_lower_bound; int_lia). lia.
    + assert (a * b <= u64_max).
      { assert (0 < a) by int_lia. pose proof (Z.mul_div_le u64_max a ltac:(done)) as D.
        generalize dependent (u64_max / a). intros q H D. nia. }
      destruct (Z.leb_spec (a * b) u64_max); [|lia]. rewrite u64_mul_small; [done|]. int_nia.
Qed.

Lemma checked_ceil_divide_spec a b :
  is_u64 a -> 0 < b -> exists c, checked_ceil_divide a b = Some c /\ is_u64 c /\ (c - 1) * b < a <= c * b.
Proof.
  intros Ha Hb. unfold checked_ceil_divide. destruct (Z.eqb_spec b 0); [lia|].
  pose proof (Z.div_mod a b ltac:(lia)) as D. pose proof (Z.mod_pos_bound a b Hb) as M.
  pose proof (Z.div_pos a b ltac:(int_lia) Hb) as P.
  destruct (Z.eqb_spec (a mod b) 0) as [E|E]; cbn [negb].
  - exists (a / b). split; [done|]. split; [int_nia|]. nia.
  - assert (a / b < u64_max).
    { apply Z.div_lt_upper_bound; [done|]. destruct (decide (b = 1)) as [->|]; [|int_nia].
      rewrite Z.mod_1_r in E. done. }
    destruct (Z.eqb_spec (a / b) u64_max); [lia|]. rewrite u64_add_small by int_lia.
    exists (a / b + 1). split; [done|]. split; [int_lia|]. nia.
Qed.

(** ** Comparison *)

(** The sign of a comparison, as the program encodes it. *)
Definition sign_of (c : comparison) : Z := match c with Lt => -1 | Eq => 0 | Gt => 1 end.

Lemma sign_of_opp c : - sign_of c = sign_of (CompOpp c).
Proof. by destruct c. Qed.

(** One round: the quotients decide, or the remainders take over. *)
Lemma compare_round ln ld rn rd :
  0 < ld -> 0 < rd ->
  (ln / ld < rn / rd -> (ln * rd ?= rn * ld) = Lt) /\
  (rn / rd < ln / ld -> (ln * rd ?= rn * ld) = Gt) /\
  (ln / ld = rn / rd -> (ln * rd ?= rn * ld) = (ln mod ld * rd ?= rn mod rd * ld)).
Proof.
  intros Hl Hr.
  pose proof (Z.div_mod ln ld ltac:(lia)) as Dl. pose proof (Z.mod_pos_bound ln ld Hl) as Ml.
  pose proof (Z.div_mod rn rd ltac:(lia)) as Dr. pose proof (Z.mod_pos_bound rn rd Hr) as Mr.
  generalize dependent (ln / ld). intros q Dl. generalize dependent (rn / rd). intros q' Dr.
  generalize dependent (ln mod ld). intros r Dl Ml. generalize dependent (rn mod rd). intros r' Dr Mr.
  subst ln rn. split_and!.
  - intros H. apply Z.compare_lt_iff.
    assert ((ld * q + r) * rd < ld * q' * rd) by (apply Z.mul_lt_mono_pos_r; nia). nia.
  - intros H. apply Z.compare_gt_iff.
    assert ((rd * q' + r') * ld < rd * q * ld) by (apply Z.mul_lt_mono_pos_r; nia). nia.
  - intros <-. destruct (Z.compare_spec (r * rd) (r' * ld)) as [E|E|E].
    + apply Z.compare_eq_iff. lia.
    + apply Z.compare_lt_iff. lia.
    + apply Z.compare_gt_iff. lia.
Qed.

Lemma compare_loop_step fuel ln ld rn rd inverted :
  0 < ld -> 0 < rd ->
  (0 < ln mod ld -> 0 < rn mod rd -> ln / ld = rn / rd ->
   compare_loop fuel ld (ln mod ld) rd (rn mod rd) (negb inverted) =
     Some (let s := sign_of (ld * (rn mod rd) ?= rd * (ln mod ld)) in
           if negb inverted then - s else s)) ->
  compare_loop (S fuel) ln ld rn rd inverted =
    Some (let s := sign_of (ln * rd ?= rn * ld) in if inverted then - s else s).
Proof.
  intros Hl Hr Rec. destruct (compare_round ln ld rn rd Hl Hr) as (C1 & C2 & C3).
  pose proof (Z.mod_pos_bound ln ld Hl) as Ml. pose proof (Z.mod_pos_bound rn rd Hr) as Mr.
  cbn [compare_loop]. destruct (Z.eqb_spec (ln / ld) (rn / rd)) as [E|E]; cbn [negb].
  2: { destruct (Z.ltb_spec (ln / ld) (rn / rd)) as [L|L];
         [rewrite C1 by done | rewrite C2 by lia]; by destruct inverted. }
  rewrite C3 by done.
  destruct (Z.eqb_spec (ln mod ld) 0) as [El|El], (Z.eqb_spec (rn mod rd) 0) as [Er|Er]; cbn [orb andb].
  - rewrite El, Er. by destruct inverted.
  - rewrite El, Z.mul_0_l. assert ((0 ?= rn mod rd * ld) = Lt) as -> by (apply Z.compare_lt_iff; nia).
    by destruct inverted.
  - rewrite Er, Z.mul_0_l. assert ((ln mod ld * rd ?= 0) = Gt) as -> by (apply Z.compare_gt_iff; nia).
    by destruct inverted.
  - rewrite Rec by (done || lia). cbv zeta.
    assert ((ld * (rn mod rd) ?= rd * (ln mod ld)) = CompOpp (ln mod ld * rd ?= rn mod rd * ld)) as ->
      by (rewrite <- Z.compare_antisym; f_equal; lia).
    rewrite <- sign_of_opp. destruct inverted; cbn [negb]; f_equal; lia.
Qed.

(** The product of a fraction above one halves in every round. *)
Lemma compare_loop_bounded fuel : forall ln ld rn rd inverted,
  0 < ld <= ln -> 0 < rd -> ln * ld < 2 ^ Z.of_nat fuel ->
  compare_loop fuel ln ld rn rd inverted =
    Some (let s := sign_of (ln * rd ?= rn * ld) in if inverted then - s else s).
Proof.
  induction fuel as [|fuel IH]; intros ln ld rn rd inverted Hl Hr B.
  { change (2 ^ Z.of_nat 0) with 1 in B. nia. }
  apply compare_loop_step; [lia..|]. intros Ml Mr E. apply IH; [|done|].
  - pose proof (Z.mod_pos_bound ln ld). lia.
  - pose proof (Z.div_mod ln ld ltac:(lia)). pose proof (Z.mod_pos_bound ln ld ltac:(lia)).
    assert (1 <= ln / ld) by (apply Z.div_le_lower_bound; lia).
    rewrite Nat2Z.inj_succ, Z.pow_succ_r in B by lia. nia.
Qed.

Definition rational_u64 (r : ExactRational) : Prop :=
  is_u64 (numerator r) /\ 0 < denominator r <= u64_max.

(** The order of the values of two rationals. *)
Definition rational_compare (a b : ExactRational) : comparison :=
  numerator a * denominator b ?= numerator b * denominator a.

Lemma compare_rationals_sign a b :
  rational_u64 a -> rational_u64 b ->
  compare_rationals a b = success (sign_of (rational_compare a b)).
Proof.
  intros [Na Da] [Nb Db]. unfold compare_rationals, rational_compare.
  destruct (Z.eqb_spec (denominator a) 0); [lia|]. destruct (Z.eqb_spec (denominator b) 0); [lia|].
  cbn [orb]. unfold compare_fuel. rewrite compare_loop_step; [done|lia..|].
  intros Ml Mr E. apply compare_loop_bounded; [|done|].
  - pose proof (Z.mod_pos_bound (numerator a) (denominator a)). lia.
  - pose proof (Z.mod_pos_bound (numerator a) (denominator a) ltac:(lia)).
    change (2 ^ Z.of_nat 128) with (340282366920938463463374607431768211456). int_nia.
Qed.

(** ** Reduction *)

Lemma reduce a b :
  0 <= a -> 0 < b ->
  let g := Z.gcd a b in
  0 < g /\ a = g * (a / g) /\ b = g * (b / g) /\ 0 <= a / g <= a /\ 0 < b / g <= b /\
  Z.gcd (a / g) (b / g) = 1.
Proof.
  intros Ha Hb g. assert (Hg : 0 < g).
  { pose proof (Z.gcd_nonneg a b). destruct (Z.eq_dec (Z.gcd a b) 0) as [E|]; [|unfold g; lia].
    apply Z.gcd_eq_0_r in E. lia. }
  pose proof (Z.gcd_divide_l a b) as [x Hx]. pose proof (Z.gcd_divide_r a b) as [y Hy]. fold g in Hx, Hy.
  assert (Ea : a / g = x) by (rewrite Hx; apply Z.div_mul; lia).
  assert (Eb : b / g = y) by (rewrite Hy; apply Z.div_mul; lia).
  rewrite Ea, Eb. split; [done|]. split; [lia|]. split; [lia|]. split; [nia|]. split; [nia|].
  assert (g = g * Z.gcd x y) as E.
  { rewrite <- Z.gcd_mul_mono_l_nonneg by lia. unfold g at 1. f_equal; lia. }
  pose proof (Z.gcd_nonneg x y). nia.
Qed.

Lemma gcd_mul_coprime a b c : Z.gcd a c = 1 -> Z.gcd b c = 1 -> Z.gcd (a * b) c = 1.
Proof.
  rewrite !Zgcd_1_rel_prime. intros Ha Hb. apply rel_prime_sym, rel_prime_mult; by apply rel_prime_sym.
Qed.

Lemma gcd_divide_coprime a b c : Z.gcd a (c * b) = 1 -> Z.gcd a b = 1.
Proof.
  rewrite !Zgcd_1_rel_prime. intros H. apply rel_prime_sym. apply (rel_prime_div (c * b));
    [by apply rel_prime_sym | by exists c].
Qed.

(** What a common factor leaves. *)
Lemma gcd_of_factors g a b a' b' :
  0 < g -> a = g * a' -> b = g * b' -> Z.gcd a' b' = 1 ->
  Z.gcd a b = g /\ a / Z.gcd a b = a' /\ b / Z.gcd a b = b'.
Proof.
  intros Hg -> -> H. rewrite Z.gcd_mul_mono_l_nonneg, H, Z.mul_1_r by lia.
  split; [done|]. by rewrite !(Z.mul_comm g), !Z.div_mul by lia.
Qed.

Lemma exact_throughput_lowest consumed frequency interval :
  is_u64 consumed -> 0 < frequency <= u64_max -> 0 < interval <= u64_max ->
  let g := Z.gcd (consumed * frequency) interval in
  exact_throughput (mkThroughputObservation consumed frequency interval) =
  if consumed * frequency / g <=? u64_max
  then success (mkExactRational (consumed * frequency / g) (interval / g))
  else fail_with ErrorCategory_out_of_range "$/service_run/consumed_events"
         "CAL-SERVICE-THROUGHPUT-OVERFLOW" "exact throughput numerator overflows u64".
Proof.
  intros Hc Hf Hi g. unfold exact_throughput.
  cbn [to_consumed_events to_ticks_per_second to_interval_ticks].
  destruct (Z.eqb_spec frequency 0); [lia|]. destruct (Z.eqb_spec interval 0); [lia|]. cbn [orb].
  destruct (reduce consumed interval) as (G1 & E1 & E2 & B1 & B2 & C1); [int_lia|lia|].
  set (g1 := Z.gcd consumed interval) in *. set (c := consumed / g1) in *. set (i := interval / g1) in *.
  destruct (reduce frequency i) as (G2 & E3 & E4 & B3 & B4 & C2); [lia|lia|].
  set (g2 := Z.gcd frequency i) in *. set (f := frequency / g2) in *. set (j := i / g2) in *.
  assert (C3 : Z.gcd c j = 1) by (apply (gcd_divide_coprime c j g2); by rewrite <- E4).
  destruct (gcd_of_factors (g1 * g2) (consumed * frequency) interval (c * f) j) as (Eg & Ea & Eb);
    [nia|nia|nia|by apply gcd_mul_coprime|].
  fold g in Ea, Eb. rewrite Ea, Eb, cal_checked_multiply_spec by int_lia.
  by destruct (c * f <=? u64_max).
Qed.

Definition reduced (r : ExactRational) : Prop := Z.gcd (numerator r) (denominator r) = 1.

Lemma multiply_rationals_reduced a b path :
  rational_u64 a -> rational_u64 b -> reduced a -> reduced b ->
  let num := numerator a * numerator b in
  let den := denominator a * denominator b in
  let g := Z.gcd num den in
  multiply_rationals a b path =
  if (num / g <=? u64_max) && (den / g <=? u64_max)
  then success (mkExactRational (num / g) (den / g))
  else fail_with ErrorCategory_out_of_range path "CAL-RATIONAL-OVERFLOW"
         "exact rational multiplication overflows u64".
Proof.
  intros [Na Da] [Nb Db] Ra Rb num den g. unfold multiply_rationals, reduced in *.
  destruct (Z.eqb_spec (denominator a) 0); [lia|]. destruct (Z.eqb_spec (denominator b) 0); [lia|].
  cbn [orb].
  destruct (reduce (numerator a) (denominator b)) as (G1 & E1 & E2 & B1 & B2 & C1); [int_lia|lia|].
  set (g1 := Z.gcd (numerator a) (denominator b)) in *.
  set (na := numerator a / g1) in *. set (db := denominator b / g1) in *.
  destruct (reduce (numerator b) (denominator a)) as (G2 & E3 & E4 & B3 & B4 & C2); [int_lia|lia|].
  set (g2 := Z.gcd (numerator b) (denominator a)) in *.
  set (nb := numerator b / g2) in *. set (da := denominator a / g2) in *.
  assert (C3 : Z.gcd na da = 1).
  { apply (gcd_divide_coprime na da g2). rewrite <- E4. rewrite Z.gcd_comm.
    apply (gcd_divide_coprime _ na g1). rewrite <- E1. by rewrite Z.gcd_comm. }
  assert (C4 : Z.gcd nb db = 1).
  { apply (gcd_divide_coprime nb db g1). rewrite <- E2. rewrite Z.gcd_comm.
    apply (gcd_divide_coprime _ nb g2). rewrite <- E3. by rewrite Z.gcd_comm. }
  assert (C5 : Z.gcd (na * nb) (da * db) = 1).
  { apply gcd_mul_coprime; rewrite Z.gcd_comm; apply gcd_mul_coprime; rewrite Z.gcd_comm; done. }
  destruct (gcd_of_factors (g1 * g2) num den (na * nb) (da * db)) as (Eg & Ea & Eb);
    [nia|unfold num; nia|unfold den; nia|done|].
  fold g in Ea, Eb. rewrite Ea, Eb, !cal_checked_multiply_spec by int_lia.
  destruct (Z.leb_spec (na * nb) u64_max); cbn [andb];
    destruct (Z.leb_spec (da * db) u64_max); try done.
  unfold make_rational. destruct (Z.eqb_spec (da * db) 0); [nia|].
  by rewrite C5, !Z.div_1_r.
Qed.

(** ** Quantiles *)

(** The number of values with a property. *)
Definition count_values (P : Z -> bool) (values : list Z) : Z :=
  Z.of_nat (length (List.filter P values)).

Lemma sorted_counts l : forall k v,
  StronglySorted Z.le l -> l !! k = Some v ->
  (S k <= length (List.filter (fun x => (x <=? v)%Z) l))%nat /\
  (length (List.filter (fun x => (x <? v)%Z) l) <= k)%nat.
Proof.
  induction l as [|x l IH]; intros k v S E; [done|]. inversion_clear S as [|? ? Sl Fx].
  destruct k as [|k]; cbn [lookup list_lookup] in E; cbn [List.filter].
  - injection E as ->. rewrite Z.leb_refl, Z.ltb_irrefl. cbn [length]. split; [lia|].
    assert (List.filter (fun x => x <? v) l = []) as ->; [|done].
    clear -Fx. induction Fx as [|y l Hy _ IH]; [done|]. cbn. by destruct (Z.ltb_spec y v); [lia|].
  - destruct (IH k v Sl E) as [A B].
    assert (x <= v) by (rewrite Forall_forall in Fx; apply Fx; by apply list_elem_of_lookup_2 with k).
    destruct (Z.leb_spec x v); [|lia]. cbn [length]. split; [lia|]. destruct (x <? v); cbn [length]; lia.
Qed.

Lemma filter_permutation_length (P : Z -> bool) l l' :
  l ≡ₚ l' -> length (List.filter P l) = length (List.filter P l').
Proof.
  induction 1 as [|x l l' _ IH|x y l|]; cbn; [done| | |congruence].
  - destruct (P x); cbn; congruence.
  - by destruct (P x), (P y).
Qed.

(** The value of a rank is a quantile. *)
Lemma sorted_rank_quantile values rank num den :
  let count := Z.of_nat (length values) in
  0 < den -> 1 <= rank <= count -> (rank - 1) * den < count * num <= rank * den ->
  exists v, sorted_values values !! Z.to_nat (rank - 1) = Some v /\ v ∈ values /\
    count * num <= den * count_values (fun x => x <=? v) values /\
    den * count_values (fun x => x <? v) values < count * num.
Proof.
  intros count Hd Hr Hb.
  assert (Hp : sorted_values values ≡ₚ values) by apply merge_sort_Permutation.
  destruct (lookup_lt_is_Some_2 (sorted_values values) (Z.to_nat (rank - 1))) as [v Ev].
  { rewrite Hp. unfold count in *. lia. }
  exists v. split; [done|]. split; [rewrite <- Hp; by apply list_elem_of_lookup_2 in Ev|].
  destruct (sorted_counts (sorted_values values) _ v ltac:(apply StronglySorted_merge_sort; apply _) Ev)
    as [A B].
  unfold count_values. rewrite <- !(filter_permutation_length _ _ _ Hp). nia.
Qed.

Lemma count_values_le (P Q : Z -> bool) values :
  (forall x, P x = true -> Q x = true) -> count_values P values <= count_values Q values.
Proof.
  intros H. unfold count_values. induction values as [|x l IH]; [done|]. cbn [List.filter].
  specialize (H x). destruct (P x); [rewrite H by done; cbn [length]; lia|].
  destruct (Q x); cbn [length]; lia.
Qed.

(** A quantile is at most a limit exactly when that share of the values is. *)
Lemma quantile_le_iff values num den v limit :
  0 < den ->
  Z.of_nat (length values) * num <= den * count_values (fun x => x <=? v) values ->
  den * count_values (fun x => x <? v) values < Z.of_nat (length values) * num ->
  (v <= limit <-> Z.of_nat (length values) * num <= den * count_values (fun x => x <=? limit) values).
Proof.
  intros Hd A B. split; intros H.
  - pose proof (count_values_le (fun x => x <=? v) (fun x => x <=? limit) values) as C.
    ospecialize (C _); [intros x; lia|]. nia.
  - destruct (Z.le_gt_cases v limit) as [|G]; [done|].
    pose proof (count_values_le (fun x => x <=? limit) (fun x => x <? v) values) as C.
    ospecialize (C _); [intros x; lia|]. nia.
Qed.

Lemma inverse_ecdf_quantile values num den :
  values <> [] -> Z.of_nat (length values) <= u64_max -> 0 < num <= den -> den <= u64_max ->
  let count := Z.of_nat (length values) in
  if count mod den * num <=? u64_max then
    exists v, inverse_ecdf values num den = success v /\ v ∈ values /\
      count * num <= den * count_values (fun x => x <=? v) values /\
      den * count_values (fun x => x <? v) values < count * num
  else inverse_ecdf values num den = quantile_overflow.
Proof.
  intros Hne Hlen Hn Hd count. unfold inverse_ecdf.
  rewrite bool_decide_false by done. cbn [orb].
  destruct (Z.eqb_spec num 0); [lia|]. rewrite Z.gtb_ltb. destruct (Z.ltb_spec den num); [lia|].
  destruct (Z.eqb_spec den 0); [lia|]. cbn [orb]. fold count.
  assert (Hc : 1 <= count) by (unfold count; destruct values; [done | cbn [length]; lia]).
  pose proof (Z.div_mod count den ltac:(lia)) as D.
  pose proof (Z.mod_pos_bound count den ltac:(lia)) as M.
  pose proof (Z.div_pos count den ltac:(lia) ltac:(lia)) as P.
  generalize dependent (count / den). intros q D P. generalize dependent (count mod den). intros r D M.
  assert (q * num <= count) by nia.
  rewrite cal_checked_multiply_spec by int_nia. destruct (Z.leb_spec (q * num) u64_max); [|lia].
  rewrite cal_checked_multiply_spec by int_lia. destruct (Z.leb_spec (r * num) u64_max); [|done].
  destruct (checked_ceil_divide_spec (r * num) den) as (c & -> & Hcu & Hcb); [int_nia|lia|].
  assert (c <= r) by nia. assert (q * num + c <= count) by nia.
  assert (1 <= q * num + c) by nia. assert (0 <= c) by int_lia.
  rewrite u64_sub_small, Z.gtb_ltb by int_lia. destruct (Z.ltb_spec (u64_max - c) (q * num)); [lia|].
  rewrite u64_add_small by nia. destruct (Z.eqb_spec (q * num + c) 0); [lia|]. cbn [orb].
  rewrite Z.gtb_ltb. destruct (Z.ltb_spec count (q * num + c)); [lia|].
  rewrite u64_sub_small by lia.
  destruct (sorted_rank_quantile values (q * num + c) num den) as (v & Ev & I & A & B);
    [lia | fold count; lia | fold count; nia | ].
  rewrite Ev. exists v. split; [done|]. split; [done|]. split; [exact A | exact B].
Qed.

(** Exact throughput: events times frequency over the interval, in lowest
    terms; the only refusal for nonzero units is a reduced numerator of more than
    64 bits, although the intermediate product may be longer. *)
Theorem exact_throughput_reduced consumed frequency interval :
  is_u64 consumed -> 0 < frequency <= u64_max -> 0 < interval <= u64_max ->
  let g := Z.gcd (consumed * frequency) interval in
  exact_throughput (mkThroughputObservation consumed frequency interval) =
  if consumed * frequency / g <=? u64_max
  then success (mkExactRational (consumed * frequency / g) (interval / g))
  else fail_with ErrorCategory_out_of_range "$/service_run/consumed_events"
         "CAL-SERVICE-THROUGHPUT-OVERFLOW" "exact throughput numerator overflows u64".
Proof. apply exact_throughput_lowest. Qed.

(** Inverse empirical distribution: for a probability in (0,1] the result is
    an observed value such that at least that share of the values is not above it
    and less than that share is below it. The only refusal is a rank product of
    more than 64 bits. *)
Theorem inverse_ecdf_exact values num den :
  values <> [] -> Z.of_nat (length values) <= u64_max -> 0 < num <= den -> den <= u64_max ->
  let count := Z.of_nat (length values) in
  if count mod den * num <=? u64_max then
    exists v, inverse_ecdf values num den = success v /\ v ∈ values /\
      count * num <= den * count_values (fun x => x <=? v) values /\
      den * count_values (fun x => x <? v) values < count * num
  else inverse_ecdf values num den = quantile_overflow.
Proof. apply inverse_ecdf_quantile. Qed.

(** C34. Comparison of rationals: the continued-fraction loop ends within its
    rounds for all 64-bit rationals and returns the sign of the exact
    cross-multiplied difference, although no product is ever formed. *)
Theorem compare_rationals_exact a b :
  rational_u64 a -> rational_u64 b ->
  compare_rationals a b =
    success (match numerator a * denominator b ?= numerator b * denominator a with
             | Lt => -1 | Eq => 0 | Gt => 1 end).
Proof. apply compare_rationals_sign. Qed.

Lemma compare_rationals_exact_witness :
  compare_rationals (mkExactRational 18446744073709551614 18446744073709551615)
    (mkExactRational 18446744073709551613 18446744073709551614) = success 1.
Proof.
  rewrite compare_rationals_exact; [reflexivity | |]; split; cbn; int_lia.
Defined.

Lemma exact_throughput_reduced_witness :
  exact_throughput (mkThroughputObservation 18446744073709551615 1000000000 3000000000) =
    success (mkExactRational 6148914691236517205 1).
Proof. rewrite exact_throughput_reduced; [reflexivity | int_lia..]. Defined.

Lemma inverse_ecdf_exact_witness :
  exists v, inverse_ecdf [30; 10; 20; 40] 1 2 = success v /\ v ∈ [30; 10; 20; 40] /\
    4 * 1 <= 2 * count_values (fun x => x <=? v) [30; 10; 20; 40].
Proof.
  pose proof (inverse_ecdf_exact [30; 10; 20; 40] 1 2 ltac:(done) ltac:(cbn; int_lia) ltac:(lia)
    ltac:(int_lia)) as H. cbn in H. destruct H as (v & E & I & A & _). exists v.
  split; [exact E|]. split; [exact I | exact A].
Defined.
