(* ===== verification/Calibration.v ===== *)
(** * Calibration: the service rate

    Models the service-rate half of [src/calibration/calibration.cpp] and the
    types of its header: evidence and governance checks, the sixty required
    cells, and [evaluate_service_rate], which takes the least throughput of at
    least 59 valid runs per cell and the least of all cells as the reference. A
    [std::set] is the list of its insertions. *)

From stdpp Require Import prelude list strings.
From Stdlib Require Import ZArith Lia Ascii.
From S2P Require Import Prelude Validation Model Load Rationals.

#[local] Open Scope Z_scope.
#[local] Open Scope result_scope.

(** ** Constants and data *)

Definition kServiceRateMethodId : string := "SERVICE-RATE-NP-LTL95C95-MIN-v1".
Definition kRingDistanceMethodId : string := "RING-D2-RUNTAIL-LTL95C95-v1".
Definition kMinimumValidIndependentRuns : Z := 59.
Definition kRequiredServiceCellCount : Z := 60.
Definition kRequiredRingContextCount : Z := 6.

Inductive EvaluationState : Set :=
| EvaluationState_not_evaluated
| EvaluationState_resolved
| EvaluationState_ineligible.

Inductive CalibrationRunValidity : Set :=
| CalibrationRunValidity_valid
| CalibrationRunValidity_invalid.

Record EvidenceReference : Set := mkEvidenceReference {
  er_artifact_id : string;
  er_sha256 : string
}.

Record CalibrationGovernance : Set := mkCalibrationGovernance {
  cg_owner_ids : list string;
  cg_authority_artifact : EvidenceReference;
  cg_stand_budget_artifact : EvidenceReference
}.

Record ServiceCellKey : Set := mkServiceCellKey {
  sk_package : QueuePackage;
  sk_hardware_state : RequestedHardwareState;
  sk_placement : Placement;
  sk_working_set : WorkingSetClass
}.

Record StageAContext : Set := mkStageAContext {
  ctx_platform_id : string;
  ctx_build_id : string;
  ctx_queue_implementation_id : string;
  ctx_consumer_action_id : string;
  ctx_placement_evidence_id : string;
  ctx_capacity_evidence_id : string;
  ctx_working_set_evidence_id : string;
  ctx_hardware_state_evidence_id : string;
  ctx_software_policy_id : string;
  ctx_clock_policy_id : string;
  ctx_logical_capacity : Z
}.

Record ServiceCellPlan : Set := mkServiceCellPlan {
  cp_key : ServiceCellKey;
  cp_context : StageAContext;
  cp_duration_ticks : Z;
  cp_ticks_per_second : Z;
  cp_planned_run_ids : list Identifier
}.

Record ServiceRatePlan : Set := mkServiceRatePlan {
  sp_record_id : string;
  sp_estimator_id : string;
  sp_seed_namespace_id : string;
  sp_assumptions : list string;
  sp_governance : CalibrationGovernance;
  sp_cells : list ServiceCellPlan
}.

Record ServiceRunEvidence : Set := mkServiceRunEvidence {
  se_run_id : Identifier;
  se_key : ServiceCellKey;
  se_context : StageAContext;
  se_stage : Stage;
  se_run_mode : RunMode;
  se_arrival_family : ArrivalFamily;
  se_validity : CalibrationRunValidity;
  se_consumed_events : Z;
  se_interval_ticks : Z;
  se_ticks_per_second : Z;
  se_raw_run_artifacts : list EvidenceReference;
  se_integrity_artifact : option EvidenceReference;
  se_failure_artifact : option EvidenceReference
}.

Record ServiceRunDecision : Set := mkServiceRunDecision {
  sd_run_id : Identifier;
  sd_validity : CalibrationRunValidity;
  sd_consumed_events : Z;
  sd_interval_ticks : Z;
  sd_ticks_per_second : Z;
  sd_throughput : option ExactRational;
  sd_raw_run_artifacts : list EvidenceReference;
  sd_integrity_artifact : option EvidenceReference;
  sd_failure_artifact : option EvidenceReference
}.

Record ServiceCellResult : Set := mkServiceCellResult {
  cr_key : ServiceCellKey;
  cr_state : EvaluationState;
  cr_planned_runs : Z;
  cr_present_runs : Z;
  cr_valid_runs : Z;
  cr_mu_cell : option ExactRational;
  cr_run_decisions : list ServiceRunDecision;
  cr_blockers : list string
}.

Record ServiceRateResult : Set := mkServiceRateResult {
  sv_state : EvaluationState;
  sv_cells : list ServiceCellResult;
  sv_mu_ref : option ExactRational;
  sv_candidate_loads : list ExactRational;
  sv_blockers : list string
}.

#[export] Instance EvaluationState_eq_dec : EqDecision EvaluationState.
Proof. solve_decision. Defined.
#[export] Instance CalibrationRunValidity_eq_dec : EqDecision CalibrationRunValidity.
Proof. solve_decision. Defined.
#[export] Instance ServiceCellKey_eq_dec : EqDecision ServiceCellKey.
Proof. solve_decision. Defined.
#[export] Instance StageAContext_eq_dec : EqDecision StageAContext.
Proof. solve_decision. Defined.

(** ** Checks *)

Definition valid_sha256 (value : string) : bool :=
  (String.length value =? 64)%nat &&
  forallb (fun c => ((48 <=? N_of_ascii c) && (N_of_ascii c <=? 57) ||
                     (97 <=? N_of_ascii c) && (N_of_ascii c <=? 102))%N)
    (String.list_ascii_of_string value).

Definition valid_opaque_id (value : string) : bool :=
  negb (bool_decide (value = EmptyString)) &&
  negb (existsb (Ascii.eqb "/"%char) (String.list_ascii_of_string value)).

Definition valid_reference (reference : EvidenceReference) : bool :=
  valid_opaque_id (er_artifact_id reference) && valid_sha256 (er_sha256 reference).

Definition valid_governance (governance : CalibrationGovernance) : bool :=
  nonempty (cg_owner_ids governance) &&
  bool_decide (NoDup (cg_owner_ids governance)) &&
  forallb valid_opaque_id (cg_owner_ids governance) &&
  valid_reference (cg_authority_artifact governance) &&
  valid_reference (cg_stand_budget_artifact governance).

Definition valid_context (context : StageAContext) : bool :=
  valid_opaque_id (ctx_platform_id context) && valid_opaque_id (ctx_build_id context) &&
  valid_opaque_id (ctx_queue_implementation_id context) &&
  valid_opaque_id (ctx_consumer_action_id context) &&
  valid_opaque_id (ctx_placement_evidence_id context) &&
  valid_opaque_id (ctx_capacity_evidence_id context) &&
  valid_opaque_id (ctx_working_set_evidence_id context) &&
  valid_opaque_id (ctx_hardware_state_evidence_id context) &&
  valid_opaque_id (ctx_software_policy_id context) &&
  valid_opaque_id (ctx_clock_policy_id context) && negb (ctx_logical_capacity context =? 0).

(** The underlying values of the enumerators. *)
Definition package_value (package : QueuePackage) : Z :=
  match package with
  | QueuePackage_r0 => 0 | QueuePackage_r1 => 1 | QueuePackage_r2 => 2 | QueuePackage_l0 => 3
  | QueuePackage_l1 => 4 | QueuePackage_nblfq_mpsc => 5 | QueuePackage_not_applicable => 6
  end.
Definition hardware_value (state : RequestedHardwareState) : Z :=
  match state with
  | RequestedHardwareState_h0 => 0 | RequestedHardwareState_h1 => 1
  | RequestedHardwareState_not_applicable => 2
  end.
Definition placement_value (placement : Placement) : Z :=
  match placement with
  | Placement_near => 0 | Placement_far => 1 | Placement_stage_c_other => 2
  | Placement_not_applicable => 3
  end.
Definition working_set_value (working_set : WorkingSetClass) : Z :=
  match working_set with
  | WorkingSetClass_l2_resident => 0 | WorkingSetClass_llc_resident => 1
  | WorkingSetClass_beyond_llc => 2 | WorkingSetClass_not_applicable => 3
  end.

Definition service_key_name (key : ServiceCellKey) : string :=
  std_to_string (package_value (sk_package key)) +:+ ":" +:+
  std_to_string (hardware_value (sk_hardware_state key)) +:+ ":" +:+
  std_to_string (placement_value (sk_placement key)) +:+ ":" +:+
  std_to_string (working_set_value (sk_working_set key)).

Definition service_packages : list QueuePackage :=
  [QueuePackage_r0; QueuePackage_r1; QueuePackage_r2; QueuePackage_l0; QueuePackage_l1].
Definition service_states : list RequestedHardwareState :=
  [RequestedHardwareState_h0; RequestedHardwareState_h1].
Definition service_placements : list Placement := [Placement_near; Placement_far].
Definition service_working_sets : list WorkingSetClass :=
  [WorkingSetClass_l2_resident; WorkingSetClass_llc_resident; WorkingSetClass_beyond_llc].

Definition required_service_cells : list ServiceCellKey :=
  service_packages ≫= (fun package =>
  service_states ≫= (fun state =>
  service_placements ≫= (fun placement =>
  mkServiceCellKey package state placement <$> service_working_sets))).

Definition expected_service_key (key : ServiceCellKey) : bool :=
  bool_decide (key ∈ required_service_cells).

(** Insertion of run identities into a set; [None] for one that is there. *)
Fixpoint insert_runs (planned : list string) (ids : list Identifier) : option (list string) :=
  match ids with
  | [] => Some planned
  | id :: rest => if bool_decide (id ∈ planned) then None else insert_runs (id :: planned) rest
  end.

(** Evidence names planned runs, each once. *)
Fixpoint check_present (path : string) (planned present : list string) (ids : list Identifier) :
    Result unit :=
  match ids with
  | [] => success tt
  | id :: rest =>
      if negb (bool_decide (id ∈ planned)) then
        fail_with ErrorCategory_reference_mismatch path "CAL-NO-TOP-UP"
          "run was not in the prospective plan"
      else if bool_decide (id ∈ present) then
        fail_with ErrorCategory_duplicate_value path "CAL-RUN-EVIDENCE-UNIQUE"
          "run evidence must be unique"
      else check_present path planned (id :: present) rest
  end.

Definition references_valid (references : list EvidenceReference) : bool :=
  forallb valid_reference references.

(** An absent reference needs no check. *)
Definition optional_reference_valid (reference : option EvidenceReference) : bool :=
  match reference with Some r => valid_reference r | None => true end.

Definition plan_identity_valid (record_id seed_namespace_id estimator_id expected : string)
    (assumptions : list string) (governance : CalibrationGovernance) : bool :=
  valid_opaque_id record_id && valid_opaque_id seed_namespace_id && nonempty assumptions &&
  negb (existsb (fun a => bool_decide (a = EmptyString)) assumptions) &&
  valid_governance governance && bool_decide (estimator_id = expected).

(** ** The service rate *)

(** The loop over the planned cells: names and run identities seen. *)
Fixpoint check_service_cells (names planned : list string) (cells : list ServiceCellPlan) :
    Result (list string) :=
  match cells with
  | [] => success planned
  | cell :: rest =>
      let name := service_key_name (cp_key cell) in
      if negb (expected_service_key (cp_key cell)) || negb (valid_context (cp_context cell)) ||
         (cp_duration_ticks cell =? 0) || (cp_ticks_per_second cell =? 0) ||
         bool_decide (name ∈ names) then
        fail_with ErrorCategory_cross_field "$/service_plan/cells" "CAL-SERVICE-CELL-PLAN"
          "service cell is invalid or duplicated"
      else
        match insert_runs planned (cp_planned_run_ids cell) with
        | None =>
            fail_with ErrorCategory_duplicate_value "$/service_plan/cells/planned_run_ids"
              "CAL-PLAN-RUN-UNIQUE" "planned run identity must be globally unique"
        | Some planned => check_service_cells (name :: names) planned rest
        end
  end.

Definition service_evidence_matches (key : ServiceCellKey) (cell : ServiceCellPlan)
    (evidence : ServiceRunEvidence) : bool :=
  bool_decide (se_key evidence = key) && bool_decide (se_context evidence = cp_context cell) &&
  bool_decide (se_stage evidence = Stage_calibration) &&
  bool_decide (se_run_mode evidence = RunMode_service_rate_calibration) &&
  bool_decide (se_arrival_family evidence = ArrivalFamily_continuous_ready) &&
  (se_interval_ticks evidence =? cp_duration_ticks cell) &&
  (se_ticks_per_second evidence =? cp_ticks_per_second cell).

Definition service_decision (evidence : ServiceRunEvidence) (throughput : option ExactRational) :
    ServiceRunDecision :=
  mkServiceRunDecision (se_run_id evidence) (se_validity evidence) (se_consumed_events evidence)
    (se_interval_ticks evidence) (se_ticks_per_second evidence) throughput
    (se_raw_run_artifacts evidence) (se_integrity_artifact evidence) (se_failure_artifact evidence).

(** What the loop over a cell's runs has gathered. *)
Record CellProgress : Set := mkCellProgress {
  pg_present : Z;
  pg_valid : Z;
  pg_minimum : option ExactRational;
  pg_decisions : list ServiceRunDecision;
  pg_blockers : list string
}.

(** [minimum], after a throughput. *)
Definition new_minimum (minimum : option ExactRational) (throughput : ExactRational) :
    Result (option ExactRational) :=
  let* order := match minimum with
                | Some current => compare_rationals throughput current
                | None => success (-1)
                end in
  success (if order <? 0 then Some throughput else minimum).

(** One planned run with evidence. *)
Definition service_run_evidence (key : ServiceCellKey) (cell : ServiceCellPlan)
    (evidence : ServiceRunEvidence) (progress : CellProgress) : Result CellProgress :=
  if negb (service_evidence_matches key cell evidence) then
    fail_with ErrorCategory_reference_mismatch "$/service_runs" "CAL-SERVICE-STAGE-A-MATCH"
      "service evidence differs from its Stage A context or fixed plan"
  else if negb (references_valid (se_raw_run_artifacts evidence)) ||
          negb (optional_reference_valid (se_integrity_artifact evidence)) ||
          negb (optional_reference_valid (se_failure_artifact evidence)) then
    fail_with ErrorCategory_invalid_hash "$/service_runs/artifacts" "CAL-EVIDENCE-REFERENCE"
      "evidence reference is malformed"
  else
    match se_validity evidence with
    | CalibrationRunValidity_invalid =>
        if negb (is_some (se_failure_artifact evidence)) then
          fail_with ErrorCategory_missing_evidence "$/service_runs/failure_artifact"
            "CAL-INVALID-REQUIRES-FAILURE" "invalid calibration run needs failure evidence"
        else
          success (mkCellProgress (u64_add (pg_present progress) 1) (pg_valid progress)
                     (pg_minimum progress)
                     (pg_decisions progress ++ [service_decision evidence None])
                     (pg_blockers progress))
    | CalibrationRunValidity_valid =>
        if negb (nonempty (se_raw_run_artifacts evidence)) ||
           negb (is_some (se_integrity_artifact evidence)) then
          fail_with ErrorCategory_missing_evidence "$/service_runs" "CAL-VALID-REQUIRES-EVIDENCE"
            "valid calibration run needs raw and integrity evidence"
        else
          let* throughput := exact_throughput
            (mkThroughputObservation (se_consumed_events evidence) (se_ticks_per_second evidence)
               (se_interval_ticks evidence)) in
          let* minimum := new_minimum (pg_minimum progress) throughput in
          success (mkCellProgress (u64_add (pg_present progress) 1) (u64_add (pg_valid progress) 1)
                     minimum
                     (pg_decisions progress ++ [service_decision evidence (Some throughput)])
                     (pg_blockers progress))
    end.

Definition find_service_run (runs : list ServiceRunEvidence) (id : Identifier) :
    option ServiceRunEvidence :=
  List.find (fun evidence => bool_decide (se_run_id evidence = id)) runs.

Fixpoint service_runs (key : ServiceCellKey) (cell : ServiceCellPlan) (runs : list ServiceRunEvidence)
    (ids : list Identifier) (progress : CellProgress) : Result CellProgress :=
  match ids with
  | [] => success progress
  | id :: rest =>
      match find_service_run runs id with
      | None =>
          service_runs key cell runs rest
            (mkCellProgress (pg_present progress) (pg_valid progress) (pg_minimum progress)
               (pg_decisions progress)
               (pg_blockers progress ++ ["planned run evidence is missing: " +:+ id]))
      | Some evidence =>
          let* progress := service_run_evidence key cell evidence progress in
          service_runs key cell runs rest progress
      end
  end.

(** The cells evaluated so far and the reference. *)
Record RateProgress : Set := mkRateProgress {
  rp_state : EvaluationState;
  rp_cells : list ServiceCellResult;
  rp_mu_ref : option ExactRational;
  rp_blockers : list string
}.

Definition missing_cell (key : ServiceCellKey) : ServiceCellResult :=
  mkServiceCellResult key EvaluationState_not_evaluated 0 0 0 None []
    ["cell absent from prospective plan"].

Definition find_service_cell (plan : ServiceRatePlan) (key : ServiceCellKey) : option ServiceCellPlan :=
  List.find (fun cell => bool_decide (cp_key cell = key)) (sp_cells plan).

Definition cell_blockers (cell : ServiceCellPlan) (progress : CellProgress) : list string :=
  pg_blockers progress ++
  (if negb (pg_present progress =? Z.of_nat (length (cp_planned_run_ids cell)))
   then ["prospective run plan is incomplete"] else []) ++
  (if pg_valid progress <? kMinimumValidIndependentRuns
   then ["fewer than 59 valid independent runs"] else []).

Definition service_cell (plan : ServiceRatePlan) (runs : list ServiceRunEvidence)
    (key : ServiceCellKey) (progress : RateProgress) : Result RateProgress :=
  match find_service_cell plan key with
  | None =>
      success (mkRateProgress EvaluationState_not_evaluated (rp_cells progress ++ [missing_cell key])
                 (rp_mu_ref progress)
                 (rp_blockers progress ++ ["missing required service cell " +:+ service_key_name key]))
  | Some cell =>
      let* gathered :=
        service_runs key cell runs (cp_planned_run_ids cell) (mkCellProgress 0 0 None [] []) in
      let blockers := cell_blockers cell gathered in
      let result state mu :=
        mkServiceCellResult key state (Z.of_nat (length (cp_planned_run_ids cell)))
          (pg_present gathered) (pg_valid gathered) mu (pg_decisions gathered) blockers in
      if nonempty blockers then
        success (mkRateProgress EvaluationState_not_evaluated
                   (rp_cells progress ++ [result EvaluationState_not_evaluated None])
                   (rp_mu_ref progress)
                   (rp_blockers progress ++ ["unresolved service cell " +:+ service_key_name key]))
      else
        match pg_minimum gathered with
        | None =>
            fail_with ErrorCategory_cross_field "$/service_runs" "CAL-SERVICE-MINIMUM-MISSING"
              "a resolved service cell must contain a valid throughput minimum"
        | Some minimum =>
            let* mu_ref := new_minimum (rp_mu_ref progress) minimum in
            success (mkRateProgress (rp_state progress)
                       (rp_cells progress ++ [result EvaluationState_resolved (Some minimum)])
                       mu_ref (rp_blockers progress))
        end
  end.

Fixpoint service_cells (plan : ServiceRatePlan) (runs : list ServiceRunEvidence)
    (keys : list ServiceCellKey) (progress : RateProgress) : Result RateProgress :=
  match keys with
  | [] => success progress
  | key :: rest =>
      let* progress := service_cell plan runs key progress in
      service_cells plan runs rest progress
  end.

Definition load_factors : list ExactRational :=
  [mkExactRational 1 4; mkExactRational 1 2; mkExactRational 3 4].

Fixpoint candidate_loads (mu_ref : ExactRational) (factors : list ExactRational) :
    Result (list ExactRational) :=
  match factors with
  | [] => success []
  | factor :: rest =>
      let* candidate := multiply_rationals mu_ref factor "$/candidate_loads" in
      let* others := candidate_loads mu_ref rest in
      success (candidate :: others)
  end.

Definition evaluate_service_rate (plan : ServiceRatePlan) (runs : list ServiceRunEvidence) :
    Result ServiceRateResult :=
  if negb (plan_identity_valid (sp_record_id plan) (sp_seed_namespace_id plan) (sp_estimator_id plan)
             kServiceRateMethodId (sp_assumptions plan) (sp_governance plan)) then
    fail_with ErrorCategory_missing_field "$/service_plan" "CAL-SERVICE-PLAN-IDENTITY"
      "plan requires explicit identity, namespace, and accepted estimator"
  else
    let* planned := check_service_cells [] [] (sp_cells plan) in
    let* _ := check_present "$/service_runs/run_id" planned [] (se_run_id <$> runs) in
    let* progress := service_cells plan runs required_service_cells
      (mkRateProgress EvaluationState_resolved [] None []) in
    let exact := Z.of_nat (length (sp_cells plan)) =? kRequiredServiceCellCount in
    let state := if exact then rp_state progress else EvaluationState_not_evaluated in
    let blockers := rp_blockers progress ++
      (if exact then [] else ["service plan is not the exact 60-cell product"]) in
    match state, rp_mu_ref progress with
    | EvaluationState_resolved, Some mu_ref =>
        let* loads := candidate_loads mu_ref load_factors in
        success (mkServiceRateResult state (rp_cells progress) (Some mu_ref) loads blockers)
    | _, _ => success (mkServiceRateResult state (rp_cells progress) None [] blockers)
    end.

(** ** Least rationals *)

Definition rational_le (a b : ExactRational) : Prop :=
  numerator a * denominator b <= numerator b * denominator a.

Lemma rational_le_refl a : rational_le a a.
Proof. unfold rational_le. lia. Qed.

Lemma rational_le_trans a b c :
  rational_u64 a -> rational_u64 b -> rational_u64 c ->
  rational_le a b -> rational_le b c -> rational_le a c.
Proof.
  unfold rational_le. intros [Na Da] [Nb Db] [Nc Dc] H1 H2.
  assert (numerator a * denominator c * denominator b <= numerator c * denominator a * denominator b); nia.
Qed.

(** The least of a list, when there is one. *)
Definition is_least (minimum : option ExactRational) (l : list ExactRational) : Prop :=
  match minimum with
  | None => l = []
  | Some m => m ∈ l /\ Forall (rational_le m) l
  end.

Lemma new_minimum_least minimum l t minimum' :
  Forall rational_u64 l -> rational_u64 t -> is_least minimum l ->
  new_minimum minimum t = success minimum' -> is_least minimum' (l ++ [t]).
Proof.
  intros Ul Ut L. unfold new_minimum. destruct minimum as [m|]; cbn [rbind].
  - destruct L as [I F]. assert (Um : rational_u64 m) by (rewrite Forall_forall in Ul; auto).
    rewrite compare_rationals_sign by done. cbn [rbind]. intros [= <-]. unfold rational_compare.
    destruct (Z.compare_spec (numerator t * denominator m) (numerator m * denominator t)) as [E|E|E]; cbn.
    + split; [apply elem_of_app; by left|]. apply Forall_app. split; [done|].
      constructor; [unfold rational_le; lia | done].
    + split; [apply elem_of_app; right; by left|]. apply Forall_app. split.
      * rewrite Forall_forall in *. intros y Hy. apply rational_le_trans with m; auto.
        unfold rational_le. lia.
      * constructor; [apply rational_le_refl | done].
    + split; [apply elem_of_app; by left|]. apply Forall_app. split; [done|].
      constructor; [unfold rational_le; lia | done].
  - intros [= <-]. rewrite L. cbn. split; [by left|]. constructor; [apply rational_le_refl | done].
Qed.

(** ** The runs of a cell *)

Definition service_evidence_u64 (evidence : ServiceRunEvidence) : Prop :=
  is_u64 (se_consumed_events evidence) /\ is_u64 (se_interval_ticks evidence) /\
  is_u64 (se_ticks_per_second evidence).

(** The exact throughput of a run, when it is valid and has one. *)
Definition run_throughput (evidence : ServiceRunEvidence) : option ExactRational :=
  match se_validity evidence with
  | CalibrationRunValidity_valid =>
      match exact_throughput (mkThroughputObservation (se_consumed_events evidence)
              (se_ticks_per_second evidence) (se_interval_ticks evidence)) with
      | success t => Some t
      | failure _ => None
      end
  | CalibrationRunValidity_invalid => None
  end.

Lemma exact_throughput_u64 c f i t :
  is_u64 c -> is_u64 f -> is_u64 i ->
  exact_throughput (mkThroughputObservation c f i) = success t -> rational_u64 t /\ reduced t.
Proof.
  intros Hc Hf Hi E. destruct (decide (f = 0)) as [->|Nf]; [done|].
  destruct (decide (i = 0)) as [->|Ni].
  { unfold exact_throughput in E. cbn in E. by rewrite orb_true_r in E. }
  rewrite exact_throughput_lowest in E by int_lia.
  destruct (Z.leb_spec (c * f / Z.gcd (c * f) i) u64_max) as [B|]; [|done]. injection E as <-.
  destruct (reduce (c * f) i) as (_ & _ & _ & B1 & B2 & G); [int_nia|int_lia|].
  split; [split; cbn; [int_lia|int_lia]|done].
Qed.

Lemma run_throughput_u64 evidence t :
  service_evidence_u64 evidence -> run_throughput evidence = Some t -> rational_u64 t /\ reduced t.
Proof.
  intros (Hc & Hi & Hf). unfold run_throughput. destruct (se_validity evidence); [|done].
  destruct (exact_throughput _) as [x|] eqn:E; [|done]. intros [= <-]. revert E. by apply exact_throughput_u64.
Qed.

(** Evidence of a planned run that the evaluation accepts. *)
Definition service_run_ok (key : ServiceCellKey) (cell : ServiceCellPlan) (evidence : ServiceRunEvidence) :
    Prop :=
  service_evidence_matches key cell evidence = true /\
  match se_validity evidence with
  | CalibrationRunValidity_valid => is_Some (run_throughput evidence)
  | CalibrationRunValidity_invalid => is_Some (se_failure_artifact evidence)
  end.

Lemma service_run_evidence_ok key cell evidence progress progress' l :
  service_evidence_u64 evidence -> Forall rational_u64 l -> is_least (pg_minimum progress) l ->
  service_run_evidence key cell evidence progress = success progress' ->
  service_run_ok key cell evidence /\
  is_least (pg_minimum progress') (l ++ option_list (run_throughput evidence)) /\
  pg_present progress' = u64_add (pg_present progress) 1 /\
  pg_valid progress' = (if is_some (run_throughput evidence) then u64_add (pg_valid progress) 1
                        else pg_valid progress) /\
  pg_blockers progress' = pg_blockers progress.
Proof.
  intros U Ul L. unfold service_run_evidence, service_run_ok.
  destruct (service_evidence_matches key cell evidence); [|done]. cbn [negb].
  destruct (_ || _); [done|]. unfold run_throughput.
  destruct (se_validity evidence) eqn:V.
  - destruct (_ || _); [done|]. destruct (exact_throughput _) as [t|] eqn:T; [|done]. cbn [rbind].
    destruct (new_minimum _ _) as [m|] eqn:M; [|done]. cbn [rbind]. intros [= <-]. cbn.
    destruct U as (U1 & U2 & U3).
    destruct (exact_throughput_u64 _ _ _ _ U1 U3 U2 T) as [Ut _].
    split; [by split|]. split; [by eapply new_minimum_least|]. done.
  - destruct (se_failure_artifact evidence) as [f|]; [|done]. cbn. intros [= <-]. cbn.
    rewrite app_nil_r. split; [by split; [|eexists]|]. done.
Qed.

(** The throughputs of the planned runs, in the order of the plan. *)
Definition cell_throughputs (runs : list ServiceRunEvidence) (ids : list Identifier) : list ExactRational :=
  ids ≫= (fun id => match find_service_run runs id with
                    | Some evidence => option_list (run_throughput evidence)
                    | None => []
                    end).

Lemma cell_throughputs_u64 runs ids :
  Forall service_evidence_u64 runs ->
  Forall (fun t => rational_u64 t /\ reduced t) (cell_throughputs runs ids).
Proof.
  intros U. apply Forall_forall. intros t I. apply list_elem_of_bind in I as (id & I & _).
  destruct (find_service_run runs id) as [e|] eqn:E; [|by apply elem_of_nil in I].
  destruct (run_throughput e) as [t'|] eqn:T; [|by apply elem_of_nil in I].
  apply list_elem_of_singleton in I as ->. apply find_some in E as [E _].
  rewrite Forall_forall in U. apply (run_throughput_u64 e); [|done]. apply U. by apply list_elem_of_In.
Qed.

Lemma service_runs_ok key cell runs : Forall service_evidence_u64 runs ->
  forall ids progress progress' l,
  Forall rational_u64 l -> is_least (pg_minimum progress) l ->
  0 <= pg_valid progress -> pg_valid progress + Z.of_nat (length ids) <= u64_max ->
  service_runs key cell runs ids progress = success progress' ->
  is_least (pg_minimum progress') (l ++ cell_throughputs runs ids) /\
  pg_valid progress' = pg_valid progress + Z.of_nat (length (cell_throughputs runs ids)) /\
  (exists missing, pg_blockers progress' = pg_blockers progress ++ missing) /\
  (pg_blockers progress' = [] ->
   Forall (fun id => exists e, find_service_run runs id = Some e /\ service_run_ok key cell e) ids).
Proof.
  intros U ids. induction ids as [|id ids IH]; intros progress progress' l Ul L Hv Hb; cbn [service_runs].
  - intros [= <-]. cbn. rewrite app_nil_r, Z.add_0_r. split; [done|]. split; [done|].
    split; [exists []; by rewrite app_nil_r | by constructor].
  - cbn [length] in Hb. unfold cell_throughputs. rewrite bind_cons. fold (cell_throughputs runs ids).
    destruct (find_service_run runs id) as [e|] eqn:E.
    + destruct (service_run_evidence key cell e progress) as [p1|] eqn:S; [|done]. cbn [rbind]. intros R.
      assert (Ue : service_evidence_u64 e).
      { apply find_some in E as [E _]. rewrite Forall_forall in U. apply U. by apply list_elem_of_In. }
      destruct (service_run_evidence_ok _ _ _ _ _ l Ue Ul L S) as (Ok & L1 & _ & V1 & B1).
      assert (Ut : Forall rational_u64 (option_list (run_throughput e))).
      { destruct (run_throughput e) as [t|] eqn:T; [|constructor].
        constructor; [|constructor]. by apply (run_throughput_u64 e). }
      assert (V1' : pg_valid p1 = pg_valid progress + Z.of_nat (length (option_list (run_throughput e)))).
      { rewrite V1. destruct (run_throughput e); cbn; [rewrite u64_add_small by int_lia; lia | lia]. }
      assert (length (option_list (run_throughput e)) <= 1)%nat by (destruct (run_throughput e); cbn; lia).
      destruct (IH p1 progress' (l ++ option_list (run_throughput e))) as (L2 & V2 & [m Em] & F2);
        [by apply Forall_app | done | lia | lia | done |].
      rewrite app_assoc, length_app. split; [done|]. split; [lia|]. split.
      * exists m. by rewrite Em, B1.
      * intros Z. constructor; [eauto|]. auto.
    + intros R.
      destruct (IH (mkCellProgress (pg_present progress) (pg_valid progress) (pg_minimum progress)
                      (pg_decisions progress)
                      (pg_blockers progress ++ ["planned run evidence is missing: " +:+ id]))
                   progress' l) as (L2 & V2 & [m Em] & F2); [done|done|done|cbn; lia|done|].
      cbn in *. split; [done|]. split; [done|].
      split; [exists (["planned run evidence is missing: " +:+ id] ++ m); by rewrite Em, <- app_assoc|].
      intros Z. rewrite Em in Z. apply app_eq_nil in Z as [Z _]. by apply app_eq_nil in Z as [_ Z].
Qed.

(** ** The cells *)

(** A cell that is resolved: every planned run has matching evidence, at least 59
    runs are valid, and the cell's rate is the least of their exact throughputs. *)
Definition cell_resolved (plan : ServiceRatePlan) (runs : list ServiceRunEvidence)
    (result : ServiceCellResult) : Prop :=
  exists cell mu,
    find_service_cell plan (cr_key result) = Some cell /\
    cr_state result = EvaluationState_resolved /\ cr_mu_cell result = Some mu /\
    Forall (fun id => exists e, find_service_run runs id = Some e /\ service_run_ok (cr_key result) cell e)
      (cp_planned_run_ids cell) /\
    kMinimumValidIndependentRuns <= Z.of_nat (length (cell_throughputs runs (cp_planned_run_ids cell))) /\
    is_least (Some mu) (cell_throughputs runs (cp_planned_run_ids cell)).

Section Cells.
Context (plan : ServiceRatePlan) (runs : list ServiceRunEvidence).
Hypothesis Hruns : Forall service_evidence_u64 runs.
Hypothesis Hplan :
  Forall (fun cell => Z.of_nat (length (cp_planned_run_ids cell)) <= u64_max) (sp_cells plan).

Lemma cell_resolved_mu result :
  cell_resolved plan runs result -> exists mu, cr_mu_cell result = Some mu /\ rational_u64 mu /\ reduced mu.
Proof.
  intros (cell & mu & _ & _ & Em & _ & _ & (I & _)). exists mu. split; [done|].
  pose proof (cell_throughputs_u64 runs (cp_planned_run_ids cell) Hruns) as F.
  rewrite Forall_forall in F. by apply F.
Qed.

Lemma service_cell_ok key progress progress' l :
  Forall rational_u64 l -> is_least (rp_mu_ref progress) l ->
  service_cell plan runs key progress = success progress' ->
  rp_state progress' = EvaluationState_resolved ->
  rp_state progress = EvaluationState_resolved /\
  exists result mu, rp_cells progress' = rp_cells progress ++ [result] /\ cr_key result = key /\
    cell_resolved plan runs result /\ cr_mu_cell result = Some mu /\
    is_least (rp_mu_ref progress') (l ++ [mu]).
Proof.
  intros Ul L. unfold service_cell. destruct (find_service_cell plan key) as [cell|] eqn:F; [|by intros [= <-]].
  destruct (service_runs _ _ _ _ _) as [g|] eqn:S; [|done]. cbn [rbind].
  assert (Hlen : Z.of_nat (length (cp_planned_run_ids cell)) <= u64_max).
  { pose proof F as F'. apply find_some in F' as [I _]. rewrite Forall_forall in Hplan.
    apply Hplan. by apply list_elem_of_In. }
  destruct (service_runs_ok key cell runs Hruns (cp_planned_run_ids cell)
    (mkCellProgress 0 0 None [] []) g []) as (Lg & Vg & _ & Fg);
    [done|done|done|done|done|].
  destruct (nonempty (cell_blockers cell g)) eqn:B; [by intros [= <-]|].
  destruct (pg_minimum g) as [mu|] eqn:M; [|done].
  destruct (new_minimum (rp_mu_ref progress) mu) as [m|] eqn:N; [|done]. cbn [rbind].
  intros [= <-]. cbn. intros St. split; [done|].
  assert (Eb : cell_blockers cell g = []) by (by destruct (cell_blockers cell g)).
  pose proof Eb as Eb'. unfold cell_blockers in Eb'. apply app_eq_nil in Eb' as [B1 Eb'].
  apply app_eq_nil in Eb' as [_ B2].
  assert (V59 : kMinimumValidIndependentRuns <= pg_valid g)
    by (by destruct (Z.ltb_spec (pg_valid g) kMinimumValidIndependentRuns)).
  cbn in Vg, Lg. rewrite Vg in V59. cbn in V59.
  eexists _, mu. split; [done|]. split; [done|]. split; [|split; [done|]].
  - exists cell, mu. cbn. split; [done|]. split; [done|]. split; [done|]. split; [by apply Fg|]. done.
  - eapply new_minimum_least; [done| |done|done].
    pose proof (cell_throughputs_u64 runs (cp_planned_run_ids cell) Hruns) as Fu.
    rewrite Forall_forall in Fu. apply Fu. by destruct Lg.
Qed.

Lemma service_cells_ok keys : forall progress progress' l,
  Forall rational_u64 l -> is_least (rp_mu_ref progress) l ->
  service_cells plan runs keys progress = success progress' ->
  rp_state progress' = EvaluationState_resolved ->
  exists results mus, rp_cells progress' = rp_cells progress ++ results /\
    cr_key <$> results = keys /\ Forall (cell_resolved plan runs) results /\
    cr_mu_cell <$> results = Some <$> mus /\ is_least (rp_mu_ref progress') (l ++ mus).
Proof.
  induction keys as [|key keys IH]; intros progress progress' l Ul L; cbn [service_cells].
  - intros [= <-] _. exists [], []. rewrite !app_nil_r. done.
  - destruct (service_cell plan runs key progress) as [p|] eqn:S; [|done]. cbn [rbind]. intros R St.
    assert (Sp : rp_state p = EvaluationState_resolved).
    { clear -R St. revert p R. induction keys as [|k ks IHk]; intros p R; cbn in R; [by injection R as ->|].
      destruct (service_cell plan runs k p) as [p'|] eqn:E; [|done]. cbn in R. apply IHk in R.
      revert E. unfold service_cell. destruct (find_service_cell plan k); [|by intros [= <-]].
      destruct (service_runs _ _ _ _ _); [|done]. cbn [rbind].
      destruct (nonempty _); [by intros [= <-]|]. destruct (pg_minimum _); [|done].
      destruct (new_minimum _ _); [|done]. cbn. intros [= <-]. exact R. }
    destruct (service_cell_ok key progress p l Ul L S Sp) as (_ & r & mu & Er & Ek & Rr & Em & Lr).
    assert (Umu : rational_u64 mu).
    { destruct (cell_resolved_mu r Rr) as (mu' & E & U & _). congruence. }
    destruct (IH p progress' (l ++ [mu])) as (rs & mus & E1 & E2 & E3 & E4 & E5);
      [apply Forall_app; split; [done | by constructor] | done | done | done |].
    exists (r :: rs), (mu :: mus). rewrite E1, Er, <- app_assoc. cbn. split; [done|].
    split; [by rewrite Ek, E2|]. split; [by constructor|]. split; [by rewrite Em, E4|].
    by rewrite <- app_assoc in E5.
Qed.
End Cells.

(** A product of rationals has the exact value. *)
Lemma multiply_rationals_value a b path c :
  rational_u64 a -> rational_u64 b -> reduced a -> reduced b ->
  multiply_rationals a b path = success c ->
  numerator c * (denominator a * denominator b) = numerator a * numerator b * denominator c /\
  rational_u64 c /\ reduced c.
Proof.
  intros Ua Ub Ra Rb. rewrite multiply_rationals_reduced by done.
  destruct Ua as [Na Da], Ub as [Nb Db].
  destruct (reduce (numerator a * numerator b) (denominator a * denominator b))
    as (G & E1 & E2 & B1 & B2 & C); [int_nia|nia|].
  set (g := Z.gcd _ _) in *.
  destruct (Z.leb_spec (numerator a * numerator b / g) u64_max); cbn [andb]; [|done].
  destruct (Z.leb_spec (denominator a * denominator b / g) u64_max); [|done].
  intros [= <-]. cbn. split; [|split; [split; cbn; int_lia|done]].
  generalize dependent (numerator a * numerator b / g). generalize dependent (denominator a * denominator b / g).
  intros d E2 B2 Hd n E1 B1 Hn C. rewrite E1, E2. lia.
Qed.

Lemma candidate_loads_value mu factors : forall loads,
  rational_u64 mu -> reduced mu -> Forall (fun f => rational_u64 f /\ reduced f) factors ->
  candidate_loads mu factors = success loads ->
  Forall2 (fun f c => numerator c * (denominator mu * denominator f) =
                      numerator mu * numerator f * denominator c) factors loads.
Proof.
  induction factors as [|f factors IH]; intros loads Um Rm F; cbn [candidate_loads];
    [intros [= <-]; constructor|].
  inversion_clear F as [|? ? [Uf Rf] F'].
  destruct (multiply_rationals mu f _) as [c|] eqn:M; [|done]. cbn [rbind].
  destruct (candidate_loads mu factors) as [cs|] eqn:E; [|done]. cbn [rbind]. intros [= <-].
  constructor; [by apply multiply_rationals_value in M as (V & _)|]. by apply IH.
Qed.

Lemma load_factors_ok : Forall (fun f => rational_u64 f /\ reduced f) load_factors.
Proof. repeat constructor; cbn; int_lia. Qed.

(** The rates of resolved cells and the loads derived from their least. *)
Lemma resolved_rates plan runs keys progress :
  Forall service_evidence_u64 runs ->
  Forall (fun cell => Z.of_nat (length (cp_planned_run_ids cell)) <= u64_max) (sp_cells plan) ->
  keys <> [] ->
  service_cells plan runs keys (mkRateProgress EvaluationState_resolved [] None []) = success progress ->
  rp_state progress = EvaluationState_resolved ->
  cr_key <$> rp_cells progress = keys /\
  Forall (cell_resolved plan runs) (rp_cells progress) /\
  exists mu_ref mus, rp_mu_ref progress = Some mu_ref /\
    cr_mu_cell <$> rp_cells progress = Some <$> mus /\
    mu_ref ∈ mus /\ Forall (rational_le mu_ref) mus /\
    forall loads, candidate_loads mu_ref load_factors = success loads ->
      Forall2 (fun f load => numerator load * (denominator mu_ref * denominator f) =
                             numerator mu_ref * numerator f * denominator load)
        [mkExactRational 1 4; mkExactRational 1 2; mkExactRational 3 4] loads.
Proof.
  intros Hr Hp Hk S St.
  destruct (service_cells_ok plan runs Hr Hp keys
    (mkRateProgress EvaluationState_resolved [] None []) progress [] ltac:(constructor) eq_refl S St)
    as (results & mus & E1 & E2 & E3 & E4 & E5). cbn in E1, E5. rewrite E1.
  split; [done|]. split; [done|]. destruct (rp_mu_ref progress) as [mu|].
  2: { cbn in E5. rewrite E5 in E4. apply fmap_nil_inv in E4. rewrite E4 in E2. by subst keys. }
  destruct E5 as [I F]. exists mu, mus. split; [done|]. split; [done|]. split; [done|]. split; [done|].
  apply (list_elem_of_fmap_2 Some) in I. rewrite <- E4 in I. apply list_elem_of_fmap in I as (r & Er & Ir).
  rewrite Forall_forall in E3. destruct (cell_resolved_mu plan runs Hr r (E3 r Ir)) as (mu' & Em' & U & R).
  assert (mu' = mu) as -> by congruence. intros loads.
  apply (candidate_loads_value mu load_factors); [done|done|apply load_factors_ok].
Qed.

(** Rates of evaluated cells: when every cell of a nonempty list is resolved,
    each has matching evidence for every planned run and at least 59 valid ones;
    the rate of a cell is the least exact throughput of its valid runs, the
    reference is the least of these rates, and the candidate loads are exactly a
    quarter, a half and three quarters of the reference. *)
Theorem service_rates_least plan runs keys progress :
  Forall service_evidence_u64 runs ->
  Forall (fun cell => Z.of_nat (length (cp_planned_run_ids cell)) <= u64_max) (sp_cells plan) ->
  keys <> [] ->
  service_cells plan runs keys (mkRateProgress EvaluationState_resolved [] None []) = success progress ->
  rp_state progress = EvaluationState_resolved ->
  cr_key <$> rp_cells progress = keys /\
  Forall (cell_resolved plan runs) (rp_cells progress) /\
  exists mu_ref mus, rp_mu_ref progress = Some mu_ref /\
    cr_mu_cell <$> rp_cells progress = Some <$> mus /\
    mu_ref ∈ mus /\ Forall (rational_le mu_ref) mus /\
    forall loads, candidate_loads mu_ref load_factors = success loads ->
      Forall2 (fun f load => numerator load * (denominator mu_ref * denominator f) =
                             numerator mu_ref * numerator f * denominator load)
        [mkExactRational 1 4; mkExactRational 1 2; mkExactRational 3 4] loads.
Proof. apply resolved_rates. Qed.

(** A resolved service rate: all sixty registered cells are resolved, each
    with matching evidence for every planned run and at least 59 valid ones; the
    rate of a cell is the least exact throughput of its valid runs, the reference
    is the least rate of the cells, and the three candidate loads are exactly a
    quarter, a half and three quarters of the reference. *)
Theorem service_rate_resolved plan runs result :
  Forall service_evidence_u64 runs ->
  Forall (fun cell => Z.of_nat (length (cp_planned_run_ids cell)) <= u64_max) (sp_cells plan) ->
  evaluate_service_rate plan runs = success result ->
  sv_state result = EvaluationState_resolved ->
  cr_key <$> sv_cells result = required_service_cells /\
  Forall (cell_resolved plan runs) (sv_cells result) /\
  exists mu_ref mus, sv_mu_ref result = Some mu_ref /\
    cr_mu_cell <$> sv_cells result = Some <$> mus /\
    mu_ref ∈ mus /\ Forall (rational_le mu_ref) mus /\
    Forall2 (fun f load => numerator load * (denominator mu_ref * denominator f) =
                           numerator mu_ref * numerator f * denominator load)
      [mkExactRational 1 4; mkExactRational 1 2; mkExactRational 3 4] (sv_candidate_loads result).
Proof.
  intros Hr Hp. unfold evaluate_service_rate. destruct (negb _); [done|].
  destruct (check_service_cells _ _ _) as [planned|]; [|done]. cbn [rbind].
  destruct (check_present _ _ _ _); [|done]. cbn [rbind].
  destruct (service_cells _ _ _ _) as [p|] eqn:S; [|done]. cbn [rbind].
  destruct (_ =? _); [|by destruct (rp_mu_ref p); intros [= <-]].
  intros E St.
  assert (Sp : rp_state p = EvaluationState_resolved).
  { destruct (rp_state p), (rp_mu_ref p); try done; cbn in E; try (injection E as <-; done). }
  rewrite Sp in E.
  destruct (resolved_rates plan runs required_service_cells p Hr Hp ltac:(done) S Sp)
    as (R1 & R2 & mu & mus & Em & R3 & R4 & R5 & R6). rewrite Em in E.
  destruct (candidate_loads mu load_factors) as [loads|] eqn:C; [|done]. cbn [rbind] in E.
  injection E as <-. cbn [sv_cells sv_mu_ref sv_candidate_loads].
  split; [done|]. split; [done|]. exists mu, mus. auto 10.
Qed.

Module SampleCalibration.

Definition context : StageAContext := mkStageAContext "p" "b" "q" "a" "l" "c" "w" "h" "s" "k" 64.
Definition key : ServiceCellKey :=
  mkServiceCellKey QueuePackage_r0 RequestedHardwareState_h0 Placement_near WorkingSetClass_l2_resident.
Definition ids : list Identifier := (fun i => std_to_string (Z.of_nat i)) <$> seq 0 59.
Definition reference : EvidenceReference := mkEvidenceReference "artifact"
  "0000000000000000000000000000000000000000000000000000000000000000".
Definition cell : ServiceCellPlan := mkServiceCellPlan key context 1000 1000000 ids.
Definition plan : ServiceRatePlan :=
  mkServiceRatePlan "record" kServiceRateMethodId "seeds" ["independent runs"]
    (mkCalibrationGovernance ["owner"] reference reference) [cell].
Definition run (i : nat) : ServiceRunEvidence :=
  mkServiceRunEvidence (std_to_string (Z.of_nat i)) key context Stage_calibration
    RunMode_service_rate_calibration ArrivalFamily_continuous_ready CalibrationRunValidity_valid
    (100 + Z.of_nat i) 1000 1000000 [reference] (Some reference) None.
Definition runs : list ServiceRunEvidence := run <$> seq 0 59.
End SampleCalibration.

Lemma service_rates_least_witness :
  exists progress mu_ref,
    service_cells SampleCalibration.plan SampleCalibration.runs [SampleCalibration.key]
      (mkRateProgress EvaluationState_resolved [] None []) = success progress /\
    rp_mu_ref progress = Some mu_ref /\ cr_key <$> rp_cells progress = [SampleCalibration.key].
Proof.
  assert (E : exists progress, service_cells SampleCalibration.plan SampleCalibration.runs
    [SampleCalibration.key] (mkRateProgress EvaluationState_resolved [] None []) = success progress /\
    rp_state progress = EvaluationState_resolved).
  { eexists. split; vm_compute; reflexivity. }
  destruct E as (progress & E & St).
  destruct (service_rates_least SampleCalibration.plan SampleCalibration.runs [SampleCalibration.key]
              progress) as (K & _ & mu & mus & M & _).
  - apply Forall_forall. intros e I. apply list_elem_of_fmap in I as (i & -> & I).
    apply elem_of_seq in I. repeat split; cbn; int_lia.
  - constructor; [vm_compute; discriminate | constructor].
  - discriminate.
  - exact E.
  - exact St.
  - exists progress, mu. split; [exact E|]. split; [exact M | exact K].
Defined.
