(* ===== verification/RingCalibration.v ===== *)
(** * Calibration: the ring distance

    Models the ring half of [src/calibration/calibration.cpp] and its header: the
    demand trace of the two workers, the captures that fill it through the ring's
    demand observers, and [evaluate_ring_distance], which turns the tails of at
    least 59 valid runs per hardware state into the lookahead distance d2. *)

From stdpp Require Import prelude list sorting strings.
From Stdlib Require Import ZArith Lia Sorted.
From S2P Require Import Prelude Validation Model QueueCommon RingSpsc Timing Capture Packages Load.
From S2P Require Import Rationals Calibration.

#[local] Open Scope Z_scope.
#[local] Open Scope result_scope.

(** ** The demand trace *)

Inductive RingWorker : Set :=
| RingWorker_producer
| RingWorker_consumer.

Inductive RingAttemptOutcome : Set :=
| RingAttemptOutcome_advanced
| RingAttemptOutcome_full
| RingAttemptOutcome_empty
| RingAttemptOutcome_clock_failure
| RingAttemptOutcome_trace_failure.

Record RingDemandSeries : Set := mkRingDemandSeries {
  producer_demand_ticks : list Z;
  consumer_demand_ticks : list Z;
  producer_issue_ticks : list Z;
  consumer_issue_ticks : list Z;
  producer_full_count : Z;
  consumer_empty_count : Z
}.

Record RingDemandTrace : Set := mkRingDemandTrace {
  rt_series : RingDemandSeries;
  previous_producer_advance_start : option Z;
  previous_consumer_advance_start : option Z;
  max_attempts_per_worker : Z
}.

#[export] Instance RingWorker_eq_dec : EqDecision RingWorker.
Proof. solve_decision. Defined.
#[export] Instance RingAttemptOutcome_eq_dec : EqDecision RingAttemptOutcome.
Proof. solve_decision. Defined.

Definition RingDemandTrace_make (max_attempts : Z) : Throws RingDemandTrace :=
  if max_attempts =? 0 then Threw "ring demand trace requires an explicit nonzero attempt capacity"
  else Returned (mkRingDemandTrace (mkRingDemandSeries [] [] [] [] 0 0) None None max_attempts).

(** The references [demand], [issue] and [previous] of [record], and a write
    through them. *)
Definition demand_of (worker : RingWorker) (trace : RingDemandTrace) : list Z :=
  match worker with
  | RingWorker_producer => producer_demand_ticks (rt_series trace)
  | RingWorker_consumer => consumer_demand_ticks (rt_series trace)
  end.

Definition issue_of (worker : RingWorker) (trace : RingDemandTrace) : list Z :=
  match worker with
  | RingWorker_producer => producer_issue_ticks (rt_series trace)
  | RingWorker_consumer => consumer_issue_ticks (rt_series trace)
  end.

Definition previous_of (worker : RingWorker) (trace : RingDemandTrace) : option Z :=
  match worker with
  | RingWorker_producer => previous_producer_advance_start trace
  | RingWorker_consumer => previous_consumer_advance_start trace
  end.

Definition push_demand (worker : RingWorker) (ticks : Z) (trace : RingDemandTrace) : RingDemandTrace :=
  let s := rt_series trace in
  mkRingDemandTrace
    (match worker with
     | RingWorker_producer =>
         mkRingDemandSeries (producer_demand_ticks s ++ [ticks]) (consumer_demand_ticks s)
           (producer_issue_ticks s) (consumer_issue_ticks s) (producer_full_count s)
           (consumer_empty_count s)
     | RingWorker_consumer =>
         mkRingDemandSeries (producer_demand_ticks s) (consumer_demand_ticks s ++ [ticks])
           (producer_issue_ticks s) (consumer_issue_ticks s) (producer_full_count s)
           (consumer_empty_count s)
     end)
    (previous_producer_advance_start trace) (previous_consumer_advance_start trace)
    (max_attempts_per_worker trace).

Definition count_full (trace : RingDemandTrace) : RingDemandTrace :=
  let s := rt_series trace in
  mkRingDemandTrace
    (mkRingDemandSeries (producer_demand_ticks s) (consumer_demand_ticks s) (producer_issue_ticks s)
       (consumer_issue_ticks s) (u64_add (producer_full_count s) 1) (consumer_empty_count s))
    (previous_producer_advance_start trace) (previous_consumer_advance_start trace)
    (max_attempts_per_worker trace).

Definition count_empty (trace : RingDemandTrace) : RingDemandTrace :=
  let s := rt_series trace in
  mkRingDemandTrace
    (mkRingDemandSeries (producer_demand_ticks s) (consumer_demand_ticks s) (producer_issue_ticks s)
       (consumer_issue_ticks s) (producer_full_count s) (u64_add (consumer_empty_count s) 1))
    (previous_producer_advance_start trace) (previous_consumer_advance_start trace)
    (max_attempts_per_worker trace).

(** The issue interval, when there was an earlier advance, and the new [previous]. *)
Definition push_advance (worker : RingWorker) (start : Z) (trace : RingDemandTrace) : RingDemandTrace :=
  let s := rt_series trace in
  let interval :=
    match previous_of worker trace with Some previous => [u64_sub start previous] | None => [] end in
  match worker with
  | RingWorker_producer =>
      mkRingDemandTrace
        (mkRingDemandSeries (producer_demand_ticks s) (consumer_demand_ticks s)
           (producer_issue_ticks s ++ interval) (consumer_issue_ticks s) (producer_full_count s)
           (consumer_empty_count s))
        (Some start) (previous_consumer_advance_start trace) (max_attempts_per_worker trace)
  | RingWorker_consumer =>
      mkRingDemandTrace
        (mkRingDemandSeries (producer_demand_ticks s) (consumer_demand_ticks s)
           (producer_issue_ticks s) (consumer_issue_ticks s ++ interval) (producer_full_count s)
           (consumer_empty_count s))
        (previous_producer_advance_start trace) (Some start) (max_attempts_per_worker trace)
  end.

(** [RingDemandTrace::record]. *)
Definition trace_record (worker : RingWorker) (demand_start demand_end : Z)
    (outcome : RingAttemptOutcome) (trace : RingDemandTrace) : RingDemandTrace * bool :=
  let is_outcome o := bool_decide (outcome = o) in
  let has_previous := is_some (previous_of worker trace) in
  let full_size l := Z.of_nat (length l) >=? max_attempts_per_worker trace in
  if is_outcome RingAttemptOutcome_clock_failure || is_outcome RingAttemptOutcome_trace_failure ||
     (demand_end <? demand_start) then (trace, false)
  else if (is_outcome RingAttemptOutcome_full && negb (bool_decide (worker = RingWorker_producer))) ||
          (is_outcome RingAttemptOutcome_empty && negb (bool_decide (worker = RingWorker_consumer)))
  then (trace, false)
  else if full_size (demand_of worker trace) ||
          (is_outcome RingAttemptOutcome_advanced && has_previous && full_size (issue_of worker trace))
  then (trace, false)
  else if is_outcome RingAttemptOutcome_advanced &&
          match previous_of worker trace with Some previous => demand_start <? previous | None => false end
  then (trace, false)
  else
    let trace := push_demand worker (u64_sub demand_end demand_start) trace in
    if is_outcome RingAttemptOutcome_full then (count_full trace, true)
    else if is_outcome RingAttemptOutcome_empty then (count_empty trace, true)
    else (push_advance worker demand_start trace, true).

(** ** Captures *)

Record RingCaptureResult : Set := mkRingCaptureResult {
  rc_outcome : RingAttemptOutcome;
  rc_before_status : ClockReadStatus;
  rc_after_status : ClockReadStatus
}.

Section Capture.
Context {C : Type} (clock_read : C -> ClockReadResult * C).

(** The observer: the clock and its two readings. *)
Definition before_slot_acquire (o : C * ClockReadResult * ClockReadResult) :
    C * ClockReadResult * ClockReadResult :=
  let '(clock, _, after) := o in
  let '(reading, clock) := clock_read clock in (clock, reading, after).

Definition after_slot_acquire (o : C * ClockReadResult * ClockReadResult) :
    C * ClockReadResult * ClockReadResult :=
  let '(clock, before, _) := o in
  let '(reading, clock) := clock_read clock in (clock, before, reading).

(** The common end of both captures. *)
Definition finish_capture (worker : RingWorker) (outcome : RingAttemptOutcome)
    (before after : ClockReadResult) (trace : RingDemandTrace) : RingDemandTrace * RingCaptureResult :=
  let result outcome := mkRingCaptureResult outcome (crr_status before) (crr_status after) in
  if negb (clock_ok before) || negb (clock_ok after) then
    (trace, result RingAttemptOutcome_clock_failure)
  else
    let '(trace, recorded) :=
      trace_record worker (relative_picoseconds (crr_sample before))
        (relative_picoseconds (crr_sample after)) outcome trace in
    if negb recorded then (trace, result RingAttemptOutcome_trace_failure)
    else (trace, result outcome).

Definition capture_producer_ring_demand (clock : C) (queue : RingSpscQueue) (event : Z)
    (trace : RingDemandTrace) : C * RingSpscQueue * RingDemandTrace * RingCaptureResult :=
  let '(queue, o, status) :=
    ring_try_enqueue_with_slot_demand_observer before_slot_acquire after_slot_acquire event queue
      (clock, no_reading, no_reading) in
  let '(clock, before, after) := o in
  let outcome :=
    match status with
    | EnqueueResult_accepted => RingAttemptOutcome_advanced
    | _ => RingAttemptOutcome_full
    end in
  let '(trace, result) := finish_capture RingWorker_producer outcome before after trace in
  (clock, queue, trace, result).

Definition capture_consumer_ring_demand (clock : C) (queue : RingSpscQueue) (trace : RingDemandTrace) :
    C * RingSpscQueue * RingDemandTrace * RingCaptureResult :=
  let '(queue, o, dequeued) :=
    ring_try_dequeue_with_slot_demand_observer before_slot_acquire after_slot_acquire queue
      (clock, no_reading, no_reading) in
  let '(clock, before, after) := o in
  let outcome :=
    match dr_status dequeued with
    | DequeueStatus_item => RingAttemptOutcome_advanced
    | _ => RingAttemptOutcome_empty
    end in
  let '(trace, result) := finish_capture RingWorker_consumer outcome before after trace in
  (clock, queue, trace, result).
End Capture.

(** ** Plans and evidence *)

Record RingContextKey : Set := mkRingContextKey {
  rk_placement : Placement;
  rk_working_set : WorkingSetClass
}.

Record RingStatePlan : Set := mkRingStatePlan {
  rs_hardware_state : RequestedHardwareState;
  rs_ring_off_context : StageAContext;
  rs_planned_run_ids : list Identifier
}.

Record RingContextPlan : Set := mkRingContextPlan {
  rx_key : RingContextKey;
  rx_geometry : RingGeometry;
  rx_duration_ticks : Z;
  rx_minimum_observations_per_series : Z;
  rx_states : list RingStatePlan
}.

Record RingDistancePlan : Set := mkRingDistancePlan {
  rd_record_id : string;
  rd_estimator_id : string;
  rd_seed_namespace_id : string;
  rd_assumptions : list string;
  rd_governance : CalibrationGovernance;
  rd_contexts : list RingContextPlan
}.

Record RingRunEvidence : Set := mkRingRunEvidence {
  rv_run_id : Identifier;
  rv_key : RingContextKey;
  rv_ring_off_context : StageAContext;
  rv_hardware_state : RequestedHardwareState;
  rv_stage : Stage;
  rv_run_mode : RunMode;
  rv_package : QueuePackage;
  rv_validity : CalibrationRunValidity;
  rv_interval_ticks : Z;
  rv_series : RingDemandSeries;
  rv_raw_run_artifacts : list EvidenceReference;
  rv_integrity_artifact : option EvidenceReference;
  rv_failure_artifact : option EvidenceReference
}.

Record RingRunDecision : Set := mkRingRunDecision {
  rn_run_id : Identifier;
  rn_hardware_state : RequestedHardwareState;
  rn_validity : CalibrationRunValidity;
  rn_producer_demand_p999_ticks : option Z;
  rn_consumer_demand_p999_ticks : option Z;
  rn_producer_issue_p001_ticks : option Z;
  rn_consumer_issue_p001_ticks : option Z;
  rn_raw_run_artifacts : list EvidenceReference;
  rn_integrity_artifact : option EvidenceReference;
  rn_failure_artifact : option EvidenceReference
}.

Record RingContextResult : Set := mkRingContextResult {
  ro_key : RingContextKey;
  ro_state : EvaluationState;
  ro_producer_demand_upper_ticks : option Z;
  ro_consumer_demand_upper_ticks : option Z;
  ro_producer_issue_lower_ticks : option Z;
  ro_consumer_issue_lower_ticks : option Z;
  ro_conservative_demand_ticks : option Z;
  ro_conservative_issue_ticks : option Z;
  ro_d1_slots : option Z;
  ro_d2_cache_lines : option Z;
  ro_producer_distance_slots : option Z;
  ro_consumer_distance_slots : option Z;
  ro_run_decisions : list RingRunDecision;
  ro_blockers : list string
}.

Record RingDistanceResult : Set := mkRingDistanceResult {
  rr_distance_state : EvaluationState;
  rr_contexts : list RingContextResult;
  rr_blockers : list string
}.

#[export] Instance RingContextKey_eq_dec : EqDecision RingContextKey.
Proof. solve_decision. Defined.

Definition same_ring_context_except_hardware (a b : StageAContext) : bool :=
  let same f := bool_decide (f a = f b) in
  same ctx_platform_id && same ctx_build_id && same ctx_queue_implementation_id &&
  same ctx_consumer_action_id && same ctx_placement_evidence_id && same ctx_capacity_evidence_id &&
  same ctx_working_set_evidence_id && same ctx_software_policy_id && same ctx_clock_policy_id &&
  (ctx_logical_capacity a =? ctx_logical_capacity b).

Definition ring_key_name (key : RingContextKey) : string :=
  std_to_string (placement_value (rk_placement key)) +:+ ":" +:+
  std_to_string (working_set_value (rk_working_set key)).

Definition required_ring_contexts : list RingContextKey :=
  service_placements ≫= (fun placement => mkRingContextKey placement <$> service_working_sets).

Definition expected_ring_key (key : RingContextKey) : bool :=
  bool_decide (key ∈ required_ring_contexts).

Definition all_positive (values : list Z) : bool := forallb (fun value => negb (value =? 0)) values.

(** The states of a planned context: hardware states seen, the context of the
    previous state, run identities. *)
Fixpoint check_ring_states (geometry : RingGeometry) (seen : list RequestedHardwareState)
    (common : option StageAContext) (planned : list string) (states : list RingStatePlan) :
    Result (list string) :=
  match states with
  | [] => success planned
  | state :: rest =>
      if (negb (bool_decide (rs_hardware_state state = RequestedHardwareState_h0)) &&
          negb (bool_decide (rs_hardware_state state = RequestedHardwareState_h1))) ||
         negb (valid_context (rs_ring_off_context state)) ||
         negb (ctx_logical_capacity (rs_ring_off_context state) =? rg_capacity geometry) ||
         bool_decide (rs_hardware_state state ∈ seen) then
        fail_with ErrorCategory_cross_field "$/ring_plan/contexts/states" "CAL-RING-HARDWARE-STATES"
          "ring context requires unique H0 and H1 plans"
      else if match common with
              | Some context =>
                  negb (same_ring_context_except_hardware context (rs_ring_off_context state))
              | None => false
              end then
        fail_with ErrorCategory_reference_mismatch "$/ring_plan/contexts/states/ring_off_context"
          "CAL-RING-STAGE-A-CONTEXT" "H0 and H1 must differ only by verified hardware-state evidence"
      else
        match insert_runs planned (rs_planned_run_ids state) with
        | None =>
            fail_with ErrorCategory_duplicate_value "$/ring_plan/planned_run_ids" "CAL-PLAN-RUN-UNIQUE"
              "planned run identity must be globally unique"
        | Some planned =>
            check_ring_states geometry (rs_hardware_state state :: seen)
              (Some (rs_ring_off_context state)) planned rest
        end
  end.

Fixpoint check_ring_contexts (names planned : list string) (contexts : list RingContextPlan) :
    Result (list string) :=
  match contexts with
  | [] => success planned
  | context :: rest =>
      let name := ring_key_name (rx_key context) in
      if negb (expected_ring_key (rx_key context)) || (rx_duration_ticks context =? 0) ||
         (rx_minimum_observations_per_series context =? 0) || bool_decide (name ∈ names) ||
         negb (length (rx_states context) =? 2)%nat then
        fail_with ErrorCategory_cross_field "$/ring_plan/contexts" "CAL-RING-CONTEXT-PLAN"
          "ring context is invalid or duplicated"
      else
        let* planned := check_ring_states (rx_geometry context) [] None planned (rx_states context) in
        check_ring_contexts (name :: names) planned rest
  end.

(** ** The limits of a context *)

Record RingLimits : Set := mkRingLimits {
  lim_producer_demand : option Z;
  lim_consumer_demand : option Z;
  lim_producer_issue : option Z;
  lim_consumer_issue : option Z
}.

Definition raise_limit (limit : option Z) (value : Z) : option Z :=
  match limit with
  | Some current => if value >? current then Some value else limit
  | None => Some value
  end.

Definition lower_limit (limit : option Z) (value : Z) : option Z :=
  match limit with
  | Some current => if value <? current then Some value else limit
  | None => Some value
  end.

Record RingProgress : Set := mkRingProgress {
  gp_limits : RingLimits;
  gp_decisions : list RingRunDecision;
  gp_present : Z;
  gp_valid : Z
}.

Definition ring_evidence_matches (key : RingContextKey) (context : RingContextPlan)
    (state : RingStatePlan) (evidence : RingRunEvidence) : bool :=
  bool_decide (rv_key evidence = key) &&
  bool_decide (rv_ring_off_context evidence = rs_ring_off_context state) &&
  bool_decide (rv_hardware_state evidence = rs_hardware_state state) &&
  bool_decide (rv_stage evidence = Stage_calibration) &&
  bool_decide (rv_run_mode evidence = RunMode_d2_calibration) &&
  bool_decide (rv_package evidence = QueuePackage_r0) &&
  (rv_interval_ticks evidence =? rx_duration_ticks context).

Definition ring_series_complete (minimum_count : Z) (evidence : RingRunEvidence) : bool :=
  let s := rv_series evidence in
  let enough l := negb (Z.of_nat (length l) <? minimum_count) in
  enough (producer_demand_ticks s) && enough (consumer_demand_ticks s) &&
  enough (producer_issue_ticks s) && enough (consumer_issue_ticks s) &&
  all_positive (producer_demand_ticks s) && all_positive (consumer_demand_ticks s) &&
  all_positive (producer_issue_ticks s) && all_positive (consumer_issue_ticks s) &&
  nonempty (rv_raw_run_artifacts evidence) && is_some (rv_integrity_artifact evidence).

Definition ring_decision (evidence : RingRunEvidence) (a b c d : option Z) : RingRunDecision :=
  mkRingRunDecision (rv_run_id evidence) (rv_hardware_state evidence) (rv_validity evidence) a b c d
    (rv_raw_run_artifacts evidence) (rv_integrity_artifact evidence) (rv_failure_artifact evidence).

(** The four tails of a run. *)
Definition run_tails (s : RingDemandSeries) : option (Z * Z * Z * Z) :=
  match inverse_ecdf (producer_demand_ticks s) 999 1000, inverse_ecdf (consumer_demand_ticks s) 999 1000,
        inverse_ecdf (producer_issue_ticks s) 1 1000, inverse_ecdf (consumer_issue_ticks s) 1 1000 with
  | success a, success b, success c, success d => Some (a, b, c, d)
  | _, _, _, _ => None
  end.

Definition ring_run_evidence (key : RingContextKey) (context : RingContextPlan) (state : RingStatePlan)
    (evidence : RingRunEvidence) (progress : RingProgress) : Result RingProgress :=
  if negb (ring_evidence_matches key context state evidence) then
    fail_with ErrorCategory_reference_mismatch "$/ring_runs" "CAL-RING-R0-CONTEXT"
      "ring evidence is not matching ring-off calibration evidence"
  else if negb (references_valid (rv_raw_run_artifacts evidence)) ||
          negb (optional_reference_valid (rv_integrity_artifact evidence)) ||
          negb (optional_reference_valid (rv_failure_artifact evidence)) then
    fail_with ErrorCategory_invalid_hash "$/ring_runs/artifacts" "CAL-EVIDENCE-REFERENCE"
      "evidence reference is malformed"
  else
    let present := u64_add (gp_present progress) 1 in
    match rv_validity evidence with
    | CalibrationRunValidity_invalid =>
        if negb (is_some (rv_failure_artifact evidence)) then
          fail_with ErrorCategory_missing_evidence "$/ring_runs/failure_artifact"
            "CAL-INVALID-REQUIRES-FAILURE" "invalid calibration run needs failure evidence"
        else
          success (mkRingProgress (gp_limits progress)
                     (gp_decisions progress ++ [ring_decision evidence None None None None])
                     present (gp_valid progress))
    | CalibrationRunValidity_valid =>
        if negb (ring_series_complete (rx_minimum_observations_per_series context) evidence) then
          fail_with ErrorCategory_missing_evidence "$/ring_runs/series" "CAL-RING-VALID-SERIES"
            "a run marked valid needs complete positive demand/issue series and raw integrity evidence"
        else
          match run_tails (rv_series evidence) with
          | None =>
              fail_with ErrorCategory_cross_field "$/ring_runs/series" "CAL-RING-QUANTILES"
                "ring calibration quantile failed"
          | Some (a, b, c, d) =>
              let limits := gp_limits progress in
              success
                (mkRingProgress
                   (mkRingLimits (raise_limit (lim_producer_demand limits) a)
                      (raise_limit (lim_consumer_demand limits) b)
                      (lower_limit (lim_producer_issue limits) c)
                      (lower_limit (lim_consumer_issue limits) d))
                   (gp_decisions progress ++
                    [ring_decision evidence (Some a) (Some b) (Some c) (Some d)])
                   present (u64_add (gp_valid progress) 1))
          end
    end.

Definition find_ring_run (runs : list RingRunEvidence) (id : Identifier) : option RingRunEvidence :=
  List.find (fun evidence => bool_decide (rv_run_id evidence = id)) runs.

Fixpoint ring_runs (key : RingContextKey) (context : RingContextPlan) (state : RingStatePlan)
    (runs : list RingRunEvidence) (ids : list Identifier) (progress : RingProgress) :
    Result RingProgress :=
  match ids with
  | [] => success progress
  | id :: rest =>
      match find_ring_run runs id with
      | None => ring_runs key context state runs rest progress
      | Some evidence =>
          let* progress := ring_run_evidence key context state evidence progress in
          ring_runs key context state runs rest progress
      end
  end.

(** The loop over the states: limits, decisions and blockers. *)
Fixpoint ring_states (key : RingContextKey) (context : RingContextPlan) (runs : list RingRunEvidence)
    (states : list RingStatePlan) (limits : RingLimits) (decisions : list RingRunDecision)
    (blockers : list string) : Result (RingLimits * list RingRunDecision * list string) :=
  match states with
  | [] => success (limits, decisions, blockers)
  | state :: rest =>
      let* gathered := ring_runs key context state runs (rs_planned_run_ids state)
                         (mkRingProgress limits decisions 0 0) in
      ring_states key context runs rest (gp_limits gathered) (gp_decisions gathered)
        (blockers ++
         (if negb (gp_present gathered =? Z.of_nat (length (rs_planned_run_ids state)))
          then ["prospective H-state run plan is incomplete"] else []) ++
         (if gp_valid gathered <? kMinimumValidIndependentRuns
          then ["H-state has fewer than 59 valid independent runs"] else []))
  end.

(** ** The distance *)

(** State, d1 slots, d2 lines, d2 slots and blockers of a geometry. *)
Definition ring_distance (geometry : RingGeometry) (demand issue : Z) :
    EvaluationState * option Z * option Z * option Z * list string :=
  if (rg_capacity geometry =? 0) || (rg_cache_line_bytes geometry =? 0) ||
     (rg_slot_bytes geometry =? 0) then
    (EvaluationState_ineligible, None, None, None, ["ring geometry is incomplete"])
  else
    let failed := (EvaluationState_ineligible, None, None, None, ["distance arithmetic failed"]) in
    match checked_ceil_divide (rg_cache_line_bytes geometry) (rg_slot_bytes geometry) with
    | None => failed
    | Some d1 =>
        match checked_ceil_divide demand issue with
        | None => failed
        | Some raw_slots =>
            match checked_ceil_divide raw_slots d1 with
            | None => failed
            | Some raw_lines =>
                let cap_lines := (rg_capacity geometry / 4) / d1 in
                let d2_lines := Z.min (Z.max 2 raw_lines) cap_lines in
                let collapsed :=
                  (EvaluationState_ineligible, Some d1, None, None,
                   ["one-quarter cap collapses d2 to d1 or below two lines"]) in
                if cap_lines <? 2 then collapsed
                else
                  match cal_checked_multiply d2_lines d1 with
                  | None => collapsed
                  | Some d2 =>
                      if d2 <=? d1 then collapsed
                      else (EvaluationState_resolved, Some d1, Some d2_lines, Some d2, [])
                  end
            end
        end
    end.

Definition find_ring_context (plan : RingDistancePlan) (key : RingContextKey) : option RingContextPlan :=
  List.find (fun context => bool_decide (rx_key context = key)) (rd_contexts plan).

Definition unevaluated_context (key : RingContextKey) (decisions : list RingRunDecision)
    (blockers : list string) : RingContextResult :=
  mkRingContextResult key EvaluationState_not_evaluated None None None None None None None None None None
    decisions blockers.

(** One required context, after the state and the blockers of the whole. *)
Definition ring_context (plan : RingDistancePlan) (runs : list RingRunEvidence) (key : RingContextKey)
    (result : RingDistanceResult) : Result RingDistanceResult :=
  let name := ring_key_name key in
  match find_ring_context plan key with
  | None =>
      success (mkRingDistanceResult EvaluationState_not_evaluated
                 (rr_contexts result ++
                  [unevaluated_context key [] ["context absent from prospective plan"]])
                 (rr_blockers result ++ ["missing required ring context " +:+ name]))
  | Some context =>
      let* gathered :=
        ring_states key context runs (rx_states context) (mkRingLimits None None None None) [] [] in
      let '(limits, decisions, blockers) := gathered in
      match blockers, lim_producer_demand limits, lim_consumer_demand limits,
            lim_producer_issue limits, lim_consumer_issue limits with
      | [], Some producer_demand, Some consumer_demand, Some producer_issue, Some consumer_issue =>
          let demand := Z.max producer_demand consumer_demand in
          let issue := Z.min producer_issue consumer_issue in
          let '(state, d1, d2_lines, d2, blockers) := ring_distance (rx_geometry context) demand issue in
          let evaluated :=
            mkRingContextResult key state (Some producer_demand) (Some consumer_demand)
              (Some producer_issue) (Some consumer_issue) (Some demand) (Some issue) d1 d2_lines d2 d2
              decisions blockers in
          let ineligible := bool_decide (state = EvaluationState_ineligible) in
          success (mkRingDistanceResult
                     (if ineligible then EvaluationState_ineligible else rr_distance_state result)
                     (rr_contexts result ++ [evaluated])
                     (rr_blockers result ++
                      (if ineligible then ["ineligible ring context " +:+ name] else [])))
      | _, _, _, _, _ =>
          success (mkRingDistanceResult EvaluationState_not_evaluated
                     (rr_contexts result ++ [unevaluated_context key decisions blockers])
                     (rr_blockers result ++ ["unresolved ring context " +:+ name]))
      end
  end.

Fixpoint ring_contexts (plan : RingDistancePlan) (runs : list RingRunEvidence)
    (keys : list RingContextKey) (result : RingDistanceResult) : Result RingDistanceResult :=
  match keys with
  | [] => success result
  | key :: rest =>
      let* result := ring_context plan runs key result in
      ring_contexts plan runs rest result
  end.

Definition evaluate_ring_distance (plan : RingDistancePlan) (runs : list RingRunEvidence) :
    Result RingDistanceResult :=
  if negb (plan_identity_valid (rd_record_id plan) (rd_seed_namespace_id plan) (rd_estimator_id plan)
             kRingDistanceMethodId (rd_assumptions plan) (rd_governance plan)) then
    fail_with ErrorCategory_missing_field "$/ring_plan" "CAL-RING-PLAN-IDENTITY"
      "plan requires explicit identity, namespace, and accepted estimator"
  else
    let* planned := check_ring_contexts [] [] (rd_contexts plan) in
    let* _ := check_present "$/ring_runs/run_id" planned [] (rv_run_id <$> runs) in
    let* result := ring_contexts plan runs required_ring_contexts
      (mkRingDistanceResult EvaluationState_resolved [] []) in
    let exact := Z.of_nat (length (rd_contexts plan)) =? kRequiredRingContextCount in
    success
      (if exact then result
       else mkRingDistanceResult EvaluationState_not_evaluated (rr_contexts result)
              (rr_blockers result ++ ["ring plan is not the exact six-context product"])).

(** ** The trace is exact *)

Record RingAttempt : Set := mkRingAttempt {
  at_worker : RingWorker;
  at_start : Z;
  at_end : Z;
  at_outcome : RingAttemptOutcome
}.

(** A history of [record] calls, with the value each returned. *)
Fixpoint trace_run (attempts : list RingAttempt) (trace : RingDemandTrace) :
    RingDemandTrace * list RingAttempt :=
  match attempts with
  | [] => (trace, [])
  | attempt :: rest =>
      let '(trace, recorded) :=
        trace_record (at_worker attempt) (at_start attempt) (at_end attempt) (at_outcome attempt) trace in
      let '(trace, accepted) := trace_run rest trace in
      (trace, if recorded then attempt :: accepted else accepted)
  end.

Definition of_worker (worker : RingWorker) (attempts : list RingAttempt) : list RingAttempt :=
  filter (fun attempt => at_worker attempt = worker) attempts.

Definition of_outcome (outcome : RingAttemptOutcome) (attempts : list RingAttempt) : list RingAttempt :=
  filter (fun attempt => at_outcome attempt = outcome) attempts.

Definition demand_ticks (worker : RingWorker) (attempts : list RingAttempt) : list Z :=
  (fun attempt => at_end attempt - at_start attempt) <$> of_worker worker attempts.

Definition advance_starts (worker : RingWorker) (attempts : list RingAttempt) : list Z :=
  at_start <$> of_outcome RingAttemptOutcome_advanced (of_worker worker attempts).

Definition gaps (starts : list Z) : list Z :=
  zip_with (fun before after => after - before) starts (tail starts).

Definition attempt_u64 (attempt : RingAttempt) : Prop :=
  is_u64 (at_start attempt) /\ is_u64 (at_end attempt).

Record TraceOf (max : Z) (accepted : list RingAttempt) (trace : RingDemandTrace) : Prop := {
  to_max : max_attempts_per_worker trace = max;
  to_ok : Forall attempt_u64 accepted;
  to_demand : forall worker, demand_of worker trace = demand_ticks worker accepted;
  to_issue : forall worker, issue_of worker trace = gaps (advance_starts worker accepted);
  to_previous : forall worker, previous_of worker trace = last (advance_starts worker accepted);
  to_order : forall worker, StronglySorted Z.le (advance_starts worker accepted);
  to_full : producer_full_count (rt_series trace) =
            Z.of_nat (length (of_outcome RingAttemptOutcome_full accepted));
  to_empty : consumer_empty_count (rt_series trace) =
             Z.of_nat (length (of_outcome RingAttemptOutcome_empty accepted));
  to_full_side : forall attempt, attempt ∈ accepted -> at_outcome attempt = RingAttemptOutcome_full ->
                 at_worker attempt = RingWorker_producer;
  to_empty_side : forall attempt, attempt ∈ accepted -> at_outcome attempt = RingAttemptOutcome_empty ->
                  at_worker attempt = RingWorker_consumer;
  to_size : forall worker, Z.of_nat (length (demand_of worker trace)) <= max
}.

Lemma filter_snoc {A} (P : A -> Prop) `{!forall x, Decision (P x)} (l : list A) (x : A) :
  filter P (l ++ [x]) = filter P l ++ (if decide (P x) then [x] else []).
Proof. by rewrite filter_app. Qed.

Lemma gaps_snoc (starts : list Z) (x : Z) :
  gaps (starts ++ [x]) = gaps starts ++ match last starts with Some p => [x - p] | None => [] end.
Proof.
  unfold gaps. induction starts as [ | a [ | b rest ] IH]; [done | done | ].
  change (last (a :: b :: rest)) with (last (b :: rest)).
  cbn [app tail] in *. cbn [zip_with]. rewrite <- app_comm_cons. f_equal. exact IH.
Qed.

Lemma sorted_snoc (l : list Z) (x : Z) :
  StronglySorted Z.le l -> (forall p, last l = Some p -> p <= x) -> StronglySorted Z.le (l ++ [x]).
Proof.
  induction l as [ | a rest IH]; intros S Hx; [repeat constructor | ].
  apply StronglySorted_inv in S as [S F]. cbn [app]. constructor.
  - apply IH; [done | ]. intros p Hp. apply Hx. by destruct rest.
  - apply Forall_app. split; [done | ]. repeat constructor.
    destruct rest as [ | b rest]; [exact (Hx a eq_refl) | ].
    assert (L : exists p, last (b :: rest) = Some p).
    { destruct (last (b :: rest)) eqn:E; [eauto | ]. by apply last_None in E. }
    destruct L as [p L]. transitivity p.
    + rewrite Forall_forall in F. apply F. by apply last_Some_elem_of.
    + exact (Hx p L).
Qed.

Lemma demand_ticks_snoc worker accepted attempt :
  demand_ticks worker (accepted ++ [attempt]) =
  demand_ticks worker accepted ++
  (if decide (at_worker attempt = worker) then [at_end attempt - at_start attempt] else []).
Proof.
  unfold demand_ticks, of_worker. rewrite filter_snoc, fmap_app. by destruct (decide _).
Qed.

Lemma advance_starts_snoc worker accepted attempt :
  advance_starts worker (accepted ++ [attempt]) =
  advance_starts worker accepted ++
  (if decide (at_worker attempt = worker /\ at_outcome attempt = RingAttemptOutcome_advanced)
   then [at_start attempt] else []).
Proof.
  unfold advance_starts, of_worker, of_outcome. rewrite filter_snoc, filter_app, fmap_app. f_equal.
  destruct (decide (at_worker attempt = worker)) as [E | E].
  - rewrite filter_cons, filter_nil. repeat case_decide; naive_solver.
  - rewrite filter_nil. case_decide; naive_solver.
Qed.

Lemma of_outcome_snoc outcome accepted attempt :
  Z.of_nat (length (of_outcome outcome (accepted ++ [attempt]))) =
  Z.of_nat (length (of_outcome outcome accepted)) + (if decide (at_outcome attempt = outcome) then 1 else 0).
Proof. unfold of_outcome. rewrite filter_snoc, length_app. case_decide; cbn [length]; lia. Qed.

(** An outcome belongs to one worker's series, so the counters never outgrow it. *)
Lemma outcome_count_bound outcome worker accepted :
  (forall attempt, attempt ∈ accepted -> at_outcome attempt = outcome -> at_worker attempt = worker) ->
  (length (of_outcome outcome accepted) <= length (demand_ticks worker accepted))%nat.
Proof.
  intros H. unfold demand_ticks, of_outcome, of_worker. rewrite length_fmap.
  induction accepted as [ | a rest IH]; [done | ].
  assert (IH' := IH (fun x Hx => H x (proj2 (elem_of_cons rest x a) (or_intror Hx)))).
  specialize (H a (proj2 (elem_of_cons rest a a) (or_introl eq_refl))).
  rewrite !filter_cons. repeat case_decide; cbn [length]; try lia. exfalso; auto.
Qed.

(** What an accepted [record] has checked and done. *)
Definition recorded_trace (attempt : RingAttempt) (trace : RingDemandTrace) : RingDemandTrace :=
  let pushed := push_demand (at_worker attempt) (u64_sub (at_end attempt) (at_start attempt)) trace in
  match at_outcome attempt with
  | RingAttemptOutcome_full => count_full pushed
  | RingAttemptOutcome_empty => count_empty pushed
  | _ => push_advance (at_worker attempt) (at_start attempt) pushed
  end.

Lemma trace_record_view attempt trace trace' recorded :
  trace_record (at_worker attempt) (at_start attempt) (at_end attempt) (at_outcome attempt) trace =
    (trace', recorded) ->
  (recorded = false /\ trace' = trace) \/
  (recorded = true /\ trace' = recorded_trace attempt trace /\ at_start attempt <= at_end attempt /\
   at_outcome attempt ∈ [RingAttemptOutcome_advanced; RingAttemptOutcome_full; RingAttemptOutcome_empty] /\
   (at_outcome attempt = RingAttemptOutcome_full -> at_worker attempt = RingWorker_producer) /\
   (at_outcome attempt = RingAttemptOutcome_empty -> at_worker attempt = RingWorker_consumer) /\
   Z.of_nat (length (demand_of (at_worker attempt) trace)) < max_attempts_per_worker trace /\
   (at_outcome attempt = RingAttemptOutcome_advanced ->
    forall p, previous_of (at_worker attempt) trace = Some p -> p <= at_start attempt)).
Proof.
  unfold trace_record, recorded_trace. intros H.
  destruct (at_end attempt <? at_start attempt) eqn:E1;
    [rewrite !orb_true_r in H; cbn in H; left; by injection H as <- <- | ].
  destruct (_ >=? _) eqn:E2 in H.
  { left. destruct (at_outcome attempt), (at_worker attempt); cbn in H; by injection H as <- <-. }
  apply Z.ltb_ge in E1. rewrite Z.geb_leb in E2. apply Z.leb_gt in E2.
  destruct (at_outcome attempt) eqn:O; [ | | | cbn in H; left; by injection H as <- <- ..].
  all: destruct (at_worker attempt) eqn:W; cbn [bool_decide orb andb negb] in H;
    cbn -[previous_of issue_of push_advance push_demand count_full count_empty] in H.
  all: try (left; by injection H as <- <-).
  all: try (right; injection H as <- <-; repeat (split; [set_solver || done | ]); done).
  all: destruct (previous_of _ trace) as [p | ] eqn:P; cbn [is_some andb] in H.
  all: repeat destr_in H; try (left; by injection H as <- <-).
  all: right; injection H as <- <-; repeat (split; [set_solver || done | ]); intros _ q Q; try done.
  all: injection Q as <-; rewrite bool_decide_eq_true_2 in Heqb2 by done; cbn in Heqb2; lia.
Qed.

Lemma demand_of_recorded attempt trace worker :
  demand_of worker (recorded_trace attempt trace) =
  demand_of worker trace ++
  (if decide (at_worker attempt = worker)
   then [u64_sub (at_end attempt) (at_start attempt)] else []).
Proof.
  unfold recorded_trace.
  by destruct (at_outcome attempt), (at_worker attempt), worker; cbn; rewrite ?app_nil_r.
Qed.

Lemma issue_of_recorded attempt trace worker :
  at_outcome attempt ∈ [RingAttemptOutcome_advanced; RingAttemptOutcome_full; RingAttemptOutcome_empty] ->
  issue_of worker (recorded_trace attempt trace) =
  issue_of worker trace ++
  (if decide (at_worker attempt = worker /\ at_outcome attempt = RingAttemptOutcome_advanced)
   then match previous_of worker trace with
        | Some p => [u64_sub (at_start attempt) p] | None => [] end
   else []).
Proof.
  unfold recorded_trace. intros O.
  destruct (at_outcome attempt), (at_worker attempt), worker; case_decide; try set_solver;
    cbn; by rewrite ?app_nil_r.
Qed.

Lemma previous_of_recorded attempt trace worker :
  at_outcome attempt ∈ [RingAttemptOutcome_advanced; RingAttemptOutcome_full; RingAttemptOutcome_empty] ->
  previous_of worker (recorded_trace attempt trace) =
  (if decide (at_worker attempt = worker /\ at_outcome attempt = RingAttemptOutcome_advanced)
   then Some (at_start attempt) else previous_of worker trace).
Proof.
  unfold recorded_trace. intros O.
  destruct (at_outcome attempt), (at_worker attempt), worker; case_decide; try set_solver; done.
Qed.

Lemma counts_recorded attempt trace :
  at_outcome attempt ∈ [RingAttemptOutcome_advanced; RingAttemptOutcome_full; RingAttemptOutcome_empty] ->
  producer_full_count (rt_series (recorded_trace attempt trace)) =
    (if decide (at_outcome attempt = RingAttemptOutcome_full)
     then u64_add (producer_full_count (rt_series trace)) 1 else producer_full_count (rt_series trace)) /\
  consumer_empty_count (rt_series (recorded_trace attempt trace)) =
    (if decide (at_outcome attempt = RingAttemptOutcome_empty)
     then u64_add (consumer_empty_count (rt_series trace)) 1 else consumer_empty_count (rt_series trace)) /\
  max_attempts_per_worker (recorded_trace attempt trace) = max_attempts_per_worker trace.
Proof. unfold recorded_trace. by destruct (at_outcome attempt), (at_worker attempt). Qed.

Lemma trace_of_recorded max accepted trace attempt :
  max <= u64_max -> attempt_u64 attempt -> TraceOf max accepted trace ->
  at_start attempt <= at_end attempt ->
  at_outcome attempt ∈ [RingAttemptOutcome_advanced; RingAttemptOutcome_full; RingAttemptOutcome_empty] ->
  (at_outcome attempt = RingAttemptOutcome_full -> at_worker attempt = RingWorker_producer) ->
  (at_outcome attempt = RingAttemptOutcome_empty -> at_worker attempt = RingWorker_consumer) ->
  Z.of_nat (length (demand_of (at_worker attempt) trace)) < max ->
  (at_outcome attempt = RingAttemptOutcome_advanced ->
   forall p, previous_of (at_worker attempt) trace = Some p -> p <= at_start attempt) ->
  TraceOf max (accepted ++ [attempt]) (recorded_trace attempt trace).
Proof.
  intros Hmax [U1 U2] T Hle O Hf He Hs Hp. destruct (counts_recorded attempt trace O) as (C1 & C2 & C3).
  pose proof (to_size _ _ _ T RingWorker_producer) as S1.
  pose proof (to_size _ _ _ T RingWorker_consumer) as S2.
  rewrite (to_demand _ _ _ T) in S1, S2.
  pose proof (outcome_count_bound _ _ _ (to_full_side _ _ _ T)) as B1.
  pose proof (outcome_count_bound _ _ _ (to_empty_side _ _ _ T)) as B2.
  split.
  - rewrite C3. apply T.
  - apply Forall_app. split; [apply T | by apply Forall_singleton].
  - intros w. rewrite demand_of_recorded, demand_ticks_snoc, (to_demand _ _ _ T).
    by rewrite u64_sub_small by int_lia.
  - intros w. rewrite issue_of_recorded, advance_starts_snoc, (to_issue _ _ _ T) by done.
    destruct (decide (at_worker attempt = w /\ _)) as [D | D]; [ | by rewrite !app_nil_r].
    destruct D as [<- D].
    rewrite gaps_snoc, <- (to_previous _ _ _ T). f_equal.
    destruct (previous_of _ trace) as [p | ] eqn:P; [ | done]. f_equal.
    assert (is_u64 p) as Up.
    { rewrite (to_previous _ _ _ T) in P. apply last_Some_elem_of in P. unfold advance_starts in P.
      apply list_elem_of_fmap in P as (a & -> & Ha). unfold of_outcome, of_worker in Ha.
      apply list_elem_of_filter in Ha as [_ Ha]. apply list_elem_of_filter in Ha as [_ Ha].
      pose proof (to_ok _ _ _ T) as F. rewrite Forall_forall in F. by apply F. }
    specialize (Hp D p eq_refl). rewrite u64_sub_small by int_lia. done.
  - intros w. rewrite previous_of_recorded, advance_starts_snoc by done.
    destruct (decide (at_worker attempt = w /\ _)) as [D | D]; [by rewrite last_snoc | by rewrite app_nil_r, (to_previous _ _ _ T)].
  - intros w. rewrite advance_starts_snoc.
    destruct (decide (at_worker attempt = w /\ _)) as [D | D]; [ | rewrite app_nil_r; apply T].
    destruct D as [<- D]. apply sorted_snoc; [apply T | ].
    rewrite <- (to_previous _ _ _ T). auto.
  - rewrite C1, of_outcome_snoc, (to_full _ _ _ T).
    destruct (decide (at_outcome attempt = RingAttemptOutcome_full)) as [D | D]; [ | lia].
    rewrite (Hf D), (to_demand _ _ _ T) in Hs. apply u64_add_small. lia.
  - rewrite C2, of_outcome_snoc, (to_empty _ _ _ T).
    destruct (decide (at_outcome attempt = RingAttemptOutcome_empty)) as [D | D]; [ | lia].
    rewrite (He D), (to_demand _ _ _ T) in Hs. apply u64_add_small. lia.
  - intros a [Ha | ->%list_elem_of_singleton]%elem_of_app; [by apply T | done].
  - intros a [Ha | ->%list_elem_of_singleton]%elem_of_app; [by apply T | done].
  - intros w. rewrite demand_of_recorded, length_app. pose proof (to_size _ _ _ T w).
    destruct (decide (at_worker attempt = w)) as [D | D]; [subst w | ]; cbn [length]; lia.
Qed.

Lemma trace_of_run max accepted trace attempts :
  max <= u64_max -> Forall attempt_u64 attempts -> TraceOf max accepted trace ->
  TraceOf max (accepted ++ (trace_run attempts trace).2) (trace_run attempts trace).1.
Proof.
  intros Hmax. revert accepted trace. induction attempts as [ | a rest IH]; intros acc t F T.
  { by rewrite app_nil_r. }
  apply Forall_cons in F as [Fa F]. cbn [trace_run].
  destruct (trace_record _ _ _ _ t) as [t' recorded] eqn:E.
  apply trace_record_view in E as [[-> ->] | (-> & -> & H1 & H2 & H3 & H4 & H5 & H6)].
  - specialize (IH acc t F T). by destruct (trace_run rest t).
  - rewrite (to_max _ _ _ T) in H5.
    specialize (IH _ _ F (trace_of_recorded _ _ _ _ Hmax Fa T H1 H2 H3 H4 H5 H6)).
    destruct (trace_run rest _). cbn in *. by rewrite <- app_assoc in IH.
Qed.

Lemma of_outcome_side outcome worker accepted :
  (forall attempt, attempt ∈ accepted -> at_outcome attempt = outcome -> at_worker attempt = worker) ->
  of_outcome outcome (of_worker worker accepted) = of_outcome outcome accepted.
Proof.
  unfold of_outcome, of_worker. induction accepted as [ | a rest IH]; intros H; [done | ].
  assert (IH' := IH (fun x Hx => H x (proj2 (elem_of_cons rest x a) (or_intror Hx)))).
  specialize (H a (proj2 (elem_of_cons rest a a) (or_introl eq_refl))). rewrite (filter_cons _ a rest).
  destruct (decide (at_worker a = worker)); rewrite !filter_cons, IH'; [done | ].
  by rewrite decide_False by naive_solver.
Qed.

(** A ring demand trace records exactly the attempts it accepts, for every history of
    [record] calls of both workers in any interleaving. Per worker, the demand series is the
    duration of each accepted attempt in order, the issue series is the gap between the
    starts of successive accepted advances, and those starts never decrease; the full and
    empty counters count the accepted attempts with that outcome, which come only from the
    producer and only from the consumer; and no demand series outgrows the capacity given at
    construction. No subtraction or counter wraps. *)
Theorem ring_trace_exact max attempts trace :
  RingDemandTrace_make max = Returned trace -> is_u64 max -> Forall attempt_u64 attempts ->
  let '(final, accepted) := trace_run attempts trace in
  (forall worker,
     demand_of worker final = demand_ticks worker accepted /\
     issue_of worker final = gaps (advance_starts worker accepted) /\
     StronglySorted Z.le (advance_starts worker accepted) /\
     Z.of_nat (length (demand_of worker final)) <= max) /\
  producer_full_count (rt_series final) =
    Z.of_nat (length (of_outcome RingAttemptOutcome_full (of_worker RingWorker_producer accepted))) /\
  consumer_empty_count (rt_series final) =
    Z.of_nat (length (of_outcome RingAttemptOutcome_empty (of_worker RingWorker_consumer accepted))).
Proof.
  unfold RingDemandTrace_make. intros M Hmax F. destruct (max =? 0) eqn:Z0; [done | ].
  injection M as <-.
  pose proof (trace_of_run max [] (mkRingDemandTrace (mkRingDemandSeries [] [] [] [] 0 0) None None max)
                attempts ltac:(int_lia) F) as T.
  destruct (trace_run attempts _) as [final accepted]. cbn [app fst snd] in T.
  assert (TraceOf max accepted final) as T'.
  { apply T. split; try done; try (by constructor); try (by intros []); try (by intros a Ha%elem_of_nil).
    all: intros []; cbn; first [constructor | int_lia]. }
  clear T.
  split; [intros w; repeat split; by apply T' | ].
  rewrite (of_outcome_side _ _ _ (to_full_side _ _ _ T')), (of_outcome_side _ _ _ (to_empty_side _ _ _ T')).
  split; apply T'.
Qed.

Lemma ring_trace_exact_witness :
  let attempts :=
    [mkRingAttempt RingWorker_producer 10 15 RingAttemptOutcome_advanced;
     mkRingAttempt RingWorker_consumer 12 13 RingAttemptOutcome_empty;
     mkRingAttempt RingWorker_producer 20 21 RingAttemptOutcome_full;
     mkRingAttempt RingWorker_producer 5 6 RingAttemptOutcome_advanced;
     mkRingAttempt RingWorker_producer 30 34 RingAttemptOutcome_advanced;
     mkRingAttempt RingWorker_producer 40 41 RingAttemptOutcome_advanced] in
  let trace := mkRingDemandTrace (mkRingDemandSeries [] [] [] [] 0 0) None None 3 in
  (trace_run attempts trace).1 =
    mkRingDemandTrace (mkRingDemandSeries [5; 1; 4] [1] [20] [] 1 1) (Some 30) None 3 /\
  demand_of RingWorker_producer (trace_run attempts trace).1 =
    demand_ticks RingWorker_producer (trace_run attempts trace).2.
Proof.
  intros attempts trace. split; [vm_compute; reflexivity | ].
  assert (F : Forall attempt_u64 attempts) by (repeat constructor; cbn; int_lia).
  pose proof (ring_trace_exact 3 attempts trace eq_refl ltac:(int_lia) F) as H.
  destruct (trace_run attempts trace) as [final accepted]. apply H.
Defined.

(** ** The distance is exact *)

Definition is_ceil (a b c : Z) : Prop := (c - 1) * b < a <= c * b.

(** The largest of the values of [upper] and the smallest of those of [lower]. *)
Definition is_maximum (values : list Z) (m : Z) : Prop := m ∈ values /\ forall v, v ∈ values -> v <= m.
Definition is_minimum (values : list Z) (m : Z) : Prop := m ∈ values /\ forall v, v ∈ values -> m <= v.

Definition series_u64 (evidence : RingRunEvidence) : Prop :=
  let s := rv_series evidence in
  Forall is_u64 (producer_demand_ticks s) /\ Forall is_u64 (consumer_demand_ticks s) /\
  Forall is_u64 (producer_issue_ticks s) /\ Forall is_u64 (consumer_issue_ticks s).

Definition geometry_u64 (context : RingContextPlan) : Prop :=
  let g := rx_geometry context in
  is_u64 (rg_capacity g) /\ is_u64 (rg_cache_line_bytes g) /\ is_u64 (rg_slot_bytes g).

(** A decision on a run: its tails are the quantiles of its series, when it is valid. *)
Definition decides (runs : list RingRunEvidence) (decision : RingRunDecision) : Prop :=
  exists evidence, evidence ∈ runs /\ rv_run_id evidence = rn_run_id decision /\
    rv_validity evidence = rn_validity decision /\
    match rn_validity decision with
    | CalibrationRunValidity_valid =>
        exists a b c d, run_tails (rv_series evidence) = Some (a, b, c, d) /\
          decision = ring_decision evidence (Some a) (Some b) (Some c) (Some d)
    | CalibrationRunValidity_invalid => decision = ring_decision evidence None None None None
    end.

Definition valid_decisions (decisions : list RingRunDecision) : list RingRunDecision :=
  filter (fun decision => rn_validity decision = CalibrationRunValidity_valid) decisions.

(** The decisions on one hardware state: every planned run, in order, 59 of them valid. *)
Definition state_decided (state : RingStatePlan) (decisions : list RingRunDecision) : Prop :=
  rn_run_id <$> decisions = rs_planned_run_ids state /\
  kMinimumValidIndependentRuns <= Z.of_nat (length (valid_decisions decisions)).

Definition demand_tails (decisions : list RingRunDecision) : list Z :=
  omap rn_producer_demand_p999_ticks decisions ++ omap rn_consumer_demand_p999_ticks decisions.

Definition issue_tails (decisions : list RingRunDecision) : list Z :=
  omap rn_producer_issue_p001_ticks decisions ++ omap rn_consumer_issue_p001_ticks decisions.

Definition bound_of (P : list Z -> Z -> Prop) (values : list Z) (limit : option Z) : Prop :=
  match limit with Some m => P values m | None => values = [] end.

Definition limits_of (decisions : list RingRunDecision) (limits : RingLimits) : Prop :=
  bound_of is_maximum (omap rn_producer_demand_p999_ticks decisions) (lim_producer_demand limits) /\
  bound_of is_maximum (omap rn_consumer_demand_p999_ticks decisions) (lim_consumer_demand limits) /\
  bound_of is_minimum (omap rn_producer_issue_p001_ticks decisions) (lim_producer_issue limits) /\
  bound_of is_minimum (omap rn_consumer_issue_p001_ticks decisions) (lim_consumer_issue limits).

Lemma raise_limit_bound values limit v :
  bound_of is_maximum values limit -> bound_of is_maximum (values ++ [v]) (raise_limit limit v).
Proof.
  unfold bound_of, raise_limit, is_maximum. destruct limit as [m | ].
  - intros [Hm Hle]. destruct (v >? m) eqn:E; (split; [set_solver | ]); intros w [Hw | Hw]%elem_of_app;
      try apply list_elem_of_singleton in Hw as ->; try specialize (Hle w Hw); lia.
  - intros ->. split; [set_solver | ]. intros w Hw%list_elem_of_singleton. lia.
Qed.

Lemma lower_limit_bound values limit v :
  bound_of is_minimum values limit -> bound_of is_minimum (values ++ [v]) (lower_limit limit v).
Proof.
  unfold bound_of, lower_limit, is_minimum. destruct limit as [m | ].
  - intros [Hm Hle]. destruct (v <? m) eqn:E; (split; [set_solver | ]); intros w [Hw | Hw]%elem_of_app;
      try apply list_elem_of_singleton in Hw as ->; try specialize (Hle w Hw); lia.
  - intros ->. split; [set_solver | ]. intros w Hw%list_elem_of_singleton. lia.
Qed.

Lemma limits_of_snoc decisions limits evidence a b c d :
  limits_of decisions limits ->
  limits_of (decisions ++ [ring_decision evidence (Some a) (Some b) (Some c) (Some d)])
    (mkRingLimits (raise_limit (lim_producer_demand limits) a) (raise_limit (lim_consumer_demand limits) b)
       (lower_limit (lim_producer_issue limits) c) (lower_limit (lim_consumer_issue limits) d)).
Proof.
  intros (H1 & H2 & H3 & H4). unfold limits_of. rewrite !omap_app.
  split_and!; by (apply raise_limit_bound || apply lower_limit_bound).
Qed.

Lemma limits_of_skip decisions limits evidence :
  limits_of decisions limits -> limits_of (decisions ++ [ring_decision evidence None None None None]) limits.
Proof. unfold limits_of. rewrite !omap_app. cbn. by rewrite !app_nil_r. Qed.

(** One run with evidence adds one decision. *)
Lemma ring_run_evidence_ok key context state evidence runs progress progress' :
  evidence ∈ runs -> limits_of (gp_decisions progress) (gp_limits progress) ->
  ring_run_evidence key context state evidence progress = success progress' ->
  exists decision, gp_decisions progress' = gp_decisions progress ++ [decision] /\
    decides runs decision /\ rn_run_id decision = rv_run_id evidence /\
    limits_of (gp_decisions progress') (gp_limits progress') /\
    gp_present progress' = u64_add (gp_present progress) 1 /\
    gp_valid progress' = (if decide (rn_validity decision = CalibrationRunValidity_valid)
                          then u64_add (gp_valid progress) 1 else gp_valid progress).
Proof.
  intros I L H. unfold ring_run_evidence in H. destruct (negb _) in H; [done | ].
  destruct (_ || _) in H; [done | ]. destruct (rv_validity evidence) eqn:V.
  - destruct (negb _) in H; [done | ].
    destruct (run_tails _) as [[[[a b] c] d] | ] eqn:T in H; [ | done]. injection H as <-.
    eexists. split; [done | ]. split.
    { exists evidence. unfold ring_decision at 1 2 3. cbn. rewrite V. split_and!; try done. by exists a, b, c, d. }
    split; [done | ]. split; [by apply limits_of_snoc | ]. cbn. by rewrite V.
  - destruct (negb _) in H; [done | ]. injection H as <-.
    eexists. split; [done | ]. split.
    { exists evidence. unfold ring_decision at 1 2 3. cbn. by rewrite V. }
    split; [done | ]. split; [by apply limits_of_skip | ]. cbn. by rewrite V.
Qed.

Lemma u64_wrap_succ n : u64_add (u64_wrap n) 1 = u64_wrap (n + 1).
Proof. unfold u64_add, u64_wrap. by rewrite Zplus_mod_idemp_l. Qed.

Lemma ring_runs_ok key context state runs ids progress progress' done_runs done_valid :
  limits_of (gp_decisions progress) (gp_limits progress) ->
  gp_present progress = u64_wrap done_runs -> gp_valid progress = u64_wrap done_valid ->
  ring_runs key context state runs ids progress = success progress' ->
  exists decisions, gp_decisions progress' = gp_decisions progress ++ decisions /\
    Forall (decides runs) decisions /\ rn_run_id <$> decisions `sublist_of` ids /\
    limits_of (gp_decisions progress') (gp_limits progress') /\
    gp_present progress' = u64_wrap (done_runs + Z.of_nat (length decisions)) /\
    gp_valid progress' = u64_wrap (done_valid + Z.of_nat (length (valid_decisions decisions))).
Proof.
  revert progress done_runs done_valid. induction ids as [ | id rest IH]; intros p n v L P V H; cbn in H.
  { injection H as <-. exists []. cbn. rewrite app_nil_r, !Z.add_0_r.
    split_and!; [done | by constructor | by constructor | done..]. }
  destruct (find_ring_run runs id) as [e | ] eqn:F.
  2: { destruct (IH _ _ _ L P V H) as (ds & D1 & D2 & D3 & D4). exists ds.
       split; [done | ]. split; [done | ]. split; [by constructor | done]. }
  destruct (ring_run_evidence _ _ _ e p) as [p1 | ] eqn:E; cbn [rbind] in H; [ | done].
  apply find_some in F as [Fi Fe]. apply bool_decide_eq_true in Fe. apply list_elem_of_In in Fi.
  destruct (ring_run_evidence_ok _ _ _ _ _ _ _ Fi L E) as (d & D1 & D2 & D3 & D4 & D5 & D6).
  rewrite P, u64_wrap_succ in D5.
  assert (gp_valid p1 = u64_wrap (v + Z.of_nat (length (valid_decisions [d])))) as D6'.
  { rewrite D6, V. unfold valid_decisions. rewrite filter_cons, filter_nil.
    destruct (decide _); cbn [length]; [apply u64_wrap_succ | by rewrite Z.add_0_r]. }
  destruct (IH _ _ _ D4 D5 D6' H) as (ds & X1 & X2 & X3 & X4 & X5 & X6).
  exists (d :: ds). split; [by rewrite X1, D1, <- app_assoc | ]. split; [by constructor | ].
  split; [rewrite fmap_cons, D3, Fe; by constructor | ]. split; [done | ].
  split; [rewrite X5; f_equal; cbn [length]; lia | ].
  rewrite X6. f_equal. change (d :: ds) with ([d] ++ ds). unfold valid_decisions.
  rewrite filter_app, length_app. lia.
Qed.

Lemma u64_wrap_le n : 0 <= n -> u64_wrap n <= n.
Proof. intros. apply Z.mod_le; [done | int_lia]. Qed.

Lemma sublist_whole {A} (l k : list A) : l `sublist_of` k -> (length k <= length l)%nat -> l = k.
Proof.
  induction 1 as [ | x l k S IH | x l k S IH]; cbn [length]; intros H; [done | f_equal; apply IH; lia | ].
  apply sublist_length in S. lia.
Qed.

Lemma ring_states_ok key context runs states limits decisions blockers limits' decisions' :
  limits_of decisions limits ->
  ring_states key context runs states limits decisions blockers = success (limits', decisions', []) ->
  blockers = [] /\ limits_of decisions' limits' /\
  exists parts, decisions' = decisions ++ concat parts /\ Forall (decides runs) (concat parts) /\
    Forall2 state_decided states parts.
Proof.
  revert limits decisions blockers. induction states as [ | s rest IH]; intros l ds bs L H; cbn in H.
  { injection H as <- <- ->. split; [done | ]. split; [done | ]. exists []. cbn.
    rewrite app_nil_r. by repeat constructor. }
  destruct (ring_runs _ _ _ _ _ _) as [g | ] eqn:E; cbn [rbind] in H; [ | done].
  destruct (ring_runs_ok _ _ _ _ _ (mkRingProgress l ds 0 0) g 0 0 L eq_refl eq_refl E)
    as (nds & D1 & D2 & D3 & D4 & D5 & D6). cbn in D1.
  destruct (IH _ _ _ D4 H) as (B & L' & parts & P1 & P2 & P3).
  apply app_eq_nil in B as [-> B]. apply app_eq_nil in B as [B1 B2].
  destruct (gp_present g =? _) eqn:Hp in B1; [ | done]. destruct (gp_valid g <? _) eqn:Hv in B2; [done | ].
  split; [done | ]. split; [done | ]. exists (nds :: parts). cbn.
  split; [by rewrite P1, D1, app_assoc | ]. split; [by apply Forall_app | ]. constructor; [ | done].
  pose proof (sublist_length _ _ D3) as Len. rewrite length_fmap in Len.
  pose proof (u64_wrap_range (Z.of_nat (length nds))) as R. pose proof (u64_wrap_le (Z.of_nat (length nds)) ltac:(lia)) as W.
  pose proof (u64_wrap_le (Z.of_nat (length (valid_decisions nds))) ltac:(lia)) as W2.
  rewrite D5 in Hp. rewrite D6 in Hv. rewrite Z.add_0_l in Hp, Hv. split; [ | lia].
  apply Z.eqb_eq in Hp. apply sublist_whole; [done | ]. rewrite length_fmap. lia.
Qed.

(** The distance in cache lines: the demand in slots and then in lines, rounded up, at least
    two and at most a quarter of the ring. *)
Definition distance_of (g : RingGeometry) (demand issue d1 lines : Z) : Prop :=
  is_ceil (rg_cache_line_bytes g) (rg_slot_bytes g) d1 /\
  exists raw_slots raw_lines, is_ceil demand issue raw_slots /\ is_ceil raw_slots d1 raw_lines /\
    lines = Z.min (Z.max 2 raw_lines) (rg_capacity g / 4 / d1).

Lemma checked_ceil_divide_ceil a b c :
  is_u64 a -> is_u64 b -> checked_ceil_divide a b = Some c -> is_ceil a b c /\ is_u64 c /\ 0 < b.
Proof.
  intros Ha Hb H. destruct (decide (b = 0)) as [-> | N]; [done | ].
  destruct (checked_ceil_divide_spec a b Ha ltac:(int_lia)) as (c' & E & U & C).
  rewrite E in H. injection H as <-. split; [exact C | ]. split; [done | int_lia].
Qed.

Lemma ring_distance_resolved g demand issue d1 lines d2 blockers :
  is_u64 (rg_capacity g) -> is_u64 (rg_cache_line_bytes g) -> is_u64 (rg_slot_bytes g) ->
  is_u64 demand -> is_u64 issue ->
  ring_distance g demand issue = (EvaluationState_resolved, d1, lines, d2, blockers) ->
  exists d1' lines', d1 = Some d1' /\ lines = Some lines' /\ d2 = Some (lines' * d1') /\ blockers = [] /\
    distance_of g demand issue d1' lines' /\ 2 <= lines' /\ d1' < lines' * d1' <= rg_capacity g / 4.
Proof.
  intros Uc Ul Us Ud Ui H. unfold ring_distance in H. destruct (_ || _ || _) eqn:Z0 in H; [done | ].
  destruct (checked_ceil_divide _ _) as [x | ] eqn:E1 in H; [ | done].
  destruct (checked_ceil_divide demand issue) as [raw | ] eqn:E2 in H; [ | done].
  destruct (checked_ceil_divide raw x) as [rl | ] eqn:E3 in H; [ | done].
  apply checked_ceil_divide_ceil in E1 as (C1 & U1 & P1); [ | done..].
  apply checked_ceil_divide_ceil in E2 as (C2 & U2 & P2); [ | done..].
  apply checked_ceil_divide_ceil in E3 as (C3 & U3 & P3); [ | done..].
  set (cap := rg_capacity g / 4 / x) in *. set (l := Z.min (Z.max 2 rl) cap) in *.
  destruct (cap <? 2) eqn:Ec; [done | ]. apply Z.ltb_ge in Ec.
  assert (Q : 0 <= rg_capacity g / 4 <= u64_max).
  { split; [apply Z.div_pos; int_lia | ]. apply Z.div_le_upper_bound; int_lia. }
  pose proof (Z.mul_div_le (rg_capacity g / 4) x P3) as Hcap. fold cap in Hcap.
  assert (l * x <= rg_capacity g / 4) by nia.
  assert (cap <= u64_max) by nia.
  rewrite cal_checked_multiply_spec in H by (unfold l; int_lia).
  destruct (Z.leb_spec (l * x) u64_max); [ | lia].
  destruct (l * x <=? x) eqn:E4 in H; [done | ]. injection H as <- <- <- <-. apply Z.leb_gt in E4.
  exists x, l. split_and!; try done; [ | lia..]. split; [done | ]. by exists raw, rl.
Qed.

Lemma inverse_ecdf_elem values num den v : inverse_ecdf values num den = success v -> v ∈ values.
Proof.
  unfold inverse_ecdf, quantile_overflow, fail_with. intros H. repeat (destr_in H; try done).
  injection H as <-. rewrite <- (merge_sort_Permutation Z.le values). by eapply list_elem_of_lookup_2.
Qed.

(** Every tail of a decision is an observation of a run. *)
Lemma decides_u64 runs decision v :
  Forall series_u64 runs -> decides runs decision ->
  Some v ∈ [rn_producer_demand_p999_ticks decision; rn_consumer_demand_p999_ticks decision;
            rn_producer_issue_p001_ticks decision; rn_consumer_issue_p001_ticks decision] ->
  is_u64 v.
Proof.
  intros U (e & I & _ & _ & D) M. rewrite Forall_forall in U. destruct (U e I) as (U1 & U2 & U3 & U4).
  destruct (rn_validity decision); [ | rewrite D in M; cbn in M; set_solver].
  destruct D as (a & b & c & d & T & ->). cbn in M. unfold run_tails in T. repeat (destr_in T; try done).
  injection T as <- <- <- <-. rewrite Forall_forall in U1, U2, U3, U4.
  repeat match goal with H : inverse_ecdf _ _ _ = success _ |- _ => apply inverse_ecdf_elem in H end.
  rewrite !elem_of_cons in M. destruct M as [M | [M | [M | [M | M%elem_of_nil]]]]; try done;
    injection M as ->; auto.
Qed.

Lemma omap_decided {runs} (f : RingRunDecision -> option Z) decisions v :
  Forall (decides runs) decisions -> v ∈ omap f decisions ->
  exists decision, decides runs decision /\ f decision = Some v.
Proof.
  intros F H. apply list_elem_of_omap in H as (d & I & E). rewrite Forall_forall in F.
  exists d. auto.
Qed.

(** What a resolved context reports. *)
Definition context_resolved (plan : RingDistancePlan) (runs : list RingRunEvidence)
    (c : RingContextResult) : Prop :=
  exists x parts demand issue d1 lines,
    x ∈ rd_contexts plan /\ rx_key x = ro_key c /\
    ro_run_decisions c = concat parts /\ Forall (decides runs) (concat parts) /\
    Forall2 state_decided (rx_states x) parts /\
    is_maximum (demand_tails (ro_run_decisions c)) demand /\
    is_minimum (issue_tails (ro_run_decisions c)) issue /\
    ro_conservative_demand_ticks c = Some demand /\ ro_conservative_issue_ticks c = Some issue /\
    distance_of (rx_geometry x) demand issue d1 lines /\
    ro_d1_slots c = Some d1 /\ ro_d2_cache_lines c = Some lines /\
    ro_producer_distance_slots c = Some (lines * d1) /\
    ro_consumer_distance_slots c = Some (lines * d1) /\
    2 <= lines /\ d1 < lines * d1 <= rg_capacity (rx_geometry x) / 4.

Lemma max_of_both l k a b : is_maximum l a -> is_maximum k b -> is_maximum (l ++ k) (Z.max a b).
Proof.
  intros [A1 A2] [B1 B2]. split.
  - destruct (Z.max_spec a b) as [[_ ->] | [_ ->]]; set_solver.
  - intros v [H | H]%elem_of_app; [specialize (A2 v H) | specialize (B2 v H)]; lia.
Qed.

Lemma min_of_both l k a b : is_minimum l a -> is_minimum k b -> is_minimum (l ++ k) (Z.min a b).
Proof.
  intros [A1 A2] [B1 B2]. split.
  - destruct (Z.min_spec a b) as [[_ ->] | [_ ->]]; set_solver.
  - intros v [H | H]%elem_of_app; [specialize (A2 v H) | specialize (B2 v H)]; lia.
Qed.

Lemma ring_distance_evaluated g demand issue :
  (ring_distance g demand issue).1.1.1.1 <> EvaluationState_not_evaluated.
Proof. unfold ring_distance. by repeat case_match. Qed.

(** One context adds one result; it is resolved exactly as specified, and otherwise the
    whole is no longer resolved. *)
Lemma ring_context_ok plan runs key result result' :
  Forall geometry_u64 (rd_contexts plan) -> Forall series_u64 runs ->
  ring_context plan runs key result = success result' ->
  exists c, rr_contexts result' = rr_contexts result ++ [c] /\ ro_key c = key /\
    (ro_state c = EvaluationState_resolved -> context_resolved plan runs c) /\
    (rr_distance_state result' = EvaluationState_resolved ->
     rr_distance_state result = EvaluationState_resolved /\ ro_state c = EvaluationState_resolved).
Proof.
  intros G U H. unfold ring_context in H. destruct (find_ring_context plan key) as [x | ] eqn:F.
  2: { injection H as <-. by eexists. }
  apply find_some in F as [Fi Fk]. apply bool_decide_eq_true in Fk. apply list_elem_of_In in Fi.
  destruct (ring_states _ _ _ _ _ _ _) as [[[limits ds] bs] | ] eqn:S in H; [ | done]. cbn [rbind] in H.
  destruct bs as [ | b bs]; [ | injection H as <-; by eexists].
  apply ring_states_ok in S as (_ & L & parts & D1 & D2 & D3); [ | done]. cbn in D1. subst ds.
  destruct L as (L1 & L2 & L3 & L4).
  destruct (lim_producer_demand limits) as [pd | ]; [ | injection H as <-; by eexists].
  destruct (lim_consumer_demand limits) as [cd | ]; [ | injection H as <-; by eexists].
  destruct (lim_producer_issue limits) as [pi | ]; [ | injection H as <-; by eexists].
  destruct (lim_consumer_issue limits) as [ci | ]; [ | injection H as <-; by eexists].
  pose proof (max_of_both _ _ _ _ L1 L2) as M. pose proof (min_of_both _ _ _ _ L3 L4) as I.
  destruct (ring_distance _ _ _) as [[[[st d1] lines] d2] bs] eqn:R in H. injection H as <-.
  eexists. split; [done | ]. split; [done | ]. split.
  2: { pose proof (ring_distance_evaluated (rx_geometry x) (Z.max pd cd) (Z.min pi ci)) as N.
       rewrite R in N. cbn in N |- *. by destruct st. }
  intros St. cbn in St. subst st. rewrite Forall_forall in G. destruct (G x Fi) as (G1 & G2 & G3).
  assert (Ud : is_u64 (Z.max pd cd)).
  { destruct M as [M _]. apply elem_of_app in M as [M | M];
      apply (omap_decided _ _ _ D2) in M as (d & Hd & E); apply (decides_u64 runs d); try done; set_solver. }
  assert (Ui : is_u64 (Z.min pi ci)).
  { destruct I as [I _]. apply elem_of_app in I as [I | I];
      apply (omap_decided _ _ _ D2) in I as (d & Hd & E); apply (decides_u64 runs d); try done; set_solver. }
  destruct (ring_distance_resolved _ _ _ _ _ _ _ G1 G2 G3 Ud Ui R)
    as (d1' & lines' & -> & -> & -> & -> & R1 & R2 & R3).
  exists x, parts, (Z.max pd cd), (Z.min pi ci), d1', lines'. destruct R3. by split_and!.
Qed.

Lemma ring_contexts_ok plan runs keys result result' :
  Forall geometry_u64 (rd_contexts plan) -> Forall series_u64 runs ->
  ring_contexts plan runs keys result = success result' ->
  exists cs, rr_contexts result' = rr_contexts result ++ cs /\ ro_key <$> cs = keys /\
    Forall (fun c => ro_state c = EvaluationState_resolved -> context_resolved plan runs c) cs /\
    (rr_distance_state result' = EvaluationState_resolved ->
     rr_distance_state result = EvaluationState_resolved /\
     Forall (fun c => ro_state c = EvaluationState_resolved) cs).
Proof.
  intros G U. revert result. induction keys as [ | key rest IH]; intros r H; cbn in H.
  { injection H as <-. exists []. rewrite app_nil_r. by repeat constructor. }
  destruct (ring_context plan runs key r) as [r1 | ] eqn:E; cbn [rbind] in H; [ | done].
  destruct (ring_context_ok _ _ _ _ _ G U E) as (c & C1 & C2 & C3 & C4).
  destruct (IH _ H) as (cs & D1 & D2 & D3 & D4). exists (c :: cs).
  split; [by rewrite D1, C1, <- app_assoc | ]. split; [by rewrite fmap_cons, C2, D2 | ].
  split; [by constructor | ]. intros S. destruct (D4 S) as [S1 S2]. destruct (C4 S1) as [S3 S4].
  split; [done | by constructor].
Qed.


Module SampleRing.

Definition key : RingContextKey := mkRingContextKey Placement_near WorkingSetClass_l2_resident.
Definition run_id (prefix : string) (i : nat) : Identifier := prefix +:+ std_to_string (Z.of_nat i).
Definition state (hardware : RequestedHardwareState) (prefix : string) : RingStatePlan :=
  mkRingStatePlan hardware SampleCalibration.context (run_id prefix <$> seq 0 59).
Definition context : RingContextPlan :=
  mkRingContextPlan key (mkRingGeometry 64 64 16) 1000 1
    [state RequestedHardwareState_h0 "a"; state RequestedHardwareState_h1 "b"].
Definition plan : RingDistancePlan :=
  mkRingDistancePlan "record" kRingDistanceMethodId "seeds" ["independent runs"]
    (mkCalibrationGovernance ["owner"] SampleCalibration.reference SampleCalibration.reference) [context].
Definition run (hardware : RequestedHardwareState) (prefix : string) (i : nat) : RingRunEvidence :=
  mkRingRunEvidence (run_id prefix i) key SampleCalibration.context hardware Stage_calibration
    RunMode_d2_calibration QueuePackage_r0 CalibrationRunValidity_valid 1000
    (mkRingDemandSeries [70] [80 + Z.of_nat i] [9] [11] 0 0)
    [SampleCalibration.reference] (Some SampleCalibration.reference) None.
Definition runs : list RingRunEvidence :=
  (run RequestedHardwareState_h0 "a" <$> seq 0 59) ++ (run RequestedHardwareState_h1 "b" <$> seq 0 59).

End SampleRing.

