(* ===== verification/Qualification.v ===== *)
(** * Clock qualification

    Models [include/cpu_prefetch/timing/qualification.hpp] and
    [src/timing/qualification.cpp]: the statistics of a sequence of clock reads on one
    core, the static and per-core verdicts, the capture-overhead diagnostic, and the
    offset intervals of message exchanges between two cores. *)

From stdpp Require Import prelude list strings sorting.
From Stdlib Require Import ZArith Lia.
From S2P Require Import Prelude Validation Rationals.

#[local] Open Scope Z_scope.

Definition kQualificationPrimeReadCount : Z := 100000.
Definition kQualificationDeltaCount : Z := 10000000.
Definition kCrossCoreExchangeCountPerWindow : Z := 100000.
Definition kCrossCoreWindowCount : Z := 3.
Definition kMinimumCrossCoreWindowStartSpanNanoseconds : Z := 60000000000.

(** ** Arithmetic *)

(** The quantile of the sorted values; [None] is an index out of range. *)
Definition timing_inverse_ecdf (values : list Z) (num den : Z) : option Z :=
  let count := Z.of_nat (length values) in
  let quotient := count / den in
  let remainder := count mod den in
  let rank := u64_add (u64_mul quotient num)
                (u64_sub (u64_add (u64_mul remainder num) den) 1 / den) in
  sorted_values values !! Z.to_nat (u64_sub rank 1).

(** [None] is the return value false, which leaves the output unwritten. *)
Definition signed_difference (a b : Z) : option Z :=
  if a >=? b then
    let difference := u64_sub a b in if difference >? i64_max then None else Some difference
  else
    let difference := u64_sub b a in if difference >? i64_max then None else Some (- difference).

Definition interval_width (lower upper : Z) : Z :=
  if lower >=? 0 then u64_of_i64 (upper - lower)
  else if upper <? 0 then u64_sub (u64_of_i64 (- (lower + 1))) (u64_of_i64 (- (upper + 1)))
  else u64_add (u64_add (u64_of_i64 (- (lower + 1))) 1) (u64_of_i64 upper).

Definition checked_sum (a b : Z) : option Z :=
  if ((b >? 0) && (a >? i64_max - b)) || ((b <? 0) && (a <? i64_min - b)) then None else Some (a + b).

(** ** One core *)

Record ClockSequenceEvidence : Set := mkClockSequenceEvidence {
  cs_delta_count : Z;
  cs_regression_count : Z;
  cs_equal_count : Z;
  cs_p999_delta_picoseconds : Z;
  cs_p99999_delta_picoseconds : Z;
  cs_maximum_delta_picoseconds : Z;
  cs_accepted_policy_sample_count : bool;
  cs_limits_pass : bool;
  cs_passes : bool
}.

(** The loop over adjacent timestamps: deltas, regressions, equal pairs. *)
Fixpoint sequence_loop (previous : Z) (timestamps : list Z) (deltas : list Z)
    (regressions equals : Z) : list Z * Z * Z :=
  match timestamps with
  | [] => (deltas, regressions, equals)
  | current :: rest =>
      if current <? previous then
        sequence_loop current rest (deltas ++ [0]) (u64_add regressions 1) equals
      else
        let delta := u64_sub current previous in
        sequence_loop current rest (deltas ++ [delta]) regressions
          (u64_add equals (if delta =? 0 then 1 else 0))
  end.

(** [*std::max_element] and [*std::min_element] of a nonempty vector. *)
Definition max_element (values : list Z) : option Z :=
  match values with [] => None | v :: rest => Some (foldl Z.max v rest) end.
Definition min_element (values : list Z) : option Z :=
  match values with [] => None | v :: rest => Some (foldl Z.min v rest) end.

Definition evaluate_clock_sequence (timestamps_picoseconds : list Z) : option ClockSequenceEvidence :=
  match timestamps_picoseconds with
  | first :: (_ :: _) as rest =>
      let '(deltas, regressions, equals) := sequence_loop first rest [] 0 0 in
      match timing_inverse_ecdf deltas 999 1000, timing_inverse_ecdf deltas 99999 100000,
            max_element deltas with
      | Some p999, Some p99999, Some maximum =>
          let count := Z.of_nat (length deltas) in
          let sample_count := count =? kQualificationDeltaCount in
          let limits := (regressions =? 0) && (equals <=? 10) && (p999 <=? 1000000) &&
                        (p99999 <=? 10000000) in
          Some (mkClockSequenceEvidence count regressions equals p999 p99999 maximum sample_count limits
                  (sample_count && limits))
      | _, _, _ => None
      end
  | _ => None
  end.

Record StaticClockEvidenceInput : Set := mkStaticClockEvidenceInput {
  bare_metal_linux_x86_64 : bool;
  clock_monotonic_raw_supported : bool;
  current_clocksource_tsc : bool;
  no_unstable_clock_report : bool;
  constant_tsc : bool;
  nonstop_tsc : bool;
  invariant_tsc : bool;
  vdso_versioned_symbol : bool;
  glibc_call_path_verified_vdso : bool;
  probe_call_count : Z;
  probe_syscall_count : Z;
  probe_failure_count : Z;
  no_clocksource_override : bool;
  si_generated_code_passes : bool;
  resolution_picoseconds : Z
}.

Record StaticClockEvidence : Set := mkStaticClockEvidence {
  se_platform_passes : bool;
  se_source_passes : bool;
  se_frequency_invariance_passes : bool;
  se_vdso_symbol_passes : bool;
  se_vdso_execution_passes : bool;
  se_generated_code_passes : bool;
  se_resolution_passes : bool;
  se_passes : bool
}.

Definition evaluate_static_clock_evidence (input : StaticClockEvidenceInput) : StaticClockEvidence :=
  let platform := bare_metal_linux_x86_64 input && clock_monotonic_raw_supported input in
  let source := current_clocksource_tsc input && no_unstable_clock_report input &&
                no_clocksource_override input in
  let frequency := constant_tsc input && nonstop_tsc input && invariant_tsc input in
  let resolution := resolution_picoseconds input <=? 1000 in
  let vdso_execution := glibc_call_path_verified_vdso input && (probe_call_count input =? 10000000) &&
                        (probe_syscall_count input =? 0) && (probe_failure_count input =? 0) in
  mkStaticClockEvidence platform source frequency (vdso_versioned_symbol input) vdso_execution
    (si_generated_code_passes input) resolution
    (platform && source && frequency && vdso_versioned_symbol input && vdso_execution &&
     si_generated_code_passes input && resolution).

Record PerCoreQualificationInput : Set := mkPerCoreQualificationInput {
  timestamps_picoseconds : list Z;
  prime_read_count : Z;
  call_failure_count : Z;
  invalid_timespec_count : Z;
  singleton_affinity : bool;
  selected_cpu_online : bool;
  affinity_readback_matches : bool;
  sched_getcpu_matches_before_and_after : bool
}.

Record PerCoreQualificationEvidence : Set := mkPerCoreQualificationEvidence {
  pc_sequence : ClockSequenceEvidence;
  pc_prime_count_passes : bool;
  pc_read_status_passes : bool;
  pc_affinity_passes : bool;
  pc_passes : bool
}.

Definition evaluate_per_core_qualification (input : PerCoreQualificationInput) :
    option PerCoreQualificationEvidence :=
  match evaluate_clock_sequence (timestamps_picoseconds input) with
  | None => None
  | Some sequence =>
      let prime := prime_read_count input =? kQualificationPrimeReadCount in
      let status := (call_failure_count input =? 0) && (invalid_timespec_count input =? 0) in
      let affinity := singleton_affinity input && selected_cpu_online input &&
                      affinity_readback_matches input && sched_getcpu_matches_before_and_after input in
      Some (mkPerCoreQualificationEvidence sequence prime status affinity
              (prime && status && affinity && cs_passes sequence))
  end.

Record CaptureOverheadDiagnostic : Set := mkCaptureOverheadDiagnostic {
  co_sample_count : Z;
  co_minimum_picoseconds : Z;
  co_median_picoseconds : Z;
  co_p999_picoseconds : Z;
  co_p99999_picoseconds : Z;
  co_maximum_picoseconds : Z;
  co_correction_applied : bool;
  co_primary_timestamps_unchanged : bool
}.

Definition characterize_capture_overhead (duration_samples_picoseconds : list Z) :
    option CaptureOverheadDiagnostic :=
  let values := duration_samples_picoseconds in
  match min_element values, timing_inverse_ecdf values 1 2, timing_inverse_ecdf values 999 1000,
        timing_inverse_ecdf values 99999 100000, max_element values with
  | Some minimum, Some median, Some p999, Some p99999, Some maximum =>
      Some (mkCaptureOverheadDiagnostic (Z.of_nat (length values)) minimum median p999 p99999 maximum
              false true)
  | _, _, _, _, _ => None
  end.

(** ** Two cores *)

Record CrossCoreExchangeSample : Set := mkCrossCoreExchangeSample {
  request_send : Z;
  request_receive : Z;
  response_send : Z;
  response_receive : Z
}.

Record CrossCoreWindowInput : Set := mkCrossCoreWindowInput {
  start_absolute_nanoseconds : Z;
  exchanges : list CrossCoreExchangeSample
}.

Record CrossCoreWindowEvidence : Set := mkCrossCoreWindowEvidence {
  lower_picoseconds : Z;
  upper_picoseconds : Z;
  width_picoseconds : Z;
  midpoint_twice_picoseconds : Z;
  interval_nonempty : bool;
  bounds_pass : bool;
  width_pass : bool
}.

Record CrossCoreDirectionEvidence : Set := mkCrossCoreDirectionEvidence {
  cd_windows : list CrossCoreWindowEvidence;
  cd_exchange_count_per_window : Z;
  cd_causal_regressions : Z;
  cd_midpoint_range_twice_picoseconds : Z;
  cd_accepted_policy_sample_count : bool;
  cd_window_span_passes : bool;
  cd_interval_limits_pass : bool;
  cd_midpoint_drift_passes : bool;
  cd_limits_pass : bool;
  cd_passes : bool
}.

(** What the loops carry: causal regressions, the arithmetic flag and the interval. *)
Record ExchangeProgress : Set := mkExchangeProgress {
  ep_regressions : Z;
  ep_valid : bool;
  ep_lower : Z;
  ep_upper : Z
}.

(** The second difference is taken only when the first succeeded. *)
Definition exchange_step (progress : ExchangeProgress) (exchange : CrossCoreExchangeSample) :
    ExchangeProgress :=
  let regressions := u64_add (ep_regressions progress)
                       (if request_receive exchange <? request_send exchange then 1 else 0) in
  let regressions := u64_add regressions
                       (if response_receive exchange <? response_send exchange then 1 else 0) in
  let first := signed_difference (response_send exchange) (response_receive exchange) in
  let second :=
    match first with
    | Some _ => signed_difference (request_receive exchange) (request_send exchange)
    | None => None
    end in
  let '(valid, sample_lower, sample_upper) :=
    match first, second with
    | Some lower, Some upper => (ep_valid progress, lower, upper)
    | Some lower, None => (false, lower, 0)
    | None, _ => (false, 0, 0)
    end in
  mkExchangeProgress regressions valid (Z.max (ep_lower progress) sample_lower)
    (Z.min (ep_upper progress) sample_upper).

(** One window, from the regressions and the flag of the windows before. *)
Definition cross_core_window (regressions : Z) (valid : bool) (window : CrossCoreWindowInput) :
    Z * bool * CrossCoreWindowEvidence :=
  let progress := foldl exchange_step (mkExchangeProgress regressions valid i64_min i64_max)
                    (exchanges window) in
  let lower := ep_lower progress in
  let upper := ep_upper progress in
  let nonempty := ep_valid progress && (lower <=? upper) in
  let width := if nonempty then interval_width lower upper else u64_max in
  let bounds := nonempty && (lower >=? -100000) && (upper <=? 100000) in
  let width_pass := nonempty && (width <=? 200000) in
  let sum := checked_sum lower upper in
  let midpoint_twice := if nonempty then default 0 sum else 0 in
  let valid := (negb nonempty || bool_decide (sum <> None)) && ep_valid progress in
  (ep_regressions progress, valid,
   mkCrossCoreWindowEvidence lower upper width midpoint_twice nonempty bounds width_pass).

Fixpoint cross_core_windows (regressions : Z) (valid : bool) (windows : list CrossCoreWindowInput) :
    Z * bool * list CrossCoreWindowEvidence :=
  match windows with
  | [] => (regressions, valid, [])
  | window :: rest =>
      let '(regressions, valid, evidence) := cross_core_window regressions valid window in
      let '(regressions, valid, evidences) := cross_core_windows regressions valid rest in
      (regressions, valid, evidence :: evidences)
  end.

Definition window_passes (window : CrossCoreWindowEvidence) : bool :=
  interval_nonempty window && bounds_pass window && width_pass window.

Definition evaluate_cross_core_direction (windows : list CrossCoreWindowInput) :
    option CrossCoreDirectionEvidence :=
  match windows with
  | [front; _; back] =>
      let exchange_count := Z.of_nat (length (exchanges front)) in
      if (exchange_count =? 0) ||
         existsb (fun window => negb (Z.of_nat (length (exchanges window)) =? exchange_count)) windows
      then None
      else
        let '(regressions, valid, evidences) := cross_core_windows 0 true windows in
        let accepted := exchange_count =? kCrossCoreExchangeCountPerWindow in
        let start := start_absolute_nanoseconds front in
        let stop := start_absolute_nanoseconds back in
        let span := (stop >=? start) &&
                    (u64_sub stop start >=? kMinimumCrossCoreWindowStartSpanNanoseconds) in
        let limits := forallb window_passes evidences in
        let midpoints := midpoint_twice_picoseconds <$> evidences in
        match min_element midpoints, max_element midpoints with
        | Some minimum, Some maximum =>
            let range := interval_width minimum maximum in
            let drift := range <=? 100000 in
            let limits_pass := valid && (regressions =? 0) && span && limits && drift in
            Some (mkCrossCoreDirectionEvidence evidences exchange_count regressions range accepted span
                    limits drift limits_pass (accepted && limits_pass))
        | _, _ => None
        end
  | _ => None
  end.

Record CrossCorePairInput : Set := mkCrossCorePairInput {
  producer_to_consumer : list CrossCoreWindowInput;
  consumer_to_producer : list CrossCoreWindowInput
}.

Record CrossCorePairEvidence : Set := mkCrossCorePairEvidence {
  pe_producer_to_consumer : CrossCoreDirectionEvidence;
  pe_consumer_to_producer : CrossCoreDirectionEvidence;
  pe_passes : bool
}.

Definition evaluate_cross_core_pair (input : CrossCorePairInput) : option CrossCorePairEvidence :=
  match evaluate_cross_core_direction (producer_to_consumer input),
        evaluate_cross_core_direction (consumer_to_producer input) with
  | Some forward, Some reverse =>
      Some (mkCrossCorePairEvidence forward reverse (cd_passes forward && cd_passes reverse))
  | _, _ => None
  end.

(** ** Clock sequences *)

Lemma timing_inverse_ecdf_quantile values num den :
  values <> [] -> Z.of_nat (length values) <= u64_max -> 0 < num <= den -> den <= 100000 ->
  exists v, timing_inverse_ecdf values num den = Some v /\ v ∈ values /\
    Z.of_nat (length values) * num <= den * count_values (fun x => x <=? v) values /\
    den * count_values (fun x => x <? v) values < Z.of_nat (length values) * num.
Proof.
  intros Hne Hlen Hn Hd. unfold timing_inverse_ecdf. cbv zeta.
  assert (Hc : 1 <= Z.of_nat (length values)) by (destruct values; [done | cbn [length]; lia]).
  set (count := Z.of_nat (length values)) in *.
  pose proof (Z.div_mod count den ltac:(lia)) as D.
  pose proof (Z.mod_pos_bound count den ltac:(lia)) as M.
  pose proof (Z.div_pos count den ltac:(lia) ltac:(lia)) as P.
  generalize dependent (count / den). intros q D P. generalize dependent (count mod den). intros r D M.
  assert (q * num <= count) by nia. assert (0 <= r * num <= 10000000000) by nia.
  rewrite (u64_mul_small q num) by nia. rewrite (u64_mul_small r num) by int_lia.
  rewrite (u64_add_small (r * num) den) by int_lia. rewrite (u64_sub_small (r * num + den) 1) by int_lia.
  pose proof (Z.div_mod (r * num + den - 1) den ltac:(lia)) as D2.
  pose proof (Z.mod_pos_bound (r * num + den - 1) den ltac:(lia)) as M2.
  generalize dependent ((r * num + den - 1) / den). intros c D2.
  generalize dependent ((r * num + den - 1) mod den). intros m D2 M2.
  assert (0 <= c <= r) by nia. assert (1 <= q * num + c <= count) by nia.
  rewrite (u64_add_small (q * num) c) by nia. rewrite u64_sub_small by lia.
  apply sorted_rank_quantile; [lia | lia | fold count; nia].
Qed.

(** Pairs of neighbours. *)
Definition neighbours (timestamps : list Z) : list (Z * Z) := zip timestamps (tail timestamps).

Definition pair_delta (pair : Z * Z) : Z := Z.max 0 (pair.2 - pair.1).

Definition count_pairs (P : Z * Z -> bool) (pairs : list (Z * Z)) : Z :=
  Z.of_nat (length (List.filter P pairs)).

Lemma count_pairs_cons P pair pairs :
  count_pairs P (pair :: pairs) = (if P pair then 1 else 0) + count_pairs P pairs.
Proof. unfold count_pairs. cbn [List.filter]. destruct (P pair); cbn [length]; lia. Qed.

Lemma count_pairs_bound P pairs : 0 <= count_pairs P pairs <= Z.of_nat (length pairs).
Proof. unfold count_pairs. pose proof (filter_length_le P pairs). lia. Qed.

Lemma sequence_loop_spec first rest deltas regressions equals :
  Forall is_u64 (first :: rest) -> 0 <= regressions -> 0 <= equals ->
  regressions + Z.of_nat (length rest) <= u64_max -> equals + Z.of_nat (length rest) <= u64_max ->
  sequence_loop first rest deltas regressions equals =
  (deltas ++ (pair_delta <$> neighbours (first :: rest)),
   regressions + count_pairs (fun p => p.2 <? p.1) (neighbours (first :: rest)),
   equals + count_pairs (fun p => p.2 =? p.1) (neighbours (first :: rest))).
Proof.
  revert first deltas regressions equals.
  induction rest as [ | current rest IH]; intros first deltas regs eqs F H1 H2 H3 H4.
  { cbn. unfold count_pairs. cbn. by rewrite app_nil_r, !Z.add_0_r. }
  cbn [length] in H3, H4. apply Forall_cons in F as [F1 F2].
  change (neighbours (first :: current :: rest)) with ((first, current) :: neighbours (current :: rest)).
  rewrite !count_pairs_cons. cbn [sequence_loop fst snd].
  assert (F3 : is_u64 current) by (apply Forall_cons in F2; apply F2).
  destruct (current <? first) eqn:E.
  - rewrite u64_add_small, IH by (done || int_lia). rewrite fmap_cons. unfold pair_delta at 2. cbn [fst snd].
    assert (current =? first = false) as -> by lia. rewrite <- app_assoc. cbn [app].
    assert (Z.max 0 (current - first) = 0) as -> by lia. rewrite Z.add_0_l, Z.add_assoc. done.
  - rewrite u64_sub_small by int_lia.
    assert (current - first =? 0 = (current =? first)) as -> by lia.
    rewrite u64_add_small, IH by (done || (destruct (current =? first); int_lia)).
    rewrite fmap_cons. unfold pair_delta at 2. cbn [fst snd]. rewrite <- app_assoc. cbn [app].
    assert (Z.max 0 (current - first) = current - first) as -> by lia. rewrite Z.add_0_l, Z.add_assoc. done.
Qed.

Lemma foldl_max_spec values v :
  foldl Z.max v values ∈ v :: values /\ forall x, x ∈ v :: values -> x <= foldl Z.max v values.
Proof.
  revert v. induction values as [ | y rest IH]; intros v; cbn.
  { split; [by left | ]. intros x Hx%list_elem_of_singleton. lia. }
  destruct (IH (Z.max v y)) as [I L]. split.
  - apply elem_of_cons in I as [I | I]; [ | set_solver]. rewrite I.
    destruct (Z.max_spec v y) as [[_ ->] | [_ ->]]; set_solver.
  - intros x [-> | [-> | Hx]%elem_of_cons]%elem_of_cons; [ | | apply L; by right];
      specialize (L (Z.max v y) (ltac:(left))); lia.
Qed.

Lemma count_pairs_zero P pairs : count_pairs P pairs = 0 <-> Forall (fun p => P p = false) pairs.
Proof.
  induction pairs as [ | p rest IH]; [by split; [constructor | ] | ].
  rewrite count_pairs_cons, Forall_cons, <- IH. pose proof (count_pairs_bound P rest).
  destruct (P p); (split; [intros; split; [try done; lia | lia] | intros [? ?]; try done; lia]).
Qed.

(** At least [num] of [den] intervals take at most [limit]. *)
Definition share_within (num den limit : Z) (timestamps : list Z) : Prop :=
  num * Z.of_nat (length (neighbours timestamps)) <=
  den * count_pairs (fun p => pair_delta p <=? limit) (neighbours timestamps).

Lemma count_values_fmap (P : Z -> bool) (pairs : list (Z * Z)) :
  count_values P (pair_delta <$> pairs) = count_pairs (fun p => P (pair_delta p)) pairs.
Proof.
  unfold count_values, count_pairs. induction pairs as [ | p rest IH]; [done | ].
  cbn. destruct (P (pair_delta p)); cbn [length]; lia.
Qed.

(** Clock sequences: at least two readings give evidence, with one delta per pair of
    neighbours and the exact maximum. The limits pass exactly when no reading is before its
    predecessor, at most ten are equal to it, and at least 99.9% and 99.999% of the
    intervals are no longer than 1 and 10 microseconds; a policy verdict needs ten million
    intervals besides. *)
Theorem clock_sequence_exact timestamps :
  Forall is_u64 timestamps -> Z.of_nat (length timestamps) <= u64_max ->
  match evaluate_clock_sequence timestamps with
  | None => (length timestamps < 2)%nat
  | Some evidence =>
      cs_delta_count evidence = Z.of_nat (length (neighbours timestamps)) /\
      (exists p, p ∈ neighbours timestamps /\ cs_maximum_delta_picoseconds evidence = pair_delta p) /\
      Forall (fun p => pair_delta p <= cs_maximum_delta_picoseconds evidence) (neighbours timestamps) /\
      (cs_limits_pass evidence = true <->
       Forall (fun p => p.1 <= p.2) (neighbours timestamps) /\
       count_pairs (fun p => p.2 =? p.1) (neighbours timestamps) <= 10 /\
       share_within 999 1000 1000000 timestamps /\ share_within 99999 100000 10000000 timestamps) /\
      cs_passes evidence =
        (Z.of_nat (length (neighbours timestamps)) =? kQualificationDeltaCount) && cs_limits_pass evidence
  end.
Proof.
  intros F L. unfold evaluate_clock_sequence. destruct timestamps as [ | first [ | second rest]]; [cbn; lia.. | ].
  cbn [length] in L. rewrite sequence_loop_spec by (done || (cbn [length]; lia)). rewrite app_nil_l, !Z.add_0_l.
  set (ts := first :: second :: rest). set (pairs := neighbours ts).
  set (deltas := pair_delta <$> pairs).
  assert (Hne : deltas <> []) by done.
  assert (Hlen : length pairs = S (length rest)).
  { unfold pairs, neighbours, ts. rewrite length_zip_with. cbn [length tail]. lia. }
  assert (Hd : length deltas = length pairs) by apply length_fmap.
  destruct (timing_inverse_ecdf_quantile deltas 999 1000 Hne) as (a & -> & _ & A1 & A2); [lia..|].
  destruct (timing_inverse_ecdf_quantile deltas 99999 100000 Hne) as (b & -> & _ & B1 & B2); [lia..|].
  pose proof (quantile_le_iff deltas 999 1000 a 1000000 ltac:(lia) A1 A2) as QA.
  pose proof (quantile_le_iff deltas 99999 100000 b 10000000 ltac:(lia) B1 B2) as QB.
  unfold deltas in QA at 2. unfold deltas in QB at 2. rewrite count_values_fmap in QA, QB.
  destruct deltas as [ | d ds] eqn:E; [done | ]. cbn [max_element]. rewrite <- E in *.
  destruct (foldl_max_spec ds d) as [M1 M2]. rewrite <- E in M1, M2.
  cbn [cs_delta_count cs_maximum_delta_picoseconds cs_limits_pass cs_passes]. rewrite Hd in *.
  split_and!; [done | | | | done].
  - unfold deltas in M1. apply list_elem_of_fmap in M1 as (p & Ep & Ip). by exists p.
  - apply Forall_forall. intros p Ip. apply M2. unfold deltas. by apply list_elem_of_fmap_2.
  - rewrite !andb_true_iff, Z.eqb_eq, !Z.leb_le, count_pairs_zero, QA, QB. unfold share_within. fold pairs.
    assert (Forall (fun p => p.2 <? p.1 = false) pairs <-> Forall (fun p => p.1 <= p.2) pairs) as ->.
    { split; intros H; apply (Forall_impl _ _ _ H); intros p; lia. }
    rewrite (Z.mul_comm 999), (Z.mul_comm 99999). tauto.
Qed.

Lemma clock_sequence_exact_witness :
  exists evidence, evaluate_clock_sequence [100; 900; 900; 1500] = Some evidence /\
    cs_limits_pass evidence = true /\
    share_within 999 1000 1000000 [100; 900; 900; 1500].
Proof.
  pose proof (clock_sequence_exact [100; 900; 900; 1500]
    ltac:(repeat (apply Forall_cons; split); [int_lia.. | constructor]) ltac:(cbn; int_lia)) as H.
  eexists. split; [vm_compute; reflexivity | ]. split; [reflexivity | ].
  vm_compute in H |- *. apply H. reflexivity.
Defined.

(** ** Cross-core offsets *)

Definition exchange_u64 (exchange : CrossCoreExchangeSample) : Prop :=
  is_u64 (request_send exchange) /\ is_u64 (request_receive exchange) /\
  is_u64 (response_send exchange) /\ is_u64 (response_receive exchange).

(** An offset of the responder's clock that makes neither message arrive before it is sent. *)
Definition offset_consistent (offset : Z) (exchange : CrossCoreExchangeSample) : Prop :=
  response_send exchange - response_receive exchange <= offset <=
  request_receive exchange - request_send exchange.

Definition exchange_regressions (exchange : CrossCoreExchangeSample) : Z :=
  (if request_receive exchange <? request_send exchange then 1 else 0) +
  (if response_receive exchange <? response_send exchange then 1 else 0).

Lemma signed_difference_spec a b d :
  is_u64 a -> is_u64 b -> signed_difference a b = Some d -> d = a - b /\ - i64_max <= d <= i64_max.
Proof.
  intros Ha Hb. unfold signed_difference. rewrite Z.geb_leb. destruct (b <=? a) eqn:E.
  - rewrite u64_sub_small by int_lia. destruct (a - b >? i64_max) eqn:G; [done | ].
    intros [= <-]. int_lia.
  - rewrite u64_sub_small by int_lia. destruct (b - a >? i64_max) eqn:G; [done | ].
    intros [= <-]. int_lia.
Qed.

Lemma exchange_step_spec progress exchange :
  exchange_u64 exchange -> 0 <= ep_regressions progress <= u64_max - 2 ->
  ep_regressions (exchange_step progress exchange) =
    ep_regressions progress + exchange_regressions exchange /\
  (ep_valid (exchange_step progress exchange) = true ->
   ep_valid progress = true /\
   ep_lower (exchange_step progress exchange) =
     Z.max (ep_lower progress) (response_send exchange - response_receive exchange) /\
   ep_upper (exchange_step progress exchange) =
     Z.min (ep_upper progress) (request_receive exchange - request_send exchange) /\
   - i64_max <= response_send exchange - response_receive exchange /\
   request_receive exchange - request_send exchange <= i64_max).
Proof.
  intros (U1 & U2 & U3 & U4) R. unfold exchange_step, exchange_regressions. split.
  - assert (I : forall b : bool, 0 <= (if b then 1 else 0) <= 1) by (intros []; lia).
    pose proof (I (request_receive exchange <? request_send exchange)).
    pose proof (I (response_receive exchange <? response_send exchange)). cbv zeta.
    destruct (signed_difference _ _); [destruct (signed_difference _ _) | ]; cbn [ep_regressions];
      rewrite (u64_add_small (ep_regressions progress)) by lia; rewrite u64_add_small by lia; lia.
  - cbv zeta. destruct (signed_difference (response_send _) _) as [d | ] eqn:E1; [ | done].
    destruct (signed_difference (request_receive _) _) as [e | ] eqn:E2; [ | done].
    apply signed_difference_spec in E1 as [-> B1]; [ | done..].
    apply signed_difference_spec in E2 as [-> B2]; [ | done..]. cbn. intros ->. split_and!; done || lia.
Qed.

Definition total_regressions (l : list CrossCoreExchangeSample) : Z :=
  foldr (fun exchange n => exchange_regressions exchange + n) 0 l.

Lemma exchange_fold_spec l progress :
  Forall exchange_u64 l -> 0 <= ep_regressions progress ->
  ep_regressions progress + 2 * Z.of_nat (length l) <= u64_max ->
  ep_regressions (foldl exchange_step progress l) = ep_regressions progress + total_regressions l /\
  (ep_valid (foldl exchange_step progress l) = true ->
   ep_valid progress = true /\
   Forall (fun e => - i64_max <= response_send e - response_receive e /\
                    request_receive e - request_send e <= i64_max) l /\
   forall offset,
     ep_lower (foldl exchange_step progress l) <= offset <= ep_upper (foldl exchange_step progress l) <->
     ep_lower progress <= offset <= ep_upper progress /\ Forall (offset_consistent offset) l).
Proof.
  revert progress. induction l as [ | e rest IH]; intros p F R B; cbn [foldl].
  { cbn. split; [lia | ]. intros V. split_and!; [done | constructor | ]. intros o. split; [done | by intros [? _]]. }
  apply Forall_cons in F as [Fe F]. cbn [length] in B.
  destruct (exchange_step_spec p e Fe ltac:(lia)) as [S1 S2].
  assert (0 <= exchange_regressions e <= 2) by (unfold exchange_regressions; repeat case_match; lia).
  destruct (IH (exchange_step p e) F ltac:(lia) ltac:(lia)) as [I1 I2].
  change (total_regressions (e :: rest)) with (exchange_regressions e + total_regressions rest).
  split; [rewrite I1, S1; lia | ]. intros V. destruct (I2 V) as (V1 & C & O).
  destruct (S2 V1) as (V2 & L & U & B1 & B2). split; [done | ]. split; [by constructor | ].
  intros o. rewrite O, Forall_cons, L, U. unfold offset_consistent at 2. split.
  - intros [? ?]. split_and!; done || lia.
  - intros (? & ? & ?). split; [lia | done].
Qed.

Lemma interval_width_spec lower upper :
  is_i64 lower -> is_i64 upper -> lower <= upper -> interval_width lower upper = upper - lower.
Proof.
  intros Hl Hu H. unfold interval_width, u64_of_i64. rewrite Z.geb_leb.
  destruct (0 <=? lower) eqn:E; [apply u64_wrap_id; int_lia | ].
  destruct (upper <? 0) eqn:E2; rewrite !u64_wrap_id by int_lia.
  - rewrite u64_sub_small; int_lia.
  - rewrite (u64_add_small (- (lower + 1))) by int_lia. rewrite u64_add_small; int_lia.
Qed.

(** The verdict on one window. *)
Definition window_sound (window : CrossCoreWindowInput) (evidence : CrossCoreWindowEvidence) : Prop :=
  (forall offset, Forall (offset_consistent offset) (exchanges window) <->
                  lower_picoseconds evidence <= offset <= upper_picoseconds evidence) /\
  -100000 <= lower_picoseconds evidence <= upper_picoseconds evidence /\
  upper_picoseconds evidence <= 100000 /\
  midpoint_twice_picoseconds evidence = lower_picoseconds evidence + upper_picoseconds evidence.

Lemma cross_core_window_spec regressions valid window regressions' valid' evidence :
  Forall exchange_u64 (exchanges window) -> exchanges window <> [] ->
  0 <= regressions -> regressions + 2 * Z.of_nat (length (exchanges window)) <= u64_max ->
  cross_core_window regressions valid window = (regressions', valid', evidence) ->
  regressions' = regressions + total_regressions (exchanges window) /\
  (valid' = true -> valid = true /\ (window_passes evidence = true -> window_sound window evidence)).
Proof.
  intros F Ne R B H. unfold cross_core_window in H. injection H as <- Hv <-.
  destruct (exchange_fold_spec (exchanges window) (mkExchangeProgress regressions valid i64_min i64_max) F R B)
    as [S1 S2]. split; [exact S1 | ]. intros V. rewrite <- Hv in V. apply andb_true_iff in V as [_ V].
  destruct (S2 V) as (V1 & C & O). split; [exact V1 | ]. unfold window_passes, window_sound.
  cbn [interval_nonempty bounds_pass width_pass lower_picoseconds upper_picoseconds
       midpoint_twice_picoseconds].
  set (lo := ep_lower _) in *. set (up := ep_upper _) in *. rewrite V. cbn [andb].
  destruct (lo <=? up) eqn:E; [ | done]. cbn [andb negb default].
  rewrite !andb_true_iff. intros [[B1 B2] _].
  split_and!; [ | lia.. | ].
  - intros o. rewrite O. cbn [ep_lower ep_upper]. split; [ | by intros [_ ?]]. intros Ho. split; [ | done].
    destruct (exchanges window) as [ | e l]; [done | ]. apply Forall_cons in C as [[C1 C2] _].
    apply Forall_cons in Ho as [Ho _]. unfold offset_consistent in Ho. int_lia.
  - unfold checked_sum. assert ((up >? 0) && (lo >? i64_max - up) || (up <? 0) && (lo <? i64_min - up) = false) as ->;
      [int_lia | done].
Qed.

Lemma cross_core_windows_spec windows : forall regressions valid regressions' valid' evidences,
  Forall (fun w => Forall exchange_u64 (exchanges w) /\ exchanges w <> []) windows ->
  0 <= regressions ->
  regressions + 2 * Z.of_nat (length (mjoin (exchanges <$> windows))) <= u64_max ->
  cross_core_windows regressions valid windows = (regressions', valid', evidences) ->
  regressions' = regressions + total_regressions (mjoin (exchanges <$> windows)) /\
  (valid' = true -> valid = true /\
   (forallb window_passes evidences = true -> Forall2 window_sound windows evidences)).
Proof.
  induction windows as [ | w rest IH]; intros regs v regs' v' evs F R B H; cbn [cross_core_windows] in H.
  { injection H as <- <- <-. cbn. split; [lia | ]. intros ->. by repeat constructor. }
  apply Forall_cons in F as [[F1 F2] F].
  change (mjoin (exchanges <$> w :: rest)) with (exchanges w ++ mjoin (exchanges <$> rest)) in B |- *.
  rewrite length_app in B.
  destruct (cross_core_window regs v w) as [[r1 v1] e] eqn:W.
  destruct (cross_core_windows r1 v1 rest) as [[r2 v2] es] eqn:Ws. injection H as <- <- <-.
  destruct (cross_core_window_spec _ _ _ _ _ _ F1 F2 R ltac:(lia) W) as [S1 S2].
  assert (T : forall l, 0 <= total_regressions l <= 2 * Z.of_nat (length l)).
  { induction l as [ | x l IHl]; [done | ].
    change (total_regressions (x :: l)) with (exchange_regressions x + total_regressions l).
    cbn [length]. unfold exchange_regressions. repeat case_match; lia. }
  pose proof (T (exchanges w)) as Tw.
  destruct (IH r1 v1 r2 v2 es F ltac:(lia) ltac:(lia) Ws) as [I1 I2]. split.
  - rewrite I1, S1. unfold total_regressions. rewrite foldr_app.
    assert (A : forall l n, foldr (fun x m => exchange_regressions x + m) n l =
                            foldr (fun x m => exchange_regressions x + m) 0 l + n).
    { induction l as [ | x l IHl]; intros n; cbn; [lia | ]. rewrite IHl. lia. }
    rewrite (A (exchanges w) (foldr _ 0 (mjoin _))). lia.
  - intros V. destruct (I2 V) as [V1 P]. destruct (S2 V1) as [V0 P0]. split; [done | ].
    cbn [forallb]. rewrite andb_true_iff. intros [Q1 Q2]. constructor; auto.
Qed.

Lemma no_regressions l :
  total_regressions l = 0 -> Forall (offset_consistent 0) l.
Proof.
  assert (T : forall l, 0 <= total_regressions l).
  { induction l0 as [ | x l0 IH]; [done | ].
    change (total_regressions (x :: l0)) with (exchange_regressions x + total_regressions l0).
    unfold exchange_regressions. repeat case_match; lia. }
  induction l as [ | x l IH]; intros H; [constructor | ].
  change (total_regressions (x :: l)) with (exchange_regressions x + total_regressions l) in H.
  pose proof (T l). unfold exchange_regressions in H. constructor.
  - unfold offset_consistent. repeat case_match; lia.
  - apply IH. repeat case_match; lia.
Qed.

Lemma foldl_min_spec values v :
  foldl Z.min v values ∈ v :: values /\ forall x, x ∈ v :: values -> foldl Z.min v values <= x.
Proof.
  revert v. induction values as [ | y rest IH]; intros v; cbn.
  { split; [by left | ]. intros x Hx%list_elem_of_singleton. lia. }
  destruct (IH (Z.min v y)) as [I L]. split.
  - apply elem_of_cons in I as [I | I]; [ | set_solver]. rewrite I.
    destruct (Z.min_spec v y) as [[_ ->] | [_ ->]]; set_solver.
  - intros x [-> | [-> | Hx]%elem_of_cons]%elem_of_cons; [ | | apply L; by right];
      specialize (L (Z.min v y) (ltac:(left))); lia.
Qed.

Lemma midpoints_small windows evidences m :
  Forall2 window_sound windows evidences -> m ∈ midpoint_twice_picoseconds <$> evidences ->
  -200000 <= m <= 200000.
Proof.
  intros S H. apply list_elem_of_fmap in H as (e & -> & I).
  apply list_elem_of_lookup in I as (i & I).
  destruct (Forall2_lookup_r _ _ _ _ _ S I) as (w & _ & (_ & B1 & B2 & ->)). lia.
Qed.

(** The spread of the midpoints that an accepted range allows. *)
Lemma midpoint_spread windows evidences lo hi :
  Forall2 window_sound windows evidences ->
  min_element (midpoint_twice_picoseconds <$> evidences) = Some lo ->
  max_element (midpoint_twice_picoseconds <$> evidences) = Some hi ->
  interval_width lo hi <= 100000 ->
  forall e e', e ∈ evidences -> e' ∈ evidences ->
  midpoint_twice_picoseconds e - midpoint_twice_picoseconds e' <= 100000.
Proof.
  intros S Hl Hh W e e' I I'.
  apply (list_elem_of_fmap_2 midpoint_twice_picoseconds) in I, I'.
  pose proof (fun m => midpoints_small windows evidences m S) as Sm.
  destruct (midpoint_twice_picoseconds <$> evidences) as [ | v l]; [done | ].
  injection Hl as <-. injection Hh as <-.
  destruct (foldl_min_spec l v) as [A1 A2]. destruct (foldl_max_spec l v) as [B1 B2].
  pose proof (Sm _ A1). pose proof (Sm _ B1). pose proof (A2 _ B1).
  rewrite interval_width_spec in W by int_lia. pose proof (A2 _ I'). pose proof (B2 _ I). lia.
Qed.

(** C32. Cross-core offsets: when a direction passes its limits there are three windows that
    start over at least a minute, and the interval reported for each window is exactly the
    set of clock offsets consistent with all of its exchanges (no message arrives before it
    is sent). It contains the offset zero and lies within 100 nanoseconds of it, and the
    midpoints of the windows differ by at most 50 nanoseconds. *)
Theorem cross_core_direction_sound windows evidence :
  Forall (fun w => Forall exchange_u64 (exchanges w) /\ is_u64 (start_absolute_nanoseconds w)) windows ->
  2 * Z.of_nat (length (mjoin (exchanges <$> windows))) <= u64_max ->
  evaluate_cross_core_direction windows = Some evidence -> cd_limits_pass evidence = true ->
  Forall2 window_sound windows (cd_windows evidence) /\
  Forall (fun w => Forall (offset_consistent 0) (exchanges w)) windows /\
  (forall e e', e ∈ cd_windows evidence -> e' ∈ cd_windows evidence ->
   Z.abs (midpoint_twice_picoseconds e - midpoint_twice_picoseconds e') <= 100000) /\
  exists a b c, windows = [a; b; c] /\
    start_absolute_nanoseconds a + 60000000000 <= start_absolute_nanoseconds c.
Proof.
  intros F B H L. unfold evaluate_cross_core_direction in H.
  destruct windows as [ | a [ | b [ | c [ | ]]]]; try done.
  destruct (_ || _) eqn:E in H; [done | ]. apply orb_false_iff in E as [E1 E2].
  destruct (cross_core_windows 0 true [a; b; c]) as [[regs valid] evs] eqn:W.
  destruct (min_element _) as [lo | ] eqn:M1; [ | done].
  destruct (max_element _) as [hi | ] eqn:M2; [ | done]. injection H as <-. cbn in L |- *.
  rewrite !andb_true_iff in L. destruct L as [[[[V R] [Sp1 Sp2]] Lim] D].
  assert (F' : Forall (fun w => Forall exchange_u64 (exchanges w) /\ exchanges w <> []) [a; b; c]).
  { apply Forall_forall. intros w Iw. rewrite Forall_forall in F. split; [by apply F | ]. intros Hw.
    assert (Z : existsb (fun w => negb (Z.of_nat (length (exchanges w)) =? Z.of_nat (length (exchanges a))))
                  [a; b; c] = true); [ | by rewrite Z in E2].
    apply existsb_exists. exists w. split; [by apply list_elem_of_In | ].
    rewrite Hw, negb_true_iff, Z.eqb_neq. apply Z.eqb_neq in E1. cbn [length]. lia. }
  destruct (cross_core_windows_spec [a; b; c] 0 true regs valid evs F' ltac:(lia) B W) as [S1 S2].
  destruct (S2 V) as [_ S3]. pose proof (S3 Lim) as S. split; [exact S | ]. split.
  - assert (N : Forall (offset_consistent 0) (mjoin (exchanges <$> [a; b; c]))) by
      (apply no_regressions; apply Z.eqb_eq in R; rewrite S1 in R; exact R).
    cbn in N. rewrite !Forall_app in N.
    destruct N as (N1 & N2 & N3 & _). repeat (apply Forall_cons; split); done || constructor.
  - split.
    + intros e e' I I'.
      pose proof (midpoint_spread _ _ _ _ S M1 M2 ltac:(lia) e e' I I').
      pose proof (midpoint_spread _ _ _ _ S M1 M2 ltac:(lia) e' e I' I). lia.
    + exists a, b, c. split; [done | ]. rewrite !Forall_cons in F. destruct F as ([_ Ua] & _ & [_ Uc] & _).
      rewrite u64_sub_small in Sp2 by int_lia.
      unfold kMinimumCrossCoreWindowStartSpanNanoseconds in Sp2. lia.
Qed.

Lemma cross_core_direction_sound_witness :
  let window start := mkCrossCoreWindowInput start
    [mkCrossCoreExchangeSample 1000 31000 40000 90000; mkCrossCoreExchangeSample 100000 150000 160000 180000] in
  exists evidence,
    evaluate_cross_core_direction [window 0; window 30000000000; window 60000000000] = Some evidence /\
    (lower_picoseconds <$> cd_windows evidence) = [-20000; -20000; -20000] /\
    Forall2 window_sound [window 0; window 30000000000; window 60000000000] (cd_windows evidence).
Proof.
  intros window. eexists. split; [vm_compute; reflexivity | ]. split; [reflexivity | ].
  refine (proj1 (cross_core_direction_sound [window 0; window 30000000000; window 60000000000] _ _ _ _ _)).
  - repeat (apply Forall_cons; split); try constructor; try (cbn; int_lia);
      repeat (apply Forall_cons; split); try constructor; unfold exchange_u64; cbn; int_lia.
  - cbn. int_lia.
  - vm_compute. reflexivity.
  - reflexivity.
Defined.
