(* ===== verification/PlatformControl.v ===== *)
(** * Platform control

    Models the control half of [src/platform/platform.cpp] and its header: the
    capabilities of an inventory, the validation of a requested state, its application
    through an actuator with the restoration of what was changed, and its verification
    by independent readback. The abstract classes [ControlActuator] and [StateVerifier]
    are the parameters of their sections: a backend is a state with one function per
    method. *)

From stdpp Require Import prelude list strings.
From Stdlib Require Import ZArith Lia.
From S2P Require Import Prelude Validation Model Load.

#[local] Open Scope Z_scope.

Definition kPlatformEvidenceVersion : string := "LINUX-PLATFORM-EVIDENCE-v1".

(** ** Data *)

Inductive PlatformErrorCategory : Set :=
| PlatformErrorCategory_parse_error
| PlatformErrorCategory_missing_evidence
| PlatformErrorCategory_invalid_request
| PlatformErrorCategory_impossible_placement
| PlatformErrorCategory_sibling_conflict
| PlatformErrorCategory_numa_mismatch
| PlatformErrorCategory_unsupported_control
| PlatformErrorCategory_privilege_denied
| PlatformErrorCategory_apply_failure
| PlatformErrorCategory_verification_mismatch
| PlatformErrorCategory_restoration_failure
| PlatformErrorCategory_stale_state
| PlatformErrorCategory_manifest_incomplete
| PlatformErrorCategory_io_error.

#[export] Instance PlatformErrorCategory_eq_dec : EqDecision PlatformErrorCategory.
Proof. solve_decision. Defined.

Inductive ControlKind : Set :=
| ControlKind_producer_affinity
| ControlKind_consumer_affinity
| ControlKind_producer_actual_cpu
| ControlKind_consumer_actual_cpu
| ControlKind_shared_memory_policy
| ControlKind_producer_private_memory_policy
| ControlKind_consumer_private_memory_policy
| ControlKind_shared_page_residency
| ControlKind_private_page_residency
| ControlKind_base_page_state
| ControlKind_huge_page_state
| ControlKind_governor
| ControlKind_fixed_frequency
| ControlKind_turbo
| ControlKind_c_state
| ControlKind_smt
| ControlKind_interrupt_routing
| ControlKind_cpu_isolation
| ControlKind_hardware_prefetch
| ControlKind_clock_source
| ControlKind_microcode
| ControlKind_firmware
| ControlKind_compiler
| ControlKind_binary
| ControlKind_library.

#[export] Instance ControlKind_eq_dec : EqDecision ControlKind.
Proof. solve_decision. Defined.

Inductive CapabilityStatus : Set :=
| CapabilityStatus_read_only
| CapabilityStatus_external_authority_required
| CapabilityStatus_unavailable
| CapabilityStatus_mapping_unresolved.

#[export] Instance CapabilityStatus_eq_dec : EqDecision CapabilityStatus.
Proof. solve_decision. Defined.

Inductive MemoryPolicy : Set :=
| MemoryPolicy_bind_producer_node
| MemoryPolicy_bind_worker_local
| MemoryPolicy_interleave
| MemoryPolicy_consumer_local
| MemoryPolicy_replicated
| MemoryPolicy_migrated.

#[export] Instance MemoryPolicy_eq_dec : EqDecision MemoryPolicy.
Proof. solve_decision. Defined.

Inductive PagePolicy : Set :=
| PagePolicy_verified_base_pages
| PagePolicy_explicit_huge_pages
| PagePolicy_transparent_huge_pages.

#[export] Instance PagePolicy_eq_dec : EqDecision PagePolicy.
Proof. solve_decision. Defined.

Inductive ApplyMode : Set :=
| ApplyMode_dry_run
| ApplyMode_authorized_apply.

#[export] Instance ApplyMode_eq_dec : EqDecision ApplyMode.
Proof. solve_decision. Defined.

Inductive StepStatus : Set :=
| StepStatus_planned
| StepStatus_applied
| StepStatus_apply_failed
| StepStatus_verified
| StepStatus_verification_failed
| StepStatus_stale
| StepStatus_restored
| StepStatus_restoration_failed.

#[export] Instance StepStatus_eq_dec : EqDecision StepStatus.
Proof. solve_decision. Defined.

Record PlatformError : Set := mkPlatformError {
  er_category : PlatformErrorCategory;
  er_path : string;
  er_rule_id : string;
  er_message : string
}.

Record EvidenceValue : Set := mkEvidenceValue {
  ev_name : string;
  ev_source : string;
  ev_value : option string
}.

Record LogicalCpu : Set := mkLogicalCpu {
  lc_logical_id : Z;
  lc_core_id : Z;
  lc_package_id : Z;
  lc_numa_node : Z;
  lc_thread_siblings : list Z;
  lc_cache_domains : list string;
  lc_online : bool
}.

Record CacheDomain : Set := mkCacheDomain {
  dm_domain_id : string;
  dm_level : Z;
  dm_kind : string;
  dm_size_bytes : Z;
  dm_shared_cpus : list Z;
  dm_last_level : bool
}.

Record NumaNode : Set := mkNumaNode {
  nn_node_id : Z;
  nn_logical_cpus : list Z
}.

Record PciDevice : Set := mkPciDevice {
  pd_address : string;
  pd_vendor : string;
  pd_device : string;
  pd_device_class : string;
  pd_numa_node : option Z;
  pd_local_cpus : list Z
}.

Record CpuIdentity : Set := mkCpuIdentity {
  ci_vendor : string;
  ci_model : string;
  ci_stepping : string;
  ci_microcode : string;
  ci_cache_line_bytes : Z;
  ci_atomic_width_bits : Z;
  ci_atomic_alignment_bytes : Z;
  ci_pointer_atomic_lock_free : bool
}.

Record SoftwareIdentity : Set := mkSoftwareIdentity {
  sw_operating_system : string;
  sw_kernel : string;
  sw_compiler : string;
  sw_standard_library : string;
  sw_language_standard : string
}.

Record PlatformInventory : Set := mkPlatformInventory {
  in_snapshot_id : string;
  in_captured_at_utc : string;
  in_cpu : CpuIdentity;
  in_software : SoftwareIdentity;
  in_base_page_bytes : Z;
  in_logical_cpus : list LogicalCpu;
  in_cache_domains : list CacheDomain;
  in_numa_nodes : list NumaNode;
  in_pci_devices : list PciDevice;
  in_observations : list EvidenceValue
}.

Record Capability : Set := mkCapability {
  cb_kind : ControlKind;
  cb_status : CapabilityStatus;
  cb_detection_mechanism : string;
  cb_evidence : string;
  cb_kernel_privilege_required : bool
}.

Record PlacementRequest : Set := mkPlacementRequest {
  pr_placement : Placement;
  pr_producer_cpu : Z;
  pr_consumer_cpu : Z;
  pr_shared_memory_policy : MemoryPolicy;
  pr_shared_memory_nodes : list Z;
  pr_producer_private_memory_policy : MemoryPolicy;
  pr_producer_private_nodes : list Z;
  pr_consumer_private_memory_policy : MemoryPolicy;
  pr_consumer_private_nodes : list Z;
  pr_page_policy : PagePolicy;
  pr_requested_page_bytes : Z
}.

Record ControlRequest : Set := mkControlRequest {
  cr_control_id : string;
  cr_kind : ControlKind;
  cr_target : string;
  cr_requested_value : string;
  cr_mandatory : bool;
  cr_mutating : bool;
  cr_authority_id : string;
  cr_actuation_mechanism : string;
  cr_verification_mechanism : string
}.

Record RequestedState : Set := mkRequestedState {
  rq_request_id : string;
  rq_inventory_snapshot_id : string;
  rq_state_epoch : Z;
  rq_placement : PlacementRequest;
  rq_hardware_prefetch_state : RequestedHardwareState;
  rq_controls : list ControlRequest
}.

Record StateObservation : Set := mkStateObservation {
  so_control_id : string;
  so_inventory_snapshot_id : string;
  so_state_epoch : Z;
  so_observed_value : option string;
  so_evidence_id : string;
  so_mechanism_id : string
}.

Record BackendResult : Set := mkBackendResult {
  br_succeeded : bool;
  br_evidence_id : string;
  br_detail : string;
  br_failure_category : option PlatformErrorCategory
}.

Record ApplyStep : Set := mkApplyStep {
  st_control_id : string;
  st_status : StepStatus;
  st_evidence_id : string;
  st_detail : string
}.

Record RestorationReport : Set := mkRestorationReport {
  rs_attempted : bool;
  rs_complete : bool;
  rs_steps : list ApplyStep;
  rs_errors : list PlatformError
}.

Record ApplyReport : Set := mkApplyReport {
  ap_mode : ApplyMode;
  ap_complete : bool;
  ap_steps : list ApplyStep;
  ap_restoration : RestorationReport;
  ap_errors : list PlatformError
}.

Record VerificationReport : Set := mkVerificationReport {
  vr_complete : bool;
  vr_all_mandatory_match : bool;
  vr_observations : list StateObservation;
  vr_steps : list ApplyStep;
  vr_errors : list PlatformError
}.

(** [platform::Result]. *)
Inductive PlatformResult (T : Type) : Type :=
| PlatformSuccess (value : T)
| PlatformFailure (errors : list PlatformError).
Arguments PlatformSuccess {T} value.
Arguments PlatformFailure {T} errors.

(** ** Names *)

Definition to_string_PlatformErrorCategory (value : PlatformErrorCategory) : string :=
  match value with
  | PlatformErrorCategory_parse_error => "PARSE_ERROR"
  | PlatformErrorCategory_missing_evidence => "MISSING_EVIDENCE"
  | PlatformErrorCategory_invalid_request => "INVALID_REQUEST"
  | PlatformErrorCategory_impossible_placement => "IMPOSSIBLE_PLACEMENT"
  | PlatformErrorCategory_sibling_conflict => "SIBLING_CONFLICT"
  | PlatformErrorCategory_numa_mismatch => "NUMA_MISMATCH"
  | PlatformErrorCategory_unsupported_control => "UNSUPPORTED_CONTROL"
  | PlatformErrorCategory_privilege_denied => "PRIVILEGE_DENIED"
  | PlatformErrorCategory_apply_failure => "APPLY_FAILURE"
  | PlatformErrorCategory_verification_mismatch => "VERIFICATION_MISMATCH"
  | PlatformErrorCategory_restoration_failure => "RESTORATION_FAILURE"
  | PlatformErrorCategory_stale_state => "STALE_STATE"
  | PlatformErrorCategory_manifest_incomplete => "MANIFEST_INCOMPLETE"
  | PlatformErrorCategory_io_error => "IO_ERROR"
  end.

Definition to_string_ControlKind (value : ControlKind) : string :=
  match value with
  | ControlKind_producer_affinity => "PRODUCER_AFFINITY"
  | ControlKind_consumer_affinity => "CONSUMER_AFFINITY"
  | ControlKind_producer_actual_cpu => "PRODUCER_ACTUAL_CPU"
  | ControlKind_consumer_actual_cpu => "CONSUMER_ACTUAL_CPU"
  | ControlKind_shared_memory_policy => "SHARED_MEMORY_POLICY"
  | ControlKind_producer_private_memory_policy => "PRODUCER_PRIVATE_MEMORY_POLICY"
  | ControlKind_consumer_private_memory_policy => "CONSUMER_PRIVATE_MEMORY_POLICY"
  | ControlKind_shared_page_residency => "SHARED_PAGE_RESIDENCY"
  | ControlKind_private_page_residency => "PRIVATE_PAGE_RESIDENCY"
  | ControlKind_base_page_state => "BASE_PAGE_STATE"
  | ControlKind_huge_page_state => "HUGE_PAGE_STATE"
  | ControlKind_governor => "GOVERNOR"
  | ControlKind_fixed_frequency => "FIXED_FREQUENCY"
  | ControlKind_turbo => "TURBO"
  | ControlKind_c_state => "C_STATE"
  | ControlKind_smt => "SMT"
  | ControlKind_interrupt_routing => "INTERRUPT_ROUTING"
  | ControlKind_cpu_isolation => "CPU_ISOLATION"
  | ControlKind_hardware_prefetch => "HARDWARE_PREFETCH"
  | ControlKind_clock_source => "CLOCK_SOURCE"
  | ControlKind_microcode => "MICROCODE"
  | ControlKind_firmware => "FIRMWARE"
  | ControlKind_compiler => "COMPILER"
  | ControlKind_binary => "BINARY"
  | ControlKind_library => "LIBRARY"
  end.

Definition to_string_CapabilityStatus (value : CapabilityStatus) : string :=
  match value with
  | CapabilityStatus_read_only => "READ_ONLY"
  | CapabilityStatus_external_authority_required => "EXTERNAL_AUTHORITY_REQUIRED"
  | CapabilityStatus_unavailable => "UNAVAILABLE"
  | CapabilityStatus_mapping_unresolved => "MAPPING_UNRESOLVED"
  end.

Definition to_string_MemoryPolicy (value : MemoryPolicy) : string :=
  match value with
  | MemoryPolicy_bind_producer_node => "BIND_PRODUCER_NODE"
  | MemoryPolicy_bind_worker_local => "BIND_WORKER_LOCAL"
  | MemoryPolicy_interleave => "INTERLEAVE"
  | MemoryPolicy_consumer_local => "CONSUMER_LOCAL"
  | MemoryPolicy_replicated => "REPLICATED"
  | MemoryPolicy_migrated => "MIGRATED"
  end.

Definition to_string_PagePolicy (value : PagePolicy) : string :=
  match value with
  | PagePolicy_verified_base_pages => "VERIFIED_BASE_PAGES"
  | PagePolicy_explicit_huge_pages => "EXPLICIT_HUGE_PAGES"
  | PagePolicy_transparent_huge_pages => "TRANSPARENT_HUGE_PAGES"
  end.

Definition to_string_ApplyMode (value : ApplyMode) : string :=
  match value with
  | ApplyMode_dry_run => "DRY_RUN"
  | ApplyMode_authorized_apply => "AUTHORIZED_APPLY"
  end.

Definition to_string_StepStatus (value : StepStatus) : string :=
  match value with
  | StepStatus_planned => "PLANNED"
  | StepStatus_applied => "APPLIED"
  | StepStatus_apply_failed => "APPLY_FAILED"
  | StepStatus_verified => "VERIFIED"
  | StepStatus_verification_failed => "VERIFICATION_FAILED"
  | StepStatus_stale => "STALE"
  | StepStatus_restored => "RESTORED"
  | StepStatus_restoration_failed => "RESTORATION_FAILED"
  end.

(** ** Lookups *)

Definition find_cpu (inventory : PlatformInventory) (id : Z) : option LogicalCpu :=
  List.find (fun cpu => lc_logical_id cpu =? id) (in_logical_cpus inventory).

Definition contains (values : list Z) (value : Z) : bool := existsb (Z.eqb value) values.

Definition same_last_level_cache (inventory : PlatformInventory) (a b : LogicalCpu) : bool :=
  existsb (fun domain => dm_last_level domain && contains (dm_shared_cpus domain) (lc_logical_id a) &&
                         contains (dm_shared_cpus domain) (lc_logical_id b))
    (in_cache_domains inventory).

Definition capability_for (capabilities : list Capability) (kind : ControlKind) : option Capability :=
  List.find (fun capability => bool_decide (cb_kind capability = kind)) capabilities.

Definition observation_for (observations : list StateObservation) (control_id : string) :
    option StateObservation :=
  List.find (fun observation => bool_decide (so_control_id observation = control_id)) observations.

Definition has_observation (inventory : PlatformInventory) (name : string) : bool :=
  existsb (fun observation => bool_decide (ev_name observation = name) && is_some (ev_value observation))
    (in_observations inventory).

(** ** Capabilities *)

Definition detect_capabilities (inventory : PlatformInventory) : list Capability :=
  let has_numa := nonempty (in_numa_nodes inventory) in
  let has_cpufreq := has_observation inventory "cpufreq" in
  let has_turbo := has_observation inventory "turbo" in
  let has_cpuidle := has_observation inventory "cpuidle" in
  let has_smt := has_observation inventory "smt" in
  let has_interrupt := has_observation inventory "interrupt_affinity" in
  let has_isolation := has_observation inventory "cpu_isolation" in
  let has_clock := has_observation inventory "clock_source" in
  let has_firmware := has_observation inventory "firmware" in
  let has_huge_pages := has_observation inventory "huge_pages" in
  let read_only kind mechanism evidence :=
    mkCapability kind CapabilityStatus_read_only mechanism evidence false in
  let external kind mechanism evidence privilege :=
    mkCapability kind CapabilityStatus_external_authority_required mechanism evidence privilege in
  let conditional kind (available : bool) mechanism evidence privilege :=
    mkCapability kind
      (if available then CapabilityStatus_external_authority_required else CapabilityStatus_unavailable)
      mechanism evidence privilege in
  [external ControlKind_producer_affinity "sched_setaffinity"
     "Linux affinity API; role authorization remains mandatory" false;
   external ControlKind_consumer_affinity "sched_setaffinity"
     "Linux affinity API; role authorization remains mandatory" false;
   read_only ControlKind_producer_actual_cpu "sched_getcpu+affinity-readback"
     "independent worker observation required";
   read_only ControlKind_consumer_actual_cpu "sched_getcpu+affinity-readback"
     "independent worker observation required";
   conditional ControlKind_shared_memory_policy has_numa "mbind-or-set_mempolicy"
     "NUMA topology is readable" false;
   conditional ControlKind_producer_private_memory_policy has_numa "mbind-or-set_mempolicy"
     "NUMA topology is readable" false;
   conditional ControlKind_consumer_private_memory_policy has_numa "mbind-or-set_mempolicy"
     "NUMA topology is readable" false;
   read_only ControlKind_shared_page_residency "move_pages+procfs"
     "address-specific before/during/after evidence required";
   read_only ControlKind_private_page_residency "move_pages+procfs"
     "address-specific before/during/after evidence required";
   external ControlKind_base_page_state "allocation-policy+smaps-readback"
     "base page size inventoried; address-specific readback required" false;
   conditional ControlKind_huge_page_state has_huge_pages "sysfs+smaps-readback"
     "huge-page state observation" true;
   conditional ControlKind_governor has_cpufreq "cpufreq-sysfs" "cpufreq policy files" true;
   conditional ControlKind_fixed_frequency has_cpufreq "cpufreq-sysfs"
     "cpufreq min/max policy files" true;
   conditional ControlKind_turbo has_turbo "platform-turbo-sysfs"
     "vendor-neutral mechanism not assumed" true;
   conditional ControlKind_c_state has_cpuidle "cpuidle-sysfs"
     "cpuidle driver/governor observation" true;
   conditional ControlKind_smt has_smt "smt-sysfs" "SMT state is readable" true;
   conditional ControlKind_interrupt_routing has_interrupt "procfs-irq" "IRQ affinity is readable" true;
   conditional ControlKind_cpu_isolation has_isolation "sysfs+kernel-cmdline"
     "isolation/nohz observations" true;
   mkCapability ControlKind_hardware_prefetch CapabilityStatus_mapping_unresolved "vendor-specific-unresolved"
     "exact manual, field map, authority, readback, probes, and rollback absent" true;
   mkCapability ControlKind_clock_source
     (if has_clock then CapabilityStatus_read_only else CapabilityStatus_unavailable) "clocksource-sysfs"
     "current clocksource observation" false;
   read_only ControlKind_microcode "proc-cpuinfo" "microcode observation";
   mkCapability ControlKind_firmware
     (if has_firmware then CapabilityStatus_read_only else CapabilityStatus_unavailable) "dmi-sysfs"
     "firmware observation" false;
   read_only ControlKind_compiler "build-metadata" "compiled identity";
   read_only ControlKind_binary "sha256-artifact" "caller-supplied artifact hash";
   read_only ControlKind_library "dependency-manifest" "caller-supplied dependency provenance"].

(** ** Validation *)

Definition platform_error_when (condition : bool) (category : PlatformErrorCategory)
    (path rule_id message : string) : list PlatformError :=
  if condition then [mkPlatformError category path rule_id message] else [].

Definition singleton_node (nodes : list Z) (expected : Z) : bool :=
  match nodes with [node] => node =? expected | _ => false end.

Definition siblings (a b : LogicalCpu) : bool :=
  ((lc_package_id a =? lc_package_id b) && (lc_core_id a =? lc_core_id b)) ||
  contains (lc_thread_siblings a) (lc_logical_id b) || contains (lc_thread_siblings b) (lc_logical_id a).

(** The branch for two distinct online CPUs. *)
Definition placement_errors (inventory : PlatformInventory) (placement : PlacementRequest)
    (producer consumer : LogicalCpu) : list PlatformError :=
  platform_error_when (siblings producer consumer) PlatformErrorCategory_sibling_conflict
    "$request/placement" "PLT-NON-SMT-PAIR" "producer and consumer resolve to one physical core" ++
  match pr_placement placement with
  | Placement_near =>
      platform_error_when
        (negb (lc_numa_node producer =? lc_numa_node consumer) ||
         negb (same_last_level_cache inventory producer consumer))
        PlatformErrorCategory_numa_mismatch "$request/placement" "PLT-NEAR"
        "NEAR requires one NUMA node and a shared last-level cache domain"
  | Placement_far =>
      platform_error_when (lc_numa_node producer =? lc_numa_node consumer)
        PlatformErrorCategory_numa_mismatch "$request/placement" "PLT-FAR"
        "FAR requires CPUs in different NUMA nodes"
  | _ =>
      platform_error_when true PlatformErrorCategory_invalid_request "$request/placement/placement"
        "PLT-STAGE-A-PLACEMENT" "only NEAR and FAR are Stage A placements"
  end ++
  platform_error_when
    (negb (bool_decide (pr_shared_memory_policy placement = MemoryPolicy_bind_producer_node)) ||
     negb (singleton_node (pr_shared_memory_nodes placement) (lc_numa_node producer)))
    PlatformErrorCategory_numa_mismatch "$request/placement/shared_memory" "PLT-PRODUCER-HOME"
    "Stage A shared queue, nodes, records, and schedule must be producer-home" ++
  platform_error_when
    (negb (bool_decide (pr_producer_private_memory_policy placement = MemoryPolicy_bind_worker_local)) ||
     negb (singleton_node (pr_producer_private_nodes placement) (lc_numa_node producer)))
    PlatformErrorCategory_numa_mismatch "$request/placement/producer_private_memory" "PLT-PRODUCER-PRIVATE"
    "producer-private buffers must be producer-local" ++
  platform_error_when
    (negb (bool_decide (pr_consumer_private_memory_policy placement = MemoryPolicy_bind_worker_local)) ||
     negb (singleton_node (pr_consumer_private_nodes placement) (lc_numa_node consumer)))
    PlatformErrorCategory_numa_mismatch "$request/placement/consumer_private_memory" "PLT-CONSUMER-PRIVATE"
    "consumer-private buffers must be consumer-local".

Definition capability_missing (capabilities : list Capability) (control : ControlRequest) : bool :=
  match capability_for capabilities (cr_kind control) with
  | None => true
  | Some capability =>
      bool_decide (cb_status capability = CapabilityStatus_unavailable) ||
      bool_decide (cb_status capability = CapabilityStatus_mapping_unresolved) ||
      (cr_mutating control && bool_decide (cb_status capability = CapabilityStatus_read_only))
  end.

(** One control, after the control identities seen. *)
Definition control_errors (capabilities : list Capability) (control_ids : list string)
    (control : ControlRequest) : list PlatformError :=
  let path := "$request/controls/" +:+ cr_control_id control in
  platform_error_when
    (str_empty (cr_control_id control) || str_empty (cr_target control) ||
     str_empty (cr_requested_value control) || str_empty (cr_verification_mechanism control))
    PlatformErrorCategory_invalid_request path "PLT-CONTROL-FIELDS"
    "control identity, target, value, and readback are required" ++
  platform_error_when (bool_decide (cr_control_id control ∈ control_ids))
    PlatformErrorCategory_invalid_request path "PLT-CONTROL-UNIQUE"
    "control IDs must be unique within a request" ++
  platform_error_when
    (cr_mutating control &&
     (str_empty (cr_authority_id control) || str_empty (cr_actuation_mechanism control)))
    PlatformErrorCategory_privilege_denied path "PLT-AUTHORITY"
    "a mutating control requires explicit authority and actuation mechanism" ++
  platform_error_when
    (cr_mutating control &&
     bool_decide (cr_actuation_mechanism control = cr_verification_mechanism control))
    PlatformErrorCategory_invalid_request path "PLT-INDEPENDENT-READBACK"
    "actuation and verification mechanisms must be independently identified" ++
  platform_error_when (capability_missing capabilities control)
    PlatformErrorCategory_unsupported_control path "PLT-CAPABILITY"
    "requested control lacks an established applicable capability".

Fixpoint controls_errors (capabilities : list Capability) (control_ids : list string)
    (controls : list ControlRequest) : list PlatformError :=
  match controls with
  | [] => []
  | control :: rest =>
      control_errors capabilities control_ids control ++
      controls_errors capabilities (cr_control_id control :: control_ids) rest
  end.

Definition validate_requested_state (inventory : PlatformInventory) (capabilities : list Capability)
    (request : RequestedState) : list PlatformError :=
  let placement := rq_placement request in
  platform_error_when (str_empty (rq_request_id request)) PlatformErrorCategory_invalid_request
    "$request/request_id" "PLT-REQUEST-ID" "request ID must not be empty" ++
  platform_error_when (negb (bool_decide (rq_inventory_snapshot_id request = in_snapshot_id inventory)))
    PlatformErrorCategory_stale_state "$request/inventory_snapshot_id" "PLT-SNAPSHOT-BINDING"
    "request is not bound to this inventory snapshot" ++
  platform_error_when
    (bool_decide (rq_hardware_prefetch_state request = RequestedHardwareState_not_applicable))
    PlatformErrorCategory_invalid_request "$request/hardware_prefetch_state" "PLT-HWPF-STATE"
    "Stage A requires an explicit H0 or H1 request" ++
  match find_cpu inventory (pr_producer_cpu placement), find_cpu inventory (pr_consumer_cpu placement) with
  | Some producer, Some consumer =>
      if negb (lc_online producer) || negb (lc_online consumer) ||
         (lc_logical_id producer =? lc_logical_id consumer)
      then [mkPlatformError PlatformErrorCategory_impossible_placement "$request/placement"
              "PLT-CPU-ELIGIBILITY" "producer and consumer must be distinct online CPUs"]
      else placement_errors inventory placement producer consumer
  | _, _ =>
      [mkPlatformError PlatformErrorCategory_impossible_placement "$request/placement"
         "PLT-CPU-ELIGIBILITY" "producer and consumer must be distinct online CPUs"]
  end ++
  platform_error_when
    (negb (bool_decide (pr_page_policy placement = PagePolicy_verified_base_pages)) ||
     negb (pr_requested_page_bytes placement =? in_base_page_bytes inventory))
    PlatformErrorCategory_invalid_request "$request/placement/page_policy" "PLT-STAGE-A-PAGES"
    "Stage A requires the explicitly inventoried base-page policy; huge-page treatments are Stage C" ++
  controls_errors capabilities [] (rq_controls request) ++
  platform_error_when
    (negb (existsb (fun control => bool_decide (cr_kind control = ControlKind_hardware_prefetch))
             (rq_controls request)))
    PlatformErrorCategory_missing_evidence "$request/controls" "PLT-HWPF-CONTROL"
    "H0/H1 requires an explicit hardware-prefetch control".

(** ** Application and restoration *)

Section Actuator.
Context {A : Type} (backend_id : string).
Context (act_apply : ControlRequest -> A -> A * BackendResult).
Context (act_restore : ControlRequest -> StateObservation -> A -> A * BackendResult).

(** The loop over the applied controls, the last one first. *)
Fixpoint restore_loop (controls : list ControlRequest) (prior_state : list StateObservation)
    (report : RestorationReport) (actuator : A) : A * RestorationReport :=
  match controls with
  | [] => (actuator, report)
  | control :: rest =>
      let id := cr_control_id control in
      let missing :=
        restore_loop rest prior_state
          (mkRestorationReport (rs_attempted report) false
             (rs_steps report ++
              [mkApplyStep id StepStatus_restoration_failed EmptyString "pre-state evidence is missing"])
             (rs_errors report ++
              [mkPlatformError PlatformErrorCategory_restoration_failure ("$restore/" +:+ id)
                 "PLT-RESTORE-PRESTATE"
                 "cannot restore a changed control without its independently recorded pre-state"]))
          actuator in
      match observation_for prior_state id with
      | None => missing
      | Some prior =>
          if negb (is_some (so_observed_value prior)) then missing
          else
            let '(actuator, result) := act_restore control prior actuator in
            let steps := rs_steps report ++
              [mkApplyStep id
                 (if br_succeeded result then StepStatus_restored else StepStatus_restoration_failed)
                 (br_evidence_id result) (br_detail result)] in
            restore_loop rest prior_state
              (if br_succeeded result
               then mkRestorationReport (rs_attempted report) (rs_complete report) steps (rs_errors report)
               else mkRestorationReport (rs_attempted report) false steps
                      (rs_errors report ++
                       [mkPlatformError PlatformErrorCategory_restoration_failure ("$restore/" +:+ id)
                          "PLT-RESTORE-FAILED" "the actuator did not restore the recorded pre-state"]))
              actuator
      end
  end.

Definition restore_platform_state (applied_controls : list ControlRequest)
    (prior_state : list StateObservation) (actuator : A) : A * RestorationReport :=
  restore_loop (rev applied_controls) prior_state
    (mkRestorationReport (nonempty applied_controls) true [] []) actuator.

Definition no_restoration : RestorationReport := mkRestorationReport false true [] [].

(** The loop over the controls, after the steps and the applied controls. *)
Fixpoint apply_loop (controls : list ControlRequest) (prior_state : list StateObservation)
    (steps : list ApplyStep) (applied : list ControlRequest) (actuator : A) : A * ApplyReport :=
  match controls with
  | [] => (actuator, mkApplyReport ApplyMode_authorized_apply true steps no_restoration [])
  | control :: rest =>
      let id := cr_control_id control in
      if negb (cr_mutating control) then
        apply_loop rest prior_state
          (steps ++ [mkApplyStep id StepStatus_planned EmptyString "observation-only control"])
          applied actuator
      else
        match observation_for prior_state id with
        | None =>
            let '(actuator, restoration) := restore_platform_state applied prior_state actuator in
            (actuator,
             mkApplyReport ApplyMode_authorized_apply false
               (steps ++
                [mkApplyStep id StepStatus_apply_failed EmptyString "pre-state evidence is missing"])
               restoration
               [mkPlatformError PlatformErrorCategory_missing_evidence ("$apply/" +:+ id)
                  "PLT-APPLY-PRESTATE" "mutation is forbidden without fresh pre-state evidence"])
        | Some _ =>
            let '(actuator, result) := act_apply control actuator in
            let steps := steps ++
              [mkApplyStep id
                 (if br_succeeded result then StepStatus_applied else StepStatus_apply_failed)
                 (br_evidence_id result) (br_detail result)] in
            if negb (br_succeeded result) then
              let '(actuator, restoration) := restore_platform_state applied prior_state actuator in
              (actuator,
               mkApplyReport ApplyMode_authorized_apply false steps restoration
                 [mkPlatformError
                    (default PlatformErrorCategory_apply_failure (br_failure_category result))
                    ("$apply/" +:+ id) "PLT-APPLY-FAILED" "actuator reported a failed control operation"])
            else apply_loop rest prior_state steps (applied ++ [control]) actuator
        end
  end.

(** The step a dry run plans. *)
Definition planned_step (control : ControlRequest) : ApplyStep :=
  mkApplyStep (cr_control_id control) StepStatus_planned EmptyString
    (if cr_mutating control then "mutation not executed" else "observation-only control").

(** The actuator pointer may be null. *)
Definition apply_requested_state (request : RequestedState) (prior_state : list StateObservation)
    (mode : ApplyMode) (actuator : option A) : option A * ApplyReport :=
  match mode with
  | ApplyMode_dry_run =>
      (actuator,
       mkApplyReport mode true (planned_step <$> rq_controls request) no_restoration [])
  | ApplyMode_authorized_apply =>
      let unidentified :=
        mkApplyReport mode false [] no_restoration
          [mkPlatformError PlatformErrorCategory_privilege_denied "$apply" "PLT-ACTUATOR-AUTHORITY"
             "authorized apply requires an explicitly identified actuator backend"] in
      match actuator with
      | None => (None, unidentified)
      | Some state =>
          if str_empty backend_id then (actuator, unidentified)
          else
            let '(state, report) := apply_loop (rq_controls request) prior_state [] [] state in
            (Some state, report)
      end
  end.
End Actuator.

(** ** Verification *)

Section Verifier.
Context {V : Type} (readback : ControlRequest -> V -> V * PlatformResult StateObservation).

Definition observation_stale (request : RequestedState) (observation : StateObservation) : bool :=
  negb (bool_decide (so_inventory_snapshot_id observation = rq_inventory_snapshot_id request)) ||
  negb (so_state_epoch observation =? rq_state_epoch request).

Definition observation_independent (control : ControlRequest) (observation : StateObservation) : bool :=
  bool_decide (so_mechanism_id observation = cr_verification_mechanism control) &&
  (negb (cr_mutating control) ||
   negb (bool_decide (so_mechanism_id observation = cr_actuation_mechanism control))).

Definition observation_matched (control : ControlRequest) (observation : StateObservation) : bool :=
  match so_observed_value observation with
  | Some value => bool_decide (value = cr_requested_value control)
  | None => false
  end.

Definition verification_status (request : RequestedState) (control : ControlRequest)
    (observation : StateObservation) : StepStatus :=
  if observation_stale request observation then StepStatus_stale
  else if negb (observation_independent control observation) ||
          negb (observation_matched control observation) || str_empty (so_evidence_id observation)
  then StepStatus_verification_failed
  else StepStatus_verified.

Definition verification_errors (control : ControlRequest) (status : StepStatus) : list PlatformError :=
  let path := "$verify/" +:+ cr_control_id control in
  match status with
  | StepStatus_stale =>
      [mkPlatformError PlatformErrorCategory_stale_state path "PLT-VERIFY-FRESHNESS"
         "readback is bound to a different snapshot or epoch"]
  | StepStatus_verification_failed =>
      [mkPlatformError PlatformErrorCategory_verification_mismatch path "PLT-VERIFY-MATCH"
         "fresh independent readback does not exactly match the requested value"]
  | _ => []
  end.

Definition verify_control (request : RequestedState) (control : ControlRequest)
    (report : VerificationReport) (verifier : V) : V * VerificationReport :=
  let id := cr_control_id control in
  let '(verifier, result) := readback control verifier in
  match result with
  | PlatformFailure errors =>
      (verifier,
       mkVerificationReport false (vr_all_mandatory_match report && negb (cr_mandatory control))
         (vr_observations report)
         (vr_steps report ++
          [mkApplyStep id StepStatus_verification_failed EmptyString "readback unavailable"])
         (vr_errors report ++ errors))
  | PlatformSuccess observation =>
      let status := verification_status request control observation in
      let verified := bool_decide (status = StepStatus_verified) in
      (verifier,
       mkVerificationReport (vr_complete report && verified)
         (if verified then vr_all_mandatory_match report
          else vr_all_mandatory_match report && negb (cr_mandatory control))
         (vr_observations report ++ [observation])
         (vr_steps report ++
          [mkApplyStep id status (so_evidence_id observation)
             (if verified then "fresh independent exact match" else "verification rejected")])
         (vr_errors report ++ verification_errors control status))
  end.

Fixpoint verify_loop (request : RequestedState) (controls : list ControlRequest)
    (report : VerificationReport) (verifier : V) : V * VerificationReport :=
  match controls with
  | [] => (verifier, report)
  | control :: rest =>
      let '(verifier, report) := verify_control request control report verifier in
      verify_loop request rest report verifier
  end.

Definition verify_requested_state (request : RequestedState) (verifier : V) : V * VerificationReport :=
  verify_loop request (rq_controls request) (mkVerificationReport true true [] [] []) verifier.
End Verifier.

(** ** Application is transactional *)

Section Laws.
Context {A : Type} (backend_id : string).
Context (act_apply : ControlRequest -> A -> A * BackendResult).
Context (act_restore : ControlRequest -> StateObservation -> A -> A * BackendResult).

(** What the orchestration relies on: a view of the controls such that a successful
    operation sets its control, a failed application changes nothing, and no operation
    touches another control. *)
Class ActuatorLaws (view : A -> string -> option string) : Prop := {
  apply_sets : forall control a a' result,
    act_apply control a = (a', result) -> br_succeeded result = true ->
    view a' (cr_control_id control) = Some (cr_requested_value control);
  apply_frame : forall control a a' result k,
    act_apply control a = (a', result) -> k <> cr_control_id control -> view a' k = view a k;
  apply_failed : forall control a a' result k,
    act_apply control a = (a', result) -> br_succeeded result = false -> view a' k = view a k;
  restore_sets : forall control prior a a' result,
    act_restore control prior a = (a', result) -> br_succeeded result = true ->
    view a' (cr_control_id control) = so_observed_value prior;
  restore_frame : forall control prior a a' result k,
    act_restore control prior a = (a', result) -> k <> cr_control_id control -> view a' k = view a k
}.

Context (view : A -> string -> option string) `{!ActuatorLaws view}.

Lemma restore_loop_attempted controls prior report a a' report' :
  restore_loop act_restore controls prior report a = (a', report') ->
  rs_attempted report' = rs_attempted report /\
  length (rs_steps report') = (length (rs_steps report) + length controls)%nat.
Proof using.
  revert report a. induction controls as [ | c rest IH]; intros report a H; cbn in H.
  { injection H as <- <-. cbn. split; [done | lia]. }
  destruct (observation_for prior _) as [o | ]; [destruct (negb _) | ].
  2: destruct (act_restore c o a) as [a1 r]; destruct (br_succeeded r).
  all: apply IH in H as [-> ->]; cbn; rewrite length_app; cbn; split; [done | lia].
Qed.

(** A complete restoration gives every control its recorded value back. *)
Lemma restore_loop_complete controls prior report a a' report' :
  restore_loop act_restore controls prior report a = (a', report') -> rs_complete report' = true ->
  rs_complete report = true /\
  (forall k, k ∈ (cr_control_id <$> controls) ->
     exists o, observation_for prior k = Some o /\ view a' k = so_observed_value o) /\
  (forall k, k ∉ (cr_control_id <$> controls) -> view a' k = view a k).
Proof using ActuatorLaws0.
  revert report a. induction controls as [ | c rest IH]; intros report a H C; cbn in H.
  { injection H as <- <-. split_and!; [done | by intros k Hk%elem_of_nil | done]. }
  destruct (observation_for prior _) as [o | ] eqn:O; [destruct (negb _) | ].
  2: destruct (act_restore c o a) as [a1 r] eqn:E; destruct (br_succeeded r) eqn:S.
  all: destruct (IH _ _ H C) as (C1 & I1 & I2); cbn in C1; try done.
  split; [done | ]. split; intros k Hk; rewrite fmap_cons in Hk.
  - destruct (decide (k ∈ (cr_control_id <$> rest))) as [D | D]; [by apply I1 | ].
    apply elem_of_cons in Hk as [-> | Hk]; [ | done]. exists o. split; [done | ].
    rewrite (I2 _ D). by apply (restore_sets c o a a1 r).
  - apply not_elem_of_cons in Hk as [N Hk]. rewrite (I2 _ Hk). by apply (restore_frame c o a a1 r).
Qed.

Definition mutating_ids (controls : list ControlRequest) : list string :=
  cr_control_id <$> List.filter cr_mutating controls.

(** The pre-state records the values of [a]. *)
Definition prior_exact (prior : list StateObservation) (a : A) : Prop :=
  forall k o, observation_for prior k = Some o -> so_observed_value o = view a k.

(** The controls applied so far, on top of the state the application began with. *)
Definition applied_over (applied : list ControlRequest) (a0 a : A) : Prop :=
  (forall c, c ∈ applied -> view a (cr_control_id c) = Some (cr_requested_value c)) /\
  (forall k, k ∉ (cr_control_id <$> applied) -> view a k = view a0 k).

Lemma restored applied prior a0 a a' report' :
  prior_exact prior a0 -> applied_over applied a0 a ->
  restore_platform_state act_restore applied prior a = (a', report') -> rs_complete report' = true ->
  forall k, view a' k = view a0 k.
Proof using ActuatorLaws0.
  intros P [_ F] H C k. unfold restore_platform_state in H.
  destruct (restore_loop_complete _ _ _ _ _ _ H C) as (_ & I1 & I2).
  assert (M : k ∈ (cr_control_id <$> rev applied) <-> k ∈ (cr_control_id <$> applied)).
  { rewrite !list_elem_of_fmap. split; intros (c & -> & Hc); exists c; (split; [done | ]);
      rewrite list_elem_of_In in *; [by apply in_rev | by apply -> in_rev]. }
  destruct (decide (k ∈ (cr_control_id <$> rev applied))) as [D | D].
  - destruct (I1 k D) as (o & O & ->). by apply P.
  - rewrite (I2 k D). apply F. by rewrite <- M.
Qed.

(** What a report of an application that began in [a0] guarantees of its final state. *)
Definition transactional (controls : list ControlRequest) (a0 a' : A) (report : ApplyReport) : Prop :=
  if ap_complete report then
    (forall c, c ∈ controls -> cr_mutating c = true ->
     view a' (cr_control_id c) = Some (cr_requested_value c)) /\
    (forall k, k ∉ mutating_ids controls -> view a' k = view a0 k) /\
    st_control_id <$> ap_steps report = cr_control_id <$> controls /\
    ap_restoration report = no_restoration /\ ap_errors report = []
  else
    ap_errors report <> [] /\
    (rs_complete (ap_restoration report) = true -> forall k, view a' k = view a0 k).

Lemma applied_over_snoc applied a0 a c a' result :
  applied_over applied a0 a -> cr_control_id c ∉ (cr_control_id <$> applied) ->
  act_apply c a = (a', result) -> br_succeeded result = true -> applied_over (applied ++ [c]) a0 a'.
Proof using ActuatorLaws0.
  intros [S F] N E R. split.
  - intros d [Hd | ->%list_elem_of_singleton]%elem_of_app.
    + assert (D : cr_control_id d <> cr_control_id c)
        by (intros E'; apply N; rewrite <- E'; by apply list_elem_of_fmap_2).
      rewrite (apply_frame c a a' result _ E D). by apply S.
    + by apply (apply_sets c a a' result).
  - intros k Hk. rewrite fmap_app in Hk. apply not_elem_of_app in Hk as [Hk Hc].
    assert (D : k <> cr_control_id c) by (intros ->; apply Hc; by left).
    rewrite (apply_frame c a a' result _ E D). by apply F.
Qed.

Lemma apply_loop_transactional controls prior steps applied before a0 a a' report :
  prior_exact prior a0 -> applied_over applied a0 a ->
  NoDup (cr_control_id <$> before ++ controls) -> applied = List.filter cr_mutating before ->
  st_control_id <$> steps = cr_control_id <$> before ->
  apply_loop act_apply act_restore controls prior steps applied a = (a', report) ->
  transactional (before ++ controls) a0 a' report.
Proof using ActuatorLaws0.
  intros P. revert steps applied before a.
  induction controls as [ | c rest IH]; intros steps applied before a Ov ND Ha Hs H; cbn in H.
  { injection H as <- <-. rewrite app_nil_r. destruct Ov as [S F]. unfold transactional. cbn. subst applied.
    split_and!; try done. intros c Hc Hm. apply S. rewrite list_elem_of_In in *. by apply filter_In. }
  assert (Next : before ++ c :: rest = (before ++ [c]) ++ rest) by (by rewrite <- app_assoc).
  destruct (cr_mutating c) eqn:M; cbn [negb] in H.
  2: { rewrite Next in ND |- *. revert H. apply IH; [done | done | | ].
       - rewrite List.filter_app. cbn. by rewrite M, app_nil_r.
       - rewrite !fmap_app, Hs. done. }
  assert (N : cr_control_id c ∉ (cr_control_id <$> applied)).
  { rewrite fmap_app in ND. apply NoDup_app in ND as (_ & ND & _). intros Hc. apply (ND (cr_control_id c)).
    - subst applied. apply list_elem_of_fmap in Hc as (d & -> & Hd). apply list_elem_of_fmap_2.
      rewrite list_elem_of_In in *. by apply filter_In in Hd as [? _].
    - rewrite fmap_cons. by left. }
  destruct (observation_for prior _) as [o | ].
  2: { destruct (restore_platform_state _ _ _ _) as [a1 rep] eqn:R. injection H as <- <-.
       split; [done | ]. cbn. intros C. by apply (restored applied prior a0 a a1 rep). }
  destruct (act_apply c a) as [a1 r] eqn:E. destruct (br_succeeded r) eqn:S; cbn [negb] in H.
  - rewrite Next in ND |- *. revert H. apply IH; [by apply (applied_over_snoc _ _ a _ _ r) | done | | ].
    + rewrite List.filter_app. cbn. by rewrite M, Ha.
    + rewrite !fmap_app, Hs. done.
  - destruct (restore_platform_state _ _ _ _) as [a2 rep] eqn:R. injection H as <- <-.
    split; [done | ]. cbn. intros C. apply (restored applied prior a0 a1 a2 rep); [done | | done | done].
    destruct Ov as [O1 O2].
    split; [intros d Hd | intros k Hk]; rewrite (apply_failed c a a1 r _ E S); auto.
Qed.

(** An application through the interface. *)
Lemma apply_requested_transactional request prior a0 actuator' report :
  prior_exact prior a0 -> NoDup (cr_control_id <$> rq_controls request) ->
  apply_requested_state backend_id act_apply act_restore request prior ApplyMode_authorized_apply
    (Some a0) = (actuator', report) ->
  exists a', actuator' = Some a' /\ transactional (rq_controls request) a0 a' report.
Proof using ActuatorLaws0.
  intros P ND H. unfold apply_requested_state in H. destruct (str_empty backend_id).
  { injection H as <- <-. exists a0. split; [done | ]. by split. }
  destruct (apply_loop _ _ _ _ _ _ _) as [a' rep] eqn:E. injection H as <- <-. exists a'.
  split; [done | ]. apply (apply_loop_transactional _ prior [] [] [] a0 a0 a' rep); try done.
  split; [by intros c Hc%elem_of_nil | done].
Qed.
End Laws.


Module SampleActuator.

(** Controls as an association list of strings; the control "stuck" cannot be applied. *)
Definition State : Type := string -> option string.
Definition set (k : string) (v : option string) (s : State) : State :=
  fun k' => if bool_decide (k' = k) then v else s k'.
Definition act_apply (control : ControlRequest) (s : State) : State * BackendResult :=
  if bool_decide (cr_control_id control = "stuck") then (s, mkBackendResult false "e" "refused" None)
  else (set (cr_control_id control) (Some (cr_requested_value control)) s,
        mkBackendResult true "e" "done" None).
Definition act_restore (control : ControlRequest) (prior : StateObservation) (s : State) :
    State * BackendResult :=
  (set (cr_control_id control) (so_observed_value prior) s, mkBackendResult true "e" "done" None).
Definition view (s : State) : string -> option string := s.
Definition control (id value : string) : ControlRequest :=
  mkControlRequest id ControlKind_governor "cpu0" value true true "operator" "sysfs-write" "sysfs-read".
Definition initial : State := fun k => if bool_decide (k = "governor") then Some "powersave" else Some "off".
Definition observation (id value : string) : StateObservation :=
  mkStateObservation id "snapshot" 1 (Some value) "evidence" "sysfs-read".
Definition prior : list StateObservation := [observation "governor" "powersave"; observation "stuck" "off"].
Definition request (controls : list ControlRequest) : RequestedState :=
  mkRequestedState "request" "snapshot" 1
    (mkPlacementRequest Placement_near 0 1 MemoryPolicy_bind_producer_node [0]
       MemoryPolicy_bind_worker_local [0] MemoryPolicy_bind_worker_local [0]
       PagePolicy_verified_base_pages 4096)
    RequestedHardwareState_h0 controls.

End SampleActuator.

Lemma sample_actuator_laws :
  ActuatorLaws SampleActuator.act_apply SampleActuator.act_restore SampleActuator.view.
Proof.
  unfold SampleActuator.act_apply, SampleActuator.act_restore, SampleActuator.view, SampleActuator.set.
  split; cbn; intros; repeat case_bool_decide; simplify_eq/=; try done.
  all: by repeat case_bool_decide.
Qed.


(** ** Validation is exact *)

Lemma platform_error_when_nil b category path rule message :
  platform_error_when b category path rule message = [] <-> b = false.
Proof. by destruct b. Qed.

Definition placement_valid (inventory : PlatformInventory) (placement : PlacementRequest)
    (producer consumer : LogicalCpu) : Prop :=
  siblings producer consumer = false /\
  (pr_placement placement = Placement_near /\ lc_numa_node producer = lc_numa_node consumer /\
     same_last_level_cache inventory producer consumer = true \/
   pr_placement placement = Placement_far /\ lc_numa_node producer <> lc_numa_node consumer) /\
  pr_shared_memory_policy placement = MemoryPolicy_bind_producer_node /\
  pr_shared_memory_nodes placement = [lc_numa_node producer] /\
  pr_producer_private_memory_policy placement = MemoryPolicy_bind_worker_local /\
  pr_producer_private_nodes placement = [lc_numa_node producer] /\
  pr_consumer_private_memory_policy placement = MemoryPolicy_bind_worker_local /\
  pr_consumer_private_nodes placement = [lc_numa_node consumer].

Definition control_valid (capabilities : list Capability) (control : ControlRequest) : Prop :=
  cr_control_id control <> EmptyString /\ cr_target control <> EmptyString /\
  cr_requested_value control <> EmptyString /\ cr_verification_mechanism control <> EmptyString /\
  (cr_mutating control = true ->
   cr_authority_id control <> EmptyString /\ cr_actuation_mechanism control <> EmptyString /\
   cr_actuation_mechanism control <> cr_verification_mechanism control) /\
  exists capability, capability_for capabilities (cr_kind control) = Some capability /\
    match cb_status capability with
    | CapabilityStatus_external_authority_required => True
    | CapabilityStatus_read_only => cr_mutating control = false
    | _ => False
    end.

Record request_valid (inventory : PlatformInventory) (capabilities : list Capability)
    (request : RequestedState) : Prop := {
  rqv_id : rq_request_id request <> EmptyString;
  rqv_snapshot : rq_inventory_snapshot_id request = in_snapshot_id inventory;
  rqv_hardware : rq_hardware_prefetch_state request <> RequestedHardwareState_not_applicable;
  rqv_placement : exists producer consumer,
    find_cpu inventory (pr_producer_cpu (rq_placement request)) = Some producer /\
    find_cpu inventory (pr_consumer_cpu (rq_placement request)) = Some consumer /\
    lc_online producer = true /\ lc_online consumer = true /\
    lc_logical_id producer <> lc_logical_id consumer /\
    placement_valid inventory (rq_placement request) producer consumer;
  rqv_pages : pr_page_policy (rq_placement request) = PagePolicy_verified_base_pages /\
    pr_requested_page_bytes (rq_placement request) = in_base_page_bytes inventory;
  rqv_controls : Forall (control_valid capabilities) (rq_controls request);
  rqv_distinct : NoDup (cr_control_id <$> rq_controls request);
  rqv_prefetch : exists control, control ∈ rq_controls request /\
    cr_kind control = ControlKind_hardware_prefetch
}.

Lemma singleton_node_iff nodes expected : singleton_node nodes expected = true <-> nodes = [expected].
Proof.
  destruct nodes as [ | n [ | m l]]; cbn; [done | | done].
  rewrite Z.eqb_eq. split; [by intros -> | by intros [= ->]].
Qed.

Ltac bool_facts :=
  repeat (rewrite ?orb_false_iff, ?negb_false_iff, ?andb_false_iff, ?bool_decide_eq_true,
            ?bool_decide_eq_false, ?Z.eqb_eq, ?Z.eqb_neq, ?str_empty_false, ?singleton_node_iff).

Lemma placement_errors_nil inventory placement producer consumer :
  placement_errors inventory placement producer consumer = [] <->
  placement_valid inventory placement producer consumer.
Proof.
  unfold placement_errors, placement_valid. rewrite !app_nil, !platform_error_when_nil. bool_facts.
  destruct (pr_placement placement); rewrite ?platform_error_when_nil; bool_facts; intuition congruence.
Qed.

Lemma control_errors_nil capabilities ids control :
  control_errors capabilities ids control = [] <->
  control_valid capabilities control /\ cr_control_id control ∉ ids.
Proof.
  unfold control_errors, control_valid, capability_missing. rewrite !app_nil, !platform_error_when_nil.
  bool_facts. destruct (capability_for capabilities _) as [cap | ].
  - assert (X : (exists c, Some cap = Some c /\
      match cb_status c with
      | CapabilityStatus_external_authority_required => True
      | CapabilityStatus_read_only => cr_mutating control = false
      | _ => False
      end) <->
      ((cb_status cap <> CapabilityStatus_unavailable /\
        cb_status cap <> CapabilityStatus_mapping_unresolved) /\
       (cr_mutating control = false \/ cb_status cap <> CapabilityStatus_read_only))).
    { split.
      - intros (c & [= <-] & Hc). destruct (cb_status cap); intuition congruence.
      - intros H. exists cap. split; [done | ]. destruct (cb_status cap); intuition congruence. }
    rewrite X. bool_facts. destruct (cr_mutating control); intuition congruence.
  - split; [by intros (_ & _ & _ & _ & [=]) | ]. by intros [(_ & _ & _ & _ & _ & (c & [=] & _)) _].
Qed.

Lemma controls_errors_nil capabilities controls : forall ids,
  controls_errors capabilities ids controls = [] <->
  Forall (control_valid capabilities) controls /\ NoDup (cr_control_id <$> controls) /\
  (forall id, id ∈ (cr_control_id <$> controls) -> id ∉ ids).
Proof.
  induction controls as [ | c rest IH]; intros ids; cbn [controls_errors].
  { split; [intros _ | done]. split_and!; [constructor | constructor | by intros id Hid%elem_of_nil]. }
  rewrite app_nil, control_errors_nil, IH, fmap_cons, Forall_cons, NoDup_cons. split.
  - intros ((H1 & H2) & H3 & H4 & H5). split_and!; [done | done | | done | ].
    + intros Hc. apply (H5 _ Hc). by left.
    + intros id [-> | Hid]%elem_of_cons; [done | ]. intros Hi. apply (H5 _ Hid). by right.
  - intros ((H1 & H2) & (H3 & H4) & H5). split_and!; try done.
    + apply H5. by left.
    + intros id Hid [-> | Hi]%elem_of_cons; [done | ]. by apply (H5 id); [right | ].
Qed.

Lemma validate_requested_nil inventory capabilities request :
  validate_requested_state inventory capabilities request = [] <->
  request_valid inventory capabilities request.
Proof.
  unfold validate_requested_state. rewrite !app_nil, !platform_error_when_nil, controls_errors_nil.
  bool_facts. rewrite existsb_exists. split.
  - intros (H1 & H2 & H3 & H4 & H5 & (H6 & H7 & _) & (c & Hc & Hk)). split; try done.
    + destruct (find_cpu _ _) as [p | ]; [ | done]. destruct (find_cpu _ _) as [q | ]; [ | done].
      destruct (_ || _) eqn:E in H4; [done | ]. apply placement_errors_nil in H4.
      revert E. bool_facts. intros [[E1 E2] E3]. by exists p, q.
    + exists c. rewrite list_elem_of_In. split; [done | ]. by apply bool_decide_eq_true in Hk.
  - intros [R1 R2 R3 (p & q & P1 & P2 & P3 & P4 & P5 & P6) [R5 R5'] R6 R7 (c & C1 & C2)].
    split_and!; try done; [ | by intros id _ Hid%elem_of_nil | ].
    + rewrite P1, P2, P3, P4. cbn [negb orb]. rewrite (proj2 (Z.eqb_neq _ _) P5). by apply placement_errors_nil.
    + exists c. rewrite list_elem_of_In in C1. split; [done | by apply bool_decide_eq_true].
Qed.

(** Requested platform states: validation reports no error exactly for a request that is
    bound to the inventory, places two distinct online CPUs of different cores as NEAR or
    FAR demands, keeps every buffer on its home node in base pages, has distinct complete
    controls with an applicable capability and an independent readback, and includes a
    hardware-prefetch control. *)
Theorem requested_state_exact inventory capabilities request :
  validate_requested_state inventory capabilities request = [] <->
  request_valid inventory capabilities request.
Proof. apply validate_requested_nil. Qed.

Lemma detected_prefetch_unresolved inventory :
  exists capability,
    capability_for (detect_capabilities inventory) ControlKind_hardware_prefetch = Some capability /\
    cb_status capability = CapabilityStatus_mapping_unresolved.
Proof. eexists. by split. Qed.

Lemma detected_rejects inventory request :
  validate_requested_state inventory (detect_capabilities inventory) request <> [].
Proof.
  rewrite validate_requested_nil. intros [_ _ _ _ _ F _ (c & I & K)].
  rewrite Forall_forall in F. destruct (F c I) as (_ & _ & _ & _ & _ & (cap & E & S)).
  destruct (detected_prefetch_unresolved inventory) as (cap' & E' & S'). rewrite K, E' in E.
  injection E as <-. by rewrite S' in S.
Qed.

(** Detected capabilities fail closed: the hardware-prefetch mapping is unresolved on every
    inventory, so no request validates against the capabilities that were only detected. *)
Theorem detected_capabilities_fail_closed inventory request :
  validate_requested_state inventory (detect_capabilities inventory) request <> [].
Proof. apply detected_rejects. Qed.

(** ** Verification is exact *)

Section Verified.
Context {V : Type} (readback : ControlRequest -> V -> V * PlatformResult StateObservation).

(** The answers of the verifier, in the order of the controls. *)
Fixpoint readbacks (controls : list ControlRequest) (verifier : V) : list (PlatformResult StateObservation) :=
  match controls with
  | [] => []
  | control :: rest => (readback control verifier).2 :: readbacks rest (readback control verifier).1
  end.

(** A fresh, independent, exact and evidenced observation. *)
Definition control_verified (request : RequestedState) (control : ControlRequest)
    (result : PlatformResult StateObservation) : Prop :=
  exists observation, result = PlatformSuccess observation /\
    so_inventory_snapshot_id observation = rq_inventory_snapshot_id request /\
    so_state_epoch observation = rq_state_epoch request /\
    so_mechanism_id observation = cr_verification_mechanism control /\
    (cr_mutating control = true -> so_mechanism_id observation <> cr_actuation_mechanism control) /\
    so_observed_value observation = Some (cr_requested_value control) /\
    so_evidence_id observation <> EmptyString.

Lemma observation_matched_iff control observation :
  observation_matched control observation = true <->
  so_observed_value observation = Some (cr_requested_value control).
Proof.
  unfold observation_matched. destruct (so_observed_value observation); [ | done].
  rewrite bool_decide_eq_true. split; [by intros -> | by intros [= ->]].
Qed.

Lemma verification_status_verified request control observation :
  verification_status request control observation = StepStatus_verified <->
  control_verified request control (PlatformSuccess observation).
Proof.
  unfold verification_status, control_verified, observation_stale, observation_independent.
  pose proof (observation_matched_iff control observation) as M.
  split.
  - intros H. exists observation. split; [done | ].
    destruct (_ || _) eqn:E1 in H; [done | ]. destruct (_ || _ || _) eqn:E2 in H; [done | ].
    revert E1 E2. bool_facts. rewrite andb_true_iff, bool_decide_eq_true, orb_true_iff.
    rewrite !negb_true_iff, bool_decide_eq_false. intros [S1 S2] [[[I1 I2] Ma] Ev].
    split_and!; try done; [ | by apply M]. destruct I2 as [I2 | I2]; [congruence | done].
  - intros (o & [= <-] & S1 & S2 & I1 & I2 & Ma & Ev). apply M in Ma. rewrite Ma, S1, S2, I1.
    rewrite !bool_decide_true, Z.eqb_refl by done. cbn [negb orb andb].
    rewrite (proj2 (str_empty_false _) Ev), orb_false_r.
    destruct (cr_mutating control); [ | done]. rewrite I1 in I2. by rewrite bool_decide_false by auto.
Qed.

Lemma verify_loop_spec request controls report verifier :
  let report' := (verify_loop readback request controls report verifier).2 in
  let results := readbacks controls verifier in
  st_control_id <$> vr_steps report' = (st_control_id <$> vr_steps report) ++ (cr_control_id <$> controls) /\
  (vr_complete report' = true <->
   vr_complete report = true /\ Forall2 (control_verified request) controls results) /\
  (vr_all_mandatory_match report' = true <->
   vr_all_mandatory_match report = true /\
   Forall2 (fun control result => cr_mandatory control = true -> control_verified request control result)
     controls results).
Proof.
  revert report verifier. induction controls as [ | c rest IH]; intros report v; cbn.
  { rewrite app_nil_r. split_and!; [done | |]; (split; [by repeat constructor | by intros [? _]]). }
  unfold verify_control. destruct (readback c v) as [v1 result] eqn:R. cbn.
  destruct result as [o | es].
  - match goal with
    | |- context [verify_loop readback request rest ?r v1] => destruct (IH r v1) as (I1 & I2 & I3)
    end. cbn in I1, I2, I3.
    rewrite I1, I2, I3. clear I1 I2 I3 IH. pose proof (verification_status_verified request c o) as Vs.
    split; [rewrite fmap_app, <- app_assoc; done | ]. rewrite !Forall2_cons.
    destruct (decide (verification_status request c o = StepStatus_verified)) as [D | D].
    + rewrite (bool_decide_true _ D), andb_true_r. apply Vs in D. intuition.
    + rewrite (bool_decide_false _ D), andb_false_r.
      split; [split; [by intros [[=] _] | intros (_ & Hc & _); exfalso; tauto] | ].
      rewrite andb_true_iff, negb_true_iff. destruct (cr_mandatory c); intuition congruence.
  - match goal with
    | |- context [verify_loop readback request rest ?r v1] => destruct (IH r v1) as (I1 & I2 & I3)
    end. cbn in I1, I2, I3.
    rewrite I1, I2, I3. clear I1 I2 I3 IH.
    assert (N : ~ control_verified request c (PlatformFailure es)) by (by intros (o & [=] & _)).
    split; [rewrite fmap_app, <- app_assoc; done | ]. rewrite !Forall2_cons.
    split; [split; [by intros [[=] _] | intros (_ & Hc & _); exfalso; tauto] | ].
    rewrite andb_true_iff, negb_true_iff. destruct (cr_mandatory c); intuition congruence.
Qed.
End Verified.

(** Platform verification: the report has one step per control in order; it is complete
    exactly when every readback was a fresh observation of this snapshot and epoch, by the
    declared verification mechanism and not the actuating one, of exactly the requested
    value, with evidence; and all mandatory controls match exactly when that holds of every
    mandatory control. *)
Theorem platform_verification_exact {V : Type}
    (readback : ControlRequest -> V -> V * PlatformResult StateObservation) request verifier :
  let report := (verify_requested_state readback request verifier).2 in
  let results := readbacks readback (rq_controls request) verifier in
  st_control_id <$> vr_steps report = cr_control_id <$> rq_controls request /\
  (vr_complete report = true <-> Forall2 (control_verified request) (rq_controls request) results) /\
  (vr_all_mandatory_match report = true <->
   Forall2 (fun control result => cr_mandatory control = true -> control_verified request control result)
     (rq_controls request) results).
Proof.
  pose proof (verify_loop_spec readback request (rq_controls request)
    (mkVerificationReport true true [] [] []) verifier) as (I1 & I2 & I3).
  cbn in I1, I2, I3. cbn. unfold verify_requested_state. split; [exact I1 | ]. rewrite I2, I3. tauto.
Qed.

(** The pre-state check asks only that an observation exists: a control whose pre-state was
    never observed is mutated, and when a later control fails it cannot be restored. *)
Theorem unobserved_prestate_mutated :
  let prior := [mkStateObservation "governor" "snapshot" 1 None "evidence" "sysfs-read";
                SampleActuator.observation "stuck" "off"] in
  let '(actuator', report) :=
    apply_requested_state "backend" SampleActuator.act_apply SampleActuator.act_restore
      (SampleActuator.request
         [SampleActuator.control "governor" "performance"; SampleActuator.control "stuck" "on"])
      prior ApplyMode_authorized_apply (Some SampleActuator.initial) in
  (actuator' ≫= fun state => state "governor") = Some "performance" /\
  ap_complete report = false /\ rs_complete (ap_restoration report) = false.
Proof. vm_compute. done. Qed.
