(* ===== verification/PlatformRecords.v ===== *)
(** * Platform records

    Models the record half of [src/platform/platform.cpp]: [emit_manifest], the rich
    evidence manifest with its zero-field self-hash and its eligibility verdict, and
    [emit_protocol_platform_record], the platform record of the protocol. SHA-256 is a
    parameter; a [std::map] is the sorted list of its members. *)

From stdpp Require Import prelude list strings.
From Stdlib Require Import ZArith Lia.
From S2P Require Import Prelude Validation Model Bytes Json Documents Load BlockPlanning CrossRecord.
From S2P Require Import JsonParsing JsonCanonical Semantic SemanticRecords BlockPlans RunGraph PlatformControl.

#[local] Open Scope Z_scope.

(** ** Data *)

Record LibraryProvenance : Set := mkLibraryProvenance {
  lp_name : string;
  lp_version : string;
  lp_artifact_sha256 : string
}.

Record ManifestContext : Set := mkManifestContext {
  mc_platform_id : string;
  mc_manifest_id : string;
  mc_build_id : string;
  mc_binary_sha256 : string;
  mc_compiler_flags : list string;
  mc_link_mode : string;
  mc_libraries : list LibraryProvenance
}.

Record ManifestArtifact : Set := mkManifestArtifact {
  ma_canonical_json : string;
  ma_sha256 : string;
  ma_eligible : bool
}.

Record ClockEvidenceReferences : Set := mkClockEvidenceReferences {
  ce_source : string;
  ce_time_unit : string;
  ce_conversion_record_id : string;
  ce_serialization_record_id : string;
  ce_acceptance_record_id : string
}.

Record HardwarePrefetchEvidence : Set := mkHardwarePrefetchEvidence {
  hp_requested : RequestedHardwareState;
  hp_verified : VerifiedHardwareState;
  hp_readback_artifact_id : string;
  hp_behavioral_probe_artifact_id : string;
  hp_privileged_authority_id : string
}.

Record ProtocolPlatformContext : Set := mkProtocolPlatformContext {
  pp_platform_id : string;
  pp_near_core_pair : (Z * Z)%type;
  pp_far_core_pair : (Z * Z)%type;
  pp_memory_population : string;
  pp_residency_verification_method : string;
  pp_compiler_flags : list string;
  pp_link_mode : string;
  pp_clock : ClockEvidenceReferences;
  pp_hardware_prefetch_states : (HardwarePrefetchEvidence * HardwarePrefetchEvidence)%type
}.

Record ProtocolPlatformArtifact : Set := mkProtocolPlatformArtifact {
  pa_canonical_json : string;
  pa_record_sha256 : string;
  pa_hardware_states_verified : bool
}.


(** ** JSON values *)

Definition int_value (value : Z) : Value :=
  Value_number (mkNumber NumberKind_signed_integer (untext (to_chars_int value)) (Number_int64 value)).

Definition strings_value (values : list string) : Value := Value_array (string_value <$> values).

Definition uints_value (values : list Z) : Value := Value_array (uint_value <$> values).

Definition optional_string_value (value : option string) : Value :=
  match value with Some v => string_value v | None => Value_null end.

Definition control_json (request : ControlRequest) : Value :=
  Value_object (map_of
    [("actuation_mechanism", string_value (cr_actuation_mechanism request));
     ("authority_id", string_value (cr_authority_id request));
     ("control_id", string_value (cr_control_id request));
     ("kind", string_value (to_string_ControlKind (cr_kind request)));
     ("mandatory", Value_bool (cr_mandatory request));
     ("mutating", Value_bool (cr_mutating request));
     ("requested_value", string_value (cr_requested_value request));
     ("target", string_value (cr_target request));
     ("verification_mechanism", string_value (cr_verification_mechanism request))]).

Definition step_json (step : ApplyStep) : Value :=
  Value_object (map_of
    [("control_id", string_value (st_control_id step));
     ("detail", string_value (st_detail step));
     ("evidence_id", string_value (st_evidence_id step));
     ("status", string_value (to_string_StepStatus (st_status step)))]).

Definition error_json (error : PlatformError) : Value :=
  Value_object (map_of
    [("category", string_value (to_string_PlatformErrorCategory (er_category error)));
     ("message", string_value (er_message error));
     ("path", string_value (er_path error));
     ("rule_id", string_value (er_rule_id error))]).

Definition cpu_json (cpu : LogicalCpu) : Value :=
  Value_object (map_of
    [("cache_domains", strings_value (lc_cache_domains cpu));
     ("core_id", uint_value (lc_core_id cpu));
     ("logical_id", uint_value (lc_logical_id cpu));
     ("numa_node", uint_value (lc_numa_node cpu));
     ("online", Value_bool (lc_online cpu));
     ("package_id", uint_value (lc_package_id cpu));
     ("thread_siblings", uints_value (lc_thread_siblings cpu))]).

Definition cache_json (cache : CacheDomain) : Value :=
  Value_object (map_of
    [("domain_id", string_value (dm_domain_id cache));
     ("kind", string_value (dm_kind cache));
     ("last_level", Value_bool (dm_last_level cache));
     ("level", uint_value (dm_level cache));
     ("shared_cpus", uints_value (dm_shared_cpus cache));
     ("size_bytes", uint_value (dm_size_bytes cache))]).

Definition node_json (node : NumaNode) : Value :=
  Value_object (map_of
    [("logical_cpus", uints_value (nn_logical_cpus node));
     ("node_id", uint_value (nn_node_id node))]).

Definition device_json (device : PciDevice) : Value :=
  Value_object (map_of
    [("address", string_value (pd_address device));
     ("class", string_value (pd_device_class device));
     ("device", string_value (pd_device device));
     ("local_cpus", uints_value (pd_local_cpus device));
     ("numa_node", match pd_numa_node device with Some n => int_value n | None => Value_null end);
     ("vendor", string_value (pd_vendor device))]).

Definition inventory_observation_json (observation : EvidenceValue) : Value :=
  Value_object (map_of
    [("name", string_value (ev_name observation));
     ("source", string_value (ev_source observation));
     ("value", optional_string_value (ev_value observation))]).

Definition capability_json (capability : Capability) : Value :=
  Value_object (map_of
    [("detection_mechanism", string_value (cb_detection_mechanism capability));
     ("evidence", string_value (cb_evidence capability));
     ("kernel_privilege_required", Value_bool (cb_kernel_privilege_required capability));
     ("kind", string_value (to_string_ControlKind (cb_kind capability)));
     ("status", string_value (to_string_CapabilityStatus (cb_status capability)))]).

Definition observation_json (observation : StateObservation) : Value :=
  Value_object (map_of
    [("control_id", string_value (so_control_id observation));
     ("evidence_id", string_value (so_evidence_id observation));
     ("inventory_snapshot_id", string_value (so_inventory_snapshot_id observation));
     ("mechanism_id", string_value (so_mechanism_id observation));
     ("observed_value", optional_string_value (so_observed_value observation));
     ("state_epoch", uint_value (so_state_epoch observation))]).

Definition library_json (library : LibraryProvenance) : Value :=
  Value_object (map_of
    [("artifact_sha256", string_value (lp_artifact_sha256 library));
     ("name", string_value (lp_name library));
     ("version", string_value (lp_version library))]).

(** ** The evidence manifest *)

Definition platform_valid_sha256 (value : string) : bool :=
  (String.length value =? 64)%nat &&
  forallb (fun c => ((48 <=? char_code c) && (char_code c <=? 57)) ||
                    ((97 <=? char_code c) && (char_code c <=? 102)))
    (String.list_ascii_of_string value).

Definition required_control_kinds : list ControlKind :=
  [ControlKind_producer_affinity; ControlKind_consumer_affinity; ControlKind_producer_actual_cpu;
   ControlKind_consumer_actual_cpu; ControlKind_shared_memory_policy;
   ControlKind_producer_private_memory_policy; ControlKind_consumer_private_memory_policy;
   ControlKind_shared_page_residency; ControlKind_private_page_residency; ControlKind_base_page_state;
   ControlKind_huge_page_state; ControlKind_governor; ControlKind_fixed_frequency; ControlKind_turbo;
   ControlKind_c_state; ControlKind_smt; ControlKind_interrupt_routing; ControlKind_cpu_isolation;
   ControlKind_hardware_prefetch; ControlKind_clock_source; ControlKind_microcode; ControlKind_firmware;
   ControlKind_compiler; ControlKind_binary].

Definition mandatory_present (request : RequestedState) (kind : ControlKind) : bool :=
  existsb (fun control => bool_decide (cr_kind control = kind) && cr_mandatory control)
    (rq_controls request).

(** [state_errors]: the validation and the absent mandatory controls. *)
Definition manifest_state_errors (inventory : PlatformInventory) (capabilities : list Capability)
    (request : RequestedState) : list PlatformError :=
  validate_requested_state inventory capabilities request ++
  mjoin ((fun kind =>
    platform_error_when (negb (mandatory_present request kind)) PlatformErrorCategory_missing_evidence
      "$manifest/request/controls" "PLT-MANIFEST-REQUIRED-CONTROL"
      ("mandatory platform control is absent: " +:+ to_string_ControlKind kind))
    <$> required_control_kinds) ++
  platform_error_when (negb (mandatory_present request ControlKind_library))
    PlatformErrorCategory_missing_evidence "$manifest/request/controls" "PLT-MANIFEST-REQUIRED-CONTROL"
    "at least one mandatory library-provenance control is required".

Definition require_text (value path rule_id : string) : list PlatformError :=
  platform_error_when (str_empty value) PlatformErrorCategory_manifest_incomplete path rule_id
    "required value is empty".

(** [errors]: what a manifest cannot be emitted without. *)
Definition manifest_errors (context : ManifestContext) (inventory : PlatformInventory)
    (request : RequestedState) (apply_report : ApplyReport) (verification_report : VerificationReport) :
    list PlatformError :=
  require_text (mc_platform_id context) "$manifest/platform_id" "PLT-MANIFEST-ID" ++
  require_text (mc_manifest_id context) "$manifest/manifest_id" "PLT-MANIFEST-ID" ++
  require_text (mc_build_id context) "$manifest/build_id" "PLT-MANIFEST-BUILD" ++
  require_text (mc_link_mode context) "$manifest/link_mode" "PLT-MANIFEST-LINK" ++
  require_text (in_snapshot_id inventory) "$manifest/inventory/snapshot_id" "PLT-MANIFEST-SNAPSHOT" ++
  require_text (in_captured_at_utc inventory) "$manifest/inventory/captured_at_utc" "PLT-MANIFEST-TIME" ++
  platform_error_when (negb (platform_valid_sha256 (mc_binary_sha256 context)))
    PlatformErrorCategory_manifest_incomplete "$manifest/binary_sha256" "PLT-MANIFEST-BINARY"
    "binary SHA-256 must be 64 lowercase hexadecimal digits" ++
  platform_error_when (negb (nonempty (mc_libraries context)))
    PlatformErrorCategory_manifest_incomplete "$manifest/libraries" "PLT-MANIFEST-LIBRARIES"
    "relevant library provenance must not be empty" ++
  mjoin ((fun library =>
    platform_error_when
      (str_empty (lp_name library) || str_empty (lp_version library) ||
       negb (platform_valid_sha256 (lp_artifact_sha256 library)))
      PlatformErrorCategory_manifest_incomplete "$manifest/libraries" "PLT-MANIFEST-LIBRARY"
      "each library needs name, version, and SHA-256") <$> mc_libraries context) ++
  platform_error_when
    (negb (nonempty (in_logical_cpus inventory)) || negb (nonempty (in_cache_domains inventory)) ||
     negb (nonempty (in_numa_nodes inventory)) || str_empty (ci_vendor (in_cpu inventory)) ||
     str_empty (ci_model (in_cpu inventory)) || str_empty (ci_microcode (in_cpu inventory)) ||
     str_empty (sw_kernel (in_software inventory)) || negb (has_observation inventory "firmware"))
    PlatformErrorCategory_manifest_incomplete "$manifest/inventory" "PLT-MANIFEST-INVENTORY"
    "CPU, cache, NUMA, microcode, and kernel inventory are mandatory" ++
  platform_error_when (negb (bool_decide (rq_inventory_snapshot_id request = in_snapshot_id inventory)))
    PlatformErrorCategory_stale_state "$manifest/request/inventory_snapshot_id" "PLT-MANIFEST-BINDING"
    "manifest request and inventory snapshot differ" ++
  platform_error_when
    (negb (length (ap_steps apply_report) =? length (rq_controls request))%nat ||
     negb (length (vr_steps verification_report) =? length (rq_controls request))%nat)
    PlatformErrorCategory_manifest_incomplete "$manifest/control_results" "PLT-MANIFEST-CONTROLS"
    "every requested control needs separate apply/plan and verification records".

Definition manifest_eligible (apply_report : ApplyReport) (verification_report : VerificationReport)
    (state_errors : list PlatformError) : bool :=
  bool_decide (ap_mode apply_report = ApplyMode_authorized_apply) && negb (nonempty state_errors) &&
  ap_complete apply_report && negb (rs_attempted (ap_restoration apply_report)) &&
  vr_complete verification_report && vr_all_mandatory_match verification_report.

Definition apply_json (apply_report : ApplyReport) : Value :=
  Value_object (map_of
    [("complete", Value_bool (ap_complete apply_report));
     ("mode", string_value (to_string_ApplyMode (ap_mode apply_report)));
     ("steps", Value_array (step_json <$> ap_steps apply_report))]).

Definition inventory_cpu_json (cpu : CpuIdentity) : Value :=
  Value_object (map_of
    [("atomic_alignment_bytes", uint_value (ci_atomic_alignment_bytes cpu));
     ("atomic_width_bits", uint_value (ci_atomic_width_bits cpu));
     ("cache_line_bytes", uint_value (ci_cache_line_bytes cpu));
     ("microcode", string_value (ci_microcode cpu));
     ("model", string_value (ci_model cpu));
     ("pointer_atomic_lock_free", Value_bool (ci_pointer_atomic_lock_free cpu));
     ("stepping", string_value (ci_stepping cpu));
     ("vendor", string_value (ci_vendor cpu))]).

Definition inventory_json (inventory : PlatformInventory) : Value :=
  Value_object (map_of
    [("base_page_bytes", uint_value (in_base_page_bytes inventory));
     ("cache_domains", Value_array (cache_json <$> in_cache_domains inventory));
     ("captured_at_utc", string_value (in_captured_at_utc inventory));
     ("cpu", inventory_cpu_json (in_cpu inventory));
     ("logical_cpus", Value_array (cpu_json <$> in_logical_cpus inventory));
     ("numa_nodes", Value_array (node_json <$> in_numa_nodes inventory));
     ("observations", Value_array (inventory_observation_json <$> in_observations inventory));
     ("pci_devices", Value_array (device_json <$> in_pci_devices inventory));
     ("snapshot_id", string_value (in_snapshot_id inventory));
     ("software",
      Value_object (map_of
        [("compiler", string_value (sw_compiler (in_software inventory)));
         ("kernel", string_value (sw_kernel (in_software inventory)));
         ("language_standard", string_value (sw_language_standard (in_software inventory)));
         ("operating_system", string_value (sw_operating_system (in_software inventory)));
         ("standard_library", string_value (sw_standard_library (in_software inventory)))]))]).

Definition placement_json (placement : PlacementRequest) : Value :=
  Value_object (map_of
    [("consumer_cpu", uint_value (pr_consumer_cpu placement));
     ("consumer_private_memory_policy",
      string_value (to_string_MemoryPolicy (pr_consumer_private_memory_policy placement)));
     ("consumer_private_nodes", uints_value (pr_consumer_private_nodes placement));
     ("page_policy", string_value (to_string_PagePolicy (pr_page_policy placement)));
     ("placement",
      string_value (if bool_decide (pr_placement placement = Placement_near) then "NEAR" else "FAR"));
     ("producer_cpu", uint_value (pr_producer_cpu placement));
     ("producer_private_memory_policy",
      string_value (to_string_MemoryPolicy (pr_producer_private_memory_policy placement)));
     ("producer_private_nodes", uints_value (pr_producer_private_nodes placement));
     ("requested_page_bytes", uint_value (pr_requested_page_bytes placement));
     ("shared_memory_nodes", uints_value (pr_shared_memory_nodes placement));
     ("shared_memory_policy",
      string_value (to_string_MemoryPolicy (pr_shared_memory_policy placement)))]).

Definition requested_state_text (state : RequestedHardwareState) : string :=
  if bool_decide (state = RequestedHardwareState_h0) then "H0" else "H1".

Definition request_json (request : RequestedState) : Value :=
  Value_object (map_of
    [("controls", Value_array (control_json <$> rq_controls request));
     ("hardware_prefetch_state", string_value (requested_state_text (rq_hardware_prefetch_state request)));
     ("inventory_snapshot_id", string_value (rq_inventory_snapshot_id request));
     ("placement", placement_json (rq_placement request));
     ("request_id", string_value (rq_request_id request));
     ("state_epoch", uint_value (rq_state_epoch request))]).

Definition restoration_json (restoration : RestorationReport) : Value :=
  Value_object (map_of
    [("attempted", Value_bool (rs_attempted restoration));
     ("complete", Value_bool (rs_complete restoration));
     ("steps", Value_array (step_json <$> rs_steps restoration))]).

Definition verification_json (report : VerificationReport) : Value :=
  Value_object (map_of
    [("all_mandatory_match", Value_bool (vr_all_mandatory_match report));
     ("complete", Value_bool (vr_complete report));
     ("observations", Value_array (observation_json <$> vr_observations report));
     ("steps", Value_array (step_json <$> vr_steps report))]).

(** [root]. *)
Definition manifest_object (context : ManifestContext) (inventory : PlatformInventory)
    (capabilities : list Capability) (request : RequestedState) (apply_report : ApplyReport)
    (verification_report : VerificationReport) (state_errors : list PlatformError) (eligible : bool) :
    Object :=
  map_of
    [("apply", apply_json apply_report);
     ("build_id", string_value (mc_build_id context));
     ("capabilities", Value_array (capability_json <$> capabilities));
     ("compiler_flags", strings_value (mc_compiler_flags context));
     ("control_errors",
      Value_array (error_json <$> (ap_errors apply_report ++ rs_errors (ap_restoration apply_report) ++
                                   vr_errors verification_report ++ state_errors)));
     ("eligible", Value_bool eligible);
     ("evidence_version", string_value kPlatformEvidenceVersion);
     ("inventory", inventory_json inventory);
     ("libraries", Value_array (library_json <$> mc_libraries context));
     ("link_mode", string_value (mc_link_mode context));
     ("manifest_id", string_value (mc_manifest_id context));
     ("manifest_sha256", string_value zero_hash);
     ("platform_id", string_value (mc_platform_id context));
     ("protocol_version", string_value kProtocolVersion);
     ("request", request_json request);
     ("restoration", restoration_json (ap_restoration apply_report));
     ("schema_version", string_value kProtocolVersion);
     ("verification", verification_json verification_report)].

Section Emit.
Context (sha256 : list Z -> list Z).

(** The zeroed document, its digest, and the document with the digest in [field]. *)
Definition self_hashed {T : Type} (root : Object) (field path rule_id message : string)
    (k : string -> string -> T) : PlatformResult T :=
  let failed := PlatformFailure
    [mkPlatformError PlatformErrorCategory_manifest_incomplete path rule_id message] in
  match canonicalize (Value_object root) with
  | failure _ => failed
  | success zeroed =>
      let record_hash := digest_hex sha256 (string_bytes zeroed) in
      match canonicalize (Value_object (map_assign field (string_value record_hash) root)) with
      | failure _ => failed
      | success canonical => PlatformSuccess (k canonical record_hash)
      end
  end.

Definition emit_manifest (context : ManifestContext) (inventory : PlatformInventory)
    (capabilities : list Capability) (request : RequestedState) (apply_report : ApplyReport)
    (verification_report : VerificationReport) : PlatformResult ManifestArtifact :=
  let state_errors := manifest_state_errors inventory capabilities request in
  let errors := manifest_errors context inventory request apply_report verification_report in
  if nonempty errors then PlatformFailure errors
  else
    let eligible := manifest_eligible apply_report verification_report state_errors in
    self_hashed
      (manifest_object context inventory capabilities request apply_report verification_report
         state_errors eligible)
      "manifest_sha256" "$manifest" "PLT-MANIFEST-CANONICAL" "canonical serialization failed"
      (fun canonical record_hash => mkManifestArtifact canonical record_hash eligible).
End Emit.

(** ** The protocol record *)

Definition same_core (a b : LogicalCpu) : bool :=
  (lc_package_id a =? lc_package_id b) && (lc_core_id a =? lc_core_id b).

Definition near_pair_invalid (inventory : PlatformInventory) (pair : Z * Z) : bool :=
  match find_cpu inventory (fst pair), find_cpu inventory (snd pair) with
  | Some a, Some b =>
      (lc_logical_id a =? lc_logical_id b) || negb (lc_numa_node a =? lc_numa_node b) ||
      same_core a b || negb (same_last_level_cache inventory a b)
  | _, _ => true
  end.

Definition far_pair_invalid (inventory : PlatformInventory) (pair : Z * Z) : bool :=
  match find_cpu inventory (fst pair), find_cpu inventory (snd pair) with
  | Some a, Some b =>
      (lc_logical_id a =? lc_logical_id b) || (lc_numa_node a =? lc_numa_node b) || same_core a b
  | _, _ => true
  end.

Definition hardware_state_errors (index : Z) (state : HardwarePrefetchEvidence) : list PlatformError :=
  platform_error_when
    (bool_decide (hp_requested state = RequestedHardwareState_not_applicable) ||
     bool_decide (hp_verified state = VerifiedHardwareState_not_applicable) ||
     str_empty (hp_readback_artifact_id state) || str_empty (hp_behavioral_probe_artifact_id state) ||
     str_empty (hp_privileged_authority_id state))
    PlatformErrorCategory_manifest_incomplete
    ("$platform/hardware_prefetch_states/" +:+ std_to_string index) "PLT-PROTOCOL-HWPF"
    "each H0/H1 state needs explicit verification disposition and evidence IDs".

Definition states_of (context : ProtocolPlatformContext) : list HardwarePrefetchEvidence :=
  [fst (pp_hardware_prefetch_states context); snd (pp_hardware_prefetch_states context)].

Definition protocol_platform_errors (context : ProtocolPlatformContext) (inventory : PlatformInventory) :
    list PlatformError :=
  let clock := pp_clock context in
  require_text (pp_platform_id context) "$platform/platform_id" "PLT-PROTOCOL-ID" ++
  require_text (pp_memory_population context) "$platform/memory/population" "PLT-PROTOCOL-MEMORY" ++
  require_text (pp_residency_verification_method context)
    "$platform/memory/residency_verification_method" "PLT-PROTOCOL-RESIDENCY" ++
  require_text (pp_link_mode context) "$platform/software/link_mode" "PLT-PROTOCOL-LINK" ++
  require_text (ce_source clock) "$platform/clock/source" "PLT-PROTOCOL-CLOCK" ++
  require_text (ce_time_unit clock) "$platform/clock/time_unit" "PLT-PROTOCOL-CLOCK" ++
  require_text (ce_conversion_record_id clock) "$platform/clock/conversion_record_id"
    "PLT-PROTOCOL-CLOCK" ++
  require_text (ce_serialization_record_id clock) "$platform/clock/serialization_record_id"
    "PLT-PROTOCOL-CLOCK" ++
  require_text (ce_acceptance_record_id clock) "$platform/clock/acceptance_record_id"
    "PLT-PROTOCOL-CLOCK" ++
  platform_error_when (near_pair_invalid inventory (pp_near_core_pair context))
    PlatformErrorCategory_impossible_placement "$platform/topology/near_core_pair" "PLT-PROTOCOL-NEAR"
    "near pair must be distinct physical cores in one NUMA/LLC domain" ++
  platform_error_when (far_pair_invalid inventory (pp_far_core_pair context))
    PlatformErrorCategory_impossible_placement "$platform/topology/far_core_pair" "PLT-PROTOCOL-FAR"
    "far pair must be distinct physical cores in different NUMA nodes" ++
  mjoin (zip_with hardware_state_errors [0; 1] (states_of context)) ++
  platform_error_when
    (negb (bool_decide (RequestedHardwareState_h0 ∈ (hp_requested <$> states_of context))) ||
     negb (bool_decide (RequestedHardwareState_h1 ∈ (hp_requested <$> states_of context))))
    PlatformErrorCategory_manifest_incomplete "$platform/hardware_prefetch_states"
    "PLT-PROTOCOL-HWPF-PAIR" "platform record requires one H0 and one H1 state" ++
  platform_error_when
    (str_empty (ci_vendor (in_cpu inventory)) || str_empty (ci_model (in_cpu inventory)) ||
     str_empty (ci_stepping (in_cpu inventory)) || str_empty (ci_microcode (in_cpu inventory)) ||
     (length (in_logical_cpus inventory) <? 2)%nat || negb (nonempty (in_cache_domains inventory)) ||
     negb (nonempty (in_numa_nodes inventory)))
    PlatformErrorCategory_manifest_incomplete "$platform/inventory" "PLT-PROTOCOL-INVENTORY"
    "imported platform fields require complete inventory".

Definition physical_cores (inventory : PlatformInventory) : list (Z * Z) :=
  remove_dups ((fun cpu => (lc_package_id cpu, lc_core_id cpu)) <$> in_logical_cpus inventory).

Definition packages (inventory : PlatformInventory) : list Z :=
  remove_dups (lc_package_id <$> in_logical_cpus inventory).

Definition smt_enabled (inventory : PlatformInventory) : bool :=
  existsb (fun cpu => (1 <? length (lc_thread_siblings cpu))%nat) (in_logical_cpus inventory).

Definition verified_text (state : VerifiedHardwareState) : string :=
  match state with
  | VerifiedHardwareState_verified_default => "VERIFIED_DEFAULT"
  | VerifiedHardwareState_verified_changed => "VERIFIED_CHANGED"
  | VerifiedHardwareState_verification_failed => "VERIFICATION_FAILED"
  | VerifiedHardwareState_unknown => "UNKNOWN"
  | VerifiedHardwareState_not_applicable => "UNKNOWN"
  end.

Definition hardware_state_json (state : HardwarePrefetchEvidence) : Value :=
  Value_object (map_of
    [("behavioral_probe_artifact_id", string_value (hp_behavioral_probe_artifact_id state));
     ("privileged_authority_id", string_value (hp_privileged_authority_id state));
     ("readback_artifact_id", string_value (hp_readback_artifact_id state));
     ("requested", string_value (requested_state_text (hp_requested state)));
     ("verified", string_value (verified_text (hp_verified state)))]).

Definition pair_value (pair : Z * Z) : Value := Value_array [uint_value (fst pair); uint_value (snd pair)].

Definition clock_json (clock : ClockEvidenceReferences) : Value :=
  Value_object (map_of
    [("acceptance_record_id", string_value (ce_acceptance_record_id clock));
     ("conversion_record_id", string_value (ce_conversion_record_id clock));
     ("serialization_record_id", string_value (ce_serialization_record_id clock));
     ("source", string_value (ce_source clock));
     ("time_unit", string_value (ce_time_unit clock))]).

Definition protocol_cpu_json (cpu : CpuIdentity) : Value :=
  Value_object (map_of
    [("atomic_alignment_bytes", uint_value (ci_atomic_alignment_bytes cpu));
     ("atomic_width_bits", uint_value (ci_atomic_width_bits cpu));
     ("cache_line_bytes", uint_value (ci_cache_line_bytes cpu));
     ("microcode", string_value (ci_microcode cpu));
     ("model", string_value (ci_model cpu));
     ("stepping", string_value (ci_stepping cpu));
     ("vendor", string_value (ci_vendor cpu))]).

Definition protocol_software_json (context : ProtocolPlatformContext) (software : SoftwareIdentity) : Value :=
  Value_object (map_of
    [("compiler", string_value (sw_compiler software));
     ("flags", strings_value (pp_compiler_flags context));
     ("kernel", string_value (sw_kernel software));
     ("language_standard", string_value (sw_language_standard software));
     ("link_mode", string_value (pp_link_mode context));
     ("operating_system", string_value (sw_operating_system software));
     ("standard_library", string_value (sw_standard_library software))]).

Definition protocol_topology_json (context : ProtocolPlatformContext) (inventory : PlatformInventory) :
    Value :=
  Value_object (map_of
    [("cache_domains", strings_value (dm_domain_id <$> in_cache_domains inventory));
     ("far_core_pair", pair_value (pp_far_core_pair context));
     ("near_core_pair", pair_value (pp_near_core_pair context));
     ("numa_nodes", uint_value (Z.of_nat (length (in_numa_nodes inventory))));
     ("physical_cores", uint_value (Z.of_nat (length (physical_cores inventory))));
     ("smt_enabled", Value_bool (smt_enabled inventory));
     ("sockets", uint_value (Z.of_nat (length (packages inventory))))]).

Definition memory_json (context : ProtocolPlatformContext) (inventory : PlatformInventory) : Value :=
  Value_object (map_of
    [("base_page_bytes", uint_value (in_base_page_bytes inventory));
     ("population", string_value (pp_memory_population context));
     ("residency_verification_method", string_value (pp_residency_verification_method context))]).

Definition protocol_platform_object (context : ProtocolPlatformContext) (inventory : PlatformInventory)
    (record_sha256 : string) : Object :=
  map_of
    [("clock", clock_json (pp_clock context));
     ("cpu", protocol_cpu_json (in_cpu inventory));
     ("hardware_prefetch_states", Value_array (hardware_state_json <$> states_of context));
     ("memory", memory_json context inventory);
     ("platform_id", string_value (pp_platform_id context));
     ("protocol_version", string_value kProtocolVersion);
     ("record_sha256", string_value record_sha256);
     ("schema_version", string_value kProtocolVersion);
     ("software", protocol_software_json context (in_software inventory));
     ("topology", protocol_topology_json context inventory)].

Definition hardware_state_verified (state : HardwarePrefetchEvidence) : bool :=
  (bool_decide (hp_requested state = RequestedHardwareState_h0) &&
   bool_decide (hp_verified state = VerifiedHardwareState_verified_default)) ||
  (bool_decide (hp_requested state = RequestedHardwareState_h1) &&
   bool_decide (hp_verified state = VerifiedHardwareState_verified_changed)).

Definition emit_protocol_platform_record (sha256 : list Z -> list Z) (context : ProtocolPlatformContext)
    (inventory : PlatformInventory) : PlatformResult ProtocolPlatformArtifact :=
  let errors := protocol_platform_errors context inventory in
  if nonempty errors then PlatformFailure errors
  else
    self_hashed sha256 (protocol_platform_object context inventory zero_hash) "record_sha256"
      "$platform" "PLT-PROTOCOL-CANONICAL" "canonical protocol-platform serialization failed"
      (fun canonical record_hash =>
         mkProtocolPlatformArtifact canonical record_hash
           (forallb hardware_state_verified (states_of context))).

(** ** Documents that carry their own digest *)

Lemma string_compare_refl s : String.compare s s = Eq.
Proof. pose proof (String.compare_antisym s s) as A. by destruct (String.compare s s). Qed.

Lemma map_assign_member {V} field (v x : V) pre post :
  Forall (fun kv => String.compare field (fst kv) = Gt) pre ->
  map_assign field v (pre ++ (field, x) :: post) = pre ++ (field, v) :: post.
Proof.
  intros F. induction F as [ | [k w] pre Hk F IH]; cbn in *.
  - by rewrite string_compare_refl.
  - by rewrite Hk, IH.
Qed.

Lemma keys_sorted_keys {V} (l l' : list (string * V)) :
  List.map fst l = List.map fst l' -> keys_sorted l = keys_sorted l'.
Proof.
  revert l'. induction l as [ | [k v] l IH]; intros [ | [k' v'] l'] H; try done.
  cbn in H. injection H as <- H. cbn. rewrite (IH _ H). f_equal.
  by destruct l as [ | [] l], l' as [ | [] l']; cbn in H; try done; injection H as <- _.
Qed.

Lemma map_find_member {V} field (v : V) pre post :
  Forall (fun kv => String.compare field (fst kv) = Gt) pre ->
  map_find field (pre ++ (field, v) :: post) = Some v.
Proof.
  intros F. induction F as [ | [k w] pre Hk F IH]; cbn in *; [by rewrite String.eqb_refl | ].
  destruct (String.eqb_spec field k) as [-> | ]; [ | done]. by rewrite string_compare_refl in Hk.
Qed.

(** [root] has the member [field] with the text of sixty-four zeros. *)
Definition zeroed_root (root : Object) (field : string) : Prop :=
  exists pre post, root = pre ++ (field, string_value zero_hash) :: post /\
    Forall (fun kv => String.compare field (fst kv) = Gt) pre.

Lemma self_hashed_verifies {T} sha root field path rule message (k : string -> string -> T) v :
  (forall m, sha_wf (mkSha256 (sha m))) -> zeroed_root root field ->
  well_formed (Value_object root) = true -> integers_only (Value_object root) = true ->
  self_hashed sha root field path rule message k = PlatformSuccess v ->
  exists canonical digest, v = k canonical (Sha256_hex digest) /\ sha_wf digest /\
    parse canonical =
      success (normalize (Value_object (map_assign field (string_value (Sha256_hex digest)) root))) /\
    zero_self_hash_matches sha
      (normalize (Value_object (map_assign field (string_value (Sha256_hex digest)) root))) field = true.
Proof.
  intros Hsha (pre & post & -> & F) W I H. unfold self_hashed in H.
  destruct (canonicalize _) as [zeroed | ] eqn:Z in H; [ | done]. rewrite map_assign_member in H by done.
  set (digest := mkSha256 (sha (string_bytes zeroed))).
  change (digest_hex sha (string_bytes zeroed)) with (Sha256_hex digest) in H.
  destruct (canonicalize (Value_object (pre ++ (field, string_value (Sha256_hex digest)) :: post)))
    as [canonical | ] eqn:C; [ | done]. injection H as <-.
  exists canonical, digest. split; [done | ]. split; [apply Hsha | ]. rewrite map_assign_member by done.
  assert (W' : well_formed (Value_object (pre ++ (field, string_value (Sha256_hex digest)) :: post)) = true).
  { cbn [well_formed] in W |- *. rewrite andb_true_iff in W |- *. destruct W as [W1 W2]. split.
    - rewrite <- W1. apply keys_sorted_keys. by rewrite !List.map_app.
    - rewrite forallb_app, andb_true_iff in W2 |- *. destruct W2 as [W2 W3]. split; [done | ].
      cbn [forallb fst snd] in W3 |- *. rewrite !andb_true_iff in W3 |- *.
      destruct W3 as [[W3 _] W4]. split; [split; [done | apply hex_valid] | done]. }
  assert (I' : integers_only (Value_object (pre ++ (field, string_value (Sha256_hex digest)) :: post)) = true).
  { cbn [integers_only] in I |- *. by rewrite forallb_app in I |- *. }
  split; [by apply canonical_reads | ].
  unfold zero_self_hash_matches. cbn [normalize as_object]. rewrite List.map_app. cbn [List.map fst snd].
  assert (F' : Forall (fun kv => String.compare field (fst kv) = Gt)
                 (List.map (fun kv => (fst kv, normalize (snd kv))) pre)).
  { clear -F. induction F; cbn; constructor; done. }
  match goal with |- context [string_member ?l field] =>
    assert (M : string_member l field = Sha256_hex digest)
      by (unfold string_member, member; rewrite map_find_member by done; reflexivity) end.
  cbv zeta. rewrite M. clear M.
  rewrite hex_length by apply Hsha. cbn [Nat.eqb negb]. rewrite map_assign_member by done.
  change (normalize (string_value zero_hash)) with (string_value zero_hash).
  match goal with |- context [canonicalize (Value_object ?l)] =>
    assert (E : Value_object l = normalize (Value_object (pre ++ (field, string_value zero_hash) :: post))) end.
  { cbn [normalize]. by rewrite List.map_app. }
  rewrite E, canonicalize_normalize by done. rewrite Z. by apply bool_decide_true.
Qed.

Lemma integers_array {A} (f : A -> Value) l :
  (forall a, integers_only (f a) = true) -> integers_only (Value_array (f <$> l)) = true.
Proof. intros H. cbn. induction l as [ | a l IH]; [done | ]. cbn. by rewrite H, IH. Qed.

Lemma integers_strings l : integers_only (strings_value l) = true.
Proof. by apply integers_array. Qed.

Lemma integers_uints l : integers_only (uints_value l) = true.
Proof. by apply integers_array. Qed.

Lemma integers_object l : Forall (fun kv => integers_only (snd kv) = true) l ->
  integers_only (Value_object l) = true.
Proof. intros F. cbn. induction F as [ | kv l H F IH]; [done | ]. cbn. by rewrite H, IH. Qed.

Lemma map_emplace_Forall {V} (P : string * V -> Prop) k v l l' :
  P (k, v) -> Forall P l -> map_emplace k v l = Some l' -> Forall P l'.
Proof.
  intros Hk. revert l'. induction l as [ | [k' v'] l IH]; intros l' F H; cbn in H.
  { injection H as <-. by repeat constructor. }
  apply Forall_cons in F as [F1 F2]. destruct (String.compare k k'); [done | | ].
  - injection H as <-. by repeat constructor.
  - destruct (map_emplace k v l) as [l1 | ] eqn:E; [ | done]. injection H as <-.
    constructor; [done | by apply IH].
Qed.

Lemma map_of_Forall {V} (P : string * V -> Prop) l : Forall P l -> Forall P (map_of l).
Proof.
  unfold map_of. assert (H : forall acc, Forall P acc -> Forall P l ->
    Forall P (fold_left (fun m kv => default m (map_emplace (fst kv) (snd kv) m)) l acc)).
  { induction l as [ | [k v] l IH]; intros acc A F; [done | ]. apply Forall_cons in F as [F1 F2]. cbn.
    apply IH; [ | done]. destruct (map_emplace k v acc) as [m | ] eqn:E; [ | done].
    by apply (map_emplace_Forall P k v acc). }
  intros F. by apply H.
Qed.

Ltac integers :=
  lazymatch goal with
  | |- integers_only (Value_object (map_of _)) = true =>
      apply integers_object, map_of_Forall;
      repeat (apply Forall_cons; split; [cbn [snd]; integers | ]); constructor
  | |- integers_only (Value_object (?f _ _ _ _ _ _ _ _)) = true => unfold f; integers
  | |- integers_only (Value_object (?f _ _ _)) = true => unfold f; integers
  | |- integers_only (Value_array _) = true =>
      first [reflexivity | apply integers_array; let a := fresh "a" in intros a; integers]
  | |- integers_only (strings_value _) = true => apply integers_strings
  | |- integers_only (uints_value _) = true => apply integers_uints
  | |- integers_only (match ?x with _ => _ end) = true => destruct x; integers
  | |- integers_only (?f _ _) = true => first [reflexivity | unfold f; integers]
  | |- integers_only (?f _) = true => first [reflexivity | unfold f; integers]
  | |- _ => reflexivity
  end.

Lemma protocol_platform_integers context inventory digest :
  integers_only (Value_object (protocol_platform_object context inventory digest)) = true.
Proof. integers. Qed.

Lemma manifest_integers context inventory capabilities request ar vr es eligible :
  integers_only (Value_object (manifest_object context inventory capabilities request ar vr es eligible)) = true.
Proof. integers. Qed.

(** ** Eligible manifests *)

Lemma mjoin_errors_nil {A} (f : A -> list PlatformError) l :
  mjoin (f <$> l) = [] <-> Forall (fun a => f a = []) l.
Proof.
  induction l as [ | a l IH]; cbn; [by split; [constructor | ] | ].
  rewrite app_nil, Forall_cons. by rewrite <- IH.
Qed.

Lemma mandatory_present_iff request kind :
  mandatory_present request kind = true <->
  exists control, control ∈ rq_controls request /\ cr_kind control = kind /\ cr_mandatory control = true.
Proof.
  unfold mandatory_present. rewrite existsb_exists. split; intros (c & I & H); exists c.
  - rewrite list_elem_of_In. apply andb_true_iff in H as [K M]. by apply bool_decide_eq_true in K.
  - rewrite <- list_elem_of_In. split; [done | ]. destruct H as [-> ->]. by rewrite bool_decide_true.
Qed.

Lemma manifest_state_nil inventory capabilities request :
  manifest_state_errors inventory capabilities request = [] ->
  request_valid inventory capabilities request /\
  forall kind, kind ∈ ControlKind_library :: required_control_kinds ->
    exists control, control ∈ rq_controls request /\ cr_kind control = kind /\ cr_mandatory control = true.
Proof.
  unfold manifest_state_errors. rewrite !app_nil, mjoin_errors_nil, validate_requested_nil.
  intros (V & F & L). split; [done | ]. intros kind K. apply mandatory_present_iff.
  apply platform_error_when_nil, negb_false_iff in L. apply elem_of_cons in K as [-> | K]; [done | ].
  rewrite Forall_forall in F. specialize (F kind K). by apply platform_error_when_nil, negb_false_iff in F.
Qed.

Lemma emit_manifest_eligible sha context inventory capabilities request ar vr artifact :
  emit_manifest sha context inventory capabilities request ar vr = PlatformSuccess artifact ->
  manifest_errors context inventory request ar vr = [] /\
  ma_eligible artifact =
    manifest_eligible ar vr (manifest_state_errors inventory capabilities request).
Proof.
  unfold emit_manifest. destruct (nonempty _) eqn:N; [done | ]. apply nonempty_false in N.
  unfold self_hashed. destruct (canonicalize _); [ | done]. destruct (canonicalize _); [ | done].
  by intros [= <-].
Qed.

(** C30. Eligible manifests: a manifest built from the reports of an application and a
    verification is eligible only if the request is valid, has every mandatory control, was
    applied with authority and completely, nothing had to be restored, and every control was
    read back fresh, independently and exactly; for a lawful actuator with an accurate
    pre-state every mutating control then has its requested value and no other control
    changed. *)
Theorem manifest_eligible_sound {A V : Type} sha backend_id
    (act_apply : ControlRequest -> A -> A * BackendResult)
    (act_restore : ControlRequest -> StateObservation -> A -> A * BackendResult)
    (view : A -> string -> option string)
    (readback : ControlRequest -> V -> V * PlatformResult StateObservation)
    context inventory capabilities request prior a0 mode actuator' ar verifier artifact :
  ActuatorLaws act_apply act_restore view -> prior_exact view prior a0 ->
  apply_requested_state backend_id act_apply act_restore request prior mode (Some a0) = (actuator', ar) ->
  emit_manifest sha context inventory capabilities request ar
    (verify_requested_state readback request verifier).2 = PlatformSuccess artifact ->
  ma_eligible artifact = true ->
  mode = ApplyMode_authorized_apply /\ request_valid inventory capabilities request /\
  (forall kind, kind ∈ ControlKind_library :: required_control_kinds ->
   exists control, control ∈ rq_controls request /\ cr_kind control = kind /\ cr_mandatory control = true) /\
  Forall2 (control_verified request) (rq_controls request) (readbacks readback (rq_controls request) verifier) /\
  exists a', actuator' = Some a' /\
    (forall c, c ∈ rq_controls request -> cr_mutating c = true ->
     view a' (cr_control_id c) = Some (cr_requested_value c)) /\
    (forall k, k ∉ mutating_ids (rq_controls request) -> view a' k = view a0 k).
Proof.
  intros Laws P Ap Em El. destruct (emit_manifest_eligible _ _ _ _ _ _ _ _ Em) as [_ E].
  rewrite E in El. unfold manifest_eligible in El. rewrite !andb_true_iff, !negb_true_iff in El.
  destruct El as [[[[[Mo Se] Co] _] Vc] _]. apply bool_decide_eq_true in Mo. apply nonempty_false in Se.
  destruct (manifest_state_nil _ _ _ Se) as [Va Ki].
  assert (mode = ApplyMode_authorized_apply) as ->.
  { destruct mode; [ | done]. cbn in Ap. injection Ap as _ <-. done. }
  split; [done | ]. split; [done | ]. split; [done | ]. split.
  { pose proof (verify_loop_spec readback request (rq_controls request)
      (mkVerificationReport true true [] [] []) verifier) as (_ & I2 & _). by apply I2. }
  destruct (apply_requested_transactional backend_id act_apply act_restore view request prior a0 actuator' ar
    P (rqv_distinct _ _ _ Va) Ap) as (a' & -> & T).
  exists a'. split; [done | ]. unfold transactional in T. rewrite Co in T. destruct T as (T1 & T2 & _). done.
Qed.

(** A manifest over detected capabilities is never eligible. *)
Theorem detected_manifest_ineligible sha context inventory request ar vr artifact :
  emit_manifest sha context inventory (detect_capabilities inventory) request ar vr =
    PlatformSuccess artifact ->
  ma_eligible artifact = false.
Proof.
  intros H. destruct (emit_manifest_eligible _ _ _ _ _ _ _ _ H) as [_ ->]. unfold manifest_eligible.
  assert (nonempty (manifest_state_errors inventory (detect_capabilities inventory) request) = true) as ->.
  { unfold manifest_state_errors.
    pose proof (detected_rejects inventory request) as N. by destruct (validate_requested_state _ _ _). }
  cbn [negb]. by rewrite andb_false_r.
Qed.

(** An application that stops before the last control leaves no manifest, although the
    manual says that partial manifests are artifacts. *)
Theorem partial_apply_has_no_manifest sha context inventory capabilities request ar vr :
  (length (ap_steps ar) < length (rq_controls request))%nat ->
  exists errors, emit_manifest sha context inventory capabilities request ar vr = PlatformFailure errors.
Proof.
  intros L. unfold emit_manifest.
  assert (nonempty (manifest_errors context inventory request ar vr) = true) as ->; [ | by eexists].
  apply not_false_is_true. rewrite nonempty_false. unfold manifest_errors.
  rewrite !app_nil, !platform_error_when_nil, !orb_false_iff, !negb_false_iff, !Nat.eqb_eq. lia.
Qed.

(** The text of a manifest parses and declares its own zero-self digest. *)
Theorem manifest_text_verifies sha context inventory capabilities request ar vr artifact :
  (forall m, sha_wf (mkSha256 (sha m))) ->
  well_formed (Value_object (manifest_object context inventory capabilities request ar vr
    (manifest_state_errors inventory capabilities request)
    (manifest_eligible ar vr (manifest_state_errors inventory capabilities request)))) = true ->
  emit_manifest sha context inventory capabilities request ar vr = PlatformSuccess artifact ->
  exists document, parse (ma_canonical_json artifact) = success document /\
    zero_self_hash_matches sha document "manifest_sha256" = true.
Proof.
  intros Hsha W H. unfold emit_manifest in H. destruct (nonempty _); [done | ].
  apply self_hashed_verifies in H as (t & digest & -> & _ & P & Z); [by eexists | done | | done | apply manifest_integers].
  match goal with |- zeroed_root (manifest_object ?a ?b ?c ?d ?e ?f ?g ?h) _ =>
    exists (take 11 (manifest_object a b c d e f g h)), (drop 12 (manifest_object a b c d e f g h)) end.
  split; [reflexivity | ]. repeat (apply Forall_cons; split; [reflexivity | ]). constructor.
Qed.

(** ** The protocol record loads back *)

Lemma map_find_well_formed key object value :
  well_formed (Value_object object) = true -> map_find key object = Some value -> well_formed value = true.
Proof.
  cbn [well_formed]. rewrite andb_true_iff. intros [_ W] F.
  induction object as [ | [k v] rest IH]; [done | ]. cbn in W, F. rewrite !andb_true_iff in W.
  destruct W as [[_ W1] W2]. destruct (String.eqb key k); [by injection F as <- | by apply IH].
Qed.

Lemma well_formed_uint z : well_formed (uint_value z) = true -> is_u64 z.
Proof. cbn. rewrite andb_true_iff. intros [A B]. int_lia. Qed.

Lemma string_field_good object key path s :
  map_find key object = Some (string_value s) -> str_empty s = false ->
  string_field object key path = success s.
Proof. intros F E. unfold string_field, required. rewrite F. cbn [rbind]. by rewrite string_of_nonempty. Qed.

Lemma unit_field_good object key path s :
  map_find key object = Some (string_value s) -> str_empty s = false ->
  unit_field object key path = success s.
Proof. intros F E. unfold unit_field, required. rewrite F. cbn. by rewrite E. Qed.

Lemma uint_of_normal z path : is_u64 z -> uint_of (normalize (uint_value z)) path = success z.
Proof. intros U. by rewrite normalize_uint. Qed.

Lemma uint_field_good object key path z :
  map_find key object = Some (normalize (uint_value z)) -> is_u64 z ->
  uint_field object key path = success z.
Proof. intros F U. unfold uint_field, required. rewrite F. cbn [rbind]. by apply uint_of_normal. Qed.

Lemma digest_field_good object key path digest :
  map_find key object = Some (string_value (Sha256_hex digest)) -> sha_wf digest ->
  sha_field object key path = success digest.
Proof.
  intros F Hd. unfold sha_field, required. rewrite F. cbn [rbind].
  assert (N : str_empty (Sha256_hex digest) = false).
  { destruct Hd as [L _]. unfold Sha256_hex. by destruct (sha_bytes digest). }
  rewrite string_of_nonempty by done. cbn [rbind]. by apply sha256_roundtrip.
Qed.

Lemma load_strings path l : forall index, Forall (fun s => str_empty s = false) l ->
  load_elements (fun value path => string_of value path false) path index
    (List.map normalize (string_value <$> l)) = success l.
Proof.
  induction l as [ | s l IH]; intros index F; [done | ]. apply Forall_cons in F as [F1 F2].
  cbn [fmap list_fmap List.map load_elements]. change (normalize (string_value s)) with (string_value s).
  rewrite string_of_nonempty by done. cbn [rbind]. by rewrite IH.
Qed.

(** What the loader demands and the emitter does not check. *)
Record record_loadable (context : ProtocolPlatformContext) (inventory : PlatformInventory) : Prop := {
  lo_system : str_empty (sw_operating_system (in_software inventory)) = false;
  lo_kernel : str_empty (sw_kernel (in_software inventory)) = false;
  lo_compiler : str_empty (sw_compiler (in_software inventory)) = false;
  lo_library : str_empty (sw_standard_library (in_software inventory)) = false;
  lo_standard : str_empty (sw_language_standard (in_software inventory)) = false;
  lo_flags : Forall (fun s => str_empty s = false) (pp_compiler_flags context);
  lo_domains : Forall (fun d => str_empty (dm_domain_id d) = false) (in_cache_domains inventory)
}.

(** The record of a context and an inventory. *)
Definition platform_record (context : ProtocolPlatformContext) (inventory : PlatformInventory)
    (digest : Sha256) (document : Value) : PlatformRecord :=
  let cpu := in_cpu inventory in
  let software := in_software inventory in
  let clock := pp_clock context in
  mkPlatformRecord ProtocolVersion_v2_0_0_pre_2 ProtocolVersion_v2_0_0_pre_2 (pp_platform_id context)
    (mkPlatformCpu (ci_vendor cpu) (ci_model cpu) (ci_stepping cpu) (ci_microcode cpu)
       (ci_cache_line_bytes cpu) (ci_atomic_width_bits cpu) (ci_atomic_alignment_bytes cpu))
    (mkPlatformTopology (Z.of_nat (length (packages inventory)))
       (Z.of_nat (length (in_numa_nodes inventory))) (Z.of_nat (length (physical_cores inventory)))
       (smt_enabled inventory) (dm_domain_id <$> in_cache_domains inventory)
       (pp_near_core_pair context) (pp_far_core_pair context))
    (mkPlatformMemory (pp_memory_population context) (in_base_page_bytes inventory)
       (pp_residency_verification_method context))
    (mkPlatformSoftware (sw_operating_system software) (sw_kernel software) (sw_compiler software)
       (sw_standard_library software) (sw_language_standard software) (pp_compiler_flags context)
       (pp_link_mode context))
    (mkPlatformClock (ce_source clock) (ce_time_unit clock) (ce_conversion_record_id clock)
       (ce_serialization_record_id clock) (ce_acceptance_record_id clock))
    ((fun state => mkRequestedAndVerifiedHardwareState (hp_requested state) (hp_verified state)
        (hp_readback_artifact_id state) (hp_behavioral_probe_artifact_id state)
        (hp_privileged_authority_id state)) <$> states_of context)
    digest document.

(** The members of a concrete object are the allowed ones. *)
Ltac known_members object :=
  match goal with |- context [reject_unknown object ?l ?p] =>
    let R := fresh in
    assert (R : reject_unknown object l p = success tt) by (vm_compute; reflexivity);
    rewrite R; cbn [rbind]; clear R
  end.

Section Loads.
Context (context : ProtocolPlatformContext) (inventory : PlatformInventory) (digest : Sha256).
Context (W : well_formed (Value_object (protocol_platform_object context inventory zero_hash)) = true).
Context (E : protocol_platform_errors context inventory = []).
Context (Lo : record_loadable context inventory) (Hd : sha_wf digest).

Let object : Object :=
  List.map (fun kv => (fst kv, normalize (snd kv)))
    (protocol_platform_object context inventory (Sha256_hex digest)).

(** The texts the emitter requires. *)
Lemma emitted_texts :
  str_empty (pp_platform_id context) = false /\ str_empty (pp_memory_population context) = false /\
  str_empty (pp_residency_verification_method context) = false /\
  str_empty (pp_link_mode context) = false /\
  str_empty (ce_source (pp_clock context)) = false /\ str_empty (ce_time_unit (pp_clock context)) = false /\
  str_empty (ce_conversion_record_id (pp_clock context)) = false /\
  str_empty (ce_serialization_record_id (pp_clock context)) = false /\
  str_empty (ce_acceptance_record_id (pp_clock context)) = false /\
  str_empty (ci_vendor (in_cpu inventory)) = false /\ str_empty (ci_model (in_cpu inventory)) = false /\
  str_empty (ci_stepping (in_cpu inventory)) = false /\ str_empty (ci_microcode (in_cpu inventory)) = false /\
  in_cache_domains inventory <> [].
Proof using E.
  unfold protocol_platform_errors, require_text in E.
  rewrite !app_nil, !platform_error_when_nil, !orb_false_iff, !negb_false_iff in E.
  destruct (in_cache_domains inventory); intuition done.
Qed.

(** Members of a nested object are numbers of 64 bits. *)
Lemma nested_uint key inner name z :
  map_find key (protocol_platform_object context inventory zero_hash) = Some (Value_object inner) ->
  map_find name inner = Some (uint_value z) -> is_u64 z.
Proof using W.
  intros F G. apply well_formed_uint, (map_find_well_formed name inner); [ | done].
  by apply (map_find_well_formed key _ _ W).
Qed.

Lemma load_cpu_document : load_cpu object =
  success (pl_cpu (platform_record context inventory digest (Value_object object))).
Proof using W E.
  destruct emitted_texts as (_ & _ & _ & _ & _ & _ & _ & _ & _ & T1 & T2 & T3 & T4 & _).
  unfold load_cpu.
  change (required object "cpu" "$out") with (@success Value (normalize (protocol_cpu_json (in_cpu inventory)))).
  cbn [rbind]. unfold protocol_cpu_json. cbn [normalize object_of as_object rbind].
  set (cpu := List.map _ _).
  known_members cpu.
  rewrite (string_field_good cpu "vendor" _ _ eq_refl T1). cbn [rbind].
  rewrite (string_field_good cpu "model" _ _ eq_refl T2). cbn [rbind].
  rewrite (string_field_good cpu "stepping" _ _ eq_refl T3). cbn [rbind].
  rewrite (string_field_good cpu "microcode" _ _ eq_refl T4). cbn [rbind].
  rewrite (uint_field_good cpu "cache_line_bytes" _ _ eq_refl (nested_uint "cpu" _ "cache_line_bytes" _ eq_refl eq_refl)).
  cbn [rbind].
  rewrite (uint_field_good cpu "atomic_width_bits" _ _ eq_refl (nested_uint "cpu" _ "atomic_width_bits" _ eq_refl eq_refl)).
  cbn [rbind].
  by rewrite (uint_field_good cpu "atomic_alignment_bytes" _ _ eq_refl
    (nested_uint "cpu" _ "atomic_alignment_bytes" _ eq_refl eq_refl)).
Qed.

Lemma load_pair key pair topology :
  map_find key topology = Some (normalize (pair_value pair)) -> is_u64 (fst pair) -> is_u64 (snd pair) ->
  core_pair topology key = success pair.
Proof using.
  intros F U1 U2. unfold core_pair, required. rewrite F. cbn [rbind].
  unfold pair_value. cbn [normalize List.map array_of as_array rbind].
  rewrite !uint_of_normal by done. by destruct pair.
Qed.

Lemma pair_well_formed pair : well_formed (pair_value pair) = true -> is_u64 (fst pair) /\ is_u64 (snd pair).
Proof using.
  unfold pair_value. cbn [well_formed forallb]. rewrite !andb_true_iff. intros (A & B & _).
  split; by apply well_formed_uint.
Qed.

Lemma load_topology_document : load_topology object =
  success (pl_topology (platform_record context inventory digest (Value_object object))).
Proof using W E Lo.
  destruct emitted_texts as (_ & _ & _ & _ & _ & _ & _ & _ & _ & _ & _ & _ & _ & N).
  assert (Wt : well_formed (protocol_topology_json context inventory) = true)
    by exact (map_find_well_formed "topology" _ _ W eq_refl).
  assert (P1 : is_u64 (fst (pp_near_core_pair context)) /\ is_u64 (snd (pp_near_core_pair context)))
    by exact (pair_well_formed _ (map_find_well_formed "near_core_pair" _ _ Wt eq_refl)).
  assert (P2 : is_u64 (fst (pp_far_core_pair context)) /\ is_u64 (snd (pp_far_core_pair context)))
    by exact (pair_well_formed _ (map_find_well_formed "far_core_pair" _ _ Wt eq_refl)).
  unfold load_topology.
  change (required object "topology" "$out")
    with (@success Value (normalize (protocol_topology_json context inventory))).
  cbn [rbind]. unfold protocol_topology_json. cbn [normalize object_of as_object rbind].
  set (topology := List.map _ _). known_members topology.
  rewrite (uint_field_good topology "sockets" _ _ eq_refl (nested_uint "topology" _ "sockets" _ eq_refl eq_refl)).
  cbn [rbind].
  rewrite (uint_field_good topology "numa_nodes" _ _ eq_refl
    (nested_uint "topology" _ "numa_nodes" _ eq_refl eq_refl)). cbn [rbind].
  rewrite (uint_field_good topology "physical_cores" _ _ eq_refl
    (nested_uint "topology" _ "physical_cores" _ eq_refl eq_refl)). cbn [rbind].
  change (bool_field topology "smt_enabled" "$out/topology") with (@success bool (smt_enabled inventory)).
  cbn [rbind]. unfold nested.
  change (required topology "cache_domains" "$out/topology")
    with (@success Value (normalize (strings_value (dm_domain_id <$> in_cache_domains inventory)))).
  cbn [rbind]. unfold strings_value. cbn [normalize]. unfold string_array. cbn [array_of as_array rbind andb].
  rewrite bool_decide_eq_false_2 by (by destruct (in_cache_domains inventory)).
  rewrite load_strings by (apply Forall_fmap; apply Lo). cbn [rbind].
  rewrite (load_pair "near_core_pair" (pp_near_core_pair context) topology eq_refl) by apply P1. cbn [rbind].
  by rewrite (load_pair "far_core_pair" (pp_far_core_pair context) topology eq_refl) by apply P2.
Qed.

Lemma load_memory_document : load_memory object =
  success (pl_memory (platform_record context inventory digest (Value_object object))).
Proof using W E.
  destruct emitted_texts as (_ & T1 & T2 & _). unfold load_memory.
  change (required object "memory" "$out") with (@success Value (normalize (memory_json context inventory))).
  cbn [rbind]. unfold memory_json. cbn [normalize object_of as_object rbind].
  set (memory := List.map _ _). known_members memory.
  rewrite (string_field_good memory "population" _ _ eq_refl T1). cbn [rbind].
  rewrite (uint_field_good memory "base_page_bytes" _ _ eq_refl
    (nested_uint "memory" _ "base_page_bytes" _ eq_refl eq_refl)). cbn [rbind].
  by rewrite (string_field_good memory "residency_verification_method" _ _ eq_refl T2).
Qed.

Lemma load_software_document : load_software object =
  success (pl_software (platform_record context inventory digest (Value_object object))).
Proof using E Lo.
  destruct emitted_texts as (_ & _ & _ & T & _). destruct Lo as [S1 S2 S3 S4 S5 F _]. unfold load_software.
  change (required object "software" "$out")
    with (@success Value (normalize (protocol_software_json context (in_software inventory)))).
  cbn [rbind]. unfold protocol_software_json. cbn [normalize object_of as_object rbind].
  set (software := List.map _ _). known_members software.
  rewrite (string_field_good software "operating_system" _ _ eq_refl S1). cbn [rbind].
  rewrite (string_field_good software "kernel" _ _ eq_refl S2). cbn [rbind].
  rewrite (string_field_good software "compiler" _ _ eq_refl S3). cbn [rbind].
  rewrite (string_field_good software "standard_library" _ _ eq_refl S4). cbn [rbind].
  rewrite (string_field_good software "language_standard" _ _ eq_refl S5). cbn [rbind]. unfold nested.
  change (required software "flags" "$out/software")
    with (@success Value (normalize (strings_value (pp_compiler_flags context)))).
  cbn [rbind]. unfold strings_value. cbn [normalize]. unfold string_array. cbn [array_of as_array rbind andb].
  rewrite load_strings by done. cbn [rbind].
  by rewrite (string_field_good software "link_mode" _ _ eq_refl T).
Qed.

Lemma load_clock_document : load_clock object =
  success (pl_clock (platform_record context inventory digest (Value_object object))).
Proof using E.
  destruct emitted_texts as (_ & _ & _ & _ & T1 & T2 & T3 & T4 & T5 & _). unfold load_clock.
  change (required object "clock" "$out") with (@success Value (normalize (clock_json (pp_clock context)))).
  cbn [rbind]. unfold clock_json. cbn [normalize object_of as_object rbind].
  set (clock := List.map _ _). known_members clock.
  rewrite (string_field_good clock "source" _ _ eq_refl T1). cbn [rbind].
  rewrite (unit_field_good clock "time_unit" _ _ eq_refl T2). cbn [rbind].
  rewrite (id_field_good clock "conversion_record_id" _ _ eq_refl T3). cbn [rbind].
  rewrite (id_field_good clock "serialization_record_id" _ _ eq_refl T4). cbn [rbind].
  by rewrite (id_field_good clock "acceptance_record_id" _ _ eq_refl T5).
Qed.

Lemma load_state_document state index path :
  hardware_state_errors index state = [] ->
  load_hardware_state (normalize (hardware_state_json state)) path =
  success (mkRequestedAndVerifiedHardwareState (hp_requested state) (hp_verified state)
    (hp_readback_artifact_id state) (hp_behavioral_probe_artifact_id state)
    (hp_privileged_authority_id state)).
Proof using.
  unfold hardware_state_errors. rewrite platform_error_when_nil, !orb_false_iff, !bool_decide_eq_false.
  intros ((((N1 & N2) & T1) & T2) & T3). unfold load_hardware_state, hardware_state_json.
  cbn [normalize object_of as_object rbind]. set (members := List.map _ _). known_members members.
  assert (P1 : parsed_field parse_requested_hardware_state members "requested" path = success (hp_requested state)).
  { apply (parsed_field_good _ members "requested" path (requested_state_text (hp_requested state)));
      [reflexivity | |]; by destruct (hp_requested state). }
  assert (P2 : parsed_field parse_verified_hardware_state members "verified" path = success (hp_verified state)).
  { apply (parsed_field_good _ members "verified" path (verified_text (hp_verified state)));
      [reflexivity | |]; by destruct (hp_verified state). }
  rewrite P1. cbn [rbind]. rewrite P2. cbn [rbind].
  rewrite (id_field_good members "readback_artifact_id" _ _ eq_refl T1). cbn [rbind].
  rewrite (id_field_good members "behavioral_probe_artifact_id" _ _ eq_refl T2). cbn [rbind].
  by rewrite (id_field_good members "privileged_authority_id" _ _ eq_refl T3).
Qed.

Lemma load_platform_document : load_platform (Value_object object) =
  success (platform_record context inventory digest (Value_object object)).
Proof using All.
  unfold load_platform. cbn [object_of as_object rbind]. known_members object.
  rewrite load_cpu_document. cbn [rbind]. rewrite load_topology_document. cbn [rbind].
  rewrite load_memory_document. cbn [rbind]. rewrite load_software_document. cbn [rbind].
  rewrite load_clock_document. cbn [rbind].
  change (required object "hardware_prefetch_states" "$out")
    with (@success Value (Value_array (List.map normalize (hardware_state_json <$> states_of context)))).
  cbn [rbind array_of as_array]. unfold states_of. cbn [fmap list_fmap List.map length Nat.ltb Nat.leb].
  assert (S : hardware_state_errors 0 (fst (pp_hardware_prefetch_states context)) = [] /\
              hardware_state_errors 1 (snd (pp_hardware_prefetch_states context)) = []).
  { unfold protocol_platform_errors in E. rewrite !app_nil in E. cbn in E. rewrite !app_nil in E. tauto. }
  destruct S as [S1 S2]. cbn [load_elements]. rewrite (load_state_document _ _ _ S1). cbn [rbind].
  rewrite (load_state_document _ _ _ S2). cbn [rbind].
  change (version_field object "schema_version" "$out") with (@success ProtocolVersion ProtocolVersion_v2_0_0_pre_2).
  change (version_field object "protocol_version" "$out") with (@success ProtocolVersion ProtocolVersion_v2_0_0_pre_2).
  cbn [rbind]. destruct emitted_texts as (T & _).
  rewrite (id_field_good object "platform_id" _ _ eq_refl T). cbn [rbind].
  by rewrite (digest_field_good object "record_sha256" "$out" digest eq_refl Hd).
Qed.
End Loads.

Lemma find_cpu_elem inventory id cpu : find_cpu inventory id = Some cpu -> cpu ∈ in_logical_cpus inventory.
Proof. intros H. apply find_some in H as [H _]. by apply list_elem_of_In. Qed.

Lemma two_physical_cores inventory pair :
  near_pair_invalid inventory pair = false -> (2 <= length (physical_cores inventory))%nat.
Proof.
  unfold near_pair_invalid. destruct (find_cpu _ _) as [a | ] eqn:A; [ | done].
  destruct (find_cpu inventory (snd pair)) as [b | ] eqn:B; [ | done].
  rewrite !orb_false_iff. intros [[_ C] _]. apply find_cpu_elem in A, B.
  set (core := fun cpu => (lc_package_id cpu, lc_core_id cpu)).
  assert (N : core a <> core b).
  { unfold core. intros [= E1 E2]. unfold same_core in C. rewrite E1, E2, !Z.eqb_refl in C. done. }
  assert (S : [core a; core b] ⊆+ physical_cores inventory).
  { apply NoDup_submseteq; [by repeat constructor; set_solver | ].
    intros p Hp. unfold physical_cores. rewrite elem_of_remove_dups.
    apply elem_of_cons in Hp as [-> | ->%list_elem_of_singleton]; by apply (list_elem_of_fmap_2 core). }
  by apply submseteq_length in S.
Qed.

Lemma packages_nonempty inventory : in_logical_cpus inventory <> [] -> packages inventory <> [].
Proof.
  intros N P. destruct (in_logical_cpus inventory) as [ | cpu l] eqn:E; [done | ].
  assert (H : lc_package_id cpu ∈ packages inventory).
  { unfold packages. rewrite elem_of_remove_dups, E. by left. }
  rewrite P in H. by apply elem_of_nil in H.
Qed.

(** Quantities of the inventory that must be positive. *)
Definition positive_quantities (inventory : PlatformInventory) : Prop :=
  0 < ci_cache_line_bytes (in_cpu inventory) /\ 0 < ci_atomic_width_bits (in_cpu inventory) /\
  0 < ci_atomic_alignment_bytes (in_cpu inventory) /\ 0 < in_base_page_bytes inventory.

Lemma platform_record_validates context inventory digest document :
  protocol_platform_errors context inventory = [] -> positive_quantities inventory ->
  validate_platform (platform_record context inventory digest document) = [].
Proof.
  intros E (Q1 & Q2 & Q3 & Q4). unfold protocol_platform_errors in E.
  rewrite !app_nil in E. destruct E as (_ & _ & _ & _ & _ & _ & _ & _ & _ & Near & _ & St & Pair & Inv).
  apply platform_error_when_nil in Near, Pair, Inv. apply two_physical_cores in Near.
  rewrite !orb_false_iff in Inv. destruct Inv as [[[_ L] _] Nn].
  apply Nat.ltb_ge in L. assert (P := packages_nonempty inventory).
  ospecialize (P _); [by destruct (in_logical_cpus inventory); cbn in L; [lia | ] | ].
  unfold validate_platform, platform_record.
  cbn [pl_cpu pl_topology pl_memory cpu_cache_line_bytes cpu_atomic_width_bits cpu_atomic_alignment_bytes
       top_sockets top_numa_nodes top_physical_cores mem_base_page_bytes].
  assert (Z1 : Z.of_nat (length (packages inventory)) <> 0) by (destruct (packages inventory); cbn; [done | lia]).
  assert (Z2 : Z.of_nat (length (in_numa_nodes inventory)) <> 0)
    by (destruct (in_numa_nodes inventory); cbn in Nn |- *; [done | lia]).
  rewrite !(proj2 (Z.eqb_neq _ _)) by lia. rewrite (proj2 (Z.ltb_ge _ _)) by lia. cbn [orb error_when app].
  unfold states_of in St. cbn in St. rewrite !app_nil in St. destruct St as (S1 & S2 & _).
  unfold hardware_state_errors in S1, S2. rewrite platform_error_when_nil, !orb_false_iff in S1, S2.
  destruct S1 as ((((A1 & A2) & _) & _) & _), S2 as ((((B1 & B2) & _) & _) & _).
  unfold requested_states, states_of. cbn [pl_hardware_prefetch_states fmap list_fmap].
  cbn [mjoin list_join foldr rv_requested rv_verified]. rewrite A1, A2, B1, B2. cbn [orb error_when app].
  unfold states_of in Pair. cbn in Pair. by rewrite Pair.
Qed.

(** Platform records round trip: the text [emit_protocol_platform_record] produces loads
    back as a platform document with exactly the context and the inventory it was made
    from, declares its own zero-self digest, and passes every local rule of the protocol when
    the inventory's quantities are positive: its near pair proves two physical cores. The
    loader demands besides that the software identity, the compiler flags and the cache
    names are not empty, which the emitter does not check. *)
Theorem platform_record_loads sha context inventory artifact :
  (forall m, sha_wf (mkSha256 (sha m))) ->
  well_formed (Value_object (protocol_platform_object context inventory zero_hash)) = true ->
  record_loadable context inventory ->
  emit_protocol_platform_record sha context inventory = PlatformSuccess artifact ->
  exists digest document,
    pa_record_sha256 artifact = Sha256_hex digest /\
    load_document_text DocumentKind_platform (pa_canonical_json artifact) =
      success (Record_platform (platform_record context inventory digest document)) /\
    zero_self_hash_matches sha document "record_sha256" = true /\
    (positive_quantities inventory ->
     validate_platform (platform_record context inventory digest document) = []).
Proof.
  intros Hsha W Lo H. unfold emit_protocol_platform_record in H.
  destruct (nonempty _) eqn:N; [done | ]. apply nonempty_false in N.
  apply self_hashed_verifies in H as (t & digest & -> & Hd & P & Z);
    [ | done | | done | apply protocol_platform_integers].
  - set (document := normalize _) in P, Z. exists digest, document. split; [done | ]. split_and!; [ | done | ].
    + cbn [pa_canonical_json]. unfold load_document_text. rewrite P. cbn [rbind load_document].
      assert (L : load_platform document = success (platform_record context inventory digest document)).
      { exact (load_platform_document context inventory digest W N Lo Hd). }
      by rewrite L.
    + intros Q. by apply platform_record_validates.
  - exists (take 6 (protocol_platform_object context inventory zero_hash)),
      (drop 7 (protocol_platform_object context inventory zero_hash)).
    split; [reflexivity | ]. repeat (apply Forall_cons; split; [reflexivity | ]). constructor.
Qed.

Lemma canonicalize_success v : well_formed v = true -> exists t, canonicalize v = success t.
Proof.
  intros W. apply append_canonical_success in W. unfold canonicalize.
  destruct (append_canonical v); [by eexists | done].
Qed.

(** Well-formed roots are emitted. *)
Lemma self_hashed_succeeds {T} sha root field path rule message (k : string -> string -> T) :
  zeroed_root root field -> well_formed (Value_object root) = true ->
  exists t d, self_hashed sha root field path rule message k = PlatformSuccess (k t d).
Proof.
  intros (pre & post & -> & F) W. unfold self_hashed.
  destruct (canonicalize_success _ W) as [zeroed ->]. rewrite map_assign_member by done.
  match goal with |- context [canonicalize ?v] => assert (W' : well_formed v = true) end.
  { cbn [well_formed] in W |- *. rewrite andb_true_iff in W |- *. destruct W as [W1 W2]. split.
    - rewrite <- W1. apply keys_sorted_keys. by rewrite !List.map_app.
    - rewrite forallb_app, andb_true_iff in W2 |- *. destruct W2 as [W2 W3]. split; [done | ].
      cbn [forallb fst snd] in W3 |- *. rewrite !andb_true_iff in W3 |- *.
      destruct W3 as [[W3 _] W4]. split; [split; [done | apply hex_valid] | done]. }
  destruct (canonicalize_success _ W') as [t ->]. by eexists _, _.
Qed.

Module SamplePlatform.

Definition sha (_ : list Z) : list Z := replicate 32 7.
Definition cpu (id core node : Z) : LogicalCpu := mkLogicalCpu id core node node [id] ["llc"] true.
Definition inventory : PlatformInventory :=
  mkPlatformInventory "snapshot" "2025-01-01T00:00:00Z"
    (mkCpuIdentity "vendor" "model" "1" "0x1" 64 64 8 true)
    (mkSoftwareIdentity "linux" "6.1" "clang" "libc++" "c++20") 4096
    [cpu 0 0 0; cpu 1 1 0; cpu 2 0 1]
    [mkCacheDomain "llc" 3 "Unified" 1048576 [0; 1] true] [mkNumaNode 0 [0; 1]; mkNumaNode 1 [2]] []
    [mkEvidenceValue "firmware" "dmi" (Some "1.0")].
Definition state (requested : RequestedHardwareState) (verified : VerifiedHardwareState) :
    HardwarePrefetchEvidence :=
  mkHardwarePrefetchEvidence requested verified "readback" "probe" "operator".
Definition context : ProtocolPlatformContext :=
  mkProtocolPlatformContext "platform" (0, 1) (0, 2) "two channels" "move_pages" ["-O3"] "static"
    (mkClockEvidenceReferences "tsc" "ps" "conversion" "serialization" "acceptance")
    (state RequestedHardwareState_h0 VerifiedHardwareState_verified_default,
     state RequestedHardwareState_h1 VerifiedHardwareState_verified_changed).

(** One control per kind; the governor is the one that changes. *)
Definition control (kind : ControlKind) : ControlRequest :=
  mkControlRequest (to_string_ControlKind kind) kind "stand" "value" true
    (bool_decide (kind = ControlKind_governor)) "operator" "write" "read".
Definition controls : list ControlRequest := control <$> ControlKind_library :: required_control_kinds.
Definition request : RequestedState := SampleActuator.request controls.
Definition capabilities : list Capability :=
  (fun kind => mkCapability kind CapabilityStatus_external_authority_required "m" "e" false) <$>
  ControlKind_library :: required_control_kinds.
Definition prior : list StateObservation := [SampleActuator.observation "GOVERNOR" "off"].
Definition readback (c : ControlRequest) (n : Z) : Z * PlatformResult StateObservation :=
  (n + 1, PlatformSuccess (mkStateObservation (cr_control_id c) "snapshot" 1 (Some (cr_requested_value c))
                             "evidence" "read")).
Definition manifest_context : ManifestContext :=
  mkManifestContext "platform" "manifest" "build" zero_hash [] "static"
    [mkLibraryProvenance "lib" "1" zero_hash].
Definition applied : option SampleActuator.State * ApplyReport :=
  apply_requested_state "backend" SampleActuator.act_apply SampleActuator.act_restore request prior
    ApplyMode_authorized_apply (Some SampleActuator.initial).

End SamplePlatform.

Lemma sample_prior_exact : prior_exact SampleActuator.view SamplePlatform.prior SampleActuator.initial.
Proof. intros k o. cbn. case_bool_decide; intros; simplify_eq/=; done. Qed.

Lemma platform_record_loads_witness :
  exists artifact digest document,
    emit_protocol_platform_record SamplePlatform.sha SamplePlatform.context SamplePlatform.inventory =
      PlatformSuccess artifact /\
    load_document_text DocumentKind_platform (pa_canonical_json artifact) =
      success (Record_platform (platform_record SamplePlatform.context SamplePlatform.inventory digest document)) /\
    validate_platform (platform_record SamplePlatform.context SamplePlatform.inventory digest document) = [].
Proof.
  assert (W : well_formed (Value_object
    (protocol_platform_object SamplePlatform.context SamplePlatform.inventory zero_hash)) = true)
    by (vm_compute; reflexivity).
  assert (S : exists artifact, emit_protocol_platform_record SamplePlatform.sha SamplePlatform.context
    SamplePlatform.inventory = PlatformSuccess artifact).
  { unfold emit_protocol_platform_record.
    assert (N : nonempty (protocol_platform_errors SamplePlatform.context SamplePlatform.inventory) = false)
      by (vm_compute; reflexivity).
    rewrite N. match goal with |- context [self_hashed ?s ?r ?f ?p ?u ?m ?k] =>
      destruct (self_hashed_succeeds s r f p u m k) as (t & d & Hs);
        [ | exact W | rewrite Hs; eexists; reflexivity] end.
    exists (take 6 (protocol_platform_object SamplePlatform.context SamplePlatform.inventory zero_hash)),
      (drop 7 (protocol_platform_object SamplePlatform.context SamplePlatform.inventory zero_hash)).
    split; [reflexivity | ]. repeat (apply Forall_cons; split; [reflexivity | ]). constructor. }
  destruct S as [artifact S]. exists artifact.
  destruct (platform_record_loads SamplePlatform.sha SamplePlatform.context SamplePlatform.inventory artifact)
    as (digest & document & _ & L & _ & V); [ | exact W | | exact S | ].
  - intros m. split; [reflexivity | ]. repeat constructor; done.
  - split; repeat constructor.
  - exists digest, document. split; [exact S | ]. split; [exact L | ]. apply V. repeat split.
Defined.

Lemma manifest_eligible_sound_witness :
  exists artifact,
    emit_manifest SamplePlatform.sha SamplePlatform.manifest_context SamplePlatform.inventory
      SamplePlatform.capabilities SamplePlatform.request SamplePlatform.applied.2 (verify_requested_state SamplePlatform.readback SamplePlatform.request 0).2 =
      PlatformSuccess artifact /\ ma_eligible artifact = true /\
    Forall2 (control_verified SamplePlatform.request) (rq_controls SamplePlatform.request)
      (readbacks SamplePlatform.readback (rq_controls SamplePlatform.request) 0).
Proof.
  assert (S : exists artifact, emit_manifest SamplePlatform.sha SamplePlatform.manifest_context
    SamplePlatform.inventory SamplePlatform.capabilities SamplePlatform.request SamplePlatform.applied.2
    (verify_requested_state SamplePlatform.readback SamplePlatform.request 0).2 = PlatformSuccess artifact /\ ma_eligible artifact = true).
  { unfold emit_manifest.
    assert (N : nonempty (manifest_errors SamplePlatform.manifest_context SamplePlatform.inventory
      SamplePlatform.request SamplePlatform.applied.2 (verify_requested_state SamplePlatform.readback SamplePlatform.request 0).2) = false)
      by (vm_compute; reflexivity).
    rewrite N. cbv zeta.
    assert (Se : manifest_state_errors SamplePlatform.inventory SamplePlatform.capabilities
      SamplePlatform.request = []) by (vm_compute; reflexivity). rewrite Se.
    assert (El : manifest_eligible SamplePlatform.applied.2 (verify_requested_state SamplePlatform.readback SamplePlatform.request 0).2 [] = true)
      by (vm_compute; reflexivity). rewrite El.
    match goal with |- context [self_hashed ?s ?r ?f ?p ?u ?m ?k] =>
      destruct (self_hashed_succeeds s r f p u m k) as (t & d & Hs);
        [ | | rewrite Hs; eexists; split; reflexivity] end.
    - match goal with |- zeroed_root ?r _ => exists (take 11 r), (drop 12 r) end.
      split; [reflexivity | ]. repeat (apply Forall_cons; split; [reflexivity | ]). constructor.
    - vm_compute. reflexivity. }
  destruct S as (artifact & S & El). exists artifact. split; [exact S | ]. split; [exact El | ].
  pose proof (manifest_eligible_sound SamplePlatform.sha "backend" SampleActuator.act_apply
    SampleActuator.act_restore SampleActuator.view SamplePlatform.readback SamplePlatform.manifest_context
    SamplePlatform.inventory SamplePlatform.capabilities SamplePlatform.request SamplePlatform.prior
    SampleActuator.initial ApplyMode_authorized_apply SamplePlatform.applied.1 SamplePlatform.applied.2 0 artifact
    sample_actuator_laws) as H.
  assert (Ap : SamplePlatform.applied = (SamplePlatform.applied.1, SamplePlatform.applied.2))
    by exact (surjective_pairing SamplePlatform.applied).
  unfold SamplePlatform.applied at 1 in Ap. exact (proj1 (proj2 (proj2 (proj2 (H sample_prior_exact Ap S El))))).
Defined.
