(* ===== verification/Schedule.v ===== *)
(** * Prepared schedules

    Models [include/cpu_prefetch/schedule/schedule.hpp] and
    [src/schedule/schedule.cpp]: the derivation record of a schedule, the decoding of
    its artifact into the deadlines a run executes, the digests that tie both to the
    schedule document, and the namespace discipline of the schedules of a study.
    SHA-256 ([EVP_Q_digest]) is a parameter that may fail; a byte is a number below
    256 and a tick is a 64-bit number. *)

From stdpp Require Import prelude list strings.
From Stdlib Require Import ZArith Lia Ascii.
From S2P Require Import Prelude Validation Model Bytes Json Documents LifecycleRuntime Load.
From S2P Require Import Deterministic BlockPlanning Semantic SemanticRecords JsonParsing JsonCanonical BlockPlans.

#[local] Open Scope Z_scope.
#[local] Open Scope result_scope.

Definition kScheduleAlgorithm : string := "POISSON-EXPONENTIAL-PHILOX-DECIMAL80-FLOOR-ABS-PS".
Definition kScheduleVersion : string := "1".
Definition kScheduleSuite : string := "POISSON-EXPONENTIAL-PHILOX-DECIMAL80-FLOOR-ABS-PS-v1".
Definition kScheduleTimeUnit : string := "ps".
Definition kScheduleOverflowRule : string := "SCHEDULE-U64-ABS-FAIL-CLOSED-v1".
Definition kDerivationSchema : string := "cpu-prefetch-schedule-derivation-v1".
Definition kCanonicalizationSuite : string := "JCS-I64-v1".
Definition kDerivationHashProfile : string := "SCHEDULE-DERIVATION-JCS-I64-ZEROSELF-SHA256-v1".

(** ** Digests *)

Section Digest.

(** [EVP_Q_digest]: the bytes it wrote, or failure. *)
Context (evp_digest : list Z -> option (list Z)).

(** The empty string when the digest is not available. *)
Definition sha256_hex (input : list Z) : string :=
  match evp_digest input with
  | None => EmptyString
  | Some output =>
      if negb (Nat.eqb (length output) 32) then EmptyString else Sha256_hex (mkSha256 output)
  end.

Definition append_string_field (output : list Z) (value : string) : list Z :=
  output ++ field_bytes (string_bytes value).

Definition append_integer_field (output : list Z) (value : Z) : list Z :=
  output ++ field_bytes (be_bytes 8 value).

Definition decoded_preimage (record : ScheduleRecord) (deadlines : list Z) : list Z :=
  let preimage := append_string_field [] "cpu-prefetch/decoded-deadlines-sha256/v1" in
  let preimage := append_string_field preimage kDerivationDomainProtocolVersion in
  let preimage := append_string_field preimage kScheduleSuite in
  let preimage := append_string_field preimage kScheduleTimeUnit in
  let preimage := append_integer_field preimage (sr_origin_ticks record) in
  let preimage := append_integer_field preimage (sr_horizon_ticks record) in
  let preimage :=
    append_integer_field preimage (er_numerator_events (sr_nominal_offered_rate record)) in
  let preimage :=
    append_integer_field preimage (er_denominator_ticks (sr_nominal_offered_rate record)) in
  let preimage := append_integer_field preimage (Z.of_nat (length deadlines)) in
  fold_left append_integer_field deadlines preimage.

Definition decoded_hash (record : ScheduleRecord) (deadlines : list Z) : string :=
  sha256_hex (decoded_preimage record deadlines).

(** The digest of a document with one of its members set to the zero digest. *)
Definition zeroed_hash (object : Object) (member : string) : Result string :=
  let* canonical := canonicalize (Value_object (map_assign member (string_value zero_hash) object)) in
  success (sha256_hex (string_bytes canonical)).

Definition envelope_hash (record : ScheduleRecord) : Result string :=
  match as_object (sr_source_document record) with
  | None =>
      fail_with ErrorCategory_invalid_type "$out" "SCH-ENVELOPE-OBJECT"
        "schedule source document must be an object"
  | Some source =>
      match map_find "schedule_sha256" source with
      | None =>
          fail_with ErrorCategory_missing_field "$out/schedule_sha256" "SCH-ENVELOPE-HASH"
            "schedule hash field is missing"
      | Some _ =>
          let* result := zeroed_hash source "schedule_sha256" in
          if str_empty result then
            fail_with ErrorCategory_missing_evidence "$out/schedule_sha256" "SCH-SHA256"
              "OpenSSL SHA-256 failed"
          else success result
      end
  end.

(** [(result << 8) | value], at 64 bits. *)
Definition decode_u64_be (input : list Z) : Z :=
  fold_left (fun result value => Z.lor (u64_wrap (Z.shiftl result 8)) value) input 0.

(** ** The derivation record *)

Definition expected_fields : list string :=
  ["record_schema"; "protocol_version"; "record_id"; "schedule_suite"; "base_rng_suite"; "purpose";
   "seed_id"; "parent_namespace_id"; "namespace_id"; "derived_key_u32be_hex"; "python_version";
   "decimal_version"; "libmpdec_version"; "canonicalization_suite"; "record_hash_profile";
   "record_sha256"].

Definition unknown_field_errors (object : Object) : list ValidationError :=
  flat_map (fun member =>
    error_when (negb (bool_decide (fst member ∈ expected_fields)))
      (mkError ErrorCategory_unknown_field ("$derivation/" +:+ fst member) "SCH-DERIVATION-FIELD"
         "unknown schedule derivation field")) object.

(** The [field] closure: what it returns and what it reports. *)
Definition derivation_field (object : Object) (name : string) : string * list ValidationError :=
  match map_find name object with
  | None =>
      (EmptyString,
       [mkError ErrorCategory_missing_field ("$derivation/" +:+ name) "SCH-DERIVATION-FIELD"
          "required schedule derivation field is missing"])
  | Some value =>
      match as_string value with
      | None =>
          (EmptyString,
           [mkError ErrorCategory_invalid_type ("$derivation/" +:+ name) "SCH-DERIVATION-FIELD"
              "schedule derivation fields must be strings"])
      | Some text => (text, [])
      end
  end.

(** The [expect] closure: an empty value is not compared. *)
Definition expect_binding (actual expected name rule : string) : list ValidationError :=
  error_when (negb (str_empty actual) && negb (bool_decide (actual = expected)))
    (mkError ErrorCategory_reference_mismatch ("$derivation/" +:+ name) rule
       "schedule derivation value does not match its accepted binding").

(** The value, the binding and the rule of each compared field, in the order of the calls. *)
Definition derivation_bindings (schedule : ScheduleRecord) : list (string * string * string) :=
  [("record_schema", kDerivationSchema, "SCH-DERIVATION-SCHEMA");
   ("protocol_version", kProtocolVersion, "SCH-DERIVATION-PROTOCOL");
   ("record_id", rg_derivation_record_id (sr_rng schedule), "SCH-DERIVATION-RECORD-ID");
   ("schedule_suite", kScheduleSuite, "SCH-DERIVATION-SUITE");
   ("base_rng_suite", "PHILOX4X32-10-HMAC-SHA256-v1", "SCH-DERIVATION-BASE-RNG");
   ("purpose", "arrival-schedule", "SCH-DERIVATION-PURPOSE");
   ("seed_id", rg_seed_id (sr_rng schedule), "SCH-DERIVATION-SEED");
   ("parent_namespace_id", rg_parent_namespace_id (sr_rng schedule), "SCH-DERIVATION-PARENT");
   ("namespace_id", sr_namespace_id schedule, "SCH-DERIVATION-NAMESPACE");
   ("canonicalization_suite", kCanonicalizationSuite, "SCH-DERIVATION-CANONICAL");
   ("record_hash_profile", kDerivationHashProfile, "SCH-DERIVATION-HASH-PROFILE")].

Definition derivation_hash_errors (object : Object) (declared_hash : string) : list ValidationError :=
  if negb (Nat.eqb (String.length declared_hash) 64) || negb (lowercase_hex declared_hash) then
    [mkError ErrorCategory_invalid_hash "$derivation/record_sha256" "SCH-DERIVATION-HASH"
       "derivation SHA-256 must be lowercase hexadecimal"]
  else
    match zeroed_hash object "record_sha256" with
    | failure errors => errors
    | success computed_hash =>
        if str_empty computed_hash then
          [mkError ErrorCategory_missing_evidence "$derivation/record_sha256" "SCH-SHA256"
             "OpenSSL SHA-256 failed"]
        else
          error_when (negb (bool_decide (computed_hash = declared_hash)))
            (mkError ErrorCategory_reference_mismatch "$derivation/record_sha256"
               "SCH-DERIVATION-HASH" "canonical derivation SHA-256 does not match")
    end.

Definition validate_derivation_record (schedule : ScheduleRecord) (derivation_record_json : string) :
    list ValidationError :=
  match parse derivation_record_json with
  | failure errors => errors
  | success parsed =>
      match as_object parsed with
      | None =>
          [mkError ErrorCategory_invalid_type "$derivation" "SCH-DERIVATION-OBJECT"
             "schedule derivation record must be an object"]
      | Some object =>
          let value name := fst (derivation_field object name) in
          unknown_field_errors object ++
          flat_map (fun name => snd (derivation_field object name)) expected_fields ++
          flat_map (fun '(name, expected, rule) => expect_binding (value name) expected name rule)
            (derivation_bindings schedule) ++
          error_when (negb (Nat.eqb (String.length (value "derived_key_u32be_hex")) 16) ||
                      negb (lowercase_hex (value "derived_key_u32be_hex")))
            (mkError ErrorCategory_invalid_hash "$derivation/derived_key_u32be_hex"
               "SCH-DERIVATION-KEY"
               "derived Philox key identity must be 16 lowercase hex digits") ++
          error_when (negb (String.prefix "3.14." (value "python_version")) ||
                      str_empty (value "decimal_version") || str_empty (value "libmpdec_version"))
            (mkError ErrorCategory_unsupported_version "$derivation/python_version"
               "SCH-DERIVATION-RUNTIME"
               "derivation must record Python 3.14.x and exact decimal/libmpdec versions") ++
          derivation_hash_errors object (value "record_sha256")
      end
  end.

(** ** Decoding *)

Record PreparedSchedule : Set := mkPreparedSchedule {
  ps_deadlines : list Z;
  ps_artifact_sha256 : string;
  ps_decoded_deadlines_sha256 : string;
  ps_schedule_sha256 : string
}.

(** What the document must say before the artifact is read. *)
Definition envelope_errors (record : ScheduleRecord) : list ValidationError :=
  error_when (negb (bool_decide (sr_arrival_family record = ArrivalFamily_poisson_exponential)))
    (mkError ErrorCategory_cross_field "$out/arrival_family" "SCH-SUITE-FAMILY"
       "ADR-0029 requires POISSON_EXPONENTIAL") ++
  error_when (negb (bool_decide (rg_algorithm (sr_rng record) = kScheduleAlgorithm)) ||
              negb (bool_decide (rg_version (sr_rng record) = kScheduleVersion)))
    (mkError ErrorCategory_unsupported_version "$out/rng" "SCH-SUITE-ID"
       "schedule RNG algorithm/version does not identify ADR-0029") ++
  error_when (negb (bool_decide (sr_time_unit record = kScheduleTimeUnit)))
    (mkError ErrorCategory_invalid_unit "$out/time_unit" "SCH-TIME-UNIT"
       "ADR-0029 requires picosecond schedule ticks") ++
  error_when (negb (bool_decide (sr_deadline_encoding record = DeadlineEncoding_absolute_integer_ticks)))
    (mkError ErrorCategory_unknown_enum "$out/deadline_encoding" "SCH-SUITE-ENCODING"
       "ADR-0029 requires absolute integer deadlines") ++
  error_when (negb (bool_decide (sr_overflow_rule_record_id record = kScheduleOverflowRule)))
    (mkError ErrorCategory_reference_mismatch "$out/overflow_rule_record_id" "SCH-OVERFLOW-RULE"
       "schedule does not bind the accepted overflow rule") ++
  error_when ((er_numerator_events (sr_nominal_offered_rate record) =? 0) ||
              (er_denominator_ticks (sr_nominal_offered_rate record) =? 0) ||
              negb (Z.gcd (er_numerator_events (sr_nominal_offered_rate record))
                          (er_denominator_ticks (sr_nominal_offered_rate record)) =? 1))
    (mkError ErrorCategory_cross_field "$out/nominal_offered_rate" "SCH-RATE-CANONICAL"
       "ADR-0029 requires a positive reduced rational rate") ++
  error_when (sr_horizon_ticks record >? u64_sub u64_max (sr_origin_ticks record))
    (mkError ErrorCategory_out_of_range "$out/horizon_ticks" "SCH-HORIZON-OVERFLOW"
       "origin plus horizon overflows uint64").

(** The loop over the artifact, eight bytes at a time; its size is a multiple of eight. *)
Fixpoint decode_artifact (artifact_bytes : list Z) : list Z :=
  match artifact_bytes with
  | b0 :: b1 :: b2 :: b3 :: b4 :: b5 :: b6 :: b7 :: rest =>
      decode_u64_be [b0; b1; b2; b3; b4; b5; b6; b7] :: decode_artifact rest
  | _ => []
  end.

(** The deadlines and the digest of the artifact. *)
Definition read_storage (record : ScheduleRecord) (artifact_bytes : list Z) :
    Result (list Z * string) :=
  match sr_deadline_storage record with
  | ExternalScheduleStorage _ _ _ byte_count artifact_sha256 =>
      let artifact_hash := sha256_hex artifact_bytes in
      let errors :=
        error_when ((sr_offered_count record >? u64_max / 8) ||
                    negb (byte_count =? u64_mul (sr_offered_count record) 8))
          (mkError ErrorCategory_out_of_range "$out/deadline_storage/byte_count" "SCH-BYTE-COUNT"
             "byte_count must equal eight times offered_count") ++
        error_when (negb (Z.of_nat (length artifact_bytes) =? byte_count))
          (mkError ErrorCategory_cross_field "$artifact" "SCH-ARTIFACT-SIZE"
             "artifact size does not equal byte_count") ++
        (if str_empty artifact_hash then
           [mkError ErrorCategory_missing_evidence "$artifact" "SCH-SHA256" "OpenSSL SHA-256 failed"]
         else
           error_when (negb (bool_decide (artifact_hash = Sha256_hex artifact_sha256)))
             (mkError ErrorCategory_reference_mismatch "$out/deadline_storage/artifact_sha256"
                "SCH-ARTIFACT-HASH" "artifact SHA-256 does not match the envelope")) in
      match errors with
      | [] => success (decode_artifact artifact_bytes, artifact_hash)
      | _ => failure errors
      end
  | InlineDeadlineStorage deadline_ticks =>
      match artifact_bytes with
      | [] => success (deadline_ticks, EmptyString)
      | _ =>
          fail_with ErrorCategory_cross_field "$artifact" "SCH-INLINE-BYTES"
            "inline test schedules do not accept external bytes"
      end
  end.

(** The loop over the decoded deadlines. *)
Fixpoint decoded_deadline_errors (origin horizon_end index : Z) (previous : option Z)
    (deadlines : list Z) : list ValidationError :=
  match deadlines with
  | [] => []
  | deadline :: rest =>
      let path := ("$deadlines/" +:+ std_to_string index)%string in
      error_when (match previous with Some p => deadline <? p | None => false end)
        (mkError ErrorCategory_cross_field path "SCH-NONDECREASING"
           "decoded deadlines must be nondecreasing") ++
      error_when ((deadline <? origin) || (deadline >=? horizon_end))
        (mkError ErrorCategory_cross_field path "SCH-HALF-OPEN"
           "decoded deadline is outside [origin, origin+horizon)") ++
      decoded_deadline_errors origin horizon_end (index + 1) (Some deadline) rest
  end.

Definition decode_and_validate (record : ScheduleRecord) (artifact_bytes : list Z)
    (derivation_record_json : string) : Result PreparedSchedule :=
  match validate (Record_schedule record) ++
        validate_derivation_record record derivation_record_json ++ envelope_errors record with
  | _ :: _ as errors => failure errors
  | [] =>
      let* storage := read_storage record artifact_bytes in
      let '(deadlines, artifact_hash) := storage in
      let horizon_end := u64_add (sr_origin_ticks record) (sr_horizon_ticks record) in
      let computed_decoded_hash := decoded_hash record deadlines in
      let computed_envelope_hash := envelope_hash record in
      let errors :=
        error_when (negb (Z.of_nat (length deadlines) =? sr_offered_count record))
          (mkError ErrorCategory_cross_field "$out/offered_count" "SCH-DECODED-COUNT"
             "decoded deadline count does not equal offered_count") ++
        decoded_deadline_errors (sr_origin_ticks record) horizon_end 0 None deadlines ++
        (if str_empty computed_decoded_hash then
           [mkError ErrorCategory_missing_evidence "$out/decoded_deadlines_sha256" "SCH-SHA256"
              "OpenSSL SHA-256 failed"]
         else
           error_when (negb (bool_decide
               (computed_decoded_hash = Sha256_hex (sr_decoded_deadlines_sha256 record))))
             (mkError ErrorCategory_reference_mismatch "$out/decoded_deadlines_sha256"
                "SCH-DECODED-HASH" "decoded deadline SHA-256 does not match the envelope")) ++
        match computed_envelope_hash with
        | failure errors => errors
        | success hash =>
            error_when (negb (bool_decide (hash = Sha256_hex (sr_schedule_sha256 record))))
              (mkError ErrorCategory_reference_mismatch "$out/schedule_sha256"
                 "SCH-ENVELOPE-HASH" "canonical schedule SHA-256 does not match")
        end in
      match errors, computed_envelope_hash with
      | [], success hash =>
          success (mkPreparedSchedule deadlines artifact_hash computed_decoded_hash hash)
      | _, _ => failure errors
      end
  end.

End Digest.

(** ** The schedules of a study *)

Inductive NamespaceRole : Set :=
| NamespaceRole_warmup
| NamespaceRole_calibration
| NamespaceRole_pilot
| NamespaceRole_h3_train
| NamespaceRole_h3_validation
| NamespaceRole_h1h2_supplemental
| NamespaceRole_diagnostic.

#[export] Instance NamespaceRole_eq_dec : EqDecision NamespaceRole.
Proof. solve_decision. Defined.

(** A null [schedule] pointer is [None]. *)
Record ScheduleUse : Set := mkScheduleUse {
  su_schedule : option ScheduleRecord;
  su_namespace_role : NamespaceRole;
  su_treatment_id : string;
  su_common_schedule_family_id : string
}.

Definition role_matches_kind (role : NamespaceRole) (kind : ScheduleKind) : bool :=
  match role with
  | NamespaceRole_warmup => bool_decide (kind = ScheduleKind_warmup)
  | NamespaceRole_calibration => bool_decide (kind = ScheduleKind_calibration)
  | NamespaceRole_pilot => bool_decide (kind = ScheduleKind_pilot)
  | NamespaceRole_h3_train
  | NamespaceRole_h3_validation
  | NamespaceRole_h1h2_supplemental => bool_decide (kind = ScheduleKind_confirmatory)
  | NamespaceRole_diagnostic => bool_decide (kind = ScheduleKind_diagnostic)
  end.

Definition is_confirmatory_role (role : NamespaceRole) : bool :=
  bool_decide (role = NamespaceRole_h3_train) || bool_decide (role = NamespaceRole_h3_validation) ||
  bool_decide (role = NamespaceRole_h1h2_supplemental).

Definition same_schedule (left right : ScheduleRecord) : bool :=
  bool_decide (sr_schedule_id left = sr_schedule_id right) &&
  bool_decide (sr_schedule_sha256 left = sr_schedule_sha256 right) &&
  bool_decide (sr_decoded_deadlines_sha256 left = sr_decoded_deadlines_sha256 right) &&
  bool_decide (sr_namespace_id left = sr_namespace_id right) &&
  bool_decide (rg_parent_namespace_id (sr_rng left) = rg_parent_namespace_id (sr_rng right)) &&
  bool_decide (rg_seed_id (sr_rng left) = rg_seed_id (sr_rng right)) &&
  bool_decide (rg_derivation_record_id (sr_rng left) = rg_derivation_record_id (sr_rng right)) &&
  bool_decide (rg_algorithm (sr_rng left) = rg_algorithm (sr_rng right)) &&
  bool_decide (rg_version (sr_rng left) = rg_version (sr_rng right)) &&
  bool_decide (sr_schedule_kind left = sr_schedule_kind right) &&
  bool_decide (sr_arrival_family left = sr_arrival_family right) &&
  bool_decide (sr_time_unit left = sr_time_unit right) &&
  bool_decide (sr_deadline_encoding left = sr_deadline_encoding right) &&
  (sr_origin_ticks left =? sr_origin_ticks right) &&
  (sr_horizon_ticks left =? sr_horizon_ticks right) &&
  (sr_offered_count left =? sr_offered_count right) &&
  (er_numerator_events (sr_nominal_offered_rate left) =?
   er_numerator_events (sr_nominal_offered_rate right)) &&
  (er_denominator_ticks (sr_nominal_offered_rate left) =?
   er_denominator_ticks (sr_nominal_offered_rate right)).

(** [try_emplace]: the entry of the key, whether it is new, and the map. *)
Definition try_emplace {V : Type} (key : string) (value : V) (m : list (string * V)) :
    V * bool * list (string * V) :=
  match map_find key m with
  | Some found => (found, false, m)
  | None => (value, true, map_assign key value m)
  end.

(** The locals of the loop: the owner of each namespace, the schedule of each family
    and the parent of the confirmatory namespaces. *)
Record UseScan : Set := mkUseScan {
  sc_namespaces : list (string * (NamespaceRole * ScheduleRecord));
  sc_families : list (string * ScheduleRecord);
  sc_confirmatory_parent : string
}.

Definition scan_use (index : Z) (scan : UseScan) (use : ScheduleUse) :
    list ValidationError * UseScan :=
  let path := ("$schedule_uses/" +:+ std_to_string index)%string in
  match su_schedule use with
  | None =>
      ([mkError ErrorCategory_missing_field (path +:+ "/schedule") "SCH-USE-RECORD"
          "schedule use requires a record"], scan)
  | Some schedule =>
      let family := su_common_schedule_family_id use in
      let '(owner, inserted, namespaces) :=
        try_emplace (sr_namespace_id schedule) (su_namespace_role use, schedule)
          (sc_namespaces scan) in
      let namespace_errors :=
        if negb inserted && negb (bool_decide (fst owner = su_namespace_role use)) then
          [mkError ErrorCategory_duplicate_value (path +:+ "/namespace_role")
             "SCH-NAMESPACE-DISJOINT"
             "distinct lifecycle roles must use disjoint child namespaces"]
        else
          error_when (negb inserted && negb (same_schedule (snd owner) schedule))
            (mkError ErrorCategory_duplicate_value (path +:+ "/schedule") "SCH-NAMESPACE-COLLISION"
               "one child namespace cannot identify different logical schedules") in
      let parent := rg_parent_namespace_id (sr_rng schedule) in
      let '(parent_errors, confirmatory_parent) :=
        if is_confirmatory_role (su_namespace_role use) then
          if str_empty (sc_confirmatory_parent scan) then ([], parent)
          else
            (error_when (negb (bool_decide (sc_confirmatory_parent scan = parent)))
               (mkError ErrorCategory_reference_mismatch
                  (path +:+ "/schedule/rng/parent_namespace_id") "SCH-STAGE-A-PARENT"
                  "confirmatory role subspaces must share the common Stage A parent"),
             sc_confirmatory_parent scan)
        else ([], sc_confirmatory_parent scan) in
      let '(family_errors, families) :=
        if str_empty family then ([], sc_families scan)
        else
          let '(first, family_inserted, families) :=
            try_emplace family schedule (sc_families scan) in
          (error_when (negb family_inserted && negb (same_schedule first schedule))
             (mkError ErrorCategory_reference_mismatch (path +:+ "/schedule") "SCH-COMMON-FAMILY"
                "matched treatments in one family must use the same logical schedule"),
           families) in
      (error_when (str_empty (su_treatment_id use))
         (mkError ErrorCategory_invalid_id (path +:+ "/treatment_id") "SCH-USE-ID"
            "treatment identity must be explicit") ++
       error_when (str_empty family)
         (mkError ErrorCategory_invalid_id (path +:+ "/common_schedule_family_id") "SCH-FAMILY-ID"
            "common schedule family identity must be explicit") ++
       error_when (negb (role_matches_kind (su_namespace_role use) (sr_schedule_kind schedule)))
         (mkError ErrorCategory_cross_field (path +:+ "/namespace_role") "SCH-NAMESPACE-ROLE"
            "namespace role does not match schedule kind") ++
       namespace_errors ++ parent_errors ++ family_errors,
       mkUseScan namespaces families confirmatory_parent)
  end.

Fixpoint scan_uses (index : Z) (scan : UseScan) (uses : list ScheduleUse) : list ValidationError :=
  match uses with
  | [] => []
  | use :: rest =>
      let '(errors, scan) := scan_use index scan use in
      errors ++ scan_uses (index + 1) scan rest
  end.

Definition validate_schedule_uses (uses : list ScheduleUse) : list ValidationError :=
  scan_uses 0 (mkUseScan [] [] EmptyString) uses.

(** ** Bytes and deadlines *)

Lemma lor_shift_add a b n : 0 <= n -> 0 <= b < 2 ^ n -> Z.lor (Z.shiftl a n) b = Z.shiftl a n + b.
Proof.
  intros Hn Hb. assert (D : Z.land (Z.shiftl a n) b = 0).
  { apply Z.bits_inj'. intros i Hi. rewrite Z.land_spec, Z.bits_0.
    destruct (Z.ltb_spec i n); [by rewrite Z.shiftl_spec_low|].
    by rewrite <- (Z.mod_small b (2 ^ n)), Z.mod_pow2_bits_high, andb_false_r by lia. }
  by rewrite Z.add_nocarry_lxor, Z.lxor_lor by done.
Qed.

Lemma be_value_range bytes : Forall is_byte bytes -> 0 <= be_value bytes < 2 ^ (8 * Z.of_nat (length bytes)).
Proof.
  induction 1 as [|b bytes Hb _ IH]; [done|]. unfold be_value. cbn [fold_left length].
  rewrite be_value_acc, pow_256_succ. unfold is_byte in Hb. nia.
Qed.

Lemma decode_u64_be_value bytes :
  Forall is_byte bytes -> (length bytes <= 8)%nat -> decode_u64_be bytes = be_value bytes.
Proof.
  induction bytes as [|b bytes IH] using rev_ind; intros F L; [done|].
  apply Forall_app in F as [F Fb]. apply Forall_cons in Fb as [Fb _]. rewrite length_app in L. cbn in L.
  unfold decode_u64_be, be_value in *. rewrite !fold_left_app. cbn [fold_left].
  rewrite IH by (done || lia). pose proof (be_value_range bytes F) as R. unfold be_value in R.
  set (v := fold_left (fun acc b => acc * 256 + b) bytes 0) in *.
  assert (P : 2 ^ (8 * Z.of_nat (length bytes)) <= 2 ^ 56) by (apply Z.pow_le_mono_r; lia).
  unfold is_byte in Fb.
  rewrite u64_wrap_id.
  - rewrite lor_shift_add by (change (2 ^ 8) with 256; lia). rewrite Z.shiftl_mul_pow2 by lia. change (2 ^ 8) with 256. lia.
  - rewrite Z.shiftl_mul_pow2 by lia. change (2 ^ 8) with 256.
    change (2 ^ 56) with 72057594037927936 in P. int_lia.
Qed.

Lemma be_bytes_mod n : forall m v, (n <= m)%nat -> be_bytes n (v mod 2 ^ (8 * Z.of_nat m)) = be_bytes n v.
Proof.
  induction n as [|n IH]; intros m v L; [done|]. cbn [be_bytes]. rewrite IH by lia. f_equal.
  rewrite !byte_of_shift by lia.
  replace (8 * Z.of_nat m) with (8 * Z.of_nat n + 8 * Z.of_nat (m - n)) by lia.
  rewrite Z.pow_add_r by lia. rewrite Z.rem_mul_r by (try apply Z.pow_pos_nonneg; lia).
  rewrite (Z.mul_comm (2 ^ (8 * Z.of_nat n))), Z_div_plus_full, Z.div_small, Z.add_0_l
    by (try apply Z.mod_pos_bound; try apply Z.pow_nonzero; try apply Z.pow_pos_nonneg; lia).
  replace (8 * Z.of_nat (m - n)) with (8 + 8 * Z.of_nat (m - n - 1)) by lia.
  rewrite Z.pow_add_r by lia. change (2 ^ 8) with 256.
  rewrite (Z.rem_mul_r _ 256) by (try apply Z.pow_pos_nonneg; lia).
  rewrite (Z.mul_comm 256), Z_mod_plus_full. by rewrite Z.mod_mod.
Qed.

Lemma be_bytes_value bytes : Forall is_byte bytes -> be_bytes (length bytes) (be_value bytes) = bytes.
Proof.
  induction 1 as [|b bytes Hb F IH]; [done|]. cbn [length be_bytes].
  pose proof (be_value_range bytes F) as R.
  assert (E : be_value (b :: bytes) = b * 2 ^ (8 * Z.of_nat (length bytes)) + be_value bytes).
  { unfold be_value at 1. cbn [fold_left]. rewrite be_value_acc. ring. }
  rewrite E, byte_of_shift by lia. unfold is_byte in Hb. f_equal.
  - rewrite Z.div_add_l, (Z.div_small (be_value bytes)), Z.add_0_r by lia. apply Z.mod_small. lia.
  - rewrite <- (be_bytes_mod _ (length bytes)) by lia.
    rewrite Z.add_comm, Z_mod_plus_full, Z.mod_small by lia. exact IH.
Qed.

(** The bytes of an artifact with these deadlines. *)
Definition artifact_of (deadlines : list Z) : list Z := flat_map (be_bytes 8) deadlines.

Lemma decode_artifact_of deadlines :
  Forall is_u64 deadlines -> decode_artifact (artifact_of deadlines) = deadlines.
Proof.
  induction 1 as [|d deadlines Hd _ IH]; [done|]. unfold artifact_of. cbn [flat_map].
  pose proof (be_bytes_range 8 d) as F. pose proof (be_value_bytes 8 d ltac:(int_lia)) as V.
  change (be_bytes 8 d) with
    [Z.land (Z.shiftr d 56) 255; Z.land (Z.shiftr d 48) 255; Z.land (Z.shiftr d 40) 255;
     Z.land (Z.shiftr d 32) 255; Z.land (Z.shiftr d 24) 255; Z.land (Z.shiftr d 16) 255;
     Z.land (Z.shiftr d 8) 255; Z.land (Z.shiftr d 0) 255] in *.
  cbn [app decode_artifact]. f_equal; [|exact IH].
  rewrite decode_u64_be_value by (done || (cbn; lia)). rewrite V.
  change (2 ^ (8 * Z.of_nat 8)) with u64_modulus. apply Z.mod_small. int_lia.
Qed.

Lemma artifact_decoded n : forall bytes,
  Forall is_byte bytes -> length bytes = (8 * n)%nat ->
  artifact_of (decode_artifact bytes) = bytes /\ length (decode_artifact bytes) = n /\
  Forall is_u64 (decode_artifact bytes).
Proof.
  induction n as [|n IH]; intros bytes F L.
  { destruct bytes; [|cbn in L; lia]. split_and!; done || apply Forall_nil, I. }
  do 8 (destruct bytes as [|? bytes]; [cbn in L; lia|]). cbn [decode_artifact].
  do 8 (apply Forall_cons in F as [? F]).
  destruct (IH bytes F) as (E & EL & U); [cbn in L; lia|].
  set (front := [z; z0; z1; z2; z3; z4; z5; z6]).
  assert (FF : Forall is_byte front) by (subst front; repeat (apply Forall_cons; split; [done|]); apply Forall_nil, I).
  rewrite (decode_u64_be_value front) by (done || (cbn; lia)).
  pose proof (be_bytes_value front FF) as B. pose proof (be_value_range front FF) as R.
  unfold artifact_of. cbn [flat_map length]. fold (artifact_of (decode_artifact bytes)).
  change (length front) with 8%nat in B, R. rewrite B, E, EL. split_and!; [done|done|].
  apply Forall_cons. split; [|done]. change (2 ^ (8 * Z.of_nat 8)) with u64_modulus in R. int_lia.
Qed.

(** ** What is accepted *)

Section Accepted.

Context (evp_digest : list Z -> option (list Z)).

(** The digest of a message is available and is this one. *)
Definition digest_is (message : list Z) (digest : string) : Prop :=
  sha256_hex evp_digest message = digest /\ digest <> EmptyString.

(** The digest of the object with one member zeroed. *)
Definition zeroed_digest_is (object : Object) (member digest : string) : Prop :=
  exists canonical,
    canonicalize (Value_object (map_assign member (string_value zero_hash) object)) =
      success canonical /\
    digest_is (string_bytes canonical) digest.

(** The counts of the document are 64-bit numbers. *)
Definition schedule_counts_u64 (record : ScheduleRecord) : Prop :=
  is_u64 (sr_offered_count record) /\
  match sr_deadline_storage record with
  | ExternalScheduleStorage _ _ _ byte_count _ => is_u64 byte_count
  | InlineDeadlineStorage _ => True
  end.

Definition envelope_ok (record : ScheduleRecord) : Prop :=
  sr_arrival_family record = ArrivalFamily_poisson_exponential /\
  rg_algorithm (sr_rng record) = kScheduleAlgorithm /\ rg_version (sr_rng record) = kScheduleVersion /\
  sr_time_unit record = kScheduleTimeUnit /\
  sr_deadline_encoding record = DeadlineEncoding_absolute_integer_ticks /\
  sr_overflow_rule_record_id record = kScheduleOverflowRule /\
  er_numerator_events (sr_nominal_offered_rate record) <> 0 /\
  er_denominator_ticks (sr_nominal_offered_rate record) <> 0 /\
  Z.gcd (er_numerator_events (sr_nominal_offered_rate record))
    (er_denominator_ticks (sr_nominal_offered_rate record)) = 1 /\
  sr_origin_ticks record + sr_horizon_ticks record <= u64_max.

(** The stored deadlines, and the digest of the artifact that holds them. *)
Definition storage_holds (record : ScheduleRecord) (artifact_bytes deadlines : list Z)
    (artifact_hash : string) : Prop :=
  match sr_deadline_storage record with
  | ExternalScheduleStorage _ _ _ byte_count artifact_sha256 =>
      byte_count = 8 * sr_offered_count record /\
      artifact_bytes = artifact_of deadlines /\ Forall is_u64 deadlines /\
      digest_is artifact_bytes artifact_hash /\ artifact_hash = Sha256_hex artifact_sha256
  | InlineDeadlineStorage deadline_ticks =>
      artifact_bytes = [] /\ deadlines = deadline_ticks /\ artifact_hash = EmptyString
  end.

Definition prepared_from (record : ScheduleRecord) (artifact_bytes : list Z)
    (p : PreparedSchedule) : Prop :=
  storage_holds record artifact_bytes (ps_deadlines p) (ps_artifact_sha256 p) /\
  Z.of_nat (length (ps_deadlines p)) = sr_offered_count record /\
  validate_prepared_schedule
    (mkPreparedScheduleView (ps_deadlines p) (sr_origin_ticks record)
       (sr_origin_ticks record + sr_horizon_ticks record)) = [] /\
  digest_is (decoded_preimage record (ps_deadlines p)) (ps_decoded_deadlines_sha256 p) /\
  ps_decoded_deadlines_sha256 p = Sha256_hex (sr_decoded_deadlines_sha256 record) /\
  (exists source value, as_object (sr_source_document record) = Some source /\
     map_find "schedule_sha256" source = Some value /\
     zeroed_digest_is source "schedule_sha256" (ps_schedule_sha256 p)) /\
  ps_schedule_sha256 p = Sha256_hex (sr_schedule_sha256 record).

(** What [validate_derivation_record] asks of the members of the record. *)
Definition derivation_ok (schedule : ScheduleRecord) (object : Object) : Prop :=
  let value name := fst (derivation_field object name) in
  (forall name v, (name, v) ∈ object -> name ∈ expected_fields) /\
  Forall (fun name => exists t, map_find name object = Some (Value_string t)) expected_fields /\
  Forall (fun '(name, expected, _) => value name = EmptyString \/ value name = expected)
    (derivation_bindings schedule) /\
  String.length (value "derived_key_u32be_hex") = 16%nat /\
  lowercase_hex (value "derived_key_u32be_hex") = true /\
  String.prefix "3.14." (value "python_version") = true /\
  value "decimal_version" <> EmptyString /\ value "libmpdec_version" <> EmptyString /\
  String.length (value "record_sha256") = 64%nat /\ lowercase_hex (value "record_sha256") = true /\
  zeroed_digest_is object "record_sha256" (value "record_sha256").

(** ** Lemmas *)

Lemma flat_map_Forall_nil {A B} (f : A -> list B) l : flat_map f l = [] <-> Forall (fun x => f x = []) l.
Proof.
  induction l as [|x l IH]; cbn; [split; [intros; apply Forall_nil, I|done]|].
  by rewrite app_nil, IH, Forall_cons.
Qed.

Lemma zeroed_hash_spec object member digest :
  (zeroed_hash evp_digest object member = success digest /\ str_empty digest = false) <->
  zeroed_digest_is object member digest.
Proof.
  unfold zeroed_hash, zeroed_digest_is, digest_is.
  destruct (canonicalize _) as [canonical|errors]; simpl.
  - rewrite str_empty_false. split.
    + intros [[= <-] N]. eauto.
    + intros (? & [= <-] & <- & N). done.
  - split; [by intros [? _] | by intros (? & ? & _)].
Qed.

Lemma envelope_hash_spec record digest :
  envelope_hash evp_digest record = success digest <->
  exists source value, as_object (sr_source_document record) = Some source /\
    map_find "schedule_sha256" source = Some value /\
    zeroed_digest_is source "schedule_sha256" digest.
Proof.
  unfold envelope_hash. destruct (as_object _) as [source|]; [|split; [done|by intros (? & ? & ? & _)]].
  destruct (map_find _ source) as [value|] eqn:F;
    [|split; [done|intros (? & ? & [= <-] & Q & _); by rewrite F in Q]].
  transitivity (zeroed_digest_is source "schedule_sha256" digest).
  - rewrite <- zeroed_hash_spec. destruct (zeroed_hash _ _ _) as [h|]; cbn [rbind]; [|by split; [|intros [? _]]].
    destruct (str_empty h) eqn:E; split.
    + done.
    + intros [[= <-] N]. congruence.
    + by intros [= <-].
    + by intros [[= <-] _].
  - split; [intros Z; exists source, value; split_and!; done|by intros (? & ? & [= <-] & _ & Z)].
Qed.

Lemma envelope_errors_nil record :
  is_u64 (sr_origin_ticks record) -> is_u64 (sr_horizon_ticks record) ->
  envelope_errors record = [] <-> envelope_ok record.
Proof.
  intros Ho Hh. unfold envelope_errors, envelope_ok. guards.
  rewrite u64_sub_small by int_lia. rewrite Z.gtb_ltb, Z.ltb_ge.
  intuition (try done; try lia).
Qed.

Lemma decoded_deadline_errors_nil origin hend index index' previous deadlines :
  decoded_deadline_errors origin hend index previous deadlines = [] <->
  deadlines_errors origin hend index' previous deadlines = [].
Proof.
  revert index index' previous. induction deadlines as [|d rest IH]; intros index index' previous; [done|].
  cbn [decoded_deadline_errors deadlines_errors]. rewrite !app_nil, (IH (index + 1) (index' + 1)).
  unfold deadline_errors. guards. tauto.
Qed.

Lemma map_assign_sorted {V} key (value : V) members :
  keys_sorted members = true -> keys_sorted (map_assign key value members) = true.
Proof.
  induction members as [|[k v] rest IH]; [done|]. cbn [map_assign keys_sorted]. intros S.
  destruct (String.compare key k) eqn:C.
  - exact S.
  - cbn [keys_sorted]. unfold str_ltb at 1. rewrite C. exact S.
  - apply andb_true_iff in S as [S1 S2]. cbn [keys_sorted]. rewrite (IH S2), andb_true_r.
    destruct rest as [|[k' v'] rest]; cbn [map_assign]; [by apply string_compare_gt|].
    destruct (String.compare key k'); [done|by apply string_compare_gt|done].
Qed.

Lemma map_assign_Forall {V} (P : string * V -> Prop) key value members :
  P (key, value) -> Forall P members -> Forall P (map_assign key value members).
Proof.
  intros H. induction 1 as [|[k v] rest Hk F IH]; cbn [map_assign]; [by repeat constructor|].
  destruct (String.compare key k) eqn:C; [|by repeat constructor..].
  apply String.compare_eq_iff in C as <-. by constructor.
Qed.

Lemma zeroed_hash_total object member :
  well_formed (Value_object object) = true -> has_value (decode_utf8 member) = true ->
  exists h, zeroed_hash evp_digest object member = success h.
Proof.
  intros W M. unfold zeroed_hash, canonicalize.
  assert (Q : has_value (append_canonical
    (Value_object (map_assign member (string_value zero_hash) object))) = true).
  { apply append_canonical_success. cbn [well_formed] in *. apply andb_true_iff in W as [K W].
    rewrite map_assign_sorted by done. cbn [andb]. rewrite forallb_forall, <- List.Forall_forall in W |- *.
    apply map_assign_Forall; [|done]. cbn [fst snd]. by rewrite M. }
  destruct (append_canonical _); [cbn; eauto|done].
Qed.

Lemma derivation_field_nil object name :
  snd (derivation_field object name) = [] <-> exists t, map_find name object = Some (Value_string t).
Proof.
  unfold derivation_field. destruct (map_find name object) as [v|]; [|split; [done|by intros [? ?]]].
  destruct v; simpl; split; try done; try (by intros [? ?]). eauto.
Qed.

Lemma derivation_hash_nil object declared :
  well_formed (Value_object object) = true ->
  derivation_hash_errors evp_digest object declared = [] <->
  String.length declared = 64%nat /\ lowercase_hex declared = true /\
  zeroed_digest_is object "record_sha256" declared.
Proof.
  intros W. unfold derivation_hash_errors. rewrite <- zeroed_hash_spec.
  destruct (zeroed_hash_total object "record_sha256" W eq_refl) as [h E]. rewrite E.
  destruct (Nat.eqb_spec (String.length declared) 64) as [L|L]; cbn [negb orb];
    [|by split; [|intros [? _]]].
  destruct (lowercase_hex declared); cbn [negb]; [|by split; [|intros (_ & ? & _)]].
  destruct (str_empty h) eqn:N.
  - split; [done|]. intros (_ & _ & [= ->] & N'). congruence.
  - rewrite error_when_nil, negb_false_iff, bool_decide_eq_true. split.
    + intros ->. done.
    + by intros (_ & _ & [= ->] & _).
Qed.

Lemma unknown_field_errors_nil object :
  unknown_field_errors object = [] <-> (forall name v, (name, v) ∈ object -> name ∈ expected_fields).
Proof.
  unfold unknown_field_errors. rewrite flat_map_Forall_nil, Forall_forall. split.
  - intros H name v Hin. specialize (H (name, v) Hin).
    by apply error_when_nil, negb_false_iff, bool_decide_eq_true in H.
  - intros H [name v] Hin. apply error_when_nil, negb_false_iff, bool_decide_eq_true. by apply (H name v).
Qed.

Lemma expect_binding_nil actual expected name rule :
  expect_binding actual expected name rule = [] <-> actual = EmptyString \/ actual = expected.
Proof.
  unfold expect_binding. rewrite error_when_nil, andb_false_iff, !negb_false_iff, bool_decide_eq_true.
  by destruct actual; naive_solver.
Qed.

Lemma validate_derivation_record_nil schedule json object :
  parse json = success (Value_object object) ->
  validate_derivation_record evp_digest schedule json = [] <-> derivation_ok schedule object.
Proof.
  intros P. pose proof (parsed_well_formed _ _ P) as W.
  unfold validate_derivation_record, derivation_ok. rewrite P. cbn [as_object].
  rewrite !app_nil, unknown_field_errors_nil, !flat_map_Forall_nil, (derivation_hash_nil _ _ W). guards.
  rewrite !Nat.eqb_eq, !str_empty_false.
  rewrite (Forall_iff _ _ _ (derivation_field_nil object)).
  assert (B : Forall (fun x => (let '(name, expected, rule) := x in
      expect_binding (fst (derivation_field object name)) expected name rule) = [])
      (derivation_bindings schedule) <->
    Forall (fun '(name, expected, _) => fst (derivation_field object name) = EmptyString \/
      fst (derivation_field object name) = expected) (derivation_bindings schedule)).
  { apply Forall_iff. intros [[name expected] rule]. apply expect_binding_nil. }
  rewrite B. tauto.
Qed.

Lemma read_storage_spec record artifact_bytes deadlines artifact_hash :
  schedule_counts_u64 record -> Forall is_byte artifact_bytes ->
  (read_storage evp_digest record artifact_bytes = success (deadlines, artifact_hash) /\
   Z.of_nat (length deadlines) = sr_offered_count record) <->
  storage_holds record artifact_bytes deadlines artifact_hash /\
  Z.of_nat (length deadlines) = sr_offered_count record.
Proof.
  intros [Hc Hb] F. unfold read_storage, storage_holds, digest_is.
  destruct (sr_deadline_storage record) as [ticks|id uri rows byte_count sha].
  { destruct artifact_bytes; naive_solver. }
  set (errors := error_when _ _ ++ _).
  assert (N : errors = [] <-> byte_count = 8 * sr_offered_count record /\
    Z.of_nat (length artifact_bytes) = byte_count /\
    sha256_hex evp_digest artifact_bytes <> EmptyString /\
    sha256_hex evp_digest artifact_bytes = Sha256_hex sha).
  { subst errors. rewrite !app_nil, !error_when_nil, orb_false_iff, !negb_false_iff, Z.gtb_ltb, Z.ltb_ge, !Z.eqb_eq.
    rewrite <- str_empty_false. destruct (str_empty _); [naive_solver|].
    rewrite error_when_nil, negb_false_iff, bool_decide_eq_true.
    change (u64_max / 8) with 2305843009213693951 in *.
    assert (M : sr_offered_count record <= 2305843009213693951 ->
      u64_mul (sr_offered_count record) 8 = 8 * sr_offered_count record).
    { intros. unfold u64_mul. rewrite u64_wrap_id; [lia|]. int_lia. }
    split; [intuition congruence|]. intros (E1 & E2 & E3 & E4).
    assert (sr_offered_count record <= 2305843009213693951) by int_lia.
    rewrite M by done. done. }
  destruct (decide (errors = [])) as [E|E].
  - rewrite E. apply N in E as (E1 & E2 & E3 & E4).
    destruct (artifact_decoded (Z.to_nat (sr_offered_count record)) artifact_bytes F) as (A & L & U);
      [int_lia|].
    split.
    + intros [[= <- <-] _]. split; [|int_lia]. by rewrite A.
    + intros [(_ & -> & U' & [<- _] & Hs) L']. split; [|done]. by rewrite decode_artifact_of.
  - split.
    + destruct errors; [done|]. by intros [? _].
    + intros [(E1 & Q & U & [<- E3] & E4) L]. exfalso. apply E, N. split_and!; [done| |done|done].
      rewrite Q, E1, <- L. clear. induction deadlines as [|d rest IH]; [done|].
      unfold artifact_of. cbn [flat_map]. rewrite length_app, length_be_bytes.
      unfold artifact_of in IH. cbn [length]. lia.
Qed.

Lemma decoded_hash_nil hash expected e1 e2 :
  (if str_empty hash then [e1] else error_when (negb (bool_decide (hash = expected))) e2) =
    ([] : list ValidationError) <-> hash = expected /\ expected <> EmptyString.
Proof.
  destruct hash; cbn [str_empty]; [naive_solver|].
  rewrite error_when_nil, negb_false_iff, bool_decide_eq_true. naive_solver.
Qed.

Lemma envelope_hash_nil (r : Result string) expected e :
  match r with
  | failure errors => errors
  | success hash => error_when (negb (bool_decide (hash = expected))) e
  end = [] <-> (forall h, r = success h -> h = expected) /\ errors_of r = [].
Proof.
  destruct r; cbn [errors_of]; [|naive_solver].
  rewrite error_when_nil, negb_false_iff, bool_decide_eq_true. naive_solver.
Qed.

(** What is decoded after the storage was read. *)
Lemma decode_and_validate_spec record artifact_bytes json p :
  schedule_record_u64 record -> schedule_counts_u64 record -> Forall is_byte artifact_bytes ->
  decode_and_validate evp_digest record artifact_bytes json = success p <->
  validate_schedule record = [] /\ validate_derivation_record evp_digest record json = [] /\
  envelope_ok record /\ prepared_from record artifact_bytes p.
Proof.
  intros (Ho & Hh & _) Hc F. unfold decode_and_validate, prepared_from.
  rewrite <- (envelope_errors_nil record Ho Hh). cbn [validate].
  set (first := validate_schedule record ++ _).
  assert (N : first = [] <-> validate_schedule record = [] /\
    validate_derivation_record evp_digest record json = [] /\ envelope_errors record = []).
  { subst first. by rewrite !app_nil. }
  destruct first as [|e first]; [|split; [done|]; intros (A & B & C & _);
    discriminate (proj2 N (conj A (conj B C)))].
  destruct (proj1 N eq_refl) as (A & B & C). clear N. rewrite A, B, C.
  apply (envelope_errors_nil record Ho Hh) in C. destruct C as (_ & _ & _ & _ & _ & _ & _ & _ & _ & Hend).
  rewrite u64_add_small by int_lia.
  transitivity (exists deadlines artifact_hash,
    read_storage evp_digest record artifact_bytes = success (deadlines, artifact_hash) /\
    Z.of_nat (length deadlines) = sr_offered_count record /\
    deadlines_errors (sr_origin_ticks record) (sr_origin_ticks record + sr_horizon_ticks record) 0 None
      deadlines = [] /\
    digest_is (decoded_preimage record deadlines) (Sha256_hex (sr_decoded_deadlines_sha256 record)) /\
    envelope_hash evp_digest record = success (Sha256_hex (sr_schedule_sha256 record)) /\
    p = mkPreparedSchedule deadlines artifact_hash (Sha256_hex (sr_decoded_deadlines_sha256 record))
          (Sha256_hex (sr_schedule_sha256 record))).
  - destruct (read_storage _ _ _) as [[deadlines artifact_hash]|]; cbn [rbind];
      [|split; [done|by intros (? & ? & ? & _)]].
    set (errors := error_when _ _ ++ _).
    assert (N : errors = [] <-> Z.of_nat (length deadlines) = sr_offered_count record /\
      deadlines_errors (sr_origin_ticks record) (sr_origin_ticks record + sr_horizon_ticks record) 0
        None deadlines = [] /\
      digest_is (decoded_preimage record deadlines) (Sha256_hex (sr_decoded_deadlines_sha256 record)) /\
      (forall h, envelope_hash evp_digest record = success h ->
         h = Sha256_hex (sr_schedule_sha256 record)) /\
      errors_of (envelope_hash evp_digest record) = []).
    { subst errors. rewrite !app_nil, error_when_nil, negb_false_iff, Z.eqb_eq.
      rewrite (decoded_deadline_errors_nil _ _ 0 0). unfold digest_is. fold (decoded_hash evp_digest record deadlines).
      rewrite decoded_hash_nil, envelope_hash_nil. tauto. }
    split.
    + destruct errors; [|done]. destruct (proj1 N eq_refl) as (L & D & [H NE] & Q & _).
      destruct (envelope_hash evp_digest record) as [h|]; [|done]. intros [= <-].
      rewrite (Q h eq_refl). unfold decoded_hash. rewrite H. by exists deadlines, artifact_hash.
    + intros (? & ? & [= <- <-] & L & D & [H NE] & Q & ->).
      assert (E : errors = []).
      { apply N. rewrite Q. split_and!; try done. by intros h [= <-]. }
      rewrite E, Q. unfold decoded_hash. by rewrite H.
  - unfold validate_prepared_schedule. cbn [sv_origin_ticks sv_horizon_ticks sv_deadline_ticks].
    rewrite app_nil, error_when_nil, Z.gtb_ltb, Z.ltb_ge. split.
    + intros (deadlines & artifact_hash & R & L & D & H & Q & ->).
      cbn [ps_deadlines ps_artifact_sha256 ps_decoded_deadlines_sha256 ps_schedule_sha256].
      apply envelope_hash_spec in Q.
      assert (S : storage_holds record artifact_bytes deadlines artifact_hash).
      { apply (read_storage_spec record artifact_bytes deadlines artifact_hash Hc F). done. }
      split_and!; try done; int_lia.
    + intros (_ & _ & _ & S & L & [_ D] & H & H' & Q & Q'). apply envelope_hash_spec in Q.
      rewrite H' in H. rewrite Q' in Q. exists (ps_deadlines p), (ps_artifact_sha256 p).
      split_and!; try done.
      * by apply (read_storage_spec record artifact_bytes (ps_deadlines p) (ps_artifact_sha256 p) Hc F).
      * destruct p; cbn in *. congruence.
Qed.

End Accepted.

(** ** The preimage of the decoded digest *)

Definition decoded_fields (record : ScheduleRecord) (deadlines : list Z) : list (list Z) :=
  (string_bytes <$> ["cpu-prefetch/decoded-deadlines-sha256/v1"; kDerivationDomainProtocolVersion;
     kScheduleSuite; kScheduleTimeUnit]) ++
  (be_bytes 8 <$> [sr_origin_ticks record; sr_horizon_ticks record;
     er_numerator_events (sr_nominal_offered_rate record);
     er_denominator_ticks (sr_nominal_offered_rate record); Z.of_nat (length deadlines)] ++ deadlines).

Lemma append_integers deadlines : forall output,
  fold_left append_integer_field deadlines output = output ++ fields_bytes (be_bytes 8 <$> deadlines).
Proof.
  induction deadlines as [|d deadlines IH]; intros output; cbn; [by rewrite app_nil_r|].
  rewrite IH. unfold append_integer_field. by rewrite <- app_assoc.
Qed.

Lemma decoded_preimage_fields record deadlines :
  decoded_preimage record deadlines = fields_bytes (decoded_fields record deadlines).
Proof.
  unfold decoded_preimage, decoded_fields. cbv zeta. rewrite append_integers.
  rewrite fmap_app. unfold fields_bytes. rewrite !flat_map_app. rewrite app_assoc. f_equal.
Qed.

Lemma decoded_fields_short record deadlines :
  Forall (fun f => Z.of_nat (length f) <= u64_max) (decoded_fields record deadlines).
Proof.
  unfold decoded_fields. apply Forall_app. split; apply Forall_fmap.
  - repeat (apply Forall_cons; split; [vm_compute; discriminate|]). apply Forall_nil, I.
  - apply Forall_true. intros v. unfold compose. rewrite length_be_bytes. int_lia.
Qed.

Definition schedule_times (record : ScheduleRecord) : list Z :=
  [sr_origin_ticks record; sr_horizon_ticks record;
   er_numerator_events (sr_nominal_offered_rate record);
   er_denominator_ticks (sr_nominal_offered_rate record)].

Lemma be_bytes_list_inj ds es :
  Forall is_u64 ds -> Forall is_u64 es -> be_bytes 8 <$> ds = be_bytes 8 <$> es -> ds = es.
Proof.
  revert es. induction ds as [|d ds IH]; intros [|e es] Fd Fe; try done.
  apply Forall_cons in Fd as [Hd Fd], Fe as [He Fe]. rewrite !fmap_cons. intros E.
  assert (E1 : be_bytes 8 d = be_bytes 8 e) by congruence.
  assert (E2 : be_bytes 8 <$> ds = be_bytes 8 <$> es) by congruence.
  f_equal; [by apply be_bytes_inj | by apply IH].
Qed.

Lemma decoded_preimage_inj record record' deadlines deadlines' :
  Forall is_u64 (schedule_times record ++ deadlines) ->
  Forall is_u64 (schedule_times record' ++ deadlines') ->
  Z.of_nat (length deadlines) <= u64_max -> Z.of_nat (length deadlines') <= u64_max ->
  decoded_preimage record deadlines = decoded_preimage record' deadlines' ->
  schedule_times record = schedule_times record' /\ deadlines = deadlines'.
Proof.
  intros F F' L L' E. rewrite !decoded_preimage_fields in E.
  apply fields_bytes_inj in E; [|apply decoded_fields_short..].
  unfold decoded_fields in E. apply app_inv_head in E.
  unfold schedule_times in *. apply Forall_app in F as [F1 F2], F' as [F1' F2'].
  apply be_bytes_list_inj in E.
  - injection E as E1 E2 E3 E4 E5 E6. split; [congruence|done].
  - apply Forall_app. split; [|done].
    do 4 (apply Forall_cons in F1 as [? F1]). repeat (apply Forall_cons; split; [done || int_lia|]).
    apply Forall_nil, I.
  - apply Forall_app. split; [|done].
    do 4 (apply Forall_cons in F1' as [? F1']). repeat (apply Forall_cons; split; [done || int_lia|]).
    apply Forall_nil, I.
Qed.

(** ** The schedules of a study *)

(** What identifies a logical schedule. *)
Definition schedule_identity (s : ScheduleRecord) :=
  (sr_schedule_id s, sr_schedule_sha256 s, sr_decoded_deadlines_sha256 s, sr_namespace_id s,
   sr_rng s, sr_schedule_kind s, sr_arrival_family s, sr_time_unit s, sr_deadline_encoding s,
   sr_origin_ticks s, sr_horizon_ticks s, sr_offered_count s, sr_nominal_offered_rate s).

Lemma same_schedule_identity a b :
  same_schedule a b = true <-> schedule_identity a = schedule_identity b.
Proof.
  unfold same_schedule, schedule_identity.
  rewrite !andb_true_iff, !bool_decide_eq_true, !Z.eqb_eq.
  destruct (sr_rng a) as [a1 a2 a3 a4 a5], (sr_rng b) as [b1 b2 b3 b4 b5],
    (sr_nominal_offered_rate a) as [a6 a7], (sr_nominal_offered_rate b) as [b6 b7].
  cbn [rg_parent_namespace_id rg_seed_id rg_derivation_record_id rg_algorithm rg_version
       er_numerator_events er_denominator_ticks].
  split; [intros H; decompose [and] H; congruence|].
  intros E. injection E as ? ? ? ? ? ? ? ? ? ? ? ? ? ? ? ? ? ?. split_and!; done.
Qed.

(** One use, on its own. *)
Definition use_ok (use : ScheduleUse) (schedule : ScheduleRecord) : Prop :=
  su_schedule use = Some schedule /\ su_treatment_id use <> EmptyString /\
  su_common_schedule_family_id use <> EmptyString /\
  role_matches_kind (su_namespace_role use) (sr_schedule_kind schedule) = true.

(** Two uses together: a namespace has one role and one schedule, a family one
    schedule, and the confirmatory namespaces one parent. *)
Definition uses_agree (u : ScheduleUse) (s : ScheduleRecord) (v : ScheduleUse) (t : ScheduleRecord) :
    Prop :=
  (sr_namespace_id s = sr_namespace_id t ->
   su_namespace_role u = su_namespace_role v /\ schedule_identity s = schedule_identity t) /\
  (su_common_schedule_family_id u = su_common_schedule_family_id v ->
   schedule_identity s = schedule_identity t) /\
  (is_confirmatory_role (su_namespace_role u) = true ->
   is_confirmatory_role (su_namespace_role v) = true ->
   rg_parent_namespace_id (sr_rng s) = rg_parent_namespace_id (sr_rng t)).

Definition owner_identity (owner : NamespaceRole * ScheduleRecord) :=
  (fst owner, schedule_identity (snd owner)).

(** A use against what the loop remembers. *)
Definition fits (scan : UseScan) (u : ScheduleUse) (s : ScheduleRecord) : Prop :=
  (forall owner, map_find (sr_namespace_id s) (sc_namespaces scan) = Some owner ->
     owner_identity owner = owner_identity (su_namespace_role u, s)) /\
  (forall t, map_find (su_common_schedule_family_id u) (sc_families scan) = Some t ->
     schedule_identity t = schedule_identity s) /\
  (is_confirmatory_role (su_namespace_role u) = true -> sc_confirmatory_parent scan <> EmptyString ->
   sc_confirmatory_parent scan = rg_parent_namespace_id (sr_rng s)).

Lemma map_find_assign_fresh {V} key key' (v : V) m :
  map_find key m = None ->
  map_find key' (map_assign key v m) = if String.eqb key' key then Some v else map_find key' m.
Proof.
  induction m as [|[k x] m IH]; cbn [map_find map_assign]; intros N; [done|].
  destruct (String.eqb_spec key k) as [->|D]; [done|].
  destruct (String.compare key k) eqn:C; cbn [map_find].
  - by apply String.compare_eq_iff in C.
  - done.
  - rewrite (IH N). destruct (String.eqb_spec key' k) as [->|D']; [|done].
    destruct (String.eqb_spec k key); [congruence|done].
Qed.

(** What one turn of the loop remembers. *)
Definition scan_after (scan : UseScan) (u : ScheduleUse) (s : ScheduleRecord) : UseScan :=
  mkUseScan
    (snd (try_emplace (sr_namespace_id s) (su_namespace_role u, s) (sc_namespaces scan)))
    (snd (try_emplace (su_common_schedule_family_id u) s (sc_families scan)))
    (if is_confirmatory_role (su_namespace_role u) && str_empty (sc_confirmatory_parent scan)
     then rg_parent_namespace_id (sr_rng s) else sc_confirmatory_parent scan).

Lemma try_emplace_find {V} key (v : V) m key' :
  map_find key' (snd (try_emplace key v m)) =
  match map_find key' m with
  | Some x => Some x
  | None => if String.eqb key' key then Some v else None
  end.
Proof.
  unfold try_emplace. destruct (map_find key m) as [x|] eqn:E; cbn [snd].
  - destruct (map_find key' m) eqn:E'; [done|]. destruct (String.eqb_spec key' key); congruence.
  - rewrite map_find_assign_fresh by done. destruct (String.eqb_spec key' key) as [->|]; [by rewrite E|].
    by destruct (map_find key' m).
Qed.

(** The three comparisons with what the loop remembers. *)
Lemma namespace_errors_nil u s m e1 e2 :
  (let '(owner, inserted, _) := try_emplace (sr_namespace_id s) (su_namespace_role u, s) m in
   if negb inserted && negb (bool_decide (fst owner = su_namespace_role u)) then [e1]
   else error_when (negb inserted && negb (same_schedule (snd owner) s)) e2) = [] <->
  (forall owner, map_find (sr_namespace_id s) m = Some owner ->
     owner_identity owner = owner_identity (su_namespace_role u, s)).
Proof.
  unfold try_emplace, owner_identity. destruct (map_find _ m) as [[role t]|]; cbn [fst snd negb andb];
    [|split; [intros _ ? [=] | done]].
  destruct (bool_decide_reflect (role = su_namespace_role u)) as [->|N]; cbn [negb].
  - rewrite error_when_nil, negb_false_iff, same_schedule_identity. split.
    + intros Q ? [= <-]. cbn [fst snd]. by rewrite Q.
    + intros H. exact (f_equal snd (H _ eq_refl)).
  - split; [done|]. intros H. destruct N. exact (f_equal fst (H _ eq_refl)).
Qed.

Lemma family_errors_nil u s m e :
  (let '(first, inserted, _) := try_emplace (su_common_schedule_family_id u) s m in
   error_when (negb inserted && negb (same_schedule first s)) e) = [] <->
  (forall t, map_find (su_common_schedule_family_id u) m = Some t ->
     schedule_identity t = schedule_identity s).
Proof.
  unfold try_emplace. destruct (map_find _ m) as [t|]; cbn [negb andb];
    [|split; [intros _ ? [=] | done]].
  rewrite error_when_nil, negb_false_iff, same_schedule_identity. split; [by intros ? ? [= <-]|].
  intros H. by apply H.
Qed.

Lemma scan_use_spec index scan u s :
  su_schedule u = Some s ->
  (fst (scan_use index scan u) = [] <-> use_ok u s /\ fits scan u s) /\
  (fst (scan_use index scan u) = [] -> snd (scan_use index scan u) = scan_after scan u s).
Proof.
  intros E. unfold scan_use, scan_after, use_ok, fits. rewrite E.
  set (path := ("$schedule_uses/" +:+ std_to_string index)%string).
  pose proof (namespace_errors_nil u s (sc_namespaces scan)) as HN.
  pose proof (family_errors_nil u s (sc_families scan)) as HF.
  destruct (try_emplace (sr_namespace_id s) _ _) as [[owner inserted] namespaces].
  destruct (try_emplace (su_common_schedule_family_id u) _ _) as [[first finserted] families].
  cbn [snd]. rewrite <- (HN (mkError ErrorCategory_duplicate_value (path +:+ "/namespace_role")
             "SCH-NAMESPACE-DISJOINT"
             "distinct lifecycle roles must use disjoint child namespaces")
    (mkError ErrorCategory_duplicate_value (path +:+ "/schedule") "SCH-NAMESPACE-COLLISION"
               "one child namespace cannot identify different logical schedules")).
  rewrite <- (HF (mkError ErrorCategory_reference_mismatch (path +:+ "/schedule") "SCH-COMMON-FAMILY"
                "matched treatments in one family must use the same logical schedule")).
  clear HN HF. set (ns := if negb inserted && _ then _ else _).
  set (fs := error_when (negb finserted && _) _).
  destruct (str_empty (su_common_schedule_family_id u)) eqn:Ef.
  { assert (N : su_common_schedule_family_id u = EmptyString) by (by destruct (su_common_schedule_family_id u)).
    destruct (is_confirmatory_role _), (str_empty (sc_confirmatory_parent scan)); cbn [fst snd];
      rewrite !app_nil, !error_when_nil; split; intuition (try done; congruence). }
  apply str_empty_false in Ef.
  destruct (is_confirmatory_role (su_namespace_role u)); cbn [andb];
  destruct (sc_confirmatory_parent scan) as [|c parent] eqn:Ep; cbn [str_empty fst snd]; split; try done;
    rewrite !app_nil, !error_when_nil, !negb_false_iff, ?bool_decide_eq_true, <- ?str_empty_false;
    rewrite ?str_empty_false in *; intuition (try done; try congruence).
Qed.

(** Looking up what the first of equal keys inserted. *)
Lemma emplace_agree {V I} (f : V -> I) key u key' v m :
  (forall x, map_find key m = Some x -> f x = f u) ->
  (forall x, map_find key' (snd (try_emplace key u m)) = Some x -> f x = f v) <->
  (forall x, map_find key' m = Some x -> f x = f v) /\ (key = key' -> f u = f v).
Proof.
  intros U. rewrite try_emplace_find. destruct (String.eqb_spec key' key) as [->|D].
  - destruct (map_find key m) as [x|].
    + rewrite <- (U x eq_refl). split; [intros H; split; [exact H|]; intros _; by apply H|by intros [H _]].
    + split; [intros H; split; [done|]; intros _; by apply H|]. intros [_ H] x [= <-]. by apply H.
  - destruct (map_find key' m) as [x|]; (split; [intros H; split; [exact H|congruence]|by intros [H _]]).
Qed.

(** After an accepted use, what fits is what did and agrees with the use. *)
Lemma fits_after scan u s v t :
  fits scan u s -> rg_parent_namespace_id (sr_rng s) <> EmptyString ->
  fits (scan_after scan u s) v t <-> fits scan v t /\ uses_agree u s v t.
Proof.
  intros (Un & Uf & Up) Hp. unfold fits, uses_agree, scan_after.
  cbn [sc_namespaces sc_families sc_confirmatory_parent].
  rewrite (emplace_agree owner_identity _ _ _ (su_namespace_role v, t) _ Un).
  rewrite (emplace_agree schedule_identity _ _ _ t _ Uf).
  assert (O : owner_identity (su_namespace_role u, s) = owner_identity (su_namespace_role v, t) <->
    su_namespace_role u = su_namespace_role v /\ schedule_identity s = schedule_identity t).
  { unfold owner_identity. cbn [fst snd]. split.
    - intros Q. split; [exact (f_equal fst Q) | exact (f_equal snd Q)].
    - intros [Q1 Q2]. by rewrite Q1, Q2. }
  rewrite O. clear O Un Uf.
  destruct (is_confirmatory_role (su_namespace_role u)); cbn [andb];
    destruct (sc_confirmatory_parent scan); cbn [str_empty]; intuition congruence.
Qed.

(** The pairs of a list, each with the later ones. *)
Definition all_agree (uses : list (ScheduleUse * ScheduleRecord)) : Prop :=
  ForallOrdPairs (fun x y => uses_agree (fst x) (snd x) (fst y) (snd y)) uses.

Lemma scan_uses_spec uses : forall index scan,
  Forall (fun x => su_schedule (fst x) = Some (snd x) /\
                   rg_parent_namespace_id (sr_rng (snd x)) <> EmptyString) uses ->
  scan_uses index scan (fst <$> uses) = [] <->
  Forall (fun x => use_ok (fst x) (snd x)) uses /\
  Forall (fun x => fits scan (fst x) (snd x)) uses /\ all_agree uses.
Proof.
  induction uses as [|[u s] uses IH]; intros index scan F.
  { split; [|done]. intros _. split_and!; [apply Forall_nil, I..|apply FOP_nil]. }
  apply Forall_cons in F as [[E P] F]. cbn [fst snd] in E, P.
  destruct (scan_use_spec index scan u s E) as [S A].
  rewrite fmap_cons. cbn [scan_uses fst]. destruct (scan_use index scan u) as [errors scan'].
  cbn [fst snd] in S, A. rewrite app_nil, !Forall_cons, S. cbn [fst snd]. split.
  - intros [[K Hf] R]. rewrite (A (proj2 S (conj K Hf))) in R. apply (IH _ _ F) in R as (Ks & Fs & Gs).
    assert (B : Forall (fun x => fits scan x.1 x.2 /\ uses_agree u s x.1 x.2) uses).
    { eapply Forall_impl; [exact Fs|]. intros x Hx. by apply fits_after. }
    apply Forall_and in B as [B1 B2]. split_and!; try done. by apply FOP_cons.
  - intros ([K Ks] & [Hf Fs] & G). inversion G as [|? ? G1 G2]; subst. split; [done|].
    rewrite (A (proj2 S (conj K Hf))). apply (IH _ _ F). split_and!; try done.
    rewrite Forall_forall in *. intros x Hx. apply fits_after; [done..|]. split; [by apply Fs | by apply G1].
Qed.

Lemma uses_agree_refl u s : uses_agree u s u s.
Proof. unfold uses_agree. tauto. Qed.

Lemma uses_agree_sym u s v t : uses_agree u s v t -> uses_agree v t u s.
Proof.
  intros (N & F & P). split_and!.
  - intros E. destruct (N (eq_sym E)) as [-> ->]. done.
  - intros E. symmetry. by apply F.
  - intros Hv Hu. symmetry. by apply P.
Qed.

(** The uses with their schedules. *)
Definition scheduled (uses : list ScheduleUse) : list (ScheduleUse * ScheduleRecord) :=
  omap (fun u => pair u <$> su_schedule u) uses.

Lemma elem_of_scheduled uses u s : (u, s) ∈ scheduled uses <-> u ∈ uses /\ su_schedule u = Some s.
Proof.
  unfold scheduled. rewrite list_elem_of_omap. split.
  - intros (v & Hv & E). destruct (su_schedule v) as [t|] eqn:T; [|done]. cbn in E. by simplify_eq.
  - intros [Hu E]. exists u. by rewrite E.
Qed.

Lemma scheduled_uses uses :
  Forall (fun u => is_Some (su_schedule u)) uses -> fst <$> scheduled uses = uses.
Proof.
  induction 1 as [|u uses [s E] _ IH]; [done|]. unfold scheduled in *. cbn. rewrite E. cbn. by rewrite IH.
Qed.

Lemma scan_uses_records uses : forall index scan,
  scan_uses index scan uses = [] -> Forall (fun u => is_Some (su_schedule u)) uses.
Proof.
  induction uses as [|u uses IH]; intros index scan; [intros; apply Forall_nil, I|]. cbn [scan_uses].
  destruct (su_schedule u) as [s|] eqn:E.
  - destruct (scan_use index scan u) as [errors scan']. intros N. apply app_nil in N as [_ N].
    apply Forall_cons. split; [by rewrite E | by eapply IH].
  - unfold scan_use. rewrite E. done.
Qed.

(** C33. The schedules of a study are accepted exactly when every use names a record,
    a treatment and a family and has the role its schedule kind allows, and any two
    uses agree: one child namespace never carries two roles or two logical schedules,
    the matched treatments of a family share one schedule, and all confirmatory
    namespaces have the same parent. The first-seen maps of the loop decide this for
    all pairs. *)
Theorem schedule_uses_exact (uses : list ScheduleUse) :
  (forall u s, u ∈ uses -> su_schedule u = Some s -> rg_parent_namespace_id (sr_rng s) <> EmptyString) ->
  validate_schedule_uses uses = [] <->
  (forall u, u ∈ uses -> exists s, use_ok u s) /\
  (forall u v s t, u ∈ uses -> v ∈ uses -> su_schedule u = Some s -> su_schedule v = Some t ->
     uses_agree u s v t).
Proof.
  intros Hp. unfold validate_schedule_uses. set (scan := mkUseScan [] [] EmptyString).
  assert (F : Forall (fun x => su_schedule (fst x) = Some (snd x) /\
      rg_parent_namespace_id (sr_rng (snd x)) <> EmptyString) (scheduled uses)).
  { apply Forall_forall. intros [u s] H. apply elem_of_scheduled in H as [Hu E]. split; [done|]. by eapply Hp. }
  assert (Z : forall u s, fits scan u s) by (intros u s; split_and!; done).
  split.
  - intros N. pose proof (scan_uses_records _ _ _ N) as R. rewrite <- (scheduled_uses _ R) in N.
    apply (scan_uses_spec _ _ _ F) in N as (K & _ & G). rewrite Forall_forall in K. split.
    + intros u Hu. rewrite Forall_forall in R. destruct (R u Hu) as [s E]. exists s.
      apply (K (u, s)). by apply elem_of_scheduled.
    + intros u v s t Hu Hv Es Et.
      destruct (ForallOrdPairs_In G (u, s) (v, t)) as [Q|[Q|Q]];
        [by apply list_elem_of_In, elem_of_scheduled..| | |].
      * injection Q as -> ->. apply uses_agree_refl.
      * exact Q.
      * by apply uses_agree_sym.
  - intros [K G]. assert (R : Forall (fun u => is_Some (su_schedule u)) uses).
    { apply Forall_forall. intros u Hu. destruct (K u Hu) as [s [E _]]. by rewrite E. }
    rewrite <- (scheduled_uses _ R). apply (scan_uses_spec _ _ _ F). split_and!.
    + apply Forall_forall. intros [u s] H. apply elem_of_scheduled in H as [Hu E]. cbn [fst snd].
      destruct (K u Hu) as [s' U]. assert (s' = s) as -> by (destruct U as [E' _]; congruence). done.
    + apply Forall_forall. intros x _. apply Z.
    + apply ForallPairs_ForallOrdPairs. intros [u s] [v t] Hx Hy.
      apply list_elem_of_In, elem_of_scheduled in Hx as [Hu Es], Hy as [Hv Et]. by apply G.
Qed.

(** ** Theorems *)


(** The preimage of the decoded digest is injective: equal preimages mean the same
    origin, horizon, nominal rate and deadlines, so a digest without collisions pins
    them all. *)
Theorem decoded_preimage_injective (record record' : ScheduleRecord) (deadlines deadlines' : list Z) :
  Forall is_u64 (schedule_times record ++ deadlines) ->
  Forall is_u64 (schedule_times record' ++ deadlines') ->
  Z.of_nat (length deadlines) <= u64_max -> Z.of_nat (length deadlines') <= u64_max ->
  decoded_preimage record deadlines = decoded_preimage record' deadlines' ->
  schedule_times record = schedule_times record' /\ deadlines = deadlines'.
Proof. apply decoded_preimage_inj. Qed.

(** Without a digest nothing is prepared. *)
Theorem no_digest_no_schedule (record : ScheduleRecord) (artifact_bytes : list Z) (json : string) :
  has_value (decode_and_validate (fun _ => None) record artifact_bytes json) = false.
Proof.
  unfold decode_and_validate. destruct (_ ++ _); [|done].
  destruct (read_storage _ _ _) as [[deadlines artifact_hash]|]; cbn [rbind]; [|done].
  change (str_empty (decoded_hash (fun _ => None) record deadlines)) with true. cbv iota.
  set (errors := _ ++ _). assert (N : errors <> []).
  { subst errors. intros E. apply app_nil in E as [_ E]. by apply app_nil in E as [_ E]. }
  by destruct errors.
Qed.

(** ** A small study *)

Definition sample_digest (message : list Z) : option (list Z) := Some (sample_sha message).

Definition sample_rng : RngMetadata :=
  mkRngMetadata kScheduleAlgorithm kScheduleVersion "seed-1" "derivation-1" "stage-a".

Definition zero_sha : Sha256 := mkSha256 (replicate 32 0).

(** Two deadlines in [100, 200). *)
Definition sample_ticks : list Z := [100; 199].

Definition sample_schedule_with (decoded envelope : Sha256) (document : Value) : ScheduleRecord :=
  mkScheduleRecord ProtocolVersion_v2_0_0_pre_2 ProtocolVersion_v2_0_0_pre_2 "schedule-1"
    ScheduleKind_confirmatory ArrivalFamily_poisson_exponential "train" sample_rng "ps"
    DeadlineEncoding_absolute_integer_ticks 100 100 2 (mkExactRate 1 50) kScheduleOverflowRule
    (ExternalScheduleStorage "deadlines" "deadlines.bin" 2 16
       (mkSha256 (sample_sha (artifact_of sample_ticks)))) decoded envelope document.

(** An object that declares its own digest, with its text. *)
Definition sealed (member : string) (members : list (string * Value)) : Object :=
  let zeroed := map_assign member (string_value zero_hash) (map_of members) in
  match zeroed_hash sample_digest zeroed member with
  | success digest => map_assign member (string_value digest) zeroed
  | failure _ => zeroed
  end.

Definition document_text (object : Object) : string :=
  match canonicalize (Value_object object) with success t => t | failure _ => EmptyString end.

Definition sample_envelope : Object := sealed "schedule_sha256" [("schedule_id", string_value "schedule-1")].

Definition digest_member (object : Object) (member : string) : Sha256 :=
  match map_find member object with
  | Some (Value_string t) => match Sha256_parse t "$" with success s => s | failure _ => zero_sha end
  | _ => zero_sha
  end.

Definition sample_schedule : ScheduleRecord :=
  sample_schedule_with
    (mkSha256 (sample_sha (decoded_preimage (sample_schedule_with zero_sha zero_sha Value_null) sample_ticks)))
    (digest_member sample_envelope "schedule_sha256") (Value_object sample_envelope).

(** A derivation record with these values of the compared fields. *)
Definition derivation_document (values : list string) : Object :=
  sealed "record_sha256"
    (zip (fst <$> (fst <$> derivation_bindings sample_schedule)) (string_value <$> values) ++
     [("derived_key_u32be_hex", string_value "0123456789abcdef"); ("python_version", string_value "3.14.0");
      ("decimal_version", string_value "1.70"); ("libmpdec_version", string_value "4.0.1")]).

Definition bound_derivation : string :=
  document_text (derivation_document (snd <$> (fst <$> derivation_bindings sample_schedule))).

Definition unbound_derivation : string := document_text (derivation_document (replicate 11 EmptyString)).

Definition sample_prepared : PreparedSchedule :=
  match decode_and_validate sample_digest sample_schedule (artifact_of sample_ticks) bound_derivation with
  | success p => p
  | failure _ => mkPreparedSchedule [] EmptyString EmptyString EmptyString
  end.

Lemma artifact_of_bytes deadlines : Forall is_byte (artifact_of deadlines).
Proof.
  unfold artifact_of. induction deadlines as [|d deadlines IH]; [apply Forall_nil, I|]. cbn [flat_map].
  apply Forall_app. split; [apply be_bytes_range | exact IH].
Qed.


(** A derivation record whose compared fields are empty strings: it is accepted for
    every schedule, whatever seed, namespace and record identity the schedule names. *)
Theorem unbound_derivation_accepted (schedule : ScheduleRecord) :
  validate_derivation_record sample_digest schedule unbound_derivation = [].
Proof. vm_compute. reflexivity. Qed.

Lemma decoded_preimage_injective_witness :
  Forall is_u64 (schedule_times sample_schedule ++ sample_ticks) /\ sample_ticks = [100; 199].
Proof.
  assert (F : Forall is_u64 (schedule_times sample_schedule ++ sample_ticks)).
  { cbn. repeat (apply Forall_cons; split; [int_lia|]). apply Forall_nil, I. }
  split; [exact F|].
  apply (decoded_preimage_injective sample_schedule sample_schedule sample_ticks [100; 199]);
    [exact F|exact F|vm_compute; discriminate|vm_compute; discriminate|reflexivity].
Defined.

(** Two treatments of one family. *)
Definition sample_uses : list ScheduleUse :=
  [mkScheduleUse (Some sample_schedule) NamespaceRole_h3_train "candidate-1" "family-1";
   mkScheduleUse (Some sample_schedule) NamespaceRole_h3_train "candidate-2" "family-1"].

Lemma schedule_uses_exact_witness :
  validate_schedule_uses sample_uses = [] /\
  (forall u, u ∈ sample_uses -> exists s, use_ok u s).
Proof.
  assert (V : validate_schedule_uses sample_uses = []) by (vm_compute; reflexivity).
  split; [exact V|]. apply (schedule_uses_exact sample_uses); [|exact V].
  intros u s Hu E. apply list_elem_of_In in Hu as [<-|[<-|[]]]; injection E as <-; discriminate.
Defined.
