(* ===== verification/Artifacts.v ===== *)
(** * Canonical storage documents

    Models [include/cpu_prefetch/storage/artifacts.hpp] and
    [src/storage/artifacts.cpp]: the phase integrity report, the envelope of an
    external raw stream and the ledger record of the durable copies of an object.
    SHA-256 is a parameter; a digest that fails throws out of every caller and is
    not modelled. *)

From stdpp Require Import prelude list strings.
From Stdlib Require Import ZArith Lia Ascii.
From S2P Require Import Prelude Validation Model Bytes Json Documents Load BlockPlanning.
From S2P Require Import RawObservations JsonParsing JsonCanonical BlockPlans RunGraph PlatformRecords.

#[local] Open Scope Z_scope.
#[local] Open Scope result_scope.

Definition kPhaseIntegritySchema : string := "cpu-prefetch-phase-integrity-report/1".
Definition kCopyLedgerSchema : string := "cpu-prefetch-copy-ledger-record/1".
Definition kConsumerMixerRecordId : string := "cpu-prefetch/consumer-mix64-adr0027/v1".
Definition kContentChecksumRecordId : string := "cpu-prefetch/event-record-content-sha256/v1".
Definition kOrderedIndexChecksumRecordId : string := "cpu-prefetch/ordered-index-sha256/v1".
Definition kAddressDeltaChecksumRecordId : string := "cpu-prefetch/address-delta-sha256/v1".
Definition kChecksumAlgorithmVersion : string := "1".
Definition kRawEndianness : string := "LITTLE_ENDIAN".
Definition kDurabilityPolicyId : string := "RAW-OBS-NONE-TMP1-DUR2-v1".
Definition kLogicalRowSchemaVersion : string := "2.0.0-pre.2".

(** ** Data *)

Record CanonicalDocument : Set := mkCanonicalDocument {
  cd_bytes : string;
  cd_sha256 : string
}.

Record ArtifactRefText : Set := mkArtifactRefText {
  at_artifact_id : string;
  at_sha256 : string
}.

Record PhaseIntegrityInput : Set := mkPhaseIntegrityInput {
  pi_artifact_id : string;
  pi_run_id : string;
  pi_final_consumer_state : Z;
  pi_event_records_pre : Sha256;
  pi_event_records_post : Sha256;
  pi_ordered_index : Sha256;
  pi_address_delta : Sha256
}.

Record RawEnvelopeInput : Set := mkRawEnvelopeInput {
  re_artifact_id : string;
  re_run_id : string;
  re_stream_kind : StreamKind;
  re_artifact_uri : string;
  re_row_count : Z;
  re_byte_count : Z;
  re_artifact_sha256 : string;
  re_integrity_artifact : ArtifactRefText;
  re_source_artifacts : list ArtifactRefText
}.

Record RawEnvelopeDocument : Set := mkRawEnvelopeDocument {
  rd_document : CanonicalDocument;
  rd_envelope : RawObservationEnvelope
}.

Inductive CopyFinalizationState : Set :=
| CopyFinalizationState_incomplete
| CopyFinalizationState_sealed_complete.

#[export] Instance CopyFinalizationState_eq_dec : EqDecision CopyFinalizationState.
Proof. solve_decision. Defined.

Definition to_string_CopyFinalizationState (state : CopyFinalizationState) : string :=
  match state with
  | CopyFinalizationState_incomplete => "INCOMPLETE"
  | CopyFinalizationState_sealed_complete => "SEALED_COMPLETE"
  end.

Record CopyEvidence : Set := mkCopyEvidence {
  ce_storage_domain_id : string;
  ce_artifact_uri : string;
  ce_observed_byte_count : Z;
  ce_observed_sha256 : string;
  ce_verified_at : string;
  ce_independently_read_back : bool;
  ce_verified : bool
}.

Record CopyLedgerInput : Set := mkCopyLedgerInput {
  cl_ledger_record_id : string;
  cl_run_id : string;
  cl_object_id : string;
  cl_object_role : string;
  cl_artifact_id : string;
  cl_byte_count : Z;
  cl_sha256 : string;
  cl_stream_completeness : StreamCompleteness;
  cl_finalization_state : CopyFinalizationState;
  cl_copies : list CopyEvidence;
  cl_failures : list string
}.

(** ** Helpers *)

Definition artifact_ref_value (reference : ArtifactRefText) : Value :=
  Value_object (map_of
    [("artifact_id", string_value (at_artifact_id reference));
     ("sha256", string_value (at_sha256 reference))]).

Definition checksum_json (algorithm_record_id value_hex : string) : Value :=
  Value_object (map_of
    [("algorithm_record_id", string_value algorithm_record_id);
     ("algorithm_version", string_value kChecksumAlgorithmVersion);
     ("value_hex", string_value value_hex)]).

Definition storage_valid_sha256 (value : string) : bool :=
  Nat.eqb (String.length value) 64 && lowercase_hex value.

Definition all_nonempty (values : list string) : bool :=
  forallb (fun value => negb (str_empty value)) values.

(** Sixteen digits, the most significant first. *)
Definition consumer_state_hex (value : Z) : string :=
  untext ((fun index => hex_digit (Z.land (Z.shiftr value (60 - 4 * Z.of_nat index)) 15)) <$> seq 0 16).

Definition stream_kind_string (kind : StreamKind) : string :=
  match kind with
  | StreamKind_producer => "PRODUCER"
  | StreamKind_consumer => "CONSUMER"
  | StreamKind_joined_derived => "JOINED_DERIVED"
  end.

Section Documents.

Context (sha256 : list Z -> list Z).

Definition canonical_document (value : Value) : Result CanonicalDocument :=
  let* bytes := canonicalize value in
  success (mkCanonicalDocument bytes (Sha256_hex (mkSha256 (sha256 (string_bytes bytes))))).

(** ** Phase integrity *)

Definition phase_integrity_object (input : PhaseIntegrityInput) : Object :=
  map_of
    [("address_delta_checksum",
      checksum_json kAddressDeltaChecksumRecordId (Sha256_hex (pi_address_delta input)));
     ("event_records_post_checksum",
      checksum_json kContentChecksumRecordId (Sha256_hex (pi_event_records_post input)));
     ("event_records_pre_checksum",
      checksum_json kContentChecksumRecordId (Sha256_hex (pi_event_records_pre input)));
     ("final_consumer_rolling_checksum",
      checksum_json kConsumerMixerRecordId (consumer_state_hex (pi_final_consumer_state input)));
     ("ordered_index_checksum",
      checksum_json kOrderedIndexChecksumRecordId (Sha256_hex (pi_ordered_index input)));
     ("artifact_id", string_value (pi_artifact_id input));
     ("content_checksum_match",
      Value_bool (bool_decide (pi_event_records_pre input = pi_event_records_post input)));
     ("protocol_version", string_value kProtocolVersion);
     ("record_kind", string_value "PHASE_INTEGRITY_REPORT");
     ("run_id", string_value (pi_run_id input));
     ("schema_version", string_value kPhaseIntegritySchema)].

Definition make_phase_integrity_document (input : PhaseIntegrityInput) : Result CanonicalDocument :=
  if negb (all_nonempty [pi_artifact_id input; pi_run_id input]) then
    fail_with ErrorCategory_invalid_id "$input" "STO-INTEGRITY-ID"
      "integrity artifact and run IDs must be nonempty"
  else canonical_document (Value_object (phase_integrity_object input)).

(** ** Raw envelopes *)

Definition raw_envelope_members (input : RawEnvelopeInput) : list (string * Value) :=
  [("artifact_id", string_value (re_artifact_id input));
   ("artifact_sha256", string_value (re_artifact_sha256 input));
   ("byte_count", uint_value (re_byte_count input));
   ("compression", string_value kRawCompression);
   ("encoding", string_value kRawEncoding);
   ("endianness", string_value kRawEndianness);
   ("immutable_ordering", Value_bool true);
   ("integrity_artifact_ref", artifact_ref_value (re_integrity_artifact input));
   ("logical_row_schema_version", string_value kLogicalRowSchemaVersion);
   ("physical_format_record_id", string_value kRawFormatId);
   ("protocol_version", string_value kProtocolVersion);
   ("row_count", uint_value (re_row_count input));
   ("run_id", string_value (re_run_id input));
   ("schema_version", string_value kProtocolVersion)] ++
  match re_source_artifacts input with
  | [] => []
  | sources => [("source_artifacts", Value_array (artifact_ref_value <$> sources))]
  end ++
  [("storage", Value_object (map_of
      [("artifact_uri", string_value (re_artifact_uri input));
       ("mode", string_value "EXTERNAL_IMMUTABLE_ARTIFACT")]));
   ("stream_kind", string_value (stream_kind_string (re_stream_kind input)));
   ("time_unit", string_value kRawTimeUnit)].

(** The checks before the envelope is built; they return early. *)
Definition raw_envelope_refusal (input : RawEnvelopeInput) : option ValidationError :=
  if negb (all_nonempty [re_artifact_id input; re_run_id input; re_artifact_uri input;
                         at_artifact_id (re_integrity_artifact input)]) then
    Some (mkError ErrorCategory_invalid_id "$input" "RAW-ENVELOPE-ID"
            "raw artifact, run, URI, and integrity artifact IDs must be nonempty")
  else if negb (storage_valid_sha256 (re_artifact_sha256 input)) ||
          negb (storage_valid_sha256 (at_sha256 (re_integrity_artifact input))) then
    Some (mkError ErrorCategory_invalid_hash "$input" "RAW-ENVELOPE-SHA256"
            "raw and integrity references require SHA-256")
  else if negb (bool_decide (re_stream_kind input = StreamKind_joined_derived)) &&
          negb (Nat.eqb (length (re_source_artifacts input)) 0) then
    Some (mkError ErrorCategory_cross_field "$input/source_artifacts" "RAW-ENVELOPE-SOURCES"
            "only joined-derived envelopes may name source artifacts")
  else if bool_decide (re_stream_kind input = StreamKind_joined_derived) &&
          (length (re_source_artifacts input) <? 2)%nat then
    Some (mkError ErrorCategory_missing_evidence "$input/source_artifacts" "RAW-ENVELOPE-SOURCES"
            "joined-derived envelopes require at least two source artifacts")
  else if existsb (fun source => str_empty (at_artifact_id source) ||
                                 negb (storage_valid_sha256 (at_sha256 source)))
            (re_source_artifacts input) then
    Some (mkError ErrorCategory_invalid_hash "$input/source_artifacts"
            "RAW-ENVELOPE-SOURCE-SHA256" "source artifact reference is invalid")
  else None.

Definition make_external_raw_envelope (input : RawEnvelopeInput) : Result RawEnvelopeDocument :=
  match raw_envelope_refusal input with
  | Some error => failure [error]
  | None =>
      let* document := canonical_document (Value_object (map_of (raw_envelope_members input))) in
      let* loaded := load_document_text DocumentKind_raw_observation (cd_bytes document) in
      match loaded with
      | Record_raw envelope => success (mkRawEnvelopeDocument document envelope)
      | _ =>
          fail_with ErrorCategory_invalid_type "$out" "RAW-ENVELOPE-TYPE"
            "raw envelope loader returned another record type"
      end
  end.

(** ** Copy ledgers *)

Definition copy_json (copy : CopyEvidence) : Value :=
  Value_object (map_of
    [("artifact_uri", string_value (ce_artifact_uri copy));
     ("independently_read_back", Value_bool (ce_independently_read_back copy));
     ("observed_byte_count", uint_value (ce_observed_byte_count copy));
     ("observed_sha256", string_value (ce_observed_sha256 copy));
     ("storage_domain_id", string_value (ce_storage_domain_id copy));
     ("verification_result", string_value (if ce_verified copy then "PASS" else "FAIL"));
     ("verified_at", string_value (ce_verified_at copy))]).

(** The loop over the copies, [domain_ids] the domains so far: the first refusal. *)
Fixpoint copies_refusal (byte_count : Z) (sha : string) (domain_ids : list string)
    (copies : list CopyEvidence) : option ValidationError :=
  match copies with
  | [] => None
  | copy :: rest =>
      if negb (all_nonempty [ce_storage_domain_id copy; ce_artifact_uri copy; ce_verified_at copy]) ||
         negb (storage_valid_sha256 (ce_observed_sha256 copy)) ||
         bool_decide (ce_storage_domain_id copy ∈ domain_ids) then
        Some (mkError ErrorCategory_duplicate_value "$input/copies" "STO-LEDGER-COPY"
                "copy evidence is incomplete or repeats a domain ID")
      else if ce_verified copy &&
              (negb (ce_independently_read_back copy) ||
               negb (ce_observed_byte_count copy =? byte_count) ||
               negb (bool_decide (ce_observed_sha256 copy = sha))) then
        Some (mkError ErrorCategory_reference_mismatch "$input/copies" "STO-LEDGER-VERIFIED-IDENTITY"
                "a verified copy must be independently read back and exactly match size and SHA-256")
      else copies_refusal byte_count sha (ce_storage_domain_id copy :: domain_ids) rest
  end.

Definition verified_count (copies : list CopyEvidence) : nat := length (filter (fun c => ce_verified c = true) copies).

(** The checks of the ledger, in order. *)
Definition ledger_refusal (input : CopyLedgerInput) : option ValidationError :=
  let complete := bool_decide (cl_stream_completeness input = StreamCompleteness_sealed_complete) &&
    Nat.eqb (length (cl_copies input)) 2 && Nat.eqb (verified_count (cl_copies input)) 2 &&
    Nat.eqb (length (cl_failures input)) 0 in
  if negb (all_nonempty [cl_ledger_record_id input; cl_run_id input; cl_object_id input;
                         cl_object_role input; cl_artifact_id input]) ||
     negb (storage_valid_sha256 (cl_sha256 input)) then
    Some (mkError ErrorCategory_invalid_id "$input" "STO-LEDGER-IDENTITY"
            "copy ledger identity or SHA-256 is invalid")
  else if bool_decide (cl_stream_completeness input = StreamCompleteness_writing) then
    Some (mkError ErrorCategory_cross_field "$input/stream_completeness" "STO-LEDGER-WRITING"
            "a writable stream cannot enter the copy ledger")
  else
    match copies_refusal (cl_byte_count input) (cl_sha256 input) [] (cl_copies input) with
    | Some error => Some error
    | None =>
        if bool_decide (cl_finalization_state input = CopyFinalizationState_sealed_complete) &&
           negb complete then
          Some (mkError ErrorCategory_cross_field "$input/finalization_state" "STO-LEDGER-SEAL"
                  "sealed complete requires a complete stream and exactly two verified domains")
        else if bool_decide (cl_finalization_state input = CopyFinalizationState_incomplete) &&
                complete then
          Some (mkError ErrorCategory_cross_field "$input/finalization_state" "STO-LEDGER-INCOMPLETE"
                  "a fully verified complete object cannot be mislabeled incomplete")
        else if existsb str_empty (cl_failures input) then
          Some (mkError ErrorCategory_invalid_id "$input/failures" "STO-LEDGER-FAILURE"
                  "failure evidence strings must be nonempty")
        else None
    end.

Definition copy_ledger_object (input : CopyLedgerInput) : Object :=
  map_of
    [("artifact_id", string_value (cl_artifact_id input));
     ("byte_count", uint_value (cl_byte_count input));
     ("compression", string_value kRawCompression);
     ("copies", Value_array (copy_json <$> cl_copies input));
     ("failures", Value_array (string_value <$> cl_failures input));
     ("finalization_state", string_value (to_string_CopyFinalizationState (cl_finalization_state input)));
     ("ledger_record_id", string_value (cl_ledger_record_id input));
     ("object_id", string_value (cl_object_id input));
     ("object_role", string_value (cl_object_role input));
     ("policy_id", string_value kDurabilityPolicyId);
     ("protocol_version", string_value kProtocolVersion);
     ("run_id", string_value (cl_run_id input));
     ("schema_version", string_value kCopyLedgerSchema);
     ("sha256", string_value (cl_sha256 input));
     ("stream_completeness", string_value (to_string_StreamCompleteness (cl_stream_completeness input)));
     ("temporary_copy_count", uint_value 1);
     ("required_durable_copy_count", uint_value 2)].

Definition make_copy_ledger_document (input : CopyLedgerInput) : Result CanonicalDocument :=
  match ledger_refusal input with
  | Some error => failure [error]
  | None => canonical_document (Value_object (copy_ledger_object input))
  end.

End Documents.

(** ** Lemmas *)

(** One hexadecimal character. *)
Definition lower_hex_char (c : ascii) : bool := lowercase_hex (String c EmptyString).

Lemma lowercase_hex_chars s : lowercase_hex s = forallb lower_hex_char (text s).
Proof.
  induction s as [|c s IH]; [done|]. cbn [lowercase_hex text String.list_ascii_of_string forallb].
  unfold text in IH. rewrite <- IH. unfold lower_hex_char. cbn [lowercase_hex]. by rewrite andb_true_r.
Qed.

Lemma hex_digit_lower d : lower_hex_char (hex_digit d) = true.
Proof.
  unfold hex_digit. destruct (hex_digits !! Z.to_nat d) eqn:E; [|done]. simpl.
  apply list_elem_of_lookup_2 in E. revert a E. apply Forall_forall.
  apply (bool_decide_unpack _). vm_compute. done.
Qed.

Lemma storage_valid_sha256_hex sha : sha_wf sha -> storage_valid_sha256 (Sha256_hex sha) = true.
Proof.
  intros H. unfold storage_valid_sha256. rewrite hex_length by done. cbn [Nat.eqb andb].
  rewrite lowercase_hex_chars. unfold Sha256_hex.
  change (String.string_of_list_ascii ?l) with (untext l). rewrite text_untext. clear H.
  induction (sha_bytes sha) as [|b l IH]; [done|]. cbn [flat_map app forallb].
  by rewrite !hex_digit_lower, IH.
Qed.

(** What the ledger asks. *)
Definition copy_ok (byte_count : Z) (sha : string) (copy : CopyEvidence) : Prop :=
  ce_storage_domain_id copy <> EmptyString /\ ce_artifact_uri copy <> EmptyString /\
  ce_verified_at copy <> EmptyString /\ storage_valid_sha256 (ce_observed_sha256 copy) = true /\
  (ce_verified copy = true ->
   ce_independently_read_back copy = true /\ ce_observed_byte_count copy = byte_count /\
   ce_observed_sha256 copy = sha).

(** Everything a sealed object needs. *)
Definition ledger_complete (input : CopyLedgerInput) : Prop :=
  cl_stream_completeness input = StreamCompleteness_sealed_complete /\
  length (cl_copies input) = 2%nat /\ Forall (fun c => ce_verified c = true) (cl_copies input) /\
  cl_failures input = [].

Definition ledger_ok (input : CopyLedgerInput) : Prop :=
  Forall (fun s => s <> EmptyString)
    [cl_ledger_record_id input; cl_run_id input; cl_object_id input; cl_object_role input;
     cl_artifact_id input] /\
  storage_valid_sha256 (cl_sha256 input) = true /\
  cl_stream_completeness input <> StreamCompleteness_writing /\
  Forall (copy_ok (cl_byte_count input) (cl_sha256 input)) (cl_copies input) /\
  NoDup (ce_storage_domain_id <$> cl_copies input) /\
  (cl_finalization_state input = CopyFinalizationState_sealed_complete <-> ledger_complete input) /\
  Forall (fun s => s <> EmptyString) (cl_failures input).

Lemma all_nonempty_iff l : all_nonempty l = true <-> Forall (fun s => s <> EmptyString) l.
Proof.
  unfold all_nonempty. rewrite forallb_forall, <- List.Forall_forall. apply Forall_iff. intros s.
  rewrite negb_true_iff. by destruct s.
Qed.

Lemma copies_refusal_none byte_count sha copies : forall domain_ids,
  copies_refusal byte_count sha domain_ids copies = None <->
  Forall (copy_ok byte_count sha) copies /\ NoDup (ce_storage_domain_id <$> copies) /\
  Forall (fun c => ce_storage_domain_id c ∉ domain_ids) copies.
Proof.
  induction copies as [|c copies IH]; intros ids; cbn [copies_refusal].
  { split; [intros _; split_and!; [apply Forall_nil, I|constructor|apply Forall_nil, I]|done]. }
  rewrite fmap_cons, NoDup_cons, !Forall_cons. destruct (_ || _ || _) eqn:E.
  { split; [done|]. intros ([(N1 & N2 & N3 & V & _) _] & _ & D & _). exfalso.
    rewrite !orb_true_iff, !negb_true_iff, bool_decide_eq_true in E.
    assert (A : all_nonempty [ce_storage_domain_id c; ce_artifact_uri c; ce_verified_at c] = true).
    { apply all_nonempty_iff. repeat (apply Forall_cons; split; [done|]). apply Forall_nil, I. }
    rewrite A, V in E. naive_solver. }
  rewrite !orb_false_iff, !negb_false_iff, bool_decide_eq_false, all_nonempty_iff, !Forall_cons in E.
  destruct E as [[(N1 & N2 & N3 & _) V] D].
  destruct (ce_verified c && _) eqn:E.
  { split; [done|]. intros ([(_ & _ & _ & _ & W) _] & _). exfalso. apply andb_true_iff in E as [E1 E2].
    destruct (W E1) as (W1 & W2 & W3). rewrite W1, W2, Z.eqb_refl, bool_decide_true in E2 by done. done. }
  rewrite IH.
  assert (W : ce_verified c = true -> ce_independently_read_back c = true /\
    ce_observed_byte_count c = byte_count /\ ce_observed_sha256 c = sha).
  { intros H. rewrite H in E. cbn [andb] in E.
    rewrite !orb_false_iff, !negb_false_iff, Z.eqb_eq, bool_decide_eq_true in E. tauto. }
  assert (P : Forall (fun c0 => ce_storage_domain_id c0 ∉ ce_storage_domain_id c :: ids) copies <->
    ce_storage_domain_id c ∉ (ce_storage_domain_id <$> copies) /\
    Forall (fun c0 => ce_storage_domain_id c0 ∉ ids) copies).
  { rewrite list_elem_of_fmap, !Forall_forall. setoid_rewrite not_elem_of_cons. naive_solver. }
  assert (O : copy_ok byte_count sha c) by (split_and!; done).
  rewrite P. clear IH P W E. tauto.
Qed.

Lemma verified_count_all copies :
  length copies = 2%nat -> verified_count copies = 2%nat <-> Forall (fun c => ce_verified c = true) copies.
Proof.
  destruct copies as [|a [|b [|]]]; try done. intros _. unfold verified_count.
  rewrite !filter_cons, filter_nil, !Forall_cons.
  repeat case_decide; cbn; split; intros; try done; try (by split_and!; try apply Forall_nil, I); naive_solver.
Qed.

Lemma ledger_refusal_none input : ledger_refusal input = None <-> ledger_ok input.
Proof.
  unfold ledger_refusal, ledger_ok. cbv zeta.
  set (complete := _ && _ && _ && _).
  assert (C : complete = true <-> ledger_complete input).
  { unfold complete, ledger_complete. rewrite !andb_true_iff, bool_decide_eq_true, !Nat.eqb_eq.
    assert (F : length (cl_failures input) = 0%nat <-> cl_failures input = []) by (by destruct (cl_failures input)).
    rewrite F. split.
    - intros [[[A B] D] E]. split_and!; try done. by apply verified_count_all.
    - intros (A & B & D & E). split_and!; try done. by apply verified_count_all. }
  clearbody complete.
  set (ids := [cl_ledger_record_id input; cl_run_id input; cl_object_id input; cl_object_role input;
               cl_artifact_id input]).
  rewrite <- all_nonempty_iff. destruct (all_nonempty ids); cbn [negb orb]; [|naive_solver].
  destruct (storage_valid_sha256 (cl_sha256 input)); cbn [negb]; [|naive_solver].
  destruct (bool_decide_reflect (cl_stream_completeness input = StreamCompleteness_writing)); [naive_solver|].
  pose proof (copies_refusal_none (cl_byte_count input) (cl_sha256 input) (cl_copies input) []) as R.
  destruct (copies_refusal _ _ _ _).
  { split; [done|]. intros (_ & _ & _ & K & N & _). enough (Q : Some v = None) by done. apply R. split_and!; try done.
    apply Forall_true. intros c. apply not_elem_of_nil. }
  destruct (proj1 R eq_refl) as (K & N & _).
  assert (X : existsb str_empty (cl_failures input) = false <->
    Forall (fun s => s <> EmptyString) (cl_failures input)).
  { clear. induction (cl_failures input) as [|s l IH]; cbn; [split; [intros; apply Forall_nil, I|done]|].
    rewrite orb_false_iff, Forall_cons, IH. by destruct s; naive_solver. }
  destruct (cl_finalization_state input) eqn:Fs, complete; cbn [negb andb];
    repeat (rewrite bool_decide_eq_true_2 by done || rewrite bool_decide_eq_false_2 by done); cbn [andb];
    destruct (existsb str_empty (cl_failures input)); intuition (try done; try congruence).
Qed.

(** ** Envelopes of raw streams *)

(** The envelope of a producer or consumer stream. *)
Definition stream_envelope (input : RawEnvelopeInput) (sha integrity_sha : Sha256) (document : Value) :
    RawObservationEnvelope :=
  mkRawObservationEnvelope ProtocolVersion_v2_0_0_pre_2 ProtocolVersion_v2_0_0_pre_2
    (re_artifact_id input) (re_run_id input) (re_stream_kind input) ProtocolVersion_v2_0_0_pre_2
    kRawFormatId kRawEncoding kRawTimeUnit Endianness_little_endian kRawCompression
    (re_row_count input) (re_byte_count input) (ExternalStorage (re_artifact_uri input)) []
    (mkArtifactReference (at_artifact_id (re_integrity_artifact input)) integrity_sha) sha document.

(** A stream the store publishes: its own rows, opaque texts in UTF-8, digests in
    hexadecimal and 64-bit counts. *)
Record stream_input_ok (input : RawEnvelopeInput) (sha integrity_sha : Sha256) : Prop := {
  si_kind : re_stream_kind input <> StreamKind_joined_derived;
  si_sources : re_source_artifacts input = [];
  si_artifact : good_id (re_artifact_id input);
  si_run : good_id (re_run_id input);
  si_uri : good_id (re_artifact_uri input);
  si_integrity : good_id (at_artifact_id (re_integrity_artifact input));
  si_sha : re_artifact_sha256 input = Sha256_hex sha /\ sha_wf sha;
  si_integrity_sha : at_sha256 (re_integrity_artifact input) = Sha256_hex integrity_sha /\
    sha_wf integrity_sha;
  si_rows : is_u64 (re_row_count input);
  si_bytes : is_u64 (re_byte_count input)
}.

Lemma uint_value_well_formed z : is_u64 z -> well_formed (uint_value z) = true.
Proof. intros H. cbn. rewrite andb_true_iff, Z.leb_le. int_lia. Qed.

Definition external_members (uri : string) : Object :=
  [("artifact_uri", string_value uri); ("mode", string_value "EXTERNAL_IMMUTABLE_ARTIFACT")].

Lemma external_storage_good kind object uri :
  map_find "storage" object = Some (Value_object (external_members uri)) -> str_empty uri = false ->
  load_observation_storage kind object = success (ExternalStorage uri).
Proof.
  intros F U. unfold load_observation_storage, required. rewrite F.
  cbn [rbind object_of as_object]. set (storage := external_members uri).
  change (string_field storage "mode" "$out/storage") with (@success string "EXTERNAL_IMMUTABLE_ARTIFACT").
  cbn [rbind]. change (String.eqb "EXTERNAL_IMMUTABLE_ARTIFACT" "EXTERNAL_IMMUTABLE_ARTIFACT") with true.
  cbn iota. known_members storage. by rewrite (string_field_good storage "artifact_uri" _ _ eq_refl U).
Qed.

Definition reference_members (id : string) (sha : Sha256) : Object :=
  [("artifact_id", string_value id); ("sha256", string_value (Sha256_hex sha))].

Lemma reference_good id sha path :
  str_empty id = false -> sha_wf sha ->
  artifact_reference (Value_object (reference_members id sha)) path = success (mkArtifactReference id sha).
Proof.
  intros N W. unfold artifact_reference. cbn [object_of as_object rbind].
  set (reference := reference_members id sha). known_members reference.
  rewrite (id_field_good reference "artifact_id" _ _ eq_refl N). cbn [rbind].
  by rewrite (digest_field_good reference "sha256" _ _ eq_refl W).
Qed.

Section Envelope.
Context (input : RawEnvelopeInput) (sha integrity_sha : Sha256) (H : stream_input_ok input sha integrity_sha).

Let object : Object := map_of (raw_envelope_members input).

Lemma envelope_members :
  object =
  [("artifact_id", string_value (re_artifact_id input));
   ("artifact_sha256", string_value (re_artifact_sha256 input));
   ("byte_count", uint_value (re_byte_count input));
   ("compression", string_value kRawCompression);
   ("encoding", string_value kRawEncoding);
   ("endianness", string_value kRawEndianness);
   ("immutable_ordering", Value_bool true);
   ("integrity_artifact_ref", artifact_ref_value (re_integrity_artifact input));
   ("logical_row_schema_version", string_value kLogicalRowSchemaVersion);
   ("physical_format_record_id", string_value kRawFormatId);
   ("protocol_version", string_value kProtocolVersion);
   ("row_count", uint_value (re_row_count input));
   ("run_id", string_value (re_run_id input));
   ("schema_version", string_value kProtocolVersion);
   ("storage", Value_object
      [("artifact_uri", string_value (re_artifact_uri input));
       ("mode", string_value "EXTERNAL_IMMUTABLE_ARTIFACT")]);
   ("stream_kind", string_value (stream_kind_string (re_stream_kind input)));
   ("time_unit", string_value kRawTimeUnit)].
Proof. unfold object, raw_envelope_members. rewrite (si_sources _ _ _ H). reflexivity. Qed.

Lemma envelope_well_formed : well_formed (Value_object object) = true.
Proof.
  rewrite envelope_members. destruct H as [K _ [_ A] [_ R] [_ U] [_ I] [-> S] [E S'] Rc Bc].
  pose proof (uint_value_well_formed _ Rc) as W1. pose proof (uint_value_well_formed _ Bc) as W2.
  unfold artifact_ref_value. rewrite E. pose proof (hex_valid sha). pose proof (hex_valid integrity_sha).
  assert (Q : has_value (decode_utf8 (stream_kind_string (re_stream_kind input))) = true)
    by (destruct (re_stream_kind input); reflexivity).
  change (map_of [("artifact_id", ?x); ("sha256", ?y)]) with [("artifact_id", x); ("sha256", y)].
  cbn [well_formed]. apply andb_true_iff. split; [reflexivity|].
  cbn [forallb fst snd]. rewrite W1, W2. cbn [well_formed string_value forallb fst snd keys_sorted].
  rewrite A, R, U, I, Q. do 2 match goal with G : has_value _ = true |- _ => rewrite G; clear G end.
  vm_compute. reflexivity.
Qed.

Lemma envelope_integers : integers_only (Value_object object) = true.
Proof. rewrite envelope_members. reflexivity. Qed.

Lemma envelope_loads :
  load_raw (normalize (Value_object object)) =
  success (stream_envelope input sha integrity_sha (normalize (Value_object object))).
Proof.
  rewrite envelope_members. destruct H as [K _ [A _] [R _] [U _] [I _] [E1 S] [E2 S'] Rc Bc].
  unfold artifact_ref_value. rewrite E1, E2.
  change (map_of [("artifact_id", ?x); ("sha256", ?y)]) with [("artifact_id", x); ("sha256", y)].
  set (v := normalize _). unfold load_raw.
  change (object_of v "$out") with (success (default [] (as_object v))). cbn [rbind].
  set (members := default [] (as_object v)). known_members members.
  assert (Ek : enum_field members "stream_kind" "$out" "DAT-STREAM-KIND" kinds = success (re_stream_kind input)).
  { subst members v. destruct (re_stream_kind input); try done; reflexivity. }
  rewrite Ek. cbn [rbind].
  change (bool_field members "immutable_ordering" "$out") with (@success bool true). cbn [rbind negb].
  assert (Es : load_observation_storage (re_stream_kind input) members =
    success (ExternalStorage (re_artifact_uri input))) by (by apply external_storage_good).
  rewrite Es. cbn [rbind].
  change (optional_with members "source_artifacts" ?f) with (@success (option (list ArtifactReference)) None).
  cbn [rbind default]. rewrite bool_decide_eq_false_2 by done. cbn [andb].
  change (version_field members "schema_version" "$out") with (@success ProtocolVersion ProtocolVersion_v2_0_0_pre_2).
  change (version_field members "protocol_version" "$out") with (@success ProtocolVersion ProtocolVersion_v2_0_0_pre_2).
  cbn [rbind]. rewrite (id_field_good members "artifact_id" _ _ eq_refl A). cbn [rbind].
  rewrite (id_field_good members "run_id" _ _ eq_refl R). cbn [rbind].
  change (version_field members "logical_row_schema_version" "$out") with (@success ProtocolVersion ProtocolVersion_v2_0_0_pre_2).
  change (id_field members "physical_format_record_id" "$out") with (@success Identifier kRawFormatId).
  change (string_field members "encoding" "$out") with (@success string kRawEncoding).
  change (unit_field members "time_unit" "$out") with (@success string kRawTimeUnit).
  change (enum_field members "endianness" "$out" "DAT-ENDIANNESS" byte_orders) with (@success Endianness Endianness_little_endian).
  change (string_field members "compression" "$out") with (@success string kRawCompression). cbn [rbind].
  rewrite (uint_field_good members "row_count" _ _ eq_refl Rc). cbn [rbind].
  rewrite (uint_field_good members "byte_count" _ _ eq_refl Bc). cbn [rbind].
  change (required members "integrity_artifact_ref" "$out") with (@success Value (Value_object
    (reference_members (at_artifact_id (re_integrity_artifact input)) integrity_sha))).
  cbn [rbind]. rewrite reference_good by done. cbn [rbind].
  by rewrite (digest_field_good members "artifact_sha256" _ _ eq_refl S).
Qed.

End Envelope.

Lemma stream_not_refused input sha integrity_sha :
  stream_input_ok input sha integrity_sha -> raw_envelope_refusal input = None.
Proof.
  intros [K Sr [A _] [R _] [U _] [I _] [E1 S] [E2 S'] _ _]. unfold raw_envelope_refusal.
  rewrite E1, E2, !storage_valid_sha256_hex, Sr by done. cbn [all_nonempty forallb]. rewrite A, R, U, I.
  cbn. rewrite bool_decide_eq_false_2 by done. done.
Qed.

(** The envelope of a published stream: for a producer or consumer stream with
    nonempty UTF-8 identities, digests in hexadecimal and 64-bit counts the envelope is
    built, its text parses and loads back to exactly the input under the accepted format
    suite, and it describes to the raw decoder precisely the bytes with that digest and
    size. *)
Theorem raw_envelope_describes (sha256 : list Z -> list Z) (input : RawEnvelopeInput)
    (integrity_sha : Sha256) (bytes : list Z) (rows : nat) :
  stream_input_ok input (mkSha256 (sha256 bytes)) integrity_sha ->
  re_byte_count input = Z.of_nat (length bytes) -> re_row_count input = Z.of_nat rows ->
  exists d, make_external_raw_envelope sha256 input = success d /\
    parse (cd_bytes (rd_document d)) = success (ro_source_document (rd_envelope d)) /\
    cd_sha256 (rd_document d) = Sha256_hex (mkSha256 (sha256 (string_bytes (cd_bytes (rd_document d))))) /\
    rd_envelope d = stream_envelope input (mkSha256 (sha256 bytes)) integrity_sha
                      (ro_source_document (rd_envelope d)) /\
    envelope_matches (fun b => mkSha256 (sha256 b)) (rd_envelope d) (re_stream_kind input)
      (re_run_id input) rows bytes.
Proof.
  intros H Hb Hr. unfold make_external_raw_envelope. rewrite (stream_not_refused _ _ _ H).
  pose proof (envelope_well_formed _ _ _ H) as W. pose proof (envelope_integers _ _ _ H) as N.
  destruct (canonicalize_success _ W) as [t C].
  unfold canonical_document. rewrite C. cbn [rbind cd_bytes].
  pose proof (canonical_reads _ _ W N C) as P. unfold load_document_text. rewrite P. cbn [rbind].
  unfold load_document. rewrite (envelope_loads _ _ _ H). cbn [rbind].
  eexists. split; [reflexivity|]. cbn [rd_document rd_envelope cd_bytes cd_sha256].
  split; [exact P|]. split; [reflexivity|]. split; [reflexivity|].
  unfold envelope_matches, stream_envelope, envelope_error.
  cbn [ro_storage ro_physical_format_record_id ro_encoding ro_time_unit ro_endianness ro_compression
       ro_logical_row_schema_version ro_protocol_version ro_stream_kind ro_source_artifacts ro_run_id
       ro_row_count ro_byte_count ro_artifact_sha256 length].
  unfold str_eqb. rewrite (bool_decide_eq_true_2 (Sha256_hex _ = _)) by done.
  rewrite (bool_decide_eq_false_2 (re_stream_kind input = _)) by apply H.
  split_and!; [reflexivity|reflexivity|reflexivity|exact Hr|exact Hb].
Qed.

(** Copy ledgers: for texts in UTF-8 and 64-bit counts a ledger record is written
    exactly when its identities are present, the stream is sealed, no domain occurs
    twice, every copy called verified was read back independently with the size and
    digest of the object, and the record says SEALED_COMPLETE exactly for a complete
    stream with two verified copies and no failure. *)
Theorem copy_ledger_exact (sha256 : list Z -> list Z) (input : CopyLedgerInput) :
  well_formed (Value_object (copy_ledger_object input)) = true ->
  (exists d, make_copy_ledger_document sha256 input = success d) <-> ledger_ok input.
Proof.
  intros W. rewrite <- ledger_refusal_none. unfold make_copy_ledger_document.
  destruct (ledger_refusal input); [split; [by intros [? ?] | done]|]. split; [done|]. intros _.
  destruct (canonicalize_success _ W) as [t C]. unfold canonical_document. rewrite C. cbn [rbind].
  by eexists.
Qed.

(** ** Examples *)

Module SampleArtifacts.

Definition bytes : list Z := [1; 2; 3].
Definition sha (bytes : list Z) : Sha256 := mkSha256 (sample_sha bytes).
Definition integrity : ArtifactRefText := mkArtifactRefText "integrity" (Sha256_hex (sha [])).
Definition envelope_input : RawEnvelopeInput :=
  mkRawEnvelopeInput "raw" "run" StreamKind_producer "/d0/objects/raw" 1 3 (Sha256_hex (sha bytes))
    integrity [].
Definition copy (domain : string) : CopyEvidence :=
  mkCopyEvidence domain "/objects/raw" 3 (Sha256_hex (sha bytes)) "2025-01-01T00:00:00Z" true true.
Definition ledger (state : CopyFinalizationState) : CopyLedgerInput :=
  mkCopyLedgerInput "ledger" "run" "object" "PRODUCER_RAW" "raw" 3 (Sha256_hex (sha bytes))
    StreamCompleteness_sealed_complete state [copy "primary"; copy "secondary"] [].

End SampleArtifacts.

Lemma raw_envelope_describes_witness :
  exists d, make_external_raw_envelope sample_sha SampleArtifacts.envelope_input = success d /\
    envelope_matches (fun b => mkSha256 (sample_sha b)) (rd_envelope d) StreamKind_producer "run" 1
      SampleArtifacts.bytes.
Proof.
  destruct (raw_envelope_describes sample_sha SampleArtifacts.envelope_input (SampleArtifacts.sha [])
    SampleArtifacts.bytes 1) as (d & M & _ & _ & _ & E).
  - split; first [done | split; [reflexivity | apply sample_sha_wf] | split; vm_compute; reflexivity
      | split; vm_compute; discriminate].
  - reflexivity.
  - reflexivity.
  - exists d. split; [exact M | exact E].
Defined.

Lemma copy_ledger_exact_witness :
  (exists d, make_copy_ledger_document sample_sha
     (SampleArtifacts.ledger CopyFinalizationState_sealed_complete) = success d) <->
  ledger_ok (SampleArtifacts.ledger CopyFinalizationState_sealed_complete).
Proof. apply copy_ledger_exact. vm_compute. reflexivity. Defined.
