(* ===== verification/ArtifactStore.v ===== *)
(** * The append-only run store

    Models [include/cpu_prefetch/storage/artifact_store.hpp] and
    [src/storage/artifact_store.cpp]: two storage domains, publication of an object by
    exclusive create, write, sync, read-back, no-replace link and second read-back, the
    copy ledger, and the recovery of staged objects. The operating system and OpenSSL
    are interfaces: a class of calls, and a class of the laws their manuals give. The
    laws say nothing about what a write stores; a failed, short or lossy write is the
    read-back's business. A path is the list of its components. Closing a descriptor is
    not modelled: its result is discarded. *)

From stdpp Require Import prelude list strings.
From Stdlib Require Import ZArith Lia Ascii.
From S2P Require Import Prelude Validation Model Bytes Json BlockPlanning RawObservations BlockPlans Artifacts.

#[local] Open Scope Z_scope.
#[local] Open Scope result_scope.

(** ** Interfaces *)

Definition Path : Set := list string.

(** [path.string()]; the empty first component is the root directory. *)
Definition path_string (p : Path) : string := String.concat "/" p.

(** The calls of the operating system on a world of type [W]. Descriptors, counts and
    return codes are the integers the calls return; [contents], [names], [unread] and
    [signals] describe the world to the laws and are read by no operation. *)
Class FileSystem (W : Type) : Type := {
  (** [open] with O_WRONLY, O_CREAT and O_EXCL. *)
  os_create : Path -> W -> Z * W;
  (** [open] with O_RDONLY. *)
  os_open : Path -> W -> Z * W;
  (** [open] with O_RDONLY and O_DIRECTORY. *)
  os_open_directory : Path -> W -> Z * W;
  os_write : Z -> list Z -> W -> Z * W;
  (** The count and the bytes that were stored in the buffer. *)
  os_read : Z -> Z -> W -> Z * list Z * W;
  (** The return code and the size. *)
  os_fstat : Z -> W -> Z * Z * W;
  os_fsync : Z -> W -> Z * W;
  os_link : Path -> Path -> W -> Z * W;
  os_unlink : Path -> W -> Z * W;
  (** [std::filesystem::exists]: the answer and whether there was an error. *)
  os_exists : Path -> W -> bool * bool * W;
  (** [std::filesystem::is_directory] of the status, false on an error. *)
  os_is_directory : Path -> W -> bool * W;
  (** [create_directory]: whether it is new, and the message of the error. *)
  os_create_directory : Path -> W -> bool * string * W;
  (** [weakly_canonical], or an error. *)
  os_canonical : Path -> W -> option Path * W;
  errno_interrupted : W -> bool;
  errno_text : W -> string;
  contents : W -> Path -> option (list Z);
  names : W -> Z -> option Path;
  unread : W -> Z -> option (list Z);
  signals : W -> nat
}.

(** OpenSSL's incremental digest; [absorbed] is what a context has been given. *)
Class IncrementalDigest (C : Type) : Type := {
  evp_new : option C;
  evp_init : C -> option C;
  evp_update : C -> list Z -> option C;
  evp_final : C -> option (list Z);
  absorbed : C -> list Z
}.

(** ** Data *)

Record LocalStorageDomain : Set := mkLocalStorageDomain {
  ld_storage_domain_id : string;
  ld_root : Path
}.

Inductive PublicationFaultPoint : Set :=
| PublicationFaultPoint_none
| PublicationFaultPoint_storage_exhausted
| PublicationFaultPoint_partial_staging_write
| PublicationFaultPoint_after_staging_sync
| PublicationFaultPoint_readback_mismatch
| PublicationFaultPoint_after_primary_publish
| PublicationFaultPoint_before_ledger_write
| PublicationFaultPoint_partial_ledger_write.

#[export] Instance PublicationFaultPoint_eq_dec : EqDecision PublicationFaultPoint.
Proof. solve_decision. Defined.

Record PublicationFaultPlan : Set := mkPublicationFaultPlan {
  fp_point : PublicationFaultPoint;
  fp_domain_index : Z;
  fp_partial_bytes : Z
}.

Inductive RunStoreOpenMode : Set :=
| RunStoreOpenMode_create_new
| RunStoreOpenMode_recover_existing.

#[export] Instance RunStoreOpenMode_eq_dec : EqDecision RunStoreOpenMode.
Proof. solve_decision. Defined.

Record LocalRunStoreConfig : Set := mkLocalRunStoreConfig {
  rc_run_id : string;
  rc_verification_timestamp : string;
  rc_domains : list LocalStorageDomain;
  rc_fault : PublicationFaultPlan;
  rc_open_mode : RunStoreOpenMode
}.

Record PublishObjectRequest : Set := mkPublishObjectRequest {
  po_object_id : string;
  po_object_role : string;
  po_artifact_id : string;
  po_ledger_record_id : string;
  po_bytes : list Z;
  po_expected_sha256 : string;
  po_stream_completeness : StreamCompleteness
}.

Record PublishObjectResult : Set := mkPublishObjectResult {
  pb_finalization_state : CopyFinalizationState;
  pb_copies : list CopyEvidence;
  pb_failures : list string;
  pb_ledger : CanonicalDocument;
  pb_ledger_persisted : bool
}.

Record RecoveryResult : Set := mkRecoveryResult {
  rr_promoted : bool;
  rr_already_published : bool;
  rr_copy : option CopyEvidence;
  rr_failure : string
}.

Record FileIdentity : Set := mkFileIdentity {
  fi_ok : bool;
  fi_byte_count : Z;
  fi_sha256 : string;
  fi_failure : string
}.

(** [LocalAppendOnlyRunStore]. *)
Record RunStore : Set := mkRunStore {
  st_config : LocalRunStoreConfig;
  st_run_directories : list Path;
  st_object_ids : list string;
  st_artifact_ids : list string
}.

Section Store.

Context {W : Type} `{FileSystem W} {C : Type} `{IncrementalDigest C}.

(** [workload::sha256]. *)
Context (sha256 : list Z -> list Z).

Definition bytes_sha256 (text : string) : string := Sha256_hex (mkSha256 (sha256 (string_bytes text))).

Definition object_name (object_id : string) : string := "object-" +:+ bytes_sha256 object_id.

Definition run_name (run_id : string) : string := "run-" +:+ bytes_sha256 run_id.

Definition errno_failure (operation : string) (w : W) : string := operation +:+ ": " +:+ errno_text w.

Definition fsync_directory (path : Path) (w : W) : bool * W :=
  let '(descriptor, w) := os_open_directory path w in
  if descriptor <? 0 then (false, w)
  else let '(result, w) := os_fsync descriptor w in (result =? 0, w).

(** The loop of [write_complete]; [None] when it was cut off. *)
Fixpoint write_loop (fuel : nat) (descriptor : Z) (bytes : list Z) (stop_after : option Z)
    (written : Z) (w : W) : option (option string * W) :=
  match fuel with
  | O => None
  | S fuel =>
      if Z.of_nat (length bytes) <=? written then
        Some (if match stop_after with
                 | Some stop => (written =? stop) && (written <? Z.of_nat (length bytes))
                 | None => false
                 end
              then Some "simulated partial write" else None, w)
      else
        let remaining := Z.of_nat (length bytes) - written in
        if match stop_after with Some stop => stop <=? written | None => false end then
          Some (Some "simulated partial write", w)
        else
          let remaining :=
            match stop_after with Some stop => Z.min remaining (stop - written) | None => remaining end in
          let '(result, w) :=
            os_write descriptor (take (Z.to_nat remaining) (drop (Z.to_nat written) bytes)) w in
          if (result <? 0) && errno_interrupted w then
            write_loop fuel descriptor bytes stop_after written w
          else if result <=? 0 then Some (Some (errno_failure "write" w), w)
          else write_loop fuel descriptor bytes stop_after (written + result) w
  end.

(** Every turn writes a byte, is interrupted or ends the loop, so the size of the object
    and the number of signals bound the turns: [write_loop_total]. *)
Definition write_complete (descriptor : Z) (bytes : list Z) (stop_after : option Z) (w : W) :
    option string * W :=
  default (Some EmptyString, w)
    (write_loop (S (length bytes + signals w)) descriptor bytes stop_after 0 w).

(** The read loop of [file_identity]; [None] when it was cut off. *)
Fixpoint read_loop (fuel : nat) (descriptor : Z) (context : C) (count : Z) (w : W) :
    option ((string + C * Z) * W) :=
  match fuel with
  | O => None
  | S fuel =>
      let '(read_count, buffer, w) := os_read descriptor 65536 w in
      if (read_count <? 0) && errno_interrupted w then read_loop fuel descriptor context count w
      else if read_count <? 0 then Some (inl (errno_failure "readback" w), w)
      else if read_count =? 0 then Some (inr (context, count), w)
      else if read_count >? u64_sub u64_max count then
        Some (inl "readback size or SHA-256 update failed", w)
      else
        match evp_update context buffer with
        | None => Some (inl "readback size or SHA-256 update failed", w)
        | Some context => read_loop fuel descriptor context (u64_add count read_count) w
        end
  end.

Definition no_identity (reason : string) : FileIdentity := mkFileIdentity false 0 EmptyString reason.

(** Every turn reads a byte, is interrupted or ends the loop: [read_loop_total]. *)
Definition file_identity (path : Path) (w : W) : FileIdentity * W :=
  let '(descriptor, w) := os_open path w in
  if descriptor <? 0 then (no_identity (errno_failure "open for readback" w), w)
  else
    let '(status, size, w) := os_fstat descriptor w in
    if negb (status =? 0) || (size <? 0) then (no_identity (errno_failure "fstat" w), w)
    else
      match evp_new with
      | None => (no_identity "OpenSSL SHA-256 context allocation failed", w)
      | Some context =>
          match evp_init context with
          | None => (no_identity "OpenSSL SHA-256 initialization failed", w)
          | Some context =>
              match read_loop (S (length (default [] (unread w descriptor)) + signals w)) descriptor context 0 w with
              | None => (no_identity EmptyString, w)
              | Some (inl reason, w) => (no_identity reason, w)
              | Some (inr (context, count), w) =>
                  match evp_final context with
                  | None => (no_identity "OpenSSL SHA-256 finalization failed", w)
                  | Some digest =>
                      if negb (Nat.eqb (length digest) 32) then
                        (no_identity "OpenSSL SHA-256 finalization failed", w)
                      else (mkFileIdentity true count (Sha256_hex (mkSha256 digest)) EmptyString, w)
                  end
              end
          end
      end.

(** A fault planned at this point, in this domain. *)
Definition faulted (config : LocalRunStoreConfig) (point : PublicationFaultPoint) (domain_index : Z) : bool :=
  bool_decide (fp_point (rc_fault config) = point) && (fp_domain_index (rc_fault config) =? domain_index).

Definition identity_matches (identity : FileIdentity) (byte_count : Z) (expected_sha256 : string) : bool :=
  fi_ok identity && (fi_byte_count identity =? byte_count) &&
  bool_decide (fi_sha256 identity = expected_sha256).

(** The evidence of a copy in a domain. *)
Definition copy_evidence (config : LocalRunStoreConfig) (domain_index : nat) (published : Path)
    (identity : FileIdentity) (verified : bool) : CopyEvidence :=
  mkCopyEvidence
    (default EmptyString (ld_storage_domain_id <$> rc_domains config !! domain_index))
    (path_string published) (fi_byte_count identity) (fi_sha256 identity)
    (rc_verification_timestamp config) true verified.

Definition publish_one (config : LocalRunStoreConfig) (run_directory : Path) (domain_index : nat)
    (object_id : string) (bytes : list Z) (expected_sha256 : string) (w : W) :
    (CopyEvidence + string) * W :=
  let index := Z.of_nat domain_index in
  let name := object_name object_id in
  let staging := run_directory ++ ["staging"; name] in
  let published := run_directory ++ ["objects"; name] in
  let '(output, w) := os_create staging w in
  if output <? 0 then (inr (errno_failure "unique staging create" w), w)
  else if faulted config PublicationFaultPoint_storage_exhausted index then
    (inr "simulated storage exhaustion (ENOSPC)", w)
  else
    let partial := faulted config PublicationFaultPoint_partial_staging_write index in
    let '(write_error, w) :=
      write_complete output bytes
        (if partial then Some (fp_partial_bytes (rc_fault config)) else None) w in
    match write_error with
    | Some reason => (inr reason, w)
    | None =>
        let '(synced, w) := os_fsync output w in
        if negb (synced =? 0) then (inr (errno_failure "staging fsync" w), w)
        else if faulted config PublicationFaultPoint_after_staging_sync index then
          (inr "simulated crash after staging sync", w)
        else
          let '(staging_identity, w) := file_identity staging w in
          if negb (identity_matches staging_identity (Z.of_nat (length bytes)) expected_sha256) then
            (inr (if fi_ok staging_identity then "staging readback identity mismatch"
                  else fi_failure staging_identity), w)
          else
            let '(linked, w) := os_link staging published w in
            if negb (linked =? 0) then (inr (errno_failure "atomic no-replace publication" w), w)
            else
              let '(durable, w) := fsync_directory (run_directory ++ ["objects"]) w in
              if negb durable then (inr "published-object directory fsync failed", w)
              else
                let '(published_identity, w) := file_identity published w in
                if negb (fi_ok published_identity) then (inr (fi_failure published_identity), w)
                else
                  let published_identity :=
                    if faulted config PublicationFaultPoint_readback_mismatch index then
                      mkFileIdentity true (fi_byte_count published_identity) zero_hash
                        (fi_failure published_identity)
                    else published_identity in
                  let verified :=
                    identity_matches published_identity (Z.of_nat (length bytes)) expected_sha256 in
                  let evidence :=
                    copy_evidence config domain_index published published_identity verified in
                  if negb verified then (inl evidence, w)
                  else
                    let '(unlinked, w) := os_unlink staging w in
                    if negb (unlinked =? 0) then
                      (inr "verified publication retained but staging cleanup failed", w)
                    else
                      let '(cleaned, w) := fsync_directory (run_directory ++ ["staging"]) w in
                      if negb cleaned then
                        (inr "verified publication retained but staging cleanup failed", w)
                      else (inl evidence, w)
    end.

Definition persist_ledger (config : LocalRunStoreConfig) (run_directory : Path)
    (record_id ledger_text : string) (w : W) : bool * W :=
  if bool_decide (fp_point (rc_fault config) = PublicationFaultPoint_before_ledger_write) then (false, w)
  else
    let name := object_name record_id in
    let staging := run_directory ++ ["ledger-staging"; name] in
    let published := run_directory ++ ["ledger"; name] in
    let bytes := string_bytes ledger_text in
    let '(output, w) := os_create staging w in
    if output <? 0 then (false, w)
    else
      let partial :=
        bool_decide (fp_point (rc_fault config) = PublicationFaultPoint_partial_ledger_write) in
      let '(error, w) :=
        write_complete output bytes
          (if partial then Some (fp_partial_bytes (rc_fault config)) else None) w in
      match error with
      | Some _ => (false, w)
      | None =>
          let '(synced, w) := os_fsync output w in
          if negb (synced =? 0) then (false, w)
          else
            let expected_sha256 := bytes_sha256 ledger_text in
            let '(staging_identity, w) := file_identity staging w in
            if negb (identity_matches staging_identity (Z.of_nat (length bytes)) expected_sha256) then
              (false, w)
            else
              let '(linked, w) := os_link staging published w in
              if negb (linked =? 0) then (false, w)
              else
                let '(durable, w) := fsync_directory (run_directory ++ ["ledger"]) w in
                if negb durable then (false, w)
                else
                  let '(published_identity, w) := file_identity published w in
                  if negb (identity_matches published_identity (Z.of_nat (length bytes))
                             expected_sha256) then (false, w)
                  else
                    let '(unlinked, w) := os_unlink staging w in
                    if negb (unlinked =? 0) then (false, w)
                    else fsync_directory (run_directory ++ ["ledger-staging"]) w
      end.

(** ** Setting up *)

Definition require_directory (path : Path) (field : string) (w : W) : Throws unit * W :=
  let '(is_directory, w) := os_is_directory path w in
  (if is_directory then Returned tt else Threw (field +:+ " must name an existing directory"), w).

Definition create_unique_directory (path : Path) (field : string) (w : W) : Throws unit * W :=
  let '(created, message, w) := os_create_directory path w in
  (if created then Returned tt
   else Threw (field +:+ " must be unique: " +:+
               (if str_empty message then "already exists" else message)), w).

(** The calls in order, up to the first that throws. *)
Fixpoint in_order (steps : list (W -> Throws unit * W)) (w : W) : Throws unit * W :=
  match steps with
  | [] => (Returned tt, w)
  | step :: rest =>
      match step w with
      | (Returned _, w) => in_order rest w
      | (Threw what, w) => (Threw what, w)
      end
  end.

(** The durability syncs of a new run directory. *)
Definition sync_run_directory (run_directory root : Path) (w : W) : Throws unit * W :=
  let '(first, w) := fsync_directory run_directory w in
  if negb first then (Threw "run-directory durability sync failed", w)
  else
    let '(second, w) := fsync_directory root w in
    if negb second then (Threw "run-directory durability sync failed", w) else (Returned tt, w).

Definition open_domain (config : LocalRunStoreConfig) (domain : LocalStorageDomain) :
    W -> Throws unit * W :=
  let run_directory := ld_root domain ++ [run_name (rc_run_id config)] in
  match rc_open_mode config with
  | RunStoreOpenMode_create_new =>
      in_order
        [create_unique_directory run_directory "append-only run directory";
         create_unique_directory (run_directory ++ ["staging"]) "run staging directory";
         create_unique_directory (run_directory ++ ["objects"]) "run objects directory";
         create_unique_directory (run_directory ++ ["ledger-staging"]) "run ledger-staging directory";
         create_unique_directory (run_directory ++ ["ledger"]) "run ledger directory";
         sync_run_directory run_directory (ld_root domain)]
  | RunStoreOpenMode_recover_existing =>
      in_order
        [require_directory run_directory "existing append-only run directory";
         require_directory (run_directory ++ ["staging"]) "existing staging directory";
         require_directory (run_directory ++ ["objects"]) "existing objects directory";
         require_directory (run_directory ++ ["ledger-staging"]) "existing ledger-staging directory";
         require_directory (run_directory ++ ["ledger"]) "existing ledger directory"]
  end.

(** The two roots name different places. *)
Definition require_distinct_roots (first second : Path) (w : W) : Throws unit * W :=
  let '(first, w) := os_canonical first w in
  let '(second, w) := os_canonical second w in
  (match first, second with
   | Some first, Some second =>
       if bool_decide (first = second)
       then Threw "storage roots must be two distinct canonical paths" else Returned tt
   | _, _ => Threw "storage roots must be two distinct canonical paths"
   end, w).

Definition RunStore_make (config : LocalRunStoreConfig) (w : W) : Throws RunStore * W :=
  if str_empty (rc_run_id config) || str_empty (rc_verification_timestamp config) then
    (Threw "run store requires explicit run ID and timestamp", w)
  else
    match rc_domains config with
    | [primary; secondary] =>
        if str_empty (ld_storage_domain_id primary) || str_empty (ld_storage_domain_id secondary) ||
           bool_decide (ld_storage_domain_id primary = ld_storage_domain_id secondary) then
          (Threw "DUR2 local store requires exactly two distinct storage domain IDs", w)
        else
          match in_order
                  [require_directory (ld_root primary) "primary storage root";
                   require_directory (ld_root secondary) "secondary storage root";
                   require_distinct_roots (ld_root primary) (ld_root secondary);
                   open_domain config primary; open_domain config secondary] w with
          | (Threw what, w) => (Threw what, w)
          | (Returned _, w) =>
              (Returned (mkRunStore config
                 ((fun domain => ld_root domain ++ [run_name (rc_run_id config)]) <$>
                  [primary; secondary]) [] []), w)
          end
    | _ => (Threw "DUR2 local store requires exactly two distinct storage domain IDs", w)
    end.

(** ** Publication *)

(** The loop over the run directories; [copies] and [failures] are the vectors so far. *)
Fixpoint publish_domains (config : LocalRunStoreConfig) (request : PublishObjectRequest)
    (index : nat) (directories : list Path) (copies : list CopyEvidence) (failures : list string)
    (w : W) : list CopyEvidence * list string * W :=
  match directories with
  | [] => (copies, failures, w)
  | directory :: rest =>
      match publish_one config directory index (po_object_id request) (po_bytes request)
              (po_expected_sha256 request) w with
      | (inl copy, w) =>
          if negb (ce_verified copy) then
            (copies ++ [copy],
             failures ++ ["domain " +:+ ce_storage_domain_id copy +:+ " readback identity mismatch"], w)
          else if Nat.eqb index 0 &&
                  bool_decide (fp_point (rc_fault config) = PublicationFaultPoint_after_primary_publish)
          then (copies ++ [copy], failures ++ ["simulated crash after primary publication"], w)
          else publish_domains config request (S index) rest (copies ++ [copy]) failures w
      | (inr reason, w) =>
          (copies,
           failures ++ [default EmptyString (ld_storage_domain_id <$> rc_domains config !! index)
                        +:+ ": " +:+ reason], w)
      end
  end.

Definition ledger_input (config : LocalRunStoreConfig) (request : PublishObjectRequest)
    (state : CopyFinalizationState) (copies : list CopyEvidence) (failures : list string) :
    CopyLedgerInput :=
  mkCopyLedgerInput (po_ledger_record_id request) (rc_run_id config) (po_object_id request)
    (po_object_role request) (po_artifact_id request) (Z.of_nat (length (po_bytes request)))
    (po_expected_sha256 request) (po_stream_completeness request) state copies failures.

(** [publish] after the identities are reserved. *)
Definition publish_reserved (store : RunStore) (request : PublishObjectRequest) (w : W) :
    Result PublishObjectResult * W :=
  let config := st_config store in
  let actual_sha := Sha256_hex (mkSha256 (sha256 (po_bytes request))) in
  let '(copies, failures, w) :=
    if negb (bool_decide (actual_sha = po_expected_sha256 request)) then
      ([], ["input bytes do not match expected SHA-256"], w)
    else publish_domains config request 0 (st_run_directories store) [] [] w in
  let complete :=
    bool_decide (po_stream_completeness request = StreamCompleteness_sealed_complete) &&
    match copies with [first; second] => ce_verified first && ce_verified second | _ => false end &&
    Nat.eqb (length failures) 0 in
  let state := if complete then CopyFinalizationState_sealed_complete
               else CopyFinalizationState_incomplete in
  match make_copy_ledger_document sha256 (ledger_input config request state copies failures) with
  | failure errors => (failure errors, w)
  | success ledger =>
      let '(persisted, w) :=
        persist_ledger config (default [] (head (st_run_directories store)))
          (po_ledger_record_id request) (cd_bytes ledger) w in
      if persisted then (success (mkPublishObjectResult state copies failures ledger true), w)
      else
        let failures := failures ++ ["copy ledger persistence failed"] in
        match make_copy_ledger_document sha256
                (ledger_input config request CopyFinalizationState_incomplete copies failures) with
        | failure errors => (failure errors, w)
        | success ledger =>
            (success (mkPublishObjectResult CopyFinalizationState_incomplete copies failures ledger
                        false), w)
        end
  end.

Definition reserve_object (store : RunStore) (id : string) : RunStore :=
  mkRunStore (st_config store) (st_run_directories store) (id :: st_object_ids store)
    (st_artifact_ids store).

Definition reserve_artifact (store : RunStore) (id : string) : RunStore :=
  mkRunStore (st_config store) (st_run_directories store) (st_object_ids store)
    (id :: st_artifact_ids store).

Definition publish (store : RunStore) (request : PublishObjectRequest) (w : W) :
    Result PublishObjectResult * RunStore * W :=
  if bool_decide (rc_open_mode (st_config store) = RunStoreOpenMode_recover_existing) then
    (fail_with ErrorCategory_immutable_configuration "$input" "STO-RECOVERY-ONLY"
       "an existing run directory may only recover exact staging objects", store, w)
  else if str_empty (po_object_id request) || str_empty (po_object_role request) ||
          str_empty (po_artifact_id request) || str_empty (po_ledger_record_id request) then
    (fail_with ErrorCategory_invalid_id "$input" "STO-PUBLISH-ID"
       "publication identities and role must be nonempty", store, w)
  else if bool_decide (po_object_id request ∈ st_object_ids store) then
    (fail_with ErrorCategory_duplicate_value "$input/object_id" "STO-DUPLICATE-OBJECT-ID"
       "append-only object ID is already reserved and cannot be overwritten", store, w)
  else
    let store := reserve_object store (po_object_id request) in
    if bool_decide (po_artifact_id request ∈ st_artifact_ids store) then
      (fail_with ErrorCategory_duplicate_value "$input/artifact_id" "STO-DUPLICATE-ARTIFACT-ID"
         "artifact ID is already reserved and cannot identify another object", store, w)
    else
      let store := reserve_artifact store (po_artifact_id request) in
      let '(result, w) := publish_reserved store request w in
      (result, store, w).

(** ** Recovery *)

Definition recover_staging (store : RunStore) (domain_index : nat) (object_id : string)
    (expected_byte_count : Z) (expected_sha256 : string) (w : W) : RecoveryResult * W :=
  match st_run_directories store !! domain_index with
  | None => (mkRecoveryResult false false None "invalid recovery domain or object ID", w)
  | Some run_directory =>
      if str_empty object_id then
        (mkRecoveryResult false false None "invalid recovery domain or object ID", w)
      else
        let name := object_name object_id in
        let staging := run_directory ++ ["staging"; name] in
        let published := run_directory ++ ["objects"; name] in
        let '(exists_, error, w) := os_exists published w in
        if exists_ && negb error then
          let '(identity, w) := file_identity published w in
          if negb (identity_matches identity expected_byte_count expected_sha256) then
            (mkRecoveryResult false true None
               "existing published object disagrees with expected identity", w)
          else
            (mkRecoveryResult false true
               (Some (copy_evidence (st_config store) domain_index published identity true))
               EmptyString, w)
        else
          let '(identity, w) := file_identity staging w in
          if negb (identity_matches identity expected_byte_count expected_sha256) then
            (mkRecoveryResult false false None
               (if fi_ok identity then "staging candidate identity mismatch"
                else fi_failure identity), w)
          else
            let '(linked, w) := os_link staging published w in
            if negb (linked =? 0) then
              (mkRecoveryResult false false None (errno_failure "recovery no-replace publish" w), w)
            else
              let '(durable, w) := fsync_directory (run_directory ++ ["objects"]) w in
              if negb durable then
                (mkRecoveryResult false false None (errno_failure "recovery no-replace publish" w), w)
              else
                let '(final_identity, w) := file_identity published w in
                if negb (identity_matches final_identity expected_byte_count expected_sha256) then
                  (mkRecoveryResult true false None
                     "recovered publication failed independent readback", w)
                else
                  (mkRecoveryResult true false
                     (Some (copy_evidence (st_config store) domain_index published final_identity true))
                     EmptyString, w)
  end.

Definition artifact_uri (store : RunStore) (domain_index : nat) (object_id : string) : Throws string :=
  match st_run_directories store !! domain_index with
  | Some directory =>
      if str_empty object_id then Threw "artifact URI request has invalid domain or object ID"
      else Returned (path_string (directory ++ ["objects"; object_name object_id]))
  | None => Threw "artifact URI request has invalid domain or object ID"
  end.

End Store.

(** ** What the manuals promise *)

(** Nothing happened to the files, or only to these. *)
Definition same_files {W : Type} `{FileSystem W} (w w' : W) : Prop :=
  forall q, contents w' q = contents w q.

Definition touches {W : Type} `{FileSystem W} (paths : list Path) (w w' : W) : Prop :=
  forall q, q ∉ paths -> contents w' q = contents w q.

(** Every file that was there is there with its bytes. *)
Definition keeps {W : Type} `{FileSystem W} (w w' : W) : Prop :=
  forall q c, contents w q = Some c -> contents w' q = Some c.

(** The laws of the calls: an exclusive create and a link need a free name, a write
    changes at most the file of its descriptor, an unlink at most its name, and no
    other call changes a file; a successful open and reads deliver the file's bytes in
    order and end with a count of zero; there are finitely many signals. *)
Class FileSystemLaws (W : Type) `{FileSystem W} : Prop := {
  create_law p w d w' : os_create p w = (d, w') ->
    touches [p] w w' /\ (d < 0 -> same_files w w') /\
    (0 <= d -> contents w p = None /\ names w' d = Some p);
  open_law p w d w' : os_open p w = (d, w') ->
    same_files w w' /\ (0 <= d -> unread w' d = contents w p);
  open_directory_law p w d w' : os_open_directory p w = (d, w') -> same_files w w';
  write_law d bytes w n w' : os_write d bytes w = (n, w') ->
    names w' d = names w d /\ (forall q, names w d <> Some q -> contents w' q = contents w q) /\
    n <= Z.of_nat (length bytes) /\ (signals w' <= signals w)%nat /\
    (n < 0 -> errno_interrupted w' = true -> (signals w' < signals w)%nat);
  read_law d size w n buffer w' : os_read d size w = (n, buffer, w') ->
    same_files w w' /\ (signals w' <= signals w)%nat /\
    (n < 0 -> unread w' d = unread w d /\
       (errno_interrupted w' = true -> (signals w' < signals w)%nat)) /\
    (0 <= n -> n = Z.of_nat (length buffer) /\
       exists rest, unread w d = Some (buffer ++ rest) /\ unread w' d = Some rest /\
         (n = 0 -> rest = []));
  fstat_law d w r size w' : os_fstat d w = (r, size, w') ->
    same_files w w' /\ unread w' d = unread w d;
  fsync_law d w r w' : os_fsync d w = (r, w') -> same_files w w';
  link_law old new w r w' : os_link old new w = (r, w') ->
    touches [new] w w' /\ (r <> 0 -> same_files w w') /\ (r = 0 -> contents w new = None);
  unlink_law p w r w' : os_unlink p w = (r, w') -> touches [p] w w';
  exists_law p w b e w' : os_exists p w = (b, e, w') -> same_files w w';
  is_directory_law p w b w' : os_is_directory p w = (b, w') -> same_files w w';
  create_directory_law p w b m w' : os_create_directory p w = (b, m, w') -> same_files w w';
  canonical_law p w r w' : os_canonical p w = (r, w') -> same_files w w'
}.

(** The incremental digest of a message in pieces is the digest of the message. *)
Class DigestLaws (C : Type) `{IncrementalDigest C} (sha256 : list Z -> list Z) : Prop := {
  evp_init_law c c' : evp_init c = Some c' -> absorbed c' = [];
  evp_update_law c b c' : evp_update c b = Some c' -> absorbed c' = absorbed c ++ b;
  evp_final_law c digest : evp_final c = Some digest -> digest = sha256 (absorbed c)
}.

Section Correctness.

Context {W : Type} `{FileSystemLaws W} {C : Type} (sha256 : list Z -> list Z) `{DigestLaws C sha256}.

(** ** Frames *)

Lemma touches_same w w' : same_files w w' -> touches [] w w'.
Proof. intros S q _. apply S. Qed.

Lemma touches_trans ps w w1 w2 : touches ps w w1 -> touches ps w1 w2 -> touches ps w w2.
Proof. intros T1 T2 q N. rewrite T2, T1 by done. done. Qed.

Lemma touches_weaken ps ps' w w' : touches ps w w' -> ps ⊆ ps' -> touches ps' w w'.
Proof. intros T S q N. apply T. set_solver. Qed.

Lemma touches_keeps ps w w' :
  touches ps w w' -> Forall (fun p => contents w p = None) ps -> keeps w w'.
Proof.
  intros T F q c E. rewrite T; [done|]. intros I. rewrite Forall_forall in F. rewrite F in E by done. done.
Qed.

Lemma same_keeps w w' : same_files w w' -> keeps w w'.
Proof. intros S q c E. by rewrite S. Qed.

Lemma same_files_trans w w1 w2 : same_files w w1 -> same_files w1 w2 -> same_files w w2.
Proof. intros S1 S2 q. by rewrite S2, S1. Qed.

Lemma keeps_trans w w1 w2 : keeps w w1 -> keeps w1 w2 -> keeps w w2.
Proof. intros K1 K2 q c E. by apply K2, K1. Qed.

(** ** The loops *)

Lemma fsync_directory_same path w b w' : fsync_directory path w = (b, w') -> same_files w w'.
Proof.
  unfold fsync_directory. destruct (os_open_directory path w) as [d w1] eqn:O.
  apply open_directory_law in O. destruct (d <? 0); [by intros [= <- <-]|].
  destruct (os_fsync d w1) as [r w2] eqn:F. apply fsync_law in F. intros [= <- <-].
  by eapply same_files_trans.
Qed.

Lemma write_loop_spec fuel d bytes stop : forall written w,
  0 <= written ->
  (length bytes - Z.to_nat written + signals w < fuel)%nat ->
  exists r w', write_loop fuel d bytes stop written w = Some (r, w') /\
    forall q, names w d <> Some q -> contents w' q = contents w q.
Proof.
  induction fuel as [|fuel IH]; intros written w Hw Hf; [lia|]. cbn [write_loop].
  destruct (Z.leb_spec (Z.of_nat (length bytes)) written); [by eexists _, _|].
  destruct (match stop with Some s => s <=? written | None => false end); [by eexists _, _|].
  set (n := match stop with Some s => _ | None => _ end).
  destruct (os_write d _ w) as [result w1] eqn:E.
  apply write_law in E as (N & T & L & S & I).
  destruct (Z.ltb_spec result 0); cbn [andb].
  - destruct (errno_interrupted w1) eqn:X.
    + destruct (IH written w1 Hw) as (r & w' & -> & Q); [specialize (I ltac:(done) eq_refl); lia|].
      eexists _, _. split; [done|]. intros q Hq. rewrite Q, T by congruence. done.
    + rewrite (proj2 (Z.leb_le _ _)) by lia. by eexists _, _.
  - destruct (Z.leb_spec result 0); [by eexists _, _|].
    destruct (IH (written + result) w1) as (r & w' & -> & Q); [lia|lia|].
    eexists _, _. split; [done|]. intros q Hq. rewrite Q, T by congruence. done.
Qed.

(** The write loop always ends, and changes at most the file it writes. *)
Lemma write_complete_spec d bytes stop w r w' :
  write_complete d bytes stop w = (r, w') ->
  forall q, names w d <> Some q -> contents w' q = contents w q.
Proof.
  unfold write_complete.
  destruct (write_loop_spec (S (length bytes + signals w)) d bytes stop 0 w) as (r1 & w1 & -> & Q);
    [lia|cbn; lia|]. cbn [default]. by intros [= <- <-].
Qed.

Lemma read_loop_spec fuel d : forall context count w,
  is_u64 count -> (length (default [] (unread w d)) + signals w < fuel)%nat ->
  exists r w', read_loop fuel d context count w = Some (r, w') /\ same_files w w' /\
    forall context' count', r = inr (context', count') ->
      exists c, unread w d = Some c /\ absorbed context' = absorbed context ++ c /\
        count' = count + Z.of_nat (length c).
Proof.
  induction fuel as [|fuel IH]; intros context count w Hc Hf; [lia|]. cbn [read_loop].
  destruct (os_read d 65536 w) as [[n buffer] w1] eqn:E. apply read_law in E as (S & G & Ln & Gn).
  destruct (Z.ltb_spec n 0); cbn [andb].
  - destruct (Ln ltac:(done)) as [U1 I]. destruct (errno_interrupted w1) eqn:X; [|by eexists _, _].
    destruct (IH context count w1) as (r & w' & -> & S' & Q);
      [done|rewrite U1; specialize (I eq_refl); lia|].
    eexists _, _. split; [done|]. split; [by eapply same_files_trans|by rewrite <- U1].
  - destruct (Gn ltac:(lia)) as (-> & rest & U0 & U1 & E0). rewrite U0 in Hf |- *.
    cbn in Hf. rewrite length_app in Hf.
    destruct (Z.eqb_spec (Z.of_nat (length buffer)) 0) as [Z0|Z0].
    { eexists _, _. split; [done|]. split; [done|]. intros ? ? [= <- <-].
      assert (rest = []) as -> by auto. destruct buffer; [|cbn in Z0; lia].
      exists []. cbn. rewrite app_nil_r. split_and!; [done|done|lia]. }
    rewrite u64_sub_small by int_lia. rewrite Z.gtb_ltb.
    destruct (Z.ltb_spec (u64_max - count) (Z.of_nat (length buffer))); [by eexists _, _|].
    destruct (evp_update context buffer) as [context1|] eqn:Eu; [|by eexists _, _].
    apply evp_update_law in Eu. rewrite u64_add_small by int_lia.
    destruct (IH context1 (count + Z.of_nat (length buffer)) w1) as (r & w' & -> & S' & Q);
      [int_lia|rewrite U1; cbn; lia|].
    eexists _, _. split; [done|]. split; [by eapply same_files_trans|]. intros ? ? Er.
    destruct (Q _ _ Er) as (c & Uc & -> & ->). rewrite U1 in Uc. injection Uc as <-.
    exists (buffer ++ rest). rewrite Eu, <- app_assoc, length_app. split_and!; [done|done|lia].
Qed.

(** ** Read-back *)

(** The file at this path has this size and digest. *)
Definition file_is (w : W) (path : Path) (byte_count : Z) (digest : string) : Prop :=
  exists c, contents w path = Some c /\ byte_count = Z.of_nat (length c) /\
    digest = Sha256_hex (mkSha256 (sha256 c)).

Lemma file_identity_spec path w identity w' :
  file_identity path w = (identity, w') ->
  same_files w w' /\
  (fi_ok identity = true -> file_is w path (fi_byte_count identity) (fi_sha256 identity)).
Proof.
  unfold file_identity. destruct (os_open path w) as [d w1] eqn:O. apply open_law in O as [S1 U].
  destruct (Z.ltb_spec d 0); [by intros [= <- <-]|].
  destruct (os_fstat d w1) as [[r size] w2] eqn:F. apply fstat_law in F as [S2 U2].
  pose proof (same_files_trans _ _ _ S1 S2) as S. destruct (_ || _); [by intros [= <- <-]|].
  destruct evp_new as [c0|]; [|by intros [= <- <-]].
  destruct (evp_init c0) as [c1|] eqn:I; [|by intros [= <- <-]]. apply evp_init_law in I.
  destruct (read_loop_spec (Datatypes.S (length (default [] (unread w2 d)) + signals w2)) d c1 0 w2)
    as (rr & w3 & -> & S3 & Q); [int_lia|lia|].
  pose proof (same_files_trans _ _ _ S S3) as S'.
  destruct rr as [reason|[c2 count]]; [by intros [= <- <-]|].
  destruct (Q _ _ eq_refl) as (c & Uc & A & ->).
  destruct (evp_final c2) as [digest|] eqn:Fn; [|by intros [= <- <-]].
  apply evp_final_law in Fn. destruct (negb _); [by intros [= <- <-]|]. intros [= <- <-].
  split; [done|]. intros _. exists c. rewrite <- U, <- U2 by lia. split; [done|]. cbn.
  rewrite Fn, A, I. done.
Qed.

Lemma identity_matches_spec path w identity w' byte_count expected :
  file_identity path w = (identity, w') -> identity_matches identity byte_count expected = true ->
  file_is w' path byte_count expected.
Proof.
  intros F M. unfold identity_matches in M.
  rewrite !andb_true_iff, Z.eqb_eq, bool_decide_eq_true in M. destruct M as [[M1 <-] <-].
  apply file_identity_spec in F as [S F]. destruct (F M1) as (c & E & ?). exists c. by rewrite S.
Qed.

Lemma file_is_keeps w w' path n digest : keeps w w' -> file_is w path n digest -> file_is w' path n digest.
Proof. intros K (c & E & ?). exists c. split; [by apply K|done]. Qed.

(** ** Publication *)

Lemma touches_files ps w w1 w2 : touches ps w w1 -> same_files w1 w2 -> touches ps w w2.
Proof. intros T S q N. by rewrite S, T. Qed.

Lemma staging_published (dir : Path) a b (name : string) : a <> b -> dir ++ [a; name] <> dir ++ [b; name].
Proof. intros N E. apply app_inv_head in E. congruence. Qed.

(** A staged file: it was created for a free name and nothing else changed. *)
Definition staged (staging : Path) (w w' : W) : Prop :=
  contents w staging = None /\ touches [staging] w w'.

Lemma staged_write staging w d w1 bytes stop r w2 :
  os_create staging w = (d, w1) -> 0 <= d -> write_complete d bytes stop w1 = (r, w2) ->
  staged staging w w2.
Proof.
  intros Ec Hd Ew. apply create_law in Ec as (T & _ & N). destruct (N Hd) as [E Nm]. split; [done|].
  intros q Hq. rewrite (write_complete_spec _ _ _ _ _ _ Ew), T; [done|done|].
  rewrite Nm. set_solver.
Qed.

Lemma staged_same staging w w1 w2 : staged staging w w1 -> same_files w1 w2 -> staged staging w w2.
Proof. intros [E T] S. split; [done|]. by eapply touches_files. Qed.

Lemma staged_keeps staging w w1 : staged staging w w1 -> keeps w w1.
Proof. intros [E T]. eapply touches_keeps; [done|]. apply Forall_cons. split; [done|apply Forall_nil, I]. Qed.

(** A published file: its name was free too. *)
Definition link_made (staging published : Path) (w w' : W) : Prop :=
  contents w staging = None /\ contents w published = None /\ touches [staging; published] w w'.

Lemma staged_link staging published w w1 r w2 :
  staging <> published -> staged staging w w1 -> os_link staging published w1 = (r, w2) ->
  (r <> 0 -> staged staging w w2) /\ (r = 0 -> link_made staging published w w2).
Proof.
  intros N [E T] L. apply link_law in L as (Tl & Sm & Fr). split.
  - intros Hr. by apply (staged_same staging w w1); [split|apply Sm].
  - intros Hr. split; [done|]. split; [rewrite <- T by set_solver; by apply Fr|].
    intros q Hq. rewrite Tl, T by set_solver. done.
Qed.

Lemma linked_same staging published w w1 w2 :
  link_made staging published w w1 -> same_files w1 w2 -> link_made staging published w w2.
Proof. intros (E1 & E2 & T) S. split_and!; [done..|]. by eapply touches_files. Qed.

Lemma linked_keeps staging published w w1 : link_made staging published w w1 -> keeps w w1.
Proof.
  intros (E1 & E2 & T). eapply touches_keeps; [done|].
  apply Forall_cons. split; [done|]. apply Forall_cons. split; [done|apply Forall_nil, I].
Qed.

Lemma linked_unlink staging published w w1 r w2 :
  staging <> published -> link_made staging published w w1 -> os_unlink staging w1 = (r, w2) ->
  link_made staging published w w2 /\
  (forall n digest, file_is w1 published n digest -> file_is w2 published n digest).
Proof.
  intros N (E1 & E2 & T) U. apply unlink_law in U. split.
  - split_and!; [done..|]. intros q Hq. rewrite U, T by set_solver. done.
  - intros n digest (c & Ec & ?). exists c. by rewrite U by set_solver.
Qed.

(** An early return: the files that were there are kept. *)
Ltac leave :=
  intros [= <- <-]; split; [first [by eapply staged_keeps | by eapply linked_keeps] | done].

(** The read-back is not falsified by the simulated mismatch. *)
Definition honest_readback (config : LocalRunStoreConfig) (expected : string) : Prop :=
  fp_point (rc_fault config) <> PublicationFaultPoint_readback_mismatch \/ expected <> zero_hash.

(** What a domain holds of an object. *)
Definition object_path (directory : Path) (object_id : string) : Path :=
  directory ++ ["objects"; object_name sha256 object_id].

Lemma publish_one_spec config directory index object_id bytes expected w r w' :
  publish_one sha256 config directory index object_id bytes expected w = (r, w') ->
  keeps w w' /\
  forall evidence, r = inl evidence -> ce_verified evidence = true ->
    honest_readback config expected ->
    file_is w' (object_path directory object_id) (Z.of_nat (length bytes)) expected.
Proof.
  unfold publish_one, object_path. set (published := directory ++ ["objects"; _]).
  set (staging := directory ++ ["staging"; _]).
  assert (N : staging <> published) by (by apply staging_published).
  clearbody staging published.
  destruct (os_create staging w) as [d w1] eqn:Ec. destruct (Z.ltb_spec d 0) as [Hd|Hd].
  { intros [= <- <-]. split; [|done]. apply create_law in Ec as (_ & S & _). by apply same_keeps, S. }
  assert (St1 : staged staging w w1).
  { apply create_law in Ec as (T & _ & Nm). by destruct (Nm Hd) as [? _]. }
  destruct (faulted _ _ _); [leave|].
  destruct (write_complete d bytes _ w1) as [error w2] eqn:Ew.
  pose proof (staged_write _ _ _ _ _ _ _ _ Ec Hd Ew) as St2. clear St1 Ec Ew.
  destruct error; [leave|].
  destruct (os_fsync d w2) as [synced w3] eqn:Es. apply fsync_law in Es.
  pose proof (staged_same _ _ _ _ St2 Es) as St3. clear St2 Es.
  destruct (negb (synced =? 0)); [leave|].
  destruct (faulted _ _ _); [leave|].
  destruct (file_identity staging w3) as [sid w4] eqn:Ei.
  pose proof (staged_same _ _ _ _ St3 (proj1 (file_identity_spec _ _ _ _ Ei))) as St4. clear St3.
  destruct (negb _); [leave|].
  destruct (os_link staging published w4) as [lr w5] eqn:El.
  destruct (staged_link _ _ _ _ _ _ N St4 El) as [Lf Ls]. clear St4 El.
  destruct (Z.eqb_spec lr 0); cbn [negb];
    [|specialize (Lf ltac:(done)); leave]. specialize (Ls ltac:(done)). clear Lf.
  destruct (fsync_directory _ w5) as [durable w6] eqn:Ed. apply fsync_directory_same in Ed.
  pose proof (linked_same _ _ _ _ _ Ls Ed) as L6. clear Ls Ed.
  destruct (negb durable); [leave|].
  destruct (file_identity published w6) as [pid w7] eqn:Ep.
  pose proof (linked_same _ _ _ _ _ L6 (proj1 (file_identity_spec _ _ _ _ Ep))) as L7. clear L6.
  destruct (fi_ok pid) eqn:Ok; cbn [negb]; [|leave].
  set (seen := if faulted _ _ _ then _ else pid).
  destruct (identity_matches seen _ expected) eqn:M; cbn [negb];
    [|intros [= <- <-]; split; [by eapply linked_keeps|by intros ? [= <-]]].
  assert (V : honest_readback config expected -> file_is w7 published (Z.of_nat (length bytes)) expected).
  { intros Nz. subst seen. destruct (faulted _ _ _) eqn:Ft; [|by eapply identity_matches_spec].
    unfold identity_matches in M. cbn [fi_ok fi_byte_count fi_sha256] in M. unfold faulted in Ft.
    rewrite !andb_true_iff, bool_decide_eq_true in M, Ft. destruct M as [_ M], Ft as [Ft _].
    destruct Nz; congruence. }
  destruct (os_unlink staging w7) as [ur w8] eqn:Eu.
  destruct (linked_unlink _ _ _ _ _ _ N L7 Eu) as [L8 F8]. clear Eu L7.
  destruct (negb (ur =? 0)); [leave|].
  destruct (fsync_directory _ w8) as [cleaned w9] eqn:Ed. apply fsync_directory_same in Ed.
  pose proof (linked_same _ _ _ _ _ L8 Ed) as L9.
  assert (K9 : keeps w w9) by (by eapply linked_keeps).
  destruct (negb cleaned); intros [= <- <-]; (split; [done|]); [done|].
  intros _ _ _ Nz. eapply file_is_keeps; [by apply same_keeps|]. by apply F8, V.
Qed.

(** Where the ledger record of an object is. *)
Definition ledger_path (directory : Path) (record_id : string) : Path :=
  directory ++ ["ledger"; object_name sha256 record_id].

Lemma persist_ledger_spec config directory record_id ledger_text w persisted w' :
  persist_ledger sha256 config directory record_id ledger_text w = (persisted, w') ->
  keeps w w' /\
  (persisted = true ->
   file_is w' (ledger_path directory record_id) (Z.of_nat (length (string_bytes ledger_text)))
     (bytes_sha256 sha256 ledger_text)).
Proof.
  unfold persist_ledger, ledger_path. set (published := directory ++ ["ledger"; _]).
  set (staging := directory ++ ["ledger-staging"; _]).
  assert (N : staging <> published) by (by apply staging_published).
  clearbody staging published. destruct (bool_decide _); [intros [= <- <-]; split; [by apply same_keeps|done]|].
  destruct (os_create staging w) as [d w1] eqn:Ec. destruct (Z.ltb_spec d 0) as [Hd|Hd].
  { intros [= <- <-]. split; [|done]. apply create_law in Ec as (_ & S & _). by apply same_keeps, S. }
  destruct (write_complete d _ _ w1) as [error w2] eqn:Ew.
  pose proof (staged_write _ _ _ _ _ _ _ _ Ec Hd Ew) as St2. clear Ec Ew. destruct error; [leave|].
  destruct (os_fsync d w2) as [synced w3] eqn:Es. apply fsync_law in Es.
  pose proof (staged_same _ _ _ _ St2 Es) as St3. clear St2 Es. destruct (negb (synced =? 0)); [leave|].
  destruct (file_identity staging w3) as [sid w4] eqn:Ei.
  pose proof (staged_same _ _ _ _ St3 (proj1 (file_identity_spec _ _ _ _ Ei))) as St4. clear St3.
  destruct (negb _); [leave|]. destruct (os_link staging published w4) as [lr w5] eqn:El.
  destruct (staged_link _ _ _ _ _ _ N St4 El) as [Lf Ls]. clear St4 El.
  destruct (Z.eqb_spec lr 0); cbn [negb]; [|specialize (Lf ltac:(done)); leave].
  specialize (Ls ltac:(done)). clear Lf.
  destruct (fsync_directory _ w5) as [durable w6] eqn:Ed. apply fsync_directory_same in Ed.
  pose proof (linked_same _ _ _ _ _ Ls Ed) as L6. clear Ls Ed. destruct (negb durable); [leave|].
  destruct (file_identity published w6) as [pid w7] eqn:Ep.
  pose proof (linked_same _ _ _ _ _ L6 (proj1 (file_identity_spec _ _ _ _ Ep))) as L7. clear L6.
  destruct (identity_matches pid _ _) eqn:M; cbn [negb]; [|leave].
  pose proof (identity_matches_spec _ _ _ _ _ _ Ep M) as F7.
  destruct (os_unlink staging w7) as [ur w8] eqn:Eu.
  destruct (linked_unlink _ _ _ _ _ _ N L7 Eu) as [L8 F8]. apply F8 in F7. clear Eu L7.
  destruct (negb (ur =? 0)); [leave|].
  destruct (fsync_directory _ w8) as [cleaned w9] eqn:Ed. apply fsync_directory_same in Ed.
  pose proof (linked_same _ _ _ _ _ L8 Ed) as L9. intros [= <- <-].
  split; [by eapply linked_keeps|]. intros _. eapply file_is_keeps; [by apply same_keeps|done].
Qed.

Lemma publish_domains_spec config request : forall directories index copies failures w copies' failures' w',
  publish_domains sha256 config request index directories copies failures w = (copies', failures', w') ->
  keeps w w' /\
  (failures' = [] -> honest_readback config (po_expected_sha256 request) ->
   failures = [] /\ (exists new, copies' = copies ++ new /\ length new = length directories) /\
   Forall (fun directory =>
     file_is w' (object_path directory (po_object_id request))
       (Z.of_nat (length (po_bytes request))) (po_expected_sha256 request)) directories).
Proof.
  induction directories as [|directory rest IH]; intros index copies failures w copies' failures' w';
    cbn [publish_domains].
  { intros [= <- <- <-]. split; [by apply same_keeps|]. intros -> _. split; [done|].
    split; [exists []; by rewrite app_nil_r|apply Forall_nil, I]. }
  destruct (publish_one _ _ _ _ _ _ _ w) as [[copy|reason] w1] eqn:E;
    apply publish_one_spec in E as [K V].
  - destruct (ce_verified copy) eqn:Cv; cbn [negb];
      [|intros [= <- <- <-]; split; [done|]; intros Ef _; by apply app_eq_nil in Ef as [_ ?]].
    destruct (_ && _); [intros [= <- <- <-]; split; [done|]; intros Ef _; by apply app_eq_nil in Ef as [_ ?]|].
    intros Er. apply IH in Er as [K' Q]. split; [by eapply keeps_trans|]. intros Ef Nz.
    destruct (Q Ef Nz) as (-> & (new & -> & L) & F). split; [done|]. split.
    + exists (copy :: new). rewrite <- app_assoc. split; [done|]. cbn. by rewrite L.
    + apply Forall_cons. split; [|done]. eapply file_is_keeps; [exact K'|]. by apply (V copy).
  - intros [= <- <- <-]. split; [done|]. intros Ef _. by apply app_eq_nil in Ef as [_ ?].
Qed.

(** The object of a request in every domain. *)
Definition object_stored (store : RunStore) (request : PublishObjectRequest) (w : W) : Prop :=
  Forall (fun directory =>
    file_is w (object_path directory (po_object_id request)) (Z.of_nat (length (po_bytes request)))
      (Sha256_hex (mkSha256 (sha256 (po_bytes request))))) (st_run_directories store).

(** What a sealed publication left behind. *)
Definition sealed_in (store : RunStore) (request : PublishObjectRequest) (result : PublishObjectResult)
    (w : W) : Prop :=
  object_stored store request w /\
  file_is w (ledger_path (default [] (head (st_run_directories store))) (po_ledger_record_id request))
    (Z.of_nat (length (string_bytes (cd_bytes (pb_ledger result)))))
    (bytes_sha256 sha256 (cd_bytes (pb_ledger result))).

Lemma object_stored_keeps store request w w' :
  keeps w w' -> object_stored store request w -> object_stored store request w'.
Proof. intros K F. eapply Forall_impl; [exact F|]. intros directory. by apply file_is_keeps. Qed.

Lemma publish_reserved_spec store request w result w' :
  publish_reserved sha256 store request w = (result, w') ->
  keeps w w' /\
  forall r, result = success r -> pb_finalization_state r = CopyFinalizationState_sealed_complete ->
    honest_readback (st_config store) (po_expected_sha256 request) ->
    sealed_in store request r w' /\ pb_failures r = [] /\ pb_ledger_persisted r = true /\
    length (pb_copies r) = 2%nat /\ Forall (fun c => ce_verified c = true) (pb_copies r) /\
    po_stream_completeness request = StreamCompleteness_sealed_complete.
Proof.
  unfold publish_reserved.
  destruct (bool_decide_reflect (Sha256_hex (mkSha256 (sha256 (po_bytes request))) = po_expected_sha256 request))
    as [Es|Es]; cbn [negb].
  - destruct (publish_domains _ _ _ _ _ _ _ w) as [[copies failures] w1] eqn:Ed.
    apply publish_domains_spec in Ed as [K1 Q1].
    set (complete := _ && _ && _).
    destruct (make_copy_ledger_document _ _) as [ledger|]; [|by intros [= <- <-]].
    destruct (persist_ledger _ _ _ _ _ w1) as [persisted w2] eqn:Ep.
    apply persist_ledger_spec in Ep as [K2 Q2].
    assert (K : keeps w w2) by (by eapply keeps_trans).
    destruct persisted.
    + intros [= <- <-]. split; [done|]. intros r [= <-]. cbn [pb_finalization_state]. intros Hs Nz.
      destruct complete eqn:Ec; [|done]. subst complete.
      rewrite !andb_true_iff, bool_decide_eq_true, Nat.eqb_eq in Ec. destruct Ec as [[Hc Hv] Hf].
      assert (failures = []) as -> by (by destruct failures).
      destruct (Q1 eq_refl Nz) as (_ & _ & F). split.
      { split; [|by apply Q2]. eapply object_stored_keeps; [exact K2|]. unfold object_stored. by rewrite Es. }
      cbn [pb_failures pb_ledger_persisted pb_copies]. destruct copies as [|a [|b [|]]]; try done.
      apply andb_true_iff in Hv as [Ha Hb]. split_and!; try done.
      repeat (apply Forall_cons; split; [done|]). apply Forall_nil, I.
    + destruct (make_copy_ledger_document _ _) as [ledger'|]; intros [= <- <-]; (split; [done|]); [|done].
      by intros r [= <-].
  - destruct (make_copy_ledger_document _ _) as [ledger|];
      [|intros [= <- <-]; split; [by apply same_keeps|done]].
    destruct (persist_ledger _ _ _ _ _ w) as [persisted w2] eqn:Ep.
    apply persist_ledger_spec in Ep as [K2 _]. cbn [length Nat.eqb]. rewrite andb_false_r.
    destruct persisted; [intros [= <- <-]; split; [done|]; by intros r [= <-]|].
    destruct (make_copy_ledger_document _ _) as [ledger'|]; intros [= <- <-]; (split; [done|]); [|done].
    by intros r [= <-].
Qed.

(** ** Recovery and setting up *)

Lemma recover_staging_spec store index object_id count expected w r w' :
  recover_staging sha256 store index object_id count expected w = (r, w') ->
  keeps w w' /\
  forall evidence, rr_copy r = Some evidence ->
    exists directory, st_run_directories store !! index = Some directory /\
      file_is w' (object_path directory object_id) count expected.
Proof.
  unfold recover_staging, object_path.
  destruct (st_run_directories store !! index) as [directory|];
    [|intros [= <- <-]; split; [by apply same_keeps|done]].
  destruct (str_empty object_id); [intros [= <- <-]; split; [by apply same_keeps|done]|].
  destruct (os_exists _ w) as [[b e] w1] eqn:Ex. apply exists_law in Ex.
  destruct (b && negb e).
  - destruct (file_identity _ w1) as [identity w2] eqn:Ei.
    pose proof (proj1 (file_identity_spec _ _ _ _ Ei)) as S2.
    assert (K : keeps w w2) by (by apply same_keeps; eapply same_files_trans).
    destruct (identity_matches _ _ _) eqn:M; cbn [negb]; intros [= <- <-]; (split; [done|]); [|done].
    intros _ _. exists directory. split; [done|]. by eapply identity_matches_spec.
  - destruct (file_identity _ w1) as [identity w2] eqn:Ei.
    pose proof (same_files_trans _ _ _ Ex (proj1 (file_identity_spec _ _ _ _ Ei))) as S2.
    destruct (negb _); [intros [= <- <-]; split; [by apply same_keeps|done]|].
    destruct (os_link _ _ w2) as [lr w3] eqn:El. apply link_law in El as (T & Sf & Fr).
    destruct (Z.eqb_spec lr 0) as [Hl|Hl]; cbn [negb].
    2: { intros [= <- <-]. split; [|done]. apply same_keeps. eapply same_files_trans; [exact S2|by apply Sf]. }
    assert (K3 : keeps w w3).
    { eapply keeps_trans; [by apply same_keeps|]. eapply touches_keeps; [exact T|].
      apply Forall_cons. split; [by apply Fr|apply Forall_nil, I]. }
    destruct (fsync_directory _ w3) as [durable w4] eqn:Ed. apply fsync_directory_same in Ed.
    pose proof (keeps_trans _ _ _ K3 (same_keeps _ _ Ed)) as K4.
    destruct (negb durable); [by intros [= <- <-]|].
    destruct (file_identity _ w4) as [final w5] eqn:Ef.
    pose proof (keeps_trans _ _ _ K4 (same_keeps _ _ (proj1 (file_identity_spec _ _ _ _ Ef)))) as K5.
    destruct (identity_matches _ _ _) eqn:M; cbn [negb]; intros [= <- <-]; (split; [done|]); [|done].
    intros _ _. exists directory. split; [done|]. by eapply identity_matches_spec.
Qed.

Lemma in_order_same steps : forall w r w',
  Forall (fun step => forall w r w', step w = (r, w') -> same_files w w') steps ->
  in_order steps w = (r, w') -> same_files w w'.
Proof.
  induction steps as [|step rest IH]; intros w r w' F; cbn [in_order]; [by intros [= <- <-]|].
  apply Forall_cons in F as [F1 F]. destruct (step w) as [[u|what] w1] eqn:E; apply F1 in E.
  - intros R. apply IH in R; [|done]. by eapply same_files_trans.
  - by intros [= <- <-].
Qed.

Lemma require_directory_same path field w r w' :
  require_directory path field w = (r, w') -> same_files w w'.
Proof.
  unfold require_directory. destruct (os_is_directory path w) as [b w1] eqn:E.
  apply is_directory_law in E. by intros [= <- <-].
Qed.

Lemma create_unique_directory_same path field w r w' :
  create_unique_directory path field w = (r, w') -> same_files w w'.
Proof.
  unfold create_unique_directory. destruct (os_create_directory path w) as [[b m] w1] eqn:E.
  apply create_directory_law in E. by intros [= <- <-].
Qed.

Lemma open_domain_same config domain w r w' :
  open_domain sha256 config domain w = (r, w') -> same_files w w'.
Proof.
  unfold open_domain. destruct (rc_open_mode config); apply in_order_same.
  - do 5 (apply Forall_cons; split; [intros ? ? ?; apply create_unique_directory_same|]).
    apply Forall_cons. split; [|apply Forall_nil, I]. clear w r w'. intros w r w'. unfold sync_run_directory.
    destruct (fsync_directory _ w) as [b w1] eqn:E1. apply fsync_directory_same in E1.
    destruct (negb b); [by intros [= <- <-]|].
    destruct (fsync_directory _ w1) as [b2 w2] eqn:E2. apply fsync_directory_same in E2.
    destruct (negb b2); intros [= <- <-]; by eapply same_files_trans.
  - do 5 (apply Forall_cons; split; [intros ? ? ?; apply require_directory_same|]). apply Forall_nil, I.
Qed.

Lemma RunStore_make_same config w r w' : RunStore_make sha256 config w = (r, w') -> same_files w w'.
Proof.
  unfold RunStore_make. destruct (_ || _); [by intros [= <- <-]|].
  destruct (rc_domains config) as [|primary [|secondary [|]]]; try (by intros [= <- <-]).
  destruct (_ || _ || _); [by intros [= <- <-]|].
  destruct (in_order _ w) as [r1 w1] eqn:E. apply in_order_same in E.
  - destruct r1; by intros [= <- <-].
  - do 2 (apply Forall_cons; split; [intros ? ? ?; apply require_directory_same|]).
    apply Forall_cons. split.
    { clear E w r w' w1 r1. intros w r w'. unfold require_distinct_roots.
      destruct (os_canonical _ w) as [a w1] eqn:E1. apply canonical_law in E1.
      destruct (os_canonical _ w1) as [b w2] eqn:E2. apply canonical_law in E2.
      intros [= <- <-]. by eapply same_files_trans. }
    do 2 (apply Forall_cons; split; [intros ? ? ?; apply open_domain_same|]). apply Forall_nil, I.
Qed.

Lemma publish_spec store request w result store' w' :
  publish sha256 store request w = (result, store', w') ->
  st_config store' = st_config store /\ st_run_directories store' = st_run_directories store /\
  keeps w w' /\
  forall r, result = success r ->
    po_object_id request ∉ st_object_ids store /\ po_artifact_id request ∉ st_artifact_ids store /\
    publish_reserved sha256 store' request w = (success r, w').
Proof.
  unfold publish. destruct (bool_decide _); [intros [= <- <- <-]; split_and!; [done|done|by apply same_keeps|done]|].
  destruct (_ || _); [intros [= <- <- <-]; split_and!; [done|done|by apply same_keeps|done]|].
  destruct (bool_decide_reflect (po_object_id request ∈ st_object_ids store)) as [|No];
    [intros [= <- <- <-]; split_and!; [done|done|by apply same_keeps|done]|].
  destruct (bool_decide_reflect (po_artifact_id request ∈ st_artifact_ids (reserve_object store (po_object_id request))))
    as [|Na]; [intros [= <- <- <-]; split_and!; [done|done|by apply same_keeps|done]|].
  set (reserved := reserve_artifact _ _).
  destruct (publish_reserved sha256 reserved request w) as [r0 w1] eqn:E. intros [= <- <- <-].
  pose proof (proj1 (publish_reserved_spec _ _ _ _ _ E)) as K. split_and!; try done.
  intros r ->. done.
Qed.

(** ** Histories *)

(** Any use of any store over the same storage. *)
Inductive store_step : RunStore * W -> RunStore * W -> Prop :=
| step_publish store request w result store' w' :
    publish sha256 store request w = (result, store', w') -> store_step (store, w) (store', w')
| step_recover store index object_id count expected w r w' :
    recover_staging sha256 store index object_id count expected w = (r, w') ->
    store_step (store, w) (store, w')
| step_open store config w store' w' :
    RunStore_make sha256 config w = (Returned store', w') -> store_step (store, w) (store', w')
| step_open_failed store config w what w' :
    RunStore_make sha256 config w = (Threw what, w') -> store_step (store, w) (store, w').

Lemma history_keeps s s' : rtc store_step s s' -> keeps (snd s) (snd s').
Proof.
  induction 1 as [s|s1 s2 s3 Hs _ IH]; [by apply same_keeps|]. eapply keeps_trans; [|exact IH].
  destruct Hs as [? ? ? ? ? ? E|? ? ? ? ? ? ? ? E|? ? ? ? ? E|? ? ? ? ? E]; cbn [snd].
  - by apply publish_spec in E as (_ & _ & K & _).
  - by apply recover_staging_spec in E as [K _].
  - by eapply same_keeps, RunStore_make_same.
  - by eapply same_keeps, RunStore_make_same.
Qed.

(** C7. The store is append-only: whatever is published, recovered or opened, by any
    number of stores over the same storage, and however calls fail or are cut short,
    every file that exists keeps its bytes; no staging file, published object or ledger
    record that is already there is replaced, changed or removed. *)
Theorem store_append_only (s s' : RunStore * W) (path : Path) (bytes : list Z) :
  rtc store_step s s' -> contents (snd s) path = Some bytes -> contents (snd s') path = Some bytes.
Proof. intros Hr. by apply history_keeps. Qed.

(** C6. A publication that reports SEALED_COMPLETE is durable: no failure was recorded,
    the stream was complete, both copies were verified, and from then on, through every
    later use of any store, both domains hold a file of the object's size and digest at
    its name and the primary domain holds the ledger record that was returned. *)
Theorem sealed_publication_durable (store : RunStore) (request : PublishObjectRequest)
    (w : W) (r : PublishObjectResult) (store1 : RunStore) (w1 : W) (later : RunStore * W) :
  publish sha256 store request w = (success r, store1, w1) ->
  pb_finalization_state r = CopyFinalizationState_sealed_complete ->
  honest_readback (st_config store) (po_expected_sha256 request) ->
  rtc store_step (store1, w1) later ->
  sealed_in store request r (snd later) /\ pb_failures r = [] /\ pb_ledger_persisted r = true /\
  length (pb_copies r) = 2%nat /\ Forall (fun c => ce_verified c = true) (pb_copies r) /\
  po_stream_completeness request = StreamCompleteness_sealed_complete.
Proof.
  intros P Hs Nz Hr. apply publish_spec in P as (Ecf & Ed & _ & P). rewrite <- Ecf in Nz.
  destruct (P r eq_refl) as (_ & _ & E). apply publish_reserved_spec in E as [_ E].
  destruct (E r eq_refl Hs Nz) as ([So Sl] & Q). split; [|done].
  apply history_keeps in Hr. cbn [snd] in Hr. unfold sealed_in, object_stored in *. rewrite Ed in So, Sl.
  split; [by eapply object_stored_keeps|by eapply file_is_keeps].
Qed.

(** Recovery of a staged object: a copy is reported only when the published name
    holds a file of the expected size and digest, whether it was promoted from staging
    or found there, and the recovery leaves every existing file alone. *)
Theorem recovered_copy_exact (store : RunStore) (index : nat) (object_id : string) (count : Z)
    (expected : string) (w : W) (r : RecoveryResult) (w' : W) (evidence : CopyEvidence) :
  recover_staging sha256 store index object_id count expected w = (r, w') ->
  rr_copy r = Some evidence ->
  keeps w w' /\ exists directory, st_run_directories store !! index = Some directory /\
    file_is w' (object_path directory object_id) count expected.
Proof. intros E Hc. apply recover_staging_spec in E as [K E]. split; [done|by eapply E]. Qed.

End Correctness.

(** ** A file system with the laws

    Files, open descriptors (never closed) and a number of signals; a write stores at
    most seven bytes and the pending signals interrupt writes and reads first. *)

Module SampleStorage.

Record World : Set := mkWorld {
  wd_files : list (Path * list Z);
  wd_descriptors : list (Path * option (list Z));
  wd_signals : nat;
  wd_interrupted : bool
}.

Fixpoint find_file (path : Path) (files : list (Path * list Z)) : option (list Z) :=
  match files with
  | [] => None
  | (p, bytes) :: rest => if bool_decide (path = p) then Some bytes else find_file path rest
  end.

Fixpoint append_file (path : Path) (more : list Z) (files : list (Path * list Z)) : list (Path * list Z) :=
  match files with
  | [] => []
  | (p, bytes) :: rest =>
      if bool_decide (path = p) then (p, bytes ++ more) :: rest else (p, bytes) :: append_file path more rest
  end.

Fixpoint remove_file (path : Path) (files : list (Path * list Z)) : list (Path * list Z) :=
  match files with
  | [] => []
  | (p, bytes) :: rest =>
      if bool_decide (path = p) then remove_file path rest else (p, bytes) :: remove_file path rest
  end.

Definition with_files (w : World) (files : list (Path * list Z)) : World :=
  mkWorld files (wd_descriptors w) (wd_signals w) false.
Definition with_descriptor (w : World) (entry : Path * option (list Z)) : Z * World :=
  (Z.of_nat (length (wd_descriptors w)),
   mkWorld (wd_files w) (wd_descriptors w ++ [entry]) (wd_signals w) false).
Definition failed {A : Type} (a : A) (w : World) : A * World :=
  (a, mkWorld (wd_files w) (wd_descriptors w) (wd_signals w) false).
Definition interrupted (signals : nat) (w : World) : World :=
  mkWorld (wd_files w) (wd_descriptors w) signals true.
Definition entry (w : World) (d : Z) : option (Path * option (list Z)) :=
  if d <? 0 then None else wd_descriptors w !! Z.to_nat d.

Definition create (p : Path) (w : World) : Z * World :=
  match find_file p (wd_files w) with
  | Some _ => failed (-1) w
  | None => with_descriptor (with_files w ((p, []) :: wd_files w)) (p, None)
  end.

Definition open_file (p : Path) (w : World) : Z * World :=
  match find_file p (wd_files w) with
  | Some bytes => with_descriptor w (p, Some bytes)
  | None => failed (-1) w
  end.

Definition write (d : Z) (bytes : list Z) (w : World) : Z * World :=
  match entry w d, wd_signals w with
  | None, _ => failed (-1) w
  | Some _, S signals => (-1, interrupted signals w)
  | Some (p, _), O =>
      (Z.of_nat (length (take 7 bytes)), with_files w (append_file p (take 7 bytes) (wd_files w)))
  end.

Definition read (d size : Z) (w : World) : Z * list Z * World :=
  match entry w d, wd_signals w with
  | Some (p, Some bytes), O =>
      let buffer := take (Z.to_nat (Z.max 1 size)) bytes in
      (Z.of_nat (length buffer), buffer,
       mkWorld (wd_files w) (<[Z.to_nat d := (p, Some (drop (Z.to_nat (Z.max 1 size)) bytes))]> (wd_descriptors w))
         O false)
  | Some (p, Some bytes), S signals => (-1, [], interrupted signals w)
  | _, _ => failed (-1, []) w
  end.

Definition link (old new : Path) (w : World) : Z * World :=
  match find_file old (wd_files w), find_file new (wd_files w) with
  | Some bytes, None => (0, with_files w ((new, bytes) :: wd_files w))
  | _, _ => failed (-1) w
  end.

#[export] Instance world_file_system : FileSystem World := {
  os_create := create;
  os_open := open_file;
  os_open_directory p w := with_descriptor w (p, None);
  os_write := write;
  os_read := read;
  os_fstat d w := failed (0, 0) w;
  os_fsync d w := failed 0 w;
  os_link := link;
  os_unlink p w := (0, with_files w (remove_file p (wd_files w)));
  os_exists p w := failed (match find_file p (wd_files w) with Some _ => true | None => false end, false) w;
  os_is_directory p w := failed true w;
  os_create_directory p w := failed (true, EmptyString) w;
  os_canonical p w := failed (Some p) w;
  errno_interrupted := wd_interrupted;
  errno_text w := if wd_interrupted w then "Interrupted system call" else "File exists";
  contents w p := find_file p (wd_files w);
  names w d := fst <$> entry w d;
  unread w d := match entry w d with Some (_, bytes) => bytes | None => None end;
  signals := wd_signals
}.

Lemma find_append path more files q :
  q <> path -> find_file q (append_file path more files) = find_file q files.
Proof.
  intros N. induction files as [|[p b] files IH]; [done|]. cbn [append_file find_file].
  destruct (bool_decide_reflect (path = p)) as [->|]; cbn [find_file].
  - by rewrite bool_decide_eq_false_2.
  - by rewrite IH.
Qed.

Lemma find_remove path files q : q <> path -> find_file q (remove_file path files) = find_file q files.
Proof.
  intros N. induction files as [|[p b] files IH]; [done|]. cbn [remove_file find_file].
  destruct (bool_decide_reflect (path = p)) as [->|]; cbn [find_file].
  - by rewrite IH, bool_decide_eq_false_2.
  - by rewrite IH.
Qed.

Lemma entry_new w e :
  entry (snd (with_descriptor w e)) (fst (with_descriptor w e)) = Some e.
Proof.
  unfold entry, with_descriptor. cbn [fst snd wd_descriptors]. rewrite (proj2 (Z.ltb_ge _ _)) by lia.
  rewrite Nat2Z.id, lookup_app_r by lia. by rewrite Nat.sub_diag.
Qed.

#[export] Instance world_laws : FileSystemLaws World.
Proof.
  split; cbn [os_create os_open os_open_directory os_write os_read os_fstat os_fsync os_link os_unlink
    os_exists os_is_directory os_create_directory os_canonical errno_interrupted contents names unread signals
    world_file_system]; unfold touches, same_files; cbn [contents world_file_system];
    cbn [wd_files].
  - intros p w d w'. unfold create. destruct (find_file p (wd_files w)) eqn:E.
    { intros [= <- <-]. done. }
    intros [= <- <-]. cbn [wd_files with_files find_file]. split_and!.
    + intros q Hq. rewrite bool_decide_eq_false_2 by set_solver. done.
    + lia.
    + intros _. split; [done|].
      exact (f_equal (fmap fst) (entry_new (with_files w ((p, []) :: wd_files w)) (p, None))).
  - intros p w d w'. unfold open_file. destruct (find_file p (wd_files w)) eqn:E.
    + intros [= <- <-]. split; [done|]. intros _.
      exact (f_equal (fun e => match e with Some (_, bytes) => bytes | None => None end)
               (entry_new w (p, Some l))).
    + intros [= <- <-]. split; [done|lia].
  - intros p w d w' [= <- <-]. done.
  - intros d bytes w n w'. unfold write. destruct (entry w d) as [[p u]|] eqn:E.
    + destruct (wd_signals w) eqn:Sg; intros [= <- <-]; cbn [wd_files with_files wd_signals interrupted].
      * split_and!; [by rewrite <- E| |rewrite length_take; lia|lia|lia].
        intros q Hq. apply find_append. cbn in Hq. congruence.
      * split_and!; [by rewrite <- E|done|lia|lia|lia].
    + intros [= <- <-]. split_and!; [by rewrite <- E|done|lia|done|done].
  - intros d size w n buffer w'. unfold read. destruct (entry w d) as [[p [bytes|]]|] eqn:E; cbn.
    + destruct (wd_signals w) eqn:Sg; intros [= <- <- <-]; cbn [wd_files wd_signals interrupted].
      * split_and!; [done|lia|lia|]. intros _. split; [done|].
        exists (drop (Z.to_nat (Z.max 1 size)) bytes). rewrite take_drop. split; [done|].
        unfold entry in *. destruct (d <? 0); [done|]. cbn [wd_descriptors].
        rewrite list_lookup_insert_eq by (by apply lookup_lt_Some in E). split; [done|].
        rewrite length_take. intros L. apply nil_length_inv. rewrite length_drop. lia.
      * split_and!; [done|lia| |lia]. intros _. split; [|lia].
        exact (f_equal (fun e => match e with Some (_, bytes) => bytes | None => None end) E).
    + intros [= <- <- <-]. split_and!; [done|done| |lia]. intros _. split; [|done].
      exact (f_equal (fun e => match e with Some (_, bytes) => bytes | None => None end) E).
    + intros [= <- <- <-]. split_and!; [done|done| |lia]. intros _. split; [|done].
      exact (f_equal (fun e => match e with Some (_, bytes) => bytes | None => None end) E).
  - intros d w r size w' [= <- <- <-]. done.
  - intros d w r w' [= <- <-]. done.
  - intros old new w r w'. unfold link. destruct (find_file old (wd_files w)), (find_file new (wd_files w)) eqn:E;
      intros [= <- <-]; cbn [wd_files with_files find_file]; split_and!; try done.
    intros q Hq. by rewrite bool_decide_eq_false_2 by set_solver.
  - intros p w r w' [= <- <-] q Hq. cbn [wd_files with_files]. apply find_remove. set_solver.
  - intros p w b e w' [= <- <- <-]. done.
  - intros p w b w' [= <- <-]. done.
  - intros p w b m w' [= <- <- <-]. done.
  - intros p w r w' [= <- <-]. done.
Qed.

#[export] Instance sample_context : IncrementalDigest (list Z) := {
  evp_new := Some [];
  evp_init _ := Some [];
  evp_update c b := Some (c ++ b);
  evp_final c := Some (sample_sha c);
  absorbed c := c
}.

#[export] Instance sample_digest_laws : DigestLaws (list Z) sample_sha.
Proof. split; cbn; congruence. Qed.

Definition config : LocalRunStoreConfig :=
  mkLocalRunStoreConfig "run" "2025-01-01T00:00:00Z"
    [mkLocalStorageDomain "primary" [EmptyString; "d0"];
     mkLocalStorageDomain "secondary" [EmptyString; "d1"]]
    (mkPublicationFaultPlan PublicationFaultPoint_none 0 0) RunStoreOpenMode_create_new.

(** Another run's file, and three pending signals. *)
Definition before : World :=
  mkWorld [([EmptyString; "d0"; "other"], [9])] [] 3 false.

Definition object_bytes : list Z := Z.of_nat <$> seq 0 20.

Definition request : PublishObjectRequest :=
  mkPublishObjectRequest "object" "PRODUCER_RAW" "artifact" "ledger" object_bytes
    (Sha256_hex (mkSha256 (sample_sha object_bytes))) StreamCompleteness_sealed_complete.

Definition opened : RunStore * World :=
  match RunStore_make sample_sha config before with
  | (Returned store, w) => (store, w)
  | (Threw _, w) => (mkRunStore config [] [] [], w)
  end.

Definition published : Result PublishObjectResult * RunStore * World :=
  publish sample_sha (fst opened) request (snd opened).

Definition result : PublishObjectResult :=
  match published with
  | (success r, _, _) => r
  | _ => mkPublishObjectResult CopyFinalizationState_incomplete [] [] (mkCanonicalDocument EmptyString EmptyString) false
  end.

(** The same publication, cut off after the staging file was synced, and a store that
    recovers it. *)
Definition cut_off : Result PublishObjectResult * RunStore * World :=
  publish sample_sha
    (mkRunStore (mkLocalRunStoreConfig "run" "2025-01-01T00:00:00Z" (rc_domains config)
       (mkPublicationFaultPlan PublicationFaultPoint_after_staging_sync 0 0) RunStoreOpenMode_create_new)
       (st_run_directories (fst opened)) [] []) request (snd opened).

Definition recovered : RecoveryResult * World :=
  recover_staging sample_sha (fst opened) 0 "object" 20 (po_expected_sha256 request) (snd cut_off).

End SampleStorage.

#[export] Existing Instances SampleStorage.world_file_system SampleStorage.world_laws
  SampleStorage.sample_context SampleStorage.sample_digest_laws.

Lemma store_append_only_witness :
  contents (snd (snd (fst SampleStorage.published), snd SampleStorage.published))
    [EmptyString; "d0"; "other"] = Some [9].
Proof.
  assert (R : rtc (store_step sample_sha) SampleStorage.opened
    (snd (fst SampleStorage.published), snd SampleStorage.published)).
  { apply rtc_once. unfold SampleStorage.published. destruct SampleStorage.opened as [store w].
    cbn [fst snd]. destruct (publish sample_sha store SampleStorage.request w) as [[r store'] w'] eqn:E.
    eapply step_publish. exact E. }
  assert (B : contents (snd SampleStorage.opened) [EmptyString; "d0"; "other"] = Some [9])
    by (vm_compute; reflexivity).
  exact (store_append_only sample_sha SampleStorage.opened
    (snd (fst SampleStorage.published), snd SampleStorage.published) [EmptyString; "d0"; "other"] [9] R B).
Defined.

Lemma sealed_publication_durable_witness :
  pb_finalization_state SampleStorage.result = CopyFinalizationState_sealed_complete /\
  sealed_in sample_sha (fst SampleStorage.opened) SampleStorage.request SampleStorage.result
    (snd (snd (fst SampleStorage.published), snd SampleStorage.published)).
Proof.
  assert (P : publish sample_sha (fst SampleStorage.opened) SampleStorage.request (snd SampleStorage.opened) =
    (success SampleStorage.result, snd (fst SampleStorage.published), snd SampleStorage.published))
    by (vm_compute; reflexivity).
  assert (S : pb_finalization_state SampleStorage.result = CopyFinalizationState_sealed_complete)
    by (vm_compute; reflexivity).
  assert (N : honest_readback (st_config (fst SampleStorage.opened)) (po_expected_sha256 SampleStorage.request))
    by (left; vm_compute; discriminate).
  split; [exact S|].
  exact (proj1 (sealed_publication_durable sample_sha _ _ _ _ _ _
    (snd (fst SampleStorage.published), snd SampleStorage.published) P S N (rtc_refl _ _))).
Defined.

Lemma recovered_copy_exact_witness :
  rr_promoted (fst SampleStorage.recovered) = true /\
  exists directory, st_run_directories (fst SampleStorage.opened) !! 0%nat = Some directory /\
    file_is sample_sha (snd SampleStorage.recovered) (object_path sample_sha directory "object") 20
      (po_expected_sha256 SampleStorage.request).
Proof.
  split; [vm_compute; reflexivity|].
  assert (E : exists evidence, rr_copy (fst SampleStorage.recovered) = Some evidence)
    by (vm_compute; eexists; reflexivity).
  destruct E as [evidence E].
  assert (R : recover_staging sample_sha (fst SampleStorage.opened) 0 "object" 20
    (po_expected_sha256 SampleStorage.request) (snd SampleStorage.cut_off) =
    (fst SampleStorage.recovered, snd SampleStorage.recovered)) by (vm_compute; reflexivity).
  exact (proj2 (recovered_copy_exact sample_sha (fst SampleStorage.opened) 0 "object" 20
    (po_expected_sha256 SampleStorage.request) (snd SampleStorage.cut_off) (fst SampleStorage.recovered)
    (snd SampleStorage.recovered) evidence R E)).
Defined.
