(* ===== verification/Finalization.v ===== *)
(** * Finalization of a run's observations

    Models [include/cpu_prefetch/storage/finalization.hpp] and
    [src/storage/finalization.cpp]: the integrity report, the raw streams and their
    envelopes published through the run store, and the verdict on the whole. *)

From stdpp Require Import prelude list strings.
From Stdlib Require Import ZArith Lia Ascii.
From S2P Require Import Prelude Validation Model Bytes Json BlockPlanning RawObservations BlockPlans.
From S2P Require Import Artifacts ArtifactStore.

#[local] Open Scope Z_scope.

(** ** Data *)

Record ArtifactPublicationPlan : Set := mkArtifactPublicationPlan {
  ap_object_id : string;
  ap_artifact_id : string;
  ap_ledger_record_id : string
}.

Record RawStreamPublicationPlan : Set := mkRawStreamPublicationPlan {
  rp_snapshot : RawStreamSnapshot;
  rp_raw : ArtifactPublicationPlan;
  rp_envelope : ArtifactPublicationPlan
}.

Record RunObservationFinalizationRequest : Set := mkRunObservationFinalizationRequest {
  fq_run_id : string;
  fq_measurement_completed : bool;
  fq_integrity : PhaseIntegrityInput;
  fq_integrity_publication : ArtifactPublicationPlan;
  fq_producer : option RawStreamPublicationPlan;
  fq_consumer : option RawStreamPublicationPlan
}.

Record PublishedRawStream : Set := mkPublishedRawStream {
  ps_raw : PublishObjectResult;
  ps_envelope_document : option RawEnvelopeDocument;
  ps_envelope : option PublishObjectResult
}.

Record RunObservationFinalizationResult : Set := mkRunObservationFinalizationResult {
  fr_finalization_state : CopyFinalizationState;
  fr_integrity : PublishObjectResult;
  fr_producer : option PublishedRawStream;
  fr_consumer : option PublishedRawStream;
  fr_failures : list string
}.

Definition is_complete (result : PublishObjectResult) : bool :=
  bool_decide (pb_finalization_state result = CopyFinalizationState_sealed_complete) &&
  pb_ledger_persisted result.

Definition has_verified_primary (result : PublishObjectResult) : bool :=
  match pb_copies result with copy :: _ => ce_verified copy | [] => false end.

Definition append_publish_failures (prefix : string) (result : PublishObjectResult)
    (failures : list string) : list string :=
  failures ++ ((fun reason => prefix +:+ ": " +:+ reason) <$> pb_failures result).

Section Finalize.

Context {W : Type} `{FileSystem W} {C : Type} `{IncrementalDigest C} (sha256 : list Z -> list Z).

Definition stream_digest_hex (bytes : list Z) : string := Sha256_hex (mkSha256 (sha256 bytes)).

(** The publication of the raw bytes. *)
Definition raw_request (plan : RawStreamPublicationPlan) : PublishObjectRequest :=
  mkPublishObjectRequest (ap_object_id (rp_raw plan))
    (if bool_decide (ss_stream_kind (rp_snapshot plan) = StreamKind_producer)
     then "PRODUCER_RAW" else "CONSUMER_RAW")
    (ap_artifact_id (rp_raw plan)) (ap_ledger_record_id (rp_raw plan))
    (ss_bytes (rp_snapshot plan)) (stream_digest_hex (ss_bytes (rp_snapshot plan)))
    (ss_completeness (rp_snapshot plan)).

Definition stream_envelope_input (plan : RawStreamPublicationPlan) (uri : string)
    (integrity_reference : ArtifactRefText) : RawEnvelopeInput :=
  mkRawEnvelopeInput (ap_artifact_id (rp_raw plan)) (ss_run_id (rp_snapshot plan))
    (ss_stream_kind (rp_snapshot plan)) uri (ss_row_count (rp_snapshot plan))
    (Z.of_nat (length (ss_bytes (rp_snapshot plan)))) (stream_digest_hex (ss_bytes (rp_snapshot plan)))
    integrity_reference [].

(** The publication of a document. *)
Definition document_request (plan : ArtifactPublicationPlan) (role : string)
    (document : CanonicalDocument) : PublishObjectRequest :=
  mkPublishObjectRequest (ap_object_id plan) role (ap_artifact_id plan) (ap_ledger_record_id plan)
    (string_bytes (cd_bytes document)) (cd_sha256 document) StreamCompleteness_sealed_complete.

Definition publish_stream (store : RunStore) (plan : RawStreamPublicationPlan)
    (integrity_reference : ArtifactRefText) (w : W) :
    Throws (Result PublishedRawStream) * RunStore * W :=
  if bool_decide (ss_completeness (rp_snapshot plan) = StreamCompleteness_writing) then
    (Returned (fail_with ErrorCategory_cross_field "$input/snapshot" "STO-UNSEALED-STREAM"
       "a writing stream cannot be finalized"), store, w)
  else
    let '(raw, store, w) := publish sha256 store (raw_request plan) w in
    match raw with
    | failure errors => (Returned (failure errors), store, w)
    | success raw =>
        if negb (has_verified_primary raw) then
          (Returned (success (mkPublishedRawStream raw None None)), store, w)
        else
          match artifact_uri sha256 store 0 (ap_object_id (rp_raw plan)) with
          | Threw what => (Threw what, store, w)
          | Returned uri =>
              match make_external_raw_envelope sha256 (stream_envelope_input plan uri integrity_reference) with
              | failure errors => (Returned (failure errors), store, w)
              | success envelope =>
                  let '(published_envelope, store, w) :=
                    publish sha256 store
                      (document_request (rp_envelope plan) "RAW_OBSERVATION_ENVELOPE"
                         (rd_document envelope)) w in
                  match published_envelope with
                  | failure errors => (Returned (failure errors), store, w)
                  | success published =>
                      (Returned (success (mkPublishedRawStream raw (Some envelope) (Some published))),
                       store, w)
                  end
              end
          end
    end.

(** The failures of one published stream. *)
Definition stream_failures (name : string) (plan : RawStreamPublicationPlan)
    (stream : PublishedRawStream) (failures : list string) : list string :=
  let failures := append_publish_failures (name +:+ " raw") (ps_raw stream) failures in
  let failures :=
    match ps_envelope stream with
    | Some envelope => append_publish_failures (name +:+ " envelope") envelope failures
    | None => failures ++ [name +:+ " envelope absent because no verified primary exists"]
    end in
  if ss_overflowed (rp_snapshot plan) then
    failures ++ ["BUFFER_OVERFLOW: invalidating measurement failure; rows were not truncated"]
  else failures.

(** One of the two streams of the request, with the failures so far. *)
Definition finalize_stream (name : string) (plan : option RawStreamPublicationPlan)
    (integrity_reference : ArtifactRefText) (failures : list string) (store : RunStore) (w : W) :
    Throws (Result (option PublishedRawStream * list string)) * RunStore * W :=
  match plan with
  | None =>
      (Returned (success (None, failures ++ [name +:+ " stream absent; no artifact fabricated"])),
       store, w)
  | Some plan =>
      match publish_stream store plan integrity_reference w with
      | (Threw what, store, w) => (Threw what, store, w)
      | (Returned (failure errors), store, w) => (Returned (failure errors), store, w)
      | (Returned (success stream), store, w) =>
          (Returned (success (Some stream, stream_failures name plan stream failures)), store, w)
      end
  end.

Definition stream_complete (stream : option PublishedRawStream) : bool :=
  match stream with
  | Some stream =>
      is_complete (ps_raw stream) &&
      match ps_envelope stream with Some envelope => is_complete envelope | None => false end
  | None => false
  end.

(** The run of a stream that is present disagrees. *)
Definition stream_run_mismatch (run_id : string) (plan : option RawStreamPublicationPlan) : bool :=
  match plan with
  | Some plan => negb (bool_decide (ss_run_id (rp_snapshot plan) = run_id))
  | None => false
  end.

Definition finalize_run_observations (store : RunStore) (request : RunObservationFinalizationRequest)
    (w : W) : Throws (Result RunObservationFinalizationResult) * RunStore * W :=
  if str_empty (fq_run_id request) ||
     negb (bool_decide (pi_run_id (fq_integrity request) = fq_run_id request)) ||
     negb (bool_decide (ap_artifact_id (fq_integrity_publication request) =
                        pi_artifact_id (fq_integrity request))) then
    (Returned (fail_with ErrorCategory_reference_mismatch "$input" "STO-FINALIZE-RUN-ID"
       "finalization, integrity, and publication identities disagree"), store, w)
  else if stream_run_mismatch (fq_run_id request) (fq_producer request) ||
          stream_run_mismatch (fq_run_id request) (fq_consumer request) then
    (Returned (fail_with ErrorCategory_reference_mismatch "$input/stream/run_id"
       "STO-FINALIZE-STREAM-ID" "stream run_id disagrees with finalization run_id"), store, w)
  else
    match make_phase_integrity_document sha256 (fq_integrity request) with
    | failure errors => (Returned (failure errors), store, w)
    | success integrity_document =>
        let '(integrity, store, w) :=
          publish sha256 store
            (document_request (fq_integrity_publication request) "PHASE_INTEGRITY_REPORT"
               integrity_document) w in
        match integrity with
        | failure errors => (Returned (failure errors), store, w)
        | success integrity =>
            let failures := append_publish_failures "phase integrity" integrity [] in
            let integrity_reference :=
              mkArtifactRefText (pi_artifact_id (fq_integrity request)) (cd_sha256 integrity_document) in
            match finalize_stream "producer" (fq_producer request) integrity_reference failures store w with
            | (Threw what, store, w) => (Threw what, store, w)
            | (Returned (failure errors), store, w) => (Returned (failure errors), store, w)
            | (Returned (success (producer, failures)), store, w) =>
                match finalize_stream "consumer" (fq_consumer request) integrity_reference failures store w with
                | (Threw what, store, w) => (Threw what, store, w)
                | (Returned (failure errors), store, w) => (Returned (failure errors), store, w)
                | (Returned (success (consumer, failures)), store, w) =>
                    let complete :=
                      fq_measurement_completed request && is_complete integrity &&
                      stream_complete producer && stream_complete consumer &&
                      Nat.eqb (length failures) 0 in
                    let failures :=
                      if fq_measurement_completed request then failures
                      else failures ++ ["measurement did not complete; finalization remains incomplete"] in
                    (Returned (success (mkRunObservationFinalizationResult
                       (if complete then CopyFinalizationState_sealed_complete
                        else CopyFinalizationState_incomplete)
                       integrity producer consumer failures)), store, w)
                end
            end
        end
    end.

End Finalize.

(** ** What a sealed finalization means *)

Section Sealed.

Context {W : Type} `{FileSystemLaws W} {C : Type} (sha256 : list Z -> list Z) `{DigestLaws C sha256}.

(** The bytes of a stream and the envelope that describes them are in every domain. *)
Definition stream_sealed (store : RunStore) (plan : RawStreamPublicationPlan)
    (integrity_reference : ArtifactRefText) (stream : PublishedRawStream) (w : W) : Prop :=
  ss_completeness (rp_snapshot plan) = StreamCompleteness_sealed_complete /\
  object_stored sha256 store (raw_request sha256 plan) w /\
  exists envelope uri,
    ps_envelope_document stream = Some envelope /\
    artifact_uri sha256 store 0 (ap_object_id (rp_raw plan)) = Returned uri /\
    make_external_raw_envelope sha256 (stream_envelope_input sha256 plan uri integrity_reference) =
      success envelope /\
    object_stored sha256 store
      (document_request (rp_envelope plan) "RAW_OBSERVATION_ENVELOPE" (rd_document envelope)) w.

(** The same directories and the same faults. *)
Definition same_store (store store' : RunStore) : Prop :=
  st_config store' = st_config store /\ st_run_directories store' = st_run_directories store.

Definition no_false_readback (store : RunStore) : Prop :=
  fp_point (rc_fault (st_config store)) <> PublicationFaultPoint_readback_mismatch.

Lemma same_store_trans a b c : same_store a b -> same_store b c -> same_store a c.
Proof. intros [A1 A2] [B1 B2]. split; congruence. Qed.

Lemma object_stored_same store store' request w :
  same_store store store' -> object_stored sha256 store' request w -> object_stored sha256 store request w.
Proof. intros [_ E]. unfold object_stored. by rewrite E. Qed.

Lemma is_complete_sealed r :
  is_complete r = true <->
  pb_finalization_state r = CopyFinalizationState_sealed_complete /\ pb_ledger_persisted r = true.
Proof. unfold is_complete. by rewrite andb_true_iff, bool_decide_eq_true. Qed.

(** One publication of the finalization. *)
Lemma publish_complete store request w r store' w' :
  publish sha256 store request w = (r, store', w') ->
  same_store store store' /\ keeps w w' /\
  (forall result, r = success result -> is_complete result = true -> no_false_readback store ->
     object_stored sha256 store request w' /\ pb_failures result = [] /\
     po_stream_completeness request = StreamCompleteness_sealed_complete).
Proof.
  intros P. apply (publish_spec sha256) in P as (E1 & E2 & K & P). split_and!; [done..|].
  intros result Hr Hc Hf. destruct (P result Hr) as (_ & _ & R). apply (publish_reserved_spec sha256) in R as [_ R].
  apply is_complete_sealed in Hc as [Hs _].
  destruct (R result eq_refl Hs) as ([So _] & Hfl & _ & _ & _ & Hst); [left; by rewrite E1|].
  split; [|done]. by apply (object_stored_same store store'); [split|].
Qed.

Lemma publish_stream_spec store plan reference w r store' w' :
  publish_stream sha256 store plan reference w = (r, store', w') ->
  same_store store store' /\ keeps w w' /\
  (forall stream, r = Returned (success stream) -> stream_complete (Some stream) = true ->
     no_false_readback store -> stream_sealed store plan reference stream w').
Proof.
  unfold publish_stream.
  destruct (bool_decide _); [intros [= <- <- <-]; split_and!; [done|by apply same_keeps|done]|].
  destruct (publish sha256 store (raw_request sha256 plan) w) as [[raw store1] w1] eqn:P1.
  apply publish_complete in P1 as (S1 & K1 & Q1).
  destruct raw as [raw|]; [|by intros [= <- <- <-]].
  destruct (has_verified_primary raw); cbn [negb].
  2: { intros [= <- <- <-]. split_and!; [done..|]. intros stream [= <-]. cbn. by rewrite andb_false_r. }
  destruct (artifact_uri sha256 store1 0 _) as [uri|] eqn:U; [|by intros [= <- <- <-]].
  destruct (make_external_raw_envelope _ _) as [envelope|] eqn:M; [|by intros [= <- <- <-]].
  destruct (publish sha256 store1 _ w1) as [[penv store2] w2] eqn:P2.
  apply publish_complete in P2 as (S2 & K2 & Q2).
  pose proof (same_store_trans _ _ _ S1 S2) as S. pose proof (keeps_trans _ _ _ K1 K2) as K.
  destruct penv as [penv|]; [|by intros [= <- <- <-]]. intros [= <- <- <-]. split_and!; [done..|].
  intros stream [= <-] Hc Hf. cbn [stream_complete ps_raw ps_envelope] in Hc.
  apply andb_true_iff in Hc as [Hc1 Hc2].
  destruct (Q1 raw eq_refl Hc1 Hf) as (O1 & _ & Hcomp).
  destruct (Q2 penv eq_refl Hc2) as (O2 & _ & _); [unfold no_false_readback; by rewrite (proj1 S1)|].
  split; [done|]. split; [eapply object_stored_keeps; [exact K2|exact O1]|]. exists envelope, uri.
  split; [done|]. split; [|split; [done|exact (object_stored_same _ _ _ _ S1 O2)]].
  revert U. unfold artifact_uri. by rewrite (proj2 S1).
Qed.

Lemma stream_sealed_keeps store plan reference stream w w' :
  keeps w w' -> stream_sealed store plan reference stream w -> stream_sealed store plan reference stream w'.
Proof.
  intros K (Hc & O1 & envelope & uri & E & U & M & O2). split; [done|].
  split; [by eapply object_stored_keeps|]. exists envelope, uri. split_and!; try done.
  by eapply object_stored_keeps.
Qed.

Lemma stream_sealed_same store store' plan reference stream w :
  same_store store store' -> stream_sealed store' plan reference stream w ->
  stream_sealed store plan reference stream w.
Proof. intros [_ E]. unfold stream_sealed, object_stored, artifact_uri. by rewrite E. Qed.

Lemma stream_failures_nil name plan stream failures :
  stream_failures name plan stream failures = [] ->
  failures = [] /\ ss_overflowed (rp_snapshot plan) = false.
Proof.
  unfold stream_failures, append_publish_failures.
  destruct (ss_overflowed _); [intros E; by apply app_nil in E as [_ ?]|].
  destruct (ps_envelope stream); intros E; rewrite !app_nil in E; tauto.
Qed.

Lemma finalize_stream_spec name plan reference failures store w r store' w' :
  finalize_stream sha256 name plan reference failures store w = (r, store', w') ->
  same_store store store' /\ keeps w w' /\
  (forall stream failures', r = Returned (success (stream, failures')) ->
     stream_complete stream = true -> failures' = [] -> no_false_readback store ->
     failures = [] /\ exists p s, plan = Some p /\ stream = Some s /\
       ss_overflowed (rp_snapshot p) = false /\ stream_sealed store p reference s w').
Proof.
  unfold finalize_stream. destruct plan as [p|].
  - destruct (publish_stream sha256 store p reference w) as [[r1 store1] w1] eqn:P.
    apply publish_stream_spec in P as (S & K & Q).
    destruct r1 as [[s|]|]; intros [= <- <- <-]; (split_and!; [done..|]); [|done|done].
    intros stream failures' [= <- <-] Hc Hfl Hf. apply stream_failures_nil in Hfl as [-> Ho].
    split; [done|]. exists p, s. split_and!; try done. by apply Q.
  - intros [= <- <- <-]. split_and!; [done|by apply same_keeps|]. by intros stream failures' [= <- <-].
Qed.

(** C3. A finalization that reports SEALED_COMPLETE: the measurement completed, no
    failure was recorded, both streams were given, belong to the run, were sealed
    complete and did not overflow, and every storage domain holds files of the size and
    digest of the integrity report, of both raw streams and of the envelopes that
    describe exactly these streams and name exactly this integrity report; nothing that
    was stored before changed. *)
Theorem finalization_sealed_sound (store : RunStore) (request : RunObservationFinalizationRequest)
    (w : W) (result : RunObservationFinalizationResult) (store' : RunStore) (w' : W) :
  finalize_run_observations sha256 store request w = (Returned (success result), store', w') ->
  fr_finalization_state result = CopyFinalizationState_sealed_complete ->
  no_false_readback store ->
  keeps w w' /\ fq_measurement_completed request = true /\ fr_failures result = [] /\
  exists document producer consumer producer_stream consumer_stream,
    let reference := mkArtifactRefText (pi_artifact_id (fq_integrity request)) (cd_sha256 document) in
    make_phase_integrity_document sha256 (fq_integrity request) = success document /\
    object_stored sha256 store
      (document_request (fq_integrity_publication request) "PHASE_INTEGRITY_REPORT" document) w' /\
    fq_producer request = Some producer /\ fq_consumer request = Some consumer /\
    ss_run_id (rp_snapshot producer) = fq_run_id request /\
    ss_run_id (rp_snapshot consumer) = fq_run_id request /\
    ss_overflowed (rp_snapshot producer) = false /\ ss_overflowed (rp_snapshot consumer) = false /\
    fr_producer result = Some producer_stream /\ fr_consumer result = Some consumer_stream /\
    stream_sealed store producer reference producer_stream w' /\
    stream_sealed store consumer reference consumer_stream w'.
Proof.
  unfold finalize_run_observations. destruct (_ || _ || _); [done|].
  destruct (stream_run_mismatch _ (fq_producer request)) eqn:M1; [done|].
  destruct (stream_run_mismatch _ (fq_consumer request)) eqn:M2; [done|]. cbn [orb].
  destruct (make_phase_integrity_document _ _) as [document|] eqn:D; [|done].
  destruct (publish sha256 store _ w) as [[integrity store1] w1] eqn:P1.
  apply publish_complete in P1 as (S1 & K1 & Q1). destruct integrity as [integrity|]; [|done].
  set (reference := mkArtifactRefText _ _).
  destruct (finalize_stream sha256 "producer" _ _ _ store1 w1) as [[rp store2] w2] eqn:P2.
  apply finalize_stream_spec in P2 as (S2 & K2 & Q2). destruct rp as [[[ps fp]|]|]; try done.
  destruct (finalize_stream sha256 "consumer" _ _ _ store2 w2) as [[rc store3] w3] eqn:P3.
  apply finalize_stream_spec in P3 as (S3 & K3 & Q3). destruct rc as [[[cs fc]|]|]; try done.
  intros [= <- <- <-]. cbn [fr_finalization_state fr_failures fr_producer fr_consumer].
  destruct (_ && _ && _ && _ && _) eqn:Ec; [|done]. intros _ Hf.
  rewrite !andb_true_iff, Nat.eqb_eq in Ec. destruct Ec as [[[[Hm Hi] Hp] Hcs] Hl].
  assert (fc = []) as -> by (by destruct fc).
  assert (Hf1 : no_false_readback store1) by (unfold no_false_readback; by rewrite (proj1 S1)).
  assert (Hf2 : no_false_readback store2) by (unfold no_false_readback; by rewrite (proj1 S2)).
  destruct (Q3 _ _ eq_refl Hcs eq_refl Hf2) as (-> & c & sc & Ec & -> & Oc & Sc).
  destruct (Q2 _ _ eq_refl Hp eq_refl Hf1) as (_ & p & sp & Ep & -> & Op & Sp).
  destruct (Q1 _ eq_refl Hi Hf) as (Oi & _ & _). rewrite Hm.
  pose proof (same_store_trans _ _ _ S1 S2) as S12.
  split; [eapply keeps_trans; [exact K1|by eapply keeps_trans]|]. split_and!; [done..|].
  exists document, p, c, sp, sc. cbv zeta. rewrite Ep, Ec in *.
  cbn [stream_run_mismatch] in M1, M2. rewrite negb_false_iff, bool_decide_eq_true in M1, M2.
  split_and!; try done.
  - eapply object_stored_keeps; [eapply keeps_trans; [exact K2|exact K3]|exact Oi].
  - eapply stream_sealed_keeps; [exact K3|]. exact (stream_sealed_same _ _ _ _ _ _ S1 Sp).
  - exact (stream_sealed_same _ _ _ _ _ _ S12 Sc).
Qed.

End Sealed.

(** ** A finalized run *)

Module SampleRun.

Definition plan (name : string) : ArtifactPublicationPlan :=
  mkArtifactPublicationPlan (name +:+ "-object") (name +:+ "-artifact") (name +:+ "-ledger").
Definition stream (kind : StreamKind) (name : string) (bytes : list Z) : RawStreamPublicationPlan :=
  mkRawStreamPublicationPlan
    (mkRawStreamSnapshot kind "run" bytes 1 1 (Z.of_nat (length bytes))
       StreamCompleteness_sealed_complete false) (plan name) (plan (name +:+ "-envelope")).
Definition digest : Sha256 := mkSha256 (replicate 32 1).
Definition request : RunObservationFinalizationRequest :=
  mkRunObservationFinalizationRequest "run" true
    (mkPhaseIntegrityInput "integrity-artifact" "run" 7 digest digest digest digest) (plan "integrity")
    (Some (stream StreamKind_producer "producer" [1; 2; 3; 4; 5; 6; 7; 8; 9; 10]))
    (Some (stream StreamKind_consumer "consumer" [11; 12])).

End SampleRun.

Lemma sample_run_sealed :
  exists r store w,
    finalize_run_observations sample_sha (fst SampleStorage.opened) SampleRun.request
      (snd SampleStorage.opened) = (Returned (success r), store, w) /\
    fr_finalization_state r = CopyFinalizationState_sealed_complete.
Proof. vm_compute. do 3 eexists. split; reflexivity. Qed.

Lemma finalization_sealed_sound_witness :
  exists r w,
    fr_finalization_state r = CopyFinalizationState_sealed_complete /\
    keeps (snd SampleStorage.opened) w /\ fr_failures r = [].
Proof.
  destruct sample_run_sealed as (r & store & w & E & S).
  assert (N : no_false_readback (fst SampleStorage.opened)) by (vm_compute; discriminate).
  destruct (finalization_sealed_sound sample_sha (fst SampleStorage.opened) SampleRun.request
    (snd SampleStorage.opened) r store w E S N) as (K & _ & F & _).
  exists r, w. split; [exact S|]. split; [exact K|exact F].
Defined.
