(* ===== verification/CaptureBackend.v ===== *)
(** * The capturing backend of a measurement

    Models [include/cpu_prefetch/storage/capture_backend.hpp]: the backend that
    the executor's workers call, made of one clock, the event arena, one queue
    package, the consumer's running state and the two observation streams. A
    session is any sequence of whole calls in the order the workers make them;
    the main theorem follows a session from the first attempt to the joined rows
    of [reconcile]. *)

From stdpp Require Import prelude list strings.
From Stdlib Require Import ZArith Lia.
From S2P Require Import Prelude Validation Model QueueCommon LifecycleRuntime Executor Timing.
From S2P Require Import Records Packages Capture Semantic RawObservations Reconciliation.

#[local] Open Scope Z_scope.

(** The objects the backend refers to. *)
Record CapturingObservationBackend (C P : Type) : Type := mkBackend {
  bk_clock : C;
  bk_package : P;
  bk_consumer_state : Z;
  bk_producer_stream : ObservationStream;
  bk_consumer_stream : ObservationStream
}.
Arguments mkBackend {C P} _ _ _ _ _.
Arguments bk_clock {C P} _.
Arguments bk_package {C P} _.
Arguments bk_consumer_state {C P} _.
Arguments bk_producer_stream {C P} _.
Arguments bk_consumer_stream {C P} _.

Definition outcome_result (o : ProducerObservation) : EnqueueResult :=
  match po_outcome o with
  | ProducerOutcome_accepted => EnqueueResult_accepted
  | ProducerOutcome_full => EnqueueResult_full
  end.

Section Backend.

Context {C P : Type} (clock_read : C -> ClockReadResult * C) `{!TimedPackage P}.
Context (arena : EventArena).

Definition try_producer_attempt (attempt : ProducerAttempt) (b : CapturingObservationBackend C P) :
    CapturingObservationBackend C P * ProducerAttemptResult :=
  let '(clock, package, captured) :=
    capture_due_producer_attempt clock_read arena (pa_logical_sequence attempt)
      (pa_scheduled_deadline attempt) (pa_candidate_accepted_ordinal attempt)
      (bk_clock b) (bk_package b) in
  let with_stream stream :=
    mkBackend clock package (bk_consumer_state b) stream (bk_consumer_stream b) in
  match pc_status captured, pc_observation captured with
  | CaptureStatus_complete, Some observation =>
      let '(stream, append_status) := producer_append (bk_producer_stream b) observation in
      (with_stream stream,
       mkProducerAttemptResult
         (match append_status with
          | AppendStatus_appended => AttemptStatus_complete
          | _ => AttemptStatus_failure
          end) (outcome_result observation))
  | _, _ =>
      (with_stream (bk_producer_stream b),
       mkProducerAttemptResult AttemptStatus_failure EnqueueResult_full)
  end.

Definition try_consumer_poll (candidate_consumed_ordinal : Z)
    (b : CapturingObservationBackend C P) : CapturingObservationBackend C P * ConsumerPollStatus :=
  let '(clock, package, consumer_state, captured) :=
    capture_dequeue_poll clock_read arena candidate_consumed_ordinal
      (bk_clock b) (bk_package b) (bk_consumer_state b) in
  let with_stream stream :=
    mkBackend clock package consumer_state (bk_producer_stream b) stream in
  match cc_status captured with
  | CaptureStatus_empty => (with_stream (bk_consumer_stream b), ConsumerPollStatus_empty)
  | CaptureStatus_complete =>
      match cc_observation captured with
      | Some observation =>
          let '(stream, append_status) := consumer_append (bk_consumer_stream b) observation in
          (with_stream stream,
           match append_status with
           | AppendStatus_appended => ConsumerPollStatus_item
           | _ => ConsumerPollStatus_failure
           end)
      | None => (with_stream (bk_consumer_stream b), ConsumerPollStatus_failure)
      end
  | _ => (with_stream (bk_consumer_stream b), ConsumerPollStatus_failure)
  end.

(** One call of a worker: the producer's attempt of an arrival deadline, or a
    poll. *)
Inductive BackendCall : Set :=
| Call_attempt (deadline : Z)
| Call_poll.

(** The counters of the two workers: the next logical sequence, the next
    accepted ordinal, the next consumed ordinal. *)
Record Counters : Set := mkCounters {
  next_sequence : Z;
  next_accepted : Z;
  next_consumed : Z
}.

(** A session: the workers call with their counters, advance them as the
    executor does, and stop at the first failure; the producer makes an attempt
    only when its deadline is due at [now]. [None] is no successful session. *)
Fixpoint run_session (now : C -> Z) (calls : list BackendCall) (k : Counters)
    (b : CapturingObservationBackend C P) : option (Counters * CapturingObservationBackend C P) :=
  match calls with
  | [] => Some (k, b)
  | Call_attempt deadline :: rest =>
      if now (bk_clock b) <? deadline then None else
      let '(b, result) :=
        try_producer_attempt
          (mkProducerAttempt (next_sequence k) deadline (next_accepted k)) b in
      match par_status result, par_outcome result with
      | AttemptStatus_failure, _ => None
      | AttemptStatus_complete, EnqueueResult_accepted =>
          run_session now rest
            (mkCounters (next_sequence k + 1) (next_accepted k + 1) (next_consumed k)) b
      | AttemptStatus_complete, EnqueueResult_full =>
          run_session now rest
            (mkCounters (next_sequence k + 1) (next_accepted k) (next_consumed k)) b
      end
  | Call_poll :: rest =>
      let '(b, status) := try_consumer_poll (next_consumed k) b in
      match status with
      | ConsumerPollStatus_failure => None
      | ConsumerPollStatus_item =>
          run_session now rest
            (mkCounters (next_sequence k) (next_accepted k) (next_consumed k + 1)) b
      | ConsumerPollStatus_empty => run_session now rest k b
      end
  end.

End Backend.

(** ** What a session leaves behind *)

Definition accepted_observations (obs : list ProducerObservation) : list ProducerObservation :=
  filter (fun o => po_outcome o = ProducerOutcome_accepted) obs.

(** The record an arrival demands, by its logical sequence. *)
Definition record_mapping (arena : EventArena) (n : nat) : list Z :=
  (fun i => (select arena (Z.of_nat i)).1) <$> seq 0 n.

(** A prepared stream of one run with the rows of these observations. *)
Record stream_of {O : Type} (words : O -> list Z) (kind : StreamKind) (run_id : Identifier)
    (s : ObservationStream) (obs : list O) : Prop := {
  so_holds : stream_holds s (words <$> obs);
  so_kind : os_kind s = kind;
  so_run : os_run_id s = run_id;
  so_layout : make_row_layout run_id = Returned (os_layout s)
}.

Section Sessions.

Context {C P : Type} (clock_read : C -> ClockReadResult * C) (now : C -> Z).
Context (Hclock : clock_monotone clock_read now).
Context `{!TimedPackage P} `{!TimedPackageLaws P}.
Context (arena : EventArena) (Harena : arena_wf arena) (Hbase : 0 < arena_storage arena).
Context (run_id : Identifier).

(** The k-th consumer observation is of the k-th accepted one, and later. *)
Definition paired (pobs : list ProducerObservation) (cobs : list ConsumerObservation) : Prop :=
  forall k p c, accepted_observations pobs !! k = Some p -> cobs !! k = Some c ->
    co_observed_record_index c = po_record_index p /\
    forall lin, po_enqueue_linearization p = Some lin ->
      relative_picoseconds lin <= relative_picoseconds (co_dequeue_linearization c).

Record session_inv (k : Counters) (b : CapturingObservationBackend C P)
    (pobs : list ProducerObservation) (cobs : list ConsumerObservation) : Prop := {
  si_producer : stream_of producer_words StreamKind_producer run_id (bk_producer_stream b) pobs;
  si_consumer : stream_of consumer_words StreamKind_consumer run_id (bk_consumer_stream b) cobs;
  si_pcanonical : producers_canonical 0 0 pobs;
  si_ccanonical : consumers_canonical 0 cobs;
  si_sequence : next_sequence k = Z.of_nat (length pobs);
  si_accepted : next_accepted k = Z.of_nat (length (accepted_observations pobs));
  si_consumed : next_consumed k = Z.of_nat (length cobs);
  si_bound : (length cobs <= length (accepted_observations pobs))%nat;
  si_queue : tp_repr (bk_package b)
    (line_at arena <$> drop (length cobs) (po_record_index <$> accepted_observations pobs));
  si_records : po_record_index <$> pobs = record_mapping arena (length pobs);
  si_paired : paired pobs cobs;
  si_past : Forall (fun o => forall lin, po_enqueue_linearization o = Some lin ->
    relative_picoseconds lin <= now (bk_clock b)) pobs;
  si_prows : Forall (producer_row_ok run_id) (make_producer_record run_id <$> pobs);
  si_crows : Forall (consumer_row_ok run_id) (make_consumer_record run_id <$> cobs)
}.

Lemma producers_canonical_app i e obs more :
  producers_canonical i e (obs ++ more) <->
  producers_canonical i e obs /\
  producers_canonical (i + Z.of_nat (length obs))
    (e + Z.of_nat (length (accepted_observations obs))) more.
Proof.
  revert i e. induction obs as [|x obs IH]; intros i e.
  { unfold accepted_observations. rewrite filter_nil. cbn [app length].
    rewrite !Z.add_0_r. split; [intros H; split; [done|exact H] | intros [_ H]; exact H]. }
  cbn [app producers_canonical length]. unfold accepted_observations. rewrite filter_cons.
  destruct (po_outcome x) eqn:Ho; case_decide; try done; cbn [length]; rewrite IH;
    unfold accepted_observations.
  - replace (i + Z.of_nat (S (length obs))) with (i + 1 + Z.of_nat (length obs)) by lia.
    match goal with |- context [e + Z.of_nat (S ?n)] =>
      replace (e + Z.of_nat (S n)) with (e + 1 + Z.of_nat n) by lia end. tauto.
  - replace (i + Z.of_nat (S (length obs))) with (i + 1 + Z.of_nat (length obs)) by lia. tauto.
Qed.

Lemma consumers_canonical_snoc i obs o :
  consumers_canonical i (obs ++ [o]) <->
  consumers_canonical i obs /\ co_consumed_ordinal o = i + Z.of_nat (length obs) /\
  Forall is_u64 (consumer_words o).
Proof.
  revert i. induction obs as [|x obs IH]; intros i; cbn [app consumers_canonical length].
  - rewrite Z.add_0_r. tauto.
  - rewrite IH. replace (i + Z.of_nat (S (length obs))) with (i + 1 + Z.of_nat (length obs)) by lia.
    tauto.
Qed.

Lemma record_mapping_snoc n :
  record_mapping arena (S n) = record_mapping arena n ++ [(select arena (Z.of_nat n)).1].
Proof. unfold record_mapping. rewrite seq_S, fmap_app. done. Qed.

Lemma line_at_inj i j : line_at arena i = line_at arena j -> i = j.
Proof.
  pose proof (aw_line arena Harena) as H. unfold sizeof_EventRecord in H. unfold line_at. nia.
Qed.

Lemma accepted_snoc obs o :
  accepted_observations (obs ++ [o]) =
  accepted_observations obs ++ (if bool_decide (po_outcome o = ProducerOutcome_accepted)
                                then [o] else []).
Proof.
  unfold accepted_observations. rewrite filter_app, filter_cons, filter_nil.
  case_decide; case_bool_decide; done.
Qed.

Lemma accepted_sub obs o : o ∈ accepted_observations obs -> o ∈ obs.
Proof. by intros [_ ?]%list_elem_of_filter. Qed.

(** A captured observation is a canonical row. *)
Lemma captured_producer_row n deadline ordinal index accepted t0 t1 o :
  producer_observation_ok n deadline ordinal index accepted t0 t1 o ->
  is_u64 n -> is_u64 deadline -> is_u64 ordinal -> is_u64 index -> deadline <= t0 ->
  producers_canonical n ordinal [o] /\
  producer_row_ok run_id (make_producer_record run_id o) /\
  (po_outcome o = ProducerOutcome_accepted <-> accepted = true) /\
  (forall lin, po_enqueue_linearization o = Some lin -> relative_picoseconds lin <= t1).
Proof.
  intros (E1 & E2 & E3 & Hs & T1 & T2 & T3 & T4 & T5 & Hacc) Hn Hd Ho Hi Hdue.
  rewrite !Forall_cons in Hs. unfold sample_u64 in Hs.
  destruct Hs as ([? ?] & [? ?] & [? ?] & [? ?] & _).
  assert (is_u64 kProducerAcceptedFlags /\ is_u64 kProducerFullFlags /\ is_u64 0) as (F1 & F2 & F3)
    by (split_and!; unfold is_u64, u64_max, kProducerAcceptedFlags, kProducerFullFlags; lia).
  destruct accepted.
  - destruct Hacc as (Eo & Ea & lin & El & [? ?] & L1 & L2).
    assert (Hw : Forall is_u64 (producer_words o)).
    { unfold producer_words. rewrite E1, E2, E3, Eo, Ea, El. cbn.
      rewrite !Forall_cons, Forall_nil. split_and!; done. }
    split; [|split; [|split; [split; [|rewrite Eo]; done|]]].
    + cbn. rewrite E1, Eo, El, Ea. split_and!; done.
    + unfold producer_row_ok, make_producer_record. cbn. rewrite E3, Eo, El, Ea. cbn.
      split_and!; try done; try lia. by exists (relative_picoseconds lin).
    + intros l. rewrite El. intros [= <-]. lia.
  - destruct Hacc as (Eo & Ea & El).
    assert (Hw : Forall is_u64 (producer_words o)).
    { unfold producer_words. rewrite E1, E2, E3, Eo, Ea, El. cbn.
      rewrite !Forall_cons, Forall_nil. split_and!; done. }
    split; [|split; [|split; [split; [rewrite Eo|]; done|]]].
    + cbn. rewrite E1, Eo, El, Ea. split_and!; done.
    + unfold producer_row_ok, make_producer_record. cbn. rewrite E3, Eo, El, Ea. cbn.
      split_and!; try done; lia.
    + intros l. by rewrite El.
Qed.

Lemma captured_consumer_row ordinal index t0 t1 o :
  consumer_observation_ok ordinal index t0 t1 o -> is_u64 ordinal -> is_u64 index ->
  Forall is_u64 (consumer_words o) /\ consumer_row_ok run_id (make_consumer_record run_id o) /\
  t0 <= relative_picoseconds (co_dequeue_linearization o).
Proof.
  intros (E1 & E2 & Hs & T1 & T2 & T3 & T4 & T5) Ho Hi.
  rewrite !Forall_cons in Hs. unfold sample_u64 in Hs.
  destruct Hs as ([? ?] & [? ?] & [? ?] & [? ?] & _). split_and!.
  - unfold consumer_words. rewrite E1, E2, !Forall_cons, Forall_nil. split_and!; done.
  - unfold consumer_row_ok, make_consumer_record. cbn. split_and!; done || lia.
  - lia.
Qed.

(** A stream has one more row after a completed append. *)
Lemma stream_of_append {O : Type} (words : O -> list Z) kind
    (append : ObservationStream -> O -> ObservationStream * AppendStatus) s obs o s' :
  (forall s rows o s', stream_holds s rows -> os_kind s = kind -> Forall is_u64 (words o) ->
     append s o = (s', AppendStatus_appended) ->
     stream_holds s' (rows ++ [words o]) /\ os_kind s' = os_kind s /\
     os_run_id s' = os_run_id s /\ os_layout s' = os_layout s) ->
  stream_of words kind run_id s obs -> Forall is_u64 (words o) ->
  append s o = (s', AppendStatus_appended) -> stream_of words kind run_id s' (obs ++ [o]).
Proof.
  intros Happend [H1 H2 H3 H4] Hu Ha.
  destruct (Happend _ _ _ _ H1 H2 Hu Ha) as (G1 & G2 & G3 & G4).
  constructor; [by rewrite fmap_app | congruence..|by rewrite G4].
Qed.

(** The number of rows of a stream is a 64-bit value. *)
Lemma stream_of_u64 {O : Type} (words : O -> list Z) kind s (obs : list O) :
  stream_of words kind run_id s obs -> is_u64 (Z.of_nat (length obs)).
Proof.
  intros [[_ _ Hc _ _ _ Hn Hb _] _ _ _]. rewrite length_fmap in Hn. unfold is_u64 in *. lia.
Qed.

Lemma queue_after_accept pobs (cobs : list ConsumerObservation) o index :
  (length cobs <= length (accepted_observations pobs))%nat -> po_record_index o = index ->
  po_outcome o = ProducerOutcome_accepted ->
  line_at arena <$> drop (length cobs) (po_record_index <$> accepted_observations (pobs ++ [o])) =
  (line_at arena <$> drop (length cobs) (po_record_index <$> accepted_observations pobs)) ++
    [line_at arena index].
Proof.
  intros Hle Hi Ho. rewrite accepted_snoc, bool_decide_true, fmap_app, drop_app_le, fmap_app
    by (done || by rewrite length_fmap). simpl. by rewrite Hi.
Qed.

Lemma paired_accept pobs cobs o :
  (length cobs <= length (accepted_observations pobs))%nat ->
  paired pobs cobs -> paired (pobs ++ [o]) cobs.
Proof.
  intros Hle Hp k p c Hk Hc. rewrite accepted_snoc in Hk.
  apply lookup_lt_Some in Hc as Hlt. rewrite lookup_app_l in Hk by lia. by apply (Hp k).
Qed.

Lemma attempt_preserves k b pobs cobs deadline b' result :
  session_inv k b pobs cobs -> is_u64 deadline -> deadline <= now (bk_clock b) ->
  try_producer_attempt clock_read arena
    (mkProducerAttempt (next_sequence k) deadline (next_accepted k)) b = (b', result) ->
  par_status result = AttemptStatus_complete ->
  exists o, po_scheduled_arrival o = deadline /\
    session_inv
      (mkCounters (next_sequence k + 1)
         (match par_outcome result with
          | EnqueueResult_accepted => next_accepted k + 1
          | EnqueueResult_full => next_accepted k
          end) (next_consumed k)) b' (pobs ++ [o]) cobs.
Proof.
  intros Hinv Hd Hdue Htry Hok. unfold try_producer_attempt in Htry. cbn in Htry.
  pose proof (stream_of_u64 _ _ _ _ (si_producer _ _ _ _ Hinv)) as Hn.
  pose proof (si_sequence _ _ _ _ Hinv) as Hseq. pose proof (si_accepted _ _ _ _ Hinv) as Hacc.
  assert (Hle : (length (accepted_observations pobs) <= length pobs)%nat) by apply length_filter.
  pose proof (capture_producer_cases clock_read now Hclock arena (next_sequence k) deadline
    (next_accepted k) (bk_clock b) (bk_package b) _ Harena Hbase ltac:(unfold is_u64 in *; lia)
    (si_queue _ _ _ _ Hinv)) as Hcap.
  destruct (capture_due_producer_attempt _ _ _ _ _ _ _) as [[c' p'] r] eqn:Er.
  destruct Hcap as (_ & Hnow & Hcap).
  destruct (pc_status r) eqn:Es; try done; try (by simplify_eq).
  destruct Hcap as (o & index & Eo & Hsel & Hobs & Hrepr). rewrite Eo in Htry.
  destruct (producer_append (bk_producer_stream b) o) as [stream status] eqn:Ea.
  injection Htry as <- <-. cbn in Hok. destruct status; try done.
  destruct (select_lookup arena Harena (next_sequence k)) as (i & _ & Hi & Hsel');
    [unfold is_u64 in *; lia|]. rewrite Hsel' in Hsel. injection Hsel as <-.
  pose proof (aw_capacity arena Harena) as Hcapacity.
  pose proof Hobs as (_ & Hidx & Harr & _).
  destruct (captured_producer_row _ _ _ _ _ _ _ _ Hobs) as (Hcan & Hrow & Hout & Hlin);
    [unfold is_u64 in *; lia..|].
  exists o. split; [done|].
  assert (Hcan' : producers_canonical 0 0 (pobs ++ [o])).
  { apply producers_canonical_app. split; [apply Hinv|].
    by rewrite !Z.add_0_l, <- Hseq, <- Hacc. }
  destruct Hcan as (_ & Hw & _).
  assert (Hcounter : match outcome_result o with
      | EnqueueResult_accepted => next_accepted k + 1
      | EnqueueResult_full => next_accepted k
      end = Z.of_nat (length (accepted_observations (pobs ++ [o])))).
  { rewrite accepted_snoc, length_app. unfold outcome_result.
    destruct (po_outcome o); case_bool_decide; simpl; try done; lia. }
  constructor; cbn.
  - by apply (stream_of_append _ _ producer_append _ _ _ _ producer_append_holds
      (si_producer _ _ _ _ Hinv)).
  - apply Hinv.
  - done.
  - apply Hinv.
  - rewrite length_app. simpl. lia.
  - done.
  - apply Hinv.
  - rewrite accepted_snoc, length_app. pose proof (si_bound _ _ _ _ Hinv). lia.
  - destruct (Z.of_nat _ <? tp_capacity (bk_package b)) eqn:Hroom.
    + rewrite (queue_after_accept _ _ _ i); [done|apply Hinv|done|by apply Hout].
    + rewrite accepted_snoc, bool_decide_false, app_nil_r; [done|].
      intros E. apply Hout in E. congruence.
  - rewrite fmap_app, length_app. simpl. rewrite Nat.add_1_r, record_mapping_snoc.
    rewrite (si_records _ _ _ _ Hinv), <- Hseq, Hsel'. simpl. by rewrite Hidx.
  - apply paired_accept; apply Hinv.
  - apply Forall_app. split.
    + eapply Forall_impl; [apply Hinv|]. intros x Hx l Hl. specialize (Hx l Hl). lia.
    + constructor; [|constructor]. done.
  - rewrite fmap_app. apply Forall_app. split; [apply Hinv | by constructor].
  - apply Hinv.
Qed.

(** The queue holds records of the arena. *)
Lemma queue_holds_records k b pobs cobs :
  session_inv k b pobs cobs ->
  Forall (fun i => 0 <= i < arena_capacity arena) (po_record_index <$> accepted_observations pobs).
Proof.
  intros Hinv. apply Forall_fmap, Forall_forall. intros o Ho%accepted_sub. simpl.
  apply list_elem_of_lookup in Ho as [i Hi].
  assert (Hm : (po_record_index <$> pobs) !! i = Some (po_record_index o))
    by (by rewrite list_lookup_fmap, Hi).
  rewrite (si_records _ _ _ _ Hinv) in Hm. unfold record_mapping in Hm.
  apply list_lookup_fmap_Some in Hm as (j & Hj & _).
  destruct (select_lookup arena Harena (Z.of_nat j)) as (x & _ & Hx & Hsel); [lia|].
  rewrite Hsel in Hj. simpl in Hj. lia.
Qed.

Lemma paired_consume pobs cobs o p t :
  paired pobs cobs -> accepted_observations pobs !! length cobs = Some p ->
  co_observed_record_index o = po_record_index p ->
  (forall lin, po_enqueue_linearization p = Some lin -> relative_picoseconds lin <= t) ->
  t <= relative_picoseconds (co_dequeue_linearization o) ->
  paired pobs (cobs ++ [o]).
Proof.
  intros Hp Hk Hidx Hlin Ht k q c Hq Hc.
  apply lookup_app_Some in Hc as [Hc|[Hge Hc]]; [by apply (Hp k)|].
  apply list_lookup_singleton_Some in Hc as [Hz <-].
  assert (k = length cobs) as -> by lia. rewrite Hk in Hq. injection Hq as <-.
  split; [done|]. intros lin Hl. specialize (Hlin lin Hl). lia.
Qed.

(** The oldest event of the queue is the next accepted observation. *)
Lemma queue_head pobs (cobs : list ConsumerObservation) index l' :
  line_at arena <$> drop (length cobs) (po_record_index <$> accepted_observations pobs) =
    line_at arena index :: l' ->
  exists p, accepted_observations pobs !! length cobs = Some p /\ index = po_record_index p /\
    l' = line_at arena <$>
      drop (S (length cobs)) (po_record_index <$> accepted_observations pobs).
Proof.
  intros El. assert (Hlt : (length cobs < length (accepted_observations pobs))%nat).
  { apply (f_equal length) in El.
    rewrite length_fmap, length_drop, length_fmap in El. simpl in El. lia. }
  destruct (lookup_lt_is_Some_2 _ _ Hlt) as [p Hp]. exists p. split; [done|].
  rewrite (drop_S _ (po_record_index p) (length cobs)) in El by (by rewrite list_lookup_fmap, Hp).
  simpl in El. injection El as El1 El2. by apply line_at_inj in El1.
Qed.

Lemma poll_preserves k b pobs cobs b' status :
  session_inv k b pobs cobs ->
  try_consumer_poll clock_read arena (next_consumed k) b = (b', status) ->
  status <> ConsumerPollStatus_failure ->
  exists cobs', session_inv
    (mkCounters (next_sequence k) (next_accepted k)
       (match status with
        | ConsumerPollStatus_item => next_consumed k + 1
        | _ => next_consumed k
        end)) b' pobs cobs' /\
    (status = ConsumerPollStatus_empty ->
     length cobs' = length (accepted_observations pobs)).
Proof.
  intros Hinv Htry Hok. unfold try_consumer_poll in Htry.
  pose proof (queue_holds_records _ _ _ _ Hinv) as Hrange.
  set (l := line_at arena <$> drop (length cobs) (po_record_index <$> accepted_observations pobs)).
  assert (Hl : holds_records arena l).
  { apply Forall_fmap, Forall_drop. eapply Forall_impl; [exact Hrange|]. naive_solver. }
  pose proof (capture_consumer_cases clock_read now Hclock arena (next_consumed k) (bk_clock b)
    (bk_package b) (bk_consumer_state b) l Harena (si_queue _ _ _ _ Hinv) Hl) as Hcap.
  destruct (capture_dequeue_poll _ _ _ _ _ _) as [[[c' p'] s'] r] eqn:Er.
  destruct Hcap as (_ & Hnow & Hcap).
  assert (Hpast : Forall (fun o => forall lin, po_enqueue_linearization o = Some lin ->
    relative_picoseconds lin <= now c') pobs).
  { eapply Forall_impl; [apply Hinv|]. intros x Hx lin Hlin. specialize (Hx lin Hlin). lia. }
  destruct (cc_status r) eqn:Es; try (by simplify_eq).
  - destruct Hcap as (o & index & line & l' & Eo & El & _ & _ & Hobs & Hrepr).
    rewrite Eo in Htry. destruct (consumer_append (bk_consumer_stream b) o) as [stream st] eqn:Ea.
    injection Htry as <- <-. destruct st; try done. exists (cobs ++ [o]). split; [|done].
    apply queue_head in El as (p & Hp & -> & ->).
    apply lookup_lt_Some in Hp as Hlt. rewrite Forall_forall in Hrange.
    pose proof (Hrange (po_record_index p) ltac:(apply list_elem_of_fmap; exists p; split;
      [done | by eapply list_elem_of_lookup_2])) as Hi.
    pose proof (aw_capacity arena Harena) as Hcapacity.
    pose proof (stream_of_u64 _ _ _ _ (si_consumer _ _ _ _ Hinv)) as Hn.
    pose proof (si_consumed _ _ _ _ Hinv) as Hcons.
    pose proof Hobs as (Hord & Hidx & _).
    destruct (captured_consumer_row _ _ _ _ _ Hobs) as (Hw & Hrow & Hlin);
      [unfold is_u64 in *; lia..|].
    constructor; cbn; try apply Hinv; try done.
    + by apply (stream_of_append _ _ consumer_append _ _ _ _ consumer_append_holds
        (si_consumer _ _ _ _ Hinv)).
    + apply consumers_canonical_snoc. split; [apply Hinv|]. split; [lia|done].
    + rewrite length_app. simpl. lia.
    + rewrite length_app. simpl. lia.
    + rewrite length_app. simpl. by rewrite Nat.add_1_r.
    + apply (paired_consume _ _ _ p (now (bk_clock b))); [apply Hinv|done..| |done].
      pose proof (si_past _ _ _ _ Hinv) as H. rewrite Forall_forall in H. apply H.
      apply accepted_sub. by eapply list_elem_of_lookup_2.
    + rewrite fmap_app. apply Forall_app. split; [apply Hinv | by constructor].
  - destruct Hcap as (El & Hrepr & _). injection Htry as <- <-. exists cobs.
    assert (Hlen : length cobs = length (accepted_observations pobs)).
    { apply (f_equal length) in El. unfold l in El.
      rewrite length_fmap, length_drop, length_fmap in El. simpl in El.
      pose proof (si_bound _ _ _ _ Hinv). lia. }
    split; [|done]. destruct Hinv. constructor; cbn; try done. fold l. by rewrite El.
Qed.

Definition call_u64 (call : BackendCall) : Prop :=
  match call with Call_attempt deadline => is_u64 deadline | Call_poll => True end.

Lemma session_preserves calls k b pobs cobs k' b' :
  session_inv k b pobs cobs -> Forall call_u64 calls ->
  run_session clock_read arena now calls k b = Some (k', b') ->
  exists pobs' cobs', session_inv k' b' pobs' cobs'.
Proof.
  revert k b pobs cobs. induction calls as [|call calls IH]; intros k b pobs cobs Hinv Hu Hrun.
  { injection Hrun as <- <-. by exists pobs, cobs. }
  apply Forall_cons in Hu as [Hc Hu]. destruct call as [deadline|]; cbn [run_session] in Hrun.
  - destruct (Z.ltb_spec (now (bk_clock b)) deadline) as [|Hdue]; [done|].
    destruct (try_producer_attempt _ _ _ b) as [b1 result] eqn:Ht.
    destruct (par_status result) eqn:Es; [|done].
    destruct (attempt_preserves _ _ _ _ _ _ _ Hinv Hc Hdue Ht Es) as (o & _ & Hi).
    destruct (par_outcome result); by apply (IH _ _ _ _ Hi Hu Hrun).
  - destruct (try_consumer_poll _ _ _ b) as [b1 status] eqn:Ht.
    destruct (poll_preserves _ _ _ _ _ _ Hinv Ht) as (cobs' & Hi & _);
      [by destruct status|].
    destruct k, status; [..|done]; by apply (IH _ _ _ _ Hi Hu Hrun).
Qed.

(** The start of a session. *)
Lemma session_start package clock state ps cs :
  stream_of producer_words StreamKind_producer run_id ps [] ->
  stream_of consumer_words StreamKind_consumer run_id cs [] ->
  tp_repr package [] ->
  session_inv (mkCounters 0 0 0) (mkBackend clock package state ps cs) [] [].
Proof.
  intros Hp Hc Hr. constructor; cbn; try done; constructor.
Qed.

(** Canonical observations give rows that pass the producer checks. *)
Lemma canonical_rows_ok i e obs :
  producers_canonical i e obs ->
  rows_ok run_id i e (po_record_index <$> obs) (make_producer_record run_id <$> obs).
Proof.
  revert i e. induction obs as [|o obs IH]; intros i e H; [done|].
  destruct H as (Hseq & _ & H). cbn [fmap list_fmap rows_ok]. unfold row_ok, row_shape, joins. cbn.
  destruct (po_outcome o).
  - destruct H as ([lin El] & Ea & H). rewrite El, Ea. cbn.
    split; [|by apply IH]. split_and!; naive_solver.
  - destruct H as (El & Ea & H). rewrite El, Ea. cbn.
    split; [|by apply IH]. split_and!; naive_solver.
Qed.

Lemma accepted_rows_fmap obs :
  accepted_rows (make_producer_record run_id <$> obs) =
  make_producer_record run_id <$> accepted_observations obs.
Proof.
  unfold accepted_rows, accepted_observations. induction obs as [|o obs IH]; [done|].
  rewrite fmap_cons, !filter_cons. simpl.
  case_decide; rewrite IH; done.
Qed.

Lemma consumers_canonical_lookup i obs k c :
  consumers_canonical i obs -> obs !! k = Some c -> co_consumed_ordinal c = i + Z.of_nat k.
Proof.
  revert i k. induction obs as [|o obs IH]; intros i k H Hk; [done|].
  destruct H as (Ho & _ & H). destruct k as [|k]; [injection Hk as <-; lia|].
  rewrite (IH _ k H Hk). lia.
Qed.

(** The rows of a drained session are an exact and ordered join. *)
Lemma session_joins k b pobs cobs :
  session_inv k b pobs cobs -> next_consumed k = next_accepted k ->
  exact_join run_id (make_producer_record run_id <$> pobs) (make_consumer_record run_id <$> cobs)
    (record_mapping arena (length pobs)) /\
  ordered_join (make_producer_record run_id <$> pobs) (make_consumer_record run_id <$> cobs).
Proof.
  intros Hinv Hdrained.
  pose proof (canonical_rows_ok 0 0 pobs (si_pcanonical _ _ _ _ Hinv)) as Hrows.
  apply rows_ok_spec in Hrows as [H1 H2]. rewrite (si_records _ _ _ _ Hinv) in H1.
  assert (Hlen : length (record_mapping arena (length pobs)) = length pobs)
    by (unfold record_mapping; by rewrite length_fmap, length_seq).
  pose proof (si_accepted _ _ _ _ Hinv). pose proof (si_consumed _ _ _ _ Hinv).
  assert (Hpair : forall k p c, accepted_rows (make_producer_record run_id <$> pobs) !! k = Some p ->
    (make_consumer_record run_id <$> cobs) !! k = Some c ->
    exists p' c', p = make_producer_record run_id p' /\ c = make_consumer_record run_id c' /\
      accepted_observations pobs !! k = Some p' /\ cobs !! k = Some c').
  { intros j p c. rewrite accepted_rows_fmap.
    intros (p' & -> & Hp)%list_lookup_fmap_Some (c' & -> & Hc)%list_lookup_fmap_Some.
    by exists p', c'. }
  assert (Hexact : exact_join run_id (make_producer_record run_id <$> pobs)
    (make_consumer_record run_id <$> cobs) (record_mapping arena (length pobs))).
  { split_and!; [by rewrite length_fmap, Hlen| |exact H2| |].
    - intros i row Hi. destruct (H1 i row Hi) as (? & ? & He & ?). split_and!; [done|lia| |done].
      apply lookup_lt_Some in Hi. rewrite length_fmap in Hi.
      destruct (lookup_lt_is_Some_2 (record_mapping arena (length pobs)) i) as [e E]; [lia|].
      rewrite E. f_equal. symmetry. by apply He.
    - rewrite accepted_rows_fmap, !length_fmap. lia.
    - intros j p c Hp Hc. destruct (Hpair j p c Hp Hc) as (p' & c' & -> & -> & Hp' & Hc'). cbn.
      split_and!; [done| |by apply (si_paired _ _ _ _ Hinv j p' c')].
      by apply (consumers_canonical_lookup 0 cobs j c' (si_ccanonical _ _ _ _ Hinv)). }
  split; [exact Hexact|]. intros j p c Hp Hc. pose proof (H2 j p Hp) as Hord.
  destruct Hexact as (_ & _ & _ & _ & Hx). destruct (Hx j p c Hp Hc) as (X1 & X2 & X3).
  destruct (Hpair j p c Hp Hc) as (p' & c' & -> & -> & Hp' & Hc').
  pose proof (si_prows _ _ _ _ Hinv) as Hpr. pose proof (si_crows _ _ _ _ Hinv) as Hcr.
  rewrite Forall_fmap, Forall_forall in Hpr. rewrite Forall_fmap, Forall_forall in Hcr.
  specialize (Hpr p' ltac:(apply accepted_sub; by eapply list_elem_of_lookup_2)).
  specialize (Hcr c' ltac:(by eapply list_elem_of_lookup_2)).
  assert (Ho : po_outcome p' = ProducerOutcome_accepted).
  { apply list_elem_of_lookup_2 in Hp'. by apply list_elem_of_filter in Hp' as [? _]. }
  destruct (si_paired _ _ _ _ Hinv j p' c' Hp' Hc') as [_ Hlin].
  unfold producer_row_ok, consumer_row_ok, joinable in *. cbn in *. rewrite Ho in Hpr.
  destruct Hpr as (_ & P1 & P2 & P3 & P4 & _ & lin & P5 & P6 & P7).
  split; [done|]. exists lin. destruct (po_enqueue_linearization p') as [l|]; [|done].
  injection P5 as <-. specialize (Hlin l eq_refl).
  split_and!; try done; try lia. rewrite Hord. f_equal. lia.
Qed.

(** Rows of 64-bit words have 64-bit timestamps. *)
Lemma producer_rows_u64 obs :
  Forall (fun o => Forall is_u64 (producer_words o)) obs ->
  Forall producer_record_u64 (make_producer_record run_id <$> obs).
Proof.
  intros H. apply Forall_fmap. eapply Forall_impl; [exact H|]. intros o Hw.
  unfold producer_words in Hw. rewrite !Forall_cons in Hw. unfold producer_record_u64. cbn.
  rewrite !Forall_cons, Forall_nil. destruct (po_enqueue_linearization o); cbn in *;
    split_and!; tauto.
Qed.

Lemma consumer_rows_u64 obs :
  Forall (fun o => Forall is_u64 (consumer_words o)) obs ->
  Forall consumer_record_u64 (make_consumer_record run_id <$> obs).
Proof.
  intros H. apply Forall_fmap. eapply Forall_impl; [exact H|]. intros o Hw.
  unfold consumer_words in Hw. rewrite !Forall_cons in Hw. unfold consumer_record_u64. cbn.
  rewrite !Forall_cons, Forall_nil. tauto.
Qed.

End Sessions.

Arguments stream_of {O} words kind run_id s obs.

(** A freshly prepared stream has no rows. *)
Lemma prepared_stream_of {O : Type} (words : O -> list Z) kind fresh run_id capacity s s' :
  (forall n, length (fresh n) = n) -> is_u64 capacity ->
  ObservationStream_make kind fresh run_id capacity = Returned s ->
  prepare_for_owner s = (s', true) -> stream_of words kind run_id s' [].
Proof.
  intros Hf Hc Hm Hp. destruct (prepared_stream_holds _ _ _ _ _ Hf Hc Hm)
    as (s1 & E & H1 & H2 & H3 & _ & H4 & _).
  rewrite Hp in E. injection E as <-. by constructor.
Qed.

(** The backend of a run before its first call. *)
Record fresh_backend {C P : Type} `{!TimedPackage P} `{!TimedPackageLaws P} (run_id : Identifier)
    (b : CapturingObservationBackend C P) : Prop := {
  fb_producer : stream_of producer_words StreamKind_producer run_id (bk_producer_stream b) [];
  fb_consumer : stream_of consumer_words StreamKind_consumer run_id (bk_consumer_stream b) [];
  fb_queue : tp_repr (bk_package b) []
}.

(** ** Properties *)


Definition example_prepared (kind : StreamKind) : ObservationStream :=
  match ObservationStream_make kind example_fresh "run1" 4 with
  | Returned s => fst (prepare_for_owner s)
  | Threw _ => example_stream0
  end.

Definition example_backend : CapturingObservationBackend Z Package :=
  mkBackend 5 example_package 11 (example_prepared StreamKind_producer)
    (example_prepared StreamKind_consumer).

Definition example_calls : list BackendCall :=
  [Call_attempt 17; Call_poll; Call_attempt 4000; Call_attempt 4001; Call_poll; Call_poll; Call_poll].

Lemma example_backend_fresh : fresh_backend "run1" example_backend.
Proof.
  constructor; [| |exact example_package_repr].
  - eapply (prepared_stream_of _ _ example_fresh "run1" 4);
      [intros n; apply length_replicate | unfold is_u64, u64_max; lia | vm_compute; reflexivity..].
  - eapply (prepared_stream_of _ _ example_fresh "run1" 4);
      [intros n; apply length_replicate | unfold is_u64, u64_max; lia | vm_compute; reflexivity..].
Qed.

