(* ===== verification/Budget.v ===== *)
(** * Storage budget

    Models [include/cpu_prefetch/storage/budget.hpp] and
    [src/storage/budget.cpp]: the checked byte counts of one run (payload of
    the streams, mapped pages, retained copies) and of a whole Stage A plan. *)

From stdpp Require Import prelude list strings.
From Stdlib Require Import ZArith Lia.
From S2P Require Import Prelude Validation Model Semantic RawObservations.

#[local] Open Scope Z_scope.
#[local] Open Scope checked_scope.

Definition kStageACellsPerBlock : Z := 180.
Definition kTemporaryRawCopies : Z := 1.
Definition kDurableRawCopies : Z := 2.

Record RunStorageInput : Set := mkRunStorageInput {
  rsi_run_id : string;
  rsi_scheduled_rows : Z;
  rsi_accepted_rows : Z;
  rsi_effective_rows : option Z
}.

Record RunStorageBudget : Set := mkRunStorageBudget {
  rsb_run_id : string;
  rsb_producer_row_bytes : Z;
  rsb_consumer_row_bytes : Z;
  rsb_joined_row_bytes : Z;
  rsb_producer_payload_bytes : Z;
  rsb_consumer_payload_bytes : Z;
  rsb_joined_payload_bytes : Z;
  rsb_actual_hot_payload_bytes : Z;
  rsb_conservative_hot_payload_bytes : Z;
  rsb_producer_mapped_bytes : Z;
  rsb_consumer_mapped_bytes : Z;
  rsb_conservative_mapped_hot_bytes : Z;
  rsb_raw_storage_bytes : Z;
  rsb_primary_tail_count_possible : bool;
  rsb_secondary_tail_count_possible : bool
}.

Record AuxiliaryStorageBytes : Set := mkAuxiliaryStorageBytes {
  aux_envelopes : Z;
  aux_integrity_records : Z;
  aux_copy_ledgers : Z;
  aux_schedules : Z;
  aux_manifests : Z;
  aux_filesystem_overhead : Z;
  aux_operator_reserve : Z
}.

Record StageAStorageBudgetRequest : Set := mkStageAStorageBudgetRequest {
  sar_runs : list RunStorageInput;
  sar_r_total : Z;
  sar_block_count : Z;
  sar_verified_base_page_bytes : Z;
  sar_auxiliary : AuxiliaryStorageBytes;
  sar_available_bytes : Z
}.

Record StageAStorageBudget : Set := mkStageAStorageBudget {
  sab_run_count : Z;
  sab_block_count : Z;
  sab_r_total : Z;
  sab_temporary_raw_copies : Z;
  sab_durable_raw_copies : Z;
  sab_raw_storage_bytes : Z;
  sab_auxiliary_and_reserve_bytes : Z;
  sab_required_bytes : Z;
  sab_available_bytes : Z;
  sab_capacity_pass : bool;
  sab_runs : list RunStorageBudget
}.

(** The file-local [checked_add] and [checked_multiply] are those of the other
    storage and protocol files. *)
Definition budget_checked_add : Z -> Z -> option Z := semantic_checked_add.

Definition budget_checked_multiply : Z -> Z -> option Z := raw_checked_multiply.

Definition checked_round_up (value alignment : Z) : option Z :=
  if alignment =? 0 then None
  else
    let remainder := value mod alignment in
    if remainder =? 0 then Some value
    else budget_checked_add value (u64_sub alignment remainder).

Definition budget_fail {A : Type} (path rule message : string) : Result A :=
  fail_with ErrorCategory_out_of_range path rule message.

Definition auxiliary_terms (a : AuxiliaryStorageBytes) : list Z :=
  [aux_envelopes a; aux_integrity_records a; aux_copy_ledgers a; aux_schedules a;
   aux_manifests a; aux_filesystem_overhead a; aux_operator_reserve a].

Fixpoint sum_loop (output : Z) (values : list Z) : option Z :=
  match values with
  | [] => Some output
  | value :: rest => let? output := budget_checked_add output value in sum_loop output rest
  end.

Definition sum_auxiliary (auxiliary : AuxiliaryStorageBytes) : option Z :=
  sum_loop 0 (auxiliary_terms auxiliary).

(** The chain of checked operations of one run, [None] on the first overflow. *)
Definition run_budget_terms (input : RunStorageInput) (layout : RowLayout) (base_page_bytes : Z) :
    option RunStorageBudget :=
  let scheduled := rsi_scheduled_rows input in
  let accepted := rsi_accepted_rows input in
  let? producer := budget_checked_multiply scheduled (rl_producer_row_bytes layout) in
  let? consumer := budget_checked_multiply accepted (rl_consumer_row_bytes layout) in
  let? joined := budget_checked_multiply accepted (rl_joined_row_bytes layout) in
  let? actual_hot := budget_checked_add producer consumer in
  let? conservative_row_pair :=
    budget_checked_add (rl_producer_row_bytes layout) (rl_consumer_row_bytes layout) in
  let? conservative_hot := budget_checked_multiply scheduled conservative_row_pair in
  let? producer_mapped := checked_round_up producer base_page_bytes in
  let? consumer_conservative :=
    budget_checked_multiply scheduled (rl_consumer_row_bytes layout) in
  let? consumer_mapped := checked_round_up consumer_conservative base_page_bytes in
  let? mapped_hot := budget_checked_add producer_mapped consumer_mapped in
  let? raw_pair := budget_checked_add producer consumer in
  let? raw_three :=
    budget_checked_multiply (kTemporaryRawCopies + kDurableRawCopies) raw_pair in
  let? joined_two := budget_checked_multiply kDurableRawCopies joined in
  let? raw_total := budget_checked_add raw_three joined_two in
  let effective := default 0 (rsi_effective_rows input) in
  let has_effective := bool_decide (is_Some (rsi_effective_rows input)) in
  Some (mkRunStorageBudget (rsi_run_id input) (rl_producer_row_bytes layout)
    (rl_consumer_row_bytes layout) (rl_joined_row_bytes layout) producer consumer joined
    actual_hot conservative_hot producer_mapped consumer_mapped mapped_hot raw_total
    (has_effective && (effective >=? 200000)) (has_effective && (effective >=? 2000000))).

Definition checked_run_storage_budget (input : RunStorageInput) (base_page_bytes : Z) :
    Result RunStorageBudget :=
  if base_page_bytes =? 0 then
    budget_fail "$input/verified_base_page_bytes" "STO-PAGE-NONZERO"
      "verified base-page bytes must be explicit and nonzero"
  else if rsi_accepted_rows input >? rsi_scheduled_rows input then
    budget_fail "$input/accepted_rows" "STO-ACCEPTED-BOUND"
      "accepted rows cannot exceed scheduled rows"
  else if match rsi_effective_rows input with
          | Some effective => effective >? rsi_accepted_rows input
          | None => false
          end then
    budget_fail "$input/effective_rows" "STO-NEFF-BOUND"
      "effective rows cannot exceed accepted rows"
  else
    match make_row_layout (rsi_run_id input) with
    | Threw what => budget_fail "$input/run_id" "STO-RUN-ID" what
    | Returned layout =>
        match run_budget_terms input layout base_page_bytes with
        | None =>
            budget_fail "$input" "STO-RUN-BUDGET-OVERFLOW"
              "run storage budget arithmetic overflows uint64"
        | Some budget => success budget
        end
    end.

(** [path.substr(6)]: every path of a run's errors starts with [$input]. *)
Definition reroot (index : Z) (error : ValidationError) : ValidationError :=
  mkError (category error)
    ("$input/runs/" +:+ std_to_string index +:+
     String.substring 6 (String.length (path error) - 6) (path error))
    (rule_id error) (message error).

(** The loop over the runs: the accumulated raw bytes and the budgets. *)
Fixpoint plan_loop (index raw_total base_page_bytes : Z) (runs : list RunStorageInput) :
    Result (Z * list RunStorageBudget) :=
  match runs with
  | [] => success (raw_total, [])
  | run :: rest =>
      match checked_run_storage_budget run base_page_bytes with
      | failure errors => failure (reroot index <$> errors)
      | success budget =>
          match budget_checked_add raw_total (rsb_raw_storage_bytes budget) with
          | None =>
              budget_fail "$input/runs" "STO-PLAN-RAW-OVERFLOW"
                "aggregate raw-storage bytes overflow uint64"
          | Some raw_total =>
              match plan_loop (index + 1) raw_total base_page_bytes rest with
              | failure errors => failure errors
              | success (total, budgets) => success (total, budget :: budgets)
              end
          end
      end
  end.

Definition checked_stage_a_storage_budget (request : StageAStorageBudgetRequest) :
    Result StageAStorageBudget :=
  if (sar_r_total request =? 0) || (sar_block_count request =? 0) then
    budget_fail "$input/r_total" "STO-RUN-PLAN-NONZERO"
      "Rtotal and block count must be explicit and nonzero"
  else if negb (sar_r_total request =? sar_block_count request) then
    budget_fail "$input/block_count" "STO-BLOCK-RUN-PLAN"
      "the Stage A plan must explicitly bind one 180-cell block per Rtotal unit"
  else
    match budget_checked_multiply kStageACellsPerBlock (sar_r_total request) with
    | Some expected_runs =>
        if negb (expected_runs =? Z.of_nat (length (sar_runs request))) then
          budget_fail "$input/runs" "STO-STAGE-A-RUN-COUNT"
            "Stage A storage proof requires exactly 180*Rtotal concrete run terms"
        else if sar_available_bytes request =? 0 then
          budget_fail "$input/available_bytes" "STO-AVAILABLE-EXPLICIT"
            "available storage must be independently observed and explicitly nonzero"
        else
          match plan_loop 0 0 (sar_verified_base_page_bytes request) (sar_runs request) with
          | failure errors => failure errors
          | success (raw_total, run_budgets) =>
              match (let? auxiliary := sum_auxiliary (sar_auxiliary request) in
                     let? required := budget_checked_add raw_total auxiliary in
                     Some (auxiliary, required)) with
              | None =>
                  budget_fail "$input/auxiliary" "STO-PLAN-AUX-OVERFLOW"
                    "aggregate auxiliary/reserve bytes overflow uint64"
              | Some (auxiliary, required) =>
                  success (mkStageAStorageBudget expected_runs (sar_block_count request)
                    (sar_r_total request) kTemporaryRawCopies kDurableRawCopies raw_total
                    auxiliary required (sar_available_bytes request)
                    (sar_available_bytes request >=? required) run_budgets)
              end
          end
    | None =>
        budget_fail "$input/runs" "STO-STAGE-A-RUN-COUNT"
          "Stage A storage proof requires exactly 180*Rtotal concrete run terms"
    end.

(** ** Reference values *)

(** The least multiple of [page] that is not below [value]. *)
Definition round_up_to (value page : Z) : Z := value + (- value) mod page.

Definition mapped_bytes (input : RunStorageInput) (layout : RowLayout) (page : Z) : Z :=
  round_up_to (rsi_scheduled_rows input * rl_producer_row_bytes layout) page +
  round_up_to (rsi_scheduled_rows input * rl_consumer_row_bytes layout) page.

Definition raw_bytes (input : RunStorageInput) (layout : RowLayout) : Z :=
  3 * (rsi_scheduled_rows input * rl_producer_row_bytes layout +
       rsi_accepted_rows input * rl_consumer_row_bytes layout) +
  2 * (rsi_accepted_rows input * rl_joined_row_bytes layout).

Definition run_input_u64 (input : RunStorageInput) : Prop :=
  is_u64 (rsi_scheduled_rows input) /\ is_u64 (rsi_accepted_rows input).

(** ** Lemmas *)

Lemma budget_add_iff a b r :
  is_u64 a -> is_u64 b -> budget_checked_add a b = Some r <-> r = a + b /\ a + b <= u64_max.
Proof.
  intros Ha Hb. unfold budget_checked_add. rewrite semantic_checked_add_spec by done.
  destruct (Z.leb_spec (a + b) u64_max); split; [intros [= <-]|intros [-> _]|done|]; done || lia.
Qed.

Lemma round_up_bounds value page :
  0 < page -> value <= round_up_to value page < value + page /\ round_up_to value page mod page = 0.
Proof.
  intros Hp. unfold round_up_to. pose proof (Z.mod_pos_bound (- value) page Hp).
  split; [lia|]. rewrite Zplus_mod_idemp_r. by rewrite Z.add_opp_diag_r.
Qed.

Lemma round_up_iff value page r :
  is_u64 value -> is_u64 page -> page <> 0 ->
  checked_round_up value page = Some r <->
  r = round_up_to value page /\ round_up_to value page <= u64_max.
Proof.
  intros Hv Hp Hne. unfold checked_round_up, round_up_to. rewrite (proj2 (Z.eqb_neq _ _) Hne).
  pose proof (Z.mod_pos_bound value page ltac:(int_lia)).
  destruct (Z.eqb_spec (value mod page) 0) as [E|E].
  - rewrite (Z_mod_zero_opp_full _ _ E), Z.add_0_r. unfold is_u64 in Hv.
    split; [intros [= <-] | intros [-> _]]; done || lia.
  - rewrite (Z_mod_nz_opp_full _ _ E). rewrite u64_sub_small by int_lia.
    apply budget_add_iff; [done | int_lia].
Qed.

Lemma layout_row_bounds run_id layout :
  make_row_layout run_id = Returned layout ->
  0 < rl_producer_row_bytes layout <= 8589934592 /\
  0 < rl_consumer_row_bytes layout <= 8589934592 /\
  0 < rl_joined_row_bytes layout <= 8589934592.
Proof.
  intros [Hl _]%make_row_layout_ok. destruct Hl as [Hnn Hid Hpre _ Hrows].
  pose proof (Hrows StreamKind_producer) as H1. pose proof (Hrows StreamKind_consumer) as H2.
  pose proof (Hrows StreamKind_joined_derived) as H3. simpl in H1, H2, H3. int_lia.
Qed.

(** Invert one checked step of a chain. *)
Ltac checked_step H :=
  match type of H with
  | context [match ?e with Some _ => _ | None => _ end] =>
      let E := fresh "E" in destruct e eqn:E; [|discriminate H];
      first [ apply raw_checked_multiply_spec in E; [|int_lia..]
            | apply budget_add_iff in E; [|int_lia..]
            | apply round_up_iff in E; [|int_lia..] ];
      destruct E as [-> E]
  end.

(** Replay one checked step that fits. *)
Ltac checked_replay :=
  let replay e r lemma :=
    let E := fresh in
    assert (e = Some r) as E by (apply lemma; [int_lia..|split; [reflexivity|int_lia]]);
    rewrite E; clear E in
  match goal with
  | |- context [raw_checked_multiply ?a ?b] => replay (raw_checked_multiply a b) (a * b)
      raw_checked_multiply_spec
  | |- context [budget_checked_add ?a ?b] => replay (budget_checked_add a b) (a + b)
      budget_add_iff
  | |- context [checked_round_up ?a ?b] => replay (checked_round_up a b) (round_up_to a b)
      round_up_iff
  end.

(** The products of row counts and row sizes, as facts for [lia]. *)
Lemma row_products s a p c j :
  is_u64 s -> is_u64 a -> a <= s -> 0 < p <= 8589934592 -> 0 < c <= 8589934592 ->
  0 < j <= 8589934592 ->
  0 <= s * p /\ 0 <= a * c <= s * c /\ 0 <= a * j.
Proof. unfold is_u64. intros. split_and!; nia. Qed.

Section RunTerms.

Context (input : RunStorageInput) (layout : RowLayout) (page : Z).
Context (Hinput : run_input_u64 input) (Hlayout : make_row_layout (rsi_run_id input) = Returned layout).
Context (Hpage : is_u64 page) (Hpage0 : page <> 0).
Context (Haccepted : rsi_accepted_rows input <= rsi_scheduled_rows input).

Lemma run_terms_fit :
  (exists b, run_budget_terms input layout page = Some b) <->
  mapped_bytes input layout page <= u64_max /\ raw_bytes input layout <= u64_max.
Proof.
  destruct Hinput as [Hs Ha]. pose proof (layout_row_bounds _ _ Hlayout) as (B1 & B2 & B3).
  pose proof (row_products _ _ _ _ _ Hs Ha Haccepted B1 B2 B3) as (N1 & N2 & N3).
  pose proof (round_up_bounds (rsi_scheduled_rows input * rl_producer_row_bytes layout) page
    ltac:(int_lia)) as [U1 _].
  pose proof (round_up_bounds (rsi_scheduled_rows input * rl_consumer_row_bytes layout) page
    ltac:(int_lia)) as [U2 _].
  unfold run_budget_terms, mapped_bytes, raw_bytes, budget_checked_multiply, kTemporaryRawCopies,
    kDurableRawCopies. cbv zeta.
  split.
  - intros [b H]. repeat checked_step H. split; lia.
  - intros [F1 F2]. eexists. repeat checked_replay. reflexivity.
Qed.

Lemma run_terms_exact b :
  run_budget_terms input layout page = Some b ->
  rsb_producer_payload_bytes b = rsi_scheduled_rows input * rl_producer_row_bytes layout /\
  rsb_consumer_payload_bytes b = rsi_accepted_rows input * rl_consumer_row_bytes layout /\
  rsb_joined_payload_bytes b = rsi_accepted_rows input * rl_joined_row_bytes layout /\
  rsb_producer_mapped_bytes b =
    round_up_to (rsi_scheduled_rows input * rl_producer_row_bytes layout) page /\
  rsb_consumer_mapped_bytes b =
    round_up_to (rsi_scheduled_rows input * rl_consumer_row_bytes layout) page /\
  rsb_conservative_mapped_hot_bytes b = mapped_bytes input layout page /\
  rsb_actual_hot_payload_bytes b <= rsb_conservative_hot_payload_bytes b /\
  rsb_conservative_hot_payload_bytes b <= rsb_conservative_mapped_hot_bytes b /\
  rsb_raw_storage_bytes b = raw_bytes input layout /\ is_u64 (rsb_raw_storage_bytes b).
Proof.
  destruct Hinput as [Hs Ha]. pose proof (layout_row_bounds _ _ Hlayout) as (B1 & B2 & B3).
  pose proof (row_products _ _ _ _ _ Hs Ha Haccepted B1 B2 B3) as (N1 & N2 & N3).
  pose proof (round_up_bounds (rsi_scheduled_rows input * rl_producer_row_bytes layout) page
    ltac:(int_lia)) as [U1 _].
  pose proof (round_up_bounds (rsi_scheduled_rows input * rl_consumer_row_bytes layout) page
    ltac:(int_lia)) as [U2 _].
  unfold run_budget_terms, mapped_bytes, raw_bytes, budget_checked_multiply, kTemporaryRawCopies,
    kDurableRawCopies. cbv zeta. intros H. repeat checked_step H. injection H as <-. cbn.
  split_and!; done || int_lia.
Qed.

End RunTerms.

Lemma run_budget_cases input page :
  run_input_u64 input -> is_u64 page ->
  match checked_run_storage_budget input page with
  | success b => exists layout, page <> 0 /\ make_row_layout (rsi_run_id input) = Returned layout /\
      rsi_accepted_rows input <= rsi_scheduled_rows input /\
      run_budget_terms input layout page = Some b
  | failure _ => page = 0 \/ rsi_scheduled_rows input < rsi_accepted_rows input \/
      (exists e, rsi_effective_rows input = Some e /\ rsi_accepted_rows input < e) \/
      (exists what, make_row_layout (rsi_run_id input) = Threw what) \/
      (exists layout, make_row_layout (rsi_run_id input) = Returned layout /\
         rsi_accepted_rows input <= rsi_scheduled_rows input /\
         run_budget_terms input layout page = None)
  end.
Proof.
  intros Hu Hp. unfold checked_run_storage_budget, budget_fail, fail_with.
  destruct (Z.eqb_spec page 0); [by left|].
  destruct (Z.gtb_spec (rsi_accepted_rows input) (rsi_scheduled_rows input)); [right; left; lia|].
  destruct (match rsi_effective_rows input with Some _ => _ | None => _ end) eqn:He.
  { right; right; left. destruct (rsi_effective_rows input) as [e|]; [|done].
    apply Z.gtb_lt in He. by exists e. }
  destruct (make_row_layout (rsi_run_id input)) as [layout|what] eqn:El.
  - destruct (run_budget_terms input layout page) eqn:Eb; [by exists layout|].
    right; right; right; right. by exists layout.
  - right; right; right; left. by exists what.
Qed.

Definition z_sum (l : list Z) : Z := foldr Z.add 0 l.

Lemma z_sum_nonneg l : Forall is_u64 l -> 0 <= z_sum l.
Proof. induction 1 as [|x l Hx Hl IH]; simpl; [done|]. unfold is_u64, z_sum in *. lia. Qed.

Lemma sum_loop_iff output values r :
  is_u64 output -> Forall is_u64 values ->
  sum_loop output values = Some r <-> r = output + z_sum values /\ output + z_sum values <= u64_max.
Proof.
  revert output. induction values as [|v values IH]; intros output Ho Hv; cbn [sum_loop z_sum foldr].
  - rewrite Z.add_0_r. unfold is_u64 in Ho. split; [intros [= <-] | intros [-> _]]; done || lia.
  - apply Forall_cons in Hv as [Hv Hvs]. fold (z_sum values).
    pose proof (z_sum_nonneg values Hvs).
    destruct (budget_checked_add output v) as [o|] eqn:E.
    + apply budget_add_iff in E as [-> E]; [|done..]. rewrite IH by (done || int_lia).
      rewrite Z.add_assoc. done.
    + split; [done|]. intros [_ Hle]. assert (budget_checked_add output v = Some (output + v)) as E'.
      { apply budget_add_iff; [done..|]. split; [done|]. lia. }
      congruence.
Qed.

(** The last two sums of a plan. *)
Lemma budget_sums auxiliary raw a r :
  Forall is_u64 (auxiliary_terms auxiliary) -> is_u64 raw ->
  (let? auxiliary := sum_auxiliary auxiliary in
   let? required := budget_checked_add raw auxiliary in Some (auxiliary, required)) = Some (a, r) <->
  a = z_sum (auxiliary_terms auxiliary) /\ r = raw + a /\ r <= u64_max.
Proof.
  intros Hu Hraw. pose proof (z_sum_nonneg _ Hu) as Hnn.
  unfold sum_auxiliary. split.
  - destruct (sum_loop _ _) as [x|] eqn:E; [|done].
    apply sum_loop_iff in E as [-> E]; [|unfold is_u64, u64_max; lia|done]. rewrite Z.add_0_l in *.
    destruct (budget_checked_add raw _) as [y|] eqn:Ea; [|done].
    apply budget_add_iff in Ea as [-> Ea]; [|done|int_lia]. intros [= <- <-]. split_and!; done.
  - intros (-> & -> & Hle).
    assert (sum_loop 0 (auxiliary_terms auxiliary) = Some (z_sum (auxiliary_terms auxiliary))) as ->.
    { apply sum_loop_iff; [unfold is_u64, u64_max; lia|done|]. rewrite Z.add_0_l.
      split; [done|int_lia]. }
    assert (budget_checked_add raw (z_sum (auxiliary_terms auxiliary)) =
      Some (raw + z_sum (auxiliary_terms auxiliary))) as ->; [|done].
    apply budget_add_iff; [done|int_lia|]. done.
Qed.

Lemma run_budget_raw_u64 run page b :
  run_input_u64 run -> is_u64 page -> checked_run_storage_budget run page = success b ->
  is_u64 (rsb_raw_storage_bytes b).
Proof.
  intros Hr Hp Hb. pose proof (run_budget_cases run page Hr Hp) as Hc. rewrite Hb in Hc.
  destruct Hc as (layout & Hp0 & El & Ha & Et).
  by pose proof (run_terms_exact _ _ _ Hr El Hp Hp0 Ha b Et)
    as (_ & _ & _ & _ & _ & _ & _ & _ & _ & ?).
Qed.

(** The budgets of a plan: one per run, in order. *)
Definition run_budgets (page : Z) (runs : list RunStorageInput) (budgets : list RunStorageBudget) :
    Prop :=
  Forall2 (fun run b => checked_run_storage_budget run page = success b) runs budgets.

Definition total_raw (budgets : list RunStorageBudget) : Z :=
  z_sum (rsb_raw_storage_bytes <$> budgets).

Section Plans.

Context (page : Z) (Hpage : is_u64 page).

Lemma total_raw_nonneg runs budgets :
  Forall run_input_u64 runs -> run_budgets page runs budgets -> 0 <= total_raw budgets.
Proof.
  intros Hu H. revert Hu. induction H as [|r b rs bs Hb _ IH]; intros Hu; [done|].
  apply Forall_cons in Hu as [Hr Hu]. specialize (IH Hu).
  pose proof (run_budget_raw_u64 _ _ _ Hr Hpage Hb) as Hu'. unfold is_u64 in Hu'.
  change (total_raw (b :: bs)) with (rsb_raw_storage_bytes b + total_raw bs). lia.
Qed.

(** A loop that returns has a budget for every run and their exact sum. *)
Lemma plan_loop_sound index raw runs total budgets :
  Forall run_input_u64 runs -> is_u64 raw ->
  plan_loop index raw page runs = success (total, budgets) ->
  run_budgets page runs budgets /\ total = raw + total_raw budgets /\ total <= u64_max.
Proof.
  intros Hu. revert index raw total budgets.
  induction Hu as [|run runs Hr _ IH]; intros index raw total budgets Hraw H; cbn [plan_loop] in H.
  { injection H as <- <-. unfold is_u64 in Hraw. split_and!; [constructor| |done || lia].
    unfold total_raw. cbn. lia. }
  destruct (checked_run_storage_budget run page) as [b|] eqn:Eb; [|done].
  pose proof (run_budget_raw_u64 _ _ _ Hr Hpage Eb) as Hb.
  destruct (budget_checked_add raw _) as [raw'|] eqn:Ea; [|done].
  apply budget_add_iff in Ea as [-> Ea]; [|done..].
  destruct (plan_loop _ _ _ runs) as [[t bs]|] eqn:El; [|done]. injection H as <- <-.
  apply IH in El as (H1 & -> & H3); [|int_lia].
  split_and!; [by constructor| |done]. 
  change (total_raw (b :: bs)) with (rsb_raw_storage_bytes b + total_raw bs). lia.
Qed.

(** The loop returns whenever every run has a budget and the sum fits. *)
Lemma plan_loop_complete index raw runs budgets :
  Forall run_input_u64 runs -> is_u64 raw -> run_budgets page runs budgets ->
  raw + total_raw budgets <= u64_max ->
  plan_loop index raw page runs = success (raw + total_raw budgets, budgets).
Proof.
  intros Hu Hraw H. revert index raw Hu Hraw.
  induction H as [|run b runs bs Hb Hbs IH]; intros index raw Hu Hraw Hle; cbn [plan_loop].
  { unfold total_raw. cbn. by rewrite Z.add_0_r. }
  apply Forall_cons in Hu as [Hr Hu]. rewrite Hb.
  pose proof (run_budget_raw_u64 _ _ _ Hr Hpage Hb) as Hbu.
  pose proof (total_raw_nonneg _ _ Hu Hbs) as Hnn.
  assert (Et : total_raw (b :: bs) = rsb_raw_storage_bytes b + total_raw bs) by done.
  assert (Ea : budget_checked_add raw (rsb_raw_storage_bytes b) =
    Some (raw + rsb_raw_storage_bytes b)).
  { apply budget_add_iff; [done..|]. split; [done|lia]. }
  rewrite Ea, IH by (done || int_lia). by rewrite Et, Z.add_assoc.
Qed.

End Plans.

(** The bytes of a stream image. *)
Lemma image_bytes kind run_id layout rows n :
  make_row_layout run_id = Returned layout -> Forall (row_words_ok kind) rows ->
  Z.of_nat (length rows) = n ->
  Z.of_nat (length (rows_image layout run_id rows)) = n * expected_row_bytes kind layout.
Proof.
  intros El Hrows <-. pose proof El as [Hl _]%make_row_layout_ok.
  rewrite (length_rows_image run_id layout Hl kind) by (by apply rows_lengths).
  pose proof (layout_row_bounds _ _ El) as (B1 & B2 & B3).
  rewrite Nat2Z.inj_mul, Z2Nat.id; [done|]. destruct kind; cbn; lia.
Qed.

Definition request_u64 (request : StageAStorageBudgetRequest) : Prop :=
  Forall run_input_u64 (sar_runs request) /\ is_u64 (sar_verified_base_page_bytes request) /\
  Forall is_u64 (auxiliary_terms (sar_auxiliary request)) /\ is_u64 (sar_r_total request) /\
  Z.of_nat (length (sar_runs request)) <= u64_max.

Lemma cells_iff r n :
  is_u64 r ->
  budget_checked_multiply kStageACellsPerBlock r = Some n <-> n = 180 * r /\ 180 * r <= u64_max.
Proof.
  intros Hr. apply raw_checked_multiply_spec; [|done].
  unfold is_u64, u64_max, kStageACellsPerBlock. lia.
Qed.

(** What a plan with a budget satisfies. *)
Lemma stage_a_budget_inv request plan :
  request_u64 request -> checked_stage_a_storage_budget request = success plan ->
  run_budgets (sar_verified_base_page_bytes request) (sar_runs request) (sab_runs plan) /\
  sab_run_count plan = 180 * sar_r_total request /\
  sab_required_bytes plan =
    total_raw (sab_runs plan) + z_sum (auxiliary_terms (sar_auxiliary request)) /\
  (sab_capacity_pass plan = true <-> sab_required_bytes plan <= sar_available_bytes request) /\
  sar_r_total request <> 0 /\ sar_r_total request = sar_block_count request /\
  Z.of_nat (length (sar_runs request)) = 180 * sar_r_total request /\
  sar_available_bytes request <> 0 /\ sab_required_bytes plan <= u64_max.
Proof.
  intros (Hruns & Hpage & Haux & Hr & Hlen) H. unfold checked_stage_a_storage_budget in H.
  destruct (_ || _) eqn:E1; [done|]. destruct (negb (_ =? sar_block_count _)) eqn:E2; [done|].
  destruct (budget_checked_multiply _ _) as [n|] eqn:En; [|done].
  apply cells_iff in En as [-> _]; [|done].
  destruct (negb (_ =? Z.of_nat _)) eqn:E3; [done|].
  destruct (sar_available_bytes request =? 0) eqn:E4; [done|].
  destruct (plan_loop _ _ _ _) as [[raw budgets]|] eqn:Ep; [|done].
  apply (plan_loop_sound _ Hpage) in Ep as (F & -> & Hle); [|done|unfold is_u64, u64_max; lia].
  pose proof (total_raw_nonneg _ Hpage _ _ Hruns F).
  destruct (match sum_auxiliary _ with Some _ => _ | None => _ end) as [[a r]|] eqn:Es; [|done].
  apply budget_sums in Es as (-> & -> & Hr'); [|done|int_lia]. injection H as <-. cbn.
  rewrite Z.geb_leb, Z.leb_le.
  split_and!; done || lia.
Qed.

Lemma stage_a_budget_total request budgets :
  request_u64 request -> sar_r_total request <> 0 ->
  sar_r_total request = sar_block_count request ->
  Z.of_nat (length (sar_runs request)) = 180 * sar_r_total request ->
  sar_available_bytes request <> 0 ->
  run_budgets (sar_verified_base_page_bytes request) (sar_runs request) budgets ->
  total_raw budgets + z_sum (auxiliary_terms (sar_auxiliary request)) <= u64_max ->
  exists plan, checked_stage_a_storage_budget request = success plan.
Proof.
  intros (Hruns & Hpage & Haux & Hr & Hlen) H1 H2 H3 H4 F Hle.
  pose proof (total_raw_nonneg _ Hpage _ _ Hruns F) as Hn1. pose proof (z_sum_nonneg _ Haux) as Hn2.
  unfold checked_stage_a_storage_budget.
  rewrite <- H2, (proj2 (Z.eqb_neq _ _) H1). cbn [orb]. rewrite Z.eqb_refl. cbn [negb].
  rewrite (proj2 (cells_iff _ (180 * sar_r_total request) Hr)) by (split; [done|lia]).
  rewrite H3, Z.eqb_refl, (proj2 (Z.eqb_neq _ _) H4). cbn [negb].
  rewrite (plan_loop_complete _ Hpage 0 0 _ budgets Hruns); [|unfold is_u64, u64_max; lia|done|lia].
  pose proof (proj2 (budget_sums _ (0 + total_raw budgets) _ _ Haux ltac:(int_lia))
    (conj eq_refl (conj eq_refl Hle))) as Hsum. rewrite Hsum. by eexists.
Qed.

(** ** Properties *)

(** Budget of one run: for 64-bit row counts the budget exists exactly when
    the page size is not zero, the row counts are ordered, the run identifier has
    a row layout and two sums fit in 64 bits (mapped pages, retained copies); no
    other step of the chain can overflow. Its figures are exact, the mapped sizes
    are the least page multiples, and the payload is the size of the bytes that
    the streams of the run hold. *)
Theorem run_storage_budget_exact input page :
  run_input_u64 input -> is_u64 page ->
  ((exists b, checked_run_storage_budget input page = success b) <->
   page <> 0 /\ rsi_accepted_rows input <= rsi_scheduled_rows input /\
   (forall e, rsi_effective_rows input = Some e -> e <= rsi_accepted_rows input) /\
   exists layout, make_row_layout (rsi_run_id input) = Returned layout /\
     mapped_bytes input layout page <= u64_max /\ raw_bytes input layout <= u64_max) /\
  (forall b layout, checked_run_storage_budget input page = success b ->
     make_row_layout (rsi_run_id input) = Returned layout ->
     rsb_raw_storage_bytes b = raw_bytes input layout /\
     rsb_conservative_mapped_hot_bytes b = mapped_bytes input layout page /\
     rsb_producer_mapped_bytes b mod page = 0 /\
     rsb_producer_payload_bytes b <= rsb_producer_mapped_bytes b <
       rsb_producer_payload_bytes b + page /\
     rsb_actual_hot_payload_bytes b <= rsb_conservative_mapped_hot_bytes b /\
     (forall rows, Forall (row_words_ok StreamKind_producer) rows ->
        Z.of_nat (length rows) = rsi_scheduled_rows input ->
        Z.of_nat (length (rows_image layout (rsi_run_id input) rows)) =
          rsb_producer_payload_bytes b) /\
     (forall rows, Forall (row_words_ok StreamKind_consumer) rows ->
        Z.of_nat (length rows) = rsi_accepted_rows input ->
        Z.of_nat (length (rows_image layout (rsi_run_id input) rows)) =
          rsb_consumer_payload_bytes b)).
Proof.
  intros Hu Hp. split.
  - split.
    + intros [b Hb]. unfold checked_run_storage_budget in Hb.
      destruct (Z.eqb_spec page 0); [done|].
      destruct (Z.gtb_spec (rsi_accepted_rows input) (rsi_scheduled_rows input)); [done|].
      destruct (match rsi_effective_rows input with Some _ => _ | None => _ end) eqn:He; [done|].
      destruct (make_row_layout (rsi_run_id input)) as [layout|what] eqn:El; [|done].
      destruct (run_budget_terms input layout page) eqn:Eb; [|done].
      split_and!; [done|done| |].
      * intros e E. rewrite E in He. lia.
      * exists layout. split; [done|]. apply (run_terms_fit input layout page Hu El Hp); eauto.
    + intros (H1 & H2 & H3 & layout & El & Hfit). unfold checked_run_storage_budget.
      rewrite (proj2 (Z.eqb_neq _ _) H1), Z.gtb_ltb, (proj2 (Z.ltb_ge _ _)) by lia.
      replace (match rsi_effective_rows input with Some _ => _ | None => _ end) with false.
      2: { destruct (rsi_effective_rows input) as [e|]; [|done]. specialize (H3 e eq_refl).
           symmetry. rewrite Z.gtb_ltb. by apply Z.ltb_ge. }
      rewrite El. apply (run_terms_fit input layout page Hu El Hp) in Hfit as [b ->]; [|done..].
      by exists b.
  - intros b layout Hb El. pose proof (run_budget_cases input page Hu Hp) as Hc. rewrite Hb in Hc.
    destruct Hc as (layout' & Hp0 & El' & Ha & Et). assert (layout' = layout) as -> by congruence.
    pose proof (run_terms_exact _ _ _ Hu El Hp Hp0 Ha b Et)
      as (E1 & E2 & _ & E4 & _ & E6 & E7 & E8 & E9 & _).
    destruct (round_up_bounds (rsi_scheduled_rows input * rl_producer_row_bytes layout) page
      ltac:(int_lia)) as [U1 U2].
    split_and!; try done; try lia; try (by rewrite E4).
    + intros rows Hrows Hn. rewrite E1. by apply (image_bytes StreamKind_producer).
    + intros rows Hrows Hn. rewrite E2. by apply (image_bytes StreamKind_consumer).
Qed.

Lemma run_storage_budget_exact_witness :
  exists b, checked_run_storage_budget (mkRunStorageInput "run1" 1000 900 (Some 800)) 4096 =
    success b.
Proof.
  apply (run_storage_budget_exact (mkRunStorageInput "run1" 1000 900 (Some 800)) 4096).
  - unfold run_input_u64, is_u64, u64_max. simpl. lia.
  - unfold is_u64, u64_max. lia.
  - simpl. split_and!; [lia|lia| |].
    + intros e [= <-]. lia.
    + eexists. split; [vm_compute; reflexivity|]. vm_compute. split; discriminate.
Defined.


Definition example_request : StageAStorageBudgetRequest :=
  mkStageAStorageBudgetRequest (replicate 180 (mkRunStorageInput "run1" 10 9 None)) 1 1 4096
    (mkAuxiliaryStorageBytes 1 2 3 4 5 6 7) 1000000.

