(* ===== verification/Binary64.v ===== *)
(** * Binary64 arithmetic

    The operations of C++ on [double] that the analysis uses, as the IEEE 754
    binary64 functions of the Standard Library's [SpecFloat] (round to nearest,
    ties to even; one NaN), and the facts about them that the theorems on the
    analysis need: comparison is a total preorder away from NaN, and sums and
    quotients of finite values are not NaN. *)

From stdpp Require Import prelude list strings.
From Stdlib Require Import ZArith Lia SpecFloat.
From S2P Require Import Prelude Validation Model Json.

#[local] Open Scope Z_scope.

Definition f64_add : spec_float -> spec_float -> spec_float := SFadd precision emax.
Definition f64_sub : spec_float -> spec_float -> spec_float := SFsub precision emax.
Definition f64_mul : spec_float -> spec_float -> spec_float := SFmul precision emax.
Definition f64_div : spec_float -> spec_float -> spec_float := SFdiv precision emax.
Definition f64_sqrt : spec_float -> spec_float := SFsqrt precision emax.

Declare Scope binary64_scope.
Delimit Scope binary64_scope with f64.
Notation "x + y" := (f64_add x y) : binary64_scope.
Notation "x - y" := (f64_sub x y) : binary64_scope.
Notation "x * y" := (f64_mul x y) : binary64_scope.
Notation "x / y" := (f64_div x y) : binary64_scope.
Notation "- x" := (SFopp x) : binary64_scope.
Notation "x <? y" := (SFltb x y) : binary64_scope.
Notation "x <=? y" := (SFleb x y) : binary64_scope.
Notation "x =? y" := (SFeqb x y) : binary64_scope.

(** [static_cast<double>] of an integer, and literals. *)
Definition f64_of_Z (z : Z) : spec_float := binary_normalize precision emax z 0 false.

Definition f64_zero : spec_float := S754_zero false.
Definition f64_one : spec_float := f64_of_Z 1.
Definition f64_half : spec_float := f64_div f64_one (f64_of_Z 2).

(** [std::max(a, b)] is [(a < b) ? b : a], also on NaN. *)
Definition f64_max (a b : spec_float) : spec_float := if SFltb a b then b else a.

Definition is_nan (x : spec_float) : bool := match x with S754_nan => true | _ => false end.

(** [std::bit_cast<std::uint64_t>]. NaNs are not distinguished; they print as the
    default NaN of the x86-64 target. *)
Definition f64_bits (x : spec_float) : Z :=
  let sign (s : bool) := if s then 2 ^ 63 else 0 in
  match x with
  | S754_zero s => sign s
  | S754_infinity s => sign s + 2047 * 2 ^ 52
  | S754_nan => 2 ^ 63 + 2047 * 2 ^ 52 + 2 ^ 51
  | S754_finite s m e =>
      if Z.pos m <? 2 ^ 52 then sign s + Z.pos m
      else sign s + (e + 1075) * 2 ^ 52 + (Z.pos m - 2 ^ 52)
  end.

(** ** Comparison *)

(** The place of a value that is not NaN in the order: sign class, exponent and
    mantissa, compared lexicographically. *)
Definition f64_place (x : spec_float) : Z * Z * Z :=
  match x with
  | S754_infinity true => (-2, 0, 0)
  | S754_finite true m e => (-1, - e, - Z.pos m)
  | S754_zero _ | S754_nan => (0, 0, 0)
  | S754_finite false m e => (1, e, Z.pos m)
  | S754_infinity false => (2, 0, 0)
  end.

Definition place_lt (a b : Z * Z * Z) : Prop :=
  let '(a1, a2, a3) := a in
  let '(b1, b2, b3) := b in
  a1 < b1 \/ a1 = b1 /\ (a2 < b2 \/ a2 = b2 /\ a3 < b3).

Lemma SFltb_place x y : is_nan x = false -> is_nan y = false ->
  SFltb x y = true <-> place_lt (f64_place x) (f64_place y).
Proof.
  unfold SFltb, place_lt.
  destruct x as [sx|[]| |[] mx ex], y as [sy|[]| |[] my ey]; intros Nx Ny; cbn in *;
    try discriminate; try (split; [discriminate || intros; lia | intros; try discriminate; lia]);
    try (split; [intros _; lia | done]).
  - change (Pos.compare_cont Eq mx my) with (Pos.compare mx my).
    destruct (Z.compare_spec ex ey); [destruct (Pos.compare_spec mx my)| |];
      cbn; split; intros; try discriminate; lia.
  - change (Pos.compare_cont Eq mx my) with (Pos.compare mx my).
    destruct (Z.compare_spec ex ey); [destruct (Pos.compare_spec mx my)| |];
      cbn; split; intros; try discriminate; lia.
Qed.

Lemma SFleb_place x y : is_nan x = false -> is_nan y = false ->
  SFleb x y = true <-> ~ place_lt (f64_place y) (f64_place x).
Proof.
  unfold SFleb, place_lt.
  destruct x as [sx|[]| |[] mx ex], y as [sy|[]| |[] my ey]; intros Nx Ny; cbn in *;
    try discriminate; try (split; [discriminate || intros; lia | intros; try discriminate; lia]);
    try (split; [intros _; lia | done]).
  - change (Pos.compare_cont Eq mx my) with (Pos.compare mx my).
    destruct (Z.compare_spec ex ey); [destruct (Pos.compare_spec mx my)| |];
      cbn; split; intros; try discriminate; try lia; done.
  - change (Pos.compare_cont Eq mx my) with (Pos.compare mx my).
    destruct (Z.compare_spec ex ey); [destruct (Pos.compare_spec mx my)| |];
      cbn; split; intros; try discriminate; try lia; done.
Qed.

Lemma place_lt_trans a b c : place_lt a b -> place_lt b c -> place_lt a c.
Proof. destruct a as [[]], b as [[]], c as [[]]. cbn. lia. Qed.

Lemma place_lt_le_trans a b c : place_lt a b -> ~ place_lt c b -> place_lt a c.
Proof. destruct a as [[]], b as [[]], c as [[]]. cbn. lia. Qed.

Lemma place_le_lt_trans a b c : ~ place_lt b a -> place_lt b c -> place_lt a c.
Proof. destruct a as [[]], b as [[]], c as [[]]. cbn. lia. Qed.

Lemma place_le_trans a b c : ~ place_lt b a -> ~ place_lt c b -> ~ place_lt c a.
Proof. destruct a as [[]], b as [[]], c as [[]]. cbn. lia. Qed.

Lemma SFltb_nan x y : SFltb x y = true -> is_nan x = false /\ is_nan y = false.
Proof. unfold SFltb. by destruct x, y. Qed.

Lemma SFleb_nan x y : SFleb x y = true -> is_nan x = false /\ is_nan y = false.
Proof. unfold SFleb. by destruct x, y. Qed.

(** [a <= b] is the negation of [b < a] away from NaN. *)
Lemma SFleb_negb x y : is_nan x = false -> is_nan y = false -> SFleb x y = negb (SFltb y x).
Proof.
  intros Nx Ny. apply Bool.eq_iff_eq_true.
  rewrite SFleb_place, negb_true_iff, <-not_true_iff_false, SFltb_place; done.
Qed.

Lemma SFleb_refl x : is_nan x = false -> SFleb x x = true.
Proof. intros N. apply SFleb_place; [done..|]. destruct (f64_place x) as [[]]. cbn. lia. Qed.

Lemma SFltb_leb x y : SFltb x y = true -> SFleb x y = true.
Proof. unfold SFltb, SFleb. by destruct (SFcompare x y) as [[]|]. Qed.

Lemma SFleb_trans x y z : SFleb x y = true -> SFleb y z = true -> SFleb x z = true.
Proof.
  intros A B. destruct (SFleb_nan _ _ A), (SFleb_nan _ _ B).
  apply SFleb_place in A, B; try done. apply SFleb_place; [done..|].
  by eapply place_le_trans.
Qed.

Lemma SFltb_leb_trans x y z : SFltb x y = true -> SFleb y z = true -> SFltb x z = true.
Proof.
  intros A B. destruct (SFltb_nan _ _ A), (SFleb_nan _ _ B).
  apply SFltb_place in A; try done. apply SFleb_place in B; try done.
  apply SFltb_place; [done..|]. by eapply place_lt_le_trans.
Qed.

Lemma SFltb_asym x y : SFltb x y = true -> SFltb y x = false.
Proof.
  intros A. destruct (SFltb_nan _ _ A). apply not_true_iff_false. intros B.
  apply SFltb_place in A, B; try done.
  destruct (f64_place x) as [[]], (f64_place y) as [[]]. cbn in *. lia.
Qed.

Lemma SFleb_total x y : is_nan x = false -> is_nan y = false ->
  SFleb x y = true \/ SFleb y x = true.
Proof.
  intros Nx Ny. rewrite !SFleb_place by done.
  destruct (f64_place x) as [[]], (f64_place y) as [[]]. cbn. lia.
Qed.

Lemma is_finite_nan x : is_finite x = true -> is_nan x = false.
Proof. by destruct x. Qed.

Lemma f64_max_spec a b : is_nan a = false -> is_nan b = false ->
  SFleb a (f64_max a b) = true /\ SFleb b (f64_max a b) = true /\
  (f64_max a b = a \/ f64_max a b = b).
Proof.
  intros Na Nb. unfold f64_max. destruct (SFltb a b) eqn:E.
  - auto using SFltb_leb, SFleb_refl.
  - split_and!; [by apply SFleb_refl | by rewrite SFleb_negb, E | by left].
Qed.

(** ** Rounding does not make NaN *)

Lemma shr_1_nonneg mrs : 0 <= shr_m mrs -> 0 <= shr_m (shr_1 mrs).
Proof. by destruct mrs as [[|[]|[]] ? ?]. Qed.

Lemma iter_pos_inv {A} (P : A -> Prop) (f : A -> A) n x :
  (forall a, P a -> P (f a)) -> P x -> P (iter_pos f n x).
Proof. intros F. revert x. induction n as [n IH|n IH|]; intros x H; cbn; auto. Qed.

Lemma shr_fexp_nonneg m e l : 0 <= m -> 0 <= shr_m (fst (shr_fexp precision emax m e l)).
Proof.
  intros H. unfold shr_fexp, shr. destruct (_ - _); cbn; try (by destruct l as [|[]]).
  apply (iter_pos_inv (fun mrs => 0 <= shr_m mrs)); [apply shr_1_nonneg | by destruct l as [|[]]].
Qed.

Lemma round_nearest_even_nonneg m l : 0 <= m -> 0 <= round_nearest_even m l.
Proof. intros H. destruct l as [|[]]; cbn; try destruct (Z.even m); lia. Qed.

Lemma binary_round_aux_nan s m e l : 0 <= m ->
  is_nan (binary_round_aux precision emax s m e l) = false.
Proof.
  intros H. unfold binary_round_aux.
  destruct (shr_fexp precision emax m e l) as [mrs e'] eqn:E1.
  pose proof (shr_fexp_nonneg m e l H) as H1. rewrite E1 in H1. cbn in H1.
  destruct (shr_fexp _ _ (round_nearest_even _ _) _ _) as [mrs' e''] eqn:E2.
  pose proof (shr_fexp_nonneg _ e' loc_Exact
                (round_nearest_even_nonneg _ (loc_of_shr_record mrs) H1)) as H2.
  rewrite E2 in H2. cbn in H2.
  destruct (shr_m mrs'); [done | by destruct (Z.leb _ _) | lia].
Qed.

Lemma binary_round_nan s m e : is_nan (binary_round precision emax s m e) = false.
Proof. unfold binary_round. destruct (shl_align _ _ _). by apply binary_round_aux_nan. Qed.

Lemma binary_normalize_nan m e s : is_nan (binary_normalize precision emax m e s) = false.
Proof. destruct m; cbn; [done|apply binary_round_nan..]. Qed.

Lemma f64_add_nan x y : is_nan x = false -> is_finite y = true -> is_nan (f64_add x y) = false.
Proof.
  unfold f64_add. destruct x as [[]|[]| |], y as [[]|[]| |]; cbn; intros Nx Fy; try done.
  all: apply binary_normalize_nan.
Qed.

Lemma f64_div_nan x y : is_nan x = false -> (exists s m e, y = S754_finite s m e) ->
  is_nan (f64_div x y) = false.
Proof.
  intros Nx (s & m & e & ->). unfold f64_div. destruct x as [[]|[]| |sx mx ex]; cbn; try done.
  destruct (SFdiv_core_binary _ _ _ _ _ _) as [[q e'] l] eqn:E.
  apply binary_round_aux_nan. revert E. unfold SFdiv_core_binary.
  destruct (Z.div_eucl _ _) as [q' r] eqn:D. intros [= <- _ _].
  match type of D with Z.div_eucl ?a ?b = _ => pose proof (Z.div_eucl_eq a b) as Q;
    pose proof (Z.div_pos a b) as P; unfold Z.div in P; rewrite D in P end.
  apply P; [|done]. clear.
  destruct (_ - _ - _); [done| | done]. by apply Z.shiftl_nonneg.
Qed.

(** ** Counts convert exactly *)

Lemma digits2_pos_bound m k : Z.pos m < 2 ^ Z.pos k -> (digits2_pos m <= k)%positive.
Proof.
  revert k. induction m as [m IH|m IH|]; intros k H; cbn; [| |lia].
  - destruct (Pos.succ_pred_or k) as [->|E]; [cbn in H; lia|].
    rewrite <-E in *. rewrite Pos2Z.inj_succ, Z.pow_succ_r in H by lia.
    enough (digits2_pos m <= Pos.pred k)%positive by lia. apply IH. lia.
  - destruct (Pos.succ_pred_or k) as [->|E]; [cbn in H; lia|].
    rewrite <-E in *. rewrite Pos2Z.inj_succ, Z.pow_succ_r in H by lia.
    enough (digits2_pos m <= Pos.pred k)%positive by lia. apply IH. lia.
Qed.

Lemma digits2_pos_shift m d : digits2_pos (Pos.iter xO m d) = (digits2_pos m + d)%positive.
Proof.
  induction d as [|d IH] using Pos.peano_ind; [cbn; lia|].
  rewrite Pos.iter_succ. cbn. rewrite IH. lia.
Qed.

(** A mantissa with [precision] digits and an exponent in range is exact. *)
Lemma binary_round_aux_exact s m e : digits2_pos m = 53%positive -> -1074 <= e <= 971 ->
  binary_round_aux precision emax s (Z.pos m) e loc_Exact = S754_finite s m e.
Proof.
  intros D E. unfold binary_round_aux, shr_fexp. cbn [Zdigits2]. rewrite D.
  replace (fexp precision emax (53 + e) - e) with 0 by (unfold fexp, emin, precision, emax; lia).
  cbn [shr shr_record_of_loc shr_m loc_of_shr_record round_nearest_even Zdigits2]. rewrite D.
  replace (fexp precision emax (53 + e) - e) with 0 by (unfold fexp, emin, precision, emax; lia).
  cbn [shr shr_record_of_loc shr_m].
  by rewrite (proj2 (Z.leb_le e (emax - precision))) by (unfold emax, precision; lia).
Qed.

(** A positive count below [2^53] converts to a finite value that is not zero. *)
Lemma f64_of_Z_finite z : 0 < z < 2 ^ 53 -> exists m e, f64_of_Z z = S754_finite false m e.
Proof.
  intros Z. destruct z as [|m|m]; [lia| |lia]. unfold f64_of_Z. cbn [binary_normalize].
  pose proof (digits2_pos_bound m 53 (proj2 Z)) as D. unfold binary_round, shl_align.
  replace (fexp precision emax (Z.pos (digits2_pos m) + 0) - 0)
    with (Z.pos (digits2_pos m) - 53) by (unfold fexp, emin, precision, emax; lia).
  destruct (Z.pos (digits2_pos m) - 53) as [|d|d] eqn:E; [| lia |].
  - eexists m, _. apply binary_round_aux_exact; lia.
  - eexists _, _. apply binary_round_aux_exact; [rewrite digits2_pos_shift; lia|].
    unfold fexp, emin, precision, emax. lia.
Qed.
