(* ===== verification/Analysis.v ===== *)
(** * Offline analysis: data, access grants, quantiles and run summaries

    Models [include/cpu_prefetch/analysis/analysis.hpp] and the first half of
    [src/analysis/analysis.cpp]: the inputs and results of the analysis, the
    grants that open outcome domains, exact quantiles of run-length encoded
    samples, the canonical documents a run is bound to and [summarize_run].
    SHA-256 and [std::log] are parameters. *)

From stdpp Require Import prelude list strings.
From Stdlib Require Import ZArith Lia Ascii SpecFloat.
From S2P Require Import Prelude Validation Model Bytes Json Documents Load.
From S2P Require Import Reconciliation Deterministic SemanticRecords BlockPlanning Precision Access AccessControl Artifacts BlockPlans Binary64.

#[local] Open Scope Z_scope.
#[local] Open Scope result_scope.

Definition kAnalysisProfile : string := "STAGE-A-OFFLINE-ANALYSIS-SYNTHETIC-v1".
Definition kRunInputSchema : string := "STAGE15-SYNTHETIC-RUN-INPUT-v1".
Definition kReportSchema : string := "STAGE15-ANALYSIS-REPORT-v1".
Definition kSelectionSchema : string := "STAGE15-H3-SELECTION-RECORD-v1".
Definition kBootstrapProfile : string := "COMPLETE-BLOCK-PHILOX4X32-10-MAXT-ICDF95-v1".
Definition kSyntheticLatencyEncoding : string := "SYNTHETIC-RLE-LATENCY-TICKS-v1".

(** ** Data *)

Inductive AnalysisStage : Set :=
| AnalysisStage_artifact_validation
| AnalysisStage_reconciliation_verification
| AnalysisStage_interval_derivation
| AnalysisStage_run_gates
| AnalysisStage_run_summaries
| AnalysisStage_complete_blocks
| AnalysisStage_h3_training
| AnalysisStage_selection_freeze
| AnalysisStage_validation_unseal
| AnalysisStage_h3_validation
| AnalysisStage_h3_evaluation
| AnalysisStage_h1h2_release
| AnalysisStage_h1h2_analysis
| AnalysisStage_reporting.

Inductive FamilyKind : Set :=
| FamilyKind_h1_two_sided
| FamilyKind_h2_two_sided
| FamilyKind_h3_training_standard_error
| FamilyKind_h3_validation_one_sided.

Inductive InferenceState : Set :=
| InferenceState_estimable
| InferenceState_blocked.

Inductive PracticalConclusion : Set :=
| PracticalConclusion_practically_lower
| PracticalConclusion_practically_higher
| PracticalConclusion_practically_equivalent
| PracticalConclusion_inconclusive.

#[export] Instance AnalysisStage_eq_dec : EqDecision AnalysisStage.
Proof. solve_decision. Defined.

#[export] Instance FamilyKind_eq_dec : EqDecision FamilyKind.
Proof. solve_decision. Defined.

#[export] Instance InferenceState_eq_dec : EqDecision InferenceState.
Proof. solve_decision. Defined.

#[export] Instance PracticalConclusion_eq_dec : EqDecision PracticalConclusion.
Proof. solve_decision. Defined.

Record ImmutableArtifact : Set := mkImmutableArtifact {
  im_protocol_version : ProtocolVersion;
  im_schema_version : string;
  im_reference : ArtifactReference;
  im_bytes : list Z;
  im_finalized : bool
}.

Record WeightedLatency : Set := mkWeightedLatency {
  wl_latency_ticks : Z;
  wl_multiplicity : Z
}.

Record RawReconciliationInput : Set := mkRawReconciliationInput {
  rw_producer_rows : list ProducerRecord;
  rw_consumer_rows : list ConsumerRecord;
  rw_expected_record_indices : list Z
}.

Record SyntheticDiagnosticSeries : Set := mkSyntheticDiagnosticSeries {
  dg_producer_lateness : list WeightedLatency;
  dg_enqueue_service : list WeightedLatency;
  dg_admission_delay : list WeightedLatency;
  dg_queue_residence : list WeightedLatency;
  dg_dequeue_service : list WeightedLatency;
  dg_post_dequeue_delivery : list WeightedLatency;
  dg_consumer_action : list WeightedLatency
}.

Record SyntheticRunInput : Set := mkSyntheticRunInput {
  sr_protocol_version : ProtocolVersion;
  sr_schema_version : string;
  sr_run_id : Identifier;
  sr_block_id : Identifier;
  sr_block_role : BlockRole;
  sr_cell_ordinal : Z;
  sr_package : QueuePackage;
  sr_hardware_state : RequestedHardwareState;
  sr_placement : Placement;
  sr_working_set : WorkingSetClass;
  sr_load : LoadLevel;
  sr_validity : RunValidity;
  sr_offered_count : Z;
  sr_attempted_count : Z;
  sr_accepted_count : Z;
  sr_full_count : Z;
  sr_consumed_count : Z;
  sr_final_occupancy : Z;
  sr_raw_sample_count : Z;
  sr_n_eff_p999 : Z;
  sr_measurement_horizon_ticks : Z;
  sr_end_to_end_latencies : list WeightedLatency;
  sr_diagnostics : SyntheticDiagnosticSeries;
  sr_manifest_artifact : ArtifactReference;
  sr_joined_artifact : ArtifactReference;
  sr_join_audit_artifact : ArtifactReference;
  sr_failure_artifact : option ArtifactReference;
  sr_raw_reconciliation : option RawReconciliationInput;
  sr_prior_stage12_validation_passed : bool
}.

Record BlockInput : Set := mkBlockInput {
  bi_plan : BlockPlan;
  bi_seed_catalog : BlockSeedCatalog;
  bi_plan_artifact : ArtifactReference;
  bi_active_primary : bool;
  bi_stage14_cross_record_validation_passed : bool;
  bi_replacement_budget_validation_passed : bool
}.

Record ProspectiveCandidate : Set := mkProspectiveCandidate {
  pd_complete_block_count : Z;
  pd_widths : list spec_float
}.

Record ProspectiveFamilyInput : Set := mkProspectiveFamilyInput {
  pf_family : FamilyKind;
  pf_sizing_artifact : ArtifactReference;
  pf_candidates : list ProspectiveCandidate
}.

Record ProspectivePrecisionInput : Set := mkProspectivePrecisionInput {
  pn_h1 : ProspectiveFamilyInput;
  pn_h2 : ProspectiveFamilyInput;
  pn_h3_training : ProspectiveFamilyInput;
  pn_h3_validation : ProspectiveFamilyInput
}.

Record BootstrapConfiguration : Set := mkBootstrapConfiguration {
  bt_profile : string;
  bt_rng_algorithm_version : string;
  bt_seed_id : Identifier;
  bt_key : PhiloxKey;
  bt_replicates : Z
}.

Record SoftwareVersions : Set := mkSoftwareVersions {
  sv_implementation_revision : string;
  sv_compiler : string;
  sv_standard_library : string
}.

Record AnalysisConfiguration : Set := mkAnalysisConfiguration {
  an_protocol_version : ProtocolVersion;
  an_analysis_profile : string;
  an_delta_star : spec_float;
  an_bootstrap : BootstrapConfiguration;
  an_precision : ProspectivePrecisionInput;
  an_expected_counts : ProspectiveCounts;
  an_configuration_artifact : ArtifactReference;
  an_software : SoftwareVersions
}.

Record OutcomeAccessGrant : Set := mkOutcomeAccessGrant {
  og_domain : OutcomeDomain;
  og_state : AccessState;
  og_affected_block_ids : list Identifier;
  og_access_record : ArtifactReference
}.

Record AnalysisInput : Set := mkAnalysisInput {
  ai_namespaces : RoleNamespaceRegistry;
  ai_blocks : list BlockInput;
  ai_runs : list SyntheticRunInput;
  ai_artifacts : list ImmutableArtifact;
  ai_configuration : AnalysisConfiguration;
  ai_training_access : OutcomeAccessGrant;
  ai_validation_access : OutcomeAccessGrant;
  ai_h1h2_access : OutcomeAccessGrant
}.

Record RunQuantiles : Set := mkRunQuantiles {
  q_p50 : Z;
  q_p90 : Z;
  q_p99 : Z;
  q_p999 : Z;
  q_p9999 : option Z;
  q_maximum : Z
}.

Record ExactRatio : Set := mkExactRatio {
  ra_numerator : Z;
  ra_denominator : Z
}.

Record RunSummary : Set := mkRunSummary {
  rs_run_id : Identifier;
  rs_block_id : Identifier;
  rs_block_role : BlockRole;
  rs_package : QueuePackage;
  rs_hardware_state : RequestedHardwareState;
  rs_placement : Placement;
  rs_working_set : WorkingSetClass;
  rs_load : LoadLevel;
  rs_validity : RunValidity;
  rs_zero_loss : GateStatus;
  rs_effective_tail : GateStatus;
  rs_estimability : ConfirmatoryEstimability;
  rs_blockers : list ConfirmatoryBlocker;
  rs_quantiles : RunQuantiles;
  rs_producer_lateness_quantiles : RunQuantiles;
  rs_enqueue_service_quantiles : RunQuantiles;
  rs_admission_delay_quantiles : RunQuantiles;
  rs_queue_residence_quantiles : RunQuantiles;
  rs_dequeue_service_quantiles : RunQuantiles;
  rs_post_dequeue_delivery_quantiles : RunQuantiles;
  rs_consumer_action_quantiles : RunQuantiles;
  rs_consumed_throughput : ExactRate;
  rs_full_rate : ExactRatio;
  rs_final_occupancy : Z;
  rs_log_p999 : spec_float
}.

Record CellResponse : Set := mkCellResponse {
  cx_package : QueuePackage;
  cx_hardware_state : RequestedHardwareState;
  cx_placement : Placement;
  cx_working_set : WorkingSetClass;
  cx_load : LoadLevel;
  cx_log_p999 : spec_float
}.

Record CompleteBlockResponse : Set := mkCompleteBlockResponse {
  cb_block_id : Identifier;
  cb_role : BlockRole;
  cb_cells : list CellResponse
}.

Record SimultaneousInterval : Set := mkSimultaneousInterval {
  sn_stable_id : string;
  sn_estimate : spec_float;
  sn_standard_error : spec_float;
  sn_lower : spec_float;
  sn_upper : spec_float;
  sn_conclusion : PracticalConclusion
}.

Record MaxTResult : Set := mkMaxTResult {
  mx_family_id : string;
  mx_one_sided : bool;
  mx_bootstrap_replicates : Z;
  mx_critical_value : spec_float;
  mx_intervals : list SimultaneousInterval
}.

Record H3SelectionRecord : Set := mkH3SelectionRecord {
  hs_schema_version : string;
  hs_selections : list (H3Context * H3Candidate);
  hs_training_sources : list ArtifactReference;
  hs_canonical_json : string;
  hs_record_sha256 : Sha256
}.

Record H3ValidationResult : Set := mkH3ValidationResult {
  hv_state : InferenceState;
  hv_comparisons : option MaxTResult;
  hv_all_upper_limits_below_delta : bool;
  hv_blockers : list string
}.

Record StageReceipt : Set := mkStageReceipt {
  st_stage : AnalysisStage;
  st_version : string;
  st_inputs : list ArtifactReference
}.

Record AnalysisOutput : Set := mkAnalysisOutput {
  ao_state : InferenceState;
  ao_run_summaries : list RunSummary;
  ao_primary_blocks : list CompleteBlockResponse;
  ao_h1 : option MaxTResult;
  ao_h2 : option MaxTResult;
  ao_selection : option H3SelectionRecord;
  ao_h3 : option H3ValidationResult;
  ao_stages : list StageReceipt;
  ao_machine_report_json : string;
  ao_human_report_markdown : string;
  ao_configuration_sha256 : Sha256;
  ao_output_sha256 : Sha256
}.

(** ** Names *)

Definition protocol_name (version : ProtocolVersion) : string :=
  match version with
  | ProtocolVersion_v2_0_0_pre_1 => kPreviousProtocolVersion
  | ProtocolVersion_v2_0_0_pre_2 => kProtocolVersion
  end.

Definition report_package_name (package : QueuePackage) : string :=
  match package with
  | QueuePackage_r0 => "R0"
  | QueuePackage_r1 => "R1"
  | QueuePackage_r2 => "R2"
  | QueuePackage_l0 => "L0"
  | QueuePackage_l1 => "L1"
  | QueuePackage_nblfq_mpsc => "NBLFQ_MPSC"
  | QueuePackage_not_applicable => "NOT_APPLICABLE"
  end.

Definition report_hardware_name (state : RequestedHardwareState) : string :=
  match state with
  | RequestedHardwareState_h0 => "H0"
  | RequestedHardwareState_h1 => "H1"
  | RequestedHardwareState_not_applicable => "NOT_APPLICABLE"
  end.

Definition report_role_name (role : BlockRole) : string :=
  match role with
  | BlockRole_h3_train => "H3_TRAIN"
  | BlockRole_h3_validation => "H3_VALIDATION"
  | BlockRole_h1h2_supplemental => "H1H2_SUPPLEMENTAL"
  | BlockRole_not_applicable => "NOT_APPLICABLE"
  end.

Definition context_name (context : H3Context) : string :=
  match context with
  | H3Context_near_l2_l050 => "NEAR_L2_L050"
  | H3Context_near_llc_l050 => "NEAR_LLC_L050"
  | H3Context_near_beyond_llc_l050 => "NEAR_BEYOND_LLC_L050"
  | H3Context_far_l2_l050 => "FAR_L2_L050"
  | H3Context_far_llc_l050 => "FAR_LLC_L050"
  | H3Context_far_beyond_llc_l050 => "FAR_BEYOND_LLC_L050"
  end.

Definition stage_name (stage : AnalysisStage) : string :=
  match stage with
  | AnalysisStage_artifact_validation => "ARTIFACT_VALIDATION"
  | AnalysisStage_reconciliation_verification => "RECONCILIATION_VERIFICATION"
  | AnalysisStage_interval_derivation => "INTERVAL_DERIVATION"
  | AnalysisStage_run_gates => "RUN_GATES"
  | AnalysisStage_run_summaries => "RUN_SUMMARIES"
  | AnalysisStage_complete_blocks => "COMPLETE_BLOCKS"
  | AnalysisStage_h3_training => "H3_TRAINING"
  | AnalysisStage_selection_freeze => "SELECTION_FREEZE"
  | AnalysisStage_validation_unseal => "VALIDATION_UNSEAL"
  | AnalysisStage_h3_validation => "H3_VALIDATION"
  | AnalysisStage_h3_evaluation => "H3_EVALUATION"
  | AnalysisStage_h1h2_release => "H1H2_RELEASE"
  | AnalysisStage_h1h2_analysis => "H1H2_ANALYSIS"
  | AnalysisStage_reporting => "REPORTING"
  end.

Definition conclusion_name (conclusion : PracticalConclusion) : string :=
  match conclusion with
  | PracticalConclusion_practically_lower => "PRACTICALLY_LOWER"
  | PracticalConclusion_practically_higher => "PRACTICALLY_HIGHER"
  | PracticalConclusion_practically_equivalent => "PRACTICALLY_EQUIVALENT"
  | PracticalConclusion_inconclusive => "INCONCLUSIVE"
  end.

Definition candidate_name (candidate : H3Candidate) : string :=
  report_package_name (h3_package candidate) +:+ "-" +:+
  report_hardware_name (h3_requested_hardware_state candidate).

(** ** Documents and artifacts *)

Definition analysis_artifact_value (reference : ArtifactReference) : Value :=
  Value_object (map_of
    [("artifact_id", string_value (ar_artifact_id reference));
     ("sha256", string_value (Sha256_hex (ar_sha256 reference)))]).

Definition weighted_values (values : list WeightedLatency) : Value :=
  Value_array ((fun value =>
    Value_object (map_of
      [("latency_ticks", uint_value (wl_latency_ticks value));
       ("multiplicity", uint_value (wl_multiplicity value))])) <$> values).

(** Sixteen lowercase hexadecimal digits. *)
Definition float_bits (value : spec_float) : string := consumer_state_hex (f64_bits value).

Definition find_input_artifact (artifacts : list ImmutableArtifact) (id : string) :
    option ImmutableArtifact :=
  find (fun artifact => bool_decide (ar_artifact_id (im_reference artifact) = id)) artifacts.

Definition artifact_bytes_equal (artifact : ImmutableArtifact) (expected : string) : bool :=
  bool_decide (im_bytes artifact = string_bytes expected).

(** The values of the enumerators that [static_cast] writes into a document. *)
Definition load_code (load : LoadLevel) : Z :=
  match load with
  | LoadLevel_l025 => 0
  | LoadLevel_l050 => 1
  | LoadLevel_l075 => 2
  | LoadLevel_calibration_ready => 3
  | LoadLevel_stage_c_other => 4
  | LoadLevel_not_applicable => 5
  end.

Definition placement_code (placement : Placement) : Z :=
  match placement with
  | Placement_near => 0
  | Placement_far => 1
  | Placement_stage_c_other => 2
  | Placement_not_applicable => 3
  end.

Definition working_set_code (working_set : WorkingSetClass) : Z :=
  match working_set with
  | WorkingSetClass_l2_resident => 0
  | WorkingSetClass_llc_resident => 1
  | WorkingSetClass_beyond_llc => 2
  | WorkingSetClass_not_applicable => 3
  end.

Definition validity_text (validity : RunValidity) : string :=
  match validity with
  | RunValidity_valid => "VALID"
  | RunValidity_invalid => "INVALID"
  | RunValidity_not_evaluated => "NOT_EVALUATED"
  end.

Definition latency_payload_document (run_id : Identifier) (latencies : list WeightedLatency) : Value :=
  Value_object (map_of
    [("encoding", string_value kSyntheticLatencyEncoding);
     ("run_id", string_value run_id);
     ("values", weighted_values latencies)]).

Definition canonical_synthetic_latency_payload (run_id : Identifier)
    (latencies : list WeightedLatency) : Result string :=
  canonicalize (latency_payload_document run_id latencies).

Definition diagnostics_document (d : SyntheticDiagnosticSeries) : Value :=
  Value_object (map_of
    [("admission_delay", weighted_values (dg_admission_delay d));
     ("consumer_action", weighted_values (dg_consumer_action d));
     ("dequeue_service", weighted_values (dg_dequeue_service d));
     ("enqueue_service", weighted_values (dg_enqueue_service d));
     ("post_dequeue_delivery", weighted_values (dg_post_dequeue_delivery d));
     ("producer_lateness", weighted_values (dg_producer_lateness d));
     ("queue_residence", weighted_values (dg_queue_residence d))]).

Definition synthetic_run_document (run : SyntheticRunInput) : Value :=
  Value_object (map_of
    [("accepted_count", uint_value (sr_accepted_count run));
     ("attempted_count", uint_value (sr_attempted_count run));
     ("block_id", string_value (sr_block_id run));
     ("block_role", string_value (report_role_name (sr_block_role run)));
     ("cell_ordinal", uint_value (sr_cell_ordinal run));
     ("consumed_count", uint_value (sr_consumed_count run));
     ("failure_artifact",
      match sr_failure_artifact run with Some r => analysis_artifact_value r | None => Value_null end);
     ("final_occupancy", uint_value (sr_final_occupancy run));
     ("full_count", uint_value (sr_full_count run));
     ("hardware_state", string_value (report_hardware_name (sr_hardware_state run)));
     ("join_audit_artifact", analysis_artifact_value (sr_join_audit_artifact run));
     ("joined_artifact", analysis_artifact_value (sr_joined_artifact run));
     ("load", uint_value (load_code (sr_load run)));
     ("manifest_artifact_id", string_value (ar_artifact_id (sr_manifest_artifact run)));
     ("n_eff_p999", uint_value (sr_n_eff_p999 run));
     ("measurement_horizon_ticks", uint_value (sr_measurement_horizon_ticks run));
     ("offered_count", uint_value (sr_offered_count run));
     ("package", string_value (report_package_name (sr_package run)));
     ("placement", uint_value (placement_code (sr_placement run)));
     ("prior_stage12_validation_passed", Value_bool (sr_prior_stage12_validation_passed run));
     ("protocol_version", string_value (protocol_name (sr_protocol_version run)));
     ("raw_reconciliation_present", Value_bool (bool_decide (is_Some (sr_raw_reconciliation run))));
     ("raw_sample_count", uint_value (sr_raw_sample_count run));
     ("run_id", string_value (sr_run_id run));
     ("schema_version", string_value (sr_schema_version run));
     ("validity", string_value (validity_text (sr_validity run)));
     ("working_set", uint_value (working_set_code (sr_working_set run)));
     ("diagnostics", diagnostics_document (sr_diagnostics run))]).

Definition canonical_synthetic_run (run : SyntheticRunInput) : Result string :=
  canonicalize (synthetic_run_document run).

(** ** Access grants *)

Definition required_access_state (domain : OutcomeDomain) : AccessState :=
  match domain with
  | OutcomeDomain_h3_training => AccessState_training_open
  | OutcomeDomain_h3_validation => AccessState_validation_unsealed
  | OutcomeDomain_h1h2 => AccessState_h1h2_released
  end.

Definition required_role (domain : OutcomeDomain) (role : BlockRole) : bool :=
  match domain with
  | OutcomeDomain_h3_training => bool_decide (role = BlockRole_h3_train)
  | OutcomeDomain_h3_validation => bool_decide (role = BlockRole_h3_validation)
  | OutcomeDomain_h1h2 => negb (bool_decide (role = BlockRole_not_applicable))
  end.

(** The loop over the blocks; [unique] is the set of identifiers seen. *)
Fixpoint grant_blocks (domain : OutcomeDomain) (unique : list Identifier) (blocks : list BlockPlan) :
    option (list Identifier) :=
  match blocks with
  | [] => Some []
  | block :: rest =>
      if negb (required_role domain (bp_block_role block)) ||
         bool_decide (bp_block_id block ∈ unique) then None
      else cons (bp_block_id block) <$> grant_blocks domain (bp_block_id block :: unique) rest
  end.

(** [OutcomeAccessGrant::from_stage14]. *)
Definition from_stage14 (ledger : AccessLedgerResult) (domain : OutcomeDomain)
    (affected_blocks : list BlockPlan) (access_record : ArtifactReference) :
    Result OutcomeAccessGrant :=
  if nonempty (al_errors ledger) ||
     (access_rank (al_final_state ledger) <? access_rank (required_access_state domain)) ||
     negb (nonempty affected_blocks) || str_empty (ar_artifact_id access_record) then
    fail_with ErrorCategory_missing_evidence "$/access" "ANALYSIS-STAGE14-GRANT"
      "a passing Stage 14 ledger at the required state and affected blocks are required"
  else
    match grant_blocks domain [] affected_blocks with
    | None =>
        fail_with ErrorCategory_cross_field "$/access/affected_blocks" "ANALYSIS-STAGE14-GRANT-BLOCKS"
          "grant blocks must be unique and role-compatible with the outcome domain"
    | Some ids => success (mkOutcomeAccessGrant domain (al_final_state ledger) ids access_record)
    end.

(** ** Quantiles of run-length encoded samples *)

Fixpoint checked_weight_sum_from (sum : Z) (values : list WeightedLatency) : option Z :=
  match values with
  | [] => Some sum
  | value :: rest =>
      if wl_multiplicity value >? u64_sub u64_max sum then None
      else checked_weight_sum_from (u64_add sum (wl_multiplicity value)) rest
  end.

Definition checked_weight_sum (values : list WeightedLatency) : option Z := checked_weight_sum_from 0 values.

(** The loop that checks the encoding; [None] before the first value. *)
Fixpoint rle_sorted (previous : option Z) (values : list WeightedLatency) : bool :=
  match values with
  | [] => true
  | value :: rest =>
      negb (wl_multiplicity value =? 0) &&
      match previous with Some p => negb (wl_latency_ticks value <=? p) | None => true end &&
      rle_sorted (Some (wl_latency_ticks value)) rest
  end.

Fixpoint rank_value (cumulative rank : Z) (values : list WeightedLatency) : option Z :=
  match values with
  | [] => None
  | value :: rest =>
      let cumulative := u64_add cumulative (wl_multiplicity value) in
      if cumulative >=? rank then Some (wl_latency_ticks value) else rank_value cumulative rank rest
  end.

Definition quantile_error (category : ErrorCategory) (path rule message : string) : Result Z :=
  fail_with category path rule message.

Definition rank_overflow : Result Z :=
  quantile_error ErrorCategory_out_of_range "$/quantile/rank" "ANALYSIS-QUANTILE-OVERFLOW"
    "quantile rank arithmetic overflows u64".

Definition exact_inverse_ecdf_quantile (sorted_values : list WeightedLatency)
    (numerator denominator : Z) : Result Z :=
  if negb (nonempty sorted_values) || (numerator =? 0) || (denominator =? 0) ||
     (numerator >? denominator) then
    quantile_error ErrorCategory_out_of_range "$/quantile" "ANALYSIS-QUANTILE-P"
      "quantile probability and sample must be nonempty"
  else
    match checked_weight_sum sorted_values with
    | None | Some 0 =>
        quantile_error ErrorCategory_out_of_range "$/quantile/sample" "ANALYSIS-QUANTILE-COUNT"
          "quantile multiplicities overflow or sum to zero"
    | Some count =>
        if negb (rle_sorted None sorted_values) then
          quantile_error ErrorCategory_cross_field "$/quantile/sample" "ANALYSIS-QUANTILE-SORTED"
            "synthetic RLE values must be strictly increasing with positive counts"
        else
          let quotient := count / denominator in
          let remainder := count mod denominator in
          if (quotient >? u64_max / numerator) || (remainder >? u64_max / numerator) then
            rank_overflow
          else
            let rank := u64_mul quotient numerator in
            let remainder_product := u64_mul remainder numerator in
            let extra := u64_add (remainder_product / denominator)
                           (if remainder_product mod denominator =? 0 then 0 else 1) in
            if rank >? u64_sub u64_max extra then rank_overflow
            else
              match rank_value 0 (u64_add rank extra) sorted_values with
              | Some v => success v
              | None =>
                  quantile_error ErrorCategory_cross_field "$/quantile/rank"
                    "ANALYSIS-QUANTILE-INTERNAL" "quantile rank was not found"
              end
    end.

(** ** Run summaries *)

(** [++observed[latency]] on the map of counts, in the order of its keys. *)
Fixpoint count_latency (latency : Z) (observed : list (Z * Z)) : list (Z * Z) :=
  match observed with
  | [] => [(latency, 1)]
  | (k, n) :: rest =>
      if latency <? k then (latency, 1) :: observed
      else if latency =? k then (k, u64_add n 1) :: rest
      else (k, n) :: count_latency latency rest
  end.

Definition observed_latencies (rows : list JoinedRecord) : list (Z * Z) :=
  fold_left (fun observed row => count_latency (jr_end_to_end_latency row) observed) rows [].

(** [encoded.emplace(latency, multiplicity)]. *)
Fixpoint emplace_latency (latency multiplicity : Z) (encoded : list (Z * Z)) : list (Z * Z) :=
  match encoded with
  | [] => [(latency, multiplicity)]
  | (k, n) :: rest =>
      if latency <? k then (latency, multiplicity) :: encoded
      else if latency =? k then encoded
      else (k, n) :: emplace_latency latency multiplicity rest
  end.

Definition encoded_latencies (values : list WeightedLatency) : list (Z * Z) :=
  fold_left (fun encoded value =>
               emplace_latency (wl_latency_ticks value) (wl_multiplicity value) encoded) values [].

Definition diagnostic_counts (run : SyntheticRunInput) : list (list WeightedLatency * Z) :=
  let d := sr_diagnostics run in
  [(dg_producer_lateness d, sr_attempted_count run);
   (dg_enqueue_service d, sr_attempted_count run);
   (dg_admission_delay d, sr_accepted_count run);
   (dg_queue_residence d, sr_accepted_count run);
   (dg_dequeue_service d, sr_accepted_count run);
   (dg_post_dequeue_delivery d, sr_accepted_count run);
   (dg_consumer_action d, sr_accepted_count run)].

(** Whether the multiplicities of a series sum to a count. *)
Definition series_counts (values : list WeightedLatency) (expected : Z) : bool :=
  match checked_weight_sum values with Some count => count =? expected | None => false end.

Definition counts_reconcile (run : SyntheticRunInput) : bool :=
  (sr_offered_count run =? sr_attempted_count run) &&
  negb (sr_accepted_count run >? u64_sub u64_max (sr_full_count run)) &&
  (sr_attempted_count run =? u64_add (sr_accepted_count run) (sr_full_count run)) &&
  (sr_consumed_count run =? sr_accepted_count run) && (sr_final_occupancy run =? 0) &&
  (sr_raw_sample_count run =? sr_accepted_count run) &&
  negb (sr_n_eff_p999 run >? sr_raw_sample_count run).

Definition reconciliation_errors (run : SyntheticRunInput) : list ValidationError :=
  match sr_raw_reconciliation run with
  | Some raw =>
      let reconciled := reconcile (sr_run_id run) (rw_producer_rows raw) (rw_consumer_rows raw)
                          (rw_expected_record_indices raw) in
      if negb (bool_decide (rr_status reconciled = JoinStatus_passed)) ||
         negb (size_is (rr_joined_rows reconciled) (sr_accepted_count run)) then
        [mkError ErrorCategory_cross_field "$/run/raw_reconciliation" "ANALYSIS-RECONCILIATION-EXACT"
           "raw observations must pass exact Stage 12 reconciliation"]
      else
        error_when (negb (bool_decide (observed_latencies (rr_joined_rows reconciled) =
                                       encoded_latencies (sr_end_to_end_latencies run))))
          (mkError ErrorCategory_reference_mismatch "$/run/latencies" "ANALYSIS-INTERVALS-EXACT"
             "encoded latencies must equal exact joined derived intervals")
  | None =>
      error_when (negb (sr_prior_stage12_validation_passed run))
        (mkError ErrorCategory_missing_evidence "$/run/prior_stage12_validation_passed"
           "ANALYSIS-PRIOR-JOIN"
           "run requires exact reconciliation or immutable prior Stage 12 proof")
  end.

(** [summarize_diagnostic]; [values.back()] of a series that has quantiles. *)
Definition summarize_diagnostic (values : list WeightedLatency) : Result RunQuantiles :=
  match exact_inverse_ecdf_quantile values 1 2, exact_inverse_ecdf_quantile values 9 10,
        exact_inverse_ecdf_quantile values 99 100, exact_inverse_ecdf_quantile values 999 1000,
        last values with
  | success d50, success d90, success d99, success d999, Some back =>
      success (mkRunQuantiles d50 d90 d99 d999 None (wl_latency_ticks back))
  | _, _, _, _, _ =>
      fail_with ErrorCategory_cross_field "$/run/diagnostics" "ANALYSIS-DIAGNOSTIC-QUANTILES"
        "diagnostic series must support registered quantiles"
  end.

Definition run_gate (pass : bool) : GateStatus := if pass then GateStatus_pass else GateStatus_fail.

(** The blockers in the order of the pushes, which is the order of the values
    that [std::sort] establishes. *)
Definition run_blockers (run : SyntheticRunInput) : list ConfirmatoryBlocker :=
  (if sr_n_eff_p999 run >=? 200000 then [] else [ConfirmatoryBlocker_blocked_effective_tail]) ++
  (if bool_decide (sr_validity run = RunValidity_invalid) then
     [ConfirmatoryBlocker_blocked_invalid_run] else []) ++
  (if sr_full_count run =? 0 then [] else [ConfirmatoryBlocker_blocked_zero_loss]).

Definition run_estimability (blockers : list ConfirmatoryBlocker) : ConfirmatoryEstimability :=
  match blockers with
  | [] => ConfirmatoryEstimability_estimable
  | [ConfirmatoryBlocker_blocked_effective_tail] =>
      ConfirmatoryEstimability_blocked_effective_tail
  | [ConfirmatoryBlocker_blocked_invalid_run] => ConfirmatoryEstimability_blocked_invalid_run
  | [ConfirmatoryBlocker_blocked_zero_loss] => ConfirmatoryEstimability_blocked_zero_loss
  | _ => ConfirmatoryEstimability_blocked_multiple
  end.

Section Runs.

Context (sha256 : list Z -> list Z) (std_log : spec_float -> spec_float).

(** The hexadecimal form of a digest of 32 bytes always parses. *)
Definition sha_text (t : string) : Sha256 :=
  match Sha256_parse (Sha256_hex (mkSha256 (sha256 (string_bytes t)))) "$/analysis/sha256" with
  | success digest => digest
  | failure _ => mkSha256 []
  end.

Definition verify_artifact (artifact : ImmutableArtifact) : bool :=
  im_finalized artifact &&
  bool_decide (Sha256_hex (mkSha256 (sha256 (im_bytes artifact))) =
               Sha256_hex (ar_sha256 (im_reference artifact))).

(** A reference resolves to a finalized artifact with its digest. *)
Definition resolve_artifact (artifacts : list ImmutableArtifact) (reference : ArtifactReference) :
    option ImmutableArtifact :=
  match find_input_artifact artifacts (ar_artifact_id reference) with
  | Some artifact =>
      if bool_decide (im_reference artifact = reference) && verify_artifact artifact
      then Some artifact else None
  | None => None
  end.

Definition resolved (artifacts : list ImmutableArtifact) (reference : ArtifactReference) : bool :=
  bool_decide (is_Some (resolve_artifact artifacts reference)).

(** The same with the bytes of a canonical document. *)
Definition resolves_to (artifacts : list ImmutableArtifact) (reference : ArtifactReference)
    (canonical : Result string) : bool :=
  match canonical, resolve_artifact artifacts reference with
  | success t, Some artifact => artifact_bytes_equal artifact t
  | _, _ => false
  end.

Definition failure_errors (run : SyntheticRunInput) (artifacts : list ImmutableArtifact) :
    list ValidationError :=
  if bool_decide (sr_validity run = RunValidity_invalid) then
    match sr_failure_artifact run with
    | None =>
        [mkError ErrorCategory_missing_evidence "$/run/failure_artifact" "ANALYSIS-INVALID-FAILURE"
           "an invalid run requires retained failure evidence"]
    | Some reference =>
        error_when (negb (resolved artifacts reference))
          (mkError ErrorCategory_invalid_hash "$/run/failure_artifact" "ANALYSIS-FAILURE-HASH"
             "failure evidence must resolve and pass its checksum")
    end
  else
    error_when (bool_decide (is_Some (sr_failure_artifact run)))
      (mkError ErrorCategory_cross_field "$/run/failure_artifact" "ANALYSIS-VALID-NO-FAILURE"
         "a valid synthetic run cannot carry invalidating failure evidence").

Definition run_input_errors (run : SyntheticRunInput) (artifacts : list ImmutableArtifact) :
    list ValidationError :=
  error_when (negb (bool_decide (sr_protocol_version run = ProtocolVersion_v2_0_0_pre_2)) ||
              negb (bool_decide (sr_schema_version run = kRunInputSchema)))
    (mkError ErrorCategory_unsupported_version "$/run/version" "ANALYSIS-RUN-VERSION"
       "Stage 15 accepts only the pre.2 synthetic run-input schema") ++
  error_when (negb (resolves_to artifacts (sr_manifest_artifact run) (canonical_synthetic_run run)))
    (mkError ErrorCategory_invalid_hash "$/run/manifest_artifact" "ANALYSIS-MANIFEST-HASH"
       "run projection must equal its finalized immutable manifest artifact") ++
  error_when (negb (resolves_to artifacts (sr_joined_artifact run)
                      (canonical_synthetic_latency_payload (sr_run_id run)
                         (sr_end_to_end_latencies run))))
    (mkError ErrorCategory_invalid_hash "$/run/joined_artifact" "ANALYSIS-JOINED-HASH"
       "synthetic latency payload must equal its finalized immutable artifact") ++
  error_when (negb (resolved artifacts (sr_join_audit_artifact run)))
    (mkError ErrorCategory_missing_evidence "$/run/join_audit_artifact" "ANALYSIS-JOIN-AUDIT"
       "a finalized checksum-valid join audit is required") ++
  failure_errors run artifacts ++
  error_when (negb (counts_reconcile run))
    (mkError ErrorCategory_cross_field "$/run/counts" "ANALYSIS-COUNT-GATES"
       "run counts, zero occupancy, raw count, and N_eff must reconcile exactly") ++
  error_when (negb (series_counts (sr_end_to_end_latencies run) (sr_raw_sample_count run)))
    (mkError ErrorCategory_cross_field "$/run/latencies" "ANALYSIS-LATENCY-COUNT"
       "synthetic latency multiplicity must equal the accepted raw count") ++
  error_when (sr_measurement_horizon_ticks run =? 0)
    (mkError ErrorCategory_out_of_range "$/run/measurement_horizon_ticks" "ANALYSIS-HORIZON-POSITIVE"
       "diagnostic throughput requires a positive frozen horizon") ++
  error_when (negb (forallb (fun series => series_counts (fst series) (snd series))
                      (diagnostic_counts run)))
    (mkError ErrorCategory_cross_field "$/run/diagnostics" "ANALYSIS-DIAGNOSTIC-COUNT"
       "producer diagnostics require attempted rows and accepted diagnostics require joined rows") ++
  reconciliation_errors run ++
  error_when (bool_decide (sr_validity run = RunValidity_not_evaluated))
    (mkError ErrorCategory_missing_evidence "$/run/validity" "ANALYSIS-VALIDITY-EVALUATED"
       "analysis cannot consume a run whose validity is not evaluated").

(** The quantiles of the end-to-end latencies. *)
Definition end_to_end_quantiles (run : SyntheticRunInput) : Result RunQuantiles :=
  let values := sr_end_to_end_latencies run in
  let refused := fail_with ErrorCategory_out_of_range "$/run/latencies" "ANALYSIS-QUANTILES"
                   "registered quantiles require positive latency values" in
  match exact_inverse_ecdf_quantile values 1 2, exact_inverse_ecdf_quantile values 9 10,
        exact_inverse_ecdf_quantile values 99 100, exact_inverse_ecdf_quantile values 999 1000,
        last values with
  | success p50, success p90, success p99, success p999, Some back =>
      if p999 =? 0 then refused
      else
        let summary p9999 :=
          success (mkRunQuantiles p50 p90 p99 p999 p9999 (wl_latency_ticks back)) in
        if sr_n_eff_p999 run >=? 2000000 then
          let* value := exact_inverse_ecdf_quantile values 9999 10000 in
          summary (Some value)
        else summary None
  | _, _, _, _, _ => refused
  end.

Definition summarize_run (run : SyntheticRunInput) (artifacts : list ImmutableArtifact) :
    Result RunSummary :=
  match run_input_errors run artifacts with
  | (_ :: _) as errors => failure errors
  | [] =>
      let* quantiles := end_to_end_quantiles run in
      let d := sr_diagnostics run in
      match summarize_diagnostic (dg_producer_lateness d), summarize_diagnostic (dg_enqueue_service d),
            summarize_diagnostic (dg_admission_delay d), summarize_diagnostic (dg_queue_residence d),
            summarize_diagnostic (dg_dequeue_service d),
            summarize_diagnostic (dg_post_dequeue_delivery d),
            summarize_diagnostic (dg_consumer_action d) with
      | success lateness, success enqueue, success admission, success residence, success dequeue,
        success delivery, success action =>
          let blockers := run_blockers run in
          success (mkRunSummary (sr_run_id run) (sr_block_id run) (sr_block_role run) (sr_package run)
            (sr_hardware_state run) (sr_placement run) (sr_working_set run) (sr_load run)
            (sr_validity run) (run_gate (sr_full_count run =? 0))
            (run_gate (sr_n_eff_p999 run >=? 200000)) (run_estimability blockers) blockers quantiles
            lateness enqueue admission residence dequeue delivery action
            (mkExactRate (sr_consumed_count run) (sr_measurement_horizon_ticks run))
            (mkExactRatio (sr_full_count run) (sr_attempted_count run)) (sr_final_occupancy run)
            (std_log (f64_of_Z (q_p999 quantiles))))
      | _, _, _, _, _, _, _ =>
          fail_with ErrorCategory_cross_field "$/run/diagnostics" "ANALYSIS-DIAGNOSTIC-QUANTILES"
            "all registered diagnostic series are required"
      end
  end.

End Runs.

(** ** Lemmas: quantiles *)

(** The values of an encoded sample are 64-bit. *)
Definition weighted_u64 (value : WeightedLatency) : Prop :=
  is_u64 (wl_latency_ticks value) /\ is_u64 (wl_multiplicity value).

(** The size of an encoded sample, and how many of its values are at most [v]. *)
Fixpoint sample_size (values : list WeightedLatency) : Z :=
  match values with [] => 0 | value :: rest => wl_multiplicity value + sample_size rest end.

Fixpoint count_le (v : Z) (values : list WeightedLatency) : Z :=
  match values with
  | [] => 0
  | value :: rest =>
      (if wl_latency_ticks value <=? v then wl_multiplicity value else 0) + count_le v rest
  end.

(** The inverse of the empirical distribution function at [n / d]: the smallest
    value of the sample such that at least this fraction of the sample is not
    larger. *)
Definition sample_inverse_ecdf (values : list WeightedLatency) (n d v : Z) : Prop :=
  v ∈ wl_latency_ticks <$> values /\
  n * sample_size values <= d * count_le v values /\
  forall w, w < v -> d * count_le w values < n * sample_size values.

(** A legal encoding: increasing values with positive counts that fit 64 bits. *)
Fixpoint increasing (values : list WeightedLatency) : Prop :=
  match values with
  | [] => True
  | value :: rest =>
      0 < wl_multiplicity value /\
      Forall (fun later => wl_latency_ticks value < wl_latency_ticks later) rest /\ increasing rest
  end.

Lemma sample_size_nonneg values : Forall weighted_u64 values -> 0 <= sample_size values.
Proof. induction 1 as [|v l [_ H] _ IH]; cbn; int_lia. Qed.

Lemma checked_weight_sum_from_spec sum values : 0 <= sum <= u64_max -> Forall weighted_u64 values ->
  checked_weight_sum_from sum values =
  if sum + sample_size values <=? u64_max then Some (sum + sample_size values) else None.
Proof.
  intros S W. revert sum S. induction W as [|v l [_ H] W IH]; intros sum S; cbn.
  - rewrite Z.add_0_r. by rewrite (proj2 (Z.leb_le _ _)) by lia.
  - pose proof (sample_size_nonneg l W) as N. rewrite u64_sub_small by int_lia.
    destruct (Z.gtb_spec (wl_multiplicity v) (u64_max - sum)).
    + by rewrite (proj2 (Z.leb_gt _ _)) by lia.
    + rewrite u64_add_small by int_lia. rewrite IH by int_lia.
      by replace (sum + wl_multiplicity v + sample_size l)
        with (sum + (wl_multiplicity v + sample_size l)) by lia.
Qed.

Lemma checked_weight_sum_spec values : Forall weighted_u64 values ->
  checked_weight_sum values = if sample_size values <=? u64_max then Some (sample_size values) else None.
Proof. intros W. unfold checked_weight_sum. by rewrite checked_weight_sum_from_spec by (int_lia || done). Qed.

Lemma rle_sorted_spec previous values : Forall weighted_u64 values ->
  rle_sorted previous values = true <->
  increasing values /\
  match previous with
  | Some p => Forall (fun later => p < wl_latency_ticks later) values
  | None => True
  end.
Proof.
  intros W. revert previous. induction W as [|v l [_ H] W IH]; intros previous; cbn.
  { destruct previous; split; auto using Forall_nil_2. }
  rewrite !andb_true_iff, IH, negb_true_iff, Z.eqb_neq.
  destruct previous as [p|]; [rewrite negb_true_iff, Z.leb_gt|]; split.
  - intros [[A B] [I F]]. split_and!; [int_lia | done | done |]. constructor; [done|].
    eapply Forall_impl; [exact F|]. cbn. lia.
  - intros [(A & F & I) G]. inversion G; subst. split_and!; try done; lia.
  - intros [[A B] [I F]]. split_and!; [int_lia | done | done | done].
  - intros [(A & F & I) G]. split_and!; try done; lia.
Qed.

Lemma count_le_below w values : Forall (fun later => w < wl_latency_ticks later) values ->
  count_le w values = 0.
Proof.
  induction 1 as [|v l H _ IH]; cbn; [done|]. by rewrite (proj2 (Z.leb_gt _ _)), IH by lia.
Qed.

(** The rank arithmetic: comparing with [rank] is comparing fractions. *)
Lemma rank_compare count n d c : 0 < n -> 0 < d ->
  let rank := count / d * n + (count mod d * n / d + if count mod d * n mod d =? 0 then 0 else 1) in
  rank <= c <-> n * count <= d * c.
Proof.
  intros N D rank. subst rank.
  pose proof (Z.div_mod count d ltac:(lia)) as E. pose proof (Z.mod_pos_bound count d D) as B.
  set (q := count / d) in *. set (r := count mod d) in *.
  pose proof (Z.div_mod (r * n) d ltac:(lia)) as E2. pose proof (Z.mod_pos_bound (r * n) d D) as B2.
  set (x := r * n / d) in *. set (y := (r * n) mod d) in *.
  destruct (Z.eqb_spec y 0); split; intros H; nia.
Qed.

Lemma rank_value_spec n d total values cumulative rank :
  (forall c, rank <= c <-> n * total <= d * c) ->
  Forall weighted_u64 values -> increasing values -> 0 < n -> 0 < d ->
  0 <= cumulative < rank -> cumulative + sample_size values <= u64_max ->
  rank <= cumulative + sample_size values ->
  exists v, rank_value cumulative rank values = Some v /\ v ∈ wl_latency_ticks <$> values /\
    n * total <= d * (cumulative + count_le v values) /\
    forall w, w < v -> d * (cumulative + count_le w values) < n * total.
Proof.
  intros R W. revert cumulative. induction W as [|x l [_ X] W IH];
    intros cumulative I N D C B T; cbn in *; [lia|].
  destruct I as (M & F & I). pose proof (sample_size_nonneg l W).
  rewrite u64_add_small by int_lia. rewrite Z.geb_leb.
  destruct (Z.leb_spec rank (cumulative + wl_multiplicity x)) as [L|L].
  - exists (wl_latency_ticks x). split_and!; [done | set_solver | |].
    + rewrite Z.leb_refl, count_le_below by done. rewrite <- R. lia.
    + intros w H'. rewrite (proj2 (Z.leb_gt _ _)) by lia.
      rewrite count_le_below by (eapply Forall_impl; [exact F|cbn; lia]).
      apply Z.nle_gt. rewrite <- R. lia.
  - destruct (IH (cumulative + wl_multiplicity x)) as (v & E & V & A & Z); [done | lia..|].
    assert (P : wl_latency_ticks x < v).
    { apply list_elem_of_fmap in V as (y & -> & Y). rewrite Forall_forall in F. by apply F. }
    exists v. split_and!; [done | set_solver | |].
    + rewrite (proj2 (Z.leb_le _ _)) by lia.
      by replace (cumulative + (wl_multiplicity x + count_le v l))
        with (cumulative + wl_multiplicity x + count_le v l) by lia.
    + intros w H'. destruct (Z.leb_spec (wl_latency_ticks x) w).
      * replace (cumulative + (wl_multiplicity x + count_le w l))
          with (cumulative + wl_multiplicity x + count_le w l) by lia. by apply Z.
      * rewrite count_le_below by (eapply Forall_impl; [exact F|cbn; lia]).
        apply Z.nle_gt. rewrite <- R. lia.
Qed.

(** The arguments of a quantile that has a value. *)
Definition quantile_defined (values : list WeightedLatency) (n d : Z) : Prop :=
  values <> [] /\ 0 < n <= d /\ sample_size values <= u64_max /\ increasing values.

Lemma quantile_value values n d : Forall weighted_u64 values ->
  quantile_defined values n d -> d <= u32_max ->
  exists v, exact_inverse_ecdf_quantile values n d = success v /\ sample_inverse_ecdf values n d v.
Proof.
  intros W (NE & N & S & I) D. unfold exact_inverse_ecdf_quantile.
  assert (P : 0 < sample_size values).
  { destruct values as [|x l]; [done|]. cbn. inversion W; subst. destruct I as (M & _ & _).
    pose proof (sample_size_nonneg l ltac:(done)). lia. }
  replace (negb (nonempty values) || (n =? 0) || (d =? 0) || (n >? d)) with false
    by (destruct values; [done|]; cbn; lia).
  rewrite checked_weight_sum_spec, (proj2 (Z.leb_le _ _)) by done.
  destruct (sample_size values) as [|size|] eqn:E; [lia| |lia]. rewrite <- E in *. clear E.
  rewrite (proj2 (rle_sorted_spec None values W)) by done. cbn [negb].
  set (count := sample_size values) in *.
  assert (Q : 0 <= count / d <= u64_max / d).
  { split; [apply Z.div_pos; lia | apply Z.div_le_mono; lia]. }
  pose proof (Z.mod_pos_bound count d ltac:(lia)) as B.
  assert (L : u64_max / d <= u64_max / n) by (apply Z.div_le_compat_l; int_lia).
  assert (U : 4294967295 <= u64_max / n).
  { apply Z.div_le_lower_bound; int_lia. }
  replace ((count / d >? u64_max / n) || (count mod d >? u64_max / n)) with false
    by (symmetry; int_lia).
  assert (M : count / d * n <= count).
  { transitivity (count / d * d); [nia|]. pose proof (Z.mul_div_le count d). lia. }
  assert (X : 0 <= count mod d * n <= u64_max) by (unfold_ints; nia).
  assert (Y : 0 <= count mod d * n / d <= count mod d).
  { split; [apply Z.div_pos; lia|]. apply Z.div_le_upper_bound; nia. }
  pose proof (rank_compare count n d) as R. specialize (fun c => R c ltac:(lia) ltac:(lia)).
  cbv zeta in R.
  rewrite (u64_mul_small (count / d)), (u64_mul_small (count mod d)) by (unfold_ints; nia).
  rewrite (u64_add_small (count mod d * n / d)) by (destruct (_ =? 0); int_lia).
  set (extra := count mod d * n / d + (if count mod d * n mod d =? 0 then 0 else 1)) in *.
  assert (T : count / d * n + extra <= count) by (apply R; nia).
  assert (Ex : 0 <= extra) by (subst extra; destruct (_ =? 0); lia).
  assert (Lo : 0 < count / d * n + extra).
  { apply Z.nle_gt. rewrite R. nia. }
  rewrite u64_sub_small by int_lia. assert (0 <= count / d * n) by nia.
  rewrite Z.gtb_ltb, (proj2 (Z.ltb_ge _ _)) by lia. rewrite u64_add_small by int_lia.
  destruct (rank_value_spec n d count values 0 _ R W I) as (v & -> & V & A & Z);
    [lia..|]. exists v. split; [done|]. by split_and!.
Qed.

Lemma quantile_undefined values n d e : Forall weighted_u64 values -> is_u64 n -> is_u64 d ->
  d <= u32_max -> exact_inverse_ecdf_quantile values n d = failure e -> ~ quantile_defined values n d.
Proof.
  intros W N D B E Q. destruct (quantile_value _ _ _ W Q B) as (v & V & _). congruence.
Qed.

Lemma quantile_success_defined values n d v : Forall weighted_u64 values -> is_u64 n -> is_u64 d ->
  exact_inverse_ecdf_quantile values n d = success v -> quantile_defined values n d.
Proof.
  intros W N D. unfold exact_inverse_ecdf_quantile, quantile_defined.
  destruct (negb (nonempty values) || _ || _ || _) eqn:E; [done|].
  rewrite checked_weight_sum_spec by done. destruct (Z.leb_spec (sample_size values) u64_max) as [S|]; [|done].
  destruct (sample_size values) eqn:Z; [done|..]; rewrite <- Z in *;
    (destruct (rle_sorted None values) eqn:R; [|done]); intros _;
    apply rle_sorted_spec in R as [I _]; try done; rewrite !orb_false_iff in E;
    destruct E as [[[E1 E2] E3] E4]; (split_and!; [by destruct values | int_lia | int_lia | done | done]).
Qed.

(** C19. Quantiles are exact. For every run-length encoded sample of 64-bit
    values and every fraction with a denominator below [2^32], the routine
    returns a value exactly when the fraction is in (0, 1], and the encoding is
    nonempty, strictly increasing with positive counts and counts at most
    [2^64 - 1] samples; the value is then the inverse of the empirical
    distribution function: the smallest observed value such that at least the
    given fraction of the sample is not larger. No intermediate product
    overflows. *)
Theorem quantile_exact values n d :
  Forall weighted_u64 values -> is_u64 n -> is_u64 d -> d <= u32_max ->
  match exact_inverse_ecdf_quantile values n d with
  | success v => quantile_defined values n d /\ sample_inverse_ecdf values n d v
  | failure _ => ~ quantile_defined values n d
  end.
Proof.
  intros W N D B. destruct (exact_inverse_ecdf_quantile values n d) as [v|e] eqn:E.
  - pose proof (quantile_success_defined _ _ _ _ W N D E) as Q. split; [done|].
    destruct (quantile_value _ _ _ W Q B) as (v' & V & I). congruence.
  - by eapply quantile_undefined.
Qed.

Definition sample_latencies : list WeightedLatency :=
  [mkWeightedLatency 10 999000; mkWeightedLatency 25 900000; mkWeightedLatency 40 100999;
   mkWeightedLatency 4000 1].

Lemma sample_latencies_u64 : Forall weighted_u64 sample_latencies.
Proof. repeat constructor; cbn; unfold_ints; lia. Qed.

Lemma quantile_exact_witness :
  exact_inverse_ecdf_quantile sample_latencies 999 1000 = success 40 /\
  sample_inverse_ecdf sample_latencies 999 1000 40.
Proof.
  split; [vm_compute; reflexivity|].
  assert (E : exact_inverse_ecdf_quantile sample_latencies 999 1000 = success 40)
    by (vm_compute; reflexivity).
  assert (N : is_u64 999) by (unfold_ints; lia). assert (D : is_u64 1000) by (unfold_ints; lia).
  assert (B : 1000 <= u32_max) by (unfold_ints; lia).
  pose proof (quantile_exact sample_latencies 999 1000 sample_latencies_u64 N D B) as Q.
  rewrite E in Q. exact (proj2 Q).
Defined.

(** ** Lemmas: run summaries *)

Lemma count_le_mono v w values : Forall weighted_u64 values -> v <= w ->
  count_le v values <= count_le w values.
Proof.
  intros W L. induction W as [|x l [_ H] _ IH]; cbn; [lia|].
  destruct (Z.leb_spec (wl_latency_ticks x) v), (Z.leb_spec (wl_latency_ticks x) w); int_lia.
Qed.

(** Larger fractions have larger quantiles. *)
Lemma sample_inverse_ecdf_mono values n d n' d' v v' : Forall weighted_u64 values ->
  0 < d -> 0 < d' -> n * d' <= n' * d ->
  sample_inverse_ecdf values n d v -> sample_inverse_ecdf values n' d' v' -> v <= v'.
Proof.
  intros W D D' L (_ & _ & A) (_ & B & _). apply Z.nlt_ge. intros H. specialize (A _ H).
  pose proof (sample_size_nonneg _ W). nia.
Qed.

Lemma increasing_last values back : increasing values -> last values = Some back ->
  forall v, v ∈ wl_latency_ticks <$> values -> v <= wl_latency_ticks back.
Proof.
  induction values as [|x l IH]; [done|]. intros (_ & F & I) L v V.
  apply list_elem_of_fmap in V as (y & -> & Y). destruct l as [|z l].
  - cbn in L. injection L as <-. apply list_elem_of_singleton in Y as ->. lia.
  - change (last (z :: l) = Some back) in L. apply elem_of_cons in Y as [->|Y].
    + assert (back ∈ z :: l) as B by by apply last_Some_elem_of.
      rewrite Forall_forall in F. specialize (F _ B). lia.
    + apply IH; [done..|]. by apply list_elem_of_fmap_2.
Qed.

(** The counts, positions and samples of a run are 64-bit values. *)
Definition run_u64 (run : SyntheticRunInput) : Prop :=
  Forall is_u64 [sr_offered_count run; sr_attempted_count run; sr_accepted_count run;
                 sr_full_count run; sr_consumed_count run; sr_raw_sample_count run;
                 sr_n_eff_p999 run] /\
  Forall weighted_u64 (sr_end_to_end_latencies run).

(** The quantiles of a summary. *)
Record quantiles_sound (values : list WeightedLatency) (n_eff : Z) (q : RunQuantiles) : Prop := {
  qs_p50 : sample_inverse_ecdf values 1 2 (q_p50 q);
  qs_p90 : sample_inverse_ecdf values 9 10 (q_p90 q);
  qs_p99 : sample_inverse_ecdf values 99 100 (q_p99 q);
  qs_p999 : sample_inverse_ecdf values 999 1000 (q_p999 q);
  qs_p9999 : match q_p9999 q with
             | Some p => 2000000 <= n_eff /\ sample_inverse_ecdf values 9999 10000 p
             | None => n_eff < 2000000
             end;
  qs_order : q_p50 q <= q_p90 q <= q_p99 q /\ q_p99 q <= q_p999 q <= q_maximum q;
  qs_positive : 0 < q_p999 q;
  qs_maximum : forall v, v ∈ wl_latency_ticks <$> values -> v <= q_maximum q
}.

Lemma quantile_inverse values n d v : Forall weighted_u64 values -> is_u64 n -> is_u64 d ->
  d <= u32_max -> exact_inverse_ecdf_quantile values n d = success v -> sample_inverse_ecdf values n d v.
Proof.
  intros W N D B E. pose proof (quantile_success_defined _ _ _ _ W N D E) as Q.
  destruct (quantile_value _ _ _ W Q B) as (v' & V & I). congruence.
Qed.

Lemma end_to_end_quantiles_sound run q : run_u64 run -> end_to_end_quantiles run = success q ->
  quantiles_sound (sr_end_to_end_latencies run) (sr_n_eff_p999 run) q.
Proof.
  intros [_ W]. unfold end_to_end_quantiles. set (values := sr_end_to_end_latencies run) in *.
  destruct (exact_inverse_ecdf_quantile values 1 2) as [p50|] eqn:E50; [|done].
  destruct (exact_inverse_ecdf_quantile values 9 10) as [p90|] eqn:E90; [|done].
  destruct (exact_inverse_ecdf_quantile values 99 100) as [p99|] eqn:E99; [|done].
  destruct (exact_inverse_ecdf_quantile values 999 1000) as [p999|] eqn:E999; [|done].
  destruct (last values) as [back|] eqn:L; [|done].
  destruct (Z.eqb_spec p999 0); [done|].
  assert (I : increasing values)
    by (apply (quantile_success_defined _ _ _ _ W) in E50; [apply E50 | int_lia..]).
  apply quantile_inverse in E50, E90, E99, E999; [|done || int_lia..].
  assert (T : forall p, q = mkRunQuantiles p50 p90 p99 p999 p (wl_latency_ticks back) ->
    match p with
    | Some x => 2000000 <= sr_n_eff_p999 run /\ sample_inverse_ecdf values 9999 10000 x
    | None => sr_n_eff_p999 run < 2000000
    end -> quantiles_sound values (sr_n_eff_p999 run) q).
  { intros p -> P. split; cbn; try done.
    - pose proof (sample_inverse_ecdf_mono values 1 2 9 10 _ _ W ltac:(lia) ltac:(lia) ltac:(lia) E50 E90).
      pose proof (sample_inverse_ecdf_mono values 9 10 99 100 _ _ W ltac:(lia) ltac:(lia) ltac:(lia) E90 E99).
      pose proof (sample_inverse_ecdf_mono values 99 100 999 1000 _ _ W ltac:(lia) ltac:(lia) ltac:(lia) E99 E999).
      pose proof (increasing_last _ _ I L _ (proj1 E999)). lia.
    - destruct E999 as (V & _). apply list_elem_of_fmap in V as (y & -> & Y).
      rewrite Forall_forall in W. destruct (W _ Y). int_lia.
    - by apply increasing_last. }
  rewrite Z.geb_leb. destruct (Z.leb_spec 2000000 (sr_n_eff_p999 run)); cbn [rbind].
  - destruct (exact_inverse_ecdf_quantile values 9999 10000) as [x|] eqn:E; [|done]. cbn.
    intros [= <-]. eapply T; [done|]. split; [done|]. apply quantile_inverse; (done || int_lia).
  - intros [= <-]. by eapply T.
Qed.

Lemma run_estimability_spec run :
  run_estimability (run_blockers run) = ConfirmatoryEstimability_estimable <->
  200000 <= sr_n_eff_p999 run /\ sr_validity run <> RunValidity_invalid /\ sr_full_count run = 0.
Proof.
  unfold run_blockers. rewrite Z.geb_leb.
  destruct (Z.leb_spec 200000 (sr_n_eff_p999 run)), (Z.eqb_spec (sr_full_count run) 0),
    (bool_decide_reflect (sr_validity run = RunValidity_invalid)); cbn;
    (split; [done || lia | intros (A & B & C); done || lia]).
Qed.

Lemma counts_reconcile_spec run : run_u64 run -> counts_reconcile run = true ->
  sr_offered_count run = sr_attempted_count run /\
  sr_attempted_count run = sr_accepted_count run + sr_full_count run /\
  sr_consumed_count run = sr_accepted_count run /\ sr_final_occupancy run = 0 /\
  sr_raw_sample_count run = sr_accepted_count run /\
  sr_n_eff_p999 run <= sr_raw_sample_count run.
Proof.
  intros [U _]. rewrite !Forall_cons in U. destruct U as (U1 & U2 & U3 & U4 & U5 & U6 & U7 & _).
  unfold counts_reconcile. rewrite !andb_true_iff, !negb_true_iff.
  intros [[[[[[A B] C] D] E] F] G]. rewrite u64_sub_small in B by int_lia.
  rewrite u64_add_small in C by int_lia. int_lia.
Qed.

Lemma series_counts_spec values expected : Forall weighted_u64 values ->
  series_counts values expected = true -> sample_size values = expected.
Proof.
  intros W. unfold series_counts. rewrite checked_weight_sum_spec by done.
  destruct (_ <=? _); [|done]. by rewrite Z.eqb_eq.
Qed.

Section Summaries.

Context (sha256 : list Z -> list Z) (std_log : spec_float -> spec_float).

(** The digest of an artifact is that of its bytes, in its printed form. *)
Definition checksum_valid (artifact : ImmutableArtifact) : Prop :=
  im_finalized artifact = true /\
  Sha256_hex (mkSha256 (sha256 (im_bytes artifact))) = Sha256_hex (ar_sha256 (im_reference artifact)).

(** A reference names the first artifact with its identifier, which is valid. *)
Definition artifact_evidence (artifacts : list ImmutableArtifact) (reference : ArtifactReference)
    (artifact : ImmutableArtifact) : Prop :=
  find_input_artifact artifacts (ar_artifact_id reference) = Some artifact /\
  im_reference artifact = reference /\ checksum_valid artifact.

Lemma resolves_spec artifacts reference artifact :
  resolve_artifact sha256 artifacts reference = Some artifact <-> artifact_evidence artifacts reference artifact.
Proof.
  unfold resolve_artifact, artifact_evidence, checksum_valid, verify_artifact.
  destruct (find_input_artifact _ _) as [a|]; [|by split; [|intros [? _]]].
  destruct (_ && _) eqn:E.
  - rewrite !andb_true_iff, !bool_decide_eq_true in E. destruct E as (R & F & H).
    split; [by intros [= <-]|]. by intros [E _].
  - split; [done|]. intros ([= <-] & R & F & H).
    rewrite F, !bool_decide_eq_true_2 in E by done. done.
Qed.

Lemma resolves_to_spec artifacts reference canonical :
  resolves_to sha256 artifacts reference canonical = true <->
  exists artifact t, canonical = success t /\ artifact_evidence artifacts reference artifact /\
    im_bytes artifact = string_bytes t.
Proof.
  unfold resolves_to, artifact_bytes_equal.
  destruct canonical as [t|e]; [|by split; [|intros (? & ? & ? & _)]].
  destruct (resolve_artifact sha256 artifacts reference) as [a|] eqn:R.
  - rewrite bool_decide_eq_true. pose proof (proj1 (resolves_spec _ _ _) R) as V.
    split; [intros B; by exists a, t|].
    intros (a' & t' & [= <-] & E & B). apply resolves_spec in E. congruence.
  - split; [done|]. intros (a' & t' & _ & E & _). apply resolves_spec in E. congruence.
Qed.

(** What a summary says of its run. *)
Record summary_sound (run : SyntheticRunInput) (artifacts : list ImmutableArtifact)
    (summary : RunSummary) : Prop := {
  ss_identity : rs_run_id summary = sr_run_id run /\ rs_block_id summary = sr_block_id run /\
    rs_block_role summary = sr_block_role run /\ rs_validity summary = sr_validity run /\
    (rs_package summary, rs_hardware_state summary, rs_placement summary, rs_working_set summary,
     rs_load summary) =
    (sr_package run, sr_hardware_state run, sr_placement run, sr_working_set run, sr_load run);
  ss_manifest : exists artifact t, canonical_synthetic_run run = success t /\
    artifact_evidence artifacts (sr_manifest_artifact run) artifact /\ im_bytes artifact = string_bytes t;
  ss_latencies : exists artifact t,
    canonical_synthetic_latency_payload (sr_run_id run) (sr_end_to_end_latencies run) = success t /\
    artifact_evidence artifacts (sr_joined_artifact run) artifact /\ im_bytes artifact = string_bytes t;
  ss_counts : sr_offered_count run = sr_accepted_count run + sr_full_count run /\
    sr_consumed_count run = sr_accepted_count run /\ sr_final_occupancy run = 0 /\
    sample_size (sr_end_to_end_latencies run) = sr_accepted_count run /\
    sr_n_eff_p999 run <= sr_accepted_count run;
  ss_quantiles : quantiles_sound (sr_end_to_end_latencies run) (sr_n_eff_p999 run)
    (rs_quantiles summary);
  ss_response : rs_log_p999 summary = std_log (f64_of_Z (q_p999 (rs_quantiles summary)));
  ss_estimable : rs_estimability summary = ConfirmatoryEstimability_estimable <->
    200000 <= sr_n_eff_p999 run /\ sr_validity run = RunValidity_valid /\ sr_full_count run = 0
}.

Lemma summarize_run_inv run artifacts summary :
  summarize_run sha256 std_log run artifacts = success summary ->
  run_input_errors sha256 run artifacts = [] /\
  end_to_end_quantiles run = success (rs_quantiles summary) /\
  rs_log_p999 summary = std_log (f64_of_Z (q_p999 (rs_quantiles summary))) /\
  rs_estimability summary = run_estimability (run_blockers run) /\
  rs_run_id summary = sr_run_id run /\ rs_block_id summary = sr_block_id run /\
  rs_block_role summary = sr_block_role run /\ rs_validity summary = sr_validity run /\
  (rs_package summary, rs_hardware_state summary, rs_placement summary, rs_working_set summary,
   rs_load summary) =
  (sr_package run, sr_hardware_state run, sr_placement run, sr_working_set run, sr_load run).
Proof.
  unfold summarize_run. destruct (run_input_errors sha256 run artifacts); [|done].
  destruct (end_to_end_quantiles run) as [q|]; [|done]. cbn [rbind].
  do 7 (destruct (summarize_diagnostic _); [|done]). by intros [= <-].
Qed.

(** C13. A run is summarized only from its evidence. If [summarize_run] succeeds,
    the run and its latencies are byte for byte the canonical documents of
    finalized artifacts with matching digests; every offered event was accepted
    or refused, every accepted one consumed and counted in the latency sample;
    the reported quantiles are the exact ones, in order, with the extreme one
    only for two million effective samples; and the run is estimable exactly if
    it is valid, lost nothing and has 200000 effective tail samples. *)
Theorem summarize_run_sound run artifacts summary :
  run_u64 run -> summarize_run sha256 std_log run artifacts = success summary ->
  summary_sound run artifacts summary.
Proof.
  intros U S. apply summarize_run_inv in S as (E & Q & L & T & I1 & I2 & I3 & I4 & I5).
  unfold run_input_errors in E. errors_nil.
  match goal with H : negb (counts_reconcile run) = false |- _ => rename H into C end.
  match goal with H : negb (series_counts _ (sr_raw_sample_count run)) = false |- _ => rename H into N end.
  apply negb_false_iff in C, N. apply counts_reconcile_spec in C; [|done].
  apply series_counts_spec in N; [|apply U]. split.
  - done.
  - apply resolves_to_spec, negb_false_iff. done.
  - apply resolves_to_spec, negb_false_iff. done.
  - lia.
  - by apply end_to_end_quantiles_sound.
  - done.
  - rewrite T, run_estimability_spec.
    match goal with H : bool_decide (sr_validity run = RunValidity_not_evaluated) = false |- _ =>
      apply bool_decide_eq_false in H end.
    destruct (sr_validity run); intuition congruence.
Qed.

End Summaries.

(** ** A run that passes *)

Definition sample_run_id : Identifier := "run-1".

Definition latency_series (n : Z) : list WeightedLatency := [mkWeightedLatency 7 n].

Definition stored_text (id : string) (t : string) : ImmutableArtifact :=
  mkImmutableArtifact ProtocolVersion_v2_0_0_pre_2 "v1"
    (mkArtifactReference id (mkSha256 (sample_sha (string_bytes t)))) (string_bytes t) true.

Definition joined_text : string :=
  match canonical_synthetic_latency_payload sample_run_id sample_latencies with
  | success t => t
  | failure _ => EmptyString
  end.

Definition sample_run (n_eff : Z) (manifest : ArtifactReference) : SyntheticRunInput :=
  mkSyntheticRunInput ProtocolVersion_v2_0_0_pre_2 kRunInputSchema sample_run_id "block-1"
    BlockRole_h3_train 0 QueuePackage_r0 RequestedHardwareState_h0 Placement_near
    WorkingSetClass_l2_resident LoadLevel_l050 RunValidity_valid 2000000 2000000 2000000 0 2000000 0
    2000000 n_eff 90000000 sample_latencies
    (mkSyntheticDiagnosticSeries (latency_series 2000000) (latency_series 2000000)
       (latency_series 2000000) (latency_series 2000000) (latency_series 2000000)
       (latency_series 2000000) (latency_series 2000000))
    manifest (im_reference (stored_text "joined" joined_text)) (im_reference (stored_text "audit" "{}"))
    None None true.

(** The manifest names its artifact, not its digest. *)
Definition run_manifest (n_eff : Z) : string :=
  match canonical_synthetic_run (sample_run n_eff (mkArtifactReference "manifest" (mkSha256 []))) with
  | success t => t
  | failure _ => EmptyString
  end.

Definition bound_sample (n_eff : Z) : SyntheticRunInput :=
  sample_run n_eff (im_reference (stored_text "manifest" (run_manifest n_eff))).

Definition sample_run_artifacts (n_eff : Z) : list ImmutableArtifact :=
  [stored_text "manifest" (run_manifest n_eff); stored_text "joined" joined_text;
   stored_text "audit" "{}"].

Definition summarized_run : SyntheticRunInput := bound_sample 2000000.

Definition run_artifacts : list ImmutableArtifact := sample_run_artifacts 2000000.

Lemma summarized_run_u64 : run_u64 summarized_run.
Proof. split; [|apply sample_latencies_u64]. repeat constructor; cbn; unfold_ints; lia. Qed.

(** [std::log] of the sample: any function will do. *)
Lemma summarized_run_success :
  exists summary, summarize_run sample_sha id summarized_run run_artifacts = success summary /\
    q_p999 (rs_quantiles summary) = 40 /\ q_p9999 (rs_quantiles summary) = Some 40 /\
    rs_estimability summary = ConfirmatoryEstimability_estimable.
Proof. eexists. split; [vm_compute; reflexivity|]. split_and!; reflexivity. Qed.

Lemma summarize_run_sound_witness :
  exists summary, summary_sound sample_sha id summarized_run run_artifacts summary /\
    rs_estimability summary = ConfirmatoryEstimability_estimable.
Proof.
  destruct summarized_run_success as (summary & S & _ & _ & E). exists summary.
  split; [|exact E].
  exact (summarize_run_sound sample_sha id summarized_run run_artifacts summary summarized_run_u64 S).
Defined.

(** ** Access grants *)

Lemma grant_blocks_spec domain unique blocks ids :
  grant_blocks domain unique blocks = Some ids ->
  ids = bp_block_id <$> blocks /\ NoDup ids /\ (forall id, id ∈ ids -> id ∉ unique) /\
  Forall (fun block => required_role domain (bp_block_role block) = true) blocks.
Proof.
  revert unique ids. induction blocks as [|block blocks IH]; intros unique ids; cbn.
  { intros [= <-]. split_and!; [done | constructor | set_solver | done]. }
  destruct (required_role domain (bp_block_role block)) eqn:R; cbn; [|done].
  destruct (bool_decide_reflect (bp_block_id block ∈ unique)) as [|U]; [done|].
  destruct (grant_blocks domain (bp_block_id block :: unique) blocks) as [rest|] eqn:G; [|done].
  intros [= <-]. apply IH in G as (-> & N & D & F). split_and!.
  - done.
  - apply NoDup_cons. split; [|done]. intros I. apply D in I. set_solver.
  - intros id I. apply elem_of_cons in I as [->|I]; [done|]. apply D in I. set_solver.
  - by constructor.
Qed.


Lemma sample_grant_made :
  exists grant, from_stage14 (validate_access_ledger sample_sha sample_blocks sample_records
    sample_artifacts sample_registry sample_policy) OutcomeDomain_h1h2 sample_blocks
    (sample_artifact "release") = success grant.
Proof. eexists. vm_compute. reflexivity. Qed.

