(* ===== verification/Inference.v ===== *)
(** * Offline analysis: contrasts, resampling and the registered families

    Models the second part of [src/analysis/analysis.cpp]: the cell map of a
    complete block, the H1 and H2 contrasts, the rank of the Stage A design, the
    complete-block bootstrap with its max-T intervals, the prospective block
    counts, and the selection and validation of H3 candidates. Doubles are
    binary64 values; [std::map::at] throws on a missing key. *)

From stdpp Require Import prelude list strings sorting.
From Stdlib Require Import ZArith Lia Ascii SpecFloat.
From S2P Require Import Prelude Validation Model Bytes Json Documents Load.
From S2P Require Import JsonParsing JsonCanonical Deterministic SemanticRecords BlockPlanning Precision BlockPlans.
From S2P Require Import Binary64 Analysis.

#[local] Open Scope Z_scope.
#[local] Open Scope checked_scope.
#[local] Open Scope result_scope.

(** A fallible function that may also throw. *)
Notation "'let!*' x ':=' e 'in' k" :=
  (match e with
   | Returned (success x) => k
   | Returned (failure errors) => Returned (failure errors)
   | Threw what => Threw what
   end)
  (at level 10, x name, e at level 200, k at level 200,
   format "'let!*'  x  ':='  e  'in' '//' k") : checked_scope.

(** ** The cells of a complete block *)

(** The map from factors to responses; its order is never observed. *)
Definition CellMap : Set := list (CellKey * spec_float).

Definition response_key (cell : CellResponse) : CellKey :=
  (cx_package cell, cx_hardware_state cell, cx_placement cell, cx_working_set cell, cx_load cell).

Definition cell_find (key : CellKey) (values : CellMap) : option spec_float :=
  snd <$> find (fun item => bool_decide (fst item = key)) values.

(** The loop of [cell_map]: a response that is not finite or a repeated key stops it. *)
Fixpoint emplace_cells (result : CellMap) (cells : list CellResponse) : option CellMap :=
  match cells with
  | [] => Some result
  | cell :: rest =>
      if negb (is_finite (cx_log_p999 cell)) ||
         bool_decide (is_Some (cell_find (response_key cell) result)) then None
      else emplace_cells (result ++ [(response_key cell, cx_log_p999 cell)]) rest
  end.

Definition cell_map (block : CompleteBlockResponse) : Result CellMap :=
  if negb (size_is (cb_cells block) kStageACells) then
    fail_with ErrorCategory_cross_field "$/analysis/block/cells" "ANALYSIS-EXACT-180"
      "complete-block response must contain exactly 180 cells"
  else
    match emplace_cells [] (cb_cells block) with
    | None =>
        fail_with ErrorCategory_duplicate_value "$/analysis/block/cells" "ANALYSIS-CELL-UNIQUE"
          "cell responses must be finite and unique"
    | Some result =>
        if negb (size_is result kStageACells) then
          fail_with ErrorCategory_cross_field "$/analysis/block/cells" "ANALYSIS-CELL-PRODUCT"
            "cell responses do not form the Stage A product"
        else success result
    end.

Definition value_at (values : CellMap) (package : QueuePackage) (hardware : RequestedHardwareState)
    (placement : Placement) (working_set : WorkingSetClass) (load : LoadLevel) : Throws spec_float :=
  match cell_find (package, hardware, placement, working_set, load) values with
  | Some x => Returned x
  | None => Threw "map::at"
  end.

(** [sum += term] for the terms of a loop, from [0.0]. *)
Fixpoint sum_terms (sum : spec_float) (terms : list (Throws spec_float)) : Throws spec_float :=
  match terms with
  | [] => Returned sum
  | term :: rest => let! x := term in sum_terms (f64_add sum x) rest
  end.

Definition difference (left right : Throws spec_float) : Throws spec_float :=
  let! x := left in
  let! y := right in
  Returned (f64_sub x y).

Definition mean_of_terms (terms : list (Throws spec_float)) (count : Z) : Throws spec_float :=
  let! sum := sum_terms f64_zero terms in
  Returned (f64_div sum (f64_of_Z count)).

Definition software_effect (values : CellMap) (package : QueuePackage) (placement : Placement)
    (working_set : WorkingSetClass) (load : LoadLevel) : Throws spec_float :=
  let baseline := if bool_decide (package = QueuePackage_l1) then QueuePackage_l0
                  else QueuePackage_r0 in
  mean_of_terms
    ((fun hardware =>
        difference (value_at values package hardware placement working_set load)
          (value_at values baseline hardware placement working_set load))
     <$> [RequestedHardwareState_h0; RequestedHardwareState_h1]) 2.

Definition hardware_effect (values : CellMap) (package : QueuePackage) (placement : Placement)
    (working_set : WorkingSetClass) (load : LoadLevel) : Throws spec_float :=
  difference (value_at values package RequestedHardwareState_h1 placement working_set load)
    (value_at values package RequestedHardwareState_h0 placement working_set load).

Definition context_value (values : CellMap) (suffix : string) (placement : Placement)
    (working_set : WorkingSetClass) (load : LoadLevel) : Throws spec_float :=
  if bool_decide (suffix = "H") then
    mean_of_terms
      ((fun package => hardware_effect values package placement working_set load) <$> packages) 5
  else if bool_decide (suffix = "R1") then
    software_effect values QueuePackage_r1 placement working_set load
  else if bool_decide (suffix = "R2") then
    software_effect values QueuePackage_r2 placement working_set load
  else software_effect values QueuePackage_l1 placement working_set load.

(** The differences an operator averages, in the order of its loops. *)
Definition operator_terms (values : CellMap) (operation suffix : string) : list (Throws spec_float) :=
  let at_ placement working_set load := context_value values suffix placement working_set load in
  if bool_decide (operation = "P") then
    working_set ← working_sets; load ← loads;
    [difference (at_ Placement_far working_set load) (at_ Placement_near working_set load)]
  else if bool_decide (operation = "W12") || bool_decide (operation = "W23") then
    let left := if bool_decide (operation = "W12") then WorkingSetClass_llc_resident
                else WorkingSetClass_beyond_llc in
    let right := if bool_decide (operation = "W12") then WorkingSetClass_l2_resident
                 else WorkingSetClass_llc_resident in
    placement ← placements; load ← loads;
    [difference (at_ placement left load) (at_ placement right load)]
  else
    let left := if bool_decide (operation = "A12") then LoadLevel_l050 else LoadLevel_l075 in
    let right := if bool_decide (operation = "A12") then LoadLevel_l025 else LoadLevel_l050 in
    placement ← placements; working_set ← working_sets;
    [difference (at_ placement working_set left) (at_ placement working_set right)].

Definition h2_operator (values : CellMap) (operation suffix : string) : Throws spec_float :=
  let terms := operator_terms values operation suffix in
  mean_of_terms terms (Z.of_nat (length terms)).

(** ** Contrasts *)

(** The seven increments of one context. *)
Definition h1_increments (values : CellMap) (placement : Placement) (working_set : WorkingSetClass)
    (load : LoadLevel) : list (Throws spec_float) :=
  let software package := software_effect values package placement working_set load in
  let hardware package := hardware_effect values package placement working_set load in
  [difference (software QueuePackage_r1) (software QueuePackage_l1);
   difference (software QueuePackage_r2) (software QueuePackage_l1);
   difference (hardware QueuePackage_l0) (hardware QueuePackage_r0);
   difference (hardware QueuePackage_r1) (hardware QueuePackage_r0);
   difference (hardware QueuePackage_r2) (hardware QueuePackage_r0);
   difference (hardware QueuePackage_l1) (hardware QueuePackage_l0);
   difference (software QueuePackage_r2) (software QueuePackage_r1)].

(** [result[i] += increment[i]]. *)
Fixpoint add_increments (result : list spec_float) (increments : list (Throws spec_float)) :
    Throws (list spec_float) :=
  match result, increments with
  | x :: result, increment :: increments =>
      let! y := increment in
      let! rest := add_increments result increments in
      Returned (f64_add x y :: rest)
  | _, _ => Returned []
  end.

Fixpoint add_contexts (result : list spec_float) (contexts : list (list (Throws spec_float))) :
    Throws (list spec_float) :=
  match contexts with
  | [] => Returned result
  | increments :: rest =>
      let! result := add_increments result increments in
      add_contexts result rest
  end.

Definition h1_contexts (values : CellMap) : list (list (Throws spec_float)) :=
  placement ← placements; working_set ← working_sets; load ← loads;
  [h1_increments values placement working_set load].

Definition h1_block_contrasts (block : CompleteBlockResponse) : Throws (Result (list spec_float)) :=
  let!* values := Returned (cell_map block) in
  let! result := add_contexts (replicate 7 f64_zero) (h1_contexts values) in
  Returned (success ((fun value => f64_div value (f64_of_Z 18)) <$> result)).

Fixpoint sequence {A : Type} (l : list (Throws A)) : Throws (list A) :=
  match l with
  | [] => Returned []
  | a :: rest =>
      let! x := a in
      let! xs := sequence rest in
      Returned (x :: xs)
  end.

Definition h2_operators : list (string * string) :=
  operation ← ["P"; "W12"; "W23"; "A12"; "A23"]; suffix ← ["H"; "R1"; "R2"; "L1"];
  [(operation, suffix)].

Definition h2_block_contrasts (block : CompleteBlockResponse) : Throws (Result (list spec_float)) :=
  let!* values := Returned (cell_map block) in
  let! result := sequence ((fun key => h2_operator values (fst key) (snd key)) <$> h2_operators) in
  Returned (success result).

(** ** The rank of the Stage A design *)

Definition indicator (b : bool) : spec_float := if b then f64_one else f64_zero.

Definition signed_half (negative : bool) : spec_float := if negative then SFopp f64_half else f64_half.

(** An effect code: [1.0], [-1.0] or [0.0]. *)
Definition effect_code (plus minus : bool) : spec_float :=
  if plus then f64_one else if minus then SFopp f64_one else f64_zero.

(** The row of a cell: intercept, queue and software indicators, hardware,
    context, and the registered products. *)
Definition design_row (key : CellKey) : list spec_float :=
  let '(package, hardware, placement, working_set, load) := key in
  let q := indicator (linked package) in
  let xr1 := indicator (bool_decide (package = QueuePackage_r1)) in
  let xr2 := indicator (bool_decide (package = QueuePackage_r2)) in
  let xl1 := indicator (bool_decide (package = QueuePackage_l1)) in
  let h := signed_half (bool_decide (hardware = RequestedHardwareState_h0)) in
  let p := signed_half (bool_decide (placement = Placement_near)) in
  let beyond := bool_decide (working_set = WorkingSetClass_beyond_llc) in
  let highest := bool_decide (load = LoadLevel_l075) in
  let context :=
    [p; effect_code (bool_decide (working_set = WorkingSetClass_l2_resident)) beyond;
     effect_code (bool_decide (working_set = WorkingSetClass_llc_resident)) beyond;
     effect_code (bool_decide (load = LoadLevel_l025)) highest;
     effect_code (bool_decide (load = LoadLevel_l050)) highest] in
  [f64_one; q; xr1; xr2; xl1; h] ++ context ++ (f64_mul q <$> context) ++
  [f64_mul q h; f64_mul xr1 h; f64_mul xr2 h; f64_mul xl1 h] ++ (f64_mul h <$> context) ++
  (software ← [xr1; xr2; xl1]; f64_mul software <$> context).

Definition design_matrix : list (list spec_float) := design_row <$> expected_stage_a_cells.

(** [matrix[row][column]]; every row has every column. *)
Definition matrix_entry (matrix : list (list spec_float)) (row column : nat) : spec_float :=
  default f64_zero (matrix !! row ≫= fun r => r !! column).

(** The row at or below [rank] with the entry of largest magnitude, the first of
    several. *)
Definition find_pivot (matrix : list (list spec_float)) (column rank : nat) : nat :=
  fold_left (fun pivot row =>
      if SFltb (SFabs (matrix_entry matrix pivot column)) (SFabs (matrix_entry matrix row column)) then row
      else pivot)
    (seq (S rank) (length matrix - S rank)) rank.

Definition swap_rows (i j : nat) (matrix : list (list spec_float)) : list (list spec_float) :=
  match matrix !! i, matrix !! j with
  | Some a, Some b => <[j := a]> (<[i := b]> matrix)
  | _, _ => matrix
  end.

(** Divide the pivot row from [column] on. *)
Definition scale_row (column : nat) (row : list spec_float) : list spec_float :=
  let divisor := default f64_zero (row !! column) in
  take column row ++ ((fun value => f64_div value divisor) <$> drop column row).

(** [matrix[row][value] -= factor * matrix[rank][value]] from [column] on. *)
Definition eliminate_row (column : nat) (pivot row : list spec_float) : list spec_float :=
  let factor := default f64_zero (row !! column) in
  take column row ++
  zip_with (fun x y => f64_sub x (f64_mul factor y)) (drop column row) (drop column pivot).

(** [1.0e-12], the nearest double. *)
Definition pivot_tolerance : spec_float := round_decimal false 1 (-12).

(** One column of the elimination; [rank] counts the pivots so far. *)
Definition eliminate_column (state : nat * list (list spec_float)) (column : nat) :
    nat * list (list spec_float) :=
  let '(rank, matrix) := state in
  if negb (rank <? length matrix)%nat then state
  else
    let pivot := find_pivot matrix column rank in
    if SFltb (SFabs (matrix_entry matrix pivot column)) pivot_tolerance then state
    else
      let matrix := swap_rows pivot rank matrix in
      let pivot_row := scale_row column (default [] (matrix !! rank)) in
      let matrix := <[rank := pivot_row]> matrix in
      (S rank, imap (fun index row => if (index =? rank)%nat then row
                                      else eliminate_row column pivot_row row) matrix).

Definition stage_a_design_rank : nat :=
  let columns := length (default [] (head design_matrix)) in
  fst (fold_left eliminate_column (seq 0 columns) (O, design_matrix)).

(** ** The complete-block bootstrap *)

(** [result[i] += vector[i]] on rows of one width. *)
Definition add_vectors (a b : list spec_float) : list spec_float := zip_with f64_add a b.

Definition mean_vector (values : list (list spec_float)) : list spec_float :=
  let width := length (default [] (head values)) in
  let sums := fold_left add_vectors values (replicate width f64_zero) in
  (fun value => f64_div value (f64_of_Z (Z.of_nat (length values)))) <$> sums.

Definition draw_exhausted {T : Type} : Result T :=
  fail_with ErrorCategory_out_of_range "$/bootstrap/draw_ordinal" "ANALYSIS-BOOTSTRAP-DRAW-OVERFLOW"
    "bootstrap draw ordinal exhausted".

(** One iteration of the rejection loop of [bounded_draw]. *)
Definition bounded_draw_step (stream : Z -> Z) (bound threshold draw_ordinal : Z) :
    Z + Result (Z * Z) :=
  if draw_ordinal =? u64_max then inr draw_exhausted
  else
    let d := stream draw_ordinal in
    if d >=? threshold then inr (success (d mod bound, u64_add draw_ordinal 1))
    else inl (u64_add draw_ordinal 1).

(** The drawn index and the next ordinal. The ordinal grows in every iteration
    and the loop fails at [2^64 - 1], so [2^64] iterations always leave it. *)
Definition bounded_draw (stream : Z -> Z) (bound draw_ordinal : Z) : Result (Z * Z) :=
  if bound =? 0 then
    fail_with ErrorCategory_out_of_range "$/bootstrap/bound" "ANALYSIS-BOOTSTRAP-BOUND"
      "bootstrap block count must be positive"
  else
    let threshold := u64_sub 0 bound mod bound in
    match loop_pos 18446744073709551616 (bounded_draw_step stream bound threshold) draw_ordinal with
    | inr r => r
    | inl _ => draw_exhausted
    end.

(** The draws of one replicate: the sum of [draws] blocks and the next ordinal. *)
Fixpoint draw_blocks (stream : Z -> Z) (blocks : list (list spec_float)) (draws : nat)
    (draw_ordinal : Z) (estimate : list spec_float) : Result (list spec_float * Z) :=
  match draws with
  | O => success (estimate, draw_ordinal)
  | S draws =>
      let* selected := bounded_draw stream (Z.of_nat (length blocks)) draw_ordinal in
      let block := default [] (blocks !! Z.to_nat (fst selected)) in
      draw_blocks stream blocks draws (snd selected) (add_vectors estimate block)
  end.

Fixpoint bootstrap_replicates (stream : Z -> Z) (blocks : list (list spec_float)) (width : nat)
    (replicates : nat) (draw_ordinal : Z) : Result (list (list spec_float)) :=
  match replicates with
  | O => success []
  | S replicates =>
      let* drawn := draw_blocks stream blocks (length blocks) draw_ordinal (replicate width f64_zero) in
      let* rest := bootstrap_replicates stream blocks width replicates (snd drawn) in
      success (((fun value => f64_div value (f64_of_Z (Z.of_nat (length blocks)))) <$> fst drawn) :: rest)
  end.

Definition bootstrap_vectors (blocks : list (list spec_float)) (bootstrap : BootstrapConfiguration) :
    Result (list (list spec_float)) :=
  if (Z.of_nat (length blocks) <? 2) || (bt_replicates bootstrap <? 2) ||
     negb (bool_decide (bt_profile bootstrap = kBootstrapProfile)) ||
     negb (bool_decide (bt_rng_algorithm_version bootstrap = kDeterministicSuite)) ||
     str_empty (bt_seed_id bootstrap) then
    fail_with ErrorCategory_missing_evidence "$/bootstrap" "ANALYSIS-BOOTSTRAP-CONTRACT"
      "complete-block bootstrap requires at least two blocks/replicates and the accepted explicit Philox profile, algorithm, and seed identity"
  else
    let width := length (default [] (head blocks)) in
    if (width =? 0)%nat || negb (forallb (fun block => (length block =? width)%nat) blocks) then
      fail_with ErrorCategory_cross_field "$/bootstrap/contrasts" "ANALYSIS-BOOTSTRAP-WIDTH"
        "every complete block must provide the same nonempty contrast vector"
    else
      bootstrap_replicates (draw (bt_key bootstrap)) blocks width (Z.to_nat (bt_replicates bootstrap)) 0.

Definition standard_errors (estimates : list (list spec_float)) : list spec_float :=
  let means := mean_vector estimates in
  let squares estimate :=
    zip_with (fun x mean => let difference := f64_sub x mean in f64_mul difference difference)
      estimate means in
  let sums := fold_left (fun result estimate => add_vectors result (squares estimate)) estimates
                (replicate (length means) f64_zero) in
  (fun value => f64_sqrt (f64_div value (f64_of_Z (Z.of_nat (length estimates - 1))))) <$> sums.

(** The order [std::sort] uses. *)
Definition f64_le (a b : spec_float) : Prop := SFltb b a = false.

#[export] Instance f64_le_dec a b : Decision (f64_le a b).
Proof. unfold f64_le. apply _. Defined.

Definition empirical_p95 (values : list spec_float) : Result spec_float :=
  if negb (nonempty values) || negb (forallb is_finite values) then
    fail_with ErrorCategory_cross_field "$/bootstrap/statistics" "ANALYSIS-MAXT-FINITE"
      "bootstrap statistics must be nonempty and finite"
  else
    let rank := (95 * Z.of_nat (length values) + 99) / 100 in
    success (default f64_zero (merge_sort f64_le values !! Z.to_nat (rank - 1))).

Definition classify (lower upper delta : spec_float) : PracticalConclusion :=
  if SFltb upper (SFopp delta) then PracticalConclusion_practically_lower
  else if SFltb delta lower then PracticalConclusion_practically_higher
  else if SFltb (SFopp delta) lower && SFltb upper delta then
    PracticalConclusion_practically_equivalent
  else PracticalConclusion_inconclusive.

(** The largest standardized deviation of one replicate; [None] is a deviation
    with standard error zero. *)
Fixpoint max_statistic (one_sided : bool) (maximum : spec_float)
    (columns : list (spec_float * spec_float * spec_float)) : option spec_float :=
  match columns with
  | [] => Some maximum
  | (estimate, original, error) :: rest =>
      let deviation := f64_sub estimate original in
      let bounded standardized :=
        max_statistic one_sided
          (f64_max maximum (if one_sided then standardized else SFabs standardized)) rest in
      if SFeqb error f64_zero then
        if negb (SFeqb deviation f64_zero) then None else bounded f64_zero
      else bounded (f64_div deviation error)
  end.

Definition statistics_of (one_sided : bool) (original errors : list spec_float)
    (estimates : list (list spec_float)) : option (list spec_float) :=
  mapM (fun estimate => max_statistic one_sided f64_zero (zip (zip estimate original) errors)) estimates.

Definition interval_of (one_sided : bool) (critical delta_star : spec_float)
    (column : string * spec_float * spec_float) : SimultaneousInterval :=
  let '(id, original, error) := column in
  let half_width := f64_mul critical error in
  let lower := if one_sided then S754_infinity true else f64_sub original half_width in
  let upper := f64_add original half_width in
  mkSimultaneousInterval id original error lower upper
    (if one_sided then PracticalConclusion_inconclusive else classify lower upper delta_star).

Definition max_t (family_id : string) (stable_ids : list string) (contrasts : list (list spec_float))
    (bootstrap : BootstrapConfiguration) (delta_star : spec_float) (one_sided : bool) :
    Result MaxTResult :=
  if negb (is_finite delta_star && SFltb f64_zero delta_star) || negb (nonempty stable_ids) ||
     negb (nonempty contrasts) ||
     negb (length (default [] (head contrasts)) =? length stable_ids)%nat then
    fail_with ErrorCategory_cross_field "$/analysis/max_t" "ANALYSIS-MAXT-INPUT"
      "max-T requires a positive bound and the exact family"
  else
    let* estimates := bootstrap_vectors contrasts bootstrap in
    let original := mean_vector contrasts in
    let errors := standard_errors estimates in
    match statistics_of one_sided original errors estimates with
    | None =>
        fail_with ErrorCategory_cross_field "$/analysis/max_t" "ANALYSIS-MAXT-ZERO-SE"
          "a nonzero bootstrap deviation cannot have zero standard error"
    | Some statistics =>
        let* critical := empirical_p95 statistics in
        success (mkMaxTResult family_id one_sided (bt_replicates bootstrap) critical
          (interval_of one_sided critical delta_star <$> zip (zip stable_ids original) errors))
    end.

Definition two_sided_max_t (family_id : string) (stable_ids : list string)
    (contrasts : list (list spec_float)) (bootstrap : BootstrapConfiguration)
    (delta_star : spec_float) : Result MaxTResult :=
  max_t family_id stable_ids contrasts bootstrap delta_star false.

(** ** Prospective block counts *)

Definition family_expected_width (family : FamilyKind) : Z :=
  match family with
  | FamilyKind_h1_two_sided => kH1ContrastCount
  | FamilyKind_h2_two_sided => kH2ContrastCount
  | FamilyKind_h3_training_standard_error => kH3TrainingPairCount
  | FamilyKind_h3_validation_one_sided => kH3ValidationFamilyCount
  end.

Definition family_minimum (family : FamilyKind) : Z :=
  match family with
  | FamilyKind_h1_two_sided | FamilyKind_h2_two_sided => 20
  | FamilyKind_h3_training_standard_error => 12
  | FamilyKind_h3_validation_one_sided => 8
  end.

(** [*std::max_element] of a nonempty range: the first largest value. *)
Definition max_width (values : list spec_float) : spec_float :=
  match values with
  | [] => f64_zero
  | x :: rest => fold_left (fun largest y => if SFltb largest y then y else largest) rest x
  end.

(** The loop over the candidates: [None] is a malformed curve, otherwise the
    count selected so far. *)
Fixpoint scan_candidates (minimum width : Z) (limit : spec_float) (previous : Z)
    (selected : option Z) (candidates : list ProspectiveCandidate) : option (option Z) :=
  match candidates with
  | [] => Some selected
  | candidate :: rest =>
      let count := pd_complete_block_count candidate in
      if (count <=? previous) || (count <? minimum) || negb (size_is (pd_widths candidate) width) ||
         negb (forallb (fun value => is_finite value && SFleb f64_zero value) (pd_widths candidate))
      then None
      else
        let sufficient := SFleb (max_width (pd_widths candidate)) limit in
        scan_candidates minimum width limit count
          (match selected with None => if sufficient then Some count else None | _ => selected end) rest
  end.

Definition two_sided_family (family : FamilyKind) : bool :=
  bool_decide (family = FamilyKind_h1_two_sided) || bool_decide (family = FamilyKind_h2_two_sided).

Definition select_prospective_count (input : ProspectiveFamilyInput) (expected : FamilyKind)
    (delta_star : spec_float) : Result Z :=
  if negb (bool_decide (pf_family input = expected)) || negb (nonempty (pf_candidates input)) ||
     str_empty (ar_artifact_id (pf_sizing_artifact input)) then
    fail_with ErrorCategory_missing_evidence "$/precision" "ANALYSIS-PRECISION-EVIDENCE"
      "each registered precision family requires prospective immutable evidence"
  else
    match scan_candidates (family_minimum expected) (family_expected_width expected)
            (f64_div delta_star (f64_of_Z 2)) 0 None (pf_candidates input) with
    | None =>
        fail_with ErrorCategory_cross_field "$/precision/candidates" "ANALYSIS-PRECISION-CURVE"
          "candidate counts must increase and contain the exact finite family"
    | Some None =>
        fail_with ErrorCategory_missing_evidence "$/precision/candidates" "ANALYSIS-PRECISION-UNRESOLVED"
          "no prospectively evaluated count satisfies delta_star/2"
    | Some (Some selected) =>
        if two_sided_family expected && (selected >? 30) then
          fail_with ErrorCategory_out_of_range "$/precision/candidates" "ANALYSIS-H1H2-CEILING"
            "H1/H2 prospective count exceeds the go/no-go ceiling"
        else success selected
    end.

Definition evaluate_prospective_precision (input : ProspectivePrecisionInput)
    (delta_star : spec_float) : Result ProspectiveCounts :=
  if negb (is_finite delta_star && SFltb f64_zero delta_star) then
    fail_with ErrorCategory_out_of_range "$/precision/delta_star" "ANALYSIS-DELTA-STAR"
      "delta_star must be explicit, finite, and positive"
  else
    let h1 := select_prospective_count (pn_h1 input) FamilyKind_h1_two_sided delta_star in
    let h2 := select_prospective_count (pn_h2 input) FamilyKind_h2_two_sided delta_star in
    let train := select_prospective_count (pn_h3_training input)
                   FamilyKind_h3_training_standard_error delta_star in
    let validation := select_prospective_count (pn_h3_validation input)
                        FamilyKind_h3_validation_one_sided delta_star in
    match h1, h2, train, validation with
    | success h1, success h2, success train, success validation =>
        let r12 := Z.max h1 h2 in
        if train >? u64_sub u64_max validation then
          fail_with ErrorCategory_out_of_range "$/precision" "ANALYSIS-PRECISION-OVERFLOW"
            "Rtrain+Rval overflows u64"
        else
          let rtotal := Z.max r12 (u64_add train validation) in
          if rtotal >? u64_max / kStageACells then
            fail_with ErrorCategory_out_of_range "$/precision" "ANALYSIS-PRECISION-OVERFLOW"
              "180*Rtotal overflows u64"
          else
            success (mkProspectiveCounts h1 h2 r12 train validation rtotal
                       (u64_mul rtotal kStageACells))
    | _, _, _, _ =>
        failure (errors_of h1 ++ errors_of h2 ++ errors_of train ++ errors_of validation)
    end.

(** ** H3 *)

Definition context_cell (context : H3Context) : Placement * WorkingSetClass :=
  match context with
  | H3Context_near_l2_l050 => (Placement_near, WorkingSetClass_l2_resident)
  | H3Context_near_llc_l050 => (Placement_near, WorkingSetClass_llc_resident)
  | H3Context_near_beyond_llc_l050 => (Placement_near, WorkingSetClass_beyond_llc)
  | H3Context_far_l2_l050 => (Placement_far, WorkingSetClass_l2_resident)
  | H3Context_far_llc_l050 => (Placement_far, WorkingSetClass_llc_resident)
  | H3Context_far_beyond_llc_l050 => (Placement_far, WorkingSetClass_beyond_llc)
  end.

Definition h3_value (block : CompleteBlockResponse) (context : H3Context) (candidate : H3Candidate) :
    Throws (Result spec_float) :=
  let!* values := Returned (cell_map block) in
  let '(placement, working_set) := context_cell context in
  let! x := value_at values (h3_package candidate) (h3_requested_hardware_state candidate) placement
              working_set LoadLevel_l050 in
  Returned (success x).

(** [sum] over the training blocks. *)
Fixpoint training_sum (context : H3Context) (candidate : H3Candidate) (sum : spec_float)
    (blocks : list CompleteBlockResponse) : Throws (Result spec_float) :=
  match blocks with
  | [] => Returned (success sum)
  | block :: rest =>
      let!* value := h3_value block context candidate in
      training_sum context candidate (f64_add sum value) rest
  end.

(** The loop over the candidates; [None] before the first. *)
Fixpoint select_candidate (context : H3Context) (blocks : list CompleteBlockResponse)
    (selected : option (spec_float * H3Candidate)) (candidates : list H3Candidate) :
    Throws (Result (option (spec_float * H3Candidate))) :=
  match candidates with
  | [] => Returned (success selected)
  | candidate :: rest =>
      let!* sum := training_sum context candidate f64_zero blocks in
      let mean := f64_div sum (f64_of_Z (Z.of_nat (length blocks))) in
      select_candidate context blocks
        (match selected with
         | Some (selected_mean, _) =>
             if SFltb mean selected_mean then Some (mean, candidate) else selected
         | None => Some (mean, candidate)
         end) rest
  end.

Fixpoint select_contexts (blocks : list CompleteBlockResponse) (contexts : list H3Context) :
    Throws (Result (list (H3Context * H3Candidate))) :=
  match contexts with
  | [] => Returned (success [])
  | context :: rest =>
      let!* selected := select_candidate context blocks None h3_candidates in
      let candidate := default (mkH3Candidate QueuePackage_r0 RequestedHardwareState_h0)
                         (snd <$> selected) in
      let!* others := select_contexts blocks rest in
      Returned (success ((context, candidate) :: others))
  end.

(** References in the order of their identifiers. *)
Definition reference_le (a b : ArtifactReference) : Prop :=
  str_ltb (ar_artifact_id b) (ar_artifact_id a) = false.

#[export] Instance reference_le_dec a b : Decision (reference_le a b).
Proof. unfold reference_le. apply _. Defined.

Definition selection_document (selections : list (H3Context * H3Candidate))
    (sources : list ArtifactReference) (record_sha256 : string) : Object :=
  map_of
    [("protocol_version", string_value kProtocolVersion);
     ("schema_version", string_value kSelectionSchema);
     ("selection_rule_version", string_value kH3SelectionRuleId);
     ("selections", Value_object (map_of
        ((fun item => (context_name (fst item), string_value (candidate_name (snd item))))
         <$> selections)));
     ("training_sources", Value_array (analysis_artifact_value <$> sources));
     ("record_sha256", string_value record_sha256)].

Section H3.

Context (sha256 : list Z -> list Z).

Definition select_h3_training (training_blocks : list CompleteBlockResponse)
    (training_sources : list ArtifactReference) : Throws (Result H3SelectionRecord) :=
  if (Z.of_nat (length training_blocks) <? 12) || negb (nonempty training_sources) ||
     negb (forallb (fun block => bool_decide (cb_role block = BlockRole_h3_train)) training_blocks) then
    Returned (fail_with ErrorCategory_missing_evidence "$/h3/training" "ANALYSIS-H3-TRAINING-BLOCKS"
      "H3 selection requires at least 12 complete training-role blocks")
  else
    let!* selections := select_contexts training_blocks h3_contexts in
    let sorted := merge_sort reference_le training_sources in
    let!* zero_self :=
      Returned (canonicalize (Value_object (selection_document selections sorted zero_hash))) in
    let digest := sha_text sha256 zero_self in
    let!* final := Returned (canonicalize (Value_object
      (map_assign "record_sha256" (string_value (Sha256_hex digest))
         (selection_document selections sorted zero_hash)))) in
    Returned (success (mkH3SelectionRecord kSelectionSchema selections sorted final digest)).

Definition comparison_id (comparison : H3Comparison) : string :=
  context_name (hc_context comparison) +:+ ":" +:+ candidate_name (hc_left comparison) +:+
  "-MINUS-" +:+ candidate_name (hc_right comparison).

(** The differences of one validation block. *)
Fixpoint block_differences (block : CompleteBlockResponse) (comparisons : list H3Comparison) :
    Throws (Result (list spec_float)) :=
  match comparisons with
  | [] => Returned (success [])
  | comparison :: rest =>
      let! left := h3_value block (hc_context comparison) (hc_left comparison) in
      let! right := h3_value block (hc_context comparison) (hc_right comparison) in
      match left, right with
      | success x, success y =>
          let!* others := block_differences block rest in
          Returned (success (f64_sub x y :: others))
      | _, _ =>
          Returned (fail_with ErrorCategory_cross_field "$/h3/validation/cells"
            "ANALYSIS-H3-VALIDATION-CELLS"
            "every selected and alternative validation cell is required")
      end
  end.

Fixpoint all_differences (blocks : list CompleteBlockResponse) (comparisons : list H3Comparison) :
    Throws (Result (list (list spec_float))) :=
  match blocks with
  | [] => Returned (success [])
  | block :: rest =>
      let!* differences := block_differences block comparisons in
      let!* others := all_differences rest comparisons in
      Returned (success (differences :: others))
  end.

Definition evaluate_h3_validation (validation_blocks : list CompleteBlockResponse)
    (selection : H3SelectionRecord) (bootstrap : BootstrapConfiguration) (delta_star : spec_float) :
    Throws (Result H3ValidationResult) :=
  if (Z.of_nat (length validation_blocks) <? 8) ||
     negb (forallb (fun block => bool_decide (cb_role block = BlockRole_h3_validation))
             validation_blocks) then
    Returned (fail_with ErrorCategory_missing_evidence "$/h3/validation"
      "ANALYSIS-H3-VALIDATION-BLOCKS"
      "H3 validation requires at least eight complete validation-role blocks")
  else
    let!* comparisons := Returned (h3_reported_comparisons (hs_selections selection)) in
    let!* differences := all_differences validation_blocks comparisons in
    let!* result := Returned (max_t "H3-SELECTED-54-ONE-SIDED" (comparison_id <$> comparisons)
                                differences bootstrap delta_star true) in
    let passes := forallb (fun interval => SFltb (sn_upper interval) delta_star) (mx_intervals result) in
    Returned (success (mkH3ValidationResult InferenceState_estimable (Some result) passes [])).

End H3.

(** ** Lemmas: the cell map *)

Definition cell_entry (cell : CellResponse) : CellKey * spec_float :=
  (response_key cell, cx_log_p999 cell).

Lemma cell_find_None key values : cell_find key values = None <-> key ∉ fst <$> values.
Proof.
  unfold cell_find. induction values as [|[k x] values IH]; cbn.
  { split; [intros _; set_solver | done]. }
  destruct (bool_decide_reflect (k = key)) as [->|N].
  - split; [done|]. intros H. exfalso. apply H. set_solver.
  - rewrite IH. set_solver.
Qed.

Lemma cell_find_elem key x values : NoDup (fst <$> values) -> (key, x) ∈ values ->
  cell_find key values = Some x.
Proof.
  unfold cell_find. induction values as [|[k y] values IH]; cbn; intros N I; [set_solver|].
  apply NoDup_cons in N as [N1 N2]. apply elem_of_cons in I as [[= <- <-]|I].
  - by rewrite bool_decide_eq_true_2.
  - rewrite bool_decide_eq_false_2; [by apply IH|]. intros ->. apply N1.
    apply list_elem_of_fmap. by exists (key, x).
Qed.

Lemma emplace_cells_spec result cells values :
  NoDup (fst <$> result) ->
  emplace_cells result cells = Some values <->
  values = result ++ (cell_entry <$> cells) /\ NoDup (fst <$> values) /\
  Forall (fun cell => is_finite (cx_log_p999 cell) = true) cells.
Proof.
  revert result. induction cells as [|cell cells IH]; intros result N; cbn.
  { rewrite app_nil_r. split; [intros [= <-]; done | by intros [-> _]]. }
  destruct (is_finite (cx_log_p999 cell)) eqn:F; cbn [negb orb].
  2:{ split; [done|]. intros (_ & _ & A). apply Forall_cons in A as [A _]. congruence. }
  destruct (bool_decide_reflect (is_Some (cell_find (response_key cell) result))) as [S|S].
  - split; [done|]. intros (-> & A & _). exfalso.
    assert (C : response_key cell ∈ fst <$> result).
    { destruct (decide (response_key cell ∈ fst <$> result)) as [|D]; [done|].
      apply cell_find_None in D. rewrite D in S. by destruct S. }
    rewrite fmap_app in A. apply NoDup_app in A as (_ & A & _).
    specialize (A _ C). apply A. cbn. set_solver.
  - assert (D : response_key cell ∉ fst <$> result).
    { apply cell_find_None. destruct (cell_find _ _); [|done]. exfalso. apply S. by eexists. }
    rewrite IH.
    + rewrite <- app_assoc. cbn. rewrite Forall_cons. tauto.
    + rewrite fmap_app. apply NoDup_app. split_and!; [done| |apply NoDup_singleton].
      cbn. set_solver.
Qed.

Lemma cell_map_spec block values :
  cell_map block = success values <->
  size_is (cb_cells block) kStageACells = true /\ values = cell_entry <$> cb_cells block /\
  NoDup (response_key <$> cb_cells block) /\
  Forall (fun cell => is_finite (cx_log_p999 cell) = true) (cb_cells block).
Proof.
  assert (K : forall cells, fst <$> (cell_entry <$> cells) = response_key <$> cells)
    by (intros; by rewrite <- list_fmap_compose).
  unfold cell_map. destruct (size_is (cb_cells block) kStageACells) eqn:S; cbn [negb];
    [|split; [done | by intros [? _]]].
  destruct (emplace_cells [] (cb_cells block)) as [result|] eqn:E.
  - apply emplace_cells_spec in E as (-> & N & F); [|constructor]. cbn [app] in *. rewrite K in N.
    assert (size_is (cell_entry <$> cb_cells block) kStageACells = true) as ->.
    { unfold size_is in *. by rewrite length_fmap. }
    cbn [negb]. split; [intros [= <-]; done | by intros (_ & -> & _)].
  - split; [done|]. intros (_ & -> & N & F).
    assert (emplace_cells [] (cb_cells block) = Some (cell_entry <$> cb_cells block)); [|congruence].
    apply emplace_cells_spec; [constructor|]. cbn [app]. by rewrite K.
Qed.

(** A block that has a response for every cell of the Stage A product. *)
Definition complete_cells (block : CompleteBlockResponse) : Prop :=
  forall key, key ∈ expected_stage_a_cells -> key ∈ response_key <$> cb_cells block.

Definition product_key (key : CellKey) : bool := bool_decide (key ∈ expected_stage_a_cells).

Lemma value_at_total block values package hardware placement working_set load :
  cell_map block = success values -> complete_cells block ->
  product_key (package, hardware, placement, working_set, load) = true ->
  exists x, value_at values package hardware placement working_set load = Returned x /\
    is_finite x = true.
Proof.
  intros M C P. apply cell_map_spec in M as (_ & -> & N & F).
  apply bool_decide_eq_true in P. apply C, list_elem_of_fmap in P as (cell & E & I).
  exists (cx_log_p999 cell). split; [|rewrite Forall_forall in F; by apply F].
  unfold value_at. rewrite E. rewrite (cell_find_elem _ (cx_log_p999 cell)); [done| |].
  - by rewrite <- list_fmap_compose.
  - apply list_elem_of_fmap. by exists cell.
Qed.

(** ** Lemmas: computations that do not throw *)

Definition returns {A : Type} (t : Throws A) : Prop := exists a, t = Returned a.

Lemma returns_intro {A} (a : A) : returns (Returned a).
Proof. by eexists. Qed.

Lemma returns_difference left right : returns left -> returns right -> returns (difference left right).
Proof. intros [x ->] [y ->]. apply returns_intro. Qed.

Lemma returns_sum_terms sum terms : Forall returns terms -> returns (sum_terms sum terms).
Proof.
  intros F. revert sum. induction F as [|t terms [x ->] _ IH]; intros sum; cbn; [apply returns_intro|].
  apply IH.
Qed.

Lemma returns_mean terms count : Forall returns terms -> returns (mean_of_terms terms count).
Proof.
  intros F. unfold mean_of_terms. destruct (returns_sum_terms f64_zero _ F) as [s ->]. apply returns_intro.
Qed.

Lemma returns_sequence {A} (l : list (Throws A)) : Forall returns l ->
  exists r, sequence l = Returned r /\ length r = length l.
Proof.
  induction 1 as [|t l [x ->] _ [r [IH L]]]; cbn; [by exists []|]. rewrite IH.
  exists (x :: r). cbn. by rewrite L.
Qed.

Lemma returns_add_increments result increments : Forall returns increments ->
  exists r, add_increments result increments = Returned r /\
    length r = Nat.min (length result) (length increments).
Proof.
  intros F. revert result. induction F as [|t l [y ->] _ IH]; intros [|x result]; cbn;
    [by exists []..|]. destruct (IH result) as (r & -> & L).
  exists (f64_add x y :: r). cbn. by rewrite L.
Qed.

Create HintDb returns.
#[export] Hint Resolve returns_intro returns_difference returns_mean : returns.

(** Membership in a list of enumerators. *)
Ltac in_list := apply (proj1 (bool_decide_eq_true _)); reflexivity.

Section Complete.

Context (block : CompleteBlockResponse) (values : CellMap).
Hypothesis M : cell_map block = success values.
Hypothesis C : complete_cells block.

(** A context of the Stage A product. *)
Definition context_ok (placement : Placement) (working_set : WorkingSetClass) (load : LoadLevel) : Prop :=
  placement ∈ placements /\ working_set ∈ working_sets /\ load ∈ loads.

Lemma product_key_intro package hardware placement working_set load :
  package ∈ packages -> hardware ∈ states -> context_ok placement working_set load ->
  product_key (package, hardware, placement, working_set, load) = true.
Proof.
  intros P H (L & W & A). unfold product_key, expected_stage_a_cells. apply bool_decide_eq_true.
  repeat (apply list_elem_of_bind; eexists; split; [|eassumption]). apply list_elem_of_singleton. reflexivity.
Qed.

Lemma value_at_returns package hardware placement working_set load :
  package ∈ packages -> hardware ∈ states -> context_ok placement working_set load ->
  returns (value_at values package hardware placement working_set load).
Proof.
  intros P H K. destruct (value_at_total block values package hardware placement working_set load M C)
    as (x & E & _); [by apply product_key_intro | by exists x].
Qed.

Lemma hardware_effect_returns package placement working_set load :
  package ∈ packages -> context_ok placement working_set load ->
  returns (hardware_effect values package placement working_set load).
Proof.
  intros P K. apply returns_difference; apply value_at_returns; (assumption || in_list).
Qed.

Lemma software_effect_returns package placement working_set load :
  package ∈ packages -> context_ok placement working_set load ->
  returns (software_effect values package placement working_set load).
Proof.
  intros P K. apply returns_mean. cbn. repeat constructor; apply returns_difference;
    apply value_at_returns; (assumption || in_list || (destruct (bool_decide _); in_list)).
Qed.

Lemma context_value_returns suffix placement working_set load :
  context_ok placement working_set load ->
  returns (context_value values suffix placement working_set load).
Proof.
  intros K. unfold context_value. repeat case_bool_decide.
  - apply returns_mean. apply Forall_forall. intros t T.
    apply list_elem_of_fmap in T as (package & -> & I). by apply hardware_effect_returns.
  - apply software_effect_returns; [in_list | done].
  - apply software_effect_returns; [in_list | done].
  - apply software_effect_returns; [in_list | done].
Qed.

Lemma operator_terms_return operation suffix : Forall returns (operator_terms values operation suffix).
Proof.
  assert (K : forall p w l p' w' l', context_ok p w l -> context_ok p' w' l' ->
    returns (difference (context_value values suffix p w l) (context_value values suffix p' w' l')))
    by (intros; by apply returns_difference; apply context_value_returns).
  unfold operator_terms. repeat case_match; apply Forall_forall; intros t T;
    (do 2 (apply list_elem_of_bind in T as (? & T & ?)); apply list_elem_of_singleton in T as ->;
     apply K; repeat split; assumption || in_list).
Qed.

Lemma h2_operator_returns operation suffix : returns (h2_operator values operation suffix).
Proof. apply returns_mean, operator_terms_return. Qed.

Lemma h1_increments_return placement working_set load : context_ok placement working_set load ->
  Forall returns (h1_increments values placement working_set load).
Proof.
  intros K. unfold h1_increments.
  repeat constructor; apply returns_difference;
    (apply software_effect_returns || apply hardware_effect_returns); assumption || in_list.
Qed.

Lemma add_contexts_return result contexts :
  Forall (fun increments => Forall returns increments /\ length increments = length result) contexts ->
  exists r, add_contexts result contexts = Returned r /\ length r = length result.
Proof.
  intros F. revert result F. induction contexts as [|i contexts IH]; intros result F; cbn.
  { by exists result. }
  apply Forall_cons in F as [[R L] F].
  destruct (returns_add_increments result i R) as (r & -> & Lr). rewrite L, Nat.min_id in Lr.
  destruct (IH r) as (r' & -> & L'); [by rewrite Lr|]. exists r'. by rewrite L'.
Qed.

Lemma h1_contexts_return :
  Forall (fun increments => Forall returns increments /\ length increments = 7%nat) (h1_contexts values).
Proof.
  apply Forall_forall. intros i I. unfold h1_contexts in I.
  do 3 (apply list_elem_of_bind in I as (? & I & ?)). apply list_elem_of_singleton in I as ->.
  split; [|done]. by apply h1_increments_return.
Qed.

Lemma h1_block_contrasts_total :
  exists r, h1_block_contrasts block = Returned (success r) /\ length r = 7%nat.
Proof.
  unfold h1_block_contrasts. rewrite M.
  destruct (add_contexts_return (replicate 7 f64_zero) (h1_contexts values)) as (r & -> & L).
  { apply h1_contexts_return. }
  eexists. split; [reflexivity|]. by rewrite length_fmap.
Qed.

Lemma h2_block_contrasts_total :
  exists r, h2_block_contrasts block = Returned (success r) /\ length r = 20%nat.
Proof.
  unfold h2_block_contrasts. rewrite M.
  destruct (returns_sequence ((fun key => h2_operator values (fst key) (snd key)) <$> h2_operators))
    as (r & -> & L).
  { apply Forall_forall. intros t T. apply list_elem_of_fmap in T as (key & -> & _).
    apply h2_operator_returns. }
  exists r. split; [done|]. by rewrite L.
Qed.

Lemma h3_value_total context candidate : candidate ∈ h3_candidates ->
  exists x, h3_value block context candidate = Returned (success x) /\ is_finite x = true.
Proof.
  intros I. unfold h3_candidates in I. do 2 (apply list_elem_of_bind in I as (? & I & ?)).
  apply list_elem_of_singleton in I as ->. unfold h3_value. rewrite M.
  destruct (context_cell context) as [placement working_set] eqn:E. cbn [h3_package h3_requested_hardware_state].
  destruct (value_at_total block values x x0 placement working_set LoadLevel_l050 M C) as (v & -> & F).
  { apply product_key_intro; [done..|]. by destruct context; injection E as <- <-; repeat split; in_list. }
  by exists v.
Qed.

End Complete.

(** Without a complete product the lookups throw: the test of the size of the map
    does not find a block with 180 distinct cells that are not the product. *)
Definition foreign_cell (key : CellKey) : CellResponse :=
  let '(package, hardware, placement, working_set, load) := key in
  mkCellResponse
    (if bool_decide (package = QueuePackage_r0) then QueuePackage_nblfq_mpsc else package)
    hardware placement working_set load f64_one.

Definition foreign_block : CompleteBlockResponse :=
  mkCompleteBlockResponse "block" BlockRole_h3_train (foreign_cell <$> expected_stage_a_cells).

(** A block response with 180 distinct cells of which 36 belong to a package
    outside the Stage A product passes every check of [cell_map], although its
    last error says that the cells must form the product; the contrasts of such
    a block leave with the exception of [std::map::at] instead of an error. *)
Theorem foreign_cells_throw :
  (exists values, cell_map foreign_block = success values) /\
  h1_block_contrasts foreign_block = Threw "map::at" /\
  h2_block_contrasts foreign_block = Threw "map::at".
Proof.
  split; [eexists; vm_compute; reflexivity|]. split; vm_compute; reflexivity.
Qed.

(** ** The design has full rank *)

(** Four times the exact entries of a row: all of them are multiples of a quarter. *)
Definition exact_row (key : CellKey) : list Z :=
  let '(package, hardware, placement, working_set, load) := key in
  let one (b : bool) := if b then 1 else 0 in
  let code (plus minus : bool) := if plus then 1 else if minus then -1 else 0 in
  let q := one (linked package) in
  let software := one <$> [bool_decide (package = QueuePackage_r1);
                           bool_decide (package = QueuePackage_r2);
                           bool_decide (package = QueuePackage_l1)] in
  let h := if bool_decide (hardware = RequestedHardwareState_h0) then -1 else 1 in
  let p := if bool_decide (placement = Placement_near) then -1 else 1 in
  let beyond := bool_decide (working_set = WorkingSetClass_beyond_llc) in
  let highest := bool_decide (load = LoadLevel_l075) in
  let twice_context :=
    [p; 2 * code (bool_decide (working_set = WorkingSetClass_l2_resident)) beyond;
     2 * code (bool_decide (working_set = WorkingSetClass_llc_resident)) beyond;
     2 * code (bool_decide (load = LoadLevel_l025)) highest;
     2 * code (bool_decide (load = LoadLevel_l050)) highest] in
  [4; 4 * q] ++ (Z.mul 4 <$> software) ++ [2 * h] ++ (Z.mul 2 <$> twice_context) ++
  (Z.mul (2 * q) <$> twice_context) ++ [2 * q * h] ++ (Z.mul (2 * h) <$> software) ++
  (Z.mul h <$> twice_context) ++ (x ← software; Z.mul (2 * x) <$> twice_context).

Definition f64_quarter (z : Z) : spec_float := f64_div (f64_of_Z z) (f64_of_Z 4).

Fixpoint dot (a b : list Z) : Z :=
  match a, b with x :: a, y :: b => x * y + dot a b | _, _ => 0 end.

(** A linear combination of rows, given as positions and coefficients. *)
Fixpoint combination (rows : list (list Z)) (width : nat) (terms : list (Z * Z)) : list Z :=
  match terms with
  | [] => replicate width 0
  | (index, coefficient) :: rest =>
      zip_with Z.add (Z.mul coefficient <$> default (replicate width 0) (rows !! Z.to_nat index))
        (combination rows width rest)
  end.

Definition exact_rows : list (list Z) := exact_row <$> expected_stage_a_cells.

Definition unit_row (scale : Z) (width column : nat) : list Z :=
  <[column := scale]> (replicate width 0).

(** For every column, rows of the design whose combination is 48 times the unit
    row of that column. *)
Definition design_inverse : list (list (Z * Z)) :=
  [[(0, -5); (1, 2); (2, 2); (3, 2); (6, 2); (9, 3); (18, -5); (19, 2); (20, 2); (21, 2);
    (24, 2); (27, 3)];
   [(0, 16); (108, -16); (1, -4); (2, -4); (3, -4); (6, -4); (9, -6); (18, -6); (109, 4);
    (110, 4); (111, 4); (114, 4); (117, 6); (126, 6)];
   [(0, 16); (36, -16); (1, -4); (2, -4); (3, -4); (6, -4); (9, -6); (18, -6); (37, 4);
    (38, 4); (39, 4); (42, 4); (45, 6); (54, 6)];
   [(0, 16); (72, -16); (1, -4); (2, -4); (3, -4); (6, -4); (9, -6); (18, -6); (73, 4);
    (74, 4); (75, 4); (78, 4); (81, 6); (90, 6)];
   [(108, 16); (144, -16); (109, -4); (110, -4); (111, -4); (114, -4); (117, -6); (126, -6);
    (145, 4); (146, 4); (147, 4); (150, 4); (153, 6); (162, 6)];
   [(0, 10); (1, -4); (2, -4); (3, -4); (6, -4); (9, -6); (18, -10); (19, 4); (20, 4);
    (21, 4); (24, 4); (27, 6)];
   [(0, -6); (9, 6); (18, -6); (27, 6)];
   [(0, 4); (3, -2); (6, -2); (18, 4); (21, -2); (24, -2)];
   [(0, -2); (3, 4); (6, -2); (18, -2); (21, 4); (24, -2)];
   [(0, 4); (1, -2); (2, -2); (18, 4); (19, -2); (20, -2)];
   [(0, -2); (1, 4); (2, -2); (18, -2); (19, 4); (20, -2)];
   [(0, 12); (108, -12); (9, -12); (117, 12)];
   [(0, -8); (108, 8); (3, 4); (6, 4); (111, -4); (114, -4)];
   [(0, 4); (108, -4); (3, -8); (6, 4); (111, 8); (114, -4)];
   [(0, -8); (108, 8); (1, 4); (2, 4); (109, -4); (110, -4)];
   [(0, 4); (108, -4); (1, -8); (2, 4); (109, 8); (110, -4)];
   [(0, 12); (108, -12); (18, -12); (126, 12)];
   [(0, 12); (36, -12); (18, -12); (54, 12)];
   [(0, 12); (72, -12); (18, -12); (90, 12)];
   [(108, 12); (144, -12); (126, -12); (162, 12)];
   [(0, 12); (9, -12); (18, -12); (27, 12)];
   [(0, -8); (3, 4); (6, 4); (18, 8); (21, -4); (24, -4)];
   [(0, 4); (3, -8); (6, 4); (18, -4); (21, 8); (24, -4)];
   [(0, -8); (1, 4); (2, 4); (18, 8); (19, -4); (20, -4)];
   [(0, 4); (1, -8); (2, 4); (18, -4); (19, 8); (20, -4)];
   [(0, 12); (36, -12); (9, -12); (45, 12)];
   [(0, -8); (36, 8); (3, 4); (6, 4); (39, -4); (42, -4)];
   [(0, 4); (36, -4); (3, -8); (6, 4); (39, 8); (42, -4)];
   [(0, -8); (36, 8); (1, 4); (2, 4); (37, -4); (38, -4)];
   [(0, 4); (36, -4); (1, -8); (2, 4); (37, 8); (38, -4)];
   [(0, 12); (72, -12); (9, -12); (81, 12)];
   [(0, -8); (72, 8); (3, 4); (6, 4); (75, -4); (78, -4)];
   [(0, 4); (72, -4); (3, -8); (6, 4); (75, 8); (78, -4)];
   [(0, -8); (72, 8); (1, 4); (2, 4); (73, -4); (74, -4)];
   [(0, 4); (72, -4); (1, -8); (2, 4); (73, 8); (74, -4)];
   [(108, 12); (144, -12); (117, -12); (153, 12)];
   [(108, -8); (144, 8); (111, 4); (114, 4); (147, -4); (150, -4)];
   [(108, 4); (144, -4); (111, -8); (114, 4); (147, 8); (150, -4)];
   [(108, -8); (144, 8); (109, 4); (110, 4); (145, -4); (146, -4)];
   [(108, 4); (144, -4); (109, -8); (110, 4); (145, 8); (146, -4)]].

Definition forall2b {A B : Type} (f : A -> B -> bool) (l : list A) (k : list B) : bool :=
  (length l =? length k)%nat && forallb (fun ab => f (fst ab) (snd ab)) (zip l k).

Lemma forall2b_Forall2 {A B} (f : A -> B -> bool) l k :
  forall2b f l k = true -> Forall2 (fun a b => f a b = true) l k.
Proof.
  unfold forall2b. revert k. induction l as [|a l IH]; intros [|b k]; cbn; intros H; try done.
  rewrite !andb_true_iff in H. destruct H as (L & F & H). constructor; [done|].
  apply IH. by rewrite L, H.
Qed.

Lemma design_rows_exact :
  Forall2 (Forall2 (fun x z => SFeqb x (f64_quarter z) = true)) design_matrix exact_rows.
Proof.
  assert (E : forall2b (forall2b (fun x z => SFeqb x (f64_quarter z))) design_matrix exact_rows = true)
    by (vm_compute; reflexivity).
  apply forall2b_Forall2 in E. eapply Forall2_impl; [exact E|].
  intros a b H. exact (forall2b_Forall2 _ _ _ H).
Qed.

Lemma dot_zeros width c : dot (replicate width 0) c = 0.
Proof. revert c. induction width as [|w IH]; intros [|x c]; cbn; [done..|]. apply IH. Qed.

Lemma dot_scale k a c : dot (Z.mul k <$> a) c = k * dot a c.
Proof. revert c. induction a as [|x a IH]; intros [|y c]; cbn; try lia. rewrite IH. lia. Qed.

Lemma dot_add a b c : length a = length b -> dot (zip_with Z.add a b) c = dot a c + dot b c.
Proof.
  revert b c. induction a as [|x a IH]; intros [|y b] [|z c] L; cbn in *; try lia.
  rewrite IH by lia. lia.
Qed.

Lemma dot_unit scale width column c : length c = width -> (column < width)%nat ->
  dot (unit_row scale width column) c = scale * default 0 (c !! column).
Proof.
  unfold unit_row. revert width c. induction column as [|column IH]; intros [|width] [|x c] L B;
    cbn in *; try lia.
  - rewrite dot_zeros. lia.
  - rewrite IH by lia. by rewrite Z.mul_0_l, Z.add_0_l.
Qed.

Lemma combination_length rows width terms :
  Forall (fun row => length row = width) rows -> length (combination rows width terms) = width.
Proof.
  intros F. induction terms as [|[i k] terms IH]; cbn; [by rewrite length_replicate|].
  rewrite length_zip_with, length_fmap, IH.
  destruct (rows !! Z.to_nat i) as [row|] eqn:E; cbn; [|rewrite length_replicate; lia].
  rewrite (proj1 (Forall_lookup _ _) F _ _ E). lia.
Qed.

(** A vector that is orthogonal to every row is orthogonal to their combinations. *)
Lemma combination_kernel rows width terms c :
  Forall (fun row => length row = width) rows -> Forall (fun row => dot row c = 0) rows ->
  dot (combination rows width terms) c = 0.
Proof.
  intros L F. induction terms as [|[i k] terms IH]; cbn; [apply dot_zeros|].
  destruct (rows !! Z.to_nat i) as [row|] eqn:E; cbn.
  - rewrite dot_add, dot_scale, IH, (proj1 (Forall_lookup _ _) F _ _ E); [lia|].
    rewrite length_fmap, combination_length by done. by rewrite (proj1 (Forall_lookup _ _) L _ _ E).
  - rewrite dot_add, dot_scale, IH, dot_zeros; [lia|].
    by rewrite length_fmap, combination_length, length_replicate.
Qed.

(** The design is of full rank, and the elimination finds it. The elimination
    in binary64 arithmetic reports rank 40. The entries of the design are exact:
    each is a quarter of an integer. And over the integers the 40 columns are
    linearly independent: no vector of coefficients other than zero is orthogonal
    to all 180 rows, so that every effect of the model is identified by a
    complete block. *)
Theorem design_full_rank :
  stage_a_design_rank = 40%nat /\
  Forall2 (Forall2 (fun x z => SFeqb x (f64_quarter z) = true)) design_matrix exact_rows /\
  forall coefficients, length coefficients = 40%nat ->
    Forall (fun row => dot row coefficients = 0) exact_rows -> coefficients = replicate 40 0.
Proof.
  split; [vm_compute; reflexivity|]. split; [exact design_rows_exact|]. intros c L F.
  assert (W : forallb (fun row => length row =? 40)%nat exact_rows = true) by (vm_compute; reflexivity).
  assert (U : forallb (fun column =>
      bool_decide (combination exact_rows 40 (default [] (design_inverse !! column)) = unit_row 48 40 column))
      (seq 0 40) = true) by (vm_compute; reflexivity).
  rewrite forallb_forall in U.
  assert (W' : Forall (fun row => length row = 40%nat) exact_rows).
  { apply Forall_forall. intros row R. apply list_elem_of_In in R. rewrite forallb_forall in W.
    by apply W, Nat.eqb_eq in R. }
  apply list_eq. intros i. destruct (decide (i < 40)%nat) as [B|B].
  - rewrite lookup_replicate_2 by done.
    specialize (U i ltac:(apply in_seq; lia)). apply bool_decide_eq_true in U.
    pose proof (combination_kernel exact_rows 40 (default [] (design_inverse !! i)) c W' F) as K.
    rewrite U, dot_unit in K by (done || lia).
    destruct (c !! i) as [x|] eqn:E; [cbn in K; f_equal; lia|].
    apply lookup_ge_None in E. lia.
  - rewrite !(proj2 (lookup_ge_None _ _)) by (rewrite ?length_replicate; lia). done.
Qed.

(** ** Lemmas: resampling *)

(** [bounded_draw] is the rejection loop of the permutations. *)
Lemma bounded_draw_step_accepted stream bound threshold ordinal :
  bounded_draw_step stream bound threshold ordinal =
  match draw_step stream threshold ordinal with
  | inl next => inl next
  | inr (Returned (d, next)) => inr (success (d mod bound, next))
  | inr (Threw _) => inr draw_exhausted
  end.
Proof.
  unfold bounded_draw_step, draw_step. destruct (ordinal =? u64_max); [done|].
  rewrite Z.geb_leb. destruct (Z.leb_spec threshold (stream ordinal));
    destruct (Z.ltb_spec (stream ordinal) threshold); (done || lia).
Qed.

Lemma loop_nat_map {S R R'} (f : S -> S + R) (g : S -> S + R') (h : R -> R') n s :
  (forall s, g s = match f s with inl s' => inl s' | inr r => inr (h r) end) ->
  loop_nat g n s = match loop_nat f n s with inl s' => inl s' | inr r => inr (h r) end.
Proof.
  intros E. revert s. induction n as [|n IH]; intros s; cbn; [done|].
  rewrite E. by destruct (f s).
Qed.

Lemma bounded_draw_accepted stream bound ordinal : bound <> 0 -> 0 <= ordinal <= u64_max ->
  bounded_draw stream bound ordinal =
  match draw_accepted stream (u64_sub 0 bound mod bound) ordinal with
  | Returned (d, next) => success (d mod bound, next)
  | Threw _ => draw_exhausted
  end.
Proof.
  intros B O. unfold bounded_draw, draw_accepted. rewrite (proj2 (Z.eqb_neq _ _) B).
  rewrite !loop_pos_nat.
  rewrite (loop_nat_map (draw_step stream (u64_sub 0 bound mod bound)) _
    (fun r => match r with
              | Returned (d, next) => success (d mod bound, next)
              | Threw _ => draw_exhausted
              end)).
  - by destruct (loop_nat _ _ _).
  - intros s. rewrite bounded_draw_step_accepted. by destruct (draw_step _ _ _) as [|[[]|]].
Qed.

Lemma bounded_draw_range stream bound ordinal index next :
  0 < bound -> 0 <= ordinal <= u64_max -> bounded_draw stream bound ordinal = success (index, next) ->
  0 <= index < bound /\ ordinal < next <= u64_max.
Proof.
  intros B O. rewrite bounded_draw_accepted by lia.
  destruct (draw_accepted _ _ _) as [[d s]|] eqn:E; [|done]. intros [= <- <-].
  apply draw_accepted_spec in E; [|done]. split; [apply Z.mod_pos_bound; lia | lia].
Qed.

(** The estimate of one resample: the mean of the chosen blocks. *)
Definition resample (blocks : list (list spec_float)) (width : nat) (choice : list nat) :
    list spec_float :=
  let chosen := (fun index => default [] (blocks !! index)) <$> choice in
  (fun value => f64_div value (f64_of_Z (Z.of_nat (length blocks)))) <$>
  fold_left add_vectors chosen (replicate width f64_zero).

Lemma draw_blocks_spec stream blocks draws ordinal estimate result next :
  blocks <> [] -> 0 <= ordinal <= u64_max ->
  draw_blocks stream blocks draws ordinal estimate = success (result, next) ->
  ordinal <= next <= u64_max /\
  exists choice, length choice = draws /\ Forall (fun index => index < length blocks)%nat choice /\
    result = fold_left add_vectors ((fun index => default [] (blocks !! index)) <$> choice) estimate.
Proof.
  intros NE. revert ordinal estimate. induction draws as [|draws IH]; intros ordinal estimate O; cbn.
  { intros [= <- <-]. split; [lia|]. by exists []. }
  destruct (bounded_draw _ _ _) as [[index ordinal']|] eqn:E; [|done]. cbn [rbind fst snd].
  apply bounded_draw_range in E as [I N]; [|destruct blocks; [done|cbn; lia]|done].
  intros D. apply IH in D as (N' & choice & L & F & ->); [|lia]. split; [lia|].
  exists (Z.to_nat index :: choice). cbn. rewrite L. split_and!; [done | | done].
  constructor; [lia|done].
Qed.

Lemma bootstrap_replicates_spec stream blocks width replicates ordinal estimates :
  blocks <> [] -> 0 <= ordinal <= u64_max ->
  bootstrap_replicates stream blocks width replicates ordinal = success estimates ->
  length estimates = replicates /\
  Forall (fun estimate => exists choice, length choice = length blocks /\
    Forall (fun index => index < length blocks)%nat choice /\
    estimate = resample blocks width choice) estimates.
Proof.
  intros NE. revert ordinal estimates. induction replicates as [|n IH]; intros ordinal estimates O; cbn.
  { intros [= <-]. by split. }
  destruct (draw_blocks _ _ _ _ _) as [[result next]|] eqn:D; [|done]. cbn [rbind fst snd].
  apply draw_blocks_spec in D as (N & choice & L & F & ->); [|done..].
  destruct (bootstrap_replicates _ _ _ n next) as [rest|] eqn:R; [|done]. cbn [rbind].
  intros [= <-]. apply IH in R as [L' F']; [|lia]. cbn. rewrite L'. split; [done|].
  constructor; [by exists choice | done].
Qed.

Lemma bootstrap_inv blocks bootstrap estimates :
  bootstrap_vectors blocks bootstrap = success estimates ->
  let width := length (default [] (head blocks)) in
  (2 <= length blocks)%nat /\ (0 < width)%nat /\ Forall (fun block => length block = width) blocks /\
  bt_profile bootstrap = kBootstrapProfile /\ bt_rng_algorithm_version bootstrap = kDeterministicSuite /\
  bt_seed_id bootstrap <> EmptyString /\ 2 <= bt_replicates bootstrap /\
  Z.of_nat (length estimates) = bt_replicates bootstrap /\
  Forall (fun estimate => exists choice, length choice = length blocks /\
    Forall (fun index => index < length blocks)%nat choice /\
    estimate = resample blocks width choice) estimates.
Proof.
  unfold bootstrap_vectors. destruct (_ || _ || _ || _ || _) eqn:G; [done|].
  rewrite !orb_false_iff, !negb_false_iff, !bool_decide_eq_true, !Z.ltb_ge, str_empty_false in G.
  destruct G as [[[[L R] P] A] S].
  destruct (_ || _) eqn:W; [done|]. rewrite orb_false_iff, negb_false_iff, Nat.eqb_neq in W.
  destruct W as [W F]. intros B.
  apply bootstrap_replicates_spec in B as [N E]; [|destruct blocks; [cbn in L; lia|done] | int_lia].
  split_and!; try done; try lia.
  apply Forall_forall. intros block I. apply list_elem_of_In in I. rewrite forallb_forall in F.
  by apply F, Nat.eqb_eq in I.
Qed.

(** The bootstrap resamples complete blocks. If it succeeds, its profile,
    algorithm and seed are the accepted ones, all blocks have one nonempty width,
    and it returns exactly the requested number of estimates; each is the mean
    of as many blocks as there are, drawn with replacement from them. The
    rejection loop that draws is the one whose values are unbiased, and ends for
    every stream. *)
Theorem bootstrap_resamples blocks bootstrap estimates :
  bootstrap_vectors blocks bootstrap = success estimates ->
  let width := length (default [] (head blocks)) in
  (2 <= length blocks)%nat /\ (0 < width)%nat /\ Forall (fun block => length block = width) blocks /\
  bt_profile bootstrap = kBootstrapProfile /\ bt_rng_algorithm_version bootstrap = kDeterministicSuite /\
  bt_seed_id bootstrap <> EmptyString /\ 2 <= bt_replicates bootstrap /\
  Z.of_nat (length estimates) = bt_replicates bootstrap /\
  Forall (fun estimate => exists choice, length choice = length blocks /\
    Forall (fun index => index < length blocks)%nat choice /\
    estimate = resample blocks width choice) estimates.
Proof. apply bootstrap_inv. Qed.

Definition sample_bootstrap : BootstrapConfiguration :=
  mkBootstrapConfiguration kBootstrapProfile kDeterministicSuite "seed" (mkPhiloxKey 1 2) 4.

Definition sample_vectors : list (list spec_float) :=
  [[f64_of_Z 1; f64_of_Z 5]; [f64_of_Z 2; f64_of_Z 7]; [f64_of_Z 4; f64_of_Z 6]].

Lemma sample_estimates : exists estimates,
  bootstrap_vectors sample_vectors sample_bootstrap = success estimates.
Proof. eexists. vm_compute. reflexivity. Qed.

Lemma bootstrap_resamples_witness :
  exists estimates, bootstrap_vectors sample_vectors sample_bootstrap = success estimates /\
    Z.of_nat (length estimates) = 4.
Proof.
  destruct sample_estimates as [estimates E]. exists estimates. split; [exact E|].
  apply (bootstrap_resamples sample_vectors sample_bootstrap estimates E).
Defined.

(** ** Lemmas: the critical value *)

Definition count_where {A : Type} (f : A -> bool) (l : list A) : Z := Z.of_nat (length (List.filter f l)).

Lemma count_where_Permutation {A} (f : A -> bool) (l k : list A) : l ≡ₚ k ->
  count_where f l = count_where f k.
Proof.
  intros P. unfold count_where. f_equal.
  induction P as [|x l k P IH|x y l|l k m P1 IH1 P2 IH2]; cbn; [done| | |by rewrite IH1].
  - destruct (f x); cbn; by rewrite IH.
  - by destruct (f x), (f y).
Qed.

Lemma count_where_app {A} (f : A -> bool) (l k : list A) :
  count_where f (l ++ k) = count_where f l + count_where f k.
Proof. unfold count_where. rewrite List.filter_app, length_app. lia. Qed.

Lemma count_where_all {A} (f : A -> bool) l : Forall (fun x => f x = true) l ->
  count_where f l = Z.of_nat (length l).
Proof. unfold count_where. induction 1 as [|x l H _ IH]; cbn; [done|]. rewrite H. cbn. lia. Qed.

Lemma count_where_none {A} (f : A -> bool) l : Forall (fun x => f x = false) l -> count_where f l = 0.
Proof. unfold count_where. induction 1 as [|x l H _ IH]; cbn; [done|]. by rewrite H. Qed.

Lemma count_where_bound {A} (f : A -> bool) l : 0 <= count_where f l <= Z.of_nat (length l).
Proof. unfold count_where. pose proof (List.filter_length_le f l). lia. Qed.

(** The least value of a sample that at least 95 percent of it do not exceed. *)
Definition percentile_95 (values : list spec_float) (critical : spec_float) : Prop :=
  critical ∈ values /\
  95 * Z.of_nat (length values) <= 100 * count_where (fun v => SFleb v critical) values /\
  100 * count_where (fun v => SFltb v critical) values < 95 * Z.of_nat (length values).


Definition f64_leb_rel (a b : spec_float) : Prop := SFleb a b = true.

#[local] Instance f64_leb_trans : Transitive f64_leb_rel.
Proof. intros a b c. apply SFleb_trans. Qed.

#[local] Instance f64_le_total : Total f64_le.
Proof.
  intros a b. unfold f64_le. destruct (SFltb b a) eqn:E; [|by left]. right. by apply SFltb_asym.
Qed.

Lemma finite_sorted l : Forall (fun v => is_finite v = true) l -> Sorted f64_le l ->
  StronglySorted f64_leb_rel l.
Proof.
  intros F S. apply Sorted_StronglySorted; [exact f64_leb_trans|].
  induction S as [|x l S IH H]; [constructor|]. apply Forall_cons in F as [Fx F].
  constructor; [by apply IH|]. destruct H as [|y l H]; constructor.
  apply Forall_cons in F as [Fy _]. unfold f64_leb_rel, f64_le in *.
  by rewrite SFleb_negb, H by by apply is_finite_nan.
Qed.

(** The value at a position of a sorted list, by counting. *)
Lemma sorted_position l i v : Forall (fun x => is_finite x = true) l ->
  StronglySorted f64_leb_rel l -> l !! i = Some v ->
  Z.of_nat i < count_where (fun x => SFleb x v) l /\ count_where (fun x => SFltb x v) l <= Z.of_nat i.
Proof.
  intros F S L. apply list_elem_of_split_length in L as (before & after & -> & ->).
  apply StronglySorted_app in S as (C & _ & S). apply StronglySorted_cons in S as [A _].
  apply Forall_app in F as [_ F]. apply Forall_cons in F as [V F].
  apply is_finite_nan in V. change (v :: after) with ([v] ++ after). rewrite !count_where_app.
  rewrite (count_where_all (fun x => SFleb x v) before), (count_where_all (fun x => SFleb x v) [v]).
  - rewrite (count_where_none (fun x => SFltb x v) [v]), (count_where_none (fun x => SFltb x v) after).
    + pose proof (count_where_bound (fun x => SFleb x v) after).
      pose proof (count_where_bound (fun x => SFltb x v) before). cbn [length]. lia.
    + apply Forall_forall. intros x X. rewrite Forall_forall in A, F. specialize (A _ X).
      unfold f64_leb_rel in A. rewrite SFleb_negb, negb_true_iff in A; [done | done |].
      by apply is_finite_nan, F.
    + repeat constructor. apply not_true_iff_false. intros H.
      pose proof (SFltb_asym _ _ H). congruence.
  - repeat constructor. by apply SFleb_refl.
  - apply Forall_forall. intros x X. apply C; [done|]. set_solver.
Qed.

Lemma empirical_p95_exact values critical : empirical_p95 values = success critical ->
  Forall (fun v => is_finite v = true) values /\ percentile_95 values critical.
Proof.
  unfold empirical_p95. destruct (_ || _) eqn:G; [done|].
  rewrite orb_false_iff, !negb_false_iff in G. destruct G as [NE F].
  assert (Fv : Forall (fun v => is_finite v = true) values).
  { apply Forall_forall. intros v V. rewrite forallb_forall in F. by apply F, list_elem_of_In. }
  intros [= <-]. split; [done|]. set (n := Z.of_nat (length values)).
  assert (N : 0 < n) by (destruct values; [done|subst n; cbn; lia]).
  set (rank := (95 * n + 99) / 100).
  assert (R : 1 <= rank <= n /\ 95 * n <= 100 * rank < 95 * n + 100).
  { subst rank. pose proof (Z.div_mod (95 * n + 99) 100 ltac:(lia)).
    pose proof (Z.mod_pos_bound (95 * n + 99) 100 ltac:(lia)). lia. }
  pose proof (merge_sort_Permutation f64_le values) as P.
  destruct (merge_sort f64_le values !! Z.to_nat (rank - 1)) as [v|] eqn:E.
  2:{ apply lookup_ge_None in E. rewrite P in E. lia. }
  cbn [from_option default id].
  destruct (sorted_position (merge_sort f64_le values) (Z.to_nat (rank - 1)) v) as [A B].
  { by rewrite P. }
  { apply finite_sorted; [by rewrite P|]. apply Sorted_merge_sort, _. }
  { done. }
  rewrite (count_where_Permutation _ _ _ P) in A. rewrite (count_where_Permutation _ _ _ P) in B.
  rewrite Z2Nat.id in A, B by lia.
  split_and!; [|fold n; lia..]. apply list_elem_of_lookup_2 in E. by rewrite P in E.
Qed.

(** ** Lemmas: the shape of a family *)

Lemma fold_add_vectors_length width vectors acc :
  length acc = width -> Forall (fun v => length v = width) vectors ->
  length (fold_left add_vectors vectors acc) = width.
Proof.
  intros A F. revert acc A. induction F as [|v vectors V _ IH]; intros acc A; cbn; [done|].
  apply IH. unfold add_vectors. rewrite length_zip_with. lia.
Qed.

Lemma mean_vector_length values :
  Forall (fun v => length v = length (default [] (head values))) values ->
  length (mean_vector values) = length (default [] (head values)).
Proof.
  intros F. unfold mean_vector. rewrite length_fmap.
  apply fold_add_vectors_length; [apply length_replicate | done].
Qed.

Lemma resample_length blocks width choice :
  Forall (fun v => length v = width) blocks -> Forall (fun i => i < length blocks)%nat choice ->
  length (resample blocks width choice) = width.
Proof.
  intros F C. unfold resample. rewrite length_fmap.
  apply fold_add_vectors_length; [apply length_replicate|]. apply Forall_fmap.
  eapply Forall_impl; [exact C|]. intros i I. cbn. apply lookup_lt_is_Some_2 in I as [v V].
  rewrite V. cbn. by apply (proj1 (Forall_lookup _ _) F i).
Qed.

Lemma bootstrap_two blocks bootstrap estimates : bootstrap_vectors blocks bootstrap = success estimates ->
  2 <= bt_replicates bootstrap.
Proof. intros B. apply bootstrap_inv in B. tauto. Qed.

Lemma bootstrap_shape blocks bootstrap estimates : bootstrap_vectors blocks bootstrap = success estimates ->
  Z.of_nat (length estimates) = bt_replicates bootstrap /\
  Forall (fun block => length block = length (default [] (head blocks))) blocks /\
  Forall (fun estimate => length estimate = length (default [] (head blocks))) estimates.
Proof.
  intros B. apply bootstrap_inv in B as (_ & _ & W & _ & _ & _ & _ & N & E). split_and!; [done..|].
  eapply Forall_impl; [exact E|]. intros e (choice & _ & F & ->). by apply resample_length.
Qed.

Lemma standard_errors_length estimates width :
  Forall (fun estimate => length estimate = width) estimates -> estimates <> [] ->
  length (standard_errors estimates) = width.
Proof.
  intros F NE. destruct estimates as [|e rest] eqn:E; [done|]. rewrite <- E in *.
  assert (H : default [] (head estimates) = e) by by rewrite E.
  assert (He : length e = width) by (rewrite E in F; by apply Forall_cons in F as [? _]).
  assert (Lm : length (mean_vector estimates) = width).
  { rewrite mean_vector_length; rewrite H, ?He; done. }
  unfold standard_errors. rewrite length_fmap, Lm.
  assert (G : forall l acc, Forall (fun v => length v = width) l -> length acc = width ->
    length (fold_left (fun result estimate => add_vectors result
      (zip_with (fun x mean => f64_mul (f64_sub x mean) (f64_sub x mean)) estimate (mean_vector estimates)))
      l acc) = width).
  { clear -Lm. intros l. induction l as [|v l IH]; intros acc Fl A; cbn; [done|].
    apply Forall_cons in Fl as [V Fl]. apply IH; [done|]. unfold add_vectors.
    rewrite !length_zip_with. lia. }
  apply G; [done|]. by rewrite length_replicate.
Qed.

Lemma interval_ids one_sided critical delta ids (means errors : list spec_float) :
  length means = length ids -> length errors = length ids ->
  sn_stable_id <$> (interval_of one_sided critical delta <$> zip (zip ids means) errors) = ids.
Proof.
  revert means errors. induction ids as [|id ids IH]; intros [|m means] [|e errors]; cbn; try done.
  intros [= A] [= B]. f_equal. by apply IH.
Qed.

Lemma interval_estimates one_sided critical delta ids (means errors : list spec_float) :
  length means = length ids -> length errors = length ids ->
  sn_estimate <$> (interval_of one_sided critical delta <$> zip (zip ids means) errors) = means.
Proof.
  revert means errors. induction ids as [|id ids IH]; intros [|m means] [|e errors]; cbn; try done.
  intros [= A] [= B]. f_equal. by apply IH.
Qed.


Lemma sample_family : exists result,
  max_t "FAMILY" ["a"; "b"] sample_vectors sample_bootstrap f64_one false = success result.
Proof. eexists. vm_compute. reflexivity. Qed.


(** Contrasts that are not numbers pass: [std::max] drops a NaN deviation, so the
    test for finite statistics sees zeros, and the family is reported with limits
    that are not numbers. *)
Definition nan_vectors : list (list spec_float) := [[S754_nan]; [S754_nan]].

(** The check that bootstrap statistics are finite does not see NaN. Two
    blocks whose contrast is NaN give a family that is accepted with critical
    value zero and limits that are NaN. *)
Theorem max_t_accepts_nan :
  exists result, two_sided_max_t "FAMILY" ["a"] nan_vectors sample_bootstrap f64_one = success result /\
    mx_critical_value result = f64_zero /\
    Forall (fun interval => is_nan (sn_lower interval) = true /\ is_nan (sn_upper interval) = true)
      (mx_intervals result).
Proof.
  eexists. split; [vm_compute; reflexivity|]. split; [reflexivity|]. repeat constructor.
Qed.

(** ** Lemmas: prospective counts *)

Lemma max_width_le values limit : values <> [] ->
  Forall (fun v => is_nan v = false) values ->
  SFleb (max_width values) limit = true <-> Forall (fun v => SFleb v limit = true) values.
Proof.
  destruct values as [|x rest]; [done|]. intros _ F. apply Forall_cons in F as [Fx F].
  cbn [max_width]. revert x Fx. induction F as [|y rest Fy _ IH]; intros x Fx; cbn [fold_left].
  { rewrite Forall_singleton. done. }
  rewrite IH by (destruct (SFltb x y); done). rewrite !Forall_cons.
  destruct (SFltb x y) eqn:E.
  - split; [intros [A B] | tauto]. split_and!; try done.
    eapply SFleb_trans; [by apply SFltb_leb | done].
  - split; [intros [A B] | tauto]. split_and!; try done.
    eapply SFleb_trans; [|exact A]. by rewrite SFleb_negb, E.
Qed.

(** A candidate whose widths all stay below the limit. *)
Definition sufficient (limit : spec_float) (candidate : ProspectiveCandidate) : Prop :=
  Forall (fun width => SFleb width limit = true) (pd_widths candidate).

Definition curve_ok (minimum width : Z) (candidate : ProspectiveCandidate) : Prop :=
  minimum <= pd_complete_block_count candidate /\ Z.of_nat (length (pd_widths candidate)) = width /\
  Forall (fun value => is_finite value = true /\ SFleb f64_zero value = true) (pd_widths candidate).

Lemma scan_candidates_spec minimum width limit candidates previous selected result :
  0 < width ->
  scan_candidates minimum width limit previous selected candidates = Some result ->
  StronglySorted (fun a b => pd_complete_block_count a < pd_complete_block_count b) candidates /\
  Forall (fun candidate => previous < pd_complete_block_count candidate /\ curve_ok minimum width candidate)
    candidates /\
  match selected with
  | Some _ => result = selected
  | None =>
      match result with
      | None => Forall (fun candidate => ~ sufficient limit candidate) candidates
      | Some r => exists candidate, candidate ∈ candidates /\ pd_complete_block_count candidate = r /\
          sufficient limit candidate /\
          forall other, other ∈ candidates -> sufficient limit other -> r <= pd_complete_block_count other
      end
  end.
Proof.
  intros W. revert previous selected. induction candidates as [|c candidates IH]; intros previous selected; cbn.
  { intros [= <-]. split_and!; [constructor | constructor |]. destruct selected; [done|constructor]. }
  destruct (_ || _ || _ || _) eqn:G; [done|].
  rewrite !orb_false_iff, !negb_false_iff, Z.leb_gt, Z.ltb_ge in G. destruct G as [[[P M] L] F].
  apply Z.eqb_eq in L.
  assert (Fw : Forall (fun value => is_finite value = true /\ SFleb f64_zero value = true) (pd_widths c)).
  { apply Forall_forall. intros v V. rewrite forallb_forall in F.
    specialize (F v ltac:(by apply list_elem_of_In)). by apply andb_true_iff in F. }
  assert (S : SFleb (max_width (pd_widths c)) limit = true <-> sufficient limit c).
  { apply max_width_le; [intros N; rewrite N in L; cbn in L; lia|].
    eapply Forall_impl; [exact Fw|]. intros v [V _]. by apply is_finite_nan. }
  intros E. apply IH in E as (Srt & All & R). split_and!.
  - constructor; [done|]. eapply Forall_impl; [exact All|]. cbn. lia.
  - constructor; [by split_and!|]. eapply Forall_impl; [exact All|]. cbn. intros x [A B]. split; [lia|done].
  - destruct selected as [s|]; [done|].
    destruct (SFleb (max_width (pd_widths c)) limit) eqn:Q.
    + subst result. exists c. split_and!; [set_solver | done | by apply S |].
      intros other O Suf. apply elem_of_cons in O as [->|O]; [lia|].
      rewrite Forall_forall in All. specialize (All _ O). lia.
    + destruct result as [r|].
      * destruct R as (x & X & <- & Sx & Min). exists x. split_and!; [set_solver | done | done |].
        intros other O Suf. apply elem_of_cons in O as [->|O]; [|by apply Min].
        apply S in Suf. congruence.
      * constructor; [|done]. intros Suf. apply S in Suf. congruence.
Qed.

(** The least count of a registered curve that is precise enough. *)
Definition least_sufficient (family : FamilyKind) (limit : spec_float)
    (candidates : list ProspectiveCandidate) (r : Z) : Prop :=
  family_minimum family <= r /\ (two_sided_family family = true -> r <= 30) /\
  Forall (curve_ok (family_minimum family) (family_expected_width family)) candidates /\
  exists candidate, candidate ∈ candidates /\ pd_complete_block_count candidate = r /\
    sufficient limit candidate /\
    forall other, other ∈ candidates -> sufficient limit other -> r <= pd_complete_block_count other.

Lemma select_prospective_count_spec input expected delta r :
  select_prospective_count input expected delta = success r ->
  least_sufficient expected (f64_div delta (f64_of_Z 2)) (pf_candidates input) r.
Proof.
  unfold select_prospective_count. destruct (_ || _ || _) eqn:G; [done|].
  destruct (scan_candidates _ _ _ _ _ _) as [[selected|]|] eqn:E; [|done..].
  apply scan_candidates_spec in E as (_ & A & x & X & <- & S & Min); [|by destruct expected].
  destruct (two_sided_family expected && _) eqn:C; [done|]. intros [= <-].
  assert (A' : Forall (curve_ok (family_minimum expected) (family_expected_width expected))
    (pf_candidates input)) by (eapply Forall_impl; [exact A|]; cbn; tauto).
  pose proof (proj1 (Forall_forall _ _) A' _ X) as (M & _).
  split_and!; [done | | done | by exists x].
  intros T. rewrite T in C. cbn in C. lia.
Qed.

(** C36. Prospective counts are the least that are precise enough. If the
    evaluation succeeds, each of the four families has exactly the registered
    number of finite widths per candidate, its count is the smallest candidate
    whose widths are all at most half of [delta_star], at least the registered
    minimum and, for H1 and H2, at most 30; the combined counts are the maxima
    and sums of these, and no sum or product overflows. *)
Theorem prospective_counts_least input delta_star counts :
  Forall (fun candidate => is_u64 (pd_complete_block_count candidate))
    (pf_candidates (pn_h1 input) ++ pf_candidates (pn_h2 input) ++
     pf_candidates (pn_h3_training input) ++ pf_candidates (pn_h3_validation input)) ->
  evaluate_prospective_precision input delta_star = success counts ->
  let limit := f64_div delta_star (f64_of_Z 2) in
  is_finite delta_star = true /\ SFltb f64_zero delta_star = true /\
  least_sufficient FamilyKind_h1_two_sided limit (pf_candidates (pn_h1 input)) (pc_r_h1 counts) /\
  least_sufficient FamilyKind_h2_two_sided limit (pf_candidates (pn_h2 input)) (pc_r_h2 counts) /\
  least_sufficient FamilyKind_h3_training_standard_error limit
    (pf_candidates (pn_h3_training input)) (pc_rtrain counts) /\
  least_sufficient FamilyKind_h3_validation_one_sided limit
    (pf_candidates (pn_h3_validation input)) (pc_rval counts) /\
  pc_r12 counts = Z.max (pc_r_h1 counts) (pc_r_h2 counts) /\
  pc_rtotal counts = Z.max (pc_r12 counts) (pc_rtrain counts + pc_rval counts) /\
  pc_nruns counts = 180 * pc_rtotal counts /\ is_u64 (pc_nruns counts).
Proof.
  intros U. rewrite !Forall_app in U. destruct U as (U1 & U2 & U3 & U4).
  unfold evaluate_prospective_precision. destruct (negb _) eqn:D; [done|].
  apply negb_false_iff, andb_true_iff in D as [D1 D2].
  destruct (select_prospective_count _ FamilyKind_h1_two_sided _) as [h1|] eqn:E1; [|done].
  destruct (select_prospective_count _ FamilyKind_h2_two_sided _) as [h2|] eqn:E2; [|done].
  destruct (select_prospective_count _ FamilyKind_h3_training_standard_error _) as [train|] eqn:E3; [|done].
  destruct (select_prospective_count _ FamilyKind_h3_validation_one_sided _) as [val|] eqn:E4; [|done].
  apply select_prospective_count_spec in E1, E2, E3, E4.
  assert (R : forall family limit candidates r,
    Forall (fun candidate => is_u64 (pd_complete_block_count candidate)) candidates ->
    least_sufficient family limit candidates r -> is_u64 r).
  { intros family limit candidates r F (_ & _ & _ & x & X & <- & _). rewrite Forall_forall in F. by apply F. }
  pose proof (R _ _ _ _ U1 E1). pose proof (R _ _ _ _ U2 E2).
  pose proof (R _ _ _ _ U3 E3). pose proof (R _ _ _ _ U4 E4).
  rewrite u64_sub_small by int_lia. destruct (Z.gtb_spec train (u64_max - val)); [done|].
  rewrite u64_add_small by int_lia. rewrite Z.gtb_ltb.
  destruct (Z.ltb_spec (u64_max / kStageACells) (Z.max (Z.max h1 h2) (train + val))) as [|T]; [done|].
  assert (T' : Z.max (Z.max h1 h2) (train + val) * kStageACells <= u64_max).
  { pose proof (Z.mul_div_le u64_max kStageACells ltac:(done)). unfold kStageACells in *. lia. }
  rewrite u64_mul_small by (unfold kStageACells in *; int_lia). intros [= <-]. cbn.
  split_and!; try done; unfold kStageACells in *; int_lia.
Qed.

Definition sample_curve (width : nat) (counts : list Z) : list ProspectiveCandidate :=
  (fun count => mkProspectiveCandidate count
     (replicate width (f64_div (f64_of_Z 10) (f64_of_Z count)))) <$> counts.

Definition sample_precision : ProspectivePrecisionInput :=
  let reference id := mkArtifactReference id (mkSha256 []) in
  mkProspectivePrecisionInput
    (mkProspectiveFamilyInput FamilyKind_h1_two_sided (reference "h1") (sample_curve 7 [20; 25; 30]))
    (mkProspectiveFamilyInput FamilyKind_h2_two_sided (reference "h2") (sample_curve 20 [20; 22]))
    (mkProspectiveFamilyInput FamilyKind_h3_training_standard_error (reference "train")
       (sample_curve 270 [12; 20; 24]))
    (mkProspectiveFamilyInput FamilyKind_h3_validation_one_sided (reference "validation")
       (sample_curve 540 [20])).

Definition sample_precision_counts : ProspectiveCounts := mkProspectiveCounts 20 20 20 20 20 40 7200.

Lemma prospective_counts_least_witness :
  evaluate_prospective_precision sample_precision f64_one = success sample_precision_counts /\
  pc_nruns sample_precision_counts = 180 * pc_rtotal sample_precision_counts.
Proof.
  assert (E : evaluate_prospective_precision sample_precision f64_one = success sample_precision_counts)
    by (vm_compute; reflexivity).
  assert (U : Forall (fun candidate => is_u64 (pd_complete_block_count candidate))
    (pf_candidates (pn_h1 sample_precision) ++ pf_candidates (pn_h2 sample_precision) ++
     pf_candidates (pn_h3_training sample_precision) ++ pf_candidates (pn_h3_validation sample_precision))).
  { repeat (apply Forall_cons; split; [cbn [pd_complete_block_count]; unfold_ints; lia|]). constructor. }
  pose proof (prospective_counts_least sample_precision f64_one sample_precision_counts U E) as T.
  split; [exact E | apply T].
Defined.

(** ** Lemmas: the selection of H3 candidates *)

Lemma h3_value_finite block context candidate x :
  h3_value block context candidate = Returned (success x) -> is_finite x = true.
Proof.
  unfold h3_value. destruct (cell_map block) as [values|] eqn:M; [|done].
  destruct (context_cell context) as [placement working_set]. unfold value_at.
  destruct (cell_find _ values) as [y|] eqn:E; [|done]. intros [= <-].
  apply cell_map_spec in M as (_ & -> & _ & F). unfold cell_find in E.
  destruct (find _ _) as [[k z]|] eqn:D; [|done]. injection E as <-.
  apply find_some in D as [D _]. apply list_elem_of_In, list_elem_of_fmap in D as (cell & C & I).
  injection C as -> ->. rewrite Forall_forall in F. by apply F.
Qed.

Lemma training_sum_nan context candidate blocks sum result :
  is_nan sum = false -> training_sum context candidate sum blocks = Returned (success result) ->
  is_nan result = false.
Proof.
  revert sum. induction blocks as [|block blocks IH]; intros sum N; cbn [training_sum]; [by intros [= <-]|].
  destruct (h3_value block context candidate) as [[x|]|] eqn:E; [|done..].
  apply h3_value_finite in E. intros T. eapply IH; [|exact T]. by apply f64_add_nan.
Qed.

(** The mean response of a candidate over the training blocks. *)
Definition training_mean (blocks : list CompleteBlockResponse) (context : H3Context)
    (candidate : H3Candidate) (mean : spec_float) : Prop :=
  exists sum, training_sum context candidate f64_zero blocks = Returned (success sum) /\
    mean = f64_div sum (f64_of_Z (Z.of_nat (length blocks))).

Lemma training_mean_nan blocks context candidate mean :
  0 < Z.of_nat (length blocks) < 2 ^ 53 -> training_mean blocks context candidate mean ->
  is_nan mean = false.
Proof.
  intros L (sum & S & ->). apply f64_div_nan; [by apply (training_sum_nan context candidate blocks f64_zero)|].
  destruct (f64_of_Z_finite _ L) as (m & e & ->). by exists false, m, e.
Qed.

(** [candidate] is the first of [candidates] with the least mean. *)
Definition first_least (blocks : list CompleteBlockResponse) (context : H3Context)
    (candidates : list H3Candidate) (candidate : H3Candidate) : Prop :=
  exists before after mean, candidates = before ++ candidate :: after /\
    training_mean blocks context candidate mean /\
    Forall (fun other => exists x, training_mean blocks context other x /\ SFltb mean x = true) before /\
    Forall (fun other => exists x, training_mean blocks context other x /\ SFleb mean x = true) after.

Lemma select_candidate_least context blocks mean candidate before after rest result :
  0 < Z.of_nat (length blocks) < 2 ^ 53 ->
  training_mean blocks context candidate mean ->
  Forall (fun other => exists x, training_mean blocks context other x /\ SFltb mean x = true) before ->
  Forall (fun other => exists x, training_mean blocks context other x /\ SFleb mean x = true) after ->
  select_candidate context blocks (Some (mean, candidate)) rest = Returned (success result) ->
  exists mean' candidate', result = Some (mean', candidate') /\
    first_least blocks context ((before ++ candidate :: after) ++ rest) candidate'.
Proof.
  intros L. revert mean candidate before after. induction rest as [|c rest IH];
    intros mean candidate before after M B A; cbn [select_candidate].
  { intros [= <-]. exists mean, candidate. rewrite app_nil_r. split; [done|].
    by exists before, after, mean. }
  destruct (training_sum context c f64_zero blocks) as [[sum|]|] eqn:E; [|done..].
  set (x := f64_div sum (f64_of_Z (Z.of_nat (length blocks)))).
  assert (X : training_mean blocks context c x) by by exists sum.
  replace ((before ++ candidate :: after) ++ c :: rest)
    with (((before ++ candidate :: after) ++ [c]) ++ rest) by by rewrite <- app_assoc.
  destruct (SFltb x mean) eqn:Lt; intros S.
  - apply (IH x c (before ++ candidate :: after) []) in S; [done | done | | constructor].
    apply Forall_app. split; [|constructor].
    + eapply Forall_impl; [exact B|]. intros d (y & Y & H). exists y. split; [done|].
      eapply SFltb_leb_trans; [exact Lt | by apply SFltb_leb].
    + by exists mean.
    + eapply Forall_impl; [exact A|]. intros d (y & Y & H). exists y. split; [done|].
      by eapply SFltb_leb_trans.
  - assert (A' : Forall (fun other => exists y, training_mean blocks context other y /\ SFleb mean y = true)
      (after ++ [c])).
    { apply Forall_app. split; [done|]. apply Forall_singleton. exists x. split; [done|].
      rewrite SFleb_negb, Lt; [done|..]; by eapply training_mean_nan. }
    pose proof (IH mean candidate before (after ++ [c]) M B A' S) as R.
    rewrite <- (app_assoc before (candidate :: after) [c]). exact R.
Qed.

Lemma select_candidates_least context blocks candidates result :
  0 < Z.of_nat (length blocks) < 2 ^ 53 -> candidates <> [] ->
  select_candidate context blocks None candidates = Returned (success result) ->
  exists mean candidate, result = Some (mean, candidate) /\
    first_least blocks context candidates candidate.
Proof.
  intros L NE. destruct candidates as [|c rest]; [done|]. cbn [select_candidate].
  destruct (training_sum context c f64_zero blocks) as [[sum|]|] eqn:E; [|done..].
  intros S. apply (select_candidate_least _ _ _ _ [] []) in S; try done; [by exists sum | constructor..].
Qed.

Lemma select_contexts_least blocks contexts selections :
  0 < Z.of_nat (length blocks) < 2 ^ 53 ->
  select_contexts blocks contexts = Returned (success selections) ->
  fst <$> selections = contexts /\
  Forall (fun selection => first_least blocks (fst selection) h3_candidates (snd selection)) selections.
Proof.
  intros L. revert selections. induction contexts as [|context contexts IH]; intros selections; cbn [select_contexts].
  { by intros [= <-]. }
  destruct (select_candidate context blocks None h3_candidates) as [[selected|]|] eqn:S; [|done..].
  apply select_candidates_least in S as (mean & c & -> & F); [|done..].
  destruct (select_contexts blocks contexts) as [[others|]|] eqn:O; [|done..]. intros [= <-].
  destruct (IH _ eq_refl) as [E A]. cbn. rewrite E. split; [done|]. by constructor.
Qed.

Lemma selection_document_hash selections sources hash hash' :
  map_assign "record_sha256" (string_value hash') (selection_document selections sources hash) =
  selection_document selections sources hash'.
Proof. reflexivity. Qed.

(** C20. The H3 selection is the rule it names: for each of the six contexts the
    candidate with the least mean response over the training blocks, the first in
    candidate order when several are equal. It is made from at least twelve
    blocks of the training role, and its record carries the digest of itself with
    that digest zeroed, over the sources in the order of their identifiers. *)
Theorem h3_selection_least sha256 blocks sources record :
  Z.of_nat (length blocks) < 2 ^ 53 ->
  select_h3_training sha256 blocks sources = Returned (success record) ->
  (12 <= length blocks)%nat /\ Forall (fun block => cb_role block = BlockRole_h3_train) blocks /\
  fst <$> hs_selections record = h3_contexts /\
  Forall (fun selection => first_least blocks (fst selection) h3_candidates (snd selection))
    (hs_selections record) /\
  hs_training_sources record ≡ₚ sources /\
  exists zeroed, canonicalize (Value_object
      (selection_document (hs_selections record) (hs_training_sources record) zero_hash)) = success zeroed /\
    hs_record_sha256 record = sha_text sha256 zeroed /\
    canonicalize (Value_object
      (selection_document (hs_selections record) (hs_training_sources record)
         (Sha256_hex (hs_record_sha256 record)))) = success (hs_canonical_json record).
Proof.
  intros U. unfold select_h3_training. destruct (_ || _ || _) eqn:G; [done|].
  rewrite !orb_false_iff, !negb_false_iff, Z.ltb_ge in G. destruct G as [[L _] R].
  destruct (select_contexts blocks h3_contexts) as [[selections|]|] eqn:S; [|done..].
  destruct (canonicalize (Value_object (selection_document _ _ zero_hash))) as [zeroed|] eqn:Z; [|done].
  rewrite selection_document_hash.
  destruct (canonicalize (Value_object (selection_document _ _ (Sha256_hex _)))) as [final|] eqn:C; [|done].
  intros [= <-]. cbn [hs_selections hs_training_sources hs_record_sha256 hs_canonical_json].
  apply select_contexts_least in S as [F A]; [|lia].
  split_and!; [lia | | done | done | apply merge_sort_Permutation | by exists zeroed].
  apply Forall_forall. intros block I. rewrite forallb_forall in R.
  apply list_elem_of_In, R, bool_decide_eq_true in I. done.
Qed.

(** Twelve blocks in which the response grows with the position of the cell. *)
Definition sample_response (shift : Z) : list CellResponse :=
  imap (fun index key =>
    let '(package, hardware, placement, working_set, load) := key in
    mkCellResponse package hardware placement working_set load (f64_of_Z (shift - Z.of_nat index)))
    expected_stage_a_cells.

Definition training_blocks : list CompleteBlockResponse :=
  (fun index => mkCompleteBlockResponse "block" BlockRole_h3_train (sample_response (Z.of_nat index)))
  <$> seq 0 12.

(** ** Lemmas: complete blocks do not throw *)

Lemma returns_cases {A} (t : Throws (Result A)) : returns t ->
  (exists a, t = Returned (success a)) \/ (exists e, t = Returned (failure e)).
Proof. intros [[a|e] ->]; eauto. Qed.

Lemma h1_block_contrasts_returns block : complete_cells block -> returns (h1_block_contrasts block).
Proof.
  intros C. destruct (cell_map block) as [values|e] eqn:M.
  - destruct (h1_block_contrasts_total block values M C) as (r & -> & _). apply returns_intro.
  - unfold h1_block_contrasts. rewrite M. apply returns_intro.
Qed.

Lemma h2_block_contrasts_returns block : complete_cells block -> returns (h2_block_contrasts block).
Proof.
  intros C. destruct (cell_map block) as [values|e] eqn:M.
  - destruct (h2_block_contrasts_total block values M C) as (r & -> & _). apply returns_intro.
  - unfold h2_block_contrasts. rewrite M. apply returns_intro.
Qed.

Lemma h3_value_returns block context candidate : complete_cells block -> candidate ∈ h3_candidates ->
  returns (h3_value block context candidate).
Proof.
  intros C I. destruct (cell_map block) as [values|e] eqn:M.
  - destruct (h3_value_total block values M C context candidate I) as (x & -> & _). apply returns_intro.
  - unfold h3_value. rewrite M. apply returns_intro.
Qed.

Lemma training_sum_returns context candidate sum blocks : Forall complete_cells blocks ->
  candidate ∈ h3_candidates -> returns (training_sum context candidate sum blocks).
Proof.
  intros F I. revert sum. induction F as [|block blocks C _ IH]; intros sum; cbn [training_sum];
    [apply returns_intro|].
  destruct (returns_cases _ (h3_value_returns block context candidate C I)) as [[x ->]|[e ->]];
    [apply IH | apply returns_intro].
Qed.

Lemma select_candidate_returns context blocks selected candidates : Forall complete_cells blocks ->
  Forall (fun candidate => candidate ∈ h3_candidates) candidates ->
  returns (select_candidate context blocks selected candidates).
Proof.
  intros F I. revert selected. induction I as [|c candidates C _ IH]; intros selected;
    cbn [select_candidate]; [apply returns_intro|].
  destruct (returns_cases _ (training_sum_returns context c f64_zero blocks F C)) as [[x ->]|[e ->]];
    [apply IH | apply returns_intro].
Qed.

Lemma select_contexts_returns blocks contexts : Forall complete_cells blocks ->
  returns (select_contexts blocks contexts).
Proof.
  intros F. induction contexts as [|context contexts IH]; cbn [select_contexts]; [apply returns_intro|].
  destruct (returns_cases _ (select_candidate_returns context blocks None h3_candidates F
    ltac:(by apply Forall_forall))) as [[x ->]|[e ->]]; [|apply returns_intro].
  destruct (returns_cases _ IH) as [[y ->]|[e ->]]; apply returns_intro.
Qed.

Lemma select_h3_training_returns sha256 blocks sources : Forall complete_cells blocks ->
  returns (select_h3_training sha256 blocks sources).
Proof.
  intros F. unfold select_h3_training. destruct (_ || _ || _); [apply returns_intro|].
  destruct (returns_cases _ (select_contexts_returns blocks h3_contexts F)) as [[s ->]|[e ->]];
    [|apply returns_intro].
  do 2 (destruct (canonicalize _); [|apply returns_intro]). apply returns_intro.
Qed.

Lemma success_inj {A} (a b : A) : success a = success b -> a = b.
Proof. by intros [= ->]. Qed.

(** The comparisons of a report are between registered candidates. *)
Lemma reported_candidates selections comparisons :
  h3_reported_comparisons selections = success comparisons ->
  Forall (fun c => hc_left c ∈ h3_candidates /\ hc_right c ∈ h3_candidates) comparisons.
Proof.
  unfold h3_reported_comparisons. destruct (selections_exact selections) eqn:S; [|done]. cbn [negb].
  intros E. apply success_inj in E. subst comparisons. apply andb_true_iff in S as [_ S]. rewrite forallb_forall in S.
  apply Forall_forall. intros c C.
  apply list_elem_of_bind in C as (context & C & K). apply list_elem_of_bind in C as (left & C & L).
  apply list_elem_of_bind in C as (right & C & R).
  destruct (candidate_equal left right); [by apply not_elem_of_nil in C|].
  apply list_elem_of_singleton in C as ->. cbn. split; [|done].
  specialize (S context ltac:(by apply list_elem_of_In)).
  destruct (selection_find context selections) as [x|]; [|done]. cbn in L.
  apply list_elem_of_singleton in L as ->. unfold h3_candidate_valid in S.
  apply existsb_exists in S as (y & Y & E). apply andb_true_iff in E as [E1 E2].
  apply bool_decide_eq_true in E1, E2. destruct x, y; cbn in *; subst. by apply list_elem_of_In.
Qed.

Lemma block_differences_returns block comparisons : complete_cells block ->
  Forall (fun c => hc_left c ∈ h3_candidates /\ hc_right c ∈ h3_candidates) comparisons ->
  returns (block_differences block comparisons).
Proof.
  intros C. induction 1 as [|c comparisons [L R] _ IH]; cbn [block_differences]; [apply returns_intro|].
  destruct (h3_value_returns block (hc_context c) _ C L) as [[x|e] ->];
    destruct (h3_value_returns block (hc_context c) _ C R) as [[y|e'] ->]; try apply returns_intro.
  destruct (returns_cases _ IH) as [[z ->]|[e ->]]; apply returns_intro.
Qed.

Lemma all_differences_returns blocks comparisons : Forall complete_cells blocks ->
  Forall (fun c => hc_left c ∈ h3_candidates /\ hc_right c ∈ h3_candidates) comparisons ->
  returns (all_differences blocks comparisons).
Proof.
  intros F R. induction F as [|block blocks C _ IH]; cbn [all_differences]; [apply returns_intro|].
  destruct (returns_cases _ (block_differences_returns block comparisons C R)) as [[x ->]|[e ->]];
    [|apply returns_intro].
  destruct (returns_cases _ IH) as [[y ->]|[e ->]]; apply returns_intro.
Qed.

Lemma evaluate_h3_validation_returns blocks selection bootstrap delta : Forall complete_cells blocks ->
  returns (evaluate_h3_validation blocks selection bootstrap delta).
Proof.
  intros F. unfold evaluate_h3_validation. destruct (_ || _); [apply returns_intro|].
  destruct (h3_reported_comparisons _) as [comparisons|] eqn:R; [|apply returns_intro].
  apply reported_candidates in R.
  destruct (returns_cases _ (all_differences_returns blocks comparisons F R)) as [[d ->]|[e ->]];
    [|apply returns_intro].
  destruct (max_t _ _ _ _ _ _); apply returns_intro.
Qed.

(** ** Complete blocks can be selected from *)

Definition usable (block : CompleteBlockResponse) : Prop :=
  complete_cells block /\ exists values, cell_map block = success values.

Lemma training_sum_usable context candidate sum blocks : Forall usable blocks ->
  candidate ∈ h3_candidates -> exists r, training_sum context candidate sum blocks = Returned (success r).
Proof.
  intros F I. revert sum. induction F as [|block blocks [C [values M]] _ IH]; intros sum;
    cbn [training_sum]; [by exists sum|].
  destruct (h3_value_total block values M C context candidate I) as (x & -> & _). apply IH.
Qed.

Lemma select_candidate_usable context blocks selected candidates : Forall usable blocks ->
  Forall (fun candidate => candidate ∈ h3_candidates) candidates ->
  exists r, select_candidate context blocks selected candidates = Returned (success r).
Proof.
  intros F I. revert selected. induction I as [|c candidates C _ IH]; intros selected;
    cbn [select_candidate]; [by eexists|].
  destruct (training_sum_usable context c f64_zero blocks F C) as [x ->]. apply IH.
Qed.

Lemma select_contexts_usable blocks contexts : Forall usable blocks ->
  exists selections, select_contexts blocks contexts = Returned (success selections) /\
    fst <$> selections = contexts.
Proof.
  intros F. induction contexts as [|context contexts (others & IH & E)]; cbn [select_contexts];
    [by exists []|].
  destruct (select_candidate_usable context blocks None h3_candidates F ltac:(by apply Forall_forall))
    as [x ->]. rewrite IH. eexists. split; [reflexivity|]. cbn. by rewrite E.
Qed.

Lemma candidate_name_valid candidate : has_value (decode_utf8 (candidate_name candidate)) = true.
Proof. by destruct candidate as [[] []]. Qed.

Lemma context_name_valid context : has_value (decode_utf8 (context_name context)) = true.
Proof. by destruct context. Qed.

Lemma canonical_prints v : well_formed v = true -> exists t, canonicalize v = success t.
Proof.
  intros W. apply append_canonical_success in W. unfold canonicalize.
  destruct (append_canonical v); [by eexists | done].
Qed.

Lemma analysis_artifact_value_well_formed reference :
  has_value (decode_utf8 (ar_artifact_id reference)) = true ->
  well_formed (analysis_artifact_value reference) = true.
Proof.
  intros V. change (analysis_artifact_value reference) with
    (Value_object [("artifact_id", Value_string (ar_artifact_id reference));
                   ("sha256", Value_string (Sha256_hex (ar_sha256 reference)))]).
  cbn [well_formed forallb fst snd]. by rewrite V, (words_valid _ (hex_word (ar_sha256 reference))).
Qed.

Lemma selections_value_well_formed (name : H3Context -> string) :
  (forall context, has_value (decode_utf8 (name context)) = true) ->
  well_formed (Value_object (map_of
    ((fun context => (context_name context, Value_string (name context))) <$> h3_contexts))) = true.
Proof.
  intros V. change (map_of ((fun context => (context_name context, Value_string (name context))) <$> h3_contexts))
    with ((fun context => (context_name context, Value_string (name context))) <$>
      [H3Context_far_beyond_llc_l050; H3Context_far_l2_l050; H3Context_far_llc_l050;
       H3Context_near_beyond_llc_l050; H3Context_near_l2_l050; H3Context_near_llc_l050]).
  cbn [well_formed forallb fst snd fmap list_fmap]. rewrite !V. reflexivity.
Qed.

Lemma selection_document_well_formed selections sources hash :
  fst <$> selections = h3_contexts -> has_value (decode_utf8 hash) = true ->
  Forall (fun source => has_value (decode_utf8 (ar_artifact_id source)) = true) sources ->
  well_formed (Value_object (selection_document selections sources hash)) = true.
Proof.
  intros C H S.
  assert (N : exists name, (forall context, has_value (decode_utf8 (name context)) = true) /\
    ((fun item => (context_name (fst item), string_value (candidate_name (snd item)))) <$> selections) =
    ((fun context => (context_name context, Value_string (name context))) <$> h3_contexts)).
  { exists (fun context => match selection_find context selections with
                           | Some candidate => candidate_name candidate
                           | None => EmptyString
                           end). split.
    - intros context. destruct (selection_find context selections); [apply candidate_name_valid | done].
    - unfold h3_contexts in C.
      do 6 (destruct selections as [|[? ?] selections]; [discriminate C|]; injection C as -> C).
      destruct selections; [|discriminate C]. reflexivity. }
  destruct N as (name & V & E). unfold selection_document. rewrite E.
  pose proof (selections_value_well_formed name V) as W. set (object := map_of (_ <$> h3_contexts)) in *.
  change (map_of ?l) with [("protocol_version", string_value kProtocolVersion);
     ("record_sha256", string_value hash); ("schema_version", string_value kSelectionSchema);
     ("selection_rule_version", string_value kH3SelectionRuleId); ("selections", Value_object object);
     ("training_sources", Value_array (analysis_artifact_value <$> sources))].
  assert (A : well_formed (Value_array (analysis_artifact_value <$> sources)) = true).
  { cbn [well_formed]. apply forallb_forall. intros v X.
    apply list_elem_of_In, list_elem_of_fmap in X as (r & -> & R).
    rewrite Forall_forall in S. by apply analysis_artifact_value_well_formed, S. }
  cbn [well_formed forallb fst snd string_value] in W, A |- *. rewrite W, A, H. reflexivity.
Qed.

(** Twelve usable blocks of the training role and named sources have a selection. *)
Lemma select_h3_training_usable sha256 blocks sources : Forall usable blocks -> sources <> [] ->
  (12 <= length blocks)%nat -> Forall (fun block => cb_role block = BlockRole_h3_train) blocks ->
  Forall (fun source => has_value (decode_utf8 (ar_artifact_id source)) = true) sources ->
  exists record, select_h3_training sha256 blocks sources = Returned (success record).
Proof.
  intros F NE L R V. unfold select_h3_training.
  replace (_ || _ || _) with false.
  2:{ symmetry. rewrite !orb_false_iff, !negb_false_iff. split_and!; [lia | by destruct sources |].
      apply forallb_forall. intros block B. apply list_elem_of_In in B. apply bool_decide_eq_true.
      rewrite Forall_forall in R. by apply R. }
  destruct (select_contexts_usable blocks h3_contexts F) as (selections & -> & C).
  assert (V' : Forall (fun source => has_value (decode_utf8 (ar_artifact_id source)) = true)
    (merge_sort reference_le sources)) by by rewrite merge_sort_Permutation.
  destruct (canonical_prints _ (selection_document_well_formed selections _ zero_hash C eq_refl V'))
    as [zeroed ->]. rewrite selection_document_hash.
  destruct (canonical_prints _ (selection_document_well_formed selections _ _ C
    (words_valid _ (hex_word (sha_text sha256 zeroed))) V')) as [final ->].
  by eexists.
Qed.

Lemma training_blocks_usable : Forall usable training_blocks.
Proof.
  assert (E : forallb (fun block => has_value (cell_map block) &&
    bool_decide (expected_stage_a_cells = response_key <$> cb_cells block)) training_blocks = true)
    by (vm_compute; reflexivity).
  apply Forall_forall. intros block B. rewrite forallb_forall in E.
  specialize (E block ltac:(by apply list_elem_of_In)). apply andb_true_iff in E as [M K].
  apply bool_decide_eq_true in K. split; [intros key; by rewrite K|].
  destruct (cell_map block) as [values|]; [by exists values | done].
Qed.

Lemma sample_selection : exists record,
  select_h3_training sample_sha training_blocks [mkArtifactReference "run" (mkSha256 [])] =
  Returned (success record).
Proof.
  apply select_h3_training_usable; [exact training_blocks_usable | done | cbn; lia | | by repeat constructor].
  repeat (apply Forall_cons; split; [reflexivity|]). constructor.
Qed.

Lemma h3_selection_least_witness :
  exists record, fst <$> hs_selections record = h3_contexts /\
    Forall (fun selection => first_least training_blocks (fst selection) h3_candidates (snd selection))
      (hs_selections record).
Proof.
  destruct sample_selection as [record S]. exists record.
  assert (L : Z.of_nat (length training_blocks) < 2 ^ 53) by reflexivity.
  pose proof (h3_selection_least sample_sha training_blocks [mkArtifactReference "run" (mkSha256 [])]
    record L S) as (_ & _ & C & F & _).
  split; [exact C | exact F].
Defined.
