(* ===== verification/AnalysisPipeline.v ===== *)
(** * Offline analysis: the pipeline

    Models the rest of [src/analysis/analysis.cpp]: the canonical configuration,
    the validation of access grants, the reports and [run_synthetic_analysis],
    which validates every input, summarizes every run, forms the complete blocks
    and evaluates the registered families in the order of the access gates. *)

From stdpp Require Import prelude list strings sorting.
From Stdlib Require Import ZArith Lia Ascii SpecFloat.
From S2P Require Import Prelude Validation Model Bytes Json Documents Load.
From S2P Require Import Deterministic SemanticRecords BlockPlanning Precision Access BlockPlans.
From S2P Require Import Binary64 Analysis Inference.

#[local] Open Scope Z_scope.
#[local] Open Scope checked_scope.
#[local] Open Scope result_scope.

(** ** Counts, identifiers and grants *)

#[export] Instance OutcomeDomain_eq_dec : EqDecision OutcomeDomain.
Proof. solve_decision. Defined.

Definition same_counts (left right : ProspectiveCounts) : bool :=
  (pc_r_h1 left =? pc_r_h1 right) && (pc_r_h2 left =? pc_r_h2 right) &&
  (pc_r12 left =? pc_r12 right) && (pc_rtrain left =? pc_rtrain right) &&
  (pc_rval left =? pc_rval right) && (pc_rtotal left =? pc_rtotal right) &&
  (pc_nruns left =? pc_nruns right).

Definition block_id_of (block : BlockInput) : Identifier := bp_block_id (bi_plan block).

Definition role_of (block : BlockInput) : BlockRole := bp_block_role (bi_plan block).

Definition block_ids (blocks : list BlockInput) (role : BlockRole) (active_only : bool) :
    list Identifier :=
  block_id_of <$>
  List.filter (fun block => (negb active_only || bi_active_primary block) &&
                            bool_decide (role_of block = role)) blocks.

(** Equal sets, and no identifier twice on either side. *)
Definition exact_id_set (actual expected : list Identifier) : bool :=
  (set_size actual =? Z.of_nat (length actual)) && (set_size expected =? Z.of_nat (length expected)) &&
  forallb (fun id => bool_decide (id ∈ expected)) actual &&
  forallb (fun id => bool_decide (id ∈ actual)) expected.

(** ** Documents *)

Definition bootstrap_document (bootstrap : BootstrapConfiguration) : Value :=
  Value_object (map_of
    [("key0", uint_value (key0 (bt_key bootstrap)));
     ("key1", uint_value (key1 (bt_key bootstrap)));
     ("profile", string_value (bt_profile bootstrap));
     ("replicates", uint_value (bt_replicates bootstrap));
     ("rng_algorithm_version", string_value (bt_rng_algorithm_version bootstrap));
     ("seed_id", string_value (bt_seed_id bootstrap))]).

Definition counts_document (counts : ProspectiveCounts) : Value :=
  Value_object (map_of
    [("nruns", uint_value (pc_nruns counts)); ("r12", uint_value (pc_r12 counts));
     ("r_h1", uint_value (pc_r_h1 counts)); ("r_h2", uint_value (pc_r_h2 counts));
     ("rtrain", uint_value (pc_rtrain counts)); ("rtotal", uint_value (pc_rtotal counts));
     ("rval", uint_value (pc_rval counts))]).

Definition software_document (software : SoftwareVersions) : Value :=
  Value_object (map_of
    [("compiler", string_value (sv_compiler software));
     ("implementation_revision", string_value (sv_implementation_revision software));
     ("standard_library", string_value (sv_standard_library software))]).

(** The four families in the order of the loops over them. *)
Definition precision_families (input : ProspectivePrecisionInput) : list ProspectiveFamilyInput :=
  [pn_h1 input; pn_h2 input; pn_h3_training input; pn_h3_validation input].

Definition configuration_document (configuration : AnalysisConfiguration) : Value :=
  Value_object (map_of
    [("analysis_profile", string_value (an_analysis_profile configuration));
     ("bootstrap", bootstrap_document (an_bootstrap configuration));
     ("configuration_artifact_id",
      string_value (ar_artifact_id (an_configuration_artifact configuration)));
     ("delta_star_binary64", string_value (float_bits (an_delta_star configuration)));
     ("expected_counts", counts_document (an_expected_counts configuration));
     ("protocol_version", string_value (protocol_name (an_protocol_version configuration)));
     ("software", software_document (an_software configuration));
     ("sizing_artifacts", Value_array
        ((fun family => analysis_artifact_value (pf_sizing_artifact family))
         <$> precision_families (an_precision configuration)))]).

Definition canonical_configuration (configuration : AnalysisConfiguration) : Result string :=
  canonicalize (configuration_document configuration).

Definition interval_document (interval : SimultaneousInterval) : Value :=
  Value_object (map_of
    [("stable_id", string_value (sn_stable_id interval));
     ("estimate_binary64", string_value (float_bits (sn_estimate interval)));
     ("standard_error_binary64", string_value (float_bits (sn_standard_error interval)));
     ("lower_binary64", string_value (if is_finite (sn_lower interval)
                                      then float_bits (sn_lower interval) else "NEGATIVE_INFINITY"));
     ("upper_binary64", string_value (float_bits (sn_upper interval)));
     ("conclusion", string_value (conclusion_name (sn_conclusion interval)))]).

(** [family_value]. *)
Definition family_value (family : MaxTResult) : Value :=
  Value_object (map_of
    [("family_id", string_value (mx_family_id family));
     ("one_sided", Value_bool (mx_one_sided family));
     ("critical_value_binary64", string_value (float_bits (mx_critical_value family)));
     ("bootstrap_replicates", uint_value (mx_bootstrap_replicates family));
     ("intervals", Value_array (interval_document <$> mx_intervals family))]).

Definition optional_family (family : option MaxTResult) : Value :=
  match family with Some f => family_value f | None => Value_null end.

Definition state_text (state : InferenceState) : string :=
  match state with InferenceState_estimable => "ESTIMABLE" | InferenceState_blocked => "BLOCKED" end.

Definition artifact_le (a b : ImmutableArtifact) : Prop :=
  str_ltb (ar_artifact_id (im_reference b)) (ar_artifact_id (im_reference a)) = false.

#[export] Instance artifact_le_dec a b : Decision (artifact_le a b).
Proof. unfold artifact_le. apply _. Defined.

Definition h3_document (h3 : option H3ValidationResult) : Value :=
  match h3 with
  | Some result =>
      match hv_comparisons result with
      | Some comparisons =>
          Value_object (map_of
            [("all_upper_limits_below_delta", Value_bool (hv_all_upper_limits_below_delta result));
             ("comparisons", family_value comparisons)])
      | None => Value_null
      end
  | None => Value_null
  end.

Definition receipt_document (receipt : StageReceipt) : Value :=
  Value_object (map_of
    [("stage", string_value (stage_name (st_stage receipt)));
     ("version", string_value (st_version receipt));
     ("input_count", uint_value (Z.of_nat (length (st_inputs receipt))))]).

Definition report_document (configuration : AnalysisConfiguration) (state : InferenceState)
    (summaries : list RunSummary) (blocks : list CompleteBlockResponse) (h1 h2 : option MaxTResult)
    (selection : option H3SelectionRecord) (h3 : option H3ValidationResult)
    (artifacts : list ImmutableArtifact) (stages : list StageReceipt) (configuration_hash : Sha256)
    (output_hash : string) : Value :=
  Value_object (map_of
    [("analysis_profile", string_value (an_analysis_profile configuration));
     ("configuration_sha256", string_value (Sha256_hex configuration_hash));
     ("evidence_class", string_value "SYNTHETIC_KNOWN_ANSWER_ONLY");
     ("inference_state", string_value (state_text state));
     ("protocol_version", string_value (protocol_name (an_protocol_version configuration)));
     ("report_schema", string_value kReportSchema);
     ("output_sha256", string_value output_hash);
     ("run_summary_count", uint_value (Z.of_nat (length summaries)));
     ("primary_complete_block_count", uint_value (Z.of_nat (length blocks)));
     ("software", software_document (an_software configuration));
     ("input_artifacts", Value_array
        ((fun artifact => analysis_artifact_value (im_reference artifact))
         <$> merge_sort artifact_le artifacts));
     ("h1", optional_family h1);
     ("h2", optional_family h2);
     ("h3_selection",
      match selection with
      | Some record =>
          Value_object (map_of
            [("record_sha256", string_value (Sha256_hex (hs_record_sha256 record)));
             ("schema_version", string_value (hs_schema_version record))])
      | None => Value_null
      end);
     ("h3_validation", h3_document h3);
     ("sensitivity_diagnostics",
      Value_object (map_of [("classification", string_value "NON_PRIMARY_DIAGNOSTIC");
                            ("outputs", Value_array [])]));
     ("stages", Value_array (receipt_document <$> stages))]).

Definition build_machine_report (configuration : AnalysisConfiguration) (state : InferenceState)
    (summaries : list RunSummary) (blocks : list CompleteBlockResponse) (h1 h2 : option MaxTResult)
    (selection : option H3SelectionRecord) (h3 : option H3ValidationResult)
    (artifacts : list ImmutableArtifact) (stages : list StageReceipt) (configuration_hash : Sha256)
    (output_hash : string) : Result string :=
  canonicalize (report_document configuration state summaries blocks h1 h2 selection h3 artifacts
                  stages configuration_hash output_hash).

Definition newline : string := String (Ascii.ascii_of_N 10) EmptyString.

Definition build_human_report (state : InferenceState) (run_count block_count : Z)
    (h1 h2 : option MaxTResult) (h3 : option H3ValidationResult) : string :=
  let break := newline +:+ newline in
  let evaluated (family : bool) (text : string) := if family then text else "not evaluated" in
  "# Synthetic Stage 15 known-answer report" +:+ break +:+
  "**SYNTHETIC FIXTURE ONLY — THIS DOCUMENT CONTAINS NO EMPIRICAL FINDINGS.**" +:+ break +:+
  "Analysis state: " +:+ state_text state +:+ break +:+
  "Validated synthetic run summaries: " +:+ std_to_string run_count +:+ break +:+
  "Active complete blocks: " +:+ std_to_string block_count +:+ break +:+
  "H1 family: " +:+ evaluated (bool_decide (is_Some h1)) "7 registered intervals" +:+ break +:+
  "H2 family: " +:+ evaluated (bool_decide (is_Some h2)) "20 registered intervals" +:+ break +:+
  "H3 validation: " +:+
  evaluated (match h3 with Some r => bool_decide (is_Some (hv_comparisons r)) | None => false end)
    "54 registered upper limits" +:+ break +:+
  "Sensitivity and diagnostic outputs are non-primary and are not interpreted as treatment evidence."
  +:+ newline.

(** ** Validation of the input *)

Definition configuration_errors (configuration : AnalysisConfiguration) : list ValidationError :=
  let bootstrap := an_bootstrap configuration in
  let software := an_software configuration in
  error_when (negb (bool_decide (an_protocol_version configuration = ProtocolVersion_v2_0_0_pre_2)) ||
              negb (bool_decide (an_analysis_profile configuration = kAnalysisProfile)) ||
              negb (bool_decide (bt_profile bootstrap = kBootstrapProfile)) ||
              negb (bool_decide (bt_rng_algorithm_version bootstrap = kDeterministicSuite)) ||
              (bt_replicates bootstrap <? 2) || str_empty (sv_implementation_revision software) ||
              str_empty (sv_compiler software) || str_empty (sv_standard_library software))
    (mkError ErrorCategory_missing_evidence "$/configuration" "ANALYSIS-CONFIGURATION"
       "the versioned analysis, software, and bootstrap configuration is mandatory").

(** One role of the active blocks: [active_role_counts[role]]. *)
Definition active_role_count (blocks : list BlockInput) (role : BlockRole) : Z :=
  Z.of_nat (length (List.filter (fun block => bi_active_primary block &&
                                              bool_decide (role_of block = role)) blocks)).

Definition role_count_errors (precision : Result ProspectiveCounts) (blocks : list BlockInput) :
    list ValidationError :=
  match precision with
  | failure _ => []
  | success counts =>
      let train_validation := u64_add (pc_rtrain counts) (pc_rval counts) in
      let supplemental := if pc_r12 counts >? train_validation
                          then u64_sub (pc_r12 counts) train_validation else 0 in
      error_when (negb (active_role_count blocks BlockRole_h3_train =? pc_rtrain counts) ||
                  negb (active_role_count blocks BlockRole_h3_validation =? pc_rval counts) ||
                  negb (active_role_count blocks BlockRole_h1h2_supplemental =? supplemental))
        (mkError ErrorCategory_cross_field "$/blocks/roles" "ANALYSIS-BLOCK-ROLE-COUNTS"
           "active block roles must equal Rtrain/Rval/R12-derived counts")
  end.

Definition precision_errors (configuration : AnalysisConfiguration)
    (precision : Result ProspectiveCounts) : list ValidationError :=
  match precision with
  | failure errors => errors
  | success counts =>
      error_when (negb (same_counts counts (an_expected_counts configuration)))
        (mkError ErrorCategory_cross_field "$/configuration/expected_counts" "ANALYSIS-PRECISION-COUNTS"
           "expected counts must equal the prospective family calculations")
  end.

(** The replaced block of a replacement. *)
Definition original_of (blocks : list BlockInput) (id : Identifier) : option BlockInput :=
  find (fun candidate => bool_decide (block_id_of candidate = id)) blocks.

Definition lineage_ok (blocks : list BlockInput) (block : BlockInput) (replaced : Identifier) : bool :=
  match original_of blocks replaced with
  | None => false
  | Some original =>
      negb (bi_active_primary original) && bi_active_primary block &&
      bool_decide (role_of original = role_of block) &&
      bool_decide (bp_platform_id (bi_plan original) = bp_platform_id (bi_plan block)) &&
      bool_decide (bp_build_id (bi_plan original) = bp_build_id (bi_plan block))
  end.

Definition lineage_errors (blocks : list BlockInput) (block : BlockInput) : list ValidationError :=
  match bp_replaces_block_id (bi_plan block) with
  | None => []
  | Some replaced =>
      error_when (negb (lineage_ok blocks block replaced))
        (mkError ErrorCategory_cross_field "$/blocks/replacement" "ANALYSIS-REPLACEMENT-LINEAGE"
           "active replacement must supersede one retained inactive original with the same role/platform/build")
  end.

Fixpoint run_id_errors (index : Z) (run_ids : list Identifier) (runs : list SyntheticRunInput) :
    list ValidationError :=
  match runs with
  | [] => []
  | run :: rest =>
      error_when (bool_decide (sr_run_id run ∈ run_ids))
        (mkError ErrorCategory_duplicate_value ("$/runs/" +:+ std_to_string index +:+ "/run_id")
           "ANALYSIS-RUN-ID-UNIQUE" "run IDs must be unique and cannot encode filtering aliases") ++
      run_id_errors (index + 1) (sr_run_id run :: run_ids) rest
  end.

(** [runs_by_block[id]]: the runs of a block, in the order of the input. *)
Definition runs_of (runs : list SyntheticRunInput) (id : Identifier) : list SyntheticRunInput :=
  List.filter (fun run => bool_decide (sr_block_id run = id)) runs.

Definition run_key (run : SyntheticRunInput) : CellKey :=
  (sr_package run, sr_hardware_state run, sr_placement run, sr_working_set run, sr_load run).

(** The cell of the plan that a run names. *)
Definition planned_cell (plan : BlockPlan) (run : SyntheticRunInput) : option StageACell :=
  bp_cells plan !! Z.to_nat (sr_cell_ordinal run).

(** The loop over the runs of one block; the ordinal of a run is recorded only if
    its version and role match. *)
Fixpoint binding_run_errors (plan : BlockPlan) (ordinals : list Z) (runs : list SyntheticRunInput) :
    list ValidationError :=
  match runs with
  | [] => []
  | run :: rest =>
      let unbound := [mkError ErrorCategory_cross_field "$/runs" "ANALYSIS-RUN-PLAN-BINDING"
                        "run version, role, and unique cell ordinal must match its block plan"] in
      if negb (bool_decide (sr_protocol_version run = bp_protocol_version plan)) ||
         negb (bool_decide (sr_block_role run = bp_block_role plan)) then
        unbound ++ binding_run_errors plan ordinals rest
      else if bool_decide (sr_cell_ordinal run ∈ ordinals) then
        unbound ++ binding_run_errors plan ordinals rest
      else
        let ordinals := sr_cell_ordinal run :: ordinals in
        match planned_cell plan run with
        | None => unbound ++ binding_run_errors plan ordinals rest
        | Some cell =>
            error_when (negb (sc_cell_ordinal cell =? sr_cell_ordinal run) ||
                        negb (bool_decide (cell_key cell = run_key run)))
              (mkError ErrorCategory_cross_field "$/runs" "ANALYSIS-NO-CELL-REPLACEMENT"
                 "run factors must match the exact planned cell; cell-level repair is forbidden") ++
            binding_run_errors plan ordinals rest
        end
  end.

Definition invalid_run (run : SyntheticRunInput) : bool :=
  bool_decide (sr_validity run = RunValidity_invalid).

Definition block_run_errors (runs : list SyntheticRunInput) (block : BlockInput) :
    list ValidationError :=
  let mine := runs_of runs (block_id_of block) in
  if negb (size_is mine kStageACells) then
    [mkError ErrorCategory_missing_evidence "$/runs" "ANALYSIS-NO-FILTERING"
       "every retained original/replacement block requires exactly 180 run records; cell filtering is forbidden"]
  else
    binding_run_errors (bi_plan block) [] mine ++
    match bp_replaces_block_id (bi_plan block) with
    | None => []
    | Some replaced =>
        error_when (negb (existsb invalid_run (runs_of runs replaced)))
          (mkError ErrorCategory_missing_evidence "$/blocks/replacement"
             "ANALYSIS-REPLACEMENT-INVALID-RUN"
             "a replacement requires a retained invalid required run in the original block")
    end.

Section Pipeline.

Context (sha256 : list Z -> list Z) (std_log : spec_float -> spec_float).

Definition validate_grant (grant : OutcomeAccessGrant) (expected_domain : OutcomeDomain)
    (expected_blocks : list Identifier) (artifacts : list ImmutableArtifact) : list ValidationError :=
  error_when (negb (bool_decide (og_domain grant = expected_domain)) ||
              (access_rank (og_state grant) <? access_rank (required_access_state expected_domain)))
    (mkError ErrorCategory_missing_evidence "$/access" "ANALYSIS-ACCESS-STATE"
       "outcome domain is not authorized at this state") ++
  error_when (negb (exact_id_set (og_affected_block_ids grant) expected_blocks))
    (mkError ErrorCategory_cross_field "$/access/affected_blocks" "ANALYSIS-ACCESS-EXACT-BLOCKS"
       "access grant must name exactly the applicable active blocks") ++
  error_when (negb (resolved sha256 artifacts (og_access_record grant)))
    (mkError ErrorCategory_missing_evidence "$/access/record" "ANALYSIS-ACCESS-HASH"
       "access grant must resolve to finalized checksum-valid evidence").

(** The loop over the artifacts. *)
Fixpoint artifact_errors (index : Z) (artifact_ids : list Identifier)
    (artifacts : list ImmutableArtifact) : list ValidationError :=
  match artifacts with
  | [] => []
  | artifact :: rest =>
      let path := "$/artifacts/" +:+ std_to_string index in
      let id := ar_artifact_id (im_reference artifact) in
      error_when (negb (bool_decide (im_protocol_version artifact = ProtocolVersion_v2_0_0_pre_2)))
        (mkError ErrorCategory_unsupported_version path "ANALYSIS-MIXED-VERSION"
           "mixed protocol versions are forbidden") ++
      error_when (bool_decide (id ∈ artifact_ids))
        (mkError ErrorCategory_duplicate_value path "ANALYSIS-ARTIFACT-UNIQUE"
           "artifact IDs must be globally unique") ++
      error_when (negb (verify_artifact sha256 artifact))
        (mkError ErrorCategory_invalid_hash path "ANALYSIS-ARTIFACT-HASH"
           "every consumed artifact must be finalized and checksum-valid") ++
      artifact_errors (index + 1) (id :: artifact_ids) rest
  end.

(** The configuration is the document of its artifact; its digest was checked
    with the other artifacts. *)
Definition configuration_bound (input : AnalysisInput) : bool :=
  let configuration := ai_configuration input in
  match canonical_configuration configuration,
        find_input_artifact (ai_artifacts input)
          (ar_artifact_id (an_configuration_artifact configuration)) with
  | success t, Some artifact =>
      bool_decide (im_reference artifact = an_configuration_artifact configuration) &&
      artifact_bytes_equal artifact t
  | _, _ => false
  end.

Definition sizing_errors (input : AnalysisInput) : list ValidationError :=
  flat_map (fun family =>
    error_when (negb (resolved sha256 (ai_artifacts input) (pf_sizing_artifact family)))
      (mkError ErrorCategory_missing_evidence "$/configuration/precision" "ANALYSIS-SIZING-HASH"
         "every prospective precision family must resolve immutable sizing evidence"))
    (precision_families (an_precision (ai_configuration input))).

(** The loop over the blocks; [seen] and [replaced] are the sets of identifiers. *)
Fixpoint block_errors (input : AnalysisInput) (index : Z) (seen replaced : list Identifier)
    (blocks : list BlockInput) : list ValidationError :=
  match blocks with
  | [] => []
  | block :: rest =>
      let base := "$/blocks/" +:+ std_to_string index in
      let id := block_id_of block in
      error_when (bool_decide (id ∈ seen))
        (mkError ErrorCategory_duplicate_value (base +:+ "/block_id") "ANALYSIS-BLOCK-ID-UNIQUE"
           "block IDs must be unique") ++
      error_when (negb (bi_stage14_cross_record_validation_passed block))
        (mkError ErrorCategory_missing_evidence base "ANALYSIS-STAGE14-PROOF"
           "every block requires a passing Stage 14 cross-record proof") ++
      validate_block_plan sha256 (bi_plan block) (bi_seed_catalog block) (ai_namespaces input) ++
      error_when (negb (resolved sha256 (ai_artifacts input) (bi_plan_artifact block)))
        (mkError ErrorCategory_invalid_hash (base +:+ "/plan_artifact") "ANALYSIS-PLAN-HASH"
           "block plan artifact must resolve and pass its checksum") ++
      match bp_replaces_block_id (bi_plan block) with
      | None => block_errors input (index + 1) (id :: seen) replaced rest
      | Some original =>
          error_when (negb (bi_replacement_budget_validation_passed block))
            (mkError ErrorCategory_missing_evidence base "ANALYSIS-REPLACEMENT-BUDGET"
               "an active replacement requires passing frozen-budget evidence") ++
          error_when (bool_decide (original ∈ replaced))
            (mkError ErrorCategory_duplicate_value base "ANALYSIS-REPLACEMENT-BRANCH"
               "multiple replacements of one original block are forbidden") ++
          block_errors input (index + 1) (id :: seen) (original :: replaced) rest
      end
  end.

Definition active_ids_of (blocks : list BlockInput) : list Identifier :=
  block_id_of <$> List.filter bi_active_primary blocks.

(** Every error the analysis collects before it looks at an outcome. *)
Definition input_errors (input : AnalysisInput) : list ValidationError :=
  let configuration := ai_configuration input in
  let blocks := ai_blocks input in
  let precision := evaluate_prospective_precision (an_precision configuration)
                     (an_delta_star configuration) in
  configuration_errors configuration ++
  artifact_errors 0 [] (ai_artifacts input) ++
  error_when (negb (configuration_bound input))
    (mkError ErrorCategory_invalid_hash "$/configuration/artifact" "ANALYSIS-CONFIG-HASH"
       "configuration fields must equal the immutable configuration artifact") ++
  precision_errors configuration precision ++
  sizing_errors input ++
  error_when (negb (stage_a_design_rank =? 40)%nat)
    (mkError ErrorCategory_cross_field "$/analysis/design" "ANALYSIS-DESIGN-RANK"
       "the frozen 40-column Stage A design is not full rank") ++
  block_errors input 0 [] [] blocks ++
  error_when (negb (set_size ((fun block => bp_platform_id (bi_plan block)) <$> blocks) =? 1) ||
              negb (set_size ((fun block => bp_build_id (bi_plan block)) <$> blocks) =? 1))
    (mkError ErrorCategory_cross_field "$/blocks" "ANALYSIS-PLATFORM-CONDITIONED"
       "one analysis invocation is conditioned on exactly one platform and build; mixed-platform random effects require a separately frozen profile") ++
  flat_map (lineage_errors blocks) blocks ++
  role_count_errors precision blocks ++
  validate_grant (ai_training_access input) OutcomeDomain_h3_training
    (block_ids blocks BlockRole_h3_train true) (ai_artifacts input) ++
  validate_grant (ai_validation_access input) OutcomeDomain_h3_validation
    (block_ids blocks BlockRole_h3_validation true) (ai_artifacts input) ++
  validate_grant (ai_h1h2_access input) OutcomeDomain_h1h2 (active_ids_of blocks) (ai_artifacts input) ++
  run_id_errors 0 [] (ai_runs input) ++
  flat_map (block_run_errors (ai_runs input)) blocks.

(** ** Summaries, gates and complete blocks *)

(** All summaries, or the errors of every run that has none. *)
Definition summarize_runs (input : AnalysisInput) : Result (list RunSummary) :=
  let results := (fun run => summarize_run sha256 std_log run (ai_artifacts input)) <$> ai_runs input in
  match mjoin (errors_of <$> results) with
  | (_ :: _) as errors => failure errors
  | [] => success (r ← results; match r with success summary => [summary] | failure _ => [] end)
  end.

(** [runs_by_block.at(id)]. *)
Definition runs_at (runs : list SyntheticRunInput) (id : Identifier) : Throws (list SyntheticRunInput) :=
  match runs_of runs id with
  | [] => Threw "map::at"
  | mine => Returned mine
  end.

Definition gate_failed (run : SyntheticRunInput) : bool :=
  negb (sr_full_count run =? 0) || (sr_n_eff_p999 run <? 200000).

(** The loop over the gates: an error for an active block with an invalid run,
    otherwise whether inference is blocked. *)
Fixpoint gate_loop (runs : list SyntheticRunInput) (gate_blocked : bool) (blocks : list BlockInput) :
    Throws (Result bool) :=
  match blocks with
  | [] => Returned (success gate_blocked)
  | block :: rest =>
      let! block_runs := runs_at runs (block_id_of block) in
      if bi_active_primary block && existsb invalid_run block_runs then
        Returned (fail_with ErrorCategory_cross_field "$/blocks/active" "ANALYSIS-INCOMPLETE-BLOCK"
          "an active primary block contains an invalid run; only an authorized complete replacement may supersede it")
      else
        gate_loop runs (gate_blocked || bi_active_primary block && existsb gate_failed block_runs) rest
  end.

(** The response of a run, from the summary with its identifier. *)
Definition run_response (summaries : list RunSummary) (run : SyntheticRunInput) : Throws CellResponse :=
  match find (fun summary => bool_decide (rs_run_id summary = sr_run_id run)) summaries with
  | Some summary =>
      Returned (mkCellResponse (sr_package run) (sr_hardware_state run) (sr_placement run)
                  (sr_working_set run) (sr_load run) (rs_log_p999 summary))
  | None => Threw "dereference of the end of the summaries"
  end.

Definition block_response (runs : list SyntheticRunInput) (summaries : list RunSummary)
    (block : BlockInput) : Throws CompleteBlockResponse :=
  let! block_runs := runs_at runs (block_id_of block) in
  let! cells := sequence (run_response summaries <$> block_runs) in
  Returned (mkCompleteBlockResponse (block_id_of block) (role_of block) cells).

Definition primary_blocks_of (input : AnalysisInput) (summaries : list RunSummary) :
    Throws (list CompleteBlockResponse) :=
  sequence (block_response (ai_runs input) summaries <$> List.filter bi_active_primary (ai_blocks input)).

(** ** Inference *)

Definition receipt (stage : AnalysisStage) (inputs : list ArtifactReference) : StageReceipt :=
  mkStageReceipt stage "v1" inputs.

Definition opening_stages : list StageReceipt :=
  [receipt AnalysisStage_artifact_validation []; receipt AnalysisStage_reconciliation_verification [];
   receipt AnalysisStage_interval_derivation []; receipt AnalysisStage_run_gates [];
   receipt AnalysisStage_run_summaries []; receipt AnalysisStage_complete_blocks []].

Definition blocks_of_role (role : BlockRole) (blocks : list CompleteBlockResponse) :
    list CompleteBlockResponse :=
  List.filter (fun block => bool_decide (cb_role block = role)) blocks.

(** The joined streams of the training blocks at the registered load. *)
Definition training_sources_of (input : AnalysisInput) (training_blocks : list CompleteBlockResponse) :
    list ArtifactReference :=
  sr_joined_artifact <$>
  List.filter (fun run => bool_decide (sr_block_role run = BlockRole_h3_train) &&
                          bool_decide (sr_load run = LoadLevel_l050) &&
                          bool_decide (sr_block_id run ∈ cb_block_id <$> training_blocks)) (ai_runs input).

(** The contrasts of all blocks, H1 and H2 of each block before the next. *)
Fixpoint contrast_vectors (blocks : list CompleteBlockResponse) :
    Throws (Result (list (list spec_float) * list (list spec_float))) :=
  match blocks with
  | [] => Returned (success ([], []))
  | block :: rest =>
      let! h1 := h1_block_contrasts block in
      let! h2 := h2_block_contrasts block in
      match h1, h2 with
      | success h1, success h2 =>
          let!* others := contrast_vectors rest in
          Returned (success (h1 :: fst others, h2 :: snd others))
      | _, _ =>
          Returned (fail_with ErrorCategory_cross_field "$/analysis/contrasts" "ANALYSIS-CONTRAST-CELLS"
            "registered contrasts require all exact cells")
      end
  end.

(** What the inference of an analysis that is not blocked yields. *)
Record InferenceOutcome : Set := mkInferenceOutcome {
  nf_selection : H3SelectionRecord;
  nf_h3 : H3ValidationResult;
  nf_h1 : MaxTResult;
  nf_h2 : MaxTResult;
  nf_stages : list StageReceipt
}.

Definition infer (input : AnalysisInput) (primary_blocks : list CompleteBlockResponse) :
    Throws (Result InferenceOutcome) :=
  let bootstrap := an_bootstrap (ai_configuration input) in
  let delta_star := an_delta_star (ai_configuration input) in
  let training_blocks := blocks_of_role BlockRole_h3_train primary_blocks in
  let validation_blocks := blocks_of_role BlockRole_h3_validation primary_blocks in
  let training_sources := training_sources_of input training_blocks in
  let!* selection := select_h3_training sha256 training_blocks training_sources in
  let!* h3 := evaluate_h3_validation validation_blocks selection bootstrap delta_star in
  let!* vectors := contrast_vectors primary_blocks in
  match two_sided_max_t "H1-SEVEN-TWO-SIDED" h1_contrast_ids (fst vectors) bootstrap delta_star,
        two_sided_max_t "H2-TWENTY-TWO-SIDED" h2_contrast_ids (snd vectors) bootstrap delta_star with
  | success h1, success h2 =>
      Returned (success (mkInferenceOutcome selection h3 h1 h2
        [receipt AnalysisStage_h3_training training_sources;
         receipt AnalysisStage_selection_freeze training_sources;
         receipt AnalysisStage_validation_unseal [og_access_record (ai_validation_access input)];
         receipt AnalysisStage_h3_validation []; receipt AnalysisStage_h3_evaluation [];
         receipt AnalysisStage_h1h2_release [og_access_record (ai_h1h2_access input)];
         receipt AnalysisStage_h1h2_analysis []]))
  | _, _ =>
      Returned (fail_with ErrorCategory_cross_field "$/analysis/max_t" "ANALYSIS-MAXT"
        "separate H1 and H2 max-T families must both pass")
  end.

(** The reports, and the digest of the machine report with that digest zeroed. *)
Definition publish_analysis (input : AnalysisInput) (config_bytes : string) (summaries : list RunSummary)
    (primary_blocks : list CompleteBlockResponse) (inference : option InferenceOutcome) :
    Result AnalysisOutput :=
  let state := if inference then InferenceState_estimable else InferenceState_blocked in
  let h1 := nf_h1 <$> inference in
  let h2 := nf_h2 <$> inference in
  let selection := nf_selection <$> inference in
  let h3 := nf_h3 <$> inference in
  let stages := opening_stages ++ default [] (nf_stages <$> inference) ++
                [receipt AnalysisStage_reporting []] in
  let configuration_hash := sha_text sha256 config_bytes in
  let report := build_machine_report (ai_configuration input) state summaries primary_blocks h1 h2
                  selection h3 (ai_artifacts input) stages configuration_hash in
  let* zero_self := report zero_hash in
  let output_hash := sha_text sha256 zero_self in
  let* machine := report (Sha256_hex output_hash) in
  success (mkAnalysisOutput state summaries primary_blocks h1 h2 selection h3 stages machine
    (build_human_report state (Z.of_nat (length summaries)) (Z.of_nat (length primary_blocks)) h1 h2 h3)
    configuration_hash output_hash).

(** Everything after the validation of the input. *)
Definition analyse_validated (input : AnalysisInput) (config_bytes : string) :
    Throws (Result AnalysisOutput) :=
  let!* summaries := Returned (summarize_runs input) in
  let!* gate_blocked := gate_loop (ai_runs input) false (ai_blocks input) in
  let! primary_blocks := primary_blocks_of input summaries in
  if gate_blocked : bool then
    Returned (publish_analysis input config_bytes summaries primary_blocks None)
  else
    let!* inference := infer input primary_blocks in
    Returned (publish_analysis input config_bytes summaries primary_blocks (Some inference)).

Definition run_synthetic_analysis (input : AnalysisInput) : Throws (Result AnalysisOutput) :=
  match input_errors input with
  | (_ :: _) as errors => Returned (failure errors)
  | [] =>
      let!* config_bytes := Returned (canonical_configuration (ai_configuration input)) in
      analyse_validated input config_bytes
  end.

End Pipeline.

(** ** Lemmas: accepted runs are the planned cells *)

Lemma flat_map_errors_nil {A B : Type} (f : A -> list B) l :
  flat_map f l = [] <-> Forall (fun x => f x = []) l.
Proof.
  induction l as [|x l IH]; cbn; [by split|]. rewrite app_nil, Forall_cons, IH. done.
Qed.

(** A run that is bound to its cell of the plan. *)
Definition bound_run (plan : BlockPlan) (run : SyntheticRunInput) : Prop :=
  exists cell, planned_cell plan run = Some cell /\ sc_cell_ordinal cell = sr_cell_ordinal run /\
    cell_key cell = run_key run /\ sr_block_role run = bp_block_role plan /\
    sr_protocol_version run = bp_protocol_version plan.

Lemma binding_run_errors_nil plan runs : forall ordinals,
  binding_run_errors plan ordinals runs = [] ->
  Forall (bound_run plan) runs /\ NoDup (sr_cell_ordinal <$> runs) /\
  (forall o, o ∈ sr_cell_ordinal <$> runs -> o ∉ ordinals).
Proof.
  induction runs as [|run runs IH]; intros ordinals; cbn [binding_run_errors].
  { intros _. split_and!; [constructor | constructor | by intros o ?%elem_of_nil]. }
  destruct (_ || _) eqn:V; [done|]. apply orb_false_iff in V as [V R].
  rewrite negb_false_iff, bool_decide_eq_true in V, R.
  destruct (bool_decide_reflect (sr_cell_ordinal run ∈ ordinals)) as [|N]; [done|].
  destruct (planned_cell plan run) as [cell|] eqn:C; [|done].
  intros E. errors_nil. apply orb_false_iff in E0 as [O K].
  rewrite negb_false_iff in O, K. rewrite bool_decide_eq_true in K. apply Z.eqb_eq in O.
  apply IH in E1 as (F & D & S). split_and!.
  - constructor; [by exists cell | done].
  - cbn. apply NoDup_cons. split; [|done]. intros I. apply S in I. set_solver.
  - intros o. cbn. rewrite elem_of_cons. intros [->|I]; [done|]. apply S in I. set_solver.
Qed.

(** A sound plan has one cell of each ordinal. *)
Lemma plan_cell_unique sha256 plan seeds a b : plan_sound sha256 plan seeds ->
  a ∈ bp_cells plan -> b ∈ bp_cells plan -> sc_cell_ordinal a = sc_cell_ordinal b -> a = b.
Proof.
  intros [(_ & R & _) _ _ _ _ _ _ _] [i A]%list_elem_of_lookup [j B]%list_elem_of_lookup E.
  assert (N : NoDup (sc_cell_ordinal <$> bp_cells plan))
    by (rewrite R; apply (bool_decide_unpack _); by vm_compute).
  assert (i = j) as <-; [|congruence].
  apply (proj1 (NoDup_alt _) N i j (sc_cell_ordinal a)); rewrite list_lookup_fmap;
    [by rewrite A | by rewrite B, E].
Qed.

Lemma runs_complete sha256 plan seeds runs : plan_sound sha256 plan seeds ->
  size_is runs kStageACells = true -> binding_run_errors plan [] runs = [] ->
  forall key, key ∈ expected_stage_a_cells -> key ∈ run_key <$> runs.
Proof.
  intros P L B key K. apply binding_run_errors_nil in B as (F & N & _).
  rewrite Forall_forall in F. pose proof (so_keys _ _ _ P) as Q.
  assert (S : sr_cell_ordinal <$> runs ⊆ sc_cell_ordinal <$> bp_cells plan).
  { intros o (run & -> & I)%list_elem_of_fmap. destruct (F run I) as (cell & C & <- & _).
    apply list_elem_of_fmap_2. by eapply list_elem_of_lookup_2. }
  assert (M : sc_cell_ordinal <$> bp_cells plan ⊆ sr_cell_ordinal <$> runs).
  { assert (Ln : length (bp_cells plan) = 180%nat)
      by (rewrite <- (length_fmap cell_key), Q; by vm_compute).
    apply NoDup_submseteq in S; [|done]. apply submseteq_length_Permutation in S.
    - intros o. by rewrite S.
    - rewrite !length_fmap, Ln. unfold size_is, kStageACells in L. apply Z.eqb_eq in L. lia. }
  rewrite <- Q in K. apply list_elem_of_fmap in K as (cell & -> & C).
  assert (O : sc_cell_ordinal cell ∈ sr_cell_ordinal <$> runs) by (by apply M, list_elem_of_fmap_2).
  apply list_elem_of_fmap in O as (run & O & I). destruct (F run I) as (other & W & E & Y & _).
  assert (cell = other) as ->.
  { apply (plan_cell_unique sha256 plan seeds); [done | done | by eapply list_elem_of_lookup_2 | congruence]. }
  rewrite Y. by apply list_elem_of_fmap_2.
Qed.

(** ** Lemmas: nothing throws after the validation *)

Section NeverThrows.

Context (sha256 : list Z -> list Z) (std_log : spec_float -> spec_float).

(** A block with all its runs. *)
Definition ready (runs : list SyntheticRunInput) (block : BlockInput) : Prop :=
  size_is (runs_of runs (block_id_of block)) kStageACells = true /\
  forall key, key ∈ expected_stage_a_cells -> key ∈ run_key <$> runs_of runs (block_id_of block).

Lemma block_errors_plans input blocks : forall index seen replaced,
  block_errors sha256 input index seen replaced blocks = [] ->
  Forall (fun block => validate_block_plan sha256 (bi_plan block) (bi_seed_catalog block)
                         (ai_namespaces input) = []) blocks.
Proof.
  induction blocks as [|block blocks IH]; intros index seen replaced E; [constructor|].
  cbn [block_errors] in E. errors_nil. constructor; [done|].
  destruct (bp_replaces_block_id _); errors_nil; by eapply IH.
Qed.

Lemma validated_ready input :
  input_errors sha256 input = [] -> Forall (ready (ai_runs input)) (ai_blocks input).
Proof.
  unfold input_errors. cbv zeta. intros E. errors_nil.
  match goal with H : block_errors _ _ _ _ _ _ = [] |- _ => apply block_errors_plans in H; rename H into P end.
  match goal with H : flat_map (block_run_errors _) _ = [] |- _ => apply flat_map_errors_nil in H; rename H into R end.
  rewrite Forall_forall in P, R. apply Forall_forall. intros block I. specialize (P block I). specialize (R block I).
  apply plan_validated in P. unfold block_run_errors in R. cbv zeta in R.
  destruct (size_is _ _) eqn:S; [|done]. cbn [negb] in R. errors_nil.
  split; [done|]. by eapply runs_complete.
Qed.

Lemma runs_at_ready runs block : ready runs block ->
  runs_at runs (block_id_of block) = Returned (runs_of runs (block_id_of block)).
Proof.
  intros [S _]. unfold runs_at. destruct (runs_of _ _); [|done]. by vm_compute in S.
Qed.

(** *** Summaries *)

Lemma quantile_refused_why values n d : exact_inverse_ecdf_quantile values n d <> failure [].
Proof.
  unfold exact_inverse_ecdf_quantile. destruct (_ || _); [discriminate|].
  destruct (checked_weight_sum values) as [[|c|c]|]; [discriminate| | |discriminate];
    (destruct (negb _); [discriminate|]); cbv zeta; (destruct (_ || _); [discriminate|]);
    (destruct (_ >? _); [discriminate|]); destruct (rank_value _ _ _); discriminate.
Qed.

Lemma summarize_run_why run artifacts : summarize_run sha256 std_log run artifacts <> failure [].
Proof.
  unfold summarize_run. destruct (run_input_errors _ _ _) as [|e es]; [|done].
  unfold end_to_end_quantiles. cbv zeta. pose proof (quantile_refused_why) as Q.
  do 4 (destruct (exact_inverse_ecdf_quantile _ _ _); [|done]).
  destruct (last _); [|done]. destruct (_ =? 0); [done|]. destruct (_ >=? _).
  - destruct (exact_inverse_ecdf_quantile _ 9999 10000) as [v|errors] eqn:E; cbn [rbind].
    + do 7 (destruct (summarize_diagnostic _); [|done]). done.
    + intros [= ->]. by apply Q in E.
  - cbn [rbind]. do 7 (destruct (summarize_diagnostic _); [|done]). done.
Qed.

Lemma summarize_runs_spec input summaries :
  summarize_runs sha256 std_log input = success summaries ->
  Forall2 (fun run summary => summarize_run sha256 std_log run (ai_artifacts input) = success summary)
    (ai_runs input) summaries.
Proof.
  unfold summarize_runs. cbv zeta.
  destruct (mjoin _) as [|e es] eqn:J; [|done]. intros E%success_inj. subst summaries.
  induction (ai_runs input) as [|run runs IH]; [constructor|]. cbn in J |- *.
  apply app_nil in J as [J1 J2]. specialize (IH J2).
  destruct (summarize_run sha256 std_log run (ai_artifacts input)) as [summary|errors] eqn:S.
  - cbn. constructor; [done|]. exact IH.
  - cbn in J1. subst errors. by apply summarize_run_why in S.
Qed.

Lemma run_response_spec artifacts runs summaries run :
  Forall2 (fun run summary => summarize_run sha256 std_log run artifacts = success summary)
    runs summaries -> NoDup (sr_run_id <$> runs) -> run ∈ runs ->
  exists summary, summarize_run sha256 std_log run artifacts = success summary /\
    run_response summaries run =
    Returned (mkCellResponse (sr_package run) (sr_hardware_state run) (sr_placement run)
                (sr_working_set run) (sr_load run) (rs_log_p999 summary)).
Proof.
  intros F N I. unfold run_response. revert N I.
  induction F as [|other summary runs summaries S F IH]; [by intros _ ?%elem_of_nil|].
  cbn. rewrite NoDup_cons, elem_of_cons. intros [X N].
  apply summarize_run_inv in S as S'. destruct S' as (_ & _ & _ & _ & -> & _).
  intros [<-|I].
  - rewrite bool_decide_true by done. by exists summary.
  - rewrite bool_decide_false; [by apply IH|]. intros E. apply X. rewrite E. by apply list_elem_of_fmap_2.
Qed.

(** *** Blocks *)

Lemma sequence_total {A B : Type} (R : A -> B -> Prop) (f : A -> Throws B) l :
  Forall (fun x => exists y, f x = Returned y /\ R x y) l ->
  exists ys, sequence (f <$> l) = Returned ys /\ Forall2 R l ys.
Proof.
  induction 1 as [|x l (y & E & H) _ (ys & S & IH)]; cbn; [by exists []|].
  rewrite E, S. exists (y :: ys). by split; [|constructor].
Qed.

Lemma sequence_inv {A B : Type} (f : A -> Throws B) l ys :
  sequence (f <$> l) = Returned ys -> Forall2 (fun x y => f x = Returned y) l ys.
Proof.
  revert ys. induction l as [|x l IH]; cbn; intros ys.
  { intros [= <-]. constructor. }
  destruct (f x) as [y|] eqn:E; [|done]. cbn. destruct (sequence (f <$> l)) as [zs|]; [|done].
  cbn. intros [= <-]. constructor; [done|]. by apply IH.
Qed.

(** A response is that of a block: its identity, and its cells those of the runs. *)
Definition responds (runs : list SyntheticRunInput) (block : BlockInput)
    (response : CompleteBlockResponse) : Prop :=
  cb_block_id response = block_id_of block /\ cb_role response = role_of block /\
  response_key <$> cb_cells response = run_key <$> runs_of runs (block_id_of block).

Lemma run_response_key summaries run cell :
  run_response summaries run = Returned cell -> response_key cell = run_key run.
Proof. unfold run_response. destruct (find _ _); [|done]. by intros [= <-]. Qed.

Lemma block_response_responds runs summaries block response :
  block_response runs summaries block = Returned response -> responds runs block response.
Proof.
  unfold block_response, runs_at.
  destruct (runs_of runs (block_id_of block)) as [|run mine] eqn:E; [done|].
  destruct (sequence _) as [cells|] eqn:S; cbn; [|done]. intros [= <-].
  split_and!; [done | done |]. cbn [cb_cells]. rewrite E. apply sequence_inv in S.
  clear E. induction S as [|r c rs cs H _ IH]; [done|]. cbn. rewrite IH. f_equal.
  by eapply run_response_key.
Qed.

Lemma runs_of_subset runs id run : run ∈ runs_of runs id -> run ∈ runs.
Proof. unfold runs_of. rewrite !list_elem_of_In, filter_In. tauto. Qed.

Lemma block_response_total input summaries block :
  summarize_runs sha256 std_log input = success summaries ->
  NoDup (sr_run_id <$> ai_runs input) -> ready (ai_runs input) block ->
  exists response, block_response (ai_runs input) summaries block = Returned response /\
    responds (ai_runs input) block response.
Proof.
  intros S N R. apply summarize_runs_spec in S.
  destruct (sequence_total (fun _ _ => True) (run_response summaries)
              (runs_of (ai_runs input) (block_id_of block))) as (cells & E & _).
  { apply Forall_forall. intros run I%runs_of_subset.
    destruct (run_response_spec _ _ _ run S N I) as (summary & _ & ->). by eexists. }
  assert (B : block_response (ai_runs input) summaries block =
              Returned (mkCompleteBlockResponse (block_id_of block) (role_of block) cells))
    by (unfold block_response; rewrite runs_at_ready by done; cbn; by rewrite E).
  eexists. split; [exact B|]. by apply block_response_responds in B.
Qed.

Lemma responds_complete runs block response :
  ready runs block -> responds runs block response -> complete_cells response.
Proof. intros [_ C] (_ & _ & K) key I. rewrite K. by apply C. Qed.

Lemma primary_blocks_total input summaries :
  summarize_runs sha256 std_log input = success summaries ->
  NoDup (sr_run_id <$> ai_runs input) -> Forall (ready (ai_runs input)) (ai_blocks input) ->
  exists blocks, primary_blocks_of input summaries = Returned blocks /\ Forall complete_cells blocks.
Proof.
  intros S N F.
  destruct (sequence_total (fun _ response => complete_cells response)
              (block_response (ai_runs input) summaries)
              (List.filter bi_active_primary (ai_blocks input))) as (blocks & E & C).
  - rewrite Forall_forall in *. intros block I.
    assert (R : ready (ai_runs input) block)
      by (apply F; revert I; rewrite !list_elem_of_In, filter_In; tauto).
    destruct (block_response_total input summaries block S N R) as (response & E & H).
    exists response. split; [done|]. by eapply responds_complete.
  - exists blocks. split; [done|]. clear -C. by induction C; constructor.
Qed.

Lemma run_ids_unique runs : forall index seen, run_id_errors index seen runs = [] ->
  NoDup (sr_run_id <$> runs) /\ forall id, id ∈ sr_run_id <$> runs -> id ∉ seen.
Proof.
  induction runs as [|run runs IH]; intros index seen; cbn [run_id_errors].
  { intros _. split; [constructor | by intros ? ?%elem_of_nil]. }
  intros E. errors_nil. apply bool_decide_eq_false in E0. apply IH in E1 as [N D]. split.
  - cbn. apply NoDup_cons. split; [|done]. intros I. apply D in I. set_solver.
  - intros id. cbn. rewrite elem_of_cons. intros [->|I]; [done|]. apply D in I. set_solver.
Qed.

Lemma validated_run_ids input : input_errors sha256 input = [] -> NoDup (sr_run_id <$> ai_runs input).
Proof.
  unfold input_errors. cbv zeta. intros E. errors_nil.
  match goal with H : run_id_errors _ _ _ = [] |- _ => by apply run_ids_unique in H as [? _] end.
Qed.

(** *** Gates *)

(** An active block of which a run satisfies a condition. *)
Definition active_run (condition : SyntheticRunInput -> bool) (runs : list SyntheticRunInput)
    (blocks : list BlockInput) : Prop :=
  exists block run, block ∈ blocks /\ bi_active_primary block = true /\ run ∈ runs /\
    sr_block_id run = block_id_of block /\ condition run = true.

Lemma active_run_cons condition runs block blocks :
  active_run condition runs (block :: blocks) <->
  bi_active_primary block && existsb condition (runs_of runs (block_id_of block)) = true \/
  active_run condition runs blocks.
Proof.
  unfold active_run, runs_of. rewrite andb_true_iff, existsb_exists.
  setoid_rewrite filter_In. setoid_rewrite bool_decide_eq_true. split.
  - intros (b & run & I & A & R & E & C). apply elem_of_cons in I as [->|I].
    + left. split; [done|]. exists run. by rewrite <- list_elem_of_In.
    + right. by exists b, run.
  - intros [(A & run & (R & E) & C)|(b & run & I & H)].
    + exists block, run. rewrite <- list_elem_of_In in R. rewrite elem_of_cons. split_and!; auto.
    + exists b, run. split; [|done]. apply elem_of_cons. by right.
Qed.

Lemma gate_loop_spec runs blocks : forall blocked r,
  gate_loop runs blocked blocks = Returned r ->
  (forall b, r = success b -> ~ active_run invalid_run runs blocks /\
     (b = true <-> blocked = true \/ active_run gate_failed runs blocks)) /\
  (forall e, r = failure e -> active_run invalid_run runs blocks).
Proof.
  induction blocks as [|block blocks IH]; intros blocked r; cbn [gate_loop].
  { intros [= <-]. split; [|done]. intros b [= <-]. split; [by intros (? & ? & ?%elem_of_nil & _)|].
    split; [auto|]. by intros [?|(? & ? & ?%elem_of_nil & _)]. }
  unfold runs_at. destruct (runs_of runs (block_id_of block)) as [|run mine] eqn:E; [done|].
  rewrite <- E. clear E.
  destruct (_ && existsb invalid_run _) eqn:V.
  - intros [= <-]. split; [done|]. intros _ _. rewrite active_run_cons. by left.
  - intros [G1 G2]%IH. setoid_rewrite active_run_cons. rewrite V. split.
    + intros b [H1 H2]%G1. split; [by intros [?|?]|]. rewrite H2, orb_true_iff. tauto.
    + intros e He%G2. by right.
Qed.

Lemma gate_loop_returns runs blocks blocked : Forall (ready runs) blocks ->
  returns (gate_loop runs blocked blocks).
Proof.
  intros F. revert blocked. induction F as [|block blocks R _ IH]; intros blocked; cbn [gate_loop].
  { apply returns_intro. }
  rewrite runs_at_ready by done.
  destruct (_ && existsb invalid_run _); [apply returns_intro | apply IH].
Qed.

(** *** Inference *)

Lemma contrast_vectors_returns blocks : Forall complete_cells blocks -> returns (contrast_vectors blocks).
Proof.
  induction 1 as [|block blocks C _ IH]; cbn [contrast_vectors]; [apply returns_intro|].
  destruct (h1_block_contrasts_returns block C) as [h1 ->].
  destruct (h2_block_contrasts_returns block C) as [h2 ->].
  destruct h1; [|apply returns_intro]. destruct h2; [|apply returns_intro].
  destruct (returns_cases _ IH) as [[v ->]|[e ->]]; apply returns_intro.
Qed.

Lemma blocks_of_role_complete role blocks :
  Forall complete_cells blocks -> Forall complete_cells (blocks_of_role role blocks).
Proof.
  intros F. rewrite Forall_forall in *. intros block. unfold blocks_of_role.
  rewrite list_elem_of_In, filter_In, <- list_elem_of_In. intros [I _]. by apply F.
Qed.

Lemma infer_returns input blocks : Forall complete_cells blocks -> returns (infer sha256 input blocks).
Proof.
  intros F. unfold infer. cbv zeta.
  match goal with |- context [select_h3_training _ ?b ?s] =>
    destruct (returns_cases _ (select_h3_training_returns sha256 b s (blocks_of_role_complete _ _ F)))
      as [[selection ->]|[e ->]]; [|apply returns_intro] end.
  match goal with |- context [evaluate_h3_validation ?b ?s ?k ?d] =>
    destruct (returns_cases _ (evaluate_h3_validation_returns b s k d (blocks_of_role_complete _ _ F)))
      as [[h3 ->]|[e ->]]; [|apply returns_intro] end.
  destruct (returns_cases _ (contrast_vectors_returns blocks F)) as [[v ->]|[e ->]]; [|apply returns_intro].
  destruct (two_sided_max_t "H1-SEVEN-TWO-SIDED" _ _ _ _); [|apply returns_intro].
  destruct (two_sided_max_t "H2-TWENTY-TWO-SIDED" _ _ _ _); apply returns_intro.
Qed.


(** *** What an output shows *)

(** The order in which the stages of an analysis are registered. *)
Definition registered_order (blocked : bool) : list AnalysisStage :=
  [AnalysisStage_artifact_validation; AnalysisStage_reconciliation_verification;
   AnalysisStage_interval_derivation; AnalysisStage_run_gates; AnalysisStage_run_summaries;
   AnalysisStage_complete_blocks] ++
  (if blocked then [] else
   [AnalysisStage_h3_training; AnalysisStage_selection_freeze; AnalysisStage_validation_unseal;
    AnalysisStage_h3_validation; AnalysisStage_h3_evaluation; AnalysisStage_h1h2_release;
    AnalysisStage_h1h2_analysis]) ++ [AnalysisStage_reporting].

(** The families of an output. *)
Definition families_released (output : AnalysisOutput) (released : bool) : Prop :=
  if released then is_Some (ao_h1 output) /\ is_Some (ao_h2 output) /\
    is_Some (ao_selection output) /\ is_Some (ao_h3 output)
  else ao_h1 output = None /\ ao_h2 output = None /\ ao_selection output = None /\
    ao_h3 output = None.

(** The machine report of an output with a given text for its own digest. *)
Definition report_of (input : AnalysisInput) (output : AnalysisOutput) (hash : string) : Result string :=
  build_machine_report (ai_configuration input) (ao_state output) (ao_run_summaries output)
    (ao_primary_blocks output) (ao_h1 output) (ao_h2 output) (ao_selection output)
    (ao_h3 output) (ai_artifacts input) (ao_stages output)
    (ao_configuration_sha256 output) hash.

(** What a published analysis shows. *)
Record analysis_sound (input : AnalysisInput) (config_bytes : string) (output : AnalysisOutput) : Prop := {
  as_summaries :
    Forall2 (fun run summary => summarize_run sha256 std_log run (ai_artifacts input) = success summary)
      (ai_runs input) (ao_run_summaries output);
  as_valid : ~ active_run invalid_run (ai_runs input) (ai_blocks input);
  as_blocks : Forall2 (responds (ai_runs input)) (List.filter bi_active_primary (ai_blocks input))
    (ao_primary_blocks output);
  as_blocked : ao_state output = InferenceState_blocked <->
    active_run gate_failed (ai_runs input) (ai_blocks input);
  as_families : families_released output (bool_decide (ao_state output = InferenceState_estimable));
  as_selection : forall selection, ao_selection output = Some selection ->
    let training := blocks_of_role BlockRole_h3_train (ao_primary_blocks output) in
    select_h3_training sha256 training (training_sources_of input training) =
    Returned (success selection);
  as_stages : st_stage <$> ao_stages output =
    registered_order (bool_decide (ao_state output = InferenceState_blocked));
  as_configuration : ao_configuration_sha256 output = sha_text sha256 config_bytes;
  as_hash : exists zero_self, report_of input output zero_hash = success zero_self /\
    ao_output_sha256 output = sha_text sha256 zero_self /\
    report_of input output (Sha256_hex (ao_output_sha256 output)) =
    success (ao_machine_report_json output)
}.

Lemma infer_inv input blocks inference : infer sha256 input blocks = Returned (success inference) ->
  let training := blocks_of_role BlockRole_h3_train blocks in
  select_h3_training sha256 training (training_sources_of input training) =
  Returned (success (nf_selection inference)) /\
  st_stage <$> opening_stages ++ nf_stages inference ++ [receipt AnalysisStage_reporting []] =
  registered_order false.
Proof.
  unfold infer. cbv zeta. destruct (select_h3_training _ _ _) as [[selection|]|]; [|done..].
  destruct (evaluate_h3_validation _ _ _ _) as [[h3|]|]; [|done..].
  destruct (contrast_vectors _) as [[v|]|]; [|done..].
  destruct (two_sided_max_t "H1-SEVEN-TWO-SIDED" _ _ _ _) as [h1|]; [|done].
  destruct (two_sided_max_t "H2-TWENTY-TWO-SIDED" _ _ _ _) as [h2|]; [|done].
  by intros [= <-].
Qed.

Lemma publish_inv input config_bytes summaries blocks inference output :
  publish_analysis sha256 input config_bytes summaries blocks inference = success output ->
  ao_state output = (if inference then InferenceState_estimable else InferenceState_blocked) /\
  ao_run_summaries output = summaries /\ ao_primary_blocks output = blocks /\
  ao_h1 output = nf_h1 <$> inference /\ ao_h2 output = nf_h2 <$> inference /\
  ao_selection output = nf_selection <$> inference /\ ao_h3 output = nf_h3 <$> inference /\
  ao_stages output = opening_stages ++ default [] (nf_stages <$> inference) ++
                     [receipt AnalysisStage_reporting []] /\
  ao_configuration_sha256 output = sha_text sha256 config_bytes /\
  exists zero_self, report_of input output zero_hash = success zero_self /\
    ao_output_sha256 output = sha_text sha256 zero_self /\
    report_of input output (Sha256_hex (ao_output_sha256 output)) =
    success (ao_machine_report_json output).
Proof.
  unfold publish_analysis, report_of. cbv zeta.
  destruct (build_machine_report _ _ _ _ _ _ _ _ _ _ _ zero_hash) as [zero_self|] eqn:Z; [|done].
  cbn [rbind]. destruct (build_machine_report _ _ _ _ _ _ _ _ _ _ _ (Sha256_hex _)) as [machine|] eqn:M;
    [|done].
  cbn [rbind]. intros E%success_inj. subst output.
  cbn [ao_state ao_run_summaries ao_primary_blocks ao_h1 ao_h2 ao_selection ao_h3 ao_stages
       ao_configuration_sha256 ao_output_sha256 ao_machine_report_json].
  split_and!; try done. by exists zero_self.
Qed.


End NeverThrows.

(** ** An analysis that is blocked *)

Definition unresolved_reference (id : string) : ArtifactReference := mkArtifactReference id (mkSha256 []).

Definition unsized_family (kind : FamilyKind) : ProspectiveFamilyInput :=
  mkProspectiveFamilyInput kind (unresolved_reference "sizing") [].

Definition sample_analysis_configuration : AnalysisConfiguration :=
  mkAnalysisConfiguration ProtocolVersion_v2_0_0_pre_2 kAnalysisProfile (f64_of_Z 1)
    (mkBootstrapConfiguration kBootstrapProfile kDeterministicSuite "seed" (mkPhiloxKey 1 2) 10)
    (mkProspectivePrecisionInput (unsized_family FamilyKind_h1_two_sided) (unsized_family FamilyKind_h2_two_sided)
       (unsized_family FamilyKind_h3_training_standard_error) (unsized_family FamilyKind_h3_validation_one_sided))
    (mkProspectiveCounts 12 12 20 12 8 20 3600) (unresolved_reference "configuration")
    (mkSoftwareVersions "revision" "compiler" "library").

Definition sample_block_plan : BlockPlan :=
  mkBlockPlan ProtocolVersion_v2_0_0_pre_2 ProtocolVersion_v2_0_0_pre_2 "block-1" "platform" "build"
    Stage_stage_a BlockRole_h3_train 0 "block-0" None None None
    (RequestedHardwareState_h0, RequestedHardwareState_h1) [] AccessState_collected_sealed (mkSha256 [])
    Value_null.

Definition sample_grant (domain : OutcomeDomain) : OutcomeAccessGrant :=
  mkOutcomeAccessGrant domain AccessState_collected_sealed [] (unresolved_reference "access").

(** One active block whose run has too small an effective tail sample. *)
Definition thin_input : AnalysisInput :=
  mkAnalysisInput sample_registry
    [mkBlockInput sample_block_plan sample_catalog (unresolved_reference "plan") true true true]
    [bound_sample 100000] (sample_run_artifacts 100000) sample_analysis_configuration
    (sample_grant OutcomeDomain_h3_training) (sample_grant OutcomeDomain_h3_validation)
    (sample_grant OutcomeDomain_h1h2).

Lemma thin_analysis : exists output,
  analyse_validated sample_sha id thin_input "{}" = Returned (success output) /\
  ao_state output = InferenceState_blocked.
Proof. eexists. split; [vm_compute; reflexivity | reflexivity]. Qed.

