(* ===== verification/Runner.v ===== *)
(** * The runner's admission

    Models [runner/runner.hpp], [src/runner/runner.cpp], [tools/runner_main.cpp]
    and [src/repository_info.cpp]: the admission document and its loader, the
    checks of its fields against the trust anchor, the digests of the evidence
    files, the ticket, its dispatch to the five static packages and the command
    line tool. The file system is a class; the digest is the incremental one of
    the run store, and the metadata of the build is a parameter. *)

From stdpp Require Import prelude list strings.
From Stdlib Require Import ZArith Lia Ascii.
From S2P Require Import Prelude Validation Model Bytes Json BlockPlanning BlockPlans LifecycleRuntime Executor ArtifactStore.

#[local] Open Scope Z_scope.

(** ** Repository information *)

(** The generated header of the build. *)
Record BuildMetadata : Set := mkBuildMetadata {
  bm_protocol_version : string;
  bm_source_revision : string;
  bm_source_revision_short : string;
  bm_source_dirty : bool;
  bm_compiler : string;
  bm_standard_library : string
}.

Record RepositoryInfo : Set := mkRepositoryInfo {
  ri_protocol_version : string;
  ri_source_revision : string;
  ri_source_revision_short : string;
  ri_source_dirty : bool;
  ri_compiler : string;
  ri_standard_library : string
}.

Definition repository_info (metadata : BuildMetadata) : RepositoryInfo :=
  mkRepositoryInfo (bm_protocol_version metadata) (bm_source_revision metadata)
    (bm_source_revision_short metadata) (bm_source_dirty metadata) (bm_compiler metadata)
    (bm_standard_library metadata).

(** ** Data *)

Definition kAdmissionSchemaVersion : string := "cpu-prefetch-runner-admission/1".
Definition kRunnerProfileId : string := "STAGE17-STATIC-FIVE-PACKAGE-FAIL-CLOSED-v1".
Definition kCpuPairSelectionId : string := "XEON-CPU-FETCH-P0-NEAR-0-1-FAR-0-26-v1".
Definition kRelaxMappingId : string := "X86-PAUSE-ONE-PER-RELAX-SITE-v1".

Record WorkerPair : Set := mkWorkerPair {
  wp_producer_cpu : Z;
  wp_consumer_cpu : Z
}.

#[export] Instance WorkerPair_eq_dec : EqDecision WorkerPair.
Proof. solve_decision. Defined.

Definition kNearWorkerPair : WorkerPair := mkWorkerPair 0 1.
Definition kFarWorkerPair : WorkerPair := mkWorkerPair 0 26.

Definition selected_worker_pair (placement : Placement) : WorkerPair :=
  if bool_decide (placement = Placement_near) then kNearWorkerPair
  else if bool_decide (placement = Placement_far) then kFarWorkerPair
  else mkWorkerPair u32_max u32_max.

Inductive EvidenceKind : Set :=
| EvidenceKind_protocol_snapshot
| EvidenceKind_source_release
| EvidenceKind_run_plan
| EvidenceKind_warmup_schedule
| EvidenceKind_measurement_schedule
| EvidenceKind_seed_derivation
| EvidenceKind_platform_inventory
| EvidenceKind_platform_request
| EvidenceKind_platform_verification
| EvidenceKind_hardware_prefetch_mapping
| EvidenceKind_clock_qualification
| EvidenceKind_queue_provenance
| EvidenceKind_runtime_atomic_layout
| EvidenceKind_address_residency
| EvidenceKind_storage_budget
| EvidenceKind_durability_domains
| EvidenceKind_calibration_freeze
| EvidenceKind_execution_limits
| EvidenceKind_authority_custody
| EvidenceKind_pilot_execution_authorization.

#[export] Instance EvidenceKind_eq_dec : EqDecision EvidenceKind.
Proof. solve_decision. Defined.

Definition kRequiredEvidenceKinds : list EvidenceKind :=
  [EvidenceKind_protocol_snapshot; EvidenceKind_source_release; EvidenceKind_run_plan;
   EvidenceKind_warmup_schedule; EvidenceKind_measurement_schedule; EvidenceKind_seed_derivation;
   EvidenceKind_platform_inventory; EvidenceKind_platform_request;
   EvidenceKind_platform_verification; EvidenceKind_hardware_prefetch_mapping;
   EvidenceKind_clock_qualification; EvidenceKind_queue_provenance;
   EvidenceKind_runtime_atomic_layout; EvidenceKind_address_residency; EvidenceKind_storage_budget;
   EvidenceKind_durability_domains; EvidenceKind_calibration_freeze; EvidenceKind_execution_limits;
   EvidenceKind_authority_custody; EvidenceKind_pilot_execution_authorization].

Definition to_string_EvidenceKind (kind : EvidenceKind) : string :=
  match kind with
  | EvidenceKind_protocol_snapshot => "PROTOCOL_SNAPSHOT"
  | EvidenceKind_source_release => "SOURCE_RELEASE"
  | EvidenceKind_run_plan => "RUN_PLAN"
  | EvidenceKind_warmup_schedule => "WARMUP_SCHEDULE"
  | EvidenceKind_measurement_schedule => "MEASUREMENT_SCHEDULE"
  | EvidenceKind_seed_derivation => "SEED_DERIVATION"
  | EvidenceKind_platform_inventory => "PLATFORM_INVENTORY"
  | EvidenceKind_platform_request => "PLATFORM_REQUEST"
  | EvidenceKind_platform_verification => "PLATFORM_VERIFICATION"
  | EvidenceKind_hardware_prefetch_mapping => "HARDWARE_PREFETCH_MAPPING"
  | EvidenceKind_clock_qualification => "CLOCK_QUALIFICATION"
  | EvidenceKind_queue_provenance => "QUEUE_PROVENANCE"
  | EvidenceKind_runtime_atomic_layout => "RUNTIME_ATOMIC_LAYOUT"
  | EvidenceKind_address_residency => "ADDRESS_RESIDENCY"
  | EvidenceKind_storage_budget => "STORAGE_BUDGET"
  | EvidenceKind_durability_domains => "DURABILITY_DOMAINS"
  | EvidenceKind_calibration_freeze => "CALIBRATION_FREEZE"
  | EvidenceKind_execution_limits => "EXECUTION_LIMITS"
  | EvidenceKind_authority_custody => "AUTHORITY_CUSTODY"
  | EvidenceKind_pilot_execution_authorization => "PILOT_EXECUTION_AUTHORIZATION"
  end.

Definition parse_evidence_kind (value path : string) : Result EvidenceKind :=
  match find (fun kind => String.eqb (to_string_EvidenceKind kind) value) kRequiredEvidenceKinds with
  | Some kind => success kind
  | None => fail_with ErrorCategory_unknown_enum path "RUN-EVIDENCE-KIND" "unknown runner evidence kind"
  end.

(** A [std::filesystem::path] is its text. *)
Record EvidenceReference : Set := mkEvidenceReference {
  ev_kind : EvidenceKind;
  ev_artifact_id : string;
  ev_path : string;
  ev_sha256 : string;
  ev_binding_id : string;
  ev_immutable : bool;
  ev_eligible : bool
}.

Record RunnerAdmission : Set := mkRunnerAdmission {
  ra_schema_version : string;
  ra_protocol_version : string;
  ra_runner_profile_id : string;
  ra_cpu_pair_selection_id : string;
  ra_relax_mapping_id : string;
  ra_source_revision : string;
  ra_binary_sha256 : string;
  ra_stand_id : string;
  ra_binding_id : string;
  ra_package : QueuePackage;
  ra_placement : Placement;
  ra_workers : WorkerPair;
  ra_execution_limits : ExecutionLimits;
  ra_evidence : list EvidenceReference
}.

Record AdmissionTrustAnchor : Set := mkAdmissionTrustAnchor {
  ta_source_revision : string;
  ta_binary_sha256 : string;
  ta_stand_id : string;
  ta_binding_id : string;
  ta_source_dirty : bool
}.

Record AdmissionTicket : Set := mkAdmissionTicket {
  tk_package : QueuePackage;
  tk_placement : Placement;
  tk_workers : WorkerPair;
  tk_execution_limits : ExecutionLimits;
  tk_binding_id : string
}.

(** ** Loading an admission document *)

(** A value and the errors pushed while it was computed, in their order. *)
Definition Logged (A : Type) : Type := A * list ValidationError.

(** First [e], then [k] on its value. *)
Definition lbind {A B : Type} (e : Logged A) (k : A -> Logged B) : Logged B :=
  let '(x, errors) := e in
  let '(y, later) := k x in
  (y, errors ++ later).

Declare Scope logged_scope.

Notation "'let%' x ':=' e 'in' k" := (lbind e (fun x => k))
  (at level 10, x name, e at level 200, k at level 200,
   format "'let%'  x  ':='  e  'in' '//' k") : logged_scope.

#[local] Open Scope logged_scope.

Definition runner_error (category : ErrorCategory) (path rule message : string) : ValidationError :=
  mkError category path rule message.

Definition object_of (value : Value) (path : string) : Logged (option (list (string * Value))) :=
  match as_object value with
  | Some object => (Some object, [])
  | None => (None, [runner_error ErrorCategory_invalid_type path "RUN-TYPE" "value must be an object"])
  end.

Definition field (object : list (string * Value)) (name path : string) : Logged (option Value) :=
  match map_find name object with
  | Some value => (Some value, [])
  | None => (None, [runner_error ErrorCategory_missing_field (path +:+ "/" +:+ name) "RUN-REQUIRED"
                      "required field is missing"])
  end.

Definition reject_unknown (object : list (string * Value)) (accepted : list string) (path : string) :
    Logged unit :=
  (tt, flat_map (fun member =>
     error_when (negb (existsb (String.eqb (fst member)) accepted))
       (runner_error ErrorCategory_unknown_field (path +:+ "/" +:+ fst member) "RUN-UNKNOWN"
          "unknown field is forbidden")) object).

(** A field of one type; [absent] stands for a missing or ill-typed one. *)
Definition typed_field {A : Type} (get : Value -> option A) (absent : A) (rule message : string)
    (object : list (string * Value)) (name path : string) : Logged A :=
  let% value := field object name path in
  match value with
  | None => (absent, [])
  | Some value =>
      match get value with
      | Some a => (a, [])
      | None => (absent, [runner_error ErrorCategory_invalid_type (path +:+ "/" +:+ name) rule message])
      end
  end.

Definition string_field : list (string * Value) -> string -> string -> Logged string :=
  typed_field as_string EmptyString "RUN-STRING" "field must be a string".

Definition bool_field : list (string * Value) -> string -> string -> Logged bool :=
  typed_field as_bool false "RUN-BOOLEAN" "field must be a boolean".

(** Only a number without sign, fraction and exponent is unsigned. *)
Definition unsigned_of (value : Value) : option Z :=
  match as_number value with
  | Some number =>
      match num_kind number with
      | NumberKind_unsigned_integer => Some (number_integer number)
      | _ => None
      end
  | None => None
  end.

Definition uint_field : list (string * Value) -> string -> string -> Logged Z :=
  typed_field unsigned_of 0 "RUN-U64" "field must be an exact unsigned integer".

Definition supported_package (package : QueuePackage) : bool :=
  match package with
  | QueuePackage_r0 | QueuePackage_r1 | QueuePackage_r2 | QueuePackage_l0 | QueuePackage_l1 => true
  | _ => false
  end.

Definition root_fields : list string :=
  ["schema_version"; "protocol_version"; "runner_profile_id"; "cpu_pair_selection_id";
   "relax_mapping_id"; "source_revision"; "binary_sha256"; "stand_id"; "binding_id"; "package";
   "placement"; "producer_cpu"; "consumer_cpu"; "execution_limits"; "evidence"].

Definition limit_fields : list string :=
  ["controller_start_poll_limit"; "worker_start_poll_limit"; "producer_due_poll_limit_per_arrival";
   "consumer_empty_poll_limit_before_finish"; "drain_poll_limit"].

Definition evidence_fields : list string :=
  ["kind"; "artifact_id"; "path"; "sha256"; "binding_id"; "immutable"; "eligible"].

(** An enumerator by its name; an empty name was reported before. *)
Definition enum_or {E : Type} (parse : string -> string -> Result E) (name path : string) (absent : E) :
    Logged E :=
  if str_empty name then (absent, [])
  else
    match parse name path with
    | success e => (e, [])
    | failure errors => (absent, errors)
    end.

Definition no_limits : ExecutionLimits := mkExecutionLimits 0 0 0 0 0.

Definition limits_field (root : list (string * Value)) : Logged ExecutionLimits :=
  let% value := field root "execution_limits" "$" in
  match value with
  | None => (no_limits, [])
  | Some value =>
      let path := "$/execution_limits"%string in
      let% limits := object_of value path in
      match limits with
      | None => (no_limits, [])
      | Some limits =>
          let% unknown := reject_unknown limits limit_fields path in
          let% controller := uint_field limits "controller_start_poll_limit" path in
          let% worker := uint_field limits "worker_start_poll_limit" path in
          let% producer := uint_field limits "producer_due_poll_limit_per_arrival" path in
          let% consumer := uint_field limits "consumer_empty_poll_limit_before_finish" path in
          let% drain := uint_field limits "drain_poll_limit" path in
          (mkExecutionLimits controller worker producer consumer drain, [])
      end
  end.

(** One element of the evidence; [None] where the loop continues. *)
Definition evidence_item (value : Value) (path : string) : Logged (option EvidenceReference) :=
  let% item := object_of value path in
  match item with
  | None => (None, [])
  | Some item =>
      let% unknown := reject_unknown item evidence_fields path in
      let% kind_text := string_field item "kind" path in
      match parse_evidence_kind kind_text (path +:+ "/kind") with
      | failure errors => (None, errors)
      | success kind =>
          let% artifact_id := string_field item "artifact_id" path in
          let% file := string_field item "path" path in
          let% sha256 := string_field item "sha256" path in
          let% binding_id := string_field item "binding_id" path in
          let% immutable := bool_field item "immutable" path in
          let% eligible := bool_field item "eligible" path in
          (Some (mkEvidenceReference kind artifact_id file sha256 binding_id immutable eligible), [])
      end
  end.

Definition evidence_path (index : Z) : string := "$/evidence/" +:+ std_to_string index.

Fixpoint evidence_items (index : Z) (values : list Value) : Logged (list EvidenceReference) :=
  match values with
  | [] => ([], [])
  | value :: rest =>
      let% item := evidence_item value (evidence_path index) in
      let% others := evidence_items (index + 1) rest in
      (match item with Some item => item :: others | None => others end, [])
  end.

Definition evidence_field (root : list (string * Value)) : Logged (list EvidenceReference) :=
  let% value := field root "evidence" "$" in
  match value with
  | None => ([], [])
  | Some value =>
      match as_array value with
      | None => ([], [runner_error ErrorCategory_invalid_type "$/evidence" "RUN-ARRAY"
                        "evidence must be an array"])
      | Some values => evidence_items 0 values
      end
  end.

(** The worker CPUs, narrowed to 32 bits. *)
Definition workers_field (root : list (string * Value)) : Logged WorkerPair :=
  let% producer_cpu := uint_field root "producer_cpu" "$" in
  let% consumer_cpu := uint_field root "consumer_cpu" "$" in
  if (producer_cpu >? u32_max) || (consumer_cpu >? u32_max) then
    (mkWorkerPair 0 0, [runner_error ErrorCategory_out_of_range "$/producer_cpu" "RUN-CPU-U32"
                          "worker CPU must fit uint32"])
  else (mkWorkerPair producer_cpu consumer_cpu, []).

Definition admission_of (root : list (string * Value)) : Logged RunnerAdmission :=
  let% unknown := reject_unknown root root_fields "$" in
  let% schema_version := string_field root "schema_version" "$" in
  let% protocol_version := string_field root "protocol_version" "$" in
  let% runner_profile_id := string_field root "runner_profile_id" "$" in
  let% cpu_pair_selection_id := string_field root "cpu_pair_selection_id" "$" in
  let% relax_mapping_id := string_field root "relax_mapping_id" "$" in
  let% source_revision := string_field root "source_revision" "$" in
  let% binary_sha256 := string_field root "binary_sha256" "$" in
  let% stand_id := string_field root "stand_id" "$" in
  let% binding_id := string_field root "binding_id" "$" in
  let% package_text := string_field root "package" "$" in
  let% package := enum_or parse_queue_package package_text "$/package" QueuePackage_not_applicable in
  let% placement_text := string_field root "placement" "$" in
  let% placement := enum_or parse_placement placement_text "$/placement" Placement_not_applicable in
  let% workers := workers_field root in
  let% limits := limits_field root in
  let% evidence := evidence_field root in
  (mkRunnerAdmission schema_version protocol_version runner_profile_id cpu_pair_selection_id
     relax_mapping_id source_revision binary_sha256 stand_id binding_id package placement workers
     limits evidence, []).

Definition load_admission (document : string) : Result RunnerAdmission :=
  match parse document with
  | failure errors => failure errors
  | success value =>
      let '(root, errors) := object_of value "$" in
      match root with
      | None => failure errors
      | Some root =>
          match admission_of root with
          | (admission, []) => success admission
          | (_, errors) => failure errors
          end
      end
  end.

(** ** The fields of an admission *)

Definition add_mismatch (path rule message : string) : ValidationError :=
  runner_error ErrorCategory_reference_mismatch path rule message.

Definition require_nonempty (value path rule : string) : list ValidationError :=
  error_when (str_empty value)
    (runner_error ErrorCategory_missing_field path rule "current admission identity must be nonempty").

Definition exact (observed expected path rule : string) : list ValidationError :=
  error_when (negb (String.eqb observed expected))
    (add_mismatch path rule "value does not match the accepted/current binding").

(** The loop over the evidence; [observed] and [ids] are the sets. *)
Fixpoint evidence_errors (binding_id : string) (index : Z) (observed : list EvidenceKind)
    (ids : list string) (evidence : list EvidenceReference) : list ValidationError :=
  match evidence with
  | [] => []
  | reference :: rest =>
      let path := evidence_path index in
      let id := ev_artifact_id reference in
      error_when (bool_decide (ev_kind reference ∈ observed))
        (runner_error ErrorCategory_duplicate_value (path +:+ "/kind") "RUN-EVIDENCE-UNIQUE"
           "each required evidence kind must appear exactly once") ++
      error_when (str_empty id || bool_decide (id ∈ ids))
        (runner_error ErrorCategory_duplicate_value (path +:+ "/artifact_id") "RUN-ARTIFACT-UNIQUE"
           "artifact IDs must be nonempty and unique") ++
      error_when (str_empty (ev_path reference))
        (runner_error ErrorCategory_missing_field (path +:+ "/path") "RUN-EVIDENCE-PATH"
           "evidence path must be explicit") ++
      error_when (negb (has_value (Sha256_parse (ev_sha256 reference) (path +:+ "/sha256"))))
        (runner_error ErrorCategory_invalid_hash (path +:+ "/sha256") "RUN-EVIDENCE-SHA256"
           "evidence SHA-256 must be lowercase hexadecimal") ++
      error_when (negb (String.eqb (ev_binding_id reference) binding_id))
        (add_mismatch (path +:+ "/binding_id") "RUN-EVIDENCE-STALE"
           "evidence is not bound to the current admission epoch") ++
      error_when (negb (ev_immutable reference))
        (runner_error ErrorCategory_immutable_configuration (path +:+ "/immutable")
           "RUN-EVIDENCE-IMMUTABLE" "mutable evidence cannot arm the runner") ++
      error_when (negb (ev_eligible reference))
        (runner_error ErrorCategory_missing_evidence (path +:+ "/eligible") "RUN-EVIDENCE-ELIGIBLE"
           "unresolved or ineligible evidence cannot arm the runner") ++
      evidence_errors binding_id (index + 1) (ev_kind reference :: observed) (id :: ids) rest
  end.

Definition completeness_errors (evidence : list EvidenceReference) : list ValidationError :=
  flat_map (fun required =>
    error_when (negb (bool_decide (required ∈ ev_kind <$> evidence)))
      (runner_error ErrorCategory_missing_evidence "$/evidence" "RUN-EVIDENCE-COMPLETE"
         ("missing required evidence kind " +:+ to_string_EvidenceKind required)))
    kRequiredEvidenceKinds.

Definition worker_errors (admission : RunnerAdmission) : list ValidationError :=
  let placement := ra_placement admission in
  if negb (bool_decide (placement = Placement_near)) && negb (bool_decide (placement = Placement_far))
  then [runner_error ErrorCategory_unknown_enum "$/placement" "RUN-PLACEMENT"
          "only the accepted NEAR and FAR placements are supported"]
  else
    error_when (negb (bool_decide (ra_workers admission = selected_worker_pair placement)))
      (add_mismatch "$/producer_cpu" "RUN-CPU-PAIR" "worker CPUs do not match the Q13 placement pair").

Definition zero_limit (limits : ExecutionLimits) : bool :=
  (el_controller_start_poll_limit limits =? 0) || (el_worker_start_poll_limit limits =? 0) ||
  (el_producer_due_poll_limit_per_arrival limits =? 0) ||
  (el_consumer_empty_poll_limit_before_finish limits =? 0) || (el_drain_poll_limit limits =? 0).

Definition validate_admission_fields (admission : RunnerAdmission)
    (trust_anchor : AdmissionTrustAnchor) : list ValidationError :=
  exact (ra_schema_version admission) kAdmissionSchemaVersion "$/schema_version" "RUN-SCHEMA" ++
  exact (ra_protocol_version admission) kProtocolVersion "$/protocol_version" "RUN-PROTOCOL" ++
  exact (ra_runner_profile_id admission) kRunnerProfileId "$/runner_profile_id" "RUN-PROFILE" ++
  exact (ra_cpu_pair_selection_id admission) kCpuPairSelectionId "$/cpu_pair_selection_id"
    "RUN-CPU-PROFILE" ++
  exact (ra_relax_mapping_id admission) kRelaxMappingId "$/relax_mapping_id" "RUN-RELAX" ++
  require_nonempty (ra_source_revision admission) "$/source_revision" "RUN-SOURCE-EMPTY" ++
  require_nonempty (ra_stand_id admission) "$/stand_id" "RUN-STAND-EMPTY" ++
  require_nonempty (ra_binding_id admission) "$/binding_id" "RUN-BINDING-EMPTY" ++
  error_when (negb (has_value (Sha256_parse (ra_binary_sha256 admission) "$/binary_sha256")))
    (runner_error ErrorCategory_invalid_hash "$/binary_sha256" "RUN-BINARY-SHA256"
       "binary SHA-256 must be lowercase hexadecimal") ++
  exact (ra_source_revision admission) (ta_source_revision trust_anchor) "$/source_revision"
    "RUN-SOURCE" ++
  exact (ra_binary_sha256 admission) (ta_binary_sha256 trust_anchor) "$/binary_sha256" "RUN-BINARY" ++
  exact (ra_stand_id admission) (ta_stand_id trust_anchor) "$/stand_id" "RUN-STAND" ++
  exact (ra_binding_id admission) (ta_binding_id trust_anchor) "$/binding_id" "RUN-BINDING" ++
  error_when (ta_source_dirty trust_anchor)
    (runner_error ErrorCategory_missing_evidence "$/source_revision" "RUN-DIRTY-SOURCE"
       "a dirty-source build cannot receive an admission ticket") ++
  error_when (negb (supported_package (ra_package admission)))
    (runner_error ErrorCategory_unknown_enum "$/package" "RUN-PACKAGE"
       "only the five Stage A packages are supported") ++
  worker_errors admission ++
  error_when (zero_limit (ra_execution_limits admission))
    (runner_error ErrorCategory_missing_evidence "$/execution_limits" "RUN-LIMITS"
       "all five prospectively accepted limits must be nonzero") ++
  evidence_errors (ra_binding_id admission) 0 [] [] (ra_evidence admission) ++
  completeness_errors (ra_evidence admission).

(** ** Evidence files *)

(** The types that [symlink_status] reports. *)
Inductive FileType : Set :=
| FileType_not_found
| FileType_regular
| FileType_directory
| FileType_symlink
| FileType_other.

#[export] Instance FileType_eq_dec : EqDecision FileType.
Proof. solve_decision. Defined.

(** The files under their names: the type of a name itself, if it could be
    determined, and the pieces that reading the file behind it delivers with
    whether the end of the file was reached, if it could be opened. *)
Class EvidenceFiles : Type := {
  symlink_status : string -> option FileType;
  read_stream : string -> option (list (list Z) * bool)
}.

Definition is_absolute (path : string) : bool :=
  match path with String "/" _ => true | _ => false end.

Fixpoint ends_with_slash (path : string) : bool :=
  match path with
  | EmptyString => false
  | String "/" EmptyString => true
  | String _ rest => ends_with_slash rest
  end.

(** [parent / path] for a relative path. *)
Definition path_append (parent path : string) : string :=
  if str_empty parent || ends_with_slash parent then parent +:+ path
  else parent +:+ "/" +:+ path.

Section Files.

Context {C : Type} `{IncrementalDigest C} `{EvidenceFiles}.

Definition file_error (rule message : string) : Result string :=
  fail_with ErrorCategory_missing_evidence "$file" rule message.

(** The loop over the pieces: nothing is hashed for an empty one. *)
Fixpoint update_all (context : C) (pieces : list (list Z)) : option C :=
  match pieces with
  | [] => Some context
  | [] :: rest => update_all context rest
  | piece :: rest =>
      match evp_update context piece with
      | Some context => update_all context rest
      | None => None
      end
  end.

Definition sha256_file (path : string) : Result string :=
  let regular := match symlink_status path with
                 | Some type => bool_decide (type = FileType_regular) &&
                                negb (bool_decide (type = FileType_symlink))
                 | None => false
                 end in
  if negb regular then
    file_error "RUN-FILE-REGULAR" "evidence must be an existing non-symlink regular file"
  else
    match read_stream path with
    | None => file_error "RUN-FILE-OPEN" "evidence file cannot be opened"
    | Some (pieces, complete) =>
        match (match evp_new with Some context => evp_init context | None => None end) with
        | None => file_error "RUN-SHA256-INIT" "SHA-256 initialization failed"
        | Some context =>
            match update_all context pieces with
            | None => file_error "RUN-SHA256-UPDATE" "SHA-256 update failed"
            | Some context =>
                if negb complete then
                  file_error "RUN-FILE-READ" "evidence file could not be read completely"
                else
                  match evp_final context with
                  | Some digest =>
                      if negb (length digest =? 32)%nat then
                        file_error "RUN-SHA256-FINAL" "SHA-256 finalization failed"
                      else success (Sha256_hex (mkSha256 digest))
                  | None => file_error "RUN-SHA256-FINAL" "SHA-256 finalization failed"
                  end
            end
        end
    end.

Definition resolved_path (manifest_parent : string) (reference : EvidenceReference) : string :=
  if is_absolute (ev_path reference) then ev_path reference
  else path_append manifest_parent (ev_path reference).

Fixpoint file_errors (manifest_parent : string) (index : Z) (evidence : list EvidenceReference) :
    list ValidationError :=
  match evidence with
  | [] => []
  | reference :: rest =>
      let path := evidence_path index +:+ "/path" in
      match sha256_file (resolved_path manifest_parent reference) with
      | failure _ =>
          [runner_error ErrorCategory_missing_evidence path "RUN-EVIDENCE-FILE"
             "evidence artifact is absent or unreadable"]
      | success digest =>
          error_when (negb (String.eqb digest (ev_sha256 reference)))
            (runner_error ErrorCategory_reference_mismatch path "RUN-EVIDENCE-HASH"
               "evidence bytes do not match the declared SHA-256")
      end ++ file_errors manifest_parent (index + 1) rest
  end.

Definition verify_evidence_files (admission : RunnerAdmission) (manifest_parent : string) :
    list ValidationError :=
  file_errors manifest_parent 0 (ra_evidence admission).

(** ** Admission *)

Definition admit_runner (admission : RunnerAdmission) (trust_anchor : AdmissionTrustAnchor)
    (manifest_parent : string) : Result AdmissionTicket :=
  match validate_admission_fields admission trust_anchor ++
        verify_evidence_files admission manifest_parent with
  | (_ :: _) as errors => failure errors
  | [] =>
      success (mkAdmissionTicket (ra_package admission) (ra_placement admission)
                 (ra_workers admission) (ra_execution_limits admission) (ra_binding_id admission))
  end.

(** ** The command line tool *)

(** What a process prints, and its exit status. *)
Record ProcessOutcome : Set := mkProcessOutcome {
  po_status : Z;
  po_output : string;
  po_error : string
}.

Definition line_break : string := String (Ascii.ascii_of_N 10) EmptyString.

Definition usage : string :=
  "Usage:" +:+ line_break +:+
  "  cpu_prefetch_runner --self-test" +:+ line_break +:+
  "  cpu_prefetch_runner --validate-admission FILE --stand-id ID --binding-id ID" +:+ line_break +:+
  line_break +:+
  "Q13 authorizes implementation and validation only. This executable does not expose a measurement, calibration, pilot, or confirmatory execution command."
  +:+ line_break.

(** [read_file]: [rdbuf] stops silently where the file cannot be read further. *)
Definition read_file (path : string) : Throws string :=
  match read_stream path with
  | None => Threw "cannot open admission document"
  | Some (pieces, _) => Returned (untext ((fun b => Ascii.ascii_of_N (Z.to_N b)) <$> concat pieces))
  end.

Definition print_errors (errors : list ValidationError) : string :=
  String.concat EmptyString
    ((fun error => to_string_ErrorCategory (category error) +:+ " " +:+ rule_id error +:+ " " +:+
        path error +:+ ": " +:+ message error +:+ line_break) <$> errors).

(** [parent_path]: the text before the last separator, without the separators that
    end it; a path below the root has the root. *)
Fixpoint drop_until_slash (reversed : list ascii) : list ascii :=
  match reversed with
  | [] => []
  | c :: rest => if Ascii.eqb c "/" then reversed else drop_until_slash rest
  end.

Fixpoint drop_slashes (reversed : list ascii) : list ascii :=
  match reversed with
  | [] => []
  | c :: rest => if Ascii.eqb c "/" then drop_slashes rest else reversed
  end.

Definition parent_path (path : string) : string :=
  match drop_until_slash (reverse (text path)) with
  | [] => EmptyString
  | slashed =>
      match drop_slashes slashed with
      | [] => "/"
      | parent => untext (reverse parent)
      end
  end.

Definition self_test_passes (repository : RepositoryInfo) : bool :=
  String.eqb (ri_protocol_version repository) kProtocolVersion &&
  negb (str_empty (ri_source_revision repository)) &&
  bool_decide (selected_worker_pair Placement_near = kNearWorkerPair) &&
  bool_decide (selected_worker_pair Placement_far = kFarWorkerPair).

Definition self_test (metadata : BuildMetadata) : ProcessOutcome :=
  if self_test_passes (repository_info metadata) then
    mkProcessOutcome 0 ("runner-self-test: PASS profile=" +:+ kRunnerProfileId +:+
                        " execution=NOT_AUTHORIZED" +:+ line_break) EmptyString
  else mkProcessOutcome 1 EmptyString
         ("runner-self-test: FAIL: build or Q13 policy mismatch" +:+ line_break).

Definition validate_admission_command (metadata : BuildMetadata)
    (manifest_path stand_id binding_id : string) : Throws ProcessOutcome :=
  match read_file manifest_path with
  | Threw what => Threw what
  | Returned document =>
      Returned
        match load_admission document with
        | failure errors => mkProcessOutcome 1 EmptyString (print_errors errors)
        | success admission =>
            match sha256_file "/proc/self/exe" with
            | failure errors => mkProcessOutcome 1 EmptyString (print_errors errors)
            | success binary_sha256 =>
                let repository := repository_info metadata in
                let trust_anchor :=
                  mkAdmissionTrustAnchor (ri_source_revision repository) binary_sha256 stand_id
                    binding_id (ri_source_dirty repository) in
                match admit_runner admission trust_anchor (parent_path manifest_path) with
                | failure errors => mkProcessOutcome 1 EmptyString (print_errors errors)
                | success ticket =>
                    mkProcessOutcome 0
                      ("runner-admission: PASS binding=" +:+ tk_binding_id ticket +:+
                       " state=VALIDATED_FOR_PREPARATION_ONLY execution=NOT_STARTED" +:+ line_break)
                      EmptyString
                end
            end
        end
  end.

(** [run]: the arguments with the name of the program first. *)
Definition run_tool (metadata : BuildMetadata) (argv : list string) : Throws ProcessOutcome :=
  match argv with
  | [_; option] =>
      if String.eqb option "--self-test" then Returned (self_test metadata)
      else if String.eqb option "--help" || String.eqb option "-h" then
        Returned (mkProcessOutcome 0 usage EmptyString)
      else Returned (mkProcessOutcome 2 EmptyString usage)
  | [_; command; manifest_path; stand_option; stand_id; binding_option; binding_id] =>
      if negb (String.eqb command "--validate-admission") ||
         negb (String.eqb stand_option "--stand-id") ||
         negb (String.eqb binding_option "--binding-id") then
        Returned (mkProcessOutcome 2 EmptyString usage)
      else validate_admission_command metadata manifest_path stand_id binding_id
  | _ => Returned (mkProcessOutcome 2 EmptyString usage)
  end.

Definition runner_main (metadata : BuildMetadata) (argv : list string) : ProcessOutcome :=
  match run_tool metadata argv with
  | Returned outcome => outcome
  | Threw what => mkProcessOutcome 1 EmptyString ("runner: FAIL: " +:+ what +:+ line_break)
  end.

End Files.

(** ** Dispatch *)

Inductive DispatchStatus : Set :=
| DispatchStatus_dispatched
| DispatchStatus_package_mismatch.

(** An operation with one instance per package. *)
Definition dispatch_static_package {A : Type} (ticket : AdmissionTicket)
    (operation : QueuePackage -> A -> A) (a : A) : A * DispatchStatus :=
  match tk_package ticket with
  | QueuePackage_r0 => (operation QueuePackage_r0 a, DispatchStatus_dispatched)
  | QueuePackage_r1 => (operation QueuePackage_r1 a, DispatchStatus_dispatched)
  | QueuePackage_r2 => (operation QueuePackage_r2 a, DispatchStatus_dispatched)
  | QueuePackage_l0 => (operation QueuePackage_l0 a, DispatchStatus_dispatched)
  | QueuePackage_l1 => (operation QueuePackage_l1 a, DispatchStatus_dispatched)
  | QueuePackage_nblfq_mpsc | QueuePackage_not_applicable => (a, DispatchStatus_package_mismatch)
  end.

(** [execute_static_measurement] up to the start of its threads, which then run
    the steps of an execution under the limits of the ticket. *)
Definition execute_static_measurement (package : QueuePackage) (ticket : AdmissionTicket)
    (schedule : PreparedScheduleView) (termination : TerminationControl) :
    MeasurementExecutionReport + TerminationControl :=
  if negb (bool_decide (tk_package ticket = package)) then
    inl (failure_report ExecutionFailurePhase_pre_run ExecutionFailureReason_invalid_schedule
           (offered schedule))
  else prepare_execution schedule (tk_execution_limits ticket) termination.

(** ** What an admission certifies *)

Section Admission.

Context {C : Type} `{IncrementalDigest C} `{EvidenceFiles}.

(** A text of 64 lowercase hexadecimal digits. *)
Definition digest_text (t : string) : Prop := exists sha, sha_wf sha /\ t = Sha256_hex sha.

(** A reference that may arm the runner in the epoch of a binding. *)
Record reference_ok (binding_id : string) (reference : EvidenceReference) : Prop := {
  ro_artifact_id : ev_artifact_id reference <> EmptyString;
  ro_path : ev_path reference <> EmptyString;
  ro_sha256 : digest_text (ev_sha256 reference);
  ro_binding : ev_binding_id reference = binding_id;
  ro_immutable : ev_immutable reference = true;
  ro_eligible : ev_eligible reference = true
}.

(** The contract of admission. *)
Record admissible (admission : RunnerAdmission) (anchor : AdmissionTrustAnchor)
    (manifest_parent : string) : Prop := {
  ad_profiles : ra_schema_version admission = kAdmissionSchemaVersion /\
    ra_protocol_version admission = kProtocolVersion /\
    ra_runner_profile_id admission = kRunnerProfileId /\
    ra_cpu_pair_selection_id admission = kCpuPairSelectionId /\
    ra_relax_mapping_id admission = kRelaxMappingId;
  ad_identity : ra_source_revision admission = ta_source_revision anchor /\
    ra_binary_sha256 admission = ta_binary_sha256 anchor /\ ra_stand_id admission = ta_stand_id anchor /\
    ra_binding_id admission = ta_binding_id anchor;
  ad_named : ra_source_revision admission <> EmptyString /\ ra_stand_id admission <> EmptyString /\
    ra_binding_id admission <> EmptyString /\ digest_text (ra_binary_sha256 admission);
  ad_clean : ta_source_dirty anchor = false;
  ad_package : ra_package admission ∈
    [QueuePackage_r0; QueuePackage_r1; QueuePackage_r2; QueuePackage_l0; QueuePackage_l1];
  ad_workers : ra_placement admission = Placement_near /\ ra_workers admission = mkWorkerPair 0 1 \/
    ra_placement admission = Placement_far /\ ra_workers admission = mkWorkerPair 0 26;
  ad_limits : limits_invalid (ra_execution_limits admission) = false;
  ad_kinds : ev_kind <$> ra_evidence admission ≡ₚ kRequiredEvidenceKinds;
  ad_artifacts : NoDup (ev_artifact_id <$> ra_evidence admission);
  ad_references : Forall (reference_ok (ra_binding_id admission)) (ra_evidence admission);
  ad_files : Forall (fun reference =>
    sha256_file (resolved_path manifest_parent reference) = success (ev_sha256 reference))
    (ra_evidence admission)
}.

Lemma digest_text_parses t p : has_value (Sha256_parse t p) = true <-> digest_text t.
Proof.
  destruct (sha256_roundtrip p) as [R1 R2]. split.
  - destruct (Sha256_parse t p) as [sha|] eqn:E; [|done]. intros _. exists sha.
    apply R2 in E as [W <-]. done.
  - intros (sha & W & ->). by rewrite R1.
Qed.

Lemma reference_checks binding_id reference p :
  str_empty (ev_artifact_id reference) = false /\ str_empty (ev_path reference) = false /\
  negb (has_value (Sha256_parse (ev_sha256 reference) p)) = false /\
  negb (String.eqb (ev_binding_id reference) binding_id) = false /\
  negb (ev_immutable reference) = false /\ negb (ev_eligible reference) = false <->
  reference_ok binding_id reference.
Proof.
  rewrite !str_empty_false, !negb_false_iff, String.eqb_eq, digest_text_parses. split.
  - intros (? & ? & ? & ? & ? & ?). by split.
  - by intros [].
Qed.

Lemma evidence_errors_nil binding_id evidence : forall index observed ids,
  evidence_errors binding_id index observed ids evidence = [] <->
  NoDup (ev_kind <$> evidence) /\ (forall k, k ∈ ev_kind <$> evidence -> k ∉ observed) /\
  NoDup (ev_artifact_id <$> evidence) /\ (forall i, i ∈ ev_artifact_id <$> evidence -> i ∉ ids) /\
  Forall (reference_ok binding_id) evidence.
Proof.
  induction evidence as [|reference rest IH]; intros index observed ids; cbn [evidence_errors].
  { split; [|done]. intros _. split_and!; try constructor; by intros ? ?%elem_of_nil. }
  cbv zeta. rewrite !app_nil, !error_when_nil, IH. cbn [fmap list_fmap].
  rewrite orb_false_iff, !bool_decide_eq_false, !NoDup_cons, Forall_cons.
  setoid_rewrite elem_of_cons.
  rewrite <- (reference_checks binding_id reference (evidence_path index +:+ "/sha256")).
  split.
  - intros (K & (E & I) & P & S & B & M & L & N1 & D1 & N2 & D2 & F). split_and!; try done.
    + intros Hk. apply (D1 _ Hk). by left.
    + intros k [->|Hk]; [done|]. intros X. apply (D1 _ Hk). by right.
    + intros Hi. apply (D2 _ Hi). by left.
    + intros i [->|Hi]; [done|]. intros X. apply (D2 _ Hi). by right.
  - intros ((X1 & N1) & D1 & (X2 & N2) & D2 & (E & P & S & B & M & L) & F). split_and!; try done.
    + apply D1. by left.
    + apply D2. by left.
    + intros k Hk [->|X]; [done|]. apply (D1 k); [by right | done].
    + intros i Hi [->|X]; [done|]. apply (D2 i); [by right | done].
Qed.

Lemma required_kinds_all kind : kind ∈ kRequiredEvidenceKinds.
Proof. apply (bool_decide_unpack _). by destruct kind. Qed.

Lemma completeness_nil evidence :
  completeness_errors evidence = [] <-> forall kind, kind ∈ ev_kind <$> evidence.
Proof.
  unfold completeness_errors. split.
  - intros E kind. pose proof (required_kinds_all kind) as I. revert E I.
    induction kRequiredEvidenceKinds as [|k ks IH]; cbn; [by intros _ ?%elem_of_nil|].
    rewrite app_nil, error_when_nil, negb_false_iff, bool_decide_eq_true, elem_of_cons.
    intros [K E] [->|I]; [done|]. by apply IH.
  - intros A. induction kRequiredEvidenceKinds as [|k ks IH]; cbn; [done|].
    by rewrite IH, app_nil_r, error_when_nil, bool_decide_true.
Qed.

Lemma kinds_complete evidence :
  NoDup (ev_kind <$> evidence) /\ (forall kind, kind ∈ ev_kind <$> evidence) <->
  ev_kind <$> evidence ≡ₚ kRequiredEvidenceKinds.
Proof.
  assert (N : NoDup kRequiredEvidenceKinds) by (apply (bool_decide_unpack _); by vm_compute).
  split.
  - intros [D A]. apply NoDup_Permutation; [done | done |]. intros kind.
    split; intros _; [apply required_kinds_all | apply A].
  - intros P. split; [by rewrite P | intros kind; rewrite P; apply required_kinds_all].
Qed.

Lemma file_errors_nil parent evidence : forall index,
  file_errors parent index evidence = [] <->
  Forall (fun reference => sha256_file (resolved_path parent reference) = success (ev_sha256 reference))
    evidence.
Proof.
  induction evidence as [|reference rest IH]; intros index; cbn [file_errors]; [by split|].
  cbv zeta. rewrite app_nil, Forall_cons, IH.
  destruct (sha256_file (resolved_path parent reference)) as [digest|e].
  - rewrite error_when_nil, negb_false_iff, String.eqb_eq. naive_solver.
  - split; [by intros [? _] | by intros [? _]].
Qed.

Lemma placement_nil admission : worker_errors admission = [] <->
  ra_placement admission = Placement_near /\ ra_workers admission = mkWorkerPair 0 1 \/
  ra_placement admission = Placement_far /\ ra_workers admission = mkWorkerPair 0 26.
Proof.
  unfold worker_errors, selected_worker_pair, kNearWorkerPair, kFarWorkerPair.
  repeat case_bool_decide; cbn [negb andb error_when]; intuition congruence.
Qed.

Lemma exact_nil observed expected p rule : exact observed expected p rule = [] <-> observed = expected.
Proof. unfold exact. by rewrite error_when_nil, negb_false_iff, String.eqb_eq. Qed.

Lemma nonempty_nil value p rule : require_nonempty value p rule = [] <-> value <> EmptyString.
Proof. unfold require_nonempty. by rewrite error_when_nil, str_empty_false. Qed.

Lemma supported_spec package : supported_package package = true <->
  package ∈ [QueuePackage_r0; QueuePackage_r1; QueuePackage_r2; QueuePackage_l0; QueuePackage_l1].
Proof.
  split; intros S.
  - apply (bool_decide_unpack _). by destruct package.
  - repeat (apply elem_of_cons in S as [->|S]; [done|]). by apply elem_of_nil in S.
Qed.

Lemma admissible_checks admission anchor parent :
  validate_admission_fields admission anchor ++ verify_evidence_files admission parent = [] <->
  admissible admission anchor parent.
Proof.
  unfold validate_admission_fields, verify_evidence_files.
  rewrite !app_nil, !exact_nil, !nonempty_nil, !error_when_nil, !negb_false_iff, placement_nil,
    file_errors_nil, evidence_errors_nil, completeness_nil, digest_text_parses, supported_spec.
  split.
  - intros ((V1 & V2 & V3 & V4 & V5 & N1 & N2 & N3 & N4 & I1 & I2 & I3 & I4 & D & P & W & L &
             (K & _ & A & _ & R) & Q) & F).
    split; try done. by apply kinds_complete.
  - intros [(V1 & V2 & V3 & V4 & V5) (I1 & I2 & I3 & I4) (N1 & N2 & N3 & N4) D P W L K A R F].
    apply kinds_complete in K as [K Q].
    split_and!; try done; by intros ? _ ?%elem_of_nil.
Qed.

End Admission.

(** ** What a loaded document is *)

Lemma logged_nil {A B : Type} (e : Logged A) (k : A -> Logged B) y :
  lbind e k = (y, []) <-> exists x, e = (x, []) /\ k x = (y, []).
Proof.
  unfold lbind. destruct e as [x errors]. destruct (k x) as [z later] eqn:K. split.
  - intros [= -> [-> ->]%app_nil]. exists x. by rewrite K.
  - intros (x' & [= <- ->] & E). rewrite K in E. by injection E as -> ->.
Qed.

Lemma typed_field_nil {A : Type} (get : Value -> option A) absent rule message object name p a :
  typed_field get absent rule message object name p = (a, []) <->
  exists value, map_find name object = Some value /\ get value = Some a.
Proof.
  unfold typed_field. rewrite logged_nil. unfold field. destruct (map_find name object) as [value|].
  - split.
    + intros (x & [= <-] & E). exists value. split; [done|].
      destruct (get value); [by injection E as -> | done].
    + intros (v & [= <-] & E). exists (Some value). by rewrite E.
  - split; [by intros (x & [=] & _) | by intros (v & [=] & _)].
Qed.

Lemma reject_unknown_nil object accepted p :
  reject_unknown object accepted p = (tt, []) <-> Forall (fun member => fst member ∈ accepted) object.
Proof.
  unfold reject_unknown. split.
  - intros [= E]. induction object as [|member object IH]; [constructor|]. cbn in E.
    apply app_nil in E as [E1 E2].
    apply error_when_nil, negb_false_iff, existsb_exists in E1 as (n & I & <-%String.eqb_eq).
    constructor; [by apply list_elem_of_In | by apply IH].
  - intros F. f_equal. induction F as [|member object I _ IH]; [done|]. cbn.
    rewrite IH, app_nil_r, error_when_nil, negb_false_iff, existsb_exists.
    exists (fst member). rewrite String.eqb_refl. by rewrite <- list_elem_of_In.
Qed.

(** A member of an object, read as a type. *)
Definition member_has {A : Type} (get : Value -> option A) (object : list (string * Value)) (name : string)
    (a : A) : Prop :=
  exists value, map_find name object = Some value /\ get value = Some a.

(** A member that names an enumerator; the empty name stands for a default. *)
Definition member_enum {E : Type} (parse : string -> string -> Result E) (absent : E)
    (object : list (string * Value)) (name : string) (e : E) : Prop :=
  exists token, member_has as_string object name token /\
    (token = EmptyString /\ e = absent \/ token <> EmptyString /\ parse token ("$/" +:+ name) = success e).

Definition only_members (object : list (string * Value)) (accepted : list string) : Prop :=
  Forall (fun member => fst member ∈ accepted) object.

Record limits_described (object : list (string * Value)) (limits : ExecutionLimits) : Prop := {
  ld_only : only_members object limit_fields;
  ld_controller : member_has unsigned_of object "controller_start_poll_limit"
    (el_controller_start_poll_limit limits);
  ld_worker : member_has unsigned_of object "worker_start_poll_limit" (el_worker_start_poll_limit limits);
  ld_producer : member_has unsigned_of object "producer_due_poll_limit_per_arrival"
    (el_producer_due_poll_limit_per_arrival limits);
  ld_consumer : member_has unsigned_of object "consumer_empty_poll_limit_before_finish"
    (el_consumer_empty_poll_limit_before_finish limits);
  ld_drain : member_has unsigned_of object "drain_poll_limit" (el_drain_poll_limit limits)
}.

Record reference_described (reference : EvidenceReference) (object : list (string * Value)) : Prop := {
  rd_only : only_members object evidence_fields;
  rd_kind : member_has as_string object "kind" (to_string_EvidenceKind (ev_kind reference));
  rd_artifact_id : member_has as_string object "artifact_id" (ev_artifact_id reference);
  rd_path : member_has as_string object "path" (ev_path reference);
  rd_sha256 : member_has as_string object "sha256" (ev_sha256 reference);
  rd_binding_id : member_has as_string object "binding_id" (ev_binding_id reference);
  rd_immutable : member_has as_bool object "immutable" (ev_immutable reference);
  rd_eligible : member_has as_bool object "eligible" (ev_eligible reference)
}.

(** The document of an admission: these members and no others. *)
Record admission_described (root : list (string * Value)) (admission : RunnerAdmission) : Prop := {
  as_only : only_members root root_fields;
  as_schema_version : member_has as_string root "schema_version" (ra_schema_version admission);
  as_protocol_version : member_has as_string root "protocol_version" (ra_protocol_version admission);
  as_runner_profile_id : member_has as_string root "runner_profile_id" (ra_runner_profile_id admission);
  as_cpu_pair_selection_id :
    member_has as_string root "cpu_pair_selection_id" (ra_cpu_pair_selection_id admission);
  as_relax_mapping_id : member_has as_string root "relax_mapping_id" (ra_relax_mapping_id admission);
  as_source_revision : member_has as_string root "source_revision" (ra_source_revision admission);
  as_binary_sha256 : member_has as_string root "binary_sha256" (ra_binary_sha256 admission);
  as_stand_id : member_has as_string root "stand_id" (ra_stand_id admission);
  as_binding_id : member_has as_string root "binding_id" (ra_binding_id admission);
  as_package : member_enum parse_queue_package QueuePackage_not_applicable root "package"
    (ra_package admission);
  as_placement : member_enum parse_placement Placement_not_applicable root "placement"
    (ra_placement admission);
  as_workers : exists producer consumer, member_has unsigned_of root "producer_cpu" producer /\
    member_has unsigned_of root "consumer_cpu" consumer /\ producer <= u32_max /\ consumer <= u32_max /\
    ra_workers admission = mkWorkerPair producer consumer;
  as_limits : exists object, member_has as_object root "execution_limits" object /\
    limits_described object (ra_execution_limits admission);
  as_evidence : exists values, member_has as_array root "evidence" values /\
    Forall2 (fun reference value => exists object, as_object value = Some object /\
       reference_described reference object) (ra_evidence admission) values
}.

Lemma parse_enum_why {E : Type} token p rule (values : list (string * E)) :
  parse_enum_value token p rule values <> failure [].
Proof. induction values as [|[name value] values IH]; cbn; [done|]. by case_bool_decide. Qed.

Lemma enum_or_nil {E : Type} (parse : string -> string -> Result E) token p absent e :
  parse token p <> failure [] ->
  enum_or parse token p absent = (e, []) <->
  token = EmptyString /\ e = absent \/ token <> EmptyString /\ parse token p = success e.
Proof.
  intros W. unfold enum_or. rewrite <- str_empty_false. destruct token as [|c token]; cbn [str_empty].
  - split; [intros [= <-]; auto | intros [[_ ->]|[? _]]; done].
  - destruct (parse _ p) as [v|errors]; naive_solver.
Qed.

Lemma evidence_kind_parses kind p :
  parse_evidence_kind (to_string_EvidenceKind kind) p = success kind.
Proof. by destruct kind. Qed.

Lemma parse_evidence_kind_inv token p kind :
  parse_evidence_kind token p = success kind -> token = to_string_EvidenceKind kind.
Proof.
  unfold parse_evidence_kind. destruct (find _ _) as [k|] eqn:F; [|done]. intros [= <-].
  apply find_some in F as [_ F]. symmetry. by apply String.eqb_eq.
Qed.

(** Chains of fields: the value of each, or the first error. *)
Ltac read_fields :=
  repeat match goal with
  | H : lbind _ _ = (_, []) |- _ =>
      let x := fresh "x" in let E := fresh "E" in let K := fresh "K" in
      apply logged_nil in H as (x & E & K)
  | H : reject_unknown _ _ _ = (?u, []) |- _ => destruct u; apply reject_unknown_nil in H
  | H : string_field _ _ _ = _ |- _ => apply typed_field_nil in H
  | H : bool_field _ _ _ = _ |- _ => apply typed_field_nil in H
  | H : uint_field _ _ _ = _ |- _ => apply typed_field_nil in H
  end.

Ltac write_fields :=
  repeat match goal with
  | |- lbind _ _ = (_, []) => apply logged_nil; eexists; split
  | |- reject_unknown _ _ _ = (_, []) => by apply reject_unknown_nil
  | |- string_field _ _ _ = _ => by apply typed_field_nil
  | |- bool_field _ _ _ = _ => by apply typed_field_nil
  | |- uint_field _ _ _ = _ => by apply typed_field_nil
  end.

Lemma field_nil object name p value :
  field object name p = (Some value, []) <-> map_find name object = Some value.
Proof. unfold field. destruct (map_find name object); naive_solver. Qed.

Lemma field_found object name p r : field object name p = (r, []) ->
  exists value, r = Some value /\ map_find name object = Some value.
Proof. unfold field. destruct (map_find name object); [intros [= <-]; eauto | done]. Qed.

Lemma object_found value p r : object_of value p = (r, []) ->
  exists object, r = Some object /\ as_object value = Some object.
Proof. unfold object_of. destruct (as_object value); [intros [= <-]; eauto | done]. Qed.

Lemma limits_field_nil root limits : limits_field root = (limits, []) <->
  exists object, member_has as_object root "execution_limits" object /\ limits_described object limits.
Proof.
  unfold limits_field. rewrite logged_nil. split.
  - intros (r & F & K). apply field_found in F as (value & -> & F). cbv zeta in K.
    apply logged_nil in K as (o & O & K). apply object_found in O as (object & -> & O).
    exists object. split; [by exists value|]. read_fields.
    match goal with H : (_, []) = (limits, []) |- _ => injection H as <- end. by split.
  - intros (object & (value & F & O) & [D1 D2 D3 D4 D5 D6]). exists (Some value).
    rewrite field_nil. split; [done|]. cbv zeta. apply logged_nil. exists (Some object).
    split; [unfold object_of; by rewrite O|]. write_fields. by destruct limits.
Qed.

Lemma evidence_item_nil value p r : evidence_item value p = (r, []) <->
  exists reference object, r = Some reference /\ as_object value = Some object /\
    reference_described reference object.
Proof.
  unfold evidence_item. rewrite logged_nil. split.
  - intros (o & O & K). apply object_found in O as (object & -> & O). read_fields.
    destruct (parse_evidence_kind _ _) as [kind|errors] eqn:P.
    + apply parse_evidence_kind_inv in P as ->. read_fields.
      match goal with H : (_, []) = (r, []) |- _ => injection H as <- end.
      eexists _, object. split; [done|]. split; [done|]. by split.
    + exfalso. match goal with H : (None, _) = (r, []) |- _ => injection H as <- -> end.
      unfold parse_evidence_kind in P. by destruct (find _ _).
  - intros (reference & object & -> & O & [D1 D2 D3 D4 D5 D6 D7 D8]). exists (Some object).
    split; [unfold object_of; by rewrite O|]. write_fields.
    rewrite evidence_kind_parses. write_fields. by destruct reference.
Qed.

Lemma evidence_items_nil values : forall index evidence, evidence_items index values = (evidence, []) <->
  Forall2 (fun reference value => exists object, as_object value = Some object /\
    reference_described reference object) evidence values.
Proof.
  induction values as [|value values IH]; intros index evidence; cbn [evidence_items].
  { split; [by intros [= <-] | intros F; by inversion F]. }
  rewrite logged_nil. split.
  - intros (item & I & K). apply evidence_item_nil in I as (reference & object & -> & O & D).
    apply logged_nil in K as (others & R & [= <-]). apply IH in R. constructor; [by exists object | done].
  - intros F. inversion F as [|reference v others vs (object & O & D) R]; subst.
    exists (Some reference). split.
    + apply evidence_item_nil. by exists reference, object.
    + apply logged_nil. exists others. split; [by apply IH | done].
Qed.

Lemma evidence_field_nil root evidence : evidence_field root = (evidence, []) <->
  exists values, member_has as_array root "evidence" values /\
    Forall2 (fun reference value => exists object, as_object value = Some object /\
       reference_described reference object) evidence values.
Proof.
  unfold evidence_field. rewrite logged_nil. split.
  - intros (r & F & K). apply field_found in F as (value & -> & F).
    destruct (as_array value) as [values|] eqn:A; [|done]. apply evidence_items_nil in K.
    exists values. split; [by exists value | done].
  - intros (values & (value & F & A) & D). exists (Some value). rewrite field_nil. split; [done|].
    rewrite A. by apply evidence_items_nil.
Qed.

Lemma workers_field_nil root workers : workers_field root = (workers, []) <->
  exists producer consumer, member_has unsigned_of root "producer_cpu" producer /\
    member_has unsigned_of root "consumer_cpu" consumer /\ producer <= u32_max /\ consumer <= u32_max /\
    workers = mkWorkerPair producer consumer.
Proof.
  unfold workers_field. split.
  - intros H. read_fields. destruct (_ || _) eqn:O; [done|]. apply orb_false_iff in O as [O1 O2].
    match goal with H : (_, []) = (workers, []) |- _ => injection H as <- end.
    eexists _, _. split_and!; [done | done | lia | lia | done].
  - intros (producer & consumer & P & Q & L1 & L2 & ->). write_fields.
    destruct (_ || _) eqn:O; [|done]. apply orb_true_iff in O. lia.
Qed.

Lemma admission_of_nil root admission :
  admission_of root = (admission, []) <-> admission_described root admission.
Proof.
  unfold admission_of. split.
  - intros H. repeat (apply logged_nil in H as (? & ? & H)). injection H as <-.
    split; read_fields; cbn [ra_schema_version ra_protocol_version ra_runner_profile_id
      ra_cpu_pair_selection_id ra_relax_mapping_id ra_source_revision ra_binary_sha256 ra_stand_id
      ra_binding_id ra_package ra_placement ra_workers ra_execution_limits ra_evidence]; try done.
    + eexists. split; [done|]. apply enum_or_nil; [apply parse_enum_why | done].
    + eexists. split; [done|]. apply enum_or_nil; [apply parse_enum_why | done].
    + by apply workers_field_nil.
    + by apply limits_field_nil.
    + by apply evidence_field_nil.
  - intros [D1 D2 D3 D4 D5 D6 D7 D8 D9 D10 (pt & P1 & P2) (lt & L1 & L2) W L V].
    apply workers_field_nil in W. apply limits_field_nil in L. apply evidence_field_nil in V.
    write_fields.
    all: try (apply enum_or_nil; [apply parse_enum_why | done]).
    all: try done. by destruct admission.
Qed.

(** What a loaded admission is. [load_admission] accepts a text exactly if it is
    a JSON document whose root object has the fifteen members of an admission and
    no other, each of its type: texts, the names of a package and of a placement,
    CPU numbers of 32 bits, an object of exactly the five unsigned limits, and an
    array of objects that have exactly the seven members of an evidence reference
    with the name of a registered kind; and the admission it returns is the one
    these members describe. *)
Theorem load_admission_exact document admission :
  load_admission document = success admission <->
  exists root, parse document = success (Value_object root) /\ admission_described root admission.
Proof.
  unfold load_admission. split.
  - destruct (parse document) as [value|] eqn:P; [|done].
    destruct (object_of value "$") as [root errors] eqn:O. destruct root as [root|]; [|done].
    destruct (admission_of root) as [a [|e es]] eqn:A; [|done]. intros [= <-].
    exists root. split; [|by apply admission_of_nil].
    unfold object_of in O. destruct value; try done. by injection O as -> <-.
  - intros (root & -> & D). cbn [object_of as_object]. apply admission_of_nil in D. by rewrite D.
Qed.

(** ** The ticket *)

Section Tickets.

Context {C : Type} (sha256 : list Z -> list Z) `{DigestLaws C sha256} `{EvidenceFiles}.

Lemma update_all_spec pieces context context' :
  update_all context pieces = Some context' -> absorbed context' = absorbed context ++ concat pieces.
Proof.
  revert context. induction pieces as [|[|b piece] pieces IH]; intros context; cbn [update_all concat].
  - intros [= <-]. by rewrite app_nil_r.
  - apply IH.
  - destruct (evp_update context (b :: piece)) as [c|] eqn:U; [|done]. intros E%IH.
    apply evp_update_law in U. by rewrite E, U, <- app_assoc.
Qed.

(** The regular file under a name holds bytes with this digest. *)
Definition file_attested (path digest : string) : Prop :=
  symlink_status path = Some FileType_regular /\
  exists pieces, read_stream path = Some (pieces, true) /\
    digest = Sha256_hex (mkSha256 (sha256 (concat pieces))).

Lemma sha256_file_attests path digest : sha256_file path = success digest -> file_attested path digest.
Proof.
  unfold sha256_file. destruct (symlink_status path) as [type|] eqn:S; [|done]. cbv zeta.
  destruct (bool_decide_reflect (type = FileType_regular)) as [->|]; [|done]. cbn [andb negb].
  destruct (negb _); [done|]. destruct (read_stream path) as [[pieces complete]|] eqn:R; [|done].
  destruct evp_new as [c|]; [|done]. destruct (evp_init c) as [c'|] eqn:I; [|done].
  destruct (update_all c' pieces) as [c''|] eqn:U; [|done]. destruct complete; [|done]. cbn [negb].
  destruct (evp_final c'') as [d|] eqn:F; [|done]. destruct (negb _); [done|]. intros [= <-].
  split; [done|]. exists pieces. split; [done|]. apply evp_final_law in F as ->.
  apply update_all_spec in U. apply evp_init_law in I. by rewrite U, I.
Qed.

(** C11. What an admission ticket certifies. [admit_runner] issues a ticket exactly if
    the admission names the accepted profiles, matches the trust anchor in source
    revision, binary digest, stand and binding, the source is clean, the package is
    one of the five static ones, the workers are the registered pair of CPUs of the
    placement, all limits are nonzero, and every one of the twenty required kinds of
    evidence is referenced exactly once, under distinct artifacts, immutable,
    eligible and bound to the epoch, each reference with the digest computed from
    its file; the ticket then carries the package, placement, CPUs, limits and
    binding of the admission. Every file behind a ticket is a regular file, no
    symbolic link, and was read completely: the digest is that of all its bytes. *)
Theorem admission_exact admission anchor parent ticket :
  (admit_runner admission anchor parent = success ticket <->
   admissible admission anchor parent /\
   ticket = mkAdmissionTicket (ra_package admission) (ra_placement admission) (ra_workers admission)
              (ra_execution_limits admission) (ra_binding_id admission)) /\
  (admit_runner admission anchor parent = success ticket ->
   Forall (fun reference => file_attested (resolved_path parent reference) (ev_sha256 reference))
     (ra_evidence admission)).
Proof.
  unfold admit_runner. rewrite <- admissible_checks.
  destruct (validate_admission_fields admission anchor ++ verify_evidence_files admission parent)
    as [|e es] eqn:E; [|naive_solver].
  split; [naive_solver|]. intros _. apply admissible_checks in E.
  eapply Forall_impl; [exact (ad_files _ _ _ E)|]. intros reference. apply sha256_file_attests.
Qed.

Lemma admitted_ticket admission anchor parent ticket :
  admit_runner admission anchor parent = success ticket ->
  tk_package ticket ∈ [QueuePackage_r0; QueuePackage_r1; QueuePackage_r2; QueuePackage_l0; QueuePackage_l1] /\
  limits_invalid (tk_execution_limits ticket) = false /\
  wp_producer_cpu (tk_workers ticket) <> wp_consumer_cpu (tk_workers ticket).
Proof.
  unfold admit_runner. destruct (_ ++ _) as [|e es] eqn:E; [|done]. intros [= <-].
  apply admissible_checks in E. destruct E as [_ _ _ _ P W L _ _ _ _]. split_and!; [done | done |].
  cbn. destruct W as [[_ ->]|[_ ->]]; done.
Qed.

(** A ticket reaches its own measurement and no other. Dispatching a ticket
    always runs the operation, once, for the package of the ticket; the measurement
    of that package is then exactly the executor's on the admitted limits, which it
    never refuses as invalid, so that with a legal schedule its threads start; and the measurement of any other package fails
    before it touches the schedule. The two workers never share a CPU. *)
Theorem ticket_dispatch admission anchor parent ticket schedule termination :
  admit_runner admission anchor parent = success ticket ->
  (forall (A : Type) (operation : QueuePackage -> A -> A) (a : A),
     dispatch_static_package ticket operation a =
     (operation (tk_package ticket) a, DispatchStatus_dispatched)) /\
  execute_static_measurement (tk_package ticket) ticket schedule termination =
    prepare_execution schedule (ra_execution_limits admission) termination /\
  (validate_prepared_schedule schedule = [] ->
   exists started, execute_static_measurement (tk_package ticket) ticket schedule termination = inr started) /\
  (forall package, package <> tk_package ticket ->
     execute_static_measurement package ticket schedule termination =
     inl (failure_report ExecutionFailurePhase_pre_run ExecutionFailureReason_invalid_schedule
            (offered schedule))) /\
  wp_producer_cpu (tk_workers ticket) <> wp_consumer_cpu (tk_workers ticket).
Proof.
  intros A. destruct (admitted_ticket _ _ _ _ A) as (P & L & W).
  assert (X : execute_static_measurement (tk_package ticket) ticket schedule termination =
              prepare_execution schedule (tk_execution_limits ticket) termination)
    by (unfold execute_static_measurement; by rewrite bool_decide_true).
  split_and!; try done.
  - intros B operation a. unfold dispatch_static_package.
    repeat (apply elem_of_cons in P as [->|P]; [done|]). by apply elem_of_nil in P.
  - rewrite X. unfold admit_runner in A. destruct (_ ++ _); [|done]. by injection A as <-.
  - rewrite X. unfold prepare_execution. intros ->. rewrite L. by eexists.
  - intros package N. unfold execute_static_measurement. by rewrite bool_decide_false.
Qed.

(** The admission command cannot succeed on Linux. [--validate-admission] hashes
    the running program as [/proc/self/exe] with [sha256_file], which refuses
    symbolic links; where that name is one, as the kernel documents, the command
    never exits with status 0 and prints no pass, whatever the document, the
    evidence and the build are. *)
Theorem runner_refuses_itself metadata program manifest_path stand_id binding_id :
  symlink_status "/proc/self/exe" = Some FileType_symlink ->
  let outcome := runner_main metadata
    [program; "--validate-admission"; manifest_path; "--stand-id"; stand_id; "--binding-id"; binding_id] in
  po_status outcome = 1 /\ po_output outcome = EmptyString.
Proof.
  intros L. cbv zeta. unfold runner_main, run_tool. cbn [String.eqb negb orb].
  unfold validate_admission_command. destruct (read_file manifest_path) as [document|what]; [|done].
  destruct (load_admission document); [|done].
  assert (E : sha256_file "/proc/self/exe" =
    file_error "RUN-FILE-REGULAR" "evidence must be an existing non-symlink regular file")
    by (unfold sha256_file; by rewrite L).
  by rewrite E.
Qed.

End Tickets.

(** ** An admission that passes *)

Definition attached_evidence (kind : EvidenceKind) : EvidenceReference :=
  let id := to_string_EvidenceKind kind in
  mkEvidenceReference kind id id (Sha256_hex (mkSha256 (sample_sha (string_bytes ("evidence/" +:+ id)))))
    "epoch" true true.

Definition sample_admission (package : QueuePackage) : RunnerAdmission :=
  mkRunnerAdmission kAdmissionSchemaVersion kProtocolVersion kRunnerProfileId kCpuPairSelectionId
    kRelaxMappingId "revision" (Sha256_hex (mkSha256 (sample_sha []))) "stand" "epoch" package
    Placement_far (mkWorkerPair 0 26) (mkExecutionLimits 8 8 8 8 8)
    (attached_evidence <$> kRequiredEvidenceKinds).

Definition sample_anchor : AdmissionTrustAnchor :=
  mkAdmissionTrustAnchor "revision" (Sha256_hex (mkSha256 (sample_sha []))) "stand" "epoch" false.

Definition sample_ticket : AdmissionTicket :=
  mkAdmissionTicket QueuePackage_l1 Placement_far (mkWorkerPair 0 26) (mkExecutionLimits 8 8 8 8 8) "epoch".

(** Its document. *)
Definition sample_admission_value (admission : RunnerAdmission) (package placement : string) : Value :=
  let limits := ra_execution_limits admission in
  Value_object (map_of
    [("schema_version", string_value (ra_schema_version admission));
     ("protocol_version", string_value (ra_protocol_version admission));
     ("runner_profile_id", string_value (ra_runner_profile_id admission));
     ("cpu_pair_selection_id", string_value (ra_cpu_pair_selection_id admission));
     ("relax_mapping_id", string_value (ra_relax_mapping_id admission));
     ("source_revision", string_value (ra_source_revision admission));
     ("binary_sha256", string_value (ra_binary_sha256 admission));
     ("stand_id", string_value (ra_stand_id admission));
     ("binding_id", string_value (ra_binding_id admission));
     ("package", string_value package); ("placement", string_value placement);
     ("producer_cpu", uint_value (wp_producer_cpu (ra_workers admission)));
     ("consumer_cpu", uint_value (wp_consumer_cpu (ra_workers admission)));
     ("execution_limits", Value_object (map_of
        (zip limit_fields (uint_value <$>
           [el_controller_start_poll_limit limits; el_worker_start_poll_limit limits;
            el_producer_due_poll_limit_per_arrival limits;
            el_consumer_empty_poll_limit_before_finish limits; el_drain_poll_limit limits]))));
     ("evidence", Value_array ((fun reference => Value_object (map_of
        [("kind", string_value (to_string_EvidenceKind (ev_kind reference)));
         ("artifact_id", string_value (ev_artifact_id reference));
         ("path", string_value (ev_path reference)); ("sha256", string_value (ev_sha256 reference));
         ("binding_id", string_value (ev_binding_id reference));
         ("immutable", Value_bool (ev_immutable reference));
         ("eligible", Value_bool (ev_eligible reference))])) <$> ra_evidence admission))]).

Definition admission_text : string :=
  match canonicalize (sample_admission_value (sample_admission QueuePackage_l1) "L1" "FAR") with
  | success t => t
  | failure _ => EmptyString
  end.

Lemma admission_text_loads :
  load_admission admission_text = success (sample_admission QueuePackage_l1).
Proof. vm_compute. reflexivity. Qed.

(** The document, and otherwise regular files that hold their own names; the
    running program is named by a symbolic link. *)
#[export] Instance sample_files : EvidenceFiles := {
  symlink_status path :=
    Some (if String.eqb path "/proc/self/exe" then FileType_symlink else FileType_regular);
  read_stream path :=
    Some ([string_bytes (if String.eqb path "evidence/admission" then admission_text else path); []], true)
}.

Lemma sample_admitted :
  admit_runner (C := list Z) (sample_admission QueuePackage_l1) sample_anchor "evidence" =
  success sample_ticket.
Proof. vm_compute. reflexivity. Qed.

Lemma admission_exact_witness :
  admissible (C := list Z) (sample_admission QueuePackage_l1) sample_anchor "evidence" /\
  Forall (fun reference => file_attested sample_sha (resolved_path "evidence" reference)
                             (ev_sha256 reference)) (attached_evidence <$> kRequiredEvidenceKinds).
Proof.
  destruct (admission_exact sample_sha (sample_admission QueuePackage_l1) sample_anchor "evidence"
              sample_ticket) as [E F].
  split; [exact (proj1 (proj1 E sample_admitted)) | exact (F sample_admitted)].
Defined.

Lemma ticket_dispatch_witness :
  dispatch_static_package sample_ticket (fun package seen => package :: seen) [] =
  ([QueuePackage_l1], DispatchStatus_dispatched) /\
  exists started, execute_static_measurement QueuePackage_l1 sample_ticket example_schedule
    (mkTerminationControl 1 64) = inr started.
Proof.
  destruct (ticket_dispatch (C := list Z) (sample_admission QueuePackage_l1) sample_anchor "evidence"
              sample_ticket example_schedule (mkTerminationControl 1 64) sample_admitted)
    as (D & _ & S & _).
  split; [exact (D _ _ [])|]. apply S. vm_compute. reflexivity.
Defined.

Definition sample_metadata : BuildMetadata :=
  mkBuildMetadata kProtocolVersion "revision" "rev" false "compiler" "library".

(** The document loads and its admission is accepted, and still the command fails. *)
Lemma runner_refuses_itself_witness :
  read_file "evidence/admission" = Returned admission_text /\
  parent_path "evidence/admission" = "evidence"%string /\
  po_status (runner_main (C := list Z) sample_metadata
    ["runner"; "--validate-admission"; "evidence/admission"; "--stand-id"; "stand"; "--binding-id"; "epoch"])
  = 1.
Proof.
  split; [vm_compute; reflexivity|]. split; [vm_compute; reflexivity|].
  exact (proj1 (runner_refuses_itself (C := list Z) sample_metadata "runner" "evidence/admission" "stand"
                  "epoch" eq_refl)).
Defined.
