(* ===== verification/LinuxInventory.v ===== *)
(** * The Linux inventory

    Models [platform/linux_inventory.hpp], [src/platform/linux_inventory.cpp] and
    [tools/stand_preflight_main.cpp]: the parsers of the texts of procfs and sysfs,
    [parse_linux_snapshot], which builds the platform inventory from a snapshot of
    files, [LinuxInventoryProvider::collect], which reads the files, and the
    read-only command line tool. The files, [uname] and [sysconf] are a class, and
    what the compiler defines is a parameter. *)

From stdpp Require Import prelude list strings sorting.
From Stdlib Require Import ZArith Lia Ascii.
From S2P Require Import Prelude Validation Model Bytes Json JsonParsing BlockPlanning PlatformControl Runner.

#[local] Open Scope Z_scope.

(** ** Texts *)

Definition inventory_error (category : PlatformErrorCategory) (path rule message : string) :
    PlatformError :=
  mkPlatformError category path rule message.

(** [std::isspace] in the C locale. *)
Definition c_isspace (c : ascii) : bool :=
  let code := char_code c in (code =? 32) || (9 <=? code) && (code <=? 13).

Fixpoint drop_spaces (t : list ascii) : list ascii :=
  match t with
  | [] => []
  | c :: rest => if c_isspace c then drop_spaces rest else t
  end.

Definition trim_text (t : list ascii) : list ascii := reverse (drop_spaces (reverse (drop_spaces t))).

Definition trim (t : string) : string := untext (trim_text (text t)).

(** [std::from_chars] of a whole text: decimal digits whose value fits. *)
Definition from_chars_unsigned (max : Z) (t : list ascii) : option Z :=
  match t with
  | [] => None
  | _ => if forallb json_is_digit t && (decimal_value t <=? max) then Some (decimal_value t) else None
  end.

Definition from_chars_int32 (t : list ascii) : option Z :=
  match t with
  | "-"%char :: digits => Z.opp <$> from_chars_unsigned (2 ^ 31) digits
  | _ => from_chars_unsigned (2 ^ 31 - 1) t
  end.

Definition parse_integer (from_chars : list ascii -> option Z) (t : list ascii) (path rule : string) :
    PlatformResult Z :=
  match from_chars (trim_text t) with
  | Some value => PlatformSuccess value
  | None => PlatformFailure [inventory_error PlatformErrorCategory_parse_error path rule
                                "expected a canonical decimal integer"]
  end.

Definition parse_u32 : list ascii -> string -> string -> PlatformResult Z :=
  parse_integer (from_chars_unsigned u32_max).

Definition parse_u64 : list ascii -> string -> string -> PlatformResult Z :=
  parse_integer (from_chars_unsigned u64_max).

(** ** CPU lists *)

(** The tokens between commas; the loop stops at the end of the text, so that
    nothing follows a last comma. *)
Fixpoint cpu_tokens (token t : list ascii) : list (list ascii) :=
  match t with
  | [] => match token with [] => [] | _ => [token] end
  | c :: rest =>
      if Ascii.eqb c "," then token :: cpu_tokens [] rest else cpu_tokens (token ++ [c]) rest
  end.

(** The text before the first dash, and the text after it if there is one. *)
Fixpoint split_dash (t : list ascii) : list ascii * option (list ascii) :=
  match t with
  | [] => ([], None)
  | c :: rest =>
      if Ascii.eqb c "-" then ([], Some rest)
      else let '(before, after) := split_dash rest in (c :: before, after)
  end.

(** [std::set::insert]; [None] for a member. *)
Fixpoint set_insert (x : Z) (values : list Z) : option (list Z) :=
  match values with
  | [] => Some [x]
  | y :: rest =>
      if x <? y then Some (x :: values)
      else if y <? x then cons y <$> set_insert x rest
      else None
  end.

(** The loop over a range with its 64-bit counter. *)
Fixpoint insert_range (fuel : nat) (value last : Z) (values : list Z) : option (list Z) :=
  match fuel with
  | O => None
  | S fuel =>
      if value <=? last then
        match set_insert value values with
        | Some values => insert_range fuel (u64_add value 1) last values
        | None => None
        end
      else Some values
  end.

Definition range_fuel (first last : Z) : nat := Z.to_nat (last - first + 2).

Definition parse_token (token : list ascii) (path : string) (values : list Z) :
    PlatformResult (list Z) :=
  let '(before, after) := split_dash token in
  match parse_u32 before path "PLT-CPU-LIST" with
  | PlatformFailure errors => PlatformFailure errors
  | PlatformSuccess first =>
      match (match after with
             | Some after => parse_u32 after path "PLT-CPU-LIST"
             | None => PlatformSuccess first
             end) with
      | PlatformFailure errors => PlatformFailure errors
      | PlatformSuccess last =>
          if last <? first then
            PlatformFailure [inventory_error PlatformErrorCategory_parse_error path
                                "PLT-CPU-LIST-RANGE" "CPU-list range ends before it starts"]
          else
            match insert_range (range_fuel first last) first last values with
            | Some values => PlatformSuccess values
            | None =>
                PlatformFailure [inventory_error PlatformErrorCategory_parse_error path
                                    "PLT-CPU-LIST-DUPLICATE" "CPU list contains a duplicate logical CPU"]
            end
      end
  end.

Fixpoint parse_tokens (tokens : list (list ascii)) (path : string) (values : list Z) :
    PlatformResult (list Z) :=
  match tokens with
  | [] => PlatformSuccess values
  | token :: rest =>
      match parse_token token path values with
      | PlatformSuccess values => parse_tokens rest path values
      | PlatformFailure errors => PlatformFailure errors
      end
  end.

(** An empty text has no token. *)
Definition parse_cpu_list (t path : string) : PlatformResult (list Z) :=
  parse_tokens (cpu_tokens [] (trim_text (text t))) path [].

(** ** Files of a snapshot *)

(** The files of a [std::map], in the order of their names. *)
Record LinuxSnapshot : Set := mkLinuxSnapshot {
  ls_snapshot_id : string;
  ls_captured_at_utc : string;
  ls_kernel_release : string;
  ls_files : list (string * string)
}.

Definition optional_file (snapshot : LinuxSnapshot) (path : string) : option string :=
  trim <$> map_find path (ls_files snapshot).

Definition required_file (snapshot : LinuxSnapshot) (path : string) : PlatformResult string :=
  match map_find path (ls_files snapshot) with
  | Some value => PlatformSuccess (trim value)
  | None => PlatformFailure [inventory_error PlatformErrorCategory_missing_evidence path
                               "PLT-LINUX-REQUIRED-FILE"
                               "required Linux inventory evidence is unavailable"]
  end.

Definition platform_errors_of {A : Type} (r : PlatformResult A) : list PlatformError :=
  match r with PlatformSuccess _ => [] | PlatformFailure errors => errors end.

(** The lines of a text. *)
Fixpoint lines_from (line t : list ascii) : list (list ascii) :=
  match t with
  | [] => match line with [] => [] | _ => [line] end
  | c :: rest =>
      if char_code c =? 10 then line :: lines_from [] rest else lines_from (line ++ [c]) rest
  end.

(** The text before the first colon and after it. *)
Fixpoint split_colon (t : list ascii) : option (list ascii * list ascii) :=
  match t with
  | [] => None
  | c :: rest =>
      if Ascii.eqb c ":" then Some ([], rest)
      else (fun '(before, after) => (c :: before, after)) <$> split_colon rest
  end.

(** The search stops at the first empty line, the end of the first processor. *)
Fixpoint cpuinfo_lines (lines : list (list ascii)) (key : string) : option string :=
  match lines with
  | [] | [] :: _ => None
  | line :: rest =>
      match split_colon line with
      | None => cpuinfo_lines rest key
      | Some (before, after) =>
          if String.eqb (untext (trim_text before)) key then Some (untext (trim_text after))
          else cpuinfo_lines rest key
      end
  end.

Definition cpuinfo_value (cpuinfo key : string) : option string :=
  cpuinfo_lines (lines_from [] (text cpuinfo)) key.

(** The factor of a suffix of a size. *)
Definition size_multiplier (suffix : ascii) : option Z :=
  if Ascii.eqb suffix "K" || Ascii.eqb suffix "k" then Some 1024
  else if Ascii.eqb suffix "M" || Ascii.eqb suffix "m" then Some (1024 * 1024)
  else if Ascii.eqb suffix "G" || Ascii.eqb suffix "g" then Some (1024 * 1024 * 1024)
  else None.

Definition cache_size_bytes (t path : string) : PlatformResult Z :=
  let cleaned := trim_text (text t) in
  match reverse cleaned with
  | [] => PlatformFailure [inventory_error PlatformErrorCategory_parse_error path "PLT-CACHE-SIZE"
                             "cache size must not be empty"]
  | suffix :: reversed =>
      let '(number, multiplier) := match size_multiplier suffix with
                                   | Some multiplier => (reverse reversed, multiplier)
                                   | None => (cleaned, 1)
                                   end in
      match parse_u64 number path "PLT-CACHE-SIZE" with
      | PlatformFailure errors => PlatformFailure errors
      | PlatformSuccess value =>
          if value >? u64_max / multiplier then
            PlatformFailure [inventory_error PlatformErrorCategory_parse_error "$inventory/cache"
                               "PLT-CACHE-SIZE" "cache size overflows uint64 bytes"]
          else PlatformSuccess (u64_mul value multiplier)
      end
  end.

Definition source_value (snapshot : LinuxSnapshot) (name source : string) : EvidenceValue :=
  mkEvidenceValue name source (optional_file snapshot source).

Fixpoint combine_from (snapshot : LinuxSnapshot) (combined : string) (paths : list string) : string :=
  match paths with
  | [] => combined
  | path :: rest =>
      match optional_file snapshot path with
      | None => combine_from snapshot combined rest
      | Some value =>
          combine_from snapshot
            ((if str_empty combined then combined else combined +:+ ";") +:+ path +:+ "=" +:+ value) rest
      end
  end.

Definition combine_optional (snapshot : LinuxSnapshot) (paths : list string) : option string :=
  let combined := combine_from snapshot EmptyString paths in
  if str_empty combined then None else Some combined.

(** What the compiler and its library define. *)
Record CompilerMacros : Set := mkCompilerMacros {
  cm_clang_version : option string;
  cm_gnuc_version : option string;
  cm_libcpp_version : option Z;
  cm_glibcxx : option Z;
  cm_pointer_bytes : Z;
  cm_atomic_pointer_alignment : Z;
  cm_atomic_pointer_lock_free : bool
}.

Definition compiler_identity (macros : CompilerMacros) : string :=
  match cm_clang_version macros, cm_gnuc_version macros with
  | Some version, _ => "Clang " +:+ version
  | None, Some version => "GCC " +:+ version
  | None, None => "unsupported-compiler"
  end.

Definition standard_library_identity (macros : CompilerMacros) : string :=
  match cm_libcpp_version macros, cm_glibcxx macros with
  | Some version, _ => "libc++ " +:+ std_to_string version
  | None, Some version => "libstdc++ " +:+ std_to_string version
  | None, None => "unsupported-standard-library"
  end.

(** [starts_with], [ends_with] and [substr], whose count is a 64-bit difference. *)
Fixpoint starts_with_text (prefix t : list ascii) : bool :=
  match prefix, t with
  | [], _ => true
  | c :: prefix, d :: t => Ascii.eqb c d && starts_with_text prefix t
  | _, [] => false
  end.

Definition ends_with_text (suffix t : list ascii) : bool :=
  starts_with_text (reverse suffix) (reverse t).

Definition substr (t : list ascii) (position count : Z) : list ascii :=
  take (Z.to_nat (Z.min count (Z.of_nat (length t)))) (drop (Z.to_nat position) t).

(** The part of a path between a prefix and a suffix. *)
Definition between (prefix suffix path : string) : option (list ascii) :=
  let t := text path in
  let size s := Z.of_nat (length (text s)) in
  if starts_with_text (text prefix) t && ends_with_text (text suffix) t then
    Some (substr t (size prefix) (u64_sub (u64_sub (size path) (size prefix)) (size suffix)))
  else None.

(** ** NUMA nodes *)

Record NodeScan : Set := mkNodeScan {
  ns_cpu_to_node : list (Z * Z);
  ns_numa_nodes : list NumaNode;
  ns_errors : list PlatformError
}.

Definition cpu_node (cpu : Z) (cpu_to_node : list (Z * Z)) : option Z :=
  snd <$> List.find (fun entry => fst entry =? cpu) cpu_to_node.

(** The CPUs of a node: one that has a node keeps it. *)
Fixpoint assign_node (path : string) (node : Z) (cpus : list Z) (cpu_to_node : list (Z * Z)) :
    list (Z * Z) * list PlatformError :=
  match cpus with
  | [] => (cpu_to_node, [])
  | cpu :: rest =>
      match cpu_node cpu cpu_to_node with
      | Some _ =>
          let '(cpu_to_node, errors) := assign_node path node rest cpu_to_node in
          (cpu_to_node, inventory_error PlatformErrorCategory_parse_error path "PLT-NODE-MEMBERSHIP"
                          "logical CPU belongs to multiple NUMA nodes" :: errors)
      | None => assign_node path node rest ((cpu, node) :: cpu_to_node)
      end
  end.

Definition node_prefix : string := "/sys/devices/system/node/node".
Definition node_suffix : string := "/cpulist".

Definition scan_node (scan : NodeScan) (file : string * string) : NodeScan :=
  let '(path, value) := file in
  match between node_prefix node_suffix path with
  | None => scan
  | Some id_text =>
      match parse_u32 id_text path "PLT-NODE-ID", parse_cpu_list value path with
      | PlatformSuccess node_id, PlatformSuccess cpus =>
          let '(cpu_to_node, errors) := assign_node path node_id cpus (ns_cpu_to_node scan) in
          mkNodeScan cpu_to_node (ns_numa_nodes scan ++ [mkNumaNode node_id cpus]) (ns_errors scan ++ errors)
      | node_id, cpus =>
          mkNodeScan (ns_cpu_to_node scan) (ns_numa_nodes scan)
            (ns_errors scan ++ platform_errors_of node_id ++ platform_errors_of cpus)
      end
  end.

Definition node_le (a b : NumaNode) : Prop := nn_node_id a <= nn_node_id b.

#[export] Instance node_le_dec a b : Decision (node_le a b).
Proof. unfold node_le. apply _. Defined.

Definition scan_nodes (snapshot : LinuxSnapshot) : NodeScan :=
  let scan := fold_left scan_node (ls_files snapshot) (mkNodeScan [] [] []) in
  let nodes := merge_sort node_le (ns_numa_nodes scan) in
  mkNodeScan (ns_cpu_to_node scan) nodes
    (ns_errors scan ++
     match nodes with
     | [] => [inventory_error PlatformErrorCategory_missing_evidence "$snapshot/topology/numa"
                "PLT-NUMA-TOPOLOGY" "NUMA topology must be read rather than inferred"]
     | _ => []
     end).

(** ** Caches *)

Record CacheKey : Set := mkCacheKey {
  ck_level : Z;
  ck_kind : string;
  ck_cpus : list Z
}.

Fixpoint compare_cpus (a b : list Z) : comparison :=
  match a, b with
  | [], [] => Eq
  | [], _ => Lt
  | _, [] => Gt
  | x :: a, y :: b => match x ?= y with Eq => compare_cpus a b | c => c end
  end.

Definition compare_keys (a b : CacheKey) : comparison :=
  match ck_level a ?= ck_level b with
  | Eq => match String.compare (ck_kind a) (ck_kind b) with
          | Eq => compare_cpus (ck_cpus a) (ck_cpus b)
          | c => c
          end
  | c => c
  end.

(** [cache_map.emplace]: the map, and the size it holds for the key. *)
Fixpoint cache_emplace (key : CacheKey) (size : Z) (caches : list (CacheKey * Z)) :
    list (CacheKey * Z) * Z :=
  match caches with
  | [] => ([(key, size)], size)
  | (k, s) :: rest =>
      match compare_keys key k with
      | Lt => ((key, size) :: caches, size)
      | Eq => (caches, s)
      | Gt => let '(rest, held) := cache_emplace key size rest in ((k, s) :: rest, held)
      end
  end.

Record CacheScan : Set := mkCacheScan {
  cs_cache_map : list (CacheKey * Z);
  cs_last_level : Z;
  cs_cache_line_bytes : option Z;
  cs_errors : list PlatformError
}.

Definition data_cache (kind : string) : bool := String.eqb kind "Data" || String.eqb kind "Unified".

Definition cpu_root (cpu : Z) : string := "/sys/devices/system/cpu/cpu" +:+ std_to_string cpu.

Definition add_errors (scan : CacheScan) (errors : list PlatformError) : CacheScan :=
  mkCacheScan (cs_cache_map scan) (cs_last_level scan) (cs_cache_line_bytes scan)
    (cs_errors scan ++ errors).

Definition record_cache (scan : CacheScan) (index_root : string) (key : CacheKey) (size line : Z) :
    CacheScan :=
  let '(cache_map, held) := cache_emplace key size (cs_cache_map scan) in
  mkCacheScan cache_map
    (if data_cache (ck_kind key) then Z.max (cs_last_level scan) (ck_level key)
     else cs_last_level scan)
    (Some line)
    (cs_errors scan ++
     (if held =? size then []
      else [inventory_error PlatformErrorCategory_parse_error index_root "PLT-CACHE-CONSISTENCY"
              "one cache domain has inconsistent sizes"]) ++
     match cs_cache_line_bytes scan with
     | Some known =>
         if known =? line then []
         else [inventory_error PlatformErrorCategory_parse_error index_root
                 "PLT-CACHE-LINE-CONSISTENCY" "cache-line size differs across observed caches"]
     | None => []
     end).

(** The files of one cache; a cache whose files are missing or unreadable is
    reported and left out. *)
Definition scan_cache (snapshot : LinuxSnapshot) (index_root : string) (scan : CacheScan) : CacheScan :=
  let file name := required_file snapshot (index_root +:+ name) in
  match file "/level", file "/type", file "/shared_cpu_list", file "/size",
        file "/coherency_line_size" with
  | PlatformSuccess level_text, PlatformSuccess kind, PlatformSuccess shared_text,
    PlatformSuccess size_text, PlatformSuccess line_text =>
      match parse_u32 (text level_text) index_root "PLT-CACHE-LEVEL",
            parse_cpu_list shared_text index_root, cache_size_bytes size_text index_root,
            parse_u64 (text line_text) index_root "PLT-CACHE-LINE" with
      | PlatformSuccess level, PlatformSuccess shared, PlatformSuccess size, PlatformSuccess line =>
          record_cache scan index_root (mkCacheKey level (trim kind) shared) size line
      | level, shared, size, line =>
          add_errors scan (platform_errors_of level ++ platform_errors_of shared ++
                           platform_errors_of size ++ platform_errors_of line)
      end
  | level_text, kind, shared_text, size_text, line_text =>
      add_errors scan (platform_errors_of level_text ++ platform_errors_of kind ++
                       platform_errors_of shared_text ++ platform_errors_of size_text ++
                       platform_errors_of line_text)
  end.

(** The caches of one CPU: its files that name a level. *)
Definition scan_cpu_caches (snapshot : LinuxSnapshot) (scan : CacheScan) (cpu : Z) : CacheScan :=
  let cache_root := cpu_root cpu +:+ "/cache/" in
  fold_left (fun scan file =>
    let t := text (fst file) in
    if starts_with_text (text cache_root) t && ends_with_text (text "/level") t then
      scan_cache snapshot (untext (substr t 0 (u64_sub (Z.of_nat (length t)) 6))) scan
    else scan) (ls_files snapshot) scan.

Definition scan_caches (snapshot : LinuxSnapshot) (online : list Z) : CacheScan :=
  let scan := fold_left (scan_cpu_caches snapshot) online (mkCacheScan [] 0 None []) in
  match cs_cache_map scan, cs_cache_line_bytes scan with
  | _ :: _, Some _ => scan
  | _, _ =>
      add_errors scan [inventory_error PlatformErrorCategory_missing_evidence
        "$snapshot/topology/cache" "PLT-CACHE-TOPOLOGY"
        "cache domains and coherency line size are required"]
  end.

(** The name of a cache domain. *)
Definition domain_id (key : CacheKey) : string :=
  "L" +:+ std_to_string (ck_level key) +:+ ":" +:+ ck_kind key +:+ ":" +:+
  String.concat "," (std_to_string <$> ck_cpus key).

Definition cache_domain (last_level : Z) (entry : CacheKey * Z) : CacheDomain :=
  let '(key, size) := entry in
  mkCacheDomain (domain_id key) (ck_level key) (ck_kind key) size (ck_cpus key)
    ((ck_level key =? last_level) && data_cache (ck_kind key)).

(** ** Logical CPUs *)

(** [std::binary_search] in the increasing list of a domain. *)
Definition binary_search (values : list Z) (value : Z) : bool := existsb (Z.eqb value) values.

Definition cpu_domains (cache_map : list (CacheKey * Z)) (cpu : Z) : list string :=
  (fun entry => domain_id (fst entry)) <$>
  List.filter (fun entry => binary_search (ck_cpus (fst entry)) cpu) cache_map.

(** One CPU, or why it is left out. *)
Definition logical_cpu (snapshot : LinuxSnapshot) (cpu_to_node : list (Z * Z))
    (cache_map : list (CacheKey * Z)) (cpu : Z) : LogicalCpu + list PlatformError :=
  let root := cpu_root cpu in
  let file name := required_file snapshot (root +:+ name) in
  match file "/topology/core_id", file "/topology/physical_package_id",
        file "/topology/thread_siblings_list" with
  | PlatformSuccess core_text, PlatformSuccess package_text, PlatformSuccess sibling_text =>
      match parse_u32 (text core_text) root "PLT-CORE-ID",
            parse_u32 (text package_text) root "PLT-PACKAGE-ID", parse_cpu_list sibling_text root,
            cpu_node cpu cpu_to_node with
      | PlatformSuccess core, PlatformSuccess package, PlatformSuccess siblings, Some node =>
          inl (mkLogicalCpu cpu core package node siblings (cpu_domains cache_map cpu) true)
      | core, package, siblings, node =>
          inr (platform_errors_of core ++ platform_errors_of package ++ platform_errors_of siblings ++
               match node with
               | Some _ => []
               | None => [inventory_error PlatformErrorCategory_missing_evidence root "PLT-CPU-NODE"
                            "online CPU has no NUMA-node readback"]
               end)
      end
  | core_text, package_text, sibling_text =>
      inr (platform_errors_of core_text ++ platform_errors_of package_text ++
           platform_errors_of sibling_text)
  end.

Fixpoint logical_cpus_of (snapshot : LinuxSnapshot) (cpu_to_node : list (Z * Z))
    (cache_map : list (CacheKey * Z)) (online : list Z) : list LogicalCpu * list PlatformError :=
  match online with
  | [] => ([], [])
  | cpu :: rest =>
      let '(cpus, errors) := logical_cpus_of snapshot cpu_to_node cache_map rest in
      match logical_cpu snapshot cpu_to_node cache_map cpu with
      | inl logical => (logical :: cpus, errors)
      | inr why => (cpus, why ++ errors)
      end
  end.

(** ** PCI devices *)

Definition pci_prefix : string := "/sys/bus/pci/devices/".
Definition vendor_suffix : string := "/vendor".

(** A file of the snapshot as a device, with the errors of its optional files. *)
Definition pci_device (snapshot : LinuxSnapshot) (file : string * string) :
    list PciDevice * list PlatformError :=
  let '(path, value) := file in
  match between pci_prefix vendor_suffix path with
  | None => ([], [])
  | Some address =>
      let root := pci_prefix +:+ untext address in
      match optional_file snapshot (root +:+ "/device"), optional_file snapshot (root +:+ "/class") with
      | Some device, Some device_class =>
          let node := match optional_file snapshot (root +:+ "/numa_node") with
                      | None => PlatformSuccess None
                      | Some t => match parse_integer from_chars_int32 (text t) root "PLT-PCI-NODE" with
                                  | PlatformSuccess node => PlatformSuccess (Some node)
                                  | PlatformFailure errors => PlatformFailure errors
                                  end
                      end in
          let cpus := match optional_file snapshot (root +:+ "/local_cpulist") with
                      | None => PlatformSuccess []
                      | Some t => parse_cpu_list t root
                      end in
          ([mkPciDevice (untext address) (trim value) device device_class
              (match node with PlatformSuccess node => node | PlatformFailure _ => None end)
              (match cpus with PlatformSuccess cpus => cpus | PlatformFailure _ => [] end)],
           platform_errors_of node ++ platform_errors_of cpus)
      | _, _ => ([], [])
      end
  end.

(** ** The inventory *)

Definition observations_of (snapshot : LinuxSnapshot) : list EvidenceValue :=
  let combined name source paths := mkEvidenceValue name source (combine_optional snapshot paths) in
  [combined "firmware" "dmi-sysfs"
     ["/sys/class/dmi/id/bios_vendor"; "/sys/class/dmi/id/bios_version";
      "/sys/class/dmi/id/bios_date"; "/sys/class/dmi/id/product_name"];
   combined "cpufreq" "cpufreq-sysfs"
     ["/sys/devices/system/cpu/cpufreq/policy0/scaling_governor";
      "/sys/devices/system/cpu/cpufreq/policy0/scaling_max_freq"];
   combined "turbo" "platform-turbo-sysfs"
     ["/sys/devices/system/cpu/intel_pstate/no_turbo"; "/sys/devices/system/cpu/cpufreq/boost"];
   combined "cpuidle" "cpuidle-sysfs"
     ["/sys/devices/system/cpu/cpuidle/current_driver";
      "/sys/devices/system/cpu/cpuidle/current_governor_ro"];
   combined "smt" "smt-sysfs"
     ["/sys/devices/system/cpu/smt/active"; "/sys/devices/system/cpu/smt/control"];
   source_value snapshot "interrupt_affinity" "/proc/irq/default_smp_affinity";
   combined "cpu_isolation" "sysfs+kernel-cmdline"
     ["/sys/devices/system/cpu/isolated"; "/sys/devices/system/cpu/nohz_full"; "/proc/cmdline"];
   source_value snapshot "clock_source"
     "/sys/devices/system/clocksource/clocksource0/current_clocksource";
   combined "huge_pages" "thp-sysfs+proc-meminfo"
     ["/sys/kernel/mm/transparent_hugepage/enabled"; "/proc/meminfo"];
   source_value snapshot "memory_population" "/proc/meminfo"].

Definition snapshot_errors (snapshot : LinuxSnapshot) : list PlatformError :=
  platform_error_when (str_empty (ls_snapshot_id snapshot)) PlatformErrorCategory_missing_evidence
    "$snapshot/id" "PLT-SNAPSHOT-ID" "snapshot ID is required" ++
  platform_error_when (str_empty (ls_captured_at_utc snapshot)) PlatformErrorCategory_missing_evidence
    "$snapshot/captured_at_utc" "PLT-SNAPSHOT-TIME" "explicit capture time is required" ++
  platform_error_when (str_empty (ls_kernel_release snapshot)) PlatformErrorCategory_missing_evidence
    "$snapshot/kernel" "PLT-SNAPSHOT-KERNEL" "kernel release is required".

(** The inventory of the online CPUs, once the first files are read. *)
Definition build_inventory (macros : CompilerMacros) (snapshot : LinuxSnapshot) (online : list Z)
    (cpuinfo : string) (base_page : Z) : PlatformResult PlatformInventory :=
  let nodes := scan_nodes snapshot in
  let caches := scan_caches snapshot online in
  let '(cpus, cpu_errors) :=
    logical_cpus_of snapshot (ns_cpu_to_node nodes) (cs_cache_map caches) online in
  let identity := (cpuinfo_value cpuinfo "vendor_id", cpuinfo_value cpuinfo "model name",
                   cpuinfo_value cpuinfo "stepping", cpuinfo_value cpuinfo "microcode") in
  let devices := pci_device snapshot <$> ls_files snapshot in
  let errors := ns_errors nodes ++ cs_errors caches ++ cpu_errors ++
    match identity with
    | (Some _, Some _, Some _, Some _) => []
    | _ => [inventory_error PlatformErrorCategory_missing_evidence "$snapshot/cpuinfo"
              "PLT-CPU-IDENTITY" "vendor, model, stepping, and microcode are required"]
    end ++ mjoin (snd <$> devices) in
  match errors, identity, cs_cache_line_bytes caches with
  | [], (Some vendor, Some model, Some stepping, Some microcode), Some line =>
      PlatformSuccess (mkPlatformInventory (ls_snapshot_id snapshot) (ls_captured_at_utc snapshot)
        (mkCpuIdentity vendor model stepping microcode line (u64_mul (cm_pointer_bytes macros) 8)
           (cm_atomic_pointer_alignment macros) (cm_atomic_pointer_lock_free macros))
        (mkSoftwareIdentity "Linux" (ls_kernel_release snapshot) (compiler_identity macros)
           (standard_library_identity macros) "C++20")
        base_page cpus (cache_domain (cs_last_level caches) <$> cs_cache_map caches)
        (ns_numa_nodes nodes) (mjoin (fst <$> devices)) (observations_of snapshot))
  | errors, _, _ => PlatformFailure errors
  end.

Definition parse_linux_snapshot (macros : CompilerMacros) (snapshot : LinuxSnapshot) :
    PlatformResult PlatformInventory :=
  let online_text := required_file snapshot "/sys/devices/system/cpu/online" in
  let cpuinfo := required_file snapshot "/proc/cpuinfo" in
  let page_size := required_file snapshot "runtime/base_page_bytes" in
  match snapshot_errors snapshot ++ platform_errors_of online_text ++ platform_errors_of cpuinfo ++
        platform_errors_of page_size, online_text, cpuinfo, page_size with
  | [], PlatformSuccess online_text, PlatformSuccess cpuinfo, PlatformSuccess page_size =>
      match parse_cpu_list online_text "$snapshot/cpu/online",
            parse_u64 (text page_size) "$snapshot/memory/base_page_bytes" "PLT-BASE-PAGE" with
      | PlatformSuccess [], PlatformSuccess _ =>
          PlatformFailure [inventory_error PlatformErrorCategory_missing_evidence
            "$snapshot/cpu/online" "PLT-ONLINE-CPU" "at least one online CPU is required"]
      | PlatformSuccess online, PlatformSuccess base_page =>
          build_inventory macros snapshot online cpuinfo base_page
      | online, base_page => PlatformFailure (platform_errors_of online ++ platform_errors_of base_page)
      end
  | errors, _, _, _ => PlatformFailure errors
  end.

(** ** Collecting the files *)

(** The machine as the provider sees it: the release [uname] reports, if it
    succeeds; the page size of [sysconf]; the text of a readable file; and the
    names in a directory, as far as they can be listed. *)
Class LinuxHost : Type := {
  uname_release : option string;
  sysconf_page_size : Z;
  host_file : string -> option string;
  host_directory : string -> list string
}.

Section Host.

Context `{LinuxHost}.

(** [read_text_file] and [collect_file]: a file that cannot be opened is left out. *)
Definition collect_file (files : list (string * string)) (path : string) : list (string * string) :=
  match host_file path with
  | Some value => default files (map_emplace path value files)
  | None => files
  end.

Definition name_le (a b : string) : Prop := str_ltb b a = false.

#[local] Instance name_le_dec a b : Decision (name_le a b).
Proof. unfold name_le. apply _. Defined.

Definition directory_names (parent prefix : string) : list string :=
  (fun name => parent +:+ "/" +:+ name) <$>
  merge_sort name_le
    (List.filter (fun name => starts_with_text (text prefix) (text name)) (host_directory parent)).

Definition collect_under (names : list string) (files : list (string * string)) (root : string) :
    list (string * string) :=
  fold_left (fun files name => collect_file files (root +:+ "/" +:+ name)) names files.

Definition global_files : list string :=
  ["/sys/devices/system/cpu/online"; "/sys/devices/system/cpu/isolated";
   "/sys/devices/system/cpu/nohz_full"; "/sys/devices/system/cpu/smt/active";
   "/sys/devices/system/cpu/smt/control"; "/sys/devices/system/cpu/cpuidle/current_driver";
   "/sys/devices/system/cpu/cpuidle/current_governor_ro";
   "/sys/devices/system/cpu/intel_pstate/no_turbo"; "/sys/devices/system/cpu/cpufreq/boost";
   "/sys/devices/system/cpu/cpufreq/policy0/scaling_governor";
   "/sys/devices/system/cpu/cpufreq/policy0/scaling_max_freq";
   "/sys/devices/system/clocksource/clocksource0/current_clocksource";
   "/sys/kernel/mm/transparent_hugepage/enabled"; "/sys/class/dmi/id/bios_vendor";
   "/sys/class/dmi/id/bios_version"; "/sys/class/dmi/id/bios_date"].

Definition collect_cpu (files : list (string * string)) (cpu : Z) : list (string * string) :=
  let root := cpu_root cpu in
  let files := collect_under ["topology/core_id"; "topology/physical_package_id";
                              "topology/thread_siblings_list"] files root in
  fold_left (collect_under ["level"; "type"; "shared_cpu_list"; "size"; "coherency_line_size"])
    (directory_names (root +:+ "/cache") "index") files.

Definition collected_files (page_size : Z) : list (string * string) :=
  let files := fold_left collect_file
    ["/proc/cpuinfo"; "/proc/meminfo"; "/proc/cmdline"; "/proc/irq/default_smp_affinity"] [] in
  let files := default files (map_emplace "runtime/base_page_bytes" (std_to_string page_size) files) in
  let files := fold_left collect_file global_files files in
  let files := collect_file files "/sys/class/dmi/id/product_name" in
  let files :=
    match trim <$> map_find "/sys/devices/system/cpu/online" files with
    | Some online_text =>
        match parse_cpu_list online_text "$inventory/cpu/online" with
        | PlatformSuccess online => fold_left collect_cpu online files
        | PlatformFailure _ => files
        end
    | None => files
    end in
  let files := fold_left (collect_under ["cpulist"])
                 (directory_names "/sys/devices/system/node" "node") files in
  fold_left (collect_under ["vendor"; "device"; "class"; "numa_node"; "local_cpulist"])
    (directory_names "/sys/bus/pci/devices" EmptyString) files.

Definition collect (macros : CompilerMacros) (snapshot_id captured_at_utc : string) :
    PlatformResult PlatformInventory :=
  if str_empty snapshot_id || str_empty captured_at_utc then
    PlatformFailure [inventory_error PlatformErrorCategory_missing_evidence "$inventory"
      "PLT-INVENTORY-CONTEXT" "caller must supply explicit snapshot identity and capture time"]
  else
    match uname_release with
    | None =>
        PlatformFailure [inventory_error PlatformErrorCategory_io_error "$inventory/kernel"
          "PLT-UNAME" "uname failed while collecting the read-only inventory"]
    | Some release =>
        if sysconf_page_size <=? 0 then
          PlatformFailure [inventory_error PlatformErrorCategory_io_error
            "$inventory/base_page_bytes" "PLT-PAGE-SIZE" "sysconf(_SC_PAGESIZE) failed"]
        else
          parse_linux_snapshot macros
            (mkLinuxSnapshot snapshot_id captured_at_utc release (collected_files sysconf_page_size))
    end.

(** ** The preflight tool *)

(** The size of a [std::set] after the insertions of a list. *)
Definition distinct {A : Type} `{EqDecision A} (l : list A) : Z := Z.of_nat (length (remove_dups l)).

Definition capability_document (capability : Capability) : Value :=
  Value_object (map_of
    [("control_kind", string_value (to_string_ControlKind (cb_kind capability)));
     ("detection_mechanism", string_value (cb_detection_mechanism capability));
     ("evidence", string_value (cb_evidence capability));
     ("kernel_privilege_required", Value_bool (cb_kernel_privilege_required capability));
     ("status", string_value (to_string_CapabilityStatus (cb_status capability)))]).

Definition observation_document (observation : EvidenceValue) : Value :=
  Value_object (map_of
    [("name", string_value (ev_name observation)); ("source", string_value (ev_source observation));
     ("value", match ev_value observation with Some value => string_value value | None => Value_null end)]).

Definition blockers : list string :=
  ["AUTHORIZED_PRODUCTION_MEASUREMENT_EXECUTABLE_ABSENT";
   "EXPLICIT_NEAR_AND_FAR_WORKER_PAIRS_UNSELECTED";
   "PRIVILEGED_CONTROL_AUTHORITY_AND_WHITELIST_ABSENT";
   "HARDWARE_PREFETCH_MAPPING_READBACK_AND_PROBES_ABSENT"; "CLOCK_SELECTED_PAIR_QUALIFICATION_ABSENT";
   "ADDRESS_RESIDENCY_AND_STORAGE_DOMAIN_EVIDENCE_ABSENT";
   "CALIBRATION_AND_PILOT_FREEZE_INPUTS_ABSENT"].

Definition build_document (repository : RepositoryInfo) : Value :=
  Value_object (map_of
    [("compiler", string_value (ri_compiler repository));
     ("protocol_version", string_value (ri_protocol_version repository));
     ("source_dirty", Value_bool (ri_source_dirty repository));
     ("source_revision", string_value (ri_source_revision repository));
     ("standard_library", string_value (ri_standard_library repository))]).

Definition cpu_document (cpu : CpuIdentity) : Value :=
  Value_object (map_of
    [("atomic_alignment_bytes", uint_value (ci_atomic_alignment_bytes cpu));
     ("atomic_width_bits", uint_value (ci_atomic_width_bits cpu));
     ("cache_line_bytes", uint_value (ci_cache_line_bytes cpu));
     ("microcode", string_value (ci_microcode cpu)); ("model", string_value (ci_model cpu));
     ("pointer_atomic_lock_free", Value_bool (ci_pointer_atomic_lock_free cpu));
     ("stepping", string_value (ci_stepping cpu)); ("vendor", string_value (ci_vendor cpu))]).

Definition topology_document (inventory : PlatformInventory) : Value :=
  let size {A : Type} (l : list A) := uint_value (Z.of_nat (length l)) in
  let cpus := in_logical_cpus inventory in
  Value_object (map_of
    [("cache_domains", size (in_cache_domains inventory)); ("logical_cpus", size cpus);
     ("numa_nodes", size (in_numa_nodes inventory));
     ("packages", uint_value (distinct (lc_package_id <$> cpus)));
     ("pci_devices", size (in_pci_devices inventory));
     ("physical_cores",
      uint_value (distinct ((fun cpu => (lc_package_id cpu, lc_core_id cpu)) <$> cpus)))]).

Definition inventory_document (metadata : BuildMetadata) (inventory : PlatformInventory) : Value :=
  Value_object (map_of
    [("base_page_bytes", uint_value (in_base_page_bytes inventory));
     ("blockers", Value_array (string_value <$> blockers));
     ("build", build_document (repository_info metadata));
     ("capabilities", Value_array (capability_document <$> detect_capabilities inventory));
     ("captured_at_utc", string_value (in_captured_at_utc inventory));
     ("cpu", cpu_document (in_cpu inventory));
     ("observations", Value_array (observation_document <$> in_observations inventory));
     ("protocol_version", string_value "2.0.0-pre.2");
     ("qualification_state", string_value "INVENTORY_ONLY_NOT_QUALIFIED");
     ("schema_version", string_value "cpu-prefetch-stand-preflight/1");
     ("snapshot_id", string_value (in_snapshot_id inventory));
     ("topology", topology_document inventory)]).

Definition preflight_usage : string :=
  "Usage:" +:+ line_break +:+
  "  cpu_prefetch_preflight --self-test" +:+ line_break +:+
  "  cpu_prefetch_preflight --snapshot-id ID --captured-at-utc RFC3339_UTC" +:+ line_break +:+
  line_break +:+
  "This tool is read-only. It never applies platform controls and its output is inventory evidence, not stand qualification."
  +:+ line_break.

Definition preflight_self_test (repository : RepositoryInfo) : ProcessOutcome :=
  if negb (String.eqb (ri_protocol_version repository) "2.0.0-pre.2") ||
     str_empty (ri_source_revision repository) || str_empty (ri_compiler repository) ||
     str_empty (ri_standard_library repository) then
    mkProcessOutcome 1 EmptyString
      ("stand-preflight-self-test: FAIL: incomplete build identity" +:+ line_break)
  else
    mkProcessOutcome 0
      ("stand-preflight-self-test: PASS protocol=" +:+ ri_protocol_version repository +:+
       " qualification=INVENTORY_ONLY_NOT_QUALIFIED" +:+ line_break) EmptyString.

Definition print_platform_errors (errors : list PlatformError) : string :=
  String.concat EmptyString
    ((fun error => to_string_PlatformErrorCategory (er_category error) +:+ " " +:+ er_rule_id error +:+
        " " +:+ er_path error +:+ ": " +:+ er_message error +:+ line_break) <$> errors).

Definition preflight_inventory (macros : CompilerMacros) (metadata : BuildMetadata)
    (snapshot_id captured_at_utc : string) : ProcessOutcome :=
  match collect macros snapshot_id captured_at_utc with
  | PlatformFailure errors => mkProcessOutcome 1 EmptyString (print_platform_errors errors)
  | PlatformSuccess inventory =>
      match canonicalize (inventory_document metadata inventory) with
      | failure errors => mkProcessOutcome 1 EmptyString (print_errors errors)
      | success canonical => mkProcessOutcome 0 (canonical +:+ line_break) EmptyString
      end
  end.

(** [run] and [main] of the preflight tool. *)
Definition preflight_main (macros : CompilerMacros) (metadata : BuildMetadata) (argv : list string) :
    ProcessOutcome :=
  match argv with
  | [_; option] =>
      if String.eqb option "--self-test" then preflight_self_test (repository_info metadata)
      else if String.eqb option "--help" || String.eqb option "-h" then
        mkProcessOutcome 0 preflight_usage EmptyString
      else mkProcessOutcome 2 EmptyString preflight_usage
  | [_; id_option; snapshot_id; time_option; captured_at_utc] =>
      if negb (String.eqb id_option "--snapshot-id") ||
         negb (String.eqb time_option "--captured-at-utc") then
        mkProcessOutcome 2 EmptyString preflight_usage
      else preflight_inventory macros metadata snapshot_id captured_at_utc
  | _ => mkProcessOutcome 2 EmptyString preflight_usage
  end.

End Host.

(** ** Lemmas: CPU lists *)

Lemma increasing_NoDup (l : list Z) : StronglySorted Z.lt l -> NoDup l.
Proof.
  induction 1 as [|x l _ IH F]; constructor; [|done]. rewrite Forall_forall in F. intros I%F. lia.
Qed.

#[local] Instance lt_antisymm : AntiSymm (=) Z.lt.
Proof. intros x y. lia. Qed.

Lemma set_insert_spec x values : StronglySorted Z.lt values ->
  match set_insert x values with
  | Some v => x ∉ values /\ StronglySorted Z.lt v /\ v ≡ₚ x :: values
  | None => x ∈ values
  end.
Proof.
  induction 1 as [|y rest S IH F]; cbn [set_insert].
  { split_and!; [by intros ?%elem_of_nil | by repeat constructor | done]. }
  destruct (Z.ltb_spec x y) as [L|L].
  - rewrite Forall_forall in F. split_and!; [|repeat constructor|done].
    + intros [->|I]%elem_of_cons; [lia|]. apply F in I. lia.
    + done.
    + by apply Forall_forall.
    + done.
    + apply Forall_forall. intros z I. apply F in I. lia.
  - destruct (Z.ltb_spec y x) as [M|M].
    + destruct (set_insert x rest) as [v|]; cbn; [|by apply elem_of_cons; right].
      destruct IH as (N & V & P). split_and!.
      * intros [->|I]%elem_of_cons; [lia | done].
      * constructor; [done|]. rewrite P. by constructor.
      * rewrite P. apply Permutation_swap.
    + assert (x = y) as -> by lia. apply elem_of_cons. by left.
Qed.

Lemma insert_range_spec fuel : forall value last values,
  StronglySorted Z.lt values -> 0 <= value <= last + 1 -> last <= u32_max ->
  (Z.to_nat (last - value + 2) <= fuel)%nat ->
  match insert_range fuel value last values with
  | Some v => (forall x, x ∈ seqZ value (last - value + 1) -> x ∉ values) /\ StronglySorted Z.lt v /\
      v ≡ₚ seqZ value (last - value + 1) ++ values
  | None => exists x, x ∈ seqZ value (last - value + 1) /\ x ∈ values
  end.
Proof.
  induction fuel as [|fuel IH]; intros value last values S B U L; [lia|]. cbn [insert_range].
  destruct (Z.leb_spec value last) as [V|V].
  - rewrite seqZ_cons by lia. pose proof (set_insert_spec value values S) as I.
    destruct (set_insert value values) as [v|]; [|exists value; by rewrite elem_of_cons; auto].
    destruct I as (N & Sv & P).
    assert (W : u64_add value 1 = Z.succ value)
      by (rewrite u64_add_small by int_lia; lia).
    rewrite W. replace (Z.pred (last - value + 1)) with (last - Z.succ value + 1) by lia.
    specialize (IH (Z.succ value) last v Sv ltac:(lia) U ltac:(lia)).
    destruct (insert_range fuel (Z.succ value) last v) as [w|].
    + destruct IH as (D & Sw & Q). split_and!; [|done|].
      * intros x [->|X]%elem_of_cons; [done|]. apply D in X. rewrite P in X. set_solver.
      * rewrite Q, P. symmetry. apply Permutation_middle.
    + destruct IH as (x & X & Y). rewrite P in Y. apply elem_of_cons in Y as [->|Y].
      * apply elem_of_seqZ in X. lia.
      * exists x. by rewrite elem_of_cons; auto.
  - assert (value = last + 1) as -> by lia. replace (last - (last + 1) + 1) with 0 by lia.
    split_and!; [by intros x ?%elem_of_nil | done | done].
Qed.

(** The number a text denotes. *)
Definition denotes_u32 (t : list ascii) (n : Z) : Prop :=
  exists digits, trim_text t = digits /\ digits <> [] /\ forallb json_is_digit digits = true /\
    n = decimal_value digits /\ n <= u32_max.

(** A token [n] or [first-last]. *)
Definition denotes_range (token : list ascii) (range : Z * Z) : Prop :=
  let '(first, last) := range in
  denotes_u32 (fst (split_dash token)) first /\
  match snd (split_dash token) with
  | Some after => denotes_u32 after last
  | None => last = first
  end /\ first <= last.

Definition listed (ranges : list (Z * Z)) : list Z :=
  '(first, last) ← ranges; seqZ first (last - first + 1).

Lemma parse_u32_spec t path rule n :
  parse_u32 t path rule = PlatformSuccess n <-> denotes_u32 t n.
Proof.
  unfold parse_u32, parse_integer, from_chars_unsigned, denotes_u32.
  destruct (trim_text t) as [|c digits] eqn:T; [split; [done | by intros (? & <- & ? & _)]|].
  destruct (forallb json_is_digit (c :: digits)) eqn:D.
  - destruct (Z.leb_spec (decimal_value (c :: digits)) u32_max) as [L|L]; cbn [andb]; split.
    + intros [= <-]. by exists (c :: digits).
    + intros (? & <- & _ & _ & -> & _). done.
    + done.
    + intros (? & <- & _ & _ & -> & ?). lia.
  - cbn [andb]. split; [done|]. intros (? & <- & _ & E & _). congruence.
Qed.

Lemma digits_nonneg digits : forallb json_is_digit digits = true -> 0 <= decimal_value digits.
Proof.
  intros F. apply decimal_value_nonneg. rewrite forallb_forall in F. apply Forall_forall.
  intros c I. by apply F, list_elem_of_In.
Qed.

Lemma denotes_u32_nonneg t n : denotes_u32 t n -> 0 <= n <= u32_max.
Proof. intros (digits & _ & _ & D & -> & L). split; [by apply digits_nonneg | done]. Qed.

Lemma parse_u32_cases t path rule :
  (exists n, parse_u32 t path rule = PlatformSuccess n /\ denotes_u32 t n) \/
  exists errors, parse_u32 t path rule = PlatformFailure errors /\ forall n, ~ denotes_u32 t n.
Proof.
  destruct (parse_u32 t path rule) as [n|errors] eqn:P.
  - left. exists n. split; [done|]. by apply parse_u32_spec in P.
  - right. exists errors. split; [done|]. intros n D. apply (parse_u32_spec t path rule) in D. congruence.
Qed.

Lemma denotes_u32_unique t a b : denotes_u32 t a -> denotes_u32 t b -> a = b.
Proof. by intros (? & <- & _ & _ & -> & _) (? & <- & _ & _ & -> & _). Qed.

Lemma denotes_range_unique token a b : denotes_range token a -> denotes_range token b -> a = b.
Proof.
  destruct a as [a1 a2], b as [b1 b2]. unfold denotes_range. intros (A1 & A2 & _) (B1 & B2 & _).
  assert (a1 = b1) as <- by (by eapply denotes_u32_unique).
  destruct (snd (split_dash token)); [|by subst]. f_equal. by eapply denotes_u32_unique.
Qed.

(** The range of a token, or that there is none. *)
Lemma token_range_cases token path :
  (exists first last, denotes_range token (first, last) /\ 0 <= first <= last /\ last <= u32_max /\
     forall values, parse_token token path values =
       match insert_range (range_fuel first last) first last values with
       | Some values => PlatformSuccess values
       | None =>
           PlatformFailure [inventory_error PlatformErrorCategory_parse_error path
                              "PLT-CPU-LIST-DUPLICATE" "CPU list contains a duplicate logical CPU"]
       end) \/
  (forall range, ~ denotes_range token range) /\
  exists errors, forall values, parse_token token path values = PlatformFailure errors.
Proof.
  unfold parse_token, denotes_range. destruct (split_dash token) as [before after]. cbn [fst snd].
  destruct (parse_u32_cases before path "PLT-CPU-LIST") as [(first & -> & F)|(errors & -> & F)];
    [|right; split; [intros [a b] (? & _); by eapply F | by exists errors]].
  pose proof (denotes_u32_nonneg _ _ F) as BF.
  destruct after as [after|].
  - destruct (parse_u32_cases after path "PLT-CPU-LIST") as [(last & -> & L)|(errors & -> & L)];
      [|right; split; [intros [a b] (_ & ? & _); by eapply L | by exists errors]].
    pose proof (denotes_u32_nonneg _ _ L) as BL. destruct (Z.ltb_spec last first) as [X|X].
    + right. split; [|by eexists]. intros [a b] (A & B & C).
      rewrite (denotes_u32_unique _ _ _ A F), (denotes_u32_unique _ _ _ B L) in C. lia.
    + left. exists first, last. split_and!; try done; lia.
  - left. exists first, first. rewrite Z.ltb_irrefl. split_and!; try done; lia.
Qed.

Lemma parse_token_spec token path values v : StronglySorted Z.lt values ->
  parse_token token path values = PlatformSuccess v <->
  exists range, denotes_range token range /\ NoDup (listed [range] ++ values) /\
    StronglySorted Z.lt v /\ v ≡ₚ listed [range] ++ values.
Proof.
  intros S. destruct (token_range_cases token path) as [(first & last & D & B & U & ->)|(N & errors & ->)].
  - pose proof (insert_range_spec (range_fuel first last) first last values S ltac:(lia) U ltac:(done)) as I.
    assert (X : listed [(first, last)] = seqZ first (last - first + 1))
      by (unfold listed; cbn; by rewrite app_nil_r).
    assert (Y : NoDup values) by (by apply increasing_NoDup).
    split.
    + destruct (insert_range _ _ _ _) as [w|]; [|done]. intros [= <-]. destruct I as (N & Sw & P).
      exists (first, last). rewrite X. split_and!; [done | | done | done].
      apply NoDup_app. split_and!; [apply NoDup_seqZ | done | done].
    + intros (range & R & N & Sv & P). rewrite <- (denotes_range_unique _ _ _ D R), X in N, P.
      apply NoDup_app in N as (_ & N & _). destruct (insert_range _ _ _ _) as [w|].
      * destruct I as (_ & Sw & Q). f_equal. apply (StronglySorted_unique Z.lt); [done | done |].
        by rewrite P, Q.
      * destruct I as (x & X1 & X2). by apply N in X1.
  - split; [done|]. intros (range & R & _). by apply N in R.
Qed.

Lemma listed_cons range ranges : listed (range :: ranges) = listed [range] ++ listed ranges.
Proof. unfold listed. cbn. by rewrite app_nil_r. Qed.

Lemma parse_tokens_spec path v tokens : forall values, StronglySorted Z.lt values ->
  parse_tokens tokens path values = PlatformSuccess v <->
  exists ranges, Forall2 denotes_range tokens ranges /\ NoDup (listed ranges ++ values) /\
    StronglySorted Z.lt v /\ v ≡ₚ listed ranges ++ values.
Proof.
  induction tokens as [|token tokens IH]; intros values S; cbn [parse_tokens].
  - split.
    + intros [= <-]. exists []. split_and!; [constructor | by apply increasing_NoDup | done | done].
    + intros (ranges & F & _ & Sv & P). apply Forall2_nil_inv_l in F as ->. f_equal.
      by apply (StronglySorted_unique Z.lt).
  - split.
    + destruct (parse_token token path values) as [w|] eqn:T; [|done].
      apply parse_token_spec in T as (range & R & N & Sw & Q); [|done]. rewrite IH by done.
      intros (ranges & F & N' & Sv & P). exists (range :: ranges). rewrite listed_cons, <- app_assoc.
      rewrite Q in N', P. rewrite Permutation_app_swap_app in N', P.
      split_and!; [by constructor | done | done | done].
    + intros (ranges & F & N & Sv & P).
      apply Forall2_cons_inv_l in F as (range & rest & R & F & ->).
      rewrite listed_cons, <- app_assoc, Permutation_app_swap_app in N, P.
      assert (W : exists w, parse_token token path values = PlatformSuccess w).
      { destruct (token_range_cases token path) as [(first & last & D & B & U & E)|(X & _)];
          [|by apply X in R]. rewrite E.
        pose proof (insert_range_spec (range_fuel first last) first last values S ltac:(lia) U
                      ltac:(done)) as I.
        destruct (insert_range _ _ _ _) as [w|]; [by exists w|]. exfalso.
        destruct I as (x & X1 & X2). rewrite <- (denotes_range_unique _ _ _ D R) in N.
        apply NoDup_app in N as (_ & _ & N). apply NoDup_app in N as (_ & N & _).
        apply (N x); [|done]. unfold listed. cbn. by rewrite app_nil_r. }
      destruct W as [w W]. rewrite W. apply parse_token_spec in W as (range' & R' & _ & Sw & Q); [|done].
      rewrite (denotes_range_unique _ _ _ R' R) in Q.
      apply IH; [done|]. exists rest. rewrite Q. by split_and!.
Qed.

(** C37. What a kernel CPU list means. [parse_cpu_list] succeeds exactly on the texts
    whose comma-separated tokens (an empty one may follow the last comma) denote
    32-bit numbers or ranges [first-last] with [first <= last] that name no CPU
    twice, and returns the CPUs they name, each once, in increasing order; the
    64-bit counter of its loop also ends at the largest CPU number. *)
Theorem parse_cpu_list_exact t path cpus :
  parse_cpu_list t path = PlatformSuccess cpus <->
  exists ranges, Forall2 denotes_range (cpu_tokens [] (trim_text (text t))) ranges /\
    NoDup (listed ranges) /\ StronglySorted Z.lt cpus /\ cpus ≡ₚ listed ranges.
Proof.
  unfold parse_cpu_list. rewrite parse_tokens_spec by constructor.
  by setoid_rewrite app_nil_r.
Qed.

Lemma parse_cpu_list_increasing t path cpus :
  parse_cpu_list t path = PlatformSuccess cpus -> StronglySorted Z.lt cpus.
Proof.
  unfold parse_cpu_list. rewrite parse_tokens_spec by constructor. by intros (? & _ & _ & ? & _).
Qed.

(** ** Lemmas: NUMA nodes *)

Lemma cpu_node_spec cpu node cpu_to_node : NoDup (fst <$> cpu_to_node) ->
  cpu_node cpu cpu_to_node = Some node <-> (cpu, node) ∈ cpu_to_node.
Proof.
  unfold cpu_node. induction cpu_to_node as [|[c n] rest IH]; cbn [fmap list_fmap].
  { intros _. split; [done | by intros ?%elem_of_nil]. }
  rewrite NoDup_cons. intros [N D]. cbn [List.find fst]. rewrite elem_of_cons.
  destruct (Z.eqb_spec c cpu) as [->|E].
  - cbn. split; [intros [= <-]; by left|]. intros [[= <-]|I]; [done|]. exfalso. apply N.
    by apply (list_elem_of_fmap_2 fst) in I.
  - rewrite IH by done. split; [by right|]. intros [[= -> ->]|I]; [done | done].
Qed.

Lemma cpu_node_none cpu cpu_to_node : cpu_node cpu cpu_to_node = None <-> cpu ∉ fst <$> cpu_to_node.
Proof.
  unfold cpu_node. induction cpu_to_node as [|[c n] rest IH]; cbn [fmap list_fmap].
  { split; [by intros _ ?%elem_of_nil | done]. }
  cbn [List.find fst]. rewrite not_elem_of_cons. destruct (Z.eqb_spec c cpu) as [->|E].
  - cbn. split; [done | by intros [? _]].
  - rewrite IH. intuition congruence.
Qed.

(** The map from CPUs to nodes is that of the nodes. *)
Definition node_pairs (nodes : list NumaNode) : list (Z * Z) :=
  node ← nodes; (fun cpu => (cpu, nn_node_id node)) <$> nn_logical_cpus node.

Lemma assign_node_clean path node cpus : forall cpu_to_node cpu_to_node',
  assign_node path node cpus cpu_to_node = (cpu_to_node', []) ->
  NoDup (fst <$> cpu_to_node) ->
  cpu_to_node' ≡ₚ ((fun cpu => (cpu, node)) <$> cpus) ++ cpu_to_node /\ NoDup (fst <$> cpu_to_node').
Proof.
  induction cpus as [|cpu cpus IH]; intros m m'; cbn [assign_node fmap list_fmap].
  { by intros [= <-]. }
  destruct (cpu_node cpu m) as [n|] eqn:C.
  - destruct (assign_node path node cpus m). done.
  - intros E N. apply IH in E as [P D].
    + split; [|done]. rewrite P. symmetry. apply Permutation_middle.
    + cbn. apply NoDup_cons. split; [by apply cpu_node_none | done].
Qed.

(** What the scan of the node files has established when it reports nothing. *)
Record nodes_consistent (scan : NodeScan) : Prop := {
  nc_pairs : ns_cpu_to_node scan ≡ₚ node_pairs (ns_numa_nodes scan);
  nc_unique : NoDup (fst <$> ns_cpu_to_node scan);
  nc_increasing : Forall (fun node => StronglySorted Z.lt (nn_logical_cpus node)) (ns_numa_nodes scan)
}.

Lemma parse_failure_why {A} (r : PlatformResult A) errors :
  r = PlatformFailure errors -> platform_errors_of r = errors.
Proof. by intros ->. Qed.

Lemma parse_u32_why t path rule : parse_u32 t path rule <> PlatformFailure [].
Proof. unfold parse_u32, parse_integer. by destruct (from_chars_unsigned _ _). Qed.

Lemma parse_cpu_list_why t path : parse_cpu_list t path <> PlatformFailure [].
Proof.
  unfold parse_cpu_list. generalize (@nil Z). generalize (cpu_tokens [] (trim_text (text t))).
  induction l as [|token tokens IH]; intros values; cbn [parse_tokens]; [done|].
  destruct (parse_token token path values) as [w|errors] eqn:T; [apply IH|]. intros [= ->]. revert T.
  unfold parse_token. destruct (split_dash token) as [before after].
  destruct (parse_u32 before _ _) as [first|e] eqn:B; [|intros [= ->]; by apply parse_u32_why in B].
  destruct after as [after|].
  - destruct (parse_u32 after _ _) as [last|e] eqn:A; [|intros [= ->]; by apply parse_u32_why in A].
    destruct (last <? first); [done|]. by destruct (insert_range _ _ _ _).
  - destruct (first <? first); [done|]. by destruct (insert_range _ _ _ _).
Qed.

Lemma scan_node_clean scan file : ns_errors (scan_node scan file) = [] ->
  ns_errors scan = [] /\ (nodes_consistent scan -> nodes_consistent (scan_node scan file)).
Proof.
  destruct file as [path value]. unfold scan_node.
  destruct (between node_prefix node_suffix path) as [id_text|]; [|done].
  destruct (parse_u32 id_text path "PLT-NODE-ID") as [node|e1] eqn:P1;
    destruct (parse_cpu_list value path) as [cpus|e2] eqn:P2;
    try (cbn; intros E; repeat (apply app_nil in E as [? E]); subst;
         first [by apply parse_u32_why in P1 | by apply parse_cpu_list_why in P2]).
  destruct (assign_node path node cpus (ns_cpu_to_node scan)) as [m errors] eqn:A.
  cbn. intros [E ->]%app_nil. split; [done|]. intros [C1 C2 C3].
  apply assign_node_clean in A as [P D]; [|done]. split; cbn.
  - rewrite P, C1. unfold node_pairs. rewrite bind_app. cbn. rewrite app_nil_r. apply Permutation_app_comm.
  - done.
  - apply Forall_app. split; [done|]. constructor; [|done]. by apply parse_cpu_list_increasing in P2.
Qed.

Lemma scan_node_fold files : forall scan, ns_errors (fold_left scan_node files scan) = [] ->
  ns_errors scan = [] /\ (nodes_consistent scan -> nodes_consistent (fold_left scan_node files scan)).
Proof.
  induction files as [|file files IH]; intros scan E; [done|]. cbn in E |- *.
  apply IH in E as [E F]. apply scan_node_clean in E as [E G]. split; [done | tauto].
Qed.

Lemma scan_nodes_clean snapshot : ns_errors (scan_nodes snapshot) = [] ->
  nodes_consistent (scan_nodes snapshot).
Proof.
  unfold scan_nodes. cbv zeta. cbn [ns_errors]. intros [E _]%app_nil.
  apply scan_node_fold in E as [_ F]. destruct F as [C1 C2 C3].
  { split; cbn; [done | constructor | constructor]. }
  pose proof (merge_sort_Permutation node_le (ns_numa_nodes (fold_left scan_node (ls_files snapshot)
    (mkNodeScan [] [] [])))) as P.
  split; cbn [ns_cpu_to_node ns_numa_nodes]; [|done|by rewrite P].
  rewrite C1. unfold node_pairs. by rewrite P.
Qed.

(** ** Lemmas: caches *)

Lemma compare_cpus_eq a : forall b, compare_cpus a b = Eq -> a = b.
Proof.
  induction a as [|x a IH]; intros [|y b]; cbn; [done..|].
  destruct (Z.compare_spec x y) as [->| |]; [|done..]. by intros ->%IH.
Qed.

Lemma compare_keys_eq a b : compare_keys a b = Eq -> a = b.
Proof.
  destruct a as [l k c], b as [l' k' c']. unfold compare_keys. cbn.
  destruct (Z.compare_spec l l') as [->| |]; [|done..].
  destruct (String.compare k k') eqn:K; [|done..]. apply String.compare_eq_iff in K as ->.
  by intros ->%compare_cpus_eq.
Qed.

(** After [emplace] the map has the key, what it had, and nothing else. *)
Lemma cache_emplace_spec key size caches : forall r held,
  cache_emplace key size caches = (r, held) ->
  caches ⊆ r /\ (key ∈ fst <$> r) /\ forall entry, entry ∈ r -> entry ∈ caches \/ entry = (key, size).
Proof.
  induction caches as [|[k s] caches IH]; intros r held; cbn [cache_emplace].
  { intros [= <- <-]. split_and!; [set_solver | cbn; set_solver | set_solver]. }
  destruct (compare_keys key k) eqn:C.
  - intros [= <- <-]. apply compare_keys_eq in C as <-. split_and!; [done | cbn; set_solver | by left].
  - intros [= <- <-]. split_and!; [set_solver | cbn; set_solver | set_solver].
  - destruct (cache_emplace key size caches) as [r' held'] eqn:E. intros [= <- <-].
    destruct (IH _ _ eq_refl) as (S & K & F). split_and!; [set_solver | cbn; set_solver|].
    intros entry [->|I]%elem_of_cons; [left; set_solver|]. apply F in I as [I|I]; [left; set_solver | by right].
Qed.

(** The caches found so far, whatever errors were reported. *)
Record caches_consistent (scan : CacheScan) : Prop := {
  cc_keys : Forall (fun entry => StronglySorted Z.lt (ck_cpus (fst entry)) /\ 0 <= ck_level (fst entry))
    (cs_cache_map scan);
  cc_bound : forall entry, entry ∈ cs_cache_map scan -> data_cache (ck_kind (fst entry)) = true ->
    ck_level (fst entry) <= cs_last_level scan;
  cc_attained : cs_last_level scan = 0 \/ exists entry, entry ∈ cs_cache_map scan /\
    data_cache (ck_kind (fst entry)) = true /\ ck_level (fst entry) = cs_last_level scan
}.

Lemma record_cache_consistent scan root key size line :
  StronglySorted Z.lt (ck_cpus key) -> 0 <= ck_level key ->
  caches_consistent scan -> caches_consistent (record_cache scan root key size line).
Proof.
  intros S L [C1 C2 C3]. unfold record_cache.
  destruct (cache_emplace key size (cs_cache_map scan)) as [r held] eqn:E.
  apply cache_emplace_spec in E as (I & K & F). split; cbn [cs_cache_map cs_last_level].
  - rewrite Forall_forall in *. intros entry [H| ->]%F; [by apply C1 | done].
  - intros entry [H| ->]%F D.
    + apply C2 in H; [|done]. destruct (data_cache (ck_kind key)); lia.
    + cbn in D |- *. rewrite D. lia.
  - destruct (data_cache (ck_kind key)) eqn:D.
    + destruct (Z.max_spec (cs_last_level scan) (ck_level key)) as [[_ ->]|[_ ->]].
      * right. apply list_elem_of_fmap in K as (entry & -> & H). by exists entry.
      * destruct C3 as [->|(entry & H1 & H2 & H3)]; [by left|]. right. exists entry.
        split; [by apply I | done].
    + destruct C3 as [->|(entry & H1 & H2 & H3)]; [by left|]. right. exists entry.
      split; [by apply I | done].
Qed.

Lemma add_errors_consistent scan errors :
  caches_consistent scan -> caches_consistent (add_errors scan errors).
Proof. by intros [C1 C2 C3]; split. Qed.

Lemma scan_cache_consistent snapshot root scan :
  caches_consistent scan -> caches_consistent (scan_cache snapshot root scan).
Proof.
  intros C. unfold scan_cache. cbv zeta.
  do 5 (destruct (required_file snapshot _); [|by apply add_errors_consistent]).
  destruct (parse_u32 _ _ _) as [level|] eqn:P; [|by apply add_errors_consistent].
  destruct (parse_cpu_list _ _) as [shared|] eqn:Q; [|by apply add_errors_consistent].
  destruct (cache_size_bytes _ _); [|by apply add_errors_consistent].
  destruct (parse_u64 _ _ _); [|by apply add_errors_consistent].
  apply record_cache_consistent; [by apply parse_cpu_list_increasing in Q | | done].
  apply parse_u32_spec, denotes_u32_nonneg in P. apply P.
Qed.

Lemma fold_left_invariant {A B : Type} (I : A -> Prop) (f : A -> B -> A) l : forall a,
  (forall a b, I a -> I (f a b)) -> I a -> I (fold_left f l a).
Proof. induction l as [|b l IH]; intros a H Ha; [done|]. cbn. apply IH; [done|]. by apply H. Qed.

Lemma scan_caches_consistent snapshot online : caches_consistent (scan_caches snapshot online).
Proof.
  unfold scan_caches. cbv zeta.
  assert (C : caches_consistent (fold_left (scan_cpu_caches snapshot) online (mkCacheScan [] 0 None []))).
  { apply fold_left_invariant.
    - intros scan cpu. unfold scan_cpu_caches. apply fold_left_invariant. intros s file Hs. cbv beta zeta.
      destruct (_ && _); [by apply scan_cache_consistent | done].
    - split; cbn; [constructor | by intros ? ?%elem_of_nil | by left]. }
  destruct (cs_cache_map _); [by apply add_errors_consistent|].
  destruct (cs_cache_line_bytes _); [done | by apply add_errors_consistent].
Qed.

Lemma scan_caches_line snapshot online : cs_errors (scan_caches snapshot online) = [] ->
  is_Some (cs_cache_line_bytes (scan_caches snapshot online)).
Proof.
  unfold scan_caches. cbv zeta. set (scan := fold_left _ _ _).
  destruct (cs_cache_map scan); [by cbn; intros [_ ?]%app_nil|].
  destruct (cs_cache_line_bytes scan) eqn:L; [by rewrite L | by cbn; intros [_ ?]%app_nil].
Qed.

(** ** Lemmas: logical CPUs *)

Lemma required_file_why snapshot path : required_file snapshot path <> PlatformFailure [].
Proof. unfold required_file. by destruct (map_find _ _). Qed.

Lemma logical_cpu_why snapshot cpu_to_node cache_map cpu :
  logical_cpu snapshot cpu_to_node cache_map cpu <> inr [].
Proof.
  unfold logical_cpu. cbv zeta.
  destruct (required_file snapshot (cpu_root cpu +:+ "/topology/core_id")) as [core|e] eqn:E1;
    [|intros [= E]; apply app_nil in E as [-> _]; by apply required_file_why in E1].
  destruct (required_file snapshot (cpu_root cpu +:+ "/topology/physical_package_id")) as [package|e] eqn:E2;
    [|intros [= E]; apply app_nil in E as [-> _]; by apply required_file_why in E2].
  destruct (required_file snapshot (cpu_root cpu +:+ "/topology/thread_siblings_list")) as [sibling|e] eqn:E3;
    [|intros [= ->]; by apply required_file_why in E3].
  destruct (parse_u32 (text core) _ _) as [c|e] eqn:P1;
    [|intros [= E]; apply app_nil in E as [-> _]; by apply parse_u32_why in P1].
  destruct (parse_u32 (text package) _ _) as [p|e] eqn:P2;
    [|intros [= E]; apply app_nil in E as [-> _]; by apply parse_u32_why in P2].
  destruct (parse_cpu_list sibling _) as [s|e] eqn:P3;
    [|intros [= E]; apply app_nil in E as [-> _]; by apply parse_cpu_list_why in P3].
  by destruct (cpu_node cpu cpu_to_node).
Qed.

Lemma logical_cpus_clean snapshot cpu_to_node cache_map online : forall cpus,
  logical_cpus_of snapshot cpu_to_node cache_map online = (cpus, []) ->
  Forall2 (fun cpu logical => logical_cpu snapshot cpu_to_node cache_map cpu = inl logical) online cpus.
Proof.
  induction online as [|cpu online IH]; intros cpus; cbn [logical_cpus_of].
  { intros [= <-]. constructor. }
  destruct (logical_cpus_of snapshot cpu_to_node cache_map online) as [rest errors].
  destruct (logical_cpu snapshot cpu_to_node cache_map cpu) as [logical|why] eqn:L.
  - intros [= <- ->]. constructor; [done|]. by apply IH.
  - intros [= <- E]. apply app_nil in E as [-> _]. by apply logical_cpu_why in L.
Qed.

Lemma logical_cpu_inv snapshot cpu_to_node cache_map cpu logical :
  logical_cpu snapshot cpu_to_node cache_map cpu = inl logical ->
  lc_logical_id logical = cpu /\ cpu_node cpu cpu_to_node = Some (lc_numa_node logical) /\
  lc_cache_domains logical = cpu_domains cache_map cpu /\ lc_online logical = true.
Proof.
  unfold logical_cpu. cbv zeta. do 3 (destruct (required_file snapshot _); [|done]).
  destruct (parse_u32 (text value) _ _); [|done]. destruct (parse_u32 (text value0) _ _); [|done].
  destruct (parse_cpu_list value1 _); [|done]. destruct (cpu_node cpu cpu_to_node); [|done].
  by intros [= <-].
Qed.

(** ** The inventory *)

(** What an inventory certifies of the snapshot it was built from. *)
Record inventory_sound (snapshot : LinuxSnapshot) (inventory : PlatformInventory) : Prop := {
  iv_online : exists t, map_find "/sys/devices/system/cpu/online" (ls_files snapshot) = Some t /\
    parse_cpu_list (trim t) "$snapshot/cpu/online" =
    PlatformSuccess (lc_logical_id <$> in_logical_cpus inventory);
  iv_cpus : in_logical_cpus inventory <> [] /\
    StronglySorted Z.lt (lc_logical_id <$> in_logical_cpus inventory) /\
    Forall (fun cpu => lc_online cpu = true) (in_logical_cpus inventory);
  iv_node : forall cpu, cpu ∈ in_logical_cpus inventory ->
    exists node, node ∈ in_numa_nodes inventory /\ nn_node_id node = lc_numa_node cpu /\
      lc_logical_id cpu ∈ nn_logical_cpus node;
  iv_disjoint : NoDup (in_numa_nodes inventory ≫= nn_logical_cpus);
  iv_domains : forall cpu, cpu ∈ in_logical_cpus inventory ->
    lc_cache_domains cpu =
    dm_domain_id <$> List.filter (fun domain => contains (dm_shared_cpus domain) (lc_logical_id cpu))
                       (in_cache_domains inventory);
  iv_shared : Forall (fun domain => StronglySorted Z.lt (dm_shared_cpus domain)) (in_cache_domains inventory);
  iv_last_level : forall domain, domain ∈ in_cache_domains inventory ->
    dm_last_level domain = true <->
    data_cache (dm_kind domain) = true /\
    forall other, other ∈ in_cache_domains inventory -> data_cache (dm_kind other) = true ->
      dm_level other <= dm_level domain
}.

Lemma node_pairs_fst nodes : fst <$> node_pairs nodes = nodes ≫= nn_logical_cpus.
Proof.
  unfold node_pairs. induction nodes as [|node nodes IH]; [done|]. cbn. rewrite fmap_app, IH. f_equal.
  rewrite <- list_fmap_compose. apply list_fmap_id.
Qed.

Lemma cpu_domains_spec last caches cpu :
  cpu_domains caches cpu =
  dm_domain_id <$> List.filter (fun domain => contains (dm_shared_cpus domain) cpu)
                     (cache_domain last <$> caches).
Proof.
  unfold cpu_domains. induction caches as [|[key size] caches IH]; [done|]. cbn.
  unfold binary_search, contains in *. destruct (existsb (Z.eqb cpu) (ck_cpus key)); cbn; by rewrite IH.
Qed.

Lemma last_level_spec scan domain : caches_consistent scan ->
  domain ∈ cache_domain (cs_last_level scan) <$> cs_cache_map scan ->
  dm_last_level domain = true <->
  data_cache (dm_kind domain) = true /\
  forall other, other ∈ cache_domain (cs_last_level scan) <$> cs_cache_map scan ->
    data_cache (dm_kind other) = true -> dm_level other <= dm_level domain.
Proof.
  intros [C1 C2 C3] ([key size] & -> & I)%list_elem_of_fmap. cbn.
  rewrite Forall_forall in C1. destruct (C1 _ I) as [_ L]. cbn in L.
  rewrite andb_true_iff, Z.eqb_eq. split.
  - intros [-> D]. split; [done|]. intros other ([k s] & -> & J)%list_elem_of_fmap O. cbn in O |- *.
    apply (C2 _ J O).
  - intros [D M]. split; [|done]. apply C2 in I as B; [|done]. cbn in B.
    destruct C3 as [E|([k s] & J & O & E)]; [lia|]. cbn in O, E.
    specialize (M _ (list_elem_of_fmap_2 (cache_domain (cs_last_level scan)) _ _ J) O). cbn in M. lia.
Qed.

Lemma build_inventory_inv macros snapshot online cpuinfo base_page inventory :
  build_inventory macros snapshot online cpuinfo base_page = PlatformSuccess inventory ->
  let nodes := scan_nodes snapshot in
  let caches := scan_caches snapshot online in
  ns_errors nodes = [] /\
  logical_cpus_of snapshot (ns_cpu_to_node nodes) (cs_cache_map caches) online =
  (in_logical_cpus inventory, []) /\
  in_numa_nodes inventory = ns_numa_nodes nodes /\
  in_cache_domains inventory = cache_domain (cs_last_level caches) <$> cs_cache_map caches.
Proof.
  unfold build_inventory. cbv zeta.
  destruct (logical_cpus_of _ _ _ _) as [cpus errors].
  destruct (ns_errors (scan_nodes snapshot)); [|done]. cbn [app].
  destruct (cs_errors (scan_caches snapshot online)); [|done]. cbn [app].
  destruct errors; [|done]. cbn [app].
  do 4 (destruct (cpuinfo_value cpuinfo _); [|done]). cbn [app].
  destruct (mjoin (snd <$> _)); [|done].
  destruct (cs_cache_line_bytes _); [|done]. intros [= <-]. done.
Qed.

Lemma build_inventory_why macros snapshot online cpuinfo base_page :
  build_inventory macros snapshot online cpuinfo base_page <> PlatformFailure [].
Proof.
  unfold build_inventory. cbv zeta. destruct (logical_cpus_of _ _ _ _) as [cpus errors].
  destruct (ns_errors (scan_nodes snapshot)); [|done]. cbn [app].
  destruct (cs_errors (scan_caches snapshot online)) eqn:C; [|done]. cbn [app].
  apply scan_caches_line in C as [line ->].
  destruct errors; [|done]. cbn [app].
  do 4 (destruct (cpuinfo_value cpuinfo _); [|done]). cbn [app].
  by destruct (mjoin (snd <$> _)).
Qed.

Lemma build_inventory_sound macros snapshot t online cpuinfo base_page inventory :
  map_find "/sys/devices/system/cpu/online" (ls_files snapshot) = Some t ->
  parse_cpu_list (trim t) "$snapshot/cpu/online" = PlatformSuccess online -> online <> [] ->
  build_inventory macros snapshot online cpuinfo base_page = PlatformSuccess inventory ->
  inventory_sound snapshot inventory.
Proof.
  intros F P N B. apply build_inventory_inv in B as (E & L & Q & D).
  apply scan_nodes_clean in E as [C1 C2 C3]. apply logical_cpus_clean in L.
  pose proof (scan_caches_consistent snapshot online) as K.
  assert (I : lc_logical_id <$> in_logical_cpus inventory = online).
  { clear -L. induction L as [|cpu logical cpus logicals H _ IH]; [done|]. cbn. rewrite IH.
    by apply logical_cpu_inv in H as (-> & _). }
  assert (A : forall cpu, cpu ∈ in_logical_cpus inventory ->
    exists id, logical_cpu snapshot (ns_cpu_to_node (scan_nodes snapshot))
                 (cs_cache_map (scan_caches snapshot online)) id = inl cpu).
  { intros cpu H. apply list_elem_of_lookup in H as [i H].
    destruct (Forall2_lookup_r _ _ _ _ _ L H) as (id & _ & X). by exists id. }
  split.
  - exists t. split; [done|]. by rewrite I.
  - rewrite I. split_and!.
    + intros X. by rewrite X in I.
    + by apply parse_cpu_list_increasing in P.
    + apply Forall_forall. intros cpu [id X]%A. by apply logical_cpu_inv in X as (_ & _ & _ & ?).
  - intros cpu [id X]%A. apply logical_cpu_inv in X as (<- & X & _).
    apply cpu_node_spec in X; [|done]. rewrite C1 in X. unfold node_pairs in X.
    apply list_elem_of_bind in X as (node & X & H). apply list_elem_of_fmap in X as (c & [= -> ->] & X).
    exists node. by rewrite Q.
  - rewrite Q, <- node_pairs_fst, <- C1. done.
  - intros cpu [id X]%A. apply logical_cpu_inv in X as (<- & _ & -> & _). rewrite D. apply cpu_domains_spec.
  - rewrite D. apply Forall_forall. intros domain ([key size] & -> & X)%list_elem_of_fmap. cbn.
    pose proof (cc_keys _ K) as Y. rewrite Forall_forall in Y. apply (Y _ X).
  - rewrite D. intros domain. by apply last_level_spec.
Qed.

(** C17. What an inventory certifies. An inventory that [parse_linux_snapshot]
    returns lists exactly the CPUs of the kernel's online list, once each and in
    order; every one of them belongs to a node that was read, and no CPU to two
    nodes; its cache domains are exactly the domains that share it; and a domain is
    marked as last level exactly if it is a data or unified cache of the highest
    level of those. A snapshot that gives no inventory gives the reason. *)
Theorem linux_inventory_sound macros snapshot :
  (forall inventory, parse_linux_snapshot macros snapshot = PlatformSuccess inventory ->
     inventory_sound snapshot inventory) /\
  parse_linux_snapshot macros snapshot <> PlatformFailure [].
Proof.
  unfold parse_linux_snapshot, required_file. cbv zeta.
  destruct (map_find "/sys/devices/system/cpu/online" (ls_files snapshot)) as [t|] eqn:F;
    [|by destruct (snapshot_errors snapshot)].
  destruct (map_find "/proc/cpuinfo" (ls_files snapshot)) as [cpuinfo|];
    [|by destruct (snapshot_errors snapshot)].
  destruct (map_find "runtime/base_page_bytes" (ls_files snapshot)) as [page|];
    [|by destruct (snapshot_errors snapshot)].
  destruct (snapshot_errors snapshot); [|done]. cbn [platform_errors_of app].
  destruct (parse_cpu_list (trim t) "$snapshot/cpu/online") as [online|e] eqn:P.
  - destruct (parse_u64 _ _ _) as [base_page|e] eqn:B; destruct online as [|cpu online]; try done.
    + split; [|apply build_inventory_why]. intros inventory. by apply build_inventory_sound with t.
    + split; [done|]. cbn. intros [= ->]. unfold parse_u64, parse_integer in B. by destruct (from_chars_unsigned _ _).
    + split; [done|]. cbn. intros [= ->]. unfold parse_u64, parse_integer in B. by destruct (from_chars_unsigned _ _).
  - split; [done|]. intros [= E]. apply app_nil in E as [-> _]. by apply parse_cpu_list_why in P.
Qed.

(** ** A small machine *)

Definition two_cpu_files : list (string * string) :=
  let cache cpu index := cpu_root cpu +:+ "/cache/index" +:+ index in
  let cpu_files cpu :=
    [(cpu_root cpu +:+ "/topology/core_id", std_to_string cpu);
     (cpu_root cpu +:+ "/topology/physical_package_id", "0");
     (cpu_root cpu +:+ "/topology/thread_siblings_list", std_to_string cpu);
     (cache cpu "0/level", "1"); (cache cpu "0/type", "Data");
     (cache cpu "0/shared_cpu_list", std_to_string cpu); (cache cpu "0/size", "32K");
     (cache cpu "0/coherency_line_size", "64");
     (cache cpu "1/level", "3"); (cache cpu "1/type", "Unified");
     (cache cpu "1/shared_cpu_list", "0-1"); (cache cpu "1/size", "8M");
     (cache cpu "1/coherency_line_size", "64")]%string in
  map_of ([("/sys/devices/system/cpu/online", "0-1" +:+ line_break);
           ("/proc/cpuinfo", "vendor_id : V" +:+ line_break +:+ "model name: M" +:+ line_break +:+
              "stepping : 1" +:+ line_break +:+ "microcode : 0x1" +:+ line_break);
           ("runtime/base_page_bytes", "4096");
           ("/sys/devices/system/node/node0/cpulist", "0");
           ("/sys/devices/system/node/node1/cpulist", "1")]%string ++ cpu_files 0 ++ cpu_files 1).

Definition two_cpu_snapshot : LinuxSnapshot := mkLinuxSnapshot "snapshot" "time" "6.1" two_cpu_files.

Definition sample_macros : CompilerMacros := mkCompilerMacros None (Some "13.2"%string) None (Some 20230801) 8 8 true.

Lemma two_cpu_inventory : exists inventory,
  parse_linux_snapshot sample_macros two_cpu_snapshot = PlatformSuccess inventory /\
  lc_logical_id <$> in_logical_cpus inventory = [0; 1] /\
  dm_last_level <$> in_cache_domains inventory = [false; false; true].
Proof. eexists. split; [vm_compute; reflexivity|]. split; vm_compute; reflexivity. Qed.

Lemma linux_inventory_sound_witness : exists inventory,
  inventory_sound two_cpu_snapshot inventory /\ lc_logical_id <$> in_logical_cpus inventory = [0; 1].
Proof.
  destruct two_cpu_inventory as (inventory & P & I & _). exists inventory. split; [|exact I].
  exact (proj1 (linux_inventory_sound sample_macros two_cpu_snapshot) inventory P).
Defined.
